(* ===== verification/_CoqProject ===== *)
-Q . S2P
Prelude.v
AccessMode.v
Uid.v
StoreTypes.v
RingHash.v
Topology.v
Fence.v
Cluster.v
Election.v
Dedupe.v
Drafty.v
DraftyProps.v
Messages.v
Interactions.v
Utils.v
SendQueue.v
SubStore.v
PCache.v
PubStore.v
History.v
TopicStore.v
LoadStore.v
Topic.v
TopicSub.v
TopicInit.v
TopicSession.v
TopicSubProps.v
TopicSelfProps.v
TopicMemberProps.v
TopicInvites.v
ResumableLease.v
OfficialGov.v
Publish.v
Presence.v
Notes.v
MetaHistory.v
Hub.v
Calls.v
PublishSample.v
PublishProps.v
CallsProps.v
Outbox.v
OutboxProps.v
FanoutProps.v
NotesProps.v
EditProps.v
PresenceProps.v
HistoryProps.v
HubProps.v
HubStages.v
HubNode.v
HubRuns.v
HubReplies.v
InitProps.v
InitRuns.v
ClientBase.v
Accounts.v
Client.v
ClientRules.v
ClientProps.v
ClientDispatch.v
AuthToken.v
AuthCode.v
AuthBasic.v
ClientRuns.v
