(* ===== verification/Prelude.v ===== *)
(** * A verification development for the chat server

    The server under src/ is a cluster of nodes that run topics: a topic (a group, a
    channel, a conversation of two, a user's own topic) lives on the one node that owns
    its name, keeps its subscribers and sessions in memory and writes to a database
    and a persistent key-value cache that all nodes share.  The development models who may
    write a topic, who may do what in it, and what nodes that work on shared records at
    once do to each other.

    ** Files

    Data (server/store/types, server/ringhash):
    - [AccessMode]: access_mode.go; permission bits, their text, JSON and delta forms.
    - [Uid]: uid.go; user identifiers, topic names, sorted sets of users, with the
      base64, base32 and little-endian codecs they use.
    - [StoreTypes]: message.go, read_history.go, types.go; deletion ranges, read
      history, object headers, topic categories, the cluster fence of a message.
    - [RingHash]: ringhash.go; the consistent hash ring, CRC-32, its signature.
    - [Drafty]: server/drafty/drafty.go and the content kinds; rich text as a tree, its plain text, preview and analysis.
      [DraftyProps]: their properties.
    - [Messages]: datamodel.go, message_features.go, message_interactions.go, ctrl_messages.go; what clients send and get,
      the headers of messages, reactions, pins, replies.  [Interactions]: headers, reactions and pins as what they stand for.

    - [Utils]: utils.go, and the text functions of Go it uses; versions, tags, changes of lists and objects, message ids.
      Each of its Modules has its own properties.

    The cluster (internal/server/cluster_*.go, server/db/mysql/messages.go):
    - [Topology]: cluster_control_plane_topology.go; which members a view has.
    - [Fence]: the database transactions that save messages and advance the fence.
    - [Cluster]: cluster_membership.go, cluster_routing.go; views, ownership, write
      tokens.  It uses the ring of [RingHash] over the view of [Topology] and hands out the
      tokens that [Fence] checks.
    - [Election]: cluster_leader.go; the run loop of a node, and the cluster of all nodes
      with the calls in flight as the transition system [Election.cstep].
    - [Dedupe]: cluster_transport_dedupe.go; the table of requests a node remembers, and all the
      calls that use it as the transition system [Dedupe.dstep].

    Topics (internal/server/topic*.go, official_topics.go, official_join_requests.go):
    - [SubStore]: server/store/store_subs.go as the class [SubStore.SubStore] with its laws
      [SubStore.SubStoreLaws]; the handlers are proved against the class, and
      [SubStore.MemStore], with the row operations of server/db/mysql, is an instance.
    - [Topic]: topic.go, topic_pres.go, utils.go, push.go; the topic's state, the monad [Topic.M]
      of its handlers and the shared operations, with the frame rules of the hint
      database [handlers].
    - [TopicSub]: topic_sub_transition.go, topic_roles.go, topic_sub_self.go,
      topic_sub_other.go, topic_sub_leave.go and checkOfficialSelfJoin; each handler is split into the stages of the
      Go function, in its order.
    - [TopicSession]: topic_sub.go and replySetSub; sessions joining, leaving, {set sub}.
    - [TopicSubProps], [TopicSelfProps], [TopicMemberProps]: their properties.

    Publishing (internal/server/topic_msg.go, message_*.go, business_policy.go, push.go):
    - [PubStore]: store_messages.go as the class [PubStore.PubStore] with the laws [PubStore.PubStoreLaws]; the instance
      [PubStore.PubMem] saves messages with the transaction of [Fence] and shares the rows of [SubStore.MemStore].
    - [Publish]: preparing, checking, numbering, storing and fanning out a message, edits, schedules, call
      invites.  It runs [OfficialGov]'s slow mode on the store's cache and asks [Cluster] for the write token.
    - [Notes]: handleNoteBroadcast and message_interactions.go; receipts, typing, reactions, pins.
    - [Calls]: calls.go, calls_agora.go and unregisterSession; the calls of a topic.  They publish, publishing drops slow
      sessions, and a dropped session may end a call, so that [Calls.unregisterSession] is a recursion; [CallsProps] shows
      that it ends.
    - [History]: reading and deleting messages, store_messages.go over the statements of server/db/mysql/messages.go; the
      messages, the deletion log and the counters as the class [History.DelStore].
    - [MetaHistory]: topic_meta_data.go, topic_meta_delete.go and the deletions of topic_meta.go; {get data}, {get del}, {del}.
      [HistoryProps]: the properties of both.
    - [PublishSample]: a concrete group for runs.  [PublishProps], [FanoutProps], [NotesProps], [EditProps]: the properties.

    Sessions and presence (internal/server/session_queue.go, session_serialize.go, pres.go, hub.go):
    - [SendQueue]: the queue of a session with its byte budget, the cached wire forms of messages as a heap of cells, the frames
      of a batch.  Enqueueing, writing and purging from any goroutine are the transition system [SendQueue.qstep].
    - [Presence]: the notifications that [Topic]'s handlers record as effects, as messages; the exchange between the me-topics
      of a node, whose messages the hub passes on, as the transition system [Presence.pstep].  [PresenceProps]: its properties.

    The hub (internal/server/hub.go, init_topic.go):
    - [TopicStore]: store_topics.go over TopicGet, TopicDelete and SubsForTopic as the class [TopicStore.TopicStore] with the laws
      [TopicStore.TopicStoreLaws]; the instance [TopicStore.HubMem] extends that of [History].
    - [Hub]: the registry of loaded topics, one function per case of the loop, removal, the deletion of a user's topics, what a load
      ends in, and the requests of users who are not attached, as computations [Hub.HM] over the registry and the store.
    - [HubStages]: what takes topics out of the registry, as programs in stages that other goroutines can come between, equal to
      the functions of [Hub] when they run alone.  [HubNode]: the loop of the hub, the topics that load, run and end, and the deletions
      of users, interleaved stage by stage, as the transition system [HubNode.node_step].
    - [HubProps]: who may delete what, and the outcome.  [HubReplies]: what users who are not attached can change and see.  [HubRuns]: runs of the hub.
    - [LoadStore]: the class [LoadStore.TopicLoad], what loading and creating topics asks of the store beyond [SubStore] and
      [TopicStore] (TopicCreate, TopicCreateP2P, UsersForTopic, UserGetAll), its laws, and the instance [LoadStore.LoadMem].
    - [TopicInit]: init_topic.go and parseTopicAccess; one function per category, for topics that exist and for new ones, and
      the dispatch [TopicInit.topicInit], in the monad of [Topic].  [InitProps]: its properties.  [InitRuns]: runs.

    Clients (internal/server/session*.go, user*.go, plugins.go, server/auth):
    - [ClientBase]: session.go, datamodel.go, ctrl_messages.go; the state of a session, the messages of clients, the computations
      [ClientBase.CM] of a session, and the rest of the program as the class [ClientBase.Accounts] (authenticators, validators, the
      store of users, the queues of hub and topics).
    - [Accounts]: user.go, user_credentials.go and onLogin; creating, changing and deleting accounts, credentials, logging in.
    - [Client]: session_dispatch.go, session_topic_ops.go, session_auth.go, session_resume.go, topic_creation_policy.go and the message
      filter of plugins.go; every request, and a session over time as the transition system [Client.session_step].
    - [ClientRules]: the laws of [Accounts] and what computations of a session keep, with the hint database [client].
      [ClientProps], [ClientDispatch]: the properties.  [ClientRuns]: an instance of [Accounts] and runs.
    - [AuthToken], [AuthCode], [AuthBasic]: auth_token.go, auth_code.go over [PCache], auth_basic.go over the table of logins
      (store_users.go, server/db/mysql/users.go), with their properties.

    Shared records (server/db/mysql/cache.go):
    - [PCache]: the persistent cache, clients as trees of calls, every interleaving of them, lost
      calls, and the protocol theorem [PCache.reachable_history].
    - [TopicInvites]: topic_invites.go; [ResumableLease]: resumable_lease.go;
      [OfficialGov]: official_join_requests.go and the slow mode of official_topics.go.
    - [Outbox]: server/push/outbox.go; jobs for push vendors, their workers, dead letters.  [OutboxProps]: the workers of all nodes
      as the transition system [OutboxProps.ostep], and what becomes of a job.

    This file holds the notation, the automation and the lemmas all of them share.

    ** What the theorems show

    - One writer: a view gives a topic's write token to one member; once any node has applied
      a later view, older tokens write nothing; a topic's epoch only grows; saving is all or
      nothing; positions stay unique ([Cluster], [Fence], [Topology], [RingHash]).
    - Elections: one leader per term while the voters keep their memory, and two when one
      restarts ([Election]).
    - Requests between nodes: one execution per Request ID within the window, and its answer for the
      repeats ([Dedupe]).
    - Access: modes, deltas, identifiers and tokens round-trip; a subscriber cannot raise their own access;
      handlers implement the transition plan in cache and store; roles and grants need the
      permission they name, protect the owner and touch nobody else; a ban outlives the
      subscription; leaving and evicting remove what they should ([TopicSubProps], [TopicSelfProps],
      [TopicMemberProps]).
    - Concurrency: invitations are not oversubscribed and stay revoked, a lease has one holder, a
      join request one decision, slow mode keeps its distance, in every interleaving; a push stays in the outbox or among the
      dead letters until it was delivered ([OutboxProps], with the fate of a job and what enqueueing makes of a receipt).
    - Rich text: the tree never panics, keeps nested text, ends, and previews stay small ([DraftyProps]).
    - Publishing: only who may write changes the log; a success is one message at the next position or a known
      duplicate; a failure has sent nothing and stored at most that message ([PublishProps]); shared copies equal own copies while
      the sessions' flags agree, and only readers get them ([FanoutProps]); receipts, reactions and pins refine positions, a relation and a bounded set
      ([NotesProps]); edits and prepared headers keep what the server wrote ([EditProps]).
    - History: following the cursors of {get data} yields the whole of a reader's history once and in order, and nothing else;
      who may delete what for whom, what everybody is told of it, that the deletion log reports what was cleared, that a failed
      deletion leaves no trace; removing a member spares the owner and everybody else ([HistoryProps]).
    - Calls: dropping sessions ends; a call has no more participants than configured, in the roles the topic allows
      ([CallsProps]).
    - Presence: an exchange of notifications ends; when it has ended, contacts who are both online see each other online
      and sessions were told what they show; who hears of an offline notification ([PresenceProps]).
    - The hub: a registered topic was not told to exit and, unless about to be taken out, loads or runs, whatever interleaves; unless
      users are deleted the hub never waits to tell one to exit ([HubNode]); a deletion ends only the subscriptions its requester may end, and leaves the topic working when the store fails; deleting a
      user stops exactly the user's topics ([HubProps]); a request without a session on the topic changes and shows the
      requester's own subscription alone ([HubReplies]).
    - Loading and creating: a load that fails has changed no subscription; who makes a group owns it, with full access, in cache
      and store; a loaded group has in its cache exactly the members the store lists, up to the adapter's limit, and a created one is loaded as it was made; a new conversation is between two
      users whom the business policy lets talk, with access within the bounds of conversations ([InitProps]).
    - Clients: whatever a session hands on speaks for its user, unless that is root, the accounts it changes are its own or
      proved to be, and who it is is set once, by a user an authenticator named ([ClientProps]); requests before the handshake or a login are refused, a resumption reports the topics
      that attached, and dispatching ends whatever plugins put in a message's place ([ClientDispatch]).
    - Authenticators: what authenticates as a token was signed, and what was signed authenticates until it expires ([AuthToken]);
      of guesses at a code one after the other only the retries count, and a code works once ([AuthCode]); logins are of one
      user, who has one, and nobody changes another's ([AuthBasic]).
    - Queues: the bytes pending are those charged for what waits, never above the limit; the frames of a batch carry every
      message once, in order, within the size limit ([SendQueue]).
    - Utilities: versions order, tags are a sorted set of valid words, deltas split, merging works field by field ([Utils]).
    - Divergences, each shown on a run: a lost commit that blocks a topic, an edit with somebody else's file or with a
      made-up sender, a two-party call nobody can answer, a call whose end crashes the server, a replayed push that is lost, access put back by a publication, a delivered position left behind in the store, two effective owners of one group, a lost update of a channel
      reader, a panic of the sys topic, a transfer cut short, a reader who never goes offline, ranges that
      Normalize loses or joins, an election after a restart, notices that name another topic than
      they are about, a stranger recorded as online, a presence command that panics, a version number that overflows, an
      empty object that erases a field, deletions that take an unnamed message, leave a named one, use an id the database
      does not have, announce a message that is kept or are never reported whole, a query before the first message that
      returns all, a query without positions that stops the server, the search text of a deleted message left in its row, requests that stop the
      hub and the server with it, a deletion of a user that makes the hub wait for ever, a push that tells of a deletion that was refused, a member who cannot leave, a join and a
      report that are lost, access that is changed in the store alone, a group made without an owner or with
      ownership for all, a deleted conversation that stays dead and a deleted group that does not, private data that is not cached, a
      ban that is left behind, a resumption that asks for no credentials, notes and accounts that stop the server, a message the
      plugins do not see, a forgotten device, a refused credential that is reported as changed, notes that somebody else takes
      over, guesses that are not counted, a code that comes back and one that never ages, logins that cannot be stored, tags that
      nobody asked for, a serial number no token has.

    ** Conventions

    A Go [int] or a time is a [Z] (a time in nanoseconds), an unsigned flag word or a
    [uint64] an [N] with its wrap-around written out where the code can reach it; strings and byte slices are
    [string], lists of bytes.  A map is a [gmap]; where Go's iteration order could
    matter the order is that of [map_to_list], and the properties do not depend on it.  Several
    results are a tuple; an [error] is an option of [GoError] or the right of a sum; a panic is
    the outcome [Topic.Panic].  Reading an absent key of a map gives the zero value, as
    [Topic.user] does.

    A handler reads the clock once, [now]; Go's zero time is 0; a JSON number is an [AInt]; machine translation is off.

    Fuel: [Client.dispatch] gets two levels, that a resumption within a resumption needs ([ClientDispatch.dispatch_ends]);
    [count_group] gets the topic's last position, the most its loop can go down; [search_loop] gets the width of its interval, [trim_left] and [trim_right] the length of the string, which
    their lemmas show to be enough, as does every scan of [Utils] over a string; the retry loops of the cache clients have the bounds of
    the code (8 and 4 attempts); [Cluster.gen_local] has the code's 32.  [Calls.unregisterSession] gets one level more than there
    are sessions in a call's media ([CallsProps.unregister_terminates]); [Outbox.persistReceipt] the number of recipients, which
    every split halves.

    Assumptions, all of them arguments: SHA-256, HMAC and JSON are functions whose only laws are
    named where they are used (JSON reads back what it wrote); bcrypt, the Unicode classes and the regions of languages are too,
    and what a session asks of authenticators and validators is the class [ClientBase.Accounts], with the laws [ClientRules.AccountsOk]; a store call that reports an error has changed no
    subscription (a commit whose answer is lost is outside [SubStoreLaws]; the cache clients and [PubStoreLaws] do allow
    it).  What dropping a slow session does is an argument of the fan-out; [Calls.unregisterSession] is what the code gives it.

    ** Not modelled

    The profiles that a conversation shows and the tags of a user when topics are loaded, proxies of topics of other nodes, the sending of requests from the hub to a topic that waits for room (the model has it), topic metadata but for {set
    sub}, {get data}, {get del} and {del}, the transports that read and write frames, the session store, validators and outside
    authenticators, the deletion of a credential, the channels of devices, what plugins are told, files, translation, push vendors,
    administration, and the adapters beyond the statements named above.  Handlers record the
    notifications they send as effects, which [Presence] turns into messages.  The counters of the topics table
    are not part of [SubStore].

    What is left is mostly input and output, mapping onto drivers and services, and administration; topic descriptions and tags
    are the part with rules of their own that is not modelled yet. *)

From Stdlib Require Import NArith ZArith Lia List Ascii String Bool Sorted.
From stdpp Require Import base tactics numbers list strings gmap sets.

Declare Scope go_scope.
Delimit Scope go_scope with go.

(** Go's [a &^ b] (and not), [a & b], [a | b] on unsigned words. *)
Notation "a '&^' b" := (N.ldiff a b) (at level 40, left associativity) : go_scope.
Notation "a '&.' b" := (N.land a b) (at level 40, left associativity) : go_scope.
Notation "a '|.' b" := (N.lor a b) (at level 50, left associativity) : go_scope.

Open Scope go_scope.

Arguments String.append !_ _ : simpl nomatch.


(** ** Sentinel errors of server/store/types/errors.go and other errors *)

(** [StoreError]: the constants of errors.go, compared by identity in the code. *)
Inductive StoreError :=
| ErrInternal | ErrMalformed | ErrFailed | ErrDuplicate | ErrUnsupported
| ErrExpired | ErrPolicy | ErrCredentials | ErrUserNotFound | ErrTopicNotFound
| ErrNotFound | ErrPermissionDenied | ErrInvalidResponse | ErrRedirected
| ErrClusterFenced | ErrVersionConflict.

(** A Go [error] value: a store sentinel or a text error ([errors.New]). *)
Inductive GoError :=
| StoreErr (e : StoreError)
| TextErr (msg : string).

#[export] Instance StoreError_eq_dec : EqDecision StoreError.
Proof. solve_decision. Defined.
#[export] Instance GoError_eq_dec : EqDecision GoError.
Proof. solve_decision. Defined.

(** ** Automation *)

(** Rewrites every [N.testbit] of a bitwise operation; used after [N.bits_inj]. *)
Create Rewrite HintDb bits.
#[export] Hint Rewrite N.land_spec N.lor_spec N.ldiff_spec N.lxor_spec N.bits_0 : bits.

(** Decides an equation between bitwise expressions by comparing each bit. *)
Ltac bits_solve :=
  apply N.bits_inj; let i := fresh "i" in intros i;
  autorewrite with bits;
  repeat match goal with
         | |- context [N.testbit ?a ?j] => destruct (N.testbit a j) eqn:?
         end; try reflexivity; simpl in *; try congruence.

(** Case analysis on every [if]/[match] of the goal or of a hypothesis. *)
Ltac cases_goal :=
  repeat match goal with
         | |- context [if ?b then _ else _] => destruct b eqn:?
         | |- context [match ?x with _ => _ end] => destruct x eqn:?
         end.

Ltac cases_in H :=
  repeat match type of H with
         | context [if ?b then _ else _] => destruct b eqn:?
         | context [match ?x with _ => _ end] => destruct x eqn:?
         end.

(** Turns boolean comparisons of [N], [Z], [nat] and [String.eqb] into propositions. *)
Ltac to_prop :=
  repeat match goal with
         | H : (_ && _)%bool = true |- _ => apply andb_true_iff in H; destruct H
         | H : (_ || _)%bool = false |- _ => apply orb_false_iff in H; destruct H
         | H : negb _ = true |- _ => apply negb_true_iff in H
         | H : negb _ = false |- _ => apply negb_false_iff in H
         | H : N.eqb _ _ = true |- _ => apply N.eqb_eq in H
         | H : N.eqb _ _ = false |- _ => apply N.eqb_neq in H
         | H : N.ltb _ _ = true |- _ => apply N.ltb_lt in H
         | H : N.ltb _ _ = false |- _ => apply N.ltb_ge in H
         | H : N.leb _ _ = true |- _ => apply N.leb_le in H
         | H : N.leb _ _ = false |- _ => apply N.leb_gt in H
         | H : Z.eqb _ _ = true |- _ => apply Z.eqb_eq in H
         | H : Z.eqb _ _ = false |- _ => apply Z.eqb_neq in H
         | H : Z.ltb _ _ = true |- _ => apply Z.ltb_lt in H
         | H : Z.ltb _ _ = false |- _ => apply Z.ltb_ge in H
         | H : Z.leb _ _ = true |- _ => apply Z.leb_le in H
         | H : Z.leb _ _ = false |- _ => apply Z.leb_gt in H
         | H : String.eqb _ _ = true |- _ => apply String.eqb_eq in H
         | H : String.eqb _ _ = false |- _ => apply String.eqb_neq in H
         end.

(** ** Finite enumeration: a boolean property of all words below a bound *)

Definition all_below (n : nat) (P : N -> bool) : bool :=
  forallb P (map N.of_nat (List.seq 0 n)).

Lemma all_below_spec n P :
  all_below n P = true -> forall m, (m < N.of_nat n)%N -> P m = true.
Proof.
  intros H m Hm. unfold all_below in H. rewrite forallb_forall in H.
  apply H. apply in_map_iff. exists (N.to_nat m). split; [lia|].
  apply in_seq. lia.
Qed.

(** A word masked by [255] is below 256. *)
Lemma land_255_lt a : (N.land 255 a < 256)%N.
Proof.
  change 255%N with (N.ones 8). rewrite N.land_comm, N.land_ones.
  apply N.mod_lt. discriminate.
Qed.

Lemma ldiff_land_255_lt a b : (N.ldiff (N.land 255 a) b < 256)%N.
Proof.
  assert (N.ldiff (N.land 255 a) b = N.land 255 (N.ldiff a b)) as -> by bits_solve.
  apply land_255_lt.
Qed.

(** ** Strings as byte sequences *)

Lemma append_nil_r (s : string) : (s ++ "")%string = s.
Proof. induction s as [|c s IH]; [reflexivity|]. simpl. f_equal. apply IH. Qed.

Lemma append_assoc (a b c : string) : ((a ++ b) ++ c)%string = (a ++ (b ++ c))%string.
Proof. induction a as [|x a IH]; [reflexivity|]. simpl. f_equal. apply IH. Qed.

Lemma length_append (a b : string) :
  String.length (a ++ b) = (String.length a + String.length b)%nat.
Proof. induction a as [|x a IH]; [reflexivity|]. simpl. f_equal. apply IH. Qed.

Lemma append_inv_head (p a b : string) : (p ++ a)%string = (p ++ b)%string -> a = b.
Proof. induction p as [|x p IH]; simpl; [auto|]. intros [= H]. auto. Qed.

(** [strings.HasPrefix] *)
Fixpoint HasPrefix (s pre : string) {struct pre} : bool :=
  match pre, s with
  | EmptyString, _ => true
  | String c pre', String d s' => Ascii.eqb c d && HasPrefix s' pre'
  | String _ _, EmptyString => false
  end.

Lemma HasPrefix_append p s : HasPrefix (p ++ s) p = true.
Proof. induction p as [|c p IH]; [reflexivity|]. simpl. rewrite Ascii.eqb_refl. apply IH. Qed.

(** Every character of a string, and characters between two codes. *)
Fixpoint all_chars (p : ascii -> bool) (s : string) : bool :=
  match s with EmptyString => true | String c s' => p c && all_chars p s' end.
Definition in_range (lo hi : N) (c : ascii) : bool := (lo <=? N_of_ascii c)%N && (N_of_ascii c <=? hi)%N.

(** [s[n:]], the suffix of a Go string (for [n] at most its length). *)
Fixpoint drop_bytes (n : nat) (s : string) : string :=
  match n, s with
  | O, _ => s
  | S n', String _ s' => drop_bytes n' s'
  | S _, EmptyString => EmptyString
  end.

Lemma drop_bytes_append p s : drop_bytes (String.length p) (p ++ s) = s.
Proof. induction p as [|c p IH]; [reflexivity|]. exact IH. Qed.

Lemma substring_append_prefix (s t : string) : String.substring 0 (String.length s) (s ++ t) = s.
Proof.
  induction s as [|c s IH]; simpl; [by destruct t|]. by rewrite IH.
Qed.

Lemma get_append_last (s : string) (c : ascii) :
  String.get (String.length s) (s ++ String c "") = Some c.
Proof. induction s as [|d s IH]; [reflexivity|]. exact IH. Qed.

(** Lexicographic order on byte strings: Go's [<] on strings. *)
Fixpoint str_ltb (a b : string) : bool :=
  match a, b with
  | EmptyString, EmptyString => false
  | EmptyString, String _ _ => true
  | String _ _, EmptyString => false
  | String c a', String d b' =>
      if N.ltb (N_of_ascii c) (N_of_ascii d) then true
      else if N.ltb (N_of_ascii d) (N_of_ascii c) then false
      else str_ltb a' b'
  end.

Lemma N_of_ascii_inj c d : N_of_ascii c = N_of_ascii d -> c = d.
Proof. intros H. rewrite <- (ascii_N_embedding c), <- (ascii_N_embedding d). by f_equal. Qed.

Lemma str_ltb_irrefl a : str_ltb a a = false.
Proof. induction a as [|c a IH]; [reflexivity|]. simpl. rewrite N.ltb_irrefl. exact IH. Qed.

Lemma str_ltb_trans a b c : str_ltb a b = true -> str_ltb b c = true -> str_ltb a c = true.
Proof.
  revert b c. induction a as [|x a IH]; intros [|y b] [|z c]; simpl; try congruence; auto.
  intros H1 H2.
  destruct (N.ltb_spec (N_of_ascii x) (N_of_ascii y));
    destruct (N.ltb_spec (N_of_ascii y) (N_of_ascii x)); try discriminate; try lia;
    destruct (N.ltb_spec (N_of_ascii y) (N_of_ascii z));
    destruct (N.ltb_spec (N_of_ascii z) (N_of_ascii y)); try discriminate; try lia;
    destruct (N.ltb_spec (N_of_ascii x) (N_of_ascii z));
    destruct (N.ltb_spec (N_of_ascii z) (N_of_ascii x)); try lia; eauto.
Qed.

Lemma str_ltb_total a b : str_ltb a b = false -> str_ltb b a = false -> a = b.
Proof.
  revert b. induction a as [|x a IH]; intros [|y b]; simpl; try congruence; auto.
  destruct (N.ltb_spec (N_of_ascii x) (N_of_ascii y)); [discriminate|].
  destruct (N.ltb_spec (N_of_ascii y) (N_of_ascii x)); [discriminate|].
  intros H1 H2. f_equal; [apply N_of_ascii_inj; lia|auto].
Qed.

(** [string(b)] of a Go byte [b]: the UTF-8 encoding of the code point [b]. *)
Definition byte_to_string (c : ascii) : string :=
  let n := N_of_ascii c in
  if N.ltb n 128 then String c EmptyString
  else String (ascii_of_N (N.lor 192 (N.shiftr n 6)))
         (String (ascii_of_N (N.lor 128 (N.land n 63))) EmptyString).

(** ** [strings.ToLower] and [strings.TrimSpace]

    Both walk the UTF-8 text.  [ToLower] here maps the ASCII capitals and the two
    other code points whose lower case is ASCII (U+0130 and U+212A); the remaining
    non-ASCII text is kept, so the result equals Go's whenever it is compared with
    an ASCII word, which is the only use the modelled code makes of it. *)

Definition is_upper (c : ascii) : bool :=
  let n := N_of_ascii c in N.leb 65 n && N.leb n 90.

Definition lower_ascii (c : ascii) : ascii :=
  if is_upper c then ascii_of_N (N_of_ascii c + 32) else c.

Fixpoint ToLower (s : string) : string :=
  match s with
  | EmptyString => EmptyString
  | String c s' =>
      match s' with
      | String d s2 =>
          if Ascii.eqb c "196" && Ascii.eqb d "176" then String "i" (ToLower s2)
          else match s2 with
               | String e s3 =>
                   if Ascii.eqb c "226" && Ascii.eqb d "132" && Ascii.eqb e "170"
                   then String "k" (ToLower s3)
                   else String (lower_ascii c) (ToLower s')
               | EmptyString => String (lower_ascii c) (ToLower s')
               end
      | EmptyString => String (lower_ascii c) EmptyString
      end
  end.

Definition bytes (l : list N) : string := string_of_list_ascii (map ascii_of_N l).

(** The UTF-8 encodings of the code points of [unicode.IsSpace]. *)
Definition space_encodings : list string :=
  map bytes ([[9]; [10]; [11]; [12]; [13]; [32]; [194; 133]; [194; 160]; [225; 154; 128]]
    ++ map (fun k => [226; 128; 128 + N.of_nat k]) (List.seq 0 11)
    ++ [[226; 128; 168]; [226; 128; 169]; [226; 128; 175]; [226; 129; 159]; [227; 128; 128]])%N.

Fixpoint trim_left (fuel : nat) (s : string) : string :=
  match fuel with
  | O => s
  | S fuel' =>
      match List.find (HasPrefix s) space_encodings with
      | Some w => trim_left fuel' (drop_bytes (String.length w) s)
      | None => s
      end
  end.

Definition HasSuffix (s w : string) : bool :=
  (String.length w <=? String.length s)%nat &&
  String.eqb (drop_bytes (String.length s - String.length w) s) w.

Fixpoint trim_right (fuel : nat) (s : string) : string :=
  match fuel with
  | O => s
  | S fuel' =>
      match List.find (HasSuffix s) space_encodings with
      | Some w => trim_right fuel' (String.substring 0 (String.length s - String.length w) s)
      | None => s
      end
  end.

(** Each turn drops at least one byte: the length is enough fuel. *)
Definition TrimSpace (s : string) : string :=
  let s' := trim_left (String.length s) s in trim_right (String.length s') s'.

(** [TrimSpace] is idempotent. *)
Lemma length_drop_bytes n s : String.length (drop_bytes n s) = (String.length s - n)%nat.
Proof.
  revert s. induction n as [|n IH]; intros s; simpl; [lia|]. destruct s as [|c s]; [done|]. apply IH.
Qed.

Lemma space_encodings_nonempty w : In w space_encodings -> (0 < String.length w)%nat.
Proof.
  intros H. assert (forallb (fun w => (0 <? String.length w)%nat) space_encodings = true) as E
    by reflexivity.
  rewrite forallb_forall in E. by apply E, Nat.ltb_lt in H.
Qed.

Lemma HasPrefix_length s w : HasPrefix s w = true -> (String.length w <= String.length s)%nat.
Proof.
  revert s. induction w as [|c w IH]; intros s; simpl; [lia|]. destruct s as [|d s]; [done|].
  simpl. intros [_ H]%andb_true_iff. apply IH in H. lia.
Qed.

Lemma HasPrefix_substring s w k : HasPrefix (String.substring 0 k s) w = true -> HasPrefix s w = true.
Proof.
  revert s k. induction w as [|c w IH]; intros s k; simpl; [by destruct s|].
  destruct s as [|d s]; [by destruct k|]. destruct k as [|k]; [done|]. simpl.
  intros [-> H]%andb_true_iff. simpl. by apply IH in H.
Qed.

Lemma HasSuffix_length s w : HasSuffix s w = true -> (String.length w <= String.length s)%nat.
Proof. unfold HasSuffix. intros [H _]%andb_true_iff. by apply Nat.leb_le in H. Qed.

Lemma trim_left_done fuel s : (String.length s <= fuel)%nat ->
  List.find (HasPrefix (trim_left fuel s)) space_encodings = None.
Proof.
  revert s. induction fuel as [|fuel IH]; intros s Hl.
  - destruct s; [reflexivity|simpl in Hl; lia].
  - cbn [trim_left]. destruct (List.find (HasPrefix s) space_encodings) as [w|] eqn:E; [|exact E].
    apply find_some in E as [Hin Hp]. apply space_encodings_nonempty in Hin.
    apply HasPrefix_length in Hp. apply IH. rewrite length_drop_bytes. lia.
Qed.

Lemma length_substring k s : (k <= String.length s)%nat -> String.length (String.substring 0 k s) = k.
Proof.
  revert s. induction k as [|k IH]; intros s Hk; [by destruct s|].
  destruct s as [|c s]; [simpl in Hk; lia|]. simpl in *. by rewrite IH by lia.
Qed.

Lemma trim_right_done fuel s : (String.length s <= fuel)%nat ->
  List.find (HasSuffix (trim_right fuel s)) space_encodings = None.
Proof.
  revert s. induction fuel as [|fuel IH]; intros s Hl.
  - destruct s; [reflexivity|simpl in Hl; lia].
  - cbn [trim_right]. destruct (List.find (HasSuffix s) space_encodings) as [w|] eqn:E; [|exact E].
    apply find_some in E as [Hin Hp]. apply space_encodings_nonempty in Hin.
    apply HasSuffix_length in Hp. apply IH. rewrite length_substring; lia.
Qed.

Lemma trim_right_no_prefix fuel s :
  List.find (HasPrefix s) space_encodings = None ->
  List.find (HasPrefix (trim_right fuel s)) space_encodings = None.
Proof.
  revert s. induction fuel as [|fuel IH]; intros s Hs; cbn [trim_right]; [exact Hs|].
  destruct (List.find (HasSuffix s) space_encodings) as [w|]; [|exact Hs]. apply IH.
  destruct (List.find (HasPrefix (String.substring _ _ _)) _) as [v|] eqn:E; [|done].
  apply find_some in E as [Hin Hp]. apply HasPrefix_substring in Hp.
  by rewrite (find_none _ _ Hs v Hin) in Hp.
Qed.

Lemma trim_left_id fuel s : List.find (HasPrefix s) space_encodings = None -> trim_left fuel s = s.
Proof. intros H. destruct fuel; cbn [trim_left trim_right]; [done|]. by rewrite H. Qed.

Lemma trim_right_id fuel s : List.find (HasSuffix s) space_encodings = None -> trim_right fuel s = s.
Proof. intros H. destruct fuel; cbn [trim_left trim_right]; [done|]. by rewrite H. Qed.

Lemma TrimSpace_idemp s : TrimSpace (TrimSpace s) = TrimSpace s.
Proof.
  unfold TrimSpace. rewrite (trim_left_id (String.length (trim_right _ _))).
  - apply trim_right_id, trim_right_done. done.
  - apply trim_right_no_prefix, trim_left_done. done.
Qed.

(** ** Dynamically typed values ([any]) *)

(** The values the code stores in [any] fields: nil, strings, numbers, booleans,
    lists and [map[string]any]. *)
#[warnings="-register-all"]
Inductive Any :=
| ANil
| AStr (s : string)
| AInt (z : Z)
| ABool (b : bool)
| AList (l : list Any)
| AMap (m : list (string * Any)).

#[export] Instance Any_eq_dec : EqDecision Any.
Proof.
  refine (fix go a b : Decision (a = b) :=
    let _ : EqDecision Any := @go in
    match a, b with
    | ANil, ANil => left eq_refl
    | AStr s, AStr s' => cast_if (decide (s = s'))
    | AInt z, AInt z' => cast_if (decide (z = z'))
    | ABool x, ABool x' => cast_if (decide (x = x'))
    | AList l, AList l' => cast_if (decide (l = l'))
    | AMap m, AMap m' => cast_if (decide (m = m'))
    | _, _ => right _
    end); abstract congruence.
Defined.

(** [nullValue], the one-character string U+2421 that requests a deletion. *)
Definition nullValue : string := bytes [226; 144; 161]%N.

Definition isNullValue (i : Any) : bool :=
  match i with AStr s => String.eqb s nullValue | _ => false end.

(** ** [sort.Search]: binary search for the least index satisfying [f] *)

(** The loop on [i, j]; every turn shrinks [j - i], so fuel [n] is enough. *)
Fixpoint search_loop (fuel : nat) (f : nat -> bool) (i j : nat) : nat :=
  match fuel with
  | O => i
  | S fuel' =>
      if (i <? j)%nat then
        let h := ((i + j) / 2)%nat in
        if negb (f h) then search_loop fuel' f (h + 1) j else search_loop fuel' f i h
      else i
  end.

Definition sort_Search (n : nat) (f : nat -> bool) : nat := search_loop n f 0 n.

Lemma search_loop_spec n fuel f i j :
  (forall a b, (a <= b < n)%nat -> f a = true -> f b = true) ->
  (i <= j <= n)%nat -> (j - i <= fuel)%nat ->
  let r := search_loop fuel f i j in
  (i <= r <= j)%nat /\ (forall k, (i <= k < r)%nat -> f k = false) /\
  ((r < j)%nat -> f r = true).
Proof.
  intros Hmono. revert i j. induction fuel as [|fuel IH]; intros i j Hij Hf; cbn [search_loop].
  - repeat split; intros; lia.
  - destruct (Nat.ltb_spec i j); [|repeat split; intros; lia].
    assert (i <= (i + j) / 2 < j)%nat as [Hh1 Hh2].
    { pose proof (Nat.div_mod_eq (i + j) 2). pose proof (Nat.mod_upper_bound (i + j) 2). lia. }
    set (h := ((i + j) / 2)%nat) in *.
    destruct (f h) eqn:E; cbn [negb].
    + destruct (IH i h) as ([Hb1 Hb2] & Hlt & Hr); [lia|lia|].
      split; [lia|]. split; [done|]. intros Hrj.
      destruct (Nat.lt_ge_cases (search_loop fuel f i h) h) as [?|?]; [auto|].
      by replace (search_loop fuel f i h) with h by lia.
    + destruct (IH (h + 1)%nat j) as ([Hb1 Hb2] & Hlt & Hr); [lia|lia|].
      split; [lia|]. split; [|done]. intros k Hk.
      destruct (Nat.le_gt_cases k h) as [Hle|?]; [|apply Hlt; lia].
      destruct (f k) eqn:Ek; [|done]. by rewrite (Hmono k h) in E by (done || lia).
Qed.

Lemma sort_Search_spec n f :
  (forall a b, (a <= b < n)%nat -> f a = true -> f b = true) ->
  (sort_Search n f <= n)%nat /\ (forall k, (k < sort_Search n f)%nat -> f k = false) /\
  ((sort_Search n f < n)%nat -> f (sort_Search n f) = true).
Proof.
  intros Hm. destruct (search_loop_spec n n f 0 n Hm) as (Hb & Hlt & Hr); [lia|lia|].
  unfold sort_Search. split; [lia|]. split; [|done]. intros k Hk. apply Hlt. lia.
Qed.

(** ** Sorted lists *)

Lemma StronglySorted_nth {A} (R : A -> A -> Prop) (l : list A) (d : A) i j :
  StronglySorted R l -> (i < j < List.length l)%nat -> R (nth i l d) (nth j l d).
Proof.
  intros Hs. revert i j. induction Hs as [|a l Hs IH Ha]; intros i j Hij; simpl in Hij; [lia|].
  destruct i as [|i], j as [|j]; try lia; simpl.
  - rewrite List.Forall_forall in Ha. apply Ha. apply nth_In. lia.
  - apply IH. lia.
Qed.

Lemma Forall_firstn_nth {A} (P : A -> Prop) (l : list A) (d : A) n :
  (forall i, (i < n)%nat -> (i < List.length l)%nat -> P (nth i l d)) -> Forall P (firstn n l).
Proof.
  revert n. induction l as [|a l IH]; intros [|n] H; simpl; constructor.
  - apply (H 0%nat); simpl; lia.
  - apply IH. intros i Hi Hl. apply (H (S i)); simpl; lia.
Qed.

Lemma Forall_skipn_nth {A} (P : A -> Prop) (l : list A) (d : A) n :
  (forall i, (n <= i)%nat -> (i < List.length l)%nat -> P (nth i l d)) -> Forall P (skipn n l).
Proof.
  revert n. induction l as [|a l IH]; intros [|n] H; simpl; [constructor..| |].
  - constructor; [apply (H 0%nat); simpl; lia|].
    apply (IH 0%nat). intros i Hi Hl. apply (H (S i)); simpl; lia.
  - apply IH. intros i Hi Hl. apply (H (S i)); simpl; lia.
Qed.

Lemma skipn_nth_cons {A} (l : list A) (d : A) n :
  (n < List.length l)%nat -> skipn n l = nth n l d :: skipn (n + 1) l.
Proof.
  revert n. induction l as [|a l IH]; intros [|n] H; simpl in *; [lia..| |].
  - by destruct l.
  - apply IH. lia.
Qed.

Lemma StronglySorted_app {A} (R : A -> A -> Prop) (l1 l2 : list A) :
  StronglySorted R l1 -> StronglySorted R l2 ->
  (forall x y, In x l1 -> In y l2 -> R x y) -> StronglySorted R (l1 ++ l2).
Proof.
  intros H1 H2 H. induction H1 as [|a l H1 IH Ha]; simpl; [done|].
  constructor; [apply IH; intros; apply H; simpl; auto|].
  apply List.Forall_app. split; [done|]. apply List.Forall_forall. intros y Hy. apply H; simpl; auto.
Qed.

Lemma StronglySorted_app_inv {A} (R : A -> A -> Prop) (l1 l2 : list A) :
  StronglySorted R (l1 ++ l2) ->
  StronglySorted R l1 /\ StronglySorted R l2 /\ (forall x y, In x l1 -> In y l2 -> R x y).
Proof.
  induction l1 as [|a l1 IH]; simpl; intros H.
  - split; [constructor|]. split; [done|]. intros ?? [].
  - inversion H as [|? ? Hs Ha]; subst. destruct (IH Hs) as (S1 & S2 & S12).
    apply List.Forall_app in Ha as [Ha1 Ha2]. rewrite List.Forall_forall in Ha2.
    split; [by constructor|]. split; [done|]. intros x y [->|Hx] Hy; [by apply Ha2|by apply S12].
Qed.

(** ** Sorting by a strict total order

    [sort.Sort] is modelled by insertion sort: for a comparison that is a strict
    total order every correct sort returns the same slice ([sorted_perm_unique]). *)

Fixpoint insert_by {A} (lt : A -> A -> bool) (a : A) (l : list A) : list A :=
  match l with
  | [] => [a]
  | b :: l' => if lt b a then b :: insert_by lt a l' else a :: l
  end.

Fixpoint sort_by {A} (lt : A -> A -> bool) (l : list A) : list A :=
  match l with
  | [] => []
  | a :: l' => insert_by lt a (sort_by lt l')
  end.

Class StrictTotal {A} (lt : A -> A -> bool) : Prop := {
  st_irrefl : forall a, lt a a = false;
  st_trans : forall a b c, lt a b = true -> lt b c = true -> lt a c = true;
  st_total : forall a b, lt a b = false -> lt b a = false -> a = b }.

Section Sorting.
Context {A : Type} (lt : A -> A -> bool) `{!StrictTotal lt}.

Definition le_by (a b : A) : Prop := lt b a = false.

Lemma le_by_refl a : le_by a a.
Proof. apply st_irrefl. Qed.

Lemma le_by_trans a b c : le_by a b -> le_by b c -> le_by a c.
Proof.
  unfold le_by. intros H1 H2. destruct (lt c a) eqn:E; [|done].
  destruct (lt a b) eqn:E1; [by rewrite (st_trans c a b E E1) in H2|].
  assert (a = b) as -> by (by apply st_total). congruence.
Qed.

Lemma le_by_antisym a b : le_by a b -> le_by b a -> a = b.
Proof. unfold le_by. intros. by apply st_total. Qed.

Lemma insert_by_perm a l : Permutation (insert_by lt a l) (a :: l).
Proof.
  induction l as [|b l IH]; simpl; [done|]. destruct (lt b a); [|done].
  rewrite IH. apply perm_swap.
Qed.

Lemma sort_by_perm l : Permutation (sort_by lt l) l.
Proof. induction l as [|a l IH]; simpl; [done|]. by rewrite insert_by_perm, IH. Qed.

Lemma insert_by_sorted a l : StronglySorted le_by l -> StronglySorted le_by (insert_by lt a l).
Proof.
  induction 1 as [|b l Hs IH Hb]; simpl; [by repeat constructor|].
  destruct (lt b a) eqn:E.
  - constructor; [done|]. apply List.Forall_forall. intros x Hx.
    apply (Permutation_in _ (insert_by_perm a l)) in Hx as [<-|Hx].
    + unfold le_by. destruct (lt a b) eqn:E'; [|done].
      pose proof (st_trans a b a E' E) as H. by rewrite st_irrefl in H.
    + rewrite List.Forall_forall in Hb. by apply Hb.
  - constructor; [by constructor|]. constructor; [done|].
    rewrite List.Forall_forall in Hb |- *. intros x Hx. by apply le_by_trans with b; [|apply Hb].
Qed.

Lemma sort_by_sorted l : StronglySorted le_by (sort_by lt l).
Proof. induction l as [|a l IH]; simpl; [constructor|]. by apply insert_by_sorted. Qed.

Lemma sorted_perm_unique l1 l2 :
  StronglySorted le_by l1 -> StronglySorted le_by l2 -> Permutation l1 l2 -> l1 = l2.
Proof.
  intros H1. revert l2. induction H1 as [|a l1 Hs IH Ha]; intros l2 H2 Hp.
  - by apply Permutation_nil in Hp.
  - destruct H2 as [|b l2 Hs2 Hb]; [by apply Permutation_sym, Permutation_nil in Hp|].
    rewrite List.Forall_forall in Ha, Hb.
    assert (a = b) as ->.
    { assert (In a (b :: l2)) as [->|Hab] by (eapply Permutation_in; [exact Hp|simpl; auto]); [done|].
      assert (In b (a :: l1)) as [->|Hba] by (eapply Permutation_in; [symmetry; exact Hp|simpl; auto]);
        [done|]. by apply le_by_antisym; [apply Ha|apply Hb]. }
    f_equal. apply IH; [done|]. by apply Permutation_cons_inv in Hp.
Qed.

Lemma sort_by_perm_eq l1 l2 : Permutation l1 l2 -> sort_by lt l1 = sort_by lt l2.
Proof.
  intros H. apply sorted_perm_unique; [apply sort_by_sorted..|].
  by rewrite !sort_by_perm.
Qed.
End Sorting.

#[export] Instance str_ltb_strict : StrictTotal str_ltb.
Proof.
  constructor; [apply str_ltb_irrefl|apply str_ltb_trans|apply str_ltb_total].
Qed.

(** ** Sorting records by a key *)

Section KeyedSort.
Context {A K : Type} (lt : K -> K -> bool) `{!StrictTotal lt} (key : A -> K).

Definition lt_on (a b : A) : bool := lt (key a) (key b).

Lemma insert_by_key a l : map key (insert_by lt_on a l) = insert_by lt (key a) (map key l).
Proof. induction l as [|b l IH]; simpl; [done|]. unfold lt_on at 1. destruct (lt _ _); simpl; by rewrite ?IH. Qed.

Lemma sort_by_key l : map key (sort_by lt_on l) = sort_by lt (map key l).
Proof. induction l as [|a l IH]; simpl; [done|]. by rewrite insert_by_key, IH. Qed.

Lemma insert_by_key_perm a l : Permutation (insert_by lt_on a l) (a :: l).
Proof.
  induction l as [|b l IH]; simpl; [done|]. destruct (lt_on b a); [|done].
  rewrite IH. apply perm_swap.
Qed.

Lemma sort_by_key_perm l : Permutation (sort_by lt_on l) l.
Proof. induction l as [|a l IH]; simpl; [done|]. by rewrite insert_by_key_perm, IH. Qed.

Lemma keyed_unique l1 l2 :
  map key l1 = map key l2 -> Permutation l1 l2 -> List.NoDup (map key l1) -> l1 = l2.
Proof.
  revert l2. induction l1 as [|a l1 IH]; intros [|b l2] Hk Hp Hn; try done.
  simpl in *. injection Hk as Hab Hk. inversion Hn as [|? ? Hna Hn']; subst.
  assert (a = b) as ->.
  { assert (In a (b :: l2)) as [->|Hin] by (eapply Permutation_in; [exact Hp|by left]); [done|].
    destruct Hna. rewrite Hk. by apply in_map. }
  f_equal. apply IH; [done|by apply Permutation_cons_inv in Hp|done].
Qed.

(** Sorting by a key that occurs once does not depend on the input order. *)
Lemma sort_by_key_perm_eq l1 l2 :
  Permutation l1 l2 -> List.NoDup (map key l1) -> sort_by lt_on l1 = sort_by lt_on l2.
Proof.
  intros Hp Hn. apply keyed_unique.
  - rewrite !sort_by_key. apply sort_by_perm_eq; [done|]. by apply Permutation_map.
  - by rewrite !sort_by_key_perm.
  - eapply Permutation_NoDup; [|exact Hn]. symmetry. apply Permutation_map, sort_by_key_perm.
Qed.
End KeyedSort.

(** ** Reflexive transitive closure of a labelled step relation *)

Section Steps.
Context {S : Type} (step : S -> S -> Prop).

Inductive steps : S -> S -> Prop :=
| steps_refl s : steps s s
| steps_cons s1 s2 s3 : steps s1 s2 -> step s2 s3 -> steps s1 s3.

(** Rule induction: a property of the initial state preserved by each step
    holds of every reachable state. *)
Lemma steps_invariant (I : S -> Prop) s0 s :
  I s0 -> (forall a b, I a -> step a b -> I b) -> steps s0 s -> I s.
Proof. intros H0 Hp Hs. induction Hs; eauto. Qed.

Lemma steps_trans a b c : steps a b -> steps b c -> steps a c.
Proof. intros H1 H2. induction H2; [done|]. eapply steps_cons; [by apply IHsteps|done]. Qed.

Lemma steps_one a b : step a b -> steps a b.
Proof. intros H. eapply steps_cons; [apply steps_refl|done]. Qed.
End Steps.

#[export] Hint Constructors steps : core.
