(* ===== verification/AccessMode.v ===== *)
(** * Access control bit masks (server/store/types/access_mode.go)

    [AccessMode] is a Go [uint]; a mode is an [N].  Text forms are byte strings.
    [ParseAcs], [UnmarshalText] and [ApplyDelta] return the new value of the
    mode together with the Go error, as the source does: on an error the
    receiver of [UnmarshalText]/[ApplyDelta] is unchanged. *)

From Stdlib Require Import NArith Lia List Ascii String Bool.
From stdpp Require Import base tactics numbers list strings.
From S2P Require Import Prelude.

Abbreviation AccessMode := N (only parsing).

Local Open Scope N_scope.

(** ** The flags (1 << iota) and the named masks *)

Definition ModeJoin : AccessMode := N.shiftl 1 0.
Definition ModeRead : AccessMode := N.shiftl 1 1.
Definition ModeWrite : AccessMode := N.shiftl 1 2.
Definition ModePres : AccessMode := N.shiftl 1 3.
Definition ModeApprove : AccessMode := N.shiftl 1 4.
Definition ModeShare : AccessMode := N.shiftl 1 5.
Definition ModeDelete : AccessMode := N.shiftl 1 6.
Definition ModeOwner : AccessMode := N.shiftl 1 7.
Definition ModeUnset : AccessMode := N.shiftl 1 8.
Definition ModeNone : AccessMode := 0.

Definition ModeCPublic : AccessMode := ModeJoin |. ModeRead |. ModeWrite |. ModePres |. ModeShare.
Definition ModeCMeFnd : AccessMode := ModeJoin |. ModePres |. ModeShare.
Definition ModeCSelf : AccessMode := ModeJoin |. ModeRead |. ModeWrite |. ModeDelete |. ModeOwner.
Definition ModeCFull : AccessMode :=
  ModeJoin |. ModeRead |. ModeWrite |. ModePres |. ModeApprove |. ModeShare |. ModeDelete |. ModeOwner.
Definition ModeCP2P : AccessMode := ModeJoin |. ModeRead |. ModeWrite |. ModePres |. ModeApprove.
Definition ModeCP2PD : AccessMode :=
  ModeJoin |. ModeRead |. ModeWrite |. ModePres |. ModeApprove |. ModeDelete.
Definition ModeCAuth : AccessMode := ModeCP2P |. ModeCPublic.
Definition ModeCReadOnly : AccessMode := ModeJoin |. ModeRead.
Definition ModeCSys : AccessMode := ModeJoin |. ModeRead |. ModeWrite |. ModePres |. ModeDelete.
Definition ModeCChnWriter : AccessMode := ModeRead |. ModeWrite |. ModePres |. ModeShare.
Definition ModeCChnReader : AccessMode := ModeJoin |. ModeRead |. ModePres.
Definition ModeCAdmin : AccessMode := ModeOwner |. ModeApprove.
Definition ModeCSharer : AccessMode := ModeCAdmin |. ModeShare.
Definition ModeInvalid : AccessMode := 0x100000.
Definition ModeBitmask : AccessMode :=
  ModeJoin |. ModeRead |. ModeWrite |. ModePres |. ModeApprove |. ModeShare |. ModeDelete |. ModeOwner.

(** ** Text form *)

(** The loop over the letters [modes] from index [i] of [MarshalText]. *)
Fixpoint marshal_loop (m : AccessMode) (i : N) (modes : list ascii) : string :=
  match modes with
  | [] => EmptyString
  | chr :: modes' =>
      if negb (N.land m (N.shiftl 1 i) =? 0)
      then String chr (marshal_loop m (i + 1) modes')
      else marshal_loop m (i + 1) modes'
  end.

Definition mode_letters : list ascii :=
  ["J"; "R"; "W"; "P"; "A"; "S"; "D"; "O"]%char.

Definition MarshalText (m : AccessMode) : string * option GoError :=
  if m =? ModeNone then ("N"%string, None)
  else if m =? ModeInvalid then (EmptyString, Some (TextErr "AccessMode invalid"))
  else (marshal_loop m 0 mode_letters, None).

(** [String]: the empty string where [MarshalText] fails. *)
Definition ModeString (m : AccessMode) : string :=
  match MarshalText m with
  | (_, Some _) => EmptyString
  | (res, None) => res
  end.

(** The loop of [ParseAcs] with its accumulator [m0]; 'N' leaves the loop. *)
Fixpoint parse_acs_loop (m0 : AccessMode) (b : string) : AccessMode * option GoError :=
  match b with
  | EmptyString => (m0, None)
  | String c b' =>
      match c with
      | "J"%char | "j"%char => parse_acs_loop (m0 |. ModeJoin) b'
      | "R"%char | "r"%char => parse_acs_loop (m0 |. ModeRead) b'
      | "W"%char | "w"%char => parse_acs_loop (m0 |. ModeWrite) b'
      | "A"%char | "a"%char => parse_acs_loop (m0 |. ModeApprove) b'
      | "S"%char | "s"%char => parse_acs_loop (m0 |. ModeShare) b'
      | "D"%char | "d"%char => parse_acs_loop (m0 |. ModeDelete) b'
      | "P"%char | "p"%char => parse_acs_loop (m0 |. ModePres) b'
      | "O"%char | "o"%char => parse_acs_loop (m0 |. ModeOwner) b'
      | "N"%char | "n"%char =>
          if negb (m0 =? ModeUnset)
          then (ModeUnset, Some (TextErr "AccessMode: access N cannot be combined with any other"))
          else (ModeNone, None)
      | _ => (ModeUnset, Some (TextErr ("AccessMode: invalid character '" ++ byte_to_string c ++ "'")))
      end
  end.

Definition ParseAcs (b : string) : AccessMode * option GoError :=
  parse_acs_loop ModeUnset b.

(** [UnmarshalText]: the new value of the receiver [m] and the error. *)
Definition UnmarshalText (m : AccessMode) (b : string) : AccessMode * option GoError :=
  match ParseAcs b with
  | (_, Some e) => (m, Some e)
  | (m0, None) => (if negb (m0 =? ModeUnset) then m0 &. ModeBitmask else m, None)
  end.

(** [MarshalJSON] and [UnmarshalJSON]: the quoted form.  [UnmarshalJSON] reads
    [b[0]], which panics on an empty slice: [None]. *)
Definition MarshalJSON (m : AccessMode) : string * option GoError :=
  match MarshalText m with
  | (_, Some e) => (EmptyString, Some e)
  | (res, None) => (String "034" (res ++ String "034" EmptyString), None)
  end.

Definition last_byte (b : string) : option ascii :=
  String.get (String.length b - 1) b.

Definition UnmarshalJSON (m : AccessMode) (b : string) : option (AccessMode * option GoError) :=
  match b, last_byte b with
  | String c b', Some d =>
      if negb (Ascii.eqb c "034") || negb (Ascii.eqb d "034")
      then Some (m, Some (TextErr "syntax error"))
      else (* b[1 : len(b)-1] panics for the one-byte input *)
        match b' with
        | EmptyString => None
        | _ => Some (UnmarshalText m (String.substring 0 (String.length b' - 1) b'))
        end
  | _, _ => None
  end.

(** ** Comparison and incremental changes *)

Definition BetterThan (grant want : AccessMode) : bool :=
  negb (ModeBitmask &. grant &^ want =? 0).

Definition BetterEqual (grant want : AccessMode) : bool :=
  ModeBitmask &. grant &. want =? want.

Definition signed_part (sign : string) (bits : AccessMode) : string :=
  if 0 <? bits then
    let s := ModeString bits in
    if negb (String.eqb s EmptyString) then (sign ++ s)%string else s
  else EmptyString.

(** [o.Delta(n)]: "+added-removed". *)
Definition Delta (o n : AccessMode) : string :=
  let removed := signed_part "-" (ModeBitmask &. o &^ n) in
  let added := signed_part "+" (ModeBitmask &. n &^ o) in
  (added ++ removed)%string.

Definition is_sign (c : ascii) : bool := Ascii.eqb c "+" || Ascii.eqb c "-".

(** [strings.IndexAny(s, "+-")] used to cut [s]: the part before the first sign
    and, when there is one, the rest starting at it. *)
Fixpoint cut_sign (s : string) : string * option string :=
  match s with
  | EmptyString => (EmptyString, None)
  | String c s' =>
      if is_sign c then (EmptyString, Some s)
      else let '(chunk, rest) := cut_sign s' in (String c chunk, rest)
  end.

(** The loop of [ApplyDelta] on the unread suffix [delta[next:]]; it runs while
    at least two bytes are left, and each turn drops at least one. *)
Fixpoint apply_delta_loop (fuel : nat) (whole : string) (m0 : AccessMode) (delta : string)
  : AccessMode + GoError :=
  match fuel with
  | O => inl m0
  | S fuel' =>
      match delta with
      | EmptyString | String _ EmptyString => inl m0
      | String ch tl =>
          let '(chunk, next) := cut_sign tl in
          match ParseAcs chunk with
          | (_, Some e) => inr e
          | (upd, None) =>
              let continue m1 :=
                match next with
                | Some rest => apply_delta_loop fuel' whole m1 rest
                | None => inl m1
                end in
              if Ascii.eqb ch "+" then
                continue (if negb (upd =? ModeUnset) then m0 |. (upd &. ModeBitmask) else m0)
              else if Ascii.eqb ch "-" then
                continue (if negb (upd =? ModeUnset) then m0 &^ (upd &. ModeBitmask) else m0)
              else inr (TextErr ("Invalid acs delta string: '" ++ whole ++ "'"))
          end
      end
  end.

Definition ApplyDelta (m : AccessMode) (delta : string) : AccessMode * option GoError :=
  if String.eqb delta "" || String.eqb delta "N" then (m, None)
  else match apply_delta_loop (String.length delta) delta m delta with
       | inl m0 => (m0, None)
       | inr e => (m, Some e)
       end.

Fixpoint contains_sign (s : string) : bool :=
  match s with
  | EmptyString => false
  | String c s' => is_sign c || contains_sign s'
  end.

Definition ApplyMutation (m : AccessMode) (mutation : string) : AccessMode * option GoError :=
  if String.eqb mutation "" then (m, None)
  else if contains_sign mutation then ApplyDelta m mutation
  else UnmarshalText m mutation.

(** ** Predicates *)

Definition has (m flag : AccessMode) : bool := negb (m &. flag =? 0).

Definition IsJoiner (m : AccessMode) : bool := has m ModeJoin.
Definition IsOwner (m : AccessMode) : bool := has m ModeOwner.
Definition IsApprover (m : AccessMode) : bool := has m ModeApprove.
Definition IsAdmin (m : AccessMode) : bool := IsOwner m || IsApprover m.
Definition IsSharer (m : AccessMode) : bool := IsAdmin m || has m ModeShare.
Definition IsWriter (m : AccessMode) : bool := has m ModeWrite.
Definition IsReader (m : AccessMode) : bool := has m ModeRead.
Definition IsPresencer (m : AccessMode) : bool := has m ModePres.
Definition IsDeleter (m : AccessMode) : bool := has m ModeDelete.
Definition IsZero (m : AccessMode) : bool := m =? ModeNone.
Definition IsInvalid (m : AccessMode) : bool := m =? ModeInvalid.
Definition IsDefined (m : AccessMode) : bool := negb (m =? ModeInvalid) && negb (m =? ModeUnset).

Record DefaultAccess := { da_Auth : AccessMode; da_Anon : AccessMode }.

(** ** Notions used by the statements *)

Definition parses_to (s : string) (m : AccessMode) : bool :=
  match ParseAcs s with
  | (m', None) => m' =? m
  | _ => false
  end.

Fixpoint sign_free (s : string) : bool :=
  match s with
  | EmptyString => true
  | String c s' => negb (is_sign c) && sign_free s'
  end.

(** The set of permissions of a mode, as the property [BetterEqual] compares. *)
Definition grants (m : AccessMode) (bit : N) : Prop := N.testbit m bit = true.

(** ** Helper lemmas *)

Lemma ModeBitmask_255 : ModeBitmask = 255.
Proof. reflexivity. Qed.

(** All the properties of text forms below reduce to the 256 valid masks. *)
Lemma ModeString_nonempty m : 0 < m -> m < 256 -> ModeString m <> EmptyString.
Proof.
  intros H0 H. pose (P := fun m => (m =? 0) || negb (String.eqb (ModeString m) "")).
  assert (P m = true) as HP by (revert m H0 H; intros m _; apply (all_below_spec 256); reflexivity).
  unfold P in HP. apply orb_true_iff in HP. destruct HP; to_prop; [lia|done].
Qed.

Lemma parses_to_spec s m : parses_to s m = true -> ParseAcs s = (m, None).
Proof. unfold parses_to. destruct (ParseAcs s) as [m' [e|]]; [done|]. intros; to_prop. congruence. Qed.

(** Letters of a non-empty mask parse to the mask with the "defined" bit. *)
Lemma ParseAcs_ModeString m : 0 < m -> m < 256 -> ParseAcs (ModeString m) = (ModeUnset |. m, None).
Proof.
  intros H0 H. pose (P := fun m => (m =? 0) || parses_to (ModeString m) (ModeUnset |. m)).
  assert (P m = true) as HP by (revert m H0 H; intros m _; apply (all_below_spec 256); reflexivity).
  unfold P in HP. apply orb_true_iff in HP. destruct HP; to_prop; [lia|by apply parses_to_spec].
Qed.

Lemma ModeString_sign_free m : m < 256 -> sign_free (ModeString m) = true.
Proof. revert m. apply (all_below_spec 256). reflexivity. Qed.

Lemma cut_sign_free s : sign_free s = true -> cut_sign s = (s, None).
Proof.
  induction s as [|c s IH]; [done|]. simpl. intros H. to_prop. rewrite H.
  by rewrite IH.
Qed.

Lemma cut_sign_append s c t :
  sign_free s = true -> is_sign c = true -> cut_sign (s ++ String c t) = (s, Some (String c t)).
Proof.
  intros Hs Hc. induction s as [|d s IH]; simpl; [by rewrite Hc|].
  simpl in Hs. to_prop. rewrite H, IH; done.
Qed.

Lemma cut_sign_length s chunk rest :
  cut_sign s = (chunk, Some rest) -> (String.length rest <= String.length s)%nat.
Proof.
  revert chunk rest. induction s as [|c s IH]; [done|]. intros chunk rest. simpl.
  destruct (is_sign c); [by intros [= _ <-]|].
  destruct (cut_sign s) as [ch r] eqn:E. intros [= _ ->]. specialize (IH _ _ eq_refl). lia.
Qed.

(** Fuel: the length of the remaining text is enough, more changes nothing. *)
Lemma apply_delta_loop_fuel f1 f2 whole m s :
  (String.length s <= f1)%nat -> (String.length s <= f2)%nat ->
  apply_delta_loop f1 whole m s = apply_delta_loop f2 whole m s.
Proof.
  revert f2 m s. induction f1 as [|f1 IH]; intros [|f2] m s H1 H2.
  - done.
  - destruct s; [done|simpl in H1; lia].
  - destruct s; [done|simpl in H2; lia].
  - simpl. destruct s as [|c [|d s]]; [done|done|].
    destruct (cut_sign (String d s)) as [chunk next] eqn:Ec.
    destruct (ParseAcs chunk) as [upd [e|]]; [done|].
    destruct next as [rest|]; [|done].
    apply cut_sign_length in Ec. simpl in *.
    destruct (Ascii.eqb c "+"); [apply IH; lia|].
    destruct (Ascii.eqb c "-"); [apply IH; lia|done].
Qed.

Lemma parse_result_bound m0 b m :
  parse_acs_loop m0 b = (m, None) -> m &. ModeBitmask < 256.
Proof. intros _. rewrite N.land_comm. apply land_255_lt. Qed.

Lemma lor_lt_256 a b : a < 256 -> b < 256 -> a |. b < 256.
Proof.
  intros Ha Hb. change 256 with (2 ^ 8) in *.
  assert (forall x, x < 2 ^ 8 -> x = 255 &. x) as Hm.
  { intros x Hx. change 255 with (N.ones 8). rewrite N.land_comm, N.land_ones, N.mod_small; done. }
  rewrite (Hm a Ha), (Hm b Hb), <- N.land_lor_distr_r. apply land_255_lt.
Qed.

Lemma ldiff_lt_256 a b : a < 256 -> a &^ b < 256.
Proof. intros Ha. eapply N.le_lt_trans; [|exact Ha]. apply N.ldiff_le_l || (apply N.ldiff_le). Qed.

Lemma apply_delta_one (whole : string) (c : ascii) (upd m : AccessMode) (next : option string) f :
  0 < upd -> upd < 256 -> is_sign c = true ->
  match next with Some (String d _) => is_sign d = true | Some EmptyString => False | None => True end ->
  (S (String.length (ModeString upd)) +
     match next with Some r => String.length r | None => 0 end <= f)%nat ->
  apply_delta_loop f whole m
    (String c (ModeString upd ++ match next with Some r => r | None => EmptyString end)) =
  let m1 := if Ascii.eqb c "+" then m |. upd else m &^ upd in
  match next with
  | Some r => apply_delta_loop (pred f) whole m1 r
  | None => inl m1
  end.
Proof.
  intros H0 Hlt Hc Hn Hf. destruct f as [|f]; [lia|]. cbn [apply_delta_loop pred].
  pose proof (ModeString_nonempty upd H0 Hlt) as Hne.
  assert (negb (ModeUnset |. upd =? ModeUnset) = true) as Hu.
  { apply negb_true_iff, N.eqb_neq. intros E. apply N.bits_inj_iff in E.
    assert (upd = 0) as ->; [|lia]. rewrite <- (N.mod_small upd (2 ^ 8)) by exact Hlt.
    rewrite <- N.land_ones. apply N.bits_inj. intros i. rewrite N.land_spec, N.bits_0.
    specialize (E i). rewrite N.lor_spec in E.
    destruct (N.testbit upd i) eqn:Eu; [|done]. rewrite orb_true_r in E.
    change ModeUnset with (2 ^ 8) in E. rewrite N.pow2_bits_eqb in E.
    destruct (N.eqb_spec 8 i); [subst; reflexivity|done]. }
  assert (forall x, x < 256 -> (ModeUnset |. x) &. ModeBitmask = x) as Hmask.
  { intros x Hx. rewrite N.land_lor_distr_l. change (ModeUnset &. ModeBitmask) with 0.
    rewrite N.lor_0_l. change ModeBitmask with (N.ones 8). rewrite N.land_ones. by apply N.mod_small. }
  destruct (ModeString upd ++ _)%string as [|d tl] eqn:E.
  { destruct (ModeString upd); [done|discriminate]. }
  rewrite <- E. clear E d tl.
  destruct next as [[|d r]|]; [done| |].
  - rewrite cut_sign_append by (auto using ModeString_sign_free).
    rewrite ParseAcs_ModeString, Hu, Hmask by done.
    unfold is_sign in Hc. destruct (Ascii.eqb c "+"); [done|]. simpl in Hc. by rewrite Hc.
  - rewrite append_nil_r, cut_sign_free by (auto using ModeString_sign_free).
    rewrite ParseAcs_ModeString, Hu, Hmask by done.
    unfold is_sign in Hc. destruct (Ascii.eqb c "+"); [done|]. simpl in Hc. by rewrite Hc.
Qed.

Lemma signed_part_zero sign : signed_part sign 0 = EmptyString.
Proof. reflexivity. Qed.

Lemma signed_part_pos c upd :
  0 < upd -> upd < 256 -> signed_part (String c "") upd = String c (ModeString upd).
Proof.
  intros H0 Hlt. unfold signed_part. apply N.ltb_lt in H0 as H0'. rewrite H0'.
  destruct (String.eqb_spec (ModeString upd) ""); [by destruct (ModeString_nonempty upd H0 Hlt)|done].
Qed.

(** Applying "+A-R" sets the bits of [A] and then clears those of [R]. *)
Lemma ApplyDelta_signed o A R :
  A < 256 -> R < 256 ->
  ApplyDelta o (signed_part "+" A ++ signed_part "-" R) = ((o |. A) &^ R, None).
Proof.
  intros HA HR. unfold ApplyDelta.
  destruct (N.eq_0_gt_0_cases A) as [->|HA0]; destruct (N.eq_0_gt_0_cases R) as [->|HR0];
    rewrite ?signed_part_zero, ?signed_part_pos by done.
  - simpl. by rewrite N.lor_0_r, N.ldiff_0_r.
  - cbn [String.append String.eqb Ascii.eqb orb Bool.eqb].
    pose proof (apply_delta_one (String "-" (ModeString R)) "-" R o None
                  (String.length (String "-" (ModeString R))) HR0 HR eq_refl I) as H.
    rewrite append_nil_r in H. rewrite H by (simpl; lia). cbn. by rewrite N.lor_0_r.
  - rewrite append_nil_r. cbn [String.eqb Ascii.eqb orb Bool.eqb].
    pose proof (apply_delta_one (String "+" (ModeString A)) "+" A o None
                  (String.length (String "+" (ModeString A))) HA0 HA eq_refl I) as H.
    rewrite append_nil_r in H. rewrite H by (simpl; lia). cbn. by rewrite N.ldiff_0_r.
  - cbn [String.append String.eqb Ascii.eqb orb Bool.eqb].
    set (whole := String "+" (ModeString A ++ String "-" (ModeString R))).
    pose proof (apply_delta_one whole "+" A o (Some (String "-" (ModeString R)))
                  (String.length whole) HA0 HA eq_refl eq_refl) as H.
    unfold whole at 3. rewrite H by (unfold whole; simpl; rewrite length_append; simpl; lia). cbn zeta.
    pose proof (apply_delta_one whole "-" R (o |. A) None
                  (pred (String.length whole)) HR0 HR eq_refl I) as H'.
    rewrite append_nil_r in H'. cbn [Ascii.eqb Bool.eqb]. rewrite H'; [done|].
    unfold whole; simpl; rewrite length_append; simpl; lia.
Qed.

Lemma apply_delta_loop_bound f whole m s m' :
  apply_delta_loop f whole m s = inl m' -> m < 256 -> m' < 256.
Proof.
  revert m s. induction f as [|f IH]; intros m s; [by intros [= ->]|].
  simpl. destruct s as [|c [|d s]]; [by intros [= ->]|by intros [= ->]|].
  destruct (cut_sign (String d s)) as [chunk next].
  destruct (ParseAcs chunk) as [upd [e|]]; [done|]. intros H Hm.
  assert (upd &. ModeBitmask < 256) as Hu by (rewrite N.land_comm; apply land_255_lt).
  destruct (Ascii.eqb c "+"); [|destruct (Ascii.eqb c "-"); [|done]];
    destruct (negb (upd =? ModeUnset)); destruct next as [rest|]; simplify_eq;
    eauto using lor_lt_256, ldiff_lt_256.
Qed.

Lemma UnmarshalText_bound m s m' e :
  UnmarshalText m s = (m', e) -> (e <> None -> m' = m) /\ (m < 256 -> m' < 256).
Proof.
  unfold UnmarshalText. destruct (ParseAcs s) as [m0 [e0|]]; intros; simplify_eq; [done|].
  split; [done|]. intros Hm. destruct (negb _); [|done]. rewrite N.land_comm. apply land_255_lt.
Qed.

Lemma ApplyDelta_bound m s m' e :
  ApplyDelta m s = (m', e) -> (e <> None -> m' = m) /\ (m < 256 -> m' < 256).
Proof.
  unfold ApplyDelta. destruct (_ || _); [intros; simplify_eq; done|].
  destruct (apply_delta_loop _ _ _ _) as [m1|e1] eqn:E; intros; simplify_eq; [|done].
  split; [done|]. eauto using apply_delta_loop_bound.
Qed.

(** Combining modes of the topic engine: the flags of an intersection. *)
Lemma has_flag m i : has m (N.shiftl 1 i) = N.testbit m i.
Proof.
  unfold has. rewrite N.shiftl_1_l. destruct (N.testbit m i) eqn:E.
  - apply negb_true_iff, N.eqb_neq. intros H. apply N.bits_inj_iff in H. specialize (H i).
    by rewrite N.land_spec, E, N.pow2_bits_true, N.bits_0 in H.
  - apply negb_false_iff, N.eqb_eq, N.bits_inj. intros j. rewrite N.land_spec, N.bits_0.
    rewrite N.pow2_bits_eqb. destruct (N.eqb_spec i j); [subst; by rewrite E|by rewrite andb_false_r].
Qed.

Lemma IsOwner_testbit m : IsOwner m = N.testbit m 7.
Proof. apply has_flag. Qed.
Lemma IsApprover_testbit m : IsApprover m = N.testbit m 4.
Proof. apply has_flag. Qed.
Lemma IsJoiner_testbit m : IsJoiner m = N.testbit m 0.
Proof. apply has_flag. Qed.
Lemma IsReader_testbit m : IsReader m = N.testbit m 1.
Proof. apply has_flag. Qed.
Lemma IsWriter_testbit m : IsWriter m = N.testbit m 2.
Proof. apply has_flag. Qed.
Lemma IsPresencer_testbit m : IsPresencer m = N.testbit m 3.
Proof. apply has_flag. Qed.
#[export] Hint Rewrite IsOwner_testbit IsApprover_testbit IsJoiner_testbit IsReader_testbit
  IsWriter_testbit IsPresencer_testbit : bits.

Lemma mode_bits_nonzero m : m <> 0 <-> exists i, N.testbit m i = true.
Proof.
  split.
  - intros H. exists (N.log2 m). by apply N.bit_log2.
  - intros [i Hi] ->. by rewrite N.bits_0 in Hi.
Qed.

Lemma UnmarshalJSON_quoted m0 m :
  m < 256 -> UnmarshalJSON m0 (fst (MarshalJSON m)) = Some (UnmarshalText m0 (ModeString m)).
Proof.
  intros H. assert (fst (MarshalJSON m) = String "034" (ModeString m ++ String "034" "")) as ->.
  { apply String.eqb_eq. revert m H. apply (all_below_spec 256). reflexivity. }
  assert (ModeString m <> "") as Hne.
  { apply String.eqb_neq, negb_true_iff. revert m H. apply (all_below_spec 256). reflexivity. }
  set (t := ModeString m) in *.
  assert (String.length (t ++ String "034" "") = S (String.length t)) as Hl
    by (rewrite length_append; simpl; lia).
  unfold UnmarshalJSON, last_byte. cbn [String.length]. rewrite Hl. cbn [Nat.sub String.get].
  rewrite Nat.sub_0_r, get_append_last, substring_append_prefix. cbn. by destruct t.
Qed.

(** ** Properties *)

(** [UnmarshalText] and [UnmarshalJSON] read back every valid mode from the text
    [MarshalText]/[MarshalJSON] prints, whatever the receiver held. *)
Theorem unmarshal_marshal m0 m :
  m < 256 ->
  UnmarshalText m0 (ModeString m) = (m, None) /\
  UnmarshalJSON m0 (fst (MarshalJSON m)) = Some (m, None).
Proof.
  intros H.
  assert (UnmarshalText m0 (ModeString m) = (m, None)) as Ht.
  { destruct (N.eq_0_gt_0_cases m) as [->|H0]; [reflexivity|].
    unfold UnmarshalText. rewrite ParseAcs_ModeString by done.
    destruct (N.eqb_spec (ModeUnset |. m) ModeUnset) as [E|E]; simpl.
    - exfalso. revert E. pose (P := fun m => (m =? 0) || negb (ModeUnset |. m =? ModeUnset)).
      assert (P m = true) as HP by (revert m H0 H; intros m _; apply (all_below_spec 256); reflexivity).
      unfold P in HP. apply orb_true_iff in HP. destruct HP; to_prop; [lia|done].
    - f_equal. change ModeBitmask with (N.ones 8). rewrite N.land_ones.
      revert m H H0 E. intros m H _ _. apply N.eqb_eq. revert m H.
      apply (all_below_spec 256). reflexivity. }
  split; [exact Ht|].
  by rewrite UnmarshalJSON_quoted, Ht.
Qed.

Lemma unmarshal_marshal_witness :
  71 < 256 /\ UnmarshalText 5 (ModeString 71) = (71, None) /\
  UnmarshalJSON 5 (fst (MarshalJSON 71)) = Some (71, None).
Proof. split; [reflexivity|]. apply (unmarshal_marshal 5 71). reflexivity. Defined.

(** for all modes, applying [o.Delta(n)] to [o] yields the permissions of [n]
    (bits outside the valid mask are those of [o]) without an error. *)
Theorem apply_delta_roundtrip o n :
  ApplyDelta o (Delta o n) = ((o &^ ModeBitmask) |. (n &. ModeBitmask), None).
Proof.
  unfold Delta. rewrite ApplyDelta_signed by (apply ldiff_land_255_lt).
  f_equal. bits_solve.
Qed.

(** [ApplyMutation] leaves the mode unchanged when it returns an error, and never
    produces a mode outside the valid permission bits. *)
Theorem apply_mutation_safe m s m' e :
  ApplyMutation m s = (m', e) -> (e <> None -> m' = m) /\ (m < 256 -> m' < 256).
Proof.
  unfold ApplyMutation. destruct (String.eqb s ""); [intros; simplify_eq; done|].
  destruct (contains_sign s); eauto using ApplyDelta_bound, UnmarshalText_bound.
Qed.

Lemma apply_mutation_safe_witness :
  ApplyMutation 31 "-PR+S" = (53, None) /\ (53 < 256) /\
  ApplyMutation 31 "+X" = (31, snd (ApplyMutation 31 "+X")).
Proof.
  split; [reflexivity|]. split.
  - apply (apply_mutation_safe 31 "-PR+S" 53 None); reflexivity.
  - assert (snd (ApplyMutation 31 "+X") <> None) as Hne by discriminate.
    pose proof (proj1 (apply_mutation_safe 31 "+X" _ _ eq_refl) Hne). reflexivity.
Defined.

(** [BetterEqual] decides that every requested permission is granted, and
    [BetterThan] that some valid permission is granted beyond the requested ones. *)
Theorem better_equal_than_spec grant want :
  want < 256 ->
  (BetterEqual grant want = true <-> forall i, grants want i -> grants grant i) /\
  (BetterThan grant want = true <-> exists i, i < 8 /\ grants grant i /\ ~ grants want i).
Proof.
  intros Hw. assert (forall i, grants want i -> i < 8) as Hi.
  { intros i H. destruct (N.lt_ge_cases i 8) as [|Hge]; [done|]. unfold grants in H.
    destruct (N.eq_0_gt_0_cases want) as [->|H0]; [by rewrite N.bits_0 in H|].
    rewrite N.bits_above_log2 in H; [done|].
    apply N.lt_le_trans with 8; [|done]. by apply N.log2_lt_pow2. }
  assert (forall i, N.testbit ModeBitmask i = (i <? 8)) as Hm.
  { intros i. change ModeBitmask with (N.ones 8). destruct (N.ltb_spec i 8); [by apply N.ones_spec_low|by apply N.ones_spec_high]. }
  unfold BetterEqual, BetterThan, grants in *. split.
  - rewrite N.eqb_eq. split.
    + intros H i Hb. rewrite <- H, !N.land_spec in Hb. to_prop. by destruct (N.testbit grant i).
    + intros H. apply N.bits_inj. intros i. rewrite !N.land_spec, Hm.
      destruct (N.testbit want i) eqn:E; [|by rewrite andb_false_r].
      rewrite (H i E), !andb_true_r. apply N.ltb_lt. eauto.
  - rewrite negb_true_iff, N.eqb_neq, mode_bits_nonzero. split.
    + intros [i Hb]. exists i. rewrite N.ldiff_spec, N.land_spec, Hm in Hb. to_prop.
      split; [done|]. split; [done|]. by rewrite H0.
    + intros (i & H8 & Hg & Hn). exists i. rewrite N.ldiff_spec, N.land_spec, Hm, Hg.
      apply N.ltb_lt in H8. rewrite H8. by destruct (N.testbit want i).
Qed.

Lemma better_equal_than_spec_witness :
  11 < 256 /\ BetterEqual 47 11 = true /\ (forall i, grants 11 i -> grants 47 i).
Proof.
  split; [reflexivity|]. split; [reflexivity|].
  apply (better_equal_than_spec 47 11); reflexivity.
Defined.
