(* ===== verification/Uid.v ===== *)
(** * User identifiers and topic names (server/store/types/uid.go)

    A [Uid] is a Go [uint64]: an [N] below [2^64].  The text forms go through
    [encoding/binary] (little endian), [encoding/base64] (URL alphabet, no
    padding, non-strict, CR and LF skipped) and [encoding/base32], which are
    defined first.  A decoder returns the bytes it wrote and whether it failed;
    the position reported in the decoder's error text is left out. *)

From Stdlib Require Import NArith ZArith Lia List Ascii String Bool Sorted.
From stdpp Require Import base tactics numbers list strings.
From S2P Require Import Prelude.

Local Open Scope string_scope.
Local Open Scope N_scope.

Abbreviation Uid := N (only parsing).

(** ** encoding/binary: little endian integers *)

Fixpoint le_split (n : nat) (w : N) : string :=
  match n with
  | O => ""
  | S n' => String (ascii_of_N (w mod 256)) (le_split n' (w / 256))
  end.

Fixpoint le_combine (s : string) : N :=
  match s with
  | "" => 0
  | String c s' => N_of_ascii c + 256 * le_combine s'
  end.

Definition PutUint64 (w : N) : string := le_split 8 w.
Definition Uint64 (b : string) : N := le_combine (String.substring 0 8 b).

(** ** encoding/base64, URLEncoding.WithPadding(NoPadding) *)

Definition b64_char (v : N) : ascii :=
  if v <? 26 then ascii_of_N (65 + v)
  else if v <? 52 then ascii_of_N (71 + v)
  else if v <? 62 then ascii_of_N (v - 4)
  else if v =? 62 then "-"%char else "_"%char.

Definition b64_val (c : ascii) : option N :=
  let n := N_of_ascii c in
  if (65 <=? n) && (n <=? 90) then Some (n - 65)
  else if (97 <=? n) && (n <=? 122) then Some (n - 71)
  else if (48 <=? n) && (n <=? 57) then Some (n + 4)
  else if n =? 45 then Some 62
  else if n =? 95 then Some 63
  else None.

Fixpoint b64_encode (s : string) : string :=
  match s with
  | "" => ""
  | String a "" =>
      let v := N_of_ascii a * 65536 in
      String (b64_char (v / 262144)) (String (b64_char (v / 4096 mod 64)) "")
  | String a (String b "") =>
      let v := N_of_ascii a * 65536 + N_of_ascii b * 256 in
      String (b64_char (v / 262144))
        (String (b64_char (v / 4096 mod 64)) (String (b64_char (v / 64 mod 64)) ""))
  | String a (String b (String c s')) =>
      let v := N_of_ascii a * 65536 + N_of_ascii b * 256 + N_of_ascii c in
      String (b64_char (v / 262144))
        (String (b64_char (v / 4096 mod 64))
           (String (b64_char (v / 64 mod 64)) (String (b64_char (v mod 64)) (b64_encode s'))))
  end.

Fixpoint skip_newlines (s : string) : string :=
  match s with
  | "" => ""
  | String c s' =>
      if Ascii.eqb c "010" || Ascii.eqb c "013" then skip_newlines s' else String c (skip_newlines s')
  end.

Definition byte_of (v : N) : ascii := ascii_of_N (v mod 256).

(** The bytes written and whether the input was corrupt. *)
Fixpoint b64_decode_quanta (s : string) : string * bool :=
  match s with
  | "" => ("", false)
  | String _ "" => ("", true)
  | String a (String b "") =>
      match b64_val a, b64_val b with
      | Some x, Some y =>
          let v := x * 262144 + y * 4096 in (String (byte_of (v / 65536)) "", false)
      | _, _ => ("", true)
      end
  | String a (String b (String c "")) =>
      match b64_val a, b64_val b, b64_val c with
      | Some x, Some y, Some z =>
          let v := x * 262144 + y * 4096 + z * 64 in
          (String (byte_of (v / 65536)) (String (byte_of (v / 256)) ""), false)
      | _, _, _ => ("", true)
      end
  | String a (String b (String c (String d s'))) =>
      match b64_val a, b64_val b, b64_val c, b64_val d with
      | Some x, Some y, Some z, Some w =>
          let v := x * 262144 + y * 4096 + z * 64 + w in
          let '(out, err) := b64_decode_quanta s' in
          (String (byte_of (v / 65536)) (String (byte_of (v / 256)) (String (byte_of v) out)), err)
      | _, _, _, _ => ("", true)
      end
  end.

Definition b64_decode (s : string) : string * bool := b64_decode_quanta (skip_newlines s).

(** ** encoding/base32, StdEncoding.WithPadding(NoPadding) on bit groups *)

Definition b32_char (v : N) : ascii :=
  if v <? 26 then ascii_of_N (65 + v) else ascii_of_N (24 + v).

Definition b32_val (c : ascii) : option N :=
  let n := N_of_ascii c in
  if (65 <=? n) && (n <=? 90) then Some (n - 65)
  else if (50 <=? n) && (n <=? 55) then Some (n - 24)
  else None.

(** The bits of a byte, most significant first. *)
Definition byte_bits (c : ascii) : list bool :=
  map (fun i => N.testbit (N_of_ascii c) (N.of_nat i)) (rev (List.seq 0 8)).

Fixpoint bits_value (l : list bool) : N :=
  match l with
  | [] => 0
  | b :: l' => N.b2n b * 2 ^ N.of_nat (List.length l') + bits_value l'
  end.

(** Five bits per character, the last group filled with zeros on the right. *)
Fixpoint b32_groups (l : list bool) : string :=
  match l with
  | [] => ""
  | b4 :: b3 :: b2 :: b1 :: b0 :: l' =>
      String (b32_char (bits_value [b4; b3; b2; b1; b0])) (b32_groups l')
  | l' => String (b32_char (bits_value (l' ++ repeat false (5 - List.length l'))%list)) ""
  end.

Fixpoint bytes_bits (s : string) : list bool :=
  match s with
  | "" => []
  | String c s' => (byte_bits c ++ bytes_bits s')%list
  end.

Definition b32_encode (s : string) : string := b32_groups (bytes_bits s).

Fixpoint b32_values (s : string) : option (list N) :=
  match s with
  | "" => Some []
  | String c s' =>
      match b32_val c, b32_values s' with
      | Some v, Some vs => Some (v :: vs)
      | _, _ => None
      end
  end.

Definition sextet_bits (v : N) : list bool :=
  map (fun i => N.testbit v (N.of_nat i)) (rev (List.seq 0 5)).

Fixpoint whole_bytes (l : list bool) : string :=
  match l with
  | b7 :: b6 :: b5 :: b4 :: b3 :: b2 :: b1 :: b0 :: l' =>
      String (ascii_of_N (bits_value [b7; b6; b5; b4; b3; b2; b1; b0])) (whole_bytes l')
  | _ => ""
  end.

(** [None] is a decoding error: a character outside the alphabet, or a last
    group of 1, 3 or 6 characters. *)
Definition b32_decode (s : string) : option string :=
  let s := skip_newlines s in
  let r := (String.length s mod 8)%nat in
  if (r =? 1)%nat || (r =? 3)%nat || (r =? 6)%nat then None
  else match b32_values s with
       | Some vs => Some (whole_bytes (List.concat (map sextet_bits vs)))
       | None => None
       end.

(** ** The identifier type *)

Definition ZeroUid : Uid := 0.
Definition uidBase64Unpadded : nat := 11.
Definition p2pBase64Unpadded : nat := 22.

Definition IsZeroUid (uid : Uid) : bool := uid =? ZeroUid.

Definition Compare (uid u2 : Uid) : Z :=
  if uid <? u2 then (-1)%Z else if u2 <? uid then 1%Z else 0%Z.

Definition MarshalBinary (uid : Uid) : string := PutUint64 uid.

Definition UnmarshalBinary (uid : Uid) (b : string) : Uid * option GoError :=
  if (String.length b <? 8)%nat then (uid, Some (TextErr "Uid.UnmarshalBinary: invalid length"))
  else (Uint64 b, None).

Definition UidUnmarshalText (uid : Uid) (src : string) : Uid * option GoError :=
  if negb (String.length src =? uidBase64Unpadded)%nat then
    (uid, Some (TextErr "Uid.UnmarshalText: invalid length"))
  else
    let '(dec, err) := b64_decode src in
    if (String.length dec <? 8)%nat then
      (uid, Some (TextErr (if err then "Uid.UnmarshalText: failed to decode "
                           else "Uid.UnmarshalText: failed to decode")))
    else (Uint64 dec, None).

Definition UidMarshalText (uid : Uid) : string :=
  if uid =? ZeroUid then "" else b64_encode (PutUint64 uid).

Definition UidMarshalJSON (uid : Uid) : string :=
  String "034" (UidMarshalText uid ++ String "034" "").

Definition UidUnmarshalJSON (uid : Uid) (b : string) : Uid * option GoError :=
  let size := String.length b in
  if negb (size =? uidBase64Unpadded + 2)%nat then
    (uid, Some (TextErr "Uid.UnmarshalJSON: invalid length"))
  else match String.get 0 b, String.get (size - 1) b with
       | Some c, Some d =>
           if negb (Ascii.eqb c "034") || negb (Ascii.eqb d "034")
           then (uid, Some (TextErr "Uid.UnmarshalJSON: unrecognized"))
           else UidUnmarshalText uid (String.substring 1 (size - 2) b)
       | _, _ => (uid, Some (TextErr "Uid.UnmarshalJSON: unrecognized"))
       end.

Definition UidString (uid : Uid) : string := UidMarshalText uid.

Definition String32 (uid : Uid) : string := ToLower (b32_encode (MarshalBinary uid)).

Definition ParseUid (s : string) : Uid := fst (UidUnmarshalText 0 s).

Definition ParseUid32 (s : string) : Uid :=
  match b32_decode s with
  | Some data => fst (UnmarshalBinary 0 data)
  | None => 0
  end.

Definition PrefixId (uid : Uid) (prefix : string) : string :=
  if IsZeroUid uid then "" else prefix ++ UidString uid.

Definition UserId (uid : Uid) : string := PrefixId uid "usr".
Definition FndName (uid : Uid) : string := PrefixId uid "fnd".
Definition SlfName (uid : Uid) : string := PrefixId uid "slf".

Definition ParseUserId (s : string) : Uid :=
  if HasPrefix s "usr" then fst (UidUnmarshalText 0 (drop_bytes 3 s)) else 0.

(** [strings.Replace(grp, "grp", "chn", 1)]: the first occurrence is the prefix. *)
Definition GrpToChn (grp : string) : string :=
  if HasPrefix grp "grp" then "chn" ++ drop_bytes 3 grp
  else if HasPrefix grp "chn" then grp
  else "".

Definition IsChannel (name : string) : bool := HasPrefix name "chn".

Definition ChnToGrp (chn : string) : string :=
  if HasPrefix chn "chn" then "grp" ++ drop_bytes 3 chn
  else if HasPrefix chn "grp" then chn
  else "".

(** ** Sorted slices of identifiers *)

Definition uid_find (us : list Uid) (uid : Uid) : nat * bool :=
  let l := List.length us in
  let at_ i := nth i us 0 in
  if (l =? 0)%nat || (uid <? at_ 0%nat) then (0%nat, false)
  else if at_ (l - 1)%nat <? uid then (l, false)
  else
    let idx := sort_Search l (fun i => uid <=? at_ i) in
    (idx, (idx <? l)%nat && (at_ idx =? uid)).

Definition UidSlice_Add (us : list Uid) (uid : Uid) : list Uid * bool :=
  let '(idx, found) := uid_find us uid in
  if found then (us, false)
  else ((firstn idx us ++ uid :: skipn idx us)%list, true).

Definition UidSlice_Rem (us : list Uid) (uid : Uid) : list Uid * bool :=
  let '(idx, found) := uid_find us uid in
  if negb found then (us, false)
  else if (idx =? List.length us - 1)%nat then (firstn idx us, true)
  else ((firstn idx us ++ skipn (idx + 1) us)%list, true).

Definition UidSlice_Contains (us : list Uid) (uid : Uid) : bool :=
  snd (uid_find us uid).

(** ** P2P topic names *)

Definition P2PName (uid u2 : Uid) : string :=
  if negb (IsZeroUid uid) && negb (IsZeroUid u2) then
    let b1 := MarshalBinary uid in
    let b2 := MarshalBinary u2 in
    if uid <? u2 then "p2p" ++ b64_encode (b1 ++ b2)
    else if u2 <? uid then "p2p" ++ b64_encode (b2 ++ b1)
    else ""
  else "".

Definition ParseP2P (p2p : string) : (Uid * Uid) * option GoError :=
  if HasPrefix p2p "p2p" then
    let src := drop_bytes 3 p2p in
    if negb (String.length src =? p2pBase64Unpadded)%nat then
      ((0, 0), Some (TextErr "ParseP2P: invalid length"))
    else
      let '(dec, err) := b64_decode src in
      if (String.length dec <? 16)%nat then
        ((0, 0), Some (TextErr (if err then "ParseP2P: failed to decode "
                                else "ParseP2P: invalid decoded length")))
      else ((Uint64 dec, Uint64 (drop_bytes 8 dec)),
            if err then Some (TextErr "illegal base64 data") else None)
  else ((0, 0), Some (TextErr "ParseP2P: missing or invalid prefix")).

Definition P2PNameForUser (uid : Uid) (p2p : string) : string * option GoError :=
  match ParseP2P p2p with
  | (_, Some err) => ("", Some err)
  | ((uid1, uid2), None) =>
      if (Compare uid uid1 =? 0)%Z then (UserId uid2, None) else (UserId uid1, None)
  end.

(** ** Helper lemmas: byte codecs *)

Ltac divmod_lia := zify; Z.to_euclidean_division_equations; lia.

Lemma N_of_ascii_lt c : N_of_ascii c < 256.
Proof. apply N_ascii_bounded. Qed.

Lemma byte_of_small v : v < 256 -> byte_of v = ascii_of_N v.
Proof. intros. unfold byte_of. by rewrite N.mod_small. Qed.

Lemma le_split_length n w : String.length (le_split n w) = n.
Proof. revert w. induction n as [|n IH]; intros w; simpl; [done|]. by rewrite IH. Qed.

Lemma le_combine_split n w : le_combine (le_split n w) = w mod 256 ^ N.of_nat n.
Proof.
  revert w. induction n as [|n IH]; intros w; cbn [le_split le_combine].
  - by rewrite N.mod_1_r.
  - rewrite IH, N_ascii_embedding by (apply N.mod_lt; done).
    rewrite Nat2N.inj_succ, N.pow_succ_r', N.Div0.mod_mul_r. done.
Qed.

Lemma Uint64_append w t : w < 2 ^ 64 -> Uint64 (PutUint64 w ++ t) = w.
Proof.
  intros Hw. unfold Uint64, PutUint64.
  replace 8%nat with (String.length (le_split 8 w)) at 1 by apply le_split_length.
  rewrite substring_append_prefix, le_combine_split. by apply N.mod_small.
Qed.

Lemma Uint64_Put w : w < 2 ^ 64 -> Uint64 (PutUint64 w) = w.
Proof. intros Hw. rewrite <- (append_nil_r (PutUint64 w)). by apply Uint64_append. Qed.

Lemma b64_val_char v : v < 64 -> b64_val (b64_char v) = Some v.
Proof.
  intros H. pose (P := fun v => match b64_val (b64_char v) with Some u => u =? v | None => false end).
  assert (P v = true) as HP by (revert v H; apply (all_below_spec 64); reflexivity).
  unfold P in HP. destruct (b64_val _); [to_prop; by subst|done].
Qed.

(** Induction on a byte string three bytes at a time. *)
Lemma string_ind3 (P : string -> Prop) :
  P "" -> (forall a, P (String a "")) -> (forall a b, P (String a (String b ""))) ->
  (forall a b c s, P s -> P (String a (String b (String c s)))) -> forall s, P s.
Proof.
  intros H0 H1 H2 H3. fix IH 1. intros [|a [|b [|c s]]]; [done|apply H1|apply H2|].
  apply H3. apply IH.
Qed.

Lemma byte_of_eq v c : v mod 256 = N_of_ascii c -> byte_of v = c.
Proof. intros H. unfold byte_of. by rewrite H, ascii_N_embedding. Qed.

Definition quantum (a b c : ascii) : N := N_of_ascii a * 65536 + N_of_ascii b * 256 + N_of_ascii c.

Lemma sextets v :
  v < 16777216 ->
  v / 262144 < 64 /\ v / 4096 mod 64 < 64 /\ v / 64 mod 64 < 64 /\ v mod 64 < 64 /\
  v / 262144 * 262144 + v / 4096 mod 64 * 4096 + v / 64 mod 64 * 64 + v mod 64 = v.
Proof. intros. divmod_lia. Qed.

Lemma quantum_bytes a b c :
  quantum a b c < 16777216 /\
  byte_of (quantum a b c / 65536) = a /\ byte_of (quantum a b c / 256) = b /\ byte_of (quantum a b c) = c.
Proof.
  pose proof (N_of_ascii_lt a). pose proof (N_of_ascii_lt b). pose proof (N_of_ascii_lt c).
  unfold quantum. split; [lia|].
  split; [|split]; apply byte_of_eq; divmod_lia.
Qed.

Lemma b64_quanta_encode s : b64_decode_quanta (b64_encode s) = (s, false).
Proof.
  induction s as [|a|a b|a b c s IH] using string_ind3; [done| | |].
  - destruct (quantum_bytes a "000" "000") as (Hq & Ha & _ & _).
    pose proof (N_of_ascii_lt a).
    cbn [b64_encode b64_decode_quanta]. change (N_of_ascii "000") with 0 in *.
    destruct (sextets (N_of_ascii a * 65536)) as (H1 & H2 & _ & _ & _); [lia|].
    rewrite !b64_val_char by done. f_equal. f_equal. apply byte_of_eq. divmod_lia.
  - pose proof (N_of_ascii_lt a). pose proof (N_of_ascii_lt b).
    cbn [b64_encode b64_decode_quanta].
    destruct (sextets (N_of_ascii a * 65536 + N_of_ascii b * 256)) as (H1 & H2 & H3 & _ & _); [lia|].
    rewrite !b64_val_char by done. f_equal. f_equal; [|f_equal]; apply byte_of_eq; divmod_lia.
  - cbn [b64_encode]. fold (quantum a b c). destruct (quantum_bytes a b c) as (Hq & Ha & Hb & Hc).
    destruct (sextets (quantum a b c) Hq) as (H1 & H2 & H3 & H4 & Hv).
    cbn [b64_decode_quanta]. rewrite !b64_val_char by done. rewrite IH, Hv, Ha, Hb, Hc. done.
Qed.

Definition is_newline (c : ascii) : bool := Ascii.eqb c "010" || Ascii.eqb c "013".

Lemma b64_char_not_newline v : v < 64 -> is_newline (b64_char v) = false.
Proof.
  intros H. apply negb_true_iff. revert v H. apply (all_below_spec 64). reflexivity.
Qed.

Lemma skip_newlines_cons c s :
  is_newline c = false -> skip_newlines (String c s) = String c (skip_newlines s).
Proof. unfold is_newline. simpl. by intros ->. Qed.

Lemma skip_newlines_encode s : skip_newlines (b64_encode s) = b64_encode s.
Proof.
  induction s as [|a|a b|a b c s IH] using string_ind3; [done| | |].
  - pose proof (N_of_ascii_lt a). cbn [b64_encode].
    destruct (sextets (N_of_ascii a * 65536)) as (H1 & H2 & _ & _ & _); [lia|].
    by rewrite !skip_newlines_cons by (by apply b64_char_not_newline).
  - pose proof (N_of_ascii_lt a). pose proof (N_of_ascii_lt b). cbn [b64_encode].
    destruct (sextets (N_of_ascii a * 65536 + N_of_ascii b * 256)) as (H1 & H2 & H3 & _ & _); [lia|].
    by rewrite !skip_newlines_cons by (by apply b64_char_not_newline).
  - cbn [b64_encode]. fold (quantum a b c). destruct (quantum_bytes a b c) as (Hq & _).
    destruct (sextets (quantum a b c) Hq) as (H1 & H2 & H3 & H4 & _).
    by rewrite !skip_newlines_cons, IH by (by apply b64_char_not_newline).
Qed.

Lemma b64_decode_encode s : b64_decode (b64_encode s) = (s, false).
Proof. unfold b64_decode. by rewrite skip_newlines_encode, b64_quanta_encode. Qed.

(** Length of the encoding: four characters per three bytes, rounded up. *)
Lemma b64_encode_length s :
  (3 * String.length (b64_encode s) = 4 * String.length s + match String.length s mod 3 with
     | 0 => 0 | 1 => 2 | _ => 1 end)%nat.
Proof.
  induction s as [|a|a b|a b c s IH] using string_ind3; [done..|].
  cbn [b64_encode String.length].
  replace (S (S (S (String.length s))) mod 3)%nat with (String.length s mod 3)%nat.
  - lia.
  - replace (S (S (S (String.length s)))) with (String.length s + 1 * 3)%nat by lia.
    by rewrite Nat.Div0.mod_add.
Qed.

Lemma b64_encode_length_8 s : String.length s = 8%nat -> String.length (b64_encode s) = 11%nat.
Proof. intros H. pose proof (b64_encode_length s) as E. rewrite H in E.
  change (8 mod 3)%nat with 2%nat in E. cbv iota in E. lia. Qed.

Lemma b64_encode_length_16 s : String.length s = 16%nat -> String.length (b64_encode s) = 22%nat.
Proof. intros H. pose proof (b64_encode_length s) as E. rewrite H in E.
  change (16 mod 3)%nat with 1%nat in E. cbv iota in E. lia. Qed.

Lemma UidUnmarshalText_encode u0 u :
  u < 2 ^ 64 -> UidUnmarshalText u0 (b64_encode (PutUint64 u)) = (u, None).
Proof.
  intros Hu. unfold UidUnmarshalText.
  assert (String.length (PutUint64 u) = 8%nat) as Hl by apply le_split_length.
  rewrite (b64_encode_length_8 _ Hl). cbn [uidBase64Unpadded Nat.eqb negb]. rewrite b64_decode_encode, Hl. cbn [Nat.ltb Nat.leb].
  by rewrite Uint64_Put.
Qed.

Lemma UidString_nonzero u : u <> 0 -> UidString u = b64_encode (PutUint64 u).
Proof. intros H. unfold UidString, UidMarshalText, ZeroUid. apply N.eqb_neq in H. by rewrite H. Qed.

Lemma ParseUid_String u : u < 2 ^ 64 -> ParseUid (UidString u) = u.
Proof.
  intros Hu. destruct (N.eq_dec u 0) as [->|Hn]; [reflexivity|].
  unfold ParseUid. by rewrite UidString_nonzero, UidUnmarshalText_encode.
Qed.

Lemma UserId_nonzero u : u <> 0 -> UserId u = "usr" ++ UidString u.
Proof. intros H. unfold UserId, PrefixId, IsZeroUid, ZeroUid. apply N.eqb_neq in H. by rewrite H. Qed.

Lemma ParseUserId_UserId u : u < 2 ^ 64 -> ParseUserId (UserId u) = u.
Proof.
  intros Hu. destruct (N.eq_dec u 0) as [->|Hn]; [reflexivity|].
  rewrite UserId_nonzero by done. unfold ParseUserId.
  rewrite HasPrefix_append, (drop_bytes_append "usr").
  by rewrite UidString_nonzero, UidUnmarshalText_encode.
Qed.

Lemma UserId_inj u v : u < 2 ^ 64 -> v < 2 ^ 64 -> UserId u = UserId v -> u = v.
Proof. intros Hu Hv H. by rewrite <- (ParseUserId_UserId u Hu), H, ParseUserId_UserId. Qed.

(** ** Helper lemmas: P2P names *)

Lemma Uint64_pair a b : a < 2 ^ 64 -> b < 2 ^ 64 ->
  Uint64 (PutUint64 a ++ PutUint64 b) = a /\
  Uint64 (drop_bytes 8 (PutUint64 a ++ PutUint64 b)) = b.
Proof.
  intros Ha Hb. split; [by apply Uint64_append|].
  replace 8%nat with (String.length (PutUint64 a)) by apply le_split_length.
  by rewrite drop_bytes_append, Uint64_Put.
Qed.

Lemma ParseP2P_encode a b : a < 2 ^ 64 -> b < 2 ^ 64 ->
  ParseP2P ("p2p" ++ b64_encode (PutUint64 a ++ PutUint64 b)) = ((a, b), None).
Proof.
  intros Ha Hb. unfold ParseP2P. rewrite HasPrefix_append.
  rewrite (drop_bytes_append "p2p").
  assert (String.length (PutUint64 a ++ PutUint64 b) = 16%nat) as Hl
    by (rewrite length_append; unfold PutUint64; by rewrite !le_split_length).
  rewrite (b64_encode_length_16 _ Hl). cbn [p2pBase64Unpadded Nat.eqb negb]. rewrite b64_decode_encode, Hl. cbn [Nat.ltb Nat.leb].
  by destruct (Uint64_pair a b Ha Hb) as [-> ->].
Qed.

Lemma P2PName_lt a b : a <> 0 -> a < b -> P2PName a b = "p2p" ++ b64_encode (PutUint64 a ++ PutUint64 b).
Proof.
  intros H0 Hlt. unfold P2PName, IsZeroUid, ZeroUid, MarshalBinary.
  assert (b <> 0) as Hb by lia. apply N.eqb_neq in H0, Hb. rewrite H0, Hb.
  apply N.ltb_lt in Hlt. by rewrite Hlt.
Qed.

Lemma P2PName_sym a b : P2PName a b = P2PName b a.
Proof.
  unfold P2PName. rewrite andb_comm. destruct (_ && _); [|done].
  destruct (N.ltb_spec a b); destruct (N.ltb_spec b a); try lia; done.
Qed.

(** ** Properties *)

(** the text, the "usr" and the JSON forms of a 64-bit identifier parse back to it. *)
Theorem uid_text_roundtrip u u0 :
  u < 2 ^ 64 -> u <> 0 ->
  ParseUid (UidString u) = u /\ ParseUserId (UserId u) = u /\
  UidUnmarshalJSON u0 (UidMarshalJSON u) = (u, None).
Proof.
  intros Hu Hn. split; [by apply ParseUid_String|]. split; [by apply ParseUserId_UserId|].
  unfold UidUnmarshalJSON, UidMarshalJSON. fold (UidString u). rewrite UidString_nonzero by done.
  set (t := b64_encode (PutUint64 u)).
  assert (String.length t = 11%nat) as Ht by apply b64_encode_length_8, le_split_length.
  assert (String.length (t ++ String "034" "") = 12%nat) as Hl by (rewrite length_append, Ht; done).
  cbn [String.length]. rewrite Hl. cbn [Nat.eqb uidBase64Unpadded Nat.add negb Nat.sub String.get].
  rewrite <- Ht at 1. rewrite get_append_last. cbn [String.substring].
  rewrite <- Ht. rewrite substring_append_prefix. by apply UidUnmarshalText_encode.
Qed.

Lemma uid_text_roundtrip_witness :
  ParseUid (UidString 12345678901) = 12345678901 /\
  ParseUserId (UserId 12345678901) = 12345678901 /\
  UidUnmarshalJSON 7 (UidMarshalJSON 12345678901) = (12345678901, None).
Proof. apply (uid_text_roundtrip 12345678901 7); [reflexivity|discriminate]. Defined.

(** the P2P topic name of two distinct users is the same in both orders, parses back to
    the ordered pair, and shows each user the other one's identifier. *)
Theorem p2p_name_roundtrip a b :
  a <> 0 -> a < b -> b < 2 ^ 64 ->
  P2PName a b = P2PName b a /\ ParseP2P (P2PName a b) = ((a, b), None) /\
  P2PNameForUser a (P2PName a b) = (UserId b, None) /\
  P2PNameForUser b (P2PName a b) = (UserId a, None).
Proof.
  intros H0 Hlt Hb. split; [apply P2PName_sym|].
  assert (ParseP2P (P2PName a b) = ((a, b), None)) as Hp.
  { rewrite P2PName_lt by done. apply ParseP2P_encode; lia. }
  split; [done|]. unfold P2PNameForUser. rewrite Hp. unfold Compare.
  rewrite N.ltb_irrefl. split; [done|].
  destruct (N.ltb_spec b a); [lia|]. destruct (N.ltb_spec a b); [done|lia].
Qed.

Lemma p2p_name_roundtrip_witness :
  P2PName 17 42 = P2PName 42 17 /\ ParseP2P (P2PName 17 42) = ((17, 42), None) /\
  P2PNameForUser 17 (P2PName 17 42) = (UserId 42, None) /\
  P2PNameForUser 42 (P2PName 17 42) = (UserId 17, None).
Proof. apply (p2p_name_roundtrip 17 42); [discriminate|reflexivity|reflexivity]. Defined.

(** ** Sorted slices *)

Abbreviation sorted_uids := (StronglySorted N.lt).

Lemma uid_find_spec us uid idx found :
  sorted_uids us -> uid_find us uid = (idx, found) ->
  (idx <= List.length us)%nat /\
  Forall (fun v => v < uid) (firstn idx us) /\ Forall (fun v => uid <= v) (skipn idx us) /\
  found = ((idx <? List.length us)%nat && (nth idx us 0 =? uid)).
Proof.
  intros Hs. unfold uid_find.
  assert (forall i j, (i <= j < List.length us)%nat -> nth i us 0 <= nth j us 0) as Hmono.
  { intros i j Hij. destruct (Nat.eq_dec i j) as [->|]; [lia|].
    apply N.lt_le_incl, StronglySorted_nth; [done|lia]. }
  destruct ((List.length us =? 0)%nat || (uid <? nth 0 us 0)) eqn:E0.
  { intros [= <- <-]. split; [lia|]. split; [constructor|]. apply orb_true_iff in E0.
    destruct E0 as [E0|E0].
    - apply Nat.eqb_eq in E0. destruct us; [|done]. by repeat constructor.
    - to_prop. split.
      + apply (Forall_skipn_nth _ us 0). intros i _ Hi. specialize (Hmono 0%nat i ltac:(lia)). lia.
      + symmetry. apply andb_false_iff. right. apply N.eqb_neq. lia. }
  apply orb_false_iff in E0 as [E0 E1]. apply Nat.eqb_neq in E0. to_prop.
  destruct (nth (List.length us - 1) us 0 <? uid) eqn:E2.
  { intros [= <- <-]. to_prop. split; [lia|]. rewrite skipn_all, firstn_all.
    split; [|split; [constructor|by rewrite Nat.ltb_irrefl]].
    rewrite <- (firstn_all us). apply (Forall_firstn_nth _ us 0). intros i _ Hi.
    specialize (Hmono i (List.length us - 1)%nat ltac:(lia)). lia. }
  to_prop. intros [= <- <-].
  destruct (sort_Search_spec (List.length us) (fun i => uid <=? nth i us 0)) as (Hle & Hlt & Hr).
  { intros a b Hab Ha. to_prop. apply N.leb_le. specialize (Hmono a b Hab). lia. }
  set (r := sort_Search _ _) in *. split; [done|]. split; [|split; [|done]].
  - apply (Forall_firstn_nth _ us 0). intros i Hi _. specialize (Hlt i Hi). to_prop. lia.
  - apply (Forall_skipn_nth _ us 0). intros i Hi Hl. specialize (Hr ltac:(lia)). to_prop.
    specialize (Hmono r i ltac:(lia)). lia.
Qed.

Lemma uid_find_found us uid idx found :
  sorted_uids us -> uid_find us uid = (idx, found) ->
  (found = true <-> In uid us) /\
  (found = true -> us = (firstn idx us ++ uid :: skipn (idx + 1) us)%list).
Proof.
  intros Hs H. destruct (uid_find_spec _ _ _ _ Hs H) as (Hle & Hlt & Hge & ->).
  assert ((idx <? List.length us)%nat && (nth idx us 0 =? uid) = true ->
          us = (firstn idx us ++ uid :: skipn (idx + 1) us)%list) as Hsplit.
  { intros Ht. apply andb_true_iff in Ht as [H1 H2]. apply Nat.ltb_lt in H1. to_prop.
    rewrite <- H2, <- skipn_nth_cons by done. by rewrite firstn_skipn. }
  split; [|done]. split.
  - intros Ht. rewrite (Hsplit Ht). apply in_app_iff. simpl. auto.
  - intros Hin. rewrite <- (firstn_skipn idx us) in Hin. apply in_app_iff in Hin.
    rewrite List.Forall_forall in Hlt. destruct Hin as [Hin|Hin]; [specialize (Hlt _ Hin); lia|].
    destruct (Nat.ltb_spec idx (List.length us)) as [Hi|Hi]; cbn [andb].
    2: { by rewrite skipn_all2 in Hin by lia. }
    rewrite (skipn_nth_cons us 0) in Hin by done. destruct Hin as [->|Hin]; [by rewrite N.eqb_refl|].
    rewrite (skipn_nth_cons us 0) in Hge by done. inversion Hge as [|? ? Hn Hrest]; subst.
    rewrite <- (firstn_skipn idx us) in Hs. apply StronglySorted_app_inv in Hs as (_ & Hs & _).
    rewrite (skipn_nth_cons us 0) in Hs by done. inversion Hs as [|? ? _ Ha]; subst.
    rewrite List.Forall_forall in Ha. specialize (Ha _ Hin). lia.
Qed.

(** on a strictly sorted slice, [Add], [Rem] and [Contains] behave as the finite set
    operations, keep the slice strictly sorted, and report whether they changed it. *)
Theorem uid_slice_is_sorted_set us uid :
  sorted_uids us ->
  (UidSlice_Contains us uid = true <-> In uid us) /\
  (let '(us', added) := UidSlice_Add us uid in
   sorted_uids us' /\ (forall v, In v us' <-> v = uid \/ In v us) /\
   (added = true <-> ~ In uid us)) /\
  (let '(us', removed) := UidSlice_Rem us uid in
   sorted_uids us' /\ (forall v, In v us' <-> v <> uid /\ In v us) /\
   (removed = true <-> In uid us)).
Proof.
  intros Hs. unfold UidSlice_Contains, UidSlice_Add, UidSlice_Rem.
  destruct (uid_find us uid) as [idx found] eqn:Ef.
  destruct (uid_find_found _ _ _ _ Hs Ef) as [Hiff Hsplit].
  destruct (uid_find_spec _ _ _ _ Hs Ef) as (Hle & Hlt & Hge & _).
  split; [exact Hiff|]. destruct found; cbn [negb].
  - specialize (Hsplit eq_refl). pose proof (proj1 Hiff eq_refl) as Hin.
    split. { split; [done|]. split; [|done]. intros v. split; [auto|]. by intros [->|]. }
    assert (sorted_uids (firstn idx us ++ skipn (idx + 1) us) /\
      (forall v, In v (firstn idx us ++ skipn (idx + 1) us)%list <-> v <> uid /\ In v us)) as [Ho Hv].
    { rewrite Hsplit in Hs. apply StronglySorted_app_inv in Hs as (S1 & S2 & S12).
      inversion S2 as [|? ? S2' Ha]; subst. rewrite List.Forall_forall in Ha. split.
      - apply StronglySorted_app; [done|done|]. intros x y Hx Hy. apply S12; simpl; auto.
      - intros v. rewrite Hsplit at 3. rewrite !in_app_iff. simpl. split.
        + intros [H|H]; split; auto; [specialize (S12 _ uid H (or_introl eq_refl))|specialize (Ha _ H)]; lia.
        + intros [Hn [H|[H|H]]]; auto. congruence. }
    destruct (Nat.eqb_spec idx (List.length us - 1)) as [Hi|Hi]; [|done].
    assert (skipn (idx + 1) us = []) as E by (apply skipn_all2; lia).
    rewrite E, app_nil_r in Ho, Hv. done.
  - assert (~ In uid us) as Hn by (intros Hi; apply Hiff in Hi; done).
    split; [|split; [done|split; [|by split]]].
    + rewrite <- (firstn_skipn idx us) in Hs. apply StronglySorted_app_inv in Hs as (S1 & S2 & S12).
      rewrite List.Forall_forall in Hlt, Hge. split; [|split].
      * apply StronglySorted_app; [done| |].
        -- constructor; [done|]. apply List.Forall_forall. intros v Hv.
           specialize (Hge _ Hv). assert (v <> uid); [|lia]. intros ->. apply Hn.
           rewrite <- (firstn_skipn idx us). apply in_app_iff. auto.
        -- intros x y Hx [<-|Hy]; auto.
      * intros v. rewrite in_app_iff. simpl. rewrite <- (firstn_skipn idx us) at 3.
        rewrite in_app_iff. intuition congruence.
      * done.
    + intros v. split; [|tauto]. intros Hv. split; [|done]. congruence.
Qed.

Lemma uid_slice_is_sorted_set_witness :
  sorted_uids [3; 8; 20] /\ UidSlice_Add [3; 8; 20] 9 = ([3; 8; 9; 20], true) /\
  sorted_uids [3; 8; 9; 20].
Proof.
  assert (sorted_uids [3; 8; 20]) as H by (repeat constructor).
  split; [exact H|]. split; [reflexivity|].
  exact (proj1 (proj1 (proj2 (uid_slice_is_sorted_set [3; 8; 20] 9 H)))).
Defined.

(** the base-32 name of an identifier, which [String32] prints in lower case, is not
    read back by [ParseUid32]: whenever the name holds a letter the result is [ZeroUid]. *)
Theorem parse_uid32_rejects_lower_case u :
  (exists c, In c (list_ascii_of_string (String32 u)) /\
             97 <= N_of_ascii c /\ N_of_ascii c <= 122) ->
  ParseUid32 (String32 u) = ZeroUid.
Proof.
  intros (c & Hin & Hlo & Hhi). unfold ParseUid32.
  assert (forall s, In c (list_ascii_of_string s) -> b32_values (skip_newlines s) = None) as Hnone.
  { induction s as [|d s IH]; simpl; [done|]. intros [->|Hi].
    - assert (Ascii.eqb c "010" || Ascii.eqb c "013" = false) as ->.
      { apply orb_false_iff. split; apply Ascii.eqb_neq; intros ->; cbv in Hlo; lia || done. }
      simpl. unfold b32_val.
      replace (N_of_ascii c <=? 90) with false by (symmetry; apply N.leb_gt; lia).
      replace (N_of_ascii c <=? 55) with false by (symmetry; apply N.leb_gt; lia).
      by rewrite !andb_false_r.
    - destruct (_ || _); [by apply IH|]. simpl. rewrite IH by done. by destruct (b32_val d). }
  unfold b32_decode. rewrite Hnone by done. by destruct (_ || _).
Qed.

Lemma parse_uid32_rejects_lower_case_witness :
  String32 1 = "aeaaaaaaaaaaa" /\ ParseUid32 (String32 1) = ZeroUid.
Proof.
  split; [vm_compute; reflexivity|].
  apply (parse_uid32_rejects_lower_case 1). exists "a"%char.
  split; [left; reflexivity|split; discriminate].
Defined.
