(* ===== verification/StoreTypes.v ===== *)
(** * Stored messages, ranges and object headers (server/store/types)

    [Module Ranges]: message.go, the deletion ranges, their normalisation, and the
    unread count of internal/server/topic.go that consumes them.  [Module ReadHistory]:
    read_history.go.  [Module Objects]: types.go and the topic record and
    cluster fence of message.go.  Message identifiers are Go [int]s, here [Z];
    a time is a [Z] of nanoseconds, the zero time is [0]. *)

From Stdlib Require Import NArith ZArith Lia List Ascii String Bool Sorted.
From stdpp Require Import base tactics numbers list strings gmap.
From S2P Require Import Prelude AccessMode Uid.

Local Open Scope Z_scope.

Module Ranges.

(** A range [Low, Hi), or the single id [Low] when [Hi] is 0. *)
Record Range := mkRange { Low : Z; Hi : Z }.

#[export] Instance Range_eq_dec : EqDecision Range.
Proof. solve_decision. Defined.

(** [RangeSorter.Less]: by [Low] ascending, then by [Hi] descending. *)
Definition Less (a b : Range) : bool :=
  if a.(Low) <? b.(Low) then true
  else if a.(Low) =? b.(Low) then b.(Hi) <=? a.(Hi)
  else false.

Definition dummy : Range := mkRange 0 0.
Definition at_ (rs : list Range) (i : nat) : Range := nth i rs dummy.

(** One turn of the loop of [Normalize] at index [i]: the slice is updated in
    place, [prev] is the index of the range being extended. *)
Definition normalize_step (st : list Range * nat) (i : nat) : list Range * nat :=
  let '(rs, prev) := st in
  let p := at_ rs prev in
  let c := at_ rs i in
  if p.(Low) =? c.(Low) then (rs, prev)
  else if (0 <? p.(Hi)) && (c.(Low) <=? p.(Hi) + 1) then
    if p.(Hi) <? c.(Hi) then (<[prev := mkRange p.(Low) c.(Hi)]> rs, prev) else (rs, prev)
  else (rs, S prev).

Definition Normalize (rs : list Range) : list Range :=
  let ll := List.length rs in
  if (1 <? ll)%nat then
    let '(rs', prev) := fold_left normalize_step (List.seq 1 (ll - 1)) (rs, 0%nat) in
    firstn (prev + 1) rs'
  else rs.

(** The loop of [SliceToRanges]; [out] is the slice built so far. *)
Definition slice_step (out : list Range) (id : Z) : list Range :=
  let size := List.length out in
  if (size =? 0)%nat then out ++ [mkRange id 0]
  else
    let prev := at_ out (size - 1) in
    if ((prev.(Hi) =? 0) && negb (id =? prev.(Low) + 1)) || (prev.(Hi) <? id)
    then out ++ [mkRange id 0]
    else <[(size - 1)%nat := mkRange prev.(Low) (id + 1)]> out.

Definition SliceToRanges (ids : list Z) : list Range := fold_left slice_step ids [].

(** [calculateUnreadInRanges] of topic.go: the loop accumulates [count]. *)
Definition unread_step (readID unreadStart unreadEnd : Z) (count : Z) (r : Range) : Z :=
  let rangeStart := r.(Low) in
  let rangeEnd := if r.(Hi) =? 0 then rangeStart + 1 else r.(Hi) in
  if rangeEnd <=? readID then count
  else
    let intersectionStart := Z.max unreadStart rangeStart in
    let intersectionEnd := Z.min (unreadEnd + 1) rangeEnd in
    if intersectionStart <? intersectionEnd
    then count + (intersectionEnd - intersectionStart) else count.

Definition calculateUnreadInRanges (readID lastID : Z) (ranges : list Range) : Z :=
  if lastID <=? readID then 0
  else fold_left (unread_step readID (readID + 1) lastID) ranges 0.

(** ** Meaning of a range as the code that deletes messages reads it *)

Definition upper (r : Range) : Z := if r.(Hi) =? 0 then r.(Low) + 1 else r.(Hi).

Definition covers (r : Range) (id : Z) : bool := (r.(Low) <=? id) && (id <? upper r).

Definition covered (rs : list Range) (id : Z) : bool := existsb (fun r => covers r id) rs.

(** Consecutive entries the code's overlap test keeps apart. *)
Fixpoint separated (rs : list Range) : Prop :=
  match rs with
  | r1 :: ((r2 :: _) as rest) =>
      r1.(Low) <> r2.(Low) /\ ~ (0 < r1.(Hi) /\ r2.(Low) <= r1.(Hi) + 1) /\ separated rest
  | _ => True
  end.

(** Entries that share no identifier. *)
Definition disjoint_ranges (rs : list Range) : Prop :=
  forall i j a b, rs !! i = Some a -> rs !! j = Some b -> i <> j ->
  forall id, ~ (covers a id = true /\ covers b id = true).

(** Number of identifiers of [start, start + n) satisfying [f]. *)
Fixpoint count_from (f : Z -> bool) (start : Z) (n : nat) : Z :=
  match n with
  | O => 0
  | S n' => (if f start then 1 else 0) + count_from f (start + 1) n'
  end.

(** ** Lemmas *)

Lemma normalize_separated_loop rs pre r post :
  rs = pre ++ r :: post -> separated (r :: post) ->
  fold_left normalize_step (List.seq (S (List.length pre)) (List.length post)) (rs, List.length pre)
  = (rs, (List.length pre + List.length post)%nat).
Proof.
  revert pre r. induction post as [|c post IH]; intros pre r -> Hsep; simpl.
  - by rewrite Nat.add_0_r.
  - destruct Hsep as (Hne & Hno & Hrest).
    assert (at_ (pre ++ r :: c :: post) (List.length pre) = r) as E1
      by (unfold at_; by rewrite app_nth2, Nat.sub_diag by lia).
    assert (at_ (pre ++ r :: c :: post) (S (List.length pre)) = c) as E2.
    { unfold at_. rewrite app_nth2 by lia.
      by replace (S (List.length pre) - List.length pre)%nat with 1%nat by lia. }
    rewrite E1, E2. apply Z.eqb_neq in Hne. rewrite Hne.
    replace ((0 <? Hi r) && (Low c <=? Hi r + 1)) with false.
    2: { symmetry. apply andb_false_iff. destruct (Z.ltb_spec 0 (Hi r)); [right|by left].
         apply Z.leb_gt. lia. }
    specialize (IH (pre ++ [r]) c). rewrite <- app_assoc in IH. cbn [app] in IH.
    rewrite length_app in IH. cbn [List.length] in IH.
    rewrite Nat.add_1_r in IH. rewrite IH by done. f_equal. lia.
Qed.

Lemma count_from_ext f g start n :
  (forall id, start <= id < start + Z.of_nat n -> f id = g id) ->
  count_from f start n = count_from g start n.
Proof.
  revert start. induction n as [|n IH]; intros start H; simpl; [done|].
  rewrite (H start) by lia. f_equal. apply IH. intros. apply H. lia.
Qed.

Lemma count_from_orb f g start n :
  (forall id, start <= id < start + Z.of_nat n -> ~ (f id = true /\ g id = true)) ->
  count_from (fun id => f id || g id) start n = count_from f start n + count_from g start n.
Proof.
  revert start. induction n as [|n IH]; intros start H; simpl; [done|].
  rewrite IH by (intros; apply H; lia). specialize (H start ltac:(lia)).
  destruct (f start), (g start); simpl; lia || tauto.
Qed.

Lemma count_from_false start n : count_from (fun _ => false) start n = 0.
Proof. revert start. induction n as [|n IH]; intros start; simpl; [done|]. by rewrite IH. Qed.

(** The identifiers of an interval inside a window. *)
Lemma count_from_interval lo hi start n :
  count_from (fun id => (lo <=? id) && (id <? hi)) start n =
  Z.max 0 (Z.min (start + Z.of_nat n) hi - Z.max start lo).
Proof.
  revert start. induction n as [|n IH]; intros start; simpl count_from; [lia|].
  rewrite IH. destruct (Z.leb_spec lo start), (Z.ltb_spec start hi); simpl; lia.
Qed.

Lemma unread_step_count readID lastID count r :
  readID < lastID ->
  unread_step readID (readID + 1) lastID count r =
  count + count_from (covers r) (readID + 1) (Z.to_nat (lastID - readID)).
Proof.
  intros Hlt. unfold unread_step, covers. fold (upper r).
  rewrite count_from_interval.
  replace (readID + 1 + Z.of_nat (Z.to_nat (lastID - readID))) with (lastID + 1) by lia.
  destruct (Z.leb_spec (upper r) readID); [lia|].
  destruct (Z.ltb_spec (Z.max (readID + 1) (Low r)) (Z.min (lastID + 1) (upper r))); lia.
Qed.

Lemma disjoint_ranges_cons r rs :
  disjoint_ranges (r :: rs) ->
  disjoint_ranges rs /\ forall id, ~ (covers r id = true /\ covered rs id = true).
Proof.
  intros H. split.
  - intros i j a b Ha Hb Hij. apply (H (S i) (S j)); simpl; auto.
  - intros id [H1 H2]. unfold covered in H2. apply existsb_exists in H2 as (b & Hb & H2).
    apply list_elem_of_In, list_elem_of_lookup in Hb as [j Hj].
    apply (H 0%nat (S j) r b eq_refl Hj ltac:(lia) id). done.
Qed.

(** ** Properties *)

(** [Normalize] leaves a slice whose entries its overlap test keeps apart unchanged. *)
Theorem normalize_separated rs : separated rs -> Normalize rs = rs.
Proof.
  intros H. unfold Normalize. destruct (Nat.ltb_spec 1 (List.length rs)) as [Hl|]; [|done].
  destruct rs as [|r post]; [done|].
  cbn [List.length]. replace (S (List.length post) - 1)%nat with (List.length post) by lia.
  pose proof (normalize_separated_loop (r :: post) [] r post eq_refl H) as E.
  cbn [List.length Nat.add] in E. rewrite E.
  rewrite Nat.add_1_r. apply (firstn_all (r :: post)).
Qed.

Lemma normalize_separated_witness :
  Normalize [mkRange 1 4; mkRange 7 0; mkRange 9 12] = [mkRange 1 4; mkRange 7 0; mkRange 9 12].
Proof. apply normalize_separated. simpl. lia. Defined.

(** (defect) when an entry is absorbed before a later separate one, [Normalize] keeps
    the absorbed entry and loses the later one: its identifiers are not covered. *)
Theorem normalize_loses_separate_range a b c d e :
  0 < a -> a <= c -> c < d -> d <= b -> b + 1 < e ->
  a <> c ->
  Normalize [mkRange a b; mkRange c d; mkRange e 0] = [mkRange a b; mkRange c d] /\
  covered [mkRange a b; mkRange c d; mkRange e 0] e = true /\
  covered (Normalize [mkRange a b; mkRange c d; mkRange e 0]) e = false.
Proof.
  intros Ha Hac Hcd Hdb Hbe Hne.
  assert (Normalize [mkRange a b; mkRange c d; mkRange e 0] = [mkRange a b; mkRange c d]) as E.
  { unfold Normalize, normalize_step. cbn.
    replace (a =? c) with false by (symmetry; apply Z.eqb_neq; lia).
    replace (0 <? b) with true by (symmetry; apply Z.ltb_lt; lia).
    replace (c <=? b + 1) with true by (symmetry; apply Z.leb_le; lia).
    replace (b <? d) with false by (symmetry; apply Z.ltb_ge; lia). cbn.
    replace (a =? e) with false by (symmetry; apply Z.eqb_neq; lia).
    replace (0 <? b) with true by (symmetry; apply Z.ltb_lt; lia).
    replace (e <=? b + 1) with false by (symmetry; apply Z.leb_gt; lia). reflexivity. }
  split; [exact E|]. rewrite E. unfold covered, covers, upper. cbn [existsb Low Hi].
  replace (b =? 0) with false by (symmetry; apply Z.eqb_neq; lia).
  replace (d =? 0) with false by (symmetry; apply Z.eqb_neq; lia). cbn [Z.eqb].
  split; lia.
Qed.

Lemma normalize_loses_separate_range_witness :
  Normalize [mkRange 1 6; mkRange 2 4; mkRange 9 0] = [mkRange 1 6; mkRange 2 4] /\
  covered [mkRange 1 6; mkRange 2 4; mkRange 9 0] 9 = true /\
  covered (Normalize [mkRange 1 6; mkRange 2 4; mkRange 9 0]) 9 = false.
Proof. apply (normalize_loses_separate_range 1 6 2 4 9); lia. Defined.

(** (defect) ranges are read as half open by the code that deletes, but [Normalize]
    also joins two of them separated by one identifier: the result covers that
    identifier although no entry did. *)
Theorem normalize_covers_gap lo hi hi2 :
  0 < lo -> lo < hi -> hi + 1 < hi2 ->
  Normalize [mkRange lo hi; mkRange (hi + 1) hi2] = [mkRange lo hi2] /\
  covered [mkRange lo hi; mkRange (hi + 1) hi2] hi = false /\
  covered (Normalize [mkRange lo hi; mkRange (hi + 1) hi2]) hi = true.
Proof.
  intros H0 H1 H2.
  assert (Normalize [mkRange lo hi; mkRange (hi + 1) hi2] = [mkRange lo hi2]) as E.
  { unfold Normalize, normalize_step. cbn.
    replace (lo =? hi + 1) with false by (symmetry; apply Z.eqb_neq; lia).
    replace (0 <? hi) with true by (symmetry; apply Z.ltb_lt; lia).
    replace (hi + 1 <=? hi + 1) with true by (symmetry; apply Z.leb_le; lia).
    replace (hi <? hi2) with true by (symmetry; apply Z.ltb_lt; lia). reflexivity. }
  split; [exact E|]. rewrite E. unfold covered, covers, upper. cbn [existsb Low Hi].
  replace (hi =? 0) with false by (symmetry; apply Z.eqb_neq; lia).
  replace (hi2 =? 0) with false by (symmetry; apply Z.eqb_neq; lia).
  split; lia.
Qed.

Lemma normalize_covers_gap_witness :
  Normalize [mkRange 1 4; mkRange 5 8] = [mkRange 1 8] /\
  covered [mkRange 1 4; mkRange 5 8] 4 = false /\
  covered (Normalize [mkRange 1 4; mkRange 5 8]) 4 = true.
Proof. apply (normalize_covers_gap 1 4 8); lia. Defined.

(** on positive identifiers [SliceToRanges] covers exactly the given ones; it
    produces one single-identifier range per id and never extends a range. *)
Theorem slice_to_ranges_exact ids :
  Forall (fun id => 0 < id) ids ->
  SliceToRanges ids = map (fun id => mkRange id 0) ids /\
  forall id, covered (SliceToRanges ids) id = true <-> In id ids.
Proof.
  intros Hpos.
  assert (forall out, Forall (fun r => Hi r = 0) out ->
    fold_left slice_step ids out = out ++ map (fun id => mkRange id 0) ids) as Hloop.
  { induction Hpos as [|id ids Hid Hpos IH]; intros out Hout; simpl; [by rewrite app_nil_r|].
    assert (slice_step out id = out ++ [mkRange id 0]) as ->.
    { unfold slice_step. destruct (Nat.eqb_spec (List.length out) 0) as [|Hne]; [done|].
      assert (Hi (at_ out (List.length out - 1)) = 0) as ->.
      { rewrite List.Forall_forall in Hout. apply Hout. apply nth_In. lia. }
      apply Z.ltb_lt in Hid. by rewrite Hid, orb_true_r. }
    rewrite IH by (apply List.Forall_app; auto). by rewrite <- app_assoc. }
  assert (SliceToRanges ids = map (fun id => mkRange id 0) ids) as E
    by (unfold SliceToRanges; by rewrite Hloop).
  split; [exact E|]. intros id. rewrite E. unfold covered. rewrite existsb_exists. split.
  - intros (r & Hr & Hc). apply in_map_iff in Hr as (id' & <- & Hin).
    unfold covers, upper in Hc. simpl in Hc. to_prop. by replace id with id' by lia.
  - intros Hin. exists (mkRange id 0). split; [apply in_map_iff; eauto|].
    unfold covers, upper. simpl. lia.
Qed.

Lemma slice_to_ranges_exact_witness :
  SliceToRanges [3; 4; 5] = [mkRange 3 0; mkRange 4 0; mkRange 5 0] /\
  (covered (SliceToRanges [3; 4; 5]) 4 = true <-> In 4 [3; 4; 5]).
Proof.
  split; [reflexivity|]. apply (slice_to_ranges_exact [3; 4; 5]). repeat constructor.
Defined.

(** for ranges that share no identifier, [calculateUnreadInRanges] is the number of
    unread identifiers (after [readID], up to [lastID]) covered by a range. *)
Theorem unread_in_ranges_exact readID lastID rs :
  disjoint_ranges rs ->
  calculateUnreadInRanges readID lastID rs =
  count_from (covered rs) (readID + 1) (Z.to_nat (lastID - readID)).
Proof.
  intros Hd. unfold calculateUnreadInRanges. destruct (Z.leb_spec lastID readID) as [Hle|Hlt].
  { replace (Z.to_nat (lastID - readID)) with 0%nat by lia. reflexivity. }
  enough (forall count, fold_left (unread_step readID (readID + 1) lastID) rs count =
    count + count_from (covered rs) (readID + 1) (Z.to_nat (lastID - readID))) as -> by lia.
  induction rs as [|r rs IH]; intros count; simpl.
  - unfold covered. simpl. rewrite count_from_false. lia.
  - apply disjoint_ranges_cons in Hd as [Hd Hr]. rewrite unread_step_count, IH by done.
    change (covered (r :: rs)) with (fun id => covers r id || covered rs id).
    rewrite count_from_orb by (intros; apply Hr). lia.
Qed.

Lemma unread_in_ranges_exact_witness :
  calculateUnreadInRanges 4 9 [mkRange 2 6; mkRange 8 0] = 2 /\
  count_from (covered [mkRange 2 6; mkRange 8 0]) 5 5 = 2.
Proof.
  assert (disjoint_ranges [mkRange 2 6; mkRange 8 0]) as H.
  { intros [|[|i]] [|[|j]] a b Ha Hb Hij id [H1 H2]; simplify_eq/=;
      unfold covers, upper in *; simpl in *; lia. }
  split; [reflexivity|].
  exact (eq_sym (unread_in_ranges_exact 4 9 _ H)).
Defined.

End Ranges.

Module ReadHistory.

Definition maxReadHistoryCheckpoints : nat := 4096.

(** A [ReadCheckpoint]: the ids [LowSeqId..HighSeqId] were read at [ReadAt]. *)
Record ReadCheckpoint := mkCheckpoint { LowSeqId : Z; HighSeqId : Z; ReadAt : Z }.

(** [ReadHistory.Append] on a non-nil receiver: the new history.  [a.Before(b)] is [a < b]. *)
Definition Append (history : list ReadCheckpoint) (lowSeqId highSeqId readAt cutoff : Z)
  : list ReadCheckpoint :=
  if (lowSeqId <=? 0) || (highSeqId <? lowSeqId) then history
  else
    let filtered := List.filter (fun c => negb (c.(ReadAt) <? cutoff)) history in
    let history' := filtered ++ [mkCheckpoint lowSeqId highSeqId readAt] in
    let len := List.length history' in
    if (maxReadHistoryCheckpoints <? len)%nat
    then skipn (len - maxReadHistoryCheckpoints) history'
    else history'.

(** [TimeFor]: [None] is the zero time with [false]. *)
Fixpoint TimeFor (history : list ReadCheckpoint) (seqId : Z) : option Z :=
  match history with
  | [] => None
  | c :: rest =>
      if (c.(LowSeqId) <=? seqId) && (seqId <=? c.(HighSeqId)) then Some c.(ReadAt)
      else TimeFor rest seqId
  end.

(** Checkpoints cover non-empty, increasing, disjoint intervals. *)
Definition wf (h : list ReadCheckpoint) : Prop :=
  Forall (fun c => c.(LowSeqId) <= c.(HighSeqId)) h /\
  StronglySorted (fun a b => a.(HighSeqId) < b.(LowSeqId)) h.

Lemma TimeFor_app h1 h2 s :
  TimeFor (h1 ++ h2) s = match TimeFor h1 s with Some t => Some t | None => TimeFor h2 s end.
Proof. induction h1 as [|c h1 IH]; simpl; [done|]. by destruct (_ && _). Qed.

Lemma TimeFor_none h s :
  (forall c, In c h -> s < c.(LowSeqId) \/ c.(HighSeqId) < s) -> TimeFor h s = None.
Proof.
  induction h as [|c h IH]; intros H; simpl; [done|].
  destruct (H c (or_introl eq_refl)) as [Hc|Hc].
  - apply Z.leb_gt in Hc. rewrite Hc. simpl. apply IH. simpl in H. auto.
  - apply Z.leb_gt in Hc. rewrite Hc, andb_false_r. apply IH. simpl in H. auto.
Qed.

Lemma StronglySorted_filter {A} (R : A -> A -> Prop) (f : A -> bool) l :
  StronglySorted R l -> StronglySorted R (List.filter f l).
Proof.
  induction 1 as [|a l Hs IH Ha]; simpl; [constructor|]. destruct (f a); [|done].
  constructor; [done|]. rewrite List.Forall_forall in *. intros x Hx.
  apply filter_In in Hx as [Hx _]. auto.
Qed.

Lemma wf_skipn n h : wf h -> wf (skipn n h).
Proof.
  intros [H1 H2]. rewrite <- (firstn_skipn n h) in H1, H2.
  apply List.Forall_app in H1 as [_ H1]. apply StronglySorted_app_inv in H2 as (_ & H2 & _).
  by split.
Qed.

(** Dropping old checkpoints of a well-formed history hides exactly their answers. *)
Lemma TimeFor_filter h s cutoff :
  wf h ->
  TimeFor (List.filter (fun c => negb (c.(ReadAt) <? cutoff)) h) s =
  match TimeFor h s with Some t => if t <? cutoff then None else Some t | None => None end.
Proof.
  intros [H1 H2]. induction H2 as [|c h Hs IH Hc]; simpl; [done|].
  inversion H1 as [|? ? Hle H1']; subst. specialize (IH H1').
  destruct ((LowSeqId c <=? s) && (s <=? HighSeqId c)) eqn:Ein.
  - destruct (ReadAt c <? cutoff); simpl; [|by rewrite Ein].
    apply TimeFor_none. intros d Hd. apply filter_In in Hd as [Hd _].
    rewrite List.Forall_forall in Hc. specialize (Hc _ Hd). to_prop. lia.
  - destruct (ReadAt c <? cutoff); simpl; [done|]. by rewrite Ein.
Qed.

(** appending a read interval beyond a well-formed history keeps it well formed and
    within 4096 checkpoints; the new ids are reported at the new time, and, while the
    bound is not reached, older ids keep their time unless it is before the cutoff. *)
Theorem append_time_for h low high t cutoff :
  wf h -> 0 < low -> low <= high -> (forall c, In c h -> c.(HighSeqId) < low) ->
  let h' := Append h low high t cutoff in
  wf h' /\ (List.length h' <= maxReadHistoryCheckpoints)%nat /\
  (forall s, low <= s <= high -> TimeFor h' s = Some t) /\
  ((List.length h < maxReadHistoryCheckpoints)%nat -> forall s, s < low ->
     TimeFor h' s = match TimeFor h s with
                    | Some t0 => if t0 <? cutoff then None else Some t0
                    | None => None end).
Proof.
  intros Hwf Hlow Hle Hbefore. unfold Append.
  replace (low <=? 0) with false by (symmetry; apply Z.leb_gt; lia).
  replace (high <? low) with false by (symmetry; apply Z.ltb_ge; lia). cbn [orb].
  set (f := fun c => negb (ReadAt c <? cutoff)). set (new := mkCheckpoint low high t).
  assert (forall c, In c (List.filter f h) -> HighSeqId c < low) as Hb'
    by (intros c Hc; apply filter_In in Hc as [Hc _]; auto).
  assert (wf (List.filter f h ++ [new])) as Hwf'.
  { destruct Hwf as [H1 H2]. split.
    - apply List.Forall_app. split; [|by constructor]. rewrite List.Forall_forall in *.
      intros c Hc. apply filter_In in Hc as [Hc _]. auto.
    - apply StronglySorted_app; [by apply StronglySorted_filter|by repeat constructor|].
      intros x y Hx [<-|[]]. by apply Hb'. }
  assert (forall s, low <= s <= high -> TimeFor [new] s = Some t) as Hnew.
  { intros s Hs. simpl. by replace ((low <=? s) && (s <=? high)) with true by lia. }
  assert (List.length (List.filter f h ++ [new]) = S (List.length (List.filter f h))) as Hlen
    by (rewrite length_app; simpl; lia).
  destruct (Nat.ltb_spec maxReadHistoryCheckpoints (List.length (List.filter f h ++ [new]))) as [Hlt|Hge].
  - split; [by apply wf_skipn|]. split; [rewrite length_skipn; lia|].
    pose proof (filter_length_le f h) as Hfl. split.
    + intros s Hs. rewrite skipn_app. rewrite TimeFor_app.
      rewrite TimeFor_none.
      * replace (_ - List.length (List.filter f h))%nat with 0%nat
          by (unfold maxReadHistoryCheckpoints in *; lia). by apply Hnew.
      * intros c Hc. right. assert (In c (List.filter f h)) as Hc'.
        { rewrite <- (firstn_skipn (List.length (List.filter f h ++ [new]) - maxReadHistoryCheckpoints)).
          apply in_app_iff. by right. }
        specialize (Hb' _ Hc'). lia.
    + intros Hsmall. lia.
  - split; [done|]. split; [done|]. split.
    + intros s Hs. rewrite TimeFor_app, TimeFor_none; [by apply Hnew|].
      intros c Hc. specialize (Hb' _ Hc). lia.
    + intros _ s Hs. rewrite TimeFor_app. fold f. rewrite <- (TimeFor_filter h s cutoff Hwf). fold f.
      destruct (TimeFor (List.filter f h) s); [done|]. simpl.
      by replace (low <=? s) with false by (symmetry; apply Z.leb_gt; lia).
Qed.

Lemma append_time_for_witness :
  TimeFor (Append [mkCheckpoint 1 4 100; mkCheckpoint 5 6 200] 7 9 300 150) 8 = Some 300 /\
  TimeFor (Append [mkCheckpoint 1 4 100; mkCheckpoint 5 6 200] 7 9 300 150) 2 = None.
Proof.
  destruct (append_time_for [mkCheckpoint 1 4 100; mkCheckpoint 5 6 200] 7 9 300 150)
    as (_ & _ & Hnew & Hold).
  - split; repeat constructor; simpl; lia.
  - lia.
  - lia.
  - intros c [<-|[<-|[]]]; simpl; lia.
  - split; [apply Hnew; lia|]. rewrite Hold; [reflexivity|simpl; unfold maxReadHistoryCheckpoints; lia|lia].
Defined.

End ReadHistory.

Module Objects.

(** ** Object headers and states (types.go) *)

Record ObjHeader := mkObjHeader {
  oh_Id : string; oh_id : Uid; CreatedAt : Z; UpdatedAt : Z }.

(** [ObjHeader.Uid] caches the parsed [Id]: the header afterwards and the result. *)
Definition header_Uid (h : ObjHeader) : ObjHeader * Uid :=
  if IsZeroUid h.(oh_id) && negb (String.eqb h.(oh_Id) "") then
    let uid := fst (UidUnmarshalText h.(oh_id) h.(oh_Id)) in
    (mkObjHeader h.(oh_Id) uid h.(CreatedAt) h.(UpdatedAt), uid)
  else (h, h.(oh_id)).

Definition SetUid (h : ObjHeader) (uid : Uid) : ObjHeader :=
  mkObjHeader (UidString uid) uid h.(CreatedAt) h.(UpdatedAt).

Definition InitTimes (now : Z) (h : ObjHeader) : ObjHeader :=
  let created := if h.(CreatedAt) =? 0 then now else h.(CreatedAt) in
  mkObjHeader h.(oh_Id) h.(oh_id) created created.

Definition MergeTimes (h h2 : ObjHeader) : ObjHeader :=
  let created :=
    if (h.(CreatedAt) =? 0) || (negb (h2.(CreatedAt) =? 0) && (h2.(CreatedAt) <? h.(CreatedAt)))
    then h2.(CreatedAt) else h.(CreatedAt) in
  let updated := if h.(UpdatedAt) <? h2.(UpdatedAt) then h2.(UpdatedAt) else h.(UpdatedAt) in
  mkObjHeader h.(oh_Id) h.(oh_id) created updated.

Definition StateOK : Z := 0.
Definition StateSuspended : Z := 10.
Definition StateDeleted : Z := 20.
Definition StateUndefined : Z := 30.

Definition ObjStateString (os : Z) : string :=
  if os =? StateOK then "ok"
  else if os =? StateSuspended then "susp"
  else if os =? StateDeleted then "del"
  else if os =? StateUndefined then "undef"
  else "".

Definition NewObjState (s : string) : Z * option GoError :=
  let s := ToLower s in
  if String.eqb s "" || String.eqb s "ok" then (StateOK, None)
  else if String.eqb s "susp" then (StateSuspended, None)
  else if String.eqb s "del" then (StateDeleted, None)
  else if String.eqb s "undef" then (StateUndefined, None)
  else (StateOK, Some (TextErr "failed to parse object state")).

Definition ObjStateMarshalJSON (os : Z) : string :=
  String "034" (ObjStateString os ++ String "034" "").

(** The receiver is kept on an error; [b[0]] and the slice panic as in [AccessMode]. *)
Definition ObjStateUnmarshalJSON (os : Z) (b : string) : option (Z * option GoError) :=
  match b, last_byte b with
  | String c b', Some d =>
      if negb (Ascii.eqb c "034") || negb (Ascii.eqb d "034")
      then Some (os, Some (TextErr "syntax error"))
      else match b' with
           | EmptyString => None
           | _ =>
               let '(state, err) := NewObjState (String.substring 0 (String.length b' - 1) b') in
               Some (match err with None => state | Some _ => os end, err)
           end
  | _, _ => None
  end.

(** ** Topic categories (message.go) *)

Inductive TopicCat := TopicCatMe | TopicCatFnd | TopicCatP2P | TopicCatGrp | TopicCatSys | TopicCatSlf.

#[global] Instance TopicCat_eq_dec : EqDecision TopicCat.
Proof. solve_decision. Defined.

(** [GetTopicCat]: [None] is the panic, for an unknown prefix or a name under three bytes. *)
Definition GetTopicCat (name : string) : option TopicCat :=
  if HasPrefix name "usr" then Some TopicCatMe
  else if HasPrefix name "p2p" then Some TopicCatP2P
  else if HasPrefix name "grp" || HasPrefix name "chn" then Some TopicCatGrp
  else if HasPrefix name "fnd" then Some TopicCatFnd
  else if HasPrefix name "sys" then Some TopicCatSys
  else if HasPrefix name "slf" then Some TopicCatSlf
  else None.

Definition IsEphemeralTopic (topic : string) : option bool :=
  match GetTopicCat topic with
  | Some TopicCatMe | Some TopicCatFnd => Some true
  | Some _ => Some false
  | None => None
  end.

(** server/store/store_subs.go: the persisted topic whose subscriber counter changes. *)
Definition subscriptionCounterTopic (topic : string) : option string :=
  match IsEphemeralTopic topic with
  | None => None
  | Some true => Some ""
  | Some false => Some (if IsChannel topic then ChnToGrp topic else topic)
  end.

(** ** Messages and the cluster write token *)

Record Message := mkMessage {
  m_SeqId : Z; m_Topic : string; m_From : string; m_ClientId : string; m_ClientKey : string;
  m_ClusterId : string; m_ClusterEpoch : Z; m_ClusterOwner : string;
  m_CreatedAt : Z; m_UpdatedAt : Z; m_DeletedAt : option Z; m_DelId : Z;
  m_Head : option (list (string * Any)); m_Content : Any; m_SearchText : string }.

Definition HasClusterFence (msg : option Message) : bool :=
  match msg with
  | Some m => negb (String.eqb m.(m_ClusterId) "") && (0 <? m.(m_ClusterEpoch)) &&
              negb (String.eqb m.(m_ClusterOwner) "")
  | None => false
  end.

Definition HasAnyClusterFenceField (msg : option Message) : bool :=
  match msg with
  | Some m => negb (String.eqb m.(m_ClusterId) "") || negb (m.(m_ClusterEpoch) =? 0) ||
              negb (String.eqb m.(m_ClusterOwner) "")
  | None => false
  end.

Section ClientKey.
(** crypto/sha256: the 32-byte digest of a byte string. *)
Variable sha256 : string -> string.

Definition MessageClientKey (from : Uid) (clientID : string) : string :=
  if IsZeroUid from || String.eqb clientID "" then ""
  else b64_encode (sha256 (MarshalBinary from ++ clientID)).

Definition ClusterFenceKey (clusterID : string) : string :=
  "cluster.fence." ++ b64_encode (sha256 clusterID).

Definition InitClientKey (m : Message) : Message :=
  if String.eqb m.(m_ClientKey) "" then
    mkMessage m.(m_SeqId) m.(m_Topic) m.(m_From) m.(m_ClientId)
      (MessageClientKey (ParseUid m.(m_From)) m.(m_ClientId))
      m.(m_ClusterId) m.(m_ClusterEpoch) m.(m_ClusterOwner) m.(m_CreatedAt) m.(m_UpdatedAt) m.(m_DeletedAt) m.(m_DelId)
      m.(m_Head) m.(m_Content) m.(m_SearchText)
  else m.
End ClientKey.

(** ** Per-user access of a stored topic (message.go) *)

Record perUserData := mkPerUser { pu_private : Any; pu_want : AccessMode; pu_given : AccessMode }.

(** The fields of [Topic] these operations use; a nil map is [None]. *)
Record StoredTopic := mkStoredTopic {
  st_Owner : string; st_perUser : option (gmap Uid perUserData) }.

Definition pud_of (t : StoredTopic) (uid : Uid) : option perUserData :=
  match t.(st_perUser) with Some m => m !! uid | None => None end.

Definition GiveAccess (t : StoredTopic) (uid : Uid) (want given : AccessMode) : StoredTopic :=
  let m := default ∅ t.(st_perUser) in
  let pud := default (mkPerUser ANil 0%N 0%N) (m !! uid) in
  mkStoredTopic
    (if negb (want &. given &. ModeOwner =? 0)%N && String.eqb t.(st_Owner) ""
     then UidString uid else t.(st_Owner))
    (Some (<[uid := mkPerUser pud.(pu_private) want given]> m)).

Definition SetPrivate (t : StoredTopic) (uid : Uid) (private : Any) : StoredTopic :=
  let m := default ∅ t.(st_perUser) in
  let pud := default (mkPerUser ANil 0%N 0%N) (m !! uid) in
  mkStoredTopic t.(st_Owner) (Some (<[uid := mkPerUser private pud.(pu_want) pud.(pu_given)]> m)).

Definition GetPrivate (t : StoredTopic) (uid : Uid) : Any :=
  match pud_of t uid with Some pud => pud.(pu_private) | None => ANil end.

Definition GetAccess (t : StoredTopic) (uid : Uid) : AccessMode :=
  match pud_of t uid with Some pud => pud.(pu_given) &. pud.(pu_want) | None => 0%N end.

(** ** Lemmas *)

Lemma HasPrefix_split s p : HasPrefix s p = true -> exists r, s = (p ++ r)%string.
Proof.
  revert s. induction p as [|c p IH]; intros s H; [by exists s|].
  destruct s as [|d s]; [done|]. simpl in H. apply andb_true_iff in H as [Hc H].
  apply Ascii.eqb_eq in Hc as ->. destruct (IH _ H) as [r ->]. by exists r.
Qed.

Lemma MessageClientKey_nonempty (sha256 : string -> string) from cid :
  String.length (sha256 (MarshalBinary from ++ cid)%string) = 32%nat ->
  MessageClientKey sha256 from cid = "" <-> from = 0%N \/ cid = "".
Proof.
  intros Hl. unfold MessageClientKey, IsZeroUid, ZeroUid. split.
  - destruct (N.eqb_spec from 0) as [?|?]; [by left|]. destruct (String.eqb_spec cid ""); [by right|].
    simpl. destruct (sha256 _) as [|a [|b [|c s]]]; done.
  - intros [->| ->]; simpl; [done|]. by rewrite orb_true_r.
Qed.

(** ** Properties *)

(** [MergeTimes] keeps the earliest non-zero creation time and the latest update
    time, and merging the same header again changes nothing. *)
Theorem merge_times_spec h h2 :
  let h' := MergeTimes h h2 in
  UpdatedAt h' = Z.max (UpdatedAt h) (UpdatedAt h2) /\
  (CreatedAt h <> 0 -> CreatedAt h2 <> 0 -> CreatedAt h' = Z.min (CreatedAt h) (CreatedAt h2)) /\
  (CreatedAt h = 0 -> CreatedAt h' = CreatedAt h2) /\
  (CreatedAt h2 = 0 -> CreatedAt h' = CreatedAt h) /\
  MergeTimes h' h2 = h'.
Proof.
  destruct h as [I i c u], h2 as [I2 i2 c2 u2]. unfold MergeTimes. cbn [CreatedAt UpdatedAt oh_Id oh_id].
  destruct (Z.eqb_spec c 0), (Z.eqb_spec c2 0), (Z.ltb_spec c2 c), (Z.ltb_spec u u2);
    cbn [orb andb negb]; repeat split; intros; try lia;
    repeat match goal with
           | |- context [?a =? ?b] => destruct (Z.eqb_spec a b); try lia; cbn [orb andb negb]
           | |- context [?a <? ?b] => destruct (Z.ltb_spec a b); try lia; cbn [orb andb negb]
           end; try reflexivity; f_equal; lia.
Qed.

Lemma merge_times_spec_witness :
  CreatedAt (MergeTimes (mkObjHeader "a" 1 50 60) (mkObjHeader "b" 2 40 55)) = 40.
Proof.
  destruct (merge_times_spec (mkObjHeader "a" 1 50 60) (mkObjHeader "b" 2 40 55)) as (_ & H & _).
  rewrite H; [reflexivity|discriminate|discriminate].
Defined.

(** a group and its channel share one persisted subscriber counter, and mapping a
    group name to its channel and back is the identity. *)
Theorem channel_counter_is_group_counter rest :
  let grp := ("grp" ++ rest)%string in
  let chn := GrpToChn grp in
  chn = ("chn" ++ rest)%string /\ IsChannel chn = true /\ ChnToGrp chn = grp /\
  subscriptionCounterTopic chn = Some grp /\ subscriptionCounterTopic grp = Some grp /\
  GetTopicCat chn = Some TopicCatGrp /\ GetTopicCat grp = Some TopicCatGrp.
Proof. repeat split; reflexivity. Qed.

(** [GiveAccess] changes the effective access of one user only, keeps the private
    value, and names an owner only when the owner permission is both wanted and given
    and none was named before. *)
Theorem give_access_spec t uid want given :
  let t' := GiveAccess t uid want given in
  GetAccess t' uid = given &. want /\
  GetPrivate t' uid = GetPrivate t uid /\
  (forall v, v <> uid -> GetAccess t' v = GetAccess t v /\ GetPrivate t' v = GetPrivate t v) /\
  (st_Owner t <> "" -> st_Owner t' = st_Owner t) /\
  (st_Owner t' <> st_Owner t -> IsOwner (want &. given) = true /\ st_Owner t' = UidString uid).
Proof.
  unfold GiveAccess, GetAccess, GetPrivate, pud_of. cbn [st_perUser st_Owner].
  rewrite lookup_insert_eq. split; [done|]. split.
  { destruct (st_perUser t) as [m|]; simpl; [by destruct (m !! uid)|]. by rewrite lookup_empty. }
  split.
  { intros v Hv. rewrite lookup_insert_ne by congruence. destruct (st_perUser t); simpl; [done|].
    by rewrite lookup_empty. }
  destruct (String.eqb_spec (st_Owner t) "") as [->|Hne]; [|by rewrite andb_false_r].
  rewrite andb_true_r. split; [done|]. unfold IsOwner, has. by destruct (negb _).
Qed.

Lemma give_access_spec_witness :
  st_Owner (GiveAccess (mkStoredTopic "x" None) 5 255 255) = "x".
Proof.
  destruct (give_access_spec (mkStoredTopic "x" None) 5 255 255) as (_ & _ & _ & H & _).
  apply H. discriminate.
Defined.

End Objects.
