(* ===== verification/RingHash.v ===== *)
(** * Consistent hashing

    [server/ringhash/ringhash.go] with the standard checksums it uses (CRC-32,
    FNV-128a, Ascii85).
    A [uint32] is an [N] below [2^32]. *)

From Stdlib Require Import NArith ZArith Lia List Ascii String Bool Sorted Permutation.
From stdpp Require Import base tactics numbers list strings gmap pretty.
From S2P Require Import Prelude Uid.

Local Open Scope string_scope.
Local Open Scope N_scope.

(** ** hash/crc32: the IEEE table *)

Definition crc_poly : N := 0xedb88320.

Definition crc_bit (c : N) : N :=
  if N.odd c then N.lxor (N.shiftr c 1) crc_poly else N.shiftr c 1.

Definition crc_entry (b : N) : N := Nat.iter 8 crc_bit b.

Definition IEEETable : list N := map (fun i => crc_entry (N.of_nat i)) (List.seq 0 256).

Definition mask32 : N := 4294967295.

(** The loop of [checksumIEEEString]; [byte(checksum)] is the low byte. *)
Fixpoint checksum_loop (checksum : N) (value : string) : N :=
  match value with
  | "" => checksum
  | String c value' =>
      checksum_loop
        (N.lxor (nth (N.to_nat (N.lxor (N.land checksum 255) (N_of_ascii c))) IEEETable 0)
                (N.shiftr checksum 8)) value'
  end.

Definition checksumIEEEString (value : string) : N :=
  N.lxor mask32 (checksum_loop mask32 value).

(** The reference CRC-32: one bit of input at a time, no table. *)
Fixpoint crc_reference_loop (c : N) (value : string) : N :=
  match value with
  | "" => c
  | String b value' => crc_reference_loop (Nat.iter 8 crc_bit (N.lxor c (N_of_ascii b))) value'
  end.

Definition crc_reference (value : string) : N := N.lxor mask32 (crc_reference_loop mask32 value).

(** ** hash/fnv (128 bit, FNV-1a) and encoding/ascii85 for the signature *)

Definition fnv_prime : N := 2 ^ 88 + 0x13b.
Definition fnv_offset : N := 0x6c62272e07bb014262b821756295c58d.

Fixpoint fnv128a (h : N) (data : string) : N :=
  match data with
  | "" => h
  | String c data' => fnv128a ((N.lxor h (N_of_ascii c) * fnv_prime) mod 2 ^ 128) data'
  end.

Fixpoint be_words (n : nat) (h : N) : list N :=
  match n with
  | O => []
  | S n' => (h / 2 ^ (32 * N.of_nat n')) mod 2 ^ 32 :: be_words n' h
  end.

Definition ascii85_word (v : N) : string :=
  if v =? 0 then "z"
  else string_of_list_ascii
         (map (fun k => ascii_of_N (33 + (v / 85 ^ k) mod 85)) [4; 3; 2; 1; 0]).

(** The destination has room for five bytes per word: a "z" leaves zero bytes at its end. *)
Definition ascii85_fixed (ws : list N) : string :=
  let s := String.concat "" (map ascii85_word ws) in
  s ++ string_of_list_ascii (repeat "000"%char (5 * List.length ws - String.length s)).

(** ** The ring *)

Record elem := mkElem { e_key : string; e_hash : N }.

Definition elem_less (a b : elem) : bool :=
  if a.(e_hash) <? b.(e_hash) then true
  else if a.(e_hash) =? b.(e_hash) then str_ltb a.(e_key) b.(e_key)
  else false.

Record Ring := mkRing {
  keys : list elem; signature : string; replicas : nat; hashfunc : option (string -> N) }.

Definition NewRing (replicas : nat) (fn : option (string -> N)) : Ring := mkRing [] "" replicas fn.

Definition Len (ring : Ring) : nat := List.length ring.(keys).

Definition hashString (ring : Ring) (value : string) : N :=
  match ring.(hashfunc) with
  | None => checksumIEEEString value
  | Some h => h value
  end.

Definition replica_elems (ring : Ring) (key : string) : list elem :=
  map (fun i => mkElem key (hashString ring (pretty (N.of_nat i) ++ key)))
      (List.seq 0 ring.(replicas)).

Definition signature_bytes (e : elem) : string :=
  le_split 4 e.(e_hash) ++ e.(e_key).

Definition ring_signature (es : list elem) : string :=
  ascii85_fixed (be_words 4 (fnv128a fnv_offset (String.concat "" (map signature_bytes es)))).

Definition Add (ring : Ring) (ks : list string) : Ring :=
  let es := sort_by elem_less (ring.(keys) ++ List.flat_map (replica_elems ring) ks)%list in
  mkRing es (ring_signature es) ring.(replicas) ring.(hashfunc).

Definition elem_at (l : list elem) (i : nat) : elem := nth i l (mkElem "" 0).

Definition Get (ring : Ring) (key : string) : string :=
  if (Len ring =? 0)%nat then ""
  else
    let hash := hashString ring key in
    let idx := sort_Search (Len ring) (fun i =>
      let el := elem_at ring.(keys) i in
      (hash <? el.(e_hash)) || ((el.(e_hash) =? hash) && negb (str_ltb el.(e_key) key))) in
    let idx := if (idx =? Len ring)%nat then 0%nat else idx in
    (elem_at ring.(keys) idx).(e_key).

(** ** Specification: the next element on the circle *)

(** [el] is the least element not below [probe], or the least of all when there is none. *)
Definition is_target (l : list elem) (probe el : elem) : Prop :=
  In el l /\
  ((le_by elem_less probe el /\ forall y, In y l -> le_by elem_less probe y -> le_by elem_less el y) \/
   ((forall y, In y l -> ~ le_by elem_less probe y) /\ forall y, In y l -> le_by elem_less el y)).

(** ** Lemmas: CRC *)

Lemma crc_bit_lxor a b : crc_bit (N.lxor a b) = N.lxor (crc_bit a) (crc_bit b).
Proof.
  unfold crc_bit.
  assert (N.odd (N.lxor a b) = xorb (N.odd a) (N.odd b)) as -> by (rewrite <- !N.bit0_odd; apply N.lxor_spec).
  rewrite N.shiftr_lxor.
  destruct (N.odd a), (N.odd b); simpl; apply N.bits_inj; intros i;
    rewrite ?N.lxor_spec; repeat destruct (N.testbit _ i); done.
Qed.

Lemma crc_iter_lxor n a b : Nat.iter n crc_bit (N.lxor a b) = N.lxor (Nat.iter n crc_bit a) (Nat.iter n crc_bit b).
Proof. induction n as [|n IH]; simpl; [done|]. by rewrite IH, crc_bit_lxor. Qed.

Lemma crc_iter_shift n h : Nat.iter n crc_bit (N.shiftl h (N.of_nat n)) = h.
Proof.
  revert h. induction n as [|n IH]; intros h; [apply N.shiftl_0_r|].
  rewrite Nat.iter_succ_r.
  assert (crc_bit (N.shiftl h (N.of_nat (S n))) = N.shiftl h (N.of_nat n)) as ->; [|apply IH].
  unfold crc_bit. rewrite Nat2N.inj_succ, N.shiftl_succ_r.
  set (x := N.shiftl h (N.of_nat n)).
  replace (N.odd (N.double x)) with false by (by destruct x).
  by rewrite <- N.div2_spec, N.div2_double.
Qed.

Lemma low_byte_split c : c = N.lxor (N.land c 255) (N.shiftl (N.shiftr c 8) 8).
Proof.
  apply N.bits_inj. intros i. rewrite N.lxor_spec, N.land_spec. change 255 with (N.ones 8).
  destruct (N.lt_ge_cases i 8) as [Hi|Hi].
  - rewrite N.ones_spec_low, N.shiftl_spec_low by done. by rewrite andb_true_r, xorb_false_r.
  - rewrite N.ones_spec_high, N.shiftl_spec_high' , N.shiftr_spec' by done.
    rewrite andb_false_r, xorb_false_l. by replace (i - 8 + 8) with i by lia.
Qed.

Lemma IEEETable_nth b : b < 256 -> nth (N.to_nat b) IEEETable 0 = crc_entry b.
Proof.
  intros H. unfold IEEETable.
  rewrite (nth_indep _ 0 (crc_entry (N.of_nat 0))) by (rewrite length_map, length_seq; lia).
  rewrite (map_nth (fun i => crc_entry (N.of_nat i))), seq_nth by lia. f_equal. lia.
Qed.

Lemma checksum_step c b :
  b < 256 ->
  N.lxor (nth (N.to_nat (N.lxor (N.land c 255) b)) IEEETable 0) (N.shiftr c 8) =
  Nat.iter 8 crc_bit (N.lxor c b).
Proof.
  intros Hb. assert (N.lxor (N.land c 255) b < 256) as Hlt.
  { assert (N.lxor (N.land c 255) b = N.land 255 (N.lxor c b)) as ->; [|apply land_255_lt].
    assert (b = N.land 255 b) as Eb.
    { change 255 with (N.ones 8). rewrite N.land_comm, N.land_ones. by rewrite N.mod_small. }
    rewrite Eb at 1. apply N.bits_inj. intros i. rewrite !N.lxor_spec, !N.land_spec, N.lxor_spec.
    by destruct (N.testbit 255 i), (N.testbit c i), (N.testbit b i). }
  rewrite IEEETable_nth by done. unfold crc_entry.
  rewrite (low_byte_split c) at 3.
  replace (N.lxor (N.lxor (N.land c 255) (N.shiftl (N.shiftr c 8) 8)) b)
    with (N.lxor (N.lxor (N.land c 255) b) (N.shiftl (N.shiftr c 8) 8))
    by (rewrite !N.lxor_assoc; f_equal; apply N.lxor_comm).
  pose proof (crc_iter_shift 8 (N.shiftr c 8)) as E. change (N.of_nat 8) with 8 in E.
  by rewrite (crc_iter_lxor 8 (N.lxor (N.land c 255) b)), E.
Qed.

(** ** Lemmas: the order and the search *)

#[export] Instance elem_less_strict : StrictTotal elem_less.
Proof.
  constructor.
  - intros a. unfold elem_less. by rewrite N.ltb_irrefl, N.eqb_refl, str_ltb_irrefl.
  - intros a b c. unfold elem_less.
    destruct (N.ltb_spec (e_hash a) (e_hash b)), (N.ltb_spec (e_hash b) (e_hash c)),
      (N.eqb_spec (e_hash a) (e_hash b)), (N.eqb_spec (e_hash b) (e_hash c)),
      (N.ltb_spec (e_hash a) (e_hash c)), (N.eqb_spec (e_hash a) (e_hash c));
      try done; try lia. intros; by eapply str_ltb_trans.
  - intros [ka ha] [kb hb]. unfold elem_less. simpl.
    destruct (N.ltb_spec ha hb), (N.ltb_spec hb ha); try done.
    assert (ha = hb) as -> by lia. rewrite N.eqb_refl. intros. f_equal. by apply str_ltb_total.
Qed.

(** The predicate the binary search uses is [probe <= el]. *)
Lemma search_predicate hash key el :
  (hash <? el.(e_hash)) || ((el.(e_hash) =? hash) && negb (str_ltb el.(e_key) key)) = true <->
  le_by elem_less (mkElem key hash) el.
Proof.
  unfold le_by, elem_less. simpl.
  destruct (N.ltb_spec hash (e_hash el)), (N.ltb_spec (e_hash el) hash),
    (N.eqb_spec (e_hash el) hash); simpl; try lia; try (split; congruence); try done.
  destruct (str_ltb _ _); simpl; split; congruence.
Qed.

Lemma is_target_unique l probe e1 e2 : is_target l probe e1 -> is_target l probe e2 -> e1 = e2.
Proof.
  intros (H1 & [(A1 & B1)|(A1 & B1)]) (H2 & [(A2 & B2)|(A2 & B2)]).
  - apply (le_by_antisym elem_less); auto.
  - exfalso. by apply (A2 _ H1).
  - exfalso. by apply (A1 _ H2).
  - apply (le_by_antisym elem_less); auto.
Qed.

Lemma sorted_le_nth l i j :
  StronglySorted (le_by elem_less) l -> (i <= j < List.length l)%nat ->
  le_by elem_less (elem_at l i) (elem_at l j).
Proof.
  intros Hs Hij. destruct (Nat.eq_dec i j) as [->|]; [apply le_by_refl, _|].
  unfold elem_at. apply StronglySorted_nth; [done|lia].
Qed.

(** [Get] on a sorted non-empty ring is the next element on the circle. *)
Lemma Get_target ring key :
  StronglySorted (le_by elem_less) ring.(keys) -> ring.(keys) <> [] ->
  exists el, is_target ring.(keys) (mkElem key (hashString ring key)) el /\ Get ring key = el.(e_key).
Proof.
  intros Hs Hne. unfold Get, Len. set (l := keys ring) in *.
  destruct (Nat.eqb_spec (List.length l) 0) as [E|E]; [by destruct l|].
  set (hash := hashString ring key). set (probe := mkElem key hash).
  set (f := fun i : nat => (hash <? e_hash (elem_at l i)) ||
    ((e_hash (elem_at l i) =? hash) && negb (str_ltb (e_key (elem_at l i)) key))).
  destruct (sort_Search_spec (List.length l) f) as (Hle & Hlt & Hr).
  { intros a b Hab Ha. apply search_predicate in Ha. apply search_predicate.
    eapply le_by_trans; [exact _|exact Ha|]. by apply sorted_le_nth. }
  assert (forall y, In y l -> exists j, (j < List.length l)%nat /\ y = elem_at l j) as Hin.
  { intros y Hy. destruct (In_nth l y (mkElem "" 0) Hy) as (j & Hj & <-). eauto. }
  destruct (Nat.eqb_spec (sort_Search (List.length l) f) (List.length l)) as [Eq|Neq].
  - eexists. split; [|done]. split; [apply nth_In; lia|]. right. split.
    + intros y Hy Hp. destruct (Hin y Hy) as (j & Hj & ->).
      specialize (Hlt j ltac:(lia)). apply not_true_iff_false in Hlt. apply Hlt.
      by apply search_predicate.
    + intros y Hy. destruct (Hin y Hy) as (j & Hj & ->). apply sorted_le_nth; [done|lia].
  - specialize (Hr ltac:(lia)). apply search_predicate in Hr.
    eexists. split; [|done]. split; [apply nth_In; lia|]. left. split; [done|].
    intros y Hy Hp. destruct (Hin y Hy) as (j & Hj & ->). apply sorted_le_nth; [done|].
    destruct (Nat.lt_ge_cases j (sort_Search (List.length l) f)) as [Hj'|]; [|lia].
    specialize (Hlt j Hj'). apply not_true_iff_false in Hlt. exfalso. apply Hlt.
    by apply search_predicate.
Qed.

Lemma Add_keys_in ring ks e :
  In e (Add ring ks).(keys) <-> In e ring.(keys) \/ exists k, In k ks /\ In e (replica_elems ring k).
Proof.
  unfold Add. cbn [keys]. split.
  - intros H. apply (Permutation_in _ (sort_by_perm elem_less _)) in H.
    apply in_app_iff in H as [H|H]; [by left|]. right. by apply in_flat_map in H.
  - intros H. apply (Permutation_in _ (Permutation_sym (sort_by_perm elem_less _))).
    apply in_app_iff. destruct H as [H|H]; [by left|]. right. by apply in_flat_map.
Qed.

Lemma replica_elems_key ring k e : In e (replica_elems ring k) -> e.(e_key) = k.
Proof. unfold replica_elems. intros H. apply in_map_iff in H as (i & <- & _). done. Qed.

Lemma Add_sorted ring ks : StronglySorted (le_by elem_less) (Add ring ks).(keys).
Proof. apply sort_by_sorted. apply _. Qed.

Lemma Add_nonempty ring ks :
  (0 < ring.(replicas))%nat -> ks <> [] -> (Add ring ks).(keys) <> [].
Proof.
  intros Hr Hk E. destruct ks as [|k ks]; [done|].
  assert (In (mkElem k (hashString ring (pretty (N.of_nat 0) ++ k))) (Add ring (k :: ks)).(keys)) as Hin.
  { apply Add_keys_in. right. exists k. split; [left; done|]. unfold replica_elems. apply in_map_iff.
    exists 0%nat. split; [done|]. apply in_seq. lia. }
  by rewrite E in Hin.
Qed.

(** ** Properties *)

(** the table-driven [checksumIEEEString] computes the bitwise reference CRC-32. *)
Theorem checksum_is_crc32 value : checksumIEEEString value = crc_reference value.
Proof.
  unfold checksumIEEEString, crc_reference. f_equal. generalize mask32.
  induction value as [|b value IH]; intros c; [done|].
  cbn [checksum_loop crc_reference_loop]. rewrite checksum_step by apply N_of_ascii_lt. apply IH.
Qed.

(** [Get] on a ring built from a non-empty member list returns one of the members. *)
Theorem get_returns_member n fn ks key :
  (0 < n)%nat -> ks <> [] -> In (Get (Add (NewRing n fn) ks) key) ks.
Proof.
  intros Hn Hk. pose proof (Add_nonempty (NewRing n fn) ks Hn Hk) as Hne.
  destruct (Get_target _ key (Add_sorted (NewRing n fn) ks) Hne) as (el & [Hin _] & ->).
  apply Add_keys_in in Hin as [Hin|(k & Hk' & Hin)]; [done|].
  by apply replica_elems_key in Hin as ->.
Qed.

Lemma get_returns_member_witness :
  In (Get (Add (NewRing 3 None) ["im-0"; "im-1"]) "grpAbc") ["im-0"; "im-1"].
Proof. apply (get_returns_member 3 None ["im-0"; "im-1"] "grpAbc"); [lia|discriminate]. Defined.

(** nodes that add the same members in any order hold the same ring: the same owner
    for every topic and the same signature. *)
Theorem ring_order_independent ring ks ks' :
  Permutation ks ks' ->
  Add ring ks = Add ring ks' /\ signature (Add ring ks) = signature (Add ring ks').
Proof.
  intros H. assert (Add ring ks = Add ring ks') as E; [|by rewrite E].
  assert (sort_by elem_less (keys ring ++ flat_map (replica_elems ring) ks) =
          sort_by elem_less (keys ring ++ flat_map (replica_elems ring) ks')) as E.
  { apply sort_by_perm_eq; [apply _|]. apply Permutation_app_head.
    by apply Permutation_flat_map. }
  unfold Add. by rewrite E.
Qed.

Lemma ring_order_independent_witness :
  Permutation ["im-0"; "im-1"] ["im-1"; "im-0"] /\
  Add (NewRing 2 None) ["im-0"; "im-1"] = Add (NewRing 2 None) ["im-1"; "im-0"].
Proof.
  assert (Permutation ["im-0"; "im-1"] ["im-1"; "im-0"]) as H by apply perm_swap.
  split; [exact H|]. exact (proj1 (ring_order_independent (NewRing 2 None) _ _ H)).
Defined.

(** adding nodes to a view moves a topic only to an added node: every other topic
    keeps its owner. *)
Theorem ring_minimal_disruption n fn ks new key :
  (0 < n)%nat -> ks <> [] ->
  let before := Get (Add (NewRing n fn) ks) key in
  let after := Get (Add (NewRing n fn) (ks ++ new)%list) key in
  after = before \/ In after new.
Proof.
  intros Hn Hk before after.
  destruct (Get_target _ key (Add_sorted (NewRing n fn) ks) (Add_nonempty (NewRing n fn) ks Hn Hk))
    as (e1 & H1 & E1).
  assert (ks ++ new <> [])%list as Hk' by (by destruct ks).
  destruct (Get_target _ key (Add_sorted (NewRing n fn) (ks ++ new)) (Add_nonempty (NewRing n fn) _ Hn Hk'))
    as (e2 & H2 & E2).
  change (hashString (Add (NewRing n fn) ks) key) with (hashString (NewRing n fn) key) in H1.
  change (hashString (Add (NewRing n fn) (ks ++ new)) key) with (hashString (NewRing n fn) key) in H2.
  subst before after. rewrite E1, E2.
  assert (forall y, In y (keys (Add (NewRing n fn) ks)) -> In y (keys (Add (NewRing n fn) (ks ++ new)%list))) as Hsub.
  { intros y Hy. apply Add_keys_in in Hy as [[]|(k & Hy1 & Hy2)].
    apply Add_keys_in. right. exists k. split; [|done]. apply in_app_iff. by left. }
  destruct H2 as [Hin2 H2].
  pose proof Hin2 as Hin. apply Add_keys_in in Hin as [[]|(k & Hk2 & Hin)].
  pose proof (replica_elems_key _ _ _ Hin) as Ek.
  apply in_app_iff in Hk2 as [Hk2|Hk2]; [left|right; by rewrite Ek].
  assert (In e2 (keys (Add (NewRing n fn) ks))) as Hin1 by (apply Add_keys_in; eauto).
  f_equal. eapply is_target_unique; [|exact H1]. split; [done|].
  destruct H2 as [[A B]|[A B]]; [left|right]; split; eauto.
Qed.

Lemma ring_minimal_disruption_witness :
  let after := Get (Add (NewRing 2 None) ["im-0"; "im-1"; "im-2"]) "grpXyz" in
  after = Get (Add (NewRing 2 None) ["im-0"; "im-1"]) "grpXyz" \/ In after ["im-2"].
Proof. apply (ring_minimal_disruption 2 None ["im-0"; "im-1"] ["im-2"] "grpXyz"); [lia|discriminate]. Defined.
