(* ===== verification/Topology.v ===== *)
(** * Topology: the committed cluster topology and the member view

    internal/server/cluster_control_plane_topology.go.  A view is computed from
    the committed topology and the registered members that a linearizable etcd
    read returned; every node computes it for itself, so it must not depend on
    the order of the registrations.  [json.Unmarshal] into a member is the
    parameter [UnmarshalMember]; a time is a [Z] whose zero value is the zero
    time; [fmt.Errorf] values are the constructors of [TopologyError]. *)

From Stdlib Require Import NArith ZArith Lia List Ascii String Bool Sorted.
From stdpp Require Import base tactics numbers list strings gmap sets.
From S2P Require Import Prelude.

#[local] Open Scope string_scope.
#[local] Open Scope Z_scope.

Inductive TopologyError :=
| ErrReplicas
| ErrMemberCount (got want : Z)
| ErrNotListed (name : string)
| ErrTopologyDuplicate (name : string)
| ErrDecodeTopology
| ErrDecodeMember (key : string)
| ErrUnknownNode (name : string)
| ErrAddress (name got want : string)
| ErrDuplicateNode (name : string).

Record clusterMember := mkMember {
  Name : string; Address : string; InstanceID : Z; ProtocolVersion : Z;
  StartedAt : Z; Draining : bool; Active : bool }.

Record clusterTopology := mkTopology {
  t_ExpectedReplicas : Z; t_Members : list string; t_UpdatedAt : Z }.

Record clusterView := mkView {
  Epoch : Z; v_ExpectedReplicas : Z; v_Members : list clusterMember }.

(** The fields of [mvccpb.KeyValue] the code reads. *)
Record KeyValue := mkKeyValue { kv_Key : string; kv_Value : string; kv_ModRevision : Z }.

Definition serving (m : clusterMember) : bool := m.(Active) && negb m.(Draining).

Definition memberNames (view : clusterView) : list string :=
  map Name (List.filter serving view.(v_Members)).

Definition hasMember (view : clusterView) (name : string) (instanceID : Z) : bool :=
  existsb (fun m => String.eqb m.(Name) name && (m.(InstanceID) =? instanceID)) view.(v_Members).

Definition hasServingMember (view : clusterView) (name : string) (instanceID : Z) : bool :=
  existsb (fun m => String.eqb m.(Name) name && (m.(InstanceID) =? instanceID) &&
                    m.(Active) && negb m.(Draining)) view.(v_Members).

Definition servingMemberCount (view : clusterView) : Z :=
  fold_left (fun count m => if m.(Active) && negb m.(Draining) then count + 1 else count)
    view.(v_Members) 0.

Definition maxMemberRevision (kvs : list KeyValue) : Z :=
  fold_left (fun epoch kv => if epoch <? kv.(kv_ModRevision) then kv.(kv_ModRevision) else epoch)
    kvs 0.

Definition stringSet (values : list string) : gset string := list_to_set values.

Definition isStringSubset (subset superset : list string) : bool :=
  forallb (fun v => bool_decide (v ∈ stringSet superset)) subset.

Fixpoint equalStringSlices (left right : list string) : bool :=
  match left, right with
  | [], [] => true
  | a :: left', b :: right' => String.eqb a b && equalStringSlices left' right'
  | _, _ => false
  end.

(** The loop of [normalizeClusterTopology] over the raw member names. *)
Fixpoint normalize_names (expected : gmap string string) (seen : gset string)
    (acc raw : list string) : list string + TopologyError :=
  match raw with
  | [] => inl acc
  | rawName :: raw' =>
      let name := TrimSpace rawName in
      if bool_decide (expected !! name = None) then inr (ErrNotListed name)
      else if bool_decide (name ∈ seen) then inr (ErrTopologyDuplicate name)
      else normalize_names expected ({[name]} ∪ seen) (acc ++ [name])%list raw'
  end.

Definition normalizeClusterTopology (now : Z) (topology : clusterTopology)
    (expected : gmap string string) : clusterTopology + TopologyError :=
  let r := topology.(t_ExpectedReplicas) in
  if (r <? 3) || (Z.rem r 2 =? 0) then inr ErrReplicas
  else if negb (Z.of_nat (List.length topology.(t_Members)) =? r)
  then inr (ErrMemberCount (Z.of_nat (List.length topology.(t_Members))) r)
  else match normalize_names expected ∅ [] topology.(t_Members) with
       | inr e => inr e
       | inl names =>
           inl (mkTopology r (sort_by str_ltb names)
                  (if topology.(t_UpdatedAt) =? 0 then now else topology.(t_UpdatedAt)))
       end.

Section Decoding.
(** [json.Unmarshal] of the stored values; the [Active] field is not stored. *)
Variable UnmarshalMember : string -> option clusterMember.
Variable UnmarshalTopology : string -> option clusterTopology.

Definition set_active (m : clusterMember) (a : bool) : clusterMember :=
  mkMember m.(Name) m.(Address) m.(InstanceID) m.(ProtocolVersion) m.(StartedAt) m.(Draining) a.

(** The loop of [buildClusterView] over the registrations. *)
Fixpoint view_members (expected : gmap string string) (active seen : gset string)
    (acc : list clusterMember) (kvs : list KeyValue) : list clusterMember + TopologyError :=
  match kvs with
  | [] => inl acc
  | kv :: kvs' =>
      match UnmarshalMember kv.(kv_Value) with
      | None => inr (ErrDecodeMember kv.(kv_Key))
      | Some m =>
          match expected !! m.(Name) with
          | None => inr (ErrUnknownNode m.(Name))
          | Some expectedAddress =>
              if negb (String.eqb m.(Address) expectedAddress)
              then inr (ErrAddress m.(Name) m.(Address) expectedAddress)
              else if bool_decide (m.(Name) ∈ seen) then inr (ErrDuplicateNode m.(Name))
              else view_members expected active ({[m.(Name)]} ∪ seen)
                     (acc ++ [set_active m (bool_decide (m.(Name) ∈ active))])%list kvs'
          end
      end
  end.

Definition by_name : clusterMember -> clusterMember -> bool := lt_on str_ltb Name.

Definition buildClusterView (now epoch : Z) (kvs : list KeyValue)
    (expected : gmap string string) (topology : clusterTopology) : clusterView + TopologyError :=
  match normalizeClusterTopology now topology expected with
  | inr e => inr e
  | inl topology =>
      match view_members expected (stringSet topology.(t_Members)) ∅ [] kvs with
      | inr e => inr e
      | inl ms => inl (mkView epoch topology.(t_ExpectedReplicas) (sort_by by_name ms))
      end
  end.

Definition decodeClusterTopology (now : Z) (payload : string) (expected : gmap string string)
    : clusterTopology + TopologyError :=
  match UnmarshalTopology payload with
  | None => inr ErrDecodeTopology
  | Some t => normalizeClusterTopology now t expected
  end.

Fixpoint registered_members (expected : gmap string string) (members : gmap string clusterMember)
    (kvs : list KeyValue) : gmap string clusterMember + TopologyError :=
  match kvs with
  | [] => inl members
  | kv :: kvs' =>
      match UnmarshalMember kv.(kv_Value) with
      | None => inr (ErrDecodeMember kv.(kv_Key))
      | Some m =>
          match expected !! m.(Name) with
          | None => inr (ErrUnknownNode m.(Name))
          | Some expectedAddress =>
              if negb (String.eqb m.(Address) expectedAddress)
              then inr (ErrAddress m.(Name) m.(Address) expectedAddress)
              else match members !! m.(Name) with
                   | Some _ => inr (ErrDuplicateNode m.(Name))
                   | None => registered_members expected (<[m.(Name) := m]> members) kvs'
                   end
          end
      end
  end.

Definition decodeRegisteredMembers (kvs : list KeyValue) (expected : gmap string string)
    : gmap string clusterMember + TopologyError :=
  registered_members expected ∅ kvs.

(** What one registration must satisfy. *)
Definition acceptable (expected : gmap string string) (kv : KeyValue) (m : clusterMember) : Prop :=
  UnmarshalMember kv.(kv_Value) = Some m /\ expected !! m.(Name) = Some m.(Address).

(** ** Lemmas on the loops *)

Lemma view_members_spec expected active seen acc kvs ms :
  view_members expected active seen acc kvs = inl ms <->
  exists dec, Forall2 (acceptable expected) kvs dec /\ List.NoDup (map Name dec) /\
    (forall m, In m dec -> m.(Name) ∉ seen) /\
    ms = (acc ++ map (fun m => set_active m (bool_decide (m.(Name) ∈ active))) dec)%list.
Proof.
  revert seen acc. induction kvs as [|kv kvs IH]; intros seen acc; simpl.
  - split.
    + intros [= <-]. exists []. simpl. rewrite app_nil_r. repeat split; [constructor|constructor|done].
    + intros (dec & Hd & _ & _ & ->). inversion Hd; subst. simpl. by rewrite app_nil_r.
  - split.
    + destruct (UnmarshalMember _) as [m|] eqn:Em; [|done].
      destruct (expected !! Name m) as [a|] eqn:Ea; [|done].
      destruct (String.eqb_spec (Address m) a) as [<-|]; [|done]. simpl.
      case_bool_decide as Hs; [done|]. intros H. apply IH in H as (dec & Hd & Hn & Hf & ->).
      exists (m :: dec). split; [by constructor|]. split.
      * simpl. constructor; [|done]. intros (m' & E & Hm)%in_map_iff.
        apply Hf in Hm. rewrite E in Hm. set_solver.
      * split; [|by rewrite <- app_assoc].
        intros m' [<-|Hm]; [done|]. apply Hf in Hm. set_solver.
    + intros (dec & Hd & Hn & Hf & ->). inversion Hd as [|? m ? dec' [Em Ea] Hd']; subst.
      rewrite Em, Ea, String.eqb_refl. simpl.
      rewrite bool_decide_eq_false_2 by (apply Hf; by left).
      apply IH. exists dec'. inversion Hn as [|? ? Hnm Hn']; subst. split; [done|]. split; [done|].
      split; [|by rewrite <- app_assoc].
      intros m' Hm. rewrite not_elem_of_union, not_elem_of_singleton. split.
      * intros E. apply Hnm. rewrite <- E. by apply in_map.
      * apply Hf. by right.
Qed.

Lemma registered_members_spec expected members kvs :
  (exists ms, registered_members expected members kvs = inl ms) <->
  exists dec, Forall2 (acceptable expected) kvs dec /\ List.NoDup (map Name dec) /\
    (forall m, In m dec -> members !! m.(Name) = None).
Proof.
  revert members. induction kvs as [|kv kvs IH]; intros members; simpl.
  - split; [|by eauto]. intros _. exists []. repeat split; [constructor|constructor|done].
  - split.
    + intros [ms H]. destruct (UnmarshalMember _) as [m|] eqn:Em; [|done].
      destruct (expected !! Name m) as [a|] eqn:Ea; [|done].
      destruct (String.eqb_spec (Address m) a) as [<-|]; [|done]. simpl in H.
      destruct (members !! Name m) eqn:Hs; [done|].
      destruct (proj1 (IH _) (ex_intro _ ms H)) as (dec & Hd & Hn & Hf).
      exists (m :: dec). split; [by constructor|]. split.
      * simpl. constructor; [|done]. intros (m' & E & Hm)%in_map_iff.
        apply Hf in Hm. rewrite E in Hm. by rewrite lookup_insert_eq in Hm.
      * intros m' [<-|Hm]; [done|]. apply Hf in Hm. by apply lookup_insert_None in Hm as [? _].
    + intros (dec & Hd & Hn & Hf). inversion Hd as [|? m ? dec' [Em Ea] Hd']; subst.
      rewrite Em, Ea, String.eqb_refl. simpl. rewrite Hf by (by left).
      apply IH. exists dec'. inversion Hn as [|? ? Hnm Hn']; subst. split; [done|]. split; [done|].
      intros m' Hm. apply lookup_insert_None. split; [apply Hf; by right|].
      intros E. apply Hnm. rewrite E. by apply in_map.
Qed.

Lemma acceptable_perm expected kvs kvs' dec :
  Permutation kvs kvs' -> Forall2 (acceptable expected) kvs dec ->
  exists dec', Permutation dec dec' /\ Forall2 (acceptable expected) kvs' dec'.
Proof.
  intros Hp. revert dec. induction Hp; intros dec Hd.
  - inversion Hd; subst. by exists [].
  - inversion Hd as [|? m ? d Hm Hd']; subst. destruct (IHHp _ Hd') as (d' & ? & ?).
    exists (m :: d'). split; [by constructor|by constructor].
  - inversion Hd as [|? m1 ? d H1 Hd']; subst. inversion Hd' as [|? m2 ? d' H2 Hd'']; subst.
    exists (m2 :: m1 :: d'). split; [apply perm_swap|by constructor; [|constructor]].
  - destruct (IHHp1 _ Hd) as (d1 & P1 & F1). destruct (IHHp2 _ F1) as (d2 & P2 & F2).
    exists d2. split; [by rewrite P1|done].
Qed.

Lemma map_Name_set_active (active : gset string) dec :
  map Name (map (fun m => set_active m (bool_decide (m.(Name) ∈ active))) dec) = map Name dec.
Proof. rewrite map_map. by apply map_ext. Qed.

Lemma servingMemberCount_length view :
  servingMemberCount view = Z.of_nat (List.length (memberNames view)).
Proof.
  unfold servingMemberCount, memberNames. rewrite length_map.
  assert (forall l z, fold_left (fun count m => if m.(Active) && negb m.(Draining) then count + 1 else count) l z
            = z + Z.of_nat (List.length (List.filter serving l))) as H; [|apply (H _ 0)].
  induction l as [|m l IH]; intros z; simpl; [lia|]. rewrite IH. unfold serving at 2.
  destruct (_ && _); simpl; lia.
Qed.
End Decoding.

Lemma normalize_names_spec expected seen acc raw names :
  normalize_names expected seen acc raw = inl names <->
  (forall n, In n (map TrimSpace raw) -> is_Some (expected !! n) /\ n ∉ seen) /\
  List.NoDup (map TrimSpace raw) /\ names = (acc ++ map TrimSpace raw)%list.
Proof.
  revert seen acc. induction raw as [|r raw IH]; intros seen acc; cbn [normalize_names map].
  - rewrite app_nil_r. split; [intros [= <-]; repeat split; [done|done|constructor]|by intros (_ & _ & ->)].
  - set (n := TrimSpace r). split.
    + case_bool_decide as He; [done|]. case_bool_decide as Hs; [done|].
      intros H. apply IH in H as (Hf & Hn & ->). apply not_eq_None_Some in He. split; [|split].
      * intros m [<-|Hm]; [done|]. destruct (Hf _ Hm). set_solver.
      * constructor; [|done]. intros Hin. destruct (Hf _ Hin). set_solver.
      * by rewrite <- app_assoc.
    + intros (Hf & Hn & ->). destruct (Hf n) as [He Hs]; [by left|].
      rewrite bool_decide_eq_false_2 by (by apply not_eq_None_Some).
      rewrite bool_decide_eq_false_2 by done. apply IH. inversion Hn; subst.
      split; [|split; [done|by rewrite <- app_assoc]].
      intros m Hm. destruct (Hf m) as [? ?]; [by right|]. split; [done|].
      rewrite not_elem_of_union, not_elem_of_singleton. split; [|done]. by intros ->.
Qed.

(** The topologies the code accepts. *)
Definition valid_topology (expected : gmap string string) (t : clusterTopology) : Prop :=
  let names := map TrimSpace t.(t_Members) in
  3 <= t.(t_ExpectedReplicas) /\ Z.odd t.(t_ExpectedReplicas) = true /\
  Z.of_nat (List.length names) = t.(t_ExpectedReplicas) /\
  (forall n, In n names -> is_Some (expected !! n)) /\ List.NoDup names.

Definition normal_form (now : Z) (t : clusterTopology) : clusterTopology :=
  mkTopology t.(t_ExpectedReplicas) (sort_by str_ltb (map TrimSpace t.(t_Members)))
    (if t.(t_UpdatedAt) =? 0 then now else t.(t_UpdatedAt)).

Lemma normalize_topology_spec now t expected t' :
  normalizeClusterTopology now t expected = inl t' <->
  valid_topology expected t /\ t' = normal_form now t.
Proof.
  unfold normalizeClusterTopology, valid_topology, normal_form. rewrite length_map.
  destruct (Z.ltb_spec (t_ExpectedReplicas t) 3) as [|H3]; simpl; [split; [done|lia]|].
  rewrite Z.rem_mod_nonneg, Zmod_odd by lia.
  destruct (Z.odd _); simpl; [|split; [done|by intros [(_ & ? & _) _]]].
  destruct (Z.eqb_spec (Z.of_nat (length (t_Members t))) (t_ExpectedReplicas t)) as [E|E]; simpl;
    [|split; [done|by intros [(_ & _ & ? & _) _]]].
  destruct (normalize_names _ _ _ _) as [names|e] eqn:En.
  - apply normalize_names_spec in En as (Hf & Hn & ->). split.
    + intros [= <-]. repeat split; try done. intros n Hin. by apply Hf.
    + by intros [_ ->].
  - split; [done|]. intros [(_ & _ & _ & Hf & Hn) _].
    assert (normalize_names expected ∅ [] (t_Members t) = inl (map TrimSpace (t_Members t))) as E'.
    { apply normalize_names_spec. split; [|done]. intros n Hin. split; [by apply Hf|set_solver]. }
    congruence.
Qed.

Lemma map_TrimSpace_sorted raw :
  map TrimSpace (sort_by str_ltb (map TrimSpace raw)) = sort_by str_ltb (map TrimSpace raw).
Proof.
  rewrite <- (map_id (sort_by str_ltb (map TrimSpace raw))) at 2. apply map_ext_in.
  intros n Hin. apply (Permutation_in _ (sort_by_perm _ _)) in Hin.
  apply in_map_iff in Hin as (r & <- & _). apply TrimSpace_idemp.
Qed.

(** Sorted, duplicate-free member names in the white list keep [normalizeClusterTopology]
    as it is. *)
Lemma normal_form_valid now expected t :
  valid_topology expected t -> valid_topology expected (normal_form now t).
Proof.
  intros (H3 & Ho & Hl & Hf & Hn). unfold valid_topology, normal_form. cbn [t_ExpectedReplicas t_Members].
  rewrite map_TrimSpace_sorted.
  pose proof (sort_by_perm str_ltb (map TrimSpace (t_Members t))) as Hp.
  repeat split; [done|done| | |].
  - rewrite <- Hl. f_equal. by apply Permutation_length.
  - intros n Hin. apply Hf. by eapply Permutation_in.
  - eapply Permutation_NoDup; [symmetry; exact Hp|done].
Qed.

Lemma sort_by_sorted_id l : StronglySorted (le_by str_ltb) l -> sort_by str_ltb l = l.
Proof.
  intros H. eapply sorted_perm_unique; [apply _|by apply sort_by_sorted, _|done|].
  apply sort_by_perm.
Qed.

(** [normalizeClusterTopology] accepts exactly the topologies of odd size at least three
    whose trimmed names are distinct and in the white list, returns the trimmed names in order,
    and returns its own results unchanged. *)
Theorem normalize_topology_canonical now now' t expected t' :
  now <> 0 -> normalizeClusterTopology now t expected = inl t' ->
  valid_topology expected t /\ t' = normal_form now t /\
  StronglySorted (le_by str_ltb) t'.(t_Members) /\ List.NoDup t'.(t_Members) /\
  normalizeClusterTopology now' t' expected = inl t'.
Proof.
  intros Hnow [Hv ->]%normalize_topology_spec.
  pose proof (sort_by_perm str_ltb (map TrimSpace (t_Members t))) as Hp.
  assert (StronglySorted (le_by str_ltb) (sort_by str_ltb (map TrimSpace (t_Members t)))) as Hs
    by (apply sort_by_sorted, _).
  split; [done|]. split; [done|]. split; [done|]. split.
  { destruct Hv as (_ & _ & _ & _ & Hn). eapply Permutation_NoDup; [symmetry; exact Hp|done]. }
  apply normalize_topology_spec. split; [by apply normal_form_valid|].
  unfold normal_form. cbn [t_ExpectedReplicas t_Members t_UpdatedAt]. f_equal.
  - rewrite map_TrimSpace_sorted. symmetry. by apply sort_by_sorted_id.
  - destruct (Z.eqb_spec (t_UpdatedAt t) 0) as [_|Hu].
    + destruct (Z.eqb_spec now 0); [done|reflexivity].
    + destruct (Z.eqb_spec (t_UpdatedAt t) 0); [done|reflexivity].
Qed.

Definition sample_expected : gmap string string :=
  list_to_map [("im-0", "a:1"); ("im-1", "b:1"); ("im-2", "c:1"); ("im-3", "d:1")].
Definition sample_topology : clusterTopology := mkTopology 3 [" im-2"; "im-0 "; "im-1"] 0.

Lemma normalize_topology_canonical_witness :
  normalizeClusterTopology 7 sample_topology sample_expected = inl (mkTopology 3 ["im-0"; "im-1"; "im-2"] 7) /\
  normalizeClusterTopology 9 (mkTopology 3 ["im-0"; "im-1"; "im-2"] 7) sample_expected
    = inl (mkTopology 3 ["im-0"; "im-1"; "im-2"] 7).
Proof.
  assert (normalizeClusterTopology 7 sample_topology sample_expected = inl (mkTopology 3 ["im-0"; "im-1"; "im-2"] 7)) as H
    by (vm_compute; reflexivity).
  split; [exact H|].
  exact (proj2 (proj2 (proj2 (proj2
    (normalize_topology_canonical 7 9 sample_topology sample_expected _ ltac:(lia) H))))).
Defined.

Section ViewTheorems.
Context (UnmarshalMember : string -> option clusterMember).

Lemma view_spec now epoch kvs expected t v :
  buildClusterView UnmarshalMember now epoch kvs expected t = inl v <->
  valid_topology expected t /\
  exists dec, Forall2 (acceptable UnmarshalMember expected) kvs dec /\ List.NoDup (map Name dec) /\
    v = mkView epoch t.(t_ExpectedReplicas) (sort_by by_name
          (map (fun m => set_active m (bool_decide (m.(Name) ∈
              stringSet (t_Members (normal_form now t))))) dec)).
Proof.
  unfold buildClusterView. split.
  - destruct (normalizeClusterTopology _ _ _) as [t'|] eqn:Et; [|done].
    apply normalize_topology_spec in Et as [Hv ->].
    destruct (view_members _ _ _ _ _ _) as [ms|] eqn:Em; [|done].
    apply view_members_spec in Em as (dec & Hd & Hn & _ & ->). intros [= <-].
    split; [done|]. by exists dec.
  - intros (Hv & dec & Hd & Hn & ->).
    assert (normalizeClusterTopology now t expected = inl (normal_form now t)) as ->
      by (by apply normalize_topology_spec).
    destruct (view_members _ _ _ _ _ _) as [ms|e] eqn:Em.
    + apply view_members_spec in Em as (dec' & Hd' & _ & _ & ->). simpl.
      assert (dec' = dec) as ->; [|done].
      clear Hn. revert dec Hd. induction Hd' as [|kv m kvs l [H1 _] _ IH]; intros dec Hd.
      { by inversion Hd. }
      inversion Hd as [|? m' ? l' [H2 _] Hd2]; subst. f_equal; [congruence|by apply IH].
    + assert (view_members UnmarshalMember expected (stringSet (t_Members (normal_form now t))) ∅ [] kvs = inl
        (map (fun m => set_active m (bool_decide (m.(Name) ∈ stringSet (t_Members (normal_form now t))))) dec)) as E.
      { apply view_members_spec. exists dec. split; [done|]. split; [done|]. split; [set_solver|done]. }
      congruence.
Qed.

(** two nodes that read the same registrations in different orders build the same view. *)
Theorem view_order_independent now epoch kvs kvs' expected t v :
  Permutation kvs kvs' ->
  buildClusterView UnmarshalMember now epoch kvs expected t = inl v ->
  buildClusterView UnmarshalMember now epoch kvs' expected t = inl v.
Proof.
  intros Hp (Hv & dec & Hd & Hn & ->)%view_spec. apply view_spec. split; [done|].
  destruct (acceptable_perm _ _ _ _ _ Hp Hd) as (dec' & Hp' & Hd'). exists dec'.
  split; [done|]. split; [eapply Permutation_NoDup; [|exact Hn]; by apply Permutation_map|].
  f_equal. apply sort_by_key_perm_eq; [apply _|by apply Permutation_map|].
  by rewrite map_Name_set_active.
Qed.

(** a view lists each configured member at most once, in name order and at its configured
    address; its serving members belong to the committed topology, so they number at most the
    expected replicas, and [hasServingMember] reports only them. *)
Theorem view_members_sound now epoch kvs expected t v :
  buildClusterView UnmarshalMember now epoch kvs expected t = inl v ->
  map Name v.(v_Members) = sort_by str_ltb (map Name v.(v_Members)) /\
  List.NoDup (map Name v.(v_Members)) /\
  (forall m, In m v.(v_Members) -> expected !! m.(Name) = Some m.(Address)) /\
  (forall n, In n (memberNames v) -> In n (map TrimSpace t.(t_Members))) /\
  servingMemberCount v <= v.(v_ExpectedReplicas) /\
  (forall n i, hasServingMember v n i = true -> In n (memberNames v) /\ hasMember v n i = true).
Proof.
  intros (Hv & dec & Hd & Hn & ->)%view_spec. cbn [v_Members v_ExpectedReplicas].
  set (act := stringSet _). set (ms := map _ dec).
  pose proof (sort_by_key_perm str_ltb Name ms) as Hp. fold by_name in Hp.
  assert (map Name ms = map Name dec) as Ems by apply map_Name_set_active.
  assert (List.NoDup (map Name (sort_by by_name ms))) as Hnd.
  { eapply Permutation_NoDup; [symmetry; apply Permutation_map; exact Hp|by rewrite Ems]. }
  assert (forall n, In n (memberNames (mkView epoch (t_ExpectedReplicas t) (sort_by by_name ms))) ->
            In n (map TrimSpace (t_Members t))) as Hsub.
  { intros n (m & <- & [Hm Hs]%filter_In)%in_map_iff. apply (Permutation_in _ Hp) in Hm.
    apply in_map_iff in Hm as (m0 & <- & _). unfold serving in Hs. simpl in Hs.
    apply andb_true_iff in Hs as [Hs _]. apply bool_decide_eq_true in Hs.
    unfold act, stringSet in Hs. apply elem_of_list_to_set in Hs.
    apply list_elem_of_In in Hs. exact (Permutation_in _ (sort_by_perm str_ltb _) Hs). }
  split; [|split; [done|split; [|split; [exact Hsub|split]]]].
  - unfold by_name. rewrite sort_by_key. symmetry. apply sort_by_sorted_id. apply sort_by_sorted, _.
  - intros m Hm. apply (Permutation_in _ Hp) in Hm. apply in_map_iff in Hm as (m0 & <- & Hin).
    simpl. clear -Hd Hin. induction Hd as [|? ? ? ? [_ H] _ IH]; [done|]. destruct Hin as [<-|]; auto.
  - rewrite servingMemberCount_length. destruct Hv as (_ & _ & <- & _ & _).
    apply Nat2Z.inj_le. apply List.NoDup_incl_length; [|exact Hsub].
    unfold memberNames. cbn [v_Members]. clear -Hnd. induction (sort_by by_name ms) as [|m l IH]; simpl; [constructor|].
    inversion Hnd as [|? ? Hm Hl]; subst. destruct (serving m); simpl; [|by apply IH].
    constructor; [|by apply IH]. intros (m' & E & [Hin _]%filter_In)%in_map_iff.
    apply Hm. rewrite <- E. by apply in_map.
  - intros n i Hh. unfold hasServingMember in Hh. cbn [v_Members] in Hh.
    apply existsb_exists in Hh as (m & Hm & [[[Ha Hb]%andb_true_iff Hc]%andb_true_iff Hd']%andb_true_iff).
    apply String.eqb_eq in Ha as Ha'. subst n. split.
    + apply in_map, filter_In. split; [done|]. unfold serving. by rewrite Hc, Hd'.
    + apply existsb_exists. exists m. split; [done|]. by rewrite Ha, Hb.
Qed.

(** [decodeRegisteredMembers] accepts exactly the registrations for which
    [buildClusterView] succeeds on a valid topology. *)
Theorem view_iff_registry now epoch kvs expected t :
  (exists v, buildClusterView UnmarshalMember now epoch kvs expected t = inl v) <->
  (exists t', normalizeClusterTopology now t expected = inl t') /\
  (exists ms, decodeRegisteredMembers UnmarshalMember kvs expected = inl ms).
Proof.
  unfold decodeRegisteredMembers. rewrite registered_members_spec. split.
  - intros [v (Hv & dec & Hd & Hn & ->)%view_spec]. split.
    + exists (normal_form now t). by apply normalize_topology_spec.
    + exists dec. by repeat split.
  - intros [[t' [Hv _]%normalize_topology_spec] (dec & Hd & Hn & _)].
    eexists. apply view_spec. split; [done|]. by exists dec.
Qed.
End ViewTheorems.

(** A concrete decoder for the witnesses: the value is the member name. *)
Definition sample_decoder (v : string) : option clusterMember :=
  match sample_expected !! v with
  | Some a => Some (mkMember v a 1 2 0 (String.eqb v "im-1") false)
  | None => None
  end.
Definition sample_kvs : list KeyValue :=
  [mkKeyValue "m/2" "im-2" 5; mkKeyValue "m/1" "im-1" 6; mkKeyValue "m/0" "im-0" 9].
Definition sample_view : clusterView :=
  mkView 9 3 [mkMember "im-0" "a:1" 1 2 0 false true; mkMember "im-1" "b:1" 1 2 0 true true;
              mkMember "im-2" "c:1" 1 2 0 false true].

Lemma view_order_independent_witness :
  buildClusterView sample_decoder 7 9 sample_kvs sample_expected sample_topology = inl sample_view /\
  buildClusterView sample_decoder 7 9 (List.rev sample_kvs) sample_expected sample_topology = inl sample_view.
Proof.
  assert (buildClusterView sample_decoder 7 9 sample_kvs sample_expected sample_topology = inl sample_view) as H
    by (vm_compute; reflexivity).
  split; [exact H|].
  exact (view_order_independent sample_decoder 7 9 sample_kvs (List.rev sample_kvs) sample_expected
    sample_topology sample_view (Permutation_rev sample_kvs) H).
Defined.

Lemma view_members_sound_witness :
  memberNames sample_view = ["im-0"; "im-2"] /\ servingMemberCount sample_view <= 3.
Proof.
  assert (buildClusterView sample_decoder 7 9 sample_kvs sample_expected sample_topology = inl sample_view) as H
    by (vm_compute; reflexivity).
  split; [reflexivity|].
  exact (proj1 (proj2 (proj2 (proj2 (proj2
    (view_members_sound sample_decoder 7 9 sample_kvs sample_expected sample_topology sample_view H)))))).
Defined.
