(* ===== verification/Fence.v ===== *)
(** * Fence: the database side of cluster fencing

    The transactions of server/db/mysql/messages.go that decide which node may
    write a topic: [MessageSaveAtomic], [ClusterFenceAdvance] and [MessageSave].
    The tables they touch are the state [DB]; each transaction is one step, as
    the row locks it takes make it (FOR SHARE on the fence row against the
    upsert of the same row).  A driver error can occur at every statement
    ([Faults]); before the commit it rolls the transaction back.  [sha256] is the digest
    of the standard library's crypto/sha256. *)

From Stdlib Require Import NArith ZArith Lia List Ascii String Bool.
From stdpp Require Import base tactics numbers list strings gmap sets.
From S2P Require Import Prelude Uid StoreTypes.
Import Objects.

#[local] Open Scope string_scope.
#[local] Open Scope Z_scope.

(** A row of kvmeta: the decimal text of an epoch is kept as its number. *)
Record KvRow := mkKvRow { kv_createdat : Z; kv_value : Z }.

(** The columns of a topics row a message write changes. *)
Record TopicRow := mkTopicRow {
  seqid : Z; touchedat : Z; clusterowner : string; clusterepoch : Z }.

Record DB := mkDB {
  kvmeta : gmap string KvRow;
  topics : gmap string TopicRow;
  messages : list (Uid * Message) }.

#[global] Instance TopicRow_eq_dec : EqDecision TopicRow.
Proof. solve_decision. Defined.

(** Driver errors by statement; a failing commit may or may not have taken effect. *)
Record Faults := mkFaults {
  f_begin : option GoError; f_fence : option GoError; f_update : option GoError;
  f_rows : option GoError; f_insert : option GoError; f_commit : option (GoError * bool);
  f_exec : option GoError; f_query : option GoError }.

Definition no_faults : Faults := mkFaults None None None None None None None None.

(** common.NullableString: the empty text is NULL. *)
Definition NullableString (value : string) : option string :=
  if String.eqb value "" then None else Some value.

(** The unique indexes of the messages table; NULL keys do not collide. *)
Definition same_seqid (m m' : Message) : bool :=
  String.eqb m.(m_Topic) m'.(m_Topic) && (m.(m_SeqId) =? m'.(m_SeqId)).

Definition same_clientkey (m m' : Message) : bool :=
  String.eqb m.(m_Topic) m'.(m_Topic) &&
  match NullableString m.(m_ClientKey), NullableString m'.(m_ClientKey) with
  | Some k, Some k' => String.eqb k k'
  | _, _ => false
  end.

Definition conflicts (m m' : Message) : bool := same_seqid m m' || same_clientkey m m'.

(** INSERT INTO messages: the topic must exist and both unique indexes must hold. *)
Definition insert_message (id : Uid) (msg : Message) (db : DB) : DB + GoError :=
  match db.(topics) !! msg.(m_Topic) with
  | None => inr (TextErr "foreign key constraint fails")
  | Some _ =>
      if existsb (fun r => conflicts msg (snd r)) db.(messages)
      then inr (TextErr "Duplicate entry")
      else inl (mkDB db.(kvmeta) db.(topics) (db.(messages) ++ [(id, msg)])%list)
  end.

(** UPDATE of one topics row. *)
Definition set_row (topic : string) (row : TopicRow) (db : DB) : DB :=
  mkDB db.(kvmeta) (<[topic := row]> db.(topics)) db.(messages).

Section Adapter.
Variable sha256 : string -> string.
(** The driver's clientFoundRows option: whether RowsAffected counts matched or changed rows. *)
Variable clientFoundRows : bool.

(** [MessageSave]: the plain insert. *)
Definition MessageSave (f : Faults) (id : Uid) (msg : Message) (db : DB) : DB * Message * option GoError :=
  let msg := InitClientKey sha256 msg in
  match f.(f_insert) with
  | Some e => (db, msg, Some e)
  | None =>
      match insert_message id msg db with
      | inr e => (db, msg, Some e)
      | inl db' => (db', msg, None)
      end
  end.

(** The topic update of [MessageSaveAtomic] under a fence: the new table, and the
    rows-affected count. *)
Definition fenced_update (msg : Message) (db : DB) : DB * Z :=
  match db.(topics) !! msg.(m_Topic) with
  | None => (db, 0)
  | Some row =>
      if (row.(clusterepoch) <? msg.(m_ClusterEpoch)) ||
         ((row.(clusterepoch) =? msg.(m_ClusterEpoch)) && String.eqb row.(clusterowner) msg.(m_ClusterOwner))
      then
        let row' := mkTopicRow msg.(m_SeqId) msg.(m_CreatedAt) msg.(m_ClusterOwner) msg.(m_ClusterEpoch) in
        (set_row msg.(m_Topic) row' db,
         if clientFoundRows || negb (bool_decide (row = row')) then 1 else 0)
      else (db, 0)
  end.

Definition plain_update (msg : Message) (db : DB) : DB :=
  match db.(topics) !! msg.(m_Topic) with
  | None => db
  | Some row =>
      set_row msg.(m_Topic)
        (mkTopicRow msg.(m_SeqId) msg.(m_CreatedAt) row.(clusterowner) row.(clusterepoch)) db
  end.

(** The fence check and the topic update, or the error that aborts the transaction. *)
Definition advance_cursor (f : Faults) (msg : Message) (db : DB) : DB + GoError :=
  if HasClusterFence (Some msg) then
    match f.(f_fence) with
    | Some e => inr e
    | None =>
        match db.(kvmeta) !! ClusterFenceKey sha256 msg.(m_ClusterId) with
        | None => inr (StoreErr ErrClusterFenced)
        | Some kv =>
            if negb (kv.(kv_value) =? msg.(m_ClusterEpoch)) then inr (StoreErr ErrClusterFenced)
            else match f.(f_update) with
                 | Some e => inr e
                 | None =>
                     let '(db1, affected) := fenced_update msg db in
                     match f.(f_rows) with
                     | Some e => inr e
                     | None => if negb (affected =? 1) then inr (StoreErr ErrClusterFenced) else inl db1
                     end
                 end
        end
    end
  else
    match f.(f_update) with
    | Some e => inr e
    | None => inl (plain_update msg db)
    end.

Definition MessageSaveAtomic (f : Faults) (id : Uid) (msg : Message) (db : DB)
    : DB * Message * option GoError :=
  let msg := InitClientKey sha256 msg in
  if HasAnyClusterFenceField (Some msg) && negb (HasClusterFence (Some msg))
  then (db, msg, Some (StoreErr ErrMalformed))
  else
    match f.(f_begin) with
    | Some e => (db, msg, Some e)
    | None =>
        match advance_cursor f msg db with
        | inr e => (db, msg, Some e)
        | inl db1 =>
            match f.(f_insert) with
            | Some e => (db, msg, Some e)
            | None =>
                match insert_message id msg db1 with
                | inr e => (db, msg, Some e)
                | inl db2 =>
                    match f.(f_commit) with
                    | Some (e, applied) => (if applied : bool then db2 else db, msg, Some e)
                    | None => (db2, msg, None)
                    end
                end
            end
        end
    end.

(** [ClusterFenceAdvance]: the upsert, then the read of the committed epoch. *)
Definition fence_upsert (now : Z) (key : string) (epoch : Z) (db : DB) : DB :=
  let row :=
    match db.(kvmeta) !! key with
    | None => mkKvRow now epoch
    | Some kv => if kv.(kv_value) <? epoch then mkKvRow now epoch else kv
    end in
  mkDB (<[key := row]> db.(kvmeta)) db.(topics) db.(messages).

Definition ClusterFenceAdvance (f : Faults) (now : Z) (clusterID : string) (epoch : Z) (db : DB)
    : DB * option GoError :=
  if String.eqb clusterID "" || (epoch <=? 0) then (db, Some (StoreErr ErrMalformed))
  else
    match f.(f_exec) with
    | Some e => (db, Some e)
    | None =>
        let key := ClusterFenceKey sha256 clusterID in
        let db := fence_upsert now key epoch db in
        match f.(f_query) with
        | Some e => (db, Some e)
        | None =>
            match db.(kvmeta) !! key with
            | None => (db, Some (TextErr "sql: no rows in result set"))
            | Some kv =>
                if negb (kv.(kv_value) =? epoch) then (db, Some (StoreErr ErrClusterFenced))
                else (db, None)
            end
        end
    end.

(** ** The transactions of all nodes, as steps on the shared database *)

Inductive db_step (db : DB) : DB -> Prop :=
| step_save f id msg : db_step db (MessageSave f id msg db).1.1
| step_save_atomic f id msg : db_step db (MessageSaveAtomic f id msg db).1.1
| step_advance f now cid epoch : db_step db (ClusterFenceAdvance f now cid epoch db).1.

(** The epoch the fence of a cluster holds; 0 before the first advance. *)
Definition fence_epoch (db : DB) (clusterID : string) : Z :=
  match db.(kvmeta) !! ClusterFenceKey sha256 clusterID with Some kv => kv.(kv_value) | None => 0 end.

Definition messages_unique (db : DB) : Prop :=
  forall i j a b, db.(messages) !! i = Some a -> db.(messages) !! j = Some b ->
    conflicts (snd a) (snd b) = true -> i = j.

(** ** Lemmas *)

Lemma InitClientKey_fence msg :
  let msg' := InitClientKey sha256 msg in
  m_ClusterId msg' = m_ClusterId msg /\ m_ClusterEpoch msg' = m_ClusterEpoch msg /\
  m_ClusterOwner msg' = m_ClusterOwner msg /\ m_Topic msg' = m_Topic msg /\
  m_SeqId msg' = m_SeqId msg /\ m_CreatedAt msg' = m_CreatedAt msg.
Proof. unfold InitClientKey. by destruct (String.eqb _ _). Qed.

Lemma insert_message_spec id msg db db' :
  insert_message id msg db = inl db' ->
  db' = mkDB db.(kvmeta) db.(topics) (db.(messages) ++ [(id, msg)])%list /\
  is_Some (db.(topics) !! msg.(m_Topic)) /\
  existsb (fun r => conflicts msg (snd r)) db.(messages) = false.
Proof.
  unfold insert_message. destruct (topics db !! m_Topic msg) eqn:E; [|done].
  destruct (existsb _ _); [done|]. intros [= <-]. by repeat split.
Qed.

Lemma fenced_update_spec msg db db' :
  fenced_update msg db = (db', 1) ->
  exists row, db.(topics) !! msg.(m_Topic) = Some row /\
    (row.(clusterepoch) < msg.(m_ClusterEpoch) \/
     row.(clusterepoch) = msg.(m_ClusterEpoch) /\ row.(clusterowner) = msg.(m_ClusterOwner)) /\
    db' = set_row msg.(m_Topic)
      (mkTopicRow msg.(m_SeqId) msg.(m_CreatedAt) msg.(m_ClusterOwner) msg.(m_ClusterEpoch)) db.
Proof.
  unfold fenced_update. destruct (topics db !! _) as [row|]; [|done].
  destruct (_ || _) eqn:E; [|done]. intros [= <- _]. exists row. split; [done|]. split; [|done].
  apply orb_true_iff in E as [E|E]; to_prop; auto.
Qed.

(** What a transaction that reaches its commit has done to the tables. *)
Definition saved (msg : Message) (id : Uid) (db db' : DB) : Prop :=
  exists row,
    db.(topics) !! msg.(m_Topic) = Some row /\
    existsb (fun r => conflicts msg (snd r)) db.(messages) = false /\
    (if HasClusterFence (Some msg)
     then (exists kv, db.(kvmeta) !! ClusterFenceKey sha256 msg.(m_ClusterId) = Some kv /\
                      kv.(kv_value) = msg.(m_ClusterEpoch)) /\
          (row.(clusterepoch) < msg.(m_ClusterEpoch) \/
           row.(clusterepoch) = msg.(m_ClusterEpoch) /\ row.(clusterowner) = msg.(m_ClusterOwner)) /\
          db' = mkDB db.(kvmeta)
            (<[msg.(m_Topic) := mkTopicRow msg.(m_SeqId) msg.(m_CreatedAt) msg.(m_ClusterOwner)
                                  msg.(m_ClusterEpoch)]> db.(topics)) (db.(messages) ++ [(id, msg)])
     else db' = mkDB db.(kvmeta)
            (<[msg.(m_Topic) := mkTopicRow msg.(m_SeqId) msg.(m_CreatedAt) row.(clusterowner)
                                  row.(clusterepoch)]> db.(topics)) (db.(messages) ++ [(id, msg)])).

Lemma advance_insert_saved f id msg db db1 db2 :
  advance_cursor f msg db = inl db1 -> insert_message id msg db1 = inl db2 -> saved msg id db db2.
Proof.
  intros Ha (-> & [row Hr] & Hc)%insert_message_spec. revert Ha. unfold advance_cursor.
  destruct (HasClusterFence (Some msg)) eqn:Ef.
  - destruct (f_fence f); [done|]. destruct (kvmeta db !! _) as [kv|] eqn:Ek; [|done].
    destruct (Z.eqb_spec (kv_value kv) (m_ClusterEpoch msg)) as [E|]; simpl; [|done].
    destruct (f_update f); [done|]. destruct (fenced_update msg db) as [db1' n] eqn:Eu.
    destruct (f_rows f); [done|]. destruct (Z.eqb_spec n 1) as [->|]; simpl; [|done].
    intros [= ->]. apply fenced_update_spec in Eu as (row0 & H0 & Hg & ->).
    exists row0. rewrite Ef. repeat split; eauto.
  - destruct (f_update f); [done|]. intros [= <-]. unfold plain_update in *.
    destruct (topics db !! m_Topic msg) as [row0|] eqn:E0; [|by rewrite E0 in Hr].
    exists row0. by rewrite Ef.
Qed.

Lemma MessageSaveAtomic_cases f id msg db :
  let r := MessageSaveAtomic f id msg db in
  r.1.2 = InitClientKey sha256 msg /\
  ((r.1.1 = db /\ r.2 <> None) \/
   (saved r.1.2 id db r.1.1 /\ (r.2 = None \/ exists e, f.(f_commit) = Some (e, true)))).
Proof.
  unfold MessageSaveAtomic. destruct (_ && _); simpl; [by auto|].
  destruct (f_begin f); simpl; [by auto|].
  destruct (advance_cursor _ _ _) as [db1|e] eqn:Ea; simpl; [|by auto].
  destruct (f_insert f); simpl; [by auto|].
  destruct (insert_message _ _ _) as [db2|e] eqn:Ei; simpl; [|by auto].
  pose proof (advance_insert_saved _ _ _ _ _ _ Ea Ei) as Hs.
  destruct (f_commit f) as [[e [|]]|]; simpl; split; auto. right. eauto.
Qed.

Lemma fence_upsert_mono now key epoch db cid :
  0 < epoch -> fence_epoch db cid <= fence_epoch (fence_upsert now key epoch db) cid.
Proof.
  intros He. unfold fence_epoch, fence_upsert. simpl.
  destruct (decide (key = ClusterFenceKey sha256 cid)) as [->|Hk].
  - rewrite lookup_insert_eq. destruct (kvmeta db !! _) as [kv|]; simpl; [|lia].
    destruct (Z.ltb_spec (kv_value kv) epoch); simpl; lia.
  - by rewrite lookup_insert_ne.
Qed.

Lemma ClusterFenceAdvance_cases f now cid epoch db :
  let r := ClusterFenceAdvance f now cid epoch db in
  (r.1 = db /\ r.2 <> None) \/
  (0 < epoch /\ r.1 = fence_upsert now (ClusterFenceKey sha256 cid) epoch db /\
   (r.2 = None -> fence_epoch r.1 cid = epoch)).
Proof.
  unfold ClusterFenceAdvance. destruct (_ || _) eqn:E; [by left|]. to_prop.
  destruct (f_exec f); [by left|]. right. split; [done|].
  destruct (f_query f); [done|]. unfold fence_epoch. cbn [fence_upsert kvmeta].
  rewrite lookup_insert_eq.
  match goal with |- context [kv_value ?x =? epoch] => destruct (Z.eqb_spec (kv_value x) epoch) end;
    simpl; [|done]. by rewrite lookup_insert_eq.
Qed.

Lemma MessageSave_cases f id msg db :
  let r := MessageSave f id msg db in
  (r.1.1 = db /\ r.2 <> None) \/
  (insert_message id r.1.2 db = inl r.1.1 /\ r.2 = None).
Proof.
  unfold MessageSave. destruct (f_insert f); simpl; [by left|].
  destruct (insert_message _ _ _) as [db'|e] eqn:E; simpl; [by right|by left].
Qed.

Lemma saved_kvmeta msg id db db' : saved msg id db db' -> db'.(kvmeta) = db.(kvmeta).
Proof. intros (row & _ & _ & H). destruct (HasClusterFence _); [destruct H as (_ & _ & ->)|subst]; done. Qed.

Lemma saved_messages msg id db db' :
  saved msg id db db' -> db'.(messages) = (db.(messages) ++ [(id, msg)])%list /\
    existsb (fun r => conflicts msg (snd r)) db.(messages) = false.
Proof. intros (row & _ & Hc & H). destruct (HasClusterFence _); [destruct H as (_ & _ & ->)|subst]; done. Qed.

Lemma fence_step_mono db db' cid : db_step db db' -> fence_epoch db cid <= fence_epoch db' cid.
Proof.
  intros [f id msg|f id msg|f now cid' epoch].
  - destruct (MessageSave_cases f id msg db) as [[-> _]|[(-> & _)%insert_message_spec _]]; [done|].
    unfold fence_epoch. simpl. lia.
  - destruct (MessageSaveAtomic_cases f id msg db) as [_ [[-> _]|[Hs _]]]; [done|].
    unfold fence_epoch. by rewrite (saved_kvmeta _ _ _ _ Hs).
  - destruct (ClusterFenceAdvance_cases f now cid' epoch db) as [[-> _]|(He & -> & _)]; [done|].
    by apply fence_upsert_mono.
Qed.

Lemma fence_steps_mono db db' cid : steps db_step db db' -> fence_epoch db cid <= fence_epoch db' cid.
Proof.
  induction 1 as [|a b c _ IH H]; [done|]. pose proof (fence_step_mono _ _ cid H). lia.
Qed.

Lemma conflicts_sym m m' : conflicts m m' = conflicts m' m.
Proof.
  unfold conflicts, same_seqid, same_clientkey.
  rewrite (String.eqb_sym (m_Topic m)), (Z.eqb_sym (m_SeqId m)). f_equal. f_equal.
  destruct (NullableString _), (NullableString _); try done. apply String.eqb_sym.
Qed.

Lemma unique_snoc id msg (l : list (Uid * Message)) :
  (forall i j a b, l !! i = Some a -> l !! j = Some b -> conflicts (snd a) (snd b) = true -> i = j) ->
  existsb (fun r => conflicts msg (snd r)) l = false ->
  forall (i j : nat) a b, (l ++ [(id, msg)])%list !! i = Some a -> (l ++ [(id, msg)])%list !! j = Some b ->
    conflicts (snd a) (snd b) = true -> i = j.
Proof.
  intros Hu Hc.
  assert (forall i a, l !! i = Some a -> conflicts msg (snd a) = true -> False) as Hno.
  { intros i a Hi Ha. apply not_true_iff_false in Hc. apply Hc, existsb_exists. exists a.
    split; [|done]. apply list_elem_of_In. by eapply list_elem_of_lookup_2. }
  intros i j a b Ha Hb Hab.
  apply lookup_snoc_Some in Ha as [[_ Ha]|[-> <-]], Hb as [Hb|Hb].
  - destruct Hb as [_ Hb]. by eapply Hu.
  - destruct Hb as [-> <-]. exfalso. rewrite conflicts_sym in Hab. by eapply Hno.
  - destruct Hb as [_ Hb]. exfalso. by eapply Hno.
  - by destruct Hb as [-> _].
Qed.

(** Once a node has advanced the fence to an epoch, no sequence of transactions of any node lets
    a message with the token of an older epoch in: the transaction fails and changes
    nothing. *)
Lemma stale_fence_rejects f now cid epoch db0 db1 db2 f' id msg :
  ClusterFenceAdvance f now cid epoch db0 = (db1, None) ->
  steps db_step db1 db2 ->
  msg.(m_ClusterId) = cid -> HasClusterFence (Some msg) = true -> msg.(m_ClusterEpoch) < epoch ->
  (MessageSaveAtomic f' id msg db2).1.1 = db2 /\ (MessageSaveAtomic f' id msg db2).2 <> None /\
  (f'.(f_begin) = None -> f'.(f_fence) = None ->
   (MessageSaveAtomic f' id msg db2).2 = Some (StoreErr ErrClusterFenced)).
Proof.
  intros Ha Hs Hc Hf He.
  pose proof (ClusterFenceAdvance_cases f now cid epoch db0) as H. rewrite Ha in H. simpl in H.
  destruct H as [[_ ?]|(_ & _ & H)]; [done|]. specialize (H eq_refl).
  pose proof (fence_steps_mono _ _ cid Hs) as Hm.
  destruct (InitClientKey_fence msg) as (I1 & I2 & I3 & I4 & _).
  assert (HasClusterFence (Some (InitClientKey sha256 msg)) = true) as Hf'
    by (revert Hf; simpl; by rewrite I1, I2, I3).
  assert (forall kv, kvmeta db2 !! ClusterFenceKey sha256 (m_ClusterId (InitClientKey sha256 msg)) = Some kv ->
            (kv_value kv =? m_ClusterEpoch (InitClientKey sha256 msg)) = false) as Hk.
  { intros kv Hkv. rewrite I1, Hc in Hkv. rewrite I2. unfold fence_epoch in Hm.
    rewrite Hkv in Hm. unfold fence_epoch in H. apply Z.eqb_neq.
    destruct (kvmeta db1 !! _); lia. }
  unfold MessageSaveAtomic, advance_cursor. rewrite Hf', andb_false_r.
  destruct (f_begin f'); simpl; [done|]. destruct (f_fence f'); simpl; [done|].
  destruct (kvmeta db2 !! _) as [kv|]; simpl; [|done]. by rewrite (Hk kv eq_refl).
Qed.

(** ** Properties *)

(** a message transaction applies completely or not at all: without an error the message
    is stored, its topic carries the message's position (and writer, under a fence), and the
    fence held the message's epoch; with an error the tables are unchanged, unless the
    commit itself reported it after taking effect. *)
Theorem save_atomic_all_or_nothing f id msg db db' msg' err :
  MessageSaveAtomic f id msg db = (db', msg', err) ->
  msg' = InitClientKey sha256 msg /\
  (err = None -> saved msg' id db db') /\
  (err <> None -> db' = db \/ saved msg' id db db' /\ exists e, f.(f_commit) = Some (e, true)).
Proof.
  intros E. pose proof (MessageSaveAtomic_cases f id msg db) as H. rewrite E in H. simpl in H.
  destruct H as (H1 & [[-> H2]|[H2 H3]]); repeat split; try done; intros; auto.
  destruct H3 as [->|H3]; [done|]. right. auto.
Qed.

(** C3: the last writer of a topic is never displaced within its epoch and the epoch never goes back: while
    the transactions of all nodes run, the topic's epoch only grows, and as long as it
    stays the same the recorded owner stays the same. *)
Theorem topic_owner_per_epoch db db' topic row row' :
  steps db_step db db' -> db.(topics) !! topic = Some row -> db'.(topics) !! topic = Some row' ->
  row.(clusterepoch) <= row'.(clusterepoch) /\
  (row'.(clusterepoch) = row.(clusterepoch) -> row'.(clusterowner) = row.(clusterowner)).
Proof.
  intros Hs Hr. revert row'.
  cut (exists r, topics db' !! topic = Some r /\ row.(clusterepoch) <= r.(clusterepoch) /\
         (r.(clusterepoch) = row.(clusterepoch) -> r.(clusterowner) = row.(clusterowner))).
  { intros (r & Hr' & H) row' H'. congruence. }
  induction Hs as [|a b c _ IH H]; [by exists row|].
  destruct (IH Hr) as (r & Hb & Hle & Hown). clear IH Hr.
  destruct H as [f id msg|f id msg|f now cid epoch].
  - destruct (MessageSave_cases f id msg b) as [[-> _]|[(-> & _)%insert_message_spec _]]; by exists r.
  - destruct (MessageSaveAtomic_cases f id msg b) as [_ [[-> _]|[Hs _]]]; [by exists r|].
    revert Hs. generalize (MessageSaveAtomic f id msg b).1.1, (MessageSaveAtomic f id msg b).1.2.
    intros d m (r0 & H0 & _ & H).
    destruct (decide (m_Topic m = topic)) as [<-|Hne].
    + assert (r0 = r) as -> by congruence.
      destruct (HasClusterFence _); [destruct H as (_ & Hg & ->)|subst d]; simpl;
        rewrite lookup_insert_eq; (eexists; split; [reflexivity|]); simpl; [|done].
      destruct Hg as [Hg|[Hg1 Hg2]]; [split; [lia|intros; lia]|by rewrite <- Hg1, <- Hg2].
    + exists r. destruct (HasClusterFence _); [destruct H as (_ & _ & ->)|subst d]; simpl;
        by rewrite lookup_insert_ne.
  - destruct (ClusterFenceAdvance_cases f now cid epoch b) as [[-> _]|(_ & -> & _)]; by exists r.
Qed.

(** no sequence of transactions stores two messages with one position in a topic, or twice
    the same client key. *)
Theorem messages_stay_unique db db' :
  messages_unique db -> steps db_step db db' -> messages_unique db'.
Proof.
  intros H0. apply (steps_invariant db_step messages_unique); [done|]. clear.
  intros a b Ha [f id msg|f id msg|f now cid epoch].
  - destruct (MessageSave_cases f id msg a) as [[-> _]|[(-> & _ & Hc)%insert_message_spec _]]; [done|].
    intros i j x y. apply (unique_snoc _ _ _ Ha Hc).
  - destruct (MessageSaveAtomic_cases f id msg a) as [_ [[-> _]|[Hs _]]]; [done|].
    apply saved_messages in Hs as [E Hc]. intros i j x y. rewrite E. apply (unique_snoc _ _ _ Ha Hc).
  - destruct (ClusterFenceAdvance_cases f now cid epoch a) as [[-> _]|(_ & -> & _)]; done.
Qed.
End Adapter.

(** ** Concrete runs *)

Definition sample_db : DB := mkDB ∅ {[ "grpA" := mkTopicRow 4 0 "" 0 ]} [].
Definition sample_msg (seq epoch : Z) (owner : string) : Message :=
  mkMessage seq "grpA" "" "" "" "c1" epoch owner 100 100 None 0 None (AStr "hi") "hi".
Definition ident_digest (s : string) : string := s.

Definition after_advance : DB := (ClusterFenceAdvance ident_digest no_faults 1 "c1" 7 sample_db).1.
Definition after_save : DB * Message * option GoError :=
  MessageSaveAtomic ident_digest false no_faults 11%N (sample_msg 5 7 "im-0") after_advance.

Lemma save_atomic_all_or_nothing_witness :
  after_save.2 = None /\ saved ident_digest after_save.1.2 11%N after_advance after_save.1.1.
Proof.
  split; [vm_compute; reflexivity|].
  apply (save_atomic_all_or_nothing ident_digest false no_faults 11%N (sample_msg 5 7 "im-0")
    after_advance after_save.1.1 after_save.1.2 None); vm_compute; reflexivity.
Defined.

Lemma topic_owner_per_epoch_witness :
  0 <= 7 /\ (7 = 0 -> "im-0" = "").
Proof.
  apply (topic_owner_per_epoch ident_digest false after_advance after_save.1.1 "grpA"
    (mkTopicRow 4 0 "" 0) (mkTopicRow 5 100 "im-0" 7)); try (vm_compute; reflexivity).
  apply steps_one. apply step_save_atomic.
Defined.

Lemma messages_stay_unique_witness : messages_unique after_save.1.1.
Proof.
  apply (messages_stay_unique ident_digest false after_advance).
  - assert (messages after_advance = []) as E by (vm_compute; reflexivity).
    intros i j a b Hi. rewrite E in Hi. discriminate Hi.
  - apply steps_one. apply step_save_atomic.
Defined.
