(* ===== verification/Cluster.v ===== *)
(** * Cluster: a node's view of the cluster, topic ownership and write tokens

    internal/server/cluster_membership.go and the decisions of
    cluster_routing.go.  A node is a [Cluster]; [c == nil] (no clustering) is
    [None].  [globals.health] is an option of what [AllowsWrites] answers, the
    control plane an option of what [Ready] answers.  Calls to other components
    (proxy sessions, the hub) are emitted as [ClusterEffect]s; expvar counters
    and logs are left out. *)

From Stdlib Require Import NArith ZArith Lia List Ascii String Bool.
From stdpp Require Import base tactics numbers list strings gmap sets.
From S2P Require Import Prelude Uid StoreTypes RingHash Topology Fence.
Import Objects.

#[local] Open Scope string_scope.
#[local] Open Scope Z_scope.

Record ClusterNode := mkNode { cn_name : string; failCount : Z }.

Record clusterFailover := mkFailover {
  leader : string; term : Z; voteTimeout : Z; activeNodes : list string; nodeFailCountLimit : Z }.

Record Cluster := mkCluster {
  clusterID : string;
  nodes : gmap string ClusterNode;   (* without this node *)
  thisNodeName : string;
  ring : Ring;
  controlPlane : option bool;
  viewEpoch : Z;
  fo : option clusterFailover }.

Inductive ClusterEffect :=
| InvalidateProxySubs (forNode : string)
| GcProxySessions (active : list string)
| HubRehash.

Definition clusterHashReplicas : nat := 256.

Definition set_ring (c : Cluster) (r : Ring) : Cluster :=
  mkCluster c.(clusterID) c.(nodes) c.(thisNodeName) r c.(controlPlane) c.(viewEpoch) c.(fo).

Definition set_viewEpoch (c : Cluster) (e : Z) : Cluster :=
  mkCluster c.(clusterID) c.(nodes) c.(thisNodeName) c.(ring) c.(controlPlane) e c.(fo).

Definition set_fo (c : Cluster) (f : option clusterFailover) : Cluster :=
  mkCluster c.(clusterID) c.(nodes) c.(thisNodeName) c.(ring) c.(controlPlane) c.(viewEpoch) f.

(** [range c.nodes] in some order; the order is not observable in the ring
    ([ring_order_independent]). *)
Definition node_list (c : Cluster) : list ClusterNode := map snd (map_to_list c.(nodes)).

(** [rehash]; a nil list is [None]. *)
Definition rehash (c : Cluster) (names : option (list string)) : Cluster * list string :=
  let ringKeys :=
    match names with
    | None => (map cn_name (node_list c) ++ [c.(thisNodeName)])%list
    | Some ns => ns
    end in
  (set_ring c (Add (NewRing clusterHashReplicas None) ringKeys), ringKeys).

Definition ringSignature (c : Cluster) : string := c.(ring).(signature).

Definition topicOwner (c : Cluster) (topic : string) : string := Get c.(ring) topic.

(** [writeFenceToken]: cluster id, epoch and owner, and the error. *)
Definition writeFenceToken (health : option bool) (c : option Cluster) (topic : string)
    : (string * Z * string) * option GoError :=
  match c with
  | None => (("", 0, ""), None)
  | Some c =>
      if match health with Some allows => negb allows | None => false end
      then (("", 0, topicOwner c topic), Some (StoreErr ErrClusterFenced))
      else
        match c.(controlPlane) with
        | None => (("", 0, ""), None)
        | Some false => (("", 0, ""), Some (StoreErr ErrClusterFenced))
        | Some true =>
            let owner := topicOwner c topic in
            let epoch := c.(viewEpoch) in
            if (epoch <=? 0) || negb (String.eqb owner c.(thisNodeName))
            then (("", 0, owner), Some (StoreErr ErrClusterFenced))
            else ((c.(clusterID), epoch, owner), None)
        end
  end.

(** [applyControlPlaneView]: [adapter] and [hub] tell whether the globals are set. *)
Definition applyControlPlaneView (sha256 : string -> string) (adapter hub : bool) (f : Faults)
    (now : Z) (c : Cluster) (view : clusterView) (db : DB)
    : Cluster * DB * list ClusterEffect * option GoError :=
  if negb adapter then (c, db, [], Some (TextErr "no persistence adapter"))
  else
    match ClusterFenceAdvance sha256 f now c.(clusterID) view.(Epoch) db with
    | (db, Some err) => (c, db, [], Some err)
    | (db, None) =>
        let names := memberNames view in
        let c := (rehash c (Some names)).1 in
        let c := set_viewEpoch c view.(Epoch) in
        (c, db, if hub then [InvalidateProxySubs ""; GcProxySessions names; HubRehash] else [], None)
    end.

(** [nodeForTopic]: [None] for this node and for an unknown one. *)
Definition nodeForTopic (c : Cluster) (topic : string) : option ClusterNode :=
  let key := topicOwner c topic in
  if String.eqb key c.(thisNodeName) then None else c.(nodes) !! key.

Definition isRemoteTopic (c : option Cluster) (topic : string) : bool :=
  match c with
  | None => false
  | Some c => negb (String.eqb (topicOwner c topic) c.(thisNodeName))
  end.

Definition maxAttempts : nat := 32.

(** The retry loop: [names] are the successive results of [genTopicName], [i] the number
    already drawn. *)
Fixpoint gen_local (c : Cluster) (names : nat -> string) (attempts i : nat) (topic : string) : string * nat :=
  match attempts with
  | O => (topic, i)
  | S attempts' =>
      if String.eqb (topicOwner c topic) c.(thisNodeName) then (topic, i)
      else gen_local c names attempts' (S i) (names i)
  end.

Definition genLocalTopicName (c : option Cluster) (names : nat -> string) : string * nat :=
  match c with
  | None => (names 0%nat, 1%nat)
  | Some c => gen_local c names maxAttempts 1 (names 0%nat)
  end.

Definition isPartitioned (c : option Cluster) : bool :=
  match c with
  | None => false
  | Some c =>
      match c.(controlPlane) with
      | Some ready => negb ready
      | None =>
          match c.(fo) with
          | None => false
          | Some f =>
              Z.of_nat (List.length f.(activeNodes)) <=? Z.quot (Z.of_nat (size c.(nodes)) + 1) 2
          end
      end
  end.

(** ** Lemmas *)

Lemma apply_view_ok sha256 adapter hub f now c view db c' db' effs :
  applyControlPlaneView sha256 adapter hub f now c view db = (c', db', effs, None) ->
  ClusterFenceAdvance sha256 f now c.(clusterID) view.(Epoch) db = (db', None) /\ 0 < view.(Epoch) /\
  c' = set_viewEpoch (set_ring c (Add (NewRing clusterHashReplicas None) (memberNames view))) view.(Epoch).
Proof.
  unfold applyControlPlaneView. destruct adapter; [|done]. simpl.
  destruct (ClusterFenceAdvance _ _ _ _ _ _) as [d [e|]] eqn:E; [done|]. intros [= <- <- _].
  split; [done|]. split; [|done].
  pose proof (ClusterFenceAdvance_cases sha256 f now (clusterID c) (Epoch view) db) as H.
  rewrite E in H. simpl in H. by destruct H as [[_ ?]|[? _]].
Qed.

Lemma token_granted health c topic cid epoch owner :
  c.(controlPlane) <> None -> writeFenceToken health (Some c) topic = ((cid, epoch, owner), None) ->
  cid = c.(clusterID) /\ epoch = c.(viewEpoch) /\ 0 < epoch /\ owner = c.(thisNodeName) /\
  owner = topicOwner c topic.
Proof.
  intros Hcp. unfold writeFenceToken.
  destruct (match health with Some allows => negb allows | None => false end); [done|].
  destruct (controlPlane c) as [[|]|]; [|done|done].
  destruct (_ || _) eqn:E; [done|]. to_prop. intros [= <- <- <-]. auto.
Qed.

(** A message written with a token. *)
Definition with_token (m : Message) (tok : string * Z * string) : Message :=
  mkMessage m.(m_SeqId) m.(m_Topic) m.(m_From) m.(m_ClientId) m.(m_ClientKey)
    tok.1.1 tok.1.2 tok.2 m.(m_CreatedAt) m.(m_UpdatedAt) m.(m_DeletedAt) m.(m_DelId)
    m.(m_Head) m.(m_Content) m.(m_SearchText).

Lemma gen_local_spec c names attempts i topic :
  exists k, (i <= k <= i + attempts)%nat /\
    gen_local c names attempts i topic = (if (k =? i)%nat then topic else names (k - 1)%nat, k) /\
    (topicOwner c (gen_local c names attempts i topic).1 = c.(thisNodeName) \/ k = (i + attempts)%nat).
Proof.
  revert i topic. induction attempts as [|n IH]; intros i topic; cbn [gen_local].
  - exists i. rewrite Nat.eqb_refl. repeat split; [lia|lia|]. right. lia.
  - destruct (String.eqb_spec (topicOwner c topic) (thisNodeName c)) as [E|E].
    + exists i. rewrite Nat.eqb_refl. repeat split; [lia|lia|by left].
    + destruct (IH (S i) (names i)) as (k & Hk & -> & H). exists k. split; [lia|].
      destruct (Nat.eqb_spec k (S i)) as [->|Hne].
      * destruct (Nat.eqb_spec (S i) i); [lia|]. simpl. rewrite Nat.sub_0_r. split; [done|].
        destruct H; [by left|right; lia].
      * destruct (Nat.eqb_spec k i); [lia|]. split; [done|]. destruct H; [by left|right; lia].
Qed.

(** ** Properties *)

(** C1: after the nodes of a cluster have applied one view, every topic has exactly one writer among the
    serving members: a node whose control plane is ready and healthy is given a write token
    if and only if it is that member, and the token carries the view's epoch. *)
Theorem one_writer_per_topic view topic :
  memberNames view <> [] ->
  exists owner, In owner (memberNames view) /\
    forall sha256 adapter hub f now c db c' db' effs,
      applyControlPlaneView sha256 adapter hub f now c view db = (c', db', effs, None) ->
      c.(controlPlane) = Some true ->
      writeFenceToken (Some true) (Some c') topic =
        if String.eqb owner c.(thisNodeName)
        then ((c.(clusterID), view.(Epoch), owner), None)
        else (("", 0, owner), Some (StoreErr ErrClusterFenced)).
Proof.
  intros Hne. exists (Get (Add (NewRing clusterHashReplicas None) (memberNames view)) topic). split.
  - destruct (Get_target _ topic (Add_sorted (NewRing clusterHashReplicas None) (memberNames view)))
      as (el & [Hin _] & ->); [apply Add_nonempty; [apply Nat.lt_0_succ|done]|].
    apply Add_keys_in in Hin as [[]|(k & Hk & Hin)]. by apply replica_elems_key in Hin as ->.
  - intros * (_ & He & ->)%apply_view_ok Hcp. unfold writeFenceToken, topicOwner. simpl. rewrite Hcp.
    destruct (Z.leb_spec (Epoch view) 0); [lia|]. simpl.
    by destruct (String.eqb_spec (Get (Add (NewRing clusterHashReplicas None) (memberNames view)) topic) (thisNodeName c)).
Qed.

(** C2: a node that lost a topic cannot write it: once any node of the cluster has applied a view of a later
    epoch, a message saved with the token an older view gave fails with the fencing error
    and changes no table, whatever ran in between. *)
Theorem deposed_writer_fenced sha256 rows adapter hub f now c new view db0 db1 effs db2 old topic tok f' id m :
  applyControlPlaneView sha256 adapter hub f now c view db0 = (new, db1, effs, None) ->
  steps (db_step sha256 rows) db1 db2 ->
  old.(controlPlane) <> None -> old.(clusterID) = c.(clusterID) -> c.(clusterID) <> "" ->
  old.(thisNodeName) <> "" -> old.(viewEpoch) < view.(Epoch) ->
  writeFenceToken (Some true) (Some old) topic = (tok, None) ->
  f'.(f_begin) = None -> f'.(f_fence) = None ->
  let r := MessageSaveAtomic sha256 rows f' id (with_token m tok) db2 in
  r.1.1 = db2 /\ r.2 = Some (StoreErr ErrClusterFenced).
Proof.
  intros (Ha & _ & _)%apply_view_ok Hs Hcp Hid Hne Hname He Ht Hb Hf. destruct tok as [[cid epoch] owner].
  apply token_granted in Ht as (-> & -> & Hp & -> & _); [|done].
  destruct (stale_fence_rejects sha256 rows f now (clusterID c) (Epoch view) db0 db1 db2 f' id
    (with_token m (clusterID old, viewEpoch old, thisNodeName old)) Ha Hs) as (H1 & _ & H3);
    [done| |done|by auto].
  unfold HasClusterFence. cbn [with_token m_ClusterId m_ClusterEpoch m_ClusterOwner fst snd].
  rewrite Hid. apply String.eqb_neq in Hne as ->, Hname as ->.
  by destruct (Z.ltb_spec 0 (viewEpoch old)); [|lia].
Qed.

(** [genLocalTopicName] draws at most 33 names, and returns one this node does not own only
    after 32 names of other nodes. *)
Theorem gen_local_topic_name c names :
  exists k, (1 <= k <= 33)%nat /\ genLocalTopicName (Some c) names = (names (k - 1)%nat, k) /\
    (isRemoteTopic (Some c) (names (k - 1)%nat) = true -> k = 33%nat).
Proof.
  unfold genLocalTopicName. destruct (gen_local_spec c names maxAttempts 1 (names 0%nat)) as (k & Hk & E & H).
  assert ((if (k =? 1)%nat then names 0%nat else names (k - 1)%nat) = names (k - 1)%nat) as E'.
  { by destruct (Nat.eqb_spec k 1) as [->|]. }
  rewrite E' in E. exists k. split; [unfold maxAttempts in Hk; lia|]. split; [done|].
  rewrite E in H. simpl in H. intros Hr%negb_true_iff%String.eqb_neq. destruct H as [H|H]; [done|].
  unfold maxAttempts in H. lia.
Qed.

(** in a cluster without a control plane two nodes on different sides of a network split, whose
    lists of active nodes are disjoint parts of the configured members, are never both
    outside a minority partition. *)
Theorem one_side_unpartitioned c1 c2 f1 f2 :
  c1.(controlPlane) = None -> c2.(controlPlane) = None ->
  c1.(fo) = Some f1 -> c2.(fo) = Some f2 ->
  size c1.(nodes) = size c2.(nodes) ->
  (List.length f1.(activeNodes) + List.length f2.(activeNodes) <= size c1.(nodes) + 1)%nat ->
  isPartitioned (Some c1) = false -> isPartitioned (Some c2) = true.
Proof.
  intros H1 H2 F1 F2 Hs Hl. unfold isPartitioned. rewrite H1, H2, F1, F2, Hs. intros H. to_prop.
  apply Z.leb_le. rewrite !Z.quot_div_nonneg in * by lia. rewrite Hs in Hl.
  pose proof (Z.div_mod (Z.of_nat (size (nodes c2)) + 1) 2 ltac:(lia)).
  pose proof (Z.mod_pos_bound (Z.of_nat (size (nodes c2)) + 1) 2 ltac:(lia)). lia.
Qed.

(** ** Concrete runs *)

Definition sample_nodes : gmap string ClusterNode :=
  {[ "im-1" := mkNode "im-1" 0; "im-2" := mkNode "im-2" 0 ]}.
Definition sample_cluster (name : string) (epoch : Z) : Cluster :=
  mkCluster "c1" sample_nodes name (Add (NewRing 1 None) [name]) (Some true) epoch None.

Definition applied :=
  applyControlPlaneView ident_digest true true no_faults 1 (sample_cluster "im-0" 3) sample_view sample_db.

Lemma one_writer_per_topic_witness :
  exists owner, In owner (memberNames sample_view) /\
    writeFenceToken (Some true) (Some applied.1.1.1) "grpA" =
        if String.eqb owner "im-0" then (("c1", 9, owner), None)
        else (("", 0, owner), Some (StoreErr ErrClusterFenced)).
Proof.
  destruct (one_writer_per_topic sample_view "grpA") as (owner & Hin & H); [discriminate|].
  exists owner. split; [exact Hin|].
  refine (H ident_digest true true no_faults 1 (sample_cluster "im-0" 3) sample_db applied.1.1.1 applied.1.1.2 applied.1.2 _ _);
    reflexivity.
Defined.

Lemma deposed_writer_fenced_witness :
  (MessageSaveAtomic ident_digest false no_faults 12%N
     (with_token (sample_msg 5 0 "") ("c1", 3, "im-1")) applied.1.1.2).2 = Some (StoreErr ErrClusterFenced).
Proof.
  refine (proj2 (deposed_writer_fenced ident_digest false true true no_faults 1 (sample_cluster "im-0" 3)
    applied.1.1.1 sample_view sample_db applied.1.1.2 applied.1.2 applied.1.1.2 (sample_cluster "im-1" 3) "grpA"
    ("c1", 3, "im-1") no_faults 12%N (sample_msg 5 0 "") _ _ _ _ _ _ _ _ _ _)); try reflexivity; try discriminate.
  apply steps_refl.
Defined.

Definition legacy_cluster (active : list string) : Cluster :=
  mkCluster "c1" sample_nodes "im-0" (NewRing 1 None) None 0 (Some (mkFailover "" 0 3 active 5)).

Lemma one_side_unpartitioned_witness :
  isPartitioned (Some (legacy_cluster ["im-0"; "im-1"])) = false /\
  isPartitioned (Some (legacy_cluster ["im-2"])) = true.
Proof.
  split; [reflexivity|].
  apply (one_side_unpartitioned (legacy_cluster ["im-0"; "im-1"]) (legacy_cluster ["im-2"])
    (mkFailover "" 0 3 ["im-0"; "im-1"] 5) (mkFailover "" 0 3 ["im-2"] 5)); try reflexivity.
Defined.
