(* ===== verification/Election.v ===== *)
(** * Election: failover, leader election and health checks

    internal/server/cluster_leader.go.  [RunState] is a node with the local
    variables of its [run] goroutine; each case of the select is a function on
    it.  [electLeader] blocks that goroutine between sending its vote requests
    and the end of its loop, which is the [Electing] phase.  The cluster is the
    transition system [cstep] over the nodes and the calls in flight: a call can
    fail at any time, also after the voter has acted on it, and health checks
    can be lost, delayed and repeated.  The lists [voted] and [elected] are
    history: no handler reads them. *)

From Stdlib Require Import NArith ZArith Lia List Ascii String Bool.
From stdpp Require Import base tactics numbers list strings gmap sets.
From S2P Require Import Prelude RingHash Topology Fence Cluster.

#[local] Open Scope string_scope.
#[local] Open Scope Z_scope.

Record ClusterHealth := mkHealth {
  h_Leader : string; h_Term : Z; h_Signature : string; h_Nodes : list string }.
Record ClusterVoteRequest := mkVoteReq { vr_Node : string; vr_Term : Z }.
Record ClusterVoteResponse := mkVoteResp { vs_Result : bool; vs_Term : Z }.

Record clusterFailoverConfig := mkFoConfig {
  Enabled : bool; VoteAfter : Z; NodeFailAfter : Z }.

(** The loop variables of [electLeader]: [i] and [voteCount]. *)
Inductive Phase := Idle | Electing (i voteCount : Z).

Record RunState := mkRun {
  cl : Cluster; missed : Z; rehashSkipped : bool; phase : Phase }.

Definition no_failover : clusterFailover := mkFailover "" 0 0 [] 0.

(** [c.fo], which is set before [run] starts. *)
Definition fo_of (c : Cluster) : clusterFailover := default no_failover c.(fo).

Definition set_term (f : clusterFailover) (t : Z) (l : string) : clusterFailover :=
  mkFailover l t f.(voteTimeout) f.(activeNodes) f.(nodeFailCountLimit).
Definition set_active (f : clusterFailover) (ns : list string) : clusterFailover :=
  mkFailover f.(leader) f.(term) f.(voteTimeout) ns f.(nodeFailCountLimit).
Definition set_nodes (c : Cluster) (ns : gmap string ClusterNode) : Cluster :=
  mkCluster c.(clusterID) ns c.(thisNodeName) c.(ring) c.(controlPlane) c.(viewEpoch) c.(fo).
Definition with_term (c : Cluster) (t : Z) (l : string) : Cluster :=
  set_fo c (Some (set_term (fo_of c) t l)).

(** [failoverInit]: the heartbeat and the channels are left out. *)
Definition failoverInit (c : Cluster) (config : option clusterFailoverConfig) : Cluster * bool :=
  match config with
  | None => (c, false)
  | Some config =>
      if negb config.(Enabled) then (c, false)
      else if (Z.of_nat (size c.(nodes)) <? 2) then (c, false)
      else
        let names := (map cn_name (node_list c) ++ [c.(thisNodeName)])%list in
        let c := (rehash c (Some names)).1 in
        (set_fo c (Some (mkFailover "" 0 config.(VoteAfter) names config.(NodeFailAfter))), true)
  end.

(** One node of the loop of [sendHealthChecks]: the call failed or not. *)
Definition check_node (limit : Z) (failed : bool) (node : ClusterNode) : ClusterNode * bool :=
  if failed then
    let n := node.(failCount) + 1 in (mkNode node.(cn_name) n, n =? limit)
  else (mkNode node.(cn_name) 0, limit <=? node.(failCount)).

(** [sendHealthChecks]; [failed] tells which calls return an error.  The health
    check sent to every node is the second component. *)
Definition sendHealthChecks (failed : string -> bool) (c : Cluster)
    : Cluster * ClusterHealth * list ClusterEffect :=
  let f := fo_of c in
  let h := mkHealth c.(thisNodeName) f.(term) (ringSignature c) f.(activeNodes) in
  let check node := check_node f.(nodeFailCountLimit) (failed node.(cn_name)) node in
  let rehashed := existsb (fun node => (check node).2) (node_list c) in
  let c := set_nodes c ((fun node => (check node).1) <$> c.(nodes)) in
  if rehashed then
    let active := c.(thisNodeName) ::
      map cn_name (List.filter (fun n => n.(failCount) <? f.(nodeFailCountLimit)) (node_list c)) in
    let c := set_fo c (Some (set_active f active)) in
    let c := (rehash c (Some active)).1 in
    (c, h, [InvalidateProxySubs ""; GcProxySessions active; HubRehash])
  else (c, h, []).

Definition nodeCount (c : Cluster) : Z := Z.of_nat (size c.(nodes)).
Definition expectVotes (c : Cluster) : Z := Z.shiftr (nodeCount c + 1) 1 + 1.

(** [electLeader] up to its loop: the new term and the request sent to every node. *)
Definition elect_begin (c : Cluster) : Cluster * ClusterVoteRequest :=
  let t := (fo_of c).(term) + 1 in (with_term c t "", mkVoteReq c.(thisNodeName) t).

Definition elect_continues (c : Cluster) (i voteCount : Z) : bool :=
  (i <? nodeCount c) && (voteCount <? expectVotes c).

(** A completed call in the loop of [electLeader]; [None] is a call error. *)
Definition on_reply (c : Cluster) (reply : option ClusterVoteResponse) (i voteCount : Z) : Z * Z :=
  let '(i, voteCount) :=
    match reply with
    | None => (i, voteCount)
    | Some r =>
        if r.(vs_Result) then (i, voteCount + 1)
        else if (fo_of c).(term) <? r.(vs_Term) then (nodeCount c, 0)
        else (i, voteCount)
    end in
  (i + 1, voteCount).

(** [electLeader] after its loop. *)
Definition elect_end (c : Cluster) (voteCount : Z) : Cluster :=
  if expectVotes c <=? voteCount then with_term c (fo_of c).(term) c.(thisNodeName) else c.

(** The vote case of [run]. *)
Definition on_vote (c : Cluster) (req : ClusterVoteRequest) : Cluster * ClusterVoteResponse :=
  if (fo_of c).(term) <? req.(vr_Term)
  then (with_term c req.(vr_Term) "", mkVoteResp true req.(vr_Term))
  else (c, mkVoteResp false (fo_of c).(term)).

(** The health case of [run]; the last component is the logged "wrong leader" error. *)
Definition on_health (s : RunState) (h : ClusterHealth) : RunState * list ClusterEffect * bool :=
  let f := fo_of s.(cl) in
  if h.(h_Term) <? f.(term) then (s, [], false)
  else
    let wrong := (h.(h_Term) =? f.(term)) && negb (String.eqb h.(h_Leader) f.(leader)) &&
                 negb (String.eqb f.(leader) "") in
    let c := with_term s.(cl) h.(h_Term) h.(h_Leader) in
    if negb (String.eqb h.(h_Signature) (ringSignature c)) then
      if s.(rehashSkipped) then
        ( mkRun (rehash c (Some h.(h_Nodes))).1 0 false s.(phase),
          [InvalidateProxySubs ""; GcProxySessions h.(h_Nodes); HubRehash], wrong )
      else (mkRun c 0 true s.(phase), [], wrong)
    else (mkRun c 0 s.(rehashSkipped) s.(phase), [], wrong).

(** The ticker case of [run]: what the node does next. *)
Inductive TickAction := SendHealth | StartElection | Wait.

Definition on_tick (s : RunState) : RunState * TickAction :=
  if String.eqb (fo_of s.(cl)).(leader) s.(cl).(thisNodeName) then (s, SendHealth)
  else
    let m := s.(missed) + 1 in
    if (fo_of s.(cl)).(voteTimeout) <=? m
    then (mkRun s.(cl) 0 s.(rehashSkipped) s.(phase), StartElection)
    else (mkRun s.(cl) m s.(rehashSkipped) s.(phase), Wait).

(** ** The cluster as a transition system *)

(** A vote call: [handled] when the voter has acted on it, [reply] when the
    candidate's done channel holds the completed call, [consumed] when its loop has read it. *)
Record Call := mkCall {
  c_req : ClusterVoteRequest; c_voter : string; handled : bool;
  reply : option (option ClusterVoteResponse); consumed : bool }.

Record Sys := mkSys {
  procs : gmap string RunState;
  calls : list Call;
  healths : list ClusterHealth;
  voted : gmap (string * Z) string;
  elected : list (string * Z) }.

Definition with_proc (s : Sys) (n : string) (p : RunState) : Sys :=
  mkSys (<[n := p]> s.(procs)) s.(calls) s.(healths) s.(voted) s.(elected).

Definition set_calls (s : Sys) (l : list Call) : Sys :=
  mkSys s.(procs) l s.(healths) s.(voted) s.(elected).

Definition vote_calls (req : ClusterVoteRequest) (c : Cluster) : list Call :=
  map (fun n => mkCall req n.(cn_name) false None false) (node_list c).

Definition answer (c : Call) (r : ClusterVoteResponse) : Call :=
  mkCall c.(c_req) c.(c_voter) true (match c.(reply) with None => Some (Some r) | e => e end) c.(consumed).
Definition fail_call (c : Call) : Call := mkCall c.(c_req) c.(c_voter) c.(handled) (Some None) c.(consumed).
Definition consume (c : Call) : Call := mkCall c.(c_req) c.(c_voter) c.(handled) c.(reply) true.

Inductive cstep (s : Sys) : Sys -> Prop :=
| c_wait n p p' :
    s.(procs) !! n = Some p -> p.(phase) = Idle -> on_tick p = (p', Wait) ->
    cstep s (with_proc s n p')
| c_send n p p' failed c h effs :
    s.(procs) !! n = Some p -> p.(phase) = Idle -> on_tick p = (p', SendHealth) ->
    sendHealthChecks failed p'.(cl) = (c, h, effs) ->
    cstep s (mkSys (<[n := mkRun c p'.(missed) p'.(rehashSkipped) Idle]> s.(procs)) s.(calls)
               (h :: s.(healths)) s.(voted) s.(elected))
| c_elect n p p' c req :
    s.(procs) !! n = Some p -> p.(phase) = Idle -> on_tick p = (p', StartElection) ->
    elect_begin p'.(cl) = (c, req) ->
    cstep s (mkSys (<[n := mkRun c p'.(missed) p'.(rehashSkipped) (Electing 0 1)]> s.(procs))
               (s.(calls) ++ vote_calls req c) s.(healths)
               (<[(n, req.(vr_Term)) := n]> s.(voted)) s.(elected))
| c_vote n p k call c r :
    s.(procs) !! n = Some p -> p.(phase) = Idle ->
    s.(calls) !! k = Some call -> call.(c_voter) = n -> call.(handled) = false ->
    on_vote p.(cl) call.(c_req) = (c, r) ->
    cstep s (mkSys (<[n := mkRun c p.(missed) p.(rehashSkipped) Idle]> s.(procs))
               (<[k := answer call r]> s.(calls)) s.(healths)
               (if r.(vs_Result) then <[(n, call.(c_req).(vr_Term)) := call.(c_req).(vr_Node)]> s.(voted)
                else s.(voted)) s.(elected))
| c_fail k call :
    s.(calls) !! k = Some call -> call.(reply) = None ->
    cstep s (set_calls s (<[k := fail_call call]> s.(calls)))
| c_reply n p i v k call r i' v' :
    s.(procs) !! n = Some p -> p.(phase) = Electing i v -> elect_continues p.(cl) i v = true ->
    s.(calls) !! k = Some call -> call.(c_req) = mkVoteReq n (fo_of p.(cl)).(term) ->
    call.(reply) = Some r -> call.(consumed) = false ->
    on_reply p.(cl) r i v = (i', v') ->
    cstep s (set_calls (with_proc s n (mkRun p.(cl) p.(missed) p.(rehashSkipped) (Electing i' v')))
               (<[k := consume call]> s.(calls)))
| c_timeout n p i v :
    s.(procs) !! n = Some p -> p.(phase) = Electing i v -> elect_continues p.(cl) i v = true ->
    cstep s (with_proc s n (mkRun p.(cl) p.(missed) p.(rehashSkipped) (Electing (nodeCount p.(cl)) v)))
| c_end n p i v :
    s.(procs) !! n = Some p -> p.(phase) = Electing i v -> elect_continues p.(cl) i v = false ->
    cstep s (mkSys (<[n := mkRun (elect_end p.(cl) v) p.(missed) p.(rehashSkipped) Idle]> s.(procs))
               s.(calls) s.(healths) s.(voted)
               (if expectVotes p.(cl) <=? v then (n, (fo_of p.(cl)).(term)) :: s.(elected) else s.(elected)))
| c_health n p h p' effs wrong :
    s.(procs) !! n = Some p -> p.(phase) = Idle -> In h s.(healths) -> h.(h_Leader) <> n ->
    on_health p h = (p', effs, wrong) ->
    cstep s (with_proc s n p').

(** ** The invariant *)

Section Invariant.
Context (members : gset string).

Definition quorum : Z := Z.shiftr (Z.of_nat (size members)) 1 + 1.

(** The voters of [vs] have given candidate [n] their vote of term [t]. *)
Definition votes_of (vt : gmap (string * Z) string) (n : string) (t : Z) (vs : list string) : Prop :=
  NoDup vs /\ forall x, x ∈ vs -> x ∈ members /\ vt !! (x, t) = Some n.

(** The call by which [x] was counted in the election of [n] in term [t]. *)
Definition counted (cs : list Call) (n : string) (t : Z) (x : string) : Prop :=
  exists k c, cs !! k = Some c /\ c.(c_req) = mkVoteReq n t /\ c.(c_voter) = x /\ c.(consumed) = true.

Definition config_ok (n : string) (c : Cluster) : Prop :=
  n ∈ members /\ c.(thisNodeName) = n /\ dom c.(nodes) = members ∖ {[n]} /\
  (forall k node, c.(nodes) !! k = Some node -> node.(cn_name) = k).

Definition phase_ok (vt : gmap (string * Z) string) (cs : list Call) (n : string) (p : RunState) : Prop :=
  match p.(phase) with
  | Idle => True
  | Electing i v =>
      let t := (fo_of p.(cl)).(term) in
      vt !! (n, t) = Some n /\
      exists vs, votes_of vt n t vs /\ v <= Z.of_nat (List.length vs) /\
        forall x, x ∈ vs -> x = n \/ counted cs n t x
  end.

Definition leader_ok (el : list (string * Z)) (c : Cluster) : Prop :=
  (fo_of c).(leader) <> "" -> In ((fo_of c).(leader), (fo_of c).(term)) el.

Definition call_ok (s : Sys) (c : Call) : Prop :=
  c.(c_voter) ∈ members /\ c.(c_voter) <> c.(c_req).(vr_Node) /\
  (exists p, s.(procs) !! c.(c_req).(vr_Node) = Some p /\ c.(c_req).(vr_Term) <= (fo_of p.(cl)).(term)) /\
  (forall r, c.(reply) = Some (Some r) -> r.(vs_Result) = true ->
     s.(voted) !! (c.(c_voter), c.(c_req).(vr_Term)) = Some c.(c_req).(vr_Node)).

Definition distinct_calls (cs : list Call) : Prop :=
  forall (j k : nat) c d, cs !! j = Some c -> cs !! k = Some d ->
    c.(c_req) = d.(c_req) -> c.(c_voter) = d.(c_voter) -> j = k.

Record inv (s : Sys) : Prop := mkInv {
  inv_config : forall n p, s.(procs) !! n = Some p -> config_ok n p.(cl);
  inv_phase : forall n p, s.(procs) !! n = Some p -> phase_ok s.(voted) s.(calls) n p;
  inv_leader : forall n p, s.(procs) !! n = Some p -> leader_ok s.(elected) p.(cl);
  inv_term : forall x t c, s.(voted) !! (x, t) = Some c ->
     exists p, s.(procs) !! x = Some p /\ t <= (fo_of p.(cl)).(term);
  inv_calls : forall k c, s.(calls) !! k = Some c -> call_ok s c;
  inv_distinct : distinct_calls s.(calls);
  inv_elected : forall n t, In (n, t) s.(elected) ->
     n ∈ members /\ exists vs, votes_of s.(voted) n t vs /\ quorum <= Z.of_nat (List.length vs);
  inv_health : forall h, In h s.(healths) -> In (h.(h_Leader), h.(h_Term)) s.(elected) }.

(** ** Handlers and the configuration *)

Lemma config_ok_same n c c' :
  config_ok n c -> c'.(thisNodeName) = c.(thisNodeName) -> c'.(nodes) = c.(nodes) -> config_ok n c'.
Proof. unfold config_ok. by intros (H1 & H2 & H3 & H4) -> ->. Qed.

Lemma config_ok_expect n c : config_ok n c -> expectVotes c = quorum.
Proof.
  intros (Hn & _ & Hd & _). unfold expectVotes, quorum, nodeCount. f_equal. f_equal.
  rewrite <- size_dom, Hd, size_difference by set_solver. rewrite size_singleton.
  assert (size members <> 0)%nat; [|lia]. intros E. apply size_empty_inv in E. set_solver.
Qed.

Lemma node_list_in n c node :
  config_ok n c -> In node (node_list c) -> node.(cn_name) ∈ members ∖ {[n]} /\ c.(nodes) !! node.(cn_name) = Some node.
Proof.
  intros (_ & _ & Hd & Hk) ([k m] & <- & Hin)%in_map_iff. simpl.
  apply list_elem_of_In, elem_of_map_to_list in Hin. pose proof (Hk _ _ Hin) as ->. split; [|done].
  rewrite <- Hd. by apply elem_of_dom_2 in Hin.
Qed.

Lemma node_list_names_nodup n c : config_ok n c -> NoDup (map cn_name (node_list c)).
Proof.
  intros (_ & _ & _ & Hk). unfold node_list. rewrite map_map.
  assert (map (fun x => cn_name x.2) (map_to_list (nodes c)) = (map_to_list (nodes c)).*1) as ->;
    [|apply NoDup_fst_map_to_list].
  apply map_ext_in. intros [k m] Hin. apply list_elem_of_In, elem_of_map_to_list in Hin. by apply Hk.
Qed.

Lemma sendHealthChecks_spec failed n c c' h effs :
  config_ok n c -> sendHealthChecks failed c = (c', h, effs) ->
  config_ok n c' /\ (fo_of c').(leader) = (fo_of c).(leader) /\ (fo_of c').(term) = (fo_of c).(term) /\
  h.(h_Leader) = n /\ h.(h_Term) = (fo_of c).(term).
Proof.
  intros Hc. assert (config_ok n (set_nodes c ((fun node => (check_node (nodeFailCountLimit (fo_of c)) (failed (cn_name node)) node).1) <$> nodes c))) as Hc'.
  { destruct Hc as (H1 & H2 & H3 & H4). repeat split; [done|done| |]; simpl.
    - by rewrite dom_fmap_L.
    - intros k node. rewrite lookup_fmap, fmap_Some. intros (m & Hm & ->). apply H4 in Hm as <-.
      unfold check_node. by destruct (failed _). }
  destruct Hc as (_ & <- & _).
  unfold sendHealthChecks. destruct (existsb _ _); intros [= <- <- _]; done.
Qed.

Lemma votes_of_mono vt vt' n t vs : vt ⊆ vt' -> votes_of vt n t vs -> votes_of vt' n t vs.
Proof.
  intros Hs [Hn H]. split; [done|]. intros x Hx. destruct (H x Hx). split; [done|].
  by eapply lookup_weaken.
Qed.

Lemma phase_ok_mono vt vt' cs cs' n p :
  vt ⊆ vt' -> (forall t x, counted cs n t x -> counted cs' n t x) ->
  phase_ok vt cs n p -> phase_ok vt' cs' n p.
Proof.
  unfold phase_ok. destruct (phase p); [done|]. intros Hs Hc (H1 & vs & H2 & H3 & H4).
  split; [by eapply lookup_weaken|]. exists vs. split; [by eapply votes_of_mono|]. split; [done|].
  intros x Hx. destruct (H4 x Hx); auto.
Qed.

Lemma counted_update cs k c c' n t x :
  cs !! k = Some c -> c'.(c_req) = c.(c_req) -> c'.(c_voter) = c.(c_voter) ->
  (c.(consumed) = true -> c'.(consumed) = true) ->
  counted cs n t x -> counted (<[k := c']> cs) n t x.
Proof.
  intros Hk H1 H2 H3 (j & d & Hj & E1 & E2 & E3). destruct (decide (j = k)) as [->|Hne].
  - assert (d = c) as -> by congruence. exists k, c'.
    rewrite list_lookup_insert_eq by (by eapply lookup_lt_Some). rewrite H1, H2. auto.
  - exists j, d. by rewrite list_lookup_insert_ne.
Qed.

Lemma distinct_update cs k c c' :
  distinct_calls cs -> cs !! k = Some c -> c'.(c_req) = c.(c_req) -> c'.(c_voter) = c.(c_voter) ->
  distinct_calls (<[k := c']> cs).
Proof.
  intros Hd Hk H1 H2.
  assert (forall j d, <[k := c']> cs !! j = Some d ->
            exists d', cs !! j = Some d' /\ c_req d' = c_req d /\ c_voter d' = c_voter d) as Hl.
  { intros j d Hj. apply list_lookup_insert_Some in Hj as [(-> & -> & _)|[_ Hj]]; eauto. }
  intros i j d1 d2 Hi Hj E1 E2. apply Hl in Hi as (a & Ha & A1 & A2), Hj as (b & Hb & B1 & B2).
  eapply Hd; [exact Ha|exact Hb|congruence..].
Qed.

(** Two quorums of one term share a voter. *)
Lemma quorums_agree vt n1 n2 t vs1 vs2 :
  votes_of vt n1 t vs1 -> votes_of vt n2 t vs2 ->
  quorum <= Z.of_nat (List.length vs1) -> quorum <= Z.of_nat (List.length vs2) -> n1 = n2.
Proof.
  intros [N1 H1] [N2 H2] Q1 Q2.
  destruct (decide (Exists (fun x => x ∈ vs2) vs1)) as [(x & X1 & X2)%Exists_exists|Hno].
  { apply H1 in X1 as [_ X1]. apply H2 in X2 as [_ X2]. congruence. }
  exfalso. assert (NoDup (vs1 ++ vs2)) as Hn.
  { apply NoDup_app. split; [done|]. split; [|done]. intros x X1 X2. apply Hno, Exists_exists. eauto. }
  assert (list_to_set (vs1 ++ vs2) ⊆ members) as Hs.
  { intros x. rewrite elem_of_list_to_set, elem_of_app. intros [X|X]; [by apply H1|by apply H2]. }
  apply subseteq_size in Hs. rewrite size_list_to_set, length_app in Hs by done.
  assert (quorum = Z.of_nat (size members) / 2 + 1) as Eq
    by (unfold quorum; by rewrite Z.shiftr_div_pow2 by lia).
  rewrite Eq in Q1, Q2.
  pose proof (Z.div_mod (Z.of_nat (size members)) 2 ltac:(lia)).
  pose proof (Z.mod_pos_bound (Z.of_nat (size members)) 2 ltac:(lia)). lia.
Qed.

(** ** Every step preserves the invariant *)

Lemma call_ok_mono s s' c :
  (forall n p, s.(procs) !! n = Some p ->
     exists p', s'.(procs) !! n = Some p' /\ (fo_of p.(cl)).(term) <= (fo_of p'.(cl)).(term)) ->
  s.(voted) ⊆ s'.(voted) -> call_ok s c -> call_ok s' c.
Proof.
  intros Hp Hv (H1 & H2 & (p & H3 & H4) & H5). split; [done|]. split; [done|]. split.
  - destruct (Hp _ _ H3) as (p' & ? & ?). exists p'. split; [done|lia].
  - intros r E1 E2. eapply lookup_weaken; [by eapply H5|done].
Qed.

Lemma inv_update s s' n p p' :
  inv s -> s.(procs) !! n = Some p -> s'.(procs) = <[n := p']> s.(procs) ->
  config_ok n p'.(cl) -> (fo_of p.(cl)).(term) <= (fo_of p'.(cl)).(term) ->
  leader_ok s'.(elected) p'.(cl) -> phase_ok s'.(voted) s'.(calls) n p' ->
  s.(voted) ⊆ s'.(voted) ->
  (forall x t c, s'.(voted) !! (x, t) = Some c ->
     s.(voted) !! (x, t) = Some c \/ (x = n /\ t <= (fo_of p'.(cl)).(term))) ->
  (forall m t x, counted s.(calls) m t x -> counted s'.(calls) m t x) ->
  distinct_calls s'.(calls) ->
  (forall k c, s'.(calls) !! k = Some c -> call_ok s c \/ call_ok s' c) ->
  incl s.(elected) s'.(elected) ->
  (forall m t, In (m, t) s'.(elected) -> In (m, t) s.(elected) \/
     (m ∈ members /\ exists vs, votes_of s'.(voted) m t vs /\ quorum <= Z.of_nat (List.length vs))) ->
  (forall h, In h s'.(healths) -> In h s.(healths) \/ In (h.(h_Leader), h.(h_Term)) s'.(elected)) ->
  inv s'.
Proof.
  intros I Hn Hp Hc Ht Hl Hph Hv Hv' Hk Hd Hcs He He' Hh.
  assert (forall m q, s.(procs) !! m = Some q ->
     exists q', s'.(procs) !! m = Some q' /\ (fo_of q.(cl)).(term) <= (fo_of q'.(cl)).(term)) as Hmono.
  { intros m q Hq. rewrite Hp. destruct (decide (n = m)) as [<-|Hne].
    - rewrite lookup_insert_eq. exists p'. split; [done|]. by assert (q = p) as -> by congruence.
    - rewrite lookup_insert_ne by done. by exists q. }
  assert (forall m q, s'.(procs) !! m = Some q -> (m = n /\ q = p') \/ s.(procs) !! m = Some q) as Hcase.
  { intros m q. rewrite Hp. intros [[<- <-]|[_ ?]]%lookup_insert_Some; auto. }
  constructor.
  - intros m q [[-> ->]|Hq]%Hcase; [done|]. by eapply inv_config.
  - intros m q [[-> ->]|Hq]%Hcase; [done|]. eapply phase_ok_mono; [done|intros; by apply Hk|].
    by eapply inv_phase.
  - intros m q [[-> ->]|Hq]%Hcase; [done|]. intros E. apply He. by eapply inv_leader.
  - intros x t c [Hx|[-> Hx]]%Hv'.
    + destruct (inv_term _ I _ _ _ Hx) as (q & Hq & Hle). destruct (Hmono _ _ Hq) as (q' & ? & ?).
      exists q'. split; [done|lia].
    + exists p'. rewrite Hp, lookup_insert_eq. auto.
  - intros k c [Hck|Hck]%Hcs; [|done]. by apply (call_ok_mono s).
  - done.
  - intros m t [[Hm (vs & Hvs & Hq)]%(inv_elected _ I)|Hm]%He'; [|done].
    split; [done|]. exists vs. split; [by eapply votes_of_mono|done].
  - intros h [Hh'|Hh']%Hh; [|done]. apply He. by apply (inv_health _ I).
Qed.

(** A step that only changes the state of one node keeps the rest. *)
Lemma inv_with_proc s n p p' :
  inv s -> s.(procs) !! n = Some p -> config_ok n p'.(cl) ->
  (fo_of p.(cl)).(term) <= (fo_of p'.(cl)).(term) -> leader_ok s.(elected) p'.(cl) ->
  phase_ok s.(voted) s.(calls) n p' -> inv (with_proc s n p').
Proof.
  intros I Hn Hc Ht Hl Hph. apply (inv_update s _ n p p'); simpl; auto.
  - apply (inv_distinct _ I).
  - intros k c Hk. left. by eapply inv_calls.
  - apply incl_refl.
Qed.

Lemma on_tick_same p p' a : on_tick p = (p', a) -> p'.(cl) = p.(cl) /\ p'.(phase) = p.(phase).
Proof.
  unfold on_tick. destruct (String.eqb _ _); [by intros [= <- _]|].
  destruct (_ <=? _); intros [= <- _]; done.
Qed.

Lemma on_health_spec p h p' effs wrong :
  on_health p h = (p', effs, wrong) ->
  p'.(cl).(thisNodeName) = p.(cl).(thisNodeName) /\ p'.(cl).(nodes) = p.(cl).(nodes) /\
  p'.(phase) = p.(phase) /\ (fo_of p.(cl)).(term) <= (fo_of p'.(cl)).(term) /\
  ((fo_of p'.(cl)) = fo_of p.(cl) \/
   (fo_of p'.(cl)).(leader) = h.(h_Leader) /\ (fo_of p'.(cl)).(term) = h.(h_Term)).
Proof.
  unfold on_health. destruct (Z.ltb_spec (h_Term h) (term (fo_of (cl p)))).
  { intros [= <- _ _]. repeat split; [lia|by left]. }
  destruct (negb _); [destruct (rehashSkipped p)|]; intros [= <- _ _]; simpl;
    repeat split; try lia; by right.
Qed.

Lemma inv_health_step s n p h p' effs wrong :
  inv s -> s.(procs) !! n = Some p -> p.(phase) = Idle -> In h s.(healths) ->
  on_health p h = (p', effs, wrong) -> inv (with_proc s n p').
Proof.
  intros I Hn Hi Hh (H1 & H2 & H3 & H4 & H5)%on_health_spec.
  apply (inv_with_proc s n p); [done|done|by eapply config_ok_same; [by eapply inv_config| |]|done| |].
  - destruct H5 as [H5|[H5 H6]]; unfold leader_ok.
    + rewrite H5. by apply (inv_leader _ I n p).
    + rewrite H5, H6. intros _. by apply (inv_health _ I).
  - unfold phase_ok. by rewrite H3, Hi.
Qed.

Lemma inv_end_step s n p i v :
  inv s -> s.(procs) !! n = Some p -> p.(phase) = Electing i v ->
  inv (mkSys (<[n := mkRun (elect_end p.(cl) v) p.(missed) p.(rehashSkipped) Idle]> s.(procs))
         s.(calls) s.(healths) s.(voted)
         (if expectVotes p.(cl) <=? v then (n, (fo_of p.(cl)).(term)) :: s.(elected) else s.(elected))).
Proof.
  intros I Hn Hph. pose proof (inv_config _ I _ _ Hn) as Hc. pose proof (inv_phase _ I _ _ Hn) as Hp.
  unfold phase_ok in Hp. rewrite Hph in Hp. destruct Hp as (H1 & vs & H2 & H3 & _).
  pose proof (config_ok_expect _ _ Hc) as Hq. unfold elect_end.
  destruct (Z.leb_spec (expectVotes (cl p)) v) as [Hle|Hlt].
  - apply (inv_update s _ n p (mkRun (with_term (cl p) (term (fo_of (cl p))) (thisNodeName (cl p))) (missed p) (rehashSkipped p) Idle));
      simpl; auto; try done.
    + intros _. left. simpl. by destruct Hc as (_ & -> & _).
    + apply (inv_distinct _ I).
    + intros k c Hk. left. by eapply inv_calls.
    + intros e He. by right.
    + intros m t [[= <- <-]|Hm]; [|by left]. right. split; [by destruct Hc|].
      exists vs. split; [done|]. lia.
  - apply (inv_with_proc s n p); simpl; try done. by apply (inv_leader _ I n p).
Qed.

Lemma inv_fail_step s k call :
  inv s -> s.(calls) !! k = Some call -> call.(reply) = None ->
  inv (set_calls s (<[k := fail_call call]> s.(calls))).
Proof.
  intros I Hk Hr. constructor; simpl; try apply I.
  - intros n p Hn. eapply phase_ok_mono; [done| |by eapply inv_phase].
    intros t x. by apply (counted_update _ k call).
  - intros j c Hj. apply list_lookup_insert_Some in Hj as [(-> & <- & _)|[_ Hj]]; [|exact (inv_calls _ I _ _ Hj)].
    destruct (inv_calls _ I _ _ Hk) as (A & B & C & _). split; [exact A|split; [exact B|split; [exact C|by intros r [=]]]].
  - apply (distinct_update _ _ call); [apply I|done..].
Qed.

Lemma inv_send_step s n p p' failed c h effs :
  "" ∉ members -> inv s -> s.(procs) !! n = Some p -> on_tick p = (p', SendHealth) ->
  sendHealthChecks failed p'.(cl) = (c, h, effs) ->
  inv (mkSys (<[n := mkRun c p'.(missed) p'.(rehashSkipped) Idle]> s.(procs)) s.(calls)
         (h :: s.(healths)) s.(voted) s.(elected)).
Proof.
  intros Hm I Hn Ht Hs. pose proof (inv_config _ I _ _ Hn) as Hc.
  destruct (on_tick_same _ _ _ Ht) as [E _]. rewrite E in Hs.
  destruct (sendHealthChecks_spec _ _ _ _ _ _ Hc Hs) as (Hc' & Hl & Htm & Hh1 & Hh2).
  apply (inv_update s _ n p (mkRun c (missed p') (rehashSkipped p') Idle)); simpl; auto.
  - by rewrite Htm.
  - unfold leader_ok. rewrite Hl, Htm. by apply (inv_leader _ I n p).
  - done.
  - apply (inv_distinct _ I).
  - intros k d Hk. left. by eapply inv_calls.
  - apply incl_refl.
  - intros h' [<-|Hh']; [|by left]. right. rewrite Hh1, Hh2.
    unfold on_tick in Ht. destruct (String.eqb_spec (leader (fo_of (cl p))) (thisNodeName (cl p))) as [El|].
    + destruct Hc as (Hin & Hname & _). rewrite <- Hname, <- El. apply (inv_leader _ I n p Hn).
      rewrite El, Hname. by intros ->.
    + by destruct (_ <=? _) in Ht.
Qed.

Lemma vote_calls_in n c req k call :
  config_ok n c -> vote_calls req c !! k = Some call ->
  call = mkCall req call.(c_voter) false None false /\ call.(c_voter) ∈ members ∖ {[n]}.
Proof.
  intros Hc Hk. unfold vote_calls in Hk. apply list_elem_of_lookup_2, list_elem_of_In, in_map_iff in Hk as (node & <- & Hin).
  split; [done|]. simpl. by apply (node_list_in _ _ _ Hc).
Qed.

Lemma vote_calls_distinct n c req : config_ok n c -> distinct_calls (vote_calls req c).
Proof.
  intros Hc j k a b Ha Hb _ Ev. pose proof (node_list_names_nodup _ _ Hc) as Hn.
  change (vote_calls req c) with ((fun n => mkCall req (cn_name n) false None false) <$> node_list c) in Ha, Hb.
  change (map cn_name (node_list c)) with (cn_name <$> node_list c) in Hn.
  apply list_lookup_fmap_Some in Ha as (na & -> & Hna), Hb as (nb & -> & Hnb). simpl in Ev.
  eapply (NoDup_lookup (cn_name <$> node_list c)); [done| |].
  - rewrite list_lookup_fmap, Hna. reflexivity.
  - rewrite list_lookup_fmap, Hnb. simpl. by rewrite Ev.
Qed.

Lemma voted_fresh s n p t c :
  inv s -> s.(procs) !! n = Some p -> (fo_of p.(cl)).(term) < t -> s.(voted) !! (n, t) = Some c -> False.
Proof.
  intros I Hn Ht Hv. destruct (inv_term _ I _ _ _ Hv) as (q & Hq & Hle).
  assert (q = p) as -> by congruence. lia.
Qed.

Lemma inv_elect_step s n p p' c req :
  inv s -> s.(procs) !! n = Some p -> on_tick p = (p', StartElection) -> elect_begin p'.(cl) = (c, req) ->
  inv (mkSys (<[n := mkRun c p'.(missed) p'.(rehashSkipped) (Electing 0 1)]> s.(procs))
         (s.(calls) ++ vote_calls req c) s.(healths) (<[(n, req.(vr_Term)) := n]> s.(voted)) s.(elected)).
Proof.
  intros I Hn [E _]%on_tick_same Hb. rewrite E in Hb. injection Hb as <- <-.
  pose proof (inv_config _ I _ _ Hn) as Hc.
  set (t := term (fo_of (cl p)) + 1). set (c := with_term (cl p) t "").
  assert (config_ok n c) as Hc' by (by apply (config_ok_same n (cl p))).
  assert (thisNodeName (cl p) = n) as -> by apply Hc. cbn [vr_Term].
  assert (s.(voted) !! (n, t) = None) as Hfresh.
  { destruct (s.(voted) !! (n, t)) as [x|] eqn:Ev; [|done]. exfalso.
    eapply (voted_fresh s n p t); [done|done|unfold t; lia|done]. }
  apply (inv_update s _ n p (mkRun c (missed p') (rehashSkipped p') (Electing 0 1))); simpl; auto.
  - unfold t. lia.
  - by intros [].
  - split; [apply lookup_insert_eq|]. exists [n]. split; [|split; [done|set_solver]].
    split; [apply NoDup_singleton|]. intros x ->%list_elem_of_singleton. split; [apply Hc|apply lookup_insert_eq].
  - by apply insert_subseteq.
  - intros x u d [[[= <- <-] <-]|[_ H]]%lookup_insert_Some; [right; split; [done|lia]|by left].
  - intros m u x (k & d & Hk & H). exists k, d. split; [by apply lookup_app_l_Some|done].
  - intros j k a b Ha Hb' Er Ev.
    apply lookup_app_Some in Ha as [Ha|[Lj Ha]], Hb' as [Hb'|Hb'].
    + by eapply (inv_distinct _ I).
    + exfalso. destruct Hb' as [_ Hb']. apply (vote_calls_in n) in Hb' as [Hb' _]; [|done].
      destruct (inv_calls _ I _ _ Ha) as (_ & _ & (q & Hq & Hle) & _).
      rewrite Er, Hb' in Hq, Hle. simpl in Hq, Hle. assert (q = p) as -> by congruence. unfold t in Hle. lia.
    + exfalso. apply (vote_calls_in n) in Ha as [Ha _]; [|done].
      destruct (inv_calls _ I _ _ Hb') as (_ & _ & (q & Hq & Hle) & _).
      rewrite <- Er, Ha in Hq, Hle. simpl in Hq, Hle. assert (q = p) as -> by congruence. unfold t in Hle. lia.
    + destruct Hb' as [Lk Hb'].
      assert (j - length (calls s) = k - length (calls s))%nat; [|lia].
      eapply (vote_calls_distinct n); [exact Hc'|exact Ha|exact Hb'|done|done].
  - intros k d [Hk|[_ Hk]]%lookup_app_Some; [left; by eapply inv_calls|right].
    apply (vote_calls_in n) in Hk as [-> Hk]; [|done]. split; [simpl; set_solver|]. split; [simpl; set_solver|].
    split; [|by intros r [=]]. simpl. eexists. split; [apply lookup_insert_eq|done].
  - apply incl_refl.
Qed.

Lemma inv_vote_step s n p k call c r :
  inv s -> s.(procs) !! n = Some p -> p.(phase) = Idle ->
  s.(calls) !! k = Some call -> call.(c_voter) = n -> on_vote p.(cl) call.(c_req) = (c, r) ->
  inv (mkSys (<[n := mkRun c p.(missed) p.(rehashSkipped) Idle]> s.(procs)) (<[k := answer call r]> s.(calls))
         s.(healths)
         (if r.(vs_Result) then <[(n, call.(c_req).(vr_Term)) := call.(c_req).(vr_Node)]> s.(voted)
          else s.(voted)) s.(elected)).
Proof.
  intros I Hn Hi Hk Hvn Hv. pose proof (inv_config _ I _ _ Hn) as Hc.
  assert (forall m t x, counted (calls s) m t x -> counted (<[k:=answer call r]> (calls s)) m t x) as Hcnt
    by (intros m t x; by apply (counted_update _ k call)).
  assert (distinct_calls (<[k:=answer call r]> (calls s))) as Hdist
    by (apply (distinct_update _ _ call); [apply I|done..]).
  set (req := c_req call) in *.
  assert (voted s ⊆ (if vs_Result r then <[(n, vr_Term req) := vr_Node req]> (voted s) else voted s) /\
          config_ok n c /\ term (fo_of (cl p)) <= term (fo_of c) /\ leader_ok (elected s) c /\
          (vs_Result r = true -> vr_Term req <= term (fo_of c))) as (Hsub & Hc' & Ht & Hl & Hres).
  { unfold on_vote in Hv. destruct (Z.ltb_spec (term (fo_of (cl p))) (vr_Term req)) as [Hlt|Hge];
      injection Hv as <- <-; simpl.
    - split; [|split; [by apply (config_ok_same n (cl p))|split; [lia|split; [by intros []|lia]]]].
      apply insert_subseteq. destruct (voted s !! (n, vr_Term req)) eqn:E; [|done].
      exfalso. by eapply (voted_fresh s n p).
    - split; [done|]. split; [done|]. split; [lia|]. split; [by apply (inv_leader _ I n p)|done]. }
  apply (inv_update s _ n p (mkRun c (missed p) (rehashSkipped p) Idle)); simpl; auto; try done.
  - intros x t d H. destruct (vs_Result r); [|by left].
    apply lookup_insert_Some in H as [[[= <- <-] <-]|[_ H]]; [right; split; [done|by apply Hres]|by left].
  - intros j d Hj. apply list_lookup_insert_Some in Hj as [(-> & <- & _)|[_ Hj]]; [right|left; by eapply inv_calls].
    destruct (inv_calls _ I _ _ Hk) as (A & B & (q & Hq & Hle) & D). split; [done|]. split; [done|]. split.
    + simpl. fold req in Hq, Hle |- *. destruct (decide (vr_Node req = n)) as [Eq|Hne].
      * exfalso. apply B. rewrite Hvn. symmetry. exact Eq.
      * exists q. by rewrite lookup_insert_ne.
    + simpl. intros r' Hr' Htrue. fold req. destruct (reply call) as [x|] eqn:Er.
      * eapply lookup_weaken; [apply (D r'); [by injection Hr' as ->|done]|done].
      * injection Hr' as <-. rewrite Htrue, Hvn. apply lookup_insert_eq.
  - apply incl_refl.
Qed.

Lemma on_reply_count c r i v i' v' :
  on_reply c r i v = (i', v') ->
  v' = 0 \/ v' = v \/ (v' = v + 1 /\ exists resp, r = Some resp /\ resp.(vs_Result) = true).
Proof.
  unfold on_reply. destruct r as [r|]; [|intros [= _ <-]; auto].
  destruct (vs_Result r) eqn:E; [intros [= _ <-]; eauto 6|].
  destruct (_ <? _); intros [= _ <-]; auto.
Qed.

Lemma inv_reply_step s n p i v k call r i' v' :
  inv s -> s.(procs) !! n = Some p -> p.(phase) = Electing i v ->
  s.(calls) !! k = Some call -> call.(c_req) = mkVoteReq n (fo_of p.(cl)).(term) ->
  call.(reply) = Some r -> call.(consumed) = false -> on_reply p.(cl) r i v = (i', v') ->
  inv (set_calls (with_proc s n (mkRun p.(cl) p.(missed) p.(rehashSkipped) (Electing i' v')))
         (<[k := consume call]> s.(calls))).
Proof.
  intros I Hn Hph Hk Hreq Hr Hcon Hon. pose proof (inv_config _ I _ _ Hn) as Hc.
  pose proof (inv_phase _ I _ _ Hn) as Hp. unfold phase_ok in Hp. rewrite Hph in Hp.
  destruct Hp as (H1 & vs & [Hnd H2] & H3 & H4). destruct (inv_calls _ I _ _ Hk) as (A & B & C & D).
  rewrite Hreq in B, C, D. simpl in B, C, D.
  assert (forall m t x, counted (calls s) m t x -> counted (<[k:=consume call]> (calls s)) m t x) as Hcnt
    by (intros m t x; by apply (counted_update _ k call)).
  apply (inv_update s _ n p (mkRun (cl p) (missed p) (rehashSkipped p) (Electing i' v'))); simpl; auto; try done.
  - by apply (inv_leader _ I n p).
  - split; [done|]. apply on_reply_count in Hon as [->|[->|(-> & resp & -> & Hyes)]].
    + exists vs. split; [done|]. split; [lia|]. intros x Hx. destruct (H4 x Hx); auto.
    + exists vs. split; [done|]. split; [lia|]. intros x Hx. destruct (H4 x Hx); auto.
    + exists (c_voter call :: vs). split; [|split; [cbn [List.length]; lia|]].
      * split.
        { apply NoDup_cons. split; [|done]. intros Hin. destruct (H4 _ Hin) as [E|(j & d & Hj & E1 & E2 & E3)]; [done|].
          assert (j = k) as -> by (eapply (inv_distinct _ I); [exact Hj|exact Hk|congruence|done]).
          congruence. }
        intros x [->|Hx]%elem_of_cons; [|by apply H2]. split; [done|]. by apply (D resp).
      * intros x [->|Hx]%elem_of_cons; [right|destruct (H4 x Hx); auto].
        exists k, (consume call). rewrite list_lookup_insert_eq by (by eapply lookup_lt_Some). by repeat split.
  - apply (distinct_update _ _ call); [apply I|done..].
  - intros j d Hj. left. apply list_lookup_insert_Some in Hj as [(-> & <- & _)|[_ Hj]]; [|exact (inv_calls _ I _ _ Hj)].
    exact (inv_calls _ I _ _ Hk).
  - apply incl_refl.
Qed.

Lemma inv_step s s' : "" ∉ members -> inv s -> cstep s s' -> inv s'.
Proof.
  intros Hm I Hs. destruct Hs.
  - apply on_tick_same in H1 as [E1 E2]. apply (inv_with_proc s n p); rewrite ?E1; auto.
    + by eapply inv_config.
    + done.
    + by apply (inv_leader _ I n p).
    + unfold phase_ok. by rewrite E2, H0.
  - by eapply inv_send_step.
  - by eapply inv_elect_step.
  - by eapply inv_vote_step.
  - by apply inv_fail_step.
  - by eapply inv_reply_step.
  - apply (inv_with_proc s n p); simpl; auto; [by eapply inv_config|done|by apply (inv_leader _ I n p)|].
    pose proof (inv_phase _ I _ _ H) as Hp. unfold phase_ok in *. by rewrite H0 in Hp.
  - by eapply inv_end_step.
  - by eapply inv_health_step.
Qed.

(** The cluster when its nodes start: nobody has voted or leads. *)
Definition initial (s : Sys) : Prop :=
  (forall n p, s.(procs) !! n = Some p ->
     config_ok n p.(cl) /\ (fo_of p.(cl)).(leader) = "" /\ p.(phase) = Idle) /\
  s.(calls) = [] /\ s.(healths) = [] /\ s.(voted) = ∅ /\ s.(elected) = [].

Lemma inv_initial s : initial s -> inv s.
Proof.
  intros (Hp & Hc & Hh & Hv & He). constructor; rewrite ?Hc, ?Hh, ?Hv, ?He; try done.
  - intros n p Hn. by apply Hp.
  - intros n p Hn. unfold phase_ok. by destruct (Hp n p Hn) as (_ & _ & ->).
  - intros n p Hn E. by destruct (Hp n p Hn) as (_ & E' & _).
Qed.

Lemma inv_reachable s0 s : "" ∉ members -> initial s0 -> steps cstep s0 s -> inv s.
Proof.
  intros Hm H0. apply (steps_invariant cstep inv); [by apply inv_initial|].
  intros a b Ha. by apply inv_step.
Qed.

Lemma elected_unique s n1 n2 t :
  inv s -> In (n1, t) s.(elected) -> In (n2, t) s.(elected) -> n1 = n2.
Proof.
  intros I (_ & vs1 & V1 & Q1)%(inv_elected _ I) (_ & vs2 & V2 & Q2)%(inv_elected _ I).
  by eapply (quorums_agree (voted s) n1 n2 t vs1 vs2).
Qed.

(** C4: in every reachable state of the cluster at most one node has been elected in each term, however
    votes, failures and time-outs are interleaved. *)
Theorem one_leader_per_term s0 s n1 n2 t :
  "" ∉ members -> initial s0 -> steps cstep s0 s ->
  In (n1, t) s.(elected) -> In (n2, t) s.(elected) -> n1 = n2.
Proof. intros Hm H0 Hs. apply elected_unique. by eapply inv_reachable. Qed.

(** the nodes of one term never disagree on its leader: any leader a node follows was elected in the
    node's term, two nodes of a term that follow a leader follow the same one, and the
    "wrong leader" branch of the health handler is never taken. *)
Theorem leaders_agree s0 s n1 n2 p1 p2 h :
  "" ∉ members -> initial s0 -> steps cstep s0 s ->
  s.(procs) !! n1 = Some p1 -> s.(procs) !! n2 = Some p2 -> In h s.(healths) ->
  let f1 := fo_of p1.(cl) in let f2 := fo_of p2.(cl) in
  (f1.(leader) <> "" -> In (f1.(leader), f1.(term)) s.(elected)) /\
  (f1.(term) = f2.(term) -> f1.(leader) <> "" -> f2.(leader) <> "" -> f1.(leader) = f2.(leader)) /\
  (on_health p1 h).2 = false.
Proof.
  intros Hm H0 Hs H1 H2 Hh f1 f2. assert (inv s) as I by (by eapply inv_reachable).
  split; [by apply (inv_leader _ I n1 p1)|]. split.
  - intros Et L1 L2. eapply (elected_unique s _ _ (f1.(term))); [done|by apply (inv_leader _ I n1 p1)|].
    rewrite Et. by apply (inv_leader _ I n2 p2).
  - unfold on_health. destruct (Z.ltb_spec (h_Term h) (term (fo_of (cl p1)))); [done|].
    assert ((h_Term h =? term (fo_of (cl p1))) && negb (String.eqb (h_Leader h) (leader (fo_of (cl p1)))) &&
            negb (String.eqb (leader (fo_of (cl p1))) "") = false) as E.
    { destruct (Z.eqb_spec (h_Term h) (term (fo_of (cl p1)))) as [E|]; [|done].
      destruct (String.eqb_spec (leader (fo_of (cl p1))) "") as [|Hl]; [by rewrite andb_false_r|].
      destruct (String.eqb_spec (h_Leader h) (leader (fo_of (cl p1)))) as [|Hne]; [done|].
      exfalso. apply Hne. eapply (elected_unique s _ _ (h_Term h)); [done|by apply (inv_health _ I)|].
      rewrite E. by apply (inv_leader _ I n1 p1). }
    cbv zeta. rewrite E.
    destruct (negb (String.eqb (h_Signature h) _)); [destruct (rehashSkipped p1)|]; done.
Qed.
End Invariant.

(** ** Executable runs *)

Inductive Event :=
| ETick (n : string) | EVote (k : nat) | EFail (k : nat) | EReply (k : nat)
| ETimeout (n : string) | EEnd (n : string) | EHealth (n : string) (j : nat).

(** The step an event names, with every health call succeeding. *)
Definition exec (s : Sys) (e : Event) : option Sys :=
  match e with
  | ETick n =>
      p ← s.(procs) !! n; match p.(phase) with Electing _ _ => None | Idle =>
        match on_tick p with
        | (p', Wait) => Some (with_proc s n p')
        | (p', SendHealth) =>
            let '(c, h, _) := sendHealthChecks (fun _ => false) p'.(cl) in
            Some (mkSys (<[n := mkRun c p'.(missed) p'.(rehashSkipped) Idle]> s.(procs)) s.(calls)
                    (h :: s.(healths)) s.(voted) s.(elected))
        | (p', StartElection) =>
            let '(c, req) := elect_begin p'.(cl) in
            Some (mkSys (<[n := mkRun c p'.(missed) p'.(rehashSkipped) (Electing 0 1)]> s.(procs))
                    (s.(calls) ++ vote_calls req c) s.(healths)
                    (<[(n, req.(vr_Term)) := n]> s.(voted)) s.(elected))
        end end
  | EVote k =>
      call ← s.(calls) !! k; p ← s.(procs) !! call.(c_voter);
      match p.(phase), call.(handled) with
      | Idle, false =>
          let '(c, r) := on_vote p.(cl) call.(c_req) in
          Some (mkSys (<[call.(c_voter) := mkRun c p.(missed) p.(rehashSkipped) Idle]> s.(procs))
                  (<[k := answer call r]> s.(calls)) s.(healths)
                  (if r.(vs_Result)
                   then <[(call.(c_voter), call.(c_req).(vr_Term)) := call.(c_req).(vr_Node)]> s.(voted)
                   else s.(voted)) s.(elected))
      | _, _ => None
      end
  | EFail k =>
      call ← s.(calls) !! k;
      match call.(reply) with None => Some (set_calls s (<[k := fail_call call]> s.(calls))) | _ => None end
  | EReply k =>
      call ← s.(calls) !! k; p ← s.(procs) !! call.(c_req).(vr_Node);
      match p.(phase), call.(reply), call.(consumed) with
      | Electing i v, Some r, false =>
          if elect_continues p.(cl) i v && (call.(c_req).(vr_Term) =? (fo_of p.(cl)).(term)) then
            let '(i', v') := on_reply p.(cl) r i v in
            Some (set_calls (with_proc s call.(c_req).(vr_Node)
                   (mkRun p.(cl) p.(missed) p.(rehashSkipped) (Electing i' v'))) (<[k := consume call]> s.(calls)))
          else None
      | _, _, _ => None
      end
  | ETimeout n =>
      p ← s.(procs) !! n;
      match p.(phase) with
      | Electing i v =>
          if elect_continues p.(cl) i v
          then Some (with_proc s n (mkRun p.(cl) p.(missed) p.(rehashSkipped) (Electing (nodeCount p.(cl)) v)))
          else None
      | Idle => None
      end
  | EEnd n =>
      p ← s.(procs) !! n;
      match p.(phase) with
      | Electing i v =>
          if elect_continues p.(cl) i v then None
          else Some (mkSys (<[n := mkRun (elect_end p.(cl) v) p.(missed) p.(rehashSkipped) Idle]> s.(procs))
                  s.(calls) s.(healths) s.(voted)
                  (if expectVotes p.(cl) <=? v then (n, (fo_of p.(cl)).(term)) :: s.(elected) else s.(elected)))
      | Idle => None
      end
  | EHealth n j =>
      p ← s.(procs) !! n; h ← s.(healths) !! j;
      match p.(phase) with
      | Idle => if String.eqb h.(h_Leader) n then None else Some (with_proc s n (on_health p h).1.1)
      | Electing _ _ => None
      end
  end.

Fixpoint exec_all (s : Sys) (es : list Event) : option Sys :=
  match es with [] => Some s | e :: es' => s' ← exec s e; exec_all s' es' end.

Lemma exec_sound s e s' : exec s e = Some s' -> cstep s s'.
Proof.
  destruct e as [n|k|k|k|n|n|n j]; simpl; intros H.
  - apply bind_Some in H as (p & Hn & H). destruct (phase p) eqn:Ep; [|done].
    destruct (on_tick p) as [p' [| |]] eqn:Et.
    + destruct (sendHealthChecks _ _) as [[c h] effs] eqn:Es. injection H as <-. by eapply c_send.
    + injection H as <-. by eapply c_elect.
    + injection H as <-. by eapply c_wait.
  - apply bind_Some in H as (call & Hk & H). apply bind_Some in H as (p & Hn & H).
    destruct (phase p) eqn:Ep; [|done]. destruct (handled call) eqn:Eh; [done|].
    destruct (on_vote _ _) as [c r] eqn:Ev. injection H as <-. by eapply c_vote.
  - apply bind_Some in H as (call & Hk & H). destruct (reply call) eqn:Er; [done|].
    injection H as <-. by eapply c_fail.
  - apply bind_Some in H as (call & Hk & H). apply bind_Some in H as (p & Hn & H).
    destruct (phase p) as [|i v] eqn:Ep; [done|]. destruct (reply call) as [r|] eqn:Er; [|done].
    destruct (consumed call) eqn:Ec; [done|]. destruct (_ && _) eqn:Ee; [|done].
    apply andb_true_iff in Ee as [E1 E2%Z.eqb_eq].
    destruct (on_reply _ _ _ _) as [i' v'] eqn:Eo. injection H as <-. eapply c_reply; try done.
    rewrite <- E2. by destruct (c_req call).
  - apply bind_Some in H as (p & Hn & H). destruct (phase p) as [|i v] eqn:Ep; [done|].
    destruct (elect_continues _ _ _) eqn:Ee; [|done]. injection H as <-. by eapply c_timeout.
  - apply bind_Some in H as (p & Hn & H). destruct (phase p) as [|i v] eqn:Ep; [done|].
    destruct (elect_continues _ _ _) eqn:Ee; [done|]. injection H as <-. by eapply c_end.
  - apply bind_Some in H as (p & Hn & H). apply bind_Some in H as (h & Hj & H).
    destruct (phase p) eqn:Ep; [|done]. destruct (String.eqb_spec (h_Leader h) n) as [|Hne]; [done|].
    injection H as <-. destruct (on_health p h) as [[p' effs] w] eqn:Eo.
    eapply c_health; try done. apply list_elem_of_In. by eapply list_elem_of_lookup_2.
Qed.

Lemma exec_all_sound s es s' : exec_all s es = Some s' -> steps cstep s s'.
Proof.
  revert s. induction es as [|e es IH]; simpl; intros s H; [injection H as <-; constructor|].
  apply bind_Some in H as (s1 & H1 & H2). eapply steps_trans; [|by apply IH].
  apply steps_one. by apply exec_sound in H1.
Qed.

(** A cluster of three nodes [a], [b], [c] with a vote time-out of one beat. *)
Definition abc : gset string := {["a"; "b"; "c"]}.
Definition abc_cluster (n : string) : Cluster :=
  mkCluster "c1" (set_to_map (fun k => (k, mkNode k 0)) (abc ∖ {[n]})) n (NewRing 1 None) None 0
    (Some (mkFailover "" 0 1 ["a"; "b"; "c"] 2)).
Definition abc_start : Sys :=
  mkSys (set_to_map (fun n => (n, mkRun (abc_cluster n) 0 false Idle)) abc) [] [] ∅ [].

Lemma abc_config n : n ∈ abc -> config_ok abc n (abc_cluster n).
Proof.
  intros Hn. split; [done|]. split; [done|]. simpl. split.
  - apply set_eq. intros k. rewrite elem_of_dom. split.
    + intros [m Hm]. apply lookup_set_to_map in Hm as (x & Hx & [= <- _]); [done|by intros ? ? ? ? [= ]].
    + intros Hk. exists (mkNode k 0). apply lookup_set_to_map; [by intros ? ? ? ? [=]|]. eauto.
  - intros k node Hm. apply lookup_set_to_map in Hm as (x & Hx & [= <- <-]); [done|by intros ? ? ? ? [=]].
Qed.

Lemma abc_initial : initial abc abc_start.
Proof.
  split; [|done]. intros n p Hp. simpl in Hp.
  apply lookup_set_to_map in Hp as (x & Hx & [= <- <-]); [|by intros ? ? ? ? [=]].
  split; [by apply abc_config|done].
Qed.

(** [a] is elected, tells the others, and [b] follows it. *)
Definition abc_run : list Event := [ETick "a"; EVote 0; EReply 0; EEnd "a"; ETick "a"; EHealth "c" 0].
Definition abc_end : Sys := default abc_start (exec_all abc_start abc_run).

Lemma abc_reachable : steps cstep abc_start abc_end.
Proof. apply (exec_all_sound _ abc_run). vm_compute. reflexivity. Qed.

Lemma abc_no_empty : "" ∉ abc.
Proof. by apply (bool_decide_unpack _). Qed.

Lemma one_leader_per_term_witness :
  In ("a", 1) abc_end.(elected) /\ forall n, In (n, 1) abc_end.(elected) -> n = "a".
Proof.
  split; [vm_compute; by left|]. intros n Hn.
  apply (one_leader_per_term abc abc_start abc_end n "a" 1);
    [apply abc_no_empty|apply abc_initial|apply abc_reachable|exact Hn|vm_compute; by left].
Defined.

Lemma leaders_agree_witness :
  exists pa pc h, abc_end.(procs) !! "a" = Some pa /\ abc_end.(procs) !! "c" = Some pc /\
    In h abc_end.(healths) /\ (fo_of pa.(cl)).(leader) = (fo_of pc.(cl)).(leader) /\ (on_health pc h).2 = false.
Proof.
  destruct (abc_end.(procs) !! "a") as [pa|] eqn:Ea; [|exfalso; revert Ea; vm_compute; discriminate].
  destruct (abc_end.(procs) !! "c") as [pc|] eqn:Ec; [|exfalso; revert Ec; vm_compute; discriminate].
  destruct (abc_end.(healths)) as [|h l] eqn:Eh; [exfalso; revert Eh; vm_compute; discriminate|].
  assert (In h abc_end.(healths)) as Hh by (rewrite Eh; by left).
  exists pa, pc, h. split; [done|]. split; [done|]. split; [by left|].
  pose proof (leaders_agree abc abc_start abc_end "a" "c" pa pc h abc_no_empty abc_initial abc_reachable Ea Ec Hh) as (_ & H & _).
  pose proof (leaders_agree abc abc_start abc_end "c" "a" pc pa h abc_no_empty abc_initial abc_reachable Ec Ea Hh) as (_ & _ & H').
  split; [|exact H']. apply H.
  - revert Ea Ec. vm_compute. by intros [= <-] [= <-].
  - revert Ea. vm_compute. by intros [= <-].
  - revert Ec. vm_compute. by intros [= <-].
Defined.

(** ** The leader's list of live nodes *)

(** The active nodes are this node and the nodes below the failure limit. *)
Definition active_tracks (c : Cluster) : Prop :=
  forall name, In name (fo_of c).(activeNodes) <->
    name = c.(thisNodeName) \/
    exists node, c.(nodes) !! name = Some node /\ node.(failCount) < (fo_of c).(nodeFailCountLimit).

Lemma in_active members n c limit name :
  config_ok members n c ->
  In name (map cn_name (List.filter (fun nd => nd.(failCount) <? limit) (node_list c))) <->
  exists node, c.(nodes) !! name = Some node /\ node.(failCount) < limit.
Proof.
  intros Hc. rewrite in_map_iff. split.
  - intros (node & <- & [Hin Hf]%filter_In). exists node. apply Z.ltb_lt in Hf. split; [|done].
    by apply (node_list_in members n).
  - intros (node & Hn & Hf). exists node. destruct Hc as (_ & _ & _ & Hk).
    split; [by apply Hk|]. apply filter_In. split; [|by apply Z.ltb_lt].
    apply in_map_iff. exists (name, node). split; [done|]. by apply list_elem_of_In, elem_of_map_to_list.
Qed.

Lemma no_rehash_same limit failed (m : gmap string ClusterNode) name :
  (forall k node, m !! k = Some node -> (check_node limit (failed node.(cn_name)) node).2 = false) ->
  0 < limit ->
  (exists node, m !! name = Some node /\ node.(failCount) < limit) <->
  (exists node, ((fun nd => (check_node limit (failed nd.(cn_name)) nd).1) <$> m) !! name = Some node /\
     node.(failCount) < limit).
Proof.
  intros H Hl. rewrite lookup_fmap. destruct (m !! name) as [node|] eqn:E; simpl;
    [|by split; intros (? & ? & _)].
  specialize (H _ _ E). unfold check_node in *. destruct (failed _); simpl in *; to_prop.
  - split; intros (x & [= <-] & Hx); eexists; (split; [done|]); simpl in *; lia.
  - split; intros (x & [= <-] & Hx); eexists; (split; [done|]); simpl in *; lia.
Qed.

(** a leader's list of active nodes is exactly itself and the nodes whose consecutive failures are
    below the limit: each round of health checks restores that from the answers it
    got, counts one more failure for each failed call and clears the count of every other node;
    the ring and the notified nodes change only with the list. *)
Theorem health_checks_track_failures members n c failed c' h effs :
  config_ok members n c -> 0 < (fo_of c).(nodeFailCountLimit) -> active_tracks c ->
  sendHealthChecks failed c = (c', h, effs) ->
  active_tracks c' /\
  (forall k node, c.(nodes) !! k = Some node ->
     c'.(nodes) !! k = Some (mkNode k (if failed k then node.(failCount) + 1 else 0))) /\
  h.(h_Nodes) = (fo_of c).(activeNodes) /\
  match effs with
  | [] => c'.(ring) = c.(ring) /\ fo_of c' = fo_of c
  | _ :: _ => c'.(ring) = Add (NewRing clusterHashReplicas None) (fo_of c').(activeNodes)
  end.
Proof.
  intros Hc Hl Ha. unfold sendHealthChecks.
  set (chk := fun nd => (check_node (nodeFailCountLimit (fo_of c)) (failed (cn_name nd)) nd).1).
  pose proof Hc as (Hin & Hname & Hdom & Hk).
  assert (config_ok members n (set_nodes c (chk <$> nodes c))) as Hc'.
  { split; [done|]. split; [done|]. simpl. split; [by rewrite dom_fmap_L|].
    intros k node. rewrite lookup_fmap, fmap_Some. intros (m & Hm & ->). apply Hk in Hm as <-.
    unfold chk, check_node. by destruct (failed _). }
  assert (forall k node, nodes c !! k = Some node ->
     (chk <$> nodes c) !! k = Some (mkNode k (if failed k then failCount node + 1 else 0))) as Hcount.
  { intros k node Hn. rewrite lookup_fmap, Hn. simpl. unfold chk, check_node.
    apply Hk in Hn as ->. by destruct (failed k). }
  destruct (existsb _ _) eqn:Er; intros [= <- <- <-]; (split; [|split; [exact Hcount|done]]).
  - intros name. change (In name (thisNodeName c :: map cn_name
        (List.filter (fun nd => failCount nd <? nodeFailCountLimit (fo_of c)) (node_list (set_nodes c (chk <$> nodes c))))) <->
      name = thisNodeName c \/ exists node, (chk <$> nodes c) !! name = Some node /\
        failCount node < nodeFailCountLimit (fo_of c)).
    simpl. rewrite (in_active members n) by done. simpl. split; (intros [H|H]; [by left|by right]).
  - intros name. rewrite (Ha name). apply or_iff_compat_l, no_rehash_same; [|done].
    intros k node Hn. apply not_true_iff_false. intros Ht. apply not_true_iff_false in Er. apply Er.
    apply existsb_exists. exists node. split; [|done]. apply in_map_iff. exists (k, node).
    split; [done|]. by apply list_elem_of_In, elem_of_map_to_list.
Qed.

Lemma health_checks_track_failures_witness :
  let c := abc_cluster "a" in
  active_tracks c /\ active_tracks (sendHealthChecks (fun _ => true) c).1.1.
Proof.
  assert (active_tracks (abc_cluster "a")) as Ha.
  { intros name. split.
    - intros [<-|[<-|[<-|[]]]]; [by left|right|right]; eexists; (split; [vm_compute; reflexivity|done]).
    - intros [->|(node & Hn & _)]; [by left|].
      assert (name ∈ dom (nodes (abc_cluster "a"))) as Hd by (by apply elem_of_dom_2 in Hn).
      destruct (abc_config "a") as (_ & _ & E & _); [by apply (bool_decide_unpack _)|].
      rewrite E in Hd. simpl. set_solver. }
  split; [exact Ha|].
  apply (health_checks_track_failures abc "a" (abc_cluster "a") (fun _ => true) _
    (sendHealthChecks (fun _ => true) (abc_cluster "a")).1.2 (sendHealthChecks (fun _ => true) (abc_cluster "a")).2);
    [apply abc_config; by apply (bool_decide_unpack _)|reflexivity|exact Ha|].
  by destruct (sendHealthChecks _ _) as [[? ?] ?].
Defined.

(** ** What a follower learns about a partition *)

(** A step in which node [n] is not the leader it believes in. *)
Definition follower_step (n : string) (s s' : Sys) : Prop :=
  cstep s s' /\ forall p, s.(procs) !! n = Some p -> (fo_of p.(cl)).(leader) <> p.(cl).(thisNodeName).

Lemma isPartitioned_same c c' :
  c'.(controlPlane) = c.(controlPlane) -> c'.(nodes) = c.(nodes) ->
  (is_Some c.(fo) <-> is_Some c'.(fo)) -> (fo_of c').(activeNodes) = (fo_of c).(activeNodes) ->
  isPartitioned (Some c') = isPartitioned (Some c).
Proof.
  unfold isPartitioned, fo_of. intros -> -> H1 H2. destruct (controlPlane c); [done|].
  destruct (fo c) as [f|], (fo c') as [f'|]; simpl in *; [by rewrite H2| | |done];
    destruct H1 as [A B]; [destruct A; eauto; done|destruct B; eauto; done].
Qed.

Lemma on_health_partition p h p' effs w :
  is_Some p.(cl).(fo) -> on_health p h = (p', effs, w) ->
  is_Some p'.(cl).(fo) /\ isPartitioned (Some p'.(cl)) = isPartitioned (Some p.(cl)).
Proof.
  intros Hf. unfold on_health. destruct (_ <? _); [by intros [= <- _ _]|].
  destruct (negb _); [destruct (rehashSkipped p)|]; intros [= <- _ _];
    (split; [done|]); by apply isPartitioned_same.
Qed.

Definition part_inv (n : string) (b : bool) (s : Sys) : Prop :=
  exists p, s.(procs) !! n = Some p /\ is_Some p.(cl).(fo) /\ isPartitioned (Some p.(cl)) = b.

Lemma part_inv_other n m b s p' cs hs vt el :
  n <> m -> part_inv n b s -> part_inv n b (mkSys (<[m := p']> s.(procs)) cs hs vt el).
Proof. intros Hne (p & Hp & H). exists p. simpl. by rewrite lookup_insert_ne. Qed.

Lemma part_inv_self n b s p p' cs hs vt el :
  s.(procs) !! n = Some p -> part_inv n b s -> is_Some p'.(cl).(fo) ->
  (is_Some p.(cl).(fo) -> isPartitioned (Some p'.(cl)) = isPartitioned (Some p.(cl))) ->
  part_inv n b (mkSys (<[n := p']> s.(procs)) cs hs vt el).
Proof.
  intros Hn (q & Hq & Hf & <-) Hs He. assert (q = p) as -> by congruence.
  exists p'. simpl. rewrite lookup_insert_eq. auto.
Qed.

Lemma follower_step_partition n b s s' : follower_step n s s' -> part_inv n b s -> part_inv n b s'.
Proof.
  intros [Hs Hnl] Hi. assert (forall p, procs s !! n = Some p -> is_Some (fo (cl p))) as Hf.
  { intros p Hp. destruct Hi as (q & Hq & Hf & _). by assert (p = q) as -> by congruence. }
  destruct Hs as [m p p' Hm Hph Ht|m p p' failed c h effs Hm Hph Ht Hh|m p p' c req Hm Hph Ht Hb
    |m p k call c r Hm Hph Hk Hv Hhd Ho|k call Hk Hr|m p i v k call r i' v' Hm Hph He Hk Hrq Hr Hcn Ho
    |m p i v Hm Hph He|m p i v Hm Hph He|m p h p' effs w Hm Hph Hin Hl Ho].
  all: try (destruct (decide (n = m)) as [<-|Hne]; [|by apply part_inv_other]).
  all: try (apply (part_inv_self n b s p); [exact Hm|exact Hi| |]).
  - apply on_tick_same in Ht as [-> _]. exact (Hf p Hm).
  - apply on_tick_same in Ht as [-> _]. done.
  - exfalso. unfold on_tick in Ht. destruct (String.eqb_spec (leader (fo_of (cl p))) (thisNodeName (cl p))) as [E|].
    + by apply (Hnl p Hm).
    + by destruct (_ <=? _) in Ht.
  - exfalso. unfold on_tick in Ht. destruct (String.eqb_spec (leader (fo_of (cl p))) (thisNodeName (cl p))) as [E|].
    + by apply (Hnl p Hm).
    + by destruct (_ <=? _) in Ht.
  - injection Hb as <- _. done.
  - apply on_tick_same in Ht as [Ht _]. injection Hb as <- _. intros ?. rewrite Ht. by apply isPartitioned_same.
  - unfold on_vote in Ho. destruct (_ <? _) in Ho; injection Ho as <- _; [done|exact (Hf p Hm)].
  - unfold on_vote in Ho. destruct (_ <? _) in Ho; injection Ho as <- _; intros ?; [by apply isPartitioned_same|done].
  - destruct Hi as (p & Hp & H). by exists p.
  - exact (Hf p Hm).
  - done.
  - exact (Hf p Hm).
  - done.
  - cbn [cl]. unfold elect_end. destruct (_ <=? _); [done|exact (Hf p Hm)].
  - intros ?. cbn [cl]. unfold elect_end. destruct (_ <=? _); [by apply isPartitioned_same|done].
  - by eapply on_health_partition; [apply Hf|].
  - intros ?. by eapply on_health_partition.
Qed.

(** without a control plane a node that is not the leader never finds out that it is in a minority: while it
    follows or stands for election, whatever it is told or not told, [isPartitioned] keeps
    the answer it had, and [failoverInit] makes that answer false. *)
Theorem follower_never_partitioned config c c0 n s0 s p0 :
  c.(controlPlane) = None -> failoverInit c (Some config) = (c0, true) ->
  s0.(procs) !! n = Some p0 -> p0.(cl) = c0 -> steps (follower_step n) s0 s ->
  exists p, s.(procs) !! n = Some p /\ isPartitioned (Some p.(cl)) = false.
Proof.
  intros Hcp Hi Hp Hc Hs.
  assert (part_inv n false s) as (p & H1 & _ & H2); [|by exists p].
  apply (steps_invariant (follower_step n) (part_inv n false) s0 s); [|intros a b Ha Hb; by eapply follower_step_partition|done].
  exists p0. split; [done|]. rewrite Hc. unfold failoverInit in Hi. destruct (negb _); [done|].
  destruct (Z.ltb_spec (Z.of_nat (size (nodes c))) 2); [done|]. injection Hi as <-.
  split; [done|]. simpl. rewrite Hcp. apply Z.leb_gt. rewrite length_app, length_map. unfold node_list.
  rewrite length_map, length_map_to_list. simpl.
  rewrite Z.quot_div_nonneg by lia.
  pose proof (Z.div_mod (Z.of_nat (size (nodes c)) + 1) 2 ltac:(lia)).
  pose proof (Z.mod_pos_bound (Z.of_nat (size (nodes c)) + 1) 2 ltac:(lia)). lia.
Qed.

Definition sample_config : clusterFailoverConfig := mkFoConfig true 1 2.
Definition inited (n : string) : Cluster := (failoverInit (abc_cluster n) (Some sample_config)).1.
Definition b_only : Sys := mkSys {[ "b" := mkRun (inited "b") 0 false Idle ]} [] [] ∅ [].

Lemma follower_never_partitioned_witness :
  exists s p, steps (follower_step "b") b_only s /\ s.(procs) !! "b" = Some p /\
    p.(phase) = Electing 0 1 /\ isPartitioned (Some p.(cl)) = false.
Proof.
  set (s := mkSys (<["b" := mkRun (with_term (inited "b") 1 "") 0 false (Electing 0 1)]> b_only.(procs))
              (vote_calls (mkVoteReq "b" 1) (with_term (inited "b") 1 "")) [] {[ ("b", 1) := "b" ]} []).
  assert (steps (follower_step "b") b_only s) as Hs.
  { apply steps_one. split.
    - refine (c_elect b_only "b" (mkRun (inited "b") 0 false Idle) (mkRun (inited "b") 0 false Idle) _ _ _ _ _ _);
        reflexivity.
    - intros p [= <-]. discriminate. }
  destruct (follower_never_partitioned sample_config (abc_cluster "b") (inited "b") "b" b_only s
    (mkRun (inited "b") 0 false Idle)) as (p & Hp & E); [reflexivity..|exact Hs|].
  exists s, p. split; [exact Hs|]. split; [exact Hp|]. split; [|exact E].
  by injection Hp as <-.
Defined.

(** ** A node that restarts votes again *)

(** The term and the vote are not stored: a restarted node begins at term 0. *)
Inductive restart_step (s : Sys) : Sys -> Prop :=
| r_step s' : cstep s s' -> restart_step s s'
| r_restart n p :
    s.(procs) !! n = Some p ->
    restart_step s (with_proc s n (mkRun (with_term p.(cl) 0 "") 0 false Idle)).

(** [a] wins term 1 with the vote of [c]; [c] restarts and votes for [b] in term 1. *)
Definition before_restart : Sys :=
  default abc_start (exec_all abc_start [ETick "a"; EVote 0; EReply 0; EEnd "a"]).
Definition restarted_c : RunState :=
  default (mkRun (abc_cluster "c") 0 false Idle) (before_restart.(procs) !! "c").
Definition after_restart : Sys :=
  with_proc before_restart "c" (mkRun (with_term restarted_c.(cl) 0 "") 0 false Idle).
Definition two_leaders : Sys :=
  default abc_start (exec_all after_restart [ETick "b"; EVote 2; EReply 2; EEnd "b"]).

(** the term and the vote are kept in memory only: with one node that restarts, a cluster of
    three elects two leaders in one term. *)
Theorem restart_elects_two_leaders :
  exists s0 s, initial abc s0 /\ steps restart_step s0 s /\
    In ("a", 1) s.(elected) /\ In ("b", 1) s.(elected).
Proof.
  assert (forall a b, steps cstep a b -> steps restart_step a b) as Hlift.
  { induction 1 as [|x y z _ IH H]; [constructor|]. eapply steps_cons; [exact IH|by apply r_step]. }
  exists abc_start, two_leaders. split; [apply abc_initial|]. split.
  - apply (steps_trans _ _ before_restart).
    { apply Hlift, (exec_all_sound _ [ETick "a"; EVote 0; EReply 0; EEnd "a"]). vm_compute. reflexivity. }
    apply (steps_trans _ _ after_restart).
    { apply steps_one, (r_restart before_restart "c" restarted_c). vm_compute. reflexivity. }
    apply Hlift, (exec_all_sound _ [ETick "b"; EVote 2; EReply 2; EEnd "b"]). vm_compute. reflexivity.
  - split; vm_compute; auto.
Qed.
