(* ===== verification/Dedupe.v ===== *)
(** * Dedupe: at-most-once execution of cluster requests

    internal/server/cluster_transport_dedupe.go.  Entries are shared through pointers and
    outlive their place in the table, so they live in a heap and the table maps a key to an
    index.  [admit_request] is the part of [Execute] under the first lock, [complete] that under the second;
    all calls of one node with their interleaving are the transition system [dstep].  An error is its text; the
    request's digest is a string.  Times are nanoseconds. *)

From Stdlib Require Import NArith ZArith Lia List String Bool Permutation.
From stdpp Require Import base tactics numbers list strings gmap.
From S2P Require Import Prelude.

#[local] Open Scope string_scope.
#[local] Open Scope Z_scope.

Record clusterDedupeEntry := mkEntry {
  de_kind : N; de_digest : string; response : string; errorText : string; completed : bool; expiresAt : Z }.

Record clusterDedupeCache := mkCache {
  heap : list clusterDedupeEntry; entries : gmap string nat; capacity : Z; ttl : Z }.

Definition newClusterDedupeCache (capacity ttl : Z) : clusterDedupeCache := mkCache [] ∅ capacity ttl.

Definition errClusterDedupeWindowFull : string := "cluster: Request ID 去重窗口已满".
Definition errClusterRequestIDCollision : string := "cluster: Request ID 对应的负载不一致".

Definition Result : Type := string * option string.

Definition set_entries (c : clusterDedupeCache) (m : gmap string nat) : clusterDedupeCache :=
  mkCache c.(heap) m c.(capacity) c.(ttl).

(** [evictOneCompletedLocked]; [order] is the iteration order of the map. *)
Fixpoint evictOneCompletedLocked (order : list string) (now : Z) (c : clusterDedupeCache) : option clusterDedupeCache :=
  match order with
  | [] => None
  | key :: order' =>
      match c.(entries) !! key ≫= (c.(heap) !!.) with
      | Some e =>
          if negb e.(completed) then evictOneCompletedLocked order' now c
          else if negb (now <? e.(expiresAt)) then Some (set_entries c (delete key c.(entries)))
          else evictOneCompletedLocked order' now c
      | None => evictOneCompletedLocked order' now c
      end
  end.

Definition cloneClusterDedupeResult (e : clusterDedupeEntry) : Result :=
  (e.(response),
   if negb (String.eqb e.(errorText) "") then Some ("cluster: 去重响应回放: " ++ e.(errorText)) else None).

Inductive Admission := Refuse (err : string) | Wait (id : nat) | Dispatch (id : nat).

(** The new entry of a request that is to be dispatched. *)
Definition register (c : clusterDedupeCache) (key : string) (kind : N) (digest : string) : clusterDedupeCache * Admission :=
  (mkCache (c.(heap) ++ [mkEntry kind digest "" "" false 0]) (<[key := List.length c.(heap)]> c.(entries))
     c.(capacity) c.(ttl), Dispatch (List.length c.(heap))).

Definition make_room (order : list string) (now : Z) (c : clusterDedupeCache) (key : string) (kind : N) (digest : string)
    : clusterDedupeCache * Admission :=
  if c.(capacity) <=? Z.of_nat (size c.(entries)) then
    match evictOneCompletedLocked order now c with
    | None => (c, Refuse errClusterDedupeWindowFull)
    | Some c' => register c' key kind digest
    end
  else register c key kind digest.

Definition admit_request (order : list string) (now : Z) (c : clusterDedupeCache) (key : string) (kind : N) (digest : string)
    : clusterDedupeCache * Admission :=
  match c.(entries) !! key with
  | None => make_room order now c key kind digest
  | Some id =>
      match c.(heap) !! id with
      | None => make_room order now c key kind digest
      | Some e =>
          if negb (e.(de_kind) =? kind)%N || negb (String.eqb e.(de_digest) digest)
          then (c, Refuse errClusterRequestIDCollision)
          else if e.(completed) && negb (now <? e.(expiresAt))
          then make_room order now (set_entries c (delete key c.(entries))) key kind digest
          else (c, Wait id)
      end
  end.

(** What [Execute] does after [dispatch] returned. *)
Definition complete (now : Z) (c : clusterDedupeCache) (id : nat) (r : Result) : clusterDedupeCache :=
  match c.(heap) !! id with
  | None => c
  | Some e =>
      mkCache (<[id := mkEntry e.(de_kind) e.(de_digest) r.1 (default "" r.2) true (now + c.(ttl))]> c.(heap))
        c.(entries) c.(capacity) c.(ttl)
  end.

(** ** All calls of a node *)

Record Request := mkReq { key : string; kind : N; digest : string }.

Inductive Phase :=
| Arrived
| Timed (now : Z)                 (* has read the clock, before the lock *)
| Waiting (id : nat)              (* on the entry's ready channel *)
| Running (id : nat)              (* in dispatch *)
| Refused (err : string)          (* also a cancelled context *)
| Replayed (id : nat) (r : Result)
| Ran (id : nat) (r : Result).

Record Node := mkNode {
  clock : Z; cache : clusterDedupeCache; calls : list (Request * Phase);
  started : list (Request * Z) }.     (* history: the request and time of each dispatch, by entry *)

Definition set_phase (s : Node) (i : nat) (q : Request) (p : Phase) : list (Request * Phase) := <[i := (q, p)]> s.(calls).

Inductive dstep : Node -> Node -> Prop :=
| d_clock s d : 0 <= d -> dstep s (mkNode (s.(clock) + d) s.(cache) s.(calls) s.(started))
| d_arrive s q : dstep s (mkNode s.(clock) s.(cache) (s.(calls) ++ [(q, Arrived)]) s.(started))
| d_time s i q : s.(calls) !! i = Some (q, Arrived) ->
    dstep s (mkNode s.(clock) s.(cache) (set_phase s i q (Timed s.(clock))) s.(started))
| d_refuse s i q now order c e : s.(calls) !! i = Some (q, Timed now) ->
    Permutation order (map fst (map_to_list s.(cache).(entries))) ->
    admit_request order now s.(cache) q.(key) q.(kind) q.(digest) = (c, Refuse e) ->
    dstep s (mkNode s.(clock) c (set_phase s i q (Refused e)) s.(started))
| d_wait s i q now order c id : s.(calls) !! i = Some (q, Timed now) ->
    Permutation order (map fst (map_to_list s.(cache).(entries))) ->
    admit_request order now s.(cache) q.(key) q.(kind) q.(digest) = (c, Wait id) ->
    dstep s (mkNode s.(clock) c (set_phase s i q (Waiting id)) s.(started))
| d_dispatch s i q now order c id : s.(calls) !! i = Some (q, Timed now) ->
    Permutation order (map fst (map_to_list s.(cache).(entries))) ->
    admit_request order now s.(cache) q.(key) q.(kind) q.(digest) = (c, Dispatch id) ->
    dstep s (mkNode s.(clock) c (set_phase s i q (Running id)) (s.(started) ++ [(q, s.(clock))]))
| d_finish s i q id r : s.(calls) !! i = Some (q, Running id) ->
    dstep s (mkNode s.(clock) (complete s.(clock) s.(cache) id r) (set_phase s i q (Ran id r)) s.(started))
| d_ready s i q id e : s.(calls) !! i = Some (q, Waiting id) -> s.(cache).(heap) !! id = Some e -> e.(completed) = true ->
    dstep s (mkNode s.(clock) s.(cache) (set_phase s i q (Replayed id (cloneClusterDedupeResult e))) s.(started))
| d_cancel s i q id e : s.(calls) !! i = Some (q, Waiting id) ->
    dstep s (mkNode s.(clock) s.(cache) (set_phase s i q (Refused e)) s.(started)).

Definition start_node (capacity ttl clock : Z) : Node := mkNode clock (newClusterDedupeCache capacity ttl) [] [].

(** ** What admission does to the table *)

Definition expired (e : clusterDedupeEntry) (t : Z) : Prop := e.(completed) = true /\ e.(expiresAt) <= t.

Lemma expired_mono e t u : expired e t -> t <= u -> expired e u.
Proof. unfold expired. intros [? ?]. split; [done|lia]. Qed.

(** [c'] is [c] with some entries whose window has passed removed from the table. *)
Definition cleaned (now : Z) (c c' : clusterDedupeCache) : Prop :=
  c'.(heap) = c.(heap) /\ c'.(capacity) = c.(capacity) /\ c'.(ttl) = c.(ttl) /\ c'.(entries) ⊆ c.(entries) /\
  forall k id, c.(entries) !! k = Some id ->
    c'.(entries) !! k = Some id \/ exists e, c.(heap) !! id = Some e /\ expired e now.

Lemma cleaned_refl now c : cleaned now c c.
Proof. repeat split; auto. Qed.

Lemma cleaned_delete now c k id e :
  c.(entries) !! k = Some id -> c.(heap) !! id = Some e -> expired e now ->
  cleaned now c (set_entries c (delete k c.(entries))).
Proof.
  intros Hk He Hx. repeat split; [apply delete_subseteq|]. intros k' id' H'. simpl.
  destruct (decide (k = k')) as [<-|Hn]; [|left; by rewrite lookup_delete_ne].
  right. exists e. by simplify_eq.
Qed.

Lemma cleaned_trans now c c1 c2 : cleaned now c c1 -> cleaned now c1 c2 -> cleaned now c c2.
Proof.
  intros (H1 & H2 & H3 & H4 & H5) (K1 & K2 & K3 & K4 & K5).
  repeat split; [congruence..|by etrans|]. intros k id H.
  destruct (H5 k id H) as [H'|H']; [|by right]. destruct (K5 k id H') as [?|H'']; [by left|].
  right. by rewrite <-H1.
Qed.

Lemma evict_spec order now c c' :
  evictOneCompletedLocked order now c = Some c' ->
  cleaned now c c' /\ S (size c'.(entries)) = size c.(entries).
Proof.
  induction order as [|k order IH]; simpl; [done|].
  destruct (c.(entries) !! k) as [id|] eqn:Hk; simpl; [|done].
  destruct (c.(heap) !! id) as [e|] eqn:He; [|done].
  destruct (completed e) eqn:Hc; simpl; [|done].
  destruct (Z.ltb_spec now (expiresAt e)); simpl; [done|]. intros [= <-]. split.
  - by eapply cleaned_delete.
  - simpl. rewrite map_size_delete_Some by eauto.
    destruct (size (entries c)) eqn:E; [|lia]. apply map_size_empty_inv in E. by rewrite E in Hk.
Qed.

(** An eviction that finds nothing has looked at every entry of its order. *)
Lemma evict_none order now c k id e :
  evictOneCompletedLocked order now c = None -> In k order ->
  c.(entries) !! k = Some id -> c.(heap) !! id = Some e -> ~ expired e now.
Proof.
  induction order as [|k' order IH]; simpl; [done|]. intros H [->|Hin] Hk He [Hc Hx].
  - rewrite Hk in H. simpl in H. rewrite He, Hc in H. simpl in H.
    destruct (Z.ltb_spec now (expiresAt e)); [lia|done].
  - eapply IH; eauto; [|by split].
    destruct (_ ≫= _) as [e'| ]; [|done]. destruct (completed e'); simpl in H; [|done].
    by destruct (now <? expiresAt e').
Qed.

Definition bounded_size (c : clusterDedupeCache) : Prop := Z.of_nat (size c.(entries)) <= Z.max 0 c.(capacity).

Lemma cleaned_bounded now c c' : cleaned now c c' -> bounded_size c -> bounded_size c'.
Proof.
  intros (_ & Hc & _ & Hs & _). unfold bounded_size. rewrite Hc.
  apply map_subseteq_size in Hs. lia.
Qed.

Definition admitted (now : Z) (c : clusterDedupeCache) (k : string) (kd : N) (dg : string)
    (c' : clusterDedupeCache) (a : Admission) : Prop :=
  match a with
  | Refuse _ => cleaned now c c'
  | Wait id => c' = c /\ c.(entries) !! k = Some id /\ exists e, c.(heap) !! id = Some e /\
      e.(de_kind) = kd /\ e.(de_digest) = dg /\ ~ expired e now
  | Dispatch id => id = List.length c.(heap) /\ exists c1, cleaned now c c1 /\
      c' = (register c1 k kd dg).1 /\ (forall id, c1.(entries) !! k = Some id -> c1.(heap) !! id = None) /\
      (bounded_size c -> bounded_size c')
  end.

Lemma make_room_spec order now c0 c k kd dg c' a :
  cleaned now c0 c -> (forall id, c.(entries) !! k = Some id -> c.(heap) !! id = None) ->
  make_room order now c k kd dg = (c', a) -> admitted now c0 k kd dg c' a.
Proof.
  intros Hcl Hk. pose proof (cleaned_bounded _ _ _ Hcl) as Hb. unfold make_room.
  assert (Hins : forall m : gmap string nat, (size (<[k := List.length c.(heap)]> m) <= S (size m))%nat).
  { intros m. destruct (m !! k) as [y|] eqn:Hm.
    - rewrite map_size_insert_Some; eauto.
    - rewrite map_size_insert_None; auto. }
  destruct (Z.leb_spec (capacity c) (Z.of_nat (size (entries c)))) as [Hle|Hlt].
  - destruct (evictOneCompletedLocked _ _ _) as [c1|] eqn:He; [|by intros [= <- <-]].
    apply evict_spec in He as [He Hsz]. pose proof He as (Hh & Hcap & _ & Hs & _).
    unfold register. rewrite Hh. intros [= <- <-]. simpl. split; [by destruct Hcl as [-> _]|].
    exists c1. split; [by eapply cleaned_trans|]. split; [by rewrite Hh|]. split.
    + intros id Hid. rewrite Hh. apply Hk. by eapply lookup_weaken.
    + intros H0. specialize (Hb H0). unfold bounded_size in *. simpl. rewrite Hcap.
      specialize (Hins (entries c1)). lia.
  - intros [= <- <-]. simpl. split; [by destruct Hcl as [-> _]|].
    exists c. split; [done|]. split; [done|]. split; [done|].
    intros _. unfold bounded_size. simpl. specialize (Hins (entries c)). lia.
Qed.

Lemma admit_spec order now c k kd dg c' a :
  admit_request order now c k kd dg = (c', a) -> admitted now c k kd dg c' a.
Proof.
  unfold admit_request. destruct (entries c !! k) as [id|] eqn:Hk;
    [|apply make_room_spec; [apply cleaned_refl|congruence]].
  destruct (heap c !! id) as [e|] eqn:He;
    [|apply make_room_spec; [apply cleaned_refl|congruence]].
  destruct (N.eqb_spec (de_kind e) kd); simpl; [|intros [= <- <-]; apply cleaned_refl].
  destruct (String.eqb_spec (de_digest e) dg); simpl; [|intros [= <- <-]; apply cleaned_refl].
  assert (Hx : (completed e && negb (now <? expiresAt e))%bool = true <-> expired e now).
  { unfold expired. destruct (completed e); simpl; [|intuition done].
    destruct (Z.ltb_spec now (expiresAt e)); simpl; intuition lia. }
  destruct (completed e && _)%bool.
  - apply make_room_spec; [eapply cleaned_delete; [done..|by apply Hx]|].
    simpl. by rewrite lookup_delete_eq.
  - intros [= <- <-]. split; [done|]. split; [done|]. exists e. repeat split; auto.
    intros H. by apply Hx in H.
Qed.

(** ** The invariant of a node *)

(** The entry a call dispatches or has dispatched. *)
Definition dispatched (p : Phase) : option nat :=
  match p with Running id | Ran id _ => Some id | _ => None end.

Definition recorded (e : clusterDedupeEntry) (r : Result) : Prop :=
  e.(response) = r.1 /\ e.(errorText) = default "" r.2.

(** What the heap and the history say of a call in phase [p]. *)
Definition phase_ok (s : Node) (q : Request) (p : Phase) : Prop :=
  match p with
  | Arrived | Refused _ => True
  | Timed now => now <= s.(clock)
  | Waiting id => exists t, s.(started) !! id = Some (q, t)
  | Running id => exists t e, s.(started) !! id = Some (q, t) /\ s.(cache).(heap) !! id = Some e /\ e.(completed) = false
  | Ran id r => exists t e, s.(started) !! id = Some (q, t) /\ s.(cache).(heap) !! id = Some e /\ e.(completed) = true /\
      recorded e r
  | Replayed id r => exists t e, s.(started) !! id = Some (q, t) /\ s.(cache).(heap) !! id = Some e /\
      e.(completed) = true /\ r = cloneClusterDedupeResult e
  end.

Record node_inv (s : Node) : Prop := {
  ni_len : List.length s.(started) = List.length s.(cache).(heap);
  ni_entry : forall id e q t, s.(cache).(heap) !! id = Some e -> s.(started) !! id = Some (q, t) ->
    e.(de_kind) = q.(kind) /\ e.(de_digest) = q.(digest) /\ t <= s.(clock) /\
    (e.(completed) = true -> t + s.(cache).(ttl) <= e.(expiresAt));
  ni_table : forall k id, s.(cache).(entries) !! k = Some id -> exists q t, s.(started) !! id = Some (q, t) /\ q.(key) = k;
  ni_gone : forall id e q t, s.(cache).(heap) !! id = Some e -> s.(started) !! id = Some (q, t) ->
    s.(cache).(entries) !! q.(key) = Some id \/ expired e s.(clock);
  ni_apart : forall i j e qi ti qj tj, (i < j)%nat -> s.(cache).(heap) !! i = Some e ->
    s.(started) !! i = Some (qi, ti) -> s.(started) !! j = Some (qj, tj) -> qi.(key) = qj.(key) -> expired e tj;
  ni_calls : forall i q p, s.(calls) !! i = Some (q, p) -> phase_ok s q p;
  ni_once : forall i j qi qj pi pj id, s.(calls) !! i = Some (qi, pi) -> s.(calls) !! j = Some (qj, pj) ->
    dispatched pi = Some id -> dispatched pj = Some id -> i = j;
  ni_runner : forall id, (id < List.length s.(cache).(heap))%nat ->
    exists i q p, s.(calls) !! i = Some (q, p) /\ dispatched p = Some id;
  ni_size : bounded_size s.(cache) }.

Lemma start_inv capacity ttl clock : node_inv (start_node capacity ttl clock).
Proof.
  constructor; simpl; try (intros *; rewrite ?lookup_nil, ?lookup_empty; done); try done; [lia|].
  unfold bounded_size. simpl. rewrite map_size_empty. lia.
Qed.

(** A change of one call that keeps the heap and the history. *)
Lemma phase_ok_frame s s' q p :
  s.(clock) <= s'.(clock) -> s.(cache).(heap) = s'.(cache).(heap) -> s.(started) = s'.(started) ->
  phase_ok s q p -> phase_ok s' q p.
Proof. intros Hc Hh Hs. destruct p; simpl; rewrite <-?Hh, <-?Hs; auto. lia. Qed.

Lemma started_bound s id q t : node_inv s -> s.(started) !! id = Some (q, t) -> (id < List.length s.(cache).(heap))%nat.
Proof. intros H Hs. rewrite <-(ni_len _ H). by eapply lookup_lt_Some. Qed.

Lemma started_entry s id q t : node_inv s -> s.(started) !! id = Some (q, t) -> exists e, s.(cache).(heap) !! id = Some e.
Proof. intros H Hs. apply lookup_lt_is_Some. by eapply started_bound. Qed.

Lemma entry_started s id e : node_inv s -> s.(cache).(heap) !! id = Some e -> exists q t, s.(started) !! id = Some (q, t).
Proof.
  intros H Hs. apply lookup_lt_Some in Hs. rewrite <-(ni_len _ H) in Hs.
  apply lookup_lt_is_Some in Hs as [[q t] ?]. eauto.
Qed.

(** Every step but dispatching and completing cleans the table and changes one phase. *)
Lemma inv_quiet s s' now i q p p' :
  node_inv s -> s.(calls) !! i = Some (q, p) -> s'.(calls) = <[i := (q, p')]> s.(calls) ->
  dispatched p = None -> dispatched p' = None -> now <= s'.(clock) -> s.(clock) <= s'.(clock) ->
  cleaned now s.(cache) s'.(cache) -> s'.(started) = s.(started) -> phase_ok s' q p' -> node_inv s'.
Proof.
  intros H Hi Hcalls Hp Hp' Hnow Hclock Hcl Hst Hok.
  pose proof (cleaned_bounded _ _ _ Hcl (ni_size _ H)) as Hb.
  destruct Hcl as (Hh & _ & Ht & Hs & Hg).
  constructor; rewrite ?Hh, ?Ht, ?Hst, ?Hcalls; try exact Hb.
  - apply (ni_len _ H).
  - intros id e q0 t He Hq. destruct (ni_entry _ H _ _ _ _ He Hq) as (? & ? & ? & ?). repeat split; auto. lia.
  - intros k id Hk. apply (ni_table _ H). by eapply lookup_weaken.
  - intros id e q0 t He Hq. destruct (ni_gone _ H _ _ _ _ He Hq) as [Hk|Hx].
    + destruct (Hg _ _ Hk) as [?|(e' & He' & Hx)]; [by left|]. simplify_eq. right. by eapply expired_mono.
    + right. by eapply expired_mono.
  - intros j k e qi ti qj tj. apply (ni_apart _ H).
  - intros j q0 p0 Hj. apply list_lookup_insert_Some in Hj as [(-> & [= <- <-] & _)|[_ Hj]]; [done|].
    eapply phase_ok_frame; [| | |by eapply (ni_calls _ H)]; auto.
  - intros j k qi qj pi pj id Hj Hk Hdj Hdk.
    apply list_lookup_insert_Some in Hj as [(-> & [= <- <-] & _)|[_ Hj]]; [congruence|].
    apply list_lookup_insert_Some in Hk as [(-> & [= <- <-] & _)|[_ Hk]]; [congruence|].
    by eapply (ni_once _ H j k).
  - intros id Hid. destruct (ni_runner _ H id Hid) as (j & q0 & p0 & Hj & Hd).
    exists j, q0, p0. split; [|done]. rewrite list_lookup_insert_ne; [done|]. intros ->. congruence.
Qed.

(** Entries keep what the history says of them when the heap grows. *)
Lemma phase_ok_grow s s' x q0 q p :
  s'.(clock) = s.(clock) -> s'.(cache).(heap) = (s.(cache).(heap) ++ [x])%list -> s'.(started) = (s.(started) ++ [q0])%list ->
  phase_ok s q p -> phase_ok s' q p.
Proof.
  intros Hc Hh Hs. destruct p; simpl; rewrite ?Hc, ?Hh, ?Hs; auto.
  - intros [t ?]. exists t. by apply lookup_app_l_Some.
  - intros (t & e & ? & ? & ?). exists t, e. split_and!; try done; by apply lookup_app_l_Some.
  - intros (t & e & ? & ? & ? & ?). exists t, e. split_and!; try done; by apply lookup_app_l_Some.
  - intros (t & e & ? & ? & ? & ?). exists t, e. split_and!; try done; by apply lookup_app_l_Some.
Qed.

(** When a request is dispatched the window of every earlier one with its key has passed. *)
Lemma dispatch_old s q now c1 :
  node_inv s -> now <= s.(clock) -> cleaned now s.(cache) c1 ->
  (forall id, c1.(entries) !! q.(key) = Some id -> c1.(heap) !! id = None) ->
  forall j e qj tj, s.(cache).(heap) !! j = Some e -> s.(started) !! j = Some (qj, tj) ->
    qj.(key) = q.(key) -> expired e s.(clock).
Proof.
  intros H Hnow (Hh & _ & _ & _ & Hg) Hk j e qj tj He Hj Hkey.
  destruct (ni_gone _ H _ _ _ _ He Hj) as [Ht|Hx]; [|done].
  destruct (Hg _ _ Ht) as [Ht'|(e' & He' & Hx)].
  - rewrite Hkey in Ht'. apply Hk in Ht'. rewrite Hh in Ht'. congruence.
  - simplify_eq. by eapply expired_mono.
Qed.

Lemma dispatched_bound s j q p id :
  node_inv s -> s.(calls) !! j = Some (q, p) -> dispatched p = Some id -> (id < List.length s.(cache).(heap))%nat.
Proof.
  intros H Hj Hd. pose proof (ni_calls _ H _ _ _ Hj) as Hok.
  destruct p; simpl in Hd; simplify_eq; simpl in Hok; destruct Hok as (t & e & _ & He & _); by eapply lookup_lt_Some.
Qed.

Lemma inv_dispatch s i q now c id :
  node_inv s -> s.(calls) !! i = Some (q, Timed now) ->
  admitted now s.(cache) q.(key) q.(kind) q.(digest) c (Dispatch id) ->
  node_inv (mkNode s.(clock) c (set_phase s i q (Running id)) (s.(started) ++ [(q, s.(clock))])).
Proof.
  intros H Hi (-> & c1 & Hcl & -> & Hk & Hb).
  pose proof (ni_calls _ H _ _ _ Hi) as Hnow. simpl in Hnow.
  pose proof (ni_len _ H) as Hlen.
  pose proof (dispatch_old _ _ _ _ H Hnow Hcl Hk) as Hold.
  specialize (Hb (ni_size _ H)). destruct Hcl as (Hh & Hcap & Httl & Hs & Hg).
  constructor; simpl; try exact Hb; rewrite ?Hh, ?Httl.
  - rewrite !length_app. simpl. lia.
  - intros id e q0 t [He|[Hid He]]%lookup_app_Some [Hq|[Hid' Hq]]%lookup_app_Some.
    + by eapply ni_entry.
    + apply lookup_lt_Some in He. lia.
    + apply lookup_lt_Some in Hq. lia.
    + apply list_lookup_singleton_Some in He as [_ <-], Hq as [_ [= <- <-]]. simpl. repeat split; done || lia.
  - intros k id [[<- <-]|[Hne Ht]]%lookup_insert_Some.
    + exists q, s.(clock). split; [|done]. rewrite <-Hlen. by apply list_lookup_middle.
    + destruct (ni_table _ H k id) as (q0 & t & ? & ?); [by eapply lookup_weaken|].
      exists q0, t. split; [by apply lookup_app_l_Some|done].
  - intros id e q0 t [He|[Hid He]]%lookup_app_Some [Hq|[Hid' Hq]]%lookup_app_Some.
    + destruct (decide (key q0 = key q)) as [E|E]; [right; by eapply Hold|].
      destruct (ni_gone _ H _ _ _ _ He Hq) as [Ht|Hx]; [|by right].
      destruct (Hg _ _ Ht) as [?|(e' & He' & Hx)].
      * left. by rewrite lookup_insert_ne.
      * simplify_eq. right. by eapply expired_mono.
    + apply lookup_lt_Some in He. lia.
    + apply lookup_lt_Some in Hq. lia.
    + apply list_lookup_singleton_Some in He as [E _], Hq as [_ [= <- <-]]. left.
      rewrite lookup_insert_eq. f_equal. lia.
  - intros j k e qi ti qj tj Hjk [He|[Hid He]]%lookup_app_Some [Hq|[Hid' Hq]]%lookup_app_Some
      [Hq'|[Hid'' Hq']]%lookup_app_Some Hkey;
      pose proof (lookup_lt_Some _ _ _ He); pose proof (lookup_lt_Some _ _ _ Hq); pose proof (lookup_lt_Some _ _ _ Hq');
      try (simpl in *; lia).
    + exact (ni_apart _ H _ _ _ _ _ _ _ Hjk He Hq Hq' Hkey).
    + apply list_lookup_singleton_Some in Hq' as [_ [= <- <-]]. by eapply Hold.
  - intros j q0 p0 Hj. apply list_lookup_insert_Some in Hj as [(-> & [= <- <-] & _)|[_ Hj]].
    + simpl. exists s.(clock), (mkEntry q.(kind) q.(digest) "" "" false 0). split_and!; [| |done].
      * rewrite <-Hlen. by apply list_lookup_middle.
      * by apply list_lookup_middle.
    + eapply phase_ok_grow; [..|by eapply (ni_calls _ H)]; simpl; by rewrite ?Hh.
  - pose proof (dispatched_bound s) as Hfresh.
    intros j k qi qj pi pj id Hj Hk' Hdj Hdk.
    apply list_lookup_insert_Some in Hj as [(-> & [= <- <-] & _)|[_ Hj]];
      apply list_lookup_insert_Some in Hk' as [(-> & [= <- <-] & _)|[_ Hk']]; simpl in *; simplify_eq; try done.
    + pose proof (Hfresh _ _ _ _ H Hk' Hdk). lia.
    + pose proof (Hfresh _ _ _ _ H Hj Hdj). lia.
    + by eapply (ni_once _ H j k).
  - intros id. rewrite length_app. simpl. intros Hid.
    destruct (decide (id = List.length s.(cache).(heap))) as [->|Hne].
    + exists i, q, (Running (List.length s.(cache).(heap))). split; [|done].
      apply list_lookup_insert_eq. by eapply lookup_lt_Some.
    + destruct (ni_runner _ H id ltac:(lia)) as (j & q0 & p0 & Hj & Hd).
      exists j, q0, p0. split; [|done]. unfold set_phase. rewrite list_lookup_insert_ne; [done|]. intros ->.
      rewrite Hi in Hj. injection Hj as <- <-. done.
Qed.

Definition completed_entry (e : clusterDedupeEntry) (now ttl : Z) (r : Result) : clusterDedupeEntry :=
  mkEntry e.(de_kind) e.(de_digest) r.1 (default "" r.2) true (now + ttl).

Lemma phase_ok_complete s s' id e e' q p :
  s'.(clock) = s.(clock) -> s.(cache).(heap) !! id = Some e -> e.(completed) = false ->
  s'.(cache).(heap) = <[id := e']> s.(cache).(heap) -> s'.(started) = s.(started) ->
  dispatched p <> Some id -> phase_ok s q p -> phase_ok s' q p.
Proof.
  intros Hc He Hnc Hh Hs Hd. destruct p as [| | |id'| |id' r|id' r]; simpl in *; rewrite ?Hc, ?Hh, ?Hs; auto.
  - intros (t & e0 & ? & ? & ?). exists t, e0. split_and!; [done| |done].
    rewrite list_lookup_insert_ne; congruence.
  - intros (t & e0 & ? & ? & ? & ?). exists t, e0. split_and!; [done| |done..].
    rewrite list_lookup_insert_ne; congruence.
  - intros (t & e0 & ? & ? & ? & ?). exists t, e0. split_and!; [done| |done..].
    rewrite list_lookup_insert_ne; congruence.
Qed.

Lemma inv_finish s i q id r :
  node_inv s -> s.(calls) !! i = Some (q, Running id) ->
  node_inv (mkNode s.(clock) (complete s.(clock) s.(cache) id r) (set_phase s i q (Ran id r)) s.(started)).
Proof.
  intros H Hi. pose proof (ni_calls _ H _ _ _ Hi) as (t & e & Hst & He & Hnc).
  unfold complete. rewrite He. fold (completed_entry e s.(clock) s.(cache).(ttl) r).
  assert (Hids : forall j e', <[id := completed_entry e s.(clock) s.(cache).(ttl) r]> s.(cache).(heap) !! j = Some e' ->
    (j = id /\ e' = completed_entry e s.(clock) s.(cache).(ttl) r) \/ (j <> id /\ s.(cache).(heap) !! j = Some e')).
  { intros j e' [(-> & -> & _)|[Hj He']]%list_lookup_insert_Some; auto. }
  assert (Hnx : forall u, ~ expired e u) by (intros u [? _]; congruence).
  constructor; simpl.
  - rewrite length_insert. apply (ni_len _ H).
  - intros j e' q' t' [(-> & ->)|[Hj He']]%Hids Hq; [|by eapply (ni_entry _ H)].
    destruct (ni_entry _ H _ _ _ _ He Hq) as (? & ? & ? & _). simpl. repeat split; auto. lia.
  - apply (ni_table _ H).
  - intros j e' q' t' [(-> & ->)|[Hj He']]%Hids Hq; [|by eapply (ni_gone _ H)].
    destruct (ni_gone _ H _ _ _ _ He Hq) as [?|Hx]; [by left|]. by apply Hnx in Hx.
  - intros j k e' qi ti qj tj Hjk [(-> & ->)|[Hj He']]%Hids Hq Hq' Hkey; [|by eapply (ni_apart _ H j k)].
    pose proof (ni_apart _ H _ _ _ _ _ _ _ Hjk He Hq Hq' Hkey) as Hx. by apply Hnx in Hx.
  - intros j q' p Hj. apply list_lookup_insert_Some in Hj as [(-> & [= <- <-] & _)|[Hji Hj]].
    + simpl. exists t, (completed_entry e s.(clock) s.(cache).(ttl) r). split_and!; [done| |done|done].
      apply list_lookup_insert_eq. by eapply lookup_lt_Some.
    + eapply phase_ok_complete; [..|by eapply (ni_calls _ H)]; simpl; [done|exact He|done|done|done|].
      intros Hd. apply Hji. by eapply (ni_once _ H i j).
  - intros j k qi qj pi pj id' Hj Hk Hdj Hdk.
    apply list_lookup_insert_Some in Hj as [(-> & [= <- <-] & _)|[_ Hj]];
      apply list_lookup_insert_Some in Hk as [(-> & [= <- <-] & _)|[_ Hk]]; simpl in *; simplify_eq; try done.
    + by eapply (ni_once _ H j k).
    + by eapply (ni_once _ H j k).
    + by eapply (ni_once _ H j k).
  - intros id'. rewrite length_insert. intros Hid.
    destruct (ni_runner _ H id' Hid) as (j & q0 & p0 & Hj & Hd). unfold set_phase.
    destruct (decide (i = j)) as [->|Hne].
    + exists j, q, (Ran id r). rewrite Hi in Hj. injection Hj as <- <-. split; [|done].
      apply list_lookup_insert_eq. by eapply lookup_lt_Some.
    + exists j, q0, p0. by rewrite list_lookup_insert_ne.
  - exact (ni_size _ H).
Qed.

Lemma node_inv_clock s d :
  0 <= d -> node_inv s -> node_inv (mkNode (s.(clock) + d) s.(cache) s.(calls) s.(started)).
Proof.
  intros Hd H. constructor; simpl; try apply H.
  - intros id e q t He Hq. destruct (ni_entry _ H _ _ _ _ He Hq) as (? & ? & ? & ?). repeat split; auto. lia.
  - intros id e q t He Hq. destruct (ni_gone _ H _ _ _ _ He Hq) as [?|?]; [by left|].
    right. eapply expired_mono; [done|lia].
  - intros i q p Hi. eapply phase_ok_frame; [| | |by eapply (ni_calls _ H)]; simpl; auto. lia.
Qed.

Lemma inv_arrive s q :
  node_inv s -> node_inv (mkNode s.(clock) s.(cache) (s.(calls) ++ [(q, Arrived)]) s.(started)).
Proof.
  intros H.
  assert (Hcalls : forall i q' p, (s.(calls) ++ [(q, Arrived)])%list !! i = Some (q', p) ->
    s.(calls) !! i = Some (q', p) \/ p = Arrived).
  { intros i q' p [?|[_ Hi]]%lookup_app_Some; [by left|]. apply list_lookup_singleton_Some in Hi as [_ [= _ <-]]. by right. }
  constructor; simpl; try apply H.
  - intros i q' p [Hi| ->]%Hcalls; [|done]. exact (ni_calls _ H _ _ _ Hi).
  - intros i j qi qj pi pj id [Hi| ->]%Hcalls [Hj| ->]%Hcalls; try done. by apply (ni_once _ H i j _ _ _ _ _ Hi Hj).
  - intros id Hid. destruct (ni_runner _ H id Hid) as (j & q0 & p0 & Hj & Hd).
    exists j, q0, p0. split; [by apply lookup_app_l_Some|done].
Qed.

Lemma node_inv_step s s' : node_inv s -> dstep s s' -> node_inv s'.
Proof.
  intros H Hs. destruct Hs as [s d Hd|s q|s i q Hi|s i q now order c e Hi _ Ha|s i q now order c id Hi _ Ha
    |s i q now order c id Hi _ Ha|s i q id r Hi|s i q id e Hi He Hc|s i q id e Hi].
  - by apply node_inv_clock.
  - by apply inv_arrive.
  - eapply (inv_quiet s _ s.(clock)); eauto using cleaned_refl; simpl; lia.
  - apply admit_spec in Ha. eapply (inv_quiet s _ now); eauto; try done. exact (ni_calls _ H _ _ _ Hi).
  - apply admit_spec in Ha as (-> & Hk & e & He & Hkd & Hdg & _).
    destruct (ni_table _ H _ _ Hk) as (q' & t & Hst & Hkey).
    destruct (ni_entry _ H _ _ _ _ He Hst) as (Hkd' & Hdg' & _).
    assert (q' = q) as -> by (destruct q, q'; simpl in *; congruence).
    eapply (inv_quiet s _ s.(clock)); eauto using cleaned_refl; simpl; eauto; lia.
  - apply inv_dispatch with now; [done..|]. by apply admit_spec in Ha.
  - by apply inv_finish.
  - pose proof (ni_calls _ H _ _ _ Hi) as [t Ht].
    eapply (inv_quiet s _ s.(clock)); eauto using cleaned_refl; simpl; eauto 8; lia.
  - eapply (inv_quiet s _ s.(clock)); eauto using cleaned_refl; simpl; eauto; lia.
Qed.

Lemma reachable_inv capacity ttl clock s : steps dstep (start_node capacity ttl clock) s -> node_inv s.
Proof. apply steps_invariant; [apply start_inv|]. intros ??. apply node_inv_step. Qed.

Lemma admit_config order now c k kd dg c' a :
  admit_request order now c k kd dg = (c', a) -> c'.(ttl) = c.(ttl) /\ c'.(capacity) = c.(capacity).
Proof.
  intros Ha%admit_spec. destruct a; simpl in Ha.
  - by destruct Ha as (_ & ? & ? & _).
  - by destruct Ha as (-> & _).
  - destruct Ha as (_ & c1 & (_ & ? & ? & _) & -> & _). done.
Qed.

Lemma step_config s s' :
  dstep s s' -> s'.(cache).(ttl) = s.(cache).(ttl) /\ s'.(cache).(capacity) = s.(cache).(capacity).
Proof.
  destruct 1 as [| | |? ? ? ? ? ? ? ? ? Ha|? ? ? ? ? ? ? ? ? Ha|? ? ? ? ? ? ? ? ? Ha| | |]; simpl; try done;
    try (by apply admit_config in Ha).
  unfold complete. by case_match.
Qed.

Lemma reachable_config capacity ttl clock s :
  steps dstep (start_node capacity ttl clock) s -> s.(cache).(Dedupe.ttl) = ttl /\ s.(cache).(Dedupe.capacity) = capacity.
Proof.
  apply (steps_invariant dstep (fun s => s.(cache).(Dedupe.ttl) = ttl /\ s.(cache).(Dedupe.capacity) = capacity)); [done|].
  intros a b [<- <-] Hs. by apply step_config.
Qed.

(** A refusal for want of room: the table is full and no entry of it may go. *)
Lemma make_room_full order now c k kd dg c' :
  (forall k0 id, c.(entries) !! k0 = Some id -> In k0 order) ->
  (forall k0 id, c.(entries) !! k0 = Some id -> is_Some (c.(heap) !! id)) ->
  make_room order now c k kd dg = (c', Refuse errClusterDedupeWindowFull) ->
  c'.(capacity) <= Z.of_nat (size c'.(entries)) /\
  forall k0 id, c'.(entries) !! k0 = Some id -> exists e, c'.(heap) !! id = Some e /\ ~ expired e now.
Proof.
  intros Hord Hheap. unfold make_room, register. destruct (Z.leb_spec (capacity c) (Z.of_nat (size (entries c)))); [|done].
  destruct (evictOneCompletedLocked _ _ _) as [c1|] eqn:He; [done|]. intros [= <-]. split; [done|].
  intros k0 id Hk. destruct (Hheap _ _ Hk) as [e Hid]. exists e. split; [done|].
  eapply evict_none; eauto.
Qed.

Lemma admit_full s order now k kd dg c :
  node_inv s -> Permutation order (map fst (map_to_list s.(cache).(entries))) ->
  admit_request order now s.(cache) k kd dg = (c, Refuse errClusterDedupeWindowFull) ->
  s.(cache).(capacity) <= Z.of_nat (size c.(entries)) /\
  forall k0 id, c.(entries) !! k0 = Some id -> exists e, c.(heap) !! id = Some e /\ ~ expired e now.
Proof.
  intros H Hp Ha. destruct (admit_config _ _ _ _ _ _ _ _ Ha) as [_ <-].
  assert (Hord : forall k0 id, s.(cache).(entries) !! k0 = Some id -> In k0 order).
  { intros k0 id Hk. eapply Permutation_in; [by symmetry|]. apply in_map_iff. exists (k0, id). split; [done|].
    apply list_elem_of_In. by apply elem_of_map_to_list. }
  assert (Hheap : forall k0 id, s.(cache).(entries) !! k0 = Some id -> is_Some (s.(cache).(heap) !! id)).
  { intros k0 id Hk. destruct (ni_table _ H _ _ Hk) as (q & t & Hst & _). by eapply started_entry. }
  revert Ha. unfold admit_request. destruct (entries (cache s) !! k) as [id|] eqn:Hk; [|by apply make_room_full].
  destruct (heap (cache s) !! id) as [e|] eqn:He; [|by apply make_room_full].
  destruct (_ || _)%bool; [done|]. destruct (_ && _)%bool; [|done].
  apply make_room_full; simpl; intros k0 id0 [_ Hk0]%lookup_delete_Some; eauto.
Qed.

Lemma admit_keeps order now c k kd dg c' a k0 id e :
  admit_request order now c k kd dg = (c', a) -> c.(entries) !! k0 = Some id -> c.(heap) !! id = Some e -> ~ expired e now ->
  c'.(entries) !! k0 = Some id.
Proof.
  intros Ha%admit_spec Hk He Hx.
  assert (Hcl : forall c1, cleaned now c c1 -> c1.(entries) !! k0 = Some id).
  { intros c1 (_ & _ & _ & _ & Hg). destruct (Hg _ _ Hk) as [?|(e' & He' & Hx')]; [done|]. simplify_eq. done. }
  destruct a; simpl in Ha.
  - by apply Hcl.
  - by destruct Ha as (-> & _).
  - destruct Ha as (_ & c1 & Hc1 & -> & Hnone & _). simpl. pose proof (Hcl _ Hc1) as Hk1.
    rewrite lookup_insert_ne; [done|]. intros ->. apply Hnone in Hk1. destruct Hc1 as [Hh _]. congruence.
Qed.

(** ** Runs as scripts, for concrete instances *)

Inductive Move := MClock (d : Z) | MArrive (q : Request) | MTime (i : nat) | MAdmit (i : nat) | MFinish (i : nat) (r : Result) | MReady (i : nat).

Definition play (s : Node) (m : Move) : option Node :=
  match m with
  | MClock d => if 0 <=? d then Some (mkNode (s.(clock) + d) s.(cache) s.(calls) s.(started)) else None
  | MArrive q => Some (mkNode s.(clock) s.(cache) (s.(calls) ++ [(q, Arrived)]) s.(started))
  | MTime i =>
      match s.(calls) !! i with
      | Some (q, Arrived) => Some (mkNode s.(clock) s.(cache) (set_phase s i q (Timed s.(clock))) s.(started))
      | _ => None
      end
  | MAdmit i =>
      match s.(calls) !! i with
      | Some (q, Timed now) =>
          let '(c, a) := admit_request (map fst (map_to_list s.(cache).(entries))) now s.(cache) q.(key) q.(kind) q.(digest) in
          Some (match a with
                | Refuse e => mkNode s.(clock) c (set_phase s i q (Refused e)) s.(started)
                | Wait id => mkNode s.(clock) c (set_phase s i q (Waiting id)) s.(started)
                | Dispatch id => mkNode s.(clock) c (set_phase s i q (Running id)) (s.(started) ++ [(q, s.(clock))])
                end)
      | _ => None
      end
  | MFinish i r =>
      match s.(calls) !! i with
      | Some (q, Running id) => Some (mkNode s.(clock) (complete s.(clock) s.(cache) id r) (set_phase s i q (Ran id r)) s.(started))
      | _ => None
      end
  | MReady i =>
      match s.(calls) !! i with
      | Some (q, Waiting id) =>
          match s.(cache).(heap) !! id with
          | Some e => if e.(completed)
                      then Some (mkNode s.(clock) s.(cache) (set_phase s i q (Replayed id (cloneClusterDedupeResult e))) s.(started))
                      else None
          | None => None
          end
      | _ => None
      end
  end.

Lemma play_step s m s' : play s m = Some s' -> dstep s s'.
Proof.
  destruct m as [d|q|i|i|i r|i]; simpl.
  - destruct (Z.leb_spec 0 d); [|done]. intros [= <-]. by apply d_clock.
  - intros [= <-]. apply d_arrive.
  - destruct (calls s !! i) as [[q []]|] eqn:Hi; try done. intros [= <-]. by apply d_time.
  - destruct (calls s !! i) as [[q []]|] eqn:Hi; try done. destruct (admit_request _ _ _ _ _ _) as [c a] eqn:Ha.
    intros [= <-]. destruct a; [eapply d_refuse|eapply d_wait|eapply d_dispatch]; eauto.
  - destruct (calls s !! i) as [[q []]|] eqn:Hi; try done. intros [= <-]. by apply d_finish.
  - destruct (calls s !! i) as [[q []]|] eqn:Hi; try done. destruct (heap (cache s) !! id) as [e|] eqn:He; [|done].
    destruct (completed e) eqn:Hc; [|done]. intros [= <-]. by eapply d_ready.
Qed.

Definition play_all (ms : list Move) (s : Node) : option Node := foldl (fun o m => o ≫= (fun s => play s m)) (Some s) ms.

Lemma play_all_steps ms s s' : play_all ms s = Some s' -> steps dstep s s'.
Proof.
  unfold play_all. revert s'. induction ms as [|m ms IH] using rev_ind; intros s'; simpl; [by intros [= <-]|].
  rewrite foldl_snoc. destruct (foldl _ _ ms) as [s1|] eqn:E; simpl; [|done].
  intros Hp%play_step. eapply steps_cons; [by apply IH|done].
Qed.

(** Two calls with one Request ID that overlap; the same ID again after the window, then a fourth call. *)
Definition a_request : Request := mkReq "node-1/42" 3 "digest".
Definition a_script : list Move :=
  [MArrive a_request; MTime 0; MAdmit 0; MArrive a_request; MTime 1; MAdmit 1; MClock 5; MFinish 0 ("body", Some "busy");
   MReady 1; MClock 100; MArrive a_request; MTime 2; MAdmit 2; MArrive a_request; MTime 3; MAdmit 3].
Definition a_run : Node := default (start_node 0 0 0) (play_all a_script (start_node 2 60 0)).

Lemma a_run_reachable : steps dstep (start_node 2 60 0) a_run.
Proof. apply (play_all_steps a_script). vm_compute. reflexivity. Qed.

(** ** Properties *)

(** C38: within the window a Request ID is executed at most once.  In every interleaving of
    the calls of a node: each registered execution belongs to one call, and of two executions
    with the same key the first has finished and its window, which ends no earlier than [ttl]
    after it began, has passed when the second begins. *)
Theorem request_runs_once capacity ttl clock0 s :
  steps dstep (start_node capacity ttl clock0) s ->
  (forall id, (id < List.length s.(started))%nat ->
     exists i q p, s.(calls) !! i = Some (q, p) /\ dispatched p = Some id /\
       forall j q' p', s.(calls) !! j = Some (q', p') -> dispatched p' = Some id -> j = i) /\
  (forall i j qi ti qj tj, (i < j)%nat -> s.(started) !! i = Some (qi, ti) -> s.(started) !! j = Some (qj, tj) ->
     qi.(key) = qj.(key) ->
     exists e, s.(cache).(heap) !! i = Some e /\ e.(completed) = true /\ ti + ttl <= e.(expiresAt) <= tj).
Proof.
  intros Hr. pose proof (reachable_inv _ _ _ _ Hr) as H. destruct (reachable_config _ _ _ _ Hr) as [Ht _]. split.
  - intros id Hid. rewrite (ni_len _ H) in Hid. destruct (ni_runner _ H id Hid) as (i & q & p & Hi & Hd).
    exists i, q, p. split_and!; [done..|]. intros j q' p' Hj Hd'. by apply (ni_once _ H j i _ _ _ _ id Hj Hi).
  - intros i j qi ti qj tj Hij Hi Hj Hkey. destruct (started_entry _ _ _ _ H Hi) as [e He].
    destruct (ni_apart _ H _ _ _ _ _ _ _ Hij He Hi Hj Hkey) as [Hc Hx]. exists e. split_and!; try done.
    rewrite <-Ht. by apply (ni_entry _ H _ _ _ _ He Hi).
Qed.

Lemma request_runs_once_witness :
  exists e, a_run.(cache).(heap) !! 0%nat = Some e /\ e.(completed) = true /\ 0 + 60 <= e.(expiresAt) <= 105.
Proof.
  apply (proj2 (request_runs_once 2 60 0 a_run a_run_reachable) 0%nat 1%nat a_request 0 a_request 105);
    [lia|vm_compute; reflexivity..].
Defined.

(** a repeated call gets the answer of the execution it repeats.  A call that was
    answered from the window has the response another call with the same key, kind and digest obtained
    from [dispatch], and an error exactly when that one's error has a text; but the
    text is prefixed.  A call that waits always waits for an execution of its own request that is
    running or whose answer is there to be taken. *)
Theorem replay_faithful capacity ttl clock0 s i q :
  steps dstep (start_node capacity ttl clock0) s ->
  (forall id res, s.(calls) !! i = Some (q, Replayed id res) ->
     exists j r, s.(calls) !! j = Some (q, Ran id r) /\ res.1 = r.1 /\
       res.2 = match r.2 with
               | None | Some "" => None
               | Some text => Some ("cluster: 去重响应回放: " ++ text)
               end) /\
  (forall id, s.(calls) !! i = Some (q, Waiting id) ->
     exists j p, s.(calls) !! j = Some (q, p) /\
       (p = Running id \/
        exists r s' res, p = Ran id r /\ dstep s s' /\ s'.(calls) !! i = Some (q, Replayed id res))).
Proof.
  intros Hr. pose proof (reachable_inv _ _ _ _ Hr) as H.
  assert (Hown : forall id t, s.(started) !! id = Some (q, t) ->
    exists j p, s.(calls) !! j = Some (q, p) /\ dispatched p = Some id /\ phase_ok s q p).
  { intros id t Ht. destruct (ni_runner _ H id (started_bound _ _ _ _ H Ht)) as (j & q' & p & Hj & Hd).
    pose proof (ni_calls _ H _ _ _ Hj) as Hok.
    assert (q' = q) as ->; [|by exists j, p].
    destruct p; simpl in Hd; simplify_eq; destruct Hok as (t' & e & Hst & _); congruence. }
  split.
  - intros id res Hi. pose proof (ni_calls _ H _ _ _ Hi) as (t & e & Hst & He & Hc & ->).
    destruct (Hown _ _ Hst) as (j & p & Hj & Hd & Hok).
    destruct p as [| | |id'| | |id' r]; simpl in Hd; simplify_eq; destruct Hok as (t' & e' & _ & He' & Hc');
      simplify_eq; [congruence|].
    destruct Hc' as [_ [Hresp Herr]]. exists j, r. split; [done|]. unfold cloneClusterDedupeResult.
    rewrite Hresp, Herr. split; [done|]. destruct r as [body [[|ch text]|]]; reflexivity.
  - intros id Hi. pose proof (ni_calls _ H _ _ _ Hi) as [t Hst].
    destruct (Hown _ _ Hst) as (j & p & Hj & Hd & Hok). exists j, p. split; [done|].
    destruct p as [| | |id'| | |id' r]; simpl in Hd; simplify_eq; [by left|]. right.
    destruct Hok as (t' & e & _ & He & Hc & _). eexists r, _, _. split; [done|]. split; [by eapply d_ready|].
    simpl. apply list_lookup_insert_eq. by eapply lookup_lt_Some.
Qed.

Lemma replay_faithful_witness :
  exists j r, a_run.(calls) !! j = Some (a_request, Ran 0 r) /\ "body" = r.1 /\
    Some ("cluster: 去重响应回放: " ++ "busy") = match r.2 with
            | None | Some "" => None
            | Some text => Some ("cluster: 去重响应回放: " ++ text)
            end.
Proof.
  apply (proj1 (replay_faithful 2 60 0 a_run 1 a_request a_run_reachable) 0%nat ("body", Some ("cluster: 去重响应回放: " ++ "busy"))).
  vm_compute. reflexivity.
Defined.

(** the window is bounded and gives nothing up early.  It never holds more entries than its capacity;
    a request is turned away for want of room only when every place is taken by an
    execution in progress or inside its window; and an execution in progress, or finished
    within its window, keeps its place. *)
Theorem window_bounded capacity ttl clock0 s order now q c a :
  steps dstep (start_node capacity ttl clock0) s ->
  Permutation order (map fst (map_to_list s.(cache).(entries))) ->
  admit_request order now s.(cache) q.(key) q.(kind) q.(digest) = (c, a) ->
  Z.of_nat (size s.(cache).(entries)) <= Z.max 0 capacity /\
  (a = Refuse errClusterDedupeWindowFull ->
     capacity <= Z.of_nat (size c.(entries)) /\
     forall k id, c.(entries) !! k = Some id -> exists e, c.(heap) !! id = Some e /\ ~ expired e now) /\
  (forall k id e, s.(cache).(entries) !! k = Some id -> s.(cache).(heap) !! id = Some e -> ~ expired e now ->
     c.(entries) !! k = Some id).
Proof.
  intros Hr Hp Ha. pose proof (reachable_inv _ _ _ _ Hr) as H. destruct (reachable_config _ _ _ _ Hr) as [_ Hcap].
  split; [|split].
  - rewrite <-Hcap. exact (ni_size _ H).
  - intros ->. rewrite <-Hcap. by eapply admit_full.
  - intros k id e Hk He Hx. by eapply admit_keeps.
Qed.

Lemma window_bounded_witness :
  exists c, admit_request ["a"; "b"] 0 (default (start_node 0 0 0) (play_all
      [MArrive (mkReq "a" 1 ""); MTime 0; MAdmit 0; MArrive (mkReq "b" 1 ""); MTime 1; MAdmit 1] (start_node 2 60 0))).(cache)
      "c" 1 "" = (c, Refuse errClusterDedupeWindowFull) /\ 2 <= Z.of_nat (size c.(entries)).
Proof.
  eexists. split; [vm_compute; reflexivity|].
  eapply (window_bounded 2 60 0 _ ["a"; "b"] 0 (mkReq "c" 1 "")); [| | |reflexivity].
  - exact (play_all_steps [MArrive (mkReq "a" 1 ""); MTime 0; MAdmit 0; MArrive (mkReq "b" 1 ""); MTime 1; MAdmit 1]
      (start_node 2 60 0) _ eq_refl).
  - vm_compute. first [reflexivity|apply perm_swap].
  - vm_compute. reflexivity.
Defined.
