(* ===== verification/Drafty.v ===== *)
(** * Drafty: rich text

    server/drafty/drafty.go and grapheme.go: formatted messages are decoded from JSON values,
    checked ([Analyze]), turned into a tree of spans ([toTree], [forEach]) and rendered
    ([PlainText], [Preview], [SearchText]).  The segmentation into grapheme clusters
    (github.com/rivo/uniseg), the NFKC normalization (golang.org/x/text), json.Marshal and sort.Slice,
    which is not stable, are arguments.  A number of a message is an [AInt]; Go's [int] has 64 bits
    and wraps.  [Panic] is a run-time panic. *)

From Stdlib Require Import NArith ZArith Lia List Ascii String Bool Permutation Sorted.
From stdpp Require Import base tactics numbers list strings gmap.
From S2P Require Import Prelude.

#[local] Open Scope string_scope.
#[local] Open Scope Z_scope.

(** ** Values, results, integers *)

Inductive DraftyError := errUnrecognizedContent | errInvalidContent (what : string).

Inductive Out (A : Type) := Ok (a : A) | Fail (e : DraftyError) | Panic (msg : string).
Arguments Ok {A}. Arguments Fail {A}. Arguments Panic {A}.

Definition obind {A B} (m : Out A) (k : A -> Out B) : Out B :=
  match m with Ok a => k a | Fail e => Fail e | Panic p => Panic p end.
Notation "x <~ m ;; k" := (obind m (fun x => k)) (at level 100, m at next level, right associativity) : go_scope.

Definition int64 (z : Z) : Z := (z + 2 ^ 63) mod 2 ^ 64 - 2 ^ 63.

(** [data[key]] of a Go map of JSON values. *)
Definition get (m : list (string * Any)) (key : string) : option Any :=
  snd <$> List.find (fun kv => String.eqb (fst kv) key) m.

(** [v, _ := data[key].(string)] on a map that may be nil. *)
Definition get_string (data : option (list (string * Any))) (key : string) : string :=
  match data with
  | Some m => match get m key with Some (AStr s) => s | _ => "" end
  | None => ""
  end.

Definition nullableMapGet (data : option (list (string * Any))) (key : string) : string * bool :=
  match data with
  | None => ("", false)
  | Some m => match get m key with Some (AStr s) => (s, true) | _ => ("", false) end
  end.

Definition intFromNumeric (num : option Any) : Out Z :=
  match num with
  | None | Some ANil => Ok 0
  | Some (AInt z) => Ok (int64 z)
  | Some _ => Fail (errInvalidContent "")
  end.

(** ** grapheme.go *)

Record graphemes := mkGraphemes { g_original : string; sizes : list Z }.

Definition g_length (g : option graphemes) : Z :=
  match g with None => 0 | Some g => Z.of_nat (List.length g.(sizes)) end.

Definition g_string (g : option graphemes) : string :=
  match g with None => "" | Some g => g.(g_original) end.

Definition sumz (l : list Z) : Z := fold_right Z.add 0 l.

(** [g.slice]: [None] is an index or slice out of range, or a nil [g]. *)
Definition g_slice (g : option graphemes) (start end_ : Z) : option graphemes :=
  match g with
  | None => None
  | Some g =>
      let n := Z.of_nat (List.length g.(sizes)) in
      if (start <? 0) || (end_ <? start) || (n <? end_) then None
      else
        let s := sumz (firstn (Z.to_nat start) g.(sizes)) in
        let part := firstn (Z.to_nat (end_ - start)) (skipn (Z.to_nat start) g.(sizes)) in
        let e := s + sumz part in
        if Z.of_nat (String.length g.(g_original)) <? e then None
        else Some (mkGraphemes (String.substring (Z.to_nat s) (Z.to_nat (e - s)) g.(g_original)) part)
  end.

Definition g_append (g : option graphemes) (other : graphemes) : graphemes :=
  match g with
  | None => other
  | Some g => mkGraphemes (g.(g_original) ++ other.(g_original)) (g.(sizes) ++ other.(sizes))%list
  end.

(** ** Documents *)

Record style := mkStyle { st_Tp : string; st_At : Z; st_Length : Z; st_Key : Z }.
Record entity := mkEntity { en_Tp : string; en_Data : option (list (string * Any)) }.
Record document := mkDoc { Txt : string; Fmt : list style; Ent : list entity; d_gc : option graphemes }.
Record span := mkSpan { sp_tp : string; sp_at : Z; sp_end : Z; sp_key : Z; sp_data : option (list (string * Any)) }.

#[warnings="-register-all"]
Inductive node := Node (gc : option graphemes) (sp : option span) (children : list node).

Definition contains (l : list string) (s : string) : bool := existsb (String.eqb s) l.

Definition supportedStyles : list string :=
  ["BR"; "BQ"; "CO"; "DL"; "EM"; "FM"; "HD"; "HL"; "PRE"; "QQ"; "RW"; "SP"; "ST"; "UN"].
Definition supportedEntities : list string :=
  ["AU"; "BN"; "CE"; "EX"; "FM"; "HT"; "IM"; "LN"; "MN"; "VC"; "VD"; "SK"; "AE"; "GF"].

(** [tags]: the decoration of a style and whether it hides its text. *)
Definition dec (tp : string) : string :=
  if String.eqb tp "BR" then String "010" "" else if String.eqb tp "CO" then "`" else if String.eqb tp "DL" then "~"
  else if String.eqb tp "EM" then "_" else if String.eqb tp "ST" then "*" else "".
Definition isVoid (tp : string) : bool := contains ["BR"; "EX"; "SK"; "AE"; "GF"] tp.

(** ** Decoding *)

Definition decodeAsStyle (content : Any) : Out (option style) :=
  match content with
  | ANil => Ok None
  | AMap tmp =>
      let tp := get_string (Some tmp) "tp" in
      at_ <~ intFromNumeric (get tmp "at") ;;
      len <~ intFromNumeric (get tmp "len") ;;
      if String.eqb tp "" then
        key <~ intFromNumeric (get tmp "key") ;;
        if key <? 0 then Fail (errInvalidContent "") else Ok (Some (mkStyle tp at_ len key))
      else Ok (Some (mkStyle tp at_ len 0))
  | _ => Fail errUnrecognizedContent
  end.

Definition decodeAsEntity (content : Any) : Out (option entity) :=
  match content with
  | ANil => Ok None
  | AMap tmp =>
      let tp := get_string (Some tmp) "tp" in
      if String.eqb tp "" then Fail (errInvalidContent "")
      else Ok (Some (mkEntity tp (match get tmp "data" with Some (AMap d) => Some d | _ => None end)))
  | _ => Fail errUnrecognizedContent
  end.

(** The loops of [decodeAsDrafty]: nil elements are skipped. *)
Fixpoint decode_all {A} (f : Any -> Out (option A)) (l : list Any) : Out (list A) :=
  match l with
  | [] => Ok []
  | x :: l' =>
      a <~ f x ;;
      rest <~ decode_all f l' ;;
      Ok (match a with Some a => a :: rest | None => rest end)
  end.

Section Drafty.
(** uniseg.StepString, iterated: the grapheme clusters of a text. *)
Context (clusters : string -> list string).
(** sort.Slice on spans, norm.NFKC.String and json.Marshal of a document. *)
Context (sortSlice : list span -> list span) (nfkc : string -> string) (marshal : document -> string + GoError).

(** A size is a byte. *)
Definition prepareGraphemes (str : string) : graphemes :=
  mkGraphemes str (map (fun c => Z.of_nat (String.length c) mod 256) (clusters str)).

Definition decodeAsDrafty (content : Any) : Out (option document) :=
  match content with
  | ANil => Ok None
  | AStr s => Ok (Some (mkDoc "" [] [] (Some (prepareGraphemes s))))
  | AMap tmp =>
      let '(txt, gc, c1) := match get tmp "txt" with
                            | Some (AStr s) => (s, Some (prepareGraphemes s), 1)
                            | _ => ("", None, 0)
                            end in
      let ifmt := match get tmp "fmt" with Some (AList l) => l | _ => [] end in
      let ient := match get tmp "ent" with Some (AList l) => l | _ => [] end in
      fmt <~ decode_all decodeAsStyle ifmt ;;
      ent <~ decode_all decodeAsEntity ient ;;
      if c1 + Z.of_nat (List.length ifmt) + Z.of_nat (List.length ient) =? 0 then Fail errUnrecognizedContent
      else Ok (Some (mkDoc txt fmt ent gc))
  | _ => Fail errUnrecognizedContent
  end.

(** ** The tree *)

Definition styleToSpan (in_ : style) : Out span :=
  if in_.(st_Length) <? 0 then Fail (errInvalidContent "")
  else
    let end_ := int64 (in_.(st_Length) + in_.(st_At)) in
    if String.eqb in_.(st_Tp) "" then
      if in_.(st_Key) <? 0 then Fail (errInvalidContent "")
      else Ok (mkSpan in_.(st_Tp) in_.(st_At) end_ in_.(st_Key) None)
    else Ok (mkSpan in_.(st_Tp) in_.(st_At) end_ 0 None).

(** The body of the loop over [drafty.Fmt]. *)
Definition to_span (ents : list entity) (textLen : Z) (f : style) : Out span :=
  s <~ styleToSpan f ;;
  if (s.(sp_at) <? -1) || (textLen <? s.(sp_end)) then Fail (errInvalidContent "")
  else
    s <~ (if String.eqb s.(sp_tp) "" && negb (bool_decide (ents = [])) then
            if (s.(sp_key) <? 0) || (Z.of_nat (List.length ents) <=? s.(sp_key)) then Fail (errInvalidContent "")
            else match ents !! Z.to_nat s.(sp_key) with
                 | Some e => Ok (mkSpan e.(en_Tp) s.(sp_at) s.(sp_end) s.(sp_key) e.(en_Data))
                 | None => Panic "index out of range"
                 end
          else Ok s) ;;
    if String.eqb s.(sp_tp) "" && (s.(sp_at) =? 0) && (s.(sp_end) =? 0) && (s.(sp_key) =? 0)
    then Fail errUnrecognizedContent
    else Ok s.

Fixpoint to_spans (ents : list entity) (textLen : Z) (fmt : list style) : Out (list span) :=
  match fmt with
  | [] => Ok []
  | f :: fmt' =>
      s <~ to_span ents textLen f ;;
      rest <~ to_spans ents textLen fmt' ;;
      Ok (s :: rest)
  end.

(** The order handed to sort.Slice: by start, the longer first. *)
Definition span_less (a b : span) : bool :=
  if a.(sp_at) =? b.(sp_at) then b.(sp_end) <? a.(sp_end) else a.(sp_at) <? b.(sp_at).

(** Drops a span that begins inside an earlier one and ends beyond all earlier ones. *)
Fixpoint filter_spans (end_ : Z) (spans : list span) : list span :=
  match spans with
  | [] => []
  | s :: spans' =>
      if (s.(sp_at) <? end_) && (end_ <? s.(sp_end)) then filter_spans end_ spans'
      else s :: filter_spans (if end_ <? s.(sp_end) then s.(sp_end) else end_) spans'
  end.

(** The spans that follow and begin before [end_]: the subspans, and what is left. *)
Fixpoint split_spans (end_ : Z) (spans : list span) : list span * list span :=
  match spans with
  | [] => ([], [])
  | s :: spans' =>
      if s.(sp_at) <? end_ then let '(a, b) := split_spans end_ spans' in (s :: a, b) else ([], spans)
  end.

Definition leaf (g : option graphemes) (start end_ : Z) : Out node :=
  match g_slice g start end_ with Some p => Ok (Node (Some p) None []) | None => Panic "slice bounds out of range" end.

(** [forEach]; the number of spans is enough fuel ([forEach_fuel]). *)
Fixpoint forEach (fuel : nat) (g : option graphemes) (start end_ : Z) (spans : list span) : Out (list node) :=
  match spans, fuel with
  | [], _ => if start <? end_ then n <~ leaf g start end_ ;; Ok [n] else Ok []
  | _, O => Panic "out of fuel"
  | sp :: spans', S fuel' =>
      if sp.(sp_at) <? 0 then
        rest <~ forEach fuel' g start end_ spans' ;; Ok (Node None (Some sp) [] :: rest)
      else
        pre <~ (if start <? sp.(sp_at) then n <~ leaf g start sp.(sp_at) ;; Ok [n] else Ok []) ;;
        let start := if start <? sp.(sp_at) then sp.(sp_at) else start in
        let '(subspans, later) := split_spans sp.(sp_end) spans' in
        n <~ (if isVoid sp.(sp_tp) then Ok (Node None (Some sp) [])
              else children <~ forEach fuel' g start sp.(sp_end) subspans ;; Ok (Node None (Some sp) children)) ;;
        rest <~ forEach fuel' g sp.(sp_end) end_ later ;;
        Ok (pre ++ n :: rest)%list
  end.

Definition toTree (d : document) : Out node :=
  match d.(Fmt) with
  | [] => Ok (Node d.(d_gc) None [])
  | fmt =>
      let textLen := g_length d.(d_gc) in
      spans <~ to_spans d.(Ent) textLen fmt ;;
      let filtered := filter_spans (-2) (sortSlice spans) in
      children <~ forEach (List.length filtered) d.(d_gc) 0 textLen filtered ;;
      Ok (Node None None children)
  end.

(** ** Rendering as plain text *)

Definition bracketed (what name : string) : string := "[" ++ what ++ " '" ++ name ++ "']".

(** The text of a span whose children have the text [text]. *)
Definition decorate (s : span) (text : string) : string :=
  let alt default_ :=
    match nullableMapGet s.(sp_data) "alt" with (a, true) => if String.eqb a "" then default_ else a | _ => default_ end in
  let name := match nullableMapGet s.(sp_data) "name" with (n, true) => if String.eqb n "" then "?" else n | _ => "?" end in
  if contains ["ST"; "EM"; "DL"; "CO"] s.(sp_tp) then dec s.(sp_tp) ++ text ++ dec s.(sp_tp)
  else if String.eqb s.(sp_tp) "LN" then
    match nullableMapGet s.(sp_data) "url" with
    | (url, true) => if String.eqb url text then text else "[" ++ text ++ "](" ++ url ++ ")"
    | _ => text
    end
  else if String.eqb s.(sp_tp) "BR" then String "010" ""
  else if String.eqb s.(sp_tp) "AU" then bracketed "AUDIO" name
  else if String.eqb s.(sp_tp) "EX" then bracketed "FILE" name
  else if String.eqb s.(sp_tp) "IM" then bracketed "IMAGE" name
  else if String.eqb s.(sp_tp) "VD" then bracketed "VIDEO" name
  else if String.eqb s.(sp_tp) "VC" then "[CALL]"
  else if String.eqb s.(sp_tp) "SK" then alt "[STICKER]"
  else if String.eqb s.(sp_tp) "AE" then alt "[ANIMATED EMOJI]"
  else if String.eqb s.(sp_tp) "GF" then alt "[GIF]"
  else text.

(** [plainTextFormatter]: what it appends to the state; it reports no error. *)
Fixpoint plainTextFormatter (n : node) : string :=
  let '(Node gc sp children) := n in
  if match sp with Some s => String.eqb s.(sp_tp) "QQ" | None => false end then ""
  else
    let text := match children with
                | [] => g_string gc
                | _ => (fix go (cs : list node) : string :=
                          match cs with [] => "" | c :: cs' => plainTextFormatter c ++ go cs' end) children
                end in
    match sp with None => text | Some s => decorate s text end.

Definition PlainText (content : Any) : Out string :=
  doc <~ decodeAsDrafty content ;;
  match doc with
  | None => Ok ""
  | Some d => tree <~ toTree d ;; Ok (TrimSpace (plainTextFormatter tree))
  end.

(** ** Previews *)

Definition maxDataSize : Z := 128.
Definition maxDataCount : nat := 8.
Definition lightFields : list string := ["mime"; "name"; "width"; "height"; "size"; "url"; "ref"; "asset_id"; "alt"].

(** A value that [copyLight] keeps. *)
Definition is_light (v : Any) : bool :=
  match v with
  | ANil | ABool _ | AInt _ => true
  | AStr s => Z.of_nat (String.length s) <? maxDataSize
  | AList _ | AMap _ => false
  end.

(** The loop over [lightFields]; it stops once the result has more than [maxDataCount] entries. *)
Fixpoint copy_fields (data : list (string * Any)) (keys : list string) (result : list (string * Any)) : list (string * Any) :=
  match keys with
  | [] => result
  | key :: keys' =>
      let result := match get data key with Some v => if is_light v then (result ++ [(key, v)])%list else result | None => result end in
      if (maxDataCount <? List.length result)%nat then result else copy_fields data keys' result
  end.

Definition copyLight (data : list (string * Any)) : option (list (string * Any)) :=
  match data with
  | [] => Some []
  | _ => match copy_fields data lightFields [] with [] => None | r => Some r end
  end.

Record previewState := mkPreview {
  pv_gc : option graphemes; pv_Fmt : list style; pv_Ent : list entity; keymap : gmap Z Z }.

(** The end of [previewFormatter]: the style of a span over the text from [at_] on. *)
Definition preview_span (s : span) (at_ : Z) (st : previewState) : previewState :=
  let end_ := g_length st.(pv_gc) in
  let emit at_ len :=
    match s.(sp_data) with
    | Some data =>
        let '(key, ents, km) :=
          match st.(keymap) !! s.(sp_key) with
          | Some key => (key, st.(pv_Ent), st.(keymap))
          | None =>
              let key := Z.of_nat (List.length st.(pv_Ent)) in
              (key, (st.(pv_Ent) ++ [mkEntity s.(sp_tp) (copyLight data)])%list, <[s.(sp_key) := key]> st.(keymap))
          end in
        mkPreview st.(pv_gc) (st.(pv_Fmt) ++ [mkStyle "" at_ len key])%list ents km
    | None => mkPreview st.(pv_gc) (st.(pv_Fmt) ++ [mkStyle s.(sp_tp) at_ len 0])%list st.(pv_Ent) st.(keymap)
    end in
  if s.(sp_at) <? 0 then emit (-1) 0
  else if (at_ <? end_) || isVoid s.(sp_tp) then emit at_ (end_ - at_)
  else st.

(** A leaf adds what still fits of its text. *)
Definition preview_leaf (maxLength at_ : Z) (gc : option graphemes) (st : previewState) : Out previewState :=
  let increment := g_length gc in
  if 0 <? increment then
    let increment := if maxLength <? at_ + increment then maxLength - at_ else increment in
    match g_slice gc 0 increment with
    | Some part =>
        let base := match st.(pv_gc) with None => Some (prepareGraphemes "") | g => g end in
        Ok (mkPreview (Some (g_append base part)) st.(pv_Fmt) st.(pv_Ent) st.(keymap))
    | None => Panic "slice bounds out of range"
    end
  else Ok st.

Fixpoint previewFormatter (maxLength : Z) (n : node) (st : previewState) : Out previewState :=
  let '(Node gc sp children) := n in
  let at_ := g_length st.(pv_gc) in
  if maxLength <=? at_ then Ok st
  else if match sp with Some s => String.eqb s.(sp_tp) "QQ" || (String.eqb s.(sp_tp) "BR" && (at_ =? 0)) | None => false end
  then Ok st
  else
    st' <~ match children with
           | [] => preview_leaf maxLength at_ gc st
           | _ => (fix go (cs : list node) (st : previewState) : Out previewState :=
                     match cs with [] => Ok st | c :: cs' => st' <~ previewFormatter maxLength c st ;; go cs' st' end) children st
           end ;;
    Ok (match sp with Some s => preview_span s at_ st' | None => st' end).

(** The document [Preview] encodes; none for no content. *)
Definition preview_document (content : Any) (length : Z) : Out (option document) :=
  doc <~ decodeAsDrafty content ;;
  match doc with
  | None => Ok None
  | Some d =>
      tree <~ toTree d ;;
      st <~ previewFormatter length tree (mkPreview None [] [] ∅) ;;
      Ok (Some (mkDoc (g_string st.(pv_gc)) st.(pv_Fmt) st.(pv_Ent) st.(pv_gc)))
  end.

Definition Preview (content : Any) (length : Z) : Out (string + GoError) :=
  d <~ preview_document content length ;;
  Ok (match d with None => inl "" | Some d => marshal d end).

(** ** Search text *)

Definition searchable (e : entity) : list string :=
  flat_map (fun key => match nullableMapGet e.(en_Data) key with (v, true) => if String.eqb v "" then [] else [v] | _ => [] end)
    ["name"; "url"].

Definition SearchText (content : Any) : Out string :=
  doc <~ decodeAsDrafty content ;;
  match doc with
  | None => Ok ""
  | Some d =>
      _ <~ toTree d ;;
      let text := if String.eqb d.(Txt) "" then g_string d.(d_gc) else d.(Txt) in
      Ok (TrimSpace (nfkc (String.concat " " (text :: flat_map searchable d.(Ent)))))
  end.

(** ** Classification and checks *)

Record ContentInfo := mkInfo { Kind : string; Attachments : list string; MediaCount : Z; AssetIDs : list string }.

(** [utf8.ValidString] *)
Fixpoint valid_utf8 (s : string) : bool :=
  let within lo hi c := (lo <=? N_of_ascii c)%N && (N_of_ascii c <=? hi)%N in
  let cont := within 128%N 191%N in
  match s with
  | EmptyString => true
  | String a s1 =>
      if within 0%N 127%N a then valid_utf8 s1
      else match s1 with
           | EmptyString => false
           | String b s2 =>
               if within 194%N 223%N a then cont b && valid_utf8 s2
               else match s2 with
                    | EmptyString => false
                    | String c s3 =>
                        if within 224%N 239%N a then
                          (if (N_of_ascii a =? 224)%N then within 160%N 191%N b
                           else if (N_of_ascii a =? 237)%N then within 128%N 159%N b else cont b) && cont c && valid_utf8 s3
                        else match s3 with
                             | EmptyString => false
                             | String d s4 =>
                                 within 240%N 244%N a &&
                                 (if (N_of_ascii a =? 240)%N then within 144%N 191%N b
                                  else if (N_of_ascii a =? 244)%N then within 128%N 143%N b else cont b) &&
                                 cont c && cont d && valid_utf8 s4
                             end
                    end
           end
  end.

Definition asset_char (c : ascii) : bool :=
  let n := N_of_ascii c in
  ((97 <=? n) && (n <=? 122) || (65 <=? n) && (n <=? 90) || (48 <=? n) && (n <=? 57) || (n =? 45) || (n =? 95))%N.

Fixpoint all_chars (f : ascii -> bool) (s : string) : bool :=
  match s with EmptyString => true | String c s' => f c && all_chars f s' end.

Definition validAssetID (id : string) : bool :=
  negb (String.eqb id "") && negb (64 <? Z.of_nat (String.length id)) && all_chars asset_char id.

(** The MIME prefix an entity type demands. *)
Definition wantPrefix (tp : string) : string :=
  if String.eqb tp "IM" then "image/" else if String.eqb tp "VD" then "video/" else if String.eqb tp "AU" then "audio/" else "".

(** A size, width, height or duration that is there must be a number that is not negative. *)
Definition good_number (data : list (string * Any)) (key : string) : bool :=
  match get data key with
  | None => true
  | Some v => match intFromNumeric (Some v) with Ok n => negb (n <? 0) | _ => false end
  end.

Definition good_alt (data : list (string * Any)) : bool :=
  match get data "alt" with
  | None => true
  | Some (AStr v) => negb (64 <? Z.of_nat (String.length v)) && valid_utf8 v
  | Some _ => false
  end.

Definition is_some {A} (o : option A) : bool := match o with Some _ => true | None => false end.

Definition validateEntity (ent : entity) : option DraftyError :=
  let bad what := Some (errInvalidContent what) in
  if contains ["IM"; "VD"; "AU"; "EX"] ent.(en_Tp) then
    match ent.(en_Data) with
    | None => bad "entity has no data"
    | Some data =>
        let mimeType := get_string (Some data) "mime" in
        if negb (String.eqb mimeType "") && negb (String.eqb (wantPrefix ent.(en_Tp)) "") &&
           negb (HasPrefix (ToLower mimeType) (wantPrefix ent.(en_Tp))) then bad "entity has mismatched mime"
        else if String.eqb (get_string (Some data) "ref") "" && negb (is_some (get data "val"))
        then bad "entity has neither ref nor val"
        else if forallb (good_number data) ["size"; "width"; "height"; "duration"] then None else bad "invalid number"
    end
  else if String.eqb ent.(en_Tp) "LN" then
    if String.eqb (get_string ent.(en_Data) "url") "" then bad "link has no url" else None
  else if contains ["SK"; "AE"; "GF"] ent.(en_Tp) then
    match ent.(en_Data) with
    | None => bad "entity has no data"
    | Some data =>
        if negb (validAssetID (get_string (Some data) "asset_id")) then bad "entity has invalid asset_id"
        else if good_alt data then None else bad "entity has invalid alt"
    end
  else None.

(** The kind a media entity stands for; none for other entities. *)
Definition media_kind (ent : entity) : string :=
  let tp := ent.(en_Tp) in
  if String.eqb tp "IM" then "image" else if String.eqb tp "VD" then "video"
  else if String.eqb tp "AU" then
    match ent.(en_Data) with
    | Some d => match get d "voice" with Some (ABool true) => "voice" | _ => "audio" end
    | None => "audio"
    end
  else if String.eqb tp "EX" then "file" else if String.eqb tp "SK" then "sticker"
  else if String.eqb tp "AE" then "animated-emoji" else if String.eqb tp "GF" then "gif" else "".

Definition add_new (l : list string) (s : string) : list string :=
  if String.eqb s "" || contains l s then l else (l ++ [s])%list.

(** The loop over the entities, from [index]: the counts and lists of [info], and [mediaKind]. *)
Fixpoint analyze_entities (fmt : list style) (index : Z) (ents : list entity) (info : ContentInfo) (mediaKind : string)
    : Out (ContentInfo * string) :=
  match ents with
  | [] => Ok (info, mediaKind)
  | ent :: ents' =>
      if negb (contains supportedEntities ent.(en_Tp)) then Fail (errInvalidContent "unsupported entity")
      else if negb (existsb (fun st => String.eqb st.(st_Tp) "" && (st.(st_Key) =? index)) fmt)
      then Fail (errInvalidContent "unreferenced entity")
      else match validateEntity ent with
           | Some e => Fail e
           | None =>
               let kind := media_kind ent in
               if String.eqb kind "" then analyze_entities fmt (index + 1) ents' info mediaKind
               else
                 analyze_entities fmt (index + 1) ents'
                   (mkInfo info.(Kind) (add_new info.(Attachments) (get_string ent.(en_Data) "ref")) (info.(MediaCount) + 1)
                      (add_new info.(AssetIDs) (get_string ent.(en_Data) "asset_id")))
                   (if String.eqb mediaKind "" then kind
                    else if negb (String.eqb mediaKind kind) then "drafty" else mediaKind)
           end
  end.

Definition Analyze (content : Any) : Out ContentInfo :=
  doc <~ decodeAsDrafty content ;;
  match doc with
  | None => Fail (errInvalidContent "")
  | Some d =>
      _ <~ toTree d ;;
      match content with
      | AStr text =>
          if String.eqb text "" then Fail (errInvalidContent "") else Ok (mkInfo "text" [] 0 [])
      | _ =>
          if existsb (fun st => negb (String.eqb st.(st_Tp) "") && negb (contains supportedStyles st.(st_Tp))) d.(Fmt)
          then Fail (errInvalidContent "unsupported style")
          else
            r <~ analyze_entities d.(Fmt) 0 d.(Ent) (mkInfo "drafty" [] 0 []) "" ;;
            let '(info, mediaKind) := r in
            let info := if info.(MediaCount) =? 1
                        then mkInfo mediaKind info.(Attachments) info.(MediaCount) info.(AssetIDs) else info in
            if (info.(MediaCount) =? 0) && String.eqb d.(Txt) "" then Fail (errInvalidContent "") else Ok info
      end
  end.
End Drafty.

(** [validMessageKinds] of internal/server/message_features.go. *)
Definition validMessageKinds : list string :=
  ["text"; "drafty"; "image"; "video"; "voice"; "audio"; "file"; "sticker"; "animated-emoji"; "gif"].

(** ** Instances for concrete runs: every byte a cluster, a stable sort *)

Fixpoint byte_clusters (s : string) : list string :=
  match s with EmptyString => [] | String c s' => String c "" :: byte_clusters s' end.
Definition sort_spans : list span -> list span := sort_by span_less.
Definition plain_analyze : Any -> Out ContentInfo := Analyze byte_clusters sort_spans.
Definition plain_text_of : Any -> Out string := PlainText byte_clusters sort_spans.
