(* ===== verification/DraftyProps.v ===== *)
(** * DraftyProps: properties of rich text

    The recursion over spans ends; documents whose spans do not overflow never panic; spans that
    nest keep the text; previews stay within their bounds; what [Analyze] accepts. *)

From Stdlib Require Import NArith ZArith Lia List Ascii String Bool Permutation Sorted.
From stdpp Require Import base tactics numbers list strings gmap.
From S2P Require Import Prelude Drafty.

#[local] Open Scope string_scope.
#[local] Open Scope Z_scope.

(** ** The result monad *)

Lemma obind_ok {A B} (m : Out A) (k : A -> Out B) b : obind m k = Ok b -> exists a, m = Ok a /\ k a = Ok b.
Proof. destruct m; simpl; eauto; done. Qed.

(** A result that is not a panic. *)
Definition safe {A} (m : Out A) : Prop := forall p, m <> Panic p.

Lemma safe_bind {A B} (m : Out A) (k : A -> Out B) : safe m -> (forall a, m = Ok a -> safe (k a)) -> safe (obind m k).
Proof. intros Hm Hk p. destruct m; simpl; [by apply Hk|done|by destruct (Hm msg)]. Qed.

Lemma safe_ok {A} (a : A) : safe (Ok a). Proof. done. Qed.
Lemma safe_fail {A} e : safe (Fail (A := A) e). Proof. done. Qed.

Create HintDb drafty.
#[export] Hint Resolve safe_bind safe_ok safe_fail : drafty.

(** ** Splitting spans *)

Lemma split_spans_app e l : ((split_spans e l).1 ++ (split_spans e l).2)%list = l.
Proof.
  induction l as [|s l IH]; simpl; [done|]. destruct (sp_at s <? e); [|done].
  destruct (split_spans e l) as [a b]. simpl in *. by f_equal.
Qed.

Lemma split_spans_length e l :
  (List.length (split_spans e l).1 <= List.length l)%nat /\ (List.length (split_spans e l).2 <= List.length l)%nat.
Proof. rewrite <-(split_spans_app e l) at 2 4. rewrite length_app. lia. Qed.

Lemma split_spans_in e l s : In s (split_spans e l).1 \/ In s (split_spans e l).2 <-> In s l.
Proof. rewrite <-(split_spans_app e l) at 3. by rewrite in_app_iff. Qed.

Lemma split_spans_before e l s : In s (split_spans e l).1 -> s.(sp_at) < e.
Proof.
  induction l as [|x l IH]; simpl; [done|]. destruct (Z.ltb_spec (sp_at x) e); [|done].
  destruct (split_spans e l) as [a b]. simpl in *. intros [<-|?]; auto.
Qed.

Definition span_le (a b : span) : Prop := span_less b a = false.

Lemma span_le_spec a b : span_le a b <-> sp_at a < sp_at b \/ sp_at a = sp_at b /\ sp_end b <= sp_end a.
Proof.
  unfold span_le, span_less. destruct (Z.eqb_spec (sp_at b) (sp_at a)); simpl.
  - rewrite Z.ltb_ge. lia.
  - rewrite Z.ltb_ge. lia.
Qed.

Lemma split_spans_after e l s : StronglySorted span_le l -> In s (split_spans e l).2 -> e <= s.(sp_at).
Proof.
  induction 1 as [|x l Hs IH Hx]; simpl; [done|]. destruct (Z.ltb_spec (sp_at x) e).
  - destruct (split_spans e l) as [a b]. simpl in *. auto.
  - intros [<-|Hin]; [done|]. rewrite List.Forall_forall in Hx. apply Hx, span_le_spec in Hin. lia.
Qed.

Lemma StronglySorted_split e l : StronglySorted span_le l ->
  StronglySorted span_le (split_spans e l).1 /\ StronglySorted span_le (split_spans e l).2.
Proof.
  intros H. rewrite <-(split_spans_app e l) in H. by apply StronglySorted_app_inv in H as (? & ? & _).
Qed.

(** ** Slices *)

Definition g_ok (g : graphemes) : Prop :=
  Forall (fun z => 0 <= z) g.(sizes) /\ sumz g.(sizes) <= Z.of_nat (String.length g.(g_original)).

Lemma sumz_app l1 l2 : sumz (l1 ++ l2) = sumz l1 + sumz l2.
Proof. unfold sumz. induction l1; simpl; lia. Qed.

Lemma sumz_nonneg l : Forall (fun z => 0 <= z) l -> 0 <= sumz l.
Proof. unfold sumz. induction 1; simpl; lia. Qed.

Lemma sumz_part l a b : Forall (fun z => 0 <= z) l -> sumz (firstn a l) + sumz (firstn b (skipn a l)) <= sumz l.
Proof.
  intros H. rewrite <-sumz_app. rewrite <-(firstn_skipn a l) at 3. rewrite sumz_app, sumz_app.
  assert (Forall (fun z => 0 <= z) (skipn a l)) as Hs by (by apply Forall_drop).
  rewrite <-(firstn_skipn b (skipn a l)) at 2. rewrite sumz_app.
  pose proof (sumz_nonneg (skipn b (skipn a l)) ltac:(by apply Forall_drop)). lia.
Qed.

Lemma length_substring_gen n m s : (n + m <= String.length s)%nat -> String.length (String.substring n m s) = m.
Proof.
  revert n m. induction s as [|c s IH]; intros n m Hl; simpl in Hl.
  - by destruct n, m; simpl; try lia.
  - destruct n as [|n]; [|simpl; apply IH; lia]. destruct m as [|m]; [done|]. simpl. f_equal. apply (IH 0%nat). lia.
Qed.

Definition gs_ok (g : option graphemes) : Prop := match g with None => True | Some g => g_ok g end.

(** A slice within bounds succeeds, has the length asked for and is sound again. *)
Lemma g_slice_ok g a b : gs_ok g -> 0 <= a <= b -> b <= g_length g -> (a < b \/ g <> None) ->
  exists p, g_slice g a b = Some p /\ g_ok p /\ Z.of_nat (List.length p.(sizes)) = b - a.
Proof.
  destruct g as [g|]; simpl; [|intros _ ? ? [?|?]; [lia|done]]. intros [Hn Hs] Ha Hb _.
  rewrite (proj2 (Z.ltb_ge a 0)), (proj2 (Z.ltb_ge b a)), (proj2 (Z.ltb_ge _ b)) by lia. simpl.
  pose proof (sumz_part (sizes g) (Z.to_nat a) (Z.to_nat (b - a)) Hn) as Hp.
  set (pre := firstn (Z.to_nat a) (sizes g)) in *. set (part := firstn _ (skipn _ _)) in *.
  assert (Forall (fun z => 0 <= z) pre) as H1 by (by apply Forall_take).
  assert (Forall (fun z => 0 <= z) part) as H2 by (by apply Forall_take, Forall_drop).
  pose proof (sumz_nonneg _ H1). pose proof (sumz_nonneg _ H2).
  destruct (Z.ltb_spec (Z.of_nat (String.length (g_original g))) (sumz pre + sumz part)); [lia|].
  eexists. split; [done|]. split.
  - split; [done|]. simpl. rewrite length_substring_gen by lia. lia.
  - simpl. unfold part. rewrite length_firstn, length_skipn. lia.
Qed.

Lemma leaf_safe g a b : gs_ok g -> 0 <= a < b -> b <= g_length g -> safe (leaf g a b).
Proof. intros Hg Ha Hb. unfold leaf. by destruct (g_slice_ok g a b Hg ltac:(lia) Hb ltac:(left; lia)) as (p & -> & _). Qed.

(** ** The recursion over spans *)

Lemma forEach_enough g n m start end_ spans :
  (List.length spans <= n)%nat -> (List.length spans <= m)%nat ->
  forEach n g start end_ spans = forEach m g start end_ spans.
Proof.
  revert m start end_ spans. induction n as [|n IH]; intros m start end_ [|sp spans] Hn Hm; try (simpl in Hn; lia).
  - by destruct m.
  - by destruct m.
  - destruct m as [|m]; [simpl in Hm; lia|]. simpl in Hn, Hm. cbn [forEach].
    pose proof (split_spans_length (sp_end sp) spans) as [L1 L2].
    destruct (sp_at sp <? 0); [by rewrite (IH m) by lia|].
    destruct (split_spans (sp_end sp) spans) as [sub later]. simpl in L1, L2.
    rewrite (IH m _ _ later) by lia.
    destruct (if start <? sp_at sp then _ else _); simpl; [|done|done]. by rewrite (IH m _ _ sub) by lia.
Qed.

(** A span whose bounds lie in a text of [n] clusters; an attachment has its start at -1. *)
Definition in_text (n : Z) (s : span) : Prop := -1 <= s.(sp_at) /\ s.(sp_at) <= s.(sp_end) <= n.

Lemma Forall_split {P : span -> Prop} e l : Forall P l -> Forall P (split_spans e l).1 /\ Forall P (split_spans e l).2.
Proof. intros H. rewrite <-(split_spans_app e l) in H. by apply Forall_app in H. Qed.

Lemma forEach_safe g n start end_ spans :
  gs_ok g -> Forall (in_text (g_length g)) spans -> (List.length spans <= n)%nat -> 0 <= start -> end_ <= g_length g ->
  safe (forEach n g start end_ spans).
Proof.
  intros Hg. revert start end_ spans. induction n as [|n IH]; intros start end_ [|sp spans] Hs Hn H0 He;
    try (simpl in Hn; lia).
  1,2: cbn [forEach]; destruct (Z.ltb_spec start end_); auto using safe_bind, safe_ok, leaf_safe.
  simpl in Hn. apply List.Forall_cons_iff in Hs as [[Hat Hend] Hs]. cbn [forEach].
  destruct (Z.ltb_spec (sp_at sp) 0); [apply safe_bind; [apply IH; auto; lia|done]|].
  pose proof (split_spans_length (sp_end sp) spans) as [L1 L2].
  pose proof (Forall_split (sp_end sp) spans Hs) as [F1 F2].
  apply safe_bind; [|intros pre _].
  { destruct (Z.ltb_spec start (sp_at sp)); [apply safe_bind; [apply leaf_safe; auto; lia|done]|done]. }
  destruct (split_spans (sp_end sp) spans) as [sub later]. simpl in *.
  apply safe_bind; [|intros nd _].
  - destruct (isVoid (sp_tp sp)); [done|]. apply safe_bind; [|done]. apply IH; auto; [lia| |lia].
    destruct (start <? sp_at sp); lia.
  - apply safe_bind; [|done]. apply IH; auto; lia.
Qed.

(** ** From the document to its spans *)

Section Documents.
Context (clusters : string -> list string) (sortSlice : list span -> list span).
Context (nfkc : string -> string) (marshal : document -> string + GoError).
(** uniseg cuts a text into its parts; sort.Slice permutes. *)
Context (clusters_law : forall s, String.concat "" (clusters s) = s).
Context (sort_perm : forall l, Permutation (sortSlice l) l).

Lemma prepare_ok str : g_ok (prepareGraphemes clusters str).
Proof.
  split; unfold prepareGraphemes; simpl.
  - apply List.Forall_forall. intros z Hz. apply in_map_iff in Hz as (c & <- & _). apply Z.mod_pos_bound. lia.
  - rewrite <-(clusters_law str) at 2. induction (clusters str) as [|c cs IH]; [simpl; lia|].
    assert (String.length (String.concat "" (c :: cs)) = String.length c + String.length (String.concat "" cs))%nat as ->.
    { destruct cs; simpl; [lia|]. by rewrite length_append. }
    simpl. pose proof (Z.mod_le (Z.of_nat (String.length c)) 256). lia.
Qed.

(** A style whose end fits an int. *)
Definition fits (f : style) : Prop := f.(st_At) + f.(st_Length) < 2 ^ 63.

Lemma int64_id z : - 2 ^ 63 <= z < 2 ^ 63 -> int64 z = z.
Proof. intros H. unfold int64. rewrite Z.mod_small; lia. Qed.

Lemma int64_range z : - 2 ^ 63 <= int64 z < 2 ^ 63.
Proof. unfold int64. pose proof (Z.mod_pos_bound (z + 2 ^ 63) (2 ^ 64)). lia. Qed.

Lemma to_span_safe ents n f : safe (to_span ents n f).
Proof.
  unfold to_span. apply safe_bind; [|intros s _].
  { unfold styleToSpan. by repeat destruct (_ <? _) || destruct (String.eqb _ _). }
  destruct (_ || _); [done|]. apply safe_bind; [|intros s' _; by destruct (_ && _)].
  destruct (_ && _); [|done]. destruct (Z.ltb_spec (sp_key s) 0); simpl; [done|].
  destruct (Z.leb_spec (Z.of_nat (List.length ents)) (sp_key s)); [done|].
  destruct (ents !! Z.to_nat (sp_key s)) eqn:E; [done|]. apply lookup_ge_None in E. lia.
Qed.

Lemma to_spans_safe ents n fmt : safe (to_spans ents n fmt).
Proof. induction fmt; simpl; [done|]. apply safe_bind; [apply to_span_safe|]. intros. by apply safe_bind. Qed.

Lemma to_span_bounds ents n f s : -1 - 2 ^ 62 <= n ->
  fits f -> to_span ents n f = Ok s -> in_text n s /\ s.(sp_at) = f.(st_At) /\ s.(sp_end) = f.(st_At) + f.(st_Length).
Proof.
  intros Hn Hf H. unfold to_span in H. apply obind_ok in H as (s0 & H0 & H).
  assert (sp_at s0 = st_At f /\ sp_end s0 = int64 (st_Length f + st_At f) /\ 0 <= st_Length f) as (E1 & E2 & E3).
  { unfold styleToSpan in H0. destruct (Z.ltb_spec (st_Length f) 0); [done|].
    destruct (String.eqb _ _); [destruct (_ <? _); [done|]|]; by injection H0 as <-. }
  destruct (Z.ltb_spec (sp_at s0) (-1)); [done|]. destruct (Z.ltb_spec n (sp_end s0)); [done|]. simpl in H.
  apply obind_ok in H as (s1 & Hs1 & H). destruct (_ && _ && _ && _); [done|]. injection H as <-.
  assert (sp_at s1 = sp_at s0 /\ sp_end s1 = sp_end s0) as [E4 E5].
  { destruct (_ && _) in Hs1; [|by injection Hs1 as <-]. destruct (_ || _) in Hs1; [done|].
    destruct (ents !! _) in Hs1; [by injection Hs1 as <-|done]. }
  unfold fits in Hf. rewrite int64_id in E2 by lia. unfold in_text. lia.
Qed.

Lemma to_spans_bounds ents n fmt l : -1 - 2 ^ 62 <= n ->
  Forall fits fmt -> to_spans ents n fmt = Ok l -> Forall (in_text n) l.
Proof.
  intros Hn Hf. revert l. induction Hf as [|f fmt Hf _ IH]; simpl; intros l H; [by injection H as <-|].
  apply obind_ok in H as (s & Hs & H). apply obind_ok in H as (r & Hr & H). injection H as <-.
  constructor; [by eapply to_span_bounds|by apply IH].
Qed.

Lemma filter_spans_in e l s : In s (filter_spans e l) -> In s l.
Proof.
  revert e. induction l as [|x l IH]; intros e; simpl; [done|]. destruct (_ && _); [by right; eapply IH|].
  intros [->|H]; [by left|]. right. by eapply IH.
Qed.

Definition doc_ok (d : document) : Prop := gs_ok d.(d_gc) /\ Forall fits d.(Fmt).

Lemma g_length_nonneg g : 0 <= g_length g.
Proof. destruct g; simpl; lia. Qed.

Lemma toTree_safe d : doc_ok d -> safe (toTree sortSlice d).
Proof.
  intros [Hg Hf]. unfold toTree. destruct (Fmt d) as [|f fmt]; [done|].
  apply safe_bind; [apply to_spans_safe|]. intros l Hl. apply safe_bind; [|done].
  pose proof (g_length_nonneg (d_gc d)). apply to_spans_bounds in Hl; [|lia|done].
  apply forEach_safe; auto; [|lia|lia]. apply List.Forall_forall. intros s Hs. apply filter_spans_in in Hs.
  rewrite List.Forall_forall in Hl. apply Hl. eapply Permutation_in; [|exact Hs]. apply sort_perm.
Qed.

(** ** Trees *)

Lemma node_induction (P : node -> Prop) :
  (forall gc sp cs, Forall P cs -> P (Node gc sp cs)) -> forall n, P n.
Proof.
  intros H. fix IH 1. intros [gc sp cs]. apply H. induction cs as [|c cs IHcs]; constructor; [apply IH|exact IHcs].
Qed.

(** Every leaf can be sliced. *)
Fixpoint tree_ok (n : node) : Prop :=
  let '(Node gc _ cs) := n in gs_ok gc /\ (fix all cs := match cs with [] => True | c :: cs' => tree_ok c /\ all cs' end) cs.

Lemma tree_ok_node gc sp cs : tree_ok (Node gc sp cs) <-> gs_ok gc /\ Forall tree_ok cs.
Proof.
  simpl. apply and_iff_compat_l. induction cs as [|c cs IH]; [by split|].
  rewrite IH. split; [intros [? ?]; by constructor|by intros H; inversion H].
Qed.

Lemma leaf_ok g a b n : gs_ok g -> leaf g a b = Ok n -> tree_ok n.
Proof.
  unfold leaf. intros Hg. destruct (g_slice g a b) as [p|] eqn:E; [|done]. intros [= <-]. simpl. split; [|done].
  assert (0 <= a <= b /\ b <= g_length g /\ g <> None) as (Ha & Hb & Hn).
  { unfold g_slice in E. destruct g as [g|]; [|done]. simpl.
    destruct (Z.ltb_spec a 0); [done|]. destruct (Z.ltb_spec b a); [done|].
    destruct (Z.ltb_spec (Z.of_nat (List.length (sizes g))) b); [done|]. repeat split; lia || done. }
  destruct (g_slice_ok g a b Hg Ha Hb (or_intror Hn)) as (p' & E' & Hp & _). congruence.
Qed.

Lemma forEach_tree g n start end_ spans ns :
  gs_ok g -> forEach n g start end_ spans = Ok ns -> Forall tree_ok ns.
Proof.
  intros Hg. revert start end_ spans ns. induction n as [|n IH]; intros start end_ [|sp spans] ns; cbn [forEach]; try done.
  1,2: destruct (start <? end_); [|by intros [= <-]]; intros (x & Hx & [= <-])%obind_ok;
       constructor; [by eapply leaf_ok|done].
  destruct (sp_at sp <? 0).
  - intros (r & Hr & [= <-])%obind_ok. constructor; [done|by eapply IH].
  - destruct (split_spans (sp_end sp) spans) as [sub later].
    intros (pre & Hpre & (x & Hx & (r & Hr & [= <-])%obind_ok)%obind_ok)%obind_ok. apply Forall_app. split; [|constructor].
    + destruct (start <? sp_at sp); [|by injection Hpre as <-]. apply obind_ok in Hpre as (y & Hy & [= <-]).
      constructor; [by eapply leaf_ok|done].
    + destruct (isVoid _); [by injection Hx as <-|]. apply obind_ok in Hx as (cs & Hcs & [= <-]).
      apply tree_ok_node. split; [done|by eapply IH].
    + by eapply IH.
Qed.

Lemma toTree_ok d t : gs_ok d.(d_gc) -> toTree sortSlice d = Ok t -> tree_ok t.
Proof.
  intros Hg. unfold toTree. destruct (Fmt d) as [|f fmt]; [intros [= <-]; by split|].
  intros (l & _ & (cs & Hcs & [= <-])%obind_ok)%obind_ok. apply tree_ok_node. split; [done|by eapply forEach_tree].
Qed.

(** ** Previews *)

(** The children loop of [previewFormatter]. *)
Fixpoint preview_children (maxLength : Z) (cs : list node) (st : previewState) : Out previewState :=
  match cs with
  | [] => Ok st
  | c :: cs' => st' <~ previewFormatter clusters maxLength c st ;; preview_children maxLength cs' st'
  end.

Lemma previewFormatter_eq maxLength gc sp cs st :
  previewFormatter clusters maxLength (Node gc sp cs) st =
    if maxLength <=? g_length st.(pv_gc) then Ok st
    else if match sp with Some s => String.eqb s.(sp_tp) "QQ" || (String.eqb s.(sp_tp) "BR" && (g_length st.(pv_gc) =? 0)) | None => false end
    then Ok st
    else
      st' <~ match cs with [] => preview_leaf clusters maxLength (g_length st.(pv_gc)) gc st | _ => preview_children maxLength cs st end ;;
      Ok (match sp with Some s => preview_span s (g_length st.(pv_gc)) st' | None => st' end).
Proof.
  assert (forall cs0 st0, (fix go (cs : list node) (st : previewState) : Out previewState :=
     match cs with [] => Ok st | c :: cs' => st' <~ previewFormatter clusters maxLength c st ;; go cs' st' end) cs0 st0
     = preview_children maxLength cs0 st0) as E.
  { induction cs0 as [|c l IH]; intros st0; simpl; [done|]. by destruct (previewFormatter clusters maxLength c st0); simpl. }
  destruct cs as [|c cs]; [reflexivity|]. rewrite <-(E (c :: cs)). reflexivity.
Qed.

(** A preview so far: its text is within the limit, its styles lie in its text, its references are sound and its
    entities carry only short values of known fields. *)
Record preview_ok (maxLength : Z) (st : previewState) : Prop := {
  po_length : g_length st.(pv_gc) <= Z.max 0 maxLength;
  po_styles : Forall (fun f => f.(st_At) = -1 /\ f.(st_Length) = 0 \/
                               0 <= f.(st_At) /\ 0 <= f.(st_Length) /\ f.(st_At) + f.(st_Length) <= g_length st.(pv_gc)) st.(pv_Fmt);
  po_keys : Forall (fun f => f.(st_Key) = 0 \/ 0 <= f.(st_Key) < Z.of_nat (List.length st.(pv_Ent))) st.(pv_Fmt);
  po_keymap : forall k v, st.(keymap) !! k = Some v -> 0 <= v < Z.of_nat (List.length st.(pv_Ent));
  po_light : Forall (fun e => forall d, e.(en_Data) = Some d ->
     Forall (fun kv => In kv.1 lightFields /\ is_light kv.2 = true) d) st.(pv_Ent) }.

Lemma copy_fields_light data keys r :
  (forall k, In k keys -> In k lightFields) -> Forall (fun kv => In kv.1 lightFields /\ is_light kv.2 = true) r ->
  Forall (fun kv => In kv.1 lightFields /\ is_light kv.2 = true) (copy_fields data keys r).
Proof.
  revert r. induction keys as [|k keys IH]; simpl; intros r Hk Hr; [done|].
  set (r' := match get data k with Some v => _ | None => r end).
  assert (Forall (fun kv => In kv.1 lightFields /\ is_light kv.2 = true) r') as Hr'.
  { subst r'. destruct (get data k) as [v|]; [|done]. destruct (is_light v) eqn:E; [|done].
    apply Forall_app. split; [done|]. constructor; [|done]. split; [apply Hk; by left|done]. }
  destruct (_ <? _)%nat; [done|]. apply IH; [|done]. intros k' Hk'. apply Hk. by right.
Qed.

Lemma copyLight_light data d : copyLight data = Some d -> Forall (fun kv => In kv.1 lightFields /\ is_light kv.2 = true) d.
Proof.
  unfold copyLight. destruct data as [|x data]; [by intros [= <-]|].
  pose proof (copy_fields_light (x :: data) lightFields [] ltac:(auto) ltac:(done)) as H.
  destruct (copy_fields _ _ _); [done|]. by intros [= <-].
Qed.

Lemma preview_span_ok maxLength s at_ st :
  preview_ok maxLength st -> 0 <= at_ <= g_length st.(pv_gc) ->
  preview_ok maxLength (preview_span s at_ st) /\ (preview_span s at_ st).(pv_gc) = st.(pv_gc).
Proof.
  intros [H1 H2 H3 H4 H5] Hat. unfold preview_span.
  assert (forall a l, (a = -1 /\ l = 0 \/ 0 <= a /\ 0 <= l /\ a + l <= g_length st.(pv_gc)) ->
    let st' := match s.(sp_data) with
      | Some data =>
        let '(key, ents, km) :=
          match st.(keymap) !! s.(sp_key) with
          | Some key => (key, st.(pv_Ent), st.(keymap))
          | None =>
              let key := Z.of_nat (List.length st.(pv_Ent)) in
              (key, (st.(pv_Ent) ++ [mkEntity s.(sp_tp) (copyLight data)])%list, <[s.(sp_key) := key]> st.(keymap))
          end in
        mkPreview st.(pv_gc) (st.(pv_Fmt) ++ [mkStyle "" a l key])%list ents km
      | None => mkPreview st.(pv_gc) (st.(pv_Fmt) ++ [mkStyle s.(sp_tp) a l 0])%list st.(pv_Ent) st.(keymap)
      end in preview_ok maxLength st' /\ st'.(pv_gc) = st.(pv_gc)) as Hemit.
  { intros a l Hal. destruct (sp_data s) as [data|].
    - destruct (keymap st !! sp_key s) as [key|] eqn:Ek; simpl; (split; [|done]).
      + pose proof (H4 _ _ Ek). constructor; simpl; auto; apply Forall_app; split; auto.
      + constructor; simpl; auto.
        * apply Forall_app; auto.
        * rewrite length_app. simpl. apply Forall_app. split; [|constructor; [simpl; lia|done]].
          eapply List.Forall_impl; [|exact H3]. simpl. lia.
        * rewrite length_app. simpl. intros k v [[<- <-]|[_ Hv]]%lookup_insert_Some; [lia|].
          specialize (H4 _ _ Hv). lia.
        * apply Forall_app. split; [done|]. constructor; [|done]. simpl. apply copyLight_light.
    - simpl. split; [|done]. constructor; simpl; auto; apply Forall_app; split; auto. }
  destruct (sp_at s <? 0); [apply Hemit; auto|]. destruct (_ || _); [apply Hemit; lia|]. split; [by constructor|done].
Qed.

Lemma g_slice_length g a b p : g_slice g a b = Some p -> Z.of_nat (List.length p.(sizes)) = b - a.
Proof.
  unfold g_slice. destruct g as [g|]; [|done].
  destruct (Z.ltb_spec a 0); [done|]. destruct (Z.ltb_spec b a); [done|].
  destruct (Z.ltb_spec (Z.of_nat (List.length (sizes g))) b); [done|]. simpl.
  destruct (_ <? _); [done|]. intros [= <-]. simpl. rewrite length_firstn, length_skipn. lia.
Qed.

Lemma preview_leaf_ok maxLength gc st st' :
  preview_ok maxLength st -> g_length st.(pv_gc) < maxLength -> prepareGraphemes clusters "" = mkGraphemes "" [] ->
  preview_leaf clusters maxLength (g_length st.(pv_gc)) gc st = Ok st' ->
  preview_ok maxLength st' /\ g_length st.(pv_gc) <= g_length st'.(pv_gc).
Proof.
  intros [H1 H2 H3 H4 H5] Hlt He. unfold preview_leaf. destruct (Z.ltb_spec 0 (g_length gc)); [|intros [= <-]; split; [by constructor|lia]].
  set (inc := if _ <? _ then _ else _).
  assert (0 < inc /\ g_length st.(pv_gc) + inc <= maxLength) as [Hi1 Hi2].
  { subst inc. destruct (Z.ltb_spec maxLength (g_length st.(pv_gc) + g_length gc)); lia. }
  destruct (g_slice gc 0 inc) as [p|] eqn:E; [|done]. apply g_slice_length in E. intros [= <-]. simpl.
  assert (Z.of_nat (List.length (sizes (g_append (match pv_gc st with None => Some (prepareGraphemes clusters "") | Some g => Some g end) p)))
     = g_length st.(pv_gc) + inc) as El.
  { rewrite He. destruct (pv_gc st) as [g|]; simpl; rewrite ?length_app; lia. }
  split; [|rewrite El; lia]. constructor; simpl; auto; rewrite ?El; [lia|].
  eapply List.Forall_impl; [|exact H2]. simpl. lia.
Qed.

Lemma previewFormatter_ok maxLength n : prepareGraphemes clusters "" = mkGraphemes "" [] ->
  forall st st', preview_ok maxLength st -> previewFormatter clusters maxLength n st = Ok st' ->
  preview_ok maxLength st' /\ g_length st.(pv_gc) <= g_length st'.(pv_gc).
Proof.
  intros He. induction n as [gc sp cs IH] using node_induction. intros st st' Hst.
  rewrite previewFormatter_eq. destruct (Z.leb_spec maxLength (g_length (pv_gc st))); [intros [= <-]; split; [done|lia]|].
  destruct (match sp with Some _ => _ | None => _ end); [intros [= <-]; split; [done|lia]|].
  intros (st1 & H1 & [= <-])%obind_ok.
  assert (preview_ok maxLength st1 /\ g_length st.(pv_gc) <= g_length st1.(pv_gc)) as [Hok Hle].
  { destruct cs as [|c cs]; [by eapply preview_leaf_ok|]. clear H.
    revert st Hst H1. induction IH as [|x l Hx _ IHl]; intros st Hst; simpl; [intros [= <-]; split; [done|lia]|].
    intros (st2 & H2 & H3)%obind_ok. destruct (Hx _ _ Hst H2) as [Hok2 Hle2]. destruct (IHl _ Hok2 H3). split; [done|lia]. }
  destruct sp as [s|]; [|done]. pose proof (g_length_nonneg (pv_gc st)).
  destruct (preview_span_ok maxLength s (g_length (pv_gc st)) st1 Hok ltac:(lia)) as [Hs ->]. done.
Qed.

Lemma previewFormatter_safe maxLength n st : tree_ok n -> safe (previewFormatter clusters maxLength n st).
Proof.
  revert st. induction n as [gc sp cs IH] using node_induction. intros st [Hg Hcs]%tree_ok_node. rewrite previewFormatter_eq.
  destruct (Z.leb_spec maxLength (g_length (pv_gc st))); [done|]. destruct (match sp with Some _ => _ | None => _ end); [done|].
  apply safe_bind; [|done]. destruct cs as [|c cs].
  - unfold preview_leaf. destruct (Z.ltb_spec 0 (g_length gc)); [|done].
    set (inc := if _ <? _ then _ else _).
    assert (0 < inc <= g_length gc) as Hi.
    { subst inc. destruct (Z.ltb_spec maxLength (g_length st.(pv_gc) + g_length gc)); lia. }
    by destruct (g_slice_ok gc 0 inc Hg ltac:(lia) ltac:(lia) ltac:(left; lia)) as (p & -> & _).
  - clear H. revert st. induction IH as [|x l Hx _ IHl]; intros st; simpl; [done|].
    apply List.Forall_cons_iff in Hcs as [Hx' Hl]. apply safe_bind; [by apply Hx|]. intros st1 _. by apply IHl.
Qed.

(** ** The text of the tree *)

(** All text of the leaves, in order. *)
Fixpoint tree_text (n : node) : string :=
  let '(Node gc _ cs) := n in
  match cs with
  | [] => g_string gc
  | _ => (fix go (cs : list node) : string := match cs with [] => "" | c :: cs' => tree_text c ++ go cs' end) cs
  end.

Fixpoint texts (cs : list node) : string := match cs with [] => "" | c :: cs' => tree_text c ++ texts cs' end.

Lemma tree_text_children sp cs : tree_text (Node None sp cs) = texts cs.
Proof. by destruct cs. Qed.

Lemma texts_app l1 l2 : texts (l1 ++ l2)%list = texts l1 ++ texts l2.
Proof. induction l1 as [|n l1 IH]; simpl; [done|]. by rewrite IH, append_assoc. Qed.

Lemma concat_app l1 l2 : String.concat "" (l1 ++ l2)%list = String.concat "" l1 ++ String.concat "" l2.
Proof.
  induction l1 as [|a l1 IH]; [done|].
  assert (forall b l, String.concat "" (b :: l) = b ++ String.concat "" l) as E
    by (intros b l; destruct l; simpl; by rewrite ?append_nil_r).
  simpl app. by rewrite !E, IH, append_assoc.
Qed.

Lemma substring_middle (a b c : string) :
  String.substring (String.length a) (String.length b) (a ++ b ++ c) = b.
Proof. induction a as [|x a IH]; simpl; [apply substring_append_prefix|exact IH]. Qed.

Section Text.
Context (txt : string) (small : Forall (fun c => (String.length c < 256)%nat) (clusters txt)).

Let g : option graphemes := Some (prepareGraphemes clusters txt).

(** The clusters from [a] up to [b]. *)
Definition between (a b : Z) : string := String.concat "" (firstn (Z.to_nat (b - a)) (skipn (Z.to_nat a) (clusters txt))).

Lemma between_app a b c : 0 <= a <= b -> b <= c -> between a b ++ between b c = between a c.
Proof.
  intros Hab Hbc. unfold between. rewrite <-concat_app. f_equal.
  replace (Z.to_nat (c - a)) with (Z.to_nat (b - a) + Z.to_nat (c - b))%nat by lia.
  replace (Z.to_nat b) with (Z.to_nat (b - a) + Z.to_nat a)%nat by lia.
  rewrite <-skipn_skipn. generalize (skipn (Z.to_nat a) (clusters txt)) as l, (Z.to_nat (b - a)) as n, (Z.to_nat (c - b)) as m.
  intros l n m. revert l. induction n as [|n IH]; intros l; [done|]. destruct l as [|x l]; simpl; [by destruct m|]. by rewrite IH.
Qed.

Lemma between_all : between 0 (g_length g) = txt.
Proof.
  unfold between. simpl. rewrite length_map, skipn_O, firstn_all2 by lia. apply clusters_law.
Qed.

Lemma sum_sizes (l : list string) : Forall (fun c => (String.length c < 256)%nat) l ->
  sumz (map (fun c => Z.of_nat (String.length c) mod 256) l) = Z.of_nat (String.length (String.concat "" l)).
Proof.
  induction 1 as [|c l Hc _ IH]; [done|]. change (c :: l) with ([c] ++ l)%list. rewrite concat_app, length_append, map_app, sumz_app, IH.
  simpl. rewrite Z.mod_small by lia. lia.
Qed.

Lemma leaf_text a b n : 0 <= a <= b -> b <= g_length g -> leaf g a b = Ok n -> tree_text n = between a b.
Proof.
  intros Hab Hb. unfold leaf. destruct (g_slice g a b) as [p|] eqn:E; [|done]. intros [= <-]. simpl.
  unfold g_slice, g in E. destruct (_ || _ || _); [done|]. destruct (_ <? _); [done|]. injection E as <-. simpl.
  rewrite skipn_map, !firstn_map.
  set (pre := firstn (Z.to_nat a) (clusters txt)). set (mid := firstn (Z.to_nat (b - a)) (skipn (Z.to_nat a) (clusters txt))).
  rewrite !sum_sizes by (apply Forall_take; try apply Forall_drop; done).
  rewrite Z.add_simpl_l, !Nat2Z.id. unfold between. fold mid.
  rewrite <-(clusters_law txt) at 1. rewrite <-(firstn_skipn (Z.to_nat a) (clusters txt)) at 1. fold pre.
  rewrite <-(firstn_skipn (Z.to_nat (b - a)) (skipn (Z.to_nat a) (clusters txt))) at 1. fold mid.
  rewrite !concat_app. apply substring_middle.
Qed.

(** Two spans cross when the second begins inside the first and ends beyond it. *)
Definition crossing (a b : span) : Prop := a.(sp_at) < b.(sp_at) < a.(sp_end) /\ a.(sp_end) < b.(sp_end).

(** Spans that nest, with no text under a style that hides it. *)
Definition nested (l : list span) : Prop :=
  (forall a b, In a l -> In b l -> 0 <= a.(sp_at) -> ~ crossing a b) /\
  (forall s, In s l -> 0 <= s.(sp_at) -> isVoid s.(sp_tp) = true -> s.(sp_at) = s.(sp_end)).

Lemma nested_sub l l' : (forall s, In s l' -> In s l) -> nested l -> nested l'.
Proof. intros Hs [H1 H2]. split; eauto. Qed.

Lemma forEach_text n start end_ spans ns :
  StronglySorted span_le spans -> nested spans -> Forall (in_text (g_length g)) spans ->
  (forall s, In s spans -> 0 <= s.(sp_at) -> start <= s.(sp_at) /\ s.(sp_end) <= end_) ->
  0 <= start <= end_ -> end_ <= g_length g ->
  forEach n g start end_ spans = Ok ns -> texts ns = between start end_.
Proof.
  revert start end_ spans ns. induction n as [|n IH]; intros start end_ spans ns Hsort Hnest Hin Hbnd Hse He.
  all: destruct spans as [|sp spans]; cbn [forEach]; try done.
  1,2: destruct (Z.ltb_spec start end_); [intros (x & Hx & [= <-])%obind_ok; simpl; rewrite append_nil_r; by apply leaf_text|];
       intros [= <-]; unfold between; by replace (Z.to_nat (end_ - start)) with 0%nat by lia.
  apply StronglySorted_inv in Hsort as [Hsort Hle]. rewrite List.Forall_forall in Hle.
  apply List.Forall_cons_iff in Hin as [[Hat Hend] Hin].
  assert (nested spans) as Hnest' by (eapply nested_sub; [|exact Hnest]; by right).
  destruct (Z.ltb_spec (sp_at sp) 0).
  { intros (r & Hr & [= <-])%obind_ok. simpl. eapply IH; eauto. intros s Hs. apply Hbnd. by right. }
  destruct (Hbnd sp) as [Hs1 Hs2]; [by left|lia|].
  pose proof (split_spans_in (sp_end sp) spans) as Hsi. pose proof (StronglySorted_split (sp_end sp) spans Hsort) as [S1 S2].
  pose proof (fun s => split_spans_after (sp_end sp) spans s Hsort) as Hafter.
  pose proof (split_spans_before (sp_end sp) spans) as Hbefore. pose proof (Forall_split (sp_end sp) spans Hin) as [F1 F2].
  destruct (split_spans (sp_end sp) spans) as [sub later]. cbn [fst snd] in *.
  intros (pre & Hpre & (x & Hx & (r & Hr & [= <-])%obind_ok)%obind_ok)%obind_ok.
  assert (texts pre = between start (sp_at sp)) as Epre.
  { destruct (Z.ltb_spec start (sp_at sp)).
    - apply obind_ok in Hpre as (y & Hy & [= <-]). simpl. rewrite append_nil_r. apply leaf_text; [lia|lia|done].
    - injection Hpre as <-. unfold between. by replace (Z.to_nat (sp_at sp - start)) with 0%nat by lia. }
  assert ((if start <? sp_at sp then sp_at sp else start) = sp_at sp) as Es by (destruct (Z.ltb_spec start (sp_at sp)); lia).
  assert (tree_text x = between (sp_at sp) (sp_end sp)) as Ex.
  { destruct (isVoid (sp_tp sp)) eqn:Ev.
    - injection Hx as <-. rewrite (proj2 Hnest sp (or_introl eq_refl)) by (lia || done). simpl. unfold between. by rewrite Z.sub_diag.
    - apply obind_ok in Hx as (cs & Hcs & [= <-]). rewrite tree_text_children. rewrite Es in Hcs.
      eapply IH; [| | | | | |exact Hcs]; auto; try lia.
      + eapply nested_sub; [|exact Hnest']. intros s Hs. apply Hsi. by left.
      + intros s Hs Hs0. pose proof (Hle s (proj1 (Hsi s) (or_introl Hs))) as Hl. apply span_le_spec in Hl.
        pose proof (Hbefore s Hs). split; [lia|].
        destruct (Z.le_gt_cases (sp_end s) (sp_end sp)) as [|Hgt]; [done|].
        assert (In s spans) by (apply Hsi; by left).
        destruct (proj1 Hnest sp s); [by left|by right|lia|]. split; lia. }
  rewrite texts_app. simpl. rewrite Epre, Ex.
  rewrite (IH _ _ later r) by
    (done || lia || (eapply nested_sub; [|exact Hnest']; intros s Hs; apply Hsi; by right) ||
     (intros s Hs Hs0; split; [by apply Hafter|apply Hbnd; [right; apply Hsi; by right|done]])).
  rewrite <-append_assoc, !between_app by lia. done.
Qed.
End Text.

(** ** Decoded documents *)

Lemma decode_all_safe {A} (f : Any -> Out (option A)) l : (forall x, safe (f x)) -> safe (decode_all f l).
Proof.
  intros Hf. induction l as [|x l IH]; simpl; [done|]. apply safe_bind; [apply Hf|]. intros a _. by apply safe_bind.
Qed.

Lemma intFromNumeric_safe v : safe (intFromNumeric v).
Proof. by destruct v as [[]|]. Qed.

Lemma decodeAsStyle_safe x : safe (decodeAsStyle x).
Proof.
  destruct x; try done. simpl. apply safe_bind; [apply intFromNumeric_safe|]. intros a _.
  apply safe_bind; [apply intFromNumeric_safe|]. intros b _. destruct (String.eqb _ _); [|done].
  apply safe_bind; [apply intFromNumeric_safe|]. intros c _. by destruct (_ <? _).
Qed.

Lemma decodeAsEntity_safe x : safe (decodeAsEntity x).
Proof. destruct x; try done. simpl. by destruct (String.eqb _ _). Qed.

Lemma decodeAsDrafty_safe content : safe (decodeAsDrafty clusters content).
Proof.
  destruct content as [|s|z|b|l|m]; try done. simpl. destruct (match get m "txt" with Some _ => _ | None => _ end) as [[txt gc] c1].
  apply safe_bind; [apply decode_all_safe, decodeAsStyle_safe|]. intros fmt _.
  apply safe_bind; [apply decode_all_safe, decodeAsEntity_safe|]. intros ent _. by destruct (_ =? 0).
Qed.

(** The clusters of a decoded document are those of its text. *)
Lemma decodeAsDrafty_gc content d : decodeAsDrafty clusters content = Ok (Some d) ->
  (exists s, content = AStr s /\ d = mkDoc "" [] [] (Some (prepareGraphemes clusters s))) \/
  (exists m, content = AMap m /\
     (d.(d_gc) = Some (prepareGraphemes clusters d.(Txt)) \/ d.(d_gc) = None /\ d.(Txt) = "")).
Proof.
  destruct content as [|s|z|b|l|m]; try done; simpl; [intros [= <-]; left; by exists s|].
  intros H. right. exists m. split; [done|].
  destruct (get m "txt") as [[]|]; apply obind_ok in H as (fmt & _ & H); apply obind_ok in H as (ent & _ & H);
    destruct (_ =? 0); simplify_eq; simpl; auto.
Qed.

Lemma decoded_gs_ok content d : decodeAsDrafty clusters content = Ok (Some d) -> gs_ok d.(d_gc).
Proof.
  intros [(s & _ & ->)|(m & _ & [-> | [-> _]])]%decodeAsDrafty_gc; [apply prepare_ok..|done].
Qed.

(** No style of the content has an end beyond the range of an int. *)
Definition content_fits (content : Any) : Prop :=
  forall d, decodeAsDrafty clusters content = Ok (Some d) -> Forall fits d.(Fmt).

Lemma with_tree_safe {A} content (k : document -> node -> Out A) (none : Out A) :
  content_fits content -> safe none -> (forall d t, tree_ok t -> safe (k d t)) ->
  safe (doc <~ decodeAsDrafty clusters content ;;
        match doc with None => none | Some d => t <~ toTree sortSlice d ;; k d t end).
Proof.
  intros Hf Hnone Hk. apply safe_bind; [apply decodeAsDrafty_safe|]. intros [d|] Hd; [|done].
  pose proof (decoded_gs_ok _ _ Hd) as Hg. apply safe_bind; [apply toTree_safe; split; [done|by apply Hf]|].
  intros t Ht. apply Hk. by eapply toTree_ok.
Qed.

Lemma analyze_entities_safe fmt i ents info k : safe (analyze_entities fmt i ents info k).
Proof.
  revert i info k. induction ents as [|e ents IH]; intros i info k; simpl; [done|].
  destruct (negb _); [done|]. destruct (negb _); [done|]. destruct (validateEntity e); [done|].
  destruct (String.eqb _ _); apply IH.
Qed.

(** C39: rich text does not bring the server down as long as no style ends beyond the range of an int:
    checking, rendering, previewing and indexing any content end without a panic (an index or
    slice out of range). *)
Theorem drafty_no_panic content :
  content_fits content ->
  safe (Analyze clusters sortSlice content) /\ safe (PlainText clusters sortSlice content) /\
  safe (SearchText clusters sortSlice nfkc content) /\ forall n, safe (Preview clusters sortSlice marshal content n).
Proof.
  intros Hf. split; [|split; [|split]].
  - apply with_tree_safe; [done|done|]. intros d t _. destruct content as [|s|z|b|l|m]; simpl; try (by destruct (String.eqb _ _)).
    all: destruct (existsb _ _); [done|]; apply safe_bind; [apply analyze_entities_safe|]; intros [info k] _; by destruct (_ && _).
  - by apply with_tree_safe.
  - by apply with_tree_safe.
  - intros n. unfold Preview. apply safe_bind; [|done]. apply with_tree_safe; [done|done|].
    intros d t Ht. apply safe_bind; [by apply previewFormatter_safe|done].
Qed.

(** formatting keeps the text: when the spans of a document nest, hide nothing and stay in range, and
    every cluster is shorter than 256 bytes, the leaves of its tree spell exactly its text. *)
Theorem nested_text_kept txt fmt ents spans t :
  (forall l, StronglySorted span_le (sortSlice l)) -> Forall (fun c => (String.length c < 256)%nat) (clusters txt) ->
  let d := mkDoc txt fmt ents (Some (prepareGraphemes clusters txt)) in
  Forall fits fmt -> to_spans ents (g_length d.(d_gc)) fmt = Ok spans -> nested spans ->
  toTree sortSlice d = Ok t -> tree_text t = txt.
Proof.
  intros Hsort Hsmall d Hfit Hspans Hnest. unfold toTree. cbn [Fmt d d_gc Ent] in *. destruct fmt as [|f fmt]; [by intros [= <-]|].
  rewrite Hspans. cbn [obind]. intros (cs & Hcs & [= <-])%obind_ok. rewrite tree_text_children.
  pose proof (g_length_nonneg (Some (prepareGraphemes clusters txt))) as H0.
  apply to_spans_bounds in Hspans; [|lia|done]. rewrite List.Forall_forall in Hspans.
  set (l := filter_spans (-2) (sortSlice spans)) in *.
  assert (forall s, In s l -> In s spans) as Hl.
  { intros s Hs. apply filter_spans_in in Hs. eapply Permutation_in; [|exact Hs]. apply sort_perm. }
  rewrite (forEach_text txt Hsmall (List.length l) 0 (g_length (Some (prepareGraphemes clusters txt))) l cs); [apply between_all| | | | | | |exact Hcs].
  - unfold l. specialize (Hsort spans). revert Hsort. generalize (sortSlice spans) as q, (-2) as e. clear. intros q e Hq. revert e.
    induction Hq as [|x q Hq IH Hx]; intros e; simpl; [constructor|]. destruct (_ && _); [done|]. constructor; [done|].
    apply List.Forall_forall. intros s Hs%filter_spans_in. rewrite List.Forall_forall in Hx. by apply Hx.
  - by eapply nested_sub.
  - apply List.Forall_forall. intros s Hs. by apply Hspans, Hl.
  - intros s Hs Hs0. destruct (Hspans s (Hl s Hs)). lia.
  - lia.
  - lia.
Qed.

(** a preview is small and sound: at most the asked-for number of clusters of text, styles that lie in
    it, references to entities it has, and entities with only short values of known fields. *)
Theorem preview_compact content n d :
  clusters "" = [] -> preview_document clusters sortSlice content n = Ok (Some d) ->
  g_length d.(d_gc) <= Z.max 0 n /\ d.(Txt) = g_string d.(d_gc) /\
  Forall (fun f => (f.(st_At) = -1 /\ f.(st_Length) = 0 \/
                    0 <= f.(st_At) /\ 0 <= f.(st_Length) /\ f.(st_At) + f.(st_Length) <= g_length d.(d_gc)) /\
                   (f.(st_Key) = 0 \/ 0 <= f.(st_Key) < Z.of_nat (List.length d.(Ent)))) d.(Fmt) /\
  Forall (fun e => forall data, e.(en_Data) = Some data ->
     Forall (fun kv => In kv.1 lightFields /\ is_light kv.2 = true) data) d.(Ent).
Proof.
  intros He. unfold preview_document. intros ([d0|] & _ & H)%obind_ok; [|done].
  apply obind_ok in H as (t & _ & H). apply obind_ok in H as (st & Hst & [= <-]).
  assert (preview_ok n (mkPreview None [] [] ∅)) as H0
    by (constructor; simpl; [lia|done|done|intros k v; by rewrite lookup_empty|done]).
  destruct (previewFormatter_ok n t ltac:(unfold prepareGraphemes; by rewrite He) _ _ H0 Hst) as [[H1 H2 H3 _ H5] _].
  simpl. split; [done|]. split; [done|]. split; [|done].
  apply List.Forall_forall. intros f Hf. rewrite List.Forall_forall in H2, H3. split; [by apply H2|by apply H3].
Qed.

(** unfolding a document into a tree ends: [forEach] needs no more turns than there are spans, whatever they are. *)
Theorem forEach_terminates g start end_ spans n :
  (List.length spans <= n)%nat ->
  forEach n g start end_ spans = forEach (List.length spans) g start end_ spans /\
  forEach n g start end_ spans <> Panic "out of fuel".
Proof.
  intros Hn. split; [by apply forEach_enough|]. revert start end_ spans Hn.
  assert (Hleaf : forall g a b, leaf g a b <> Panic "out of fuel") by (intros x a b; unfold leaf; by destruct (g_slice _ _ _)).
  assert (Hbind : forall (A B : Type) (m : Out A) (k : A -> Out B), m <> Panic "out of fuel" ->
    (forall a, m = Ok a -> k a <> Panic "out of fuel") -> obind m k <> Panic "out of fuel").
  { intros A B m k Hm Hk. destruct m; simpl; [by apply Hk|done|]. intros [= ->]. by apply Hm. }
  induction n as [|n IH]; intros start end_ [|sp spans] Hn; simpl in Hn; try lia; cbn [forEach].
  1,2: destruct (start <? end_); [apply Hbind; [apply Hleaf|done]|done].
  pose proof (split_spans_length (sp_end sp) spans) as [L1 L2].
  destruct (sp_at sp <? 0); [apply Hbind; [apply IH; lia|done]|].
  apply Hbind; [destruct (start <? sp_at sp); [apply Hbind; [apply Hleaf|done]|done]|]. intros pre _.
  destruct (split_spans (sp_end sp) spans) as [sub later]. simpl in *.
  apply Hbind; [destruct (isVoid _); [done|apply Hbind; [apply IH; lia|done]]|]. intros x _.
  apply Hbind; [apply IH; lia|done].
Qed.

(** *** Classification *)

Lemma contains_In l s : contains l s = true <-> In s l.
Proof.
  unfold contains. rewrite existsb_exists. split.
  - intros (x & Hx & E%String.eqb_eq). by subst.
  - intros H. exists s. split; [done|apply String.eqb_refl].
Qed.

Lemma add_new_In l s x : In x (add_new l s) -> In x l \/ x = s /\ s <> "".
Proof.
  unfold add_new. destruct (String.eqb_spec s ""); [by left|]. destruct (contains l s); [by left|]. simpl.
  intros [?|[<-|[]]]%in_app_iff; auto.
Qed.

Lemma add_new_NoDup l s : List.NoDup l -> List.NoDup (add_new l s).
Proof.
  intros H. unfold add_new. destruct (String.eqb s ""); [done|]. destruct (contains l s) eqn:E; [done|]. simpl.
  apply (Permutation_NoDup (Permutation_cons_append l s)). constructor; [|done].
  intros Hin%contains_In. congruence.
Qed.

Definition media (e : entity) : Prop := media_kind e <> "".

(** The accumulators after the entities seen so far. *)
Record analyzed (seen : list entity) (info : ContentInfo) (k : string) : Prop := {
  an_atts : List.NoDup info.(Attachments);
  an_assets : List.NoDup info.(AssetIDs);
  an_refs : forall a, In a info.(Attachments) -> a <> "" /\ exists e, In e seen /\ media e /\ get_string e.(en_Data) "ref" = a;
  an_ids : forall a, In a info.(AssetIDs) -> a <> "" /\ exists e, In e seen /\ media e /\ get_string e.(en_Data) "asset_id" = a;
  an_count : info.(MediaCount) = Z.of_nat (List.length (List.filter (fun e => negb (String.eqb (media_kind e) "")) seen));
  an_kind : info.(MediaCount) = 1 -> exists e, In e seen /\ media_kind e = k /\ k <> "";
  an_none : info.(MediaCount) = 0 <-> k = "" }.

Lemma analyze_entities_sound fmt i ents info k seen r :
  analyzed seen info k -> analyze_entities fmt i ents info k = Ok r ->
  analyzed (seen ++ ents) r.1 r.2 /\ r.1.(Kind) = info.(Kind) /\
  forall j e, ents !! j = Some e -> In e.(en_Tp) supportedEntities /\ validateEntity e = None /\
    exists st, In st fmt /\ st.(st_Tp) = "" /\ st.(st_Key) = i + Z.of_nat j.
Proof.
  revert i info k seen. induction ents as [|e ents IH]; intros i info k seen Ha; cbn [analyze_entities].
  { intros [= <-]. rewrite app_nil_r. split; [done|]. by split. }
  destruct (contains supportedEntities (en_Tp e)) eqn:Esup; simpl; [|done]. apply contains_In in Esup.
  destruct (existsb _ fmt) eqn:Eref; simpl; [|done].
  apply existsb_exists in Eref as (st & Hst & [Etp%String.eqb_eq Ekey%Z.eqb_eq]%andb_true_iff).
  destruct (validateEntity e) eqn:Ev; [done|].
  assert (forall info' k', analyzed (seen ++ [e]) info' k' -> info'.(Kind) = info.(Kind) ->
    analyze_entities fmt (i + 1) ents info' k' = Ok r ->
    analyzed (seen ++ e :: ents) r.1 r.2 /\ r.1.(Kind) = info.(Kind) /\
    forall j e', (e :: ents) !! j = Some e' -> In e'.(en_Tp) supportedEntities /\ validateEntity e' = None /\
      exists st, In st fmt /\ st.(st_Tp) = "" /\ st.(st_Key) = i + Z.of_nat j) as Hnext.
  { intros info' k' Ha' Ek Hr. destruct (IH _ _ _ _ Ha' Hr) as (H1 & H2 & H3). rewrite <-app_assoc in H1. simpl in H1.
    split; [done|]. split; [congruence|]. intros [|j] e'; simpl.
    - intros [= <-]. split; [done|]. split; [done|]. exists st. repeat split; auto. lia.
    - intros Hj. destruct (H3 j e' Hj) as (? & ? & s' & ? & ? & ?). split; [done|]. split; [done|]. exists s'. repeat split; auto. lia. }
  assert (forall x, In x seen -> In x (seen ++ [e])) as Hin by (intros; apply in_app_iff; by left).
  assert (In e (seen ++ [e])) as Hine by (apply in_app_iff; right; by left).
  destruct Ha as [A1 A2 A3 A4 A5 A6 A7].
  destruct (String.eqb_spec (media_kind e) "") as [Ek|Ek].
  - apply Hnext; [|done]. constructor; auto.
    + intros a H. destruct (A3 a H) as (? & x & ? & ? & ?). eauto 8.
    + intros a H. destruct (A4 a H) as (? & x & ? & ? & ?). eauto 8.
    + rewrite List.filter_app. simpl. rewrite Ek. simpl. by rewrite app_nil_r.
    + intros H. destruct (A6 H) as (x & ? & ?). eauto.
  - apply Hnext; [|done]. constructor; simpl.
    + by apply add_new_NoDup.
    + by apply add_new_NoDup.
    + intros a [H|[-> H]]%add_new_In; [destruct (A3 a H) as (? & x & ? & ? & ?); eauto 8|]. split; [done|]. eauto.
    + intros a [H|[-> H]]%add_new_In; [destruct (A4 a H) as (? & x & ? & ? & ?); eauto 8|]. split; [done|]. eauto.
    + rewrite List.filter_app, length_app. simpl. destruct (String.eqb_spec (media_kind e) ""); [done|]. simpl. lia.
    + intros H. assert (k = "") as -> by (apply A7; lia). exists e. simpl. done.
    + split; [intros H; exfalso; lia|]. destruct (String.eqb_spec k ""); [done|].
      by destruct (String.eqb_spec k (media_kind e)).
Qed.

Lemma media_kind_valid e : media e -> In (media_kind e) validMessageKinds /\ media_kind e <> "text" /\ media_kind e <> "drafty".
Proof.
  unfold media, media_kind. repeat destruct (String.eqb _ _); simpl; auto 20; try done.
  all: destruct (en_Data e) as [d|]; [destruct (get d "voice") as [[]|]; try destruct b|]; simpl; auto 20; repeat split; auto 20; done.
Qed.

(** the type of a message is what its content says, not what the client says: an accepted content has
    one of the known types; it is "text" exactly for a string; a media type comes from the only media
    entity; attachments and assets are those of its media entities, each once; and every entity is of a
    known type, referenced by a style and valid. *)
Theorem analyze_sound content info :
  Analyze clusters sortSlice content = Ok info ->
  In info.(Kind) validMessageKinds /\ (info.(Kind) = "text" <-> exists s, content = AStr s) /\
  List.NoDup info.(Attachments) /\ List.NoDup info.(AssetIDs) /\
  exists d, decodeAsDrafty clusters content = Ok (Some d) /\
    (info.(Kind) <> "text" -> info.(Kind) <> "drafty" ->
       exists e, In e d.(Ent) /\ media_kind e = info.(Kind) /\
         List.length (List.filter (fun e => negb (String.eqb (media_kind e) "")) d.(Ent)) = 1%nat) /\
    (forall a, In a info.(Attachments) -> exists e, In e d.(Ent) /\ get_string e.(en_Data) "ref" = a) /\
    (forall i e, d.(Ent) !! i = Some e -> In e.(en_Tp) supportedEntities /\ validateEntity e = None /\
       exists st, In st d.(Fmt) /\ st.(st_Tp) = "" /\ st.(st_Key) = Z.of_nat i).
Proof.
  unfold Analyze. intros ([d|] & Hd & H)%obind_ok; [|done]. apply obind_ok in H as (t & _ & H).
  destruct (decodeAsDrafty_gc _ _ Hd) as [(s & -> & ->)|(m & -> & _)].
  - destruct (String.eqb s ""); [done|]. injection H as <-. simpl. split; [by left|]. split; [split; eauto|].
    split; [constructor|]. split; [constructor|]. eexists. split; [exact Hd|]. split; [done|]. split; [done|]. done.
  - destruct (existsb _ _); [done|]. apply obind_ok in H as ([info1 k] & Hr & H).
    destruct (analyze_entities_sound (Fmt d) 0 (Ent d) (mkInfo "drafty" [] 0 []) "" [] (info1, k)) as (Ha & Ek & He);
      [constructor; simpl; try done; constructor|exact Hr|]. simpl in Ha, Ek.
    destruct (_ && _) in H; [done|]. injection H as <-.
    assert ((if MediaCount info1 =? 1 then mkInfo k (Attachments info1) (MediaCount info1) (AssetIDs info1) else info1) =
      mkInfo (if MediaCount info1 =? 1 then k else "drafty") (Attachments info1) (MediaCount info1) (AssetIDs info1)) as ->
      by (destruct (_ =? _); [done|]; destruct info1; simpl in *; congruence).
    simpl. destruct Ha as [A1 A2 A3 A4 A5 A6 A7].
    assert (forall e, In e (Ent d) -> media_kind e = k -> k <> "" -> In k validMessageKinds /\ k <> "text" /\ k <> "drafty") as Hk
      by (intros e _ <- Hne; by apply media_kind_valid).
    split; [|split; [|split; [done|split; [done|]]]].
    + destruct (Z.eqb_spec (MediaCount info1) 1) as [E|]; [|simpl; auto]. destruct (A6 E) as (e & ? & ? & ?). by eapply Hk.
    + split; [|by intros [s [=]]]. destruct (Z.eqb_spec (MediaCount info1) 1) as [E|]; [|done].
      destruct (A6 E) as (e & He1 & He2 & He3). intros Ht. destruct (Hk e He1 He2 He3) as (_ & Hn & _). congruence.
    + exists d. split; [done|]. split; [|split].
      * destruct (Z.eqb_spec (MediaCount info1) 1) as [E|]; [|done]. destruct (A6 E) as (e & ? & ? & ?). intros _ _.
        exists e. split; [done|]. split; [done|]. lia.
      * intros a Hin. destruct (A3 a Hin) as (_ & e & ? & _ & ?). eauto.
      * intros i e Hi. destruct (He i e Hi) as (? & ? & st & ? & ? & ?). split; [done|]. split; [done|]. exists st. auto.
Qed.
End Documents.

(** ** Concrete documents *)

Definition a_style (tp : string) (at_ len : Z) : Any := AMap [("tp", AStr tp); ("at", AInt at_); ("len", AInt len)].
Definition a_doc (txt : string) (fmt : list Any) : Any := AMap [("txt", AStr txt); ("fmt", AList fmt)].

Fixpoint repeat_char (n : nat) (c : ascii) : string := match n with O => "" | S n' => String c (repeat_char n' c) end.

(** Three inputs a client may send are not handled.  A style whose start and length add up beyond the range of an
    int passes the bounds check and panics, in every function that unfolds a document; a span that ends
    beyond another one inside a third is kept, and the text they share is rendered twice; a
    cluster of 256 bytes has the size 0 and its text is lost. *)
Theorem malformed_spans :
  plain_analyze (a_doc "abc" [a_style "ST" (2 ^ 62) (2 ^ 62)]) = Panic "slice bounds out of range" /\
  plain_text_of (a_doc "abc" [a_style "ST" (2 ^ 62) (2 ^ 62)]) = Panic "slice bounds out of range" /\
  plain_text_of (a_doc "abcdefghij" [a_style "ST" 0 10; a_style "EM" 1 4; a_style "DL" 3 5]) = Ok "*a_bc~defgh~_fghij*" /\
  PlainText (fun s => [s]) sort_spans (a_doc (repeat_char 256 "a"%char) [a_style "ST" 0 1]) = Ok "**".
Proof. repeat split; vm_compute; reflexivity. Qed.

Lemma byte_clusters_law s : String.concat "" (byte_clusters s) = s.
Proof. induction s as [|c s IH]; [done|]. destruct s as [|d s]; [done|]. simpl in *. by rewrite IH. Qed.

Lemma byte_clusters_small s : Forall (fun c => (String.length c < 256)%nat) (byte_clusters s).
Proof. induction s; simpl; constructor; simpl; [lia|done]. Qed.

Lemma sort_spans_perm l : Permutation (sort_spans l) l.
Proof. unfold sort_spans. induction l as [|a l IH]; simpl; [done|]. rewrite <-IH at 2. generalize (sort_by span_less l) as q.
  intros q. induction q as [|b q IHq]; simpl; [done|]. destruct (span_less b a); [|done]. rewrite IHq. apply perm_swap. Qed.

Lemma sort_spans_sorted l : StronglySorted span_le (sort_spans l).
Proof.
  unfold sort_spans. induction l as [|a l IH]; simpl; [constructor|].
  induction IH as [|b q Hs IHq Hb]; simpl; [by repeat constructor|]. rewrite List.Forall_forall in Hb.
  destruct (span_less b a) eqn:E.
  - constructor; [done|]. apply List.Forall_forall. intros x Hx.
    assert (Permutation (insert_by span_less a q) (a :: q)) as Hp.
    { clear. induction q as [|c q IH]; simpl; [done|]. destruct (span_less c a); [|done]. rewrite IH. apply perm_swap. }
    apply (Permutation_in _ Hp) in Hx as [<-|Hx]; [|by apply Hb].
    apply span_le_spec. unfold span_less in E. destruct (Z.eqb_spec (sp_at b) (sp_at a)); apply Z.ltb_lt in E; lia.
  - constructor; [by constructor; [|apply List.Forall_forall]|]. constructor; [exact E|].
    apply List.Forall_forall. intros x Hx. apply Hb, span_le_spec in Hx. pose proof (proj1 (span_le_spec a b) E). apply span_le_spec. lia.
Qed.

Definition nested_doc : Any := a_doc "abcdefghij" [a_style "ST" 0 10; a_style "EM" 1 4; a_style "DL" 6 2].

Lemma nested_doc_fits : content_fits byte_clusters nested_doc.
Proof.
  intros d H. vm_compute in H. injection H as <-. repeat (apply List.Forall_cons; [unfold fits; simpl; lia|]). apply List.Forall_nil.
Qed.

Lemma drafty_no_panic_witness : safe (plain_analyze nested_doc) /\ plain_text_of nested_doc = Ok "*a_bcde_f~gh~ij*".
Proof.
  split; [|vm_compute; reflexivity].
  exact (proj1 (drafty_no_panic byte_clusters sort_spans (fun s => s) (fun _ => inl "") byte_clusters_law sort_spans_perm
    nested_doc nested_doc_fits)).
Defined.

Definition nested_styles : list style := [mkStyle "ST" 0 10 0; mkStyle "EM" 1 4 0; mkStyle "DL" 6 2 0].
Definition nested_spans : list span := [mkSpan "ST" 0 10 0 None; mkSpan "EM" 1 5 0 None; mkSpan "DL" 6 8 0 None].

Lemma nested_text_kept_witness :
  exists t, toTree sort_spans (mkDoc "abcdefghij" nested_styles [] (Some (prepareGraphemes byte_clusters "abcdefghij"))) = Ok t /\
    tree_text t = "abcdefghij".
Proof.
  eexists. split; [vm_compute; reflexivity|].
  apply (nested_text_kept byte_clusters sort_spans byte_clusters_law sort_spans_perm "abcdefghij" nested_styles [] nested_spans);
    [exact sort_spans_sorted|apply byte_clusters_small| |vm_compute; reflexivity| |vm_compute; reflexivity].
  { repeat (apply List.Forall_cons; [unfold fits; simpl; lia|]). apply List.Forall_nil. }
  split.
  - intros a b [<-|[<-|[<-|[]]]] [<-|[<-|[<-|[]]]] _ [H1 H2]; simpl in H1, H2; lia.
  - intros s [<-|[<-|[<-|[]]]] _; discriminate.
Defined.

Definition short_preview : document :=
  mkDoc "abcde" [mkStyle "EM" 1 4 0; mkStyle "ST" 0 5 0] [] (Some (prepareGraphemes byte_clusters "abcde")).

Lemma preview_compact_witness :
  preview_document byte_clusters sort_spans nested_doc 5 = Ok (Some short_preview) /\ g_length (d_gc short_preview) <= Z.max 0 5.
Proof.
  assert (preview_document byte_clusters sort_spans nested_doc 5 = Ok (Some short_preview)) as E by (vm_compute; reflexivity).
  split; [exact E|]. exact (proj1 (preview_compact byte_clusters sort_spans nested_doc 5 short_preview eq_refl E)).
Defined.

Lemma forEach_terminates_witness :
  forEach 7 (Some (prepareGraphemes byte_clusters "abcdefghij")) 0 10 nested_spans <> Panic "out of fuel".
Proof.
  apply (proj2 (forEach_terminates (Some (prepareGraphemes byte_clusters "abcdefghij")) 0 10 nested_spans 7 ltac:(simpl; lia))).
Defined.

Definition image_doc : Any :=
  AMap [("fmt", AList [AMap [("at", AInt (-1)); ("key", AInt 0)]]);
        ("ent", AList [AMap [("tp", AStr "IM"); ("data", AMap [("mime", AStr "image/png"); ("ref", AStr "/v0/file/s/1")])]])].

Lemma analyze_sound_witness :
  plain_analyze image_doc = Ok (mkInfo "image" ["/v0/file/s/1"] 1 []) /\ In "image" validMessageKinds.
Proof.
  assert (plain_analyze image_doc = Ok (mkInfo "image" ["/v0/file/s/1"] 1 [])) as E by (vm_compute; reflexivity).
  split; [exact E|]. exact (proj1 (analyze_sound byte_clusters sort_spans image_doc _ E)).
Defined.
