(* ===== verification/Messages.v ===== *)
(** * Messages: what clients send, what they get, and the headers of stored messages

    The records of internal/server/datamodel.go that publishing and presence use, the header
    operations of internal/server/message_features.go and the replies of
    internal/server/ctrl_messages.go.  A header is a Go map from strings to JSON values; a nil
    map is [None].  JSON numbers are [AInt]; the RFC 3339 text of times is an argument. *)

From Stdlib Require Import NArith ZArith Lia List Ascii String Bool Permutation Sorted.
From stdpp Require Import base tactics numbers list strings gmap.
From S2P Require Import Prelude Uid StoreTypes Drafty.
Import Objects.

#[local] Open Scope string_scope.
#[local] Open Scope Z_scope.

Abbreviation Head := (option (list (string * Any))) (only parsing).

(** ** Go maps of JSON values *)

(** [m[key] = v] *)
Fixpoint map_set (m : list (string * Any)) (key : string) (v : Any) : list (string * Any) :=
  match m with
  | [] => [(key, v)]
  | (k, x) :: m' => if String.eqb k key then (key, v) :: m' else (k, x) :: map_set m' key v
  end.

Definition map_delete (m : list (string * Any)) (key : string) : list (string * Any) :=
  List.filter (fun kv => negb (String.eqb (fst kv) key)) m.

(** [head[key]], the zero value for an absent key or a nil map. *)
Definition head_get (head : Head) (key : string) : Any :=
  match head with Some m => default ANil (get m key) | None => ANil end.

(** [s, _ := head[key].(string)] *)
Definition head_string (head : Head) (key : string) : string :=
  match head_get head key with AStr s => s | _ => "" end.

(** A head made if it is nil, then assigned. *)
Definition head_set (head : Head) (key : string) (v : Any) : Head := Some (map_set (default [] head) key v).

(** ** message_features.go: headers *)

Definition headMessageKind : string := "x-kind".
Definition headReplyTo : string := "x-reply".
Definition headForwarded : string := "x-forward".
Definition headGroupID : string := "x-group".
Definition headEditedAt : string := "x-edited".
Definition headReactions : string := "x-reactions".
Definition topicPinsKey : string := "pins".

Definition serverHeads : list string :=
  [headMessageKind; headReplyTo; headForwarded; headGroupID; headEditedAt; headReactions].

Definition maxReactionLength : Z := 64.
Definition maxReactionKinds : nat := 20.
Definition maxPinnedMessages : nat := 100.
Definition second : Z := 1000000000.
Definition minScheduleDelay : Z := 10 * second.
Definition maxScheduleAhead : Z := 366 * 24 * 3600 * second.

Record jsonForward := mkForward { fw_Topic : string; fw_SeqId : Z; fw_From : string; fw_Timestamp : Z }.
Record storedReaction := mkReaction { Reaction : string; Users : list string }.

Definition cloneHead (head : Head) : Head :=
  match head with None | Some [] => None | Some m => Some m end.

Definition stripServerMessageHead (head : Head) : Head :=
  match cloneHead head with
  | None => None
  | Some out => match fold_left map_delete serverHeads out with [] => None | out => Some out end
  end.

Definition intHeadValue (value : Any) : Z := match value with AInt z => z | _ => 0 end.

(** json.Marshal and back of the reactions; their texts are valid UTF-8. *)
Definition encodeReactions (reactions : list storedReaction) : Any :=
  AList (map (fun r => AMap [("reaction", AStr r.(Reaction)); ("users", AList (map AStr r.(Users)))]) reactions).

(** json.Unmarshal of one string; null leaves the zero value. *)
Definition decode_text (v : option Any) : option string :=
  match v with None | Some ANil => Some "" | Some (AStr s) => Some s | Some _ => None end.

Fixpoint decode_list {A} (f : Any -> option A) (l : list Any) : option (list A) :=
  match l with
  | [] => Some []
  | x :: l' => a ← f x; rest ← decode_list f l'; Some (a :: rest)
  end.

Definition decode_slice {A} (f : Any -> option A) (v : option Any) : option (list A) :=
  match v with None | Some ANil => Some [] | Some (AList l) => decode_list f l | Some _ => None end.

Definition decode_reaction (v : Any) : option storedReaction :=
  match v with
  | ANil => Some (mkReaction "" [])
  | AMap m =>
      reaction ← decode_text (get m "reaction");
      users ← decode_slice (fun x => decode_text (Some x)) (get m "users");
      Some (mkReaction reaction users)
  | _ => None
  end.

Definition messageReactions (head : Head) : list storedReaction :=
  default [] (decode_slice decode_reaction (Some (head_get head headReactions))).

Section Times.
(** RFC3339Nano text of a time, and time.Parse. *)
Context (time_text : Z -> string) (time_parse : string -> option Z).

(** [encodeHeadValue] of a [jsonForward]: empty texts are left out. *)
Definition encodeForward (f : jsonForward) : Any :=
  AMap ((if String.eqb f.(fw_From) "" then [] else [("from", AStr f.(fw_From))]) ++
        [("seq", AInt f.(fw_SeqId))] ++
        (if String.eqb f.(fw_Topic) "" then [] else [("topic", AStr f.(fw_Topic))]) ++
        [("ts", AStr (time_text f.(fw_Timestamp)))])%list.

(** [decodeHeadValue] into a zero [jsonForward]: null is decoded without an error.  time 0 is Go's zero time here. *)
Definition decodeForward (value : Any) : option jsonForward :=
  match value with
  | ANil => Some (mkForward "" 0 "" 0)
  | AMap m =>
      topic ← decode_text (get m "topic");
      seq ← (match get m "seq" with None | Some ANil => Some 0 | Some (AInt z) => Some z | Some _ => None end);
      from ← decode_text (get m "from");
      ts ← (match get m "ts" with None | Some ANil => Some 0 | Some (AStr s) => time_parse s | Some _ => None end);
      Some (mkForward topic seq from ts)
  | _ => None
  end.
End Times.

(** ** datamodel.go: messages *)

(** [MsgServerData] without the machine translation. *)
Record MsgServerData := mkData {
  d_Topic : string; d_From : string; d_ClientId : string; d_Timestamp : Z; d_EditedAt : option Z;
  d_DeletedAt : option Z; d_SeqId : Z; d_Kind : string; d_ReplyTo : Z; d_Forwarded : option jsonForward;
  d_GroupId : string; d_Reactions : list (string * Z); d_Head : Head; d_Content : Any }.

Record MsgServerPres := mkPres {
  pr_Topic : string; pr_Src : string; pr_What : string; pr_UserAgent : string; pr_SeqId : Z; pr_DelId : Z;
  pr_DelSeq : list (Z * Z); pr_AcsTarget : string; pr_AcsActor : string; pr_Acs : option (string * string);
  pr_WantReply : bool; pr_FilterIn : N; pr_FilterOut : N; pr_SkipTopic : string; pr_SingleUser : string;
  pr_ExcludeUser : string }.

Record MsgServerInfo := mkInfoMsg {
  i_Topic : string; i_Src : string; i_From : string; i_What : string; i_SeqId : Z; i_Event : string;
  i_Payload : Any; i_Reaction : string; i_Remove : bool; i_SkipTopic : string }.

(** The kinds a topic fans out; [Id], [AsUser], [Timestamp] and [sess] are not looked at by it. *)
Inductive Payload := Data (d : MsgServerData) | Pres (p : MsgServerPres) | Info (i : MsgServerInfo).
Record ServerComMessage := mkServerMsg { s_Payload : Payload; s_RcptTo : string; s_SkipSid : string }.

Record MsgClientPub := mkPub {
  p_ClientId : string; p_NoEcho : bool; p_Kind : string; p_ReplyTo : Z; p_ReplaceSeq : Z;
  p_Forward : option (string * Z); p_GroupId : string; p_ScheduleAt : option Z; p_Head : Head; p_Content : Any }.

Record MsgClientNote := mkNote {
  n_Topic : string; n_What : string; n_SeqId : Z; n_Event : string; n_Payload : Any; n_Reaction : string; n_Remove : bool }.

Record ScheduledMessage := mkScheduled {
  sm_Id : string; sm_Topic : string; sm_From : string; sm_ClientId : string; sm_NoEcho : bool; sm_PublishAt : Z;
  sm_Head : Head; sm_Content : Any; sm_AttachmentURLs : list string; sm_CreatedAt : Z }.

(** ** server/push/push.go: notifications to devices

    [To]: the recipients with the sessions that have the message already and whether their unread count grows. *)

Record Receipt := mkReceipt {
  To : list (Uid * (Z * bool)); rc_Channel : string; rc_What : string; rc_Silent : bool; rc_Topic : string;
  rc_From : string; rc_Timestamp : Z; rc_SeqId : Z; rc_Content : Any; rc_Webrtc : string; rc_AudioOnly : bool;
  rc_Replace : string; rc_ContentType : string; rc_ModeWant : N; rc_ModeGiven : N }.

(** ** ctrl_messages.go

    A {ctrl} message as its code, text, topic and parameters; its id and time are the request's. *)

Record MsgServerCtrl := mkCtrl { Code : Z; Text : string; ct_Topic : string; Params : list (string * Any) }.

Module Ctrl.
Definition NoErr (topic : string) := mkCtrl 200 "ok" topic [].
Definition NoErrParams (topic : string) (params : list (string * Any)) := mkCtrl 200 "ok" topic params.
Definition NoErrAccepted (topic : string) (params : list (string * Any)) := mkCtrl 202 "accepted" topic params.
Definition NoContentParams (topic : string) (params : list (string * Any)) := mkCtrl 204 "no content" topic params.
Definition NoErrDeliveredParams (topic : string) (params : list (string * Any)) := mkCtrl 208 "delivered" topic params.
Definition InfoValidateCredentials := mkCtrl 300 "validate credentials" "" [].
Definition InfoUseOther (topic other : string) := mkCtrl 303 "use other" topic [("topic", AStr other)].
Definition ErrMalformed (topic : string) := mkCtrl 400 "malformed" topic [].
Definition ErrAuthFailed (topic : string) := mkCtrl 401 "authentication failed" topic [].
Definition ErrPermissionDenied (topic : string) := mkCtrl 403 "permission denied" topic [].
Definition ErrTopicNotFound (topic : string) := mkCtrl 404 "topic not found" topic [].
Definition ErrUserNotFound (topic : string) := mkCtrl 404 "user not found" topic [].
Definition ErrNotFound (topic : string) := mkCtrl 404 "not found" topic [].
Definition ErrOperationNotAllowed (topic : string) := mkCtrl 405 "operation or method not allowed" topic [].
Definition ErrInvalidResponse (topic : string) := mkCtrl 406 "invalid response" topic [].
Definition ErrAttachFirst (topic : string) := mkCtrl 409 "must attach first" topic [].
Definition ErrDuplicateCredential (topic : string) := mkCtrl 409 "duplicate credential" topic [].
Definition ErrPolicy (topic : string) := mkCtrl 422 "policy violation" topic [].
(** The wait in whole seconds, rounded up, at least one; the sum wraps. *)
Definition ErrTooManyRequests (topic : string) (retryAfter : Z) :=
  let seconds := Z.quot (int64 (retryAfter + second - 1)) second in
  mkCtrl 429 "too many requests" topic [("retry_after", AInt (if seconds <? 1 then 1 else seconds))].
Definition ErrCallBusy (topic : string) := mkCtrl 486 "busy here" topic [].
Definition ErrUnknown (topic : string) := mkCtrl 500 "internal error" topic [].
Definition ErrNotImplemented (topic : string) := mkCtrl 501 "not implemented" topic [].
Definition ErrServiceUnavailable (topic : string) := mkCtrl 503 "service unavailable" topic [].
Definition ErrLocked (topic : string) := mkCtrl 503 "locked" topic [].
End Ctrl.

(** [decodeStoreErrorExplicitTs] of utils.go.  [None] is the panic of a redirect without a topic. *)
Definition decodeStoreError (err : option GoError) (topic : string) (params : list (string * Any)) : option MsgServerCtrl :=
  let errmsg :=
    match err with
    | None => Some (Ctrl.NoErr topic)
    | Some (TextErr _) => Some (Ctrl.ErrUnknown topic)
    | Some (StoreErr e) =>
        match e with
        | ErrInternal => Some (Ctrl.ErrUnknown topic)
        | ErrMalformed => Some (Ctrl.ErrMalformed topic)
        | ErrFailed | ErrExpired => Some (Ctrl.ErrAuthFailed topic)
        | ErrPermissionDenied => Some (Ctrl.ErrPermissionDenied topic)
        | ErrDuplicate => Some (Ctrl.ErrDuplicateCredential topic)
        | ErrUnsupported => Some (Ctrl.ErrNotImplemented topic)
        | ErrPolicy => Some (Ctrl.ErrPolicy topic)
        | ErrCredentials => Some Ctrl.InfoValidateCredentials
        | ErrUserNotFound => Some (Ctrl.ErrUserNotFound topic)
        | ErrTopicNotFound => Some (Ctrl.ErrTopicNotFound topic)
        | ErrNotFound => Some (Ctrl.ErrNotFound topic)
        | ErrInvalidResponse => Some (Ctrl.ErrInvalidResponse topic)
        | ErrRedirected => match get params "topic" with Some (AStr other) => Some (Ctrl.InfoUseOther topic other) | _ => None end
        | ErrClusterFenced | ErrVersionConflict => Some (Ctrl.ErrUnknown topic)
        end
    end in
  (fun c => mkCtrl c.(Code) c.(Text) c.(ct_Topic) params) <$> errmsg.

(** ** From a stored message to what clients see *)

(** The order of the reactions: by count, the highest first, then by name. *)
Definition reaction_less (a b : string * Z) : bool :=
  if snd a =? snd b then str_ltb (fst a) (fst b) else snd b <? snd a.

Section FromStored.
Context (time_parse : string -> option Z) (clusters : string -> list string) (sortSlice : list span -> list span).

Definition messageKind (msg : Message) : Out string :=
  let kind := head_string msg.(m_Head) headMessageKind in
  if negb (String.eqb kind "") then Ok kind
  else match Analyze clusters sortSlice msg.(m_Content) with
       | Ok info => Ok info.(Kind)
       | Fail _ => Ok ""
       | Panic p => Panic p
       end.

Definition serverDataFromStored (topic from : string) (msg : Message) : Out MsgServerData :=
  let head := msg.(m_Head) in
  kind <~ messageKind msg ;;
  let edited := head_string head headEditedAt in
  Ok (mkData topic from msg.(m_ClientId) msg.(m_CreatedAt)
        (if String.eqb edited "" then None else time_parse edited)
        msg.(m_DeletedAt) msg.(m_SeqId) kind (intHeadValue (head_get head headReplyTo))
        (decodeForward time_parse (head_get head headForwarded)) (head_string head headGroupID)
        (sort_by reaction_less
           (flat_map (fun r => match r.(Users) with [] => [] | us => [(r.(Reaction), Z.of_nat (List.length us))] end)
              (messageReactions head)))
        (stripServerMessageHead head) msg.(m_Content)).

(** [validateMessageContent]; [None] is an error, which the callers do not tell apart. *)
Definition validateMessageContent (requestedKind : string) (content : Any) : Out (option ContentInfo) :=
  match Analyze clusters sortSlice content with
  | Panic p => Panic p
  | Fail _ => Ok None
  | Ok info =>
      if String.eqb requestedKind "" then Ok (Some info)
      else
        let requestedKind := ToLower requestedKind in
        if negb (contains validMessageKinds requestedKind) || negb (String.eqb requestedKind info.(Kind)) then Ok None
        else Ok (Some info)
  end.
End FromStored.

(** The distinct non-empty texts in order. *)
Fixpoint distinct (seen : list string) (l : list string) : list string :=
  match l with
  | [] => []
  | ref :: l' => if String.eqb ref "" || contains seen ref then distinct seen l' else ref :: distinct (ref :: seen) l'
  end.

(** [extra] is the attachments of the request's extra part, if it has one. *)
Definition verifiedAttachmentURLs (extracted : list string) (extra : option (list string)) : list string + GoError :=
  match extra with
  | Some refs =>
      if existsb (fun ref => String.eqb ref "" || negb (contains extracted ref)) refs
      then inr (StoreErr ErrMalformed) else inl (distinct [] extracted)
  | None => inl (distinct [] extracted)
  end.

(** ** Reactions and pins (message_interactions.go) *)

Fixpoint findReaction (reactions : list storedReaction) (target : string) : option nat :=
  match reactions with
  | [] => None
  | r :: reactions' => if String.eqb r.(Reaction) target then Some 0%nat else S <$> findReaction reactions' target
  end.

Fixpoint findString (values : list string) (target : string) : option nat :=
  match values with
  | [] => None
  | v :: values' => if String.eqb v target then Some 0%nat else S <$> findString values' target
  end.

Definition remove_nth {A} (i : nat) (l : list A) : list A := (firstn i l ++ skipn (S i) l)%list.

(** The change of the reactions in [reactToMessage]: the new list and whether it changed, or the policy error. *)
Definition change_reaction (reactions : list storedReaction) (reaction uid : string) (remove : bool)
    : (list storedReaction * bool) + GoError :=
  match findReaction reactions reaction with
  | None =>
      if remove then inl (reactions, false)
      else if (maxReactionKinds <=? List.length reactions)%nat then inr (StoreErr ErrPolicy)
      else inl ((reactions ++ [mkReaction reaction [uid]])%list, true)
  | Some index =>
      match reactions !! index with
      | None => inl (reactions, false)
      | Some r =>
          let '(users, changed) :=
            match findString r.(Users) uid with
            | Some userIndex => if remove then (remove_nth userIndex r.(Users), true) else (r.(Users), false)
            | None => if remove then (r.(Users), false) else ((r.(Users) ++ [uid])%list, true)
            end in
          match users with
          | [] => inl (remove_nth index reactions, changed)
          | _ => inl (<[index := mkReaction r.(Reaction) users]> reactions, changed)
          end
      end
  end.

(** [topicPins].  A slice that [pinMessage] made holds positive numbers, so it is read like one from the store. *)
Definition topicPins (aux : Head) : list Z :=
  match head_get aux topicPinsKey with
  | AList l => List.filter (Z.ltb 0) (map intHeadValue l)
  | _ => []
  end.

Fixpoint findSeq (pins : list Z) (seq : Z) : option nat :=
  match pins with
  | [] => None
  | p :: pins' => if p =? seq then Some 0%nat else S <$> findSeq pins' seq
  end.

(** The change of the pins in [pinMessage]. *)
Definition change_pins (pins : list Z) (seq : Z) (remove : bool) : list Z * bool :=
  match findSeq pins seq with
  | Some found => if remove then (remove_nth found pins, true) else (pins, false)
  | None => if remove then (pins, false) else (firstn maxPinnedMessages (seq :: pins), true)
  end.
