(* ===== verification/Interactions.v ===== *)
(** * Interactions: reactions and pins as sets

    [change_reaction] and [change_pins] of [Messages] keep lists in stored headers.  Here they are related to what they
    stand for, a relation between reactions and users and a bounded set of positions, and the header's
    encoding is read back. *)

From Stdlib Require Import NArith ZArith Lia List Ascii String Bool.
From stdpp Require Import base tactics numbers list strings gmap.
From S2P Require Import Prelude Uid StoreTypes Drafty Messages.
Import Objects.

#[local] Open Scope string_scope.
#[local] Open Scope Z_scope.

(** ** Headers *)

Lemma get_cons k0 x m k : get ((k0, x) :: m) k = if String.eqb k0 k then Some x else get m k.
Proof. unfold get. simpl. by destruct (String.eqb k0 k). Qed.

Lemma get_map_set m key v k : get (map_set m key v) k = if String.eqb k key then Some v else get m k.
Proof.
  induction m as [|[k0 x] m IH]; simpl.
  - rewrite get_cons, (String.eqb_sym key). by destruct (String.eqb k key).
  - destruct (String.eqb_spec k0 key) as [->|]; rewrite !get_cons.
    + rewrite (String.eqb_sym key). by destruct (String.eqb k key).
    + destruct (String.eqb_spec k0 k) as [->|]; [|exact IH]. by destruct (String.eqb_spec k key).
Qed.

Lemma head_get_set head key v k : head_get (head_set head key v) k = if String.eqb k key then v else head_get head k.
Proof.
  unfold head_set, head_get. rewrite get_map_set. destruct (String.eqb k key); [done|]. by destruct head.
Qed.

Lemma get_map_delete m key k : get (map_delete m key) k = if String.eqb k key then None else get m k.
Proof.
  unfold map_delete. induction m as [|[k0 x] m IH]; simpl; [by destruct (String.eqb k key)|].
  rewrite get_cons. destruct (String.eqb_spec k0 key) as [->|]; simpl.
  - rewrite IH, (String.eqb_sym key). by destruct (String.eqb k key).
  - rewrite get_cons. destruct (String.eqb_spec k0 k) as [->|]; [|exact IH]. by destruct (String.eqb_spec k key).
Qed.

(** ** Reactions *)

(** [u] reacted with [r]. *)
Definition reacted (l : list storedReaction) (r u : string) : Prop := exists x, In x l /\ x.(Reaction) = r /\ In u x.(Users).

(** One entry per reaction, users listed once, no entry without users. *)
Definition reactions_wf (l : list storedReaction) : Prop :=
  NoDup (map Reaction l) /\ Forall (fun x => NoDup x.(Users) /\ x.(Users) <> []) l /\ (List.length l <= maxReactionKinds)%nat.

Lemma decode_list_map {B} (f : Any -> option B) (g : B -> Any) l :
  (forall x, f (g x) = Some x) -> decode_list f (map g l) = Some l.
Proof. intros Hfg. induction l as [|x l IH]; simpl; [done|]. by rewrite Hfg, IH. Qed.

Lemma reactions_roundtrip head l : messageReactions (head_set head headReactions (encodeReactions l)) = l.
Proof.
  unfold messageReactions. rewrite head_get_set, String.eqb_refl. unfold encodeReactions. cbn [decode_slice default].
  rewrite (decode_list_map decode_reaction); [done|]. intros [r us]. unfold decode_reaction. cbn.
  by rewrite (decode_list_map _ AStr).
Qed.

Lemma findReaction_spec l r :
  match findReaction l r with
  | Some i => exists a x b, l = (a ++ x :: b)%list /\ i = List.length a /\ x.(Reaction) = r /\ ~ In r (map Reaction a)
  | None => ~ In r (map Reaction l)
  end.
Proof.
  induction l as [|x l IH]; simpl; [tauto|]. destruct (String.eqb_spec (Reaction x) r) as [E|E].
  - exists [], x, l. auto.
  - destruct (findReaction l r) as [i|]; simpl; [|tauto].
    destruct IH as (a & y & b & -> & -> & Hy & Ha). exists (x :: a), y, b. simpl. repeat split; [done|tauto].
Qed.

Lemma findString_spec l s :
  match findString l s with
  | Some i => exists a b, l = (a ++ s :: b)%list /\ i = List.length a
  | None => ~ In s l
  end.
Proof.
  induction l as [|x l IH]; simpl; [tauto|]. destruct (String.eqb_spec x s) as [->|E]; [by exists [], l|].
  destruct (findString l s) as [i|]; simpl; [|tauto]. destruct IH as (a & b & -> & ->). by exists (x :: a), b.
Qed.

Lemma remove_nth_middle {A} (a : list A) x b : remove_nth (List.length a) (a ++ x :: b) = (a ++ b)%list.
Proof. unfold remove_nth. rewrite firstn_app, firstn_all, Nat.sub_diag, app_nil_r. f_equal. induction a as [|y a IH]; simpl; [done|exact IH]. Qed.

Lemma NoDup_middle {A} (a : list A) x b : NoDup (a ++ x :: b) -> NoDup (a ++ b) /\ ~ In x (a ++ b).
Proof.
  intros Hn. rewrite NoDup_app, NoDup_cons in Hn. rewrite NoDup_app, <- list_elem_of_In, elem_of_app.
  destruct Hn as (Ha & Hab & Hx & Hb). repeat split; [done| |done|].
  - intros y Hy Hyb. apply (Hab y Hy), list_elem_of_further, Hyb.
  - intros [Hxa|Hxb]; [|done]. apply (Hab x Hxa), list_elem_of_here.
Qed.

(** The users of one reaction after a change. *)
Definition users_after (us : list string) (u : string) (remove : bool) : list string :=
  match findString us u with
  | Some i => if remove then remove_nth i us else us
  | None => if remove then us else (us ++ [u])%list
  end.

Lemma users_after_spec us u remove : NoDup us ->
  NoDup (users_after us u remove) /\ forall v, In v (users_after us u remove) <-> (if String.eqb v u then remove = false else In v us).
Proof.
  intros Hn. unfold users_after. pose proof (findString_spec us u) as F. destruct (findString us u) as [i|].
  - destruct F as (a & b & -> & ->). destruct remove.
    + rewrite remove_nth_middle. destruct (NoDup_middle _ _ _ Hn) as [Hn' Hu]. split; [done|]. intros v.
      destruct (String.eqb_spec v u) as [->|Hv]; [by split|]. rewrite !in_app_iff. simpl. intuition congruence.
    + split; [done|]. intros v. destruct (String.eqb_spec v u) as [->|]; [|done]. split; [done|]. intros _. rewrite in_app_iff. simpl. auto.
  - destruct remove.
    + split; [done|]. intros v. destruct (String.eqb_spec v u) as [->|]; [|done]. by split.
    + split.
      * rewrite NoDup_app. split; [done|]. split; [|by repeat constructor; set_solver]. intros x Hx Hxu.
        apply list_elem_of_singleton in Hxu as ->. by apply F, list_elem_of_In.
      * intros v. rewrite in_app_iff. simpl. destruct (String.eqb_spec v u) as [->|]; intuition congruence.
Qed.

Lemma change_reaction_users l r u remove :
  change_reaction l r u remove =
  match findReaction l r with
  | None => if remove then inl (l, false)
            else if (maxReactionKinds <=? List.length l)%nat then inr (StoreErr ErrPolicy)
            else inl ((l ++ [mkReaction r [u]])%list, true)
  | Some i =>
      match l !! i with
      | None => inl (l, false)
      | Some x =>
          let users := users_after x.(Users) u remove in
          inl (match users with [] => remove_nth i l | _ => <[i := mkReaction x.(Reaction) users]> l end,
               match findString x.(Users) u with Some _ => remove | None => negb remove end)
      end
  end.
Proof.
  unfold change_reaction, users_after. destruct (findReaction l r) as [i|]; [|done]. destruct (l !! i) as [x|]; [|done]. cbv zeta.
  destruct (findString (Users x) u), remove; cbn [negb]; by case_match.
Qed.

Lemma reacted_middle a x b r u :
  reacted (a ++ x :: b) r u <-> (x.(Reaction) = r /\ In u x.(Users)) \/ reacted (a ++ b) r u.
Proof.
  unfold reacted. split.
  - intros (y & Hin & H1 & H2). rewrite in_app_iff in Hin. simpl in Hin.
    destruct Hin as [Hin|[<-|Hin]]; [right; exists y; rewrite in_app_iff; auto|left; auto|right; exists y; rewrite in_app_iff; auto].
  - intros [[H1 H2]|(y & Hin & H1 & H2)]; [exists x|exists y]; (split; [|done]); rewrite in_app_iff in *; simpl; tauto.
Qed.

Lemma not_reacted l r u : ~ In r (map Reaction l) -> ~ reacted l r u.
Proof. intros Hn (x & Hin & <- & _). apply Hn. by apply in_map. Qed.

(** The list after a change stands for the relation with or without the pair, and stays well-formed. *)
Lemma change_reaction_sound l r u remove l' changed :
  reactions_wf l -> change_reaction l r u remove = inl (l', changed) ->
  reactions_wf l' /\
  forall r' u', reacted l' r' u' <-> (if String.eqb r' r && String.eqb u' u then remove = false else reacted l r' u').
Proof.
  intros (Hn & Hf & Hlen). rewrite change_reaction_users. pose proof (findReaction_spec l r) as F.
  destruct (findReaction l r) as [i|].
  - destruct F as (a & x & b & -> & -> & Hx & Ha). rewrite list_lookup_middle by done. intros [= <- <-].
    rewrite map_app in Hn. cbn [map] in Hn. rewrite Forall_app, Forall_cons in Hf. destruct Hf as (Hfa & [Hux Hne] & Hfb).
    destruct (NoDup_middle _ _ _ Hn) as [Hn' Hxab]. rewrite <- map_app in Hxab, Hn'.
    destruct (users_after_spec (Users x) u remove Hux) as [Hnd Hin].
    set (us := users_after (Users x) u remove) in *.
    assert (forall r' u', (reacted (a ++ b) r' u' \/ (r' = r /\ In u' us)) <->
      (if String.eqb r' r && String.eqb u' u then remove = false else reacted (a ++ x :: b) r' u')) as Hrel.
    { intros r' u'. rewrite Hx in Hxab. destruct (String.eqb_spec r' r) as [->|Hr]; cbn [andb].
      - rewrite Hin. pose proof (not_reacted _ _ u' Hxab). destruct (String.eqb_spec u' u); [|rewrite reacted_middle]; intuition congruence.
      - rewrite reacted_middle, Hx. intuition congruence. }
    destruct us as [|u0 us'] eqn:Eus.
    + rewrite remove_nth_middle. split.
      * split; [done|]. split; [by apply Forall_app|]. rewrite length_app in *. cbn in Hlen. lia.
      * intros r' u'. rewrite <- Hrel. simpl. tauto.
    + rewrite insert_app_r_alt, Nat.sub_diag by lia. cbn [list_insert insert]. split.
      * split; [by rewrite map_app|]. split; [|rewrite length_app in *; cbn in *; lia].
        rewrite Forall_app, Forall_cons. repeat split; [done|done|done|done].
      * intros r' u'. rewrite reacted_middle, <- Hrel. cbn [Reaction Users]. rewrite Hx. intuition congruence.
  - destruct remove.
    { intros [= <- <-]. split; [done|]. intros r' u'. destruct (String.eqb_spec r' r) as [->|]; [|done]. cbn [andb].
      pose proof (not_reacted _ _ u' F). destruct (String.eqb u' u); intuition congruence. }
    destruct (Nat.leb_spec maxReactionKinds (List.length l)); [done|]. intros [= <- <-]. split.
    + split; [|split].
      * rewrite map_app. cbn. rewrite NoDup_app. split; [done|]. split; [|by repeat constructor; set_solver].
        intros y Hy Hyr. apply list_elem_of_singleton in Hyr as ->. by apply F, list_elem_of_In.
      * rewrite Forall_app. split; [done|]. repeat constructor; [set_solver|done].
      * rewrite length_app. cbn. lia.
    + intros r' u'. rewrite reacted_middle, app_nil_r. cbn [Reaction Users]. destruct (String.eqb_spec r' r) as [->|]; cbn [andb].
      * pose proof (not_reacted _ _ u' F). destruct (String.eqb_spec u' u) as [->|]; simpl; intuition congruence.
      * intuition congruence.
Qed.

Lemma change_reaction_unchanged l r u remove l' : reactions_wf l -> change_reaction l r u remove = inl (l', false) -> l' = l.
Proof.
  intros (_ & Hf & _). rewrite change_reaction_users. pose proof (findReaction_spec l r) as F. destruct (findReaction l r) as [i|].
  - destruct F as (a & x & b & -> & -> & _ & _). rewrite list_lookup_middle by done. cbv zeta.
    rewrite Forall_app, Forall_cons in Hf. destruct Hf as (_ & [_ Hne] & _). unfold users_after.
    destruct (findString (Users x) u), remove; intros [= <-]; (destruct (Users x) eqn:Eu; [done|]; rewrite <- Eu);
      rewrite insert_app_r_alt, Nat.sub_diag by lia; by destruct x.
  - destruct remove; [by intros [= <-]|]. by destruct (_ <=? _)%nat.
Qed.

(** ** Pins *)

Definition pins_wf (l : list Z) : Prop := NoDup l /\ (List.length l <= maxPinnedMessages)%nat /\ Forall (fun p => 0 < p) l.

Lemma pins_roundtrip aux l : Forall (fun p => 0 < p) l -> topicPins (head_set aux topicPinsKey (AList (map AInt l))) = l.
Proof.
  intros Hl. unfold topicPins. rewrite head_get_set, String.eqb_refl. induction Hl as [|p l Hp Hl IH]; [done|].
  cbn [map intHeadValue List.filter]. destruct (Z.ltb_spec 0 p); [by rewrite IH|lia].
Qed.

Lemma findSeq_spec l s :
  match findSeq l s with
  | Some i => exists a b, l = (a ++ s :: b)%list /\ i = List.length a
  | None => ~ In s l
  end.
Proof.
  induction l as [|x l IH]; simpl; [tauto|]. destruct (Z.eqb_spec x s) as [->|E]; [by exists [], l|].
  destruct (findSeq l s) as [i|]; simpl; [|tauto]. destruct IH as (a & b & -> & ->). by exists (x :: a), b.
Qed.

(** A pin is added in front, the oldest falls off at the limit; an unpin removes exactly that one. *)
Definition pins_step (l : list Z) (seq : Z) (remove : bool) (l' : list Z) : Prop :=
  if remove then forall p, In p l' <-> In p l /\ p <> seq
  else In seq l' /\ (forall p, In p l' -> p = seq \/ In p l) /\ ((List.length l < maxPinnedMessages)%nat -> forall p, In p l -> In p l').

Lemma change_pins_sound l seq remove l' changed :
  pins_wf l -> 0 < seq -> change_pins l seq remove = (l', changed) ->
  pins_wf l' /\ pins_step l seq remove l' /\ (changed = false -> l' = l).
Proof.
  intros (Hn & Hlen & Hpos) Hseq. unfold change_pins, pins_step. pose proof (findSeq_spec l seq) as F. destruct (findSeq l seq) as [i|].
  - destruct F as (a & b & -> & ->). destruct remove; intros [= <- <-].
    + rewrite remove_nth_middle. destruct (NoDup_middle _ _ _ Hn) as [Hn' Hs]. rewrite Forall_app, Forall_cons in Hpos.
      rewrite length_app in *. cbn in Hlen. split; [|split; [|done]].
      * split; [done|]. rewrite length_app. split; [lia|]. rewrite Forall_app. tauto.
      * intros p. rewrite !in_app_iff in *. simpl. intuition congruence.
    + split; [done|]. split; [|done]. split; [|by auto]. rewrite in_app_iff. simpl. auto.
  - destruct remove; intros [= <- <-].
    + split; [done|]. split; [|done]. intros p. intuition congruence.
    + set (k := maxPinnedMessages) in *. assert (pins_wf (firstn k (seq :: l))) as Hwf.
      { split; [|split].
        - eapply sublist_NoDup; [|apply sublist_take]. apply NoDup_cons. split; [|done]. by rewrite list_elem_of_In.
        - rewrite length_firstn. unfold k. lia.
        - apply Forall_take. by constructor. }
      split; [done|]. split; [|done]. split; [unfold k; cbn; by left|]. split.
      * intros p Hp. assert (In p (seq :: l)) as [<-|]; [|by left|by right].
        rewrite <- (firstn_skipn k (seq :: l)), in_app_iff. by left.
      * intros Hl p Hp. right. rewrite firstn_all2; [done|]. unfold k, maxPinnedMessages in Hl. lia.
Qed.
