(* ===== verification/Utils.v ===== *)
(** * Utils: versions, tags, differences and merges (internal/server/utils.go)

    The pure helpers the handlers share.  [Module Versions]: the packed protocol version.  [Module Slices]: ranges of the
    protocol, the difference of two lists of strings.  [Module Tags]: tags of users and topics; the classes of Unicode and
    lower case outside ASCII are arguments.  [Module Merge]: the merge of [public] and [private] values that {set desc} does.
    Go sorts by [sort.Strings], which is [sort_by] of the prelude. *)

From Stdlib Require Import NArith ZArith Lia List Ascii String Bool Permutation Sorted.
From stdpp Require Import base tactics numbers list strings gmap sets pretty.
From S2P Require Import Prelude StoreTypes AccessMode Drafty Messages Interactions.

#[local] Open Scope string_scope.
#[local] Open Scope Z_scope.

(** ** Text *)

(** [strings.Contains] *)
Fixpoint Contains (s w : string) : bool :=
  HasPrefix s w || match s with "" => false | String _ s' => Contains s' w end.

(** The text before the first [sep] and the text after it. *)
Fixpoint Cut (sep : ascii) (s : string) : string * option string :=
  match s with
  | "" => ("", None)
  | String c s' =>
      if Ascii.eqb c sep then ("", Some s')
      else let '(a, b) := Cut sep s' in (String c a, b)
  end.

(** [strings.SplitN] at a character, for a positive number of parts. *)
Fixpoint SplitN (sep : ascii) (n : nat) (s : string) : list string :=
  match n with
  | O => []
  | S O => [s]
  | S n' => match Cut sep s with (a, Some b) => a :: SplitN sep n' b | (a, None) => [a] end
  end.

(** [strings.Split] at a character: there are at most as many parts as bytes and one. *)
Definition Split (sep : ascii) (s : string) : list string := SplitN sep (S (String.length s)) s.

(** A code point and its bytes at the start of a string, Go's [range]: an invalid byte is U+FFFD of width one. *)
Definition DecodeRune (s : string) : N * nat :=
  let cont c := (128 <=? N_of_ascii c)%N && (N_of_ascii c <=? 191)%N in
  let low c := (N_of_ascii c mod 64)%N in
  match s with
  | "" => (0xFFFD%N, 0%nat)
  | String a s1 =>
      let x := N_of_ascii a in
      if (x <? 128)%N then (x, 1%nat)
      else match s1 with
           | String b s2 =>
               if (194 <=? x)%N && (x <=? 223)%N && cont b then (((x mod 32) * 64 + low b)%N, 2%nat)
               else match s2 with
                    | String c s3 =>
                        let v := ((x mod 16) * 4096 + low b * 64 + low c)%N in
                        if (224 <=? x)%N && (x <=? 239)%N && cont b && cont c && (2048 <=? v)%N &&
                           negb ((55296 <=? v)%N && (v <=? 57343)%N) then (v, 3%nat)
                        else match s3 with
                             | String d _ =>
                                 let v := ((x mod 8) * 262144 + low b * 4096 + low c * 64 + low d)%N in
                                 if (240 <=? x)%N && (x <=? 244)%N && cont b && cont c && cont d &&
                                    (65536 <=? v)%N && (v <=? 1114111)%N then (v, 4%nat)
                                 else (0xFFFD%N, 1%nat)
                             | "" => (0xFFFD%N, 1%nat)
                             end
                    | "" => (0xFFFD%N, 1%nat)
                    end
           | "" => (0xFFFD%N, 1%nat)
           end
  end.

(** [[]rune(s)]: every rune is at least one byte. *)
Fixpoint runes_from (fuel : nat) (s : string) : list N :=
  match fuel, s with
  | _, "" => []
  | O, _ => []
  | S fuel', _ => let '(r, w) := DecodeRune s in r :: runes_from fuel' (drop_bytes w s)
  end.
Definition runes (s : string) : list N := runes_from (String.length s) s.

(** The bytes before the first rune of a kind, [strings.IndexFunc]. *)
Fixpoint index_from (fuel : nat) (f : N -> bool) (at_ : nat) (s : string) : option nat :=
  match fuel, s with
  | _, "" => None
  | O, _ => None
  | S fuel', _ =>
      let '(r, w) := DecodeRune s in
      if f r then Some at_ else index_from fuel' f (at_ + w)%nat (drop_bytes w s)
  end.
Definition IndexFunc (s : string) (f : N -> bool) : option nat := index_from (String.length s) f 0%nat s.

(** [strconv.Atoi]; numbers beyond 64 bits are errors to the code and too large to every use of this. *)
Fixpoint digits_value (acc : Z) (s : string) : option Z :=
  match s with
  | "" => Some acc
  | String c s' => if in_range 48 57 c then digits_value (acc * 10 + Z.of_N (N_of_ascii c - 48)) s' else None
  end.

Definition Atoi (s : string) : option Z :=
  match s with
  | "" | String "+" "" | String "-" "" => None
  | String "+" s' => digits_value 0 s'
  | String "-" s' => Z.opp <$> digits_value 0 s'
  | _ => digits_value 0 s
  end.

(** [strconv.Itoa] *)
Definition Itoa (z : Z) : string := pretty z.

(** ** Versions *)

Module Versions.
Section Versions.
(** [unicode.IsDigit] *)
Context (IsDigit : N -> bool).

(** The number a part starts with; [None] is an error of [Atoi]. *)
Definition part_number (vers : string) : option Z :=
  match IndexFunc vers (fun r => negb (IsDigit r)) with
  | Some (S e) => Atoi (String.substring 0 (S e) vers)
  | _ => if (String.length vers =? 0)%nat then Some 0 else Atoi vers
  end.

Definition parseVersionPart (vers : string) : Z :=
  match part_number vers with
  | Some t => if (0x1fff <? t) || (t <=? 0) then 0 else t
  | None => 0
  end.

Definition pack (major minor patch : Z) : Z := Z.lor (Z.lor (Z.shiftl major 16) (Z.shiftl minor 8)) patch.

Definition TrimPrefixV (s : string) : string := match s with String "v" s' => s' | _ => s end.

Definition parseVersion (vers : string) : Z :=
  match SplitN "." 3 (TrimPrefixV vers) with
  | [] => pack 0 0 0
  | [a] => pack (parseVersionPart a) 0 0
  | [a; b] => pack (parseVersionPart a) (parseVersionPart b) 0
  | a :: b :: c :: _ => pack (parseVersionPart a) (parseVersionPart b) (parseVersionPart c)
  end.
End Versions.

Definition base10Version (hex : Z) : Z :=
  let major := Z.land (Z.shiftr hex 16) 0xFF in
  let minor := Z.land (Z.shiftr hex 8) 0xFF in
  let trailer := Z.land hex 0xFF in
  major * 10000 + minor * 100 + trailer.

Definition versionToString (vers : Z) : string :=
  let str := (Itoa (Z.shiftr vers 16) ++ "." ++ Itoa (Z.land (Z.shiftr vers 8) 0xff))%string in
  if Z.land vers 0xff =? 0 then str else (str ++ "-" ++ Itoa (Z.land vers 0xff))%string.

Definition versionCompare (v1 v2 : Z) : Z := Z.shiftr v1 8 - Z.shiftr v2 8.

Definition asciiDigit (r : N) : bool := (48 <=? r)%N && (r <=? 57)%N.

(** ** Properties *)

Lemma part_bound IsDigit s : 0 <= parseVersionPart IsDigit s <= 0x1fff.
Proof.
  unfold parseVersionPart. destruct (part_number IsDigit s) as [t|]; [|lia].
  destruct (Z.ltb_spec 0x1fff t), (Z.leb_spec t 0); cbn [orb]; lia.
Qed.

Lemma lor_disjoint a b k : 0 <= k -> 0 <= b < 2 ^ k -> Z.lor (Z.shiftl a k) b = a * 2 ^ k + b.
Proof.
  intros Hk Hb. assert (Z.land (Z.shiftl a k) b = 0) as L.
  { apply Z.bits_inj'. intros n Hn. rewrite Z.land_spec, Z.bits_0, Z.shiftl_spec by done.
    destruct (Z.ltb_spec n k); [by rewrite Z.testbit_neg_r by lia|].
    destruct (Z.eq_dec b 0) as [->|]; [by rewrite Z.bits_0, andb_false_r|].
    rewrite (Z.bits_above_log2 b n), andb_false_r; [done|lia|].
    apply Z.log2_lt_pow2; [lia|]. eapply Z.lt_le_trans; [apply Hb|apply Z.pow_le_mono_r; lia]. }
  by rewrite <- (Z.lxor_lor _ _ L), <- (Z.add_nocarry_lxor _ _ L), Z.shiftl_mul_pow2.
Qed.

Lemma pack_value major minor patch : 0 <= minor < 256 -> 0 <= patch < 256 -> pack major minor patch = (major * 256 + minor) * 256 + patch.
Proof.
  intros Hm Hp. unfold pack.
  assert (Z.lor (Z.shiftl major 16) (Z.shiftl minor 8) = Z.shiftl (major * 256 + minor) 8) as ->.
  { replace (Z.shiftl major 16) with (Z.shiftl (Z.shiftl major 8) 8) by (by rewrite Z.shiftl_shiftl by lia).
    rewrite <- Z.shiftl_lor. f_equal. by apply lor_disjoint. }
  by apply lor_disjoint.
Qed.

(** versions whose minor and patch numbers fit a byte compare by major and minor number, the major one first; the patch
    number does not count. *)
Theorem version_order major minor patch major' minor' patch' :
  0 <= minor < 256 -> 0 <= patch < 256 -> 0 <= minor' < 256 -> 0 <= patch' < 256 ->
  (versionCompare (pack major minor patch) (pack major' minor' patch') < 0 <->
     major < major' \/ major = major' /\ minor < minor') /\
  (versionCompare (pack major minor patch) (pack major' minor' patch') = 0 <-> major = major' /\ minor = minor').
Proof.
  intros. unfold versionCompare. rewrite !pack_value by done. rewrite !Z.shiftr_div_pow2 by lia. change (2 ^ 8) with 256.
  rewrite !Z.div_add_l, !(Z.div_small _ 256) by lia. lia.
Qed.

Lemma version_order_witness :
  (versionCompare (pack 0 22 14) (pack 0 32 0) < 0 <-> 0 < 0 \/ 0 = 0 /\ 22 < 32) /\
  (versionCompare (pack 0 22 14) (pack 0 32 0) = 0 <-> 0 = 0 /\ 22 = 32).
Proof. apply (version_order 0 22 14 0 32 0); lia. Defined.

(** a part of a version may be up to 8191 and is put into eight bits: the patch number of "0.32.256" makes the server
    take the client for one of version 0.33, and a minor number of 256 for the next major one. *)
Theorem version_part_overflows :
  parseVersion asciiDigit "0.32.256" = parseVersion asciiDigit "0.33" /\
  parseVersion asciiDigit "v0.256-rc1" = parseVersion asciiDigit "1".
Proof. by vm_compute. Qed.

(** The decimal texts of the bytes: digits, no point, read back. *)
Definition digit_char (c : ascii) : bool := in_range 48 57 c.
Definition byte_text_ok (n : N) : bool :=
  let s := Itoa (Z.of_N n) in
  all_chars digit_char s && negb (String.eqb s "") && (parseVersionPart asciiDigit s =? Z.of_N n) &&
  match Atoi s with Some z => z =? Z.of_N n | None => false end.

Lemma byte_texts_ok : all_below 256 byte_text_ok = true.
Proof. by vm_compute. Qed.

Lemma byte_text z : 0 <= z < 256 ->
  all_chars digit_char (Itoa z) = true /\ Itoa z <> "" /\ parseVersionPart asciiDigit (Itoa z) = z /\ Atoi (Itoa z) = Some z.
Proof.
  intros Hz. pose proof (all_below_spec 256 byte_text_ok byte_texts_ok (Z.to_N z) ltac:(lia)) as H.
  unfold byte_text_ok in H. rewrite Z2N.id in H by lia. destruct (Atoi (Itoa z)); to_prop; [|done]. subst. done.
Qed.

Lemma digit_rune c s : digit_char c = true -> DecodeRune (String c s) = (N_of_ascii c, 1%nat).
Proof.
  unfold digit_char, in_range. intros H. to_prop. cbn [DecodeRune]. destruct (N.ltb_spec (N_of_ascii c) 128); [done|lia].
Qed.

(** The digits before a character that is none. *)
Lemma index_digits d r fuel at_ :
  all_chars digit_char d = true -> (String.length d < fuel)%nat ->
  index_from fuel (fun r => negb (asciiDigit r)) at_ (d ++ String "-" r) = Some (at_ + String.length d)%nat.
Proof.
  revert fuel at_. induction d as [|c d IH]; intros [|fuel] at_ Hd Hf; simpl in Hf; try lia.
  - cbn. f_equal. lia.
  - cbn [String.append index_from]. cbn [all_chars] in Hd. to_prop. rewrite digit_rune by done.
    assert (asciiDigit (N_of_ascii c) = true) as -> by exact H. cbn [negb drop_bytes].
    rewrite (IH fuel (at_ + 1)%nat) by (done || lia). f_equal. cbn. lia.
Qed.

Lemma part_before_trailer d r z :
  all_chars digit_char d = true -> d <> "" -> Atoi d = Some z -> 0 <= z < 256 -> parseVersionPart asciiDigit (d ++ String "-" r) = z.
Proof.
  intros Hd Hne Ha Hz. unfold parseVersionPart, part_number, IndexFunc.
  rewrite index_digits by (done || (rewrite length_append; cbn; lia)). destruct d as [|c d]; [done|].
  cbn [Nat.add String.length]. rewrite (substring_append_prefix (String c d)), Ha.
  destruct (Z.ltb_spec 0x1fff z), (Z.leb_spec z 0); cbn [orb]; lia.
Qed.

Lemma cut_digits d r : all_chars digit_char d = true -> Cut "." (d ++ String "." r) = (d, Some r).
Proof.
  induction d as [|c d IH]; intros Hd; [done|]. cbn [String.append Cut all_chars] in *. to_prop.
  destruct (Ascii.eqb_spec c ".") as [->|]; [done|]. by rewrite IH.
Qed.

Lemma cut_none s : all_chars (fun c => negb (Ascii.eqb c ".")) s = true -> Cut "." s = (s, None).
Proof.
  induction s as [|c s IH]; intros Hs; [done|]. cbn [Cut all_chars] in *. to_prop. rewrite H. by rewrite IH.
Qed.

Lemma digits_no_dot s : all_chars digit_char s = true -> all_chars (fun c => negb (Ascii.eqb c ".")) s = true.
Proof.
  induction s as [|c s IH]; intros Hs; [done|]. cbn [all_chars] in *. to_prop. rewrite IH by done.
  by destruct (Ascii.eqb_spec c ".") as [->|].
Qed.

Lemma all_chars_append p a b : all_chars p (a ++ b) = all_chars p a && all_chars p b.
Proof. induction a as [|c a IH]; [done|]. cbn. by rewrite IH, andb_assoc. Qed.

Lemma trim_v_digits d r : all_chars digit_char d = true -> d <> "" -> TrimPrefixV (d ++ r) = (d ++ r)%string.
Proof.
  destruct d as [|c d]; [done|]. cbn [all_chars]. intros H _. to_prop. cbn.
  destruct c as [[] [] [] [] [] [] [] []]; done.
Qed.

(** the text of a version of three bytes reads back as the version without its trailer, which follows a hyphen and which
    the parser takes for the end of the minor number. *)
Theorem version_text_roundtrip major minor trailer :
  0 <= major < 256 -> 0 <= minor < 256 -> 0 <= trailer < 256 ->
  parseVersion asciiDigit (versionToString (pack major minor trailer)) = pack major minor 0.
Proof.
  intros Ha Hb Hc. unfold versionToString. rewrite !pack_value by lia. set (v := (major * 256 + minor) * 256 + trailer).
  assert (Z.shiftr v 16 = major /\ Z.land (Z.shiftr v 8) 0xff = minor /\ Z.land v 0xff = trailer) as (-> & -> & ->).
  { rewrite !Z.shiftr_div_pow2 by lia. change 0xff with (Z.ones 8). rewrite !Z.land_ones by lia. change (2 ^ 16) with 65536.
    change (2 ^ 8) with 256. unfold v. repeat split; Z.to_euclidean_division_equations; lia. }
  destruct (byte_text major Ha) as (Da & Na & Pa & _), (byte_text minor Hb) as (Db & Nb & Pb & Ab).
  unfold parseVersion. assert (forall w, all_chars (fun c => negb (Ascii.eqb c ".")) w = true ->
    SplitN "." 3 (TrimPrefixV (Itoa major ++ "." ++ w)) = [Itoa major; w]) as Hs.
  { intros w Hw. rewrite trim_v_digits by done. cbn [SplitN String.append]. rewrite cut_digits by done. by rewrite cut_none. }
  destruct (Z.eqb_spec trailer 0) as [->|Ht].
  - rewrite Hs by (by apply digits_no_dot). rewrite Pa, Pb. by rewrite pack_value by lia.
  - rewrite !append_assoc, Hs.
    + change ("-" ++ Itoa trailer)%string with (String "-" (Itoa trailer)). rewrite Pa, (part_before_trailer _ _ minor) by done.
      by rewrite pack_value by lia.
    + rewrite !all_chars_append. rewrite (digits_no_dot (Itoa minor)), (digits_no_dot (Itoa trailer)); [done|by apply byte_text|done].
Qed.

Lemma version_text_roundtrip_witness : parseVersion asciiDigit (versionToString (pack 0 22 7)) = pack 0 22 0.
Proof. apply (version_text_roundtrip 0 22 7); lia. Defined.
End Versions.

(** ** Differences *)

Module Slices.
Import Ranges.

(** A protocol range is a pair of its ends. *)
Definition rangeDeserialize (l : list Range) : list (Z * Z) := map (fun r => (r.(Low), r.(Hi))) l.
Definition rangeSerialize (l : list (Z * Z)) : list Range := map (fun r => mkRange (fst r) (snd r)) l.

(** The loop of [stringSliceDelta] on sorted slices; every turn consumes an element. *)
Fixpoint delta_loop (fuel : nat) (rold rnew added removed intersection : list string) : list string * list string * list string :=
  match fuel with
  | O => (added, removed, intersection)
  | S fuel' =>
      match rold, rnew with
      | [], [] => (added, removed, intersection)
      | [], n :: rnew' => delta_loop fuel' [] rnew' (added ++ [n]) removed intersection
      | o :: rold', [] => delta_loop fuel' rold' [] added (removed ++ [o]) intersection
      | o :: rold', n :: rnew' =>
          if str_ltb n o then delta_loop fuel' rold rnew' (added ++ [n]) removed intersection
          else if str_ltb o n then delta_loop fuel' rold' rnew added (removed ++ [o]) intersection
          else delta_loop fuel' rold' rnew' added removed (intersection ++ [o])
      end
  end%list.

Definition stringSliceDelta (rold rnew : list string) : list string * list string * list string :=
  match rold, rnew with
  | [], [] => ([], [], [])
  | [], _ => (rnew, [], [])
  | _, [] => ([], rold, [])
  | _, _ =>
      let rold := sort_by str_ltb rold in
      let rnew := sort_by str_ltb rnew in
      delta_loop (List.length rold + List.length rnew) rold rnew [] [] []
  end.

Record MsgCredClient := mkCred { Method : string; Value : string; Response : string; cred_Params : Any }.

(** The entry of [index] that the loop leaves for each method, in the iteration order of the map; [validators] are the
    configured methods. *)
Definition keep_cred (validators : list string) (valueRequired : bool) (index : gmap string MsgCredClient) (c : MsgCredClient)
    : gmap string MsgCredClient :=
  if existsb (String.eqb c.(Method)) validators && (negb valueRequired || negb (String.eqb c.(Value) ""))
  then <[c.(Method) := c]> index else index.

Definition normalizeCredentials (validators : list string) (creds : list MsgCredClient) (valueRequired : bool) : list MsgCredClient :=
  map snd (map_to_list (fold_left (keep_cred validators valueRequired) creds ∅)).

Definition credentialMethods (creds : list MsgCredClient) : list string := map Method creds.

Definition truncateStringIfTooLong (s : string) : string :=
  if (String.length s <=? 1024)%nat then s else (String.substring 0 1024 s ++ "...")%string.

Definition isUnixAddr (addr : string) : bool :=
  match Cut ":" addr with (a, Some _) => String.eqb a "unix" | _ => false end.

Definition platformFromUA (ua : string) : string :=
  let ua := ToLower ua in
  let has := Contains ua in
  if has "reactnative" then
    if has "iphone" || has "ipad" then "ios" else if has "android" then "android" else ""
  else if has "imjs" || has "tinodejs" then "web"
  else if has "imdroid" || has "tindroid" then "android"
  else if has "imios" || has "tinodios" then "ios"
  else if has "iphone" || has "ipad" then "ios"
  else if has "android" then "android"
  else if has "mozilla" || has "chrome" || has "safari" || has "firefox" then "web"
  else "".

(** ** Properties *)

Lemma delta_loop_spec fuel rold rnew a r i :
  (List.length rold + List.length rnew <= fuel)%nat ->
  StronglySorted (le_by str_ltb) rold -> StronglySorted (le_by str_ltb) rnew ->
  exists da dr di, delta_loop fuel rold rnew a r i = (a ++ da, r ++ dr, i ++ di)%list /\
    Permutation rold (dr ++ di) /\ Permutation rnew (da ++ di) /\ forall x, In x da -> In x dr -> False.
Proof.
  revert rold rnew a r i. induction fuel as [|fuel IH]; intros rold rnew a r i Hf So Sn.
  { destruct rold, rnew; try (simpl in Hf; lia). exists [], [], []. rewrite !app_nil_r. done. }
  assert (forall dr di, forall l : list string, Permutation l (dr ++ di) -> forall x, In x dr -> In x l) as Hin.
  { intros dr di l Hp x Hx. eapply Permutation_in; [by symmetry|]. apply in_or_app. by left. }
  destruct rold as [|o rold], rnew as [|n rnew]; cbn [delta_loop].
  - exists [], [], []. rewrite !app_nil_r. done.
  - inversion Sn; subst. destruct (IH [] rnew (a ++ [n])%list r i) as (da & dr & di & -> & Po & Pn & Hd); [simpl in *; lia|done..|].
    exists (n :: da), dr, di. rewrite <- app_assoc. split; [done|]. split; [done|]. split; [by constructor|].
    intros x [->|Hx] Hr; [|by eapply Hd]. by apply (Hin _ _ _ Po) in Hr.
  - inversion So; subst. destruct (IH rold [] a (r ++ [o])%list i) as (da & dr & di & -> & Po & Pn & Hd); [simpl in *; lia|done..|].
    exists da, (o :: dr), di. rewrite <- app_assoc. split; [done|]. split; [by constructor|]. split; [done|].
    intros x Hx Hr. by apply (Hin _ _ _ Pn) in Hx.
  - inversion So as [|? ? So' Ho]; inversion Sn as [|? ? Sn' Hn]; subst. rewrite List.Forall_forall in Ho, Hn.
    destruct (str_ltb n o) eqn:En; [|destruct (str_ltb o n) eqn:Eo].
    + destruct (IH (o :: rold) rnew (a ++ [n])%list r i) as (da & dr & di & -> & Po & Pn & Hd); [simpl in *; lia|done..|].
      exists (n :: da), dr, di. rewrite <- app_assoc. split; [done|]. split; [done|]. split; [by constructor|].
      intros x [->|Hx] Hr; [|by eapply Hd].
      apply (Hin _ _ _ Po) in Hr as [->|Hr]; [by rewrite str_ltb_irrefl in En|]. apply Ho in Hr. unfold le_by in Hr. congruence.
    + destruct (IH rold (n :: rnew) a (r ++ [o])%list i) as (da & dr & di & -> & Po & Pn & Hd); [simpl in *; lia|done..|].
      exists da, (o :: dr), di. rewrite <- app_assoc. split; [done|]. split; [by constructor|]. split; [done|].
      intros x Hx [->|Hr]; [|by eapply Hd].
      apply (Hin _ _ _ Pn) in Hx as [->|Hx]; [by rewrite str_ltb_irrefl in Eo|]. apply Hn in Hx. unfold le_by in Hx. congruence.
    + assert (o = n) as -> by (by apply str_ltb_total).
      destruct (IH rold rnew a r (i ++ [n])%list) as (da & dr & di & -> & Po & Pn & Hd); [simpl in *; lia|done..|].
      exists da, dr, (n :: di). rewrite <- app_assoc. split; [done|]. split; [by apply Permutation_cons_app|].
      split; [by apply Permutation_cons_app|done].
Qed.

(** the difference of two lists of strings splits both of them: what was removed and what stayed is the old list, what was
    added and what stayed is the new one, occurrence by occurrence, and nothing is both added and removed. *)
Theorem delta_splits rold rnew added removed intersection :
  stringSliceDelta rold rnew = (added, removed, intersection) ->
  Permutation rold (removed ++ intersection) /\ Permutation rnew (added ++ intersection) /\
  forall x, In x added -> In x removed -> False.
Proof.
  unfold stringSliceDelta. intros H.
  destruct rold as [|o rold]; [destruct rnew; injection H as <- <- <-; rewrite ?app_nil_r; auto|].
  destruct rnew as [|n rnew]; [injection H as <- <- <-; rewrite ?app_nil_r; auto|].
  pose proof (delta_loop_spec (List.length (sort_by str_ltb (o :: rold)) + List.length (sort_by str_ltb (n :: rnew)))
    (sort_by str_ltb (o :: rold)) (sort_by str_ltb (n :: rnew)) [] [] []) as (da & dr & di & E & Po & Pn & Hd).
  { lia. }
  { apply sort_by_sorted, _. }
  { apply sort_by_sorted, _. }
  rewrite E in H. injection H as <- <- <-. split; [|split; [|exact Hd]].
  - etransitivity; [symmetry; apply sort_by_perm|exact Po].
  - etransitivity; [symmetry; apply sort_by_perm|exact Pn].
Qed.

Lemma delta_splits_witness :
  Permutation ["b"; "a"; "b"] (["b"] ++ ["a"; "b"]) /\ Permutation ["c"; "b"; "a"] (["c"] ++ ["a"; "b"]) /\
  forall x, In x ["c"] -> In x ["b"] -> False.
Proof. apply (delta_splits ["b"; "a"; "b"] ["c"; "b"; "a"] ["c"] ["b"] ["a"; "b"]). by vm_compute. Defined.

(** ranges of the database come back from the protocol as they were. *)
Theorem ranges_roundtrip l : rangeSerialize (rangeDeserialize l) = l.
Proof. induction l as [|[a b] l IH]; [done|]. cbn. by f_equal. Qed.

Lemma keep_cred_get validators req creds index m :
  fold_left (keep_cred validators req) creds index !! m =
  match List.find (fun c => String.eqb c.(Method) m && existsb (String.eqb c.(Method)) validators &&
                            (negb req || negb (String.eqb c.(Value) ""))) (rev creds) with
  | Some c => Some c
  | None => index !! m
  end.
Proof.
  induction creds as [|c creds IH] using rev_ind; [done|]. rewrite fold_left_app, rev_app_distr. cbn [fold_left rev app List.find].
  unfold keep_cred at 1. destruct (String.eqb_spec c.(Method) m) as [<-|Hne]; cbn [andb].
  - destruct (_ && _)%bool eqn:E; cbn [andb]; [by rewrite lookup_insert_eq|exact IH].
  - destruct (_ && _)%bool; [rewrite lookup_insert_ne by done|]; exact IH.
Qed.

(** normalising credentials keeps one for each configured method, the last that qualifies (the comment says the first). *)
Theorem credentials_keep_last validators creds req c :
  In c (normalizeCredentials validators creds req) <->
  List.find (fun x => String.eqb x.(Method) c.(Method) && existsb (String.eqb x.(Method)) validators &&
                      (negb req || negb (String.eqb x.(Value) ""))) (rev creds) = Some c.
Proof.
  unfold normalizeCredentials. rewrite in_map_iff. split.
  - intros ([m c'] & <- & Hin). cbn. apply list_elem_of_In, elem_of_map_to_list in Hin. rewrite keep_cred_get, lookup_empty in Hin.
    destruct (List.find _ (rev creds)) as [x|] eqn:E; [|done]. simplify_eq.
    pose proof E as E'. apply find_some in E' as [_ [[Hm _]%andb_true_iff _]%andb_true_iff]. apply String.eqb_eq in Hm as <-. exact E.
  - intros E. exists (c.(Method), c). split; [done|]. apply list_elem_of_In, elem_of_map_to_list. by rewrite keep_cred_get, E.
Qed.

Lemma credentials_of_one_method validators creds req c1 c2 :
  In c1 (normalizeCredentials validators creds req) -> In c2 (normalizeCredentials validators creds req) ->
  c1.(Method) = c2.(Method) -> c1 = c2.
Proof.
  unfold normalizeCredentials. rewrite !in_map_iff. intros ([m1 x1] & <- & H1) ([m2 x2] & <- & H2). cbn [snd].
  apply list_elem_of_In, elem_of_map_to_list in H1, H2. rewrite keep_cred_get, lookup_empty in H1, H2.
  destruct (List.find _ (rev creds)) as [y1|] eqn:E1 in H1; [|done]. destruct (List.find _ (rev creds)) as [y2|] eqn:E2 in H2; [|done].
  simplify_eq. apply find_some in E1 as E1'. apply find_some in E2 as E2'.
  destruct E1' as [_ [[->%String.eqb_eq _]%andb_true_iff _]%andb_true_iff].
  destruct E2' as [_ [[->%String.eqb_eq _]%andb_true_iff _]%andb_true_iff]. intros <-. congruence.
Qed.
End Slices.

(** ** Tags *)

Module Tags.
Section Tags.
(** [unicode.IsLetter] (the class pL), [unicode.IsNumber] (pN), [unicode.IsDigit], and [strings.ToLower]. *)
Context (IsLetter IsNumber IsDigit : N -> bool) (ToLowerFull : string -> string).
(** [globals.validators]: the methods that may rewrite a tag, with their [PreCheck]; [globals.defaultCountryCode]. *)
Context (preCheck : string -> string -> list string) (defaultCountryCode : string).

Definition minTagLength : nat := 2.
Definition maxTagLength : nat := 96.

Definition tag_rune (r : N) : bool :=
  existsb (N.eqb r) (map N_of_ascii ["-"; "_"; "+"; "."; "!"; "?"; "#"; "@"]%char) || IsLetter r || IsNumber r.

(** [tagRegexp]; an invalid byte is U+FFFD, which is no letter and no number. *)
Definition tag_body (s : string) : bool :=
  let rs := runes s in (1 <=? List.length rs)%nat && (List.length rs <=? 96)%nat && forallb tag_rune rs.

Definition word_char (c : ascii) : bool :=
  in_range 48 57 c || in_range 65 90 c || in_range 97 122 c || Ascii.eqb c "_".

(** [prefixedTagRegexp]: the prefix and the body.  Neither class holds a colon, so that the first colon ends the prefix. *)
Definition prefixed_tag (s : string) : option (string * string) :=
  match Cut ":" s with
  | (String c w, Some body) =>
      if in_range 97 122 c && (1 <=? String.length w)%nat && (String.length w <=? 15)%nat && all_chars word_char w && tag_body body
      then Some (String c w, body) else None
  | _ => None
  end.

(** A namespace map holds [true] for its members. *)
Definition filterTags (tags : list string) (namespaces : list string) : list string :=
  match namespaces with
  | [] => []
  | _ => List.filter (fun s => match prefixed_tag s with Some (p, _) => existsb (String.eqb p) namespaces | None => false end) tags
  end.

Definition rewriteTag (orig countryCode : string) : list string :=
  let countryCode := if String.eqb countryCode "" then defaultCountryCode else countryCode in
  match prefixed_tag orig with
  | Some _ => [orig]
  | None =>
      match List.find (fun t => negb (String.eqb t "")) (preCheck orig countryCode) with
      | Some tag => [orig; tag]
      | None => if tag_body orig then [orig] else []
      end
  end.

Definition rewriteTagSlice (tags : list string) (countryCode : string) : list string :=
  flat_map (fun t => rewriteTag t countryCode) tags.

Fixpoint list_eqb (a b : list string) : bool :=
  match a, b with
  | [], [] => true
  | x :: a', y :: b' => String.eqb x y && list_eqb a' b'
  | _, _ => false
  end.

Definition restrictedTagsEqual (oldTags newTags namespaces : list string) : bool :=
  let rold := filterTags oldTags namespaces in
  let rnew := filterTags newTags namespaces in
  if negb (List.length rold =? List.length rnew)%nat then false
  else list_eqb (sort_by str_ltb rold) (sort_by str_ltb rnew).

(** The loop of [normalizeTags] over the sorted tags; [None] is the null value, which clears all tags. *)
Fixpoint normalize_loop (prev : string) (src : list string) : option (list string) :=
  match src with
  | [] => Some []
  | curr :: src' =>
      if String.eqb curr nullValue then None
      else
        let ucurr := runes curr in
        if (List.length ucurr <? minTagLength)%nat || (maxTagLength <? List.length ucurr)%nat || String.eqb curr prev
        then normalize_loop prev src'
        else match ucurr with
             | r :: _ => if IsLetter r || IsDigit r then cons curr <$> normalize_loop curr src' else normalize_loop prev src'
             | [] => normalize_loop prev src'
             end
  end.

(** [None] is nil, [Some []] the empty slice that is not nil. *)
Definition normalizeTags (src : option (list string)) (maxTags : nat) : option (list string) :=
  match src with
  | None => None
  | Some src =>
      let src := if (maxTags <? List.length src)%nat then firstn maxTags src else src in
      match normalize_loop "" (sort_by str_ltb (map (fun s => ToLowerFull (TrimSpace s)) src)) with
      | None => Some []
      | Some [] => None
      | Some dst => Some dst
      end
  end.

Definition validateTag (tag : string) : string * string :=
  match prefixed_tag tag with
  | Some (p, b) => (p, b)
  | None => if tag_body tag then ("", tag) else ("", "")
  end.

Fixpoint duplicate_loop (found : bool) (src : list string) (uniqueNS : string) : bool :=
  match src with
  | [] => false
  | tag :: src' =>
      match prefixed_tag tag with
      | Some (p, _) => if String.eqb uniqueNS p then found || duplicate_loop true src' uniqueNS else duplicate_loop found src' uniqueNS
      | None => duplicate_loop found src' uniqueNS
      end
  end.
Definition hasDuplicateNamespaceTags (src : list string) (uniqueNS : string) : bool := duplicate_loop false src uniqueNS.

(** ** Properties *)

Lemma list_eqb_eq a b : list_eqb a b = true <-> a = b.
Proof.
  revert b. induction a as [|x a IH]; intros [|y b]; cbn [list_eqb]; try done. rewrite andb_true_iff, IH, String.eqb_eq. split; [by intros [-> ->]|by intros [= -> ->]].
Qed.

(** two sets of tags count as equal in their restricted part when that part is the same up to order, occurrences counted. *)
Theorem restricted_tags_equal oldTags newTags namespaces :
  restrictedTagsEqual oldTags newTags namespaces = true <->
  Permutation (filterTags oldTags namespaces) (filterTags newTags namespaces).
Proof.
  unfold restrictedTagsEqual. split.
  - destruct (_ =? _)%nat; [|done]. cbn [negb]. rewrite list_eqb_eq. intros E.
    rewrite <- (sort_by_perm str_ltb (filterTags oldTags namespaces)), E. apply sort_by_perm.
  - intros Hp. rewrite (Permutation_length Hp), Nat.eqb_refl. cbn [negb]. rewrite list_eqb_eq. apply sort_by_perm_eq; [apply _|done].
Qed.

Definition tag_ok (s : string) : Prop :=
  (minTagLength <= List.length (runes s) <= maxTagLength)%nat /\
  exists r rs, runes s = r :: rs /\ (IsLetter r || IsDigit r) = true.

Lemma normalize_loop_sound src prev dst :
  StronglySorted (le_by str_ltb) (prev :: src) -> normalize_loop prev src = Some dst ->
  StronglySorted (fun a b => str_ltb a b = true) (prev :: dst) /\ Forall tag_ok dst /\ forall x, In x dst -> In x src.
Proof.
  revert prev dst. induction src as [|curr src IH]; intros prev dst Hs E; cbn [normalize_loop] in E.
  { simplify_eq. split; [by repeat constructor|]. by split. }
  assert (StronglySorted (le_by str_ltb) (prev :: src) /\ StronglySorted (le_by str_ltb) (curr :: src) /\ le_by str_ltb prev curr)
    as (Hp & Hc & Hle).
  { inversion Hs as [|? ? Hs1 Hf]; subst. inversion Hs1 as [|? ? Hs2 Hf2]; subst. inversion Hf; subst. by repeat constructor. }
  assert (forall dst, normalize_loop prev src = Some dst ->
    StronglySorted (fun a b => str_ltb a b = true) (prev :: dst) /\ Forall tag_ok dst /\ forall x, In x dst -> In x (curr :: src)) as Hskip.
  { intros d Ed. destruct (IH prev d Hp Ed) as (H1 & H2 & H3). split; [done|]. split; [done|]. intros x Hx. right. auto. }
  destruct (String.eqb curr nullValue); [done|].
  destruct (_ || _)%bool eqn:Ek in E; [by apply Hskip|]. to_prop. apply Nat.ltb_ge in H, H1.
  destruct (runes curr) as [|r rs] eqn:Er; [by apply Hskip|]. destruct (IsLetter r || IsDigit r)%bool eqn:El; [|by apply Hskip].
  destruct (normalize_loop curr src) as [d|] eqn:Ed; [|done]. cbn in E. simplify_eq.
  destruct (IH curr d Hc Ed) as (S1 & S2 & S3).
  assert (str_ltb prev curr = true) as Hlt by (destruct (str_ltb prev curr) eqn:X; [done|]; destruct H0; by apply str_ltb_total).
  split; [|split; [|intros x [->|Hx]; [by left|right; auto]]].
  - constructor; [done|]. constructor; [done|]. inversion S1 as [|? ? _ Hf]; subst. rewrite List.Forall_forall in Hf |- *.
    intros x Hx. eapply str_ltb_trans; [exact Hlt|auto].
  - constructor; [|done]. split; [rewrite Er; lia|eauto].
Qed.

Lemma empty_least l : StronglySorted (le_by str_ltb) l -> StronglySorted (le_by str_ltb) ("" :: l).
Proof. intros H. constructor; [done|]. apply List.Forall_forall. intros x _. unfold le_by. by destruct x. Qed.

(** C40: normalised tags are strictly sorted, so that none occurs twice, no more than the limit, each within the length limits
    and starting with a letter or a digit, and each comes from a tag of the request. *)
Theorem normalize_tags_sound src maxTags dst :
  normalizeTags (Some src) maxTags = Some dst ->
  StronglySorted (fun a b => str_ltb a b = true) dst /\ Forall tag_ok dst /\ (List.length dst <= maxTags)%nat /\
  forall x, In x dst -> exists s, In s src /\ x = ToLowerFull (TrimSpace s).
Proof.
  unfold normalizeTags. set (cut := if (maxTags <? List.length src)%nat then firstn maxTags src else src).
  assert ((List.length cut <= maxTags)%nat /\ forall s, In s cut -> In s src) as [Hcut Hin].
  { unfold cut. destruct (Nat.ltb_spec maxTags (List.length src)); [|split; [lia|done]].
    split; [rewrite length_firstn; lia|]. intros s Hs. rewrite <- (firstn_skipn maxTags src). apply in_or_app. by left. }
  intros E. destruct (normalize_loop "" _) as [d|] eqn:En.
  2: { simplify_eq. split; [constructor|]. split; [constructor|]. split; [simpl; lia|]. by intros x []. }
  assert (dst = d) as -> by (destruct d; [done|congruence]). clear E.
  apply normalize_loop_sound in En as (S1 & S2 & S3); [|apply empty_least, sort_by_sorted, _].
  inversion S1 as [|? ? Hd Hall]; subst. split; [done|]. split; [done|]. split.
  - assert (List.NoDup d) as Hn.
    { clear -Hd. induction Hd as [|a l Hs IH Ha]; constructor; [|done]. intros Hi. rewrite List.Forall_forall in Ha. apply Ha in Hi.
      by rewrite str_ltb_irrefl in Hi. }
    apply NoDup_incl_length with (l' := sort_by str_ltb (map (fun s => ToLowerFull (TrimSpace s)) cut)) in Hn; [|done].
    rewrite (Permutation_length (sort_by_perm _ _)), length_map in Hn. lia.
  - intros x Hx. apply S3 in Hx. eapply Permutation_in in Hx; [|apply sort_by_perm]. apply in_map_iff in Hx as (s & <- & Hs). eauto.
Qed.

Lemma cut_inv c s a b : Cut c s = (a, Some b) -> s = (a ++ String c b)%string.
Proof.
  revert a. induction s as [|x s IH]; intros a E; cbn in E; [done|]. destruct (Ascii.eqb_spec x c) as [->|]; [by simplify_eq|].
  destruct (Cut c s) as [a' [b'|]]; simplify_eq. cbn. by rewrite (IH a').
Qed.

(** a tag that validates with a namespace is the namespace, a colon and the value; without one it is the value. *)
Theorem validate_tag_roundtrip tag ns value :
  validateTag tag = (ns, value) -> value <> "" -> tag = if String.eqb ns "" then value else (ns ++ ":" ++ value)%string.
Proof.
  unfold validateTag. destruct (prefixed_tag tag) as [[p b]|] eqn:E.
  - intros [= -> ->] _. unfold prefixed_tag in E. destruct (Cut ":" tag) as [[|c w] [body|]] eqn:Ec; try done.
    destruct (_ && _)%bool in E; [|done]. simplify_eq. by apply cut_inv in Ec.
  - destruct (tag_body tag); [|by intros [= <- <-]]. by intros [= <- <-].
Qed.

(** The tags with a namespace. *)
Definition with_namespace (ns : string) (tag : string) : bool :=
  match prefixed_tag tag with Some (p, _) => String.eqb ns p | None => false end.

Lemma duplicate_loop_spec found src ns :
  duplicate_loop found src ns = (2 <=? (if found then 1 else 0) + List.length (List.filter (with_namespace ns) src))%nat.
Proof.
  revert found. induction src as [|tag src IH]; intros found; cbn [duplicate_loop List.filter].
  { by destruct found. }
  unfold with_namespace at 1. destruct (prefixed_tag tag) as [[p b]|]; [|apply IH]. destruct (String.eqb ns p); [|apply IH].
  rewrite IH. cbn [List.length]. destruct found; cbn; [|done]. by destruct (List.length _).
Qed.

(** a list of tags is refused as soon as, and only when, two of its tags are in the namespace that allows one. *)
Theorem duplicate_namespace_detected src ns :
  hasDuplicateNamespaceTags src ns = true <-> (2 <= List.length (List.filter (with_namespace ns) src))%nat.
Proof. unfold hasDuplicateNamespaceTags. rewrite duplicate_loop_spec. cbn [Nat.add]. apply Nat.leb_le. Qed.
End Tags.

Definition letter (r : N) : bool := ((97 <=? r) && (r <=? 122))%N.
Definition asciiDigit (r : N) : bool := ((48 <=? r) && (r <=? 57))%N.

Lemma normalize_tags_sound_witness :
  normalizeTags letter asciiDigit ToLower (Some [" Travel"; "x"; "email:bob@example.com"; "travel"]) 16 = Some ["email:bob@example.com"; "travel"] /\
  (List.length ["email:bob@example.com"; "travel"] <= 16)%nat.
Proof.
  split; [by vm_compute|].
  apply (normalize_tags_sound letter asciiDigit ToLower [" Travel"; "x"; "email:bob@example.com"; "travel"] 16). by vm_compute.
Defined.

Lemma validate_tag_roundtrip_witness : "basic:alice" = (if String.eqb "basic" "" then "alice" else "basic" ++ ":" ++ "alice")%string.
Proof. apply (validate_tag_roundtrip letter asciiDigit "basic:alice" "basic" "alice"); [by vm_compute|done]. Defined.
End Tags.

(** ** Merging values

    A JSON object is a list of fields with distinct keys, in any order; [nil] as a [map[string]any] is [None], and where the
    code stores such a nil map as a value it reads like [nil] ever after.  [merge_object] is [mergeMaps] with its source still an
    [any]. *)

Module Merge.
Definition as_object (v : Any) : option (list (string * Any)) := match v with AMap m => Some m | _ => None end.
Definition of_object (m : option (list (string * Any))) : Any := match m with Some m => AMap m | None => ANil end.

(** The loop over the fields of the source, [merge] being the merge of a nested object. *)
Section Fields.
Context (merge : option (list (string * Any)) -> Any -> option (list (string * Any)) * bool).

Fixpoint merge_fields (dst : list (string * Any)) (changed : bool) (src : list (string * Any)) : list (string * Any) * bool :=
  match src with
  | [] => (dst, changed)
  | (key, val) :: src' =>
      match val with
      | AMap _ =>
          let '(sub, lchange) := merge (as_object (default ANil (get dst key))) val in
          merge_fields (map_set dst key (of_object sub)) (changed || lchange) src'
      | AStr s =>
          if String.eqb s nullValue then merge_fields (map_delete dst key) true src'
          else merge_fields (map_set dst key val) true src'
      | ANil => merge_fields dst changed src'
      | _ => merge_fields (map_set dst key val) true src'
      end
  end.
End Fields.

Fixpoint merge_object (dst : option (list (string * Any))) (src : Any) {struct src} : option (list (string * Any)) * bool :=
  match src with
  | AMap [] => (dst, false)
  | AMap m => let '(m', changed) := merge_fields merge_object (default [] dst) false m in (Some m', changed)
  | _ => (dst, false)
  end.

Definition mergeMaps (dst : option (list (string * Any))) (src : list (string * Any)) : option (list (string * Any)) * bool :=
  merge_object dst (AMap src).

Definition mergeInterfaces (dst src : Any) : Any * bool :=
  match src with
  | ANil => (dst, false)
  | AMap m => let '(d, changed) := mergeMaps (as_object dst) m in (of_object d, changed)
  | AStr s => if String.eqb s nullValue then (ANil, match dst with ANil => false | _ => true end) else (src, true)
  | _ => (src, true)
  end.

(** ** Merging, field by field *)

(** What a field of the source makes of a field of the destination. *)
Definition merged_field (old src : option Any) : option Any :=
  match src with
  | None | Some ANil => old
  | Some (AStr s) => if String.eqb s nullValue then None else Some (AStr s)
  | Some (AMap x) => Some (of_object (fst (merge_object (as_object (default ANil old)) (AMap x))))
  | Some v => Some v
  end.

Lemma get_absent src k : ~ In k (map fst src) -> get src k = None.
Proof.
  induction src as [|[k' v'] src IH]; intros Hk; [done|]. rewrite get_cons. cbn in Hk.
  destruct (String.eqb_spec k' k) as [->|]; [destruct Hk; by left|apply IH; intuition].
Qed.

(** One field: the destination's value for another key stays, and its own is what [merged_field] says. *)
Lemma merge_fields_get merge dst changed src k :
  (forall old x, merge old (AMap x) = merge_object old (AMap x)) -> List.NoDup (map fst src) ->
  get (fst (merge_fields merge dst changed src)) k = merged_field (get dst k) (get src k).
Proof.
  intros Hm Hn. revert dst changed. induction src as [|[key val] src IH]; intros dst changed; [done|].
  inversion Hn as [|? ? Hk Hn']; subst. specialize (IH Hn'). apply get_absent in Hk.
  rewrite get_cons. cbn [merge_fields].
  assert (forall d c, get (fst (merge_fields merge (map_set dst key d) c src)) k =
            if String.eqb key k then Some d else merged_field (get dst k) (get src k)) as Hset.
  { intros d c. rewrite IH, get_map_set, (String.eqb_sym k key). destruct (String.eqb_spec key k) as [<-|]; [by rewrite Hk|done]. }
  destruct val as [|s|z|b|l|m]; try (rewrite Hset; by destruct (String.eqb_spec key k) as [<-|]).
  - rewrite IH. destruct (String.eqb_spec key k) as [<-|]; [by rewrite Hk|done].
  - cbn [merged_field]. destruct (String.eqb_spec s nullValue) as [->|Hs].
    + rewrite IH, get_map_delete, (String.eqb_sym k key). destruct (String.eqb_spec key k) as [<-|]; [by rewrite Hk|done].
    + rewrite Hset. destruct (String.eqb_spec key k) as [<-|]; [|done]. unfold merged_field. by destruct (String.eqb_spec s nullValue).
  - rewrite Hm. destruct (merge_object _ (AMap m)) as [sub c] eqn:E. rewrite Hset.
    destruct (String.eqb_spec key k) as [<-|]; [|done]. cbn [merged_field]. by rewrite E.
Qed.

(** merging an object into another gives, key by key, the source's value where it has one: strings, numbers, lists and
    booleans replace, objects merge in turn, the null character removes, and nil and missing keys keep what was there. *)
Theorem merge_by_field dst src k :
  List.NoDup (map fst src) ->
  get (default [] (fst (mergeMaps dst src))) k = merged_field (get (default [] dst) k) (get src k).
Proof.
  intros Hn. unfold mergeMaps. destruct src as [|f src]; [by destruct dst|]. cbn [merge_object].
  pose proof (merge_fields_get merge_object (default [] dst) false (f :: src) k (fun _ _ => eq_refl) Hn) as E.
  by destruct (merge_fields merge_object (default [] dst) false (f :: src)).
Qed.

Definition sample_card : list (string * Any) := [("fn", AStr "Ann"); ("photo", AMap [("ref", AStr "/a.png"); ("size", AInt 7)])].
Definition sample_change : list (string * Any) := [("photo", AMap [("ref", AStr nullValue)]); ("note", AStr "hi"); ("fn", ANil)].

Lemma merge_by_field_witness :
  get (default [] (fst (mergeMaps (Some sample_card) sample_change))) "photo" = Some (AMap [("size", AInt 7)]).
Proof.
  rewrite (merge_by_field (Some sample_card) sample_change "photo"); [by vm_compute|].
  repeat (constructor; [intros H; cbn in H; intuition discriminate|]). constructor.
Defined.

(** a merge that reports no change may have changed a value: an empty object in the source replaces a text by nil, and
    the callers, who look at the report, neither store nor announce it. *)
Theorem empty_object_erases_silently :
  mergeMaps (Some [("fn", AStr "Ann")]) [("fn", AMap [])] = (Some [("fn", ANil)], false).
Proof. reflexivity. Qed.
End Merge.
