(* ===== verification/SendQueue.v ===== *)
(** * SendQueue: the outbound queue of a session (internal/server/session_queue.go, session_serialize.go)

    A session's queue holds pointers to messages; a message keeps the first wire form that anybody asks it for (sync.Once),
    and asking for its size already does.  [Heap] is the store of messages, so that a message changed between two uses of its
    pointer is the message the code sees.  The queue counts the bytes it has taken ([sendPendingBytes]); its counter
    is changed by compare-and-swap, one atomic step here.  Encoders (encoding/json, pbServSerialize, proto.Size,
    proto.Marshal) are arguments. *)

From Stdlib Require Import NArith ZArith Lia List Ascii String Bool Permutation.
From stdpp Require Import base tactics numbers list strings.
From S2P Require Import Prelude Utils.

#[local] Open Scope string_scope.
#[local] Open Scope Z_scope.

Definition sendQueueLimit : Z := 128.
Definition sendQueueByteLimit : Z := Z.shiftl 8 20.
Definition maxJSONBatchFrameSize : Z := Z.shiftl 256 10.
Definition minBatchVersionValue : Z := Versions.parseVersion Versions.asciiDigit "0.32".
Definition minProtobufWebSocketVersionValue : Z := Versions.parseVersion Versions.asciiDigit "0.33".

Inductive SessionProto := NONE | WEBSOCK | LPOLL | GRPC | PROXY | MULTIPLEX.
#[export] Instance SessionProto_eq_dec : EqDecision SessionProto.
Proof. solve_decision. Defined.

(** What [s.send] carries: bytes, a text, a message, a batch of messages, a probe. *)
Inductive Item := INil | IBytes (b : string) | IString (s : string) | IMsg (p : nat) | IBatch (ps : list nat) | IProbe.

(** A session as far as its queue goes: protocol, version, binary frames, the flag [terminating], [send] and
    [sendPendingBytes]. *)
Record Queue := mkQueue {
  q_proto : SessionProto; q_ver : Z; q_wsBinary : bool; terminating : bool; send : list Item; sendPendingBytes : Z }.

Definition with_send (q : Queue) (items : list Item) (pending : Z) : Queue :=
  mkQueue q.(q_proto) q.(q_ver) q.(q_wsBinary) q.(terminating) items pending.

Definition q_isMultiplex (q : Queue) : bool := bool_decide (q.(q_proto) = MULTIPLEX).
Definition supportsMessageBatching (q : Queue) : bool :=
  bool_decide (q.(q_proto) = WEBSOCK) && (0 <=? Versions.versionCompare q.(q_ver) minBatchVersionValue).
Definition supportsProtobufWebSocket (q : Queue) : bool :=
  bool_decide (q.(q_proto) = WEBSOCK) && q.(q_wsBinary) &&
  (0 <=? Versions.versionCompare q.(q_ver) minProtobufWebSocketVersionValue).

Definition len (s : string) : Z := Z.of_nat (String.length s).

Section Wire.
Context {Msg PB : Type}.
Context (json_Marshal : Msg -> string) (pbServSerialize : Msg -> PB).
Context (proto_Size : PB -> Z) (batch_Size : list PB -> Z) (batch_Marshal : list PB -> option string).

(** ** Messages in memory *)

Record Cell := mkCell { cell_msg : Msg; jsonWire : option string; protoWire : option PB }.
Abbreviation Heap := (list Cell) (only parsing).

(** A new message without wire forms. *)
Definition alloc (h : Heap) (m : Msg) : Heap * nat := ((h ++ [mkCell m None None])%list, List.length h).

(** An assignment to fields of a message. *)
Definition assign (h : Heap) (p : nat) (f : Msg -> Msg) : Heap :=
  match h !! p with
  | Some c => <[p := mkCell (f c.(cell_msg)) c.(jsonWire) c.(protoWire)]> h
  | None => h
  end.

(** [serializedJSON], [serializedProto]: the form of the first call; a nil pointer has none. *)
Definition serializedJSON (p : nat) (h : Heap) : Heap * string :=
  match h !! p with
  | None => (h, "")
  | Some c =>
      match c.(jsonWire) with
      | Some w => (h, w)
      | None => let w := json_Marshal c.(cell_msg) in (<[p := mkCell c.(cell_msg) (Some w) c.(protoWire)]> h, w)
      end
  end.

Definition serializedProto (p : nat) (h : Heap) : Heap * option PB :=
  match h !! p with
  | None => (h, None)
  | Some c =>
      match c.(protoWire) with
      | Some w => (h, Some w)
      | None => let w := pbServSerialize c.(cell_msg) in (<[p := mkCell c.(cell_msg) c.(jsonWire) (Some w)]> h, Some w)
      end
  end.

Fixpoint json_all (ps : list nat) (h : Heap) : Heap * list string :=
  match ps with
  | [] => (h, [])
  | p :: ps' => let '(h, w) := serializedJSON p h in let '(h, ws) := json_all ps' h in (h, w :: ws)
  end.

Fixpoint proto_all (ps : list nat) (h : Heap) : Heap * list PB :=
  match ps with
  | [] => (h, [])
  | p :: ps' =>
      let '(h, w) := serializedProto p h in let '(h, ws) := proto_all ps' h in
      (h, match w with Some w => w :: ws | None => ws end)
  end.

(** ** Sizes *)

Definition batch_prefix : string := bytes [123; 34; 98; 97; 116; 99; 104; 34; 58; 91]%N.
Definition batch_suffix : string := "]}".
Definition prefixSize : Z := 10.
Definition suffixSize : Z := 2.

(** The loop of [jsonBatchQueueSize] over the sizes of the messages. *)
Fixpoint batch_size_loop (total current count : Z) (sizes : list Z) : Z :=
  match sizes with
  | [] => if 0 <? count then total + (prefixSize + current + suffixSize) else total
  | size :: sizes' =>
      let separator := if 0 <? count then 1 else 0 in
      if (0 <? count) && (maxJSONBatchFrameSize <? prefixSize + current + separator + size + suffixSize)
      then batch_size_loop (total + (prefixSize + current + suffixSize)) size 1 sizes'
      else batch_size_loop total (current + (separator + size)) (count + 1) sizes'
  end.

Definition jsonBatchQueueSize (ps : list nat) (batched : bool) (h : Heap) : Heap * Z :=
  let '(h, ws) := json_all ps h in
  (h, if negb batched then fold_left Z.add (map len ws) 0 else batch_size_loop 0 0 0 (map len ws)).

Definition protobufQueueSize (q : Queue) (ps : list nat) (h : Heap) : Heap * Z :=
  match ps with
  | [] => (h, 0)
  | _ =>
      let '(h, ws) := proto_all ps h in
      (h, if bool_decide (q.(q_proto) = GRPC) || q_isMultiplex q then fold_left Z.add (map proto_Size ws) 0 else batch_Size ws)
  end.

Definition speaks_proto (q : Queue) : bool := supportsProtobufWebSocket q || bool_decide (q.(q_proto) = GRPC) || q_isMultiplex q.

Definition outboundQueueSize (q : Queue) (value : Item) (h : Heap) : Heap * Z :=
  match value with
  | INil => (h, 0)
  | IBytes b | IString b => (h, len b)
  | IMsg p =>
      if speaks_proto q then protobufQueueSize q [p] h
      else if supportsMessageBatching q then jsonBatchQueueSize [p] true h
      else let '(h, w) := serializedJSON p h in (h, len w)
  | IBatch ps =>
      if speaks_proto q then protobufQueueSize q ps h else jsonBatchQueueSize ps (supportsMessageBatching q) h
  | IProbe => (h, 256)
  end.

Definition charge (size : Z) : Z := if size <=? 0 then 1 else size.

(** ** Taking and giving back *)

Definition reserve (pending size : Z) : option Z :=
  if sendQueueByteLimit - pending <? size then None else Some (pending + size).
Definition release (pending size : Z) : Z :=
  if pending <=? 0 then pending else if pending - size <? 0 then 0 else pending - size.

Definition reserveOutbound (q : Queue) (value : Item) (h : Heap) : Heap * option Queue :=
  let '(h, size) := outboundQueueSize q value h in
  (h, with_send q q.(send) <$> reserve q.(sendPendingBytes) (charge size)).
Definition releaseOutbound (q : Queue) (value : Item) (h : Heap) : Heap * Queue :=
  let '(h, size) := outboundQueueSize q value h in
  (h, with_send q q.(send) (release q.(sendPendingBytes) (charge size))).

(** [make(chan any, sendQueueLimit+32)] *)
Definition send_capacity : nat := Z.to_nat (sendQueueLimit + 32).

(** The common part of queueOut, queueOutBatch and queueOutBytes: reserve, then a send that does not wait. *)
Definition enqueue (q : Queue) (value : Item) (h : Heap) : Heap * (Queue * bool) :=
  if q.(terminating) then (h, (q, true))
  else
    let '(h, r) := reserveOutbound q value h in
    match r with
    | None => (h, (q, false))
    | Some q' =>
        if (List.length q'.(send) <? send_capacity)%nat then (h, (with_send q' (q'.(send) ++ [value]) q'.(sendPendingBytes), true))
        else let '(h, q'') := releaseOutbound q' value h in (h, (q'', false))
    end.

Definition queueOut (q : Queue) (p : nat) (h : Heap) : Heap * (Queue * bool) := enqueue q (IMsg p) h.
Definition queueOutBytes (q : Queue) (data : string) (h : Heap) : Heap * (Queue * bool) := enqueue q (IBytes data) h.

Fixpoint queue_each (q : Queue) (ps : list nat) (h : Heap) : Heap * (Queue * bool) :=
  match ps with
  | [] => (h, (q, true))
  | p :: ps' =>
      let '(h, (q, ok)) := queueOut q p h in
      if ok then queue_each q ps' h else (h, (q, false))
  end.

Definition queueOutBatch (q : Queue) (ps : list nat) (h : Heap) : Heap * (Queue * bool) :=
  if q.(terminating) then (h, (q, true))
  else if bool_decide (q.(q_proto) = WEBSOCK) || bool_decide (q.(q_proto) = GRPC) then enqueue q (IBatch ps) h
  else queue_each q ps h.

(** [msg := <-s.send] of a writer and of [purgeChannels], with the release that follows it. *)
Definition dequeue (q : Queue) (h : Heap) : option (Heap * Queue * Item) :=
  match q.(send) with
  | [] => None
  | value :: rest =>
      let '(h, q) := releaseOutbound (with_send q rest q.(sendPendingBytes)) value h in Some (h, q, value)
  end.

Fixpoint purge (n : nat) (q : Queue) (h : Heap) : Heap * Queue :=
  match n with
  | O => (h, q)
  | S n' => match dequeue q h with Some (h, q, _) => purge n' q h | None => (h, q) end
  end.
Definition purgeChannels (q : Queue) (h : Heap) : Heap * Queue := purge (List.length q.(send)) q h.

(** ** Frames *)

(** The loop of [serializeBatchAndUpdateStats]; [buffer] is what follows the prefix. *)
Fixpoint frame_loop (frames : list string) (buffer : string) (count : Z) (raws : list string) : list string :=
  let flush := if count =? 0 then frames else (frames ++ [(batch_prefix ++ buffer ++ batch_suffix)%string])%list in
  match raws with
  | [] => flush
  | raw :: raws' =>
      if len raw =? 0 then frame_loop frames buffer count raws'
      else
        let separator := if 0 <? count then 1 else 0 in
        if (0 <? count) && (maxJSONBatchFrameSize <? len (batch_prefix ++ buffer) + separator + len raw + len batch_suffix)
        then frame_loop flush raw 1 raws'
        else frame_loop frames (if 0 <? count then buffer ++ "," ++ raw else buffer ++ raw) (count + 1) raws'
  end.

(** The loop of [serializeProtobufBatchAndUpdateStats]; a batch that does not encode is dropped. *)
Definition flush_proto (frames : list string) (batch : list PB) : list string :=
  match batch with
  | [] => frames
  | _ => match batch_Marshal batch with Some f => (frames ++ [f])%list | None => frames end
  end.
Fixpoint proto_frame_loop (frames : list string) (batch : list PB) (ws : list PB) : list string :=
  match ws with
  | [] => flush_proto frames batch
  | w :: ws' =>
      let batch' := (batch ++ [w])%list in
      if (1 <? Z.of_nat (List.length batch')) && (maxJSONBatchFrameSize <? batch_Size batch')
      then proto_frame_loop (flush_proto frames batch) [w] ws'
      else proto_frame_loop frames batch' ws'
  end.

Definition serializeBatchAndUpdateStats (q : Queue) (ps : list nat) (h : Heap) : Heap * list string :=
  match ps with
  | [] => (h, [])
  | _ =>
      if supportsProtobufWebSocket q then let '(h, ws) := proto_all ps h in (h, proto_frame_loop [] [] ws)
      else let '(h, raws) := json_all ps h in (h, frame_loop [] "" 0 raws)
  end.

(** [sendQueuedBatch] on the items that are in the queue: batches of messages between raw frames, in order, and whether the
    writer goes on: it stops when it is about to write and more than [sendQueueLimit] items wait.  [None] is the panic of [wsWrite] on
    a raw value that is not bytes. *)
Fixpoint queued_batch (q : Queue) (messages : list nat) (items : list Item) (h : Heap) : Heap * Queue * option (list string * bool) :=
  match items with
  | [] => let '(h, fs) := serializeBatchAndUpdateStats q messages h in (h, q, Some (fs, true))
  | value :: items' =>
      let '(h, q) := releaseOutbound q value h in
      let raw b :=
        let '(h, fs) := serializeBatchAndUpdateStats q messages h in
        if sendQueueLimit <? Z.of_nat (List.length items') then (h, q, Some ([], false))
        else let '(h, q, rest) := queued_batch q [] items' h in (h, q, (fun r => (fs ++ b :: fst r, snd r)%list) <$> rest) in
      match value with
      | IMsg p => queued_batch q (messages ++ [p])%list items' h
      | IBatch ps => queued_batch q (messages ++ ps)%list items' h
      | IBytes b => raw b
      | INil => raw ""
      | IString _ | IProbe => let '(h, _) := serializeBatchAndUpdateStats q messages h in (h, q, None)
      end
  end.

Definition sendQueuedBatch (q : Queue) (initial : list nat) (h : Heap) : Heap * Queue * option (list string * bool) :=
  queued_batch (with_send q [] q.(sendPendingBytes)) initial q.(send) h.

(** ** Frames: nothing is lost, and none is too large *)

(** A frame with the messages of a group. *)
Definition frame (group : list string) : string := (batch_prefix ++ String.concat "," group ++ batch_suffix)%string.
Definition fits (group : list string) : Prop := len (frame group) <= maxJSONBatchFrameSize \/ List.length group = 1%nat.
Definition total (fs : list string) : Z := fold_right (fun f n => len f + n) 0 fs.

Lemma total_app a b : total (a ++ b) = total a + total b.
Proof. induction a as [|x a IH]; cbn [total fold_right app]; [done|]. fold (total (a ++ b)) (total a). rewrite IH. lia. Qed.

Lemma len_append a b : len (a ++ b) = len a + len b.
Proof. unfold len. rewrite length_append. lia. Qed.

Lemma concat_snoc g x : g <> [] -> String.concat "," (g ++ [x]) = (String.concat "," g ++ "," ++ x)%string.
Proof.
  induction g as [|a g IH]; [done|]. intros _. destruct g as [|b g]; [done|].
  change (String.concat "," ((a :: b :: g) ++ [x])) with (a ++ "," ++ String.concat "," ((b :: g) ++ [x]))%string.
  rewrite IH by done. change (String.concat "," (a :: b :: g)) with (a ++ "," ++ String.concat "," (b :: g))%string.
  by rewrite !append_assoc.
Qed.

Lemma len_frame g : len (frame g) = prefixSize + len (String.concat "," g) + suffixSize.
Proof. unfold frame. rewrite !len_append. change (len batch_prefix) with 10. change (len batch_suffix) with 2. unfold prefixSize, suffixSize. lia. Qed.

(** The loop with the group being filled, [cur]. *)
Lemma frame_loop_groups raws frames cur :
  (cur = [] \/ fits cur) ->
  exists groups, frame_loop frames (String.concat "," cur) (Z.of_nat (List.length cur)) raws = (frames ++ map frame groups)%list /\
    List.concat groups = (cur ++ List.filter (fun r => negb (len r =? 0)) raws)%list /\
    Forall (fun g => g <> [] /\ fits g) groups.
Proof.
  revert frames cur. induction raws as [|raw raws IH]; intros frames cur Hcur; cbn [frame_loop List.filter].
  - destruct cur as [|c cur]; [exists []; by rewrite !app_nil_r|]. cbn [List.length]. destruct (Z.eqb_spec (Z.of_nat (S (List.length cur))) 0); [lia|].
    exists [c :: cur]. destruct Hcur as [?|Hcur]; [done|]. cbn [map List.concat]. rewrite !app_nil_r. split; [done|]. split; [done|]. constructor; [by split|constructor].
  - destruct (len raw =? 0) eqn:Er; cbn [negb]; [by apply IH|].
    destruct cur as [|c cur].
    { cbn [List.length String.concat]. change (0 <? Z.of_nat 0) with false. cbn [andb].
      change (String.append "" raw) with (String.concat "," [raw]). change (Z.of_nat 0 + 1) with (Z.of_nat (List.length [raw])).
      apply (IH frames [raw]). right. by right. }
    assert ((0 <? Z.of_nat (List.length (c :: cur))) = true) as -> by (apply Z.ltb_lt; cbn [List.length]; lia).
    assert ((Z.of_nat (List.length (c :: cur)) =? 0) = false) as -> by (apply Z.eqb_neq; cbn [List.length]; lia). cbn [andb].
    destruct (Z.ltb_spec maxJSONBatchFrameSize (len (batch_prefix ++ String.concat "," (c :: cur)) + 1 + len raw + len batch_suffix)) as [Hlt|Hle].
    + destruct (IH (frames ++ [frame (c :: cur)])%list [raw]) as (groups & E & Ec & Hf); [right; by right|].
      exists ((c :: cur) :: groups). cbn [String.concat List.length] in E. change (Z.of_nat 1) with 1 in E. split.
      * unfold frame in E. rewrite E, <- app_assoc. done.
      * split; [cbn [List.concat]; by rewrite Ec|]. constructor; [|done]. split; [done|]. by destruct Hcur.
    + rewrite <- concat_snoc by done.
      assert (Z.of_nat (List.length (c :: cur)) + 1 = Z.of_nat (List.length ((c :: cur) ++ [raw]))) as -> by (rewrite length_app; cbn [List.length]; lia).
      destruct (IH frames ((c :: cur) ++ [raw])%list) as (groups & E & Ec & Hf).
      { right. left. rewrite len_frame, concat_snoc by done. rewrite !len_append in *. change (len ",") with 1.
        change (len batch_prefix) with 10 in Hle. change (len batch_suffix) with 2 in Hle. unfold prefixSize, suffixSize. lia. }
      exists groups. split; [done|]. split; [|done]. by rewrite Ec, <- app_assoc.
Qed.

(** C37: a batch of messages goes out in frames that hold, in order and each in one frame, exactly the messages that have a wire form;
    a frame is within the limit unless it holds a single message. *)
Theorem frames_complete_and_bounded raws :
  exists groups, frame_loop [] "" 0 raws = map frame groups /\
    List.concat groups = List.filter (fun r => negb (len r =? 0)) raws /\
    forall g, In g groups -> g <> [] /\ (len (frame g) <= maxJSONBatchFrameSize \/ List.length g = 1%nat).
Proof.
  destruct (frame_loop_groups raws [] []) as (groups & E & Ec & Hf); [by left|]. exists groups. split; [done|]. split; [done|].
  by apply List.Forall_forall.
Qed.

Lemma frame_loop_total raws frames buffer count :
  0 <= count -> Forall (fun r => len r <> 0) raws ->
  total (frame_loop frames buffer count raws) = batch_size_loop (total frames) (len buffer) count (map len raws).
Proof.
  intros Hc Hr. revert frames buffer count Hc. induction Hr as [|raw raws Hraw Hr IH]; intros frames buffer count Hc; cbn [frame_loop batch_size_loop map].
  - destruct (Z.ltb_spec 0 count), (Z.eqb_spec count 0); try lia.
    rewrite total_app. cbn [total fold_right]. rewrite !len_append. change (len batch_prefix) with 10. change (len batch_suffix) with 2.
    unfold prefixSize, suffixSize. lia.
  - apply Z.eqb_neq in Hraw. rewrite Hraw. rewrite len_append. change (len batch_prefix) with prefixSize. change (len batch_suffix) with suffixSize.
    set (sep := if 0 <? count then 1 else 0).
    destruct ((0 <? count) && (maxJSONBatchFrameSize <? prefixSize + len buffer + sep + len raw + suffixSize)) eqn:E.
    + apply andb_true_iff in E as [Hp _]. apply Z.ltb_lt in Hp. destruct (Z.eqb_spec count 0); [lia|]. rewrite IH by lia. f_equal.
      rewrite total_app. cbn [total fold_right]. rewrite !len_append. change (len batch_prefix) with prefixSize. change (len batch_suffix) with suffixSize. lia.
    + rewrite IH by lia. f_equal. unfold sep. destruct (0 <? count); rewrite !len_append; change (len ",") with 1; lia.
Qed.

(** the bytes the queue charges for a batch of messages are the bytes of the frames the writer makes of it. *)
Theorem batch_charge_exact raws :
  Forall (fun r => len r <> 0) raws -> batch_size_loop 0 0 0 (map len raws) = total (frame_loop [] "" 0 raws).
Proof. intros H. by rewrite frame_loop_total. Qed.

Lemma batch_size_loop_bound sizes total current count :
  0 <= count -> (count = 0 -> current = 0) ->
  batch_size_loop total current count sizes <=
  total + (if 0 <? count then prefixSize + current + suffixSize else 0) + fold_right (fun n s => prefixSize + n + suffixSize + s) 0 sizes.
Proof.
  unfold prefixSize, suffixSize. revert total current count. induction sizes as [|n sizes IH]; intros total current count Hc H0; cbn [batch_size_loop fold_right].
  - destruct (0 <? count); unfold prefixSize, suffixSize; lia.
  - destruct (0 <? count) eqn:E; cbn [andb].
    + destruct (maxJSONBatchFrameSize <? _).
      * etransitivity; [apply IH; lia|]. cbn [Z.ltb Z.compare]. unfold prefixSize, suffixSize. lia.
      * etransitivity; [apply IH; lia|]. destruct (Z.ltb_spec 0 (count + 1)); unfold prefixSize, suffixSize; lia.
    + etransitivity; [apply IH; lia|]. apply Z.ltb_ge in E. rewrite H0 by lia. destruct (Z.ltb_spec 0 (count + 1)); unfold prefixSize, suffixSize; lia.
Qed.

(** messages that were charged one by one never make frames larger than the charges, however the writer groups them. *)
Theorem merged_within_charges raws :
  Forall (fun r => len r <> 0) raws ->
  total (frame_loop [] "" 0 raws) <= fold_right (fun r s => batch_size_loop 0 0 0 [len r] + s) 0 raws.
Proof.
  intros H. rewrite <- batch_charge_exact by done. etransitivity; [apply batch_size_loop_bound; lia|]. cbn [Z.ltb Z.compare].
  clear H. induction raws as [|r raws IH]; [done|]. cbn [map fold_right].
  change (batch_size_loop 0 0 0 [len r]) with (0 + (prefixSize + (0 + (0 + len r)) + suffixSize)). lia.
Qed.

(** Protobuf batches. *)
Definition fits_proto (group : list PB) : Prop := batch_Size group <= maxJSONBatchFrameSize \/ List.length group = 1%nat.

Lemma flush_snoc frames groups g :
  flush_proto (frames ++ omap batch_Marshal groups)%list g = (frames ++ omap batch_Marshal (groups ++ match g with [] => [] | _ => [g] end))%list.
Proof.
  destruct g as [|w g]; cbn [flush_proto]; [by rewrite app_nil_r|]. rewrite omap_app. cbn [omap list_omap].
  destruct (batch_Marshal (w :: g)); [by rewrite app_assoc|by rewrite app_nil_r].
Qed.

Lemma proto_frame_groups ws frames done_ cur :
  (cur = [] \/ fits_proto cur) -> Forall (fun g => g <> [] /\ fits_proto g) done_ ->
  exists groups, proto_frame_loop (frames ++ omap batch_Marshal done_)%list cur ws = (frames ++ omap batch_Marshal groups)%list /\
    List.concat groups = (List.concat done_ ++ cur ++ ws)%list /\ Forall (fun g => g <> [] /\ fits_proto g) groups.
Proof.
  revert done_ cur. induction ws as [|w ws IH]; intros done_ cur Hcur Hd; cbn [proto_frame_loop].
  - rewrite flush_snoc. eexists. split; [done|]. rewrite concat_app, app_nil_r. destruct cur as [|c cur]; cbn [List.concat]; rewrite ?app_nil_r; [done|].
    split; [done|]. apply List.Forall_app. split; [done|]. constructor; [|constructor]. split; [done|]. by destruct Hcur.
  - destruct (_ && _) eqn:E.
    + apply andb_true_iff in E as [Hl _]. rewrite flush_snoc. destruct cur as [|c cur]; [done|].
      destruct (IH (done_ ++ [c :: cur])%list [w]) as (groups & E & Ec & Hf).
      { right. by right. }
      { apply List.Forall_app. split; [done|]. constructor; [|constructor]. split; [done|]. by destruct Hcur. }
      exists groups. split; [done|]. split; [|done]. rewrite Ec, concat_app. cbn [List.concat]. rewrite app_nil_r, <- !app_assoc. done.
    + destruct (IH done_ (cur ++ [w])%list) as (groups & E' & Ec & Hf); [|done|].
      { right. apply andb_false_iff in E as [E|E]; [right|left].
        - apply Z.ltb_ge in E. rewrite length_app in E |- *. cbn [List.length] in *. lia.
        - by apply Z.ltb_ge in E. }
      exists groups. split; [done|]. split; [|done]. by rewrite Ec, <- !app_assoc.
Qed.

(** ** A message keeps its first wire form *)

(** What later uses of the store leave: every message is still there, with the wire forms it had. *)
Definition later (h h' : Heap) : Prop :=
  forall p c, h !! p = Some c -> exists c', h' !! p = Some c' /\
    (forall w, c.(jsonWire) = Some w -> c'.(jsonWire) = Some w) /\ (forall w, c.(protoWire) = Some w -> c'.(protoWire) = Some w).

#[export] Instance later_preorder : PreOrder later.
Proof.
  split; [by intros h p c ?; exists c|]. intros h1 h2 h3 H12 H23 p c Hp. destruct (H12 p c Hp) as (c2 & H2 & Hj & Hp2).
  destruct (H23 p c2 H2) as (c3 & H3 & Hj3 & Hp3). exists c3. split; [done|]. split; auto.
Qed.

Lemma later_insert h p c c' :
  h !! p = Some c -> (forall w, c.(jsonWire) = Some w -> c'.(jsonWire) = Some w) ->
  (forall w, c.(protoWire) = Some w -> c'.(protoWire) = Some w) -> later h (<[p := c']> h).
Proof.
  intros Hp Hj Hpr p0 c0 H0. destruct (decide (p = p0)) as [<-|Hne].
  - rewrite Hp in H0. injection H0 as <-. exists c'. split; [|done]. apply list_lookup_insert_eq. by eapply lookup_lt_Some.
  - exists c0. rewrite list_lookup_insert_ne by done. done.
Qed.

Lemma later_alloc h m : later h (fst (alloc h m)).
Proof. intros p c Hp. exists c. split; [|done]. cbn. by apply lookup_app_l_Some. Qed.

Lemma later_assign h p f : later h (assign h p f).
Proof. unfold assign. destruct (h !! p) as [c|] eqn:E; [|done]. by eapply later_insert. Qed.

Lemma later_json p h : later h (fst (serializedJSON p h)).
Proof.
  unfold serializedJSON. destruct (h !! p) as [[m [w|] b]|] eqn:E; cbn [fst]; try done. eapply later_insert; [done|cbn; congruence|done].
Qed.

Lemma later_proto p h : later h (fst (serializedProto p h)).
Proof.
  unfold serializedProto. destruct (h !! p) as [[m j [w|]]|] eqn:E; cbn [fst]; try done. eapply later_insert; [done|done|cbn; congruence].
Qed.

(** Once it has a form, a message keeps it, whatever is assigned to it meanwhile. *)
Lemma json_again p h h1 w h' :
  is_Some (h !! p) -> serializedJSON p h = (h1, w) -> later h1 h' -> serializedJSON p h' = (h', w).
Proof.
  intros [c Hc] E Hl. unfold serializedJSON in *. rewrite Hc in E.
  assert (exists c1, h1 !! p = Some c1 /\ c1.(jsonWire) = Some w) as (c1 & H1 & W1).
  { destruct c as [m [w0|] b]; cbn [jsonWire cell_msg protoWire] in E; injection E as <- <-; [by eexists|].
    eexists. split; [apply list_lookup_insert_eq; by eapply lookup_lt_Some|done]. }
  destruct (Hl p c1 H1) as (c' & -> & Hj & _). by rewrite (Hj w W1).
Qed.

Lemma proto_again p h h1 w h' :
  is_Some (h !! p) -> serializedProto p h = (h1, w) -> later h1 h' -> serializedProto p h' = (h', w).
Proof.
  intros [c Hc] E Hl. unfold serializedProto in *. rewrite Hc in E.
  assert (exists c1 w1, h1 !! p = Some c1 /\ c1.(protoWire) = Some w1 /\ w = Some w1) as (c1 & w1 & H1 & W1 & ->).
  { destruct c as [m j [w0|]]; cbn [jsonWire cell_msg protoWire] in E; injection E as <- <-; [by repeat eexists|].
    do 2 eexists. split; [apply list_lookup_insert_eq; by eapply lookup_lt_Some|done]. }
  destruct (Hl p c1 H1) as (c' & -> & _ & Hj). by rewrite (Hj w1 W1).
Qed.

Lemma later_is_Some h h' p : later h h' -> is_Some (h !! p) -> is_Some (h' !! p).
Proof. intros Hl [c Hc]. destruct (Hl p c Hc) as (c' & -> & _). by eexists. Qed.

Definition valid (h : Heap) (ps : list nat) : Prop := Forall (fun p => is_Some (h !! p)) ps.

Lemma valid_later h h' ps : later h h' -> valid h ps -> valid h' ps.
Proof. intros Hl Hv. eapply Forall_impl; [exact Hv|]. intros p. by apply later_is_Some. Qed.

Lemma json_all_again ps h h1 ws :
  valid h ps -> json_all ps h = (h1, ws) -> later h h1 /\ forall h', later h1 h' -> json_all ps h' = (h', ws).
Proof.
  revert h h1 ws. induction ps as [|p ps IH]; intros h h1 ws Hv E; cbn [json_all] in *; [by simplify_eq|].
  inversion Hv as [|? ? Hp Hps]; subst. pose proof (later_json p h) as L. destruct (serializedJSON p h) as [ha w] eqn:Ea. cbn [fst] in L.
  destruct (json_all ps ha) as [hb ws'] eqn:Eb. simplify_eq. destruct (IH ha h1 ws' (valid_later _ _ _ L Hps) Eb) as [L2 H2].
  split; [by etransitivity|]. intros h' Hl. rewrite (json_again p h ha w h' Hp Ea) by (by etransitivity). by rewrite H2.
Qed.

Lemma proto_all_again ps h h1 ws :
  valid h ps -> proto_all ps h = (h1, ws) -> later h h1 /\ forall h', later h1 h' -> proto_all ps h' = (h', ws).
Proof.
  revert h h1 ws. induction ps as [|p ps IH]; intros h h1 ws Hv E; cbn [proto_all] in *; [by simplify_eq|].
  inversion Hv as [|? ? Hp Hps]; subst. pose proof (later_proto p h) as L. destruct (serializedProto p h) as [ha w] eqn:Ea. cbn [fst] in L.
  destruct (proto_all ps ha) as [hb ws'] eqn:Eb. simplify_eq. destruct (IH ha h1 ws' (valid_later _ _ _ L Hps) Eb) as [L2 H2].
  split; [by etransitivity|]. intros h' Hl. rewrite (proto_again p h ha w h' Hp Ea) by (by etransitivity). by rewrite H2.
Qed.

(** ** Accounting *)

Definition pointers (v : Item) : list nat := match v with IMsg p => [p] | IBatch ps => ps | _ => [] end.
Definition valid_item (h : Heap) (v : Item) : Prop := valid h (pointers v).
Definition size_in (q : Queue) (h : Heap) (v : Item) : Z := snd (outboundQueueSize q v h).

(** The size of an item no longer changes. *)
Definition sized (q : Queue) (h : Heap) (v : Item) : Prop :=
  forall h', later h h' -> outboundQueueSize q v h' = (h', size_in q h v).

(** Asking once for the size of an item fixes it. *)
Lemma size_again q v h h1 n :
  valid_item h v -> outboundQueueSize q v h = (h1, n) -> later h h1 /\ sized q h1 v /\ size_in q h1 v = n.
Proof.
  intros Hv E. assert (later h h1 /\ forall h', later h1 h' -> outboundQueueSize q v h' = (h', n)) as [L S].
  { unfold valid_item in Hv. destruct v as [|b|s|p|ps|]; cbn [outboundQueueSize pointers] in *; try by simplify_eq.
    - destruct (speaks_proto q); [|destruct (supportsMessageBatching q)].
      + cbn [protobufQueueSize] in *. destruct (proto_all [p] h) as [ha ws] eqn:Ea. simplify_eq.
        destruct (proto_all_again [p] h h1 ws Hv Ea) as [L S]. split; [done|]. intros h' Hl. by rewrite S.
      + unfold jsonBatchQueueSize in *. destruct (json_all [p] h) as [ha ws] eqn:Ea. simplify_eq.
        destruct (json_all_again [p] h h1 ws Hv Ea) as [L S]. split; [done|]. intros h' Hl. by rewrite S.
      + pose proof (later_json p h) as L. destruct (serializedJSON p h) as [ha w] eqn:Ea. simplify_eq. split; [done|].
        intros h' Hl. inversion Hv; subst. by rewrite (json_again p h h1 w h').
    - destruct (speaks_proto q).
      + unfold protobufQueueSize in *. destruct ps as [|p ps]; [by simplify_eq|]. destruct (proto_all (p :: ps) h) as [ha ws] eqn:Ea. simplify_eq.
        destruct (proto_all_again (p :: ps) h h1 ws Hv Ea) as [L S]. split; [done|]. intros h' Hl. by rewrite S.
      + unfold jsonBatchQueueSize in *. destruct (json_all ps h) as [ha ws] eqn:Ea. simplify_eq.
        destruct (json_all_again ps h h1 ws Hv Ea) as [L S]. split; [done|]. intros h' Hl. by rewrite S. }
  assert (size_in q h1 v = n) as Hn by (unfold size_in; by rewrite S). split; [done|]. split; [|done]. intros h' Hl. rewrite Hn. auto.
Qed.

Lemma sized_later q v h h' : later h h' -> sized q h v -> sized q h' v /\ size_in q h' v = size_in q h v.
Proof.
  intros Hl Hs. assert (size_in q h' v = size_in q h v) as E by (unfold size_in at 1; by rewrite (Hs h' Hl)). split; [|done].
  intros h2 H2. rewrite E. apply Hs. by etransitivity.
Qed.

(** All that use a queue at once: its writer and the goroutines that send, each of which may hold an item it has reserved room for
    and not yet sent; meanwhile messages are made, changed and encoded. *)
Record Shared := mkShared { sh_heap : Heap; sh_queue : Queue; sh_held : list Item }.

Inductive qstep : Shared -> Shared -> Prop :=
| q_reserve h q held v h' q' :
    valid_item h v -> reserveOutbound q v h = (h', Some q') -> qstep (mkShared h q held) (mkShared h' q' (v :: held))
| q_refuse h q held v h' : valid_item h v -> reserveOutbound q v h = (h', None) -> qstep (mkShared h q held) (mkShared h' q held)
| q_send h q l1 v l2 :
    (List.length q.(send) < send_capacity)%nat ->
    qstep (mkShared h q (l1 ++ v :: l2)) (mkShared h (with_send q (q.(send) ++ [v]) q.(sendPendingBytes)) (l1 ++ l2))
| q_full h q l1 v l2 h' q' :
    (send_capacity <= List.length q.(send))%nat -> releaseOutbound q v h = (h', q') ->
    qstep (mkShared h q (l1 ++ v :: l2)) (mkShared h' q' (l1 ++ l2))
| q_dequeue h q held h' q' v : dequeue q h = Some (h', q', v) -> qstep (mkShared h q held) (mkShared h' q' held)
| q_others h q held h' : later h h' -> qstep (mkShared h q held) (mkShared h' q held).

Definition charges (q : Queue) (h : Heap) (items : list Item) : Z := fold_right (fun v n => charge (size_in q h v) + n) 0 items.

Definition accounted (s : Shared) : Prop :=
  let q := s.(sh_queue) in let items := (s.(sh_held) ++ q.(send))%list in
  Forall (sized q s.(sh_heap)) items /\ q.(sendPendingBytes) = charges q s.(sh_heap) items /\ q.(sendPendingBytes) <= sendQueueByteLimit.

Lemma charge_pos n : 0 < charge n.
Proof. unfold charge. destruct (Z.leb_spec n 0); lia. Qed.

Lemma charges_cons q h v a : charges q h (v :: a) = charge (size_in q h v) + charges q h a.
Proof. done. Qed.

Lemma charges_perm q h a b : Permutation a b -> charges q h a = charges q h b.
Proof. induction 1 as [|v a b _ IH|v w a|a b c _ IH1 _ IH2]; rewrite ?charges_cons; [done|lia|lia|lia]. Qed.

Lemma charges_nonneg q h a : 0 <= charges q h a.
Proof. induction a as [|v a IH]; [done|]. rewrite charges_cons. pose proof (charge_pos (size_in q h v)). lia. Qed.

Lemma charges_later q h h' items :
  later h h' -> Forall (sized q h) items -> Forall (sized q h') items /\ charges q h' items = charges q h items.
Proof.
  intros Hl Hf. induction Hf as [|v items Hv Hf [IHs IHc]]; [done|]. destruct (sized_later q v h h' Hl Hv) as [S E].
  rewrite !charges_cons, IHc, E. split; [by constructor|done].
Qed.

(** Giving back what an accounted item was charged. *)
Lemma release_one q h v rest h' q' :
  sized q h v -> q.(sendPendingBytes) = charge (size_in q h v) + charges q h rest -> releaseOutbound q v h = (h', q') ->
  h' = h /\ q' = with_send q q.(send) (charges q h rest).
Proof.
  intros Hf Hp. unfold releaseOutbound. rewrite (Hf h) by done. intros [= <- <-]. split; [done|]. f_equal.
  pose proof (charge_pos (size_in q h v)). pose proof (charges_nonneg q h rest). unfold release. rewrite Hp.
  destruct (Z.leb_spec (charge (size_in q h v) + charges q h rest) 0); [lia|].
  destruct (Z.ltb_spec (charge (size_in q h v) + charges q h rest - charge (size_in q h v)) 0); lia.
Qed.

(** A queue with the same session and other items sizes items the same. *)
Definition accounts (q : Queue) (h : Heap) (pending : Z) (items : list Item) : Prop :=
  Forall (sized q h) items /\ pending = charges q h items /\ pending <= sendQueueByteLimit.

Lemma accounts_perm q h pending a b : Permutation a b -> accounts q h pending a -> accounts q h pending b.
Proof. intros Hp (Hf & -> & Hl). split; [by rewrite <- Hp|]. split; [by apply charges_perm|done]. Qed.

Lemma accounts_drop q h v items pending :
  accounts q h pending (v :: items) -> accounts q h (charges q h items) items.
Proof.
  intros (Hf & -> & Hl). inversion Hf; subst. split; [done|]. split; [done|]. rewrite charges_cons in Hl.
  pose proof (charge_pos (size_in q h v)). lia.
Qed.

Lemma accounted_step s s' : accounted s -> qstep s s' -> accounted s'.
Proof.
  intros Ha Hs. change (accounts s'.(sh_queue) s'.(sh_heap) s'.(sh_queue).(sendPendingBytes) (s'.(sh_held) ++ s'.(sh_queue).(send))).
  change (accounts s.(sh_queue) s.(sh_heap) s.(sh_queue).(sendPendingBytes) (s.(sh_held) ++ s.(sh_queue).(send))) in Ha.
  destruct Hs as [h q held v h' q' Hv E|h q held v h' Hv E|h q l1 v l2 Hlen|h q l1 v l2 h' q' Hlen E|h q held h' q' v E|h q held h' Hl];
    cbn [sh_heap sh_queue sh_held] in *.
  - unfold reserveOutbound in E. destruct (outboundQueueSize q v h) as [h1 n] eqn:En. destruct (size_again q v h h1 n Hv En) as (L & S & <-).
    destruct Ha as (Hf & Hp & Hb). destruct (charges_later q h h1 _ L Hf) as [Hf1 Hc1]. unfold reserve in E.
    destruct (Z.ltb_spec (sendQueueByteLimit - q.(sendPendingBytes)) (charge (size_in q h1 v))); cbn in E; simplify_eq. cbn [sendPendingBytes send with_send].
    change (accounts q h' (q.(sendPendingBytes) + charge (size_in q h' v)) (v :: held ++ q.(send))).
    split; [by constructor|]. rewrite charges_cons, Hc1. lia.
  - unfold reserveOutbound in E. destruct (outboundQueueSize q v h) as [h1 n] eqn:En. destruct (size_again q v h h1 n Hv En) as (L & _ & _).
    destruct Ha as (Hf & Hp & Hb). destruct (charges_later q h h1 _ L Hf) as [Hf1 Hc1]. cbn in E. injection E as <- _.
    split; [done|]. by rewrite Hc1.
  - cbn [with_send sendPendingBytes send]. change (accounts q h q.(sendPendingBytes) ((l1 ++ l2) ++ q.(send) ++ [v])).
    eapply accounts_perm; [|exact Ha]. rewrite <- !app_assoc. apply Permutation_app_head. cbn [app].
    rewrite (app_assoc l2). apply Permutation_cons_append.
  - eapply accounts_perm in Ha; [|rewrite <- app_assoc; symmetry; apply Permutation_middle].
    destruct Ha as (Hf & Hp & Hb). inversion Hf as [|? ? Hv Hf']; subst. rewrite charges_cons in Hp.
    destruct (release_one q h v (l1 ++ l2 ++ q.(send)) h' q' Hv Hp E) as [-> ->]. cbn [with_send sendPendingBytes send].
    rewrite <- app_assoc. apply (accounts_drop q h v _ q.(sendPendingBytes)). split; [done|]. by rewrite charges_cons.
  - unfold dequeue in E. destruct q.(send) as [|v0 rest] eqn:Es; [done|].
    eapply accounts_perm in Ha; [|symmetry; apply Permutation_middle].
    destruct Ha as (Hf & Hp & Hb). inversion Hf as [|? ? Hv Hf']; subst. rewrite charges_cons in Hp.
    destruct (releaseOutbound (with_send q rest q.(sendPendingBytes)) v0 h) as [ha qa] eqn:Er. injection E as -> -> ->.
    destruct (release_one (with_send q rest q.(sendPendingBytes)) h v (held ++ rest) h' q' Hv Hp Er) as [-> ->]. cbn [with_send sendPendingBytes send].
    apply (accounts_drop q h v _ q.(sendPendingBytes)). split; [done|]. by rewrite charges_cons.
  - destruct Ha as (Hf & Hp & Hb). destruct (charges_later q h h' _ Hl Hf) as [Hf1 Hc1]. split; [done|]. by rewrite Hc1.
Qed.

(** at any moment, whoever shares the queue, the counter of pending bytes is the sum of the charges of the items that wait or are about to
    be sent, and within the limit: what is taken for a message is given back for it, though its size is computed twice. *)
Theorem pending_exact h q s :
  q.(send) = [] -> q.(sendPendingBytes) = 0 -> steps qstep (mkShared h q []) s ->
  s.(sh_queue).(sendPendingBytes) = charges s.(sh_queue) s.(sh_heap) (s.(sh_held) ++ s.(sh_queue).(send)) /\
  0 <= s.(sh_queue).(sendPendingBytes) <= sendQueueByteLimit.
Proof.
  intros Hs Hp H. assert (accounted s) as (_ & E & Hl).
  { eapply steps_invariant; [|intros a b; apply accounted_step|exact H]. unfold accounted. cbn. rewrite Hs, Hp. by repeat constructor. }
  split; [done|]. rewrite E at 1. split; [apply charges_nonneg|done].
Qed.

(** What an accepted message does to a queue. *)
Lemma enqueue_taken q v h h1 q1 :
  q.(terminating) = false -> enqueue q v h = (h1, (q1, true)) ->
  h1 = fst (outboundQueueSize q v h) /\ q1.(send) = (q.(send) ++ [v])%list /\
  q1.(sendPendingBytes) = q.(sendPendingBytes) + charge (snd (outboundQueueSize q v h)) /\
  q1.(sendPendingBytes) <= sendQueueByteLimit /\ (List.length q1.(send) <= send_capacity)%nat.
Proof.
  intros Ht. unfold enqueue, reserveOutbound. rewrite Ht. destruct (outboundQueueSize q v h) as [ha n]. unfold reserve.
  destruct (Z.ltb_spec (sendQueueByteLimit - q.(sendPendingBytes)) (charge n)); cbn [fmap option_fmap option_map]; [done|].
  cbn [send with_send sendPendingBytes]. destruct (Nat.ltb_spec (List.length q.(send)) send_capacity) as [Hl|Hl].
  - intros [= <- <-]. cbn [fst snd send with_send sendPendingBytes]. rewrite length_app. cbn [List.length]. repeat split; lia.
  - by destruct (releaseOutbound _ v ha).
Qed.

(** a message is sent as it was when it was first put into a queue that speaks JSON: what is assigned to it later does not
    reach the client. *)
Theorem sent_as_queued q p h c h1 q1 h' :
  h !! p = Some c -> c.(jsonWire) = None -> q.(terminating) = false -> speaks_proto q = false ->
  queueOut q p h = (h1, (q1, true)) -> later h1 h' -> serializedJSON p h' = (h', json_Marshal c.(cell_msg)).
Proof.
  intros Hp Hj Ht Hs E Hl. apply enqueue_taken in E as (-> & _); [|done]. cbn [outboundQueueSize] in Hl. rewrite Hs in Hl.
  assert (fst (serializedJSON p h) = fst (if supportsMessageBatching q then jsonBatchQueueSize [p] true h
                                          else let '(h, w) := serializedJSON p h in (h, len w))) as E.
  { destruct (supportsMessageBatching q); unfold jsonBatchQueueSize; cbn [json_all]; by destruct (serializedJSON p h). }
  rewrite <- E in Hl. apply (json_again p h (fst (serializedJSON p h))); [by exists c| |done].
  unfold serializedJSON. by rewrite Hp, Hj.
Qed.
End Wire.

(** ** On a concrete queue *)

Definition text_wire (s : string) : string := s.
Definition sample_cell (s : string) : Cell (Msg := string) (PB := string) := mkCell s None None.
Definition sent_cell (s w : string) : Cell (Msg := string) (PB := string) := mkCell s (Some w) None.
Definition sample_queue (ver : Z) : Queue := mkQueue WEBSOCK ver false false [] 0.

Lemma pending_exact_witness :
  let h := [sample_cell "hello"] in let q := sample_queue 0 in
  let q1 := mkQueue WEBSOCK 0 false false [IMsg 0%nat] 5 in
  q1.(sendPendingBytes) =
    charges text_wire text_wire len (fun _ => 0) q1 [sent_cell "hello" "hello"] ([] ++ q1.(send)) /\
  0 <= q1.(sendPendingBytes) <= sendQueueByteLimit.
Proof.
  intros h q q1.
  apply (pending_exact text_wire text_wire len (fun _ => 0) h q (mkShared [sent_cell "hello" "hello"] q1 [])); [done..|].
  eapply steps_cons; [eapply steps_cons; [apply steps_refl|]|].
  - apply (q_reserve text_wire text_wire len (fun _ => 0) h q [] (IMsg 0%nat) [sent_cell "hello" "hello"]
             (mkQueue WEBSOCK 0 false false [] 5)); [by repeat constructor|by vm_compute].
  - apply (q_send text_wire text_wire len (fun _ => 0) [sent_cell "hello" "hello"] (mkQueue WEBSOCK 0 false false [] 5) []
             (IMsg 0%nat) []). apply Nat.ltb_lt. by vm_compute.
Defined.

Lemma sent_as_queued_witness :
  let h := [sample_cell "first"] in let h1 := [sent_cell "first" "first"] in
  serializedJSON text_wire 0%nat (assign h1 0%nat (fun _ => "second")) = (assign h1 0%nat (fun _ => "second"), "first").
Proof.
  intros h h1.
  apply (sent_as_queued text_wire text_wire len (fun _ => 0) (sample_queue 0) 0%nat h (sample_cell "first") h1
           (mkQueue WEBSOCK 0 false false [IMsg 0%nat] 5)); [done..|by vm_compute|apply later_assign].
Defined.

Lemma batch_charge_exact_witness : batch_size_loop 0 0 0 (map len ["{}"; "{}"]) = total (frame_loop [] "" 0 ["{}"; "{}"]).
Proof. apply (batch_charge_exact ["{}"; "{}"]). by repeat constructor. Defined.

Lemma merged_within_charges_witness :
  total (frame_loop [] "" 0 ["{}"; "{}"]) <= fold_right (fun r s => batch_size_loop 0 0 0 [len r] + s) 0 ["{}"; "{}"].
Proof. apply (merged_within_charges ["{}"; "{}"]). by repeat constructor. Defined.

(** an item that is queued before the client has told its version, and sent after, gives back more than it took: the envelope of a
    batch was not charged, so that the counter is below the bytes that still wait. *)
Theorem upgrade_undercounts :
  let h := [sample_cell "0123456789"; sample_cell "0123456789"] in
  let q0 := sample_queue 0 in
  let '(h1, (q1, _)) := queueOut text_wire text_wire len (fun _ => 0) q0 0%nat h in
  let '(h2, (q2, _)) := queueOut text_wire text_wire len (fun _ => 0) q1 1%nat h1 in
  let q3 := mkQueue WEBSOCK minBatchVersionValue false false q2.(send) q2.(sendPendingBytes) in
  option_map (fun r => ((snd (fst r)).(sendPendingBytes), (snd (fst r)).(send))) (dequeue text_wire text_wire len (fun _ => 0) q3 h2)
  = Some (0, [IMsg 1%nat]).
Proof. by vm_compute. Qed.
