(* ===== verification/SubStore.v ===== *)
(** * SubStore: the subscription store as topics see it

    server/store/store_subs.go.  Topic handlers reach the database only through
    the interfaces of the store package; [SubStore] is that interface and
    [SubStoreLaws] what the handlers' properties rely on: an operation that
    reports an error has changed no subscription, and one that succeeds has
    changed exactly the row it names.  [MemStore] is an instance with fault
    injection that satisfies the laws, with the row operations of
    server/db/mysql/subscriptions.go and topics.go (soft deletion, undeletion,
    no-row errors). *)

From Stdlib Require Import NArith ZArith Lia List Ascii String Bool.
From stdpp Require Import base tactics numbers list strings gmap sets.
From S2P Require Import Prelude AccessMode Uid StoreTypes.
Import Objects.

#[local] Open Scope string_scope.
#[local] Open Scope N_scope.

(** The fields of [types.Subscription] the topic handlers use. *)
Record Subscription := mkSub {
  s_User : string; s_Topic : string; s_ModeWant : AccessMode; s_ModeGiven : AccessMode;
  s_Private : Any; s_DelId : Z; s_ReadSeqId : Z; s_ReadHistory : list ReadHistory.ReadCheckpoint; s_RecvSeqId : Z; s_DeletedAt : option Z }.

Record StoredUser := mkUser { u_State : Z; u_AccessAuth : AccessMode }.

(** The update maps the handlers pass to [Subs.Update]: absent keys are [None]. *)
Record SubUpdate := mkUpdate {
  up_ModeWant : option AccessMode; up_ModeGiven : option AccessMode; up_Private : option Any;
  up_DelId : option Z; up_ReadSeqId : option Z; up_RecvSeqId : option Z; up_ReadHistory : option (list ReadHistory.ReadCheckpoint) }.

(** An update map without entries. *)
Definition no_updates (u : SubUpdate) : bool :=
  match u with mkUpdate None None None None None None None => true | _ => false end.

(** [official_topics.go]: the policy fields the handlers of a topic read. *)
Record officialTopicPolicy := mkPolicy {
  Official : bool; OfficialStatus : string; ScaleClass : string; JoinPolicy : string; SlowModeSeconds : Z;
  AllMuted : bool; ReactionsEnabled : bool }.

(** The outcome of [submitOfficialJoinRequest] as its caller distinguishes it. *)
Inductive JoinRequest := JoinPending (status : string) | JoinProtected | JoinFailed (e : GoError).

(** A store call: the new state and a value or an error. *)
Abbreviation StoreResult St A := (St * (A + GoError))%type (only parsing).

Class SubStore (St : Type) := {
  subs_get : string -> Uid -> bool -> St -> StoreResult St (option Subscription);
  subs_create : Subscription -> St -> St * option GoError;
  subs_update : string -> Uid -> SubUpdate -> St -> St * option GoError;
  subs_delete : string -> Uid -> St -> St * option GoError;
  users_get : Uid -> St -> StoreResult St (option StoredUser);
  owner_change : string -> Uid -> St -> St * option GoError;
  validate_invite : string -> string -> Z -> St -> bool;
  consume_invite : string -> string -> Z -> St -> St * bool;
  refresh_policy : string -> Z -> St -> StoreResult St (option officialTopicPolicy);
  submit_join : string -> Uid -> Z -> St -> St * JoinRequest }.

(** The row a creation leaves: counters reset, the deletion mark cleared; an
    existing row keeps its private data (createSubscription with undelete). *)
Definition created_row (old : option Subscription) (sub : Subscription) : Subscription :=
  mkSub sub.(s_User) sub.(s_Topic) sub.(s_ModeWant) sub.(s_ModeGiven)
    (match old with Some o => o.(s_Private) | None => sub.(s_Private) end) 0 0 [] 0 None.

Definition updated_row (u : SubUpdate) (old : Subscription) : Subscription :=
  mkSub old.(s_User) old.(s_Topic) (default old.(s_ModeWant) u.(up_ModeWant))
    (default old.(s_ModeGiven) u.(up_ModeGiven)) (default old.(s_Private) u.(up_Private))
    (default old.(s_DelId) u.(up_DelId)) (default old.(s_ReadSeqId) u.(up_ReadSeqId))
    (default old.(s_ReadHistory) u.(up_ReadHistory)) (default old.(s_RecvSeqId) u.(up_RecvSeqId)) old.(s_DeletedAt).

(** [SubscriptionGet]: deleted rows only when asked for. *)
Definition visible (keepDeleted : bool) (o : option Subscription) : option Subscription :=
  match o with
  | Some s => match s.(s_DeletedAt) with Some _ => if keepDeleted then Some s else None | None => Some s end
  | None => None
  end.

Definition live (o : option Subscription) : option Subscription := visible false o.

(** What the properties of the handlers rely on; [row] reads the subscriptions table. *)
Class SubStoreLaws (St : Type) `{SubStore St} := {
  row : St -> string -> Uid -> option Subscription;
  law_get topic u keep s :
    (forall t' u', row (subs_get topic u keep s).1 t' u' = row s t' u') /\
    (forall r, (subs_get topic u keep s).2 = inl r -> r = visible keep (row s topic u));
  law_create sub s t' u' :
    row (subs_create sub s).1 t' u' =
      match (subs_create sub s).2 with
      | Some _ => row s t' u'
      | None => if bool_decide (t' = sub.(s_Topic) /\ u' = ParseUid sub.(s_User))
                then Some (created_row (row s t' u') sub) else row s t' u'
      end;
  law_update topic u upd s t' u' :
    row (subs_update topic u upd s).1 t' u' =
      match (subs_update topic u upd s).2 with
      | Some _ => row s t' u'
      | None => if bool_decide (t' = topic /\ (u' = u \/ u = ZeroUid))
                then updated_row upd <$> row s t' u' else row s t' u'
      end;
  law_delete topic u s t' u' :
    live (row (subs_delete topic u s).1 t' u') =
      match (subs_delete topic u s).2 with
      | Some _ => live (row s t' u')
      | None => if bool_decide (t' = topic /\ u' = u) then None else live (row s t' u')
      end;
  law_users u s t' u' : row (users_get u s).1 t' u' = row s t' u';
  law_owner topic u s t' u' : row (owner_change topic u s).1 t' u' = row s t' u';
  law_consume tok topic now s t' u' : row (consume_invite tok topic now s).1 t' u' = row s t' u';
  law_policy topic now s t' u' : row (refresh_policy topic now s).1 t' u' = row s t' u';
  law_join topic u now s t' u' : row (submit_join topic u now s).1 t' u' = row s t' u' }.

(** ** An in-memory instance *)

Record MemStore := mkMem {
  ms_subs : gmap (string * Uid) Subscription;
  ms_users : gmap Uid StoredUser;
  ms_owner : gmap string Uid;
  ms_invites : gmap string (string * Z);     (* token: topic and remaining uses, -1 unlimited *)
  ms_policy : option officialTopicPolicy;
  ms_faults : list bool }.                   (* whether the next writes fail *)

Definition set_subs (m : MemStore) (x : gmap (string * Uid) Subscription) : MemStore :=
  mkMem x m.(ms_users) m.(ms_owner) m.(ms_invites) m.(ms_policy) m.(ms_faults).
Definition set_faults (m : MemStore) (l : list bool) : MemStore :=
  mkMem m.(ms_subs) m.(ms_users) m.(ms_owner) m.(ms_invites) m.(ms_policy) l.

(** Runs a write unless the next fault says it fails. *)
Definition guarded (w : MemStore -> MemStore * option GoError) (m : MemStore) : MemStore * option GoError :=
  match m.(ms_faults) with
  | true :: l => (set_faults m l, Some (TextErr "connection lost"))
  | false :: l => w (set_faults m l)
  | [] => w m
  end.

Definition mem_create (sub : Subscription) (m : MemStore) : MemStore * option GoError :=
  let key := (sub.(s_Topic), ParseUid sub.(s_User)) in
  (set_subs m (<[key := created_row (m.(ms_subs) !! key) sub]> m.(ms_subs)), None).

(** [SubsUpdate]: the zero user stands for every subscription of the topic. *)
Definition mem_update (topic : string) (u : Uid) (upd : SubUpdate) (m : MemStore) : MemStore * option GoError :=
  (set_subs m (map_imap (fun k s =>
     Some (if bool_decide (k.1 = topic /\ (k.2 = u \/ u = ZeroUid)) then updated_row upd s else s)) m.(ms_subs)), None).

Definition mem_delete (topic : string) (u : Uid) (m : MemStore) : MemStore * option GoError :=
  match live (m.(ms_subs) !! (topic, u)) with
  | None => (m, Some (StoreErr ErrNotFound))
  | Some s =>
      (set_subs m (<[(topic, u) := mkSub s.(s_User) s.(s_Topic) s.(s_ModeWant) s.(s_ModeGiven) s.(s_Private)
                       s.(s_DelId) s.(s_ReadSeqId) s.(s_ReadHistory) s.(s_RecvSeqId) (Some 1%Z)]> m.(ms_subs)), None)
  end.

Definition mem_consume (tok topic : string) (m : MemStore) : MemStore * bool :=
  match m.(ms_invites) !! tok with
  | Some (t, n) =>
      if negb (String.eqb t topic) || (n =? 0)%Z then (m, false)
      else (mkMem m.(ms_subs) m.(ms_users) m.(ms_owner)
              (<[tok := (t, if (n <? 0)%Z then n else (n - 1)%Z)]> m.(ms_invites)) m.(ms_policy) m.(ms_faults), true)
  | None => (m, false)
  end.

#[global] Instance MemSubStore : SubStore MemStore := {
  subs_get topic u keep m := (m, inl (visible keep (m.(ms_subs) !! (topic, u))));
  subs_create sub := guarded (mem_create sub);
  subs_update topic u upd := guarded (mem_update topic u upd);
  subs_delete topic u := guarded (mem_delete topic u);
  users_get u m := (m, inl (m.(ms_users) !! u));
  owner_change topic u := guarded (fun m =>
    (mkMem m.(ms_subs) m.(ms_users) (<[topic := u]> m.(ms_owner)) m.(ms_invites) m.(ms_policy) m.(ms_faults), None));
  validate_invite tok topic _ m :=
    match m.(ms_invites) !! tok with Some (t, n) => String.eqb t topic && negb (n =? 0)%Z | None => false end;
  consume_invite tok topic _ m := mem_consume tok topic m;
  refresh_policy _ _ m := (m, inl m.(ms_policy));
  submit_join _ _ _ m := (m, JoinPending "pending") }.

Lemma guarded_cases w m :
  (exists l, guarded w m = (set_faults m l, Some (TextErr "connection lost"))) \/
  (exists m', m'.(ms_subs) = m.(ms_subs) /\ guarded w m = w m').
Proof.
  unfold guarded. destruct (ms_faults m) as [|[|] l]; [right; by exists m|left; by exists l|].
  right. by exists (set_faults m l).
Qed.

#[global] Instance MemSubStoreLaws : SubStoreLaws MemStore.
Proof.
  refine {| row m t u := m.(ms_subs) !! (t, u) |}; simpl; try done.
  - intros. split; [done|]. by intros r [= <-].
  - intros sub s t' u'. destruct (guarded_cases (mem_create sub) s) as [[l ->]|(m & <- & ->)]; [done|].
    simpl. case_bool_decide as H.
    + destruct H as [-> ->]. by rewrite lookup_insert_eq.
    + rewrite lookup_insert_ne; [done|]. intros [= <- <-]. by apply H.
  - intros topic u upd s t' u'.
    destruct (guarded_cases (mem_update topic u upd) s) as [[l ->]|(m & <- & ->)]; [done|].
    simpl. rewrite map_lookup_imap. destruct (ms_subs m !! (t', u')) as [x|]; simpl; [|by case_bool_decide].
    by case_bool_decide.
  - intros topic u s t' u'.
    destruct (guarded_cases (mem_delete topic u) s) as [[l ->]|(m & <- & ->)]; [done|].
    unfold mem_delete. destruct (live (ms_subs m !! (topic, u))) as [x|] eqn:E; simpl; [|done].
    case_bool_decide as H.
    + destruct H as [-> ->]. by rewrite lookup_insert_eq.
    + rewrite lookup_insert_ne; [done|]. intros [= <- <-]. by apply H.
  - intros topic u s t' u'. by destruct (guarded_cases (fun m =>
      (mkMem m.(ms_subs) m.(ms_users) (<[topic := u]> m.(ms_owner)) m.(ms_invites) m.(ms_policy) m.(ms_faults), None)) s)
      as [[l ->]|(m & <- & ->)].
  - intros tok topic now s t' u'. unfold mem_consume. destruct (_ !! tok) as [[t n]|]; [|done]. by destruct (_ || _).
Defined.
