(* ===== verification/PCache.v ===== *)
(** * PCache: the persistent cache and its concurrent clients

    The key-value part of server/store/store_files.go over
    server/db/mysql/cache.go, and programs that use it.  A client is a tree of
    cache calls ([Prog]); any number of clients run interleaved, one call at a time,
    while the clock advances, and any call may fail before or after it took effect
    ([Fault]).  [wb] is what a client owes the others about the writes it makes to one key,
    and [reachable_history] what follows for every interleaving: the key's values form a
    chain of permitted writes and every result a client reports is backed by a write of its
    own in it.  The clients are
    TopicInvites, ResumableLease and OfficialGov. *)

From Stdlib Require Import ZArith Lia List Ascii String Bool.
From stdpp Require Import base tactics numbers list strings gmap.
From S2P Require Import Prelude.

#[local] Open Scope string_scope.
#[local] Open Scope Z_scope.

(** ** Programs *)

Inductive Prog (V A : Type) :=
| Done (a : A)
| Get (key : string) (k : V + GoError -> Prog V A)
| Upsert (key : string) (v : V) (failOnDuplicate : bool) (k : option GoError -> Prog V A)
| CompareAndSwap (key : string) (old new : V) (k : bool + GoError -> Prog V A)
| Delete (key : string) (k : option GoError -> Prog V A)
| List (keyPrefix : string) (limit : Z) (k : list (string * V) + GoError -> Prog V A)
| TimeNow (k : Z -> Prog V A).
Arguments Done {V A}. Arguments Get {V A}. Arguments Upsert {V A}. Arguments CompareAndSwap {V A}. Arguments Delete {V A}. Arguments List {V A}. Arguments TimeNow {V A}.

(** A call succeeds, or fails with an error that is none of the store's own, before or after its effect.  [Listing] is
    success, with the order in which a query finds the keys. *)
Inductive Fault := Fine | LostRequest (msg : string) | LostReply (msg : string) | Listing (keys : list string).

Section Cache.
Context {V : Type} `{EqDecision V}.

Definition PCacheGet (key : string) (m : gmap string V) : V + GoError :=
  match m !! key with Some v => inl v | None => inr (StoreErr ErrNotFound) end.

(** [%] would disturb the prefix queries. *)
Definition has_percent (key : string) : bool :=
  match String.index 0 "%" key with Some _ => true | None => false end.

Definition PCacheUpsert (key : string) (v : V) (failOnDuplicate : bool) (m : gmap string V)
    : gmap string V * option GoError :=
  if has_percent key then (m, Some (StoreErr ErrMalformed))
  else match m !! key with
       | Some _ => if failOnDuplicate then (m, Some (StoreErr ErrDuplicate)) else (<[key := v]> m, None)
       | None => (<[key := v]> m, None)
       end.

Definition PCacheCompareAndSwap (key : string) (old new : V) (m : gmap string V) : gmap string V * bool :=
  match m !! key with
  | Some v => if bool_decide (v = old) then (<[key := new]> m, true) else (m, false)
  | None => (m, false)
  end.

Fixpoint contains_any (chars s : string) : bool :=
  match s with
  | EmptyString => false
  | String c s' => match String.index 0 (String c "") chars with Some _ => true | None => contains_any chars s' end
  end.

(** The oldest entries first; their ages are not part of the cache here, [order] is any order of its keys. *)
Definition PCacheList (order : option (list string)) (keyPrefix : string) (limit : Z) (m : gmap string V)
    : list (string * V) + GoError :=
  if String.eqb keyPrefix "" || contains_any "%_" keyPrefix || (limit <=? 0) then inr (StoreErr ErrMalformed)
  else
    let keys := remove_dups (default (map fst (map_to_list m)) order) in
    inl (take (Z.to_nat limit)
      (omap (fun key => if HasPrefix key keyPrefix then (fun v => (key, v)) <$> m !! key else None) keys)).

Definition listing_order (f : Fault) : option (list string) := match f with Listing keys => Some keys | _ => None end.

(** What a query returns is in the cache. *)
Lemma PCacheList_sound order keyPrefix limit m l :
  PCacheList order keyPrefix limit m = inl l ->
  forall key v, In (key, v) l -> m !! key = Some v /\ HasPrefix key keyPrefix = true.
Proof.
  unfold PCacheList. destruct (_ || _); [done|]. intros [= <-] key v Hin.
  apply list_elem_of_In, elem_of_take in Hin as (i & Hi & _). apply list_elem_of_lookup_2 in Hi.
  apply list_elem_of_omap in Hi as (k & _ & Hk). destruct (HasPrefix k keyPrefix) eqn:E; [|done].
  destruct (m !! k) as [v'|] eqn:Ek; [|done]. by injection Hk as <- <-.
Qed.

(** One call of a client. *)
Definition perform {A} (f : Fault) (clock : Z) (m : gmap string V) (p : Prog V A) : gmap string V * Prog V A :=
  match p with
  | Done a => (m, Done a)
  | TimeNow k => (m, k clock)
  | Get key k =>
      match f with
      | Fine | Listing _ => (m, k (PCacheGet key m))
      | LostRequest e | LostReply e => (m, k (inr (TextErr e)))
      end
  | List keyPrefix limit k =>
      match f with
      | Fine | Listing _ => (m, k (PCacheList (listing_order f) keyPrefix limit m))
      | LostRequest e | LostReply e => (m, k (inr (TextErr e)))
      end
  | Upsert key v dup k =>
      match f with
      | Fine | Listing _ => let '(m', r) := PCacheUpsert key v dup m in (m', k r)
      | LostRequest e => (m, k (Some (TextErr e)))
      | LostReply e => let '(m', _) := PCacheUpsert key v dup m in (m', k (Some (TextErr e)))
      end
  | CompareAndSwap key old new k =>
      match f with
      | Fine | Listing _ => let '(m', b) := PCacheCompareAndSwap key old new m in (m', k (inl b))
      | LostRequest e => (m, k (inr (TextErr e)))
      | LostReply e => let '(m', _) := PCacheCompareAndSwap key old new m in (m', k (inr (TextErr e)))
      end
  | Delete key k =>
      match f with
      | Fine | Listing _ => (delete key m, k None)
      | LostRequest e => (m, k (Some (TextErr e)))
      | LostReply e => (delete key m, k (Some (TextErr e)))
      end
  end.

(** A client running alone and without faults, at most [fuel] calls. *)
Fixpoint run_alone {A} (fuel : nat) (clock : Z) (m : gmap string V) (p : Prog V A) : gmap string V * option A :=
  match p, fuel with
  | Done a, _ => (m, Some a)
  | _, O => (m, None)
  | _, S fuel' => let '(m', p') := perform Fine clock m p in run_alone fuel' clock m' p'
  end.

(** The same without a bound: a client is a finite tree. *)
Fixpoint eval {A} (clock : Z) (m : gmap string V) (p : Prog V A) : gmap string V * A :=
  match p with
  | Done a => (m, a)
  | TimeNow k => eval clock m (k clock)
  | Get key k => eval clock m (k (PCacheGet key m))
  | Upsert key v dup k => let '(m', r) := PCacheUpsert key v dup m in eval clock m' (k r)
  | CompareAndSwap key old new k => let '(m', b) := PCacheCompareAndSwap key old new m in eval clock m' (k (inl b))
  | Delete key k => eval clock (delete key m) (k None)
  | List keyPrefix limit k => eval clock m (k (PCacheList None keyPrefix limit m))
  end.

Lemma eval_run_alone {A} clock m (p : Prog V A) : exists fuel, run_alone fuel clock m p = let '(m', a) := eval clock m p in (m', Some a).
Proof.
  revert m. induction p as [a|k0 k IH|k0 v dup k IH|k0 old new k IH|k0 k IH|k0 n k IH|k IH]; intros m; cbn [eval].
  - by exists 0%nat.
  - destruct (IH (PCacheGet k0 m) m) as [f Hf]. by exists (S f).
  - destruct (PCacheUpsert k0 v dup m) as [m' r] eqn:E. destruct (IH r m') as [f Hf]. exists (S f). cbn. by rewrite E.
  - destruct (PCacheCompareAndSwap k0 old new m) as [m' b] eqn:E. destruct (IH (inl b) m') as [f Hf]. exists (S f). cbn. by rewrite E.
  - destruct (IH None (delete k0 m)) as [f Hf]. by exists (S f).
  - destruct (IH (PCacheList None k0 n m) m) as [f Hf]. by exists (S f).
  - destruct (IH clock m) as [f Hf]. by exists (S f).
Qed.

(** ** All interleavings *)

Record System (A : Type) := mkSystem { clock : Z; cache : gmap string V; clients : list (Prog V A) }.
Arguments mkSystem {A}. Arguments clock {A}. Arguments cache {A}. Arguments clients {A}.

Inductive sys_step {A} : System A -> System A -> Prop :=
| step_client (s : System A) i p f m' p' :
    s.(clients) !! i = Some p -> perform f s.(clock) s.(cache) p = (m', p') ->
    sys_step s (mkSystem s.(clock) m' (<[i := p']> s.(clients)))
| step_clock (s : System A) d :
    0 <= d -> sys_step s (mkSystem (s.(clock) + d) s.(cache) s.(clients)).

(** A schedule: which client calls next and what happens to the call. *)
Fixpoint run_schedule {A} (l : list (nat * Fault)) (s : System A) : System A :=
  match l with
  | [] => s
  | (i, f) :: l' =>
      match s.(clients) !! i with
      | Some p =>
          let '(m, p') := perform f s.(clock) s.(cache) p in
          run_schedule l' (mkSystem s.(clock) m (<[i := p']> s.(clients)))
      | None => run_schedule l' s
      end
  end.

Lemma run_schedule_steps {A} l (s : System A) : steps sys_step s (run_schedule l s).
Proof.
  revert s. induction l as [|[i f] l IH]; intros s; simpl; [apply steps_refl|].
  destruct (clients s !! i) as [p|] eqn:Ei; [|apply IH].
  destruct (perform f (clock s) (cache s) p) as [m p'] eqn:Ep.
  eapply steps_trans; [|apply IH]. apply steps_one. by eapply step_client.
Qed.

(** ** What clients owe each other about one key *)

Section Protocol.
Context {A : Type}.
(** For a client: which values may create the key and which may replace which, given the time and what the client
    itself has written; what every value satisfies; what a result says about the client's own writes. *)
Context (key : string) (initial : nat -> Z -> V -> Prop) (permitted : nat -> Z -> list V -> V -> V -> Prop)
  (valid : V -> Prop) (backed : A -> list V -> Prop).

(** [wb i lb own p] for client [i]: the clock is at least [lb], [p] has written [own] to the key; from here on it creates the key
    only with an initial value, replaces a value only as permitted, does not delete it, and reports only what its
    writes back; it may rely on reading valid values. *)
Fixpoint wb (i : nat) (lb : Z) (own : list V) (p : Prog V A) : Prop :=
  match p with
  | Done a => backed a own
  | TimeNow k => forall t, lb <= t -> wb i t own (k t)
  | Get key' k => forall r, (key' = key -> forall v, r = inl v -> valid v) -> wb i lb own (k r)
  | Upsert key' v dup k =>
      if String.eqb key' key then
        dup = true /\ initial i lb v /\ wb i lb (v :: own) (k None) /\
        forall e, wb i lb own (k (Some e)) /\ wb i lb (v :: own) (k (Some e))
      else forall r, wb i lb own (k r)
  | CompareAndSwap key' old new k =>
      if String.eqb key' key then
        permitted i lb own old new /\ wb i lb (new :: own) (k (inl true)) /\ wb i lb own (k (inl false)) /\
        forall e, wb i lb own (k (inr e)) /\ wb i lb (new :: own) (k (inr e))
      else forall r, wb i lb own (k r)
  | Delete key' k => key' <> key /\ forall r, wb i lb own (k r)
  | List _ _ k => forall r, (forall l, r = inl l -> forall v, In (key, v) l -> valid v) -> wb i lb own (k r)
  end.

(** The writes to the key, newest first, each with its client and its time. *)
Definition History := list (nat * V * Z).
Definition entry_value (e : nat * V * Z) : V := e.1.2.

Definition current (start : option V) (h : History) : option V :=
  match h with [] => start | e :: _ => Some (entry_value e) end.

(** [own] is what client [i] has written. *)
Definition own_writes (i : nat) (own : list V) (h : History) : Prop :=
  forall v, In v own <-> exists t, In (i, v, t) h.

(** Each value was permitted over the one before it, and the first is the start or an initial value. *)
Fixpoint chain (start : option V) (h : History) : Prop :=
  match h with
  | [] => True
  | (i, v, t) :: h' =>
      chain start h' /\ Forall (fun e => e.2 <= t) h' /\
      match current start h' with
      | Some v0 => exists own, own_writes i own h' /\ permitted i t own v0 v
      | None => initial i t v
      end
  end.

(** The history accounts for the key's value and every client's writes. *)
Definition accounted (start : option V) (s : System A) (h : History) : Prop :=
  s.(cache) !! key = current start h /\ chain start h /\ Forall (fun e => e.2 <= s.(clock)) h /\
  forall i p, s.(clients) !! i = Some p ->
    exists own lb, lb <= s.(clock) /\ wb i lb own p /\ own_writes i own h.

Context (initial_mono : forall i t t' v, t <= t' -> initial i t v -> initial i t' v).
Context (permitted_mono : forall i t t' own v v', t <= t' -> permitted i t own v v' -> permitted i t' own v v').

Context (initial_valid : forall i t v, initial i t v -> valid v).
Context (permitted_valid : forall i t own v v', permitted i t own v v' -> valid v -> valid v').

Lemma chain_valid start h v :
  (forall v0, start = Some v0 -> valid v0) -> chain start h -> current start h = Some v -> valid v.
Proof.
  intros Hs. revert v. induction h as [|[[i x] t] h IH]; [simpl; auto|]. intros v (Hc & _ & Hp) [= <-].
  unfold entry_value. simpl. destruct (current start h) as [v0|] eqn:E; [|by eapply initial_valid].
  destruct Hp as (own & _ & Hp). eapply permitted_valid; [exact Hp|]. by apply IH.
Qed.

(** The other clients' accounts survive a step of client [i]. *)
Lemma accounts_kept (ps : list (Prog V A)) i p c (h h' : History) :
  (forall j q, ps !! j = Some q -> exists own lb, lb <= c /\ wb j lb own q /\ own_writes j own h) ->
  (forall j v t, j <> i -> In (j, v, t) h <-> In (j, v, t) h') ->
  (exists own lb, lb <= c /\ wb i lb own p /\ own_writes i own h') ->
  forall j q, <[i := p]> ps !! j = Some q -> exists own lb, lb <= c /\ wb j lb own q /\ own_writes j own h'.
Proof.
  intros Hall Hsub Hi j q Hj. apply list_lookup_insert_Some in Hj as [(<- & -> & _)|[Hne Hj]]; [done|].
  destruct (Hall j q Hj) as (own & lb & H1 & H2 & H3). exists own, lb. split; [done|]. split; [done|].
  intros v. rewrite (H3 v). by setoid_rewrite (Hsub j v _ (not_eq_sym Hne)).
Qed.

(** The account of the client whose call changed nothing. *)
Lemma account_same start (s : System A) h i p' :
  accounted start s h ->
  (exists own lb, lb <= s.(clock) /\ wb i lb own p' /\ own_writes i own h) ->
  forall m', m' !! key = s.(cache) !! key ->
  accounted start (mkSystem s.(clock) m' (<[i := p']> s.(clients))) h.
Proof.
  intros (H1 & H2 & H3 & H4) Hi m' Hm. split; [by rewrite <- H1|]. split; [done|]. split; [done|].
  by apply (accounts_kept (clients s) i p' (clock s) h h).
Qed.

(** The account of the client who wrote the key. *)
Lemma account_write start (s : System A) h i p' lb own v :
  accounted start s h -> lb <= s.(clock) -> wb i lb (v :: own) p' -> own_writes i own h ->
  match s.(cache) !! key with Some v0 => permitted i s.(clock) own v0 v | None => initial i s.(clock) v end ->
  accounted start (mkSystem s.(clock) (<[key := v]> s.(cache)) (<[i := p']> s.(clients)))
    ((i, v, s.(clock)) :: h).
Proof.
  intros (H1 & H2 & H3 & H4) Hlb Hwb Hown Hp. rewrite H1 in Hp.
  split; [simpl; by rewrite lookup_insert_eq|]. split.
  { split; [done|]. split; [done|]. destruct (current start h); [by exists own|done]. }
  split; [by constructor|].
  apply (accounts_kept (clients s) i p' (clock s) h); [exact H4| |].
  - intros j x t Hne. split; [by right|]. intros [[= <- _ _]|?]; done.
  - exists (v :: own), lb. split; [done|]. split; [done|]. intros x. split.
    + intros [<-|Hx]; [by eexists; left|]. apply Hown in Hx as [t Ht]. exists t. by right.
    + intros (t & [[= <- _]|Ht]); [by left|]. right. apply Hown. eauto.
Qed.

Lemma step_accounted start (s s' : System A) h :
  (forall v0, start = Some v0 -> valid v0) -> accounted start s h -> sys_step s s' -> exists h', accounted start s' h'.
Proof.
  intros Hvalid Hacc Hs. destruct Hs as [s i p f m' p' Hp Hperf|s d Hd].
  2: { exists h. destruct Hacc as (H1 & H2 & H3 & H4). split; [done|]. split; [done|]. split.
       - eapply Forall_impl; [exact H3|]. simpl. intros e He. simpl in He. lia.
       - intros i p Hp. destruct (H4 i p Hp) as (own & lb & ? & ?). exists own, lb. split; [simpl; lia|done]. }
  pose proof Hacc as (H1 & H2 & H3 & H4). destruct (H4 i p Hp) as (own & lb & Hlb & Hwb & Hown).
  assert (forall q m, wb i lb own q -> m !! key = s.(cache) !! key ->
    exists h', accounted start (mkSystem s.(clock) m (<[i := q]> s.(clients))) h') as Hsame.
  { intros q m Hq Hm. exists h. apply account_same; [done| |done]. exists own, lb. auto. }
  assert (forall q v, wb i lb (v :: own) q ->
    match s.(cache) !! key with Some v0 => permitted i s.(clock) own v0 v | None => initial i s.(clock) v end ->
    exists h', accounted start (mkSystem s.(clock) (<[key := v]> s.(cache)) (<[i := q]> s.(clients))) h') as Hwrite.
  { intros q v Hq Hv. eexists. by eapply account_write. }
  destruct p as [a|k0 k|k0 v dup k|k0 old new k|k0 k|k0 n k|k]; simpl in Hperf, Hwb.
  - injection Hperf as <- <-. by apply Hsame.
  - destruct f; injection Hperf as <- <-; (apply Hsame; [apply Hwb|done]); try by intros.
    all: intros -> v; unfold PCacheGet; rewrite H1; destruct (current start h) as [x|] eqn:Ex; [|done];
      intros [= <-]; by eapply chain_valid.
  - destruct (String.eqb_spec k0 key) as [->|Hne].
    + destruct Hwb as (-> & Hi & W1 & W2). unfold PCacheUpsert in Hperf.
      destruct (has_percent key), (cache s !! key) as [v0|] eqn:Ek, f; injection Hperf as <- <-;
        try (apply Hsame; [apply W2|done]); (apply Hwrite; [try apply W2; try exact W1|]); by eapply initial_mono.
    + assert (forall m r, PCacheUpsert k0 v dup (cache s) = (m, r) -> m !! key = cache s !! key) as Hm.
      { intros m r. unfold PCacheUpsert. destruct (has_percent k0), (cache s !! k0), dup; intros [= <- _];
          try done; by rewrite lookup_insert_ne. }
      destruct f; [|injection Hperf as <- <-; by apply Hsame| |]; destruct (PCacheUpsert _ _ _ _) as [m r] eqn:E;
        injection Hperf as <- <-; (apply Hsame; [apply Hwb|by eapply Hm]).
  - destruct (String.eqb_spec k0 key) as [->|Hne].
    + destruct Hwb as (Hpm & W1 & W2 & W3). unfold PCacheCompareAndSwap in Hperf.
      destruct f; [|injection Hperf as <- <-; apply Hsame; [apply W3|done]| |];
        (destruct (cache s !! key) as [v0|] eqn:Ek;
         [|injection Hperf as <- <-; apply Hsame; [first [exact W2|apply W3]|by rewrite Ek]]);
        (case_bool_decide as Hv; injection Hperf as <- <-;
         [|apply Hsame; [first [exact W2|apply W3]|by rewrite Ek]]);
        subst v0; (apply Hwrite; [first [exact W1|apply W3]|]); by eapply permitted_mono.
    + assert (forall m b, PCacheCompareAndSwap k0 old new (cache s) = (m, b) -> m !! key = cache s !! key) as Hm.
      { intros m b. unfold PCacheCompareAndSwap. destruct (cache s !! k0); [case_bool_decide|]; intros [= <- _];
          try done; by rewrite lookup_insert_ne. }
      destruct f; [|injection Hperf as <- <-; by apply Hsame| |]; destruct (PCacheCompareAndSwap _ _ _ _) as [m b] eqn:E;
        injection Hperf as <- <-; (apply Hsame; [apply Hwb|by eapply Hm]).
  - destruct Hwb as [Hne Hwb]. destruct f; injection Hperf as <- <-; (apply Hsame; [apply Hwb|]);
      try done; by rewrite lookup_delete_ne.
  - assert (forall o r, r = PCacheList o k0 n (cache s) -> wb i lb own (k r)) as Hl.
    { intros o r ->. apply Hwb. intros l Hl v Hv. eapply PCacheList_sound in Hv as [Hv _]; [|exact Hl]. rewrite H1 in Hv.
      by eapply chain_valid. }
    destruct f; injection Hperf as <- <-; (apply Hsame; [|done]); try (by eapply Hl); by apply Hwb.
  - injection Hperf as <- <-. exists h. apply account_same; [done| |done].
    exists own, (clock s). split; [lia|]. split; [by apply Hwb|done].
Qed.

(** Every interleaving of clients that keep the protocol is accounted for by a history. *)
Lemma reachable_history (s0 s : System A) :
  (forall v, s0.(cache) !! key = Some v -> valid v) ->
  (forall i p, s0.(clients) !! i = Some p -> wb i s0.(clock) [] p) -> steps sys_step s0 s ->
  exists h, accounted (s0.(cache) !! key) s h.
Proof.
  intros Hv H0. apply (steps_invariant _ (fun s => exists h, accounted (cache s0 !! key) s h)).
  - exists []. split; [done|]. split; [done|]. split; [done|]. intros i p Hp. exists [], (clock s0).
    split; [lia|]. split; [eauto|]. intros v. split; [done|]. by intros [t []].
  - intros a b [h Ha] Hs. by eapply step_accounted.
Qed.

(** What a finished client reports is backed by writes of its own. *)
Lemma claim_backed start (s : System A) h i a :
  accounted start s h -> s.(clients) !! i = Some (Done a) ->
  exists own, backed a own /\ own_writes i own h.
Proof. intros (_ & _ & _ & H) Hi. destruct (H i _ Hi) as (own & lb & _ & Hw & Ho). by exists own. Qed.
End Protocol.

(** ** Renaming the results of a client, and going on after it *)

Fixpoint pbind {A B} (p : Prog V A) (k : A -> Prog V B) : Prog V B :=
  match p with
  | Done a => k a
  | Get key g => Get key (fun r => pbind (g r) k)
  | Upsert key v dup g => Upsert key v dup (fun r => pbind (g r) k)
  | CompareAndSwap key old new g => CompareAndSwap key old new (fun r => pbind (g r) k)
  | Delete key g => Delete key (fun r => pbind (g r) k)
  | List keyPrefix limit g => List keyPrefix limit (fun r => pbind (g r) k)
  | TimeNow g => TimeNow (fun r => pbind (g r) k)
  end.

Lemma eval_pbind {A B} clock m (p : Prog V A) (k : A -> Prog V B) :
  eval clock m (pbind p k) = let '(m', a) := eval clock m p in eval clock m' (k a).
Proof.
  revert m. induction p as [a|k0 f IH|k0 v dup f IH|k0 old new f IH|k0 f IH|k0 n f IH|f IH]; intros m; cbn [pbind eval]; auto.
  - by destruct (PCacheUpsert _ _ _ _).
  - by destruct (PCacheCompareAndSwap _ _ _ _).
Qed.

Fixpoint pmap {A B} (f : A -> B) (p : Prog V A) : Prog V B :=
  match p with
  | Done a => Done (f a)
  | Get key k => Get key (fun r => pmap f (k r))
  | Upsert key v dup k => Upsert key v dup (fun r => pmap f (k r))
  | CompareAndSwap key old new k => CompareAndSwap key old new (fun r => pmap f (k r))
  | Delete key k => Delete key (fun r => pmap f (k r))
  | List keyPrefix limit k => List keyPrefix limit (fun r => pmap f (k r))
  | TimeNow k => TimeNow (fun r => pmap f (k r))
  end.

Lemma wb_pmap {A B} key initial permitted valid (backed : B -> list V -> Prop) (f : A -> B) p i lb own :
  wb key initial permitted valid (fun a => backed (f a)) i lb own p ->
  wb key initial permitted valid backed i lb own (pmap f p).
Proof.
  revert lb own. induction p as [a|k0 k IH|k0 v dup k IH|k0 old new k IH|k0 k IH|k0 n k IH|k IH]; intros lb own; simpl.
  - done.
  - intros H r Hr. apply IH, H, Hr.
  - destruct (String.eqb k0 key); [|intros H r; apply IH, H].
    intros (H1 & H2 & H3 & H4). split; [done|]. split; [done|]. split; [by apply IH|]. intros e. split; apply IH, H4.
  - destruct (String.eqb k0 key); [|intros H r; apply IH, H].
    intros (H1 & H2 & H3 & H4). split; [done|]. split; [by apply IH|]. split; [by apply IH|]. intros e. split; apply IH, H4.
  - intros [H1 H2]. split; [done|]. intros r. apply IH, H2.
  - intros H r Hr. by apply IH, H.
  - intros H t Ht. by apply IH, H.
Qed.
End Cache.

Arguments mkSystem {V A}. Arguments clock {V A}. Arguments cache {V A}. Arguments clients {V A}.

(** ** A concrete text codec

    The clients take their JSON codec as a parameter; this one reads back what it wrote
    and shows that their hypotheses can hold. *)

Fixpoint pos_text (p : positive) : string :=
  match p with xH => "." | xO p' => String "0" (pos_text p') | xI p' => String "1" (pos_text p') end.
Fixpoint text_pos (s : string) : option positive :=
  match s with
  | "." => Some xH
  | String "0" s' => xO <$> text_pos s'
  | String "1" s' => xI <$> text_pos s'
  | _ => None
  end.

Lemma text_pos_text p : text_pos (pos_text p) = Some p.
Proof. induction p as [p IH|p IH|]; simpl; [| |done]; by rewrite IH. Qed.

Definition plain_text {A} `{Countable A} (a : A) : string := pos_text (encode a).
Definition plain_parse {A} `{Countable A} (s : string) : option A := text_pos s ≫= decode.

Lemma plain_law {A} `{Countable A} (a : A) : plain_parse (plain_text a) = Some a.
Proof. unfold plain_parse, plain_text. rewrite text_pos_text. apply decode_encode. Qed.
