(* ===== verification/PubStore.v ===== *)
(** * PubStore: the store, the cache and the business policy as publishing sees them

    server/store/store_messages.go and what publishing uses besides it: the files and assets of
    a message, the persistent cache, the topic's Aux column, the shop's policy service.
    [PubStore] is the interface on top of [SubStore]; [PubStoreLaws] says which calls change
    messages.  [PubMem] is an instance whose messages are the tables of [Fence], saved by
    [Fence.MessageSaveAtomic], with the queries of server/db/mysql/messages.go; the saves can fail
    before or after they took effect. *)

From Stdlib Require Import NArith ZArith Lia List Ascii String Bool.
From stdpp Require Import base tactics numbers list strings gmap sets.
From S2P Require Import Prelude AccessMode Uid StoreTypes Fence Messages SubStore PCache.
Import Objects.

#[local] Open Scope string_scope.
#[local] Open Scope Z_scope.

Class PubStore (St : Type) `{SubStore St} := {
  (** Store.GetUid *)
  store_uid : St -> St * Uid;
  (** the adapter's messages *)
  message_save_atomic : Uid -> Message -> St -> St * option GoError;
  message_get : string -> Z -> St -> StoreResult St (option (Uid * Message));
  message_by_client : string -> Uid -> string -> St -> StoreResult St (option Message);
  message_update : Message -> St -> St * option GoError;
  (** Messages.Schedule: the stored record with its id *)
  message_schedule : ScheduledMessage -> St -> StoreResult St ScheduledMessage;
  scheduled_by_client : string -> Uid -> string -> St -> StoreResult St (option ScheduledMessage);
  delete_scheduled : string -> string -> Uid -> St -> St * option GoError;
  (** Topics.Update of Aux *)
  update_aux : string -> Head -> Z -> St -> St * option GoError;
  (** ValidateMessageAssets, ValidateFileAttachments, Files.LinkAttachments and the end of Messages.Save *)
  assets_validate : string -> list string -> St -> St * option GoError;
  attachments_validate : Uid -> list string -> St -> St * option GoError;
  link_attachments : string -> Uid -> list string -> St -> St * option GoError;
  (** businessPolicy.authorizeUIDs and archiveTextMessage *)
  authorize_uids : Uid -> Uid -> string -> string -> St -> St * option GoError;
  archive_text : Message -> Uid -> St -> St * option GoError;
  (** PCache *)
  cache_get : string -> St -> StoreResult St string;
  cache_upsert : string -> string -> bool -> St -> St * option GoError;
  cache_cas : string -> string -> string -> St -> StoreResult St bool;
  cache_delete : string -> St -> St * option GoError;
  cache_list : string -> Z -> St -> StoreResult St (list (string * string)) }.

(** A cache program run by one node on the store at the time [now]. *)
Fixpoint run_cache {St} `{PubStore St} {A} (now : Z) (p : Prog string A) (s : St) : St * A :=
  match p with
  | Done a => (s, a)
  | PCache.Get key k => let '(s, r) := cache_get key s in run_cache now (k r) s
  | Upsert key v dup k => let '(s, r) := cache_upsert key v dup s in run_cache now (k r) s
  | CompareAndSwap key old new k => let '(s, r) := cache_cas key old new s in run_cache now (k r) s
  | Delete key k => let '(s, r) := cache_delete key s in run_cache now (k r) s
  | PCache.List keyPrefix limit k => let '(s, r) := cache_list keyPrefix limit s in run_cache now (k r) s
  | TimeNow k => run_cache now (k now) s
  end.

(** ** Laws *)

Definition with_key (m : Message) (key : string) : Message :=
  mkMessage m.(m_SeqId) m.(m_Topic) m.(m_From) m.(m_ClientId) key m.(m_ClusterId) m.(m_ClusterEpoch) m.(m_ClusterOwner)
    m.(m_CreatedAt) m.(m_UpdatedAt) m.(m_DeletedAt) m.(m_DelId) m.(m_Head) m.(m_Content) m.(m_SearchText).

(** The row MessageUpdate writes: the time, the header, the content and its search text. *)
Definition updated_message (new old : Message) : Message :=
  mkMessage old.(m_SeqId) old.(m_Topic) old.(m_From) old.(m_ClientId) old.(m_ClientKey) old.(m_ClusterId)
    old.(m_ClusterEpoch) old.(m_ClusterOwner) old.(m_CreatedAt) new.(m_UpdatedAt) old.(m_DeletedAt) old.(m_DelId)
    new.(m_Head) new.(m_Content) new.(m_SearchText).

(** [topic=? AND seqid=? AND delid=0] *)
Definition at_seq (topic : string) (seq : Z) (r : Uid * Message) : bool :=
  String.eqb (snd r).(m_Topic) topic && ((snd r).(m_SeqId) =? seq) && ((snd r).(m_DelId) =? 0).

Definition update_at (new : Message) (r : Uid * Message) : Uid * Message :=
  if at_seq new.(m_Topic) new.(m_SeqId) r then (fst r, updated_message new (snd r)) else r.

Class PubStoreLaws (St : Type) `{PubStore St, !SubStoreLaws St} := {
  stored : St -> list (Uid * Message);
  (** what the messages' client keys are made of *)
  client_key : Uid -> string -> string;
  (** a save adds one message, whose position and client key were free, or nothing; after an error either may be the case *)
  law_message_save id m s :
    let r := message_save_atomic id m s in
    (stored r.1 = stored s /\ r.2 <> None) \/
    (exists key, stored r.1 = (stored s ++ [(id, with_key m key)])%list /\
       existsb (fun x => conflicts (with_key m key) (snd x)) (stored s) = false);
  law_message_get topic seq s :
    let r := message_get topic seq s in
    stored r.1 = stored s /\ forall o, r.2 = inl o -> o = List.find (at_seq topic seq) (stored s);
  law_message_update m s :
    let r := message_update m s in
    stored r.1 = match r.2 with Some _ => stored s | None => map (update_at m) (stored s) end;
  law_by_client topic u cid s :
    let r := message_by_client topic u cid s in
    stored r.1 = stored s /\ forall m, r.2 = inl (Some m) -> exists id, In (id, m) (stored s) /\ m.(m_Topic) = topic /\ m.(m_ClientKey) = client_key u cid;
  law_uid s : stored (store_uid s).1 = stored s;
  law_schedule x s : stored (message_schedule x s).1 = stored s;
  law_scheduled t u c s : stored (scheduled_by_client t u c s).1 = stored s;
  law_unschedule i t u s : stored (delete_scheduled i t u s).1 = stored s;
  law_aux t a z s : stored (update_aux t a z s).1 = stored s;
  law_assets k l s : stored (assets_validate k l s).1 = stored s;
  law_attach u l s : stored (attachments_validate u l s).1 = stored s;
  law_link t u l s : stored (link_attachments t u l s).1 = stored s;
  law_authorize a b c d s : stored (authorize_uids a b c d s).1 = stored s;
  law_archive m u s : stored (archive_text m u s).1 = stored s;
  law_cache_get k s : stored (cache_get k s).1 = stored s;
  law_cache_upsert k v d s : stored (cache_upsert k v d s).1 = stored s;
  law_cache_cas k a b s : stored (cache_cas k a b s).1 = stored s;
  law_cache_delete k s : stored (cache_delete k s).1 = stored s;
  law_cache_list p n s : stored (cache_list p n s).1 = stored s;
  law_subs_get t u k s : stored (subs_get t u k s).1 = stored s;
  law_subs_update t u x s : stored (subs_update t u x s).1 = stored s;
  law_refresh t z s : stored (refresh_policy t z s).1 = stored s;
  law_authorize_rows a b c d s t u : row (authorize_uids a b c d s).1 t u = row s t u }.

Lemma run_cache_stored {St} `{PubStoreLaws St} {A} now (p : Prog string A) s :
  stored (run_cache now p s).1 = stored s.
Proof.
  revert s. induction p as [a|k f IH|k v d f IH|k a b f IH|k f IH|k n f IH|f IH]; intros s; cbn [run_cache]; [done| ..].
  - pose proof (law_cache_get k s) as E. destruct (cache_get k s) as [s' r]. by rewrite IH.
  - pose proof (law_cache_upsert k v d s) as E. destruct (cache_upsert k v d s) as [s' r]. by rewrite IH.
  - pose proof (law_cache_cas k a b s) as E. destruct (cache_cas k a b s) as [s' r]. by rewrite IH.
  - pose proof (law_cache_delete k s) as E. destruct (cache_delete k s) as [s' r]. by rewrite IH.
  - pose proof (law_cache_list k n s) as E. destruct (cache_list k n s) as [s' r]. by rewrite IH.
  - apply IH.
Qed.

(** ** An instance over the tables of [Fence] *)

Record PubMem := mkPubMem {
  pm_subs : MemStore; pm_db : DB; pm_faults : list Faults; pm_next : Uid; pm_cache : gmap string string;
  pm_scheduled : list ScheduledMessage;
  pm_owners : gmap string Uid;            (* who uploaded the file behind a URL *)
  pm_grants : list (string * string);     (* URL and topic whose readers may fetch it *)
  pm_denied : list (Uid * string) }.      (* actions the policy service refuses *)

Definition set_pm_subs (s : PubMem) (x : MemStore) : PubMem :=
  mkPubMem x s.(pm_db) s.(pm_faults) s.(pm_next) s.(pm_cache) s.(pm_scheduled) s.(pm_owners) s.(pm_grants) s.(pm_denied).
Definition set_pm_db (s : PubMem) (x : DB) (f : list Faults) : PubMem :=
  mkPubMem s.(pm_subs) x f s.(pm_next) s.(pm_cache) s.(pm_scheduled) s.(pm_owners) s.(pm_grants) s.(pm_denied).
Definition set_pm_cache (s : PubMem) (x : gmap string string) : PubMem :=
  mkPubMem s.(pm_subs) s.(pm_db) s.(pm_faults) s.(pm_next) x s.(pm_scheduled) s.(pm_owners) s.(pm_grants) s.(pm_denied).
Definition set_pm_scheduled (s : PubMem) (x : list ScheduledMessage) : PubMem :=
  mkPubMem s.(pm_subs) s.(pm_db) s.(pm_faults) s.(pm_next) s.(pm_cache) x s.(pm_owners) s.(pm_grants) s.(pm_denied).
Definition set_pm_grants (s : PubMem) (x : list (string * string)) : PubMem :=
  mkPubMem s.(pm_subs) s.(pm_db) s.(pm_faults) s.(pm_next) s.(pm_cache) s.(pm_scheduled) s.(pm_owners) x s.(pm_denied).

(** An operation of the subscription store, lifted. *)
Definition on_subs {A} (f : MemStore -> MemStore * A) (s : PubMem) : PubMem * A :=
  let '(m, a) := f s.(pm_subs) in (set_pm_subs s m, a).

#[global] Instance PubMemSubStore : SubStore PubMem := {
  subs_get t u k := on_subs (subs_get t u k);
  subs_create x := on_subs (subs_create x);
  subs_update t u x := on_subs (subs_update t u x);
  subs_delete t u := on_subs (subs_delete t u);
  users_get u := on_subs (users_get u);
  owner_change t u := on_subs (owner_change t u);
  validate_invite a b z s := validate_invite a b z s.(pm_subs);
  consume_invite a b z := on_subs (consume_invite a b z);
  refresh_policy t z := on_subs (refresh_policy t z);
  submit_join t u z := on_subs (submit_join t u z) }.

Section Instance.
Context (sha256 : string -> string).

(** The next save's faults. *)
Definition mem_save (id : Uid) (m : Message) (s : PubMem) : PubMem * option GoError :=
  let '(f, l) := match s.(pm_faults) with f :: l => (f, l) | [] => (no_faults, []) end in
  let '(db, _, err) := MessageSaveAtomic sha256 true f id m s.(pm_db) in
  (set_pm_db s db l, err).

(** MessageGetByClientId *)
Definition mem_by_client (topic : string) (from : Uid) (cid : string) (s : PubMem) : option Message :=
  if String.eqb cid "" then None
  else snd <$> List.find (fun r => String.eqb (snd r).(m_Topic) topic &&
                                   String.eqb (snd r).(m_ClientKey) (MessageClientKey sha256 from cid)) s.(pm_db).(messages).

(** MessageUpdate: no row is an error. *)
Definition mem_update_message (m : Message) (s : PubMem) : PubMem * option GoError :=
  if existsb (at_seq m.(m_Topic) m.(m_SeqId)) s.(pm_db).(messages)
  then (set_pm_db s (mkDB s.(pm_db).(kvmeta) s.(pm_db).(topics) (map (update_at m) s.(pm_db).(messages))) s.(pm_faults), None)
  else (s, Some (StoreErr ErrNotFound)).

Definition same_request (topic : string) (from : Uid) (cid : string) (x : ScheduledMessage) : bool :=
  String.eqb x.(sm_Topic) topic && String.eqb x.(sm_From) (UidString from) && String.eqb x.(sm_ClientId) cid.

#[global] Instance PubMemStore : PubStore PubMem := {
  store_uid s := (mkPubMem s.(pm_subs) s.(pm_db) s.(pm_faults) (s.(pm_next) + 1)%N s.(pm_cache) s.(pm_scheduled)
                    s.(pm_owners) s.(pm_grants) s.(pm_denied), s.(pm_next));
  message_save_atomic := mem_save;
  message_get topic seq s := (s, inl (List.find (at_seq topic seq) s.(pm_db).(messages)));
  message_by_client topic u cid s := (s, inl (mem_by_client topic u cid s));
  message_update := mem_update_message;
  message_schedule x s := (set_pm_scheduled s (s.(pm_scheduled) ++ [x])%list, inl x);
  scheduled_by_client topic u cid s := (s, inl (List.find (same_request topic u cid) s.(pm_scheduled)));
  delete_scheduled id _ _ s :=
    (set_pm_scheduled s (List.filter (fun x => negb (String.eqb x.(sm_Id) id)) s.(pm_scheduled)), None);
  update_aux _ _ _ s := (s, None);
  assets_validate _ _ s := (s, None);
  attachments_validate u urls s :=
    (s, if forallb (fun url => match s.(pm_owners) !! url with Some o => (o =? u)%N | None => true end) urls
        then None else Some (StoreErr ErrPermissionDenied));
  link_attachments topic _ urls s := (set_pm_grants s (map (fun url => (url, topic)) urls ++ s.(pm_grants))%list, None);
  authorize_uids actor _ action _ s :=
    (s, if existsb (fun d => (fst d =? actor)%N && String.eqb (snd d) action) s.(pm_denied) then Some (StoreErr ErrPolicy) else None);
  archive_text _ _ s := (s, None);
  cache_get key s := (s, PCacheGet key s.(pm_cache));
  cache_upsert key v dup s := let '(c, e) := PCacheUpsert key v dup s.(pm_cache) in (set_pm_cache s c, e);
  cache_cas key old new s := let '(c, b) := PCacheCompareAndSwap key old new s.(pm_cache) in (set_pm_cache s c, inl b);
  cache_delete key s := (set_pm_cache s (delete key s.(pm_cache)), None);
  cache_list keyPrefix limit s := (s, PCacheList None keyPrefix limit s.(pm_cache)) }.

Lemma InitClientKey_with_key m : InitClientKey sha256 m = with_key m (InitClientKey sha256 m).(m_ClientKey).
Proof. unfold InitClientKey, with_key. destruct (String.eqb_spec (m_ClientKey m) ""); by destruct m. Qed.

Lemma on_subs_messages {A} (f : MemStore -> MemStore * A) s : (on_subs f s).1.(pm_db) = s.(pm_db).
Proof. unfold on_subs. by destruct (f _). Qed.

Lemma on_subs_store {A} (f : MemStore -> MemStore * A) s : (on_subs f s).1.(pm_subs) = (f s.(pm_subs)).1.
Proof. unfold on_subs. by destruct (f _). Qed.
Lemma on_subs_result {A} (f : MemStore -> MemStore * A) s : (on_subs f s).2 = (f s.(pm_subs)).2.
Proof. unfold on_subs. by destruct (f _). Qed.

#[global] Instance PubMemSubLaws : SubStoreLaws PubMem.
Proof.
  refine {| row s := row s.(pm_subs) |}; intros; unfold subs_get, subs_create, subs_update, subs_delete, users_get, owner_change,
    consume_invite, refresh_policy, submit_join, PubMemSubStore; rewrite ?on_subs_store, ?on_subs_result.
  - apply law_get.
  - apply law_create.
  - apply law_update.
  - apply law_delete.
  - apply law_users.
  - apply law_owner.
  - apply law_consume.
  - apply law_policy.
  - apply law_join.
Defined.

#[global] Instance PubMemLaws : PubStoreLaws PubMem.
Proof.
  refine {| stored s := s.(pm_db).(messages); client_key := MessageClientKey sha256 |}; try (intros; cbn; unfold on_subs; cbn; done).
  - intros id m s. cbn [message_save_atomic PubMemStore]. unfold mem_save.
    destruct (match pm_faults s with f :: l => (f, l) | [] => (no_faults, []) end) as [f l].
    pose proof (MessageSaveAtomic_cases sha256 true f id m (pm_db s)) as H. cbv zeta in H.
    destruct (MessageSaveAtomic sha256 true f id m (pm_db s)) as [[db m'] err]. cbn [fst snd] in *.
    destruct H as (-> & [(-> & He)|(Hs & _)]); [left; by split|right]. rewrite InitClientKey_with_key in Hs.
    exists (m_ClientKey (InitClientKey sha256 m)). destruct Hs as (row & _ & Hc & Hs).
    split; [|exact Hc]. destruct (HasClusterFence _); [destruct Hs as (_ & _ & ->)|rewrite Hs]; done.
  - intros topic seq s. cbn. split; [done|]. by intros o [= <-].
  - intros m s. cbn. unfold mem_update_message. by destruct (existsb _ _).
  - intros topic u cid s. cbn. split; [done|]. intros m [= H]. unfold mem_by_client in H.
    destruct (String.eqb cid ""); [done|]. destruct (List.find _ _) as [[id m']|] eqn:E; [|done].
    injection H as <-. apply find_some in E as [E1 E2]. exists id. split; [done|].
    by apply andb_true_iff in E2 as [E2%String.eqb_eq E3%String.eqb_eq].
  - intros key v d s. cbn. by destruct (PCacheUpsert _ _ _ _).
  - intros key a b s. cbn. by destruct (PCacheCompareAndSwap _ _ _ _).
  - intros t u x s. cbn. by rewrite on_subs_messages.
Defined.
End Instance.
