(* ===== verification/History.v ===== *)
(** * History: the messages of a topic in the database and their deletion

    server/db/mysql/messages.go ([MessageGetAll], [MessageGetDeleted], [messageDeleteList],
    [MessageDeleteList]), [RangesToSql] of server/db/common and DeleteList and GetDeleted of
    server/store/store_messages.go.  A hard deletion clears a message's row, a soft one only writes the
    deletion log, which hides the message from one user.  [shown] is what a user's history has at a
    position; the class [DelStoreLaws] says how deletion changes it, and [DelMem], the tables of [PubMem]
    with the deletion log, satisfies it. *)

From Stdlib Require Import NArith ZArith Lia List Ascii String Bool Sorted.
From stdpp Require Import base tactics numbers list strings gmap sets.
From S2P Require Import Prelude AccessMode Uid StoreTypes Fence Messages SubStore PCache PubStore.
Import Objects Ranges.

#[local] Open Scope string_scope.
#[local] Open Scope Z_scope.

(** ** Data *)

(** A row of dellog; the zero user is a hard deletion. *)
Record LogRow := mkLog { lg_topic : string; lg_for : Uid; lg_delid : Z; lg_low : Z; lg_hi : Z }.

(** [types.DelMessage]: the fields the adapter reads; a decoded DeletedFor. *)
Record DelMessage := mkDel { dm_DelId : Z; dm_DeletedFor : Uid; dm_ranges : list Range; dm_newerThan : option Z }.

(** [types.QueryOpt]: the fields the history queries read. *)
Record QueryOpt := mkOpt {
  q_IfModifiedSince : option Z; q_Since : Z; q_Before : Z; q_Limit : Z; q_Forward : bool; q_IdRanges : list Range }.

(** The tables: messages, dellog, topics.delid and the subscriptions. *)
Record DelDB := mkDelDB {
  dd_messages : list (Uid * Message); dellog : list LogRow; dd_topics : gmap string Z;
  dd_subs : gmap (string * Uid) Subscription }.

(** ** Ranges as SQL *)

Inductive SqlRange := SqlIn (ids : list Z) | SqlBetween (low high : Z).

Definition range_ids (r : Range) : list Z := if r.(Hi) =? 0 then [r.(Low)] else seqZ r.(Low) (r.(Hi) - r.(Low)).

(** [None] is the panic: an index out of range, or strings.Repeat of a negative count. *)
Definition RangesToSql (rs : list Range) : option SqlRange :=
  match rs with
  | [] => None
  | r :: rest =>
      if (1 <? List.length rs)%nat || (r.(Hi) =? 0) then
        match flat_map range_ids rs with [] => None | ids => Some (SqlIn ids) end
      else Some (SqlBetween r.(Low) (r.(Hi) - 1))
  end.

Definition sql_holds (q : SqlRange) (z : Z) : bool :=
  match q with
  | SqlIn ids => existsb (Z.eqb z) ids
  | SqlBetween low high => (low <=? z) && (z <=? high)
  end.

(** ** Reading *)

(** The row of dellog that the left join finds for a user, if any. *)
Definition hides (db : DelDB) (topic : string) (u : Uid) (seq : Z) : bool :=
  existsb (fun l => String.eqb l.(lg_topic) topic && (l.(lg_low) <=? seq) && (seq <=? l.(lg_hi) - 1) && (l.(lg_for) =? u)%N) db.(dellog).

Definition seq_less (a b : Message) : bool := a.(m_SeqId) <? b.(m_SeqId).
Definition seq_greater (a b : Message) : bool := b.(m_SeqId) <? a.(m_SeqId).
Definition updated_less (a b : Message) : bool :=
  (a.(m_UpdatedAt) <? b.(m_UpdatedAt)) || ((a.(m_UpdatedAt) =? b.(m_UpdatedAt)) && (a.(m_SeqId) <? b.(m_SeqId))).

(** The lower end of a query by positions or deletion ids, and the upper one. *)
Definition since_of (opt : option QueryOpt) : Z := match opt with Some o => if 0 <? o.(q_Since) then o.(q_Since) else 0 | None => 0 end.
Definition before_of (opt : option QueryOpt) : Z := match opt with Some o => if 1 <? o.(q_Before) then o.(q_Before) - 1 else 2 ^ 31 - 1 | None => 2 ^ 31 - 1 end.
Definition limit_of (most : Z) (opt : option QueryOpt) : Z :=
  match opt with Some o => if (0 <? o.(q_Limit)) && (o.(q_Limit) <? most) then o.(q_Limit) else most | None => most end.

(** The positions a query asks for.  [None] is the panic of [RangesToSql]; nothing on the way checks a client's ranges. *)
Definition in_query (opt : option QueryOpt) : option (Z -> bool) :=
  match opt with
  | None => Some (fun _ => true)
  | Some o =>
      match o.(q_IdRanges) with
      | [] => Some (fun seq => (since_of opt <=? seq) && (seq <=? before_of opt))
      | rs => sql_holds <$> RangesToSql rs
      end
  end.

Definition modified_in (opt : option QueryOpt) (m : Message) : bool :=
  match opt with Some (mkOpt (Some t) _ _ _ _ _) => t <? m.(m_UpdatedAt) | _ => true end.

Definition order_of (opt : option QueryOpt) : Message -> Message -> bool :=
  match opt with
  | None => seq_greater
  | Some o => match o.(q_IfModifiedSince) with Some _ => updated_less | None => if o.(q_Forward) then seq_less else seq_greater end
  end.

Definition row_shown (db : DelDB) (topic : string) (u : Uid) (m : Message) : bool :=
  (m.(m_DelId) =? 0) && String.eqb m.(m_Topic) topic && negb (hides db topic u m.(m_SeqId)).

Section Adapter.
(** The adapter's settings. *)
Context (maxMessageResults maxResults : Z).

Definition MessageGetAll (topic : string) (forUser : Uid) (opt : option QueryOpt) (db : DelDB) : option (list Message) :=
  asked ← in_query opt;
  Some (firstn (Z.to_nat (limit_of maxMessageResults opt))
    (sort_by (order_of opt)
       (List.filter (fun m => row_shown db topic forUser m && asked m.(m_SeqId) && modified_in opt m) (map snd db.(dd_messages))))).

(** The rows of the log, by deletion id; rows of one id in the order they were written. *)
Definition log_rows (topic : string) (forUser : Uid) (opt : option QueryOpt) (db : DelDB) : list LogRow :=
  firstn (Z.to_nat (limit_of maxResults opt))
    (sort_by (fun a b => a.(lg_delid) <? b.(lg_delid))
       (List.filter (fun l => String.eqb l.(lg_topic) topic && (since_of opt <=? l.(lg_delid)) && (l.(lg_delid) <=? before_of opt) &&
                              ((l.(lg_for) =? 0)%N || (l.(lg_for) =? forUser)%N)) db.(dellog))).

Definition logged_range (l : LogRow) : Range := mkRange l.(lg_low) (if l.(lg_hi) <=? l.(lg_low) + 1 then 0 else l.(lg_hi)).

(** The loop of [MessageGetDeleted]: the finished records and the current one, as its id and ranges. *)
Fixpoint group_rows (rows : list LogRow) (done : list (Z * list Range)) (cur : Z * list Range) : list (Z * list Range) :=
  match rows with
  | [] => if 0 <? fst cur then (done ++ [cur])%list else done
  | l :: rows' =>
      let '(done, cur) :=
        if negb (l.(lg_delid) =? fst cur) then ((if 0 <? fst cur then (done ++ [cur])%list else done), (l.(lg_delid), []))
        else (done, cur) in
      group_rows rows' done (fst cur, (snd cur ++ [logged_range l])%list)
  end.

Definition MessageGetDeleted (topic : string) (forUser : Uid) (opt : option QueryOpt) (db : DelDB) : list (Z * list Range) :=
  group_rows (log_rows topic forUser opt db) [] (0, []).

(** [RangeSorter.Less] on different ranges; the order of equal ones cannot be seen. *)
Definition range_before (a b : Range) : bool := (a.(Low) <? b.(Low)) || ((a.(Low) =? b.(Low)) && (b.(Hi) <? a.(Hi))).
Definition sort_ranges (rs : list Range) : list Range := sort_by range_before rs.

(** [GetDeleted] of the store. *)
Definition GetDeleted (topic : string) (forUser : Uid) (opt : option QueryOpt) (db : DelDB) : list Range * Z :=
  let dmsgs := MessageGetDeleted topic forUser opt db in
  (Normalize (sort_ranges (flat_map snd dmsgs)), fold_left (fun maxID dm => if maxID <? fst dm then fst dm else maxID) dmsgs 0).
End Adapter.

(** ** Deleting *)

(** What UPDATE leaves of a message; the column from is 0, which is no user. *)
Definition cleared (now delID : Z) (m : Message) : Message :=
  mkMessage m.(m_SeqId) m.(m_Topic) "" m.(m_ClientId) m.(m_ClientKey) m.(m_ClusterId) m.(m_ClusterEpoch) m.(m_ClusterOwner)
    m.(m_CreatedAt) m.(m_UpdatedAt) (Some now) delID None ANil m.(m_SearchText).

Definition newer (newerThan : option Z) (m : Message) : bool := match newerThan with Some t => t <? m.(m_CreatedAt) | None => true end.

(** The positions a hard deletion finds. *)
Definition to_clear (topic : string) (q : option SqlRange) (newerThan : option Z) (db : DelDB) : list Z :=
  map m_SeqId (List.filter (fun m =>
    String.eqb m.(m_Topic) topic && match q with Some q => sql_holds q m.(m_SeqId) | None => true end &&
    match m.(m_DeletedAt) with None => true | Some _ => false end && newer newerThan m) (map snd db.(dd_messages))).

Definition log_entry (topic : string) (d : DelMessage) (r : Range) : LogRow :=
  mkLog topic d.(dm_DeletedFor) d.(dm_DelId) r.(Low) (if r.(Hi) =? 0 then r.(Low) + 1 else r.(Hi)).

(** The log rows, topics.delid and subscriptions.delid. *)
Definition log_deletion (topic : string) (d : DelMessage) (ranges : list Range) (db : DelDB) : DelDB :=
  let log := (db.(dellog) ++ map (log_entry topic d) ranges)%list in
  if 0 <? d.(dm_DelId) then
    let forUser := d.(dm_DeletedFor) in
    mkDelDB db.(dd_messages) log (alter (fun _ => d.(dm_DelId)) topic db.(dd_topics))
      (map_imap (fun k s =>
         Some (if bool_decide (fst k = topic /\ (forUser = ZeroUid \/ snd k = forUser))
               then updated_row (mkUpdate None None None (Some d.(dm_DelId)) None None None) s else s)) db.(dd_subs))
  else mkDelDB db.(dd_messages) log db.(dd_topics) db.(dd_subs).

Definition in_topic (topic : string) (q : SqlRange) (m : Message) : bool := String.eqb m.(m_Topic) topic && sql_holds q m.(m_SeqId).

(** [messageDeleteList] without driver errors.  [None] is a panic. *)
Definition messageDeleteList (now : Z) (topic : string) (toDel : option DelMessage) (db : DelDB) : option DelDB :=
  match toDel with
  | None =>
      Some (mkDelDB (List.filter (fun r => negb (String.eqb (snd r).(m_Topic) topic)) db.(dd_messages))
              (List.filter (fun l => negb (String.eqb l.(lg_topic) topic)) db.(dellog)) db.(dd_topics) db.(dd_subs))
  | Some d =>
      if (d.(dm_DeletedFor) =? 0)%N then
        q ← (match d.(dm_ranges) with [] => Some None | rs => Some <$> RangesToSql rs end);
        match to_clear topic q d.(dm_newerThan) db with
        | [] => Some db
        | seqIDs =>
            let delRanges := SliceToRanges (sort_by Z.ltb seqIDs) in
            q' ← RangesToSql delRanges;
            let messages := map (fun r => if in_topic topic q' (snd r) then (fst r, cleared now d.(dm_DelId) (snd r)) else r) db.(dd_messages) in
            Some (log_deletion topic d delRanges (mkDelDB messages db.(dellog) db.(dd_topics) db.(dd_subs)))
        end
      else Some (log_deletion topic d d.(dm_ranges) db)
  end.

(** [MessageDeleteList]: an error before the commit rolls back, one of the commit may or may not. *)
Definition MessageDeleteList (fault : option (GoError * bool)) (now : Z) (topic : string) (toDel : option DelMessage) (db : DelDB)
    : option (DelDB * option GoError) :=
  match fault with
  | Some (e, false) => Some (db, Some e)
  | Some (e, true) => db' ← messageDeleteList now topic toDel db; Some (db', Some e)
  | None => db' ← messageDeleteList now topic toDel db; Some (db', None)
  end.

(** [DeleteList] of the store, with the messages whose file grants it revokes afterwards. *)
Definition del_record (delID : Z) (forUser : Uid) (now age : Z) (ranges : list Range) : option DelMessage :=
  if 0 <? delID then Some (mkDel delID forUser ranges (if 0 <? age then Some (now - age) else None)) else None.

Definition to_revoke (topic : string) (delID : Z) (forUser : Uid) (ranges : list Range) (db : DelDB) : list Uid :=
  if IsZeroUid forUser && (0 <? delID) then
    flat_map (fun r => flat_map (fun seq =>
      match List.find (at_seq topic seq) db.(dd_messages) with
      | Some (id, _) => if IsZeroUid id then [] else [id]
      | None => []
      end) (seqZ r.(Low) (upper r - r.(Low)))) ranges
  else [].

Definition DeleteList (fault : option (GoError * bool)) (now : Z) (topic : string) (delID : Z) (forUser : Uid) (age : Z)
    (ranges : list Range) (db : DelDB) : option (DelDB * list Uid * option GoError) :=
  let ids := to_revoke topic delID forUser ranges db in
  r ← MessageDeleteList fault now topic (del_record delID forUser now age ranges) db;
  Some (fst r, match snd r with None => ids | Some _ => [] end, snd r).

(** ** What a user's history has *)

Definition shown (db : DelDB) (topic : string) (u : Uid) (seq : Z) : option Message :=
  List.find (fun m => row_shown db topic u m && (m.(m_SeqId) =? seq)) (map snd db.(dd_messages)).

Definition place (r : Uid * Message) : string * Z := ((snd r).(m_Topic), (snd r).(m_SeqId)).

(** One row per position, positions from 1, and a row without a deletion id has no deletion time. *)
Record wf_log (db : DelDB) : Prop := {
  wf_once : List.NoDup (map place db.(dd_messages));
  wf_positive : forall r, In r db.(dd_messages) -> 0 < (snd r).(m_SeqId);
  wf_kept : forall r, In r db.(dd_messages) -> (snd r).(m_DelId) = 0 -> (snd r).(m_DeletedAt) = None }.

Lemma NoDup_map_unique {A B} (f : A -> B) l x y : List.NoDup (map f l) -> In x l -> In y l -> f x = f y -> x = y.
Proof.
  induction l as [|a l IH]; [done|]. cbn. intros Hn Hx Hy E. inversion Hn as [|? ? Ha Hl]; subst.
  destruct Hx as [->|Hx], Hy as [->|Hy]; [done| | |by apply IH]; destruct Ha; [rewrite E|rewrite <- E]; by apply in_map.
Qed.

Lemma wf_unique db : wf_log db -> forall r r', In r db.(dd_messages) -> In r' db.(dd_messages) ->
  (snd r).(m_Topic) = (snd r').(m_Topic) -> (snd r).(m_SeqId) = (snd r').(m_SeqId) -> r = r'.
Proof. intros [H _ _] r r' H1 H2 E1 E2. eapply (NoDup_map_unique place); [exact H|done|done|]. unfold place. congruence. Qed.

(** What a deletion makes of what was shown at a position. *)
Definition deletes (topic : string) (forUser : Uid) (newerThan : option Z) (ranges : list Range) (t : string) (u : Uid) (m : Message) : bool :=
  String.eqb t topic && covered ranges m.(m_SeqId) && (if (forUser =? 0)%N then newer newerThan m else (u =? forUser)%N).

Definition after_delete (topic : string) (forUser : Uid) (newerThan : option Z) (ranges : list Range) (t : string) (u : Uid)
    (o : option Message) : option Message :=
  match o with Some m => if deletes topic forUser newerThan ranges t u m then None else Some m | None => None end.

(** *** Ranges *)

Lemma range_ids_covers r z : In z (range_ids r) <-> covers r z = true.
Proof.
  unfold range_ids, covers, upper. destruct (Z.eqb_spec (Hi r) 0); cbn [In].
  - split; [intros [<-|[]]; lia|intros; left; lia].
  - rewrite <- list_elem_of_In, elem_of_seqZ. lia.
Qed.

Lemma ids_covered rs z : existsb (Z.eqb z) (flat_map range_ids rs) = covered rs z.
Proof.
  apply eq_true_iff_eq. unfold covered. rewrite !existsb_exists. setoid_rewrite in_flat_map. setoid_rewrite range_ids_covers. split.
  - intros (x & (r & Hr & Hc) & <-%Z.eqb_eq). by exists r.
  - intros (r & Hr & Hc). exists z. split; [by exists r|apply Z.eqb_refl].
Qed.

Lemma RangesToSql_covered rs q z : RangesToSql rs = Some q -> sql_holds q z = covered rs z.
Proof.
  unfold RangesToSql. destruct rs as [|r rest]; [done|]. destruct (_ || _) eqn:E; intros H.
  - rewrite <- ids_covered. destruct (flat_map range_ids (r :: rest)) as [|i ids]; [done|]. by injection H as <-.
  - injection H as <-. apply orb_false_iff in E as [E1 E2]. apply Nat.ltb_ge in E1. destruct rest; [|cbn in E1; lia].
    cbn [sql_holds covered existsb]. unfold covers, upper. rewrite E2. lia.
Qed.

Definition names (r : Range) : Prop := r.(Low) < upper r.

Lemma RangesToSql_total rs : rs <> [] -> Forall names rs -> is_Some (RangesToSql rs).
Proof.
  intros Hn Hr. destruct rs as [|r rest]; [done|]. unfold RangesToSql. destruct (_ || _); [|by eexists].
  destruct (flat_map range_ids (r :: rest)) as [|i ids] eqn:E; [|by eexists].
  inversion Hr as [|? ? H1 _]; subst. assert (In (Low r) (range_ids r)) as Hin.
  { apply range_ids_covers. unfold covers, names in *. lia. }
  cbn [flat_map] in E. apply app_eq_nil in E as [E _]. rewrite E in Hin. destruct Hin.
Qed.

Lemma singles_total ids : ids <> [] -> is_Some (RangesToSql (map (fun id => mkRange id 0) ids)).
Proof.
  intros H. apply RangesToSql_total; [by destruct ids|]. apply List.Forall_forall. intros r (x & <- & _)%in_map_iff.
  unfold names, upper. cbn. lia.
Qed.

#[export] Instance z_ltb_strict : StrictTotal Z.ltb.
Proof. constructor; intros; lia. Qed.

(** *** Rows *)

Lemma shown_Some db t u q m : wf_log db ->
  shown db t u q = Some m <-> (exists id, In (id, m) db.(dd_messages)) /\ row_shown db t u m = true /\ m.(m_SeqId) = q.
Proof.
  intros Hw. unfold shown. split.
  - intros H. apply find_some in H as [Hin Hc]. apply in_map_iff in Hin as ([id m'] & Em & Hin). cbn in Em. subst m'. split; [by exists id|].
    apply andb_true_iff in Hc as [Hc Hq]. split; [done|lia].
  - intros ((id & Hin) & Hs & Hq). destruct (List.find _ _) as [m'|] eqn:E.
    + apply find_some in E as [Hin' Hc]. apply in_map_iff in Hin' as ([id' m''] & Em & Hin'). cbn in Em. subst m''.
      apply andb_true_iff in Hc as [Hc Hq']. f_equal.
      assert ((id', m') = (id, m)) as [= _ ->]; [|done]. eapply (wf_unique _ Hw); [done|done| |cbn; lia].
      unfold row_shown in *. apply andb_true_iff in Hc as [[_ H1]%andb_true_iff _], Hs as [[_ H2]%andb_true_iff _].
      apply String.eqb_eq in H1, H2. cbn. congruence.
    + eapply find_none in E; [|apply in_map_iff; by exists (id, m)]. cbn in E. rewrite Hs in E. cbn in E. lia.
Qed.

Lemma to_clear_In topic q nt db z :
  In z (to_clear topic q nt db) <->
  exists id m, In (id, m) db.(dd_messages) /\ m.(m_SeqId) = z /\ m.(m_Topic) = topic /\
    match q with Some q => sql_holds q z = true | None => True end /\ m.(m_DeletedAt) = None /\ newer nt m = true.
Proof.
  unfold to_clear. rewrite in_map_iff. setoid_rewrite filter_In. setoid_rewrite in_map_iff. split.
  - intros (m & <- & ([id m'] & Em & Hin) & H). cbn in Em. subst m'. exists id, m.
    apply andb_true_iff in H as [[[H1%String.eqb_eq H2]%andb_true_iff H3]%andb_true_iff H4].
    repeat split; try done; [by destruct q|by destruct (m_DeletedAt m)].
  - intros (id & m & Hin & <- & <- & H2 & H3 & H4). exists m. split; [done|]. split; [by exists (id, m)|].
    rewrite String.eqb_refl, H3, H4. by destruct q; rewrite ?H2.
Qed.

Lemma hides_log db topic d ranges ms t u z :
  hides (log_deletion topic d ranges (mkDelDB ms db.(dellog) db.(dd_topics) db.(dd_subs))) t u z =
  hides db t u z || (String.eqb topic t && (d.(dm_DeletedFor) =? u)%N && covered ranges z).
Proof.
  assert (forall log, existsb (fun l => String.eqb (lg_topic l) t && (lg_low l <=? z) && (z <=? lg_hi l - 1) && (lg_for l =? u)%N)
             (log ++ map (log_entry topic d) ranges)%list =
          existsb (fun l => String.eqb (lg_topic l) t && (lg_low l <=? z) && (z <=? lg_hi l - 1) && (lg_for l =? u)%N) log ||
          (String.eqb topic t && (dm_DeletedFor d =? u)%N && covered ranges z)) as E.
  { intros log. rewrite existsb_app. f_equal. induction ranges as [|r ranges IH]; [by rewrite andb_false_r|].
    cbn [map existsb covered]. fold (covered ranges z). rewrite IH. cbn [log_entry lg_topic lg_low lg_hi lg_for]. unfold covers, upper.
    destruct (String.eqb topic t), (dm_DeletedFor d =? u)%N, (Hi r =? 0), (covered ranges z); cbn; rewrite ?orb_false_r, ?andb_true_r, ?andb_false_r; try done; lia. }
  unfold hides, log_deletion. by destruct (0 <? dm_DelId d); cbn [dellog]; rewrite E.
Qed.

Lemma hides_after db topic d ranges t u z :
  hides (log_deletion topic d ranges db) t u z =
  hides db t u z || (String.eqb topic t && (d.(dm_DeletedFor) =? u)%N && covered ranges z).
Proof. rewrite <- (hides_log db topic d ranges db.(dd_messages)). by destruct db. Qed.

Lemma log_messages topic d ranges db : dd_messages (log_deletion topic d ranges db) = dd_messages db.
Proof. unfold log_deletion. by destruct (0 <? dm_DelId d). Qed.

Lemma wf_rows ms db : wf_log db -> dd_messages db = ms -> forall db', dd_messages db' = ms -> wf_log db'.
Proof. intros [H1 H2 H3] <- db' E. split; rewrite E; auto. Qed.

(** *** The two kinds of deletion *)

Lemma soft_shown topic d ranges db t u z :
  d.(dm_DeletedFor) <> 0%N ->
  shown (log_deletion topic d ranges db) t u z = after_delete topic d.(dm_DeletedFor) d.(dm_newerThan) ranges t u (shown db t u z).
Proof.
  intros Hf. unfold shown. rewrite log_messages. induction (map snd (dd_messages db)) as [|m ms IH]; [done|]. cbn [List.find].
  assert (row_shown (log_deletion topic d ranges db) t u m = row_shown db t u m && negb (deletes topic (dm_DeletedFor d) (dm_newerThan d) ranges t u m)) as E.
  { unfold row_shown, deletes. rewrite hides_after. destruct (N.eqb_spec (dm_DeletedFor d) 0); [done|]. rewrite (String.eqb_sym t topic), (N.eqb_sym u).
    generalize (hides db t u (m_SeqId m)). intros h.
    destruct (m_DelId m =? 0), (String.eqb (m_Topic m) t), h, (String.eqb topic t), (covered ranges _), (_ =? u)%N; done. }
  rewrite E. destruct (Z.eqb_spec (m_SeqId m) z) as [<-|]; [|by rewrite !andb_false_r].
  rewrite !andb_true_r. destruct (row_shown db t u m); cbn [andb]; [|exact IH].
  cbn [after_delete]. destruct (deletes _ _ _ _ _ _ m) eqn:Ed; cbn [negb]; [|done].
  rewrite IH. destruct (List.find (fun x => row_shown db t u x && _) ms) as [m'|] eqn:Ef; [|done].
  apply find_some in Ef as [_ [Hs Hq]%andb_true_iff]. apply Z.eqb_eq in Hq. cbn [after_delete]. unfold deletes in *. rewrite Hq.
  destruct (N.eqb_spec (dm_DeletedFor d) 0); [done|]. by rewrite Ed.
Qed.

Section Hard.
Context (db : DelDB) (Hw : wf_log db) (now : Z) (topic : string) (d : DelMessage) (q : option SqlRange).
Context (Hid : 0 < d.(dm_DelId)) (Hfor : d.(dm_DeletedFor) = 0%N).
Context (Hq : forall z, match q with Some q => sql_holds q z = true | None => True end <-> covered d.(dm_ranges) z = true).
Abbreviation ids := (to_clear topic q d.(dm_newerThan) db).

Lemma cleared_ids z : covered (SliceToRanges (sort_by Z.ltb ids)) z = true <-> In z ids.
Proof.
  assert (forall z, In z (sort_by Z.ltb ids) <-> In z ids) as Hs.
  { intros y. split; apply Permutation_in; [|symmetry]; apply sort_by_perm. }
  rewrite <- Hs. apply slice_to_ranges_exact. apply List.Forall_forall. intros y (i & m & Hin & <- & _)%Hs%to_clear_In.
  exact (wf_positive _ Hw _ Hin).
Qed.

Lemma ids_nonempty : ids <> [] -> is_Some (RangesToSql (SliceToRanges (sort_by Z.ltb ids))).
Proof.
  intros Hn. pose proof (slice_to_ranges_exact (sort_by Z.ltb ids)) as Hx. destruct Hx as [-> _].
  - apply List.Forall_forall. intros y Hy. apply (Permutation_in _ (sort_by_perm _ _)), to_clear_In in Hy as (i & m & Hin & <- & _).
    exact (wf_positive _ Hw _ Hin).
  - apply singles_total. intros E. apply Hn, Permutation_nil. rewrite <- E. apply sort_by_perm.
Qed.

(** A row of the topic is found exactly if it is shown to nobody, or deleted now. *)
Lemma row_cleared id m : In (id, m) db.(dd_messages) -> m.(m_Topic) = topic ->
  In m.(m_SeqId) ids <-> covered d.(dm_ranges) m.(m_SeqId) = true /\ m.(m_DeletedAt) = None /\ newer d.(dm_newerThan) m = true.
Proof.
  intros Hin Ht. rewrite to_clear_In. split.
  - intros (id' & m' & Hin' & Hs & Ht' & Hc & Hd & Hn). assert ((id', m') = (id, m)) as [= _ ->].
    { eapply (wf_unique _ Hw); [done|done|cbn; congruence|done]. } by rewrite Hq in Hc.
  - intros (Hc & Hd & Hn). exists id, m. by rewrite Hq.
Qed.

Definition clear_in (ranges : list Range) (r : Uid * Message) : Uid * Message :=
  if String.eqb (snd r).(m_Topic) topic && covered ranges (snd r).(m_SeqId) then (fst r, cleared now d.(dm_DelId) (snd r)) else r.

Lemma clear_in_key ranges r : (snd (clear_in ranges r)).(m_Topic) = (snd r).(m_Topic) /\ (snd (clear_in ranges r)).(m_SeqId) = (snd r).(m_SeqId).
Proof. unfold clear_in. by destruct (_ && _). Qed.

Lemma wf_clear ranges db' : dd_messages db' = map (clear_in ranges) (dd_messages db) -> wf_log db'.
Proof.
  intros E. split; rewrite E.
  - rewrite map_map, (map_ext _ place); [exact (wf_once _ Hw)|]. intros r. unfold place. by destruct (clear_in_key ranges r) as [-> ->].
  - intros r (a & <- & Ha)%in_map_iff. destruct (clear_in_key ranges a) as [_ ->]. by apply (wf_positive _ Hw).
  - intros r (a & <- & Ha)%in_map_iff. unfold clear_in. destruct (_ && _); cbn; [intros E0; clear - Hid E0; lia|]. by apply (wf_kept _ Hw).
Qed.

Lemma hard_shown t u z db' :
  let ranges := SliceToRanges (sort_by Z.ltb ids) in
  db' = log_deletion topic d ranges (mkDelDB (map (clear_in ranges) db.(dd_messages)) db.(dellog) db.(dd_topics) db.(dd_subs)) ->
  shown db' t u z = after_delete topic 0%N d.(dm_newerThan) d.(dm_ranges) t u (shown db t u z).
Proof.
  intros ranges ->. set (db' := log_deletion _ _ _ _). assert (dd_messages db' = map (clear_in ranges) (dd_messages db)) as Em by apply log_messages.
  pose proof (wf_clear ranges db' Em) as Hw'. apply option_eq. intros m. rewrite shown_Some by done. rewrite Em.
  assert (forall id m, In (id, m) (dd_messages db) -> row_shown db t u m = true ->
            (String.eqb m.(m_Topic) topic && covered ranges m.(m_SeqId)) = deletes topic 0%N (dm_newerThan d) (dm_ranges d) t u m) as Hdel.
  { intros id x Hin Hs. unfold row_shown in Hs. apply andb_true_iff in Hs as [[H0%Z.eqb_eq Ht%String.eqb_eq]%andb_true_iff _].
    unfold deletes. rewrite Ht. destruct (String.eqb_spec t topic) as [->|]; [|done]. cbn [andb N.eqb]. apply eq_true_iff_eq.
    rewrite andb_true_iff. unfold ranges. rewrite cleared_ids, (row_cleared id x Hin Ht). pose proof (wf_kept _ Hw _ Hin H0). tauto. }
  assert (forall x, row_shown db' t u x = true -> (String.eqb x.(m_Topic) topic && covered ranges x.(m_SeqId)) = false -> row_shown db t u x = true) as Hback.
  { intros x Hs Hc. unfold row_shown in *. unfold db' in Hs. rewrite hides_log in Hs. apply andb_true_iff in Hs as [H1 H2]. rewrite H1.
    by apply negb_true_iff, orb_false_iff in H2 as [-> _]. }
  split.
  - intros ((id & ([i0 m0] & Ei & Hin)%in_map_iff) & Hs & Hz). unfold clear_in in Ei. cbn [fst snd] in Ei. destruct (_ && covered ranges _) eqn:Ec.
    + injection Ei as _ <-. unfold row_shown in Hs. cbn [cleared m_DelId] in Hs. by replace (dm_DelId d =? 0) with false in Hs by lia.
    + injection Ei as -> ->. pose proof (Hback m Hs Ec) as Hs0. assert (shown db t u z = Some m) as -> by (apply shown_Some; [done|]; eauto).
      cbn [after_delete]. by rewrite <- (Hdel id m Hin Hs0), Ec.
  - intros H. destruct (shown db t u z) as [m0|] eqn:E0; [|done]. cbn [after_delete] in H. destruct (deletes _ _ _ _ _ _ m0) eqn:Ed; [done|].
    injection H as <-. apply shown_Some in E0 as ((id & Hin) & Hs & Hz); [|done]. rewrite <- (Hdel id m0 Hin Hs) in Ed. split; [|split; [|done]].
    + exists id. apply in_map_iff. exists (id, m0). unfold clear_in. cbn [snd]. by rewrite Ed.
    + unfold row_shown in *. apply andb_true_iff in Hs as [H1 H2]. rewrite H1. unfold db'. rewrite hides_log.
      apply negb_true_iff in H2. unfold hides in H2 |- *. cbn [dellog]. rewrite H2. cbn [orb].
      apply andb_true_iff in H1 as [_ H1%String.eqb_eq]. rewrite H1 in Ed. rewrite (String.eqb_sym topic t).
      destruct (String.eqb t topic); cbn [andb] in *; [|done]. by rewrite Ed, andb_false_r.
Qed.
End Hard.

Lemma deleted_shown now topic d db db' : wf_log db -> 0 < d.(dm_DelId) -> d.(dm_ranges) <> [] ->
  messageDeleteList now topic (Some d) db = Some db' ->
  wf_log db' /\ forall t u z, shown db' t u z = after_delete topic d.(dm_DeletedFor) d.(dm_newerThan) d.(dm_ranges) t u (shown db t u z).
Proof.
  intros Hw Hid Hne. unfold messageDeleteList. destruct (N.eqb_spec (dm_DeletedFor d) 0) as [Hf|Hf].
  2: { intros [= <-]. split; [|intros; by apply soft_shown]. eapply wf_rows; [done|done|apply log_messages]. }
  rewrite Hf. destruct (dm_ranges d) as [|r rs] eqn:Er; [done|]. rewrite <- Er. intros H. apply bind_Some in H as (q & Hq & H).
  apply fmap_Some in Hq as (q0 & Hq & ->). assert (forall z, sql_holds q0 z = true <-> covered d.(dm_ranges) z = true) as Hc.
  { intros z. by rewrite (RangesToSql_covered _ _ z Hq), Er. }
  destruct (to_clear topic (Some q0) (dm_newerThan d) db) as [|i ids] eqn:Ei.
  - injection H as <-. split; [done|]. intros t u z. destruct (shown db t u z) as [m|] eqn:Em; [|done]. cbn [after_delete].
    apply shown_Some in Em as ((id & Hin) & Hs & Hz); [|done]. destruct (deletes _ _ _ _ _ _ m) eqn:Ed; [|done].
    apply andb_true_iff in Hs as [[H0%Z.eqb_eq Ht%String.eqb_eq]%andb_true_iff _].
    apply andb_true_iff in Ed as [[Ed1%String.eqb_eq Ed2]%andb_true_iff Ed3]. cbn [N.eqb] in Ed3.
    assert (In m.(m_SeqId) (to_clear topic (Some q0) (dm_newerThan d) db)) as Hi.
    { apply to_clear_In. exists id, m. rewrite (Hc (m_SeqId m)). repeat split; try done; [congruence|]. by apply (wf_kept _ Hw _ Hin). }
    rewrite Ei in Hi. destruct Hi.
  - rewrite <- Ei in H. apply bind_Some in H as (q' & Hq' & [= <-]).
    assert (forall m, in_topic topic q' m = String.eqb m.(m_Topic) topic &&
              covered (SliceToRanges (sort_by Z.ltb (to_clear topic (Some q0) (dm_newerThan d) db))) m.(m_SeqId)) as Hin.
    { intros m. unfold in_topic. by rewrite (RangesToSql_covered _ _ _ Hq'). }
    rewrite (map_ext _ (clear_in now topic d (SliceToRanges (sort_by Z.ltb (to_clear topic (Some q0) (dm_newerThan d) db)))))
      by (intros x; unfold clear_in; by rewrite Hin).
    split; [eapply (wf_clear db Hw now topic d Hid); by rewrite log_messages|]. intros t u z.
    eapply (hard_shown db Hw now topic d (Some q0)); [done|done|exact Hc|reflexivity].
Qed.

Lemma list_deleted now topic d db : wf_log db -> 0 < d.(dm_DelId) -> d.(dm_ranges) <> [] -> Forall names d.(dm_ranges) ->
  is_Some (messageDeleteList now topic (Some d) db).
Proof.
  intros Hw Hid Hne Hr. unfold messageDeleteList. destruct (dm_DeletedFor d =? 0)%N; [|by eexists].
  destruct (dm_ranges d) as [|r rs] eqn:Er; [done|]. rewrite <- Er. destruct (RangesToSql_total (dm_ranges d)) as [q Eq]; [by rewrite Er|by rewrite Er|].
  rewrite Eq. cbn [fmap option_fmap option_map option_bind mbind].
  destruct (to_clear topic (Some q) (dm_newerThan d) db) as [|i ids] eqn:Ei; [by eexists|]. rewrite <- Ei.
  destruct (ids_nonempty db Hw topic d (Some q)) as [q' ->]; [by rewrite Ei|]. by eexists.
Qed.

Definition newer_than (now age : Z) : option Z := if 0 <? age then Some (now - age) else None.

(** A deletion in the store: all of what it says, or nothing. *)
Lemma DeleteList_shown fault now topic delID forUser age ranges db : wf_log db -> 0 < delID -> ranges <> [] -> Forall names ranges ->
  exists db' ids err, DeleteList fault now topic delID forUser age ranges db = Some (db', ids, err) /\ wf_log db' /\
  ((err <> None /\ db' = db) \/
   forall t u z, shown db' t u z = after_delete topic forUser (newer_than now age) ranges t u (shown db t u z)).
Proof.
  intros Hw Hid Hne Hr. unfold DeleteList, del_record. replace (0 <? delID) with true by lia. fold (newer_than now age).
  set (d := mkDel delID forUser ranges (newer_than now age)). destruct (list_deleted now topic d db Hw Hid Hne Hr) as [db1 E].
  destruct (deleted_shown now topic d db db1 Hw Hid Hne E) as [Hw1 Hs1]. unfold MessageDeleteList. rewrite E.
  destruct fault as [[e [|]]|]; (eexists _, _, _; split; [reflexivity|]); cbn [fst snd option_bind mbind]; split; try done; [by right|by left|by right].
Qed.

(** ** The store as the handlers see it *)

Class DelStore (St : Type) `{PubStore St} := {
  (** Messages.DeleteList at a time, Messages.GetAll, which panics if there is no list, and Messages.GetDeleted *)
  delete_list : string -> Z -> Uid -> Z -> Z -> list Range -> St -> St * option GoError;
  get_all : string -> Uid -> option QueryOpt -> St -> StoreResult St (option (list Message));
  get_deleted : string -> Uid -> option QueryOpt -> St -> StoreResult St (list Range * Z) }.

Class DelStoreLaws (St : Type) `{DelStore St} := {
  (** what a user's history of a topic has at a position, and what makes the tables whole *)
  history : St -> string -> Uid -> Z -> option Message;
  whole : St -> Prop;
  law_delete_list topic delID forUser now age ranges s :
    whole s -> 0 < delID -> ranges <> [] -> Forall names ranges ->
    let r := delete_list topic delID forUser now age ranges s in
    whole r.1 /\
    ((r.2 <> None /\ forall t u z, history r.1 t u z = history s t u z) \/
     forall t u z, history r.1 t u z = after_delete topic forUser (newer_than now age) ranges t u (history s t u z));
  law_found topic seq s :
    let r := message_get topic seq s in
    r.1 = s /\ forall o u m, whole s -> r.2 = inl o -> history s topic u seq = Some m -> exists id, o = Some (id, m);
  law_get_all topic u opt s :
    let r := get_all topic u opt s in
    r.1 = s /\ forall l, whole s -> r.2 = inl (Some l) -> Forall (fun m => history s topic u m.(m_SeqId) = Some m) l;
  law_get_deleted topic u opt s : (get_deleted topic u opt s).1 = s;
  law_aux_history topic a z s : let s' := (update_aux topic a z s).1 in (whole s -> whole s') /\ forall t u q, history s' t u q = history s t u q }.

(** ** An instance: [PubMem] with the deletion log *)

Record DelMem := mkDelMem {
  dm_pub : PubMem; dm_log : list LogRow; dm_topics : gmap string Z;
  dm_faults : list (option (GoError * bool));   (* what the next deletions run into *)
  dm_revoked : list Uid }.                      (* messages whose file grants were revoked *)

Definition on_pub {A} (f : PubMem -> PubMem * A) (s : DelMem) : DelMem * A :=
  let '(p, a) := f s.(dm_pub) in (mkDelMem p s.(dm_log) s.(dm_topics) s.(dm_faults) s.(dm_revoked), a).

#[global] Instance DelMemSubStore : SubStore DelMem := {
  subs_get t u k := on_pub (subs_get t u k);
  subs_create x := on_pub (subs_create x);
  subs_update t u x := on_pub (subs_update t u x);
  subs_delete t u := on_pub (subs_delete t u);
  users_get u := on_pub (users_get u);
  owner_change t u := on_pub (owner_change t u);
  validate_invite a b z s := validate_invite a b z s.(dm_pub);
  consume_invite a b z := on_pub (consume_invite a b z);
  refresh_policy t z := on_pub (refresh_policy t z);
  submit_join t u z := on_pub (submit_join t u z) }.

Lemma on_pub_store {A} (f : PubMem -> PubMem * A) s : (on_pub f s).1.(dm_pub) = (f s.(dm_pub)).1.
Proof. unfold on_pub. by destruct (f _). Qed.
Lemma on_pub_result {A} (f : PubMem -> PubMem * A) s : (on_pub f s).2 = (f s.(dm_pub)).2.
Proof. unfold on_pub. by destruct (f _). Qed.

#[global] Instance DelMemSubLaws : SubStoreLaws DelMem.
Proof.
  refine {| row s := row s.(dm_pub) |}; intros; unfold subs_get, subs_create, subs_update, subs_delete, users_get, owner_change,
    consume_invite, refresh_policy, submit_join, DelMemSubStore; rewrite ?on_pub_store, ?on_pub_result.
  - apply law_get.
  - apply law_create.
  - apply law_update.
  - apply law_delete.
  - apply law_users.
  - apply law_owner.
  - apply law_consume.
  - apply law_policy.
  - apply law_join.
Defined.

Section Instance.
Context (sha256 : string -> string) (maxMessageResults maxResults : Z).

#[global] Instance DelMemPubStore : PubStore DelMem :=
  let _ := PubMemStore sha256 in {|
  store_uid := on_pub store_uid;
  message_save_atomic id m := on_pub (message_save_atomic id m);
  message_get t z s := (s, (message_get t z s.(dm_pub)).2);
  message_by_client t u c := on_pub (message_by_client t u c);
  message_update m := on_pub (message_update m);
  message_schedule x := on_pub (message_schedule x);
  scheduled_by_client t u c := on_pub (scheduled_by_client t u c);
  delete_scheduled i t u := on_pub (delete_scheduled i t u);
  update_aux t a z := on_pub (update_aux t a z);
  assets_validate k l := on_pub (assets_validate k l);
  attachments_validate u l := on_pub (attachments_validate u l);
  link_attachments t u l := on_pub (link_attachments t u l);
  authorize_uids a b c d := on_pub (authorize_uids a b c d);
  archive_text m u := on_pub (archive_text m u);
  cache_get k := on_pub (cache_get k);
  cache_upsert k v d := on_pub (cache_upsert k v d);
  cache_cas k a b := on_pub (cache_cas k a b);
  cache_delete k := on_pub (cache_delete k);
  cache_list p n := on_pub (cache_list p n) |}.

Definition db_of (s : DelMem) : DelDB := mkDelDB s.(dm_pub).(pm_db).(messages) s.(dm_log) s.(dm_topics) s.(dm_pub).(pm_subs).(ms_subs).

Definition with_db (db : DelDB) (faults : list (option (GoError * bool))) (revoked : list Uid) (s : DelMem) : DelMem :=
  let p := s.(dm_pub) in
  mkDelMem (set_pm_subs (set_pm_db p (mkDB p.(pm_db).(kvmeta) p.(pm_db).(topics) db.(dd_messages)) p.(pm_faults)) (set_subs p.(pm_subs) db.(dd_subs)))
    db.(dellog) db.(dd_topics) faults revoked.

(** A panic is an error here; the handlers' calls do not panic ([DeleteList_shown]). *)
Definition mem_delete_list (topic : string) (delID : Z) (forUser : Uid) (now age : Z) (ranges : list Range) (s : DelMem)
    : DelMem * option GoError :=
  let '(fault, faults) := match s.(dm_faults) with f :: l => (f, l) | [] => (None, []) end in
  match DeleteList fault now topic delID forUser age ranges (db_of s) with
  | Some (db, ids, err) => (with_db db faults (s.(dm_revoked) ++ ids)%list s, err)
  | None => (s, Some (TextErr "panic"))
  end.

#[global] Instance DelMemStore : DelStore DelMem := {
  delete_list := mem_delete_list;
  get_all t u opt s := (s, inl (MessageGetAll maxMessageResults t u opt (db_of s)));
  get_deleted t u opt s := (s, inl (GetDeleted maxResults t u opt (db_of s))) }.

Lemma shown_In db t u q m : wf_log db -> shown db t u q = Some m -> exists id, List.find (at_seq t q) db.(dd_messages) = Some (id, m).
Proof.
  intros Hw ((id & Hin) & Hs & <-)%shown_Some; [|done]. exists id.
  apply andb_true_iff in Hs as [[H0 Ht%String.eqb_eq]%andb_true_iff _]. destruct (List.find _ _) as [r|] eqn:E.
  - apply find_some in E as [Hr H]. unfold at_seq in H. apply andb_true_iff in H as [[H1%String.eqb_eq H2%Z.eqb_eq]%andb_true_iff _].
    f_equal. apply (wf_unique _ Hw); [done|done|cbn; congruence|cbn; congruence].
  - eapply find_none in E; [|exact Hin]. unfold at_seq in E. cbn [snd] in E. by rewrite Ht, String.eqb_refl, Z.eqb_refl, H0 in E.
Qed.

Lemma In_firstn {A} n (l : list A) x : In x (firstn n l) -> In x l.
Proof. intros H. rewrite <- (firstn_skipn n l). apply in_or_app. by left. Qed.

Lemma get_all_shown t u opt db l : wf_log db -> MessageGetAll maxMessageResults t u opt db = Some l ->
  Forall (fun m => shown db t u m.(m_SeqId) = Some m) l.
Proof.
  intros Hw Hl. apply bind_Some in Hl as (asked & _ & [= <-]). apply List.Forall_forall. intros m Hm. apply In_firstn, (Permutation_in _ (sort_by_perm _ _)), filter_In in Hm as [Hin Hc].
  apply andb_true_iff in Hc as [[Hc _]%andb_true_iff _]. apply shown_Some; [done|]. split; [|done].
  apply in_map_iff in Hin as ([id m'] & Em & Hin). cbn in Em. subst m'. by exists id.
Qed.

#[global] Instance DelMemLaws : DelStoreLaws DelMem.
Proof.
  refine {| history s := shown (db_of s); whole s := wf_log (db_of s) |}.
  - intros topic delID forUser now age ranges s Hw Hid Hne Hr. cbn. unfold mem_delete_list.
    destruct (match dm_faults s with f :: l => (f, l) | [] => (None, []) end) as [fault faults].
    destruct (DeleteList_shown fault now topic delID forUser age ranges (db_of s) Hw Hid Hne Hr) as (db' & ids & err & -> & Hw' & Hs).
    assert (db_of (with_db db' faults (dm_revoked s ++ ids)%list s) = db') as E by (by destruct db'). cbn [fst snd]. rewrite E.
    split; [done|]. destruct Hs as [[He ->]|Hs]; [by left|by right].
  - intros topic seq s. cbn. split; [done|]. intros o u m Hw [= <-] Hm. destruct (shown_In _ _ _ _ _ Hw Hm) as [id E]. by exists id.
  - intros topic u opt s. cbn. split; [done|]. intros l Hw [= Hl]. by eapply get_all_shown.
  - done.
  - done.
Defined.
End Instance.
