(* ===== verification/TopicStore.v ===== *)
(** * TopicStore: the topics table

    server/store/store_topics.go over the statements of server/db/mysql/topics.go and subscriptions.go: reading, deleting and
    listing the subscriptions of a topic, and the profiles that descriptions show.  The class [TopicStore] is what the hub
    reaches; [HubMem] is an instance over [DelMem] whose deletions can fail before or after the database commits. *)

From Stdlib Require Import NArith ZArith Lia List Ascii String Bool.
From stdpp Require Import base tactics numbers list strings gmap sets.
From S2P Require Import Prelude AccessMode Uid StoreTypes Messages SubStore PubStore History.
Import Objects Ranges.

#[local] Open Scope string_scope.
#[local] Open Scope Z_scope.

(** ** The topics table *)

(** [types.Topic] as the hub reads it. *)
Record StoredDesc := mkStored {
  tp_State : Z; tp_CreatedAt : Z; tp_UpdatedAt : Z; tp_Public : Any; tp_Trusted : Any; tp_UseBt : bool; tp_SubCnt : Z;
  tp_Owner : string; tp_AccessAuth : AccessMode; tp_AccessAnon : AccessMode; tp_Aux : option (list (string * Any)) }.

(** [types.User] as descriptions read it. *)
Record StoredProfile := mkProfile {
  pf_State : Z; pf_CreatedAt : Z; pf_UpdatedAt : Z; pf_Public : Any; pf_Trusted : Any; pf_AccessAuth : AccessMode;
  pf_AccessAnon : AccessMode }.

Class TopicStore (St : Type) `{SubStore St} := {
  (** Topics.Get, Topics.Delete at a time, Topics.GetSubs of everybody or of a user, Users.Get *)
  topics_get : string -> St -> StoreResult St (option StoredDesc);
  topics_delete : string -> bool -> bool -> Z -> St -> St * option GoError;
  topics_get_subs : string -> option Uid -> St -> StoreResult St (list Subscription);
  users_profile : Uid -> St -> StoreResult St (option StoredProfile) }.

(** A row with the columns of its key. *)
Definition keyed (topic : string) (u : Uid) (s : Subscription) : Subscription :=
  mkSub (UidString u) topic s.(s_ModeWant) s.(s_ModeGiven) s.(s_Private) s.(s_DelId) s.(s_ReadSeqId) s.(s_ReadHistory)
    s.(s_RecvSeqId) s.(s_DeletedAt).

(** The names under which a topic has subscriptions. *)
Definition names_of (topic : string) (isChan : bool) : list string := if isChan then [topic; GrpToChn topic] else [topic].

Class TopicStoreLaws (St : Type) `{TopicStore St, !SubStoreLaws St} := {
  law_topics_get topic s t u : row (topics_get topic s).1 t u = row s t u;
  (** all subscriptions of the topic go, or, if the error came first, none *)
  law_topics_delete topic isChan hard now s :
    let r := topics_delete topic isChan hard now s in
    (r.2 <> None /\ forall t u, row r.1 t u = row s t u) \/
    forall t u, live (row r.1 t u) = if bool_decide (t ∈ names_of topic isChan) then None else live (row s t u);
  (** live subscriptions of the topic, of the user if one is given *)
  law_get_subs topic user s :
    let r := topics_get_subs topic user s in
    (forall t u, row r.1 t u = row s t u) /\
    forall l, r.2 = inl l -> Forall (fun x => exists u sub, live (row s topic u) = Some sub /\ x = keyed topic u sub /\
                                             match user with Some v => v = ZeroUid \/ u = v | None => True end) l;
  law_profile u s : (users_profile u s).1 = s }.

(** *** The statements of the database *)

Record TopicDB := mkTopicDB { td_topics : gmap string StoredDesc; td_tags : list (string * string); td_del : DelDB }.

Definition with_topic_state (now : Z) (state : Z) (t : StoredDesc) : StoredDesc :=
  mkStored state t.(tp_CreatedAt) now t.(tp_Public) t.(tp_Trusted) t.(tp_UseBt) t.(tp_SubCnt) t.(tp_Owner) t.(tp_AccessAuth)
    t.(tp_AccessAnon) t.(tp_Aux).

Definition with_DeletedAt (now : Z) (s : Subscription) : Subscription :=
  mkSub s.(s_User) s.(s_Topic) s.(s_ModeWant) s.(s_ModeGiven) s.(s_Private) s.(s_DelId) s.(s_ReadSeqId) s.(s_ReadHistory)
    s.(s_RecvSeqId) (Some now).

(** [TopicDelete] of the adapter, [None] being a panic of the message statements. *)
Definition TopicDelete (topic : string) (isChan hard : bool) (now : Z) (db : TopicDB) : option TopicDB :=
  let args := names_of topic isChan in
  let del := db.(td_del) in
  if hard then
    let subs := filter (fun kv : string * Uid * Subscription => fst (fst kv) ∉ args) del.(dd_subs) in
    del ← messageDeleteList now topic None (mkDelDB del.(dd_messages) del.(dellog) del.(dd_topics) subs);
    Some (mkTopicDB (delete topic db.(td_topics)) (List.filter (fun t => negb (String.eqb (fst t) topic)) db.(td_tags))
            (mkDelDB del.(dd_messages) del.(dellog) (delete topic del.(dd_topics)) del.(dd_subs)))
  else
    let subs := map_imap (fun k s => Some (if bool_decide (fst k ∈ args) then with_DeletedAt now s else s)) del.(dd_subs) in
    Some (mkTopicDB (alter (with_topic_state now StateDeleted) topic db.(td_topics)) db.(td_tags)
            (mkDelDB del.(dd_messages) del.(dellog) del.(dd_topics) subs)).

(** [SubsForTopic] without deleted rows: by user id, at most [most]. *)
Definition by_user (a b : Uid * Subscription) : bool := (fst a <? fst b)%N.
Definition SubsForTopic (most : nat) (topic : string) (user : option Uid) (subs : gmap (string * Uid) Subscription) : list Subscription :=
  let rows := omap (fun kv : string * Uid * Subscription =>
                if String.eqb (fst (fst kv)) topic && match (snd kv).(s_DeletedAt) with None => true | Some _ => false end &&
                   match user with Some u => IsZeroUid u || (snd (fst kv) =? u)%N | None => true end
                then Some (snd (fst kv), keyed topic (snd (fst kv)) (snd kv)) else None) (map_to_list subs) in
  map snd (firstn most (sort_by by_user rows)).

(** [TopicGet]: the count of a group's subscribers is brought up to date. *)
Definition live_count (topic : string) (subs : gmap (string * Uid) Subscription) : Z :=
  Z.of_nat (List.length (List.filter (fun kv : string * Uid * Subscription =>
    (String.eqb (fst (fst kv)) topic || String.eqb (fst (fst kv)) (GrpToChn topic)) &&
    match (snd kv).(s_DeletedAt) with None => true | Some _ => false end) (map_to_list subs))).

Definition with_SubCnt (n : Z) (t : StoredDesc) : StoredDesc :=
  mkStored t.(tp_State) t.(tp_CreatedAt) t.(tp_UpdatedAt) t.(tp_Public) t.(tp_Trusted) t.(tp_UseBt) n t.(tp_Owner) t.(tp_AccessAuth)
    t.(tp_AccessAnon) t.(tp_Aux).

(** A name in the table has a category. *)
Definition TopicGet (topic : string) (db : TopicDB) : TopicDB * option StoredDesc :=
  match db.(td_topics) !! topic with
  | None => (db, None)
  | Some stored =>
      if bool_decide (GetTopicCat topic = Some TopicCatGrp) then
        let stored := with_SubCnt (live_count topic db.(td_del).(dd_subs)) stored in
        (mkTopicDB (<[topic := stored]> db.(td_topics)) db.(td_tags) db.(td_del), Some stored)
      else (db, Some stored)
  end.

(** ** An instance: [DelMem] with the topics table *)

Record HubMem := mkHubMem {
  hb_del : DelMem; hb_topics : gmap string StoredDesc; hb_tags : list (string * string); hb_profiles : gmap Uid StoredProfile;
  hb_max : nat;                                  (* the adapter's limit of results *)
  hb_faults : list (option (GoError * bool)) }.  (* what the next deletions run into, before or after the commit *)

Definition on_del {A} (f : DelMem -> DelMem * A) (s : HubMem) : HubMem * A :=
  let '(d, a) := f s.(hb_del) in (mkHubMem d s.(hb_topics) s.(hb_tags) s.(hb_profiles) s.(hb_max) s.(hb_faults), a).

#[global] Instance HubMemSubStore : SubStore HubMem := {
  subs_get t u k := on_del (subs_get t u k);
  subs_create x := on_del (subs_create x);
  subs_update t u x := on_del (subs_update t u x);
  subs_delete t u := on_del (subs_delete t u);
  users_get u := on_del (users_get u);
  owner_change t u := on_del (owner_change t u);
  validate_invite a b z s := validate_invite a b z s.(hb_del);
  consume_invite a b z := on_del (consume_invite a b z);
  refresh_policy t z := on_del (refresh_policy t z);
  submit_join t u z := on_del (submit_join t u z) }.

Lemma on_del_store {A} (f : DelMem -> DelMem * A) s : (on_del f s).1.(hb_del) = (f s.(hb_del)).1.
Proof. unfold on_del. by destruct (f _). Qed.
Lemma on_del_result {A} (f : DelMem -> DelMem * A) s : (on_del f s).2 = (f s.(hb_del)).2.
Proof. unfold on_del. by destruct (f _). Qed.

#[global] Instance HubMemSubLaws : SubStoreLaws HubMem.
Proof.
  refine {| row s := row s.(hb_del) |}; intros; unfold subs_get, subs_create, subs_update, subs_delete, users_get, owner_change,
    consume_invite, refresh_policy, submit_join, HubMemSubStore; rewrite ?on_del_store, ?on_del_result.
  - apply law_get.
  - apply law_create.
  - apply law_update.
  - apply law_delete.
  - apply law_users.
  - apply law_owner.
  - apply law_consume.
  - apply law_policy.
  - apply law_join.
Defined.

Definition tdb_of (s : HubMem) : TopicDB := mkTopicDB s.(hb_topics) s.(hb_tags) (db_of s.(hb_del)).
Definition with_tdb (db : TopicDB) (faults : list (option (GoError * bool))) (s : HubMem) : HubMem :=
  let d := s.(hb_del) in
  mkHubMem (with_db db.(td_del) d.(dm_faults) d.(dm_revoked) d) db.(td_topics) db.(td_tags) s.(hb_profiles) s.(hb_max) faults.

Definition mem_topic_delete (topic : string) (isChan hard : bool) (now : Z) (s : HubMem) : HubMem * option GoError :=
  let '(fault, faults) := match s.(hb_faults) with f :: l => (f, l) | [] => (None, []) end in
  match TopicDelete topic isChan hard now (tdb_of s) with
  | None => (s, Some (TextErr "panic"))
  | Some db =>
      match fault with
      | Some (e, false) => (with_tdb (tdb_of s) faults s, Some e)
      | Some (e, true) => (with_tdb db faults s, Some e)
      | None => (with_tdb db faults s, None)
      end
  end.

#[global] Instance HubMemStore : TopicStore HubMem := {
  topics_get topic s := let '(db, o) := TopicGet topic (tdb_of s) in (with_tdb db s.(hb_faults) s, inl o);
  topics_delete := mem_topic_delete;
  topics_get_subs topic user s := (s, inl (SubsForTopic s.(hb_max) topic user s.(hb_del).(dm_pub).(pm_subs).(ms_subs)));
  users_profile u s := (s, inl (s.(hb_profiles) !! u)) }.

Lemma row_with_tdb db faults s t u : row (with_tdb db faults s) t u = db.(td_del).(dd_subs) !! (t, u).
Proof. done. Qed.

Lemma TopicDelete_rows topic isChan hard now db db' t u : TopicDelete topic isChan hard now db = Some db' ->
  live (db'.(td_del).(dd_subs) !! (t, u)) =
    if bool_decide (t ∈ names_of topic isChan) then None else live (db.(td_del).(dd_subs) !! (t, u)).
Proof.
  unfold TopicDelete. destruct hard.
  - intros (d & [= <-] & [= <-])%bind_Some. cbn [td_del dd_subs]. case_bool_decide as Ht.
    + rewrite map_lookup_filter_None_2; [done|]. right. intros x _ H. by apply H.
    + destruct (dd_subs (td_del db) !! (t, u)) as [x|] eqn:E.
      * by erewrite map_lookup_filter_Some_2.
      * rewrite map_lookup_filter_None_2; [done|]. by left.
  - intros [= <-]. cbn [td_del dd_subs]. rewrite map_lookup_imap. destruct (dd_subs (td_del db) !! (t, u)) as [x|]; cbn; by repeat case_bool_decide.
Qed.

Lemma In_omap {A B} (f : A -> option B) l y : In y (omap f l) -> exists x, In x l /\ f x = Some y.
Proof.
  induction l as [|a l IH]; [done|]. cbn. destruct (f a) as [b|] eqn:E.
  - intros [<-|H]; [by exists a; auto|]. destruct (IH H) as (x & Hx & Ex). exists x. auto.
  - intros H. destruct (IH H) as (x & Hx & Ex). exists x. auto.
Qed.

Lemma SubsForTopic_live most topic user subs :
  Forall (fun x => exists u sub, live (subs !! (topic, u)) = Some sub /\ x = keyed topic u sub /\
                                 match user with Some v => v = ZeroUid \/ u = v | None => True end) (SubsForTopic most topic user subs).
Proof.
  apply List.Forall_forall. intros x ([u y] & <- & H)%in_map_iff. apply In_firstn, (Permutation_in _ (sort_by_perm _ _)), In_omap in H.
  destruct H as ([[t v] s] & Hin & H). cbn [fst snd] in *. destruct (_ && _ && _) eqn:E; [|done]. injection H as <- <-.
  apply andb_true_iff in E as [[->%String.eqb_eq Hd]%andb_true_iff Hu]. apply list_elem_of_In, elem_of_map_to_list in Hin.
  exists v, s. split; [|split; [done|]].
  - rewrite Hin. unfold live, visible. by destruct (s_DeletedAt s).
  - destruct user as [w|]; [|done]. apply orb_true_iff in Hu as [Hu|Hu]; [left|right]; by apply N.eqb_eq.
Qed.

#[global] Instance HubMemLaws : TopicStoreLaws HubMem.
Proof.
  constructor.
  - intros topic s t u. unfold topics_get, HubMemStore. destruct (TopicGet topic (tdb_of s)) as [db o] eqn:E. cbn [fst].
    rewrite row_with_tdb. unfold TopicGet in E. destruct (_ !! topic) as [x|]; [case_bool_decide|]; by injection E as <- <-.
  - intros topic isChan hard now s. unfold topics_delete, HubMemStore, mem_topic_delete.
    destruct (match hb_faults s with f :: l => (f, l) | [] => (None, []) end) as [fault faults].
    destruct (TopicDelete topic isChan hard now (tdb_of s)) as [db|] eqn:E; [|by left].
    destruct fault as [[e [|]]|]; [right|by left|right]; intros t u; cbn [fst]; rewrite row_with_tdb; by eapply (TopicDelete_rows _ _ _ _ (tdb_of s)).
  - intros topic user s. split; [done|]. intros l [= <-]. apply SubsForTopic_live.
  - done.
Qed.
