(* ===== verification/LoadStore.v ===== *)
(** * LoadStore: what loading and creating topics asks of the store

    server/store/store_topics.go over TopicGet, TopicCreate, TopicCreateP2P, UsersForTopic (server/db/mysql/topics.go), topicCreate and
    UserGetAll (users.go).  The class [TopicLoad] is what [TopicInit] reaches beyond [SubStore] and [TopicStore]; [LoadMem] is an
    instance over [HubMem] whose writes can fail. *)

From Stdlib Require Import NArith ZArith Lia List Ascii String Bool.
From stdpp Require Import base tactics numbers list strings gmap sets.
From S2P Require Import Prelude AccessMode Uid StoreTypes Messages SubStore PubStore History TopicStore.
Import Objects Ranges.

#[local] Open Scope string_scope.
#[local] Open Scope Z_scope.

(** [types.Topic] with the columns that loading adds to [StoredDesc]. *)
Record StoredRow := mkRow { ld_desc : StoredDesc; ld_TouchedAt : Z; ld_SeqId : Z; ld_DelId : Z; ld_Tags : option (list string) }.

(** Topics.Get, adp.TopicCreate, adp.TopicCreateP2P at a time, Topics.GetUsers, Users.GetAll of two users, the Subs.Update that puts a
    subscription back, and Files.LinkAttachments of a topic. *)
Class TopicLoad (St : Type) `{SubStore St} := {
  topics_read : string -> St -> StoreResult St (option StoredRow);
  topic_create : string -> StoredRow -> St -> St * option GoError;
  topic_create_p2p : Z -> Subscription -> Subscription -> St -> St * option GoError;
  topics_get_users : string -> St -> StoreResult St (list Subscription);
  users_get_all : Uid -> Uid -> St -> StoreResult St (list (Uid * StoredProfile));
  subs_restore : string -> Uid -> AccessMode -> AccessMode -> Any -> St -> St * option GoError;
  files_link : string -> list string -> St -> St }.

(** The row [createSubscription] leaves when it does not keep private data. *)
Definition replaced_row (sub : Subscription) : Subscription := created_row None sub.

(** The update of a subscription that is put back: [deletedat] is cleared. *)
Definition restored_row (want given : AccessMode) (private : Any) (old : Subscription) : Subscription :=
  mkSub old.(s_User) old.(s_Topic) want given private old.(s_DelId) old.(s_ReadSeqId) old.(s_ReadHistory) old.(s_RecvSeqId) None.

Definition sub_key (sub : Subscription) : string * Uid := (sub.(s_Topic), ParseUid sub.(s_User)).

Class TopicLoadLaws (St : Type) `{TopicLoad St, !SubStoreLaws St} := {
  law_topics_read name s t u : row (topics_read name s).1 t u = row s t u;
  law_topic_create name r s t u : row (topic_create name r s).1 t u = row s t u;
  law_create_p2p now sub1 sub2 s t u :
    row (topic_create_p2p now sub1 sub2 s).1 t u =
      match (topic_create_p2p now sub1 sub2 s).2 with
      | Some _ => row s t u
      | None => let kept := if bool_decide ((t, u) = sub_key sub1) then Some (replaced_row sub1) else row s t u in
                if bool_decide ((t, u) = sub_key sub2) then Some (created_row kept sub2) else kept
      end;
  (** live subscriptions of the topic *)
  law_get_users name s :
    (forall t u, row (topics_get_users name s).1 t u = row s t u) /\
    forall l, (topics_get_users name s).2 = inl l ->
      Forall (fun x => exists u sub, live (row s name u) = Some sub /\ x = keyed name u sub) l;
  law_get_all u1 u2 s :
    (forall t u, row (users_get_all u1 u2 s).1 t u = row s t u) /\
    forall l, (users_get_all u1 u2 s).2 = inl l -> NoDup (map fst l) /\ Forall (fun x => x = u1 \/ x = u2) (map fst l);
  law_restore name v want given private s t u :
    row (subs_restore name v want given private s).1 t u =
      match (subs_restore name v want given private s).2 with
      | Some _ => row s t u
      | None => if bool_decide (t = name /\ (u = v \/ v = ZeroUid)) then restored_row want given private <$> row s t u else row s t u
      end;
  law_link_files name urls s t u : row (files_link name urls s) t u = row s t u }.

(** The listing of a topic's subscriptions is complete up to the adapter's limit of results: one that it leaves out is left out
    because it lists as many others as it may. *)
Class CompleteListing (St : Type) `{TopicStore St, !SubStoreLaws St, !TopicLoad St} := {
  list_limit : St -> nat;
  law_limit_read name s : list_limit (topics_read name s).1 = list_limit s;
  law_listing name s l u sub :
    (topics_get_subs name None s).2 = inl l -> live (row s name u) = Some sub ->
    In (keyed name u sub) l \/
    exists us, NoDup us /\ List.length us = list_limit s /\
      forall v, In v us -> exists x, live (row s name v) = Some x /\ In (keyed name v x) l }.

(** *** The statements of the database *)

Abbreviation Rows := (gmap (string * Uid) Subscription) (only parsing).

(** [createSubscription] *)
Definition createSubscription (undelete : bool) (sub : Subscription) (subs : Rows) : Rows :=
  <[sub_key sub := if undelete then created_row (subs !! sub_key sub) sub else replaced_row sub]> subs.

(** [TopicCreateP2P] but for the row of the topic. *)
Definition createP2P (initiator invited : Subscription) (subs : Rows) : Rows :=
  createSubscription true invited (createSubscription false initiator subs).

(** The [Subs.Update] with a nil [DeletedAt]. *)
Definition restoreSubscription (name : string) (v : Uid) (want given : AccessMode) (private : Any) (subs : Rows) : Rows :=
  map_imap (fun k s => Some (if bool_decide (k.1 = name /\ (k.2 = v \/ v = ZeroUid)) then restored_row want given private s else s)) subs.

(** [UserGetAll] of two users: each once, by id, deleted ones and the zero id left out. *)
Definition UserGetAll (u1 u2 : Uid) (users : gmap Uid StoredProfile) : list (Uid * StoredProfile) :=
  let ids := if (u1 =? u2)%N then [u1] else if (u1 <? u2)%N then [u1; u2] else [u2; u1] in
  omap (fun u => p ← users !! u; if IsZeroUid u || (p.(pf_State) =? StateDeleted) then None else Some (u, p)) ids.

(** [UsersForTopic] of a conversation: both rows are read, then the deleted ones left out; none of a user that is gone. *)
Definition UsersForTopic (most : nat) (name : string) (users : gmap Uid StoredProfile) (subs : Rows) : list Subscription :=
  let rows := omap (fun kv : string * Uid * Subscription =>
                if String.eqb (fst (fst kv)) name && match users !! snd (fst kv) with Some p => negb (p.(pf_State) =? StateDeleted) | None => false end
                then Some (snd (fst kv), keyed name (snd (fst kv)) (snd kv)) else None) (map_to_list subs) in
  List.filter (fun s => match s.(s_DeletedAt) with None => true | Some _ => false end) (map snd (firstn most (sort_by by_user rows))).

(** ** An instance: [HubMem] with the other columns *)

Record LoadMem := mkLoadMem {
  lm_hub : HubMem;
  lm_rest : gmap string (Z * Z * Z * option (list string));   (* touched, last position, last deletion, tags *)
  lm_grants : list (string * string);
  lm_faults : list bool }.                                    (* whether the next writes of topics fail *)

Definition on_hub {A} (f : HubMem -> HubMem * A) (s : LoadMem) : LoadMem * A :=
  let '(h, a) := f s.(lm_hub) in (mkLoadMem h s.(lm_rest) s.(lm_grants) s.(lm_faults), a).

#[global] Instance LoadMemSubStore : SubStore LoadMem := {
  subs_get t u k := on_hub (subs_get t u k);
  subs_create x := on_hub (subs_create x);
  subs_update t u x := on_hub (subs_update t u x);
  subs_delete t u := on_hub (subs_delete t u);
  users_get u := on_hub (users_get u);
  owner_change t u := on_hub (owner_change t u);
  validate_invite a b z s := validate_invite a b z s.(lm_hub);
  consume_invite a b z := on_hub (consume_invite a b z);
  refresh_policy t z := on_hub (refresh_policy t z);
  submit_join t u z := on_hub (submit_join t u z) }.

Lemma on_hub_store {A} (f : HubMem -> HubMem * A) s : (on_hub f s).1.(lm_hub) = (f s.(lm_hub)).1.
Proof. unfold on_hub. by destruct (f _). Qed.
Lemma on_hub_result {A} (f : HubMem -> HubMem * A) s : (on_hub f s).2 = (f s.(lm_hub)).2.
Proof. unfold on_hub. by destruct (f _). Qed.

#[global] Instance LoadMemSubLaws : SubStoreLaws LoadMem.
Proof.
  refine {| row s := row s.(lm_hub) |}; intros; unfold subs_get, subs_create, subs_update, subs_delete, users_get, owner_change,
    consume_invite, refresh_policy, submit_join, LoadMemSubStore; rewrite ?on_hub_store, ?on_hub_result.
  - apply law_get.
  - apply law_create.
  - apply law_update.
  - apply law_delete.
  - apply law_users.
  - apply law_owner.
  - apply law_consume.
  - apply law_policy.
  - apply law_join.
Defined.

Lemma on_hub_row {A} (f : HubMem -> HubMem * A) s t u : row (on_hub f s).1 t u = row (f s.(lm_hub)).1 t u.
Proof. unfold on_hub. by destruct (f _). Qed.

#[global] Instance LoadMemTopics : TopicStore LoadMem := {
  topics_get t := on_hub (topics_get t);
  topics_delete t isChan hard now := on_hub (topics_delete t isChan hard now);
  topics_get_subs t user := on_hub (topics_get_subs t user);
  users_profile u := on_hub (users_profile u) }.

#[global] Instance LoadMemTopicLaws : TopicStoreLaws LoadMem.
Proof.
  constructor.
  - intros topic s t u. exact (eq_trans (on_hub_row _ _ _ _) (law_topics_get topic _ t u)).
  - intros topic isChan hard now s. destruct (law_topics_delete topic isChan hard now s.(lm_hub)) as [[H1 H2]|H2]; [left; split|right].
    + intros E. apply H1. rewrite <- E. symmetry. apply on_hub_result.
    + intros t u. exact (eq_trans (on_hub_row _ _ _ _) (H2 t u)).
    + intros t u. exact (eq_trans (f_equal live (on_hub_row _ _ _ _)) (H2 t u)).
  - intros topic user s. destruct (law_get_subs topic user s.(lm_hub)) as [H1 H2]. split.
    + intros t u. exact (eq_trans (on_hub_row _ _ _ _) (H1 t u)).
    + intros l E. apply H2. rewrite <- E. symmetry. apply on_hub_result.
  - intros u s. unfold users_profile, LoadMemTopics, on_hub. pose proof (law_profile u s.(lm_hub)) as H.
    destruct (users_profile u (lm_hub s)) as [h a]. cbn in *. subst h. by destruct s.
Qed.

Definition rows_of (s : LoadMem) : Rows := s.(lm_hub).(hb_del).(dm_pub).(pm_subs).(ms_subs).
Definition with_rows (f : Rows -> Rows) (s : LoadMem) : LoadMem :=
  let db := tdb_of s.(lm_hub) in
  let del := db.(td_del) in
  mkLoadMem (with_tdb (mkTopicDB db.(td_topics) db.(td_tags) (mkDelDB del.(dd_messages) del.(dellog) del.(dd_topics) (f del.(dd_subs))))
               s.(lm_hub).(hb_faults) s.(lm_hub)) s.(lm_rest) s.(lm_grants) s.(lm_faults).
Definition with_topic (name : string) (r : StoredRow) (s : LoadMem) : LoadMem :=
  let h := s.(lm_hub) in
  mkLoadMem (mkHubMem h.(hb_del) (<[name := r.(ld_desc)]> h.(hb_topics))
               (map (fun tag => (name, tag)) (default [] r.(ld_Tags)) ++ h.(hb_tags))%list h.(hb_profiles) h.(hb_max) h.(hb_faults))
    (<[name := (r.(ld_TouchedAt), r.(ld_SeqId), r.(ld_DelId), r.(ld_Tags))]> s.(lm_rest)) s.(lm_grants) s.(lm_faults).

Definition load_guarded (w : LoadMem -> LoadMem * option GoError) (s : LoadMem) : LoadMem * option GoError :=
  let '(fault, faults) := match s.(lm_faults) with f :: l => (f, l) | [] => (false, []) end in
  let s := mkLoadMem s.(lm_hub) s.(lm_rest) s.(lm_grants) faults in
  if fault : bool then (s, Some (TextErr "connection lost")) else w s.

(** [topicCreate]: the name is the table's key. *)
Definition mem_topic_create (name : string) (r : StoredRow) (s : LoadMem) : LoadMem * option GoError :=
  match s.(lm_hub).(hb_topics) !! name with
  | Some _ => (s, Some (TextErr "duplicate"))
  | None => (with_topic name r s, None)
  end.

Definition p2p_row (now : Z) : StoredRow := mkRow (mkStored 0 now now ANil ANil false 0 "" 0 0 None) now 0 0 None.

Definition mem_create_p2p (now : Z) (sub1 sub2 : Subscription) (s : LoadMem) : LoadMem * option GoError :=
  match mem_topic_create sub1.(s_Topic) (p2p_row now) s with
  | (s', None) => (with_rows (createP2P sub1 sub2) s', None)
  | (_, Some e) => (s, Some e)
  end.

#[global] Instance LoadMemLoad : TopicLoad LoadMem := {
  topics_read name s :=
    let '(s, d) := topics_get name s in
    (s, match d with
        | inl (Some d) => let '(touched, seq, del, tags) := default (0, 0, 0, None) (s.(lm_rest) !! name) in inl (Some (mkRow d touched seq del tags))
        | inl None => inl None
        | inr e => inr e
        end);
  topic_create name r := load_guarded (mem_topic_create name r);
  topic_create_p2p now sub1 sub2 := load_guarded (mem_create_p2p now sub1 sub2);
  topics_get_users name s := (s, inl (UsersForTopic s.(lm_hub).(hb_max) name s.(lm_hub).(hb_profiles) (rows_of s)));
  users_get_all u1 u2 s := (s, inl (UserGetAll u1 u2 s.(lm_hub).(hb_profiles)));
  subs_restore name v want given private := load_guarded (fun s => (with_rows (restoreSubscription name v want given private) s, None));
  files_link name urls s :=
    mkLoadMem s.(lm_hub) s.(lm_rest) (map (fun url => (url, name)) urls ++ s.(lm_grants))%list s.(lm_faults) }.

Lemma row_with_rows f s t u : row (with_rows f s) t u = f (rows_of s) !! (t, u).
Proof. done. Qed.
Lemma load_guarded_cases w s :
  (exists s', (forall t u, row s' t u = row s t u) /\ load_guarded w s = (s', Some (TextErr "connection lost"))) \/
  exists s', rows_of s' = rows_of s /\ s'.(lm_hub) = s.(lm_hub) /\ load_guarded w s = w s'.
Proof.
  unfold load_guarded. destruct (match lm_faults s with f :: l => (f, l) | [] => (false, []) end) as [[|] faults];
    [left|right]; eexists; (split; [|done || (split; [|done])]); done.
Qed.

Lemma createSubscription_lookup (undelete : bool) (sub : Subscription) (subs : Rows) k :
  createSubscription undelete sub subs !! k =
    if bool_decide (k = sub_key sub) then Some (if undelete then created_row (subs !! k) sub else replaced_row sub) else subs !! k.
Proof. unfold createSubscription. case_bool_decide as E; [subst k; by rewrite lookup_insert_eq|by rewrite lookup_insert_ne]. Qed.
Lemma createP2P_lookup (sub1 sub2 : Subscription) (subs : Rows) k :
  createP2P sub1 sub2 subs !! k =
    let kept := if bool_decide (k = sub_key sub1) then Some (replaced_row sub1) else subs !! k in
    if bool_decide (k = sub_key sub2) then Some (created_row kept sub2) else kept.
Proof. unfold createP2P. by rewrite !createSubscription_lookup. Qed.

Lemma UserGetAll_ids u1 u2 users : NoDup (map fst (UserGetAll u1 u2 users)) /\ Forall (fun x => x = u1 \/ x = u2) (map fst (UserGetAll u1 u2 users)).
Proof.
  unfold UserGetAll. set (f := fun u : Uid => _).
  assert (forall ids, map fst (omap f ids) `sublist_of` ids) as Hsub.
  { induction ids as [|u ids IH]; [constructor|]. cbn. unfold f at 1. destruct (users !! u) as [p|]; cbn; [|by constructor].
    destruct (_ || _); [by constructor|]. cbn. by constructor. }
  split.
  - eapply sublist_NoDup; [|apply Hsub]. destruct (N.eqb_spec u1 u2) as [->|Hn]; [apply NoDup_singleton|].
    destruct (u1 <? u2)%N; apply NoDup_cons; (split; [|apply NoDup_singleton]); rewrite list_elem_of_singleton; congruence.
  - apply Forall_forall. intros x Hx. eapply elem_of_sublist in Hx; [|apply Hsub].
    destruct (u1 =? u2)%N, (u1 <? u2)%N; rewrite ?elem_of_cons, ?elem_of_nil in Hx; intuition.
Qed.

Lemma UsersForTopic_live most name users subs :
  Forall (fun x => exists u sub, live (subs !! (name, u)) = Some sub /\ x = keyed name u sub) (UsersForTopic most name users subs).
Proof.
  apply List.Forall_forall. intros x [([u y] & <- & H)%in_map_iff Hd]%List.filter_In. apply In_firstn, (Permutation_in _ (sort_by_perm _ _)), In_omap in H.
  destruct H as ([[t v] s] & Hin & H). cbn [fst snd] in *. destruct (_ && _) eqn:E; [|done]. injection H as <- <-.
  apply andb_true_iff in E as [->%String.eqb_eq _]. apply list_elem_of_In, elem_of_map_to_list in Hin. exists v, s. split; [|done].
  rewrite Hin. unfold live, visible. cbn in Hd. by destruct (s_DeletedAt s).
Qed.

#[global] Instance LoadMemLaws : TopicLoadLaws LoadMem.
Proof.
  constructor.
  - intros name s t u. unfold topics_read, LoadMemLoad. pose proof (law_topics_get name s t u) as H.
    destruct (topics_get name s) as [s' d]. exact H.
  - intros name r s t u. unfold topic_create, LoadMemLoad. destruct (load_guarded_cases (mem_topic_create name r) s) as [(s' & H & ->)|(s' & H & H' & ->)]; [done|].
    unfold mem_topic_create. destruct (_ !! name); [change (rows_of s' !! (t, u) = rows_of s !! (t, u))|change (rows_of s' !! (t, u) = rows_of s !! (t, u))]; by rewrite H.
  - intros now sub1 sub2 s t u. unfold topic_create_p2p, LoadMemLoad.
    destruct (load_guarded_cases (mem_create_p2p now sub1 sub2) s) as [(s' & H & ->)|(s' & H & H' & ->)]; [done|].
    unfold mem_create_p2p, mem_topic_create. destruct (_ !! _) as [d|]; cbn [fst snd].
    + change (rows_of s' !! (t, u) = rows_of s !! (t, u)). by rewrite H.
    + rewrite row_with_rows. change (rows_of (with_topic _ _ s')) with (rows_of s'). by rewrite H, createP2P_lookup.
  - intros name s. split; [done|]. intros l [= <-]. apply UsersForTopic_live.
  - intros u1 u2 s. split; [done|]. intros l [= <-]. apply UserGetAll_ids.
  - intros name v want given private s t u. unfold subs_restore, LoadMemLoad.
    destruct (load_guarded_cases (fun s => (with_rows (restoreSubscription name v want given private) s, None)) s) as [(s' & H & ->)|(s' & H & H' & ->)]; [done|].
    cbn [fst snd]. rewrite row_with_rows, H. unfold restoreSubscription. rewrite map_lookup_imap. change (row s t u) with (rows_of s !! (t, u)).
    destruct (rows_of s !! (t, u)); cbn; [|by case_bool_decide]. by case_bool_decide.
  - done.
Qed.

(** What [SubsForTopic] of everybody chooses from. *)
Definition live_rows (name : string) (subs : Rows) : list (Uid * Subscription) :=
  omap (fun kv : string * Uid * Subscription =>
    if String.eqb (fst (fst kv)) name && match (snd kv).(s_DeletedAt) with None => true | Some _ => false end && true
    then Some (snd (fst kv), keyed name (snd (fst kv)) (snd kv)) else None) (map_to_list subs).

Lemma SubsForTopic_complete (most : nat) (name : string) (subs : Rows) (u : Uid) (sub : Subscription) :
  live (subs !! (name, u)) = Some sub ->
  In (keyed name u sub) (SubsForTopic most name None subs) \/
  exists us, NoDup us /\ List.length us = most /\
    forall v, In v us -> exists x, live (subs !! (name, v)) = Some x /\ In (keyed name v x) (SubsForTopic most name None subs).
Proof.
  intros Hl. set (rows := live_rows name subs). change (SubsForTopic most name None subs) with (map snd (firstn most (sort_by by_user rows))).
  assert (forall v y, In (v, y) rows <-> exists x, live (subs !! (name, v)) = Some x /\ y = keyed name v x) as Hrows.
  { intros v y. unfold rows, live_rows. split.
    - intros ([[t w] s] & Hin & H)%In_omap. cbn [fst snd] in H. rewrite andb_true_r in H. destruct (_ && _) eqn:E; [|done]. injection H as <- <-.
      apply andb_true_iff in E as [->%String.eqb_eq Hd]. apply list_elem_of_In, elem_of_map_to_list in Hin. exists s. split; [|done].
      rewrite Hin. unfold live, visible. by destruct (s_DeletedAt s).
    - intros (x & Hx & ->). apply list_elem_of_In. apply list_elem_of_omap. destruct (subs !! (name, v)) as [s|] eqn:E; [|done].
      exists ((name, v), s). split; [by apply elem_of_map_to_list|]. cbn [fst snd]. rewrite String.eqb_refl, andb_true_r.
      unfold live, visible in Hx. destruct (s_DeletedAt s) eqn:Ed; [done|]. injection Hx as ->. done. }
  assert (NoDup (map fst rows)) as Hn.
  { unfold rows, live_rows. pose proof (NoDup_fst_map_to_list subs) as Hm. revert Hm. generalize (map_to_list subs). intros l.
    induction l as [|[[t w] s] l IH]; [constructor|]. cbn [fmap list_fmap fst]. intros [Hw Hm]%NoDup_cons. cbn [omap list_omap fst snd].
    destruct (String.eqb_spec t name) as [->|]; cbn [andb]; [|by apply IH]. destruct (match s_DeletedAt s with None => true | _ => false end); cbn [andb]; [|by apply IH].
    cbn [map fst]. constructor; [|by apply IH]. intros Hin. apply Hw. apply list_elem_of_In, in_map_iff in Hin as ([w' y] & Ew & Hin). cbn in Ew. subst w'.
    apply In_omap in Hin as ([[t' w'] s'] & Hin & H). cbn [fst snd] in H. destruct (_ && _) eqn:E; [|done]. injection H as -> _.
    apply andb_true_iff in E as [[->%String.eqb_eq _]%andb_true_iff _]. apply list_elem_of_fmap. exists (name, w, s'). split; [done|].
    by apply list_elem_of_In. }
  assert (In (u, keyed name u sub) (sort_by by_user rows)) as Hin.
  { apply (Permutation_in _ (Permutation_sym (sort_by_perm _ _))), Hrows. by exists sub. }
  rewrite <- (firstn_skipn most (sort_by by_user rows)) in Hin. apply in_app_iff in Hin as [Hin|Hin]; [left; by apply (in_map snd) in Hin|right].
  exists (map fst (firstn most (sort_by by_user rows))). split; [|split].
  - assert (NoDup (map fst (sort_by by_user rows))) as Hs by (by rewrite (Permutation_map fst (sort_by_perm by_user rows))).
    rewrite <- (firstn_skipn most (sort_by by_user rows)), map_app in Hs. by apply NoDup_app in Hs as [Hs _].
  - rewrite length_map, length_firstn. apply Nat.min_l. destruct (Nat.le_gt_cases most (List.length (sort_by by_user rows))) as [|Hlt]; [done|].
    rewrite skipn_all2 in Hin by lia. done.
  - intros v ([w y] & <- & Hv)%in_map_iff. cbn [fst]. pose proof (In_firstn _ _ _ Hv) as Hr. apply (Permutation_in _ (sort_by_perm _ _)), Hrows in Hr as (x & Hx & ->).
    exists x. split; [done|]. by apply (in_map snd) in Hv.
Qed.

#[global] Instance LoadMemListing : CompleteListing LoadMem.
Proof.
  refine {| list_limit s := s.(lm_hub).(hb_max) |}.
  - intros name s. unfold topics_read, LoadMemLoad, topics_get, LoadMemTopics, on_hub, topics_get, HubMemStore.
    destruct (TopicGet name _) as [db o]. cbn. by destruct o.
  - intros name s l u sub. unfold topics_get_subs, LoadMemTopics, on_hub, topics_get_subs, HubMemStore. cbn [snd]. intros [= <-]. apply SubsForTopic_complete.
Defined.
