(* ===== verification/Topic.v ===== *)
(** * Topic: the state of a topic and its basic operations

    internal/server/topic.go, the subscriber cache of official_topics.go,
    session references, and the notification decisions of topic_pres.go.  A
    handler is a computation [M A] over a [World]: the topic, the store and the
    calls it has made to sessions and other components ([Effect], oldest last).
    It returns a value, a Go error or panics; what it changed before an error
    stays changed.  A pointer to a session is its session id. *)

From Stdlib Require Import NArith ZArith Lia List Ascii String Bool.
From stdpp Require Import base tactics numbers list strings gmap sets.
From S2P Require Import Prelude AccessMode Uid StoreTypes Messages SubStore.
Import Objects.

#[local] Open Scope string_scope.
#[local] Open Scope N_scope.

(** ** State *)

Record perUserData := mkPud {
  online : Z; recvID : Z; readID : Z; readHistory : list ReadHistory.ReadCheckpoint; delID : Z; private : Any;
  modeWant : AccessMode; modeGiven : AccessMode;
  topicName : string; deleted : bool; pud_isChan : bool }.

(** Go's zero value, which reading an absent map key gives. *)
Definition pud0 : perUserData := mkPud 0 0 0 [] 0 ANil 0 0 "" false false.

Inductive Proto := ProtoClient | ProtoProxy | ProtoMultiplex.

#[warnings="-register-all"]
Inductive Session :=
| mkSession (sid : string) (sess_uid : Uid) (proto : Proto) (background : bool) (multi : option Session).

Definition sid (s : Session) : string := match s with mkSession x _ _ _ _ => x end.
Definition sess_uid (s : Session) : Uid := match s with mkSession _ x _ _ _ => x end.
Definition proto (s : Session) : Proto := match s with mkSession _ _ x _ _ => x end.
Definition background (s : Session) : bool := match s with mkSession _ _ _ x _ => x end.
Definition multi (s : Session) : option Session := match s with mkSession _ _ _ _ x => x end.

Definition isMultiplex (s : Session) : bool := match proto s with ProtoMultiplex => true | _ => false end.
Definition isProxy (s : Session) : bool := match proto s with ProtoProxy => true | _ => false end.
Definition isCluster (s : Session) : bool := isProxy s || isMultiplex s.

Record perSessionData := mkPsd { ps_uid : Uid; isChanSub : bool; muids : list Uid }.

(** official_topics.go: the sanction in force against a member; [None] is no expiry. *)
Record officialModerationState := mkModeration {
  mo_Action : string; mo_Scope : string; mo_StartsAt : Z; mo_ExpiresAt : option Z }.

(** What a user's own topic knows of a contact, by the contact's name. *)
Record perSubsData := mkPerSubs { ps_online : bool; ps_enabled : bool }.

(** calls.go, calls_agora.go: a session in a call with its media uid and whether it may publish,
    and a call. *)
Record callPartyData := mkParty {
  cp_uid : Uid; isOriginator : bool; cp_sess : option Session; cp_agora : option (Z * bool) }.
Record videoCall := mkCall {
  parties : gmap string callPartyData; call_seq : Z; call_content : Any; contentMime : Any;
  acceptedAt : option Z; provider : string; call_channel : string;
  originatorUid : Uid; originatorSess : option Session }.

Record Topic := mkTopic {
  t_name : string; xoriginal : string; t_cat : TopicCat; t_isChan : bool;
  owner : Uid; accessAuth : AccessMode; accessAnon : AccessMode;
  lastID : Z; subCnt : Z; status : N; userAgent : string;
  official : option officialTopicPolicy; officialRefreshedAt : Z;
  perUser : gmap Uid perUserData;
  modeWantUnion : AccessMode; modeGivenUnion : AccessMode;
  t_sessions : gmap string (Session * perSessionData);
  officialMemberRefreshed : gmap Uid Z;
  touched : Z; t_delID : Z; aux : option (list (string * Any));
  moderationCache : gmap Uid (option officialModerationState * Z);
  perSubs : gmap string perSubsData; t_isProxy : bool; currentCall : option videoCall }.

(** ** Calls to other components *)

Record MsgAccessMode := mkAcs { am_Want : string; am_Given : string; am_Mode : string; am_Role : string }.

Inductive Reply :=
| ErrPermissionDeniedReply | ErrMalformedReply | ErrUnknownReply | ErrUserNotFoundReply
| ErrPolicyReply | ErrNotFoundReply | ErrLockedReply | ErrServiceUnavailableReply
| InfoNoActionReply | InfoNotModifiedReply | NoErrParamsReply (acs : MsgAccessMode) (user : option string)
| InfoUseOtherReply (other : string) | NoErrReply
| NoErrSub (topic : string) (acs : option MsgAccessMode) (tmpname : option string)
| NoErrAccepted (topic status : string) | NoErrEvicted (topic : string) (uid : Uid) (unsub : bool)
| CtrlReply (c : MsgServerCtrl) | MetaDelReply (topic : string) (delId : Z) (delSeq : list (Z * Z)).

Record presParams := mkPresParams {
  pp_target : string; pp_actor : string; pp_dWant : string; pp_dGiven : string;
  pp_seqID : Z; pp_delID : Z; pp_delSeq : list (Z * Z); pp_userAgent : string }.
Definition mkParams (target actor dWant dGiven : string) : presParams := mkPresParams target actor dWant dGiven 0 0 [] "".
Record presFilters := mkFilters { filterIn : AccessMode; filterOut : AccessMode; singleUser : string; excludeUser : string }.
Definition nilPresParams : presParams := mkParams "" "" "" "".
Definition nilPresFilters : presFilters := mkFilters 0 0 "" "".

Inductive PlgAction := plgActCreate | plgActUpd | plgActDel.

Inductive Effect :=
| QueueOut (sid : string) (r : Reply)
| DetachSession (sid topic : string)
| AddSub (sid topic : string)
| DelSub (sid topic : string)
| UsersUpdateUnread (uid : Uid) (unread : Z)
| UsersRegisterUser (uid : Uid) (add : bool)
| PluginSubscription (sub : Subscription) (act : PlgAction)
| ChannelSub (uid : Uid) (channel : string) (unsub : bool)
| PushForP2PSub (from to : Uid) (want given : AccessMode)
| PresSubsOnline (what src : string) (p : presParams) (f : presFilters) (skip : string)
| PresSubsOnlineDirect (what : string) (p : presParams) (f : presFilters) (skip : string)
| PresSubsOffline (what : string) (p : presParams) (fsrc ftgt : presFilters) (skip : string) (offlineOnly : bool)
| PresSingleUserOffline (uid : Uid) (mode : AccessMode) (what : string) (p : presParams) (skip : string) (offlineOnly : bool)
| PresSingleUserOfflineOffline (uid : Uid) (original what : string) (p : presParams) (skip : string)
| PresUsersOfInterest (what ua : string)
| HubUnreg (topic : string)
| SessionUpdate (ua : string)
| UpdateLastSeen (uid : Uid) (ua : string)
| FndRemovePublic (sid : string)
| PushForGroupSub (from : Uid)
| LoadContacts (uid : Uid)
| SendTo (sid : string) (m : ServerComMessage)
| SendBatch (sid : string) (ms : list ServerComMessage)
| RouteSrv (m : ServerComMessage)
| InfoSubsOffline (from : Uid) (what : string) (seq : Z) (skip : string)
| PluginMessage (d : MsgServerData) (act : PlgAction)
| SendPush (r : Receipt)
| RouteUserReq (r : Receipt)
| ResetKillTimer
| CallTimer (running : bool)
| Logout (sid : string).

(** ** Handlers *)

Record World (St : Type) := mkWorld { w_topic : Topic; w_store : St; w_out : list Effect }.
Arguments mkWorld {St}. Arguments w_topic {St}. Arguments w_store {St}. Arguments w_out {St}.

Inductive Res (A : Type) := Ret (a : A) | Err (e : GoError) | Panic (msg : string).
Arguments Ret {A}. Arguments Err {A}. Arguments Panic {A}.

Section Handlers.
Context {St : Type} `{Store : SubStore St}.

Definition M (A : Type) : Type := World St -> World St * Res A.

Definition ret {A} (a : A) : M A := fun w => (w, Ret a).
Definition fail {A} (e : GoError) : M A := fun w => (w, Err e).
Definition panic {A} (msg : string) : M A := fun w => (w, Panic msg).
Definition bind {A B} (m : M A) (k : A -> M B) : M B := fun w =>
  match m w with
  | (w', Ret a) => k a w'
  | (w', Err e) => (w', Err e)
  | (w', Panic p) => (w', Panic p)
  end.

Definition get_topic : M Topic := fun w => (w, Ret w.(w_topic)).
Definition set_topic (t : Topic) : M unit := fun w => (mkWorld t w.(w_store) w.(w_out), Ret tt).
Definition emit (e : Effect) : M unit := fun w => (mkWorld w.(w_topic) w.(w_store) (e :: w.(w_out)), Ret tt).

(** A store call whose error the caller inspects. *)
Definition call {A} (f : St -> St * A) : M A := fun w =>
  let '(s, r) := f w.(w_store) in (mkWorld w.(w_topic) s w.(w_out), Ret r).
End Handlers.

Notation "x <-- m ;; k" := (bind m (fun x => k)) (at level 100, m at next level, right associativity) : go_scope.
Notation "m ;;; k" := (bind m (fun _ => k)) (at level 100, right associativity) : go_scope.

(** ** Field updates *)

Definition set_perUser (t : Topic) (m : gmap Uid perUserData) : Topic :=
  mkTopic t.(t_name) t.(xoriginal) t.(t_cat) t.(t_isChan) t.(owner) t.(accessAuth) t.(accessAnon) t.(lastID)
    t.(subCnt) t.(status) t.(userAgent) t.(official) t.(officialRefreshedAt) m t.(modeWantUnion) t.(modeGivenUnion)
    t.(t_sessions) t.(officialMemberRefreshed) t.(touched) t.(t_delID) t.(aux) t.(moderationCache) t.(perSubs)
    t.(t_isProxy) t.(currentCall).
Definition set_sessions (t : Topic) (m : gmap string (Session * perSessionData)) : Topic :=
  mkTopic t.(t_name) t.(xoriginal) t.(t_cat) t.(t_isChan) t.(owner) t.(accessAuth) t.(accessAnon) t.(lastID)
    t.(subCnt) t.(status) t.(userAgent) t.(official) t.(officialRefreshedAt) t.(perUser) t.(modeWantUnion)
    t.(modeGivenUnion) m t.(officialMemberRefreshed) t.(touched) t.(t_delID) t.(aux) t.(moderationCache) t.(perSubs)
    t.(t_isProxy) t.(currentCall).
Definition set_unions (t : Topic) (want given : AccessMode) : Topic :=
  mkTopic t.(t_name) t.(xoriginal) t.(t_cat) t.(t_isChan) t.(owner) t.(accessAuth) t.(accessAnon) t.(lastID)
    t.(subCnt) t.(status) t.(userAgent) t.(official) t.(officialRefreshedAt) t.(perUser) want given t.(t_sessions)
    t.(officialMemberRefreshed) t.(touched) t.(t_delID) t.(aux) t.(moderationCache) t.(perSubs) t.(t_isProxy)
    t.(currentCall).
Definition set_owner (t : Topic) (u : Uid) : Topic :=
  mkTopic t.(t_name) t.(xoriginal) t.(t_cat) t.(t_isChan) u t.(accessAuth) t.(accessAnon) t.(lastID) t.(subCnt)
    t.(status) t.(userAgent) t.(official) t.(officialRefreshedAt) t.(perUser) t.(modeWantUnion) t.(modeGivenUnion)
    t.(t_sessions) t.(officialMemberRefreshed) t.(touched) t.(t_delID) t.(aux) t.(moderationCache) t.(perSubs)
    t.(t_isProxy) t.(currentCall).
Definition set_subCnt (t : Topic) (n : Z) : Topic :=
  mkTopic t.(t_name) t.(xoriginal) t.(t_cat) t.(t_isChan) t.(owner) t.(accessAuth) t.(accessAnon) t.(lastID) n
    t.(status) t.(userAgent) t.(official) t.(officialRefreshedAt) t.(perUser) t.(modeWantUnion) t.(modeGivenUnion)
    t.(t_sessions) t.(officialMemberRefreshed) t.(touched) t.(t_delID) t.(aux) t.(moderationCache) t.(perSubs)
    t.(t_isProxy) t.(currentCall).
Definition set_status (t : Topic) (s : N) : Topic :=
  mkTopic t.(t_name) t.(xoriginal) t.(t_cat) t.(t_isChan) t.(owner) t.(accessAuth) t.(accessAnon) t.(lastID)
    t.(subCnt) s t.(userAgent) t.(official) t.(officialRefreshedAt) t.(perUser) t.(modeWantUnion) t.(modeGivenUnion)
    t.(t_sessions) t.(officialMemberRefreshed) t.(touched) t.(t_delID) t.(aux) t.(moderationCache) t.(perSubs)
    t.(t_isProxy) t.(currentCall).
Definition set_official (t : Topic) (p : option officialTopicPolicy) (at_ : Z) : Topic :=
  mkTopic t.(t_name) t.(xoriginal) t.(t_cat) t.(t_isChan) t.(owner) t.(accessAuth) t.(accessAnon) t.(lastID)
    t.(subCnt) t.(status) t.(userAgent) p at_ t.(perUser) t.(modeWantUnion) t.(modeGivenUnion) t.(t_sessions)
    t.(officialMemberRefreshed) t.(touched) t.(t_delID) t.(aux) t.(moderationCache) t.(perSubs) t.(t_isProxy)
    t.(currentCall).
Definition set_refreshed (t : Topic) (m : gmap Uid Z) : Topic :=
  mkTopic t.(t_name) t.(xoriginal) t.(t_cat) t.(t_isChan) t.(owner) t.(accessAuth) t.(accessAnon) t.(lastID)
    t.(subCnt) t.(status) t.(userAgent) t.(official) t.(officialRefreshedAt) t.(perUser) t.(modeWantUnion)
    t.(modeGivenUnion) t.(t_sessions) m t.(touched) t.(t_delID) t.(aux) t.(moderationCache) t.(perSubs) t.(t_isProxy)
    t.(currentCall).
Definition set_lastID (t : Topic) (id at_ : Z) : Topic :=
  mkTopic t.(t_name) t.(xoriginal) t.(t_cat) t.(t_isChan) t.(owner) t.(accessAuth) t.(accessAnon) id t.(subCnt)
    t.(status) t.(userAgent) t.(official) t.(officialRefreshedAt) t.(perUser) t.(modeWantUnion) t.(modeGivenUnion)
    t.(t_sessions) t.(officialMemberRefreshed) at_ t.(t_delID) t.(aux) t.(moderationCache) t.(perSubs) t.(t_isProxy)
    t.(currentCall).
Definition set_delID (t : Topic) (id : Z) : Topic :=
  mkTopic t.(t_name) t.(xoriginal) t.(t_cat) t.(t_isChan) t.(owner) t.(accessAuth) t.(accessAnon) t.(lastID)
    t.(subCnt) t.(status) t.(userAgent) t.(official) t.(officialRefreshedAt) t.(perUser) t.(modeWantUnion)
    t.(modeGivenUnion) t.(t_sessions) t.(officialMemberRefreshed) t.(touched) id t.(aux) t.(moderationCache)
    t.(perSubs) t.(t_isProxy) t.(currentCall).
Definition set_aux (t : Topic) (m : option (list (string * Any))) : Topic :=
  mkTopic t.(t_name) t.(xoriginal) t.(t_cat) t.(t_isChan) t.(owner) t.(accessAuth) t.(accessAnon) t.(lastID)
    t.(subCnt) t.(status) t.(userAgent) t.(official) t.(officialRefreshedAt) t.(perUser) t.(modeWantUnion)
    t.(modeGivenUnion) t.(t_sessions) t.(officialMemberRefreshed) t.(touched) t.(t_delID) m t.(moderationCache)
    t.(perSubs) t.(t_isProxy) t.(currentCall).
Definition set_moderation (t : Topic) (m : gmap Uid (option officialModerationState * Z)) : Topic :=
  mkTopic t.(t_name) t.(xoriginal) t.(t_cat) t.(t_isChan) t.(owner) t.(accessAuth) t.(accessAnon) t.(lastID)
    t.(subCnt) t.(status) t.(userAgent) t.(official) t.(officialRefreshedAt) t.(perUser) t.(modeWantUnion)
    t.(modeGivenUnion) t.(t_sessions) t.(officialMemberRefreshed) t.(touched) t.(t_delID) t.(aux) m t.(perSubs)
    t.(t_isProxy) t.(currentCall).
Definition set_perSubs (t : Topic) (m : gmap string perSubsData) : Topic :=
  mkTopic t.(t_name) t.(xoriginal) t.(t_cat) t.(t_isChan) t.(owner) t.(accessAuth) t.(accessAnon) t.(lastID)
    t.(subCnt) t.(status) t.(userAgent) t.(official) t.(officialRefreshedAt) t.(perUser) t.(modeWantUnion)
    t.(modeGivenUnion) t.(t_sessions) t.(officialMemberRefreshed) t.(touched) t.(t_delID) t.(aux) t.(moderationCache)
    m t.(t_isProxy) t.(currentCall).
Definition set_call (t : Topic) (c : option videoCall) : Topic :=
  mkTopic t.(t_name) t.(xoriginal) t.(t_cat) t.(t_isChan) t.(owner) t.(accessAuth) t.(accessAnon) t.(lastID)
    t.(subCnt) t.(status) t.(userAgent) t.(official) t.(officialRefreshedAt) t.(perUser) t.(modeWantUnion)
    t.(modeGivenUnion) t.(t_sessions) t.(officialMemberRefreshed) t.(touched) t.(t_delID) t.(aux) t.(moderationCache)
    t.(perSubs) t.(t_isProxy) c.

Definition with_modes (p : perUserData) (want given : AccessMode) : perUserData :=
  mkPud p.(online) p.(recvID) p.(readID) p.(readHistory) p.(delID) p.(private) want given p.(topicName) p.(deleted) p.(pud_isChan).
Definition with_online (p : perUserData) (n : Z) : perUserData :=
  mkPud n p.(recvID) p.(readID) p.(readHistory) p.(delID) p.(private) p.(modeWant) p.(modeGiven) p.(topicName) p.(deleted) p.(pud_isChan).
Definition with_private (p : perUserData) (v : Any) : perUserData :=
  mkPud p.(online) p.(recvID) p.(readID) p.(readHistory) p.(delID) v p.(modeWant) p.(modeGiven) p.(topicName) p.(deleted) p.(pud_isChan).
Definition with_deleted (p : perUserData) (b : bool) : perUserData :=
  mkPud p.(online) p.(recvID) p.(readID) p.(readHistory) p.(delID) p.(private) p.(modeWant) p.(modeGiven) p.(topicName) b p.(pud_isChan).
Definition with_isChan (p : perUserData) (b : bool) : perUserData :=
  mkPud p.(online) p.(recvID) p.(readID) p.(readHistory) p.(delID) p.(private) p.(modeWant) p.(modeGiven) p.(topicName) p.(deleted) b.
Definition with_cleared_ids (p : perUserData) : perUserData :=
  mkPud p.(online) 0 0 p.(readHistory) 0 p.(private) p.(modeWant) p.(modeGiven) p.(topicName) p.(deleted) p.(pud_isChan).

Definition put_user (t : Topic) (u : Uid) (p : perUserData) : Topic := set_perUser t (<[u := p]> t.(perUser)).
Definition del_user (t : Topic) (u : Uid) : Topic := set_perUser t (delete u t.(perUser)).

(** [t.perUser[uid]] *)
Definition user (t : Topic) (u : Uid) : perUserData := default pud0 (t.(perUser) !! u).

(** ** Status *)

Definition topicStatusLoaded : N := 0x1.
Definition topicStatusPaused : N := 0x2.
Definition topicStatusMarkedDeleted : N := 0x10.
Definition topicStatusReadOnly : N := 0x20.

Definition statusChangeBits (t : Topic) (bits : N) (set : bool) : Topic :=
  set_status t (if set then t.(status) |. bits else t.(status) &^ bits).

Definition markLoaded (t : Topic) : Topic := statusChangeBits t topicStatusLoaded true.
Definition markPaused (t : Topic) (pause : bool) : Topic := statusChangeBits t topicStatusPaused pause.
Definition markDeleted (t : Topic) : Topic := statusChangeBits t topicStatusMarkedDeleted true.
Definition markReadOnly (t : Topic) (readOnly : bool) : Topic := statusChangeBits t topicStatusReadOnly readOnly.
Definition isInactive (t : Topic) : bool :=
  negb (t.(status) &. (topicStatusPaused |. topicStatusMarkedDeleted) =? 0).
Definition isReadOnly (t : Topic) : bool := negb (t.(status) &. topicStatusReadOnly =? 0).
Definition isLoaded (t : Topic) : bool := negb (t.(status) &. topicStatusLoaded =? 0).
Definition isDeleted (t : Topic) : bool := negb (t.(status) &. topicStatusMarkedDeleted =? 0).

(** ** Names, counts and access *)

Definition cat_eqb (a b : TopicCat) : bool := bool_decide (a = b).

(** [original]: [None] is the panic of a p2p topic for a user it does not have. *)
Definition original (t : Topic) (uid : Uid) : option string :=
  if cat_eqb t.(t_cat) TopicCatP2P then topicName <$> t.(perUser) !! uid
  else if cat_eqb t.(t_cat) TopicCatGrp && t.(t_isChan) && (user t uid).(pud_isChan)
  then Some (GrpToChn t.(xoriginal))
  else Some t.(xoriginal).

(** [p2pOtherUser]: the first other user in the map's iteration order. *)
Definition p2pOtherUser (t : Topic) (uid : Uid) : option Uid :=
  if cat_eqb t.(t_cat) TopicCatP2P
  then fst <$> List.find (fun kv => negb (Compare (fst kv) uid =? 0)%Z) (map_to_list t.(perUser))
  else None.

Definition subsCount (t : Topic) : Z :=
  if cat_eqb t.(t_cat) TopicCatP2P
  then Z.of_nat (List.length (List.filter (fun kv => negb (snd kv).(deleted)) (map_to_list t.(perUser))))
  else Z.of_nat (size t.(perUser)).

Definition computePerUserAcsUnion (t : Topic) : Topic :=
  let add f acc (kv : Uid * perUserData) := if (snd kv).(pud_isChan) then acc else acc |. f (snd kv) in
  let wantUnion := fold_left (add modeWant) (map_to_list t.(perUser)) ModeNone in
  let givenUnion := fold_left (add modeGiven) (map_to_list t.(perUser)) ModeNone in
  if t.(t_isChan) then set_unions t (wantUnion |. ModeCChnReader) (givenUnion |. ModeCChnReader)
  else set_unions t wantUnion givenUnion.

Definition getPerUserAcs (t : Topic) (uid : Uid) : AccessMode * AccessMode :=
  if IsZeroUid uid then (t.(modeWantUnion), t.(modeGivenUnion))
  else ((user t uid).(modeWant), (user t uid).(modeGiven)).

Definition userIsReader (t : Topic) (uid : Uid) : bool :=
  let '(want, given) := getPerUserAcs t uid in IsReader (given &. want).

(** [MsgServerPres]: the fields of the filter. *)
Definition passesPresenceFilters (t : Topic) (what : string) (fin fout : AccessMode) (uid : Uid) : bool :=
  let '(want, given) := getPerUserAcs t uid in
  let mode := given &. want in
  (IsPresencer mode || String.eqb what "gone" || String.eqb what "acs") &&
  ((fin =? 0) || negb (mode &. fin =? 0)) &&
  ((fout =? 0) || (mode &. fout =? 0)).

Definition verifyChannelAccess (t : Topic) (asTopic : string) : bool * option GoError :=
  if negb (IsChannel asTopic) then (false, None)
  else if t.(t_isChan) then (true, None)
  else (false, Some (StoreErr ErrNotFound)).

(** [topicNameForUser]: [None] is the panic of [GetTopicCat]. *)
Definition topicNameForUser (name : string) (uid : Uid) (isChan : bool) : option string :=
  match GetTopicCat name with
  | None => None
  | Some TopicCatMe => Some "me"
  | Some TopicCatFnd => Some "fnd"
  | Some TopicCatP2P => Some (P2PNameForUser uid name).1
  | Some TopicCatGrp => Some (if isChan then GrpToChn name else name)
  | Some _ => Some name
  end.

(** auth.Level *)
Definition LevelNone : Z := 0.
Definition LevelAnon : Z := 10.
Definition LevelAuth : Z := 20.
Definition LevelRoot : Z := 30.

Definition selectAccessMode (authLvl : Z) (anonMode authMode rootMode : AccessMode) : AccessMode :=
  if (authLvl =? LevelNone)%Z then ModeNone
  else if (authLvl =? LevelAnon)%Z then anonMode
  else if (authLvl =? LevelAuth)%Z then authMode
  else if (authLvl =? LevelRoot)%Z then rootMode
  else ModeNone.

Section Globals.
(** [globals.typesModeCP2P] and [globals.maxSubscriberCount]. *)
Context (typesModeCP2P : AccessMode) (maxSubscriberCount : Z).

(** [getDefaultAccess]: [None] is the panic for the sys category. *)
Definition getDefaultAccess (cat : TopicCat) (authUser isChan : bool) : option AccessMode :=
  if negb authUser then Some ModeNone
  else match cat with
       | TopicCatP2P => Some typesModeCP2P
       | TopicCatFnd => Some ModeNone
       | TopicCatGrp => Some (if isChan then ModeCChnWriter else ModeCPublic)
       | TopicCatMe => Some ModeCMeFnd
       | TopicCatSlf => Some ModeCSelf
       | TopicCatSys => None
       end.

(** The arguments of [selectAccessMode] are evaluated first: a panic there is a panic here. *)
Definition accessFor (t : Topic) (authLvl : Z) : option AccessMode :=
  selectAccessMode authLvl t.(accessAnon) t.(accessAuth) <$> getDefaultAccess t.(t_cat) true false.
End Globals.

(** ** Official topics *)

Definition isOfficialTopic (t : Topic) : bool :=
  match t.(official) with Some p => p.(Official) | None => false end.

Definition isOfficialLargeGroup (t : Topic) : bool :=
  match t.(official) with
  | Some p => p.(Official) && String.eqb p.(ScaleClass) "large" && negb t.(t_isChan)
  | None => false
  end.

Definition pushTopicSubUnsub (t : Topic) (uid : Uid) (sub : bool) : list Effect :=
  if t.(t_isChan) then [ChannelSub uid (GrpToChn t.(t_name)) (negb sub)]
  else if isOfficialLargeGroup t then [ChannelSub uid t.(t_name) (negb sub)]
  else [].

(** [cacheSubscriber] *)
Definition cacheSubscriber (t : Topic) (sub : Subscription) : Topic :=
  let uid := ParseUid sub.(s_User) in
  if IsZeroUid uid then t
  else
    let t := put_user t uid (mkPud 0 sub.(s_RecvSeqId) sub.(s_ReadSeqId) sub.(s_ReadHistory) sub.(s_DelId) sub.(s_Private)
                               sub.(s_ModeWant) sub.(s_ModeGiven) "" false false) in
    if IsOwner (sub.(s_ModeGiven) &. sub.(s_ModeWant)) then set_owner t uid else t.

(** ** Sessions of a topic *)

(** The session the topic keeps for [sess]: its multiplexer if it has one. *)
Definition attached (sess : Session) : Session := match multi sess with Some m => m | None => sess end.

Definition addSession (t : Topic) (sess : Session) (asUid : Uid) (isChan : bool) : Topic :=
  let s := attached sess in
  match t.(t_sessions) !! sid s with
  | Some (s0, pssd) =>
      if isMultiplex s && negb (background sess)
      then set_sessions t (<[sid s := (s0, mkPsd pssd.(ps_uid) pssd.(isChanSub) (pssd.(muids) ++ [asUid])%list)]> t.(t_sessions))
      else t
  | None =>
      let pssd :=
        if isMultiplex s then
          if background sess then mkPsd 0 false [] else mkPsd 0 isChan [asUid]
        else mkPsd asUid isChan [] in
      set_sessions t (<[sid s := (s, pssd)]> t.(t_sessions))
  end.

(** Removes the first occurrence of [u], putting the last element in its place. *)
Fixpoint index_of (u : Uid) (l : list Uid) : option nat :=
  match l with
  | [] => None
  | x :: l' => if x =? u then Some 0%nat else S <$> index_of u l'
  end.
Definition swap_remove (l : list Uid) (i : nat) : list Uid :=
  List.firstn (List.length l - 1) (<[i := List.last l 0]> l).

Definition remSession (t : Topic) (sess : Session) (asUid : Uid) : Topic * option perSessionData * bool :=
  let s := attached sess in
  match t.(t_sessions) !! sid s with
  | None => (t, None, false)
  | Some (s0, pssd) =>
      if (pssd.(ps_uid) =? asUid) || IsZeroUid asUid
      then (set_sessions t (delete (sid s) t.(t_sessions)), Some pssd, true)
      else match index_of asUid pssd.(muids) with
           | None => (t, None, false)
           | Some i =>
               let pssd := mkPsd pssd.(ps_uid) pssd.(isChanSub) (swap_remove pssd.(muids) i) in
               match pssd.(muids) with
               | [] => (set_sessions t (delete (sid s) t.(t_sessions)), Some pssd, true)
               | _ => (set_sessions t (<[sid s := (s0, pssd)]> t.(t_sessions)), Some pssd, false)
               end
           end
  end.

(** ** Handler steps shared by the subscription handlers *)

Section Steps.
Context {St : Type} `{Store : SubStore St}.

Definition lift_option {A} (msg : string) (o : option A) : M (St := St) A :=
  match o with Some a => ret a | None => panic msg end.

Fixpoint emit_all (es : list Effect) : M (St := St) unit :=
  match es with [] => ret tt | e :: es' => emit e ;;; emit_all es' end.

Definition modify (f : Topic -> Topic) : M (St := St) unit := t <-- get_topic ;; set_topic (f t).

Definition queueOut (sess : Session) (r : Reply) : M (St := St) unit := emit (QueueOut (sid sess) r).

(** [sess.queueOut(reply); return errors.New(msg)] *)
Definition reject {A} (sess : Session) (r : Reply) (e : GoError) : M (St := St) A :=
  queueOut sess r ;;; fail e.

(** A store operation whose error is reported to the client and returned. *)
Definition store_or {A} (sess : Session) (r : Reply) (f : St -> St * (A + GoError)) : M (St := St) A :=
  x <-- call f ;;
  match x with inl a => ret a | inr e => reject sess r e end.

Definition exec_or (sess : Session) (r : Reply) (f : St -> St * option GoError) : M (St := St) unit :=
  x <-- call f ;;
  match x with None => ret tt | Some e => reject sess r e end.

(** A store operation whose error is returned without a reply. *)
Definition exec_quiet (f : St -> St * option GoError) : M (St := St) unit :=
  x <-- call f ;;
  match x with None => ret tt | Some e => fail e end.

(** [delta_text]: the change of one mode as [notifySubChange] reports it. *)
Definition delta_text (old new : AccessMode) : string :=
  if IsDefined new then
    if IsDefined old && negb (IsZero old) then Delta old new else ModeString new
  else ModeString ModeNone.

Definition notifySubChange (uid actor : Uid) (isChan : bool)
    (oldWant oldGiven newWant newGiven : AccessMode) (skip : string) : M (St := St) unit :=
  t <-- get_topic ;;
  let unsub := (newWant =? ModeUnset) || (newGiven =? ModeUnset) in
  let target := UserId uid in
  let params := mkParams target (UserId actor) (delta_text oldWant newWant) (delta_text oldGiven newGiven) in
  let filterSharers := mkFilters ModeCSharer 0 "" target in
  emit (PresSubsOnline "acs" target params filterSharers skip) ;;;
  (if BetterThan newWant newGiven || (oldWant =? ModeNone)
   then emit (PresSubsOffline "acs" params filterSharers filterSharers skip true) else ret tt) ;;;
  if unsub then
    if cat_eqb t.(t_cat) TopicCatP2P then
      uid2 <-- lift_option "Not a valid P2P topic" (p2pOtherUser t uid) ;;
      emit (PresSingleUserOffline uid (newWant &. newGiven) "gone" nilPresParams skip false) ;;;
      emit (PresSingleUserOfflineOffline uid2 target "off" nilPresParams "")
    else if cat_eqb t.(t_cat) TopicCatGrp && negb isChan then
      emit (PresSubsOnline "off" (UserId uid) nilPresParams filterSharers skip) ;;;
      emit (PresSingleUserOfflineOffline uid t.(t_name) "gone" nilPresParams skip)
    else ret tt
  else
    (if negb (IsPresencer (newWant &. newGiven)) && IsPresencer (oldWant &. oldGiven) then
       source <-- (if cat_eqb t.(t_cat) TopicCatP2P
                   then uid2 <-- lift_option "Not a valid P2P topic" (p2pOtherUser t uid) ;; ret (UserId uid2)
                   else ret (if cat_eqb t.(t_cat) TopicCatGrp && negb isChan then t.(t_name) else "")) ;;
       if String.eqb source "" then ret tt
       else emit (PresSingleUserOfflineOffline uid source "off+dis" nilPresParams "")
     else if IsPresencer (newWant &. newGiven) && negb (IsPresencer (oldWant &. oldGiven)) then
       if cat_eqb t.(t_cat) TopicCatGrp && negb isChan
       then emit (PresSingleUserOffline uid (newWant &. newGiven) "?unkn+en" nilPresParams "" false)
       else if cat_eqb t.(t_cat) TopicCatMe then emit (PresUsersOfInterest "on+en" t.(userAgent))
       else ret tt
     else ret tt) ;;;
    emit (PresSubsOnlineDirect "acs" params (mkFilters 0 0 target "") skip) ;;;
    emit (PresSingleUserOffline uid (newWant &. newGiven) "acs" params skip true).

(** The loop of [evictUser] over the sessions. *)
Fixpoint evict_sessions (uid : Uid) (skip : string) (r : Reply) (ss : list (string * (Session * perSessionData)))
    : M (St := St) unit :=
  match ss with
  | [] => ret tt
  | (_, (s, _)) :: ss' =>
      t <-- get_topic ;;
      match remSession t s uid with
      | (_, None, _) => evict_sessions uid skip r ss'
      | (t', Some _, removed) =>
          set_topic t' ;;;
          (if removed : bool then emit (DetachSession (sid s) t.(t_name)) else ret tt) ;;;
          (if String.eqb (sid s) skip then ret tt else emit (QueueOut (sid s) r)) ;;;
          evict_sessions uid skip r ss'
      end
  end.

Definition evictUser (uid : Uid) (unsub : bool) (skip : string) : M (St := St) unit :=
  t <-- get_topic ;;
  let pud := user t uid in
  let ok := bool_decide (is_Some (t.(perUser) !! uid)) in
  orig <-- lift_option "Invalid P2P topic" (original t uid) ;;
  (if unsub then
     if cat_eqb t.(t_cat) TopicCatP2P then set_topic (put_user t uid (with_deleted (with_online pud 0) true))
     else if ok then
       set_topic (computePerUserAcsUnion (del_user t uid)) ;;;
       (if pud.(pud_isChan) then ret tt else emit (UsersRegisterUser uid false))
     else ret tt
   else if ok then
     if pud.(pud_isChan) then set_topic (del_user t uid)
     else set_topic (put_user t uid (with_online pud 0))
   else ret tt) ;;;
  evict_sessions uid skip (NoErrEvicted orig uid unsub) (map_to_list t.(t_sessions)).

Definition evictColdSubscriber (uid : Uid) : M (St := St) unit :=
  t <-- get_topic ;;
  if negb (isOfficialLargeGroup t) || IsZeroUid uid then ret tt
  else
    match t.(perUser) !! uid with
    | None => ret tt
    | Some pud =>
        if (0 <? pud.(online))%Z then ret tt
        else
          let mode := pud.(modeWant) &. pud.(modeGiven) in
          if IsOwner mode || IsAdmin mode then ret tt
          else
            set_topic (computePerUserAcsUnion
              (set_refreshed (del_user t uid) (delete uid t.(officialMemberRefreshed)))) ;;;
            emit (UsersRegisterUser uid false)
    end.

(** [loadSubscriber]: whether the user has a live subscription; caches the stored one. *)
Definition loadSubscriber (now : Z) (uid : Uid) : M (St := St) bool :=
  t <-- get_topic ;;
  let cached := match t.(perUser) !! uid with Some pud => negb pud.(deleted) | None => false end in
  if IsZeroUid uid then ret false
  else if cached then ret true
  else
    sub <-- call (subs_get t.(t_name) uid false) ;;
    match sub with
    | inr e => fail e
    | inl None => ret false
    | inl (Some s) =>
        let t := cacheSubscriber t s in
        set_topic (if isOfficialLargeGroup t then set_refreshed t (<[uid := now]> t.(officialMemberRefreshed)) else t) ;;;
        ret true
    end.
End Steps.

(** ** Reasoning about handlers

    [frame R m]: every run of [m] relates its worlds by [R].  [err_frame R m]: a
    run that ends in an error does.  [no_err m]: no run ends in an error.  The
    rules are hints of the base [handlers]. *)

Section Frames.
Context {St : Type} `{Store : SubStore St}.
Implicit Types R : World St -> World St -> Prop.

Definition frame R {A} (m : M (St := St) A) : Prop := forall w, R w (m w).1.
Definition err_frame R {A} (m : M (St := St) A) : Prop := forall w w' e, m w = (w', Err e) -> R w w'.
Definition no_err {A} (m : M (St := St) A) : Prop := forall w w' e, m w <> (w', Err e).

Lemma bind_ret_inv {A B} (m : M (St := St) A) (k : A -> M B) w w' b :
  bind m k w = (w', Ret b) -> exists w1 a, m w = (w1, Ret a) /\ k a w1 = (w', Ret b).
Proof. unfold bind. destruct (m w) as [w1 [a|e|p]]; [eauto|done|done]. Qed.

Lemma bind_err_inv {A B} (m : M (St := St) A) (k : A -> M B) w w' e :
  bind m k w = (w', Err e) ->
  m w = (w', Err e) \/ exists w1 a, m w = (w1, Ret a) /\ k a w1 = (w', Err e).
Proof. unfold bind. destruct (m w) as [w1 [a|e'|p]]; [eauto|intros [= -> ->]; auto|done]. Qed.

Context (R : World St -> World St -> Prop) `{!PreOrder R}.

Lemma frame_bind {A B} (m : M (St := St) A) (k : A -> M B) :
  frame R m -> (forall a, frame R (k a)) -> frame R (bind m k).
Proof.
  intros Hm Hk w. specialize (Hm w). unfold bind. destruct (m w) as [w1 [a|e|p]]; simpl in *; [|done|done].
  etransitivity; [exact Hm|apply Hk].
Qed.

Lemma frame_ret {A} (a : A) : frame R (ret a).
Proof. intros w. reflexivity. Qed.

Lemma frame_fail {A} e : frame R (fail (A := A) e).
Proof. intros w. reflexivity. Qed.

Lemma frame_panic {A} p : frame R (panic (A := A) p).
Proof. intros w. reflexivity. Qed.

Lemma frame_get_topic : frame R get_topic.
Proof. intros w. reflexivity. Qed.

Lemma frame_lift_option {A} msg (o : option A) : frame R (lift_option msg o).
Proof. intros w. destruct o; reflexivity. Qed.

Lemma err_frame_bind {A B} (m : M (St := St) A) (k : A -> M B) :
  frame R m -> (forall a, err_frame R (k a)) -> err_frame R (bind m k).
Proof.
  intros Hm Hk w w' e H. specialize (Hm w). apply bind_err_inv in H as [H|(w1 & a & H & Hk')].
  - by rewrite H in Hm.
  - rewrite H in Hm. etransitivity; [exact Hm|by eapply Hk].
Qed.

Lemma err_frame_last {A B} (m : M (St := St) A) (k : A -> M B) :
  err_frame R m -> (forall a, no_err (k a)) -> err_frame R (bind m k).
Proof.
  intros Hm Hk w w' e H. apply bind_err_inv in H as [H|(w1 & a & H & Hk')]; [by eapply Hm|].
  by apply Hk in Hk'.
Qed.

Lemma err_frame_frame {A} (m : M (St := St) A) : frame R m -> err_frame R m.
Proof. intros Hm w w' e H. specialize (Hm w). by rewrite H in Hm. Qed.

Lemma err_frame_no_err {A} (m : M (St := St) A) : no_err m -> err_frame R m.
Proof. intros Hm w w' e H. by apply Hm in H. Qed.

Lemma no_err_bind {A B} (m : M (St := St) A) (k : A -> M B) :
  no_err m -> (forall a, no_err (k a)) -> no_err (bind m k).
Proof.
  intros Hm Hk w w' e H. apply bind_err_inv in H as [H|(w1 & a & _ & H)]; [by apply Hm in H|by apply Hk in H].
Qed.

Lemma no_err_ret {A} (a : A) : no_err (ret (St := St) a).
Proof. by intros w w' e. Qed.
Lemma no_err_emit x : no_err (emit (St := St) x).
Proof. by intros w w' e. Qed.
Lemma no_err_get_topic : no_err (get_topic (St := St)).
Proof. by intros w w' e. Qed.
Lemma no_err_set_topic t : no_err (set_topic (St := St) t).
Proof. by intros w w' e. Qed.
Lemma no_err_panic {A} p : no_err (panic (St := St) (A := A) p).
Proof. by intros w w' e. Qed.
Lemma no_err_call {A} (f : St -> St * A) : no_err (call f).
Proof. intros w w' e. unfold call. by destruct (f _). Qed.
Lemma no_err_modify f : no_err (modify (St := St) f).
Proof. by intros w w' e. Qed.
Lemma no_err_lift_option {A} msg (o : option A) : no_err (lift_option (St := St) msg o).
Proof. intros w w' e. by destruct o. Qed.
End Frames.

Create HintDb handlers.

#[export] Hint Resolve frame_bind frame_ret frame_fail frame_panic frame_get_topic frame_lift_option
  no_err_bind no_err_ret no_err_emit no_err_get_topic no_err_set_topic no_err_panic no_err_call
  no_err_modify no_err_lift_option : handlers.

(** Splits the branches of a handler and applies the rules. *)
Ltac handler_step :=
  match goal with
  | |- forall _, _ => intro
  | |- frame _ (if ?b then _ else _) => destruct b
  | |- frame _ (match ?x with _ => _ end) => destruct x
  | |- frame _ (bind _ _) => apply frame_bind; [apply _| |]
  | |- no_err (if ?b then _ else _) => destruct b
  | |- no_err (match ?x with _ => _ end) => destruct x
  | |- no_err (bind _ _) => apply no_err_bind
  | |- _ => solve [eauto with handlers typeclass_instances]
  end.
Ltac handler := repeat handler_step.

(** The relations used: the topic, the subscriptions table, the output only grows. *)
Definition same_topic {St} (w w' : World St) : Prop := w'.(w_topic) = w.(w_topic).
Definition same_rows {St} `{SubStoreLaws St} (w w' : World St) : Prop :=
  forall t u, row w'.(w_store) t u = row w.(w_store) t u.
Definition same_store {St} (w w' : World St) : Prop := w'.(w_store) = w.(w_store).

#[global] Instance same_topic_preorder {St} : PreOrder (same_topic (St := St)).
Proof. split; [done|]. intros a b c H1 H2. unfold same_topic in *. by rewrite H2. Qed.
#[global] Instance same_store_preorder {St} : PreOrder (same_store (St := St)).
Proof. split; [done|]. intros a b c H1 H2. unfold same_store in *. by rewrite H2. Qed.
#[global] Instance same_rows_preorder {St} `{SubStoreLaws St} : PreOrder (same_rows (St := St)).
Proof. split; [done|]. intros a b c H1 H2 t u. by rewrite H2. Qed.

Section FrameLemmas.
Context {St : Type} `{Laws : SubStoreLaws St}.

Lemma emit_same_topic e : frame same_topic (emit (St := St) e). Proof. by intros w. Qed.
Lemma emit_same_store e : frame same_store (emit (St := St) e). Proof. by intros w. Qed.
Lemma emit_same_rows e : frame same_rows (emit (St := St) e). Proof. by intros w. Qed.
Lemma set_topic_same_store t : frame same_store (set_topic (St := St) t). Proof. by intros w. Qed.
Lemma set_topic_same_rows t : frame same_rows (set_topic (St := St) t). Proof. by intros w. Qed.
Lemma modify_same_store f : frame same_store (modify (St := St) f). Proof. by intros w. Qed.
Lemma modify_same_rows f : frame same_rows (modify (St := St) f). Proof. by intros w. Qed.

Lemma call_same_topic {A} (f : St -> St * A) : frame same_topic (call f).
Proof. intros w. unfold call. by destruct (f _). Qed.

Lemma call_rows {A} (f : St -> St * A) :
  (forall s t u, row (f s).1 t u = row s t u) -> frame same_rows (call f).
Proof. intros Hf w t u. unfold call. specialize (Hf (w_store w) t u). by destruct (f _). Qed.

#[local] Hint Resolve emit_same_topic emit_same_store emit_same_rows set_topic_same_store set_topic_same_rows
  modify_same_store modify_same_rows call_same_topic : handlers.

Lemma queueOut_same_topic s r : frame same_topic (queueOut (St := St) s r).
Proof. apply emit_same_topic. Qed.
Lemma queueOut_same_rows s r : frame same_rows (queueOut (St := St) s r).
Proof. apply emit_same_rows. Qed.
#[local] Hint Resolve queueOut_same_topic queueOut_same_rows : handlers.

Lemma reject_same_topic {A} s r e : frame same_topic (reject (St := St) (A := A) s r e).
Proof. unfold reject. handler. Qed.
Lemma reject_same_rows {A} s r e : frame same_rows (reject (St := St) (A := A) s r e).
Proof. unfold reject. handler. Qed.
#[local] Hint Resolve reject_same_topic reject_same_rows : handlers.

Lemma store_or_same_topic {A} s r (f : St -> St * (A + GoError)) : frame same_topic (store_or s r f).
Proof. unfold store_or. handler. Qed.
Lemma exec_or_same_topic s r (f : St -> St * option GoError) : frame same_topic (exec_or s r f).
Proof. unfold exec_or. handler. Qed.
Lemma exec_quiet_same_topic (f : St -> St * option GoError) : frame same_topic (exec_quiet f).
Proof. unfold exec_quiet. handler. Qed.
Lemma store_or_same_rows {A} s r (f : St -> St * (A + GoError)) :
  (forall s t u, row (f s).1 t u = row s t u) -> frame same_rows (store_or s r f).
Proof. intros Hf. unfold store_or. pose proof (call_rows f Hf). handler. Qed.

Lemma emit_all_same_topic es : frame same_topic (emit_all (St := St) es).
Proof. induction es; simpl; handler. Qed.
Lemma emit_all_same_store es : frame same_store (emit_all (St := St) es).
Proof. induction es; simpl; handler. Qed.
Lemma emit_all_no_err es : no_err (emit_all (St := St) es).
Proof. induction es; simpl; handler. Qed.
#[local] Hint Resolve emit_all_same_topic emit_all_same_store emit_all_no_err : handlers.

Lemma notifySubChange_same_topic uid actor ch a b c d skip :
  frame same_topic (notifySubChange (St := St) uid actor ch a b c d skip).
Proof. unfold notifySubChange. handler. Qed.
Lemma notifySubChange_same_store uid actor ch a b c d skip :
  frame same_store (notifySubChange (St := St) uid actor ch a b c d skip).
Proof. unfold notifySubChange. handler. Qed.
Lemma notifySubChange_no_err uid actor ch a b c d skip :
  no_err (notifySubChange (St := St) uid actor ch a b c d skip).
Proof. unfold notifySubChange. handler. Qed.

Lemma evict_sessions_same_store uid skip r ss : frame same_store (evict_sessions (St := St) uid skip r ss).
Proof. induction ss as [|[k [s p]] ss IH]; simpl; handler. Qed.
Lemma evict_sessions_no_err uid skip r ss : no_err (evict_sessions (St := St) uid skip r ss).
Proof. induction ss as [|[k [s p]] ss IH]; simpl; handler. Qed.
#[local] Hint Resolve evict_sessions_same_store evict_sessions_no_err : handlers.

Lemma evictUser_same_store uid unsub skip : frame same_store (evictUser (St := St) uid unsub skip).
Proof. unfold evictUser. handler. Qed.
Lemma evictUser_no_err uid unsub skip : no_err (evictUser (St := St) uid unsub skip).
Proof. unfold evictUser. handler. Qed.
Lemma evictCold_same_store uid : frame same_store (evictColdSubscriber (St := St) uid).
Proof. unfold evictColdSubscriber. handler. Qed.
Lemma evictCold_no_err uid : no_err (evictColdSubscriber (St := St) uid).
Proof. unfold evictColdSubscriber. handler. Qed.
End FrameLemmas.

#[export] Hint Resolve emit_same_topic emit_same_store emit_same_rows set_topic_same_store set_topic_same_rows
  modify_same_store modify_same_rows call_same_topic queueOut_same_topic queueOut_same_rows
  reject_same_topic reject_same_rows store_or_same_topic exec_or_same_topic exec_quiet_same_topic
  emit_all_same_topic emit_all_same_store emit_all_no_err
  notifySubChange_same_topic notifySubChange_same_store notifySubChange_no_err
  evictUser_same_store evictUser_no_err evictCold_same_store evictCold_no_err : handlers.
