(* ===== verification/TopicSub.v ===== *)
(** * TopicSub: subscriptions and member roles

    internal/server/topic_sub_transition.go, topic_roles.go, topic_sub_self.go,
    topic_sub_other.go, topic_sub_leave.go and the session handling of
    topic_sub.go: who may join, leave, change their own access or that of
    somebody else, and what that does to the cached subscribers, the store, the
    sessions and the notifications. *)

From Stdlib Require Import NArith ZArith Lia List Ascii String Bool.
From stdpp Require Import base tactics numbers list strings gmap sets.
From S2P Require Import Prelude AccessMode Uid StoreTypes SubStore Topic.
Import Objects.
Import Topic.

#[local] Open Scope string_scope.
#[local] Open Scope N_scope.

(** The bits named in the requests: the fields of [ClientComMessage] the handlers read. *)
Record Request := mkRequest {
  r_AuthLvl : Z;             (* pkt.AuthLvl *)
  r_Original : string;       (* pkt.Original *)
  r_Newsub : bool;           (* pkt.Sub != nil && pkt.Sub.Newsub *)
  r_SetMode : string;        (* pkt.Set.Sub.Mode *)
  r_SetRole : string }.      (* pkt.Set.Sub.Role *)

(** ** topic_sub_transition.go *)

Record TransitionInput := mkTransitionIn {
  ti_category : TopicCat; ti_isTopicOwner : bool; ti_oldWant : AccessMode; ti_oldGiven : AccessMode;
  ti_requested : AccessMode; ti_defaultAccess : AccessMode; ti_p2pAccess : AccessMode }.

Record Transition := mkTransition { tr_want : AccessMode; tr_given : AccessMode; tr_ownerChange : bool }.

(** The part of [planExistingSelfSubscription] that decides the given mode: the new given mode
    and whether the owner changes. *)
Definition plan_given (input : TransitionInput) : (AccessMode * bool) + GoError :=
  let requested := input.(ti_requested) in
  let given := input.(ti_oldGiven) in
  if requested =? ModeUnset then inl (given, false)
  else if input.(ti_isTopicOwner) && (negb (IsOwner requested) || negb (IsJoiner requested))
  then inr (TextErr "群主不可取消群主权限或禁言自身")
  else if IsOwner given then
    let ownerChange := IsOwner requested && negb (IsOwner input.(ti_oldWant)) in
    if IsOwner requested && negb (BetterEqual given requested)
    then inl (given |. requested, ownerChange) else inl (given, ownerChange)
  else if IsOwner requested then inr (TextErr "非群主无法转让群权")
  else if cat_eqb input.(ti_category) TopicCatGrp && IsAdmin given && IsAdmin requested then
    let grantable := requested &^ ModeDelete in
    if negb (BetterEqual given grantable) then inl (given |. grantable, false) else inl (given, false)
  else inl (given, false).

(** The requested mode after the restrictions of the topic's category. *)
Definition plan_requested (input : TransitionInput) : AccessMode :=
  let requested := input.(ti_requested) in
  if requested =? ModeUnset then requested
  else match input.(ti_category) with
       | TopicCatP2P => (requested &. input.(ti_p2pAccess)) |. ModeApprove
       | TopicCatSys => requested &. ((requested &. ModeCSys) |. ModeWrite)
       | _ => requested
       end.

Definition planExistingSelfSubscription (input : TransitionInput) : Transition + GoError :=
  match plan_given input with
  | inr e => inr e
  | inl (given, ownerChange) =>
      let requested := plan_requested input in
      let want :=
        if requested =? ModeUnset then
          if negb (IsJoiner input.(ti_oldWant)) then given |. input.(ti_defaultAccess) else input.(ti_oldWant)
        else if negb (input.(ti_oldWant) =? requested) then requested else input.(ti_oldWant) in
      inl (mkTransition want given ownerChange)
  end.

(** ** topic_roles.go: business roles *)

Record topicRoleAccess := mkRole { ro_Name : string; ro_Mode : AccessMode; ro_ChannelSub : bool }.

Definition memberAccess : AccessMode := ModeJoin |. ModeRead |. ModeWrite |. ModePres.

Definition resolveTopicRole (role : string) (channel : bool) : topicRoleAccess + GoError :=
  let role := ToLower (TrimSpace role) in
  if String.eqb role "admin" then inl (mkRole role (ModeCFull &^ ModeOwner) false)
  else if String.eqb role "banned" then inl (mkRole role ModeNone channel)
  else if channel then
    if String.eqb role "publisher" then inl (mkRole role memberAccess false)
    else if String.eqb role "subscriber" || String.eqb role "readonly"
    then inl (mkRole "subscriber" ModeCChnReader true)
    else inr (TextErr "invalid channel role")
  else if String.eqb role "member" then inl (mkRole role memberAccess false)
  else if String.eqb role "readonly" then inl (mkRole role ModeCChnReader false)
  else inr (TextErr "invalid group role").

Definition topicRoleFromAccess (mode : AccessMode) (channel channelSub : bool) : string :=
  if negb (IsJoiner mode) then "banned"
  else if IsOwner mode then "owner"
  else if channel && channelSub then "subscriber"
  else if IsAdmin mode then "admin"
  else if channel && IsWriter mode then "publisher"
  else if channel then "readonly"
  else if IsWriter mode then "member"
  else "readonly".

(** The access report the handlers return. *)
Definition acs_of (want given : AccessMode) (channel channelSub : bool) : MsgAccessMode :=
  mkAcs (ModeString want) (ModeString given) (ModeString (given &. want))
    (topicRoleFromAccess (given &. want) channel channelSub).

Definition sub_row (uid : Uid) (topic : string) (want given : AccessMode) (priv : Any) : Subscription :=
  mkSub (UidString uid) topic want given priv 0 0 [] 0 None.

(** [sub := types.Subscription{...}] with the given fields, others zero. *)
Definition plg_row (uid : Uid) (topic : string) (want given : AccessMode) : Subscription :=
  sub_row uid topic want given ANil.

Section Subscriptions.
Context {St : Type} `{Store : SubStore St}.
(** globals.typesModeCP2P, globals.maxSubscriberCount and the clock. *)
Context (typesModeCP2P : AccessMode) (maxSubscriberCount : Z) (now : Z).

Abbreviation HM A := (M (St := St) A) (only parsing).

Definition access_for (t : Topic) (lvl : Z) : HM AccessMode :=
  lift_option "未知的 Topic 类别" (accessFor typesModeCP2P t lvl).

Definition when (b : bool) (m : HM unit) : HM unit := if b then m else ret tt.

(** A reported change of readability moves the user's unread count. *)
Definition unread_change (t : Topic) (uid : Uid) (old new : AccessMode) (readID : Z) : HM unit :=
  if IsReader old && negb (IsReader new) then emit (UsersUpdateUnread uid (readID - t.(lastID)))
  else if negb (IsReader old) && IsReader new then emit (UsersUpdateUnread uid (t.(lastID) - readID))
  else ret tt.

(** *** setAnotherUserRole *)

(** The member's current subscription: the cached one, or the stored one (in the channel
    namespace last), with whether it is a channel subscription. *)
Definition current_subscription (sess : Session) (t : Topic) (target : Uid)
    : HM (option Subscription * bool) :=
  let channelTopic := GrpToChn t.(t_name) in
  match t.(perUser) !! target with
  | Some pud =>
      let ischan := pud.(pud_isChan) in
      ret (Some (mkSub (UidString target) (if ischan then channelTopic else t.(t_name))
                   pud.(modeWant) pud.(modeGiven) pud.(private) pud.(delID) pud.(readID) [] pud.(recvID) None),
           ischan)
  | None =>
      current <-- store_or sess ErrUnknownReply (subs_get t.(t_name) target false) ;;
      match current with
      | Some s => ret (Some s, false)
      | None =>
          if t.(t_isChan) then
            current <-- store_or sess ErrUnknownReply (subs_get channelTopic target false) ;;
            ret (current, match current with Some _ => true | None => false end)
          else ret (None, false)
      end
  end.

(** A new member must exist, be in good standing and fit in the group. *)
Definition check_new_member (sess : Session) (t : Topic) (target : Uid) (limited : bool) : HM StoredUser :=
  if limited && negb (isOfficialLargeGroup t) && (maxSubscriberCount <=? subsCount t)%Z
  then reject sess ErrPolicyReply (TextErr "maximum group member count exceeded")
  else
    u <-- store_or sess ErrUnknownReply (users_get target) ;;
    match u with
    | None => reject sess ErrUserNotFoundReply (TextErr "user not found")
    | Some u =>
        if negb (u.(u_State) =? StateOK)%Z then reject sess ErrPermissionDeniedReply (TextErr "user is suspended")
        else ret u
    end.

(** The store part of the role change: create, update in place, or move between the group and
    channel keys with a rollback of the new row. *)
Definition store_role (sess : Session) (target : Uid) (current : option Subscription)
    (targetTopic : string) (requested : topicRoleAccess) : HM unit :=
  t <-- get_topic ;;
  let new priv := sub_row target targetTopic requested.(ro_Mode) requested.(ro_Mode) priv in
  match current with
  | None =>
      check_new_member sess t target (negb requested.(ro_ChannelSub)) ;;;
      exec_or sess ErrUnknownReply (subs_create (new ANil)) ;;;
      modify (fun t => set_subCnt t (t.(subCnt) + 1))
  | Some cur =>
      if String.eqb cur.(s_Topic) targetTopic then
        exec_or sess ErrUnknownReply (subs_update targetTopic target
          (mkUpdate (Some requested.(ro_Mode)) (Some requested.(ro_Mode)) None None None None None))
      else
        exec_or sess ErrUnknownReply (subs_create (new cur.(s_Private))) ;;;
        x <-- call (subs_delete cur.(s_Topic) target) ;;
        match x with
        | None => ret tt
        | Some e => call (subs_delete targetTopic target) ;;; reject sess ErrUnknownReply e
        end
  end.

(** The cache and notification part of the role change. *)
Definition apply_role (sess : Session) (asUid target : Uid) (currentIsChannel : bool)
    (oldWant oldGiven : AccessMode) (isNew : bool) (targetTopic : string) (requested : topicRoleAccess)
    : HM MsgAccessMode :=
  t <-- get_topic ;;
  let wasCached := bool_decide (is_Some (t.(perUser) !! target)) in
  let moved := wasCached && negb (Bool.eqb currentIsChannel requested.(ro_ChannelSub)) in
  when moved (evictUser target false "") ;;;
  let oldPud := if moved then with_online (user t target) 0 else user t target in
  let newPud := with_deleted (with_isChan (with_modes oldPud requested.(ro_Mode) requested.(ro_Mode))
                                requested.(ro_ChannelSub)) false in
  when (negb requested.(ro_ChannelSub) || wasCached) (modify (fun t => put_user t target newPud)) ;;;
  modify computePerUserAcsUnion ;;;
  notifySubChange target asUid requested.(ro_ChannelSub) oldWant oldGiven requested.(ro_Mode) requested.(ro_Mode) (sid sess) ;;;
  t <-- get_topic ;;
  (if requested.(ro_ChannelSub)
   then emit_all (pushTopicSubUnsub t target (IsJoiner requested.(ro_Mode) && IsPresencer requested.(ro_Mode)))
   else if currentIsChannel then emit_all (pushTopicSubUnsub t target false) else ret tt) ;;;
  when (isOfficialLargeGroup t && negb requested.(ro_ChannelSub))
    (emit_all (pushTopicSubUnsub t target
       (IsJoiner requested.(ro_Mode) && IsReader requested.(ro_Mode) && IsPresencer requested.(ro_Mode)))) ;;;
  when (String.eqb requested.(ro_Name) "banned") (evictUser target false "") ;;;
  evictColdSubscriber target ;;;
  let sub := plg_row target targetTopic requested.(ro_Mode) requested.(ro_Mode) in
  (if isNew then
     when (negb requested.(ro_ChannelSub) && IsJoiner requested.(ro_Mode)) (emit (UsersRegisterUser target true)) ;;;
     emit (PluginSubscription sub plgActCreate)
   else emit (PluginSubscription sub plgActUpd)) ;;;
  ret (mkAcs (ModeString requested.(ro_Mode)) (ModeString requested.(ro_Mode)) (ModeString requested.(ro_Mode))
         (topicRoleFromAccess requested.(ro_Mode) t.(t_isChan) requested.(ro_ChannelSub))).

(** The checks on the member whose role changes; returns the requested role with its namespace. *)
Definition check_target (sess : Session) (t : Topic) (asUid : Uid) (current : option Subscription)
    (currentIsChannel : bool) (requested : topicRoleAccess) : HM topicRoleAccess :=
  match current with
  | None => ret requested
  | Some cur =>
      let mode := cur.(s_ModeWant) &. cur.(s_ModeGiven) in
      if IsOwner mode then reject sess ErrPermissionDeniedReply (TextErr "topic owner role cannot be changed")
      else if IsAdmin mode && negb (t.(owner) =? asUid)
      then reject sess ErrPermissionDeniedReply (TextErr "only the owner can change another admin")
      else ret (if String.eqb requested.(ro_Name) "banned"
                then mkRole requested.(ro_Name) requested.(ro_Mode) currentIsChannel else requested)
  end.

Definition setAnotherUserRole (sess : Session) (asUid target : Uid) (asChan : bool) (pkt : Request)
    : HM (option MsgAccessMode) :=
  t <-- get_topic ;;
  if isOfficialTopic t then reject sess ErrPermissionDeniedReply (TextErr "官方频道角色只能通过平台管理接口分配")
  else if negb (cat_eqb t.(t_cat) TopicCatGrp) || asChan
  then reject sess ErrPermissionDeniedReply (TextErr "roles can only be managed through a group topic")
  else
    let hostMode := (user t asUid).(modeGiven) &. (user t asUid).(modeWant) in
    if negb (bool_decide (is_Some (t.(perUser) !! asUid))) || negb (IsAdmin hostMode)
    then reject sess ErrPermissionDeniedReply (TextErr "member role change requires admin permission")
    else if isReadOnly t then reject sess ErrPermissionDeniedReply (TextErr "topic is suspended")
    else
      match resolveTopicRole pkt.(r_SetRole) t.(t_isChan) with
      | inr e => reject sess ErrMalformedReply e
      | inl requested =>
          if String.eqb requested.(ro_Name) "admin" && negb (t.(owner) =? asUid)
          then reject sess ErrPermissionDeniedReply (TextErr "only the owner can promote an admin")
          else if negb (t.(owner) =? asUid) && negb (BetterEqual hostMode requested.(ro_Mode))
          then reject sess ErrPermissionDeniedReply (TextErr "admin cannot grant permissions they do not have")
          else
            c <-- current_subscription sess t target ;;
            let '(current, currentIsChannel) := c in
            requested <-- check_target sess t asUid current currentIsChannel requested ;;
            let targetTopic := if requested.(ro_ChannelSub) then GrpToChn t.(t_name) else t.(t_name) in
            let oldWant := match current with Some s => s.(s_ModeWant) | None => ModeUnset end in
            let oldGiven := match current with Some s => s.(s_ModeGiven) | None => ModeUnset end in
            if match current with
               | Some s => String.eqb s.(s_Topic) targetTopic && (s.(s_ModeWant) =? requested.(ro_Mode)) &&
                           (s.(s_ModeGiven) =? requested.(ro_Mode))
               | None => false
               end
            then ret None
            else
              store_role sess target current targetTopic requested ;;;
              acs <-- apply_role sess asUid target currentIsChannel oldWant oldGiven
                        (match current with None => true | Some _ => false end) targetTopic requested ;;
              ret (Some acs)
      end.

(** *** thisUserSub *)

(** officialPolicyRefreshInterval, in nanoseconds. *)
Definition officialPolicyRefreshInterval : Z := 2000000000.

Definition refreshOfficialPolicy : HM (option GoError) :=
  t <-- get_topic ;;
  if match t.(official) with None => true | Some _ => (now - t.(officialRefreshedAt) <? officialPolicyRefreshInterval)%Z end
  then ret None
  else
    p <-- call (refresh_policy t.(t_name) now) ;;
    match p with
    | inr e => ret (Some e)
    | inl p => set_topic (set_official t p now) ;;; ret None
    end.

(** [checkOfficialSelfJoin] *)
Definition checkOfficialSelfJoin (sess : Session) (uid : Uid) (hasInvite : bool) : HM unit :=
  t <-- get_topic ;;
  if negb (isOfficialTopic t) then ret tt
  else
    err <-- refreshOfficialPolicy ;;
    match err with
    | Some e => reject sess ErrServiceUnavailableReply e
    | None =>
        t <-- get_topic ;;
        let denied := reject sess ErrPermissionDeniedReply (StoreErr ErrPermissionDenied) in
        match t.(official) with
        | None => denied
        | Some p =>
            if negb (String.eqb p.(OfficialStatus) "verified") then denied
            else if String.eqb p.(JoinPolicy) "open" then ret tt
            else if String.eqb p.(JoinPolicy) "invite" then if hasInvite then ret tt else denied
            else if String.eqb p.(JoinPolicy) "approval" then
              if hasInvite then ret tt
              else
                r <-- call (submit_join t.(t_name) uid now) ;;
                match r with
                | JoinProtected => reject sess ErrPolicyReply (TextErr "protected")
                | JoinFailed e => reject sess ErrServiceUnavailableReply e
                | JoinPending status =>
                    orig <-- lift_option "Invalid P2P topic" (original t uid) ;;
                    reject sess (NoErrAccepted orig status) (TextErr "official topic join request is pending")
                end
            else denied
        end
    end.

(** [validateTopicInvite], [consumeTopicInvite] *)
Definition invite_ok (invite : string) : HM bool :=
  t <-- get_topic ;; call (fun s => (s, validate_invite invite t.(t_name) now s)).

Definition take_invite (sess : Session) (invite : string) : HM unit :=
  t <-- get_topic ;;
  ok <-- call (consume_invite invite t.(t_name) now) ;;
  if ok : bool then ret tt
  else reject sess ErrPermissionDeniedReply (TextErr "group invitation has no remaining uses").

(** An invitation restores a member whose given mode was taken away. *)
Definition restore_banned (sess : Session) (asUid : Uid) (invite : string) (userData : perUserData)
    : HM MsgAccessMode :=
  take_invite sess invite ;;;
  t <-- get_topic ;;
  let oldWant := userData.(modeWant) in
  let oldGiven := userData.(modeGiven) in
  let userData := with_modes userData memberAccess memberAccess in
  exec_or sess ErrUnknownReply (subs_update t.(t_name) asUid (mkUpdate (Some memberAccess) (Some memberAccess) None None None None None)) ;;;
  set_topic (put_user t asUid userData) ;;;
  when (negb (IsReader (oldWant &. oldGiven))) (emit (UsersUpdateUnread asUid (t.(lastID) - userData.(readID)))) ;;;
  notifySubChange asUid asUid false oldWant oldGiven memberAccess memberAccess (sid sess) ;;;
  emit (PluginSubscription (plg_row asUid t.(t_name) memberAccess memberAccess) plgActUpd) ;;;
  ret (acs_of memberAccess memberAccess t.(t_isChan) userData.(pud_isChan)).

(** What the branches of [thisUserSub] leave for its common tail. *)
Record SubOutcome := mkOutcome { so_user : perUserData; so_oldWant : AccessMode; so_oldGiven : AccessMode }.

(** The access of a new subscriber by topic category: the user data, the stored subscription if
    any, the key of the new subscription and the old modes. *)
Record NewAccess := mkNewAccess {
  na_user : perUserData; na_sub : option Subscription; na_tname : string;
  na_oldWant : AccessMode; na_oldGiven : AccessMode }.

Definition p2p_access (t : Topic) (want : AccessMode) (u : perUserData) : NewAccess :=
  let w := if want =? ModeUnset then u.(modeWant) else want in
  mkNewAccess (with_modes u ((w &. typesModeCP2P) |. ModeApprove) u.(modeGiven)) None t.(t_name) ModeNone ModeNone.

Definition sys_access (t : Topic) (want : AccessMode) (u : perUserData) : NewAccess :=
  let w := if want =? ModeUnset then ModeCSys else (want &. ModeCSys) |. ModeWrite |. ModeJoin in
  mkNewAccess (with_modes u w ModeCSys) None t.(t_name) ModeNone ModeNone.

Definition chan_access (sess : Session) (pkt : Request) (asUid : Uid) (want : AccessMode) (u : perUserData) : HM NewAccess :=
  sub <-- store_or sess ErrUnknownReply (subs_get pkt.(r_Original) asUid false) ;;
  let oldWant := match sub with Some s => s.(s_ModeWant) | None => ModeCChnReader end in
  let oldGiven := match sub with Some s => s.(s_ModeGiven) | None => ModeCChnReader end in
  let w := if want =? ModeUnset then oldWant else (want &. ModeCChnReader) |. ModeRead |. ModeJoin in
  ret (mkNewAccess (with_modes (with_isChan u true) w oldGiven) sub pkt.(r_Original) oldWant oldGiven).

Definition group_access (sess : Session) (t : Topic) (pkt : Request) (asUid : Uid) (want : AccessMode)
    (existing hasInvite : bool) (u : perUserData) : HM NewAccess :=
  sub <-- (if existing then ret None else store_or sess ErrUnknownReply (subs_get t.(t_name) asUid true)) ;;
  let given := if existing then u.(modeGiven)
               else match sub with Some s => s.(s_ModeGiven) | None => ModeUnset end in
  given <-- (if given =? ModeUnset then access_for t pkt.(r_AuthLvl) else ret given) ;;
  w <-- (if want =? ModeUnset then access_for t pkt.(r_AuthLvl) else ret want) ;;
  let u := if hasInvite then with_modes u memberAccess memberAccess else with_modes u w given in
  ret (mkNewAccess u sub t.(t_name) ModeNone ModeNone).

Definition new_access (sess : Session) (t : Topic) (pkt : Request) (asUid : Uid) (asChan : bool) (want : AccessMode)
    (existing hasInvite : bool) (u : perUserData) : HM NewAccess :=
  if cat_eqb t.(t_cat) TopicCatP2P then ret (p2p_access t want u)
  else if cat_eqb t.(t_cat) TopicCatSys then
    if negb (pkt.(r_AuthLvl) =? LevelRoot)%Z
    then reject sess ErrPermissionDeniedReply (TextErr "订阅 'sys' Topic 需要 Root 权限")
    else ret (sys_access t want u)
  else if asChan then chan_access sess pkt asUid want u
  else group_access sess t pkt asUid want existing hasInvite u.

(** Official policy, invitation and size limit of a group a user joins. *)
Definition check_join (sess : Session) (asUid : Uid) (asChan hasInvite : bool) (invite : string) : HM unit :=
  t <-- get_topic ;;
  when (cat_eqb t.(t_cat) TopicCatGrp)
    (checkOfficialSelfJoin sess asUid hasInvite ;;; when hasInvite (take_invite sess invite)) ;;;
  t <-- get_topic ;;
  if cat_eqb t.(t_cat) TopicCatGrp && negb asChan && negb (isOfficialLargeGroup t) &&
     (maxSubscriberCount <=? subsCount t)%Z
  then reject sess ErrPolicyReply (TextErr "超出最大订阅数量限制")
  else ret tt.

(** The branch for a user without a live subscription. *)
Definition new_subscription (sess : Session) (pkt : Request) (asUid : Uid) (asChan : bool) (want : AccessMode)
    (priv : Any) (invite : string) (hasInvite existing : bool) (userData : perUserData) : HM SubOutcome :=
  check_join sess asUid asChan hasInvite invite ;;;
  t <-- get_topic ;;
  a <-- new_access sess t pkt asUid asChan want existing hasInvite userData ;;
  let u := a.(na_user) in
  if negb (IsJoiner u.(modeGiven))
  then reject sess ErrPermissionDeniedReply (TextErr "由于权限不足订阅被拒绝")
  else
    let u := if u.(deleted) then with_cleared_ids (with_deleted u false) else u in
    let u := with_private u (if isNullValue priv then ANil else priv) in
    let fresh := sub_row asUid a.(na_tname) u.(modeWant) u.(modeGiven) u.(private) in
    sub <-- match a.(na_sub) with
            | Some s =>
                match s.(s_DeletedAt) with
                | Some _ => exec_or sess ErrUnknownReply (subs_create fresh) ;;; ret fresh
                | None =>
                    when (asChan && negb (u.(modeWant) =? a.(na_oldWant)))
                      (exec_or sess ErrUnknownReply
                         (subs_update a.(na_tname) asUid (mkUpdate (Some u.(modeWant)) None None None None None None)) ;;;
                       emit_all (pushTopicSubUnsub t asUid (IsPresencer u.(modeWant)))) ;;;
                    ret s
                end
            | None => exec_or sess ErrUnknownReply (subs_create fresh) ;;; ret fresh
            end ;;
    (if asChan then
       emit (PluginSubscription sub (if u.(modeWant) =? a.(na_oldWant) then plgActUpd else plgActCreate))
     else emit (UsersRegisterUser asUid true) ;;; emit (PluginSubscription sub plgActCreate)) ;;;
    ret (mkOutcome u a.(na_oldWant) a.(na_oldGiven)).

(** The transfer of ownership when the new owner accepts it. *)
Definition change_owner (asUid : Uid) : HM unit :=
  t <-- get_topic ;;
  let old := user t t.(owner) in
  let new := with_modes old (old.(modeWant) &^ ModeOwner) (old.(modeGiven) &^ ModeOwner) in
  exec_quiet (subs_update t.(t_name) t.(owner) (mkUpdate (Some new.(modeWant)) (Some new.(modeGiven)) None None None None None)) ;;;
  exec_quiet (owner_change t.(t_name) asUid) ;;;
  set_topic (put_user t t.(owner) new) ;;;
  notifySubChange t.(owner) asUid false old.(modeWant) old.(modeGiven) new.(modeWant) new.(modeGiven) "" ;;;
  modify (fun t => set_owner t asUid).

(** The branch for a user with a live subscription. *)
Definition existing_subscription (sess : Session) (pkt : Request) (asUid : Uid) (asChan : bool)
    (want : AccessMode) (priv : Any) (userData : perUserData) : HM SubOutcome :=
  t <-- get_topic ;;
  if negb userData.(pud_isChan) && asChan
  then reject sess (InfoUseOtherReply t.(t_name)) (StoreErr ErrNotFound)
  else
    let oldWant := userData.(modeWant) in
    let oldGiven := userData.(modeGiven) in
    def <-- access_for t pkt.(r_AuthLvl) ;;
    match planExistingSelfSubscription
            (mkTransitionIn t.(t_cat) (t.(owner) =? asUid) oldWant oldGiven want def typesModeCP2P) with
    | inr e => reject sess ErrPermissionDeniedReply e
    | inl tr =>
        let up_priv := if isNullValue priv then Some ANil else match priv with ANil => None | p => Some p end in
        let u := with_modes userData tr.(tr_want) tr.(tr_given) in
        let u := match up_priv with Some p => with_private u p | None => u end in
        let upd := mkUpdate (if u.(modeWant) =? oldWant then None else Some u.(modeWant))
                            (if u.(modeGiven) =? oldGiven then None else Some u.(modeGiven)) up_priv None None None None in
        let plg := sub_row asUid t.(t_name) (default 0 upd.(up_ModeWant)) (default 0 upd.(up_ModeGiven))
                     (match up_priv with Some _ => priv | None => ANil end) in
        (if no_updates upd then ret tt
         else exec_or sess ErrUnknownReply (subs_update t.(t_name) asUid upd) ;;;
              emit (PluginSubscription plg plgActUpd)) ;;;
        when tr.(tr_ownerChange) (change_owner asUid) ;;;
        ret (mkOutcome u oldWant oldGiven)
    end.

(** What follows both branches. *)
Definition finish_self_sub (sess : Session) (pkt : Request) (asUid : Uid) (asChan : bool) (o : SubOutcome)
    : HM (option MsgAccessMode) :=
  t <-- get_topic ;;
  let u := o.(so_user) in
  let old := o.(so_oldWant) &. o.(so_oldGiven) in
  let new := u.(modeWant) &. u.(modeGiven) in
  when (negb asChan && IsPresencer old && negb (IsPresencer new))
    (if cat_eqb t.(t_cat) TopicCatMe then emit (PresUsersOfInterest "off+dis" t.(userAgent))
     else emit (PresSingleUserOffline asUid new "off+dis" nilPresParams "" false)) ;;;
  set_topic (put_user t asUid u) ;;;
  let changed := negb (o.(so_oldWant) =? u.(modeWant)) || negb (o.(so_oldGiven) =? u.(modeGiven)) in
  when changed
    (when (negb asChan) (unread_change t asUid old new u.(readID)) ;;;
     notifySubChange asUid asUid asChan o.(so_oldWant) o.(so_oldGiven) u.(modeWant) u.(modeGiven) (sid sess)) ;;;
  let modeChanged :=
    if pkt.(r_Newsub) || changed then Some (acs_of u.(modeWant) u.(modeGiven) t.(t_isChan) u.(pud_isChan)) else None in
  if negb (IsJoiner u.(modeWant)) then evictUser asUid false "" ;;; ret modeChanged
  else if negb (IsJoiner u.(modeGiven))
  then reject sess ErrPermissionDeniedReply (TextErr "Topic 拒绝访问；用户已被被封禁")
  else ret modeChanged.

Definition thisUserSub (sess : Session) (pkt : Request) (asUid : Uid) (asChan : bool) (want : string)
    (priv : Any) (invite : string) : HM (option MsgAccessMode) :=
  let '(modeWant, err) := if String.eqb want "" then (ModeUnset, None) else UnmarshalText ModeUnset want in
  match err with
  | Some e => reject sess ErrMalformedReply e
  | None =>
      t <-- get_topic ;;
      let userData := user t asUid in
      let existing := bool_decide (is_Some (t.(perUser) !! asUid)) in
      let hasInvite := negb (String.eqb invite "") && cat_eqb t.(t_cat) TopicCatGrp in
      valid <-- (if hasInvite then invite_ok invite else ret true) ;;
      if negb valid
      then reject sess ErrPermissionDeniedReply
             (TextErr "group invitation token is invalid, expired, or belongs to another topic")
      else if existing && negb userData.(deleted) && hasInvite && negb (IsJoiner userData.(modeGiven))
      then acs <-- restore_banned sess asUid invite userData ;; ret (Some acs)
      else
        o <-- (if negb existing || userData.(deleted)
               then new_subscription sess pkt asUid asChan modeWant priv invite hasInvite existing userData
               else existing_subscription sess pkt asUid asChan modeWant priv userData) ;;
        finish_self_sub sess pkt asUid asChan o
  end.

(** *** anotherUserSub *)

(** The new subscription of an invited user. *)
Definition invite_user (sess : Session) (asUid target : Uid) (given : AccessMode) : HM perUserData :=
  t <-- get_topic ;;
  if cat_eqb t.(t_cat) TopicCatGrp && negb (isOfficialLargeGroup t) && (maxSubscriberCount <=? subsCount t)%Z
  then reject sess ErrPolicyReply (TextErr "超出最大订阅数量限制")
  else
    given <-- (if given =? ModeUnset then d <-- access_for t LevelAuth ;; ret (d |. ModeJoin) else ret given) ;;
    sub <-- store_or sess ErrUnknownReply (subs_get t.(t_name) target true) ;;
    want <-- match sub with
             | Some s => ret s.(s_ModeWant)
             | None =>
                 u <-- store_or sess ErrUnknownReply (users_get target) ;;
                 match u with
                 | None => reject sess ErrUserNotFoundReply (TextErr "未找到用户")
                 | Some u =>
                     if negb (u.(u_State) =? StateOK)%Z
                     then reject sess ErrPermissionDeniedReply (TextErr "用户已禁言/封禁")
                     else ret (u.(u_AccessAuth) &. given)
                 end
             end ;;
    if negb (IsJoiner want) then reject sess ErrPermissionDeniedReply (TextErr "由于权限不足邀请被拒绝")
    else
      let row := sub_row target t.(t_name) want given ANil in
      exec_or sess ErrUnknownReply (subs_create row) ;;;
      when (cat_eqb t.(t_cat) TopicCatGrp) (modify (fun t => set_subCnt t (t.(subCnt) + 1))) ;;;
      let u := with_modes pud0 want given in
      modify (fun t => put_user t target u) ;;;
      modify computePerUserAcsUnion ;;;
      emit (UsersRegisterUser target true) ;;;
      emit (PluginSubscription row plgActCreate) ;;;
      emit (PushForP2PSub asUid target want given) ;;;
      ret u.

(** The change of the given mode of a subscriber. *)
Definition regrant (sess : Session) (target : Uid) (given : AccessMode) (u : perUserData) : HM perUserData :=
  t <-- get_topic ;;
  if (given =? ModeUnset) || (given =? u.(modeGiven)) then ret u
  else if (t.(owner) =? target) && (negb (IsOwner given) || negb (IsJoiner given))
  then reject sess ErrPermissionDeniedReply (TextErr "无法剥夺群主身份或封禁群主")
  else
    exec_quiet (subs_update t.(t_name) target (mkUpdate None (Some given) None None None None None)) ;;;
    let u := with_modes u u.(modeWant) given in
    modify (fun t => put_user t target u) ;;;
    ret u.

Definition finish_other_sub (sess : Session) (asUid target : Uid) (oldWant oldGiven : AccessMode) (u : perUserData)
    : HM (option MsgAccessMode) :=
  t <-- get_topic ;;
  let changed := negb (oldGiven =? u.(modeGiven)) in
  when changed
    (unread_change t target (oldWant &. oldGiven) (u.(modeWant) &. u.(modeGiven)) u.(readID) ;;;
     notifySubChange target asUid false oldWant oldGiven u.(modeWant) u.(modeGiven) (sid sess)) ;;;
  when (negb (IsJoiner u.(modeGiven))) (evictUser target false "") ;;;
  evictColdSubscriber target ;;;
  ret (if changed then Some (acs_of u.(modeWant) u.(modeGiven) t.(t_isChan) u.(pud_isChan)) else None).

Definition anotherUserSub (sess : Session) (asUid target : Uid) (asChan : bool) (pkt : Request)
    : HM (option MsgAccessMode) :=
  t <-- get_topic ;;
  let hostMode := (user t asUid).(modeGiven) &. (user t asUid).(modeWant) in
  if negb (bool_decide (is_Some (t.(perUser) !! asUid))) || negb (IsSharer hostMode)
  then reject sess ErrPermissionDeniedReply (TextErr "Topic 拒绝访问；审批人无共享权限")
  else if asChan
  then reject sess ErrPermissionDeniedReply (TextErr "Topic 拒绝访问：无法将读者订阅至 Channel")
  else if isReadOnly t then reject sess ErrPermissionDeniedReply (TextErr "Topic 已暂停")
  else
    let '(given, err) := if String.eqb pkt.(r_SetMode) "" then (ModeUnset, None)
                         else UnmarshalText ModeUnset pkt.(r_SetMode) in
    match err with
    | Some e => reject sess ErrMalformedReply e
    | None =>
        let given := if negb (String.eqb pkt.(r_SetMode) "") && cat_eqb t.(t_cat) TopicCatP2P
                     then (given &. typesModeCP2P) |. ModeApprove else given in
        if negb (given =? ModeUnset) && negb (IsAdmin hostMode)
        then reject sess ErrPermissionDeniedReply (TextErr "共享者无法显式设置 modeGiven")
        else if IsOwner given && negb (t.(owner) =? asUid)
        then reject sess ErrPermissionDeniedReply (TextErr "非群主尝试转让群主权限")
        else if negb (given =? ModeUnset) && negb (t.(owner) =? asUid) &&
                negb (BetterEqual hostMode (given &^ ModeOwner))
        then reject sess ErrPermissionDeniedReply (TextErr "管理员无法授予自己不具备的权限")
        else
          match t.(perUser) !! target with
          | Some u =>
              if u.(deleted) then
                u <-- invite_user sess asUid target given ;;
                finish_other_sub sess asUid target ModeUnset ModeUnset u
              else
                u' <-- regrant sess target given u ;;
                finish_other_sub sess asUid target u.(modeWant) u.(modeGiven) u'
          | None =>
              u <-- invite_user sess asUid target given ;;
              finish_other_sub sess asUid target ModeUnset ModeUnset u
          end
    end.

(** *** replyLeaveUnsub and handleLeaveRequest *)

Definition replyLeaveUnsub (sess : Session) (init : bool) (orig : string) (asUid : Uid) : HM unit :=
  t <-- get_topic ;;
  if IsZeroUid asUid then panic "replyLeaveUnsub: zero asUid"
  else if t.(owner) =? asUid then
    when init (queueOut sess ErrPermissionDeniedReply) ;;;
    fail (TextErr "replyLeaveUnsub: 群主无法取消订阅")
  else
    let '(asChan, err) := if init then verifyChannelAccess t orig else (false, None) in
    match err with
    | Some _ => reject sess ErrNotFoundReply (TextErr "replyLeaveUnsub: Channel 寻址错误")
    | None =>
        let pud := user t asUid in
        x <-- call (subs_delete (if pud.(pud_isChan) then GrpToChn t.(t_name) else t.(t_name)) asUid) ;;
        match x with
        | Some e =>
            if negb init then fail e
            else if bool_decide (e = StoreErr ErrNotFound) then queueOut sess InfoNoActionReply
            else reject sess ErrUnknownReply e
        | None =>
            when init (queueOut sess NoErrReply) ;;;
            (if negb asChan then
               when (IsReader (pud.(modeWant) &. pud.(modeGiven)))
                 (emit (UsersUpdateUnread asUid (pud.(readID) - t.(lastID))))
             else emit_all (pushTopicSubUnsub t asUid false)) ;;;
            let oldWant := if asChan then ModeCChnReader else pud.(modeWant) in
            let oldGiven := if asChan then ModeCChnReader else pud.(modeGiven) in
            when (negb asChan && isOfficialLargeGroup t) (emit_all (pushTopicSubUnsub t asUid false)) ;;;
            notifySubChange asUid asUid asChan oldWant oldGiven ModeUnset ModeUnset (sid sess) ;;;
            evictUser asUid true (sid sess) ;;;
            emit (PluginSubscription (plg_row asUid t.(t_name) 0 0) plgActDel) ;;;
            when (cat_eqb t.(t_cat) TopicCatGrp) (modify (fun t => set_subCnt t (t.(subCnt) - 1))) ;;;
            t <-- get_topic ;;
            when (cat_eqb t.(t_cat) TopicCatP2P && (subsCount t =? 0)%Z)
              (modify (fun t => markPaused t true) ;;; emit (HubUnreg t.(t_name)))
        end
    end.

End Subscriptions.
