(* ===== verification/TopicInit.v ===== *)
(** * TopicInit: loading and creating topics

    internal/server/init_topic.go: what a topic of each category is read from and what a new one is made of, with the dispatch of
    topicInit; what follows in topicInit is [Hub.init_failed] and [Hub.init_loaded].  The functions fill in an empty topic, in
    the monad of [Topic]'s handlers; what the model of a topic has no field for is returned.  [InitProps] has the properties. *)

From Stdlib Require Import NArith ZArith Lia List Ascii String Bool.
From stdpp Require Import base tactics numbers list strings gmap sets.
From S2P Require Import Prelude AccessMode Uid StoreTypes Messages SubStore Utils PubStore History TopicStore LoadStore Topic.
Import Objects Ranges.
Import Utils.Tags.
Import Topic.

#[local] Open Scope string_scope.
#[local] Open Scope Z_scope.

(** ** Requests and results *)

(** [MsgSetQuery] of a {sub}: the default access as its two texts, the user and the mode of its [sub]. *)
Record SetDesc := mkSetDesc { sd_DefaultAcs : option (string * string); sd_Public : Any; sd_Trusted : Any; sd_Private : Any }.
Record JoinSet := mkJoinSet { js_Desc : option SetDesc; js_Sub : option (string * string); js_Tags : option (list string) }.

(** The join that starts a topic; [None] is a nil session, a nil {sub}, a nil {set}. *)
Record JoinReq := mkJoin {
  j_AsUser : string; j_AuthLvl : Z; j_RcptTo : string; j_sess : option Session; j_userAgent : string; j_Sub : option (option JoinSet);
  j_Attachments : list string }.

(** The public and trusted data and the tags of the topic, its times, and the flags of the {sub}. *)
Record Loaded := mkLoaded {
  l_Public : Any; l_Trusted : Any; l_Tags : option (list string); l_Created : Z; l_Updated : Z; l_NewTopic : bool; l_Newsub : bool }.

(** ** Fields of a topic *)

Definition with_kind (t : Topic) (cat : TopicCat) (isChan : bool) : Topic :=
  mkTopic t.(t_name) t.(xoriginal) cat isChan t.(owner) t.(accessAuth) t.(accessAnon) t.(lastID) t.(subCnt) t.(status) t.(userAgent)
    t.(official) t.(officialRefreshedAt) t.(perUser) t.(modeWantUnion) t.(modeGivenUnion) t.(t_sessions) t.(officialMemberRefreshed)
    t.(touched) t.(t_delID) t.(aux) t.(moderationCache) t.(perSubs) t.(t_isProxy) t.(currentCall).
Definition with_access (t : Topic) (auth anon : AccessMode) : Topic :=
  mkTopic t.(t_name) t.(xoriginal) t.(t_cat) t.(t_isChan) t.(owner) auth anon t.(lastID) t.(subCnt) t.(status) t.(userAgent)
    t.(official) t.(officialRefreshedAt) t.(perUser) t.(modeWantUnion) t.(modeGivenUnion) t.(t_sessions) t.(officialMemberRefreshed)
    t.(touched) t.(t_delID) t.(aux) t.(moderationCache) t.(perSubs) t.(t_isProxy) t.(currentCall).
Definition with_touched (t : Topic) (at_ : Z) : Topic := set_lastID t t.(lastID) at_.
Definition with_original (t : Topic) (x : string) : Topic :=
  mkTopic t.(t_name) x t.(t_cat) t.(t_isChan) t.(owner) t.(accessAuth) t.(accessAnon) t.(lastID) t.(subCnt) t.(status) t.(userAgent)
    t.(official) t.(officialRefreshedAt) t.(perUser) t.(modeWantUnion) t.(modeGivenUnion) t.(t_sessions) t.(officialMemberRefreshed)
    t.(touched) t.(t_delID) t.(aux) t.(moderationCache) t.(perSubs) t.(t_isProxy) t.(currentCall).
Definition with_userAgent (t : Topic) (ua : string) : Topic :=
  mkTopic t.(t_name) t.(xoriginal) t.(t_cat) t.(t_isChan) t.(owner) t.(accessAuth) t.(accessAnon) t.(lastID) t.(subCnt) t.(status) ua
    t.(official) t.(officialRefreshedAt) t.(perUser) t.(modeWantUnion) t.(modeGivenUnion) t.(t_sessions) t.(officialMemberRefreshed)
    t.(touched) t.(t_delID) t.(aux) t.(moderationCache) t.(perSubs) t.(t_isProxy) t.(currentCall).

(** Positions, last deletion and time of the stored topic; Go's zero time is left out. *)
Definition with_row (t : Topic) (r : StoredRow) : Topic :=
  set_delID (set_lastID t r.(ld_SeqId) (if r.(ld_TouchedAt) =? 0 then t.(touched) else r.(ld_TouchedAt))) r.(ld_DelId).

(** [parseTopicAccess] *)
Definition parseTopicAccess (acs : string * string) (defAuth defAnon : AccessMode) : AccessMode * AccessMode * option GoError :=
  let '(authText, anonText) := acs in
  let '(authMode, err) := if String.eqb authText "" then (defAuth, None) else UnmarshalText defAuth authText in
  match err with
  | Some e => (authMode, defAnon, Some e)
  | None => if String.eqb anonText "" then (authMode, defAnon, None) else let '(anonMode, err) := UnmarshalText defAnon anonText in (authMode, anonMode, err)
  end.

(** The default access of a new group. *)
Definition new_group_access (acs : option (string * string)) (auth anon : AccessMode) : AccessMode * AccessMode :=
  match acs with
  | None => (auth, anon)
  | Some acs =>
      let '(authMode, anonMode, err) := parseTopicAccess acs auth anon in
      match err with
      | Some _ => ((if IsInvalid authMode then ModeNone else authMode), (if IsInvalid anonMode then ModeNone else anonMode))
      | None => if IsOwner authMode || IsOwner anonMode then (authMode &^ ModeOwner, anonMode &^ ModeOwner) else (authMode, anonMode)
      end
  end.

Definition not_null (a : Any) : Any := if isNullValue a then ANil else a.

Section Init.
Context {St : Type} `{Subs : SubStore St, Tops : !TopicStore St, Load : !TopicLoad St}.
Context (IsLetter IsNumber IsDigit : N -> bool) (ToLowerFull : string -> string).
Context (typesModeCP2P : AccessMode) (maxTagCount : nat) (immutableTagNS : list string) (now : Z).
Context (officialPolicyFromAux : string -> option (list (string * Any)) -> option officialTopicPolicy + GoError).
(** [externalIdentityClientTrusted] of the node, and what the business policy, if there is one, lets users do. *)
Context (clientTrusted : Any -> Any) (businessPolicy : option (Uid -> Uid -> string -> bool)).

Abbreviation HM A := (M (St := St) A) (only parsing).

(** A store call whose error ends the load. *)
Definition load {A} (f : St -> St * (A + GoError)) : HM A := r <-- call f ;; match r with inl a => ret a | inr e => fail e end.

(** [sreg.Sub.Set]: a nil [Sub] is dereferenced. *)
Definition pktsub (j : JoinReq) : HM (option JoinSet) := lift_option "invalid memory address or nil pointer dereference" j.(j_Sub).
Definition session_of (j : JoinReq) : HM Session := lift_option "invalid memory address or nil pointer dereference" j.(j_sess).

(** [loadSubscribers] *)
Definition load_one (t : Topic) (sub : Subscription) : Topic :=
  let uid := ParseUid sub.(s_User) in
  let t := put_user t uid (mkPud 0 sub.(s_RecvSeqId) sub.(s_ReadSeqId) sub.(s_ReadHistory) sub.(s_DelId) sub.(s_Private) sub.(s_ModeWant)
                             sub.(s_ModeGiven) "" false false) in
  if IsOwner (sub.(s_ModeGiven) &. sub.(s_ModeWant)) then set_owner t uid else t.
Definition loadSubscribers : HM unit :=
  t <-- get_topic ;; subs <-- load (topics_get_subs t.(t_name) None) ;; modify (fun t => fold_left load_one subs t).

Definition default_access (authUser isChan : bool) : HM AccessMode :=
  t <-- get_topic ;; lift_option "unknown topic category" (getDefaultAccess typesModeCP2P t.(t_cat) authUser isChan).

(** ** A user's own topics *)

Definition initTopicMe (j : JoinReq) : HM Loaded :=
  modify (fun t => with_kind t TopicCatMe t.(t_isChan)) ;;;
  t <-- get_topic ;;
  user <-- call (users_profile (ParseUserId t.(t_name))) ;;
  match user with
  | inr e => s <-- session_of j ;; emit (Logout (sid s)) ;;; fail e
  | inl None => s <-- session_of j ;; emit (Logout (sid s)) ;;; fail (StoreErr ErrUserNotFound)
  | inl (Some u) =>
      modify (fun t => with_access t u.(pf_AccessAuth) u.(pf_AccessAnon)) ;;;
      loadSubscribers ;;;
      s <-- session_of j ;;
      modify (fun t => with_userAgent t j.(j_userAgent)) ;;;
      modify (fun t => if t.(t_isProxy) then t else set_perSubs t ∅) ;;;
      ret (mkLoaded u.(pf_Public) (clientTrusted u.(pf_Trusted)) None u.(pf_CreatedAt) u.(pf_UpdatedAt) false false)
  end.

Definition initTopicFnd (j : JoinReq) : HM Loaded :=
  modify (fun t => with_kind t TopicCatFnd t.(t_isChan)) ;;;
  let uid := ParseUserId j.(j_AsUser) in
  if IsZeroUid uid then fail (StoreErr ErrNotFound)
  else
    user <-- load (users_profile uid) ;;
    match user with
    | None => s <-- session_of j ;; (if isMultiplex s then ret tt else emit (Logout (sid s))) ;;; fail (StoreErr ErrNotFound)
    | Some u =>
        auth <-- default_access true false ;; anon <-- default_access false false ;;
        modify (fun t => with_access t auth anon) ;;;
        loadSubscribers ;;;
        ret (mkLoaded ANil ANil None u.(pf_CreatedAt) u.(pf_UpdatedAt) false false)
    end.

(** [store.Topics.Create]: the topic, then the owner's subscription. *)
Definition topics_create (name : string) (r : StoredRow) (uid : Uid) (want given : AccessMode) (private : Any) : HM unit :=
  exec_quiet (topic_create name r) ;;;
  if IsZeroUid uid then ret tt
  else exec_quiet (subs_create (mkSub (UidString uid) name (given &. want) ModeCFull private 0 0 [] 0 None)).

Definition new_row (uid : Uid) (auth anon : AccessMode) (isChan : bool) (public trusted : Any) (tags : option (list string)) : StoredRow :=
  mkRow (mkStored 0 now now public trusted isChan 0 (UidString uid) auth anon None) now 0 0 tags.

(** The tags of a request; those of a reserved kind are refused. *)
Definition new_tags (set : option JoinSet) : HM (option (list string)) :=
  match normalizeTags IsLetter IsDigit ToLowerFull (set ≫= js_Tags) maxTagCount with
  | Some (x :: l) => if restrictedTagsEqual IsLetter IsNumber (x :: l) [] immutableTagNS then ret (Some (x :: l)) else fail (StoreErr ErrPermissionDenied)
  | _ => ret None
  end.

Definition slf_create (j : JoinReq) : HM Loaded :=
  let uid := ParseUserId j.(j_AsUser) in
  user <-- load (users_profile uid) ;;
  match user with
  | None => fail (StoreErr ErrUserNotFound)
  | Some _ =>
      modify (fun t => set_owner t uid) ;;;
      auth <-- default_access true false ;; anon <-- default_access false false ;;
      modify (fun t => with_access t auth anon) ;;;
      set <-- pktsub j ;;
      let private := not_null (default ANil (sd_Private <$> (set ≫= js_Desc))) in
      tags <-- new_tags set ;;
      modify (fun t => put_user t uid (mkPud 0 0 0 [] 0 private auth auth "" false false)) ;;;
      modify (fun t => with_touched t now) ;;;
      topics_create j.(j_RcptTo) (new_row uid auth anon false ANil ANil tags) uid auth auth private ;;;
      ret (mkLoaded ANil ANil tags now now true true)
  end.

Definition initTopicSlf (j : JoinReq) : HM Loaded :=
  modify (fun t => with_kind t TopicCatSlf t.(t_isChan)) ;;;
  t <-- get_topic ;;
  stopic <-- load (topics_read t.(t_name)) ;;
  match stopic with
  | None => slf_create j
  | Some r =>
      loadSubscribers ;;;
      t <-- get_topic ;;
      if (size t.(perUser) =? 0)%nat then fail (StoreErr ErrInternal)
      else
        modify (fun t => set_aux (with_row t r) r.(ld_desc).(tp_Aux)) ;;;
        ret (mkLoaded ANil ANil None r.(ld_desc).(tp_CreatedAt) r.(ld_desc).(tp_UpdatedAt) false false)
  end.

(** ** The system topic *)

Definition initTopicSys : HM Loaded :=
  modify (fun t => with_kind t TopicCatSys t.(t_isChan)) ;;;
  t <-- get_topic ;;
  stopic <-- load (topics_read t.(t_name)) ;;
  match stopic with
  | None => fail (StoreErr ErrTopicNotFound)
  | Some r =>
      loadSubscribers ;;;
      modify (fun t => with_access t ModeWrite ModeWrite) ;;;
      modify (fun t => set_delID (with_row t r) t.(t_delID)) ;;;
      ret (mkLoaded r.(ld_desc).(tp_Public) r.(ld_desc).(tp_Trusted) None r.(ld_desc).(tp_CreatedAt) r.(ld_desc).(tp_UpdatedAt) false false)
  end.

(** ** Groups *)

(** The subscribers of a large official group: its owner and the one who joins. *)
Definition load_large (stored_owner : Uid) (j : option JoinReq) : HM unit :=
  modify (fun t => set_owner t stored_owner) ;;;
  if IsZeroUid stored_owner then fail (StoreErr ErrInternal)
  else
    found <-- loadSubscriber now stored_owner ;;
    if negb found then fail (StoreErr ErrInternal)
    else
      match j with
      | None => ret tt
      | Some j =>
          t <-- get_topic ;;
          let joining := ParseUserId j.(j_AsUser) in
          if (joining =? t.(owner))%N then ret tt else _ <-- loadSubscriber now joining ;; ret tt
      end.

Definition initTopicGrp (j : option JoinReq) : HM Loaded :=
  modify (fun t => with_kind t TopicCatGrp t.(t_isChan)) ;;;
  t <-- get_topic ;;
  if String.eqb t.(t_name) "" || (String.length t.(t_name) <=? 3)%nat then fail (StoreErr ErrMalformed)
  else
    cat <-- lift_option "invalid topic name" (GetTopicCat t.(t_name)) ;;
    if negb (cat_eqb cat TopicCatGrp) then fail (StoreErr ErrMalformed)
    else
      stopic <-- load (topics_read t.(t_name)) ;;
      match stopic with
      | None => fail (StoreErr ErrTopicNotFound)
      | Some r =>
          let d := r.(ld_desc) in
          modify (fun t => set_aux (with_access (with_kind t TopicCatGrp d.(tp_UseBt)) d.(tp_AccessAuth) d.(tp_AccessAnon)) d.(tp_Aux)) ;;;
          match officialPolicyFromAux t.(t_name) d.(tp_Aux) with
          | inr e => fail e
          | inl policy =>
              modify (fun t => set_official t policy now) ;;;
              t <-- get_topic ;;
              (if isOfficialLargeGroup t then load_large (ParseUid d.(tp_Owner)) j else loadSubscribers) ;;;
              modify (fun t => set_subCnt (with_row t r) d.(tp_SubCnt)) ;;;
              modify (fun t => with_original t t.(t_name)) ;;;
              ret (mkLoaded d.(tp_Public) d.(tp_Trusted) r.(ld_Tags) d.(tp_CreatedAt) d.(tp_UpdatedAt) false false)
          end
      end.

(** The access the creator asks for themselves. *)
Definition creator_want (set : option JoinSet) : AccessMode :=
  match set ≫= js_Sub with
  | Some (_, mode) =>
      if String.eqb mode "" then ModeCFull else (fst (UnmarshalText ModeCFull mode) |. (ModeJoin |. ModeOwner))
  | None => ModeCFull
  end.

Definition initTopicNewGrp (j : JoinReq) (isChan : bool) : HM Loaded :=
  modify (fun t => with_kind t TopicCatGrp isChan) ;;;
  let uid := ParseUserId j.(j_AsUser) in
  modify (fun t => set_owner t uid) ;;;
  auth0 <-- default_access true isChan ;; anon0 <-- default_access false isChan ;;
  set <-- pktsub j ;;
  let desc := set ≫= js_Desc in
  let trusted := default ANil (sd_Trusted <$> desc) in
  if negb (match trusted with ANil => true | _ => false end) && negb (j.(j_AuthLvl) =? LevelRoot) then fail (StoreErr ErrPermissionDenied)
  else
    let public := not_null (default ANil (sd_Public <$> desc)) in
    let trusted := not_null trusted in
    let private := not_null (default ANil (sd_Private <$> desc)) in
    let '(auth, anon) := new_group_access (desc ≫= sd_DefaultAcs) auth0 anon0 in
    modify (fun t => with_access t auth anon) ;;;
    let want := creator_want set in
    tags <-- new_tags set ;;
    modify (fun t => with_touched (put_user t uid (mkPud 0 0 0 [] 0 private want ModeCFull "" false false)) now) ;;;
    topics_create j.(j_RcptTo) (new_row uid auth anon isChan public trusted tags) uid want ModeCFull private ;;;
    t <-- get_topic ;;
    match j.(j_Attachments) with [] => ret tt | urls => call (fun s => (files_link t.(t_name) urls s, tt)) end ;;;
    modify (fun t => set_subCnt (with_original t t.(t_name)) 1) ;;;
    ret (mkLoaded public trusted tags now now true true).

(** ** Conversations *)

(** What the business policy says of the two. *)
Definition p2p_allowed (j : JoinReq) (original : string) : bool :=
  match businessPolicy with
  | None => true
  | Some authorize =>
      let actor := ParseUserId j.(j_AsUser) in
      let target :=
        if HasPrefix original "usr" then ParseUserId original
        else match ParseP2P original with
             | (first, second, None) => if Compare first actor =? 0 then second else first
             | _ => ZeroUid
             end in
      negb (IsZeroUid actor) && negb (IsZeroUid target) && authorize actor target original
  end.

Definition p2p_user (sub : Subscription) (private : Any) (other : Uid) : perUserData :=
  mkPud 0 sub.(s_RecvSeqId) sub.(s_ReadSeqId) sub.(s_ReadHistory) sub.(s_DelId) private sub.(s_ModeWant) sub.(s_ModeGiven)
    (UserId other) false false.

(** Case 4: both subscriptions are there. *)
Definition p2p_attach (a b : Subscription) (t : Topic) : Topic :=
  let ua := ParseUid a.(s_User) in
  let ub := ParseUid b.(s_User) in
  put_user (put_user t ua (p2p_user a a.(s_Private) ub)) ub (p2p_user b b.(s_Private) ua).

(** Who is found of the two, and which of them is the single subscriber. *)
Definition p2p_profiles (u1 : Uid) (users : list (Uid * StoredProfile)) : option (StoredProfile * StoredProfile) :=
  match users with
  | [(x, a); (_, b)] => Some (if (x =? u1)%N then (a, b) else (b, a))
  | _ => None
  end.
Definition p2p_single (u1 : Uid) (subs : list Subscription) : option Subscription * option Subscription :=
  match subs with
  | [s] => if String.eqb s.(s_User) (UidString u1) then (Some s, None) else (None, Some s)
  | _ => (None, None)
  end.

(** The subscription of the other user, but for the mode they want. *)
Definition invited_sub (name : string) (u2 : Uid) (p1 : StoredProfile) (set : option JoinSet) : Subscription :=
  let given := match (set ≫= js_Desc) ≫= sd_DefaultAcs with
               | Some (authText, _) => fst (UnmarshalText p1.(pf_AccessAuth) authText)
               | None => p1.(pf_AccessAuth)
               end in
  mkSub (UidString u2) name 0 ((given &. typesModeCP2P) |. ModeApprove) ANil 0 0 [] 0 None.

(** The access the other user gives by default. *)
Definition p2p_default (authLvl : Z) (p2 : StoredProfile) : AccessMode :=
  selectAccessMode authLvl p2.(pf_AccessAnon) p2.(pf_AccessAuth) typesModeCP2P.

(** The access a requester asks for; that of another user is not changed. *)
Definition requester_want (u1 : Uid) (set : option JoinSet) (want : AccessMode) : AccessMode :=
  match set ≫= js_Sub with
  | Some (user, mode) =>
      let uid := if String.eqb user "" then u1 else ParseUserId user in
      (if (uid =? u1)%N then (fst (UnmarshalText want mode) &. typesModeCP2P) |. ModeApprove else want) |. ModeJoin
  | None => want
  end.
Definition requester_sub (name : string) (u1 : Uid) (authLvl : Z) (p2 : StoredProfile) (sub2 : Subscription) (set : option JoinSet) : Subscription :=
  mkSub (UidString u1) name (requester_want u1 set sub2.(s_ModeGiven)) (p2p_default authLvl p2)
    (not_null (default ANil (sd_Private <$> (set ≫= js_Desc)))) 0 0 [] 0 None.

(** An update whose error is only logged. *)
Definition restore_logged (sub : Subscription) (uid : Uid) : HM unit :=
  _ <-- call (subs_restore sub.(s_Topic) uid sub.(s_ModeWant) sub.(s_ModeGiven) sub.(s_Private)) ;; ret tt.

(** [createOnly]: the requester's subscription alone is missing. *)
Definition p2p_store (exists_ createOnly : bool) (u1 u2 : Uid) (sub1 sub2 : Subscription) : HM unit :=
  if negb exists_ then exec_quiet (topic_create_p2p now sub1 sub2)
  else
    (if createOnly then exec_quiet (subs_create sub1) else restore_logged sub1 u1) ;;;
    restore_logged sub2 u2.

(** Cases 1 and 2: the conversation is new, or one of the two has no subscription. *)
Definition p2p_create (j : JoinReq) (exists_ : bool) (subs : list Subscription) : HM (bool * bool) :=
  t <-- get_topic ;;
  let u1 := ParseUserId j.(j_AsUser) in
  let u2 := ParseUserId t.(xoriginal) in
  users <-- load (users_get_all u1 u2) ;;
  match p2p_profiles u1 users with
  | None => fail (StoreErr ErrUserNotFound)
  | Some (p1, p2) =>
      let '(old1, old2) := p2p_single u1 subs in
      sub2 <-- match old2 with Some s => ret s | None => set <-- pktsub j ;; ret (invited_sub t.(t_name) u2 p1 set) end ;;
      sub1 <-- match old1 with Some s => ret s | None => set <-- pktsub j ;; ret (requester_sub t.(t_name) u1 j.(j_AuthLvl) p2 sub2 set) end ;;
      let sub2 := match old2 with
                  | Some _ => sub2
                  | None => mkSub sub2.(s_User) sub2.(s_Topic) ((p2p_default j.(j_AuthLvl) p2 &. typesModeCP2P) |. ModeApprove) sub2.(s_ModeGiven)
                              sub2.(s_Private) 0 0 [] 0 None
                  end in
      p2p_store exists_ (bool_decide (is_Some old2)) u1 u2 sub1 sub2 ;;;
      modify (fun t => if exists_ then t else with_touched t now) ;;;
      let private := match old1 with Some _ => ANil | None => sub1.(s_Private) end in
      modify (fun t => put_user (put_user t u1 (p2p_user sub1 private u2)) u2 (p2p_user sub2 ANil u1)) ;;;
      ret (bool_decide (old2 = None), bool_decide (old1 = None))
  end.

Definition initTopicP2P (j : JoinReq) : HM Loaded :=
  t <-- get_topic ;;
  if negb (p2p_allowed j t.(xoriginal)) then fail (StoreErr ErrPermissionDenied)
  else
    modify (fun t => with_kind t TopicCatP2P t.(t_isChan)) ;;;
    stopic <-- load (topics_read t.(t_name)) ;;
    flags <-- match stopic with
              | None => p2p_create j false []
              | Some r =>
                  subs <-- load (topics_get_users t.(t_name)) ;;
                  match subs with
                  | [] => fail (StoreErr ErrInternal)
                  | _ =>
                      modify (fun t => set_aux (with_row t r) r.(ld_desc).(tp_Aux)) ;;;
                      match subs with
                      | [a; b] => modify (p2p_attach a b) ;;; ret (false, false)
                      | _ => p2p_create j true subs
                      end
                  end
              end ;;
    modify (fun t => with_original t "") ;;;
    let '(created, updated) := match stopic with Some r => (r.(ld_desc).(tp_CreatedAt), r.(ld_desc).(tp_UpdatedAt)) | None => (now, now) end in
    ret (mkLoaded ANil ANil None created updated (fst flags) (snd flags)).

(** ** The dispatch of [topicInit] *)

Definition topicInit (j : JoinReq) : HM Loaded :=
  t <-- get_topic ;;
  let x := t.(xoriginal) in
  if String.eqb x "me" then initTopicMe j
  else if String.eqb x "fnd" then initTopicFnd j
  else if HasPrefix x "usr" || HasPrefix x "p2p" then initTopicP2P j
  else if HasPrefix x "new" then initTopicNewGrp j false
  else if HasPrefix x "nch" then initTopicNewGrp j true
  else if HasPrefix x "grp" || HasPrefix x "chn" then initTopicGrp (Some j)
  else if String.eqb x "sys" then initTopicSys
  else if String.eqb x "slf" then initTopicSlf j
  else fail (StoreErr ErrTopicNotFound).
End Init.
