(* ===== verification/TopicSession.v ===== *)
(** * TopicSession: sessions joining and leaving a topic

    [subscriptionReply] and [handleLeaveRequest] of internal/server/topic_sub.go
    with the notifications of topic_pres.go they send.  What a session record
    holds besides its identity (last action, user agent) is a parameter. *)

From Stdlib Require Import NArith ZArith Lia List Ascii String Bool.
From stdpp Require Import base tactics numbers list strings gmap sets.
From S2P Require Import Prelude AccessMode Uid StoreTypes SubStore Topic TopicSub.
Import Objects.
Import Topic.

#[local] Open Scope string_scope.
#[local] Open Scope N_scope.

(** The fields of a {sub} request the handler reads; [Set.Sub] as user, role and mode. *)
Record SubRequest := mkSubRequest {
  q_AsUid : Uid; q_AuthLvl : Z; q_Original : string; q_Created : bool; q_Newsub : bool;
  q_Invite : string; q_SetSub : option (string * string * string); q_Private : Any }.

Section Sessions.
Context {St : Type} `{Store : SubStore St}.
Context (typesModeCP2P : AccessMode) (maxSubscriberCount : Z) (now : Z).
(** The last action and user agent of a session. *)
Context (lastAction : string -> Z) (sessUserAgent : string -> string).

Abbreviation HM A := (M (St := St) A) (only parsing).

(** [mostRecentSession]: the session with the latest action after time zero. *)
Definition mostRecentSession (t : Topic) : option string :=
  fst (fold_left (fun acc kv =>
         if (snd acc <? lastAction (fst kv))%Z then (Some (fst kv), lastAction (fst kv)) else acc)
       (map_to_list t.(t_sessions)) (None, 0%Z)).

(** *** Leaving *)

Definition dec_online (t : Topic) (uid : Uid) : Topic :=
  let pud := user t uid in put_user t uid (with_online pud (pud.(online) - 1)).

(** A user of a group whose last session left. *)
Definition group_user_left (asChan : bool) (uid : Uid) : HM unit :=
  t <-- get_topic ;;
  if ((user t uid).(online) =? 0)%Z then
    if asChan then set_topic (del_user t uid)
    else
      emit (PresSubsOnline "off" (UserId uid) nilPresParams (mkFilters ModeRead 0 "" "") "") ;;;
      evictColdSubscriber uid
  else ret tt.

Fixpoint for_users (f : Uid -> HM unit) (us : list Uid) : HM unit :=
  match us with [] => ret tt | u :: us' => f u ;;; for_users f us' end.

(** The part of [handleLeaveRequest] after the session has been removed. *)
Definition after_leave (sess : Session) (init asChan : bool) (asUid : Uid) (pssd : perSessionData) : HM unit :=
  when (negb (isProxy sess)) (t <-- get_topic ;; emit (DelSub (sid sess) t.(t_name))) ;;;
  if negb (Bool.eqb pssd.(isChanSub) asChan) then when init (queueOut sess ErrNotFoundReply)
  else
    let uid := if isProxy sess then asUid else pssd.(ps_uid) in
    (if negb (IsZeroUid uid) then
       t <-- get_topic ;;
       when (negb (background sess)) (set_topic (dec_online t uid))
     else match pssd.(muids) with
          | _ :: _ => for_users (fun u => modify (fun t => dec_online t u)) pssd.(muids)
          | [] => if isCluster sess then ret tt else panic "无法确定 uid: leave req"
          end) ;;;
    t <-- get_topic ;;
    match t.(t_cat) with
    | TopicCatMe =>
        ua <-- match mostRecentSession t with
               | None => ret (sessUserAgent (sid sess))
               | Some s => emit (SessionUpdate (sessUserAgent s)) ;;; ret (sessUserAgent s)
               end ;;
        let meUid := if IsZeroUid uid then match pssd.(muids) with u :: _ => u | [] => uid end else uid in
        when (negb (IsZeroUid meUid)) (emit (UpdateLastSeen meUid ua))
    | TopicCatFnd => emit (FndRemovePublic (sid sess))
    | TopicCatGrp =>
        if negb (IsZeroUid uid) then group_user_left asChan uid
        else for_users (group_user_left asChan) pssd.(muids)
    | _ => ret tt
    end ;;;
    when (negb (IsZeroUid uid) && init) (queueOut sess NoErrReply).

Definition handleLeaveRequest (sess : Session) (init unsub : bool) (orig : string) (asUser : Uid) : HM unit :=
  t <-- get_topic ;;
  let asUid := if init then asUser else 0 in
  let '(asChan, err) := if init then verifyChannelAccess t orig else (false, None) in
  match err with Some _ => queueOut sess ErrNotFoundReply | None => ret tt end ;;;
  if isInactive t then when (negb (IsZeroUid asUid) && init) (queueOut sess ErrLockedReply)
  else if init && unsub then
    (fun w => match replyLeaveUnsub sess init orig asUid w with
              | (w', Err _) => (w', Ret tt)
              | r => r
              end)
  else
    match remSession t sess asUid with
    | (_, None, _) => ret tt
    | (t', Some pssd, _) => set_topic t' ;;; after_leave sess init asChan asUid pssd
    end.

(** *** Joining *)

Definition sendSubNotifications (asUid : Uid) (sid userAgent : string) : HM unit :=
  t <-- get_topic ;;
  match t.(t_cat) with
  | TopicCatMe =>
      when (negb (isLoaded t))
        (set_topic (markLoaded t) ;;; emit (LoadContacts asUid) ;;; emit (PresUsersOfInterest "on" userAgent))
  | TopicCatGrp =>
      let pud := user t asUid in
      if pud.(pud_isChan) then ret tt
      else if negb (isLoaded t) then
        set_topic (markLoaded t) ;;;
        emit (PresSubsOffline (if IsPresencer (pud.(modeGiven) &. pud.(modeWant)) then "on+en" else "on")
                nilPresParams nilPresFilters nilPresFilters "" false)
      else when (pud.(online) =? 1)%Z
        (emit (PresSubsOnline "on" (UserId asUid) nilPresParams (mkFilters ModeRead 0 "" "") sid))
  | _ => ret tt
  end.

Definition sendImmediateSubNotifications (asUid : Uid) (acs : MsgAccessMode) (sess : Session)
    (q : SubRequest) : HM unit :=
  t <-- get_topic ;;
  let mode := fst (ParseAcs acs.(am_Want)) &. fst (ParseAcs acs.(am_Given)) in
  let asChan := t.(t_isChan) && IsChannel q.(q_Original) in
  (if cat_eqb t.(t_cat) TopicCatP2P then
     uid2 <-- lift_option "Not a valid P2P topic" (p2pOtherUser t asUid) ;;
     let pud2 := user t uid2 in
     let mode2 := if pud2.(deleted) then ModeInvalid else pud2.(modeGiven) &. pud2.(modeWant) in
     when q.(q_Created)
       (emit (PresSingleUserOffline uid2 mode2 "acs"
          (mkParams "" (UserId asUid) (ModeString pud2.(modeWant)) (ModeString pud2.(modeGiven))) "" false)) ;;;
     when q.(q_Newsub)
       (emit (PresSingleUserOffline asUid mode "?none+en" nilPresParams "" false) ;;;
        emit (PresSingleUserOffline uid2 mode2 (if IsPresencer mode2 then "?unkn+en" else "?unkn") nilPresParams "" false) ;;;
        emit (PushForP2PSub asUid uid2 pud2.(modeWant) pud2.(modeGiven)))
   else when (cat_eqb t.(t_cat) TopicCatGrp && negb asChan && q.(q_Newsub)) (emit (PushForGroupSub asUid))) ;;;
  when q.(q_Newsub)
    (emit (PresSingleUserOffline asUid mode "acs"
       (mkParams "" (UserId asUid) acs.(am_Want) acs.(am_Given)) (sid sess) false) ;;;
     when asChan (emit_all (pushTopicSubUnsub t asUid true))).

Definition with_newsub (q : SubRequest) (b : bool) : SubRequest :=
  mkSubRequest q.(q_AsUid) q.(q_AuthLvl) q.(q_Original) q.(q_Created) b q.(q_Invite) q.(q_SetSub) q.(q_Private).

(** The session is attached and the user counted once it has joined. *)
Definition attach (sess : Session) (asUid : Uid) (asChan newsub : bool) : HM unit :=
  t <-- get_topic ;;
  emit (AddSub (sid sess) t.(t_name)) ;;;
  set_topic (addSession t sess asUid asChan) ;;;
  when (negb (background sess))
    (modify (fun t => put_user t asUid (with_online (user t asUid) ((user t asUid).(online) + 1)))) ;;;
  when (cat_eqb t.(t_cat) TopicCatGrp && newsub) (modify (fun t => set_subCnt t (t.(subCnt) + 1))) ;;;
  when (isOfficialLargeGroup t && newsub) (emit_all (pushTopicSubUnsub t asUid true)).

Definition subscriptionReply (sess : Session) (asChan : bool) (q : SubRequest) : HM unit :=
  t <-- get_topic ;;
  let asUid := q.(q_AsUid) in
  (if isOfficialLargeGroup t then
     (fun w => match loadSubscriber now asUid w with
               | (w', Err e) => reject sess ErrUnknownReply e w'
               | (w', Ret _) => (w', Ret tt)
               | (w', Panic p) => (w', Panic p)
               end)
   else ret tt) ;;;
  t <-- get_topic ;;
  let newsub :=
    q.(q_Newsub) ||
    ((cat_eqb t.(t_cat) TopicCatP2P || cat_eqb t.(t_cat) TopicCatGrp) &&
     (negb (bool_decide (is_Some (t.(perUser) !! asUid))) || (user t asUid).(deleted))) in
  let q := with_newsub q newsub in
  mode <-- match q.(q_SetSub) with
           | None => ret ""
           | Some (u, role, mode) =>
               if negb (String.eqb u "") then reject sess ErrMalformedReply (TextErr "不得指定用户 ID")
               else if negb (String.eqb role "") then reject sess ErrMalformedReply (TextErr "订阅请求不能修改成员角色")
               else ret mode
           end ;;
  modeChanged <-- thisUserSub typesModeCP2P maxSubscriberCount now sess
                    (mkRequest q.(q_AuthLvl) q.(q_Original) newsub "" "") asUid asChan mode q.(q_Private) q.(q_Invite) ;;
  let hasJoined :=
    match modeChanged with
    | Some acs => match ParseAcs acs.(am_Mode) with (m, None) => IsJoiner m | (_, Some _) => true end
    | None => true
    end in
  when hasJoined (attach sess asUid asChan newsub) ;;;
  t <-- get_topic ;;
  toriginal <-- lift_option "Invalid P2P topic" (original t asUid) ;;
  queueOut sess (NoErrSub toriginal modeChanged
    (if q.(q_Created) && negb (String.eqb q.(q_Original) toriginal) then Some q.(q_Original) else None)) ;;;
  let q := if q.(q_Created) && negb (String.eqb q.(q_Original) toriginal)
           then mkSubRequest q.(q_AsUid) q.(q_AuthLvl) toriginal q.(q_Created) q.(q_Newsub) q.(q_Invite) q.(q_SetSub) q.(q_Private)
           else q in
  match modeChanged with Some acs => sendImmediateSubNotifications asUid acs sess q | None => ret tt end ;;;
  when (negb (background sess) && hasJoined) (sendSubNotifications asUid (sid sess) (sessUserAgent (sid sess))).

(** *** {set sub}: topic_meta_subscriptions.go *)

(** [replySetSub]; [user] is set.sub.user. *)
Definition replySetSub (sess : Session) (asUid : Uid) (user : string) (pkt : Request) (asChan : bool) : HM unit :=
  if negb (String.eqb pkt.(r_SetRole) "") && negb (String.eqb pkt.(r_SetMode) "")
  then reject sess ErrMalformedReply (TextErr "set.sub role and mode are mutually exclusive")
  else
    let target := ParseUserId user in
    if IsZeroUid target && negb (String.eqb user "")
    then reject sess ErrMalformedReply (TextErr "invalid user id")
    else
      let target := if IsZeroUid target then asUid else target in
      t <-- get_topic ;;
      if negb (target =? asUid) && isOfficialTopic t
      then reject sess ErrPermissionDeniedReply (TextErr "官方频道成员角色只能通过平台管理接口修改")
      else
        modeChanged <--
          (if target =? asUid then
             if negb (String.eqb pkt.(r_SetRole) "")
             then reject sess ErrMalformedReply (TextErr "set.sub role requires an explicit target user")
             else thisUserSub typesModeCP2P maxSubscriberCount now sess pkt asUid asChan pkt.(r_SetMode) ANil ""
           else if negb (String.eqb pkt.(r_SetRole) "")
           then setAnotherUserRole maxSubscriberCount sess asUid target asChan pkt
           else anotherUserSub typesModeCP2P maxSubscriberCount sess asUid target asChan pkt) ;;
        match modeChanged with
        | Some acs => queueOut sess (NoErrParamsReply acs (if target =? asUid then None else Some (UserId target)))
        | None => queueOut sess InfoNotModifiedReply
        end.
End Sessions.
