(* ===== verification/TopicSubProps.v ===== *)
(** * TopicSubProps: properties of subscriptions and member roles

    The access transitions, the business roles, who may change whose access, and
    what a failed or successful change leaves in the cache and in the store. *)

From Stdlib Require Import NArith ZArith Lia List Ascii String Bool.
From stdpp Require Import base tactics numbers list strings gmap sets.
From S2P Require Import Prelude AccessMode Uid StoreTypes SubStore Topic TopicSub.
Import Objects.
Import Topic.

#[local] Open Scope string_scope.
#[local] Open Scope N_scope.

(** ** Access transitions *)

Lemma IsAdmin_ldiff_owner m : IsOwner (m &^ ModeOwner) = false.
Proof. rewrite IsOwner_testbit, N.ldiff_spec. unfold ModeOwner. by rewrite andb_false_r. Qed.

Lemma cat_eqb_spec a b : cat_eqb a b = true <-> a = b.
Proof. apply bool_decide_eq_true. Qed.

Lemma plan_given_spec i g oc :
  plan_given i = inl (g, oc) ->
  (g = i.(ti_oldGiven) \/
   (IsOwner i.(ti_oldGiven) = true /\ IsOwner i.(ti_requested) = true /\ g = i.(ti_oldGiven) |. i.(ti_requested)) \/
   (i.(ti_category) = TopicCatGrp /\ IsOwner i.(ti_oldGiven) = false /\ IsAdmin i.(ti_oldGiven) = true /\
    IsOwner i.(ti_requested) = false /\ g = i.(ti_oldGiven) |. (i.(ti_requested) &^ ModeDelete))) /\
  (oc = true -> IsOwner i.(ti_oldGiven) = true /\ IsOwner i.(ti_requested) = true /\ IsOwner i.(ti_oldWant) = false).
Proof.
  unfold plan_given. cbv zeta. destruct (ti_requested i =? ModeUnset); [intros [= <- <-]; split; [auto|done]|].
  destruct (ti_isTopicOwner i && (negb (IsOwner (ti_requested i)) || negb (IsJoiner (ti_requested i)))); [done|]. destruct (IsOwner (ti_oldGiven i)) eqn:Eo.
  - assert (IsOwner (ti_requested i) && negb (IsOwner (ti_oldWant i)) = true ->
      true = true /\ IsOwner (ti_requested i) = true /\ IsOwner (ti_oldWant i) = false) as Hoc.
    { by intros [-> ->%negb_true_iff]%andb_true_iff. }
    destruct (IsOwner (ti_requested i)) eqn:Er; simpl in *.
    + destruct (BetterEqual (ti_oldGiven i) (ti_requested i)); simpl; intros [= <- <-]; split; auto 6.
    + intros [= <- <-]. split; [auto|done].
  - destruct (IsOwner (ti_requested i)) eqn:Er; [done|].
    destruct (cat_eqb (ti_category i) TopicCatGrp && IsAdmin (ti_oldGiven i) && IsAdmin (ti_requested i)) eqn:Ec; [|intros [= <- <-]; split; [auto|done]].
    apply andb_true_iff in Ec as [[Ec%cat_eqb_spec Ea]%andb_true_iff _].
    destruct (BetterEqual (ti_oldGiven i) (ti_requested i &^ ModeDelete)); simpl; intros [= <- <-]; (split; [auto 8|done]).
Qed.

(** C12: a subscriber who changes their own access never gains what nobody gave them: the given mode keeps
    its bits, the owner bit comes only from a given owner bit, an administrator of a group
    adds at most the bits they request except the deletion of messages, and everybody
    else's stays as it was; ownership moves only to a user who was given it, asks for it and had not yet
    accepted it; the owner of the topic keeps the owner and join bits. *)
Theorem self_transition_safe i tr :
  planExistingSelfSubscription i = inl tr ->
  (forall b, N.testbit i.(ti_oldGiven) b = true -> N.testbit tr.(tr_given) b = true) /\
  (IsOwner tr.(tr_given) = IsOwner i.(ti_oldGiven)) /\
  (IsAdmin i.(ti_oldGiven) = false -> tr.(tr_given) = i.(ti_oldGiven)) /\
  (IsOwner i.(ti_oldGiven) = false ->
     forall b, N.testbit tr.(tr_given) b = true -> N.testbit i.(ti_oldGiven) b = true \/
       (N.testbit i.(ti_requested) b = true /\ b <> 6)) /\
  (tr.(tr_ownerChange) = true ->
     IsOwner i.(ti_oldGiven) = true /\ IsOwner i.(ti_requested) = true /\ IsOwner i.(ti_oldWant) = false) /\
  (i.(ti_isTopicOwner) = true -> i.(ti_requested) <> ModeUnset ->
     i.(ti_category) <> TopicCatP2P -> i.(ti_category) <> TopicCatSys ->
     IsOwner tr.(tr_want) = true /\ IsJoiner tr.(tr_want) = true).
Proof.
  unfold planExistingSelfSubscription. destruct (plan_given i) as [[g oc]|] eqn:Eg; [|done].
  intros [= <-]. cbn [tr_given tr_want tr_ownerChange].
  pose proof (plan_given_spec _ _ _ Eg) as [Hg Hoc].
  assert (forall x y b, N.testbit (x |. y) b = N.testbit x b || N.testbit y b) as Hor by (intros; apply N.lor_spec).
  split; [|split; [|split; [|split; [|split; [exact Hoc|]]]]].
  - intros b Hb. destruct Hg as [->|[(_ & _ & ->)|(_ & _ & _ & _ & ->)]]; rewrite ?Hor, ?Hb; done.
  - rewrite !IsOwner_testbit. destruct Hg as [->|[(H1 & H2 & ->)|(_ & H1 & _ & H2 & ->)]]; [done| ..];
      rewrite Hor; rewrite IsOwner_testbit in H1, H2.
    + by rewrite H1.
    + rewrite H1, N.ldiff_spec, H2. done.
  - intros Ha. destruct Hg as [->|[(H1 & _ & _)|(_ & _ & H1 & _)]]; [done| ..]; [|congruence].
    unfold IsAdmin in Ha. by rewrite H1 in Ha.
  - intros Ho b. destruct Hg as [->|[(H1 & _ & _)|(_ & _ & _ & _ & ->)]]; [auto|congruence|].
    rewrite Hor, N.ldiff_spec. intros [H|[H1 H2%negb_true_iff]%andb_true_iff]%orb_true_iff; [by left|right].
    split; [done|]. intros ->. by vm_compute in H2.
  - intros Hto Hr Hp Hs. unfold plan_given in Eg. cbv zeta in Eg. rewrite Hto in Eg.
    apply N.eqb_neq in Hr. rewrite Hr in Eg. unfold plan_requested. cbv zeta. rewrite Hr.
    destruct (IsOwner (ti_requested i)) eqn:Eo; [|done]. destruct (IsJoiner (ti_requested i)) eqn:Ej; [|done].
    assert (match ti_category i with
       | TopicCatP2P => (ti_requested i &. ti_p2pAccess i) |. ModeApprove
       | TopicCatSys => ti_requested i &. ((ti_requested i &. ModeCSys) |. ModeWrite)
       | _ => ti_requested i end = ti_requested i) as -> by (by destruct (ti_category i)).
    rewrite Hr. destruct (N.eqb_spec (ti_oldWant i) (ti_requested i)) as [->|]; simpl; auto.
Qed.

Lemma self_transition_safe_witness :
  planExistingSelfSubscription
    (mkTransitionIn TopicCatGrp false memberAccess (memberAccess |. ModeApprove) (ModeCFull &^ ModeOwner) 0 ModeCP2P)
    = inl (mkTransition (ModeCFull &^ ModeOwner) (ModeCFull &^ (ModeOwner |. ModeDelete)) false) /\
  IsOwner (ModeCFull &^ (ModeOwner |. ModeDelete)) = IsOwner (memberAccess |. ModeApprove).
Proof.
  assert (planExistingSelfSubscription
    (mkTransitionIn TopicCatGrp false memberAccess (memberAccess |. ModeApprove) (ModeCFull &^ ModeOwner) 0 ModeCP2P)
    = inl (mkTransition (ModeCFull &^ ModeOwner) (ModeCFull &^ (ModeOwner |. ModeDelete)) false)) as H
    by (vm_compute; reflexivity).
  split; [exact H|]. exact (proj1 (proj2 (self_transition_safe _ _ H))).
Defined.

(** ** Business roles *)

Lemma resolve_cases role channel a :
  resolveTopicRole role channel = inl a ->
  a = mkRole "admin" (ModeCFull &^ ModeOwner) false \/ a = mkRole "banned" ModeNone channel \/
  (channel = true /\ (a = mkRole "publisher" memberAccess false \/ a = mkRole "subscriber" ModeCChnReader true)) \/
  (channel = false /\ (a = mkRole "member" memberAccess false \/ a = mkRole "readonly" ModeCChnReader false)).
Proof.
  unfold resolveTopicRole. cbv zeta. generalize (ToLower (TrimSpace role)) as r. intros r.
  destruct (String.eqb_spec r "admin") as [->|]; [intros [= <-]; auto 9|].
  destruct (String.eqb_spec r "banned") as [->|]; [intros [= <-]; auto 9|].
  destruct channel.
  - destruct (String.eqb_spec r "publisher") as [->|]; [intros [= <-]; auto 9|].
    destruct (String.eqb r "subscriber" || String.eqb r "readonly"); [intros [= <-]; auto 9|done].
  - destruct (String.eqb_spec r "member") as [->|]; [intros [= <-]; auto 9|].
    destruct (String.eqb_spec r "readonly") as [->|]; [intros [= <-]; auto 9|done].
Qed.

(** roles round-trip through access modes: the role a client asks for is the one reported from the access it is
    resolved to, and no role grants ownership. *)
Theorem role_round_trip role channel a :
  resolveTopicRole role channel = inl a ->
  topicRoleFromAccess a.(ro_Mode) channel a.(ro_ChannelSub) = a.(ro_Name) /\
  IsOwner a.(ro_Mode) = false /\ a.(ro_Mode) < 256 /\
  resolveTopicRole a.(ro_Name) channel = inl a.
Proof.
  intros H. apply resolve_cases in H as [-> | [-> | [[-> [-> | ->]] | [-> [-> | ->]]]]]; try destruct channel; vm_compute; auto.
Qed.

Lemma role_round_trip_witness :
  exists a, resolveTopicRole " ReadOnly " true = inl a /\
    topicRoleFromAccess a.(ro_Mode) true a.(ro_ChannelSub) = "subscriber".
Proof.
  exists (mkRole "subscriber" ModeCChnReader true).
  assert (resolveTopicRole " ReadOnly " true = inl (mkRole "subscriber" ModeCChnReader true)) as H
    by (vm_compute; reflexivity).
  split; [exact H|]. exact (proj1 (role_round_trip _ _ _ H)).
Defined.

(** ** Changing somebody else's role *)

(** The state the rest of a handler can rely on after members were evicted: the same topic, with at most fewer
    members and nobody's access changed. *)
Definition shrinks {St} (w w' : World St) : Prop :=
  let t := w.(w_topic) in let t' := w'.(w_topic) in
  t'.(t_name) = t.(t_name) /\ t'.(t_cat) = t.(t_cat) /\ t'.(t_isChan) = t.(t_isChan) /\
  t'.(owner) = t.(owner) /\
  forall u p', t'.(perUser) !! u = Some p' -> exists p, t.(perUser) !! u = Some p /\
    p'.(modeWant) = p.(modeWant) /\ p'.(modeGiven) = p.(modeGiven) /\ p'.(pud_isChan) = p.(pud_isChan).

#[global] Instance shrinks_preorder {St} : PreOrder (shrinks (St := St)).
Proof.
  split.
  - intros w. repeat split. intros u p' H. by exists p'.
  - intros a b c (A1 & A2 & A3 & A4 & A5) (B1 & B2 & B3 & B4 & B5).
    repeat split; [congruence..|]. intros u p' H.
    destruct (B5 u p' H) as (p & Hp & E1 & E2 & E3). destruct (A5 u p Hp) as (q & Hq & F1 & F2 & F3).
    exists q. repeat split; [done|congruence..].
Qed.

Section Roles.
Context {St : Type} `{Laws : SubStoreLaws St}.
Context (typesModeCP2P : AccessMode) (maxSubscriberCount : Z) (now : Z).

Lemma same_topic_shrinks (w w' : World St) : same_topic w w' -> shrinks w w'.
Proof. intros E. unfold shrinks. rewrite E. repeat split. intros u p' H'. by exists p'. Qed.

Lemma frame_shrinks {A} (m : M (St := St) A) : frame same_topic m -> frame shrinks m.
Proof. intros Hm w. apply same_topic_shrinks, Hm. Qed.

Lemma remSession_perUser t s u t' p b :
  remSession t s u = (t', p, b) ->
  t'.(perUser) = t.(perUser) /\ t'.(t_name) = t.(t_name) /\ t'.(t_cat) = t.(t_cat) /\
  t'.(t_isChan) = t.(t_isChan) /\ t'.(owner) = t.(owner).
Proof.
  unfold remSession. destruct (t_sessions t !! _) as [[s0 pssd]|]; [|by intros [= <- _ _]].
  destruct (_ || _); [by intros [= <- _ _]|]. destruct (index_of _ _); [|by intros [= <- _ _]].
  simpl. destruct (swap_remove _ _); by intros [= <- _ _].
Qed.

Lemma evict_sessions_shrinks uid skip r ss : frame shrinks (evict_sessions (St := St) uid skip r ss).
Proof.
  induction ss as [|[k [s p]] ss IH]; simpl; [apply frame_ret, _|].
  intros w. unfold bind at 1, get_topic. simpl.
  destruct (remSession (w_topic w) s uid) as [[t' [pssd|]] b] eqn:E; [|apply IH].
  apply remSession_perUser in E as (E1 & E2 & E3 & E4 & E5).
  unfold bind at 1, set_topic. simpl.
  assert (frame (St := St) shrinks ((if b then emit (DetachSession (sid s) (t_name (w_topic w))) else ret tt) ;;;
     (if String.eqb (sid s) skip then ret tt else emit (QueueOut (sid s) r)) ;;;
     evict_sessions uid skip r ss)) as Hrest.
  { repeat (apply frame_bind; [apply _| |intros []]); [| |exact IH]; apply frame_shrinks; [destruct b|destruct (String.eqb _ _)]; handler. }
  etransitivity; [|apply Hrest].
  repeat split; simpl; [done..|]. rewrite E1. intros u p' Hp. by exists p'.
Qed.

Lemma put_user_shrinks (w : World St) u p q :
  (w_topic w).(perUser) !! u = Some p -> q.(modeWant) = p.(modeWant) -> q.(modeGiven) = p.(modeGiven) ->
  q.(pud_isChan) = p.(pud_isChan) -> shrinks w (mkWorld (put_user (w_topic w) u q) (w_store w) (w_out w)).
Proof.
  intros Hp E1 E2 E3. repeat split; simpl. intros v p' [[<- <-]|[_ Hv]]%lookup_insert_Some; [by exists p|by exists p'].
Qed.

Lemma del_user_shrinks (w : World St) u :
  shrinks w (mkWorld (del_user (w_topic w) u) (w_store w) (w_out w)).
Proof. repeat split; simpl. intros v p' [_ Hv]%lookup_delete_Some. by exists p'. Qed.

Lemma evictUser_shrinks uid skip : frame shrinks (evictUser (St := St) uid false skip).
Proof.
  intros w. unfold evictUser. unfold bind at 1, get_topic. simpl.
  unfold bind at 1. destruct (original _ _); simpl; [|reflexivity].
  unfold bind. case_bool_decide as Hok; [|simpl; apply evict_sessions_shrinks].
  destruct Hok as [p Hp]. assert (user (w_topic w) uid = p) as -> by (unfold user; by rewrite Hp).
  destruct (pud_isChan p) eqn:Ec; simpl; (etransitivity; [|apply evict_sessions_shrinks]).
  - apply del_user_shrinks.
  - by apply (put_user_shrinks w uid p).
Qed.

Lemma union_perUser t : (computePerUserAcsUnion t).(perUser) = t.(perUser).
Proof. unfold computePerUserAcsUnion. by destruct (t_isChan t). Qed.
Lemma union_owner t : (computePerUserAcsUnion t).(owner) = t.(owner).
Proof. unfold computePerUserAcsUnion. by destruct (t_isChan t). Qed.
Lemma union_meta t : (computePerUserAcsUnion t).(t_name) = t.(t_name) /\
  (computePerUserAcsUnion t).(t_cat) = t.(t_cat) /\ (computePerUserAcsUnion t).(t_isChan) = t.(t_isChan).
Proof. unfold computePerUserAcsUnion. destruct (t_isChan t) eqn:E; simpl; auto. Qed.

Lemma union_shrinks (w : World St) :
  shrinks w (mkWorld (computePerUserAcsUnion (w_topic w)) (w_store w) (w_out w)).
Proof.
  destruct (union_meta (w_topic w)) as (E1 & E2 & E3). unfold shrinks. cbn [w_topic].
  rewrite E1, E2, E3, union_owner, union_perUser. repeat split. intros u p' Hp. by exists p'.
Qed.

Lemma evictCold_shrinks uid : frame shrinks (evictColdSubscriber (St := St) uid).
Proof.
  intros w. unfold evictColdSubscriber, bind at 1, get_topic. simpl.
  destruct (_ || _); [reflexivity|]. destruct (perUser (w_topic w) !! uid) as [pud|]; [|reflexivity].
  destruct (_ <? _)%Z; [reflexivity|]. destruct (_ || _); [reflexivity|]. simpl.
  set (t := set_refreshed _ _). transitivity (mkWorld t (w_store w) (w_out w)); [|apply (union_shrinks (mkWorld t (w_store w) (w_out w)))].
  exact (del_user_shrinks w uid).
Qed.

(** The subscription a role change starts from, and whether it is in the channel namespace. *)
Definition known_sub (t : Topic) (s : St) (target : Uid) : option Subscription * bool :=
  match t.(perUser) !! target with
  | Some pud =>
      (Some (mkSub (UidString target) (if pud.(pud_isChan) then GrpToChn t.(t_name) else t.(t_name))
               pud.(modeWant) pud.(modeGiven) pud.(private) pud.(delID) pud.(readID) [] pud.(recvID) None),
       pud.(pud_isChan))
  | None =>
      match live (row s t.(t_name) target) with
      | Some x => (Some x, false)
      | None =>
          if t.(t_isChan) then
            let c := live (row s (GrpToChn t.(t_name)) target) in
            (c, match c with Some _ => true | None => false end)
          else (None, false)
      end
  end.

Lemma get_same_rows topic u keep : forall (s : St) t' u', row (subs_get topic u keep s).1 t' u' = row s t' u'.
Proof. intros s. apply (law_get topic u keep s). Qed.

Lemma store_or_ret {A} sess r (f : St -> St * (A + GoError)) w w' a :
  store_or sess r f w = (w', Ret a) ->
  (f (w_store w)).2 = inl a /\ w' = mkWorld (w_topic w) (f (w_store w)).1 (w_out w).
Proof.
  unfold store_or, bind, call. destruct (f (w_store w)) as [s [x|e]]; simpl; [|done]. by intros [= <- <-].
Qed.

Lemma current_subscription_spec sess t target w w' c :
  current_subscription sess t target w = (w', Ret c) ->
  same_topic w w' /\ same_rows w w' /\ c = known_sub t (w_store w) target.
Proof.
  unfold current_subscription, known_sub. destruct (perUser t !! target) as [pud|].
  { intros [= <- <-]. done. }
  intros (w1 & x & H1 & H2)%bind_ret_inv. apply store_or_ret in H1 as [Hx ->].
  pose proof (law_get (t_name t) target false (w_store w)) as [Hr Hv]. apply Hv in Hx as ->.
  unfold live. destruct (visible false (row (w_store w) (t_name t) target)) as [x|].
  { injection H2 as <- <-. repeat split. intros t' u'. apply Hr. }
  destruct (t_isChan t); [|injection H2 as <- <-; repeat split; intros t' u'; apply Hr].
  apply bind_ret_inv in H2 as (w2 & y & H2 & H3). apply store_or_ret in H2 as [Hy ->].
  injection H3 as <- <-. simpl in *.
  pose proof (law_get (GrpToChn (t_name t)) target false (subs_get (t_name t) target false (w_store w)).1) as [Hr' Hv'].
  apply Hv' in Hy as ->. rewrite Hr. repeat split. intros t' u'. simpl. by rewrite Hr', Hr.
Qed.

(** The fields a change of the subscriber count leaves alone. *)
Definition same_members (w w' : World St) : Prop :=
  w'.(w_topic).(perUser) = w.(w_topic).(perUser) /\ w'.(w_topic).(owner) = w.(w_topic).(owner) /\
  w'.(w_topic).(t_name) = w.(w_topic).(t_name) /\ isOfficialTopic w'.(w_topic) = isOfficialTopic w.(w_topic).

Lemma same_topic_members w w' : same_topic w w' -> same_members w w'.
Proof. intros E. unfold same_members. by rewrite E. Qed.

Lemma exec_or_ret sess r (f : St -> St * option GoError) w w' x :
  exec_or sess r f w = (w', Ret x) ->
  (f (w_store w)).2 = None /\ w' = mkWorld (w_topic w) (f (w_store w)).1 (w_out w).
Proof.
  unfold exec_or, bind, call. destruct (f (w_store w)) as [s [e|]]; simpl; [done|]. by intros [= <- _].
Qed.

Lemma exec_or_err sess r (f : St -> St * option GoError) w w' e :
  exec_or sess r f w = (w', Err e) ->
  (f (w_store w)).2 = Some e /\ w_topic w' = w_topic w /\ w_store w' = (f (w_store w)).1.
Proof.
  unfold exec_or, bind, call. destruct (f (w_store w)) as [s [e'|]]; simpl; [|done]. by intros [= <- <-].
Qed.

Lemma check_new_member_rows sess t target limited : frame same_rows (check_new_member maxSubscriberCount sess t target limited).
Proof.
  unfold check_new_member. destruct (_ && _); [apply reject_same_rows|].
  apply frame_bind; [apply _|apply store_or_same_rows; intros; apply law_users|].
  intros [u|]; [destruct (negb _)|]; handler.
Qed.

Lemma check_new_member_topic sess t target limited : frame same_topic (check_new_member maxSubscriberCount sess t target limited).
Proof. unfold check_new_member. handler. Qed.

(** The stored subscriptions after a successful change from [s0] to [s]: the member's row in the role's namespace
    is live with the role's access, unless a cached member had no live row there (the update then finds
    nothing); the row in the other namespace has ended; and nobody else's rows changed. *)
Definition role_stored (s0 s : St) (target : Uid) (current : option Subscription) (key : string) (m : AccessMode) : Prop :=
  ((exists r, live (row s key target) = Some r /\ r.(s_ModeWant) = m /\ r.(s_ModeGiven) = m) \/
   ((exists cur, current = Some cur /\ cur.(s_Topic) = key) /\
    live (row s0 key target) = None /\ live (row s key target) = None)) /\
  (forall cur, current = Some cur -> cur.(s_Topic) <> key -> live (row s cur.(s_Topic) target) = None) /\
  (forall t' u', u' <> target -> live (row s t' u') = live (row s0 t' u')).

Lemma live_updated upd o : live (updated_row upd <$> o) = updated_row upd <$> live o.
Proof. destruct o as [s|]; [|done]. unfold live, visible. simpl. by destruct (s_DeletedAt s). Qed.

Lemma role_moved (s0 : St) target cur key m sub s2 :
  ParseUid sub.(s_User) = target -> sub.(s_Topic) = key -> sub.(s_ModeWant) = m -> sub.(s_ModeGiven) = m ->
  cur.(s_Topic) <> key -> (subs_create sub s0).2 = None ->
  subs_delete cur.(s_Topic) target (subs_create sub s0).1 = (s2, None) ->
  role_stored s0 s2 target (Some cur) key m.
Proof.
  intros Hu Ht Hw Hg Ek E1 E2.
  assert (forall t' u', live (row s2 t' u') =
    if bool_decide (t' = s_Topic cur /\ u' = target) then None
    else live (row (subs_create sub s0).1 t' u')) as Hd.
  { intros t' u'. pose proof (law_delete (s_Topic cur) target (subs_create sub s0).1 t' u') as H'. by rewrite E2 in H'. }
  split; [left|split].
  - rewrite Hd, bool_decide_eq_false_2 by (intros [? _]; by apply Ek).
    rewrite law_create, E1, Ht, Hu, bool_decide_eq_true_2 by auto. eexists. split; [reflexivity|done].
  - intros c [= <-] _. by rewrite Hd, bool_decide_eq_true_2.
  - intros t' u' Hne. rewrite Hd, bool_decide_eq_false_2 by (by intros [_ ?]).
    rewrite law_create, E1, Hu, bool_decide_eq_false_2; [done|by intros [_ ?]].
Qed.

Lemma role_updated (s0 : St) target cur key m upd :
  target <> ZeroUid -> cur.(s_Topic) = key -> upd.(up_ModeWant) = Some m -> upd.(up_ModeGiven) = Some m ->
  (subs_update key target upd s0).2 = None ->
  role_stored s0 (subs_update key target upd s0).1 target (Some cur) key m.
Proof.
  intros Hz Ek Hw Hg E. split; [|split; [by intros c [= <-] Hc|]].
  - rewrite law_update, E, bool_decide_eq_true_2 by auto. rewrite live_updated.
    destruct (live (row s0 key target)) as [x|] eqn:El.
    + left. exists (updated_row upd x). simpl. by rewrite Hw, Hg.
    + right. split; [by exists cur|]. done.
  - intros t' u' Hne. rewrite law_update, E, bool_decide_eq_false_2; [done|]. by intros [_ [?|?]].
Qed.

Lemma store_role_ret sess target current key req w w' :
  ParseUid (UidString target) = target -> target <> ZeroUid ->
  store_role maxSubscriberCount sess target current key req w = (w', Ret tt) ->
  same_members w w' /\ role_stored (w_store w) (w_store w') target current key req.(ro_Mode).
Proof.
  intros Hu Hz Hs. unfold store_role in Hs. apply bind_ret_inv in Hs as (w0 & t & [= <- <-] & Hs).
  destruct current as [cur|].
  - destruct (String.eqb_spec (s_Topic cur) key) as [Ek|Ek].
    + apply exec_or_ret in Hs as [E ->]. split; [done|]. simpl. by apply role_updated.
    + apply bind_ret_inv in Hs as (w1 & [] & H1 & Hs). apply exec_or_ret in H1 as [E1 ->].
      apply bind_ret_inv in Hs as (w2 & x & H2 & Hs). unfold call in H2. simpl in H2.
      destruct (subs_delete _ target _) as [s2 r2] eqn:E2. injection H2 as <- <-.
      destruct r2 as [e|].
      { apply bind_ret_inv in Hs as (w3 & y & _ & Hs). done. }
      injection Hs as <-. split; [done|]. simpl. by eapply role_moved; [..|exact E1|exact E2].
  - apply bind_ret_inv in Hs as (w1 & u & H1 & Hs). apply bind_ret_inv in Hs as (w2 & [] & H2 & Hs).
    pose proof (check_new_member_topic sess (w_topic w) target (negb (ro_ChannelSub req)) w) as Ht.
    pose proof (check_new_member_rows sess (w_topic w) target (negb (ro_ChannelSub req)) w) as Hr.
    rewrite H1 in Ht, Hr. simpl in Ht, Hr. apply exec_or_ret in H2 as [E2 ->]. injection Hs as <-. simpl.
    split; [unfold same_members; simpl; by rewrite Ht|]. split; [left|split; [done|]].
    + rewrite law_create, E2. simpl. rewrite bool_decide_eq_true_2 by auto. eexists. split; [reflexivity|done].
    + intros t' u' Hne. rewrite law_create, E2. simpl. rewrite Hu, bool_decide_eq_false_2; [by rewrite (Hr t' u')|].
      by intros [_ ?].
Qed.

(** The rows after a failed change: only the row the member was to move to can differ. *)
Lemma store_role_err sess target current key req w w' e :
  ParseUid (UidString target) = target ->
  store_role maxSubscriberCount sess target current key req w = (w', Err e) ->
  same_topic w w' /\
  forall t' u', (u' <> target \/ t' <> key \/ match current with Some c => c.(s_Topic) = key | None => True end) ->
    live (row (w_store w') t' u') = live (row (w_store w) t' u').
Proof.
  intros Hu Hs. unfold store_role in Hs. apply bind_err_inv in Hs as [Hs|(w0 & t & [= <- <-] & Hs)]; [done|].
  destruct current as [cur|].
  - destruct (String.eqb_spec (s_Topic cur) key) as [Ek|Ek].
    + apply exec_or_err in Hs as (E & Ht & ->). split; [done|]. intros t' u' _. by rewrite law_update, E.
    + apply bind_err_inv in Hs as [Hs|(w1 & [] & H1 & Hs)].
      { apply exec_or_err in Hs as (E & Ht & ->). split; [done|]. intros t' u' _. by rewrite law_create, E. }
      apply exec_or_ret in H1 as [E1 ->]. apply bind_err_inv in Hs as [Hs|(w2 & x & H2 & Hs)].
      { by apply no_err_call in Hs. }
      unfold call in H2. simpl in H2. set (s1 := (subs_create _ (w_store w)).1) in *.
      destruct (subs_delete (s_Topic cur) target s1) as [s2 r2] eqn:E2. injection H2 as <- <-.
      destruct r2 as [e2|]; [|done].
      apply bind_err_inv in Hs as [Hs|(w3 & y & H3 & Hs)]; [by apply no_err_call in Hs|].
      unfold call in H3. simpl in H3. destruct (subs_delete key target s2) as [s3 r3] eqn:E3. injection H3 as <- <-.
      injection Hs as <- _. split; [done|]. simpl. intros t' u' Hne.
      pose proof (law_delete key target s2 t' u') as D3. rewrite E3 in D3. simpl in D3.
      pose proof (law_delete (s_Topic cur) target s1 t' u') as D2. rewrite E2 in D2. simpl in D2.
      assert (~ (t' = key /\ u' = target)) as Hn by (intros [-> ->]; by destruct Hne as [?|[?|?]]).
      assert (live (row s3 t' u') = live (row s2 t' u')) as ->.
      { rewrite D3. destruct r3; [done|]. by rewrite bool_decide_eq_false_2. }
      rewrite D2. unfold s1. rewrite law_create, E1. simpl. rewrite Hu, bool_decide_eq_false_2; [done|exact Hn].
  - apply bind_err_inv in Hs as [Hs|(w1 & u & H1 & Hs)].
    + pose proof (check_new_member_topic sess (w_topic w) target (negb (ro_ChannelSub req)) w) as Ht.
      pose proof (check_new_member_rows sess (w_topic w) target (negb (ro_ChannelSub req)) w) as Hr.
      rewrite Hs in Ht, Hr. simpl in Ht, Hr. split; [done|]. intros t' u' _. by rewrite (Hr t' u').
    + pose proof (check_new_member_topic sess (w_topic w) target (negb (ro_ChannelSub req)) w) as Ht.
      pose proof (check_new_member_rows sess (w_topic w) target (negb (ro_ChannelSub req)) w) as Hr.
      rewrite H1 in Ht, Hr. simpl in Ht, Hr. apply bind_err_inv in Hs as [Hs|(w2 & [] & H2 & Hs)]; [|done].
      apply exec_or_err in Hs as (E & Ht' & ->). split; [unfold same_topic; by rewrite Ht'|].
      intros t' u' _. rewrite law_create, E. by rewrite (Hr t' u').
Qed.

Lemma frame_run {A} (R : World St -> World St -> Prop) (m : M (St := St) A) w w' r :
  frame R m -> m w = (w', r) -> R w w'.
Proof. intros Hm E. specialize (Hm w). by rewrite E in Hm. Qed.

Lemma when_frame R `{!PreOrder R} b (m : M (St := St) unit) : frame R m -> frame R (when b m).
Proof. intros Hm. destruct b; [done|apply frame_ret, _]. Qed.

Lemma when_no_err b (m : M (St := St) unit) : no_err m -> no_err (when b m).
Proof. intros Hm. destruct b; [done|apply no_err_ret]. Qed.

#[local] Hint Resolve when_no_err : handlers.

Lemma apply_role_no_err sess asUid target cic ow og isNew key req :
  no_err (apply_role (St := St) sess asUid target cic ow og isNew key req).
Proof. unfold apply_role. repeat (handler; try apply when_no_err). Qed.

Lemma apply_role_same_store sess asUid target cic ow og isNew key req :
  frame same_store (apply_role (St := St) sess asUid target cic ow og isNew key req).
Proof. unfold apply_role. repeat (handler; try (apply when_frame; [apply _|])). Qed.

(** What the cache says about a member: the two modes and whether they read the channel. *)
Definition access_of (p : perUserData) : AccessMode * AccessMode * bool := (p.(modeWant), p.(modeGiven), p.(pud_isChan)).
Definition cached_access (w : World St) (u : Uid) : option (AccessMode * AccessMode * bool) :=
  access_of <$> w.(w_topic).(perUser) !! u.

(** Nobody's cached access changed, except that [target]'s has become [after]. *)
Definition access_becomes (target : Uid) (after : option (AccessMode * AccessMode * bool)) (w w' : World St) : Prop :=
  w'.(w_topic).(owner) = w.(w_topic).(owner) /\ isOfficialTopic w'.(w_topic) = isOfficialTopic w.(w_topic) /\
  cached_access w' target = after /\
  forall u, u <> target -> cached_access w' u = cached_access w u.

Definition same_access (w w' : World St) : Prop :=
  w'.(w_topic).(owner) = w.(w_topic).(owner) /\ isOfficialTopic w'.(w_topic) = isOfficialTopic w.(w_topic) /\
  forall u, cached_access w' u = cached_access w u.
#[local] Instance same_access_preorder : PreOrder same_access.
Proof.
  split; [by intros w|]. intros a b c (A1 & A2 & A3) (B1 & B2 & B3).
  repeat split; [congruence..|]. intros u. by rewrite B3.
Qed.

Lemma becomes_same target x (w1 w2 w3 : World St) :
  access_becomes target x w1 w2 -> same_access w2 w3 -> access_becomes target x w1 w3.
Proof.
  intros (A1 & A2 & A3 & A4) (B1 & B2 & B3). repeat split; [congruence..|by rewrite B3|].
  intros u Hu. by rewrite B3, A4.
Qed.

Lemma becomes_twice target x y (w1 w2 w3 : World St) :
  access_becomes target x w1 w2 -> access_becomes target y w2 w3 -> access_becomes target y w1 w3.
Proof.
  intros (A1 & A2 & _ & A4) (B1 & B2 & B3 & B4). repeat split; [congruence..|done|].
  intros u Hu. by rewrite B4, A4.
Qed.

Lemma same_becomes target (w w' : World St) : same_access w w' -> access_becomes target (cached_access w target) w w'.
Proof. intros (A1 & A2 & A3). repeat split; auto. Qed.

Lemma frame_same_access {A} (m : M (St := St) A) : frame same_topic m -> frame same_access m.
Proof. intros Hm w. specialize (Hm w). unfold same_topic in Hm. unfold same_access, cached_access. by rewrite Hm. Qed.

Lemma evict_sessions_access uid skip r ss : frame same_access (evict_sessions (St := St) uid skip r ss).
Proof.
  induction ss as [|[k [s p]] ss IH]; simpl; [apply frame_ret, _|].
  intros w. unfold bind at 1, get_topic. simpl.
  destruct (remSession (w_topic w) s uid) as [[t' [pssd|]] b] eqn:E; [|apply IH].
  unfold bind at 1, set_topic. simpl.
  assert (frame (St := St) same_access ((if b then emit (DetachSession (sid s) (t_name (w_topic w))) else ret tt) ;;;
     (if String.eqb (sid s) skip then ret tt else emit (QueueOut (sid s) r)) ;;;
     evict_sessions uid skip r ss)) as Hrest.
  { repeat (apply frame_bind; [apply _| |intros []]); [| |exact IH];
      apply frame_same_access; [destruct b|destruct (String.eqb _ _)]; handler. }
  etransitivity; [|apply Hrest].
  assert (t'.(perUser) = (w_topic w).(perUser) /\ t'.(owner) = (w_topic w).(owner) /\
    t'.(official) = (w_topic w).(official)) as (E1 & E2 & E3).
  { revert E. unfold remSession. destruct (t_sessions (w_topic w) !! _) as [[s0 q]|]; [|done].
    destruct (_ || _); [by intros [= <- _ _]|]. destruct (index_of _ _); [|done].
    simpl. destruct (swap_remove _ _); by intros [= <- _ _]. }
  unfold same_access, cached_access, isOfficialTopic. simpl. by rewrite E1, E2, E3.
Qed.

(** An eviction without unsubscribing: a reader of the channel leaves the cache, a member stays. *)
Definition after_evict (x : option (AccessMode * AccessMode * bool)) : option (AccessMode * AccessMode * bool) :=
  match x with Some (_, true) => None | _ => x end.

Lemma evictUser_access uid skip (w w' : World St) x :
  evictUser uid false skip w = (w', Ret x) -> access_becomes uid (after_evict (cached_access w uid)) w w'.
Proof.
  unfold evictUser. intros (w0 & t & [= <- <-] & Hrun)%bind_ret_inv.
  apply bind_ret_inv in Hrun as (w1 & orig & H1 & Hrun).
  assert (w1 = w) as -> by (destruct (original _ _); by injection H1). clear H1.
  apply bind_ret_inv in Hrun as (w2 & [] & H2 & Hrun).
  apply (frame_run same_access) in Hrun; [|apply evict_sessions_access]. eapply becomes_same; [|exact Hrun]. clear Hrun.
  unfold after_evict, cached_access at 1. unfold user in H2. case_bool_decide as Hok; cycle 1.
  { injection H2 as <-. rewrite <- eq_None_not_Some in Hok.
    unfold access_becomes, cached_access. rewrite Hok. by repeat split. }
  destruct Hok as [p Hp]. rewrite Hp in *. simpl in *.
  destruct (pud_isChan p) eqn:Ec; injection H2 as <-; unfold access_becomes, cached_access; simpl.
  - rewrite lookup_delete_eq. repeat split. intros u Hu. by rewrite lookup_delete_ne.
  - rewrite lookup_insert_eq. simpl. repeat split; [by rewrite Hp|]. intros u Hu. by rewrite lookup_insert_ne.
Qed.

Lemma union_access (w : World St) : same_access w (mkWorld (computePerUserAcsUnion (w_topic w)) (w_store w) (w_out w)).
Proof.
  unfold same_access, cached_access, isOfficialTopic. simpl. rewrite union_owner, union_perUser. repeat split.
  unfold computePerUserAcsUnion. by destruct (t_isChan (w_topic w)).
Qed.

Lemma evictCold_access uid (w w' : World St) x :
  isOfficialTopic (w_topic w) = false -> evictColdSubscriber uid w = (w', Ret x) -> w' = w.
Proof.
  intros Ho. unfold evictColdSubscriber. intros (w0 & t & [= <- <-] & Hrun)%bind_ret_inv.
  assert (isOfficialLargeGroup (w_topic w) = false) as E.
  { unfold isOfficialLargeGroup, isOfficialTopic in *. destruct (official _); [by rewrite Ho|done]. }
  rewrite E in Hrun. by injection Hrun.
Qed.

(** The member's cached access after a change of role: the role's, in its namespace; an evicted reader of the
    channel is dropped from the cache, and one who was not cached is not added. *)
Definition cached_after (cached : bool) (req : topicRoleAccess) : option (AccessMode * AccessMode * bool) :=
  if req.(ro_ChannelSub) && (negb cached || String.eqb req.(ro_Name) "banned") then None
  else Some (req.(ro_Mode), req.(ro_Mode), req.(ro_ChannelSub)).

(** The first half of [apply_role]: the member's sessions go when they move, and the entry is written. *)
Lemma apply_role_entry target (moved cached : bool) req np (w w1 w2 w3 : World St) :
  isOfficialTopic (w_topic w) = false -> cached = bool_decide (is_Some ((w_topic w).(perUser) !! target)) ->
  (moved = true -> cached = true) ->
  access_of np = (req.(ro_Mode), req.(ro_Mode), req.(ro_ChannelSub)) ->
  when moved (evictUser target false "") w = (w1, Ret tt) ->
  when (negb req.(ro_ChannelSub) || cached) (modify (fun t => put_user t target np)) w1 = (w2, Ret tt) ->
  modify computePerUserAcsUnion w2 = (w3, Ret tt) ->
  access_becomes target (if negb req.(ro_ChannelSub) || cached then Some (access_of np) else None) w w3.
Proof.
  intros Ho Hc Hm Hnp H1 H2 H3. injection H3 as <-. eapply becomes_same; [|apply union_access].
  assert (access_becomes target (if moved then after_evict (cached_access w target) else cached_access w target) w w1) as B1.
  { destruct moved; [by eapply evictUser_access|]. injection H1 as <-. by apply same_becomes. }
  destruct (negb _ || cached) eqn:E; injection H2 as <-.
  - eapply becomes_twice; [exact B1|]. unfold access_becomes, cached_access. simpl. rewrite lookup_insert_eq.
    repeat split. intros u Hu. by rewrite lookup_insert_ne.
  - apply orb_false_iff in E as [_ E]. destruct moved; [by rewrite Hm in E|].
    assert (cached_access w target = None) as <-; [|exact B1].
    unfold cached_access. rewrite E in Hc. symmetry in Hc. apply bool_decide_eq_false, eq_None_not_Some in Hc. by rewrite Hc.
Qed.

(** The cache after the change: the member has the role's access in its namespace, the others are untouched. *)
Lemma apply_role_members sess asUid target cic ow og isNew key req (w w' : World St) acs :
  isOfficialTopic (w_topic w) = false ->
  apply_role sess asUid target cic ow og isNew key req w = (w', Ret acs) ->
  access_becomes target (cached_after (bool_decide (is_Some ((w_topic w).(perUser) !! target))) req) w w'.
Proof.
  intros Hoff Hr. unfold apply_role in Hr. apply bind_ret_inv in Hr as (w0 & t & [= <- <-] & Hr).
  set (cached := bool_decide _) in *. set (moved := cached && _) in *.
  apply bind_ret_inv in Hr as (w1 & [] & H1 & Hr). set (np := with_deleted _ false) in *.
  apply bind_ret_inv in Hr as (w2 & [] & H2 & Hr). apply bind_ret_inv in Hr as (w3 & [] & H3 & Hr).
  assert (access_of np = (ro_Mode req, ro_Mode req, ro_ChannelSub req)) as Hnp by done.
  assert (moved = true -> cached = true) as Hm by (by intros [? _]%andb_true_iff).
  pose proof (apply_role_entry target moved cached req np w w1 w2 w3 Hoff eq_refl Hm Hnp H1 H2 H3) as B3.
  rewrite Hnp in B3. clear H1 H2 H3.
  apply bind_ret_inv in Hr as (w4 & [] & H4 & Hr). apply bind_ret_inv in Hr as (w5 & t5 & [= <- <-] & Hr).
  apply bind_ret_inv in Hr as (w6 & [] & H6 & Hr). apply bind_ret_inv in Hr as (w7 & [] & H7 & Hr).
  assert (same_access w3 w7) as S7.
  { transitivity w4; [revert H4; apply frame_run, frame_same_access; handler|].
    transitivity w6; [revert H6; apply frame_run, frame_same_access; handler|].
    revert H7. apply frame_run, frame_same_access, when_frame; [apply _|handler]. }
  apply (becomes_same _ _ _ _ _ B3) in S7. clear B3 H4 H6 H7.
  apply bind_ret_inv in Hr as (w8 & [] & H8 & Hr). apply bind_ret_inv in Hr as (w9 & [] & H9 & Hr).
  apply bind_ret_inv in Hr as (w10 & [] & H10 & Hr). injection Hr as <- _.
  assert (access_becomes target (cached_after cached req) w w8) as B8.
  { pose proof S7 as (_ & _ & C7 & _). unfold cached_after.
    destruct (String.eqb (ro_Name req) "banned"); [|injection H8 as <-; rewrite orb_false_r].
    - eapply becomes_twice; [exact S7|]. apply evictUser_access in H8. rewrite C7 in H8.
      destruct (ro_ChannelSub req), cached; exact H8.
    - by destruct (ro_ChannelSub req), cached. }
  apply evictCold_access in H9 as ->; [|destruct B8 as (_ & E & _); by rewrite E].
  eapply becomes_same; [exact B8|]. revert H10. apply frame_run, frame_same_access.
  destruct isNew; handler. apply when_frame; [apply _|]. handler.
Qed.

(** The guards of [setAnotherUserRole] for the role the request resolves to. *)
Definition role_permitted (t : Topic) (s : St) (asUid target : Uid) (asChan : bool) (req : topicRoleAccess) : Prop :=
  t.(t_cat) = TopicCatGrp /\ isOfficialTopic t = false /\ asChan = false /\ isReadOnly t = false /\
  (exists host, t.(perUser) !! asUid = Some host /\ IsAdmin (host.(modeGiven) &. host.(modeWant)) = true /\
     (t.(owner) <> asUid -> req.(ro_Name) <> "admin" /\
        BetterEqual (host.(modeGiven) &. host.(modeWant)) req.(ro_Mode) = true)) /\
  (forall cur, (known_sub t s target).1 = Some cur ->
     IsOwner (cur.(s_ModeWant) &. cur.(s_ModeGiven)) = false /\
     (IsAdmin (cur.(s_ModeWant) &. cur.(s_ModeGiven)) = true -> t.(owner) = asUid)).

(** The role in the namespace it is stored in: a ban stays in the member's namespace. *)
Definition placed_role (req : topicRoleAccess) (current : option Subscription) (cic : bool) : topicRoleAccess :=
  match current with
  | Some _ => if String.eqb req.(ro_Name) "banned" then mkRole req.(ro_Name) req.(ro_Mode) cic else req
  | None => req
  end.

Definition role_key (t : Topic) (req : topicRoleAccess) : string :=
  if req.(ro_ChannelSub) then GrpToChn t.(t_name) else t.(t_name).

Lemma check_target_run sess t asUid current cic req (w w' : World St) r :
  check_target sess t asUid current cic req w = (w', r) ->
  (forall req', r = Ret req' -> w' = w /\ req' = placed_role req current cic /\
     forall cur, current = Some cur ->
       IsOwner (cur.(s_ModeWant) &. cur.(s_ModeGiven)) = false /\
       (IsAdmin (cur.(s_ModeWant) &. cur.(s_ModeGiven)) = true -> t.(owner) = asUid)) /\
  w'.(w_topic) = w.(w_topic) /\ w'.(w_store) = w.(w_store).
Proof.
  unfold check_target. destruct current as [cur|]; [|intros [= <- <-]; split; [by intros ? [= ->]|done]].
  destruct (IsOwner _) eqn:Eo; [intros [= <- <-]; done|].
  destruct (IsAdmin _) eqn:Ea; simpl.
  - destruct (N.eqb_spec (owner t) asUid) as [Et|]; simpl; [|intros [= <- <-]; done].
    intros [= <- <-]. split; [|done]. intros req' [= <-]. split; [done|]. split; [done|]. by intros c [= <-].
  - intros [= <- <-]. split; [|done]. intros req' [= <-]. split; [done|]. split; [done|].
    intros c [= <-]. split; [done|]. by rewrite Ea.
Qed.

Lemma current_subscription_stops sess t target (w w1 : World St) r :
  current_subscription sess t target w = (w1, r) -> same_topic w w1 /\ same_rows w w1.
Proof.
  intros E. split; revert E; apply frame_run; unfold current_subscription; destruct (perUser t !! target);
    try (apply frame_ret, _).
  - handler.
  - apply frame_bind; [apply _|apply store_or_same_rows; intros; apply get_same_rows|].
    intros [x|]; [apply frame_ret, _|]. destruct (t_isChan t); [|apply frame_ret, _].
    apply frame_bind; [apply _|apply store_or_same_rows; intros; apply get_same_rows|].
    intros y. apply frame_ret, _.
Qed.

(** The run of [setAnotherUserRole] up to the store: either it stops with an unchanged topic and
    unchanged rows, or the guards hold and it goes on with the located role. *)
Lemma role_guards sess asUid target asChan pkt (w w' : World St) r :
  setAnotherUserRole (St := St) maxSubscriberCount sess asUid target asChan pkt w = (w', r) ->
  (same_topic w w' /\ same_rows w w' /\ (forall acs, r <> Ret (Some acs))) \/
  exists req w1,
    resolveTopicRole pkt.(r_SetRole) w.(w_topic).(t_isChan) = inl req /\
    role_permitted w.(w_topic) w.(w_store) asUid target asChan req /\
    same_topic w w1 /\ same_rows w w1 /\
    let '(current, cic) := known_sub w.(w_topic) w.(w_store) target in
    let req := placed_role req current cic in
    (store_role maxSubscriberCount sess target current (role_key w.(w_topic) req) req ;;;
     acs <-- apply_role sess asUid target cic
        (match current with Some s => s.(s_ModeWant) | None => ModeUnset end)
        (match current with Some s => s.(s_ModeGiven) | None => ModeUnset end)
        (match current with None => true | Some _ => false end) (role_key w.(w_topic) req) req ;;
     ret (Some acs)) w1 = (w', r).
Proof.
  unfold setAnotherUserRole. unfold bind at 1, get_topic. simpl. set (t := w_topic w).
  assert (forall re e, (reject sess re e : M (option MsgAccessMode)) w = (w', r) ->
    same_topic w w' /\ same_rows w w' /\ forall acs, r <> Ret (Some acs)) as Hrej
    by (intros re e [= <- <-]; done).
  destruct (isOfficialTopic t) eqn:G1; [intros; left; by eapply Hrej|].
  destruct (cat_eqb (t_cat t) TopicCatGrp) eqn:G2; simpl; [|intros; left; by eapply Hrej].
  destruct asChan; simpl; [intros; left; by eapply Hrej|].
  destruct (perUser t !! asUid) as [host|] eqn:Gh; simpl; [|intros; left; by eapply Hrej].
  assert (user t asUid = host) as -> by (unfold user; by rewrite Gh).
  destruct (IsAdmin (modeGiven host &. modeWant host)) eqn:G3; simpl; [|intros; left; by eapply Hrej].
  destruct (isReadOnly t) eqn:G4; [intros; left; by eapply Hrej|].
  destruct (resolveTopicRole _ _) as [req|e] eqn:G5; [|intros; left; by eapply Hrej].
  destruct (String.eqb_spec (ro_Name req) "admin") as [G6|G6], (N.eqb_spec (owner t) asUid) as [G7|G7]; simpl;
    try (intros; left; by eapply Hrej).
  all: try (destruct (BetterEqual (modeGiven host &. modeWant host) (ro_Mode req)) eqn:G8; simpl;
    [|intros; left; by eapply Hrej]).
  all: unfold bind at 1; destruct (current_subscription sess t target w) as [w1 [c|e|p]] eqn:Ec;
    [|intros [= <- <-]; left; destruct (current_subscription_stops sess t target w _ _ Ec); done|intros [= <- <-]; left; destruct (current_subscription_stops sess t target w _ _ Ec); done].
  all: apply current_subscription_spec in Ec as (T1 & R1 & ->).
  all: destruct (known_sub t (w_store w) target) as [current cic] eqn:Ek.
  all: unfold bind at 1; destruct (check_target sess t asUid current cic req w1) as [w2 r2] eqn:Et.
  all: apply check_target_run in Et as (Ht & T2 & S2).
  all: assert (same_topic w w2 /\ same_rows w w2) as [T2' R2] by
    (split; [unfold same_topic in *; congruence|intros t' u'; rewrite S2; apply R1]).
  all: destruct r2 as [req'|e|p]; [|by intros [= <- <-]; left|by intros [= <- <-]; left].
  all: destruct (Ht req' eq_refl) as (_ & -> & Hcur).
  all: fold (role_key t (placed_role req current cic)).
  all: match goal with |- context [if ?b then ret None else _] => destruct b end;
    [by intros [= <- <-]; left|].
  all: intros Hrun; right; exists req, w2; split; [done|]; split; [|split; [done|split; [done|exact Hrun]]].
  all: repeat split; try done; [by apply cat_eqb_spec|exists host; repeat split; done| ..];
    rewrite Ek in *; simpl in *; by apply Hcur.
Qed.

Lemma resolve_not_owner role channel a : resolveTopicRole role channel = inl a -> IsOwner a.(ro_Mode) = false.
Proof.
  intros H'. apply resolve_cases in H' as [-> | [-> | [[_ [-> | ->]] | [_ [-> | ->]]]]]; by vm_compute.
Qed.

Lemma placed_mode req current cic : (placed_role req current cic).(ro_Mode) = req.(ro_Mode).
Proof. unfold placed_role. destruct current; [|done]. by destruct (String.eqb _ _). Qed.

Lemma known_sub_stored t (s : St) target :
  (forall key r, live (row s key target) = Some r -> r.(s_Topic) = key) ->
  t.(perUser) !! target = None ->
  forall cur, (known_sub t s target).1 = Some cur -> live (row s cur.(s_Topic) target) = Some cur.
Proof.
  intros Hn Hc cur. unfold known_sub. rewrite Hc. destruct (live (row s (t_name t) target)) as [x|] eqn:E1.
  - intros [= <-]. by rewrite (Hn _ _ E1).
  - destruct (t_isChan t); [|done]. simpl. intros E2. by rewrite (Hn _ _ E2).
Qed.

Lemma role_stored_from (s0 s1 s : St) target current key m :
  (forall t' u', row s1 t' u' = row s0 t' u') -> role_stored s1 s target current key m ->
  role_stored s0 s target current key m.
Proof. intros E. unfold role_stored. rewrite E. intros (? & ? & H3). repeat split; try done. intros t' u' Hu. by rewrite H3, E. Qed.

(** C9: a role change that succeeds was permitted and does what was asked: the actor is an administrator of an
    ordinary writable group, gives no more than they have and names administrators or
    touches one only as the owner, and never touches the owner. Afterwards the cache holds the member with
    exactly the role's access, whether they were a member before or not (a reader of the channel is cached only
    if they were before, and not once banned), and nobody else's cached access or owner changed. In the store the member's
    row in the role's namespace is live with exactly that access and the row in the other
    namespace has ended (a cached member whose row was already gone stays without one), and nobody else's rows changed. *)
Theorem role_change_sound sess asUid target asChan pkt (w w' : World St) acs :
  target < 2 ^ 64 -> target <> ZeroUid ->
  (forall key r, live (row w.(w_store) key target) = Some r -> r.(s_Topic) = key) ->
  setAnotherUserRole maxSubscriberCount sess asUid target asChan pkt w = (w', Ret (Some acs)) ->
  exists req,
    resolveTopicRole pkt.(r_SetRole) w.(w_topic).(t_isChan) = inl req /\
    role_permitted w.(w_topic) w.(w_store) asUid target asChan req /\
    IsOwner req.(ro_Mode) = false /\
    let '(current, cic) := known_sub w.(w_topic) w.(w_store) target in
    let placed := placed_role req current cic in
    let key := role_key w.(w_topic) placed in
    let cached := bool_decide (is_Some (w.(w_topic).(perUser) !! target)) in
    placed.(ro_Mode) = req.(ro_Mode) /\
    access_becomes target (cached_after cached placed) w w' /\
    role_stored w.(w_store) w'.(w_store) target current key req.(ro_Mode) /\
    (cached = false -> exists r, live (row w'.(w_store) key target) = Some r /\
       r.(s_ModeWant) = req.(ro_Mode) /\ r.(s_ModeGiven) = req.(ro_Mode)).
Proof.
  intros Hu Hz Hn Hr. apply role_guards in Hr as [(_ & _ & Hno) | (req & w1 & Hreq & Hp & T1 & R1 & Hr)]; [by destruct (Hno acs)| ].
  exists req. split; [done|]. split; [done|]. split; [by eapply resolve_not_owner|].
  pose proof (known_sub_stored (w_topic w) _ target Hn) as Hk.
  destruct (known_sub (w_topic w) (w_store w) target) as [current cic]. cbv zeta.
  apply bind_ret_inv in Hr as (w2 & [] & Hs & Hr). apply bind_ret_inv in Hr as (w3 & a & Ha & [= <- <-]).
  apply store_role_ret in Hs as [Hm Hst]; [|by apply ParseUid_String|done].
  pose proof (frame_run same_store _ _ _ _ (apply_role_same_store _ _ _ _ _ _ _ _ _) Ha) as Hss.
  unfold same_topic in T1. destruct Hm as (M1 & M2 & M3 & M4). unfold same_store in Hss.
  apply (role_stored_from (w_store w)) in Hst; [|exact R1]. rewrite <- Hss, placed_mode in Hst. rewrite T1 in *.
  assert (isOfficialTopic (w_topic w) = false) as Hoff by apply Hp.
  apply apply_role_members in Ha; [|by rewrite M4]. rewrite M1 in Ha.
  split; [apply placed_mode|]. split.
  { destruct Ha as (B1 & B2 & B3 & B4). split; [congruence|]. split; [congruence|]. split; [exact B3|].
    intros u Hne. rewrite B4 by done. unfold cached_access. by rewrite M1. }
  split; [done|]. intros Hcache. destruct Hst as [[?|((cur & Hcur & Ek) & Hl & _)] _]; [done|].
  apply bool_decide_eq_false, eq_None_not_Some in Hcache. specialize (Hk Hcache cur Hcur). congruence.
Qed.

(** a role change that fails leaves the topic as it was, and the stored subscriptions too, except that when
    moving a member between the group and the channel fails half-way the row in the new
    namespace is rolled back. *)
Theorem role_change_failure_atomic sess asUid target asChan pkt (w w' : World St) e :
  target < 2 ^ 64 ->
  setAnotherUserRole maxSubscriberCount sess asUid target asChan pkt w = (w', Err e) ->
  same_topic w w' /\
  forall t' u', (u' <> target \/
      match (known_sub w.(w_topic) w.(w_store) target).1 with Some c => t' = c.(s_Topic) | None => True end) ->
    live (row w'.(w_store) t' u') = live (row w.(w_store) t' u').
Proof.
  intros Hu Hr. apply role_guards in Hr as [(T & R & _)|(req & w1 & Hreq & Hp & T1 & R1 & Hr)].
  { split; [done|]. intros t' u' _. by rewrite R. }
  destruct (known_sub (w_topic w) (w_store w) target) as [current cic]. simpl.
  apply bind_err_inv in Hr as [Hr|(w2 & [] & _ & Hr)].
  - apply store_role_err in Hr as [T2 R2]; [|by apply ParseUid_String].
    split; [by transitivity w1|]. intros t' u' Hne. rewrite R2, R1; [done|].
    destruct current as [cur|]; [|right; by right].
    destruct (String.eqb_spec (s_Topic cur) (role_key (w_topic w) (placed_role req (Some cur) cic))) as [Ek|Ek];
      [right; by right|]. destruct Hne as [? | ->]; [by left|right; by left].
  - exfalso. revert Hr. apply no_err_bind; [apply apply_role_no_err|]. intros a. apply no_err_ret.
Qed.
End Roles.

(** A group with its owner [1], an administrator [2] and a member [3]. *)
Definition adminAccess : AccessMode := ModeCFull &^ ModeOwner.
Definition sample_perUser : gmap Uid perUserData :=
  {[ 1 := with_modes pud0 ModeCFull ModeCFull; 2 := with_modes pud0 adminAccess adminAccess;
     3 := with_modes pud0 memberAccess memberAccess ]}.
Definition sample_topic : Topic :=
  mkTopic "grpA" "grpA" TopicCatGrp false 1 ModeCPublic 0 10 3 1 "" None 0 sample_perUser 0 0 ∅ ∅ 0 0 None ∅ ∅ false None.
Definition sample_store (faults : list bool) : MemStore :=
  mkMem {[ ("grpA", 1) := sub_row 1 "grpA" ModeCFull ModeCFull ANil;
           ("grpA", 2) := sub_row 2 "grpA" adminAccess adminAccess ANil;
           ("grpA", 3) := sub_row 3 "grpA" memberAccess memberAccess ANil ]}
    {[ 4 := mkUser 0 ModeCAuth ]} ∅ ∅ None faults.
Definition sample_world (faults : list bool) : World MemStore := mkWorld sample_topic (sample_store faults) [].
Definition sample_session : Session := mkSession "s2" 2 ProtoClient false None.
Definition role_request (role : string) : Request := mkRequest LevelAuth "grpA" false "" role.

Definition role_run (faults : list bool) : World MemStore * Res (option MsgAccessMode) :=
  setAnotherUserRole 100 sample_session 2 3 false (role_request "readonly") (sample_world faults).

(** The rows of an in-memory store that bear the name they are stored under. *)
Lemma mem_rows_named (m : MemStore) u :
  forallb (fun kv => String.eqb (snd kv).(s_Topic) (fst kv).1) (map_to_list m.(ms_subs)) = true ->
  forall key r, live (row m key u) = Some r -> r.(s_Topic) = key.
Proof.
  intros Hm key r. unfold live. simpl. destruct (ms_subs m !! (key, u)) as [x|] eqn:E; [|done].
  simpl. destruct (s_DeletedAt x); [done|]. intros [= <-]. apply elem_of_map_to_list, list_elem_of_In in E.
  rewrite forallb_forall in Hm. specialize (Hm _ E). by apply String.eqb_eq in Hm.
Qed.

(** The administrator adds a user who was no member, and silences one who was. *)
Definition invite_run : World MemStore * Res (option MsgAccessMode) :=
  setAnotherUserRole 100 sample_session 2 4 false (role_request "member") (sample_world []).

Lemma role_change_sound_witness :
  (exists r, live (row (fst invite_run).(w_store) "grpA" 4) = Some r /\ r.(s_ModeGiven) = memberAccess) /\
  cached_access (fst invite_run) 4 = Some (memberAccess, memberAccess, false) /\
  cached_access (fst (role_run [])) 3 = Some (ModeCChnReader, ModeCChnReader, false).
Proof.
  assert (exists acs, invite_run = (fst invite_run, Ret (Some acs))) as [acs Hi] by (eexists; vm_compute; reflexivity).
  assert (exists acs, role_run [] = (fst (role_run []), Ret (Some acs))) as [acs' Hr] by (eexists; vm_compute; reflexivity).
  assert (4 <> ZeroUid) as N4 by done. assert (3 <> ZeroUid) as N3 by done.
  destruct (role_change_sound 100 sample_session 2 4 false (role_request "member") (sample_world []) _ acs
    ltac:(reflexivity) N4 (mem_rows_named (sample_store []) 4 ltac:(vm_compute; reflexivity)) Hi) as (req & Hreq & _ & _ & C).
  injection Hreq as <-. destruct C as (_ & (_ & _ & Hc & _) & _ & Hs).
  destruct (role_change_sound 100 sample_session 2 3 false (role_request "readonly") (sample_world []) _ acs'
    ltac:(reflexivity) N3 (mem_rows_named (sample_store []) 3 ltac:(vm_compute; reflexivity)) Hr) as (req & Hreq & _ & _ & C).
  injection Hreq as <-. destruct C as (_ & (_ & _ & Hc' & _) & _ & _).
  split; [|split; [exact Hc|exact Hc']].
  destruct (Hs ltac:(vm_compute; reflexivity)) as (r & Hl & _ & Hg). exists r. split; [exact Hl|exact Hg].
Defined.

Lemma role_change_failure_atomic_witness :
  exists e, role_run [true] = (fst (role_run [true]), Err e) /\
    (fst (role_run [true])).(w_topic) = sample_topic.
Proof.
  assert (exists e, role_run [true] = (fst (role_run [true]), Err e)) as [e H]
    by (eexists; vm_compute; reflexivity).
  exists e. split; [exact H|].
  exact (proj1 (role_change_failure_atomic 100 sample_session 2 3 false (role_request "readonly")
    (sample_world [true]) _ e ltac:(reflexivity) H)).
Defined.
