(* ===== verification/TopicSelfProps.v ===== *)
(** * TopicSelfProps: properties of a user's own subscription

    [thisUserSub], the invitations and changes of [anotherUserSub], leaving and
    eviction: what a successful call leaves in the cache and in the store, who is
    refused, and the cases in which the two part. *)

From Stdlib Require Import NArith ZArith Lia List Ascii String Bool.
From stdpp Require Import base tactics numbers list strings gmap sets.
From S2P Require Import Prelude AccessMode Uid StoreTypes SubStore Topic TopicSub TopicSubProps.
Import Objects.
Import Topic.

#[local] Open Scope string_scope.
#[local] Open Scope N_scope.

Section StoreRows.
Context {St : Type} `{Laws : SubStoreLaws St}.

(** The live subscription of [u], if there is one, has these modes. *)
Definition stores (s : St) (topic : string) (u : Uid) (want given : AccessMode) : Prop :=
  forall r, live (row s topic u) = Some r -> r.(s_ModeWant) = want /\ r.(s_ModeGiven) = given.

(** The store differs at most in the subscriptions for which [P] holds. *)
Definition rows_but (P : string -> Uid -> Prop) (s s' : St) : Prop :=
  forall t u, ~ P t u -> live (row s' t u) = live (row s t u).

Lemma rows_but_stores P s s' t u a b : rows_but P s s' -> ~ P t u -> stores s t u a b -> stores s' t u a b.
Proof. intros HP Hn Hs r. rewrite HP by done. apply Hs. Qed.

Lemma rows_but_trans (P : string -> Uid -> Prop) s1 s2 s3 : rows_but P s1 s2 -> rows_but P s2 s3 -> rows_but P s1 s3.
Proof. intros H1 H2 t u Hn. by rewrite H2, H1. Qed.

Lemma rows_but_weaken (P Q : string -> Uid -> Prop) s s' :
  (forall t u, P t u -> Q t u) -> rows_but P s s' -> rows_but Q s s'.
Proof. intros HPQ HP t u Hn. apply HP. auto. Qed.

Lemma same_rows_but P (s s' : St) : (forall t u, row s' t u = row s t u) -> rows_but P s s'.
Proof. intros E t u _. by rewrite E. Qed.

(** No subscription starts or ends. *)
Definition rows_stay (s s' : St) : Prop :=
  forall t u, is_Some (live (row s' t u)) <-> is_Some (live (row s t u)).

Lemma rows_stay_trans s1 s2 s3 : rows_stay s1 s2 -> rows_stay s2 s3 -> rows_stay s1 s3.
Proof. intros H1 H2 t u. by rewrite (H2 t u). Qed.

Lemma update_stays topic u upd (s : St) : rows_stay s (subs_update topic u upd s).1.
Proof.
  intros t' u'. rewrite law_update. destruct (subs_update topic u upd s).2; [done|].
  case_bool_decide; [|done]. rewrite live_updated. apply fmap_is_Some.
Qed.

Lemma update_rows topic u upd (s : St) :
  u <> 0 -> (subs_update topic u upd s).2 = None ->
  rows_but (fun t' u' => t' = topic /\ u' = u) s (subs_update topic u upd s).1 /\
  forall a b, stores s topic u a b ->
    stores (subs_update topic u upd s).1 topic u (default a upd.(up_ModeWant)) (default b upd.(up_ModeGiven)).
Proof.
  intros Hu E. split.
  - intros t' u' Hn. rewrite law_update, E, bool_decide_eq_false_2; [done|]. by intros [-> [-> | ->]]; [apply Hn|].
  - intros a b Hs r. rewrite law_update, E, bool_decide_eq_true_2 by auto. rewrite live_updated, fmap_Some.
    intros (x & Hx & ->). destruct (Hs x Hx) as [<- <-]. done.
Qed.

Lemma create_rows sub (s : St) :
  (subs_create sub s).2 = None ->
  rows_but (fun t' u' => t' = sub.(s_Topic) /\ u' = ParseUid sub.(s_User)) s (subs_create sub s).1 /\
  stores (subs_create sub s).1 sub.(s_Topic) (ParseUid sub.(s_User)) sub.(s_ModeWant) sub.(s_ModeGiven).
Proof.
  intros E. split.
  - intros t' u' Hn. by rewrite law_create, E, bool_decide_eq_false_2.
  - intros r. rewrite law_create, E, bool_decide_eq_true_2 by done. by intros [= <-].
Qed.

Lemma exec_quiet_ret (f : St -> St * option GoError) w w' x :
  exec_quiet f w = (w', Ret x) ->
  (f (w_store w)).2 = None /\ w' = mkWorld (w_topic w) (f (w_store w)).1 (w_out w).
Proof.
  unfold exec_quiet, bind, call. destruct (f (w_store w)) as [s [e|]]; simpl; [done|]. by intros [= <- _].
Qed.
End StoreRows.

(** ** The transfer of ownership *)

Section SelfSub.
Context {St : Type} `{Laws : SubStoreLaws St}.
Context (typesModeCP2P : AccessMode) (maxSubscriberCount : Z) (now : Z).

Definition demoted (p : perUserData) : perUserData :=
  with_modes p (p.(modeWant) &^ ModeOwner) (p.(modeGiven) &^ ModeOwner).

Lemma change_owner_run asUid (w w' : World St) :
  change_owner asUid w = (w', Ret tt) -> w.(w_topic).(owner) <> 0 ->
  let t := w.(w_topic) in let old := user t t.(owner) in
  w'.(w_topic) = set_owner (put_user t t.(owner) (demoted old)) asUid /\
  rows_but (fun t' u' => t' = t.(t_name) /\ u' = t.(owner)) w.(w_store) w'.(w_store) /\
  rows_stay w.(w_store) w'.(w_store) /\
  forall a b, stores w.(w_store) t.(t_name) t.(owner) a b ->
    stores w'.(w_store) t.(t_name) t.(owner) (demoted old).(modeWant) (demoted old).(modeGiven).
Proof.
  intros Hr Ho t old. unfold change_owner in Hr. apply bind_ret_inv in Hr as (w0 & t0 & [= <- <-] & Hr).
  apply bind_ret_inv in Hr as (w1 & [] & H1 & Hr). apply exec_quiet_ret in H1 as [E1 ->].
  apply bind_ret_inv in Hr as (w2 & [] & H2 & Hr). apply exec_quiet_ret in H2 as [E2 ->].
  apply bind_ret_inv in Hr as (w3 & [] & [= <-] & Hr).
  apply bind_ret_inv in Hr as (w4 & [] & H4 & Hr). injection Hr as <-. simpl.
  pose proof (frame_run same_topic _ _ _ _ (notifySubChange_same_topic _ _ _ _ _ _ _ _) H4) as T4.
  pose proof (frame_run same_store _ _ _ _ (notifySubChange_same_store _ _ _ _ _ _ _ _) H4) as S4.
  unfold same_topic in T4. unfold same_store in S4. simpl in T4, S4. rewrite T4, S4.
  destruct (update_rows _ _ _ _ Ho E1) as [U1 U2].
  split; [done|]. split.
  - eapply rows_but_trans; [exact U1|]. apply same_rows_but. intros. apply law_owner.
  - split; [eapply rows_stay_trans; [apply update_stays|]; intros t' u'; by rewrite law_owner|]. intros a b Hs. apply U2 in Hs. simpl in Hs. intros r. rewrite law_owner. apply Hs.
Qed.

(** ** Changing one's own subscription *)

(** What the plan does with the topic's cache: the member has the planned modes (a reader of the channel who
    no longer joins leaves the cache), an owner who hands over loses the owner bit,
    and everybody else is cached with the access they had. *)
Definition planned_access (t : Topic) (asUid : Uid) (tr : Transition) (v : Uid) : option (AccessMode * AccessMode * bool) :=
  if v =? asUid then
    (if negb (IsJoiner tr.(tr_want)) && (user t asUid).(pud_isChan) then None
     else Some (tr.(tr_want), tr.(tr_given), (user t asUid).(pud_isChan)))
  else if tr.(tr_ownerChange) && (v =? t.(owner)) then
    Some ((user t v).(modeWant) &^ ModeOwner, (user t v).(modeGiven) &^ ModeOwner, (user t v).(pud_isChan))
  else access_of <$> t.(perUser) !! v.

(** What the plan does with the store. *)
Definition planned_rows (t : Topic) (asUid : Uid) (tr : Transition) (s s' : St) : Prop :=
  (stores s t.(t_name) asUid (user t asUid).(modeWant) (user t asUid).(modeGiven) ->
   stores s' t.(t_name) asUid tr.(tr_want) tr.(tr_given)) /\
  (tr.(tr_ownerChange) = true -> forall a b, stores s t.(t_name) t.(owner) a b ->
   stores s' t.(t_name) t.(owner) ((user t t.(owner)).(modeWant) &^ ModeOwner) ((user t t.(owner)).(modeGiven) &^ ModeOwner)) /\
  rows_but (fun t' u' => t' = t.(t_name) /\ (u' = asUid \/ (tr.(tr_ownerChange) = true /\ u' = t.(owner)))) s s' /\
  rows_stay s s' /\
  (live (row s t.(t_name) asUid) = None -> forall t', live (row s' t' asUid) = live (row s t' asUid)).

Lemma planned_rows_lost t asUid tr (s s' : St) :
  (tr.(tr_ownerChange) = true -> t.(owner) <> asUid) ->
  rows_but (fun t' u' => t' = t.(t_name) /\ (u' = asUid \/ (tr.(tr_ownerChange) = true /\ u' = t.(owner)))) s s' ->
  rows_stay s s' ->
  live (row s t.(t_name) asUid) = None -> forall t', live (row s' t' asUid) = live (row s t' asUid).
Proof.
  intros Ho Hb Hk Hn t'. destruct (String.eqb_spec t' (t_name t)) as [->|Ht]; [|apply Hb; by intros [? _]].
  rewrite Hn. apply eq_None_not_Some. rewrite (Hk _ _), Hn. by intros [].
Qed.

Lemma default_changed (new old : AccessMode) :
  default old (if new =? old then None else Some new) = new.
Proof. by destruct (N.eqb_spec new old) as [->|]. Qed.

(** The write of one's own row: skipped when nothing changed. *)
Lemma self_write_run sess asUid topic upd (tail : M (St := St) unit) (w w' : World St) :
  asUid <> 0 -> frame same_store tail -> frame same_topic tail ->
  (if no_updates upd then ret tt else exec_or sess ErrUnknownReply (subs_update topic asUid upd) ;;; tail) w = (w', Ret tt) ->
  same_topic w w' /\ rows_but (fun t' u' => t' = topic /\ u' = asUid) w.(w_store) w'.(w_store) /\
  rows_stay w.(w_store) w'.(w_store) /\
  forall a b, stores w.(w_store) topic asUid a b ->
    stores w'.(w_store) topic asUid (default a upd.(up_ModeWant)) (default b upd.(up_ModeGiven)).
Proof.
  intros Hu Ht1 Ht2 Hr.
  assert ((exec_or sess ErrUnknownReply (subs_update topic asUid upd) ;;; tail) w = (w', Ret tt) ->
    same_topic w w' /\ rows_but (fun t' u' => t' = topic /\ u' = asUid) w.(w_store) w'.(w_store) /\
    rows_stay w.(w_store) w'.(w_store) /\
    forall a b, stores w.(w_store) topic asUid a b ->
      stores w'.(w_store) topic asUid (default a upd.(up_ModeWant)) (default b upd.(up_ModeGiven))) as Hw.
  { intros (w1 & [] & H1 & H2)%bind_ret_inv. apply exec_or_ret in H1 as [E1 ->].
    pose proof (frame_run _ _ _ _ _ Ht1 H2) as S2. pose proof (frame_run _ _ _ _ _ Ht2 H2) as T2.
    unfold same_store in S2. rewrite S2. destruct (update_rows _ _ _ _ Hu E1). split; [done|]. split; [done|]. split; [apply update_stays|done]. }
  destruct upd as [[mw|] [mg|] [mp|] [d|] [rd|] [rc|] [h|]]; try (exact (Hw Hr)).
  injection Hr as <-. split; [done|]. split; [by intros t u|]. split; [by intros t u|by intros a b].
Qed.

Lemma existing_subscription_run sess pkt asUid asChan want priv (w w' : World St) o :
  existing_subscription typesModeCP2P sess pkt asUid asChan want priv (user w.(w_topic) asUid) w = (w', Ret o) ->
  asUid <> 0 ->
  let t := w.(w_topic) in
  exists def tr,
    accessFor typesModeCP2P t pkt.(r_AuthLvl) = Some def /\
    planExistingSelfSubscription (mkTransitionIn t.(t_cat) (t.(owner) =? asUid) (user t asUid).(modeWant)
      (user t asUid).(modeGiven) want def typesModeCP2P) = inl tr /\
    access_of o.(so_user) = (tr.(tr_want), tr.(tr_given), (user t asUid).(pud_isChan)) /\
    ((tr.(tr_ownerChange) = true -> t.(owner) <> 0 /\ t.(owner) <> asUid) ->
     w'.(w_topic) = (if tr.(tr_ownerChange)
                     then set_owner (put_user t t.(owner) (demoted (user t t.(owner)))) asUid else t) /\
     planned_rows t asUid tr w.(w_store) w'.(w_store)).
Proof.
  intros Hr Hu t. unfold existing_subscription in Hr. apply bind_ret_inv in Hr as (w0 & t0 & [= <- <-] & Hr).
  fold t in Hr. destruct (negb (pud_isChan _) && asChan); [by apply bind_ret_inv in Hr as (? & ? & ? & ?)|].
  apply bind_ret_inv in Hr as (w1 & def & H1 & Hr). unfold access_for in H1.
  destruct (accessFor typesModeCP2P t (r_AuthLvl pkt)) as [d|]; [|done]. injection H1 as <- <-.
  set (i := mkTransitionIn _ _ _ _ _ _ _) in *. destruct (planExistingSelfSubscription i) as [tr|e] eqn:Ep;
    [|by apply bind_ret_inv in Hr as (? & ? & ? & ?)].
  cbv zeta in Hr. set (u1 := with_modes _ _ _) in *. set (up := if isNullValue priv then _ else _) in *.
  set (u := match up with Some p => _ | None => _ end) in *.
  assert (access_of u = (tr.(tr_want), tr.(tr_given), (user t asUid).(pud_isChan))) as Ea by (unfold u; by destruct up).
  assert (u.(modeWant) = tr.(tr_want) /\ u.(modeGiven) = tr.(tr_given)) as [Ew Eg] by (by injection Ea).
  apply bind_ret_inv in Hr as (w2 & [] & H2 & Hr).
  eapply (self_write_run sess asUid (t_name t) (mkUpdate _ _ up _ _ _ _) (emit _)) in H2 as (T2 & R2 & K2 & S2); [|done|intros ?; apply emit_same_store|intros ?; apply emit_same_topic].
  unfold same_topic in T2. simpl in S2.
  apply bind_ret_inv in Hr as (w3 & [] & H3 & [= <- <-]). exists d, tr. simpl.
  split; [done|]. split; [done|]. split; [exact Ea|]. intros Ho. rewrite Ew, Eg in S2.
  assert (stores (w_store w) (t_name t) asUid (modeWant (user t asUid)) (modeGiven (user t asUid)) ->
    stores (w_store w2) (t_name t) asUid (tr_want tr) (tr_given tr)) as S2'.
  { intros Hs. apply S2 in Hs. by rewrite !default_changed in Hs. }
  destruct (tr_ownerChange tr) eqn:Eoc; simpl in H3.
  - destruct (Ho eq_refl) as [Ho1 Ho2]. apply change_owner_run in H3; [|by rewrite T2].
    rewrite T2 in H3. fold t in H3. destruct H3 as (T3 & R3 & K3 & S3). split; [exact T3|].
    assert (rows_but (fun t' u' => t' = t.(t_name) /\ (u' = asUid \/ (tr.(tr_ownerChange) = true /\ u' = t.(owner)))) (w_store w) (w_store w3)) as Hb.
    { rewrite Eoc. eapply rows_but_trans; [eapply rows_but_weaken; [|exact R2]|eapply rows_but_weaken; [|exact R3]];
        simpl; intros ? ? [-> ->]; auto. }
    assert (rows_stay (w_store w) (w_store w3)) as Hk by (by eapply rows_stay_trans).
    split; [|split; [|split; [exact Hb|split; [exact Hk|by apply planned_rows_lost with tr]]]].
    + intros Hs. eapply rows_but_stores; [exact R3| |auto]. intros [_ ?]. congruence.
    + intros _ a b Hs. apply (S3 a b). eapply rows_but_stores; [exact R2| |exact Hs]. by intros [_ ?].
  - injection H3 as <-. split; [exact T2|]. split; [done|]. split; [congruence|].
    assert (rows_but (fun t' u' => t' = t.(t_name) /\ (u' = asUid \/ (tr.(tr_ownerChange) = true /\ u' = t.(owner)))) (w_store w) (w_store w2)) as Hb.
    { eapply rows_but_weaken; [|exact R2]. simpl. intros ? ? [-> ->]. auto. }
    split; [exact Hb|]. split; [exact K2|]. apply planned_rows_lost with tr; [by rewrite Eoc|done|done].
Qed.

Lemma unread_change_same_topic t u a b r : frame same_topic (unread_change (St := St) t u a b r).
Proof. unfold unread_change. handler. Qed.
Lemma unread_change_same_store t u a b r : frame same_store (unread_change (St := St) t u a b r).
Proof. unfold unread_change. handler. Qed.

(** The end of a change: the entry is written, and a member who no longer joins is evicted. *)
Lemma finish_self_sub_run sess pkt asUid asChan o (w w' : World St) r :
  finish_self_sub sess pkt asUid asChan o w = (w', Ret r) ->
  let a := access_of o.(so_user) in
  same_store w w' /\
  access_becomes asUid (if IsJoiner o.(so_user).(modeWant) then Some a else after_evict (Some a)) w w' /\
  (IsJoiner o.(so_user).(modeWant) = true -> IsJoiner o.(so_user).(modeGiven) = true).
Proof.
  intros Hr. unfold finish_self_sub in Hr. apply bind_ret_inv in Hr as (w0 & t & [= <- <-] & Hr).
  set (u := so_user o) in *. apply bind_ret_inv in Hr as (w1 & [] & H1 & Hr).
  assert (same_store w w1 /\ same_topic w w1) as [S1 T1].
  { split; revert H1; apply frame_run, when_frame; [apply _| |apply _|]; handler. }
  apply bind_ret_inv in Hr as (w2 & [] & [= <-] & Hr). apply bind_ret_inv in Hr as (w3 & [] & H3 & Hr).
  assert (same_store (mkWorld (put_user (w_topic w) asUid u) (w_store w1) (w_out w1)) w3 /\
          same_topic (mkWorld (put_user (w_topic w) asUid u) (w_store w1) (w_out w1)) w3) as [S3 T3].
  { split; revert H3; apply frame_run, when_frame; [apply _| |apply _|];
      (apply frame_bind; [apply _| |intros _; handler]); apply when_frame; try apply _;
      [apply unread_change_same_store|apply unread_change_same_topic]. }
  unfold same_store, same_topic in S1, S3, T3. simpl in S3, T3.
  assert (access_becomes asUid (Some (access_of u)) w w3) as B3.
  { unfold access_becomes, cached_access. rewrite T3. simpl. rewrite lookup_insert_eq. repeat split.
    intros v Hv. by rewrite lookup_insert_ne. }
  destruct (IsJoiner (modeWant u)); simpl in Hr.
  - destruct (IsJoiner (modeGiven u)); simpl in Hr; [|by apply bind_ret_inv in Hr as (? & ? & ? & ?)].
    injection Hr as <- _. split; [unfold same_store; congruence|]. by split.
  - apply bind_ret_inv in Hr as (w4 & [] & H4 & [= <- _]).
    pose proof (frame_run same_store _ _ _ _ (evictUser_same_store _ _ _) H4) as S4.
    unfold same_store in S4. split; [unfold same_store; congruence|]. split; [|done].
    apply evictUser_access in H4. destruct B3 as (O3 & F3 & C3 & D3). rewrite C3 in H4.
    by eapply becomes_twice.
Qed.

(** The mode a request asks for: unset when it names none. *)
Definition wanted (want : string) : AccessMode * option GoError :=
  if String.eqb want "" then (ModeUnset, None) else UnmarshalText ModeUnset want.

(** C11: a member's change of their own access implements the transition plan. The member is cached and not
    marked deleted, the request carries no invitation, and where the plan transfers
    ownership the topic has an owner and it is somebody else; the topic may be of any kind. On success the plan for
    the requested mode succeeded; the cache holds the planned access (a channel's reader who no
    longer joins leaves it); ownership and the former owner's access change exactly when the plan
    transfers ownership; nobody else's access changes in either place, and no
    subscription starts or ends. The member's row under the topic's own name holds the planned access if
    it agreed with the cache before; a member without a live row there (a reader of the channel, whose
    row is under the channel's name) keeps their rows as they were: the change is not stored. *)
Theorem self_change_implements_plan sess pkt asUid asChan want priv (w w' : World St) acs u :
  thisUserSub typesModeCP2P maxSubscriberCount now sess pkt asUid asChan want priv "" w = (w', Ret acs) ->
  w.(w_topic).(perUser) !! asUid = Some u -> u.(deleted) = false -> asUid <> 0 ->
  exists def tr,
    accessFor typesModeCP2P w.(w_topic) pkt.(r_AuthLvl) = Some def /\ (wanted want).2 = None /\
    planExistingSelfSubscription (mkTransitionIn w.(w_topic).(t_cat) (w.(w_topic).(owner) =? asUid)
      u.(modeWant) u.(modeGiven) (wanted want).1 def typesModeCP2P) = inl tr /\
    (IsJoiner tr.(tr_want) = true -> IsJoiner tr.(tr_given) = true) /\
    ((tr.(tr_ownerChange) = true -> w.(w_topic).(owner) <> 0 /\ w.(w_topic).(owner) <> asUid) ->
     w'.(w_topic).(owner) = (if tr.(tr_ownerChange) then asUid else w.(w_topic).(owner)) /\
     (forall v, cached_access w' v = planned_access w.(w_topic) asUid tr v) /\
     planned_rows w.(w_topic) asUid tr w.(w_store) w'.(w_store)).
Proof.
  intros Hr Hp Hd Hu. unfold thisUserSub in Hr. fold (wanted want) in Hr.
  destruct (wanted want) as [m [e|]] eqn:Ew; [by apply bind_ret_inv in Hr as (? & ? & ? & ?)|].
  apply bind_ret_inv in Hr as (w0 & t & [= <- <-] & Hr).
  change (negb (String.eqb "" "") && cat_eqb (t_cat (w_topic w)) TopicCatGrp) with false in Hr.
  apply bind_ret_inv in Hr as (w0 & b & [= <- <-] & Hr). simpl in Hr.
  rewrite bool_decide_eq_true_2 in Hr by eauto. assert (user (w_topic w) asUid = u) as Eu by (unfold user; by rewrite Hp).
  rewrite Eu, Hd in Hr. simpl in Hr. rewrite <- Eu in Hr.
  apply bind_ret_inv in Hr as (w1 & o & H1 & Hr).
  apply existing_subscription_run in H1 as (def & tr & Hdef & Hplan & Ea & Hstate); [|done].
  apply finish_self_sub_run in Hr as (S3 & (O3 & _ & C3 & D3) & Hj).
  pose proof Ea as [= E1 E2 E3]. rewrite Ea, E1, E2 in *.
  rewrite Eu in Hplan. exists def, tr. split; [done|]. split; [done|]. split; [exact Hplan|].
  split; [exact Hj|]. intros Hne. destruct (Hstate Hne) as [T1 R1]. unfold same_store in S3. rewrite S3.
  split; [rewrite O3, T1; by destruct (tr_ownerChange tr)|]. split; [|exact R1].
  intros v. unfold planned_access. destruct (N.eqb_spec v asUid) as [->|Hva].
  { rewrite C3. unfold after_evict. by destruct (IsJoiner (tr_want tr)), (pud_isChan (user (w_topic w) asUid)). }
  rewrite D3 by done. unfold cached_access. rewrite T1. destruct (tr_ownerChange tr); simpl; [|done].
  destruct (N.eqb_spec v (owner (w_topic w))) as [->|Hvo]; [by rewrite lookup_insert_eq|by rewrite lookup_insert_ne].
Qed.
End SelfSub.

(** ** Runs on a sample group *)

(** The group of [sample_topic] with the ownership offered to the administrator [2]. *)
Definition offered_topic : Topic := put_user sample_topic 2 (with_modes pud0 adminAccess ModeCFull).
Definition offered_store (faults : list bool) : MemStore :=
  set_subs (sample_store faults)
    (<[("grpA", 2) := sub_row 2 "grpA" adminAccess ModeCFull ANil]> (sample_store faults).(ms_subs)).
Definition offered_world (faults : list bool) : World MemStore := mkWorld offered_topic (offered_store faults) [].

Definition self_run (sess : Session) (asUid : Uid) (asChan : bool) (orig want : string) (w : World MemStore) :=
  thisUserSub ModeCP2P 100 0 sess (mkRequest LevelAuth orig false "" "") asUid asChan want ANil "" w.
Definition accept_run (faults : list bool) := self_run sample_session 2 false "grpA" "JRWPASDO" (offered_world faults).

(** Accepting the ownership: the new owner, and the old one demoted in cache and store. *)
Lemma self_change_implements_plan_witness :
  (fst (accept_run [])).(w_topic).(owner) = 2 /\
  stores (fst (accept_run [])).(w_store) "grpA" 1 (ModeCFull &^ ModeOwner) (ModeCFull &^ ModeOwner).
Proof.
  assert (exists acs, accept_run [] = (fst (accept_run []), Ret acs)) as [acs H]
    by (eexists; vm_compute; reflexivity).
  destruct (self_change_implements_plan ModeCP2P 100 0 sample_session (mkRequest LevelAuth "grpA" false "" "") 2 false
    "JRWPASDO" ANil (offered_world []) _ acs (with_modes pud0 adminAccess ModeCFull) H
    ltac:(vm_compute; reflexivity) eq_refl ltac:(discriminate))
    as (def & tr & _ & _ & Hp & _ & Hs).
  assert (tr_ownerChange tr = true) as Ho.
  { assert (planExistingSelfSubscription (mkTransitionIn TopicCatGrp false adminAccess ModeCFull ModeCFull def ModeCP2P)
      = inl tr) as Hp' by exact Hp. cbv in Hp'. injection Hp' as <-. reflexivity. }
  rewrite Ho in Hs. destruct Hs as (H1 & _ & _ & H2 & _); [intros _; vm_compute; split; discriminate|].
  split; [exact H1|]. apply (H2 Ho ModeCFull ModeCFull). intros r. vm_compute. intros [= <-]. split; reflexivity.
Defined.

(** The effective access of a cached member. *)
Definition effective (t : Topic) (u : Uid) : AccessMode := (user t u).(modeWant) &. (user t u).(modeGiven).

(** A stranger [4] joins asking for everything; later the owner [1] grants it everything. *)
Definition join_all : World MemStore * Res (option MsgAccessMode) :=
  self_run (mkSession "s4" 4 ProtoClient false None) 4 false "grpA" "JRWPASDO" (sample_world []).
Definition grant_all : World MemStore * Res (option MsgAccessMode) :=
  anotherUserSub ModeCP2P 100 (mkSession "s1" 1 ProtoClient false None) 1 4 false
    (mkRequest LevelAuth "grpA" false "JRWPASDO" "") (fst join_all).

(** a group can have two owners: a new member's requested mode is kept unrestricted, so when
    the owner later grants the ownership, the member owns the group in cache and store at once,
    while the transfer that would demote the old owner never runs. *)
Theorem two_effective_owners :
  (exists a, snd join_all = Ret (Some a) /\ a.(am_Mode) = "JRWPS") /\ (exists a, snd grant_all = Ret (Some a)) /\
  let w := fst grant_all in
  w.(w_topic).(owner) = 1 /\ effective w.(w_topic) 1 = ModeCFull /\ effective w.(w_topic) 4 = ModeCFull /\
  stores w.(w_store) "grpA" 4 ModeCFull ModeCFull /\ stores w.(w_store) "grpA" 1 ModeCFull ModeCFull.
Proof.
  split; [eexists; split; vm_compute; reflexivity|]. split; [eexists; vm_compute; reflexivity|].
  repeat split; try (vm_compute; reflexivity); revert H; vm_compute; intros [= <-]; reflexivity.
Qed.

(** An ownership transfer whose second write fails: the new owner's row is ahead of the cache,
    and the client gets no reply. *)
Lemma failed_transfer_diverges :
  let w := fst (accept_run [false; true]) in
  (exists e, snd (accept_run [false; true]) = Err e) /\
  (forall s r, ~ In (QueueOut s r) w.(w_out)) /\
  (user w.(w_topic) 2).(modeWant) = adminAccess /\ stores w.(w_store) "grpA" 2 ModeCFull ModeCFull.
Proof.
  split; [eexists; vm_compute; reflexivity|].
  split; [intros s r; vm_compute; intros [?|[]]; discriminate|].
  split; [vm_compute; reflexivity|]. intros r. vm_compute. intros [= <-]. split; reflexivity.
Qed.

(** A channel with a reader [3]. *)
Definition channel_topic : Topic :=
  mkTopic "grpA" "grpA" TopicCatGrp true 1 ModeCPublic 0 10 3 1 "" None 0
    {[ 1 := with_modes pud0 ModeCFull ModeCFull; 3 := with_isChan (with_modes pud0 ModeCChnReader ModeCChnReader) true ]}
    0 0 ∅ ∅ 0 0 None ∅ ∅ false None.
Definition channel_store : MemStore :=
  mkMem {[ ("grpA", 1) := sub_row 1 "grpA" ModeCFull ModeCFull ANil;
           ("chnA", 3) := sub_row 3 "chnA" ModeCChnReader ModeCChnReader ANil ]} ∅ ∅ ∅ None [].
Definition reader_run : World MemStore * Res (option MsgAccessMode) :=
  self_run (mkSession "s3" 3 ProtoClient false None) 3 true "chnA" "JR" (mkWorld channel_topic channel_store []).

(** A channel reader's change of access succeeds, but is written under the group's name: the
    reader's row keeps the old access. *)
Lemma channel_reader_update_lost :
  (exists a, snd reader_run = Ret (Some a)) /\
  let w := fst reader_run in
  (user w.(w_topic) 3).(modeWant) = ModeJoin |. ModeRead /\
  ModeCChnReader <> ModeJoin |. ModeRead /\
  live (row w.(w_store) "chnA" 3) = Some (sub_row 3 "chnA" ModeCChnReader ModeCChnReader ANil).
Proof. split; [eexists; vm_compute; reflexivity|]. repeat split; vm_compute; (reflexivity || discriminate). Qed.

(** Subscribing again to the sys topic panics for every subscriber: the default access the
    transition does not even need has no case for it. *)
Lemma sys_resubscribe_panics {St} `{SubStore St} p2p limit now sess pkt uid asChan priv (w : World St) u :
  w.(w_topic).(t_cat) = TopicCatSys -> w.(w_topic).(perUser) !! uid = Some u -> u.(deleted) = false ->
  u.(pud_isChan) = true \/ asChan = false ->
  exists w', thisUserSub p2p limit now sess pkt uid asChan "" priv "" w = (w', Panic "未知的 Topic 类别").
Proof.
  intros Hc Hp Hd Hch. exists w. unfold thisUserSub. simpl. unfold bind at 1, get_topic.
  assert (user (w_topic w) uid = u) as -> by (unfold user; by rewrite Hp).
  rewrite bool_decide_eq_true_2 by eauto. rewrite Hd. simpl. unfold bind at 1, ret. simpl.
  unfold existing_subscription, bind, get_topic, access_for, accessFor, lift_option.
  destruct Hch as [-> | ->]; rewrite ?andb_false_r, Hc; reflexivity.
Qed.
