(* ===== verification/TopicMemberProps.v ===== *)
(** * TopicMemberProps: refusals, changes by others, leaving and sessions

    A ban outlives the member's subscription; what an administrator's change of
    somebody else's access leaves; leaving a group; which session references an
    eviction removes. *)

From Stdlib Require Import NArith ZArith Lia List Ascii String Bool Permutation.
From stdpp Require Import base tactics numbers list strings gmap sets.
From S2P Require Import Prelude AccessMode Uid StoreTypes SubStore Topic TopicSub TopicSession TopicSubProps TopicSelfProps.
Import Objects.
Import Topic.

#[local] Open Scope string_scope.
#[local] Open Scope N_scope.

(** Members, owner and subscriptions are as they were. *)
Definition unchanged {St} `{SubStoreLaws St} (w w' : World St) : Prop :=
  w'.(w_topic).(perUser) = w.(w_topic).(perUser) /\ w'.(w_topic).(owner) = w.(w_topic).(owner) /\ same_rows w w'.

#[global] Instance unchanged_preorder {St} `{SubStoreLaws St} : PreOrder (unchanged (St := St)).
Proof.
  split; [by intros w|]. intros a b c (A1 & A2 & A3) (B1 & B2 & B3). split; [congruence|].
  split; [congruence|]. by transitivity b.
Qed.

Section Refusals.
Context {St : Type} `{Laws : SubStoreLaws St}.
Context (typesModeCP2P : AccessMode) (maxSubscriberCount : Z) (now : Z).

Lemma unchanged_frame {A} (m : M (St := St) A) : frame same_topic m -> frame same_rows m -> frame unchanged m.
Proof. intros Ht Hr w. specialize (Ht w). specialize (Hr w). unfold same_topic in Ht. by repeat split; rewrite ?Ht. Qed.

(** A run of [bind]: the first part returned and the second ran, or there is no value. *)
Lemma bind_outcome {A B} (m : M (St := St) A) (k : A -> M B) w w' r :
  bind m k w = (w', r) ->
  (exists w1 a, m w = (w1, Ret a) /\ k a w1 = (w', r)) \/ ((forall b, r <> Ret b) /\ w' = (m w).1).
Proof. unfold bind. destruct (m w) as [w1 [a|e|p]]; [eauto|intros [= <- <-]; auto|intros [= <- <-]; auto]. Qed.

Lemma reject_unchanged {A} s r e : frame unchanged (reject (St := St) (A := A) s r e).
Proof. apply unchanged_frame; handler. Qed.

Lemma call_unchanged {A} (f : St -> St * A) :
  (forall s t u, row (f s).1 t u = row s t u) -> frame unchanged (call f).
Proof. intros Hf. apply unchanged_frame; [apply call_same_topic|by apply call_rows]. Qed.

Lemma refreshOfficialPolicy_unchanged : frame unchanged (refreshOfficialPolicy (St := St) now).
Proof.
  intros w. unfold refreshOfficialPolicy, bind, get_topic, call.
  match goal with |- context [if ?b then ret None else _] => destruct b end; [done|].
  pose proof (law_policy (t_name (w_topic w)) now (w_store w)) as Hl.
  destruct (refresh_policy _ _ _) as [s [p|e]]; by split; [|split].
Qed.

Lemma checkOfficialSelfJoin_unchanged sess uid b : frame unchanged (checkOfficialSelfJoin (St := St) now sess uid b).
Proof.
  unfold checkOfficialSelfJoin. apply frame_bind; [apply _|apply frame_get_topic, _|]. intros t.
  destruct (negb (isOfficialTopic t)); [apply frame_ret, _|].
  apply frame_bind; [apply _|apply refreshOfficialPolicy_unchanged|]. intros [e|]; [apply reject_unchanged|].
  apply frame_bind; [apply _|apply frame_get_topic, _|]. intros t'.
  destruct (official t') as [p|]; [|apply reject_unchanged].
  repeat match goal with |- frame _ (if ?b then _ else _) => destruct b end;
    try apply reject_unchanged; try apply frame_ret, _.
  apply frame_bind; [apply _|apply call_unchanged; intros; apply law_join|]. intros [st| |e]; try apply reject_unchanged.
  apply frame_bind; [apply _|apply frame_lift_option, _|intros; apply reject_unchanged].
Qed.

Lemma check_join_unchanged sess uid asChan :
  frame unchanged (check_join (St := St) maxSubscriberCount now sess uid asChan false "").
Proof.
  unfold check_join. apply frame_bind; [apply _|apply frame_get_topic, _|]. intros t.
  apply frame_bind; [apply _| |intros _].
  - apply when_frame; [apply _|]. apply frame_bind; [apply _|apply checkOfficialSelfJoin_unchanged|].
    intros _. apply frame_ret, _.
  - apply frame_bind; [apply _|apply frame_get_topic, _|]. intros t'.
    match goal with |- frame _ (if ?b then _ else _) => destruct b end; [apply reject_unchanged|apply frame_ret, _].
Qed.

Lemma group_access_unchanged sess t pkt asUid want u :
  frame unchanged (group_access (St := St) typesModeCP2P sess t pkt asUid want false false u).
Proof.
  unfold group_access, access_for. apply unchanged_frame; [handler|].
  apply frame_bind; [apply _|apply store_or_same_rows; intros; apply (law_get (t_name t) asUid true)|].
  intros sub. handler.
Qed.

(** The given mode of the new access is the stored one, if there is any. *)
Lemma group_access_given sess t pkt asUid want u (w w' : World St) a r :
  group_access typesModeCP2P sess t pkt asUid want false false u w = (w', Ret a) ->
  row w.(w_store) t.(t_name) asUid = Some r -> r.(s_ModeGiven) <> ModeUnset ->
  a.(na_user).(modeGiven) = r.(s_ModeGiven).
Proof.
  intros Hr Hrow Hne. unfold group_access in Hr. apply bind_ret_inv in Hr as (w1 & sub & H1 & Hr).
  apply store_or_ret in H1 as [E1 ->]. pose proof (law_get (t_name t) asUid true (w_store w)) as [_ Hv].
  apply Hv in E1 as ->. rewrite Hrow in Hr. unfold visible in Hr.
  assert (match s_DeletedAt r with Some _ => Some r | None => Some r end = Some r) as E by (by destruct (s_DeletedAt r)).
  rewrite E in Hr. destruct (N.eqb_spec (s_ModeGiven r) ModeUnset); [done|].
  apply bind_ret_inv in Hr as (w2 & g & [= <- <-] & Hr). apply bind_ret_inv in Hr as (w3 & x & _ & [= _ <-]). done.
Qed.

Lemma check_join_topic sess uid asChan (w w1 : World St) :
  check_join maxSubscriberCount now sess uid asChan false "" w = (w1, Ret tt) ->
  unchanged w w1 /\ w1.(w_topic).(t_name) = w.(w_topic).(t_name) /\ w1.(w_topic).(t_cat) = w.(w_topic).(t_cat).
Proof.
  intros Hr. split.
  { pose proof (check_join_unchanged sess uid asChan w) as Hu. by rewrite Hr in Hu. }
  revert Hr. set (R := fun w w' : World St => w'.(w_topic).(t_name) = w.(w_topic).(t_name) /\ w'.(w_topic).(t_cat) = w.(w_topic).(t_cat)).
  assert (PreOrder R) as HR by (split; [by intros ?|intros a b c [? ?] [? ?]; split; congruence]).
  assert (forall A (m : M (St := St) A), frame same_topic m -> frame R m) as HT.
  { intros A m Hm w0. specialize (Hm w0). unfold same_topic in Hm. unfold R. by rewrite Hm. }
  apply (frame_run R). unfold check_join.
  apply frame_bind; [done|apply frame_get_topic, _|]. intros t. apply frame_bind; [done| |intros _; apply HT; handler].
  apply when_frame; [done|]. apply frame_bind; [done| |intros _; apply frame_ret, _].
  unfold checkOfficialSelfJoin. apply frame_bind; [done|apply frame_get_topic, _|]. intros t'.
  destruct (negb (isOfficialTopic t')); [apply frame_ret, _|].
  apply frame_bind; [done| |intros a; apply HT; repeat handler].
  intros w0. unfold refreshOfficialPolicy, bind, get_topic, call.
  match goal with |- context [if ?b then ret None else _] => destruct b end; [done|].
  by destruct (refresh_policy _ _ _) as [s [p|e]].
Qed.

Lemma banned_new_subscription sess pkt asUid want priv (w w' : World St) res r :
  new_subscription typesModeCP2P maxSubscriberCount now sess pkt asUid false want priv "" false false pud0 w = (w', res) ->
  w.(w_topic).(t_cat) = TopicCatGrp ->
  row w.(w_store) w.(w_topic).(t_name) asUid = Some r -> r.(s_ModeGiven) <> ModeUnset ->
  IsJoiner r.(s_ModeGiven) = false ->
  (forall o, res <> Ret o) /\ unchanged w w'.
Proof.
  intros Hr Hc Hrow Hne Hj. unfold new_subscription in Hr.
  apply bind_outcome in Hr as [(w1 & [] & H1 & Hr)|[? ->]]; [|split; [done|apply check_join_unchanged]].
  apply check_join_topic in H1 as (U1 & N1 & C1).
  apply bind_outcome in Hr as [(w0 & t & [= <- <-] & Hr)|[? ->]]; [|done].
  unfold new_access in Hr. rewrite C1, Hc in Hr. simpl in Hr.
  pose proof (group_access_unchanged sess (w_topic w1) pkt asUid want pud0 w1) as U2.
  apply bind_outcome in Hr as [(w2 & a & H2 & Hr)|[? ->]]; [|split; [done|by transitivity w1]].
  rewrite H2 in U2. simpl in U2.
  assert (modeGiven (na_user a) = s_ModeGiven r) as E.
  { eapply group_access_given; [exact H2| |done]. rewrite N1. destruct U1 as (_ & _ & U1). by rewrite U1. }
  rewrite E, Hj in Hr. simpl in Hr.
  pose proof (reject_unchanged (A := SubOutcome) sess ErrPermissionDeniedReply (TextErr "由于权限不足订阅被拒绝") w2) as U3.
  rewrite Hr in U3. split; [by injection Hr as _ <-|]. by transitivity w1; [|transitivity w2].
Qed.

(** a ban outlives the subscription: a user of a group whose stored access, of a live or a
    deleted subscription, lacks the permission to join, is refused without an invitation whatever they
    ask for, and neither the members nor the stored subscriptions change. *)
Theorem banned_user_cannot_rejoin sess pkt asUid want priv (w w' : World St) res r :
  thisUserSub typesModeCP2P maxSubscriberCount now sess pkt asUid false want priv "" w = (w', res) ->
  w.(w_topic).(t_cat) = TopicCatGrp -> w.(w_topic).(perUser) !! asUid = None ->
  row w.(w_store) w.(w_topic).(t_name) asUid = Some r -> r.(s_ModeGiven) <> ModeUnset ->
  IsJoiner r.(s_ModeGiven) = false ->
  (forall acs, res <> Ret acs) /\ unchanged w w'.
Proof.
  intros Hr Hc Hp Hrow Hne Hj. unfold thisUserSub in Hr. fold (wanted want) in Hr.
  destruct (wanted want) as [m [e|]]; [injection Hr as <- <-; done|].
  apply bind_outcome in Hr as [(w0 & t & [= <- <-] & Hr)|[? ->]]; [|done].
  change (negb (String.eqb "" "") && cat_eqb (t_cat (w_topic w)) TopicCatGrp) with false in Hr.
  rewrite (bool_decide_eq_false_2 (is_Some _)) in Hr by (rewrite Hp; by intros [? ?]).
  apply bind_outcome in Hr as [(w0 & b & [= <- <-] & Hr)|[? ->]]; [|done]. simpl in Hr.
  assert (user (w_topic w) asUid = pud0) as Eu by (unfold user; by rewrite Hp). rewrite Eu in Hr.
  destruct (new_subscription typesModeCP2P maxSubscriberCount now sess pkt asUid false m priv "" false false pud0 w)
    as [w2 r2] eqn:E.
  destruct (banned_new_subscription _ _ _ _ _ _ _ _ _ E Hc Hrow Hne Hj) as [Hn Hun].
  unfold bind in Hr. rewrite E in Hr. destruct r2 as [o|e|q]; [by destruct (Hn o)|by injection Hr as <- <-..].
Qed.
End Refusals.

(** A stranger [5] who was banned and whose subscription is deleted. *)
Definition banned_store : MemStore :=
  set_subs (sample_store []) (<[("grpA", 5) := mkSub (UidString 5) "grpA" memberAccess ModeNone ANil 0 0 [] 0 (Some 7%Z)]>
    (sample_store []).(ms_subs)).
Definition banned_run : World MemStore * Res (option MsgAccessMode) :=
  self_run (mkSession "s5" 5 ProtoClient false None) 5 false "grpA" "JRWPS" (mkWorld sample_topic banned_store []).

Lemma banned_user_cannot_rejoin_witness :
  (forall acs, snd banned_run <> Ret acs) /\ (fst banned_run).(w_topic).(perUser) = sample_topic.(perUser).
Proof.
  assert (banned_run = (fst banned_run, snd banned_run)) as H by (apply surjective_pairing).
  destruct (banned_user_cannot_rejoin (Laws := MemSubStoreLaws) ModeCP2P 100 0 (mkSession "s5" 5 ProtoClient false None)
    (mkRequest LevelAuth "grpA" false "" "") 5 "JRWPS" ANil (mkWorld sample_topic banned_store []) _ _
    (mkSub (UidString 5) "grpA" memberAccess ModeNone ANil 0 0 [] 0 (Some 7%Z)) H eq_refl eq_refl
    ltac:(vm_compute; reflexivity) ltac:(discriminate) eq_refl) as [H1 [H2 _]].
  split; [exact H1|exact H2].
Defined.

(** ** Changing somebody else's access *)

Section Others.
Context {St : Type} `{Laws : SubStoreLaws St}.
Context (typesModeCP2P : AccessMode) (maxSubscriberCount : Z).

(** The given mode the request asks for. *)
Definition granted (t : Topic) (mode : string) : AccessMode * option GoError :=
  let '(given, err) := if String.eqb mode "" then (ModeUnset, None) else UnmarshalText ModeUnset mode in
  (if negb (String.eqb mode "") && cat_eqb t.(t_cat) TopicCatP2P then (given &. typesModeCP2P) |. ModeApprove else given, err).

(** The guards on the actor. *)
Definition may_grant (t : Topic) (asUid : Uid) (asChan : bool) (given : AccessMode) : Prop :=
  asChan = false /\ isReadOnly t = false /\
  exists host, t.(perUser) !! asUid = Some host /\ IsSharer (host.(modeGiven) &. host.(modeWant)) = true /\
    (given <> ModeUnset -> IsAdmin (host.(modeGiven) &. host.(modeWant)) = true /\
       (t.(owner) = asUid \/ BetterEqual (host.(modeGiven) &. host.(modeWant)) (given &^ ModeOwner) = true)) /\
    (IsOwner given = true -> t.(owner) = asUid).

(** One member's entry and row are written, the others are left alone. *)
Definition one_member (target : Uid) (u : perUserData) (w w' : World St) : Prop :=
  w'.(w_topic).(owner) = w.(w_topic).(owner) /\
  (forall p', w'.(w_topic).(perUser) !! target = Some p' -> p'.(modeWant) = u.(modeWant) /\ p'.(modeGiven) = u.(modeGiven)) /\
  (forall v p', v <> target -> w'.(w_topic).(perUser) !! v = Some p' ->
     exists p, w.(w_topic).(perUser) !! v = Some p /\ p'.(modeWant) = p.(modeWant) /\ p'.(modeGiven) = p.(modeGiven)) /\
  rows_but (fun t' u' => t' = w.(w_topic).(t_name) /\ u' = target) w.(w_store) w'.(w_store).

Lemma shrinks_one_member target u (w w1 w2 : World St) :
  shrinks w1 w2 -> same_store w1 w2 -> one_member target u w w1 -> one_member target u w w2.
Proof.
  intros (_ & _ & _ & O & P) S (A1 & A2 & A3 & A4). unfold same_store in S. split; [congruence|].
  split; [|split; [|by rewrite S]].
  - intros p' Hp. destruct (P _ _ Hp) as (q & Hq & -> & -> & _). by apply A2.
  - intros v p' Hv Hp. destruct (P _ _ Hp) as (q & Hq & -> & -> & _). by apply A3.
Qed.

Lemma finish_other_run sess asUid target ow og u (w w' : World St) r :
  finish_other_sub sess asUid target ow og u w = (w', Ret r) -> shrinks w w' /\ same_store w w'.
Proof.
  intros Hr. revert Hr. unfold finish_other_sub. set (m := bind _ _).
  assert (frame shrinks m /\ frame same_store m) as [H1 H2]; [|intros Hr; split; revert Hr; by apply frame_run].
  unfold m. split.
  - apply frame_bind; [apply _|apply frame_get_topic, _|]. intros t. apply frame_bind; [apply _| |intros _].
    { apply frame_shrinks, when_frame; [apply _|].
      apply frame_bind; [apply _|apply unread_change_same_topic|intros _; apply notifySubChange_same_topic]. }
    apply frame_bind; [apply _|apply when_frame; [apply _|apply evictUser_shrinks]|intros _].
    apply frame_bind; [apply _|apply evictCold_shrinks|intros _; apply frame_ret, _].
  - apply frame_bind; [apply _|apply frame_get_topic, _|]. intros t. apply frame_bind; [apply _| |intros _].
    { apply when_frame; [apply _|].
      apply frame_bind; [apply _|apply unread_change_same_store|intros _; apply notifySubChange_same_store]. }
    apply frame_bind; [apply _|apply when_frame; [apply _|apply evictUser_same_store]|intros _].
    apply frame_bind; [apply _|apply evictCold_same_store|intros _; apply frame_ret, _].
Qed.

Lemma regrant_run sess target given u (w w' : World St) u' :
  regrant sess target given u w = (w', Ret u') -> target <> 0 -> w.(w_topic).(perUser) !! target = Some u ->
  one_member target u' w w' /\
  u'.(modeWant) = u.(modeWant) /\ u'.(modeGiven) = (if given =? ModeUnset then u.(modeGiven) else given) /\
  (w.(w_topic).(owner) = target -> u'.(modeGiven) = u.(modeGiven) \/ (IsOwner u'.(modeGiven) = true /\ IsJoiner u'.(modeGiven) = true)) /\
  forall a b, stores w.(w_store) w.(w_topic).(t_name) target a b ->
    stores w'.(w_store) w.(w_topic).(t_name) target a (if u'.(modeGiven) =? u.(modeGiven) then b else u'.(modeGiven)).
Proof.
  intros Hr Hu Hp. unfold regrant in Hr. apply bind_ret_inv in Hr as (w0 & t & [= <- <-] & Hr).
  destruct (N.eqb_spec given ModeUnset) as [Eg|Eg]; simpl in Hr.
  { injection Hr as <- <-. rewrite N.eqb_refl. split; [|auto]. repeat split.
    1,2: congruence. intros v p' _ Hv. by exists p'. }
  destruct (N.eqb_spec given (modeGiven u)) as [Eq|Eq]; simpl in Hr.
  { injection Hr as <- <-. rewrite N.eqb_refl. split; [|auto]. repeat split.
    1,2: congruence. intros v p' _ Hv. by exists p'. }
  destruct ((owner (w_topic w) =? target) && (negb (IsOwner given) || negb (IsJoiner given))) eqn:Eo;
    [by apply bind_ret_inv in Hr as (? & ? & ? & ?)|].
  apply bind_ret_inv in Hr as (w1 & [] & H1 & Hr). apply exec_quiet_ret in H1 as [E1 ->].
  injection Hr as <- <-. simpl. destruct (update_rows _ _ _ _ Hu E1) as [R1 S1].
  rewrite (proj2 (N.eqb_neq given (modeGiven u)) Eq).
  split; [|split; [done|split; [done|split]]].
  - split; [done|]. split; [|split; [|exact R1]].
    + simpl. intros p'. rewrite lookup_insert_eq. by intros [= <-].
    + simpl. intros v p' Hv. rewrite lookup_insert_ne by done. intros Hq. by exists p'.
  - intros Et. rewrite Et, N.eqb_refl in Eo. simpl in Eo. right. by destruct (IsOwner given), (IsJoiner given).
  - intros a b Hs. by apply (S1 a b).
Qed.

Lemma invite_user_run sess asUid target given (w w' : World St) u :
  invite_user typesModeCP2P maxSubscriberCount sess asUid target given w = (w', Ret u) ->
  target < 2 ^ 64 -> 
  one_member target u w w' /\ IsJoiner u.(modeWant) = true /\
  stores w'.(w_store) w.(w_topic).(t_name) target u.(modeWant) u.(modeGiven) /\
  (given <> ModeUnset -> u.(modeGiven) = given) /\ (given = ModeUnset -> IsJoiner u.(modeGiven) = true).
Proof.
  intros Hr Hu. apply ParseUid_String in Hu. unfold invite_user in Hr.
  apply bind_ret_inv in Hr as (w0 & t & [= <- <-] & Hr).
  match type of Hr with (if ?b then _ else _) _ = _ => destruct b end; [by apply bind_ret_inv in Hr as (? & ? & ? & ?)|].
  apply bind_ret_inv in Hr as (w1 & g & H1 & Hr).
  assert (w1 = w /\ (given <> ModeUnset -> g = given) /\ (given = ModeUnset -> IsJoiner g = true)) as (-> & Hg1 & Hg2).
  { destruct (N.eqb_spec given ModeUnset) as [Eg|Eg]; [|by injection H1 as <- <-].
    apply bind_ret_inv in H1 as (w2 & d & H1 & [= <- <-]). unfold access_for in H1.
    destruct (accessFor _ _ _); [|done]. injection H1 as <- _. split; [done|]. split; [done|]. intros _.
    rewrite IsJoiner_testbit, N.lor_spec. apply orb_true_r. }
  apply bind_ret_inv in Hr as (w2 & sub & H2 & Hr). apply store_or_ret in H2 as [_ ->].
  set (s1 := (subs_get _ _ _ _).1) in *.
  assert (forall t' u', row s1 t' u' = row (w_store w) t' u') as R1 by (intros; apply (law_get _ target true)).
  apply bind_ret_inv in Hr as (w3 & want & H3 & Hr).
  assert (w_topic w3 = w_topic w /\ forall t' u', row (w_store w3) t' u' = row s1 t' u') as [T3 R3].
  { destruct sub as [x|]; [by injection H3 as <- _|]. apply bind_ret_inv in H3 as (w4 & x & H3 & H4).
    apply store_or_ret in H3 as [_ ->]. destruct x as [x|]; [|by apply bind_ret_inv in H4 as (? & ? & ? & ?)].
    destruct (negb (u_State x =? StateOK)%Z); [by apply bind_ret_inv in H4 as (? & ? & ? & ?)|].
    injection H4 as <- _. split; [done|]. intros. apply law_users. }
  destruct (IsJoiner want) eqn:Ej; simpl in Hr; [|by apply bind_ret_inv in Hr as (? & ? & ? & ?)].
  apply bind_ret_inv in Hr as (w4 & [] & H4 & Hr). apply exec_or_ret in H4 as [E4 ->].
  destruct (create_rows _ _ E4) as [C1 C2]. simpl in C1, C2. rewrite Hu in C1, C2. rewrite T3 in *.
  set (s2 := (subs_create _ _).1) in *.
  assert (rows_but (fun t' u' => t' = t_name (w_topic w) /\ u' = target) (w_store w) s2) as R4.
  { eapply rows_but_trans; [|exact C1]. apply same_rows_but. intros. by rewrite R3, R1. }
  apply bind_ret_inv in Hr as (w5 & [] & H5 & Hr).
  assert (w_store w5 = s2 /\ (w_topic w5).(perUser) = (w_topic w).(perUser) /\ (w_topic w5).(owner) = (w_topic w).(owner))
    as (S5 & P5 & O5) by (by destruct (cat_eqb _ _); injection H5 as <-).
  injection Hr as <- <-. cbn [w_topic w_store].
  unfold one_member. cbn [w_topic w_store with_modes modeWant modeGiven]. rewrite union_owner, union_perUser. cbn.
  rewrite S5, P5, O5. split; [|auto]. split; [done|]. split; [|split; [|done]].
  - intros p'. rewrite lookup_insert_eq. by intros [= <-].
  - intros v p' Hv. rewrite lookup_insert_ne by done. intros Hq. by exists p'.
Qed.

(** What the change leaves for the target. *)
Definition grant_applied (t : Topic) (target : Uid) (given : AccessMode) (s s' : St) (u' : perUserData) : Prop :=
  match t.(perUser) !! target with
  | Some u =>
      if u.(deleted) then
        stores s' t.(t_name) target u'.(modeWant) u'.(modeGiven) /\ IsJoiner u'.(modeWant) = true /\
        (given <> ModeUnset -> u'.(modeGiven) = given)
      else
        u'.(modeWant) = u.(modeWant) /\ u'.(modeGiven) = (if given =? ModeUnset then u.(modeGiven) else given) /\
        (t.(owner) = target -> IsOwner u.(modeGiven) = true -> IsOwner u'.(modeGiven) = true) /\
        (stores s t.(t_name) target u.(modeWant) u.(modeGiven) -> stores s' t.(t_name) target u'.(modeWant) u'.(modeGiven))
  | None =>
      stores s' t.(t_name) target u'.(modeWant) u'.(modeGiven) /\ IsJoiner u'.(modeWant) = true /\
      (given <> ModeUnset -> u'.(modeGiven) = given)
  end.

(** C10: a change of somebody else's access that succeeds was permitted and touches only them: the actor may
    share the topic, sets a mode only as an administrator and only within what they have
    themselves unless they own it, and names an owner only as the owner; the target's given mode
    becomes the requested one, in the cache and in the stored row, their own wish stays, an
    invited user can join, the owner keeps the ownership, and everybody else is untouched. *)
Theorem grant_sound sess asUid target asChan pkt (w w' : World St) acs :
  anotherUserSub typesModeCP2P maxSubscriberCount sess asUid target asChan pkt w = (w', Ret acs) ->
  0 < target < 2 ^ 64 ->
  exists given u',
    granted w.(w_topic) pkt.(r_SetMode) = (given, None) /\ may_grant w.(w_topic) asUid asChan given /\
    one_member target u' w w' /\ grant_applied w.(w_topic) target given w.(w_store) w'.(w_store) u'.
Proof.
  intros Hr [Hu0 Hu]. assert (target <> 0) as Hne by lia. unfold anotherUserSub in Hr.
  apply bind_ret_inv in Hr as (w0 & t & [= <- <-] & Hr). set (t := w_topic w) in *.
  assert (forall re e w1 r, (reject sess re e : M (St := St) (option MsgAccessMode)) w1 = (w', Ret r) -> False) as Hrej by done.
  destruct (perUser t !! asUid) as [host|] eqn:Eh; [|by apply Hrej in Hr].
  assert (user t asUid = host) as Euh by (unfold user; by rewrite Eh). rewrite Euh in Hr. simpl in Hr.
  destruct (IsSharer _) eqn:Es; simpl in Hr; [|by apply Hrej in Hr].
  destruct asChan; [by apply Hrej in Hr|]. destruct (isReadOnly t) eqn:Ero; [by apply Hrej in Hr|].
  destruct (granted t (r_SetMode pkt)) as [given err] eqn:Eg. unfold granted in Eg.
  destruct (if String.eqb (r_SetMode pkt) "" then (ModeUnset, None) else UnmarshalText ModeUnset (r_SetMode pkt)) as [g0 er0].
  injection Eg as Eg ->. destruct err as [e|]; [by apply Hrej in Hr|]. rewrite Eg in Hr. clear Eg g0.
  destruct (negb (given =? ModeUnset) && negb (IsAdmin (modeGiven host &. modeWant host))) eqn:G1; [by apply Hrej in Hr|].
  destruct (IsOwner given && negb (owner t =? asUid)) eqn:G2; [by apply Hrej in Hr|].
  destruct (negb (given =? ModeUnset) && negb (owner t =? asUid) && negb (BetterEqual (modeGiven host &. modeWant host) (given &^ ModeOwner))) eqn:G3;
    [by apply Hrej in Hr|].
  assert (may_grant t asUid false given) as Hmay.
  { split; [done|]. split; [done|]. exists host. split; [done|]. split; [done|]. split.
    - intros Hgu. rewrite (proj2 (N.eqb_neq _ _) Hgu) in G1, G3. simpl in G1, G3.
      split; [by destruct (IsAdmin _)|]. destruct (N.eqb_spec (owner t) asUid); [by left|right]. by destruct (BetterEqual _ _).
    - intros Ho. rewrite Ho in G2. by destruct (N.eqb_spec (owner t) asUid). }
  exists given. unfold grant_applied. fold t. destruct (perUser t !! target) as [u|] eqn:Et; [destruct (deleted u)|].
  all: apply bind_ret_inv in Hr as (w1 & u' & H1 & H2); apply finish_other_run in H2 as [Sh Ss];
    exists u'; split; [done|]; split; [done|].
  2: { apply regrant_run in H1 as (O1 & E1 & E2 & E3 & E4); [|done..].
    split; [by eapply shrinks_one_member|]. split; [done|]. split; [done|]. unfold same_store in Ss. rewrite Ss. split.
    - intros Ho Hgo. destruct (E3 Ho) as [-> | [? _]]; done.
    - intros Hs. apply E4 in Hs. rewrite E1. by destruct (N.eqb_spec (modeGiven u') (modeGiven u)) as [<-|]. }
  all: apply invite_user_run in H1 as (O1 & E1 & E2 & E3 & E4); [|done]; unfold same_store in Ss; rewrite Ss;
    (split; [by eapply shrinks_one_member|]); auto.
Qed.
End Others.

Definition grant_run : World MemStore * Res (option MsgAccessMode) :=
  anotherUserSub ModeCP2P 100 sample_session 2 3 false (mkRequest LevelAuth "grpA" false "JRP" "") (sample_world []).

Lemma grant_sound_witness :
  stores (fst grant_run).(w_store) "grpA" 3 memberAccess ModeCChnReader /\
  (fst grant_run).(w_topic).(owner) = 1.
Proof.
  assert (exists acs, grant_run = (fst grant_run, Ret acs)) as [acs H] by (eexists; vm_compute; reflexivity).
  destruct (grant_sound (Laws := MemSubStoreLaws) ModeCP2P 100 sample_session 2 3 false
    (mkRequest LevelAuth "grpA" false "JRP" "") (sample_world []) _ acs H ltac:(split; reflexivity))
    as (given & u' & Hg & _ & [Ho _] & E1 & E2 & _ & Hs).
  assert (given = ModeCChnReader) as -> by (vm_compute in Hg; injection Hg as <-; reflexivity).
  split; [|exact Ho].
  assert (u'.(modeWant) = memberAccess) as F1 by exact E1. assert (u'.(modeGiven) = ModeCChnReader) as F2 by exact E2.
  rewrite F1, F2 in Hs. apply Hs. intros r. vm_compute. intros [= <-]. split; reflexivity.
Defined.

(** ** Session references *)

(** Sessions are kept under their own id and only multiplexers hold several users. *)
Definition sessions_wf (t : Topic) : Prop :=
  forall k s p, t.(t_sessions) !! k = Some (s, p) -> sid s = k /\ multi s = None.

(** What an eviction leaves of a session's entry. *)
Definition evicted_entry (uid : Uid) (e : Session * perSessionData) : option (Session * perSessionData) :=
  let '(s, p) := e in
  if (p.(ps_uid) =? uid) || IsZeroUid uid then None
  else match index_of uid p.(muids) with
       | None => Some (s, p)
       | Some i =>
           match swap_remove p.(muids) i with
           | [] => None
           | l => Some (s, mkPsd p.(ps_uid) p.(isChanSub) l)
           end
       end.

Lemma attached_plain s : multi s = None -> attached s = s.
Proof. unfold attached. by intros ->. Qed.

(** Removing the user from one session changes that entry only. *)
Lemma remSession_entry t uid k s p t' o b :
  t.(t_sessions) !! k = Some (s, p) -> sid s = k -> multi s = None ->
  remSession t s uid = (t', o, b) ->
  match o with Some _ => t' = set_sessions t t'.(t_sessions) | None => t' = t end /\
  forall k', t'.(t_sessions) !! k' = (if decide (k' = k) then evicted_entry uid (s, p) else t.(t_sessions) !! k').
Proof.
  intros Hk <- Hm. unfold remSession, evicted_entry. rewrite (attached_plain s Hm), Hk.
  destruct ((ps_uid p =? uid) || IsZeroUid uid).
  { intros [= <- <- <-]. split; [done|]. intros k'. simpl. destruct (decide (k' = sid s)) as [->|Hne];
      [by rewrite lookup_delete_eq|by rewrite lookup_delete_ne]. }
  destruct (index_of uid (muids p)) as [i|].
  - simpl. destruct (swap_remove (muids p) i) as [|x l]; intros [= <- <- <-]; (split; [done|]); intros k'; simpl;
      destruct (decide (k' = sid s)) as [->|Hne].
    + by rewrite lookup_delete_eq.
    + by rewrite lookup_delete_ne.
    + by rewrite lookup_insert_eq.
    + by rewrite lookup_insert_ne.
  - intros [= <- <- <-]. split; [done|]. intros k'. by destruct (decide (k' = sid s)) as [->|].
Qed.

Section Evictions.
Context {St : Type} `{Store : SubStore St}.

Lemma evict_sessions_entries uid skip r ss (w : World St) :
  NoDup (ss.*1) ->
  (forall k s p, In (k, (s, p)) ss -> w.(w_topic).(t_sessions) !! k = Some (s, p) /\ sid s = k /\ multi s = None) ->
  exists w', evict_sessions uid skip r ss w = (w', Ret tt) /\
  forall k, w'.(w_topic).(t_sessions) !! k =
    (if bool_decide (k ∈ ss.*1) then w.(w_topic).(t_sessions) !! k ≫= evicted_entry uid
     else w.(w_topic).(t_sessions) !! k).
Proof.
  revert w. induction ss as [|[k [s p]] ss IH]; intros w Hnd Hin.
  { exists w. split; [done|]. intros k. case_bool_decide as Hk; [|done]. by apply not_elem_of_nil in Hk. }
  simpl in Hnd. apply NoDup_cons in Hnd as [Hk Hnd]. destruct (Hin k s p (or_introl eq_refl)) as (E1 & E2 & E3).
  simpl. unfold bind at 1, get_topic. simpl. destruct (remSession (w_topic w) s uid) as [[t' o] b] eqn:Er.
  destruct (remSession_entry _ _ _ _ _ _ _ _ E1 E2 E3 Er) as [Ht He].
  assert (forall w1 : World St, w1.(w_topic) = t' ->
    exists w', evict_sessions uid skip r ss w1 = (w', Ret tt) /\
    forall j, w'.(w_topic).(t_sessions) !! j =
      (if bool_decide (j ∈ k :: ss.*1) then w.(w_topic).(t_sessions) !! j ≫= evicted_entry uid
       else w.(w_topic).(t_sessions) !! j)) as Hrest.
  { intros w1 Hw1. destruct (IH w1 Hnd) as (w' & Hrun & Hs).
    - intros j s' p' Hj. rewrite Hw1, He. rewrite decide_False; [apply Hin; by right|].
      intros ->. apply Hk, list_elem_of_In. exact (in_map fst _ _ Hj).
    - exists w'. split; [done|]. intros j. rewrite Hs, Hw1, He. destruct (decide (j = k)) as [->|Hne].
      + rewrite (bool_decide_eq_false_2 (k ∈ ss.*1)) by done. rewrite bool_decide_eq_true_2 by left. by rewrite E1.
      + assert (bool_decide (j ∈ k :: ss.*1) = bool_decide (j ∈ ss.*1)) as ->; [|done].
        apply bool_decide_ext. rewrite elem_of_cons. split; [by intros [?|?]|by right]. }
  destruct o as [pssd|]; [|subst t'; by apply Hrest].
  unfold bind, set_topic. simpl. destruct b, (String.eqb (sid s) skip); simpl; by apply Hrest.
Qed.
End Evictions.

Section EvictUser.
Context {St : Type} `{Store : SubStore St}.

(** The part of [evictUser] that changes the members does not touch the sessions. *)
Lemma evict_all_entries uid skip r t0 (w : World St) :
  sessions_wf t0 -> w.(w_topic).(t_sessions) = t0.(t_sessions) ->
  exists w', evict_sessions uid skip r (map_to_list t0.(t_sessions)) w = (w', Ret tt) /\
  forall k, w'.(w_topic).(t_sessions) !! k = t0.(t_sessions) !! k ≫= evicted_entry uid.
Proof.
  intros Hwf Hs. destruct (evict_sessions_entries uid skip r (map_to_list t0.(t_sessions)) w) as (w' & Hr & He).
  - apply NoDup_fst_map_to_list.
  - intros k s p Hin. apply list_elem_of_In, elem_of_map_to_list in Hin. rewrite Hs. split; [done|]. by apply Hwf in Hin.
  - exists w'. split; [done|]. intros k. rewrite He, Hs. case_bool_decide as Hk; [done|].
    destruct (t_sessions t0 !! k) as [x|] eqn:Ex; [|done]. exfalso. apply Hk.
    apply list_elem_of_fmap. exists (k, x). split; [done|]. by apply elem_of_map_to_list.
Qed.

(** evicting a user ends without an error, removes every session attached as that user,
    one reference of that user from each multiplexer that carries others or the user again, drops the
    multiplexers left empty, and keeps every other session as it was. *)
Theorem evict_removes_sessions uid unsub skip (w : World St) :
  sessions_wf w.(w_topic) -> original w.(w_topic) uid <> None ->
  exists w', evictUser uid unsub skip w = (w', Ret tt) /\
  forall k, w'.(w_topic).(t_sessions) !! k = w.(w_topic).(t_sessions) !! k ≫= evicted_entry uid.
Proof.
  intros Hwf Ho. unfold evictUser, bind at 1, get_topic. cbn [w_topic].
  destruct (original (w_topic w) uid) as [orig|] eqn:Eo; [|done].
  set (ss := map_to_list _). set (m := if unsub then _ else _).
  assert (exists w1, m w = (w1, Ret tt) /\ w1.(w_topic).(t_sessions) = w.(w_topic).(t_sessions)) as (w1 & Hm & Hs).
  { unfold m. destruct unsub; [destruct (cat_eqb _ _)|]; [eexists; split; [reflexivity|done]| |].
    - case_bool_decide; [|eexists; split; [reflexivity|done]].
      unfold bind, set_topic. destruct (pud_isChan _); (eexists; split; [reflexivity|]);
        cbn; unfold computePerUserAcsUnion; by destruct (t_isChan _).
    - case_bool_decide; [|eexists; split; [reflexivity|done]].
      destruct (pud_isChan _); (eexists; split; [reflexivity|done]). }
  unfold bind, lift_option. simpl. rewrite Hm. by apply evict_all_entries.
Qed.
End EvictUser.

(** A member with a session of their own, on a multiplexer twice, and somebody else's session. *)
Definition plain_session (i : string) (u : Uid) : Session := mkSession i u ProtoClient false None.
Definition evict_topic : Topic :=
  set_sessions sample_topic
    {[ "a" := (plain_session "a" 3, mkPsd 3 false []); "b" := (plain_session "b" 2, mkPsd 2 false []);
       "m" := (mkSession "m" 0 ProtoMultiplex false None, mkPsd 0 false [3; 2; 3]) ]}.

Lemma evict_removes_sessions_witness :
  exists w', evictUser 3 true "" (mkWorld evict_topic (sample_store []) []) = (w', Ret tt) /\
    w'.(w_topic).(t_sessions) !! "a" = None /\
    w'.(w_topic).(t_sessions) !! "m" = Some (mkSession "m" 0 ProtoMultiplex false None, mkPsd 0 false [3; 2]).
Proof.
  destruct (evict_removes_sessions 3 true "" (mkWorld evict_topic (sample_store []) [])) as (w' & Hr & He).
  - intros k s p. unfold evict_topic. cbn [w_topic set_sessions t_sessions].
    rewrite !lookup_insert_Some, lookup_singleton_Some.
    intros [[<- [= <- <-]]|[_ [[<- [= <- <-]]|[_ [<- [= <- <-]]]]]]; split; reflexivity.
  - vm_compute. discriminate.
  - exists w'. split; [exact Hr|]. split; rewrite He; reflexivity.
Defined.

(** ** Leaving *)

Section Leaving.
Context {St : Type} `{Laws : SubStoreLaws St}.

(** The members after [uid] was evicted for good. *)
Lemma evictUser_unsub_members uid skip (w w' : World St) :
  evictUser uid true skip w = (w', Ret tt) -> w.(w_topic).(t_cat) <> TopicCatP2P ->
  w'.(w_topic).(perUser) = delete uid w.(w_topic).(perUser) /\ w'.(w_topic).(owner) = w.(w_topic).(owner) /\
  w'.(w_topic).(t_cat) = w.(w_topic).(t_cat) /\ w'.(w_topic).(subCnt) = w.(w_topic).(subCnt).
Proof.
  set (R := fun w w' : World St =>
    w'.(w_topic).(perUser) = w.(w_topic).(perUser) /\ w'.(w_topic).(owner) = w.(w_topic).(owner) /\
    w'.(w_topic).(t_cat) = w.(w_topic).(t_cat) /\ w'.(w_topic).(subCnt) = w.(w_topic).(subCnt)).
  assert (PreOrder R) as HR by (split; [by intros ?|intros a b c (? & ? & ? & ?) (? & ? & ? & ?); repeat split; congruence]).
  assert (forall t s u, let t' := (remSession t s u).1.1 in
    t'.(perUser) = t.(perUser) /\ t'.(owner) = t.(owner) /\ t'.(t_cat) = t.(t_cat) /\ t'.(subCnt) = t.(subCnt)) as Hrem.
  { intros t s u. unfold remSession. destruct (t_sessions t !! _) as [[s0 p]|]; [|done].
    destruct (_ || _); [done|]. destruct (index_of _ _); [|done]. simpl. by destruct (swap_remove _ _). }
  assert (forall r ss, frame R (evict_sessions (St := St) uid skip r ss)) as Hss.
  { intros r ss. induction ss as [|[k [s p]] ss IH]; simpl; [apply frame_ret, _|]. intros w0. unfold bind at 1, get_topic.
    simpl. specialize (Hrem (w_topic w0) s uid). destruct (remSession _ _ _) as [[t' [o|]] b]; [|apply IH].
    unfold bind, set_topic. simpl in *. destruct b, (String.eqb _ _); simpl; (etransitivity; [|apply IH]); exact Hrem. }
  intros Hr Hc. unfold evictUser in Hr. apply bind_ret_inv in Hr as (w0 & t & [= <- <-] & Hr).
  apply bind_ret_inv in Hr as (w1 & o & H1 & Hr). destruct (original _ _); [|done]. injection H1 as <- <-.
  apply bind_ret_inv in Hr as (w2 & [] & H2 & Hr).
  assert (cat_eqb (t_cat (w_topic w)) TopicCatP2P = false) as Ec.
  { destruct (cat_eqb _ _) eqn:E; [|done]. by apply cat_eqb_spec in E. }
  rewrite Ec in H2.
  assert (w2.(w_topic).(perUser) = delete uid w.(w_topic).(perUser) /\ w2.(w_topic).(owner) = w.(w_topic).(owner) /\
    w2.(w_topic).(t_cat) = w.(w_topic).(t_cat) /\ w2.(w_topic).(subCnt) = w.(w_topic).(subCnt)) as (P2 & O2 & C2 & N2).
  { case_bool_decide as Hin.
    - unfold bind, set_topic in H2. destruct (pud_isChan _); injection H2 as <-; cbn;
        unfold computePerUserAcsUnion; by destruct (t_isChan _).
    - injection H2 as <-. split; [|done]. rewrite delete_id; [done|]. by apply eq_None_not_Some. }
  destruct (frame_run R _ _ _ _ (Hss _ _) Hr) as (P & O & C & N). repeat split; congruence.
Qed.

(** a member who leaves a group is gone everywhere: the owner cannot leave; on success either
    the store knew no subscription and nothing changed, or the member's row in the group or channel
    they belong to is dead, they are no longer among the members, the others' entries and rows are
    kept, and the count drops by one. *)
Theorem leave_removes_member sess init orig asUid (w w' : World St) :
  replyLeaveUnsub sess init orig asUid w = (w', Ret tt) ->
  w.(w_topic).(t_cat) = TopicCatGrp ->
  let t := w.(w_topic) in
  let key := if (user t asUid).(pud_isChan) then GrpToChn t.(t_name) else t.(t_name) in
  asUid <> 0 /\ t.(owner) <> asUid /\
  ((same_topic w w' /\ rows_but (fun _ _ => False) w.(w_store) w'.(w_store)) \/
   (live (row w'.(w_store) key asUid) = None /\
    rows_but (fun t' u' => t' = key /\ u' = asUid) w.(w_store) w'.(w_store) /\
    w'.(w_topic).(perUser) = delete asUid t.(perUser) /\ w'.(w_topic).(owner) = t.(owner) /\
    w'.(w_topic).(subCnt) = (t.(subCnt) - 1)%Z)).
Proof.
  intros Hr Hc t key. unfold replyLeaveUnsub in Hr. apply bind_ret_inv in Hr as (w0 & t0 & [= <- <-] & Hr). fold t in Hr.
  destruct (IsZeroUid asUid) eqn:Ez; [done|]. apply N.eqb_neq in Ez. split; [done|].
  destruct (N.eqb_spec (owner t) asUid) as [|Ho].
  { by apply bind_ret_inv in Hr as (w1 & ? & _ & ?). }
  split; [done|]. destruct (if init then verifyChannelAccess t orig else (false, None)) as [asChan [e|]];
    [by apply bind_ret_inv in Hr as (? & ? & ? & ?)|].
  cbv zeta in Hr. fold key in Hr. apply bind_ret_inv in Hr as (w1 & x & H1 & Hr). unfold call in H1.
  assert (w1 = mkWorld t (subs_delete key asUid (w_store w)).1 (w_out w) /\ x = (subs_delete key asUid (w_store w)).2) as [-> Ex].
  { fold key in H1. destruct (subs_delete key asUid (w_store w)). by injection H1 as <- <-. }
  clear H1. pose proof (law_delete key asUid (w_store w)) as Hl. rewrite <- Ex in Hl.
  set (s1 := (subs_delete key asUid (w_store w)).1) in *. destruct x as [e|].
  { left. assert (rows_but (fun _ _ => False) (w_store w) s1) as R1 by (intros t' u' _; apply Hl).
    destruct init; simpl in Hr; [|done]. case_bool_decide; [|by apply bind_ret_inv in Hr as (? & ? & ? & ?)].
    injection Hr as <-. split; [done|exact R1]. }
  right. apply bind_ret_inv in Hr as (w2 & [] & H2 & Hr). apply bind_ret_inv in Hr as (w3 & [] & H3 & Hr).
  apply bind_ret_inv in Hr as (w4 & [] & H4 & Hr). apply bind_ret_inv in Hr as (w5 & [] & H5 & Hr).
  set (w1 := mkWorld t s1 (w_out w)) in *.
  assert (same_topic w1 w5 /\ same_store w1 w5) as [T5 S5].
  { assert (same_topic w1 w2 /\ same_store w1 w2) as [? ?].
    { split; revert H2; apply frame_run, when_frame; try apply _; handler. }
    assert (same_topic w2 w3 /\ same_store w2 w3) as [? ?].
    { split; revert H3; apply frame_run; destruct (negb asChan); try (apply when_frame; [apply _|]); handler. }
    assert (same_topic w3 w4 /\ same_store w3 w4) as [? ?].
    { split; revert H4; apply frame_run, when_frame; try apply _; handler. }
    assert (same_topic w4 w5 /\ same_store w4 w5) as [? ?].
    { split; revert H5; apply frame_run; handler. }
    split; (transitivity w2; [done|]; transitivity w3; [done|]; by transitivity w4). }
  apply bind_ret_inv in Hr as (w6 & [] & H6 & Hr).
  pose proof (frame_run same_store _ _ _ _ (evictUser_same_store _ _ _) H6) as S6.
  unfold same_topic, same_store in *. simpl in T5, S5.
  apply evictUser_unsub_members in H6 as (P6 & O6 & C6 & N6); [|rewrite T5; unfold t; by rewrite Hc].
  apply bind_ret_inv in Hr as (w7 & [] & [= <-] & Hr). rewrite T5 in *. fold t in Hc.
  apply bind_ret_inv in Hr as (w8 & [] & H8 & Hr).
  assert (cat_eqb (t_cat t) TopicCatGrp = true) as Eg by (by apply cat_eqb_spec).
  rewrite Eg in H8. injection H8 as <-. apply bind_ret_inv in Hr as (w9 & t9 & [= <- <-] & Hr). cbn in Hr.
  rewrite C6, Hc in Hr. injection Hr as <-. cbn.
  rewrite S6, S5. simpl. rewrite P6, O6, N6. repeat split.
  - rewrite Hl. by rewrite bool_decide_eq_true_2.
  - intros t' u' Hn. rewrite Hl. by rewrite bool_decide_eq_false_2.
Qed.
End Leaving.

Definition leave_run : World MemStore * Res unit :=
  replyLeaveUnsub (plain_session "s3" 3) true "grpA" 3 (sample_world []).

Lemma leave_removes_member_witness :
  leave_run = (fst leave_run, Ret tt) /\ 1 <> 3.
Proof.
  assert (leave_run = (fst leave_run, Ret tt)) as H by (vm_compute; reflexivity).
  split; [exact H|].
  exact (proj1 (proj2 (leave_removes_member (Laws := MemSubStoreLaws) (plain_session "s3" 3) true "grpA" 3 (sample_world []) _ H eq_refl))).
Defined.

(** A channel with a reader [3] on one session. *)
Definition reading_topic : Topic :=
  set_sessions (put_user channel_topic 3 (with_online (with_isChan (with_modes pud0 ModeCChnReader ModeCChnReader) true) 1))
    {[ "s3" := (plain_session "s3" 3, mkPsd 3 true []) ]}.
Definition disconnect_run : World MemStore * Res unit :=
  handleLeaveRequest (fun _ => 0%Z) (fun _ => "") (plain_session "s3" 3) false false "" 0
    (mkWorld reading_topic channel_store []).

(** A channel reader whose connection drops stays in the member cache, counted as online: the leave request of a
    disconnect does not say whether the session reads the channel and is taken for a mismatch. *)
Lemma channel_disconnect_leaks_online :
  snd disconnect_run = Ret tt /\ (fst disconnect_run).(w_topic).(t_sessions) = ∅ /\
  exists p, (fst disconnect_run).(w_topic).(perUser) !! 3 = Some p /\ p.(online) = 1%Z.
Proof. split; [vm_compute; reflexivity|]. split; [vm_compute; reflexivity|]. eexists. split; vm_compute; reflexivity. Qed.
