(* ===== verification/TopicInvites.v ===== *)
(** * TopicInvites: signed group invitations with limited uses

    internal/server/topic_invites.go: tokens signed with HMAC-SHA256, their state in
    the persistent cache, and the optimistic loops that consume and revoke them.  The MAC
    and the JSON text of the payload and of the state are parameters; base64 is that
    of Uid.  Times are nanoseconds since 1970. *)

From Stdlib Require Import ZArith Lia List Ascii String Bool.
From stdpp Require Import base tactics numbers list strings gmap.
From S2P Require Import Prelude Uid PCache.

#[local] Open Scope string_scope.
#[local] Open Scope Z_scope.

(** ** Tokens *)

Record topicInvitePayload := mkPayload { p_Version : Z; p_Topic : string; p_Expires : Z; p_ID : string }.

Record topicInviteState := mkState {
  i_ID : string; i_Topic : string; ExpiresAt : Z; MaxUses : Z; Uses : Z; Active : bool;
  i_CreatedAt : Z; i_CreatedBy : string }.

Definition topicInviteTokenVersion : Z := 1.
Definition second : Z := 1000000000.
Definition defaultTopicInviteTTL : Z := 30 * 24 * 3600 * second.
Definition maxTopicInviteTTL : Z := 365 * 24 * 3600 * second.
Definition topicInviteStatePrefix : string := "official-topic:invite:".

(** [time.Time.Unix] *)
Definition Unix (t : Z) : Z := t / second.

(** [topicInviteExpiry]; [None] is a nil request. *)
Definition topicInviteExpiry (expiresIn : option Z) (now : Z) : Z :=
  now + match expiresIn with
        | Some n => if 0 <? n then if n <? maxTopicInviteTTL / second then n * second else maxTopicInviteTTL
                    else defaultTopicInviteTTL
        | None => defaultTopicInviteTTL
        end.

(** [strings.Split] at dots. *)
Fixpoint split_dots (s : string) : list string :=
  match s with
  | "" => [""]
  | String c s' =>
      if Ascii.eqb c "." then "" :: split_dots s'
      else match split_dots s' with x :: l => String c x :: l | [] => [String c ""] end
  end.

Definition topicInviteStateKey (topicName inviteID : string) : string :=
  topicInviteStatePrefix ++ topicName ++ ":" ++ inviteID.

Section Tokens.
(** The signing key if one is configured, HMAC-SHA256 under it, and the JSON codec of the payload. *)
Context (signing_configured : bool) (mac : string -> string).
Context (payload_text : topicInvitePayload -> string) (payload_parse : string -> option topicInvitePayload).

Definition signTopicInvite (topicName : string) (expiresAt : Z) (inviteID : string) : string + GoError :=
  if negb signing_configured then inr (TextErr "topic invite signing is not configured")
  else
    let encodedPayload := b64_encode (payload_text (mkPayload topicInviteTokenVersion topicName (Unix expiresAt) inviteID)) in
    inl (encodedPayload ++ "." ++ b64_encode (mac encodedPayload)).

Definition parseTopicInvite (token topicName : string) (now : Z) : topicInvitePayload * bool :=
  let none := (mkPayload 0 "" 0 "", false) in
  match split_dots token with
  | [part0; part1] =>
      if String.eqb part0 "" || String.eqb part1 "" then none
      else if negb signing_configured then none
      else
        let '(signature, err) := b64_decode part1 in
        if err then none
        else if negb (String.eqb signature (mac part0)) then none
        else
          let '(payloadBytes, err) := b64_decode part0 in
          if err : bool then none
          else match payload_parse payloadBytes with
               | None => none
               | Some p => (p, (p.(p_Version) =? topicInviteTokenVersion) && String.eqb p.(p_Topic) topicName &&
                               (Unix now <? p.(p_Expires)))
               end
  | _ => none
  end.

(** ** The state of an invitation *)

Context {V : Type} `{EqDecision V} (state_text : topicInviteState -> option V) (state_parse : V -> option topicInviteState).

Definition loadTopicInviteState {A} (topicName inviteID : string)
    (k : (topicInviteState * V) + GoError -> Prog V A) : Prog V A :=
  Get (topicInviteStateKey topicName inviteID) (fun r =>
    match r with
    | inr e => k (inr e)
    | inl raw => match state_parse raw with
                 | None => k (inr (TextErr "json: cannot unmarshal"))
                 | Some s => k (inl (s, raw))
                 end
    end).

Definition validateTopicInvite (token topicName : string) (now : Z) : Prog V bool :=
  let '(payload, ok) := parseTopicInvite token topicName now in
  if negb ok then Done false
  else if String.eqb payload.(p_ID) "" then Done true
  else loadTopicInviteState topicName payload.(p_ID) (fun r =>
    match r with
    | inr _ => Done false
    | inl (s, _) => Done (s.(Active) && (now <? s.(ExpiresAt)) && ((s.(MaxUses) =? 0) || (s.(Uses) <? s.(MaxUses))))
    end).

Definition with_Uses (s : topicInviteState) (n : Z) : topicInviteState :=
  mkState s.(i_ID) s.(i_Topic) s.(ExpiresAt) s.(MaxUses) n s.(Active) s.(i_CreatedAt) s.(i_CreatedBy).
Definition with_Active (s : topicInviteState) (b : bool) : topicInviteState :=
  mkState s.(i_ID) s.(i_Topic) s.(ExpiresAt) s.(MaxUses) s.(Uses) b s.(i_CreatedAt) s.(i_CreatedBy).

(** The loop of [consumeTopicInvite]. *)
Fixpoint consume_attempts (attempts : nat) (topicName inviteID : string) (now : Z) : Prog V bool :=
  match attempts with
  | O => Done false
  | S attempts' =>
      loadTopicInviteState topicName inviteID (fun r =>
        match r with
        | inr _ => Done false
        | inl (s, oldRaw) =>
            if negb s.(Active) || negb (now <? s.(ExpiresAt)) || ((0 <? s.(MaxUses)) && (s.(MaxUses) <=? s.(Uses)))
            then Done false
            else if s.(MaxUses) =? 0 then Done true
            else match state_text (with_Uses s (s.(Uses) + 1)) with
                 | None => Done false
                 | Some newRaw =>
                     CompareAndSwap (topicInviteStateKey topicName inviteID) oldRaw newRaw (fun r =>
                       match r with
                       | inr _ => Done false
                       | inl true => Done true
                       | inl false => consume_attempts attempts' topicName inviteID now
                       end)
                 end
        end)
  end.

Definition consumeTopicInvite (token topicName : string) (now : Z) : Prog V bool :=
  let '(payload, ok) := parseTopicInvite token topicName now in
  if negb ok || String.eqb payload.(p_ID) "" then Done ok
  else consume_attempts 8 topicName payload.(p_ID) now.

(** The loop of [revokeTopicInvite]. *)
Fixpoint revoke_attempts (attempts : nat) (topicName inviteID : string) : Prog V (option GoError) :=
  match attempts with
  | O => Done (Some (TextErr "invite revocation conflicted"))
  | S attempts' =>
      loadTopicInviteState topicName inviteID (fun r =>
        match r with
        | inr e => Done (Some e)
        | inl (s, oldRaw) =>
            if negb s.(Active) then Done None
            else match state_text (with_Active s false) with
                 | None => Done (Some (TextErr "json: cannot marshal"))
                 | Some newRaw =>
                     CompareAndSwap (topicInviteStateKey topicName inviteID) oldRaw newRaw (fun r =>
                       match r with
                       | inr e => Done (Some e)
                       | inl true => Done None
                       | inl false => revoke_attempts attempts' topicName inviteID
                       end)
                 end
        end)
  end.

Definition revokeTopicInvite (topicName inviteID : string) : Prog V (option GoError) :=
  revoke_attempts 8 topicName inviteID.

(** [issueManagedTopicInvite]; [random] is the hexadecimal random identifier, or why it could not be drawn. *)
Definition issueManagedTopicInvite (topicName createdBy : string) (expiresAt maxUses now : Z) (random : string + GoError)
    : Prog V ((string * topicInviteState) + GoError) :=
  if (maxUses <? 0) || (100000 <? maxUses) || negb (now <? expiresAt) then Done (inr (StoreErr ErrMalformed))
  else match random with
  | inr e => Done (inr e)
  | inl inviteID =>
    let state := mkState inviteID topicName expiresAt maxUses 0 true now createdBy in
    match state_text state with
    | None => Done (inr (TextErr "json: cannot marshal"))
    | Some raw =>
        Upsert (topicInviteStateKey topicName inviteID) raw true (fun err =>
          match err with
          | Some e => Done (inr e)
          | None =>
              match signTopicInvite topicName expiresAt inviteID with
              | inr e => Delete (topicInviteStateKey topicName inviteID) (fun _ => Done (inr e))
              | inl token => Done (inl (token, state))
              end
          end)
    end
  end.

End Tokens.

(** ** Tokens round-trip and are authenticated *)

Fixpoint no_dot (s : string) : bool :=
  match s with "" => true | String c s' => negb (Ascii.eqb c ".") && no_dot s' end.

Lemma split_no_dot a : no_dot a = true -> split_dots a = [a].
Proof.
  induction a as [|c a IH]; [done|]. simpl. intros [->%negb_true_iff Ha]%andb_true_iff. by rewrite IH.
Qed.

Lemma split_append a t : no_dot a = true -> split_dots (a ++ String "." t) = a :: split_dots t.
Proof.
  induction a as [|c a IH]; [done|]. simpl. intros [->%negb_true_iff Ha]%andb_true_iff. by rewrite IH.
Qed.

Lemma b64_char_not_dot v : (v < 64)%N -> Ascii.eqb (b64_char v) "." = false.
Proof. intros H. apply negb_true_iff. revert v H. apply (all_below_spec 64). reflexivity. Qed.

Lemma no_dot_char v s : (v < 64)%N -> no_dot (String (b64_char v) s) = no_dot s.
Proof. intros Hv. simpl. by rewrite b64_char_not_dot. Qed.

Lemma no_dot_encode s : no_dot (b64_encode s) = true.
Proof.
  induction s as [|a|a b|a b c s IH] using string_ind3; [done| | |].
  - pose proof (N_of_ascii_lt a). cbn [b64_encode].
    destruct (sextets (N_of_ascii a * 65536)%N) as (H1 & H2 & _ & _ & _); [lia|]. by rewrite !no_dot_char.
  - pose proof (N_of_ascii_lt a). pose proof (N_of_ascii_lt b). cbn [b64_encode].
    destruct (sextets (N_of_ascii a * 65536 + N_of_ascii b * 256)%N) as (H1 & H2 & H3 & _ & _); [lia|].
    by rewrite !no_dot_char.
  - cbn [b64_encode]. fold (quantum a b c). destruct (quantum_bytes a b c) as (Hq & _).
    destruct (sextets (quantum a b c) Hq) as (H1 & H2 & H3 & H4 & _). by rewrite !no_dot_char, IH.
Qed.

Lemma b64_encode_nonempty s : s <> "" -> String.eqb (b64_encode s) "" = false.
Proof.
  intros Hs. destruct (b64_encode s) eqn:E; [|done]. exfalso. apply Hs.
  pose proof (b64_decode_encode s) as H. rewrite E in H. by injection H.
Qed.

Section TokenLaws.
Context (configured : bool) (mac : string -> string).
Context (payload_text : topicInvitePayload -> string) (payload_parse : string -> option topicInvitePayload).
(** JSON reads back what it wrote and no document is empty; a MAC is not empty. *)
Context (payload_law : forall p, payload_parse (payload_text p) = Some p).
Context (payload_empty : payload_parse "" = None) (mac_length : forall s, mac s <> "").

(** invitation tokens round-trip and are authenticated: a signed token is read back as its payload and is
    good for its own topic until the second it expires, and for nothing else; and any token that is accepted is
    two parts of which the second decodes to the MAC of the first. *)
Theorem invite_token_roundtrip topic exp id token other now :
  (signTopicInvite configured mac payload_text topic exp id = inl token ->
   parseTopicInvite configured mac payload_parse token other now =
     (mkPayload topicInviteTokenVersion topic (Unix exp) id, String.eqb topic other && (Unix now <? Unix exp))) /\
  (forall p, parseTopicInvite configured mac payload_parse token other now = (p, true) ->
   configured = true /\ p.(p_Topic) = other /\ Unix now < p.(p_Expires) /\
   exists text signature, split_dots token = [text; signature] /\ b64_decode signature = (mac text, false)).
Proof.
  split.
  - unfold signTopicInvite. destruct configured; [|done]. simpl. set (p := mkPayload _ _ _ _). intros [= <-].
    unfold parseTopicInvite. rewrite split_append, (split_no_dot (b64_encode (mac _))) by apply no_dot_encode.
    rewrite !b64_encode_nonempty by (first [apply mac_length|intros E; pose proof (payload_law p) as L;
      by rewrite E, payload_empty in L]).
    simpl. rewrite b64_decode_encode, String.eqb_refl. simpl. by rewrite b64_decode_encode, payload_law.
  - intros p. unfold parseTopicInvite. destruct (split_dots token) as [|t0 [|t1 [|]]]; try done.
    destruct (_ || _); [done|]. destruct configured; [|done]. simpl. destruct (b64_decode t1) as [sg [|]] eqn:Es; [done|].
    destruct (String.eqb_spec sg (mac t0)) as [->|]; [|done]. simpl. destruct (b64_decode t0) as [b [|]]; [done|].
    destruct (payload_parse b) as [q|]; [|done]. intros [= -> Hok]. apply andb_true_iff in Hok as [[_ Ht]%andb_true_iff He].
    apply String.eqb_eq in Ht. apply Z.ltb_lt in He. split; [done|]. split; [done|]. split; [done|]. by exists t0, t1.
Qed.
End TokenLaws.

(** ** A concrete codec and a toy MAC for the witnesses *)

#[global] Instance payload_eq_dec : EqDecision topicInvitePayload.
Proof. solve_decision. Defined.
#[global] Instance payload_countable : Countable topicInvitePayload.
Proof.
  refine (inj_countable' (fun p => (p.(p_Version), p.(p_Topic), p.(p_Expires), p.(p_ID)))
    (fun x => mkPayload x.1.1.1 x.1.1.2 x.1.2 x.2) _). by intros [].
Defined.
#[global] Instance state_eq_dec : EqDecision topicInviteState.
Proof. solve_decision. Defined.
#[global] Instance state_countable : Countable topicInviteState.
Proof.
  refine (inj_countable' (fun s => (s.(i_ID), s.(i_Topic), s.(ExpiresAt), s.(MaxUses), s.(Uses), s.(Active), s.(i_CreatedAt), s.(i_CreatedBy)))
    (fun x => let '(a, b, c, d, e, f, g, h) := x in mkState a b c d e f g h) _). by intros [].
Defined.

Definition toy_mac (s : string) : string := "mac" ++ s.

Lemma invite_token_roundtrip_witness :
  exists token, signTopicInvite true toy_mac plain_text "grpA" (5 * second) "i1" = inl token /\
    parseTopicInvite true toy_mac plain_parse token "grpA" (4 * second) =
      (mkPayload 1 "grpA" 5 "i1", true) /\
    (parseTopicInvite true toy_mac plain_parse token "grpB" (4 * second)).2 = false.
Proof.
  assert (forall p : topicInvitePayload, plain_parse (plain_text p) = Some p) as L by (intros; apply plain_law).
  assert (forall s, toy_mac s <> "") as Hm by discriminate.
  eexists. split; [reflexivity|].
  split; [exact (proj1 (invite_token_roundtrip true toy_mac plain_text plain_parse L eq_refl Hm "grpA" (5 * second) "i1" _ "grpA" (4 * second)) eq_refl)|].
  rewrite (proj1 (invite_token_roundtrip true toy_mac plain_text plain_parse L eq_refl Hm "grpA" (5 * second) "i1" _ "grpB" (4 * second)) eq_refl).
  reflexivity.
Defined.

(** ** Concurrent use *)

Section Concurrent.
Context {V : Type} `{EqDecision V} (state_text : topicInviteState -> option V) (state_parse : V -> option topicInviteState).
Context (state_law : forall s v, state_text s = Some v -> state_parse v = Some s).
Context (configured : bool) (mac : string -> string) (payload_parse : string -> option topicInvitePayload).
Context (topicName inviteID : string).

Definition invite_key : string := topicInviteStateKey topicName inviteID.

Definition Outcome : Type := bool + option GoError.

(** The clients of one invitation: users who consume it with a token that names it, and administrators who revoke it. *)
Definition invite_client (p : Prog V Outcome) : Prop :=
  (exists token now payload, inviteID <> "" /\
     parseTopicInvite configured mac payload_parse token topicName now = (payload, true) /\ payload.(p_ID) = inviteID /\
     p = pmap inl (consumeTopicInvite configured mac payload_parse state_text state_parse token topicName now)) \/
  p = pmap inr (revokeTopicInvite state_text state_parse topicName inviteID).

(** Uses only count up, one by one and below the limit, while the invitation is active; a revocation only deactivates it. *)
Definition invite_step (n : Z) (_ : nat) (_ : Z) (_ : list V) (old new : V) : Prop :=
  exists so sn, state_parse old = Some so /\ state_parse new = Some sn /\ sn.(MaxUses) = so.(MaxUses) /\
    so.(Active) = true /\
    ((sn.(Active) = true /\ so.(Uses) < n /\ sn.(Uses) = so.(Uses) + 1) \/
     (sn.(Active) = false /\ sn.(Uses) = so.(Uses))).
Definition invite_valid (n : Z) (v : V) : Prop :=
  exists s, state_parse v = Some s /\ s.(MaxUses) = n /\ s.(Uses) <= n.
Definition active_write (v : V) : bool :=
  match state_parse v with Some s => s.(Active) | None => false end.
Definition invite_backed (o : Outcome) (own : list V) : Prop :=
  match o with inl true => exists v, In v own /\ active_write v = true | _ => True end.

Lemma consume_wb n attempts now i lb own : 0 < n ->
  wb invite_key (fun _ _ _ => False) (invite_step n) (invite_valid n) (fun b => invite_backed (inl b)) i lb own
    (consume_attempts state_text state_parse attempts topicName inviteID now).
Proof.
  intros Hn. revert lb own. induction attempts as [|a IH]; intros lb own; [done|].
  simpl. intros [raw|e] Hr; [|done]. destruct (Hr eq_refl raw eq_refl) as (s & Es & Hm & Hu).
  rewrite Es.
  destruct (negb (Active s) || negb (now <? ExpiresAt s) || ((0 <? MaxUses s) && (MaxUses s <=? Uses s))) eqn:Ec; [done|].
  apply orb_false_iff in Ec as [[Ea _]%orb_false_iff El]. apply negb_false_iff in Ea.
  destruct (Z.eqb_spec (MaxUses s) 0); [lia|]. destruct (state_text _) as [new|] eqn:Et; [|done].
  apply state_law in Et. simpl. fold invite_key. rewrite String.eqb_refl.
  assert (Uses s < n) by (rewrite Hm in El; destruct (Z.ltb_spec 0 n), (Z.leb_spec n (Uses s)); try done; lia).
  split; [|split; [|split; [apply IH|done]]].
  - exists s, (with_Uses s (Uses s + 1)). split; [done|]. split; [done|]. split; [done|]. split; [done|]. left. by simpl.
  - exists new. split; [by left|]. unfold active_write. by rewrite Et.
Qed.

Lemma revoke_wb n attempts i lb own :
  wb invite_key (fun _ _ _ => False) (invite_step n) (invite_valid n) (fun e => invite_backed (inr e)) i lb own
    (revoke_attempts state_text state_parse attempts topicName inviteID).
Proof.
  revert lb own. induction attempts as [|a IH]; intros lb own; [done|].
  simpl. intros [raw|e] Hr; [|done]. destruct (Hr eq_refl raw eq_refl) as (s & Es & Hm & Hu).
  rewrite Es.
  destruct (Active s) eqn:Ea; [|done]. simpl. destruct (state_text _) as [new|] eqn:Et; [|done].
  apply state_law in Et. simpl. fold invite_key. rewrite String.eqb_refl.
  split; [|split; [done|split; [apply IH|done]]].
  exists s, (with_Active s false). split; [done|]. split; [done|]. split; [done|]. split; [done|]. right. by simpl.
Qed.

Lemma client_wb n p i lb : 0 < n -> invite_client p ->
  wb invite_key (fun _ _ _ => False) (invite_step n) (invite_valid n) invite_backed i lb [] p.
Proof.
  intros Hn [(token & now & payload & Hid & Hp & Ei & ->)| ->]; apply wb_pmap; [|by apply revoke_wb].
  unfold consumeTopicInvite. rewrite Hp, Ei. cbn [negb orb].
  destruct (String.eqb_spec inviteID ""); [done|]. by apply consume_wb.
Qed.

(** The use count of a history: the start's plus one for each write that left the invitation active. *)
Lemma history_uses n s0 v0 h v s :
  state_parse v0 = Some s0 -> chain (fun _ _ _ => False) (invite_step n) (Some v0) h ->
  current (Some v0) h = Some v -> state_parse v = Some s ->
  s.(MaxUses) = s0.(MaxUses) /\
  s.(Uses) = s0.(Uses) + Z.of_nat (List.length (List.filter (fun e => active_write (entry_value e)) h)).
Proof.
  intros H0. revert v s. induction h as [|[[i x] t] h IH]; intros v s Hc Hv Hs.
  { injection Hv as <-. rewrite H0 in Hs. injection Hs as <-. simpl. lia. }
  destruct Hc as (Hc & _ & Hp). injection Hv as <-. unfold entry_value in *. simpl in *.
  destruct (current (Some v0) h) as [old|] eqn:Ho; [|done].
  destruct Hp as (own & _ & so & sn & P1 & P2 & P3 & P4 & P5).
  rewrite P2 in Hs. injection Hs as ->. destruct (IH _ _ Hc eq_refl P1) as [M1 M2]. unfold active_write at 1. rewrite P2.
  destruct P5 as [(A & _ & U)|(A & U)]; rewrite A, U, P3, M1; (split; [done|]); simpl; lia.
Qed.

Lemma invite_step_valid n i t own v v' : invite_step n i t own v v' -> invite_valid n v -> invite_valid n v'.
Proof.
  intros (so & sn & P1 & P2 & P3 & _ & P5) (s & E & M & U). rewrite P1 in E. injection E as ->.
  exists sn. split; [done|]. destruct P5 as [(_ & ? & ?)|[_ ?]]; lia.
Qed.

(** Distinct clients who were let in have distinct entries. *)
Lemma winners_bounded (h : list (nat * V * Z)) (l : list nat) :
  NoDup l -> (forall i, In i l -> exists v t, In (i, v, t) h /\ active_write v = true) ->
  (List.length l <= List.length (List.filter (fun e => active_write (entry_value e)) h))%nat.
Proof.
  intros Hnd Hl. rewrite <- (length_map (fun e : nat * V * Z => e.1.1)). apply NoDup_incl_length; [by apply NoDup_ListNoDup|].
  intros i Hi. destruct (Hl i Hi) as (v & t & Hin & Ha). apply in_map_iff. exists (i, v, t). split; [done|].
  apply filter_In. by split.
Qed.

(** C34: an invitation is never oversubscribed: however many users consume it at once while administrators
    revoke it, in every order of their cache calls and with calls lost before or after they took effect, the users let in
    are at most the uses that were left, and the recorded uses cover them and stay within the limit. *)
Theorem invite_never_oversubscribed (s0 s : System Outcome) v0 st0 (l : list nat) :
  (forall i p, s0.(clients) !! i = Some p -> invite_client p) ->
  s0.(cache) !! invite_key = Some v0 -> state_parse v0 = Some st0 ->
  0 < st0.(MaxUses) -> st0.(Uses) <= st0.(MaxUses) -> steps sys_step s0 s ->
  NoDup l -> (forall i, In i l -> s.(clients) !! i = Some (Done (inl true))) ->
  Z.of_nat (List.length l) <= st0.(MaxUses) - st0.(Uses) /\
  exists v st, s.(cache) !! invite_key = Some v /\ state_parse v = Some st /\ st.(MaxUses) = st0.(MaxUses) /\
    st0.(Uses) + Z.of_nat (List.length l) <= st.(Uses) <= st0.(MaxUses).
Proof.
  intros Hcl Hk H0 Hm Hu Hsteps Hnd Hl. set (n := MaxUses st0).
  assert (forall v, cache s0 !! invite_key = Some v -> invite_valid n v) as Hvalid.
  { intros v Hv. rewrite Hk in Hv. injection Hv as <-. by exists st0. }
  destruct (reachable_history invite_key (fun _ _ _ => False) (invite_step n) (invite_valid n) invite_backed
    ltac:(done) ltac:(done) ltac:(done) (invite_step_valid n) s0 s Hvalid) as [h Hacc].
  { intros i p Hp. apply client_wb; [done|by eapply Hcl]. }
  { done. }
  rewrite Hk in Hacc. pose proof Hacc as (Hcur & Hchain & _ & _).
  assert (exists v, current (Some v0) h = Some v) as [v Hv] by (destruct h; simpl; eauto).
  assert (invite_valid n v) as (st & Hs & M & U).
  { refine (chain_valid _ _ _ _ (invite_step_valid n) (Some v0) h v _ Hchain Hv); [done|].
    intros x [= <-]. by exists st0. }
  destruct (history_uses n st0 v0 h v st H0 Hchain Hv Hs) as [_ Huses].
  assert (List.length l <= List.length (List.filter (fun e => active_write (entry_value e)) h))%nat as Hlen.
  { apply winners_bounded; [done|]. intros i Hi.
    destruct (claim_backed _ _ _ _ _ _ _ _ _ _ Hacc (Hl i Hi)) as (own & (x & Hx & Ha) & Hown).
    apply Hown in Hx as [t Ht]. by exists x, t. }
  split; [unfold n in *; lia|]. exists v, st. rewrite Hcur. unfold n in *. repeat split; try done; lia.
Qed.

(** a revocation is final: once an invitation is inactive, no interleaving of clients lets anybody in with it or
    changes its record. *)
Theorem revoked_invite_stays_revoked (s0 s : System Outcome) v0 st0 :
  (forall i p, s0.(clients) !! i = Some p -> invite_client p) ->
  s0.(cache) !! invite_key = Some v0 -> state_parse v0 = Some st0 -> st0.(Active) = false ->
  steps sys_step s0 s ->
  s.(cache) !! invite_key = Some v0 /\ forall i, s.(clients) !! i <> Some (Done (inl true)).
Proof.
  intros Hcl Hk H0 Ha Hsteps. set (dead := fun v => v = v0).
  destruct (reachable_history invite_key (fun _ _ _ => False) (fun _ _ _ _ _ => False) dead
    (fun (o : Outcome) _ => o <> inl true) ltac:(done) ltac:(done) ltac:(done) ltac:(done) s0 s) as [h Hacc].
  { intros v Hv. rewrite Hk in Hv. by injection Hv as <-. }
  { intros i p Hp. destruct (Hcl i p Hp) as [(token & now & payload & Hid & Hpt & Ei & ->)| ->]; apply wb_pmap.
    - unfold consumeTopicInvite. rewrite Hpt, Ei. cbn [negb orb]. destruct (String.eqb_spec inviteID ""); [done|].
      cbn. intros [raw|e] Hr; [|done]. rewrite (Hr eq_refl raw eq_refl), H0, Ha. done.
    - cbn. intros [raw|e] Hr; [|done]. rewrite (Hr eq_refl raw eq_refl), H0, Ha. done. }
  { done. }
  rewrite Hk in Hacc. pose proof Hacc as (Hcur & Hchain & _). destruct h as [|e h].
  - split; [done|]. intros i Hi. destruct (claim_backed _ _ _ _ _ _ _ _ _ _ Hacc Hi) as (own & Hb & _). by apply Hb.
  - exfalso. destruct e as [[j x] t]. destruct Hchain as (_ & _ & Hp).
    destruct (current _ h); [|done]. by destruct Hp as (own & _ & ?).
Qed.
End Concurrent.

(** Three users race for the last use of an invitation. *)
Definition sample_state (uses : Z) (active : bool) : topicInviteState :=
  mkState "i1" "grpA" (9 * second) 2 uses active 0 "usrA".
Definition sample_token : string :=
  b64_encode (plain_text (mkPayload 1 "grpA" 9 "i1")) ++ "." ++
  b64_encode (toy_mac (b64_encode (plain_text (mkPayload 1 "grpA" 9 "i1")))).
Definition json_text (s : topicInviteState) : option string := Some (plain_text s).
Definition sample_consumer : Prog string Outcome :=
  pmap inl (consumeTopicInvite true toy_mac plain_parse json_text plain_parse sample_token "grpA" second).
Definition race (uses : Z) (active : bool) : System Outcome :=
  mkSystem 0 {[ invite_key "grpA" "i1" := plain_text (sample_state uses active) ]}
    [sample_consumer; sample_consumer; sample_consumer].
(** All three read, then write in turn; the losers read again. *)
Definition race_schedule : list (nat * Fault) :=
  [(0, Fine); (1, Fine); (2, Fine); (1, Fine); (0, Fine); (2, LostReply "timeout"); (0, Fine)]%nat.
Definition race_end (uses : Z) (active : bool) : System Outcome := run_schedule race_schedule (race uses active).

Lemma sample_consumer_ok i p uses active :
  (race uses active).(clients) !! i = Some p ->
  invite_client json_text plain_parse true toy_mac plain_parse "grpA" "i1" p.
Proof.
  intros Hp. assert (p = sample_consumer) as ->.
  { apply list_elem_of_lookup_2 in Hp. cbn [race clients] in Hp.
    repeat (apply elem_of_cons in Hp as [Hp|Hp]; [exact Hp|]). by apply not_elem_of_nil in Hp. }
  left. exists sample_token, second, (mkPayload 1 "grpA" 9 "i1"). split; [discriminate|].
  split; [vm_compute; reflexivity|]. split; reflexivity.
Qed.

Lemma invite_never_oversubscribed_witness :
  (race_end 1 true).(clients) !! 1%nat = Some (Done (inl true)) /\
  Z.of_nat (List.length [1%nat]) <= 2 - 1.
Proof.
  assert ((race_end 1 true).(clients) !! 1%nat = Some (Done (inl true))) as Hw by (vm_compute; reflexivity).
  split; [exact Hw|].
  refine (proj1 (invite_never_oversubscribed json_text plain_parse _ true toy_mac plain_parse "grpA" "i1"
    (race 1 true) (race_end 1 true) (plain_text (sample_state 1 true)) (sample_state 1 true) [1%nat] _ _ _ _ _ _ _ _)).
  - intros st v [= <-]. exact (plain_law st).
  - intros i p. apply sample_consumer_ok.
  - apply lookup_singleton_eq.
  - exact (plain_law (sample_state 1 true)).
  - reflexivity.
  - discriminate.
  - exact (run_schedule_steps race_schedule (race 1 true)).
  - apply NoDup_singleton.
  - intros i [<-|[]]. exact Hw.
Defined.

Lemma revoked_invite_stays_revoked_witness :
  (race_end 1 false).(cache) !! invite_key "grpA" "i1" = Some (plain_text (sample_state 1 false)) /\
  (race_end 1 false).(clients) !! 1%nat <> Some (Done (inl true)).
Proof.
  assert ((race_end 1 false).(cache) !! invite_key "grpA" "i1" = Some (plain_text (sample_state 1 false)) /\
    forall i, (race_end 1 false).(clients) !! i <> Some (Done (inl true))) as [H1 H2].
  { refine (revoked_invite_stays_revoked json_text plain_parse true toy_mac plain_parse "grpA" "i1"
      (race 1 false) (race_end 1 false) (plain_text (sample_state 1 false)) (sample_state 1 false) _ _ _ _ _).
    - intros i p. apply sample_consumer_ok.
    - apply lookup_singleton_eq.
    - exact (plain_law (sample_state 1 false)).
    - reflexivity.
    - exact (run_schedule_steps race_schedule (race 1 false)). }
  split; [exact H1|exact (H2 1%nat)].
Defined.
