(* ===== verification/ResumableLease.v ===== *)
(** * ResumableLease: the lock of a resumable upload

    internal/server/resumable_lease.go: a lease in the persistent cache that one
    uploader at a time holds until it expires or is given back.  The random owner and
    the JSON codec are parameters. *)

From Stdlib Require Import NArith ZArith Lia List String Bool.
From stdpp Require Import base tactics numbers list strings gmap.
From S2P Require Import Prelude Uid PCache.

#[local] Open Scope string_scope.
#[local] Open Scope Z_scope.

Definition resumableLeasePrefix : string := "uploadlease:".
(** 2 minutes, in nanoseconds. *)
Definition resumableLeaseTTL : Z := 120000000000.
Definition errResumableLeaseBusy : GoError := TextErr "resumable upload is locked by another node".

Record resumableUploadLease := mkLease { Owner : string; LeaseExpiresAt : Z }.

Section Lease.
Context {V : Type} `{EqDecision V} (lease_text : resumableUploadLease -> option V) (lease_parse : V -> option resumableUploadLease).
(** The empty text of a caller that owns nothing. *)
Context (empty_text : V).

(** A Go conjunction that reads the clock only if the lease has an owner. *)
Definition when_held {A} (currentRaw : V) (busy free : Prog V A) : Prog V A :=
  match lease_parse currentRaw with
  | Some current =>
      if negb (String.eqb current.(Owner) "")
      then TimeNow (fun now => if now <? current.(LeaseExpiresAt) then busy else free)
      else free
  | None => free
  end.

(** The loop of [acquireResumableUploadLease]. *)
Fixpoint acquire_attempts (attempts : nat) (key : string) (nextRaw : V) : Prog V (V + GoError) :=
  match attempts with
  | O => Done (inr errResumableLeaseBusy)
  | S attempts' =>
      Get key (fun r =>
        match r with
        | inr getErr => Done (inr getErr)
        | inl currentRaw =>
            when_held currentRaw (Done (inr errResumableLeaseBusy))
              (CompareAndSwap key currentRaw nextRaw (fun r =>
                 match r with
                 | inr swapErr => Done (inr swapErr)
                 | inl true => Done (inl nextRaw)
                 | inl false => acquire_attempts attempts' key nextRaw
                 end))
        end)
  end.

Definition acquireResumableUploadLease (id : string) (ttl : Z) (owner : string) : Prog V (V + GoError) :=
  if IsZeroUid (ParseUid id) || (ttl <=? 0) then Done (inr (StoreErr ErrMalformed))
  else
    TimeNow (fun now =>
      match lease_text (mkLease owner (now + ttl)) with
      | None => Done (inr (TextErr "json: cannot marshal"))
      | Some nextRaw =>
          let key := resumableLeasePrefix ++ id in
          Upsert key nextRaw true (fun err =>
            match err with
            | None => Done (inl nextRaw)
            | Some e => if bool_decide (e = StoreErr ErrDuplicate) then acquire_attempts 4 key nextRaw else Done (inr e)
            end)
      end).

Definition releaseResumableUploadLease {A} (id : string) (ownedRaw : V) (k : Prog V A) : Prog V A :=
  if String.eqb id "" || bool_decide (ownedRaw = empty_text) then k
  else
    TimeNow (fun now =>
      match lease_text (mkLease "" now) with
      | None => k
      | Some releasedRaw => CompareAndSwap (resumableLeasePrefix ++ id) ownedRaw releasedRaw (fun _ => k)
      end).

(** ** Mutual exclusion *)

Context (lease_law : forall l v, lease_text l = Some v -> lease_parse v = Some l).
Context (id : string) (owner_of : nat -> string).
(** Owners are 128 random bits. *)
Context (owners_fresh : forall i j, owner_of i = owner_of j -> i = j) (owners_named : forall i, owner_of i <> "").

Definition lease_key : string := resumableLeasePrefix ++ id.

(** What an uploader does with what it acquired: hold it to the end, or give it back. *)
Definition keep (r : V + GoError) : Prog V (option V) :=
  match r with inl raw => Done (Some raw) | inr _ => Done None end.
Definition give_back (r : V + GoError) : Prog V (option V) :=
  match r with inl raw => releaseResumableUploadLease id raw (Done None) | inr _ => Done None end.

Definition lease_client (i : nat) (p : Prog V (option V)) : Prop :=
  exists ttl, p = pbind (acquireResumableUploadLease id ttl (owner_of i)) keep \/
              p = pbind (acquireResumableUploadLease id ttl (owner_of i)) give_back.

Definition owner_name (v : V) : string := match lease_parse v with Some l => l.(Owner) | None => "" end.
Definition held_until (v : V) (t : Z) : Prop := exists l, lease_parse v = Some l /\ l.(Owner) <> "" /\ t < l.(LeaseExpiresAt).

Definition lease_initial (i : nat) (_ : Z) (v : V) : Prop := owner_name v = owner_of i.
Definition lease_step (i : nat) (t : Z) (own : list V) (old new : V) : Prop :=
  (owner_name new = owner_of i /\ ~ held_until old t) \/ (owner_name new = "" /\ In old own).
Definition lease_backed (r : option V) (own : list V) : Prop :=
  match r with Some raw => In raw own /\ forall v, In v own -> owner_name v <> "" | None => True end.

Abbreviation lease_wb := (wb lease_key lease_initial lease_step (fun _ => True) lease_backed) (only parsing).

(** Writes made so far are the client's own leases. *)
Definition own_leases (i : nat) (own : list V) : Prop := forall v, In v own -> owner_name v = owner_of i.

Lemma own_leases_cons i v own : owner_name v = owner_of i -> own_leases i own -> own_leases i (v :: own).
Proof. intros Hv Ho x [<-|Hx]; auto. Qed.

(** Both continuations are safe with a lease of one's own and without one. *)
Lemma keep_or_give_back i k lb own r :
  k = keep \/ k = give_back -> own_leases i own -> match r with inl raw => In raw own | inr _ => True end ->
  lease_wb i lb own (k r).
Proof.
  intros Hk Ho Hr. destruct r as [raw|e]; [|by destruct Hk as [-> | ->]]. destruct Hk as [-> | ->]; simpl.
  - split; [done|]. intros v Hv. rewrite (Ho v Hv). apply owners_named.
  - unfold releaseResumableUploadLease. destruct (_ || _); [done|]. simpl. intros t Ht.
    destruct (lease_text (mkLease "" t)) as [rel|] eqn:Et; [|done]. simpl. fold lease_key. rewrite String.eqb_refl.
    split; [|done]. right. split; [|done]. unfold owner_name. by rewrite (lease_law _ _ Et).
Qed.

Lemma acquire_attempts_wb i k attempts nextRaw lb own :
  k = keep \/ k = give_back -> own_leases i own -> owner_name nextRaw = owner_of i ->
  lease_wb i lb own (pbind (acquire_attempts attempts lease_key nextRaw) k).
Proof.
  intros Hk Ho Hn. revert lb own Ho. induction attempts as [|a IH]; intros lb own Ho; [by apply (keep_or_give_back i)|].
  simpl. intros [cur|e] _; [|by apply (keep_or_give_back i)].
  assert (forall t, lb <= t -> ~ held_until cur t -> lease_wb i t own (pbind (CompareAndSwap lease_key cur nextRaw (fun r =>
     match r with inr e => Done (inr e) | inl true => Done (inl nextRaw) | inl false => acquire_attempts a lease_key nextRaw end)) k)) as Hcas.
  { intros t _ Hfree. simpl. rewrite String.eqb_refl. split; [by left|].
    assert (own_leases i (nextRaw :: own)) by (by apply own_leases_cons).
    split; [apply (keep_or_give_back i); simpl; auto|]. split; [by apply IH|].
    intros e. split; by apply (keep_or_give_back i). }
  unfold when_held. destruct (lease_parse cur) as [l|] eqn:El.
  2: { apply Hcas; [lia|]. intros (l & Hl & _). congruence. }
  destruct (String.eqb_spec (Owner l) "") as [Eo|Eo]; simpl.
  - apply Hcas; [lia|]. intros (l' & Hl & Hne & _). congruence.
  - intros t Ht. destruct (Z.ltb_spec t (LeaseExpiresAt l)); [by apply (keep_or_give_back i)|].
    apply Hcas; [done|]. intros (l' & Hl & _ & Hlt). assert (l' = l) as -> by congruence. lia.
Qed.

Lemma lease_client_wb i p lb : lease_client i p -> lease_wb i lb [] p.
Proof.
  intros [ttl Hp]. assert (exists k, (k = keep \/ k = give_back) /\ p = pbind (acquireResumableUploadLease id ttl (owner_of i)) k)
    as (k & Hk & ->) by (destruct Hp; eauto).
  assert (own_leases i []) as Ho by (intros v []).
  unfold acquireResumableUploadLease. destruct (_ || _); [by apply (keep_or_give_back i)|].
  cbn [pbind wb]. intros t Ht.
  destruct (lease_text (mkLease (owner_of i) (t + ttl))) as [raw|] eqn:Et; [|by apply (keep_or_give_back i)].
  assert (owner_name raw = owner_of i) as Hn by (unfold owner_name; by rewrite (lease_law _ _ Et)).
  cbn [pbind wb]. fold lease_key. rewrite String.eqb_refl. split; [done|]. split; [done|].
  assert (own_leases i [raw]) by (by apply own_leases_cons).
  split; [apply (keep_or_give_back i); simpl; auto|]. intros e. case_bool_decide.
  - split; by apply acquire_attempts_wb.
  - split; by apply (keep_or_give_back i).
Qed.

(** A lease that was acquired, not given back by its holder and not expired is the current value. *)
Lemma held_is_current start (s : System (option V)) h i raw :
  accounted lease_key lease_initial lease_step (fun _ => True) lease_backed start s h ->
  s.(clients) !! i = Some (Done (Some raw)) -> held_until raw s.(clock) ->
  current start h = Some raw /\ owner_name raw = owner_of i.
Proof.
  intros Hacc Hi (l & Hl & Hne & Hlt). pose proof Hacc as (_ & Hchain & Htime & _).
  destruct (claim_backed _ _ _ _ _ _ _ _ _ _ Hacc Hi) as (own & [Hin Hown] & Hw).
  apply (Hw raw) in Hin as [ti Hin].
  assert (forall v t, In (i, v, t) h -> owner_name v <> "") as Hmine.
  { intros v t Hv. apply Hown. apply Hw. by exists t. }
  clear Hi Hacc Hw Hown own. induction h as [|[[k v] t] h IH]; [done|].
  destruct Hchain as (Hc & _ & Hp). apply Forall_cons in Htime as [Ht Htime]. simpl in Ht.
  assert (forall w u, In (k, w, u) ((k, v, t) :: h) -> owner_name w = owner_of k \/ owner_name w = "") as Hk.
  { clear -Hc Hp. revert k v t Hc Hp.
    assert (forall (h : History) k v t, chain lease_initial lease_step start h ->
      match current start h with
      | Some v0 => exists own, own_writes k own h /\ lease_step k t own v0 v | None => lease_initial k t v end ->
      owner_name v = owner_of k \/ owner_name v = "") as Hone.
    { intros h0 k v t _. destruct (current start h0); [|by left].
      intros (own & _ & [[? _]|[? _]]); auto. }
    assert (forall (h : History) k w u, chain lease_initial lease_step start h -> In (k, w, u) h ->
      owner_name w = owner_of k \/ owner_name w = "") as Hall.
    { intros h0 k w u. induction h0 as [|[[k' v'] t'] h0 IH0]; [done|]. intros (Hc & _ & Hp) [[= -> -> ->]|Hin]; [by eapply Hone|auto]. }
    intros k v t Hc Hp w u [[= <- <-]|Hin]; [by eapply Hone|by eapply Hall]. }
  destruct Hin as [[= -> -> ->]|Hin].
  - split; [done|]. destruct (Hk raw ti (or_introl eq_refl)) as [|E]; [done|]. exfalso.
    unfold owner_name in E. by rewrite Hl in E.
  - destruct (IH Hc Htime Hin) as [Hcur Hname]; [intros w u Hwu; apply (Hmine w u); by right|].
    exfalso. rewrite Hcur in Hp. destruct Hp as (own & Hw & [[_ Hfree]|[Hrel Hown]]).
    + apply Hfree. exists l. split; [done|]. split; [done|]. lia.
    + apply Hw in Hown as [u Hu]. destruct (Hk raw u (or_intror Hu)) as [E|E].
      * rewrite Hname in E. apply owners_fresh in E as <-. by apply (Hmine v t); [left|].
      * unfold owner_name in E. by rewrite Hl in E.
Qed.

(** C35: resumable upload leases exclude each other: among any number of uploaders who acquire the lease of one
    upload, and hold it or give it back, in every order of their cache calls, with calls lost before or after they took
    effect and time passing in between, no two hold an unexpired lease at once, and the one who does owns the stored record. *)
Theorem lease_mutual_exclusion (s0 s : System (option V)) i j raw1 raw2 :
  (forall k p, s0.(clients) !! k = Some p -> lease_client k p) -> steps sys_step s0 s ->
  s.(clients) !! i = Some (Done (Some raw1)) -> s.(clients) !! j = Some (Done (Some raw2)) ->
  held_until raw1 s.(clock) -> held_until raw2 s.(clock) ->
  i = j /\ s.(cache) !! lease_key = Some raw1.
Proof.
  intros Hcl Hsteps Hi Hj Hh1 Hh2.
  destruct (reachable_history lease_key lease_initial lease_step (fun _ => True) lease_backed) with (s0 := s0) (s := s) as [h Hacc];
    try done.
  { intros k t t' own v v' Ht [[Hn Hf]|Hr]; [left|by right]. split; [done|]. intros (l & ? & ? & ?). apply Hf.
    exists l. repeat split; try done. lia. }
  { intros k p Hp. by apply lease_client_wb, Hcl. }
  destruct (held_is_current _ _ _ _ _ Hacc Hi Hh1) as [C1 N1]. destruct (held_is_current _ _ _ _ _ Hacc Hj Hh2) as [C2 N2].
  rewrite C1 in C2. injection C2 as <-. split; [apply owners_fresh; congruence|].
  destruct Hacc as (Hcur & _). by rewrite Hcur.
Qed.
End Lease.

(** Two uploaders of one file: the first holds the lease, the second is refused. *)
#[global] Instance lease_eq_dec : EqDecision resumableUploadLease.
Proof. solve_decision. Defined.
#[global] Instance lease_countable : Countable resumableUploadLease.
Proof. refine (inj_countable' (fun l => (l.(Owner), l.(LeaseExpiresAt))) (fun x => mkLease x.1 x.2) _). by intros []. Defined.

Definition sample_owner (i : nat) : string := plain_text i.
Definition lease_json (l : resumableUploadLease) : option string := Some (plain_text l).
Definition sample_upload : string := UidString 7.
Definition sample_uploader (i : nat) : Prog string (option string) :=
  pbind (acquireResumableUploadLease lease_json plain_parse sample_upload resumableLeaseTTL (sample_owner i)) keep.
Definition two_uploaders : System (option string) := mkSystem 0 ∅ [sample_uploader 0; sample_uploader 1].
Definition upload_race : System (option string) :=
  run_schedule [(0, Fine); (1, Fine); (0, Fine); (1, Fine); (1, Fine); (1, Fine)]%nat two_uploaders.
Definition first_lease : string := plain_text (mkLease (sample_owner 0) resumableLeaseTTL).

Lemma sample_owner_inj i j : sample_owner i = sample_owner j -> i = j.
Proof.
  intros E. pose proof (plain_law i) as L1. pose proof (plain_law j) as L2. unfold sample_owner in E.
  rewrite E, L2 in L1. by injection L1.
Qed.

Lemma lease_mutual_exclusion_witness :
  upload_race.(clients) !! 1%nat = Some (Done None) /\ upload_race.(cache) !! lease_key sample_upload = Some first_lease.
Proof.
  split; [vm_compute; reflexivity|].
  assert (upload_race.(clients) !! 0%nat = Some (Done (Some first_lease))) as H0 by (vm_compute; reflexivity).
  assert (held_until plain_parse first_lease upload_race.(clock)) as Hh.
  { exists (mkLease (sample_owner 0) resumableLeaseTTL). split; [exact (plain_law (mkLease (sample_owner 0) resumableLeaseTTL))|].
    split; [vm_compute; discriminate|vm_compute; reflexivity]. }
  refine (proj2 (lease_mutual_exclusion lease_json plain_parse "" _ sample_upload sample_owner sample_owner_inj _
    two_uploaders upload_race 0 0 first_lease first_lease _ (run_schedule_steps _ two_uploaders) H0 H0 Hh Hh)).
  - intros l v [= <-]. exact (plain_law l).
  - intros i E. pose proof (plain_law i) as L. unfold sample_owner in E. by rewrite E in L.
  - intros k p Hp. exists resumableLeaseTTL. left.
    destruct k as [|[|k]]; [injection Hp as <-; reflexivity|injection Hp as <-; reflexivity|discriminate].
Defined.
