(* ===== verification/OfficialGov.v ===== *)
(** * OfficialGov: join requests and slow mode of official groups

    internal/server/official_join_requests.go and the slow mode of
    internal/server/official_topics.go: optimistic loops over the persistent cache that
    several nodes run at once.  The JSON codec of the requests and the RFC 3339 text of times
    are parameters. *)

From Stdlib Require Import NArith ZArith Lia List String Bool.
From stdpp Require Import base tactics numbers list strings gmap.
From S2P Require Import Prelude AccessMode Uid StoreTypes SubStore Topic PCache.
Import Objects.
Import Topic.

#[local] Open Scope string_scope.
#[local] Open Scope Z_scope.

Definition officialJoinRequestPrefix : string := "official-topic:join-request:".
Definition officialSlowModeKeyPrefix : string := "official-topic:slow-mode:".

Record officialJoinRequest := mkJoin {
  jr_Topic : string; jr_User : string; jr_Status : string; RequestedAt : Z; ReviewedAt : Z;
  ReviewedBy : string; Note : string; Version : N }.

Definition noRequest : officialJoinRequest := mkJoin "" "" "" 0 0 "" "" 0.

(** admincontrol.ErrInvalid, ErrConflict, ErrProtected. *)
Definition ErrInvalid : GoError := TextErr "admin: invalid input".
Definition ErrConflict : GoError := TextErr "admin: configuration version conflict".
Definition ErrProtected : GoError := TextErr "admin: protected object".
Definition errOfficialSlowMode : GoError := TextErr "official topic slow mode is active".

Definition officialJoinRequestKey (topic : string) (uid : Uid) : string :=
  officialJoinRequestPrefix ++ topic ++ ":" ++ UidString uid.

(** [uint64] *)
Definition next_version (n : N) : N := ((n + 1) mod 2 ^ 64)%N.

Definition hour : Z := 3600000000000.

Section Requests.
Context {V : Type} `{EqDecision V} (request_text : officialJoinRequest -> option V) (request_parse : V -> option officialJoinRequest).

Definition loadOfficialJoinRequest {A} (topic : string) (uid : Uid)
    (k : (officialJoinRequest * V) + GoError -> Prog V A) : Prog V A :=
  Get (officialJoinRequestKey topic uid) (fun r =>
    match r with
    | inr e => k (inr e)
    | inl raw => match request_parse raw with
                 | None => k (inr (TextErr "json: cannot unmarshal"))
                 | Some q => k (inl (q, raw))
                 end
    end).

(** The loop of [submitOfficialJoinRequest]. *)
Fixpoint submit_attempts (attempts : nat) (topic : string) (uid : Uid) (now : Z)
    : Prog V (officialJoinRequest * option GoError) :=
  match attempts with
  | O => Done (noRequest, Some ErrConflict)
  | S attempts' =>
      loadOfficialJoinRequest topic uid (fun r =>
        match r with
        | inr e =>
            if bool_decide (e = StoreErr ErrNotFound) then
              let request := mkJoin topic (UserId uid) "pending" now 0 "" "" 1 in
              match request_text request with
              | None => Done (noRequest, Some (TextErr "json: cannot marshal"))
              | Some newRaw =>
                  Upsert (officialJoinRequestKey topic uid) newRaw true (fun err =>
                    match err with
                    | None => Done (request, None)
                    | Some _ => submit_attempts attempts' topic uid now
                    end)
              end
            else Done (noRequest, Some e)
        | inl (request, oldRaw) =>
            if String.eqb request.(jr_Status) "pending" then Done (request, None)
            else if String.eqb request.(jr_Status) "rejected" && (now <? request.(ReviewedAt) + hour)
            then Done (request, Some ErrProtected)
            else
              let request := mkJoin request.(jr_Topic) request.(jr_User) "pending" now 0 "" "" (next_version request.(Version)) in
              match request_text request with
              | None => Done (noRequest, Some (TextErr "json: cannot marshal"))
              | Some newRaw =>
                  CompareAndSwap (officialJoinRequestKey topic uid) oldRaw newRaw (fun r =>
                    match r with
                    | inr swapErr => Done (noRequest, Some swapErr)
                    | inl true => Done (request, None)
                    | inl false => submit_attempts attempts' topic uid now
                    end)
              end
        end)
  end.

Definition submitOfficialJoinRequest (topic : string) (uid : Uid) (now : Z) : Prog V (officialJoinRequest * option GoError) :=
  submit_attempts 8 topic uid now.

(** The loop of [decideOfficialJoinRequest]. *)
Fixpoint decide_attempts (attempts : nat) (topic : string) (uid : Uid) (status reviewer note : string) (now : Z)
    : Prog V (officialJoinRequest * option GoError) :=
  match attempts with
  | O => Done (noRequest, Some ErrConflict)
  | S attempts' =>
      loadOfficialJoinRequest topic uid (fun r =>
        match r with
        | inr e => Done (noRequest, Some e)
        | inl (request, oldRaw) =>
            if negb (String.eqb request.(jr_Status) "pending") then Done (request, Some ErrConflict)
            else
              let request := mkJoin request.(jr_Topic) request.(jr_User) status request.(RequestedAt) now reviewer note
                               (next_version request.(Version)) in
              match request_text request with
              | None => Done (noRequest, Some (TextErr "json: cannot marshal"))
              | Some newRaw =>
                  CompareAndSwap (officialJoinRequestKey topic uid) oldRaw newRaw (fun r =>
                    match r with
                    | inr e => Done (noRequest, Some e)
                    | inl true => Done (request, None)
                    | inl false => decide_attempts attempts' topic uid status reviewer note now
                    end)
              end
        end)
  end.

Definition decideOfficialJoinRequest (topic : string) (uid : Uid) (status reviewer note : string) (now : Z)
    : Prog V (officialJoinRequest * option GoError) :=
  let note := TrimSpace note in
  if negb (String.eqb status "approved" || String.eqb status "rejected") || (500 <? String.length note)%nat
  then Done (noRequest, Some ErrInvalid)
  else decide_attempts 8 topic uid status reviewer note now.

(** ** Slow mode *)

Context (time_text : Z -> V) (time_parse : V -> option Z).

(** The loop of [enforceOfficialSlowMode]: the wait and the error. *)
Fixpoint slow_attempts (attempts : nat) (key : string) (window now : Z) : Prog V (Z * option GoError) :=
  match attempts with
  | O => Done (0, Some (TextErr "slow mode reservation conflicted"))
  | S attempts' =>
      Get key (fun r =>
        match r with
        | inr e =>
            if bool_decide (e = StoreErr ErrNotFound) then
              Upsert key (time_text now) true (fun err =>
                match err with
                | None => Done (0, None)
                | Some _ => slow_attempts attempts' key window now
                end)
            else Done (0, Some e)
        | inl oldValue =>
            match time_parse oldValue with
            | None => Done (0, Some (TextErr "parsing time"))
            | Some last =>
                let availableAt := last + window in
                if now <? availableAt then Done (availableAt - now, Some errOfficialSlowMode)
                else CompareAndSwap key oldValue (time_text now) (fun r =>
                       match r with
                       | inr e => Done (0, Some e)
                       | inl true => Done (0, None)
                       | inl false => slow_attempts attempts' key window now
                       end)
            end
        end)
  end.

Definition slow_key (t : Topic) (uid : Uid) : string := officialSlowModeKeyPrefix ++ t.(t_name) ++ ":" ++ UidString uid.

Definition enforceOfficialSlowMode (t : Topic) (uid : Uid) (scope : string) (now : Z) : Prog V (Z * option GoError) :=
  match t.(official) with
  | None => Done (0, None)
  | Some p =>
      if negb (isOfficialLargeGroup t) || (p.(SlowModeSeconds) <=? 0) || String.eqb scope "call" then Done (0, None)
      else
        match t.(perUser) !! uid with
        | None => Done (0, Some (StoreErr ErrPermissionDenied))
        | Some pud =>
            let mode := pud.(modeWant) &. pud.(modeGiven) in
            if IsOwner mode || IsAdmin mode then Done (0, None)
            else slow_attempts 8 (slow_key t uid) (p.(SlowModeSeconds) * 1000000000) now
        end
  end.

(** ** Decisions exclude each other *)

Context (request_law : forall q v, request_text q = Some v -> request_parse v = Some q).

Definition status_of (v : V) : option string := jr_Status <$> request_parse v.
Definition decided (s : string) : Prop := s = "approved" \/ s = "rejected".

Definition decide_step (_ : nat) (_ : Z) (_ : list V) (old new : V) : Prop :=
  status_of old = Some "pending" /\ exists s, status_of new = Some s /\ decided s.
Definition decide_backed (r : officialJoinRequest * option GoError) (own : list V) : Prop :=
  match r with
  | (q, None) => exists v, In v own /\ request_parse v = Some q /\ decided q.(jr_Status)
  | _ => True
  end.

Definition decide_client (topic : string) (uid : Uid) (p : Prog V (officialJoinRequest * option GoError)) : Prop :=
  exists status reviewer note now, p = decideOfficialJoinRequest topic uid status reviewer note now.

Lemma decide_wb attempts topic uid status reviewer note now i lb own : decided status ->
  wb (officialJoinRequestKey topic uid) (fun _ _ _ => False) decide_step (fun _ => True) decide_backed i lb own
    (decide_attempts attempts topic uid status reviewer note now).
Proof.
  intros Hst. revert lb own. induction attempts as [|a IH]; intros lb own; [done|].
  simpl. intros [raw|e] _; [|done]. destruct (request_parse raw) as [q|] eqn:Eq; [|done].
  destruct (String.eqb_spec (jr_Status q) "pending") as [Ep|]; [|done]. simpl.
  destruct (request_text _) as [new|] eqn:Et; [|done]. apply request_law in Et. simpl. rewrite String.eqb_refl.
  split; [|split; [|split; [apply IH|done]]].
  - split; [unfold status_of; rewrite Eq; simpl; by rewrite Ep|]. exists status. split; [|done].
    unfold status_of. by rewrite Et.
  - exists new. split; [by left|]. by split.
Qed.

(** a join request is decided at most once: of any number of reviewers who approve or reject the same
    request at once, in every order of their cache calls and with lost calls, at most one is told that the decision was
    recorded, and the record then holds exactly that decision. *)
Theorem join_decided_once topic uid (s0 s : System (officialJoinRequest * option GoError)) i j q1 q2 :
  (forall k p, s0.(clients) !! k = Some p -> decide_client topic uid p) ->
  s0.(cache) !! officialJoinRequestKey topic uid <> None -> steps sys_step s0 s ->
  s.(clients) !! i = Some (Done (q1, None)) -> s.(clients) !! j = Some (Done (q2, None)) ->
  i = j /\ decided q1.(jr_Status) /\
  exists v, s.(cache) !! officialJoinRequestKey topic uid = Some v /\ request_parse v = Some q1.
Proof.
  intros Hcl Hk Hsteps Hi Hj. set (key := officialJoinRequestKey topic uid) in *.
  destruct (reachable_history key (fun _ _ _ => False) decide_step (fun _ => True) decide_backed
    ltac:(done) ltac:(done) ltac:(done) ltac:(done) s0 s) as [h Hacc]; try done.
  { intros k p Hp. destruct (Hcl k p Hp) as (st & rv & nt & now & ->). unfold decideOfficialJoinRequest.
    destruct (negb (String.eqb st "approved" || String.eqb st "rejected") || (500 <? String.length (TrimSpace nt))%nat) eqn:E; [done|].
    apply decide_wb. apply orb_false_iff in E as [E _]. apply negb_false_iff, orb_true_iff in E.
    destruct E as [E%String.eqb_eq|E%String.eqb_eq]; [by left|by right]. }
  pose proof Hacc as (Hcur & Hchain & _ & _).
  destruct (claim_backed _ _ _ _ _ _ _ _ _ _ Hacc Hi) as (own1 & (v1 & I1 & P1 & D1) & W1).
  destruct (claim_backed _ _ _ _ _ _ _ _ _ _ Hacc Hj) as (own2 & (v2 & I2 & P2 & D2) & W2).
  apply W1 in I1 as [t1 I1]. apply W2 in I2 as [t2 I2].
  assert (exists e, h = [e]) as [e ->].
  { destruct h as [|[[k1 x1] u1] [|[[k2 x2] u2] h]]; [done|eauto|exfalso].
    destruct Hchain as ((_ & _ & Hp2) & _ & Hp1). simpl in Hp1. destruct Hp1 as (o1 & _ & Hold & _).
    unfold entry_value in Hold. simpl in Hold. destruct (current _ h); [|done].
    destruct Hp2 as (o2 & _ & _ & st & Hst & Hd). rewrite Hst in Hold. injection Hold as ->. by destruct Hd. }
  destruct I1 as [->|[]]. destruct I2 as [[= -> -> ->]|[]]. split; [done|]. split; [done|].
  exists v2. split; [by rewrite Hcur|]. congruence.
Qed.

(** ** Slow mode keeps its distance *)

Context (time_law : forall t, time_parse (time_text t) = Some t).
Context (name : string) (uid : Uid) (seconds : Z) (seconds_pos : 0 < seconds) (now_of : nat -> Z).

Definition slow_window : Z := seconds * 1000000000.

(** Node [i] checks an ordinary member's message at its time [now_of i]. *)
Definition slow_client (i : nat) (p : Prog V (Z * option GoError)) : Prop :=
  exists t pol pud scope, t.(t_name) = name /\ t.(official) = Some pol /\ isOfficialLargeGroup t = true /\
    pol.(SlowModeSeconds) = seconds /\ scope <> "call" /\ t.(perUser) !! uid = Some pud /\
    IsOwner (pud.(modeWant) &. pud.(modeGiven)) = false /\ IsAdmin (pud.(modeWant) &. pud.(modeGiven)) = false /\
    p = enforceOfficialSlowMode t uid scope (now_of i).

Definition slow_initial (i : nat) (_ : Z) (v : V) : Prop := time_parse v = Some (now_of i).
Definition slow_step (i : nat) (_ : Z) (_ : list V) (old new : V) : Prop :=
  time_parse new = Some (now_of i) /\ exists last, time_parse old = Some last /\ last + slow_window <= now_of i.
Definition slow_backed (r : Z * option GoError) (own : list V) : Prop :=
  match r with (_, None) => own <> [] | _ => True end.

Lemma slow_wb attempts key i lb own :
  wb key slow_initial slow_step (fun _ => True) slow_backed i lb own
    (slow_attempts attempts key slow_window (now_of i)).
Proof.
  revert lb own. induction attempts as [|a IH]; intros lb own; [done|]. simpl. intros [raw|e] _.
  - destruct (time_parse raw) as [last|] eqn:El; [|done].
    destruct (Z.ltb_spec (now_of i) (last + slow_window)); [done|]. simpl. rewrite String.eqb_refl.
    split; [split; [apply time_law|by exists last]|]. split; [done|]. split; [apply IH|done].
  - case_bool_decide; [|done]. simpl. rewrite String.eqb_refl. split; [done|]. split; [apply time_law|].
    split; [done|]. intros err. split; apply IH.
Qed.

(** Along the history the accepted times are at least a window apart. *)
Lemma slow_chain start h :
  chain slow_initial slow_step start h ->
  (forall i v t, In (i, v, t) h -> time_parse v = Some (now_of i)) /\
  forall i v t h', h = (i, v, t) :: h' -> forall j w u, In (j, w, u) h' -> now_of j + slow_window <= now_of i.
Proof.
  induction h as [|[[i v] t] h IH]; [done|]. intros (Hc & _ & Hp). destruct (IH Hc) as [H1 H2].
  assert (time_parse v = Some (now_of i)) as Hv.
  { destruct (current start h); [by destruct Hp as (own & _ & ? & _)|exact Hp]. }
  split; [intros j w u [[= <- <- <-]|Hin]; [done|by eapply H1]|].
  intros i' v' t' h' [= <- <- <- <-] j w u Hin. destruct h as [|[[k x] r] h]; [done|].
  destruct Hp as (own & _ & _ & last & Hl & Hle). unfold entry_value in Hl. simpl in Hl.
  rewrite (H1 k x r (or_introl eq_refl)) in Hl. injection Hl as <-.
  destruct Hin as [[= <- <- <-]|Hin]; [done|]. specialize (H2 _ _ _ _ eq_refl _ _ _ Hin). unfold slow_window in *. lia.
Qed.

(** slow mode keeps its distance across nodes: however many nodes check messages of one member at once,
    in every order of their cache calls and with lost calls, two messages that are both let through carry times at least the
    window apart. *)
Theorem slow_mode_spacing (s0 s : System (Z * option GoError)) i j w1 w2 :
  (forall k p, s0.(clients) !! k = Some p -> slow_client k p) -> steps sys_step s0 s ->
  s.(clients) !! i = Some (Done (w1, None)) -> s.(clients) !! j = Some (Done (w2, None)) -> i <> j ->
  slow_window <= Z.abs (now_of i - now_of j).
Proof.
  intros Hcl Hsteps Hi Hj Hne. set (key := officialSlowModeKeyPrefix ++ name ++ ":" ++ UidString uid).
  destruct (reachable_history key slow_initial slow_step (fun _ => True) slow_backed
    ltac:(done) ltac:(done) ltac:(done) ltac:(done) s0 s) as [h Hacc]; try done.
  { intros k p Hp. destruct (Hcl k p Hp) as (t & pol & pud & scope & <- & Ho & Hl & Hs & Hsc & Hu & H1 & H2 & ->).
    unfold enforceOfficialSlowMode. rewrite Ho, Hl, Hs, Hu, H1, H2. destruct (Z.leb_spec seconds 0); [lia|].
    destruct (String.eqb_spec scope "call"); [done|]. cbn [negb orb]. apply slow_wb. }
  destruct Hacc as (_ & Hchain & _ & Hcs).
  assert (forall k w, s.(clients) !! k = Some (Done (w, None)) -> exists v t, In (k, v, t) h) as Hentry.
  { intros k w Hk. destruct (Hcs k _ Hk) as (own & lb & _ & Hb & Hw). destruct own as [|v own]; [done|].
    destruct (proj1 (Hw v) (or_introl eq_refl)) as [t Ht]. by exists v, t. }
  destruct (Hentry i w1 Hi) as (v1 & t1 & I1). destruct (Hentry j w2 Hj) as (v2 & t2 & I2).
  clear -Hchain I1 I2 Hne seconds_pos time_law. induction h as [|[[k v] t] h IH]; [done|].
  pose proof (proj2 (slow_chain _ _ Hchain) k v t h eq_refl) as Hold. destruct Hchain as (Hc & _ & _).
  destruct I1 as [[= -> -> ->]|I1], I2 as [[= -> -> ->]|I2]; [done| | |by apply IH].
  - specialize (Hold _ _ _ I2). unfold slow_window in *. lia.
  - specialize (Hold _ _ _ I1). unfold slow_window in *. lia.
Qed.
End Requests.

(** ** Runs *)

#[global] Instance join_eq_dec : EqDecision officialJoinRequest.
Proof. solve_decision. Defined.
#[global] Instance join_countable : Countable officialJoinRequest.
Proof.
  refine (inj_countable' (fun q => (q.(jr_Topic), q.(jr_User), q.(jr_Status), q.(RequestedAt), q.(ReviewedAt), q.(ReviewedBy), q.(Note), q.(Version)))
    (fun x => let '(a, b, c, d, e, f, g, h) := x in mkJoin a b c d e f g h) _). by intros [].
Defined.
Definition join_json (q : officialJoinRequest) : option string := Some (plain_text q).

(** Two reviewers of one request: both read it, the second to write loses. *)
Definition reviewer_run (status : string) : Prog string (officialJoinRequest * option GoError) :=
  decideOfficialJoinRequest join_json plain_parse "g" 7 status "r" "" 5.
Definition pending_request : officialJoinRequest := mkJoin "g" "u" "pending" 1 0 "" "" 1.
Definition review_start : System (officialJoinRequest * option GoError) :=
  mkSystem 0 {[ officialJoinRequestKey "g" 7 := plain_text pending_request ]} [reviewer_run "approved"; reviewer_run "rejected"].
Definition review_end : System (officialJoinRequest * option GoError) :=
  run_schedule [(0, Fine); (1, Fine); (0, Fine); (1, Fine); (1, Fine)]%nat review_start.
Definition approved_request : officialJoinRequest := mkJoin "g" "u" "approved" 1 5 "r" "" 2.

Lemma join_decided_once_witness :
  review_end.(clients) !! 1%nat = Some (Done (approved_request, Some ErrConflict)) /\
  exists v, review_end.(cache) !! officialJoinRequestKey "g" 7 = Some v /\ plain_parse v = Some approved_request.
Proof.
  split; [vm_compute; reflexivity|].
  assert (review_end.(clients) !! 0%nat = Some (Done (approved_request, None))) as H0 by (vm_compute; reflexivity).
  refine (proj2 (proj2 (join_decided_once join_json plain_parse _ "g" 7 review_start review_end 0 0 approved_request approved_request
    _ _ (run_schedule_steps _ review_start) H0 H0))).
  - intros q v [= <-]. exact (plain_law q).
  - intros k p Hp. destruct k as [|[|k]]; [exists "approved"|exists "rejected"|discriminate];
      exists "r", "", 5; injection Hp as <-; reflexivity.
  - vm_compute. discriminate.
Defined.

(** A large official group with a slow mode of ten seconds; its member [3] writes through two nodes. *)
Definition slow_member : perUserData :=
  let m := ModeJoin |. ModeRead |. ModeWrite |. ModePres in with_modes pud0 m m.
Definition slow_topic : Topic :=
  mkTopic "grpA" "grpA" TopicCatGrp false 1 ModeCPublic 0 10 3 1 "" (Some (mkPolicy true "verified" "large" "open" 10 false true)) 0
    {[ 3%N := slow_member ]} 0 0 ∅ ∅ 0 0 None ∅ ∅ false None.
Definition sample_times (i : nat) : Z := match i with O => 1000000000 | _ => 12000000000 end.
Definition slow_start : System (Z * option GoError) :=
  mkSystem 0 ∅ [enforceOfficialSlowMode plain_text plain_parse slow_topic 3 "message" (sample_times 0);
                enforceOfficialSlowMode plain_text plain_parse slow_topic 3 "message" (sample_times 1)].
Definition slow_end : System (Z * option GoError) :=
  run_schedule [(0, Fine); (1, Fine); (0, Fine); (1, Fine); (1, Fine); (1, Fine)]%nat slow_start.

Lemma slow_mode_spacing_witness :
  slow_end.(clients) !! 1%nat = Some (Done (0, None)) /\ 10 * 1000000000 <= Z.abs (sample_times 0 - sample_times 1).
Proof.
  assert (slow_end.(clients) !! 0%nat = Some (Done (0, None))) as H0 by (vm_compute; reflexivity).
  assert (slow_end.(clients) !! 1%nat = Some (Done (0, None))) as H1 by (vm_compute; reflexivity).
  split; [exact H1|].
  refine (slow_mode_spacing plain_text plain_parse plain_law "grpA" 3 10 eq_refl sample_times slow_start slow_end 0 1 0 0
    _ (run_schedule_steps _ slow_start) H0 H1 _); [|discriminate].
  intros k p Hp. exists slow_topic, (mkPolicy true "verified" "large" "open" 10 false true), slow_member, "message".
  do 4 (split; [vm_compute; reflexivity|]). split; [discriminate|]. do 3 (split; [vm_compute; reflexivity|]).
  destruct k as [|[|k]]; [injection Hp as <-; reflexivity|injection Hp as <-; reflexivity|discriminate].
Defined.
