(* ===== verification/Publish.v ===== *)
(** * Publish: accepting, numbering and fanning out messages

    internal/server/topic_msg.go, message_edit.go, message_schedule.go, the publishing half of
    message_features.go, the publishing checks of official_topics.go, businessPolicyAction of
    business_policy.go, Messages.Save and Messages.Update of server/store/store_messages.go and
    push.go.  The handlers are computations of [Topic.M] over any store that is a [PubStore]; a
    write token comes from [Cluster.writeFenceToken], the slow mode runs [OfficialGov]'s program on the
    shared cache, and content goes through [Drafty].

    Read within one handler, the clock shows one time [now].  Go's zero time is 0.  Whether a
    session's queue is full, what a session is subscribed to and unregisterSession are arguments.
    Machine translation is off (globals.translation is nil). *)

From Stdlib Require Import NArith ZArith Lia List Ascii String Bool.
From stdpp Require Import base tactics numbers list strings gmap sets.
From S2P Require Import Prelude AccessMode Uid StoreTypes Fence Cluster Drafty Messages SubStore PCache PubStore Topic TopicSub OfficialGov.
Import Objects.
Import Topic.

#[local] Open Scope string_scope.
#[local] Open Scope Z_scope.

(** [ClientComMessage] with a {pub} or a {note}; [c_Extra] is extra.attachments. *)
Record ClientComMessage := mkClientMsg {
  c_Id : string; c_Original : string; c_RcptTo : string; c_AsUser : string; c_Timestamp : Z;
  c_sess : option Session; c_Pub : option MsgClientPub; c_Note : option MsgClientNote; c_Extra : option (list string);
  c_scheduled : option ScheduledMessage }.

Definition constCallProviderAgora : string := "agora".
Definition errBusinessPolicyUnavailable : GoError := TextErr "business policy unavailable".
Definition errBusinessPolicyRateLimited : GoError := TextErr "business policy rate limited".

(** ** business_policy.go *)

Definition is_string (v : Any) (s : string) : bool := match v with AStr x => String.eqb x s | _ => false end.

(** The loop over the entities: the first non-empty MIME type of a "CE" entity. *)
Fixpoint custom_mime (entities : list Any) : string :=
  match entities with
  | [] => ""
  | AMap entity :: entities' =>
      if negb (is_string (default ANil (get entity "tp")) "CE") then custom_mime entities'
      else
        let mime := match get entity "data" with Some (AMap data) => get_string (Some data) "mime" | _ => "" end in
        if String.eqb mime "" then custom_mime entities' else ToLower (TrimSpace mime)
  | _ :: entities' => custom_mime entities'
  end.

Definition draftyCustomMIME (content : Any) : string :=
  match content with
  | AMap document => match get document "ent" with Some (AList entities) => custom_mime entities | _ => "" end
  | _ => ""
  end.

Definition is_nil (v : Any) : bool := match v with ANil => true | _ => false end.

Definition businessPolicyAction (head : Head) (content : Any) (attachments : list string) : string :=
  if String.eqb (head_string head "x-business-action") "batch_greeting" then "batch_greeting"
  else if negb (is_nil (head_get head "webrtc")) then "call"
  else if String.eqb (head_string head "mime") "application/x-chat-payment" then "payment"
  else if String.eqb (head_string head headMessageKind) "file" then "document"
  else if String.eqb (draftyCustomMIME content) "application/x-chat-payment" then "payment"
  else match attachments with [] => "message" | _ => "media" end.

(** ** official_topics.go *)

Definition officialModerationKeyPrefix : string := "official-topic:moderation:".
Definition officialModerationCacheTTL : Z := second.
Definition officialModerationKey (topic : string) (uid : Uid) : string :=
  officialModerationKeyPrefix ++ topic ++ ":" ++ UidString uid.

Definition isOfficialReadOnlyChannel (t : Topic) : bool :=
  isOfficialTopic t && t.(t_isChan) && match t.(official) with Some p => String.eqb p.(ScaleClass) "normal" | None => false end.

Definition moderationApplies (state : option officialModerationState) (scope : string) (now : Z) : bool :=
  match state with
  | None => false
  | Some s =>
      if negb (String.eqb s.(mo_Action) "mute") || (now <? s.(mo_StartsAt)) ||
         match s.(mo_ExpiresAt) with Some e => e <=? now | None => false end
      then false
      else String.eqb s.(mo_Scope) "all" || String.eqb s.(mo_Scope) scope
  end.

Definition verified (t : Topic) : bool :=
  match t.(official) with Some p => String.eqb p.(OfficialStatus) "verified" | None => false end.

(** ** prepareBroadcastableMessage

    [None] is the panic of [original]. *)

Definition rename (topic : string) (p : Payload) : Payload :=
  match p with
  | Data d => Data (mkData topic d.(d_From) d.(d_ClientId) d.(d_Timestamp) d.(d_EditedAt) d.(d_DeletedAt) d.(d_SeqId) d.(d_Kind)
                     d.(d_ReplyTo) d.(d_Forwarded) d.(d_GroupId) d.(d_Reactions) d.(d_Head) d.(d_Content))
  | Pres r => Pres (mkPres topic r.(pr_Src) r.(pr_What) r.(pr_UserAgent) r.(pr_SeqId) r.(pr_DelId) r.(pr_DelSeq) r.(pr_AcsTarget)
                     r.(pr_AcsActor) r.(pr_Acs) r.(pr_WantReply) r.(pr_FilterIn) r.(pr_FilterOut) r.(pr_SkipTopic)
                     r.(pr_SingleUser) r.(pr_ExcludeUser))
  | Info i => Info (mkInfoMsg topic i.(i_Src) i.(i_From) i.(i_What) i.(i_SeqId) i.(i_Event) i.(i_Payload) i.(i_Reaction)
                     i.(i_Remove) i.(i_SkipTopic))
  end.

(** [msg.Data.From = ""] *)
Definition anonymous (p : Payload) : Payload :=
  match p with
  | Data d => Data (mkData d.(d_Topic) "" d.(d_ClientId) d.(d_Timestamp) d.(d_EditedAt) d.(d_DeletedAt) d.(d_SeqId) d.(d_Kind)
                     d.(d_ReplyTo) d.(d_Forwarded) d.(d_GroupId) d.(d_Reactions) d.(d_Head) d.(d_Content))
  | p => p
  end.

Definition prepareBroadcastableMessage (t : Topic) (p : Payload) (uid : Uid) (isChanSub : bool) : option Payload :=
  p ← (if (cat_eqb t.(t_cat) TopicCatP2P && negb (IsZeroUid uid)) || (cat_eqb t.(t_cat) TopicCatGrp && t.(t_isChan))
       then (if isChanSub then Some (rename (GrpToChn t.(xoriginal)) p) else (fun name => rename name p) <$> original t uid)
       else Some p);
  Some (if isChanSub then anonymous p else p).

(** ** push.go *)

Definition notified (p : perUserData) : bool :=
  let mode := p.(modeWant) &. p.(modeGiven) in
  IsPresencer mode && IsReader mode && negb p.(deleted) && negb p.(pud_isChan).

Definition pushForData (t : Topic) (fromUid : Uid) (data : MsgServerData) (readBySender : bool) : option Receipt :=
  let head := data.(d_Head) in
  let receipt to channel :=
    mkReceipt to channel "msg" false t.(t_name) data.(d_From) data.(d_Timestamp) data.(d_SeqId) data.(d_Content)
      (head_string head "webrtc")
      (match head_get head "webrtc" with AStr _ => match head_get head "aonly" with ABool b => b | _ => false end | _ => false end)
      (head_string head "replace") (head_string head "mime") 0 0 in
  if isOfficialLargeGroup t then Some (receipt [] t.(t_name))
  else
    let channel := if t.(t_isChan) then GrpToChn t.(t_name) else "" in
    let to :=
      flat_map (fun kv : Uid * perUserData =>
        let '(uid, pud) := kv in
        if notified pud then
          [(uid, ((if (uid =? fromUid)%N && (pud.(online) =? 0) then 1 else pud.(online)), negb (uid =? fromUid)%N || negb readBySender))]
        else []) (map_to_list t.(perUser)) in
    match to with
    | [] => if String.eqb channel "" then None else Some (receipt to channel)
    | _ => Some (receipt to channel)
    end.

Definition pushForReadRcpt (t : Topic) (uid : Uid) (seq now : Z) : Receipt :=
  let topic := if cat_eqb t.(t_cat) TopicCatP2P then UserId uid else t.(xoriginal) in
  mkReceipt [(uid, (0, false))] "" "read" true topic (UserId uid) now seq ANil "" false "" "" 0 0.

Definition with_to (r : Receipt) (to : list (Uid * (Z * bool))) (channel : string) : Receipt :=
  mkReceipt to channel r.(rc_What) r.(rc_Silent) r.(rc_Topic) r.(rc_From) r.(rc_Timestamp) r.(rc_SeqId) r.(rc_Content)
    r.(rc_Webrtc) r.(rc_AudioOnly) r.(rc_Replace) r.(rc_ContentType) r.(rc_ModeWant) r.(rc_ModeGiven).

(** [sendPush] with the user cache running: recipients owned by other nodes go there, the channel stays. *)
Definition sendPush (cluster : option Cluster) (rcpt : Receipt) : list Effect :=
  let '(remote, local) :=
    match cluster with
    | None => ([], rcpt.(To))
    | Some _ => List.partition (fun r => isRemoteTopic cluster (UserId (fst r))) rcpt.(To)
    end in
  (match remote with [] => [] | _ => [RouteUserReq (with_to rcpt remote "")] end ++
   match local with
   | [] => if String.eqb rcpt.(rc_Channel) "" then [] else [SendPush (with_to rcpt local rcpt.(rc_Channel))]
   | _ => [SendPush (with_to rcpt local rcpt.(rc_Channel))]
   end)%list.

(** ** Handlers *)

Section Steps.
Context {St : Type} `{Store : PubStore St}.

Abbreviation HM A := (M (St := St) A) (only parsing).

(** The error of a step as a value. *)
Definition attempt {A} (m : HM A) : HM (A + GoError) := fun w =>
  match m w with
  | (w', Ret a) => (w', Ret (inl a))
  | (w', Err e) => (w', Ret (inr e))
  | (w', Panic p) => (w', Panic p)
  end.

(** A pure result of [Drafty]; the callers see an error as [None]. *)
Definition lift_out {A} (o : Out A) : HM (option A) :=
  match o with Ok a => ret (Some a) | Fail _ => ret None | Drafty.Panic p => panic ("drafty: " ++ p) end.

(** [if msg.sess != nil { msg.sess.queueOut(...) }] *)
Definition reply (msg : ClientComMessage) (c : MsgServerCtrl) : HM unit :=
  match msg.(c_sess) with Some s => queueOut s (CtrlReply c) | None => ret tt end.

(** The same with the topic's name for the user. *)
Definition reply_as (msg : ClientComMessage) (asUid : Uid) (c : string -> MsgServerCtrl) : HM unit :=
  match msg.(c_sess) with
  | Some s =>
      t <-- get_topic ;;
      name <-- lift_option "Invalid P2P topic" (original t asUid) ;;
      queueOut s (CtrlReply (c name))
  | None => ret tt
  end.

(** [if msg.Id != ""] *)
Definition when_asked (msg : ClientComMessage) (m : HM unit) : HM unit := when (negb (String.eqb msg.(c_Id) "")) m.

Definition refuse {A} (msg : ClientComMessage) (asUid : Uid) (c : string -> MsgServerCtrl) (e : GoError) : HM A :=
  reply_as msg asUid c ;;; fail e.

(** A call whose error is returned. *)
Definition checked (f : St -> St * option GoError) : HM unit :=
  x <-- call f ;;
  match x with Some e => fail e | None => ret tt end.

Definition fetch {A} (f : St -> St * (A + GoError)) : HM A :=
  x <-- call f ;;
  match x with inl a => ret a | inr e => fail e end.

End Steps.

Section Official.
Context {St : Type} `{Store : PubStore St}.
(** The JSON of a moderation record. *)
Context (now : Z) (moderation_parse : string -> option officialModerationState).

Abbreviation HM A := (M (St := St) A) (only parsing).

(** *** Official topics at the time [now] *)

Definition must (m : HM (option GoError)) : HM unit := e <-- m ;; match e with Some e => fail e | None => ret tt end.

Definition refreshOfficialChannelMember (uid : Uid) : HM unit :=
  t <-- get_topic ;;
  if negb (isOfficialReadOnlyChannel t) then ret tt
  else
    set_topic (set_official t t.(official) 0) ;;;
    must (refreshOfficialPolicy now) ;;;
    t <-- get_topic ;;
    if negb (verified t) then fail (StoreErr ErrPermissionDenied)
    else
      sub <-- fetch (subs_get t.(t_name) uid false) ;;
      found <-- match sub with
                | Some s => ret (Some s, false)
                | None =>
                    sub <-- fetch (subs_get (GrpToChn t.(t_name)) uid false) ;;
                    ret (sub, match sub with Some _ => true | None => false end)
                end ;;
      match found with
      | (None, _) =>
          set_topic (put_user t uid (with_isChan (with_modes (user t uid) ModeNone ModeNone) true)) ;;;
          fail (StoreErr ErrPermissionDenied)
      | (Some s, isChannelSubscriber) =>
          set_topic (put_user t uid (with_deleted
            (with_isChan (with_modes (user t uid) s.(s_ModeWant) s.(s_ModeGiven)) isChannelSubscriber) false))
      end.

Definition refreshOfficialLargeMember (uid : Uid) : HM unit :=
  t <-- get_topic ;;
  if negb (isOfficialLargeGroup t) then ret tt
  else if match t.(officialMemberRefreshed) !! uid with
          | Some refreshedAt => now - refreshedAt <? officialModerationCacheTTL
          | None => false
          end then ret tt
  else
    sub <-- fetch (subs_get t.(t_name) uid false) ;;
    match sub with
    | None =>
        let t := match t.(perUser) !! uid with
                 | Some pud => put_user t uid (with_deleted (with_modes pud ModeNone ModeNone) true)
                 | None => t
                 end in
        set_topic (set_refreshed t (<[uid := now]> t.(officialMemberRefreshed))) ;;;
        fail (StoreErr ErrPermissionDenied)
    | Some s =>
        let online := (user t uid).(online) in
        let t := cacheSubscriber t s in
        let t := put_user t uid (with_online (user t uid) online) in
        set_topic (set_refreshed t (<[uid := now]> t.(officialMemberRefreshed)))
    end.

Definition loadOfficialModeration (uid : Uid) : HM (option officialModerationState) :=
  t <-- get_topic ;;
  let keep state := set_topic (set_moderation t (<[uid := (state, now)]> t.(moderationCache))) ;;; ret state in
  let load :=
    raw <-- call (cache_get (officialModerationKey t.(t_name) uid)) ;;
    match raw with
    | inr e => if bool_decide (e = StoreErr ErrNotFound) then keep None else fail e
    | inl raw => match moderation_parse raw with
                 | None => fail (TextErr "json: cannot unmarshal")
                 | Some state => keep (Some state)
                 end
    end in
  match t.(moderationCache) !! uid with
  | Some (state, loadedAt) => if now - loadedAt <? officialModerationCacheTTL then ret state else load
  | None => load
  end.

Definition joins_and_writes (p : perUserData) : bool :=
  let mode := p.(modeWant) &. p.(modeGiven) in IsJoiner mode && IsWriter mode.

Definition checkOfficialPublish (uid : Uid) (scope : string) : HM unit :=
  t <-- get_topic ;;
  let denied := fail (StoreErr ErrPermissionDenied) in
  if isOfficialReadOnlyChannel t then
    refreshOfficialChannelMember uid ;;;
    t <-- get_topic ;;
    if (user t uid).(pud_isChan) || negb (joins_and_writes (user t uid)) then denied else ret tt
  else if negb (isOfficialLargeGroup t) then ret tt
  else
    must (refreshOfficialPolicy now) ;;;
    t <-- get_topic ;;
    if negb (verified t) then denied
    else
      refreshOfficialLargeMember uid ;;;
      t <-- get_topic ;;
      match t.(perUser) !! uid with
      | None => denied
      | Some pud =>
          let mode := pud.(modeWant) &. pud.(modeGiven) in
          if pud.(pud_isChan) then denied
          else if negb (joins_and_writes pud) then denied
          else if match t.(official) with Some p => p.(AllMuted) | None => false end && negb (IsOwner mode) && negb (IsAdmin mode)
          then denied
          else
            state <-- loadOfficialModeration uid ;;
            if moderationApplies state scope now then denied else ret tt
      end.

End Official.

Section Publishing.
Context {St : Type} `{Store : PubStore St}.
Context (now : Z) (health : option bool) (cluster : option Cluster).
(** globals.businessPolicy is set; globals.agora is, with its channelName; globals.usersUpdate is. *)
Context (businessPolicy : bool) (agora : option (string -> Z -> string)).
(** RFC 3339 texts, the JSON of a moderation record, crypto/sha256 and the packages [Drafty] uses. *)
Context (time_text : Z -> string) (time_parse : string -> option Z) (moderation_parse : string -> option officialModerationState).
Context (sha256 : string -> string) (clusters : string -> list string) (sortSlice : list span -> list span) (nfkc : string -> string).
(** Sessions: a full queue, the topics a session has joined, the session store, unregisterSession. *)
Context (queue_full : string -> bool) (joined : string -> string -> bool) (sessionStore : string -> option Session).
Context (unregisterSession : Session -> M (St := St) unit).

Abbreviation HM A := (M (St := St) A) (only parsing).

(** *** The business policy *)

Definition authorizeBusinessAction (actor : Uid) (action : string) : HM unit :=
  t <-- get_topic ;;
  if negb businessPolicy then ret tt
  else match t.(t_cat) with
       | TopicCatP2P =>
           other <-- lift_option "Not a valid P2P topic" (p2pOtherUser t actor) ;;
           checked (authorize_uids actor other action t.(t_name))
       | TopicCatGrp =>
           if String.eqb action "document" || String.eqb action "call"
           then checked (authorize_uids actor actor action t.(t_name)) else ret tt
       | _ => ret tt
       end.

(** archiveForCompliance, with the answer to the client. *)
Definition archiveForCompliance (msg : ClientComMessage) (asUid : Uid) (m : Message) : HM unit :=
  t <-- get_topic ;;
  if negb (cat_eqb t.(t_cat) TopicCatP2P) || negb businessPolicy then ret tt
  else
    other <-- lift_option "Not a valid P2P topic" (p2pOtherUser t asUid) ;;
    err <-- call (archive_text m other) ;;
    match err with Some e => refuse msg asUid Ctrl.ErrServiceUnavailable e | None => ret tt end.

(** *** Fanning out *)

(** Whether [broadcastToSessions] passes a session over. *)
Definition passed_over (t : Topic) (msg : ServerComMessage) (s : Session) (pssd : perSessionData) : bool :=
  if negb (isMultiplex s) then
    String.eqb (sid s) msg.(s_SkipSid) ||
    match msg.(s_Payload) with
    | Pres p =>
        (negb (String.eqb p.(pr_SkipTopic) "") && joined (sid s) p.(pr_SkipTopic)) ||
        (negb (String.eqb p.(pr_SingleUser) "") && negb (String.eqb (UserId pssd.(ps_uid)) p.(pr_SingleUser))) ||
        (negb (String.eqb p.(pr_ExcludeUser) "") && String.eqb (UserId pssd.(ps_uid)) p.(pr_ExcludeUser)) ||
        negb (passesPresenceFilters t p.(pr_What) p.(pr_FilterIn) p.(pr_FilterOut) pssd.(ps_uid))
    | Info i =>
        (String.eqb i.(i_Src) "" && (pssd.(isChanSub) || negb (userIsReader t pssd.(ps_uid)))) ||
        (negb (String.eqb i.(i_SkipTopic) "") && joined (sid s) i.(i_SkipTopic)) ||
        (String.eqb i.(i_What) "kp" && String.eqb i.(i_From) (UserId pssd.(ps_uid)))
    | Data _ => negb (userIsReader t pssd.(ps_uid)) && negb pssd.(isChanSub)
    end
  else
    pssd.(isChanSub) && IsChannel (sid s) &&
    match sessionStore (ChnToGrp (sid s)) with
    | Some grpSess => isMultiplex grpSess && bool_decide (is_Some (t.(t_sessions) !! sid grpSess))
    | None => false
    end.

Definition with_payload (msg : ServerComMessage) (p : Payload) : ServerComMessage := mkServerMsg p msg.(s_RcptTo) msg.(s_SkipSid).

(** The copy for one session; [variants] are the copies the sessions of a group share, for members and for
    channel readers. *)
Definition copy_for (t : Topic) (msg : ServerComMessage) (s : Session) (pssd : perSessionData)
    (variants : option ServerComMessage * option ServerComMessage)
    : option (ServerComMessage * (option ServerComMessage * option ServerComMessage)) :=
  let fresh := with_payload msg <$> prepareBroadcastableMessage t msg.(s_Payload) pssd.(ps_uid) pssd.(isChanSub) in
  if cat_eqb t.(t_cat) TopicCatGrp && negb (bool_decide (is_Some (multi s))) && negb (isMultiplex s) then
    match (if pssd.(isChanSub) then snd variants else fst variants) with
    | Some m => Some (m, variants)
    | None => (fun m => (m, if pssd.(isChanSub) then (fst variants, Some m) else (Some m, snd variants))) <$> fresh
    end
  else (fun m => (m, variants)) <$> fresh.

(** The loop over the sessions; the result is the sessions to drop. *)
Fixpoint broadcast_loop (t : Topic) (msg : ServerComMessage) (ss : list (string * (Session * perSessionData)))
    (variants : option ServerComMessage * option ServerComMessage) : HM (list Session) :=
  match ss with
  | [] => ret []
  | (_, (s, pssd)) :: ss' =>
      if passed_over t msg s pssd then broadcast_loop t msg ss' variants
      else
        c <-- lift_option "Invalid P2P topic" (copy_for t msg s pssd variants) ;;
        (if queue_full (sid s) then ret tt else emit (SendTo (sid s) (fst c))) ;;;
        dropped <-- broadcast_loop t msg ss' (snd c) ;;
        ret (if queue_full (sid s) then s :: dropped else dropped)
  end.

Fixpoint for_sessions (f : Session -> HM unit) (ss : list Session) : HM unit :=
  match ss with [] => ret tt | s :: ss' => f s ;;; for_sessions f ss' end.

Definition broadcastToSessions (msg : ServerComMessage) : HM unit :=
  t <-- get_topic ;;
  dropSessions <-- broadcast_loop t msg (map_to_list t.(t_sessions)) (None, None) ;;
  for_sessions unregisterSession dropSessions.

Definition skip_sid (msg : ClientComMessage) (noEcho : bool) : string :=
  match msg.(c_sess) with Some s => if noEcho then sid s else "" | None => "" end.

(** *** Saving *)

(** [messagesMapper.Save]: the stored message and whether the sender's read position moved. *)
Definition Messages_Save (m : Message) (attachments : list string) (readBySender : bool) : HM (Message * bool) :=
  let created := if m.(m_CreatedAt) =? 0 then now else m.(m_CreatedAt) in
  id <-- call (store_uid) ;;
  text <-- lift_out (SearchText clusters sortSlice nfkc m.(m_Content)) ;;
  match text with
  | None => fail (TextErr "content unrecognized")
  | Some text =>
      let m := InitClientKey sha256
                 (mkMessage m.(m_SeqId) m.(m_Topic) m.(m_From) m.(m_ClientId) m.(m_ClientKey) m.(m_ClusterId) m.(m_ClusterEpoch)
                    m.(m_ClusterOwner) created created m.(m_DeletedAt) m.(m_DelId) m.(m_Head) m.(m_Content) text) in
      checked (message_save_atomic id m) ;;;
      let fromUid := ParseUid m.(m_From) in
      marked <-- (if readBySender && negb (IsZeroUid fromUid) then
                    err <-- call (subs_update m.(m_Topic) fromUid
                                    (mkUpdate None None None None (Some m.(m_SeqId)) (Some m.(m_SeqId)) None)) ;;
                    ret (match err with Some _ => false | None => true end)
                  else ret false) ;;
      (match attachments with
       | [] => ret tt
       | _ => _ <-- call (link_attachments m.(m_Topic) id attachments) ;; ret tt
       end) ;;;
      ret (m, marked)
  end.

(** [messagesMapper.Update] *)
Definition Messages_Update (m : Message) : HM unit :=
  text <-- lift_out (SearchText clusters sortSlice nfkc m.(m_Content)) ;;
  match text with
  | None => fail (TextErr "content unrecognized")
  | Some text =>
      checked (message_update
        (mkMessage m.(m_SeqId) m.(m_Topic) m.(m_From) m.(m_ClientId) m.(m_ClientKey) m.(m_ClusterId) m.(m_ClusterEpoch)
           m.(m_ClusterOwner) m.(m_CreatedAt) (if m.(m_UpdatedAt) =? 0 then now else m.(m_UpdatedAt)) m.(m_DeletedAt) m.(m_DelId)
           m.(m_Head) m.(m_Content) text))
  end.

Definition from_stored (topic from : string) (m : Message) : HM MsgServerData :=
  d <-- lift_out (serverDataFromStored time_parse clusters sortSlice topic from m) ;;
  match d with Some d => ret d | None => fail (TextErr "content unrecognized") end.

(** *** saveAndBroadcastMessage, in the order of the code *)

Definition duplicate_params (m : Message) : list (string * Any) :=
  [("seq", AInt m.(m_SeqId)); ("cid", AStr m.(m_ClientId)); ("duplicate", ABool true)].

(** ackDuplicate, after archiving and before replayDuplicate. *)
Definition acknowledge_duplicate (msg : ClientComMessage) (asUid : Uid) (noEcho : bool) (existing : Message) : HM unit :=
  archiveForCompliance msg asUid existing ;;;
  when_asked msg (reply_as msg asUid (fun topic => Ctrl.NoErrDeliveredParams topic (duplicate_params existing))) ;;;
  t <-- get_topic ;;
  if negb (cat_eqb t.(t_cat) TopicCatP2P) || negb businessPolicy then ret tt
  else
    d <-- from_stored msg.(c_Original) msg.(c_AsUser) existing ;;
    broadcastToSessions (mkServerMsg (Data d) msg.(c_RcptTo) (skip_sid msg noEcho)).

(** Who may publish: the topic's permissions, the shop's policy, the official topic's rules, its slow mode. *)
Definition may_publish (msg : ClientComMessage) (asUid : Uid) (scope : string) : HM unit :=
  t <-- get_topic ;;
  let pud := user t asUid in
  when (negb (cat_eqb t.(t_cat) TopicCatSys) && (pud.(pud_isChan) || negb (IsWriter (pud.(modeWant) &. pud.(modeGiven)))))
    (refuse msg asUid Ctrl.ErrPermissionDenied (StoreErr ErrPermissionDenied)) ;;;
  when businessPolicy
    (r <-- attempt (authorizeBusinessAction asUid scope) ;;
     match r with
     | inl _ => ret tt
     | inr e =>
         refuse msg asUid
           (if bool_decide (e = errBusinessPolicyUnavailable) || bool_decide (e = errBusinessPolicyRateLimited)
            then Ctrl.ErrServiceUnavailable else Ctrl.ErrPermissionDenied) e
     end) ;;;
  r <-- attempt (checkOfficialPublish now moderation_parse asUid scope) ;;
  match r with inr e => refuse msg asUid Ctrl.ErrPermissionDenied e | inl _ => ret tt end ;;;
  t <-- get_topic ;;
  slow <-- call (run_cache now (enforceOfficialSlowMode time_text time_parse t asUid scope now)) ;;
  match slow with
  | (_, None) => ret tt
  | (retryAfter, Some e) =>
      refuse msg asUid
        (if bool_decide (e = errOfficialSlowMode) then (fun topic => Ctrl.ErrTooManyRequests topic retryAfter)
         else Ctrl.ErrServiceUnavailable) e
  end.

(** The "sender" header names the session's user when it sends for somebody else, and nobody else sets it. *)
Definition sender_head (msg : ClientComMessage) (asUid : Uid) (head : Head) : Head :=
  match msg.(c_sess) with
  | Some s => if negb (sess_uid s =? asUid)%N then head_set head "sender" (AStr (UserId (sess_uid s)))
              else (fun m => map_delete m "sender") <$> head
  | None => (fun m => map_delete m "sender") <$> head
  end.

(** Everything after the message has been stored.  [pud] is what was read before the checks. *)
Definition after_save (msg : ClientComMessage) (asUid : Uid) (noEcho : bool) (pud : option perUserData)
    (m : Message) (markedReadBySender : bool) : HM unit :=
  modify (fun t => set_lastID t (t.(lastID) + 1) msg.(c_Timestamp)) ;;;
  archiveForCompliance msg asUid m ;;;
  t <-- get_topic ;;
  match pud with
  | Some p => set_topic (put_user t asUid
                (mkPud p.(online) t.(lastID) t.(lastID) p.(readHistory) p.(delID) p.(private) p.(modeWant) p.(modeGiven)
                   p.(topicName) p.(deleted) p.(pud_isChan)))
  | None => ret tt
  end ;;;
  when_asked msg (reply_as msg asUid (fun topic => Ctrl.NoErrAccepted topic
    ([("seq", AInt t.(lastID))] ++ if String.eqb m.(m_ClientId) "" then [] else [("cid", AStr m.(m_ClientId))])%list)) ;;;
  d <-- from_stored msg.(c_Original) msg.(c_AsUser) m ;;
  emit (PresSubsOffline "msg" (mkPresParams "" msg.(c_AsUser) "" "" t.(lastID) 0 [] "")
          (mkFilters ModeRead 0 "" "") nilPresFilters "" true) ;;;
  emit (PluginMessage d plgActCreate) ;;;
  broadcastToSessions (mkServerMsg (Data d) msg.(c_RcptTo) (skip_sid msg noEcho)) ;;;
  t <-- get_topic ;;
  match pushForData t asUid d markedReadBySender with
  | Some r => emit_all (sendPush cluster r)
  | None => ret tt
  end.

Definition client_id (msg : ClientComMessage) : string :=
  match msg.(c_Pub) with Some pub => pub.(p_ClientId) | None => "" end.

(** The message [saveAndBroadcastMessage] builds. *)
Definition new_message (t : Topic) (msg : ClientComMessage) (asUid : Uid) (clientID : string) (token : string * Z * string)
    (head : Head) (content : Any) : Message :=
  let '(clusterID, clusterEpoch, clusterOwner) := token in
  mkMessage (t.(lastID) + 1) t.(t_name) (UidString asUid) clientID (MessageClientKey sha256 asUid clientID)
    clusterID clusterEpoch clusterOwner msg.(c_Timestamp) 0 None 0 head content "".

(** From the write token on. *)
Definition number_and_save (msg : ClientComMessage) (asUid : Uid) (noEcho : bool) (attachments : list string)
    (pud : option perUserData) (head : Head) (content : Any) : HM unit :=
  t <-- get_topic ;;
  let clientID := client_id msg in
  match writeFenceToken health cluster t.(t_name) with
  | (_, Some e) => refuse msg asUid Ctrl.ErrServiceUnavailable e
  | (token, None) =>
      let p := default pud0 pud in
      saved <-- attempt (Messages_Save (new_message t msg asUid clientID token head content) attachments
                           (IsReader (p.(modeGiven) &. p.(modeWant)))) ;;
      match saved with
      | inl (m, marked) => after_save msg asUid noEcho pud m marked
      | inr e =>
          again <-- (if String.eqb clientID "" then ret (inl None) else call (message_by_client t.(t_name) asUid clientID)) ;;
          match again with
          | inl (Some existing) => acknowledge_duplicate msg asUid noEcho existing
          | _ => refuse msg asUid
                   (if bool_decide (e = StoreErr ErrClusterFenced) then Ctrl.ErrServiceUnavailable else Ctrl.ErrUnknown) e
          end
      end
  end.

Definition saveAndBroadcastMessage (msg : ClientComMessage) (asUid : Uid) (noEcho : bool) (attachments : list string)
    (head : Head) (content : Any) : HM unit :=
  t <-- get_topic ;;
  let pud := t.(perUser) !! asUid in
  may_publish msg asUid (businessPolicyAction head content attachments) ;;;
  let head := sender_head msg asUid head in
  let clientID := client_id msg in
  t <-- get_topic ;;
  when (cat_eqb t.(t_cat) TopicCatP2P && businessPolicy && String.eqb clientID "")
    (refuse msg asUid Ctrl.ErrMalformed (StoreErr ErrMalformed)) ;;;
  if String.eqb clientID "" then number_and_save msg asUid noEcho attachments pud head content
  else
    existing <-- call (message_by_client t.(t_name) asUid clientID) ;;
    match existing with
    | inr e => refuse msg asUid Ctrl.ErrUnknown e
    | inl (Some existing) => acknowledge_duplicate msg asUid noEcho existing
    | inl None => number_and_save msg asUid noEcho attachments pud head content
    end.

(** *** Preparing a publication (message_features.go) *)

Definition readable (t : Topic) (uid : Uid) : bool :=
  cat_eqb t.(t_cat) TopicCatSys || IsReader ((user t uid).(modeWant) &. (user t uid).(modeGiven)).

(** [prepareForwardedPublication]; the source is topic and seq. *)
Definition prepareForwardedPublication (source : string * Z) (replyTo : Z) (asUid : Uid) : HM (Head * Any) :=
  t <-- get_topic ;;
  if (snd source <=? 0) || (0 <? replyTo) then fail (StoreErr ErrMalformed)
  else
    let sourceTopic := if String.eqb (fst source) "" then t.(t_name) else fst source in
    (if String.eqb sourceTopic t.(t_name) then
       when (negb (readable t asUid)) (fail (StoreErr ErrPermissionDenied))
     else
       sub <-- fetch (subs_get sourceTopic asUid false) ;;
       match sub with
       | Some s => when (negb (IsReader (s.(s_ModeWant) &. s.(s_ModeGiven)))) (fail (StoreErr ErrPermissionDenied))
       | None => fail (StoreErr ErrPermissionDenied)
       end) ;;;
    found <-- fetch (message_get sourceTopic (snd source)) ;;
    match found with
    | None => fail (StoreErr ErrNotFound)
    | Some (_, m) =>
        cat <-- lift_option "invalid topic name" (GetTopicCat sourceTopic) ;;
        let displayTopic := if cat_eqb cat TopicCatP2P then "" else sourceTopic in
        ret (head_set (stripServerMessageHead m.(m_Head)) headForwarded
               (encodeForward time_text (mkForward displayTopic m.(m_SeqId) (UserId (ParseUid m.(m_From))) m.(m_CreatedAt))),
             m.(m_Content))
    end.

Definition validateReplyTarget (replyTo : Z) (asUid : Uid) : HM unit :=
  t <-- get_topic ;;
  if replyTo <? 0 then fail (StoreErr ErrMalformed)
  else if replyTo =? 0 then ret tt
  else if negb (readable t asUid) then fail (StoreErr ErrPermissionDenied)
  else
    replied <-- fetch (message_get t.(t_name) replyTo) ;;
    match replied with None => fail (StoreErr ErrNotFound) | Some _ => ret tt end.

(** The loop of [prepareMessageGroup] from [seq] down; the number of positions is enough fuel. *)
Fixpoint count_group (fuel : nat) (groupID : string) (seq groupCount : Z) : HM Z :=
  match fuel with
  | O => ret groupCount
  | S fuel' =>
      if negb ((0 <? seq) && (groupCount <? 10)) then ret groupCount
      else
        t <-- get_topic ;;
        previous <-- fetch (message_get t.(t_name) seq) ;;
        match previous with
        | None => count_group fuel' groupID (seq - 1) groupCount
        | Some (_, m) =>
            if negb (String.eqb (head_string m.(m_Head) headGroupID) groupID) then ret groupCount
            else count_group fuel' groupID (seq - 1) (groupCount + 1)
        end
  end.

Definition prepareMessageGroup (clientGroupID kind : string) (asUid : Uid) : HM string :=
  if String.eqb clientGroupID "" then ret ""
  else if (64 <? Z.of_nat (String.length clientGroupID)) || negb (valid_utf8 clientGroupID) ||
          (negb (String.eqb kind "image") && negb (String.eqb kind "video")) then fail (StoreErr ErrMalformed)
  else
    t <-- get_topic ;;
    let groupID := MessageClientKey sha256 asUid clientGroupID in
    groupCount <-- count_group (Z.to_nat t.(lastID)) groupID t.(lastID) 0 ;;
    if 10 <=? groupCount then fail (StoreErr ErrPolicy) else ret groupID.

Definition prepareMessagePublication (pub : MsgClientPub) (extra : option (list string)) (asUid : Uid)
    : HM (Head * Any * list string) :=
  t <-- get_topic ;;
  if cat_eqb t.(t_cat) TopicCatGrp && (user t asUid).(pud_isChan) then fail (StoreErr ErrPermissionDenied)
  else
    prepared <-- match pub.(p_Forward) with
                 | Some source => prepareForwardedPublication source pub.(p_ReplyTo) asUid
                 | None => ret (stripServerMessageHead pub.(p_Head), pub.(p_Content))
                 end ;;
    let '(head, content) := prepared in
    info <-- lift_out (validateMessageContent clusters sortSlice pub.(p_Kind) content) ;;
    match info with
    | Some (Some info) =>
        let head := head_set head headMessageKind (AStr info.(Kind)) in
        checked (assets_validate info.(Kind) info.(AssetIDs)) ;;;
        validateReplyTarget pub.(p_ReplyTo) asUid ;;;
        let head := if 0 <? pub.(p_ReplyTo) then head_set head headReplyTo (AInt pub.(p_ReplyTo)) else head in
        groupID <-- prepareMessageGroup pub.(p_GroupId) info.(Kind) asUid ;;
        let head := if String.eqb groupID "" then head else head_set head headGroupID (AStr groupID) in
        match verifiedAttachmentURLs info.(Attachments) extra with
        | inr e => fail e
        | inl attachments =>
            checked (attachments_validate asUid attachments) ;;;
            ret (head, content, attachments)
        end
    | _ => fail (StoreErr ErrMalformed)
    end.

(** *** message_edit.go *)

(** The header of an edited message. *)
Definition edited_head (old pub : Head) (kind : string) : Head :=
  let base := default [] (cloneHead old) in
  let merged := fold_left (fun h kv => map_set h (fst kv) (snd kv)) (default [] (stripServerMessageHead pub)) base in
  Some (map_set merged headMessageKind (AStr kind)).

Definition has_attachments (content : Any) : HM bool :=
  info <-- lift_out (Analyze clusters sortSlice content) ;;
  ret match info with Some info => match info.(Attachments) with [] => false | _ => true end | None => false end.

Definition editMessage (msg : ClientComMessage) (pub : MsgClientPub) (asUid : Uid) : HM unit :=
  if (pub.(p_ReplaceSeq) <=? 0) || match pub.(p_Forward) with Some _ => true | None => false end ||
     negb (pub.(p_ReplyTo) =? 0) || negb (String.eqb pub.(p_GroupId) "") ||
     match pub.(p_ScheduleAt) with Some _ => true | None => false end then fail (StoreErr ErrMalformed)
  else
    t <-- get_topic ;;
    found <-- fetch (message_get t.(t_name) pub.(p_ReplaceSeq)) ;;
    match found with
    | None => fail (StoreErr ErrNotFound)
    | Some (id, target) =>
        let userData := user t asUid in
        let mode := userData.(modeGiven) &. userData.(modeWant) in
        when (userData.(pud_isChan) ||
              (negb (IsAdmin mode) && (negb (ParseUid target.(m_From) =? asUid)%N || negb (IsWriter mode))))
          (fail (StoreErr ErrPermissionDenied)) ;;;
        checkOfficialPublish now moderation_parse asUid "message" ;;;
        info <-- lift_out (validateMessageContent clusters sortSlice pub.(p_Kind) pub.(p_Content)) ;;
        match info with
        | Some (Some info) =>
            match verifiedAttachmentURLs info.(Attachments) msg.(c_Extra) with
            | inr e => fail e
            | inl attachments =>
                hadAttachmentRefs <-- has_attachments target.(m_Content) ;;
                let head := edited_head target.(m_Head) pub.(p_Head) info.(Kind) in
                r <-- attempt (authorizeBusinessAction asUid (businessPolicyAction head pub.(p_Content) attachments)) ;;
                match r with inr _ => fail (StoreErr ErrPolicy) | inl _ => ret tt end ;;;
                let target := mkMessage target.(m_SeqId) target.(m_Topic) target.(m_From) target.(m_ClientId) target.(m_ClientKey)
                                target.(m_ClusterId) target.(m_ClusterEpoch) target.(m_ClusterOwner) target.(m_CreatedAt) now
                                target.(m_DeletedAt) target.(m_DelId) (head_set head headEditedAt (AStr (time_text now)))
                                pub.(p_Content) target.(m_SearchText) in
                Messages_Update target ;;;
                t <-- get_topic ;;
                (if cat_eqb t.(t_cat) TopicCatP2P && businessPolicy then
                   other <-- lift_option "Not a valid P2P topic" (p2pOtherUser t asUid) ;;
                   _ <-- call (archive_text target other) ;; ret tt
                 else ret tt) ;;;
                (if match attachments with [] => hadAttachmentRefs | _ => true end
                 then _ <-- call (link_attachments "" id attachments) ;; ret tt else ret tt) ;;;
                when_asked msg (reply msg (Ctrl.NoErrParams msg.(c_Original)
                  [("seq", AInt pub.(p_ReplaceSeq)); ("edited", AInt now)])) ;;;
                d <-- from_stored msg.(c_Original) (UserId (ParseUid target.(m_From))) target ;;
                broadcastToSessions (mkServerMsg (Data d) msg.(c_RcptTo) (skip_sid msg pub.(p_NoEcho)))
            end
        | _ => fail (StoreErr ErrMalformed)
        end
    end.

(** *** message_schedule.go *)

Definition scheduled_params (x : ScheduledMessage) : list (string * Any) :=
  [("scheduled", AStr x.(sm_Id)); ("schedule", AInt x.(sm_PublishAt)); ("cid", AStr x.(sm_ClientId))].

Definition scheduleMessage (msg : ClientComMessage) (pub : MsgClientPub) (asUid : Uid) (head : Head) (content : Any)
    (attachments : list string) : HM unit :=
  match pub.(p_ScheduleAt) with
  | None => fail (StoreErr ErrMalformed)
  | Some publishAt =>
      if (publishAt <=? msg.(c_Timestamp)) || (msg.(c_Timestamp) + maxScheduleAhead <? publishAt) then fail (StoreErr ErrMalformed)
      else if String.eqb pub.(p_ClientId) "" then fail (StoreErr ErrMalformed)
      else
        t <-- get_topic ;;
        let userData := user t asUid in
        when (negb (cat_eqb t.(t_cat) TopicCatSys) &&
              (userData.(pud_isChan) || negb (IsWriter (userData.(modeWant) &. userData.(modeGiven)))))
          (fail (StoreErr ErrPermissionDenied)) ;;;
        let scope := businessPolicyAction head content attachments in
        r <-- attempt (authorizeBusinessAction asUid scope) ;;
        match r with inr _ => fail (StoreErr ErrPolicy) | inl _ => ret tt end ;;;
        checkOfficialPublish msg.(c_Timestamp) moderation_parse asUid scope ;;;
        delivered <-- fetch (message_by_client t.(t_name) asUid pub.(p_ClientId)) ;;
        match delivered with
        | Some m => when_asked msg (reply_as msg asUid (fun topic => Ctrl.NoErrDeliveredParams topic (duplicate_params m)))
        | None =>
            pending <-- fetch (scheduled_by_client t.(t_name) asUid pub.(p_ClientId)) ;;
            match pending with
            | Some x => when_asked msg (reply_as msg asUid (fun topic => Ctrl.NoErrAccepted topic
                          (scheduled_params x ++ [("duplicate", ABool true)])%list))
            | None =>
                x <-- fetch (message_schedule (mkScheduled "" t.(t_name) (UidString asUid) pub.(p_ClientId) pub.(p_NoEcho)
                                                 publishAt head content attachments msg.(c_Timestamp))) ;;
                when_asked msg (reply_as msg asUid (fun topic => Ctrl.NoErrAccepted topic (scheduled_params x)))
            end
        end
  end.

(** *** handlePubBroadcast *)

Definition removeScheduled (msg : ClientComMessage) : HM unit :=
  match msg.(c_scheduled) with
  | None => ret tt
  | Some x => t <-- get_topic ;; _ <-- call (delete_scheduled x.(sm_Id) t.(t_name) (ParseUserId msg.(c_AsUser))) ;; ret tt
  end.

(** [msg.sess.queueOut(decodeStoreErrorExplicitTs(...))] if there is a session; the name is the user's or [topic]. *)
Definition report (msg : ClientComMessage) (asUid : Uid) (what : string) (e : GoError) : HM unit :=
  match msg.(c_sess) with
  | None => ret tt
  | Some s =>
      t <-- get_topic ;;
      name <-- lift_option "Invalid P2P topic" (original t asUid) ;;
      c <-- lift_option "interface conversion" (decodeStoreError (Some e) name [("what", AStr what)]) ;;
      queueOut s (CtrlReply c)
  end.

Definition handleCallInvite (channelName : string -> Z -> string) (s : Session) (pub : MsgClientPub) (asUid : Uid) : HM unit :=
  modify (fun t => set_call t (Some (mkCall {[ sid s := mkParty asUid true (Some s) None ]} t.(lastID) pub.(p_Content)
    (head_get pub.(p_Head) "mime") None constCallProviderAgora (channelName t.(t_name) t.(lastID)) asUid (Some s)))) ;;;
  emit (CallTimer true).

(** The checks of a call invite: the reply that turns it down. *)
Definition call_refused (asUid : Uid) : HM (option (string -> MsgServerCtrl)) :=
  t <-- get_topic ;;
  match t.(perUser) !! asUid with
  | None => ret (Some Ctrl.ErrPermissionDenied)
  | Some u =>
      if u.(pud_isChan) || negb (IsWriter (u.(modeGiven) &. u.(modeWant))) then ret (Some Ctrl.ErrPermissionDenied)
      else if negb (cat_eqb t.(t_cat) TopicCatP2P) && negb (cat_eqb t.(t_cat) TopicCatGrp) then ret (Some Ctrl.ErrPermissionDenied)
      else match agora with
           | None => ret (Some Ctrl.ErrNotImplemented)
           | Some _ =>
               if match t.(currentCall) with Some _ => true | None => false end then ret (Some Ctrl.ErrCallBusy)
               else
                 r <-- attempt (checkOfficialPublish now moderation_parse asUid "call") ;;
                 ret (match r with inr _ => Some Ctrl.ErrPermissionDenied | inl _ => None end)
           end
  end.

(** The header, content and attachments to publish; [None] when the request has been answered. *)
Definition prepare (msg : ClientComMessage) (pub : MsgClientPub) (asUid : Uid) (isCall : bool) : HM (option (Head * Any * list string)) :=
  match msg.(c_scheduled) with
  | Some x => ret (Some (x.(sm_Head), x.(sm_Content), x.(sm_AttachmentURLs)))
  | None =>
      if isCall then
        ret (Some (head_set (stripServerMessageHead pub.(p_Head)) "call-provider" (AStr constCallProviderAgora),
                   pub.(p_Content), default [] msg.(c_Extra)))
      else
        r <-- attempt (prepareMessagePublication pub msg.(c_Extra) asUid) ;;
        match r with inl x => ret (Some x) | inr e => report msg asUid "pub" e ;;; ret None end
  end.

(** The errors after which a scheduled message is not tried again. *)
Definition hopeless (e : GoError) : bool :=
  existsb (fun x => bool_decide (e = StoreErr x))
    [ErrPermissionDenied; ErrMalformed; ErrPolicy; ErrNotFound; ErrTopicNotFound; ErrUserNotFound].

Definition deliver (msg : ClientComMessage) (pub : MsgClientPub) (asUid : Uid) (isCall : bool) (head : Head) (content : Any)
    (attachments : list string) : HM unit :=
  r <-- attempt (saveAndBroadcastMessage msg asUid pub.(p_NoEcho) attachments head content) ;;
  match r with
  | inr e => when (hopeless e) (removeScheduled msg)
  | inl _ =>
      t <-- get_topic ;;
      match msg.(c_scheduled) with
      | Some _ => removeScheduled msg ;;; when (bool_decide (t.(t_sessions) = ∅)) (emit ResetKillTimer)
      | None => ret tt
      end ;;;
      match isCall, agora, msg.(c_sess) with
      | true, Some channelName, Some s => handleCallInvite channelName s pub asUid
      | true, _, _ => panic "nil pointer dereference"
      | false, _, _ => ret tt
      end
  end.

Definition handlePubBroadcast (msg : ClientComMessage) (pub : MsgClientPub) : HM unit :=
  let asUid := ParseUserId msg.(c_AsUser) in
  t <-- get_topic ;;
  if isInactive t then reply_as msg asUid Ctrl.ErrLocked ;;; when (isDeleted t) (removeScheduled msg)
  else if isReadOnly t then reply_as msg asUid Ctrl.ErrPermissionDenied ;;; removeScheduled msg
  else
    r <-- attempt (refreshOfficialChannelMember now asUid) ;;
    match r with
    | inr _ => reply_as msg asUid Ctrl.ErrPermissionDenied ;;; removeScheduled msg
    | inl _ =>
        let isCall := negb (is_nil (head_get pub.(p_Head) "webrtc")) in
        refused <-- (if isCall then call_refused asUid else ret None) ;;
        match refused with
        | Some c => reply msg (c msg.(c_Original))
        | None =>
            if 0 <? pub.(p_ReplaceSeq) then
              r <-- attempt (editMessage msg pub asUid) ;;
              match r with inr e => report msg asUid "edit" e | inl _ => ret tt end
            else
              prepared <-- prepare msg pub asUid isCall ;;
              match prepared with
              | None => ret tt
              | Some (head, content, attachments) =>
                  if match msg.(c_scheduled), pub.(p_ScheduleAt) with
                     | None, Some at_ => msg.(c_Timestamp) + minScheduleDelay <? at_
                     | _, _ => false
                     end
                  then
                    r <-- attempt (scheduleMessage msg pub asUid head content attachments) ;;
                    match r with inr e => report msg asUid "schedule" e | inl _ => ret tt end
                  else deliver msg pub asUid isCall head content attachments
              end
        end
    end.
End Publishing.
