(* ===== verification/Presence.v ===== *)
(** * Presence: who is told what about whom (internal/server/pres.go, topic_pres.go)

    A user's own topic ('me') keeps for each contact whether notifications are enabled and whether the contact is online;
    topics ask and answer with {pres} messages through the hub.  The first part has the notifications that the handlers of the
    other files ask for, as the messages they put on the hub; the second the exchange, [procPresReq], on one topic; the
    third all topics of a node and the messages on their way, as the transition system [pstep], in which messages may be
    delivered in any order, delayed or lost. *)

From Stdlib Require Import NArith ZArith Lia List Ascii String Bool Permutation.
From stdpp Require Import base tactics numbers list strings gmap.
From S2P Require Import Prelude AccessMode Uid StoreTypes Messages Utils SendQueue SubStore Topic Publish.
Import Objects.

#[local] Open Scope string_scope.
#[local] Open Scope N_scope.

(** ** Notifications *)

Definition packAcs (p : presParams) : option (string * string) :=
  if negb (String.eqb p.(pp_dWant) "") || negb (String.eqb p.(pp_dGiven) "") then Some (p.(pp_dWant), p.(pp_dGiven)) else None.

(** A name that is left out when it is the receiver's own. *)
Definition unless (self name : string) : string := if String.eqb name self then "" else name.

Definition userIsPresencer (t : Topic) (uid : Uid) : bool :=
  if IsZeroUid uid then IsPresencer (t.(modeWantUnion) &. t.(modeGivenUnion))
  else
    let pud := user t uid in
    if pud.(deleted) then false else IsPresencer (pud.(modeWant) &. pud.(modeGiven)).

Definition presOfflineFilter (mode : AccessMode) (what : string) (pf : option presFilters) : bool :=
  if String.eqb what "acs" || String.eqb what "gone" then true
  else if String.eqb what "upd" && IsJoiner mode then true
  else IsPresencer mode &&
       match pf with
       | None => true
       | Some pf => ((pf.(filterIn) =? ModeNone) || negb (mode &. pf.(filterIn) =? 0)) &&
                    ((pf.(filterOut) =? ModeNone) || (mode &. pf.(filterOut) =? 0))
       end.

Definition presSubsOnline (t : Topic) (what src : string) (params : presParams) (filter : presFilters) (skipSid : string)
    : ServerComMessage :=
  mkServerMsg
    (Pres (mkPres t.(xoriginal) src what "" params.(pp_seqID) params.(pp_delID) params.(pp_delSeq)
             (unless src params.(pp_target)) (unless src params.(pp_actor)) (packAcs params) false
             filter.(filterIn) filter.(filterOut) "" filter.(singleUser) filter.(excludeUser)))
    t.(t_name) skipSid.

(** The message for one subscriber; [None] is the panic of [original]. *)
Definition offline_message (t : Topic) (uid : Uid) (what : string) (params : presParams) (ftgt : presFilters) (skipTopic skipSid : string)
    : option ServerComMessage :=
  src ← original t uid;
  let user := UserId uid in
  Some (mkServerMsg
    (Pres (mkPres "me" src what "" params.(pp_seqID) params.(pp_delID) [] (unless user params.(pp_target)) (unless user params.(pp_actor))
             (packAcs params) false ftgt.(filterIn) ftgt.(filterOut) skipTopic ftgt.(singleUser) ftgt.(excludeUser)))
    user skipSid).

Fixpoint collect {A B} (f : A -> option (list B)) (l : list A) : option (list B) :=
  match l with
  | [] => Some []
  | a :: l' => x ← f a; rest ← collect f l'; Some (x ++ rest)%list
  end.

Definition presSubsOffline (t : Topic) (what : string) (params : presParams) (fsrc ftgt : presFilters) (skipSid : string)
    (offlineOnly : bool) : option (list ServerComMessage) :=
  collect (fun kv =>
    let pud := snd kv in
    if pud.(deleted) || negb (presOfflineFilter (pud.(modeGiven) &. pud.(modeWant)) what (Some fsrc)) then Some []
    else (fun m => [m]) <$> offline_message t (fst kv) what params ftgt (if offlineOnly then t.(t_name) else "") skipSid)
    (map_to_list t.(perUser)).

Definition infoSubsOffline (t : Topic) (from : Uid) (what : string) (seq : Z) (skipSid : string) : option (list ServerComMessage) :=
  collect (fun kv =>
    let pud := snd kv in
    let mode := pud.(modeGiven) &. pud.(modeWant) in
    if pud.(deleted) || negb (IsPresencer mode) || negb (IsReader mode) then Some []
    else
      src ← original t (fst kv);
      Some [mkServerMsg (Info (mkInfoMsg "me" src (UserId from) what seq "" ANil "" false t.(t_name))) (UserId (fst kv)) skipSid])
    (map_to_list t.(perUser)).

(** The loop of [presSubsOfflineOffline]; [count] counts the subscribers of a p2p topic that pass the filter, [original] stays
    from one turn to the next.  [None] is an index out of range. *)
Fixpoint offline_offline_loop (topic : string) (p2p : bool) (all : list Subscription) (what : string) (params : presParams) (skipSid : string)
    (count : nat) (original : string) (subs : list Subscription) : option (list ServerComMessage) :=
  match subs with
  | [] => Some []
  | sub :: subs' =>
      if negb (presOfflineFilter (sub.(s_ModeWant) &. sub.(s_ModeGiven)) what None)
      then offline_offline_loop topic p2p all what params skipSid count original subs'
      else
        original ← (if p2p then (fun s => UserId (ParseUid s.(s_User))) <$> all !! ((count + 1) mod 2)%nat else Some original);
        let count := if p2p then S count else count in
        let user := UserId (ParseUid sub.(s_User)) in
        rest ← offline_offline_loop topic p2p all what params skipSid count original subs';
        Some (mkServerMsg
                (Pres (mkPres "me" original what "" params.(pp_seqID) params.(pp_delID) [] (unless user params.(pp_target))
                         (unless user params.(pp_actor)) (packAcs params) false 0 0 "" "" "")) user skipSid :: rest)
  end.

Definition presSubsOfflineOffline (topic : string) (cat : TopicCat) (subs : list Subscription) (what : string) (params : presParams)
    (skipSid : string) : option (list ServerComMessage) :=
  offline_offline_loop topic (cat_eqb cat TopicCatP2P) subs what params skipSid 0 topic subs.

Definition presSingleUserOffline (t : Topic) (uid : Uid) (mode : AccessMode) (what : string) (params : presParams) (skipSid : string)
    (offlineOnly : bool) : option (list ServerComMessage) :=
  if negb (mode =? ModeInvalid) && presOfflineFilter mode what None then
    let user := UserId uid in
    src ← original t uid;
    Some [mkServerMsg
      (Pres (mkPres "me" src what params.(pp_userAgent) params.(pp_seqID) params.(pp_delID) [] (unless user params.(pp_target))
               (unless user params.(pp_actor)) (packAcs params) (HasPrefix what "?unkn") 0 0
               (if offlineOnly then t.(t_name) else "") "" "")) user skipSid]
  else Some [].

Definition presSingleUserOfflineOffline (uid : Uid) (original what : string) (params : presParams) (skipSid : string) : ServerComMessage :=
  let user := UserId uid in
  mkServerMsg
    (Pres (mkPres "me" original what "" params.(pp_seqID) params.(pp_delID) [] (unless user params.(pp_target))
             (unless user params.(pp_actor)) (packAcs params) false 0 0 "" "" "")) user skipSid.

(** Case V: messages deleted for one user.  [None] is the panic of [original]. *)
Definition presPubMessageDelete (t : Topic) (uid : Uid) (mode : AccessMode) (delID : Z) (list_ : list (Z * Z)) (skip : string)
    : option (list ServerComMessage) :=
  if (match list_ with [] => true | _ => false end) && (delID <=? 0)%Z then Some []
  else if negb (userIsPresencer t uid) then Some []
  else
    let params := mkPresParams "" "" "" "" 0 delID list_ "" in
    let user := UserId uid in
    rest ← presSingleUserOffline t uid mode "del" params skip true;
    Some (presSubsOnline t "del" user params (mkFilters 0 0 user "") skip :: rest).

(** [notifyOnOrSkip]: [None] is the panic of [GetTopicCat]. *)
Definition notifyOnOrSkip (topic what : string) (online : bool) : option string :=
  if IsChannel topic then Some ""
  else if String.eqb what "upd" || String.eqb what "ua" then
    if negb online then Some ""
    else cat ← GetTopicCat topic; Some (if cat_eqb cat TopicCatGrp then topic else "me")
  else Some "me".

(** The parts of [what]: before the first plus sign, and the second part if there is one. *)
Definition presParts (what : string) : string * option string :=
  match Split "+" what with
  | [] => ("", None)
  | [a] => (a, None)
  | a :: b :: _ => (a, Some b)
  end.

(** [presUsersOfInterest]: the contacts afterwards and the messages. *)
Fixpoint interest_loop (name what ua : string) (wantReply goOffline : bool) (contacts : list (string * perSubsData))
    (subs : gmap string perSubsData) : option (gmap string perSubsData * list ServerComMessage) :=
  match contacts with
  | [] => Some (subs, [])
  | (topic, psd) :: contacts' =>
      notifyOn ← notifyOnOrSkip topic what psd.(ps_online);
      if String.eqb notifyOn "" then interest_loop name what ua wantReply goOffline contacts' subs
      else
        let subs := if psd.(ps_online) && goOffline then <[topic := mkPerSubs false psd.(ps_enabled)]> subs else subs in
        r ← interest_loop name what ua wantReply goOffline contacts' subs;
        Some (fst r, mkServerMsg (Pres (mkPres notifyOn name what ua 0 0 [] "" "" None wantReply 0 0 "" "" "")) topic "" :: snd r)
  end.

Definition presUsersOfInterest (t : Topic) (what ua : string) : option (Topic * list ServerComMessage) :=
  let '(head, cmd) := presParts what in
  let wantReply := String.eqb head "on" in
  let goOffline := match cmd with Some c => String.eqb c "dis" | None => false end in
  r ← interest_loop t.(t_name) what ua wantReply goOffline (map_to_list t.(perSubs)) t.(perSubs);
  Some (set_perSubs t (fst r), snd r).

Definition presUsersOfInterestOffline (uid : Uid) (subs : list Subscription) (what : string) : option (list ServerComMessage) :=
  collect (fun s =>
    notifyOn ← notifyOnOrSkip s.(s_Topic) what true;
    Some (if String.eqb notifyOn "" then []
          else [mkServerMsg (Pres (mkPres notifyOn (UserId uid) what "" 0 0 [] "" "" None false 0 0 "" "" "")) s.(s_Topic) ""])) subs.

(** ** Notifications to sessions, past the topic's channel

    The same message is changed from session to session, while queues hold pointers to it. *)

Section Direct.
Context {PB : Type} (json_Marshal : ServerComMessage -> string) (pbServSerialize : ServerComMessage -> PB).
Context (proto_Size : PB -> Z) (batch_Size : list PB -> Z).

(** The outbound queues of sessions, by session id. *)
Abbreviation Queues := (gmap string Queue) (only parsing).
Abbreviation Cells := (list (Cell (Msg := ServerComMessage) (PB := PB))) (only parsing).

(** [s.queueOut(msg)] for the session with this queue. *)
Definition queue_to (s : string) (p : nat) (hq : Cells * Queues) : Cells * Queues :=
  let '(h, qs) := hq in
  match qs !! s with
  | None => (h, qs)
  | Some q => let '(h, (q, _)) := SendQueue.queueOut json_Marshal pbServSerialize proto_Size batch_Size q p h in (h, <[s := q]> qs)
  end.

Definition set_topic_name (name : string) (m : ServerComMessage) : ServerComMessage :=
  mkServerMsg (rename name m.(s_Payload)) m.(s_RcptTo) m.(s_SkipSid).
Definition set_src (src : string) (m : ServerComMessage) : ServerComMessage :=
  match m.(s_Payload) with
  | Pres r => mkServerMsg (Pres (mkPres r.(pr_Topic) src r.(pr_What) r.(pr_UserAgent) r.(pr_SeqId) r.(pr_DelId) r.(pr_DelSeq) r.(pr_AcsTarget)
                 r.(pr_AcsActor) r.(pr_Acs) r.(pr_WantReply) r.(pr_FilterIn) r.(pr_FilterOut) r.(pr_SkipTopic) r.(pr_SingleUser)
                 r.(pr_ExcludeUser))) m.(s_RcptTo) m.(s_SkipSid)
  | _ => m
  end.

(** [presTermDirect] *)
Fixpoint term_loop (s : string) (p : nat) (subs : list string) (hq : Cells * Queues) : Cells * Queues :=
  match subs with
  | [] => hq
  | topic :: subs' =>
      let '(h, qs) := hq in
      term_loop s p subs' (queue_to s p (assign h p (set_src topic), qs))
  end.

Definition term_message (src : string) : ServerComMessage :=
  mkServerMsg (Pres (mkPres "me" src "term" "" 0 0 [] "" "" None false 0 0 "" "" "")) "" "".

Definition presTermDirect (s : string) (subs : list string) (hq : Cells * Queues) : Cells * Queues :=
  let '(h, p) := alloc (fst hq) (term_message "") in
  term_loop s p subs (h, snd hq).

(** Whether [presSubsOnlineDirect] passes a session of a client over; [singleUser] and [excludeUser] are those of the filter. *)
Definition direct_passed_over (t : Topic) (what : string) (filter : presFilters) (skipSid : string) (s : Session) (pssd : perSessionData) : bool :=
  String.eqb skipSid (sid s) ||
  (let pud := user t pssd.(ps_uid) in
   pud.(deleted) || negb (presOfflineFilter (pud.(modeGiven) &. pud.(modeWant)) what (Some filter))) ||
  (negb (String.eqb filter.(singleUser) "") && negb (String.eqb filter.(singleUser) (UserId pssd.(ps_uid)))) ||
  (negb (String.eqb filter.(excludeUser) "") && String.eqb filter.(excludeUser) (UserId pssd.(ps_uid))).

Fixpoint direct_loop (t : Topic) (what : string) (filter : presFilters) (skipSid : string) (p : nat)
    (ss : list (string * (Session * perSessionData))) (hq : Cells * Queues) : option (Cells * Queues) :=
  match ss with
  | [] => Some hq
  | (_, (s, pssd)) :: ss' =>
      let '(h, qs) := hq in
      if isMultiplex s then direct_loop t what filter skipSid p ss' (queue_to (sid s) p (h, qs))
      else if direct_passed_over t what filter skipSid s pssd then direct_loop t what filter skipSid p ss' (h, qs)
      else
        c ← h !! p;
        payload ← prepareBroadcastableMessage t c.(cell_msg).(s_Payload) pssd.(ps_uid) pssd.(isChanSub);
        let h := assign h p (fun m => mkServerMsg payload m.(s_RcptTo) m.(s_SkipSid)) in
        direct_loop t what filter skipSid p ss' (queue_to (sid s) p (h, qs))
  end.

Definition direct_message (t : Topic) (what : string) (params : presParams) : ServerComMessage :=
  mkServerMsg (Pres (mkPres t.(xoriginal) "" what "" params.(pp_seqID) params.(pp_delID) params.(pp_delSeq) "" "" (packAcs params)
                       false 0 0 "" "" "")) "" "".

(** [None] is the panic of [original]. *)
Definition presSubsOnlineDirect (t : Topic) (what : string) (params : presParams) (filter : presFilters) (skipSid : string)
    (hq : Cells * Queues) : option (Cells * Queues) :=
  let '(h, p) := alloc (fst hq) (direct_message t what params) in
  direct_loop t what filter skipSid p (map_to_list t.(t_sessions)) (h, snd hq).
End Direct.

(** ** The exchange *)

Definition addToPerSubs (t : Topic) (topic : string) (online enabled : bool) : Topic :=
  if String.eqb topic t.(t_name) then t
  else if IsChannel topic then t
  else
    let topic := match ParseP2P topic with
                 | ((uid1, uid2), None) => if String.eqb (UserId uid1) t.(t_name) then UserId uid2 else UserId uid1
                 | _ => topic
                 end in
    set_perSubs t (<[topic := mkPerSubs online enabled]> t.(perSubs)).

(** [loadContacts]; what [store.Users.GetSubs] gave is an argument. *)
Definition loadContacts (t : Topic) (subs : list Subscription + GoError) : Topic * option GoError :=
  match subs with
  | inr e => (t, Some e)
  | inl subs =>
      (fold_left (fun t s => addToPerSubs t s.(s_Topic) false (IsPresencer (s.(s_ModeGiven) &. s.(s_ModeWant)))) subs t, None)
  end.

(** What a notification says: its text without the command, the state it reports (none if unknown), the command, and whether
    it asks for an answer. *)
Record Request := mkRequest { rq_what : string; rq_online : option bool; rq_cmd : string; rq_reply : bool }.

(** The left: a notification that the exchange is not about. *)
Definition parse_request (what : string) : string + Request :=
  let '(what, c) := presParts what in
  let cmd := default "" c in
  if String.eqb what "on" then inr (mkRequest what (Some true) cmd false)
  else if String.eqb what "off" then inr (mkRequest what (Some false) cmd false)
  else if String.eqb what "?none" then inr (mkRequest "" None cmd false)
  else if String.eqb what "gone" then inr (mkRequest what (Some false) "rem" false)
  else if String.eqb what "?unkn" then inr (mkRequest "" None cmd true)
  else inl what.

(** [*online] where it is not nil. *)
Definition same_state (psd : perSubsData) (online : option bool) : bool :=
  match online with None => true | Some b => Bool.eqb psd.(ps_online) b end.

(** A known contact: its entry afterwards (none if removed), what the client is told, what the asker is answered.  [None] is the
    panic on an unknown command. *)
Definition known_contact (psd : perSubsData) (rq : Request) : option (option perSubsData * string * string) :=
  if String.eqb rq.(rq_cmd) "rem" then
    Some (None, if negb psd.(ps_enabled) && String.eqb rq.(rq_what) "off" then "" else rq.(rq_what), "off+rem")
  else
    r ← (if String.eqb rq.(rq_cmd) "" then
           Some (psd.(ps_enabled), if negb psd.(ps_enabled) || same_state psd rq.(rq_online) then "" else rq.(rq_what))
         else if String.eqb rq.(rq_cmd) "en" then
           Some (true, if psd.(ps_enabled) && same_state psd rq.(rq_online) then "" else rq.(rq_what))
         else if String.eqb rq.(rq_cmd) "dis" then
           Some (false, if psd.(ps_enabled) && psd.(ps_online) then rq.(rq_what) else "")
         else None);
    let '(enabled, what) := r in
    let online := if negb enabled then false else default psd.(ps_online) rq.(rq_online) in
    Some (Some (mkPerSubs online enabled), what, "on").

Definition onlineUpdate (rq : Request) : bool := match rq.(rq_online) with Some b => b | None => false end.

Definition answer_to (t : Topic) (fromUserID replyAs : string) (wantReply : bool) : ServerComMessage :=
  mkServerMsg (Pres (mkPres "me" t.(t_name) replyAs "" 0 0 [] "" "" None wantReply 0 0 "" "" "")) fromUserID "".

(** [None] is the panic; otherwise the topic, what the sessions are told, and the messages for the hub. *)
Definition procPresReq (t : Topic) (fromUserID what : string) (wantReply : bool) : option (Topic * string * list ServerComMessage) :=
  if isInactive t then Some (t, "", [])
  else if t.(t_isProxy) then Some (t, what, [])
  else
    match parse_request what with
    | inl what => Some (t, what, [])
    | inr rq =>
        r ← (if cat_eqb t.(t_cat) TopicCatMe then
               match t.(perSubs) !! fromUserID with
               | Some psd =>
                   k ← known_contact psd rq;
                   let '(entry, what, replyAs) := k in
                   Some (set_perSubs t (match entry with Some p => <[fromUserID := p]> t.(perSubs) | None => delete fromUserID t.(perSubs) end),
                         what, replyAs)
               | None =>
                   if negb (String.eqb rq.(rq_cmd) "rem") then
                     let en := String.eqb rq.(rq_cmd) "en" in
                     Some (addToPerSubs t fromUserID (onlineUpdate rq) en, if en then rq.(rq_what) else "", "on")
                   else Some (t, "", "on")
               end
             else Some (t, rq.(rq_what), "on"));
        let '(t', what, replyAs) := r in
        Some (t', what, if (onlineUpdate rq || rq.(rq_reply)) && wantReply then [answer_to t fromUserID replyAs rq.(rq_reply)] else [])
    end.

(** [handlePresence] up to the fan-out: the notification for the sessions, if there is one. *)
Definition handlePresence (t : Topic) (m : ServerComMessage) : option (Topic * list ServerComMessage * option ServerComMessage) :=
  match m.(s_Payload) with
  | Pres r =>
      k ← procPresReq t r.(pr_Src) r.(pr_What) r.(pr_WantReply);
      let '(t', what, out) := k in
      Some (t', out,
        if negb (String.eqb t.(xoriginal) r.(pr_Topic)) || String.eqb what "" then None
        else Some (mkServerMsg (Pres (mkPres r.(pr_Topic) r.(pr_Src) what r.(pr_UserAgent) r.(pr_SeqId) r.(pr_DelId) r.(pr_DelSeq) r.(pr_AcsTarget)
                     r.(pr_AcsActor) r.(pr_Acs) r.(pr_WantReply) r.(pr_FilterIn) r.(pr_FilterOut) r.(pr_SkipTopic) r.(pr_SingleUser)
                     r.(pr_ExcludeUser))) m.(s_RcptTo) m.(s_SkipSid)))
  | _ => Some (t, [], None)
  end.

(** ** A node: its topics and the messages on their way

    The hub gives a message to the topic it is for if that is loaded; queues may be full. *)

Record Node := mkNode { n_topics : gmap string Topic; n_flight : list ServerComMessage }.

Inductive hub_route : Node -> Node -> Prop :=
| d_topic topics l1 m l2 t t' out note :
    topics !! m.(s_RcptTo) = Some t -> handlePresence t m = Some (t', out, note) ->
    hub_route (mkNode topics (l1 ++ m :: l2)) (mkNode (<[m.(s_RcptTo) := t']> topics) (out ++ l1 ++ l2))
| d_unknown topics l1 m l2 : topics !! m.(s_RcptTo) = None -> hub_route (mkNode topics (l1 ++ m :: l2)) (mkNode topics (l1 ++ l2)).

Inductive pstep : Node -> Node -> Prop :=
| p_deliver a b : hub_route a b -> pstep a b
| p_lose topics l1 m l2 : pstep (mkNode topics (l1 ++ m :: l2)) (mkNode topics (l1 ++ l2)).

(** How many answers a message can still cause, itself included. *)
Definition weight (m : ServerComMessage) : nat :=
  match m.(s_Payload) with
  | Pres r => if r.(pr_WantReply) then (if String.eqb (fst (presParts r.(pr_What))) "?unkn" then 3 else 2)%nat else 1%nat
  | _ => 1%nat
  end.
Definition traffic (n : Node) : nat := list_sum (map weight n.(n_flight)).
