(* ===== verification/Notes.v ===== *)
(** * Notes: read receipts, typing, reactions and pins

    handleNoteBroadcast of internal/server/topic_msg.go and
    internal/server/message_interactions.go, with presPubMessageCount of pres.go.  The handlers run
    over the same store and use the same parameters as [Publish]; the call events are an argument. *)

From Stdlib Require Import NArith ZArith Lia List Ascii String Bool.
From stdpp Require Import base tactics numbers list strings gmap sets.
From S2P Require Import Prelude AccessMode Uid StoreTypes Cluster Drafty Messages SubStore PubStore Topic TopicSub Publish.
Import Objects.
Import Topic.

#[local] Open Scope string_scope.
#[local] Open Scope Z_scope.

Definition messageReadersRetention : Z := 7 * 24 * 3600 * second.

(** The positions of a subscriber after a receipt; the history only for groups that are no channels. *)
Definition with_positions (p : perUserData) (recv read : Z) (history : list ReadHistory.ReadCheckpoint) : perUserData :=
  mkPud p.(online) recv read history p.(delID) p.(private) p.(modeWant) p.(modeGiven) p.(topicName) p.(deleted) p.(pud_isChan).

Section Notes.
Context {St : Type} `{Store : PubStore St}.
Context (now : Z) (cluster : option Cluster).
Context (moderation_parse : string -> option officialModerationState) (clusters : string -> list string)
  (sortSlice : list span -> list span) (nfkc : string -> string).
Context (queue_full : string -> bool) (joined : string -> string -> bool) (sessionStore : string -> option Session).
Context (unregisterSession : Session -> M (St := St) unit) (handleCallEvent : ClientComMessage -> M (St := St) unit).

Abbreviation HM A := (M (St := St) A) (only parsing).
Abbreviation broadcast := (broadcastToSessions queue_full joined sessionStore unregisterSession) (only parsing).

Definition sid_of (msg : ClientComMessage) : string := match msg.(c_sess) with Some s => sid s | None => "" end.

(** ** message_interactions.go *)

Definition broadcastMessageInfo (msg : ClientComMessage) (note : MsgClientNote) (what : string) : HM unit :=
  broadcast (mkServerMsg (Info (mkInfoMsg msg.(c_Original) "" msg.(c_AsUser) what note.(n_SeqId) "" ANil note.(n_Reaction)
    note.(n_Remove) "")) msg.(c_RcptTo) (sid_of msg)).

Definition reactToMessage (msg : ClientComMessage) (note : MsgClientNote) (asUid : Uid) : HM unit :=
  let reaction := TrimSpace note.(n_Reaction) in
  if (note.(n_SeqId) <=? 0) || String.eqb reaction "" || (maxReactionLength <? Z.of_nat (String.length reaction)) ||
     negb (valid_utf8 reaction) then fail (StoreErr ErrMalformed)
  else
    t <-- get_topic ;;
    found <-- fetch (message_get t.(t_name) note.(n_SeqId)) ;;
    match found with
    | None => fail (StoreErr ErrNotFound)
    | Some (_, target) =>
        match change_reaction (messageReactions target.(m_Head)) reaction (UserId asUid) note.(n_Remove) with
        | inr e => fail e
        | inl (reactions, changed) =>
            when changed
              (Messages_Update now clusters sortSlice nfkc
                 (mkMessage target.(m_SeqId) target.(m_Topic) target.(m_From) target.(m_ClientId) target.(m_ClientKey)
                    target.(m_ClusterId) target.(m_ClusterEpoch) target.(m_ClusterOwner) target.(m_CreatedAt) now
                    target.(m_DeletedAt) target.(m_DelId) (head_set target.(m_Head) headReactions (encodeReactions reactions))
                    target.(m_Content) target.(m_SearchText))) ;;;
            when_asked msg (reply msg (Ctrl.NoErrParams msg.(c_Original)
              [("what", AStr "react"); ("seq", AInt note.(n_SeqId)); ("reaction", AStr reaction); ("duplicate", ABool (negb changed))])) ;;;
            when changed (broadcastMessageInfo msg note "react")
        end
    end.

Definition pinMessage (msg : ClientComMessage) (note : MsgClientNote) (asUid : Uid) : HM unit :=
  t <-- get_topic ;;
  let userData := user t asUid in
  let mode := userData.(modeGiven) &. userData.(modeWant) in
  if userData.(pud_isChan) || (negb (IsAdmin mode) && negb (cat_eqb t.(t_cat) TopicCatP2P)) then fail (StoreErr ErrPermissionDenied)
  else if note.(n_SeqId) <=? 0 then fail (StoreErr ErrMalformed)
  else
    found <-- fetch (message_get t.(t_name) note.(n_SeqId)) ;;
    match found with
    | None => fail (StoreErr ErrNotFound)
    | Some _ =>
        let '(pins, changed) := change_pins (topicPins t.(aux)) note.(n_SeqId) note.(n_Remove) in
        when changed
          (let aux := head_set t.(aux) topicPinsKey (AList (map AInt pins)) in
           checked (update_aux t.(t_name) aux now) ;;;
           modify (fun t => set_aux t aux)) ;;;
        when_asked msg (reply msg (Ctrl.NoErrParams msg.(c_Original)
          [("what", AStr "pin"); ("seq", AInt note.(n_SeqId)); ("remove", ABool note.(n_Remove)); ("duplicate", ABool (negb changed))])) ;;;
        when changed (broadcastMessageInfo msg note "pin")
    end.

(** ** Receipts *)

(** What a receipt changes: the new positions, the change of the unread count and the position to report.
    [None]: it is not news. *)
Record Receipted := mkReceipted { re_pud : perUserData; re_read : Z; re_recv : Z; re_unread : Z; re_seq : Z }.

Definition receive_note (t : Topic) (asChan : bool) (pud : perUserData) (what : string) (seqId : Z) : option Receipted :=
  if String.eqb what "read" then
    if seqId <=? pud.(readID) then None
    else
      let history := if cat_eqb t.(t_cat) TopicCatGrp && negb t.(t_isChan) && negb asChan
                     then ReadHistory.Append pud.(readHistory) (pud.(readID) + 1) seqId now (now - messageReadersRetention)
                     else pud.(readHistory) in
      let recv := if pud.(recvID) <? seqId then seqId else pud.(recvID) in
      Some (mkReceipted (with_positions pud recv seqId history) seqId 0 (pud.(readID) - seqId) seqId)
  else if String.eqb what "recv" then
    if seqId <=? pud.(recvID) then None
    else
      let recv := if seqId <? pud.(readID) then pud.(readID) else seqId in
      Some (mkReceipted (with_positions pud recv pud.(readID) pud.(readHistory)) 0 recv 0 recv)
  else Some (mkReceipted pud 0 0 0 0).

Definition presPubMessageCount (uid : Uid) (mode : AccessMode) (read recv : Z) (skip : string) : HM unit :=
  let '(what, seq) := if 0 <? read then ("read", read) else if 0 <? recv then ("recv", recv) else ("", 0) in
  when (negb (String.eqb what ""))
    (emit (PresSingleUserOffline uid mode what (mkPresParams "" "" "" "" seq 0 [] "") skip true)).

(** [usersUpdateUnread] with [inc]. *)
Definition usersUpdateUnread (uid : Uid) (val : Z) : HM unit := when (negb (val =? 0)) (emit (UsersUpdateUnread uid val)).

(** The store's row and the notifications of a receipt with a position. *)
Definition record_receipt (msg : ClientComMessage) (note : MsgClientNote) (asUid : Uid) (asChan : bool) (mode : AccessMode)
    (r : Receipted) : HM bool :=
  t <-- get_topic ;;
  let keeps := cat_eqb t.(t_cat) TopicCatGrp && negb t.(t_isChan) && negb asChan in
  err <-- call (subs_update (if asChan then note.(n_Topic) else t.(t_name)) asUid
            (mkUpdate None None None None (if 0 <? r.(re_read) then Some r.(re_read) else None)
               (if 0 <? r.(re_recv) then Some r.(re_recv) else None)
               (if (0 <? r.(re_read)) && keeps then Some r.(re_pud).(readHistory) else None))) ;;
  match err with
  | Some _ => when_asked msg (reply msg (Ctrl.ErrUnknown msg.(c_Original))) ;;; ret false
  | None =>
      presPubMessageCount asUid mode r.(re_read) r.(re_recv) (sid_of msg) ;;;
      when (0 <? r.(re_read)) (emit_all (sendPush cluster (pushForReadRcpt t asUid r.(re_read) msg.(c_Timestamp)))) ;;;
      when (negb asChan) (usersUpdateUnread asUid r.(re_unread)) ;;;
      when_asked msg (reply msg (Ctrl.NoErrParams msg.(c_Original) [("what", AStr note.(n_What)); ("seq", AInt r.(re_seq))])) ;;;
      ret true
  end.

(** From the switch on the kind: receipts and typing.  [pud] and [mode] were read before. *)
Definition receipt (msg : ClientComMessage) (note : MsgClientNote) (asUid : Uid) (asChan : bool) (pud : perUserData)
    (mode : AccessMode) : HM unit :=
  t <-- get_topic ;;
  match receive_note t asChan pud note.(n_What) note.(n_SeqId) with
  | None =>
      let at_ := if String.eqb note.(n_What) "read" then pud.(readID) else pud.(recvID) in
      when_asked msg (reply msg (Ctrl.NoErrDeliveredParams msg.(c_Original)
        [("what", AStr note.(n_What)); ("seq", AInt at_); ("duplicate", ABool true)]))
  | Some r =>
      done_ <-- (if 0 <? r.(re_seq) then record_receipt msg note asUid asChan mode r else ret true) ;;
      if negb done_ || asChan then ret tt
      else
        when (0 <? r.(re_seq)) (modify (fun t => put_user t asUid r.(re_pud))) ;;;
        emit (InfoSubsOffline asUid note.(n_What) r.(re_seq) (sid_of msg)) ;;;
        broadcast (mkServerMsg (Info (mkInfoMsg msg.(c_Original) "" msg.(c_AsUser) note.(n_What) note.(n_SeqId) "" ANil "" false ""))
          msg.(c_RcptTo) (sid_of msg))
  end.

Definition typing : list string := ["kp"; "kpa"; "kpv"].

(** [if msg.Id != "" { msg.sess.queueOut(...) }] *)
Definition answer (msg : ClientComMessage) (c : string -> MsgServerCtrl) : HM unit := when_asked msg (reply msg (c msg.(c_Original))).

Definition report_what (msg : ClientComMessage) (what : string) (e : GoError) : HM unit :=
  when_asked msg
    (c <-- lift_option "interface conversion" (decodeStoreError (Some e) msg.(c_Original) [("what", AStr what)]) ;;
     reply msg c).

(** "react" on an official topic: the member and the policy are read again. *)
Definition reactions_allowed (asUid : Uid) : HM bool :=
  t <-- get_topic ;;
  if negb (isOfficialTopic t) then ret true
  else
    r <-- attempt (refreshOfficialChannelMember now asUid) ;;
    match r with
    | inr _ => ret false
    | inl _ =>
        e <-- refreshOfficialPolicy now ;;
        t <-- get_topic ;;
        ret (match e, t.(official) with None, Some p => p.(ReactionsEnabled) | _, _ => false end)
    end.

Definition handleNoteBroadcast (msg : ClientComMessage) (note : MsgClientNote) : HM unit :=
  t <-- get_topic ;;
  if isInactive t then answer msg Ctrl.ErrLocked
  else if t.(lastID) <? note.(n_SeqId) then answer msg Ctrl.ErrMalformed
  else
    match verifyChannelAccess t msg.(c_Original) with
    | (_, Some _) => answer msg Ctrl.ErrNotFound
    | (asChan, None) =>
        let asUid := ParseUserId msg.(c_AsUser) in
        let what := note.(n_What) in
        ok <-- (if String.eqb what "pin" then attempt (refreshOfficialChannelMember now asUid) else ret (inl tt)) ;;
        match ok with
        | inr _ => answer msg Ctrl.ErrPermissionDenied
        | inl _ =>
            t <-- get_topic ;;
            let pud := user t asUid in
            let mode := if pud.(deleted) then ModeInvalid else pud.(modeGiven) &. pud.(modeWant) in
            if contains typing what then
              r <-- attempt (checkOfficialPublish now moderation_parse asUid "message") ;;
              match r with
              | inr _ => ret tt
              | inl _ =>
                  t <-- get_topic ;;
                  let pud := user t asUid in
                  let mode := pud.(modeGiven) &. pud.(modeWant) in
                  if asChan || pud.(pud_isChan) || negb (IsWriter mode) || isReadOnly t then ret tt
                  else receipt msg note asUid asChan pud mode
              end
            else if String.eqb what "read" || String.eqb what "recv" then
              if negb (IsReader mode) then answer msg Ctrl.ErrPermissionDenied
              else receipt msg note asUid asChan pud mode
            else if String.eqb what "react" then
              allowed <-- reactions_allowed asUid ;;
              if negb allowed || negb (IsReader mode) then answer msg Ctrl.ErrPermissionDenied
              else
                r <-- attempt (reactToMessage msg note asUid) ;;
                match r with inr e => report_what msg "react" e | inl _ => ret tt end
            else if String.eqb what "pin" then
              if negb (IsReader mode) then answer msg Ctrl.ErrPermissionDenied
              else
                r <-- attempt (pinMessage msg note asUid) ;;
                match r with inr e => report_what msg "pin" e | inl _ => ret tt end
            else if String.eqb what "call" then handleCallEvent msg
            else receipt msg note asUid asChan pud mode
        end
    end.
End Notes.
