(* ===== verification/MetaHistory.v ===== *)
(** * MetaHistory: reading and deleting what a topic has

    {get data}, {get del} and {del} of a topic: replyGetData (internal/server/topic_meta_data.go), replyGetDel,
    replyDelMsg, replyDelSub and replyDelTopic (topic_meta_delete.go), replyDelScheduled and handleMetaDel
    (topic_meta.go).  The handlers run over the class [DelStore] of [History]; deleting a credential is an argument. *)

From Stdlib Require Import NArith ZArith Lia List Ascii String Bool.
From stdpp Require Import base tactics numbers list strings gmap sets.
From S2P Require Import Prelude AccessMode Uid StoreTypes Drafty Messages SubStore Utils PubStore History Topic TopicSub Publish Presence Notes.
Import Objects Ranges.
Import Topic.

#[local] Open Scope string_scope.
#[local] Open Scope Z_scope.

(** ** datamodel.go *)

Record MsgGetOpts := mkGetOpts {
  g_User : string; g_Topic : string; g_IfModifiedSince : option Z; g_SinceId : Z; g_BeforeId : Z; g_Limit : Z;
  g_IdRanges : list (Z * Z); g_Forward : bool }.

(** [MsgClientDel] without the credential; [del_What] as [MetaWhat] has it. *)
Inductive DelWhat := DelTopic | DelMsg | DelSubscription | DelCred | DelScheduled | DelOther.
Record MsgClientDel := mkClientDel {
  del_What : DelWhat; del_DelSeq : list (Z * Z); del_User : string; del_Hard : bool; del_ScheduledId : string }.

Definition with_before (o : MsgGetOpts) (before : Z) : MsgGetOpts :=
  mkGetOpts o.(g_User) o.(g_Topic) o.(g_IfModifiedSince) o.(g_SinceId) before o.(g_Limit) o.(g_IdRanges) o.(g_Forward).

(** [msgOpts2storeOpts]: the fields the history queries read. *)
Definition msgOpts2storeOpts (req : option MsgGetOpts) : option QueryOpt :=
  (fun o => mkOpt o.(g_IfModifiedSince) o.(g_SinceId) o.(g_BeforeId) o.(g_Limit) o.(g_Forward)
              (map (fun r => mkRange (fst r) (snd r)) o.(g_IdRanges))) <$> req.

Definition forward (req : option MsgGetOpts) : bool := match req with Some o => o.(g_Forward) | None => false end.

(** The bound of a forward query and the query itself. *)
Definition snapshot (high : Z) (req : option MsgGetOpts) : Z * option MsgGetOpts :=
  match req with
  | Some o =>
      if o.(g_Forward) then
        let high := if (0 <? o.(g_BeforeId)) && (o.(g_BeforeId) - 1 <? high) then o.(g_BeforeId) - 1 else high in
        (high, Some (if (o.(g_BeforeId) =? 0) || (high + 1 <? o.(g_BeforeId)) then with_before o (high + 1) else o))
      else (high, req)
  | None => (high, req)
  end.

Definition since_id (req : option MsgGetOpts) : Z := match req with Some o => o.(g_SinceId) | None => 0 end.

(** Where an empty page leaves the client. *)
Definition past_end (high since : Z) : Z := if high <? since - 1 then since - 1 else high.

(** ** Deletion requests *)

Definition defaultMaxDeleteCount : Z := 1024.

(** One entry of DelSeq, with the upper end as the code rewrites it.  [None] is malformed. *)
Definition del_entry (lastID : Z) (dq : Z * Z) : option Range :=
  let '(low, hi) := dq in
  if (lastID <? low) || (low <? 0) || (hi <? 0) || ((0 <? hi) && (hi <? low)) || ((low =? 0) && (hi =? 0)) then None
  else Some (mkRange low (if lastID <? hi then lastID + 1 else if (low =? hi) || (low + 1 =? hi) then 0 else hi)).

(** The loop: the ranges and the number of messages so far. *)
Fixpoint del_entries (lastID : Z) (count : Z) (ranges : list Range) (seq : list (Z * Z)) : option (Z * list Range) :=
  match seq with
  | [] => Some (count, ranges)
  | dq :: seq' =>
      r ← del_entry lastID dq;
      del_entries lastID (count + (if r.(Hi) =? 0 then 1 else r.(Hi) - r.(Low))) (ranges ++ [r])%list seq'
  end.

(** The ranges a request names, or that it is malformed. *)
Definition delete_ranges (lastID : Z) (seq : list (Z * Z)) : option (list Range) :=
  match seq with
  | [] => None
  | _ =>
      r ← del_entries lastID 0 [] seq;
      let ranges := Normalize (sort_ranges (snd r)) in
      if (defaultMaxDeleteCount <? fst r) && (1 <? List.length ranges)%nat then None else Some ranges
  end.

Definition with_delID (p : perUserData) (id : Z) : perUserData :=
  mkPud p.(online) p.(recvID) p.(readID) p.(readHistory) id p.(private) p.(modeWant) p.(modeGiven) p.(topicName) p.(deleted) p.(pud_isChan).

Section Handlers.
Context {St : Type} `{Store : DelStore St}.
Context (now : Z) (time_parse : string -> option Z) (moderation_parse : string -> option officialModerationState)
  (clusters : string -> list string) (sortSlice : list span -> list span).
(** Sessions whose queue refuses a batch; [globals.msgDeleteAge]. *)
Context (queue_full : string -> bool) (msgDeleteAge : Z).

Abbreviation HM A := (M (St := St) A) (only parsing).

Definition ctrl (sess : Session) (c : MsgServerCtrl) : HM unit := queueOut sess (CtrlReply c).
Definition ctrl_err {A} (sess : Session) (c : MsgServerCtrl) (e : GoError) : HM A := ctrl sess c ;;; fail e.

(** ** {get data} *)

(** The {data} messages of a page. *)
Fixpoint data_messages (toriginal : string) (asChan : bool) (ms : list Message) : HM (list ServerComMessage) :=
  match ms with
  | [] => ret []
  | m :: ms' =>
      d <-- from_stored time_parse clusters sortSlice toriginal (if asChan then "" else UserId (ParseUid m.(m_From))) m ;;
      rest <-- data_messages toriginal asChan ms' ;;
      ret (mkServerMsg (Data d) "" "" :: rest)
  end.

(** The latest modification of a page; no time is later than none. *)
Definition latest_update (ms : list Message) : option Z :=
  fold_left (fun modified m =>
    if (m.(m_UpdatedAt) =? 0) || match modified with Some t => m.(m_UpdatedAt) <=? t | None => false end
    then modified else Some m.(m_UpdatedAt)) ms None.

(** The cursor after a page of a forward query. *)
Definition page_cursor (high since : Z) (ms : list Message) : Z :=
  match List.rev ms with m :: _ => m.(m_SeqId) | [] => past_end high since end.

Definition data_params (req : option MsgGetOpts) (high : Z) (ms : list Message) : list (string * Any) :=
  let count := Z.of_nat (List.length ms) in
  ([("what", AStr "data"); ("count", AInt count)] ++
   match latest_update ms with
   | Some t =>
       ("modified", AInt t) ::
       match req with
       | Some (mkGetOpts _ _ (Some _) _ _ limit _ _) => [("hasMoreModified", ABool ((0 <? limit) && (limit <=? count)))]
       | _ => []
       end
   | None => []
   end ++
   if forward req then
     let cursor := page_cursor high (since_id req) ms in
     [("low", AInt (since_id req)); ("high", AInt high); ("cursor", AInt cursor); ("hasMore", ABool (cursor <? high))]
   else [])%list.

Definition replyGetData (sess : Session) (asUid : Uid) (asChan : bool) (req : option MsgGetOpts) (orig : string) : HM unit :=
  t <-- get_topic ;;
  toriginal <-- lift_option "Invalid P2P topic" (original t asUid) ;;
  if match req with Some o => negb (String.eqb o.(g_User) "") || negb (String.eqb o.(g_Topic) "") | None => false end
  then ctrl_err sess (Ctrl.ErrMalformed orig) (TextErr "invalid MsgGetOpts query")
  else
    let '(high, queryReq) := snapshot t.(lastID) req in
    let p := user t asUid in
    if negb (IsReader (p.(modeGiven) &. p.(modeWant)))
    then ctrl_err sess (Ctrl.ErrPermissionDenied orig) (TextErr "attempt to get messages by non-reader")
    else
      r <-- call (get_all t.(t_name) asUid (msgOpts2storeOpts queryReq)) ;;
      match r with
      | inr e => ctrl_err sess (Ctrl.ErrUnknown orig) e
      | inl None => panic "strings: negative Repeat count"
      | inl (Some messages) =>
          let params := data_params req high messages in
          match messages with
          | [] => ctrl sess (Ctrl.NoContentParams orig params)
          | _ =>
              outgoing <-- data_messages toriginal asChan messages ;;
              if queue_full (sid sess) then ctrl_err sess (Ctrl.ErrServiceUnavailable orig) (TextErr "session send queue is full")
              else
                emit (SendBatch (sid sess) outgoing) ;;;
                ctrl sess (Ctrl.NoErrDeliveredParams orig params)
          end
      end.

(** ** {get del} *)

Definition del_params (req : option MsgGetOpts) (high : Z) (ranges : list Range) (delID : Z) : list (string * Any) :=
  let cursor := match ranges with [] => past_end high (since_id req) | _ => delID end in
  [("what", AStr "del"); ("count", AInt (Z.of_nat (List.length ranges))); ("low", AInt (since_id req)); ("high", AInt high);
   ("cursor", AInt cursor); ("hasMore", ABool (cursor <? high))].

Definition replyGetDel (sess : Session) (asUid : Uid) (req : option MsgGetOpts) (orig : string) : HM unit :=
  t <-- get_topic ;;
  toriginal <-- lift_option "Invalid P2P topic" (original t asUid) ;;
  if match req with
     | Some o => match o.(g_IfModifiedSince) with Some _ => true | None => false end || negb (String.eqb o.(g_User) "") || negb (String.eqb o.(g_Topic) "")
     | None => false
     end
  then ctrl_err sess (Ctrl.ErrMalformed orig) (TextErr "invalid MsgGetOpts query")
  else
    let p := user t asUid in
    if negb (IsReader (p.(modeGiven) &. p.(modeWant)))
    then ctrl_err sess (Ctrl.ErrPermissionDenied orig) (TextErr "attempt to get deletions by non-reader")
    else
      let '(high, queryReq) := snapshot (Z.max t.(t_delID) p.(delID)) req in
      r <-- call (get_deleted t.(t_name) asUid (msgOpts2storeOpts queryReq)) ;;
      match r with
      | inr e => ctrl_err sess (Ctrl.ErrUnknown orig) e
      | inl (ranges, delID) =>
          when (match ranges with [] => false | _ => true end) (queueOut sess (MetaDelReply toriginal delID (Slices.rangeDeserialize ranges))) ;;;
          match ranges with
          | [] =>
              ctrl sess (Ctrl.NoContentParams toriginal (if forward req then del_params req high ranges delID else [("what", AStr "del")]))
          | _ => when (forward req) (ctrl sess (Ctrl.NoErrDeliveredParams toriginal (del_params req high ranges delID)))
          end
      end.

(** ** {del msg} *)

(** The messages a member without the permission to delete names are theirs. *)
Fixpoint check_own (sess : Session) (orig : string) (asUid : Uid) (seqs : list Z) : HM unit :=
  match seqs with
  | [] => ret tt
  | seq :: seqs' =>
      t <-- get_topic ;;
      r <-- call (message_get t.(t_name) seq) ;;
      match r with
      | inr e => ctrl_err sess (Ctrl.ErrUnknown orig) e
      | inl (Some (_, stored)) =>
          if (ParseUid stored.(m_From) =? asUid)%N then check_own sess orig asUid seqs'
          else ctrl_err sess (Ctrl.ErrPermissionDenied orig) (TextErr "del.msg: cannot hard-delete another sender's message")
      | inl None => check_own sess orig asUid seqs'
      end
  end.

Definition positions (ranges : list Range) : list Z := flat_map (fun r => seqZ r.(Low) (upper r - r.(Low))) ranges.

(** Deleted messages do not stay pinned. *)
Definition unpin_deleted (sess : Session) (ranges : list Range) : HM unit :=
  t <-- get_topic ;;
  let pins := topicPins t.(aux) in
  let kept := List.filter (fun pin => negb (covered ranges pin)) pins in
  when (negb (List.length kept =? List.length pins)%nat)
    (let aux := head_set t.(aux) topicPinsKey (AList (map AInt kept)) in
     err <-- call (update_aux t.(t_name) aux now) ;;
     match err with
     | Some _ => ret tt
     | None =>
         modify (fun t => set_aux t aux) ;;;
         emit (PresSubsOnline "aux" "" nilPresParams nilPresFilters (sid sess))
     end).

(** The loop over the subscribers after a hard deletion. *)
Fixpoint mark_all (ranges : list Range) (users : list (Uid * perUserData)) : HM unit :=
  match users with
  | [] => ret tt
  | (uid, pud) :: users' =>
      t <-- get_topic ;;
      set_topic (put_user t uid (with_delID pud t.(t_delID))) ;;;
      when (IsReader (pud.(modeGiven) &. pud.(modeWant)))
        (let unreadDeleted := calculateUnreadInRanges pud.(readID) t.(lastID) ranges in
         when (0 <? unreadDeleted) (usersUpdateUnread uid (- unreadDeleted))) ;;;
      mark_all ranges users'
  end.

(** presPubMessageDelete of pres.go; [Presence] has the messages it sends. *)
Definition tell_deletion (uid : Uid) (mode : AccessMode) (delID : Z) (seq : list (Z * Z)) (skip : string) : HM unit :=
  if (match seq with [] => true | _ => false end) && (delID <=? 0) then ret tt
  else
    t <-- get_topic ;;
    when (userIsPresencer t uid)
      (let params := mkPresParams "" "" "" "" 0 delID seq "" in
       emit (PresSubsOnline "del" (UserId uid) params (mkFilters 0 0 (UserId uid) "") skip) ;;;
       emit (PresSingleUserOffline uid mode "del" params skip true)).

(** What everybody, or the user's other sessions, are told of a deletion. *)
Definition announce_deletion (sess : Session) (asUid : Uid) (hard : bool) (ranges : list Range) : HM unit :=
  t <-- get_topic ;;
  if hard then
    unpin_deleted sess ranges ;;;
    mark_all ranges (map_to_list t.(perUser)) ;;;
    t <-- get_topic ;;
    let params := mkPresParams "" (UserId asUid) "" "" 0 t.(t_delID) (Slices.rangeDeserialize ranges) "" in
    let filters := mkFilters ModeRead 0 "" "" in
    emit (PresSubsOnline "del" (UserId asUid) params filters (sid sess)) ;;;
    emit (PresSubsOffline "del" params filters nilPresFilters (sid sess) true)
  else
    let pud := with_delID (user t asUid) t.(t_delID) in
    set_topic (put_user t asUid pud) ;;;
    tell_deletion asUid (pud.(modeGiven) &. pud.(modeWant)) t.(t_delID) (Slices.rangeDeserialize ranges) (sid sess).

Definition replyDelMsg (sess : Session) (asUid : Uid) (asChan : bool) (del : MsgClientDel) (orig : string) : HM unit :=
  t <-- get_topic ;;
  let pud := user t asUid in
  let mode := pud.(modeGiven) &. pud.(modeWant) in
  let canDeleteAny := IsDeleter mode in
  if asChan || pud.(pud_isChan)
  then ctrl_err sess (Ctrl.ErrOperationNotAllowed orig) (TextErr "channel readers cannot delete messages")
  else if negb canDeleteAny && negb (IsReader mode)
  then ctrl_err sess (Ctrl.ErrPermissionDenied orig) (TextErr "del.msg: permission denied")
  else
    match delete_ranges t.(lastID) del.(del_DelSeq) with
    | None => ctrl_err sess (Ctrl.ErrMalformed orig) (TextErr "del.msg: malformed")
    | Some ranges =>
        when (del.(del_Hard) && negb canDeleteAny) (check_own sess orig asUid (positions ranges)) ;;;
        err <-- call (delete_list t.(t_name) (t.(t_delID) + 1) (if del.(del_Hard) then ZeroUid else asUid) now
                        (if del.(del_Hard) then msgDeleteAge else 0) ranges) ;;
        match err with
        | Some e => ctrl_err sess (Ctrl.ErrUnknown orig) e
        | None =>
            modify (fun t => set_delID t (t.(t_delID) + 1)) ;;;
            announce_deletion sess asUid del.(del_Hard) ranges ;;;
            t <-- get_topic ;;
            ctrl sess (Ctrl.NoErrParams orig [("del", AInt t.(t_delID))])
        end
    end.

(** ** {del sub} *)

(** The subscription to remove: the member as the topic has them or as the store does, the name of the subscription, and
    whether it is a channel reader's.  [None]: there is none. *)
Definition find_subscriber (sess : Session) (uid : Uid) : HM (option (perUserData * string * bool)) :=
  t <-- get_topic ;;
  match t.(perUser) !! uid with
  | Some pud => ret (Some (pud, (if pud.(pud_isChan) then GrpToChn t.(t_name) else t.(t_name)), pud.(pud_isChan)))
  | None =>
      sub <-- store_or sess ErrUnknownReply (subs_get t.(t_name) uid false) ;;
      found <-- match sub with
                | None =>
                    if t.(t_isChan) then
                      sub <-- store_or sess ErrUnknownReply (subs_get (GrpToChn t.(t_name)) uid false) ;;
                      ret (sub, GrpToChn t.(t_name), match sub with Some _ => true | None => false end)
                    else ret (None, t.(t_name), false)
                | Some _ => ret (sub, t.(t_name), false)
                end ;;
      let '(sub, subTopic, isChannelSub) := found in
      ret ((fun s => (mkPud 0 s.(s_RecvSeqId) s.(s_ReadSeqId) s.(s_ReadHistory) s.(s_DelId) s.(s_Private) s.(s_ModeWant) s.(s_ModeGiven)
                        "" false isChannelSub, subTopic, isChannelSub)) <$> sub)
  end.

(** What follows the removal of the row. *)
Definition removed_subscriber (sess : Session) (asUid uid : Uid) (pud : perUserData) (subTopic : string) (isChannelSub : bool) : HM unit :=
  t <-- get_topic ;;
  when (negb isChannelSub && IsReader (pud.(modeWant) &. pud.(modeGiven))) (usersUpdateUnread uid (pud.(readID) - t.(lastID))) ;;;
  notifySubChange uid asUid isChannelSub pud.(modeWant) pud.(modeGiven) ModeUnset ModeUnset (sid sess) ;;;
  evictUser uid true "" ;;;
  t <-- get_topic ;;
  (if isChannelSub then emit_all (pushTopicSubUnsub t uid false)
   else when (isOfficialLargeGroup t) (emit_all (pushTopicSubUnsub t uid false))) ;;;
  when (cat_eqb t.(t_cat) TopicCatGrp && (0 <? t.(subCnt))) (modify (fun t => set_subCnt t (t.(subCnt) - 1))) ;;;
  emit (PluginSubscription (plg_row uid subTopic 0%N 0%N) plgActDel) ;;;
  t <-- get_topic ;;
  when (cat_eqb t.(t_cat) TopicCatP2P && (subsCount t =? 0)) (modify (fun t => markPaused t true) ;;; emit (HubUnreg t.(t_name))).

Definition replyDelSub (sess : Session) (asUid : Uid) (del : MsgClientDel) (orig : string) : HM unit :=
  t <-- get_topic ;;
  if isOfficialTopic t then reject sess ErrPermissionDeniedReply (TextErr "官方频道成员只能通过平台管理接口移除")
  else
    match verifyChannelAccess t orig with
    | (_, Some _) => reject sess ErrNotFoundReply (StoreErr ErrNotFound)
    | (true, None) => reject sess ErrPermissionDeniedReply (TextErr "channel access denied: cannot delete subscription")
    | (false, None) =>
        let uid := ParseUserId del.(del_User) in
        let p := user t asUid in
        if negb (IsAdmin (p.(modeGiven) &. p.(modeWant))) then reject sess ErrPermissionDeniedReply (TextErr "del.sub: permission denied")
        else if IsZeroUid uid || (uid =? asUid)%N then reject sess ErrPermissionDeniedReply (TextErr "del.sub: cannot delete self-subscription")
        else if cat_eqb t.(t_cat) TopicCatP2P then reject sess ErrPermissionDeniedReply (TextErr "del.sub: cannot apply to a P2P topic")
        else
          found <-- find_subscriber sess uid ;;
          match found with
          | None => queueOut sess InfoNoActionReply
          | Some (pud, subTopic, isChannelSub) =>
              let mode := pud.(modeGiven) &. pud.(modeWant) in
              if IsOwner mode then reject sess ErrPermissionDeniedReply (TextErr "del.sub: cannot evict topic owner")
              else if negb (IsJoiner mode) then reject sess ErrPermissionDeniedReply (TextErr "del.sub: cannot delete banned subscription")
              else
                err <-- call (subs_delete subTopic uid) ;;
                match err with
                | Some e =>
                    if bool_decide (e = StoreErr ErrNotFound) then queueOut sess InfoNoActionReply else reject sess ErrUnknownReply e
                | None =>
                    queueOut sess NoErrReply ;;;
                    removed_subscriber sess asUid uid pud subTopic isChannelSub
                end
          end
    end.

(** ** The other deletions *)

Definition replyDelTopic (sess : Session) (asUid : Uid) (orig : string) : HM unit :=
  t <-- get_topic ;;
  if negb (t.(owner) =? asUid)%N then replyLeaveUnsub sess true orig asUid else ret tt.

Definition replyDelScheduled (sess : Session) (asUid : Uid) (del : MsgClientDel) (orig : string) : HM unit :=
  if IsZeroUid (ParseUid del.(del_ScheduledId)) then ctrl_err sess (Ctrl.ErrMalformed orig) (StoreErr ErrMalformed)
  else
    t <-- get_topic ;;
    let p := user t asUid in
    if negb (IsWriter (p.(modeGiven) &. p.(modeWant))) then ctrl_err sess (Ctrl.ErrPermissionDenied orig) (StoreErr ErrPermissionDenied)
    else
      err <-- call (delete_scheduled del.(del_ScheduledId) t.(t_name) asUid) ;;
      match err with
      | Some e => ctrl_err sess (Ctrl.ErrUnknown orig) e
      | None => ctrl sess (Ctrl.NoErrParams orig [("what", AStr "sched"); ("scheduled", AStr del.(del_ScheduledId))])
      end.

(** [handleMetaDel]; an error has been reported to the client and is only logged. *)
Definition handleMetaDel (replyDelCred : HM unit) (sess : Session) (asUid : Uid) (asChan : bool) (del : MsgClientDel) (orig : string)
    : HM unit :=
  r <-- attempt (refreshOfficialChannelMember now asUid) ;;
  match r with
  | inr _ => ctrl sess (Ctrl.ErrPermissionDenied orig)
  | inl _ =>
      _ <-- attempt (match del.(del_What) with
                     | DelMsg => replyDelMsg sess asUid asChan del orig
                     | DelSubscription => replyDelSub sess asUid del orig
                     | DelTopic => replyDelTopic sess asUid orig
                     | DelCred => replyDelCred
                     | DelScheduled => replyDelScheduled sess asUid del orig
                     | DelOther => ret tt
                     end) ;;
      ret tt
  end.
End Handlers.
