(* ===== verification/Hub.v ===== *)
(** * Hub: the registry of loaded topics

    internal/server/hub.go and the end of topicInit (internal/server/init_topic.go): one function per case of the loop of
    [run], and what it starts.  A loaded topic is an instance with its channels, found by name in the registry; an instance
    that was removed still runs until it takes a request to exit.  A handler is a computation over the registry, the store and
    the calls it makes.  [HubProps] has the properties. *)

From Stdlib Require Import NArith ZArith Lia List Ascii String Bool.
From stdpp Require Import base tactics numbers list strings gmap sets.
From S2P Require Import Prelude AccessMode Uid StoreTypes Drafty Messages Interactions Cluster SubStore Utils PubStore History TopicStore Topic TopicSub Publish Presence Notes MetaHistory.
Import Objects Ranges.
Import Topic.

#[local] Open Scope string_scope.
#[local] Open Scope Z_scope.

(** ** State *)

Inductive StopReason := StopNone | StopShutdown | StopDeleted | StopRehashing.
#[export] Instance StopReason_eq_dec : EqDecision StopReason.
Proof. solve_decision. Defined.

(** [done] is the waiter that is told; [None] is nil. *)
Record shutDown := mkShutDown { sd_done : option nat; sd_reason : StopReason }.

(** [ClientComMessage] as the hub looks at it.  A {set}: the private data, and the user, role and mode of {set sub}. *)
Inductive Body :=
| BSub | BPub | BNote | BNone
| BDel (d : MsgClientDel)
| BGet (desc : bool) (subUser : option string)
| BSet (priv : Any) (sub : option (string * string * string)).
Record HubMsg := mkHubMsg {
  hm_AsUser : string; hm_Original : string; hm_RcptTo : string; hm_sess : option Session; hm_init : bool; hm_body : Body }.

Definition hm_del (m : HubMsg) : option MsgClientDel := match m.(hm_body) with BDel d => Some d | _ => None end.

(** A topic and its channels; [exit] has room for one. *)
Record Inst := mkInst {
  i_topic : Topic; i_reg : list HubMsg; i_client : list HubMsg; i_server : list ServerComMessage; i_unreg : list HubMsg;
  i_meta : list HubMsg; i_exit : list shutDown }.

Record HubState := mkHub { h_topics : gmap string nat; h_num : Z; h_insts : list Inst }.

Record MsgTopicDesc := mkDesc {
  d_CreatedAt : Z; d_UpdatedAt : Z; d_State : string; d_IsChan : bool; d_SubCnt : Z; d_Public : Any; d_Trusted : Any;
  d_DefaultAcs : option (string * string); d_Acs : MsgAccessMode; d_Private : Any }.
Record MsgTopicSub := mkMetaSub {
  ms_Deleted : option Z; ms_Acs : option MsgAccessMode; ms_Private : Any; ms_User : string; ms_DelId : Z; ms_ReadSeqId : Z;
  ms_RecvSeqId : Z }.

Inductive HubEffect :=
| Out (e : Effect)
| InflightDone (sid : string)
| GoInit (i : nat) (join : HubMsg)
| GoRun (i : nat)
| GoStates (uid : Uid) (suspended : bool)
| GoStop (uid : Uid) (reason : StopReason) (done : option nat)
| GoOffline (msg : HubMsg)
| GoJoin (msg : HubMsg)
| RouteRemote (m : ServerComMessage)
| PluginTopic (name : string) (act : PlgAction)
| RegisterTopic (i : nat) (add : bool)
| StatsInc (name : string) (n : Z)
| ReportDone (waiter : nat)
| MetaDesc (sid : string) (topic : string) (d : MsgTopicDesc)
| MetaSub (sid : string) (topic : string) (s : MsgTopicSub).

(** ** Computations *)

Record HW (St : Type) := mkHW { w_hub : HubState; w_st : St; w_calls : list HubEffect }.
Arguments mkHW {St}. Arguments w_hub {St}. Arguments w_st {St}. Arguments w_calls {St}.

Section Monad.
Context {St : Type}.

Definition HM (A : Type) : Type := HW St -> HW St * Res A.
Definition hret {A} (a : A) : HM A := fun w => (w, Ret a).
Definition hfail {A} (e : GoError) : HM A := fun w => (w, Err e).
Definition hpanic {A} (p : string) : HM A := fun w => (w, Panic p).
Definition hbind {A B} (m : HM A) (k : A -> HM B) : HM B := fun w =>
  match m w with
  | (w', Ret a) => k a w'
  | (w', Err e) => (w', Err e)
  | (w', Panic p) => (w', Panic p)
  end.
Definition hget : HM HubState := fun w => (w, Ret w.(w_hub)).
Definition hput (h : HubState) : HM unit := fun w => (mkHW h w.(w_st) w.(w_calls), Ret tt).
Definition hcall {A} (f : St -> St * A) : HM A := fun w =>
  let '(s, a) := f w.(w_st) in (mkHW w.(w_hub) s w.(w_calls), Ret a).
Definition heff (e : HubEffect) : HM unit := fun w => (mkHW w.(w_hub) w.(w_st) (e :: w.(w_calls)), Ret tt).
Definition hattempt {A} (m : HM A) : HM (A + GoError) := fun w =>
  match m w with
  | (w', Ret a) => (w', Ret (inl a))
  | (w', Err e) => (w', Ret (inr e))
  | (w', Panic p) => (w', Panic p)
  end.
Definition hlift {A} (p : string) (o : option A) : HM A := match o with Some a => hret a | None => hpanic p end.
Definition hwhen (b : bool) (m : HM unit) : HM unit := if b then m else hret tt.
End Monad.

Notation "x <== m ;; k" := (hbind m (fun x => k)) (at level 100, m at next level, right associativity) : go_scope.
Notation "m ;;= k" := (hbind m (fun _ => k)) (at level 100, right associativity) : go_scope.

Definition nil_pointer : string := "invalid memory address or nil pointer dereference".

(** ** The registry *)

Definition set_topics (h : HubState) (m : gmap string nat) (n : Z) : HubState := mkHub m n h.(h_insts).
Definition set_inst (h : HubState) (i : nat) (f : Inst -> Inst) : HubState := mkHub h.(h_topics) h.(h_num) (alter f i h.(h_insts)).
Definition on_topic (f : Topic -> Topic) (x : Inst) : Inst :=
  mkInst (f x.(i_topic)) x.(i_reg) x.(i_client) x.(i_server) x.(i_unreg) x.(i_meta) x.(i_exit).
Definition add_reg (m : HubMsg) (x : Inst) : Inst :=
  mkInst x.(i_topic) (x.(i_reg) ++ [m])%list x.(i_client) x.(i_server) x.(i_unreg) x.(i_meta) x.(i_exit).
Definition add_client (m : HubMsg) (x : Inst) : Inst :=
  mkInst x.(i_topic) x.(i_reg) (x.(i_client) ++ [m])%list x.(i_server) x.(i_unreg) x.(i_meta) x.(i_exit).
Definition add_server (m : ServerComMessage) (x : Inst) : Inst :=
  mkInst x.(i_topic) x.(i_reg) x.(i_client) (x.(i_server) ++ [m])%list x.(i_unreg) x.(i_meta) x.(i_exit).
Definition add_meta (m : HubMsg) (x : Inst) : Inst :=
  mkInst x.(i_topic) x.(i_reg) x.(i_client) x.(i_server) x.(i_unreg) (x.(i_meta) ++ [m])%list x.(i_exit).
Definition add_exit (sd : shutDown) (x : Inst) : Inst :=
  mkInst x.(i_topic) x.(i_reg) x.(i_client) x.(i_server) x.(i_unreg) x.(i_meta) (x.(i_exit) ++ [sd])%list.
Definition drained (x : Inst) : Inst := mkInst x.(i_topic) [] [] x.(i_server) [] [] (tl x.(i_exit)).

(** The zero topic with the names of a join. *)
Definition new_topic (join : HubMsg) (remote : bool) : Topic :=
  mkTopic join.(hm_RcptTo) join.(hm_Original) TopicCatMe false 0 0 0 0 0 0%N "" None 0 ∅ 0 0 ∅ ∅ 0 0 None ∅ ∅ remote None.

Definition clientMsg_size : nat := 192.
Definition serverMsg_size : nat := 64.
Definition reg_size : nat := 256.

Section Hub.
Context {St : Type} `{Subs : SubStore St, Tops : !TopicStore St}.
(** The node's cluster; the time of the handler. *)
Context (cluster : option Cluster) (now : Z).
(** [officialPolicyFromAux], which reads a policy through JSON. *)
Context (officialPolicyFromAux : string -> option (list (string * Any)) -> option officialTopicPolicy + GoError).

Abbreviation remote name := (isRemoteTopic cluster name) (only parsing).

Definition topicGet (name : string) : HM (St := St) (option (nat * Topic)) :=
  h <== hget ;;
  hret (i ← h.(h_topics) !! name; (fun x => (i, x.(i_topic))) <$> h.(h_insts) !! i).

Definition topicPut (name : string) (x : Inst) : HM (St := St) nat :=
  h <== hget ;;
  let i := List.length h.(h_insts) in
  hput (mkHub (<[name := i]> h.(h_topics)) (h.(h_num) + 1) (h.(h_insts) ++ [x])%list) ;;= hret i.

Definition topicDel (name : string) : HM (St := St) unit :=
  h <== hget ;; hput (set_topics h (delete name h.(h_topics)) (h.(h_num) - 1)).

Definition modify_inst (i : nat) (f : Inst -> Inst) : HM (St := St) unit := h <== hget ;; hput (set_inst h i f).

(** [t.exit <- sd]; [HubNode] shows when it does not wait. *)
Definition send_exit (i : nat) (sd : shutDown) : HM (St := St) unit := modify_inst i (add_exit sd).

(** A send that gives up when the channel is full. *)
Definition try_send (i : nat) (size : nat) (queue : Inst -> nat) (f : Inst -> Inst) (full : HM unit) : HM (St := St) unit :=
  h <== hget ;;
  match h.(h_insts) !! i with
  | Some x => if (queue x <? size)%nat then modify_inst i f else full
  | None => hret tt
  end.

(** [sess.queueOut(XxxReply(msg, now))]: a nil session takes nothing, a nil message is an error. *)
Definition answer (sess : option Session) (msg : option HubMsg) (r : Reply) : HM (St := St) unit :=
  match msg with
  | None => hpanic nil_pointer
  | Some _ => match sess with Some s => heff (Out (QueueOut (sid s) r)) | None => hret tt end
  end.
(** The same under [if sess != nil]. *)
Definition answer_if (sess : option Session) (msg : option HubMsg) (r : Reply) : HM (St := St) unit :=
  match sess with Some _ => answer sess msg r | None => hret tt end.

(** [sess.sid] *)
Definition sid_of (sess : option Session) : HM (St := St) string := match sess with Some s => hret (sid s) | None => hpanic nil_pointer end.

(** [sess.inflightReqs.Done()] of a session that counts its requests. *)
Definition inflight_done (sess : option Session) : HM (St := St) unit :=
  match sess with Some s => hwhen (negb (isCluster s)) (heff (InflightDone (sid s))) | None => hpanic nil_pointer end.

(** [makeTopic] *)
Definition makeTopic (join : HubMsg) : HM (St := St) nat :=
  let t := markPaused (new_topic join (remote join.(hm_RcptTo))) true in
  i <== topicPut join.(hm_RcptTo) (mkInst t [] [] [] [] [] []) ;;
  heff (GoInit i join) ;;= hret i.

(** ** The cases of [run] *)

Definition handle_join (join : HubMsg) : HM (St := St) unit :=
  t <== topicGet join.(hm_RcptTo) ;;
  match t with
  | None => _ <== makeTopic join ;; hret tt
  | Some (i, t) =>
      if isInactive t then inflight_done join.(hm_sess) ;;= answer join.(hm_sess) (Some join) ErrLockedReply
      else try_send i reg_size (fun x => List.length x.(i_reg)) (add_reg join)
             (inflight_done join.(hm_sess) ;;= answer join.(hm_sess) (Some join) ErrServiceUnavailableReply)
  end.

Definition handle_schedule (msg : HubMsg) : HM (St := St) unit :=
  t <== topicGet msg.(hm_RcptTo) ;;
  i <== match t with
        | Some (i, _) => hret i
        | None => makeTopic (mkHubMsg msg.(hm_AsUser) msg.(hm_Original) msg.(hm_RcptTo) None false BNone)
        end ;;
  try_send i clientMsg_size (fun x => List.length x.(i_client)) (add_client msg) (hret tt).

Definition known_name (name : string) : bool :=
  negb ((String.length name <? 3)%nat ||
        (negb (remote name) && negb (existsb (HasPrefix name) ["usr"; "p2p"; "grp"; "chn"; "fnd"; "sys"; "slf"]))).

(** Whether the loop goes on. *)
Definition handle_routeCli (msg : HubMsg) : HM (St := St) bool :=
  t <== topicGet msg.(hm_RcptTo) ;;
  match t with
  | Some (i, _) => try_send i clientMsg_size (fun x => List.length x.(i_client)) (add_client msg) (hret tt) ;;= hret true
  | None =>
      match msg.(hm_body) with
      | BNote => hret true
      | _ =>
          if negb (known_name msg.(hm_RcptTo)) then answer msg.(hm_sess) (Some msg) ErrMalformedReply ;;= hret false
          else answer msg.(hm_sess) (Some msg) (NoErrAccepted msg.(hm_RcptTo) "") ;;= hret true
      end
  end.

Definition handle_routeSrv (msg : ServerComMessage) : HM (St := St) unit :=
  t <== topicGet msg.(s_RcptTo) ;;
  match t with
  | Some (i, _) => try_send i serverMsg_size (fun x => List.length x.(i_server)) (add_server msg) (hret tt)
  | None => hwhen ((HasPrefix msg.(s_RcptTo) "usr" || HasPrefix msg.(s_RcptTo) "grp") && remote msg.(s_RcptTo)) (heff (RouteRemote msg))
  end.

Definition handle_meta (msg : HubMsg) : HM (St := St) unit :=
  match msg.(hm_body) with BGet _ _ | BSet _ _ => heff (GoOffline msg) | _ => hret tt end.

Definition handle_userStatus (uid : Uid) (state : Z) : HM (St := St) unit := heff (GoStates uid (state =? StateSuspended)).

Definition set_readOnly (uid : Uid) (suspended : bool) (x : Inst) : Inst :=
  let t := x.(i_topic) in
  if cat_eqb t.(t_cat) TopicCatMe || cat_eqb t.(t_cat) TopicCatFnd then x
  else if (cat_eqb t.(t_cat) TopicCatP2P && bool_decide (is_Some (t.(perUser) !! uid))) || (t.(owner) =? uid)%N
  then on_topic (fun t => markReadOnly t suspended) x
  else x.

(** [topicsStateForUser] *)
Definition topicsStateForUser (uid : Uid) (suspended : bool) : HM (St := St) unit :=
  h <== hget ;;
  hput (fold_left (fun h kv => set_inst h (snd kv) (set_readOnly uid suspended)) (map_to_list h.(h_topics)) h).

(** ** Removal *)

Definition pushForChanDelete (topicName : string) : Receipt :=
  let topicName := GrpToChn topicName in
  mkReceipt [] topicName "sub" true topicName "" now 0 ANil "" false "" "" ModeNone ModeNone.

Definition push (r : Receipt) : HM (St := St) unit :=
  fold_right (fun e m => heff (Out e) ;;= m) (hret tt) (sendPush cluster r).

Definition hard_of (msg : option HubMsg) : HM (St := St) bool :=
  hlift nil_pointer (m ← msg; del_Hard <$> hm_del m).

(** A {del topic} that the topic is to treat like {leave unsub=true}. *)
Definition as_del_topic (sess : option Session) (m : HubMsg) : HubMsg :=
  mkHubMsg m.(hm_AsUser) m.(hm_Original) m.(hm_RcptTo) sess m.(hm_init)
    (match m.(hm_body) with
     | BDel d => BDel (mkClientDel DelTopic d.(del_DelSeq) d.(del_User) d.(del_Hard) d.(del_ScheduledId))
     | b => b
     end).

(** Case 1.1: the topic is loaded. *)
Definition may_delete (t : Topic) (asUid : Uid) : bool :=
  (negb (IsZeroUid asUid) && (t.(owner) =? asUid)%N) || (cat_eqb t.(t_cat) TopicCatP2P && (subsCount t <? 2)).

Definition unreg_online (sess : option Session) (topic : string) (msg : option HubMsg) (asUid : Uid) (i : nat) (t : Topic) : HM (St := St) unit :=
  if may_delete t asUid then
    if isOfficialTopic t then answer_if sess msg ErrPermissionDeniedReply ;;= hfail (StoreErr ErrPermissionDenied)
    else
      modify_inst i (on_topic (fun t => markPaused t true)) ;;=
      (let hard := match m ← msg; hm_del m with
                   | Some d => d.(del_Hard) || cat_eqb t.(t_cat) TopicCatP2P
                   | None => true
                   end in
       err <== hcall (topics_delete topic t.(t_isChan) hard now) ;;
       match err with
       | Some e =>
           modify_inst i (on_topic (fun t => markPaused t false)) ;;=
           answer_if sess msg ErrUnknownReply ;;= hfail e
       | None =>
           answer_if sess msg NoErrReply ;;=
           hwhen t.(t_isChan) (push (pushForChanDelete t.(t_name))) ;;=
           topicDel topic ;;=
           modify_inst i (on_topic markDeleted) ;;=
           send_exit i (mkShutDown None StopDeleted) ;;=
           heff (StatsInc "LiveTopics" (-1))
       end)
  else
    m <== hlift nil_pointer msg ;;
    modify_inst i (add_meta (as_del_topic sess m)).

(** Case 1.2: it is not. *)
Definition check_official (sess : option Session) (topic : string) (msg : option HubMsg) (stored : option StoredDesc) : HM (St := St) unit :=
  match stored with
  | None => hret tt
  | Some s =>
      match officialPolicyFromAux topic s.(tp_Aux) with
      | inr e => answer_if sess msg ErrUnknownReply ;;= hfail e
      | inl policy =>
          if match policy with Some p => p.(Official) | None => false end &&
             match msg with Some m => negb (IsChannel m.(hm_Original)) | None => false end
          then answer_if sess msg ErrPermissionDeniedReply ;;= hfail (StoreErr ErrPermissionDenied)
          else hret tt
      end
  end.

(** What the members are told when one of them leaves a topic that is not loaded. *)
Definition tell_left (sess : option Session) (msg : HubMsg) (asUid : Uid) (p2p_of_two : bool) : HM (St := St) unit :=
  skip <== sid_of sess ;;
  heff (Out (PresSingleUserOfflineOffline asUid msg.(hm_Original) "gone" nilPresParams skip)) ;;=
  hwhen p2p_of_two
    (let uid2 := ParseUserId msg.(hm_Original) in
     heff (Out (PresSingleUserOfflineOffline asUid (UserId uid2) "?none+rem" nilPresParams "")) ;;=
     heff (Out (PresSingleUserOfflineOffline uid2 (UserId asUid) "off" nilPresParams ""))).

Definition unreg_offline_member (sess : option Session) (topic : string) (msg : HubMsg) (asUid : Uid) (p2p : bool) (subs : list Subscription)
    (sub : Subscription) : HM (St := St) unit :=
  let left_ := (tell_left sess msg asUid (p2p && (List.length subs =? 2)%nat) ;;=
                heff (Out (PluginSubscription sub plgActDel)) ;;= answer sess (Some msg) NoErrReply) in
  if p2p && (List.length subs <? 2)%nat then
    hard <== hard_of (Some msg) ;;
    err <== hcall (topics_delete topic false hard now) ;;
    match err with
    | Some e => answer sess (Some msg) ErrUnknownReply ;;= hfail e
    | None => heff (PluginTopic topic plgActDel) ;;= left_
    end
  else
    err <== hcall (subs_delete topic asUid) ;;
    match err with
    | Some e =>
        if bool_decide (e = StoreErr ErrNotFound) then answer sess (Some msg) InfoNoActionReply
        else answer sess (Some msg) ErrUnknownReply ;;= hfail e
    | None => left_
    end.

Definition unreg_offline_owner (sess : option Session) (topic : string) (msg : HubMsg) (tcat : TopicCat) (subs : list Subscription) : HM (St := St) unit :=
  hard <== hard_of (Some msg) ;;
  err <== hcall (topics_delete topic true hard now) ;;
  match err with
  | Some e => answer sess (Some msg) ErrUnknownReply ;;= hfail e
  | None =>
      skip <== sid_of sess ;;
      ms <== hlift "index out of range" (presSubsOfflineOffline topic tcat subs "gone" nilPresParams skip) ;;
      fold_right (fun m k => heff (Out (RouteSrv m)) ;;= k) (hret tt) ms ;;=
      push (pushForChanDelete topic) ;;=
      heff (PluginTopic topic plgActDel) ;;=
      answer sess (Some msg) NoErrReply
  end.

(** With the subscriptions of the topic, or of a channel reader alone. *)
Definition unreg_listed (sess : option Session) (m : HubMsg) (asUid : Uid) (topic : string) (user : option Uid) : HM (St := St) unit :=
  subs <== hcall (topics_get_subs topic user) ;;
  match subs with
  | inr e => answer sess (Some m) ErrUnknownReply ;;= hfail e
  | inl subs =>
      tcat <== hlift "invalid topic name" (GetTopicCat topic) ;;
      let p2p := cat_eqb tcat TopicCatP2P in
      match subs with
      | [] => hwhen p2p (_ <== hcall (topics_delete topic false true now) ;; hret tt) ;;= answer sess (Some m) InfoNoActionReply
      | _ =>
          match List.find (fun s => String.eqb s.(s_User) (UidString asUid)) subs with
          | None => answer sess (Some m) InfoNoActionReply
          | Some sub =>
              if negb (IsOwner (sub.(s_ModeGiven) &. sub.(s_ModeWant))) then unreg_offline_member sess topic m asUid p2p subs sub
              else unreg_offline_owner sess topic m tcat subs
          end
      end
  end.

Definition unreg_offline (sess : option Session) (topic : string) (msg : option HubMsg) (asUid : Uid) : HM (St := St) unit :=
  stored <== hcall (topics_get topic) ;;
  match stored with
  | inr e => answer_if sess msg ErrUnknownReply ;;= hfail e
  | inl stored =>
      check_official sess topic msg stored ;;=
      m <== hlift nil_pointer msg ;;
      if IsChannel m.(hm_Original) then unreg_listed sess m asUid m.(hm_Original) (Some asUid)
      else unreg_listed sess m asUid topic None
  end.

(** Case 2: the topic goes offline. *)
Definition unreg_unload (sess : option Session) (topic : string) (msg : option HubMsg) (reason : StopReason) : HM (St := St) unit :=
  t <== topicGet topic ;;
  match t with
  | Some (i, _) =>
      modify_inst i (on_topic markDeleted) ;;=
      topicDel topic ;;=
      send_exit i (mkShutDown None reason) ;;=
      heff (StatsInc "LiveTopics" (-1))
  | None => hret tt
  end ;;=
  match msg with Some _ => answer_if sess msg NoErrReply | None => hret tt end.

Definition topicUnreg (sess : option Session) (topic : string) (msg : option HubMsg) (reason : StopReason) : HM (St := St) unit :=
  t <== topicGet topic ;;
  hwhen (bool_decide (reason = StopDeleted) &&
         match t with Some (_, t) => negb t.(t_isProxy) && (t.(t_isChan) || IsChannel topic) | None => false end)
    (push (pushForChanDelete topic)) ;;=
  if bool_decide (reason = StopDeleted) then
    let asUid := match msg with Some m => ParseUserId m.(hm_AsUser) | None => ZeroUid end in
    match t with
    | Some (i, t) => unreg_online sess topic msg asUid i t
    | None => unreg_offline sess topic msg asUid
    end
  else unreg_unload sess topic msg reason.

(** [topicUnreg] requests; [unreg] of the loop. *)
Record UnregReq := mkUnreg {
  un_pkt : option HubMsg; un_sess : option Session; un_rcptTo : string; un_forUser : Uid; un_del : bool; un_done : option nat }.

Definition handle_unreg (u : UnregReq) : HM (St := St) unit :=
  let reason := if u.(un_del) then StopDeleted else StopNone in
  if IsZeroUid u.(un_forUser) then _ <== hattempt (topicUnreg u.(un_sess) u.(un_rcptTo) u.(un_pkt) reason) ;; hret tt
  else heff (GoStop u.(un_forUser) reason u.(un_done)).

(** [rehash]: topics that moved are closed. *)
Fixpoint rehash_topics (ts : list (string * nat)) : HM (St := St) unit :=
  match ts with
  | [] => hret tt
  | (_, i) :: ts' =>
      h <== hget ;;
      match h.(h_insts) !! i with
      | Some x =>
          let t := x.(i_topic) in
          hwhen (negb (Bool.eqb t.(t_isProxy) (remote t.(t_name))))
            (_ <== hattempt (topicUnreg None t.(t_name) None StopRehashing) ;; hret tt) ;;=
          rehash_topics ts'
      | None => rehash_topics ts'
      end
  end.

Definition join_sys : HubMsg := mkHubMsg "" "sys" "sys" None false BNone.

Definition handle_rehash : HM (St := St) unit :=
  h <== hget ;;
  rehash_topics (map_to_list h.(h_topics)) ;;=
  t <== topicGet "sys" ;;
  match t with
  | None => hwhen (negb (remote "sys")) (heff (GoJoin join_sys))
  | Some _ => hret tt
  end.

(** [shutdown]: the topics are told; how many reports the hub then waits for.  The loop ends. *)
Definition handle_shutdown (done : nat) : HM (St := St) nat :=
  h <== hget ;;
  hput (fold_left (fun h kv => set_inst h (snd kv) (add_exit (mkShutDown (Some done) StopNone))) (map_to_list h.(h_topics)) h) ;;=
  hret (List.length (map_to_list h.(h_topics))).

(** [stopTopicsForUser]: what [Range] does with one topic; whether the topic was stopped. *)
Definition stops (uid : Uid) (t : Topic) : bool :=
  (negb (cat_eqb t.(t_cat) TopicCatGrp) && bool_decide (is_Some (t.(perUser) !! uid))) || (t.(owner) =? uid)%N.

Definition stop_visit (uid : Uid) (reason : StopReason) (done : option nat) (name : string) (i : nat) : HM (St := St) bool :=
  h <== hget ;;
  match h.(h_insts) !! i with
  | None => hret false
  | Some x =>
      let t := x.(i_topic) in
      if stops uid t then
        modify_inst i (on_topic markDeleted) ;;=
        h <== hget ;;
        hput (set_topics h (delete name h.(h_topics)) h.(h_num)) ;;=
        send_exit i (mkShutDown done reason) ;;=
        (if cat_eqb t.(t_cat) TopicCatP2P && (size t.(perUser) =? 2)%nat then
           other <== hlift "Not a valid P2P topic" (p2pOtherUser t uid) ;;
           heff (Out (PresSingleUserOfflineOffline other (UserId uid) "gone" nilPresParams ""))
         else hret tt) ;;=
        hret true
      else hret false
  end.

(** The names [Range] comes to, each with the topic that has the name by then. *)
Fixpoint stop_loop (uid : Uid) (reason : StopReason) (done : option nat) (count : Z) (names : list string) : HM (St := St) Z :=
  match names with
  | [] => hret count
  | name :: names' =>
      h <== hget ;;
      match h.(h_topics) !! name with
      | None => stop_loop uid reason done count names'
      | Some i => b <== stop_visit uid reason done name i ;; stop_loop uid reason done (if b : bool then count + 1 else count) names'
      end
  end.

(** With nothing in between; [done] are the reports it then waits for. *)
Definition stopTopicsForUser (uid : Uid) (reason : StopReason) (done : option nat) : HM (St := St) Z :=
  h <== hget ;;
  count <== stop_loop uid reason done 0 (map fst (map_to_list h.(h_topics))) ;;
  heff (StatsInc "LiveTopics" (- count)) ;;= hret count.

(** ** The end of [topicInit] *)

(** The topics of a failed load wait again, whatever else they were sent is refused; whether the function gets to its end. *)
Fixpoint lock_out (ms : list HubMsg) (in_flight : bool) : HM (St := St) unit :=
  match ms with
  | [] => hret tt
  | m :: ms' =>
      hwhen (in_flight && match m.(hm_sess) with Some _ => true | None => false end) (inflight_done m.(hm_sess)) ;;=
      hwhen (m.(hm_init) && match m.(hm_sess) with Some _ => true | None => false end) (answer m.(hm_sess) (Some m) ErrLockedReply) ;;=
      lock_out ms' in_flight
  end.

Fixpoint rejoin (ms : list HubMsg) : HM (St := St) unit :=
  match ms with [] => hret tt | m :: ms' => heff (GoJoin m) ;;= rejoin ms' end.

Definition is_sub (m : HubMsg) : bool := match m.(hm_body) with BSub => true | _ => false end.

(** [init_failed]: the report to a nil channel is never taken, and what is deferred not done. *)
Definition init_failed (i : nat) (join : HubMsg) (err : GoError) : HM (St := St) bool :=
  topicDel join.(hm_RcptTo) ;;=
  match join.(hm_sess) with
  | Some s => c <== hlift "interface conversion" (decodeStoreError (Some err) join.(hm_Original) []) ;; heff (Out (QueueOut (sid s) (CtrlReply c)))
  | None => hret tt
  end ;;=
  h <== hget ;;
  match h.(h_insts) !! i with
  | None => hret true
  | Some x =>
      rejoin x.(i_reg) ;;= lock_out x.(i_client) false ;;= lock_out x.(i_unreg) true ;;= lock_out x.(i_meta) false ;;=
      modify_inst i drained ;;=
      match x.(i_exit) with
      | mkShutDown None _ :: _ => hret false
      | mkShutDown (Some waiter) _ :: _ => heff (ReportDone waiter) ;;= hwhen (is_sub join) (inflight_done join.(hm_sess)) ;;= hret true
      | [] => hwhen (is_sub join) (inflight_done join.(hm_sess)) ;;= hret true
      end
  end.

Definition init_loaded (shuttingDown : bool) (i : nat) (join : HubMsg) : HM (St := St) unit :=
  modify_inst i (on_topic computePerUserAcsUnion) ;;=
  if shuttingDown then topicDel join.(hm_RcptTo) ;;= hwhen (is_sub join) (inflight_done join.(hm_sess))
  else
    h <== hget ;;
    match h.(h_insts) !! i with
    | None => hret tt
    | Some x =>
        let t := x.(i_topic) in
        if isDeleted t then hwhen (is_sub join) (inflight_done join.(hm_sess))
        else
          heff (StatsInc "LiveTopics" 1) ;;= heff (StatsInc "TotalTopics" 1) ;;=
          heff (RegisterTopic i true) ;;=
          hwhen (is_sub join) (modify_inst i (add_reg join)) ;;=
          modify_inst i (on_topic (fun t => markPaused t false)) ;;=
          hwhen (cat_eqb t.(t_cat) TopicCatFnd || cat_eqb t.(t_cat) TopicCatSys) (modify_inst i (on_topic markLoaded)) ;;=
          heff (GoRun i)
    end.
End Hub.

(** ** Requests of users who are not attached *)

Section Offline.
Context {St : Type} `{Subs : SubStore St, Tops : !TopicStore St}.
Context (typesModeCP2P : AccessMode) (json_object : string -> option (list (string * Any))).

(** admin_identity.go *)
Definition externalIdentityObject (value : Any) : list (string * Any) :=
  match value with AMap m => m | AStr s => default [] (json_object s) | _ => [] end.

Definition externalIdentityClientTrusted (value : Any) : Any :=
  let object := externalIdentityObject value in
  match get object "phone", get object "invitation_code" with
  | None, None => value
  | _, _ => AMap (map_delete (map_delete object "phone") "invitation_code")
  end.

(** A store error goes to the session; the request ends. *)
Definition store_failed {A} (sess : Session) (msg : HubMsg) (e : GoError) : HM (St := St) A :=
  c <== hlift "interface conversion" (decodeStoreError (Some e) msg.(hm_Original) []) ;;
  heff (Out (QueueOut (sid sess) (CtrlReply c))) ;;= hfail e.

Definition ended {A} (sess : Session) (r : Reply) (e : GoError) : HM (St := St) A := heff (Out (QueueOut (sid sess) r)) ;;= hfail e.

Definition level_mode (authLvl : Z) (auth anon : AccessMode) : string :=
  if (authLvl =? LevelAuth) || (authLvl =? LevelRoot) then ModeString auth
  else if authLvl =? LevelAnon then ModeString anon else "".

(** The other user of a conversation, and its name. *)
Definition peer_of (asUid : Uid) (topic : string) : Uid * string :=
  if HasPrefix topic "usr" then (ParseUserId topic, P2PName asUid (ParseUserId topic))
  else if HasPrefix topic "p2p" then
    let '(uid1, uid2) := fst (ParseP2P topic) in
    ((if (uid1 =? asUid)%N then uid2 else if (uid2 =? asUid)%N then uid1 else ZeroUid), topic)
  else (ZeroUid, topic).

(** The description of the topic or the peer, whether it is suspended, and the name of the topic. *)
Definition base_desc (sess : Session) (authLvl : Z) (msg : HubMsg) : HM (St := St) (MsgTopicDesc * bool * string) :=
  let topic := msg.(hm_RcptTo) in
  if HasPrefix topic "grp" || String.eqb topic "sys" then
    stopic <== hcall (topics_get topic) ;;
    match stopic with
    | inr e => store_failed sess msg e
    | inl None => ended sess (CtrlReply (Ctrl.ErrTopicNotFound msg.(hm_Original))) (StoreErr ErrTopicNotFound)
    | inl (Some s) =>
        hret (mkDesc s.(tp_CreatedAt) s.(tp_UpdatedAt) "" s.(tp_UseBt) s.(tp_SubCnt) s.(tp_Public) s.(tp_Trusted)
                (if String.eqb s.(tp_Owner) msg.(hm_AsUser)
                 then Some (ModeString s.(tp_AccessAuth), ModeString s.(tp_AccessAnon)) else None)
                (mkAcs "" "" (level_mode authLvl s.(tp_AccessAuth) s.(tp_AccessAnon)) "") ANil,
              s.(tp_State) =? StateSuspended, topic)
    end
  else
    let '(uid, topic) := peer_of (ParseUserId msg.(hm_AsUser)) topic in
    if IsZeroUid uid then ended sess ErrMalformedReply (TextErr "malformed p2p topic name")
    else
      suser <== hcall (users_profile uid) ;;
      match suser with
      | inr e => store_failed sess msg e
      | inl None => ended sess ErrUserNotFoundReply (StoreErr ErrUserNotFound)
      | inl (Some u) =>
          hret (mkDesc u.(pf_CreatedAt) u.(pf_UpdatedAt) (if authLvl =? LevelRoot then ObjStateString u.(pf_State) else "") false 0
                  u.(pf_Public) (externalIdentityClientTrusted u.(pf_Trusted)) None
                  (mkAcs "" "" (level_mode authLvl u.(pf_AccessAuth) u.(pf_AccessAnon)) "") ANil,
                u.(pf_State) =? StateSuspended, topic)
      end.

(** What the requester's subscription adds. *)
Definition own_desc (authLvl : Z) (suspended : bool) (sub : Subscription) (d : MsgTopicDesc) : MsgTopicDesc :=
  let mode := sub.(s_ModeGiven) &. sub.(s_ModeWant) in
  let mode := if suspended && negb (authLvl =? LevelRoot) then mode &^ (ModeWrite |. ModeApprove) else mode in
  mkDesc d.(d_CreatedAt) d.(d_UpdatedAt) d.(d_State) d.(d_IsChan) d.(d_SubCnt) d.(d_Public) d.(d_Trusted) d.(d_DefaultAcs)
    (mkAcs (ModeString sub.(s_ModeWant)) (ModeString sub.(s_ModeGiven)) (ModeString mode)
       (topicRoleFromAccess mode d.(d_IsChan) (IsChannel sub.(s_Topic))))
    sub.(s_Private).

Definition replyOfflineTopicGetDesc (sess : Session) (authLvl : Z) (msg : HubMsg) : HM (St := St) unit :=
  base <== base_desc sess authLvl msg ;;
  let '(d, suspended, topic) := base in
  sub <== hcall (subs_get (if IsChannel msg.(hm_Original) then msg.(hm_Original) else topic) (ParseUserId msg.(hm_AsUser)) false) ;;
  match sub with
  | inr e => store_failed sess msg e
  | inl None => heff (MetaDesc (sid sess) msg.(hm_Original) d)
  | inl (Some sub) => heff (MetaDesc (sid sess) msg.(hm_Original) (own_desc authLvl suspended sub d))
  end.

Definition sub_name (msg : HubMsg) : string := if IsChannel msg.(hm_Original) then msg.(hm_Original) else msg.(hm_RcptTo).

(** [None] is the panic of [GetTopicCat]. *)
Definition own_sub (msg : HubMsg) (s : Subscription) : option MsgTopicSub :=
  match s.(s_DeletedAt) with
  | Some at_ => Some (mkMetaSub (Some at_) None ANil "" 0 0 0)
  | None =>
      cat ← GetTopicCat msg.(hm_RcptTo);
      let mode := s.(s_ModeGiven) &. s.(s_ModeWant) in
      let readable := IsReader mode && IsJoiner mode in
      Some (mkMetaSub None
              (Some (mkAcs (ModeString s.(s_ModeWant)) (ModeString s.(s_ModeGiven)) (ModeString mode)
                       (topicRoleFromAccess mode (IsChannel msg.(hm_Original)) (IsChannel s.(s_Topic)))))
              (if cat_eqb cat TopicCatFnd then ANil else s.(s_Private)) (UserId (ParseUid s.(s_User)))
              (if readable then s.(s_DelId) else 0) (if readable then s.(s_ReadSeqId) else 0) (if readable then s.(s_RecvSeqId) else 0))
  end.

Definition replyOfflineTopicGetSub (sess : Session) (msg : HubMsg) : HM (St := St) unit :=
  if match msg.(hm_body) with
     | BGet _ (Some user) => negb (String.eqb user "") && negb (String.eqb user msg.(hm_AsUser))
     | _ => false
     end
  then ended sess ErrPermissionDeniedReply (StoreErr ErrPermissionDenied)
  else
    ssub <== hcall (subs_get (sub_name msg) (ParseUserId msg.(hm_AsUser)) true) ;;
    match ssub with
    | inr e => store_failed sess msg e
    | inl None => ended sess (CtrlReply (Ctrl.ErrNotFound msg.(hm_Original))) (StoreErr ErrNotFound)
    | inl (Some s) => m <== hlift "invalid topic name" (own_sub msg s) ;; heff (MetaSub (sid sess) msg.(hm_Original) m)
    end.

(** The change of the private data, if there is one. *)
Definition private_change (old priv : Any) : option Any :=
  match priv with
  | ANil => None
  | AMap _ => let '(p, changed) := Merge.mergeInterfaces old priv in if changed : bool then Some p else None
  | _ => Some priv
  end.

(** The change of the wanted access, if there is one, or why there cannot be. *)
Definition mode_change (cat : TopicCat) (old : AccessMode) (mode : string) : option AccessMode + option GoError :=
  if String.eqb mode "" then inl None
  else
    match UnmarshalText 0 mode with
    | (_, Some e) => inr (Some e)
    | (modeWant, None) =>
        if negb (Bool.eqb (IsOwner modeWant) (IsOwner old)) then inr None
        else
          let modeWant := if cat_eqb cat TopicCatP2P then (modeWant &. typesModeCP2P) |. ModeApprove else modeWant in
          inl (if (modeWant =? old)%N then None else Some modeWant)
    end.

Definition replyOfflineTopicSetSub (sess : Session) (msg : HubMsg) : HM (St := St) unit :=
  let '(priv, sub) := match msg.(hm_body) with BSet p s => (p, s) | _ => (ANil, None) end in
  let '(user, role, mode) := default ("", "", "") sub in
  if negb (String.eqb role "") then ended sess (CtrlReply (Ctrl.ErrAttachFirst msg.(hm_Original))) (TextErr "must attach first")
  else if match priv with ANil => true | _ => false end && String.eqb mode "" then heff (Out (QueueOut (sid sess) InfoNotModifiedReply))
  else if negb (String.eqb user "") && negb (String.eqb user msg.(hm_AsUser)) then ended sess ErrPermissionDeniedReply (StoreErr ErrPermissionDenied)
  else
    let asUid := ParseUserId msg.(hm_AsUser) in
    found <== hcall (subs_get (sub_name msg) asUid false) ;;
    match found with
    | inr e => store_failed sess msg e
    | inl None => ended sess (CtrlReply (Ctrl.ErrNotFound msg.(hm_Original))) (StoreErr ErrNotFound)
    | inl (Some sub) =>
        cat <== (if String.eqb mode "" then hret TopicCatMe else hlift "invalid topic name" (GetTopicCat msg.(hm_RcptTo))) ;;
        match mode_change cat sub.(s_ModeWant) mode with
        | inr (Some e) => store_failed sess msg e
        | inr None => ended sess ErrPermissionDeniedReply (StoreErr ErrPermissionDenied)
        | inl want =>
            let update := mkUpdate want None (private_change sub.(s_Private) priv) None None None None in
            if no_updates update then heff (Out (QueueOut (sid sess) InfoNotModifiedReply))
            else
              err <== hcall (subs_update (sub_name msg) asUid update) ;;
              match err with
              | Some e => store_failed sess msg e
              | None =>
                  heff (Out (QueueOut (sid sess)
                    match want with
                    | Some modeWant =>
                        let mode := sub.(s_ModeGiven) &. modeWant in
                        NoErrParamsReply (mkAcs (ModeString modeWant) (ModeString sub.(s_ModeGiven)) (ModeString mode)
                          (topicRoleFromAccess mode (IsChannel msg.(hm_Original)) (IsChannel sub.(s_Topic)))) None
                    | None => NoErrReply
                    end))
              end
        end
    end.
End Offline.
