(* ===== verification/Calls.v ===== *)
(** * Calls: voice and video calls of a topic

    internal/server/calls.go and calls_agora.go, and unregisterSession of topic_sub.go, which ends calls and which
    the fan-out of [Publish] calls for sessions that cannot keep up: the three call each other.  [unregisterSession] is
    therefore a recursion with fuel; every other operation takes the one it uses as an argument.

    The signing of Agora tokens (server/agora) is an argument.  A session in a call is its id, user and kind; the copy that
    callPartySession makes of a proxied session is that session here. *)

From Stdlib Require Import NArith ZArith Lia List Ascii String Bool.
From stdpp Require Import base tactics numbers list strings gmap sets pretty.
From S2P Require Import Prelude AccessMode Uid StoreTypes Cluster Drafty Messages SubStore PubStore Topic TopicSub TopicSession.
From S2P Require Import OfficialGov Publish Notes Utils.
Import Objects.
Import Topic.

#[local] Open Scope string_scope.
#[local] Open Scope Z_scope.

Definition constCallEventRinging : string := "ringing".
Definition constCallEventAccept : string := "accept".
Definition constCallEventHangUp : string := "hang-up".
Definition constCallEventJoin : string := "join".
Definition constCallEventLeave : string := "leave".
Definition constCallEventRefresh : string := "refresh".
Definition constCallMsgAccepted : string := "accepted".
Definition constCallMsgFinished : string := "finished".
Definition constCallMsgDisconnected : string := "disconnected".
Definition constCallMsgMissed : string := "missed".
Definition constCallMsgDeclined : string := "declined".

(** ** The Agora provider *)

Record agoraProvider := mkAgora {
  appID : string; appCertificate : string; tokenTTL : Z; channelPrefix : string; maxParticipants : Z }.
Record agoraConfig := mkAgoraConfig {
  AppID : string; AppCertificate : string; TokenTTL : Z; ChannelPrefix : string; MaxParticipants : Z }.

(** The loops are over characters; a byte of a longer one is outside the ranges too. *)
Definition isAgoraHexIdentifier (value : string) : bool :=
  (String.length value =? 32)%nat &&
  all_chars (fun c => in_range 48 57 c || in_range 97 102 c || in_range 65 70 c) value.

Definition isSafeAgoraChannelPrefix (value : string) : bool :=
  all_chars (fun c => in_range 97 122 c || in_range 65 90 c || in_range 48 57 c || (c =? "-")%char || (c =? "_")%char) value &&
  negb (String.eqb value "").

Definition newAgoraProvider (config : agoraConfig) : agoraProvider + GoError :=
  let appID := TrimSpace config.(AppID) in
  let appCertificate := TrimSpace config.(AppCertificate) in
  if negb (isAgoraHexIdentifier appID) then inr (TextErr "Agora app_id must be a 32-character hexadecimal string")
  else if negb (isAgoraHexIdentifier appCertificate) then inr (TextErr "Agora app_certificate must be a 32-character hexadecimal string")
  else
    let ttl := if config.(TokenTTL) =? 0 then 3600 else config.(TokenTTL) in
    if (ttl <? 60) || (24 * 60 * 60 <? ttl) then inr (TextErr "Agora token_ttl must be between 60 and 86400 seconds")
    else
      let prefix := if String.eqb config.(ChannelPrefix) "" then "im" else config.(ChannelPrefix) in
      if (24 <? String.length prefix)%nat || negb (isSafeAgoraChannelPrefix prefix)
      then inr (TextErr "Agora channel_prefix must contain only letters, digits, hyphens, or underscores and be at most 24 bytes")
      else
        let max := if config.(MaxParticipants) =? 0 then 128 else config.(MaxParticipants) in
        if (max <? 2) || (10000 <? max) then inr (TextErr "Agora max_participants must be between 2 and 10000")
        else inl (mkAgora appID appCertificate (ttl * second) prefix max).

(** fmt's %x of bytes *)
Definition hex_digit (n : N) : ascii := ascii_of_N (if (n <? 10)%N then 48 + n else 87 + n).
Fixpoint hex (s : string) : string :=
  match s with
  | EmptyString => ""
  | String c s' => String (hex_digit (N_of_ascii c / 16)) (String (hex_digit (N_of_ascii c mod 16)) (hex s'))
  end.

Section Provider.
Context (sha256 : string -> string).

Definition channelName (p : agoraProvider) (topic : string) (seq : Z) : string :=
  p.(channelPrefix) ++ "_" ++ hex (String.substring 0 16 (sha256 (topic ++ ":" ++ Itoa seq))).

Definition participantUID (topic : string) (seq : Z) (userID sessionID : string) : Z :=
  let uid := Z.of_N (le_combine (String.substring 0 4 (sha256 (topic ++ ":" ++ Itoa seq ++ ":" ++ userID ++ ":" ++ sessionID)))) in
  if uid =? 0 then 1 else uid.
End Provider.

(** ** The call *)

Definition with_parties (c : videoCall) (ps : gmap string callPartyData) : videoCall :=
  mkCall ps c.(call_seq) c.(call_content) c.(contentMime) c.(acceptedAt) c.(provider) c.(call_channel) c.(originatorUid) c.(originatorSess).
Definition with_acceptedAt (c : videoCall) (at_ : Z) : videoCall :=
  mkCall c.(parties) c.(call_seq) c.(call_content) c.(contentMime) (Some at_) c.(provider) c.(call_channel) c.(originatorUid) c.(originatorSess).

(** [head] is made if it is nil, and changed. *)
Definition messageHead (call : videoCall) (head : option (list (string * Any))) (state : string) (duration : Z)
    : option (list (string * Any)) :=
  let head := head_set head "replace" (AStr (":" ++ Itoa call.(call_seq))) in
  let head := head_set head "webrtc" (AStr state) in
  let head := if String.eqb call.(provider) "" then head else head_set head "call-provider" (AStr call.(provider)) in
  let head := if 0 <? duration then head_set head "webrtc-duration" (AInt duration)
              else (fun m => map_delete m "webrtc-duration") <$> head in
  if is_nil call.(contentMime) then head else head_set head "mime" call.(contentMime).

(** [infoMessage], with what its callers set. *)
Definition infoMessage (call : videoCall) (topic from event : string) (payload : Any) (skip : string) : ServerComMessage :=
  mkServerMsg (Info (mkInfoMsg topic "" from "call" call.(call_seq) event payload "" false "")) "" skip.

Definition getCallOriginator (t : Topic) : Uid * option Session :=
  match t.(currentCall) with
  | None => (ZeroUid, None)
  | Some c =>
      if negb (IsZeroUid c.(originatorUid)) then (c.(originatorUid), c.(originatorSess))
      else match List.find (fun kv => (snd kv).(isOriginator)) (map_to_list c.(parties)) with
           | Some (_, p) => (p.(cp_uid), p.(cp_sess))
           | None => (ZeroUid, None)
           end
  end.

Definition has_agora (p : callPartyData) : bool := match p.(cp_agora) with Some _ => true | None => false end.

Definition agoraParticipantCount (t : Topic) : Z :=
  match t.(currentCall) with
  | None => 0
  | Some c => Z.of_nat (List.length (List.filter (fun kv => has_agora (snd kv)) (map_to_list c.(parties))))
  end.

Definition agoraRoleForParticipant (t : Topic) (userData : perUserData) (mode : AccessMode) : bool :=
  IsWriter mode && negb userData.(pud_isChan) && negb (isReadOnly t).

Definition infoCallSubsOffline (t : Topic) (from : string) (target : Uid) (event : string) (seq : Z) (sdp : Any) (skip : string)
    (offlineOnly : bool) : option (list Effect) :=
  if IsZeroUid target then Some []
  else
    let pud := user t target in
    let mode := pud.(modeGiven) &. pud.(modeWant) in
    if pud.(deleted) || negb (IsPresencer mode) || negb (IsReader mode) then Some []
    else
      src ← original t target;
      Some [RouteSrv (mkServerMsg (Info (mkInfoMsg "me" src from "call" seq event sdp "" false (if offlineOnly then t.(t_name) else "")))
              (UserId target) skip)].

(** ** Handlers *)

Section Calls.
Context {St : Type} `{Store : PubStore St}.
Context (now : Z) (health : option bool) (cluster : option Cluster) (businessPolicy : bool) (agora : option agoraProvider).
Context (time_text : Z -> string) (time_parse : string -> option Z) (moderation_parse : string -> option officialModerationState).
Context (sha256 : string -> string) (clusters : string -> list string) (sortSlice : list span -> list span) (nfkc : string -> string).
Context (queue_full : string -> bool) (joined : string -> string -> bool) (sessionStore : string -> option Session).
(** agora.BuildRTCToken: channel, user, whether a publisher, time to live in seconds. *)
Context (BuildRTCToken : string -> string -> string -> Z -> bool -> Z -> option string).
(** The last action and user agent of a session. *)
Context (lastAction : string -> Z) (sessUserAgent : string -> string).

Abbreviation HM A := (M (St := St) A) (only parsing).

(** [credentials] and their JSON *)
Definition credentials (p : agoraProvider) (call : videoCall) (userID sessionID : string) (publisher : bool)
    : option (Z * Any) :=
  if String.eqb call.(call_channel) "" then None
  else
    let uid := participantUID sha256 call.(call_channel) call.(call_seq) userID sessionID in
    token ← BuildRTCToken p.(appID) p.(appCertificate) call.(call_channel) uid publisher (Z.quot p.(tokenTTL) second);
    Some (uid, AMap [("provider", AStr constCallProviderAgora); ("app_id", AStr p.(appID)); ("channel", AStr call.(call_channel));
                     ("uid", AInt uid); ("user_id", AStr userID); ("token", AStr token);
                     ("expires_at", AInt (Z.quot (now + p.(tokenTTL)) second));
                     ("role", AStr (if publisher then "publisher" else "subscriber")); ("call_seq", AInt call.(call_seq))]).

(** A field of [t.currentCall] is read through the pointer. *)
Definition the_call : HM videoCall :=
  t <-- get_topic ;; lift_option "nil pointer dereference" t.(currentCall).
Definition the_session (msg : ClientComMessage) : HM Session := lift_option "nil pointer dereference" msg.(c_sess).
Definition set_party (c : videoCall) (s : string) (p : callPartyData) : HM unit :=
  modify (fun t => set_call t (Some (with_parties c (<[s := p]> c.(parties))))).

Section Events.
Context (unregisterSession : Session -> M (St := St) unit).

Abbreviation broadcast := (broadcastToSessions queue_full joined sessionStore unregisterSession).
Abbreviation publish := (saveAndBroadcastMessage now health cluster businessPolicy time_text time_parse moderation_parse sha256 clusters
  sortSlice nfkc queue_full joined sessionStore unregisterSession).

Definition with_user (msg : ClientComMessage) (asUser : string) : ClientComMessage :=
  mkClientMsg msg.(c_Id) msg.(c_Original) msg.(c_RcptTo) asUser msg.(c_Timestamp) msg.(c_sess) msg.(c_Pub) msg.(c_Note)
    msg.(c_Extra) msg.(c_scheduled).

Definition persistCallState (msg : ClientComMessage) (state : string) (duration : Z) : HM unit :=
  t <-- get_topic ;;
  let originator := fst (getCallOriginator t) in
  let msgCopy := with_user msg (UserId originator) in
  let originalHead := match msg.(c_Pub) with Some pub => pub.(p_Head) | None => None end in
  call <-- the_call ;;
  r <-- attempt (publish msgCopy originator false [] (messageHead call originalHead state duration) call.(call_content)) ;;
  match r with
  | inl _ => ret tt
  | inr e => the_call ;;; fail e
  end.

(** The state a call ends in and its duration in milliseconds. *)
Definition end_state (t : Topic) (call : videoCall) (from : string) (callDidTimeout : bool) : string * Z :=
  match call.(acceptedAt) with
  | Some at_ =>
      if negb (String.eqb from "") then (constCallMsgFinished, Z.quot (now - at_) 1000000)
      else (if callDidTimeout then constCallMsgMissed else constCallMsgDisconnected, 0)
  | None =>
      if negb (String.eqb from "")
      then (if String.eqb from (UserId (fst (getCallOriginator t))) then constCallMsgMissed else constCallMsgDeclined, 0)
      else (if callDidTimeout then constCallMsgMissed else constCallMsgDisconnected, 0)
  end.

Fixpoint notify_hangup (from : string) (targets : list Uid) : HM unit :=
  match targets with
  | [] => ret tt
  | target :: targets' =>
      call <-- the_call ;;
      t <-- get_topic ;;
      es <-- lift_option "Invalid P2P topic" (infoCallSubsOffline t from target constCallEventHangUp call.(call_seq) ANil "" true) ;;
      emit_all es ;;;
      notify_hangup from targets'
  end.

Definition maybeEndCallInProgress (from : string) (msg : ClientComMessage) (callDidTimeout : bool) : HM unit :=
  t <-- get_topic ;;
  match t.(currentCall) with
  | None => ret tt
  | Some call =>
      emit (CallTimer false) ;;;
      let '(state, duration) := end_state t call from callDidTimeout in
      r <-- attempt (persistCallState msg state duration) ;;
      match r with inl _ => ret tt | inr _ => the_call ;;; ret tt end ;;;
      call <-- the_call ;;
      t <-- get_topic ;;
      broadcast (infoMessage call t.(xoriginal) "" constCallEventHangUp ANil "") ;;;
      t <-- get_topic ;;
      notify_hangup from (map fst (map_to_list t.(perUser))) ;;;
      modify (fun t => set_call t None)
  end.

Definition terminateCallInProgress (callDidTimeout : bool) : HM unit :=
  t <-- get_topic ;;
  match t.(currentCall) with
  | None => ret tt
  | Some _ =>
      let '(uid, sess) := getCallOriginator t in
      match sess with
      | Some s =>
          if IsZeroUid uid then modify (fun t => set_call t None)
          else
            name <-- lift_option "Invalid P2P topic" (original t uid) ;;
            maybeEndCallInProgress "" (mkClientMsg "" name (UserId uid) (UserId uid) now (Some s) None None None None) callDidTimeout
      | None => modify (fun t => set_call t None)
      end
  end.

(** *** Leaving *)

Definition removeAgoraParty (sessionID : string) : HM unit :=
  call <-- the_call ;;
  match call.(parties) !! sessionID with
  | Some (mkParty uid orig sess (Some (media, publisher))) =>
      let call := with_parties call (delete sessionID call.(parties)) in
      modify (fun t => set_call t (Some call)) ;;;
      broadcast (infoMessage call "" (UserId uid) constCallEventLeave
        (AMap [("provider", AStr constCallProviderAgora); ("user_id", AStr (UserId uid)); ("uid", AInt media)]) sessionID)
  | _ => ret tt
  end.

(** Whether [sess] carries the party of the session [sessionID]. *)
Definition carries (sess : Session) (sessionID : string) (p : callPartyData) : bool :=
  match p.(cp_sess) with
  | Some ps => if isMultiplex sess then isProxy ps && match multi ps with Some m => String.eqb (sid m) (sid sess) | None => false end
               else String.eqb sessionID (sid sess)
  | None => String.eqb sessionID (sid sess)
  end.

(** The loop over the parties.  Entries deleted meanwhile are not visited; when the call has ended meanwhile, none is left
    that has media.  The result is the user of the last party removed. *)
Fixpoint disconnect_loop (sess : Session) (ids : list string) (lastUID : Uid) : HM Uid :=
  match ids with
  | [] => ret lastUID
  | sessionID :: ids' =>
      t <-- get_topic ;;
      match (c ← t.(currentCall); c.(parties) !! sessionID) with
      | Some p =>
          if carries sess sessionID p && has_agora p
          then removeAgoraParty sessionID ;;; disconnect_loop sess ids' p.(cp_uid)
          else disconnect_loop sess ids' lastUID
      | None => disconnect_loop sess ids' lastUID
      end
  end.

Definition disconnectAgoraCallSessions (msg : ClientComMessage) (sess : Session) : HM unit :=
  t <-- get_topic ;;
  match t.(currentCall) with
  | None => ret tt
  | Some call =>
      if negb (String.eqb call.(provider) constCallProviderAgora) then ret tt
      else
        lastUID <-- disconnect_loop sess (map fst (map_to_list call.(parties))) ZeroUid ;;
        t <-- get_topic ;;
        when ((agoraParticipantCount t =? 0) && negb (IsZeroUid lastUID))
          (maybeEndCallInProgress (UserId lastUID) (with_user msg (UserId lastUID)) false)
  end.

Definition leaveAgoraCall (msg : ClientComMessage) (asUid : Uid) : HM unit :=
  call <-- the_call ;;
  sess <-- the_session msg ;;
  match call.(parties) !! sid sess with
  | Some p =>
      if has_agora p && (p.(cp_uid) =? asUid)%N then
        removeAgoraParty (sid sess) ;;;
        t <-- get_topic ;;
        when (agoraParticipantCount t =? 0) (maybeEndCallInProgress msg.(c_AsUser) msg false)
      else ret tt
  | None => ret tt
  end.

(** *** Joining *)

Definition markAgoraCallAccepted (msg : ClientComMessage) : HM unit :=
  persistCallState msg constCallMsgAccepted 0 ;;;
  call <-- the_call ;;
  modify (fun t => set_call t (Some (with_acceptedAt call now))) ;;;
  emit (CallTimer false).

(** [if msg.Id != "" { msg.sess.queueOut(...) }] *)
Definition answer_to (msg : ClientComMessage) (c : string -> MsgServerCtrl) : HM unit :=
  when_asked msg (s <-- the_session msg ;; queueOut s (CtrlReply (c msg.(c_Original)))).

Definition issueAgoraCallCredentials (msg : ClientComMessage) (asUid : Uid) (mode : AccessMode) (refresh : bool) : HM unit :=
  match agora with
  | None => answer_to msg Ctrl.ErrNotImplemented
  | Some provider =>
      call <-- the_call ;;
      sess <-- the_session msg ;;
      let party := call.(parties) !! sid sess in
      let in_media := match party with Some p => has_agora p | None => false end in
      t <-- get_topic ;;
      if refresh && negb in_media then answer_to msg Ctrl.ErrMalformed
      else if negb in_media && (provider.(maxParticipants) <=? agoraParticipantCount t) then answer_to msg Ctrl.ErrCallBusy
      else
        let role := agoraRoleForParticipant t (user t asUid) mode in
        match credentials provider call (UserId asUid) (sid sess) role with
        | None => answer_to msg Ctrl.ErrServiceUnavailable
        | Some (uid, payload) =>
            marked <-- (if negb refresh && match call.(acceptedAt) with None => true | Some _ => false end
                        then r <-- attempt (markAgoraCallAccepted msg) ;; ret (match r with inl _ => true | inr _ => false end)
                        else ret true) ;;
            if negb marked then ret tt
            else
              call <-- the_call ;;
              set_party call (sid sess)
                (match party with
                 | Some p => mkParty p.(cp_uid) p.(isOriginator) p.(cp_sess) (Some (uid, role))
                 | None => mkParty asUid false (Some sess) (Some (uid, role))
                 end) ;;;
              t <-- get_topic ;;
              name <-- lift_option "Invalid P2P topic" (original t asUid) ;;
              emit (SendTo (sid sess) (infoMessage call name (UserId asUid) (if refresh then constCallEventRefresh else constCallEventJoin)
                                         payload ""))
        end
  end.

(** *** Two parties *)

Definition handleP2PCallAnswer (msg : ClientComMessage) (asUid : Uid) (event : string) (payload : Any) : HM unit :=
  call <-- the_call ;;
  if negb (Nat.eqb (size call.(parties)) 1) then ret tt
  else
    t <-- get_topic ;;
    match getCallOriginator t with
    | (_, None) => terminateCallInProgress false
    | (originatorUID, Some originator) =>
        sess <-- the_session msg ;;
        if String.eqb (sid originator) (sid sess) || (originatorUID =? asUid)%N then ret tt
        else
          name <-- lift_option "Invalid P2P topic" (original t originatorUID) ;;
          let forward := infoMessage call name msg.(c_AsUser) event ANil "" in
          accepted <-- (if String.eqb event constCallEventAccept then
                          r <-- attempt (persistCallState msg constCallMsgAccepted 0) ;;
                          match r with
                          | inr _ => ret false
                          | inl _ =>
                              call <-- the_call ;;
                              modify (fun t => set_call t (Some (with_acceptedAt
                                (with_parties call (<[sid sess := mkParty asUid false (Some sess) None]> call.(parties))) now))) ;;;
                              t <-- get_topic ;;
                              es <-- lift_option "Invalid P2P topic"
                                       (infoCallSubsOffline t msg.(c_AsUser) asUid event call.(call_seq) payload (sid sess) false) ;;
                              emit_all es ;;; emit (CallTimer false) ;;; ret true
                          end
                        else ret true) ;;
          when accepted (emit (SendTo (sid originator) forward))
    end.

Definition canHangUpP2PCall (t : Topic) (call : videoCall) (sess : Session) (asUid : Uid) : bool :=
  match size call.(parties) with
  | 2%nat => bool_decide (is_Some (call.(parties) !! sid sess))
  | 1%nat => match getCallOriginator t with
             | (_, None) => false
             | (u, Some s) => negb (asUid =? u)%N || String.eqb (sid s) (sid sess)
             end
  | _ => true
  end.

(** *** Events *)

Definition handleAgoraCallEvent (msg : ClientComMessage) (note : MsgClientNote) (asUid : Uid) : HM unit :=
  t <-- get_topic ;;
  let userData := user t asUid in
  let mode := userData.(modeGiven) &. userData.(modeWant) in
  let event := note.(n_Event) in
  if userData.(deleted) || negb (IsJoiner mode) || negb (IsReader mode) then answer_to msg Ctrl.ErrPermissionDenied
  else if String.eqb event constCallEventJoin || String.eqb event constCallEventRefresh
  then issueAgoraCallCredentials msg asUid mode (String.eqb event constCallEventRefresh)
  else if String.eqb event constCallEventLeave then leaveAgoraCall msg asUid
  else if String.eqb event constCallEventHangUp then
    if cat_eqb t.(t_cat) TopicCatP2P then
      call <-- the_call ;;
      sess <-- the_session msg ;;
      when (canHangUpP2PCall t call sess asUid) (maybeEndCallInProgress msg.(c_AsUser) msg false)
    else if negb (asUid =? fst (getCallOriginator t))%N && negb (IsAdmin mode) then answer_to msg Ctrl.ErrPermissionDenied
    else maybeEndCallInProgress msg.(c_AsUser) msg false
  else if String.eqb event constCallEventRinging || String.eqb event constCallEventAccept then
    if cat_eqb t.(t_cat) TopicCatP2P then handleP2PCallAnswer msg asUid event note.(n_Payload)
    else answer_to msg Ctrl.ErrOperationNotAllowed
  else answer_to msg Ctrl.ErrMalformed.

Definition call_policy (asUid : Uid) : HM unit :=
  t <-- get_topic ;;
  match t.(t_cat) with
  | TopicCatP2P =>
      other <-- lift_option "Not a valid P2P topic" (p2pOtherUser t asUid) ;;
      checked (authorize_uids asUid other "call" t.(t_name))
  | TopicCatGrp =>
      let originator := fst (getCallOriginator t) in
      if IsZeroUid originator then fail (StoreErr ErrPolicy) else checked (authorize_uids asUid originator "call" t.(t_name))
  | _ => ret tt
  end.

Definition handleCallEvent (msg : ClientComMessage) (note : MsgClientNote) : HM unit :=
  t <-- get_topic ;;
  match t.(currentCall) with
  | None => ret tt
  | Some call =>
      if isInactive t then ret tt
      else if negb (call.(call_seq) =? note.(n_SeqId)) then ret tt
      else
        let asUid := ParseUserId msg.(c_AsUser) in
        if bool_decide (t.(perUser) !! asUid = None) then ret tt
        else
          r <-- attempt (checkOfficialPublish now moderation_parse asUid "call") ;;
          match r with
          | inr _ => reply msg (Ctrl.ErrPermissionDenied msg.(c_Original))
          | inl _ =>
              allowed <-- (if negb (String.eqb note.(n_Event) constCallEventHangUp) && negb (String.eqb note.(n_Event) constCallEventLeave) &&
                              businessPolicy
                           then attempt (call_policy asUid) else ret (inl tt)) ;;
              match allowed with
              | inr e =>
                  reply msg ((if bool_decide (e = errBusinessPolicyUnavailable) || bool_decide (e = errBusinessPolicyRateLimited)
                              then Ctrl.ErrServiceUnavailable else Ctrl.ErrPermissionDenied) msg.(c_Original))
              | inl _ =>
                  call <-- the_call ;;
                  if negb (String.eqb call.(provider) constCallProviderAgora) then ret tt
                  else handleAgoraCallEvent msg note asUid
              end
          end
  end.

(** *** unregisterSession, with the one its broadcasts use

    [sess] leaves with [msg]: [init] and [unsub] of the request, its topic and user. *)
Definition unregister_with (msg : ClientComMessage) (sess : Session) (init unsub : bool) : HM unit :=
  t <-- get_topic ;;
  match t.(currentCall) with
  | None => ret tt
  | Some call =>
      if String.eqb call.(provider) constCallProviderAgora then disconnectAgoraCallSessions msg sess
      else
        let carried :=
          if isMultiplex sess
          then existsb (fun kv => match (snd kv).(cp_sess) with Some s => carries sess (fst kv) (snd kv) | None => false end)
                 (map_to_list call.(parties))
          else bool_decide (is_Some (call.(parties) !! sid sess)) in
        when carried (terminateCallInProgress false)
  end ;;;
  handleLeaveRequest lastAction sessUserAgent sess init unsub msg.(c_Original) (ParseUserId msg.(c_AsUser)) ;;;
  t <-- get_topic ;;
  when (bool_decide (t.(t_sessions) = ∅) && negb (cat_eqb t.(t_cat) TopicCatSys)) (emit ResetKillTimer).
End Events.

(** The message of a dropped session: nothing but the session. *)
Definition drop_message (sess : Session) : ClientComMessage := mkClientMsg "" "" "" "" 0 (Some sess) None None None None.

(** [unregisterSession] for a dropped session; each level of fuel is a broadcast in a broadcast. *)
Fixpoint unregisterSession (fuel : nat) (sess : Session) : HM unit :=
  match fuel with
  | O => panic "out of fuel"
  | S fuel' => unregister_with (unregisterSession fuel') (drop_message sess) sess false false
  end.
End Calls.
