(* ===== verification/PublishSample.v ===== *)
(** * PublishSample: a group with a few messages, for concrete runs

    The group [sample_topic] with two sessions, a [PubMem] store that holds its last message, and the handlers
    of [Publish] and [Notes] applied to concrete functions for the parameters. *)

From Stdlib Require Import NArith ZArith Lia List Ascii String Bool.
From stdpp Require Import base tactics numbers list strings gmap sets.
From S2P Require Import Prelude AccessMode Uid StoreTypes Fence Cluster Drafty Messages SubStore PCache PubStore Topic.
From S2P Require Import TopicSub TopicSubProps OfficialGov Publish Notes.
Import Objects.
Import Topic.

#[local] Open Scope string_scope.
#[local] Open Scope Z_scope.

Definition hash (s : string) : string := "h" ++ s.
Definition text_of_time (z : Z) : string := String (ascii_of_N (Z.to_N z)) "".
Definition time_of_text (s : string) : option Z :=
  match s with String c EmptyString => Some (Z.of_N (N_of_ascii c)) | _ => None end.
Definition no_moderation (_ : string) : option officialModerationState := None.

#[global] Instance sample_pub : PubStore PubMem := PubMemStore hash.
#[global] Instance sample_laws : PubStoreLaws PubMem := PubMemLaws hash.

Definition session (name : string) (u : Uid) : Session := mkSession name u ProtoClient false None.
Definition joined_as (s : Session) : Session * perSessionData := (s, mkPsd (sess_uid s) false []).

Definition chat_topic : Topic :=
  set_sessions sample_topic {[ "s2" := joined_as (session "s2" 2); "s3" := joined_as (session "s3" 3) ]}.

Definition message_of (seq : Z) (u : Uid) (cid : string) (head : option (list (string * Any))) (content : Any) : Message :=
  mkMessage seq "grpA" (UidString u) cid (MessageClientKey hash u cid) "" 0 "" 1 1 None 0 head content "".

Definition chat_store (faults : list Faults) : PubMem :=
  mkPubMem (sample_store [])
    (mkDB ∅ {[ "grpA" := mkTopicRow 10 0 "" 0 ]} [(50%N, message_of 10 3 "c10" (Some [("x-kind", AStr "text")]) (AStr "hello"))])
    faults 60 ∅ [] {[ "/v0/file/s/secret" := 2%N ]} [] [].

Definition chat (faults : list Faults) : World PubMem := mkWorld chat_topic (chat_store faults) [].

Section Runs.
Context (now : Z) (queue_full : string -> bool).
Abbreviation drop := (fun _ => ret (St := PubMem) tt).

Definition run_publish := saveAndBroadcastMessage (St := PubMem) now None None false text_of_time time_of_text no_moderation hash byte_clusters
  sort_spans (fun s => s) queue_full (fun _ _ => false) (fun _ => None) drop.
Definition run_pub := handlePubBroadcast (St := PubMem) now None None false None text_of_time time_of_text no_moderation hash byte_clusters
  sort_spans (fun s => s) queue_full (fun _ _ => false) (fun _ => None) drop.
Definition run_note := handleNoteBroadcast (St := PubMem) now None no_moderation byte_clusters sort_spans (fun s => s) queue_full
  (fun _ _ => false) (fun _ => None) drop (fun _ => ret tt).
End Runs.

(** A {pub} of the member [u] from the session [name]. *)
Definition pub_of (cid : string) (replace : Z) (head : option (list (string * Any))) (content : Any) : MsgClientPub :=
  mkPub cid false "" 0 replace None "" None head content.
Definition request (name : string) (u : Uid) (pub : MsgClientPub) : ClientComMessage :=
  mkClientMsg "1" "grpA" "grpA" (UserId u) 5 (Some (session name u)) (Some pub) None None None.
Definition note_request (name : string) (u : Uid) (note : MsgClientNote) : ClientComMessage :=
  mkClientMsg "1" "grpA" "grpA" (UserId u) 5 (Some (session name u)) None (Some note) None None.

Definition publish_run (faults : list Faults) (cid : string) : World PubMem * Res unit :=
  run_publish 100 (fun _ => false) (request "s3" 3 (pub_of cid 0 None (AStr "hi"))) 3 false [] None (AStr "hi") (chat faults).

Example publish_run_ok :
  (publish_run [] "c11").2 = Ret tt /\ (publish_run [] "c11").1.(w_topic).(lastID) = 11 /\
  List.length (publish_run [] "c11").1.(w_store).(pm_db).(messages) = 2%nat.
Proof. vm_compute. done. Qed.
