(* ===== verification/PublishProps.v ===== *)
(** * PublishProps: properties of publishing

    What [Publish] promises about the log of a topic: who may add to it, which position a message gets,
    what a failure leaves behind, who is sent the message. *)

From Stdlib Require Import NArith ZArith Lia List Ascii String Bool.
From stdpp Require Import base tactics numbers list strings gmap sets.
From S2P Require Import Prelude AccessMode Uid StoreTypes Fence Cluster Drafty Messages SubStore PCache PubStore Topic.
From S2P Require Import TopicSub TopicSession OfficialGov Publish Notes PublishSample.
Import Objects.
Import Topic.

#[local] Open Scope string_scope.
#[local] Open Scope Z_scope.

(** ** Steps that leave the log alone

    The log of a topic: its position and name in memory, its messages in the store. *)

Definition core (t : Topic) : string * string * TopicCat * bool * Z := (t.(t_name), t.(xoriginal), t.(t_cat), t.(t_isChan), t.(lastID)).

Section Keeps.
Context {St : Type} `{Laws : PubStoreLaws St}.

Definition log_of (w : World St) : string * string * TopicCat * bool * Z * list (Uid * Message) := (core w.(w_topic), stored w.(w_store)).

(** [m] run in a world with the log [l] ends in one. *)
Definition keeps l {A} (m : M (St := St) A) : Prop := forall w, log_of w = l -> log_of (m w).1 = l.

Context (l : string * string * TopicCat * bool * Z * list (Uid * Message)).

Lemma keeps_bind {A B} (m : M (St := St) A) (k : A -> M B) : keeps l m -> (forall a, keeps l (k a)) -> keeps l (bind m k).
Proof.
  intros Hm Hk w Hw. specialize (Hm w Hw). unfold bind. destruct (m w) as [w1 [a|e|p]]; [by apply Hk|done|done].
Qed.

Lemma keeps_get {B} (k : Topic -> M (St := St) B) :
  (forall t, core t = l.1 -> keeps l (k t)) -> keeps l (bind get_topic k).
Proof. intros Hk w Hw. apply (Hk (w_topic w)); [|done]. by rewrite <- Hw. Qed.

Lemma keeps_set t : core t = l.1 -> keeps l (set_topic (St := St) t).
Proof. intros Ht w Hw. cbn. rewrite <- Hw in Ht |- *. unfold log_of. cbn in *. by rewrite Ht. Qed.

Lemma keeps_modify (f : Topic -> Topic) : (forall t, core (f t) = core t) -> keeps l (modify (St := St) f).
Proof. intros Hf. apply keeps_get. intros t Ht. apply keeps_set. by rewrite Hf. Qed.

Lemma keeps_call {A} (f : St -> St * A) : (forall s, stored (f s).1 = stored s) -> keeps l (call f).
Proof. intros Hf w Hw. unfold call. specialize (Hf (w_store w)). destruct (f _). unfold log_of in *. cbn in *. by rewrite Hf. Qed.

Lemma keeps_ret {A} (a : A) : keeps l (ret a). Proof. by intros w. Qed.
Lemma keeps_fail {A} e : keeps l (fail (A := A) e). Proof. by intros w. Qed.
Lemma keeps_panic {A} p : keeps l (panic (A := A) p). Proof. by intros w. Qed.
Lemma keeps_emit e : keeps l (emit e). Proof. by intros w. Qed.
Lemma keeps_lift {A} s (o : option A) : keeps l (lift_option s o). Proof. by destruct o; intros w. Qed.
Lemma keeps_lift_out {A} (o : Out A) : keeps l (lift_out o). Proof. by destruct o; intros w. Qed.
Lemma keeps_attempt {A} (m : M (St := St) A) : keeps l m -> keeps l (attempt m).
Proof. intros Hm w Hw. specialize (Hm w Hw). unfold attempt. by destruct (m w) as [w1 [a|e|p]]. Qed.
Lemma keeps_when b (m : M (St := St) unit) : keeps l m -> keeps l (when b m). Proof. by destruct b; [|intros _ w]. Qed.
Lemma keeps_emit_all es : keeps l (emit_all es).
Proof. induction es; simpl; [apply keeps_ret|]. by apply keeps_bind; [apply keeps_emit|]. Qed.
End Keeps.

Create HintDb keeps.
#[export] Hint Resolve keeps_ret keeps_fail keeps_panic keeps_emit keeps_lift keeps_lift_out keeps_emit_all : keeps.

Ltac keep_step :=
  match goal with
  | |- forall _, _ => intro
  | |- keeps _ (if ?b then _ else _) => destruct b
  | |- keeps _ (match ?x with _ => _ end) => destruct x
  | |- keeps _ (bind get_topic _) => apply keeps_get
  | |- keeps _ (bind _ _) => apply keeps_bind
  | |- keeps _ (attempt _) => apply keeps_attempt
  | |- keeps _ (when _ _) => apply keeps_when
  | |- keeps _ (set_topic _) => apply keeps_set; first [done | congruence | solve [unfold cacheSubscriber; repeat case_match; done]]
  | |- keeps _ (modify _) => apply keeps_modify; done
  | |- keeps _ _ => solve [eauto with keeps]
  | |- keeps _ (call _) => apply keeps_call; intro
  | |- stored _ = stored _ => solve [eauto with keeps]
  end.
Ltac keep := repeat keep_step.

#[export] Hint Resolve law_subs_get law_subs_update law_refresh law_uid law_schedule law_scheduled law_unschedule law_aux law_assets
  law_attach law_link law_authorize law_archive law_cache_get run_cache_stored : keeps.

Lemma core_cache t s : core (cacheSubscriber t s) = core t.
Proof. unfold cacheSubscriber. by repeat case_match. Qed.

Section KeepsSteps.
Context {St : Type} `{Laws : PubStoreLaws St}.
Context (now : Z) (health : option bool) (cluster : option Cluster) (businessPolicy : bool) (agora : option (string -> Z -> string)).
Context (time_text : Z -> string) (time_parse : string -> option Z) (moderation_parse : string -> option officialModerationState).
Context (sha256 : string -> string) (clusters : string -> list string) (sortSlice : list span -> list span) (nfkc : string -> string).
Context (l : string * string * TopicCat * bool * Z * list (Uid * Message)).

Lemma keeps_queueOut s r : keeps l (queueOut (St := St) s r). Proof. by intros w. Qed.
#[local] Hint Resolve keeps_queueOut : keeps.
Lemma keeps_reply msg c : keeps l (reply (St := St) msg c). Proof. unfold reply. keep. Qed.
Lemma keeps_reply_as msg u c : keeps l (reply_as (St := St) msg u c). Proof. unfold reply_as. keep. Qed.
#[local] Hint Resolve keeps_reply keeps_reply_as : keeps.
Lemma keeps_when_asked msg (m : M (St := St) unit) : keeps l m -> keeps l (when_asked msg m).
Proof. apply keeps_when. Qed.
Lemma keeps_refuse {A} msg u c e : keeps l (refuse (St := St) (A := A) msg u c e). Proof. unfold refuse. keep. Qed.
Lemma keeps_checked (f : St -> St * option GoError) : (forall s, stored (f s).1 = stored s) -> keeps l (checked f).
Proof. intros Hf. unfold checked. apply keeps_bind; [by apply keeps_call|keep]. Qed.
Lemma keeps_fetch {A} (f : St -> St * (A + GoError)) : (forall s, stored (f s).1 = stored s) -> keeps l (fetch f).
Proof. intros Hf. unfold fetch. apply keeps_bind; [by apply keeps_call|keep]. Qed.
Lemma get_stored topic seq (s : St) : stored (message_get topic seq s).1 = stored s.
Proof. apply law_message_get. Qed.
Lemma by_client_stored topic u c (s : St) : stored (message_by_client topic u c s).1 = stored s.
Proof. apply law_by_client. Qed.
#[local] Hint Resolve keeps_refuse keeps_checked keeps_fetch get_stored by_client_stored : keeps.

Lemma keeps_refresh_policy : keeps l (refreshOfficialPolicy (St := St) now).
Proof. unfold refreshOfficialPolicy. keep. Qed.
#[local] Hint Resolve keeps_refresh_policy : keeps.

Lemma keeps_channel_member u : keeps l (refreshOfficialChannelMember (St := St) now u).
Proof. unfold refreshOfficialChannelMember, must. keep. Qed.
#[local] Hint Resolve keeps_channel_member : keeps.

Lemma keeps_large_member u : keeps l (refreshOfficialLargeMember (St := St) now u).
Proof. unfold refreshOfficialLargeMember. keep; apply keeps_set; cbn; by rewrite ?core_cache. Qed.
#[local] Hint Resolve keeps_large_member : keeps.

Lemma keeps_moderation u : keeps l (loadOfficialModeration (St := St) now moderation_parse u).
Proof. unfold loadOfficialModeration. keep. Qed.
#[local] Hint Resolve keeps_moderation : keeps.

Lemma keeps_check u scope : keeps l (checkOfficialPublish (St := St) now moderation_parse u scope).
Proof. unfold checkOfficialPublish, must. keep. Qed.
#[local] Hint Resolve keeps_check : keeps.

Lemma keeps_authorize u action : keeps l (authorizeBusinessAction (St := St) businessPolicy u action).
Proof. unfold authorizeBusinessAction. keep. Qed.
#[local] Hint Resolve keeps_authorize : keeps.

Lemma keeps_archive msg u m : keeps l (archiveForCompliance (St := St) businessPolicy msg u m).
Proof. unfold archiveForCompliance. keep. Qed.

Lemma keeps_may_publish msg u scope :
  keeps l (may_publish (St := St) now businessPolicy time_text time_parse moderation_parse msg u scope).
Proof. unfold may_publish. keep. Qed.

Lemma keeps_from_stored topic from m : keeps l (from_stored (St := St) time_parse clusters sortSlice topic from m).
Proof. unfold from_stored. keep. Qed.
End KeepsSteps.

#[export] Hint Resolve keeps_queueOut keeps_reply keeps_reply_as keeps_when_asked keeps_refuse keeps_checked keeps_fetch get_stored by_client_stored
  keeps_refresh_policy keeps_channel_member keeps_large_member keeps_moderation keeps_check keeps_authorize keeps_archive
  keeps_may_publish keeps_from_stored : keeps.

(** ** How the log grows *)

Section Log.
Context {St : Type} `{Laws : PubStoreLaws St}.

Definition log_same (w w' : World St) : Prop := log_of w' = log_of w.

(** Messages are only added at the end, positions only grow. *)
Definition log_grows (w w' : World St) : Prop :=
  w'.(w_topic).(t_name) = w.(w_topic).(t_name) /\ w.(w_topic).(lastID) <= w'.(w_topic).(lastID) /\
  exists l, stored w'.(w_store) = (stored w.(w_store) ++ l)%list.

#[global] Instance log_same_preorder : PreOrder log_same.
Proof. split; [done|]. intros a b c H1 H2. unfold log_same in *. congruence. Qed.

#[global] Instance log_grows_preorder : PreOrder log_grows.
Proof.
  split.
  - intros w. split; [done|]. split; [lia|]. exists []. by rewrite app_nil_r.
  - intros a b c (N1 & L1 & l1 & S1) (N2 & L2 & l2 & S2). split; [congruence|]. split; [lia|].
    exists (l1 ++ l2)%list. by rewrite S2, S1, app_assoc.
Qed.

Lemma log_same_grows w w' : log_same w w' -> log_grows w w'.
Proof.
  unfold log_same, log_of, core. intros E. injection E as E1 E2 E3 E4 E5 E6. split; [done|]. split; [lia|]. exists [].
  by rewrite app_nil_r, E6.
Qed.

Lemma keeps_frame {A} (m : M (St := St) A) : (forall l, keeps l m) -> frame log_same m.
Proof. intros Hm w. by apply (Hm (log_of w) w). Qed.

Lemma keeps_run {A} (m : M (St := St) A) w w' r : (forall l, keeps l m) -> m w = (w', r) -> log_same w w'.
Proof. intros Hm E. pose proof (keeps_frame m Hm w) as F. by rewrite E in F. Qed.

(** A step that leaves the log alone either ends the run or goes on. *)
Lemma keeps_bind_inv {A B} (m : M (St := St) A) (k : A -> M B) w w' r :
  (forall l, keeps l m) -> bind m k w = (w', r) ->
  (log_same w w' /\ forall b, r <> Ret b) \/ exists w1 a, m w = (w1, Ret a) /\ log_same w w1 /\ k a w1 = (w', r).
Proof.
  intros Hm. unfold bind. destruct (m w) as [w1 [a|e|p]] eqn:E; pose proof (keeps_run m _ _ _ Hm E) as S1.
  - intros Ek. right. by exists w1, a.
  - intros [= <- <-]. by left.
  - intros [= <- <-]. by left.
Qed.

Lemma refuse_not_ret {A} msg u c e (w w' : World St) (a : A) : refuse msg u c e w <> (w', Ret a).
Proof. unfold refuse. by intros (? & ? & _ & [=])%bind_ret_inv. Qed.

(** The bind rule that knows the world. *)
Lemma rel_bind (R : World St -> World St -> Prop) `{!PreOrder R} {A B} (m : M (St := St) A) (k : A -> M B) w :
  R w (m w).1 -> (forall w1 a, m w = (w1, Ret a) -> R w1 (k a w1).1) -> R w (bind m k w).1.
Proof.
  intros Hm Hk. unfold bind. destruct (m w) as [w1 [a|e|p]] eqn:E; cbn in *; [|done|done].
  etransitivity; [exact Hm|by apply Hk].
Qed.

Context (now : Z) (health : option bool) (cluster : option Cluster) (businessPolicy : bool).
Context (time_text : Z -> string) (time_parse : string -> option Z) (moderation_parse : string -> option officialModerationState).
Context (sha256 : string -> string) (clusters : string -> list string) (sortSlice : list span -> list span) (nfkc : string -> string).
Context (queue_full : string -> bool) (joined : string -> string -> bool) (sessionStore : string -> option Session).
Context (unregisterSession : Session -> M (St := St) unit).

Abbreviation broadcast := (broadcastToSessions queue_full joined sessionStore unregisterSession).
Abbreviation save := (Messages_Save now sha256 clusters sortSlice nfkc).

(** *** Saving *)

Definition same_message (m m' : Message) : Prop :=
  m'.(m_SeqId) = m.(m_SeqId) /\ m'.(m_Topic) = m.(m_Topic) /\ m'.(m_From) = m.(m_From) /\ m'.(m_ClientId) = m.(m_ClientId) /\
  m'.(m_Head) = m.(m_Head) /\ m'.(m_Content) = m.(m_Content).

Lemma InitClientKey_same m : same_message m (InitClientKey sha256 m).
Proof. unfold InitClientKey. destruct (String.eqb _ _); by repeat split. Qed.

Lemma Messages_Save_cases m attachments rb (w w' : World St) r :
  save m attachments rb w = (w', r) ->
  core w'.(w_topic) = core w.(w_topic) /\
  match r with
  | Ret (m', _) => same_message m m' /\
      exists id key, stored w'.(w_store) = (stored w.(w_store) ++ [(id, with_key m' key)])%list
  | Err _ => stored w'.(w_store) = stored w.(w_store) \/
      exists id m', same_message m m' /\ stored w'.(w_store) = (stored w.(w_store) ++ [(id, m')])%list
  | Topic.Panic _ => stored w'.(w_store) = stored w.(w_store)
  end.
Proof.
  unfold Messages_Save. set (created := if _ =? 0 then _ else _). unfold bind at 1, call at 1.
  pose proof (law_uid (w_store w)) as Hu. destruct (store_uid (w_store w)) as [s1 id]. cbn [fst snd] in Hu.
  destruct (SearchText _ _ _ _) as [text|e|p]; cbn [lift_out bind ret panic]; [|intros [= <- <-]; by auto|intros [= <- <-]; by auto].
  set (m1 := mkMessage _ _ _ _ _ _ _ _ _ _ _ _ _ _ _). set (m0 := InitClientKey _ _).
  assert (same_message m m0) as H0m by apply (InitClientKey_same m1).
  clearbody m0. clear m1. unfold bind at 1, checked, bind at 1, call at 1. cbn [w_store w_topic w_out].
  pose proof (law_message_save id m0 s1) as Hs. cbv zeta in Hs. destruct (message_save_atomic id m0 s1) as [s2 err].
  cbn [fst snd] in Hs. rewrite Hu in Hs.
  destruct err as [e|]; cbn [fail ret].
  - intros [= <- <-]. split; [done|]. destruct Hs as [[Hs _]|(key & Hs & _)]; [by left|right]. by exists id, (with_key m0 key).
  - destruct Hs as [[_ Hs]|(key & Hs & _)]; [done|].
    set (w2 := mkWorld (w_topic w) s2 (w_out w)).
    match goal with |- ?x w2 = _ -> _ => set (tail := x) end. intros E.
    assert (forall l, keeps l tail) as Ht by (intros l; unfold tail; keep).
    assert (match r with Ret (m', _) => m' = m0 | _ => False end) as Hr.
    { revert E. unfold tail, bind, ret, call. destruct (_ && _); [destruct (subs_update _ _ _ _) as [? [|]]|];
        destruct attachments; try (intros [= _ <-]; done); destruct (link_attachments _ _ _ _); intros [= _ <-]; done. }
    apply keeps_run in E; [|done]. unfold log_same, log_of in E. injection E as E1 E2 E3 E4 E5 E6.
    split; [unfold core; cbn in *; congruence|]. rewrite E6. destruct r as [[m' mk]|e|p]; [|done|done]. subst m'.
    split; [done|]. by exists id, key.
Qed.

(** *** Fanning out *)

Lemma keeps_broadcast_loop t msg ss v l : keeps l (broadcast_loop (St := St) queue_full joined sessionStore t msg ss v).
Proof. revert v. induction ss as [|[k [s p]] ss IH]; intros v; simpl; keep; apply IH. Qed.

Lemma broadcast_frame (R : World St -> World St -> Prop) `{!PreOrder R} msg :
  (forall w w', log_same w w' -> R w w') -> (forall s, frame R (unregisterSession s)) -> frame R (broadcast msg).
Proof.
  intros HR Hu w. unfold broadcastToSessions. apply (rel_bind R); [by apply HR|]. intros w1 t E.
  apply (rel_bind R).
  { apply HR. apply keeps_frame. intros l. apply keeps_broadcast_loop. }
  intros w2 ds _. clear E. revert w2. induction ds as [|s ds IH]; intros w2; simpl; [reflexivity|].
  apply (rel_bind R); [apply Hu|]. intros w3 [] _. apply IH.
Qed.

(** Nobody is dropped when no queue is full. *)
Lemma no_drops t msg ss v (w w' : World St) ds :
  (forall s, queue_full s = false) -> broadcast_loop queue_full joined sessionStore t msg ss v w = (w', Ret ds) -> ds = [].
Proof.
  intros Hq. revert v w w' ds. induction ss as [|[k [s p]] ss IH]; intros v w w' ds; simpl; [by intros [= _ <-]|].
  destruct (passed_over _ _ _ _ _ _); [apply IH|]. intros (w1 & c & _ & E)%bind_ret_inv.
  apply bind_ret_inv in E as (w2 & [] & _ & E). apply bind_ret_inv in E as (w3 & d & E1 & E2). rewrite Hq in E2.
  apply IH in E1 as ->. by injection E2 as _ <-.
Qed.

Lemma broadcast_same msg : (forall s, queue_full s = false) -> frame log_same (broadcast msg).
Proof.
  intros Hq w. unfold broadcastToSessions. apply (rel_bind log_same); [reflexivity|]. intros w1 t _.
  apply (rel_bind log_same).
  { apply keeps_frame. intros l. apply keeps_broadcast_loop. }
  intros w2 ds E. apply no_drops in E as ->; [reflexivity|done].
Qed.
End Log.

(** ** What a publication does to the log *)

(** The message a request asks for: the next position, the topic, the sender, the client's id, the header with the
    true sender, the content. *)
Definition as_requested (t : Topic) (msg : ClientComMessage) (asUid : Uid) (head : Head) (content : Any) (m : Message) : Prop :=
  m.(m_SeqId) = t.(lastID) + 1 /\ m.(m_Topic) = t.(t_name) /\ m.(m_From) = UidString asUid /\
  m.(m_ClientId) = client_id msg /\ m.(m_Head) = head /\ m.(m_Content) = content.

(** Nothing stored; stored without the topic knowing; stored and numbered. *)
Inductive Outcome := Nothing | Lost (m : Message) | Accepted (m : Message).

Section Outcomes.
Context {St : Type} `{Laws : PubStoreLaws St}.

Definition appended (m : Message) (advance : Z) (w w' : World St) : Prop :=
  exists id, log_of w' = (w.(w_topic).(t_name), w.(w_topic).(xoriginal), w.(w_topic).(t_cat), w.(w_topic).(t_isChan),
                          w.(w_topic).(lastID) + advance, (stored w.(w_store) ++ [(id, m)])%list).

Definition effect_of (o : Outcome) (w w' : World St) : Prop :=
  match o with Nothing => log_same w w' | Lost m => appended m 0 w w' | Accepted m => appended m 1 w w' end.

Definition outcome_as (o : Outcome) (P : Message -> Prop) : Prop :=
  match o with Nothing => True | Lost m | Accepted m => P m end.

(** The sender used the client's id before in the topic. *)
Definition duplicate (w : World St) (u : Uid) (cid : string) : Prop :=
  cid <> "" /\ exists id m, In (id, m) (stored w.(w_store)) /\ m.(m_Topic) = w.(w_topic).(t_name) /\ m.(m_ClientKey) = client_key u cid.

Context (now : Z) (health : option bool) (cluster : option Cluster) (businessPolicy : bool).
Context (time_text : Z -> string) (time_parse : string -> option Z) (moderation_parse : string -> option officialModerationState).
Context (sha256 : string -> string) (clusters : string -> list string) (sortSlice : list span -> list span) (nfkc : string -> string).
Context (queue_full : string -> bool) (joined : string -> string -> bool) (sessionStore : string -> option Session).
Context (unregisterSession : Session -> M (St := St) unit).

(** What dropping a session may do to the log. *)
Context (R : World St -> World St -> Prop) `{!PreOrder R} (HR : forall w w', log_same w w' -> R w w').
Context (Hbroadcast : forall msg, frame R (broadcastToSessions queue_full joined sessionStore unregisterSession msg)).

Abbreviation after := (after_save cluster businessPolicy time_parse clusters sortSlice queue_full joined sessionStore unregisterSession).
Abbreviation ack := (acknowledge_duplicate businessPolicy time_parse clusters sortSlice queue_full joined sessionStore unregisterSession).
Abbreviation number := (number_and_save now health cluster businessPolicy time_parse sha256 clusters sortSlice nfkc queue_full joined
  sessionStore unregisterSession).
Abbreviation publish := (saveAndBroadcastMessage now health cluster businessPolicy time_text time_parse moderation_parse sha256 clusters
  sortSlice nfkc queue_full joined sessionStore unregisterSession).
Abbreviation may := (may_publish now businessPolicy time_text time_parse moderation_parse).

Lemma frame_keeps {A} (m : M (St := St) A) : (forall l, keeps l m) -> frame R m.
Proof. intros Hm w. apply HR. by apply keeps_frame. Qed.
#[local] Hint Resolve Hbroadcast : handlers.
#[local] Hint Extern 5 (frame R _) => (apply frame_keeps; intros ?; solve [keep]) : handlers.

Lemma ack_frame msg u noEcho m : frame R (ack msg u noEcho m).
Proof. unfold acknowledge_duplicate. handler. Qed.

Definition advanced (w : World St) (at_ : Z) : World St :=
  mkWorld (set_lastID w.(w_topic) (w.(w_topic).(lastID) + 1) at_) w.(w_store) w.(w_out).

Lemma after_frame msg u noEcho pud m rb w : R (advanced w msg.(c_Timestamp)) (after msg u noEcho pud m rb w).1.
Proof.
  unfold after_save. unfold bind at 1, modify at 1, bind at 1, get_topic at 1, set_topic at 1. cbn [w_topic w_store w_out].
  fold (advanced w msg.(c_Timestamp)). generalize (advanced w (c_Timestamp msg)). intros w1.
  match goal with |- R w1 (?x w1).1 => cut (frame R x); [by intros F; apply F|] end.
  apply frame_bind; [done|handler|]. intros [] w2. unfold bind at 1, get_topic at 1. apply (rel_bind R).
  { apply HR. by destruct pud. }
  intros w3 [] _. match goal with |- R w3 (?x w3).1 => cut (frame R x); [by intros F; apply F|] end. handler.
Qed.

Lemma number_outcome msg u noEcho files pud head content w w' r :
  number msg u noEcho files pud head content w = (w', r) ->
  exists o w1, effect_of o w w1 /\ R w1 w' /\ outcome_as o (as_requested w.(w_topic) msg u head content) /\
    (r = Ret tt -> (exists m, o = Accepted m) \/ duplicate w1 u (client_id msg)).
Proof.
  unfold number_and_save. unfold bind at 1, get_topic at 1. cbv zeta.
  destruct (writeFenceToken health cluster (t_name (w_topic w))) as [token [e|]].
  { intros E. exists Nothing, w. split; [done|]. split; [|split; [done|]].
    - match type of E with ?x w = _ => pose proof (frame_keeps x ltac:(intros; keep) w) as F end. by rewrite E in F.
    - intros ->. unfold refuse in E. by apply bind_ret_inv in E as (? & ? & _ & [=]). }
  unfold bind at 1, attempt at 1. set (m0 := new_message _ _ _ _ _ _ _ _).
  destruct (Messages_Save now sha256 clusters sortSlice nfkc m0 files _ w) as [w1 saved] eqn:Es.
  apply Messages_Save_cases in Es as [Hcore Hs].
  assert (forall m', same_message m0 m' -> as_requested (w_topic w) msg u head content m') as Hreq.
  { intros m' (E1 & E2 & E3 & E4 & E5 & E6). unfold as_requested. rewrite E1, E2, E3, E4, E5, E6. unfold m0, new_message.
    by destruct token as [[] ]. }
  unfold core in Hcore. injection Hcore as C1 C2 C3 C4 C5.
  destruct saved as [[m' mk]|e|p].
  - (* numbered *)
    destruct Hs as (Hm & id & key & Hs). intros E. exists (Accepted (with_key m' key)), (advanced w1 msg.(c_Timestamp)).
    split; [|split; [|split]].
    + exists id. unfold log_of, core. cbn. by rewrite C1, C2, C3, C4, C5, Hs.
    + pose proof (after_frame msg u noEcho pud m' mk w1) as F. by rewrite E in F.
    + apply Hreq. by destruct Hm as (? & ? & ? & ? & ? & ?).
    + intros _. left. eauto.
  - (* the save reported an error *)
    intros E.
    assert (exists o, effect_of o w w1 /\ outcome_as o (as_requested w.(w_topic) msg u head content)) as (o & Ho & Hoas).
    { destruct Hs as [Hs|(id & m' & Hm & Hs)].
      - exists Nothing. split; [|done]. unfold effect_of, log_same, log_of, core. by rewrite C1, C2, C3, C4, C5, Hs.
      - exists (Lost m'). split; [|by apply Hreq]. exists id. unfold log_of, core. rewrite C1, C2, C3, C4, C5, Hs. by rewrite Z.add_0_r. }
    exists o, w1. split; [done|]. split; [|split; [done|]].
    + match type of E with ?x w1 = _ => assert (frame R x) as F end.
      { handler. apply ack_frame. }
      specialize (F w1). by rewrite E in F.
    + intros ->. right. apply bind_ret_inv in E as (w2 & again & Ea & E).
      destruct (String.eqb_spec (client_id msg) "") as [|Hne].
      { injection Ea as <- <-. unfold refuse in E. by apply bind_ret_inv in E as (? & ? & _ & [=]). }
      unfold call in Ea. pose proof (law_by_client (t_name (w_topic w)) u (client_id msg) (w_store w1)) as [_ Hl].
      destruct (message_by_client _ _ _ _) as [s2 again']. injection Ea as <- <-. cbn in Hl.
      destruct again' as [[m'|]|e2]; [|unfold refuse in E; by apply bind_ret_inv in E as (? & ? & _ & [=])..].
      split; [done|]. destruct (Hl m' eq_refl) as (id & Hin & Ht & Hkey). exists id, m'. by rewrite C1.
  - intros [= <- <-]. exists Nothing, w1. split; [|by split]. unfold effect_of, log_same, log_of, core. by rewrite C1, C2, C3, C4, C5, Hs.
Qed.

Lemma effect_of_same o w w1 w2 : log_same w w1 -> effect_of o w1 w2 -> effect_of o w w2.
Proof.
  intros E. destruct o; cbn; [intros E2; by transitivity w1| |]; unfold appended; intros [id ->]; exists id;
    unfold log_same, log_of, core in E; injection E as E1 E2 E3 E4 E5 E6; by rewrite E1, E2, E3, E4, E5, E6.
Qed.

Lemma as_requested_same w w1 msg u head content m :
  log_same w w1 -> as_requested w1.(w_topic) msg u head content m -> as_requested w.(w_topic) msg u head content m.
Proof. unfold log_same, log_of, core. intros E. injection E as E1 _ _ _ E5 _. unfold as_requested. by rewrite E1, E5. Qed.

(** Stored by this run only if it may be; answered with success only if it is stored. *)
Lemma publish_outcome msg u noEcho files head content w w' r :
  publish msg u noEcho files head content w = (w', r) ->
  exists o w1, effect_of o w w1 /\ R w1 w' /\
    outcome_as o (as_requested w.(w_topic) msg u (sender_head msg u head) content) /\
    (r = Ret tt -> (exists m, o = Accepted m) \/ duplicate w1 u (client_id msg)) /\
    (o = Nothing \/ exists w0, may msg u (businessPolicyAction head content files) w = (w0, Ret tt)).
Proof.
  set (Goal' := exists o, _). unfold saveAndBroadcastMessage. unfold bind at 1, get_topic at 1. cbv zeta.
  assert (forall w1, log_same w w1 -> R w1 w' -> (r = Ret tt -> duplicate w1 u (client_id msg)) -> Goal') as Hno.
  { intros w1 H1 H2 H3. exists Nothing, w1. repeat split; [done|done|intros E0; right; by apply H3|by left]. }
  intros E. apply keeps_bind_inv in E as [[S0 E]|(w0 & [] & Ew & S0 & E)]; [by apply (Hno w'); [|reflexivity|intros ->; destruct (E tt)]| |intros; keep].
  unfold bind at 1, get_topic at 1 in E.
  apply keeps_bind_inv in E as [[S1 E]|(w1 & [] & Ec & S1 & E)]; [apply (Hno w'); [by transitivity w0|reflexivity|intros ->; by destruct (E tt)]| |intros; keep].
  assert (forall w2, log_same w w2 -> number msg u noEcho files (w.(w_topic).(perUser) !! u) (sender_head msg u head) content w2 = (w', r) -> Goal') as Hnum.
  { intros w2 S2 (o & w3 & Ho & HR3 & Has & Hret)%number_outcome. exists o, w3. split; [by eapply effect_of_same|]. split; [done|].
    split; [destruct o; [done|by eapply as_requested_same..]|]. split; [done|]. right. by exists w0. }
  destruct (String.eqb_spec (client_id msg) "") as [|Hne]; [by apply (Hnum w1); [transitivity w0|]|].
  apply keeps_bind_inv in E as [[S2 E]|(w2 & existing & Eq & S2 & E)]; [| |intros; keep].
  { apply (Hno w'); [by do 2 (etransitivity; [eassumption|])|reflexivity|]. intros ->. by destruct (E tt). }
  assert (log_same w w2) as S3 by (by do 2 (etransitivity; [eassumption|])).
  destruct existing as [[m|]|e].
  - apply (Hno w2); [done| |].
    + pose proof (ack_frame msg u noEcho m w2) as F. by rewrite E in F.
    + intros ->. split; [done|]. unfold call in Eq. revert Eq.
      pose proof (law_by_client (t_name (w_topic w0)) u (client_id msg) (w_store w1)) as [_ Hl].
      destruct (message_by_client _ _ _ _) as [s2 again]. intros [= <- ->]. destruct (Hl m eq_refl) as (id & Hin & Ht & Hkey).
      exists id, m. unfold log_same, log_of, core in S1, S2. injection S1. injection S2. cbn. intros. split; [congruence|].
      split; [|done]. rewrite Ht. congruence.
  - by apply (Hnum w2).
  - apply (Hno w'); [|reflexivity|].
    + etransitivity; [exact S3|]. eapply keeps_run; [|exact E]. intros. keep.
    + intros ->. by apply refuse_not_ret in E.
Qed.
End Outcomes.

(** ** Who may publish *)

Section Authorized.
Context {St : Type} `{Laws : PubStoreLaws St}.
Context (now : Z) (businessPolicy : bool).
Context (time_text : Z -> string) (time_parse : string -> option Z) (moderation_parse : string -> option officialModerationState).

(** The topic's own rule. *)
Definition writes (t : Topic) (u : Uid) : bool :=
  cat_eqb t.(t_cat) TopicCatSys ||
  (negb (user t u).(pud_isChan) && IsWriter ((user t u).(modeWant) &. (user t u).(modeGiven))).

(** A verified read-only channel: the sender's own row, as stored now, joins and writes. *)
Definition channel_writer (s : St) (topic : string) (u : Uid) : Prop :=
  exists sub, live (row s topic u) = Some sub /\
    IsJoiner (sub.(s_ModeWant) &. sub.(s_ModeGiven)) = true /\ IsWriter (sub.(s_ModeWant) &. sub.(s_ModeGiven)) = true.

(** *** A large official group, from its cache while that is fresh, and otherwise from the store [s]

    The policy, then the sender's modes, then the sanction against the sender, each with the store it leaves. *)

Definition known_policy (t : Topic) (s : St) : St * (option officialTopicPolicy + GoError) :=
  if now - t.(officialRefreshedAt) <? officialPolicyRefreshInterval then (s, inl t.(official)) else refresh_policy t.(t_name) now s.

(** The modes are those of the stored subscription, read at most a second ago, or those of the cache if the group is no longer large. *)
Definition known_modes (t : Topic) (p : officialTopicPolicy) (u : Uid) (s : St) : St * option (AccessMode * AccessMode) :=
  if negb (p.(Official) && String.eqb p.(ScaleClass) "large") ||
     match t.(officialMemberRefreshed) !! u with Some at_ => now - at_ <? officialModerationCacheTTL | None => false end
  then (s, pud ← t.(perUser) !! u; if pud.(pud_isChan) then None else Some (pud.(modeWant), pud.(modeGiven)))
  else ((subs_get t.(t_name) u false s).1, (fun x => (x.(s_ModeWant), x.(s_ModeGiven))) <$> live (row s t.(t_name) u)).

(** The sanction that is known, if any; [None] if it cannot be told. *)
Definition known_sanction (t : Topic) (u : Uid) (s : St) : option (option officialModerationState) :=
  let read := match (cache_get (officialModerationKey t.(t_name) u) s).2 with
              | inr e => if bool_decide (e = StoreErr ErrNotFound) then Some None else None
              | inl raw => Some <$> moderation_parse raw
              end in
  match t.(moderationCache) !! u with
  | Some (state, at_) => if now - at_ <? officialModerationCacheTTL then Some state else read
  | None => read
  end.

(** A verified group: a member that joins and writes, not muted unless owner or administrator, not sanctioned. *)
Definition large_writer (t : Topic) (s : St) (u : Uid) (scope : string) : Prop :=
  let '(s1, p) := known_policy t s in
  exists p0, p = inl (Some p0) /\ p0.(OfficialStatus) = "verified" /\
    let '(s2, m) := known_modes t p0 u s1 in
    exists want given, m = Some (want, given) /\ IsJoiner (want &. given) = true /\ IsWriter (want &. given) = true /\
      (p0.(AllMuted) = true -> IsOwner (want &. given) = true \/ IsAdmin (want &. given) = true) /\
      exists state, known_sanction t u s2 = Some state /\ moderationApplies state scope now = false.

Lemma frame_attempt R {A} (m : M (St := St) A) : frame R m -> frame R (attempt m).
Proof. intros Hm w. specialize (Hm w). unfold attempt. by destruct (m w) as [w1 [a|e|p]]. Qed.

Lemma fetch_ret {A} (f : St -> St * (A + GoError)) (w w' : World St) a :
  fetch f w = (w', Ret a) -> (f w.(w_store)).2 = inl a /\ w' = mkWorld w.(w_topic) (f w.(w_store)).1 w.(w_out).
Proof.
  unfold fetch, bind, call. destruct (f (w_store w)) as [s [x|e]]; [intros [= <- ->]|done]. done.
Qed.

Lemma subs_get_rows topic u k s t' u' : row (subs_get topic u k s).1 t' u' = row s t' u'.
Proof. apply law_get. Qed.

Lemma log_same_name (w w' : World St) : log_same w w' -> t_name w'.(w_topic) = t_name w.(w_topic).
Proof. unfold log_same, log_of, core. intros E. by injection E. Qed.

Lemma refresh_policy_rows : frame same_rows (refreshOfficialPolicy (St := St) now).
Proof.
  intros w t u. unfold refreshOfficialPolicy, bind, get_topic, call. pose proof (law_policy (t_name (w_topic w)) now (w_store w) t u) as E.
  destruct (match official _ with None => true | Some _ => _ end); [done|]. cbn [w_topic w_store].
  by destruct (refresh_policy _ _ _) as [s [p|e]].
Qed.

Lemma must_refresh (w w' : World St) a :
  must (refreshOfficialPolicy now) w = (w', Ret a) -> log_same w w' /\ same_rows w w'.
Proof.
  unfold must. intros (w1 & o & E & Eo)%bind_ret_inv. destruct o; [done|]. injection Eo as <- _. split.
  - eapply keeps_run; [|exact E]. intros. keep.
  - pose proof (refresh_policy_rows w) as F. by rewrite E in F.
Qed.

Lemma user_put_same t u p : user (put_user t u p) u = p.
Proof. unfold user, put_user. cbn. by rewrite lookup_insert_eq. Qed.

Lemma channel_member_sound u (w w' : World St) :
  isOfficialReadOnlyChannel w.(w_topic) = true -> refreshOfficialChannelMember now u w = (w', Ret tt) ->
  (user w'.(w_topic) u).(pud_isChan) = false -> joins_and_writes (user w'.(w_topic) u) = true ->
  channel_writer w.(w_store) w.(w_topic).(t_name) u.
Proof.
  unfold refreshOfficialChannelMember, bind at 1, get_topic at 1. intros -> E Hc Hj. cbn [negb] in E.
  unfold bind at 1, set_topic at 1 in E. apply bind_ret_inv in E as (w1 & [] & E1 & E). apply must_refresh in E1 as [L1 R1].
  unfold bind at 1, get_topic at 1 in E. destruct (negb (verified (w_topic w1))); [done|].
  apply bind_ret_inv in E as (w2 & o & E2 & E). apply fetch_ret in E2 as [E2 ->].
  assert (t_name (w_topic w1) = t_name (w_topic w)) as N1 by exact (log_same_name _ _ L1).
  pose proof (proj2 (law_get _ _ _ _) _ E2) as Eo. rewrite N1, R1 in Eo. cbn in Eo.
  apply bind_ret_inv in E as (w3 & found & E3 & E). destruct o as [sub|].
  - injection E3 as <- <-. injection E as <-. cbn [w_topic] in Hc, Hj. rewrite user_put_same in Hj. exists sub. split; [done|].
    apply andb_true_iff in Hj. exact Hj.
  - apply bind_ret_inv in E3 as (w4 & o & _ & E3). injection E3 as <- <-. destruct o as [sub|].
    + injection E as <-. cbn [w_topic] in Hc. by rewrite user_put_same in Hc.
    + by apply bind_ret_inv in E as (? & ? & _ & [=]).
Qed.

Lemma loadOfficialModeration_known u (w w' : World St) state :
  loadOfficialModeration now moderation_parse u w = (w', Ret state) -> known_sanction w.(w_topic) u w.(w_store) = Some state.
Proof.
  unfold loadOfficialModeration, known_sanction. unfold bind at 1, get_topic at 1. cbv zeta.
  match goal with |- (match _ with Some _ => _ | None => ?x end w = _) -> match _ with Some _ => _ | None => ?y end = _ =>
    assert (x w = (w', Ret state) -> y = Some state) as Hload end.
  { unfold bind at 1, call. destruct (cache_get _ _) as [s1 [raw|e]]; cbn [snd].
    - destruct (moderation_parse raw); [|done]. by intros [= _ <-].
    - case_bool_decide; [|done]. by intros [= _ <-]. }
  destruct (moderationCache (w_topic w) !! u) as [[state0 loadedAt]|]; [|exact Hload].
  destruct (now - loadedAt <? officialModerationCacheTTL); [|exact Hload]. by intros [= _ <-].
Qed.

Lemma policy_known (w w' : World St) a : official w.(w_topic) <> None -> must (refreshOfficialPolicy now) w = (w', Ret a) ->
  known_policy w.(w_topic) w.(w_store) = (w'.(w_store), inl w'.(w_topic).(official)) /\
  exists at_, w'.(w_topic) = set_official w.(w_topic) w'.(w_topic).(official) at_.
Proof.
  unfold must, refreshOfficialPolicy, known_policy. intros Ho. unfold bind at 1. unfold bind at 1, get_topic at 1.
  destruct (official (w_topic w)) as [p|] eqn:Ep; [|done]. destruct (_ <? _).
  - intros [= <-]. rewrite Ep. split; [done|]. exists (officialRefreshedAt (w_topic w)). rewrite <- Ep. by destruct (w_topic w).
  - unfold bind at 1, call. destruct (refresh_policy _ _ _) as [s1 [p1|e]]; [|done]. intros [= <-]. by eauto.
Qed.

Lemma member_known u p (w w' : World St) : u <> ZeroUid -> w.(w_topic).(official) = Some p -> w.(w_topic).(t_isChan) = false ->
  (forall x, row w.(w_store) w.(w_topic).(t_name) u = Some x -> ParseUid x.(s_User) = u) ->
  refreshOfficialLargeMember now u w = (w', Ret tt) ->
  forall pud, w'.(w_topic).(perUser) !! u = Some pud -> pud.(pud_isChan) = false ->
  known_modes w.(w_topic) p u w.(w_store) = (w'.(w_store), Some (pud.(modeWant), pud.(modeGiven))) /\
  w'.(w_topic).(t_name) = w.(w_topic).(t_name) /\ w'.(w_topic).(moderationCache) = w.(w_topic).(moderationCache) /\
  w'.(w_topic).(official) = w.(w_topic).(official).
Proof.
  intros Hu Hp Hch Hrow. unfold refreshOfficialLargeMember, known_modes, isOfficialLargeGroup. unfold bind at 1, get_topic at 1. rewrite Hp, Hch.
  rewrite andb_true_r. destruct (negb _); cbn [orb].
  { intros [= <-] pud -> Hc. cbn. by rewrite Hc. }
  destruct (match _ !! u with Some _ => _ | None => false end).
  { intros [= <-] pud -> Hc. cbn. by rewrite Hc. }
  intros (w1 & o & E1 & E)%bind_ret_inv. apply fetch_ret in E1 as [E1 ->].
  pose proof (proj2 (law_get _ _ _ _) _ E1) as Eo. destruct o as [sub|]; [|done]. symmetry in Eo. cbn [visible] in Eo.
  assert (row (w_store w) (t_name (w_topic w)) u = Some sub) as Hr by (unfold visible in Eo; by destruct (row _ _ _) as [x|]; [destruct (s_DeletedAt x); [discriminate|]|]).
  injection E as <-. intros pud Hpud _. unfold live. rewrite Eo. cbn [w_topic w_store] in *. specialize (Hrow _ Hr).
  unfold cacheSubscriber in *. rewrite Hrow in *. assert (IsZeroUid u = false) as Hz by (unfold IsZeroUid; by apply N.eqb_neq). rewrite Hz in *.
  cbn in Hpud. destruct (IsOwner _); cbn in Hpud; rewrite lookup_insert_eq in Hpud; injection Hpud as <-; unfold user; cbn; rewrite lookup_insert_eq; done.
Qed.

Lemma check_sound u scope (w w' : World St) : u <> ZeroUid ->
  (forall x, row w.(w_store) w.(w_topic).(t_name) u = Some x -> ParseUid x.(s_User) = u) ->
  checkOfficialPublish now moderation_parse u scope w = (w', Ret tt) ->
  (isOfficialReadOnlyChannel w.(w_topic) = true -> channel_writer w.(w_store) w.(w_topic).(t_name) u) /\
  (isOfficialReadOnlyChannel w.(w_topic) = false -> isOfficialLargeGroup w.(w_topic) = true -> large_writer w.(w_topic) w.(w_store) u scope).
Proof.
  intros Hu Hrow. unfold checkOfficialPublish, bind at 1, get_topic at 1. cbv zeta.
  destruct (isOfficialReadOnlyChannel (w_topic w)) eqn:Ec.
  - intros E. split; [intros _|done]. apply bind_ret_inv in E as (w1 & [] & E1 & E). unfold bind, get_topic in E.
    destruct (pud_isChan _) eqn:E2; [done|]. cbn [orb] in E. destruct (joins_and_writes _) eqn:E3; [|done]. injection E as ->.
    by eapply channel_member_sound.
  - intros E. split; [done|]. intros _ El. rewrite El in E. cbn [negb] in E.
    assert (official (w_topic w) <> None /\ t_isChan (w_topic w) = false) as [Ho Hch].
    { unfold isOfficialLargeGroup in El. destruct (official _); [|done]. to_prop. split; [done|]. by destruct (t_isChan _). }
    apply bind_ret_inv in E as (w1 & [] & E1 & E). pose proof (must_refresh _ _ _ E1) as [_ R1].
    apply policy_known in E1 as [Kp (at_ & Ht)]; [|done]. unfold large_writer. rewrite Kp.
    unfold bind at 1, get_topic at 1 in E. destruct (verified (w_topic w1)) eqn:Ev; [|done]. unfold verified in Ev.
    destruct (official (w_topic w1)) as [p|] eqn:Ep; [|done]. apply String.eqb_eq in Ev. exists p. split; [done|]. split; [done|].
    apply bind_ret_inv in E as (w2 & [] & E2 & E). unfold bind at 1, get_topic at 1 in E.
    destruct (perUser (w_topic w2) !! u) as [pud|] eqn:Eu; [|done].
    destruct (pud_isChan pud) eqn:Eic; [done|]. destruct (joins_and_writes pud) eqn:Ej; [|done]. cbn [negb] in E.
    destruct (member_known u p w1 w2 Hu Ep ltac:(by rewrite Ht) ltac:(intros x; rewrite R1, Ht; apply Hrow) E2 pud Eu Eic) as (Km & N2 & M2 & O2).
    replace (known_modes (w_topic w) p u (w_store w1)) with (known_modes (w_topic w1) p u (w_store w1)) by (rewrite Ht; done). rewrite Km.
    exists (modeWant pud), (modeGiven pud). split; [done|]. unfold joins_and_writes in Ej. apply andb_true_iff in Ej as [-> ->].
    split; [done|]. split; [done|]. rewrite O2, Ep in E.
    destruct (AllMuted p && negb (IsOwner _) && negb (IsAdmin _)) eqn:Em; [done|]. split.
    { intros Ha. rewrite Ha in Em. cbn in Em. destruct (IsOwner _); [by left|]. by destruct (IsAdmin _); [right|]. }
    apply bind_ret_inv in E as (w3 & state & E3 & E). destruct (moderationApplies _ _ _) eqn:Emo; [done|].
    apply loadOfficialModeration_known in E3. exists state. split; [|done]. unfold known_sanction in *. rewrite N2, M2 in E3. by rewrite Ht in E3.
Qed.

(** The world after the shop's policy service was asked. *)
Definition after_policy (u : Uid) (scope : string) (w : World St) : World St :=
  if businessPolicy then (authorizeBusinessAction businessPolicy u scope w).1 else w.

Definition sender_allowed (w : World St) (u : Uid) (scope : string) : Prop :=
  writes w.(w_topic) u = true /\
  (isOfficialReadOnlyChannel w.(w_topic) = true -> channel_writer w.(w_store) w.(w_topic).(t_name) u) /\
  (isOfficialReadOnlyChannel w.(w_topic) = false -> isOfficialLargeGroup w.(w_topic) = true ->
     large_writer w.(w_topic) (after_policy u scope w).(w_store) u scope).

#[local] Hint Resolve frame_attempt : handlers.

Lemma authorize_rows bp u action : frame same_rows (authorizeBusinessAction (St := St) bp u action).
Proof. unfold authorizeBusinessAction, checked. handler; apply call_rows; intros; apply law_authorize_rows. Qed.

Lemma authorize_topic bp u action : frame same_topic (authorizeBusinessAction (St := St) bp u action).
Proof. unfold authorizeBusinessAction, checked. handler. Qed.

Lemma may_publish_sound msg u scope (w w' : World St) : u <> ZeroUid ->
  (forall x, row w.(w_store) w.(w_topic).(t_name) u = Some x -> ParseUid x.(s_User) = u) ->
  may_publish now businessPolicy time_text time_parse moderation_parse msg u scope w = (w', Ret tt) -> sender_allowed w u scope.
Proof.
  intros Hu Hrow. unfold may_publish, bind at 1, get_topic at 1. intros E. apply bind_ret_inv in E as (w1 & [] & E1 & E).
  apply bind_ret_inv in E as (w2 & [] & E2 & E). apply bind_ret_inv in E as (w3 & checked_ & E3 & E).
  apply bind_ret_inv in E as (w4 & [] & E4 & _).
  assert (w1 = w /\ writes (w_topic w) u = true) as [-> Hw].
  { unfold writes. destruct (cat_eqb _ _); [by injection E1|]. cbn in E1. destruct (pud_isChan _); cbn in E1; [by apply refuse_not_ret in E1|].
    destruct (IsWriter _); cbn in E1; [by injection E1|by apply refuse_not_ret in E1]. }
  assert (w_topic w2 = w_topic w /\ same_rows w w2 /\ w2 = after_policy u scope w) as (T2 & R2 & A2).
  { unfold after_policy. destruct businessPolicy; [|by injection E2 as <-]. cbn [when] in E2. apply bind_ret_inv in E2 as (w5 & [[]|e] & E5 & E2);
      [|by apply refuse_not_ret in E2]. injection E2 as <-.
    pose proof (frame_attempt _ _ (authorize_topic true u scope) w) as F1. pose proof (frame_attempt _ _ (authorize_rows true u scope) w) as F2.
    rewrite E5 in F1, F2. split; [done|]. split; [done|]. unfold attempt in E5. destruct (authorizeBusinessAction _ _ _ _) as [w6 [[]|e|p]]; [by injection E5|done|done]. }
  destruct checked_ as [[]|e]; [|by apply refuse_not_ret in E4].
  unfold attempt in E3. destruct (checkOfficialPublish _ _ _ _ w2) as [w5 [[]|e|p]] eqn:Ec; [|done|done].
  apply check_sound in Ec; [|done|intros x; rewrite R2, T2; apply Hrow]. rewrite T2, A2 in Ec. split; [done|]. destruct Ec as [H1 H2]. split; [|done].
  intros Hc. destruct (H1 Hc) as (sub & Hs & Hj). exists sub. by rewrite <- R2, A2.
Qed.
End Authorized.

(** ** The properties *)

Section Properties.
Context {St : Type} `{Laws : PubStoreLaws St}.
Context (now : Z) (health : option bool) (cluster : option Cluster) (businessPolicy : bool).
Context (time_text : Z -> string) (time_parse : string -> option Z) (moderation_parse : string -> option officialModerationState).
Context (sha256 : string -> string) (clusters : string -> list string) (sortSlice : list span -> list span) (nfkc : string -> string).
Context (queue_full : string -> bool) (joined : string -> string -> bool) (sessionStore : string -> option Session).
Context (unregisterSession : Session -> M (St := St) unit).

Abbreviation publish := (saveAndBroadcastMessage now health cluster businessPolicy time_text time_parse moderation_parse sha256 clusters
  sortSlice nfkc queue_full joined sessionStore unregisterSession).

(** C5: A publication changes the log only for a sender who may write: no channel reader, a writer of the
    topic unless it is the system topic; in an official read-only channel the sender's stored subscription, read again for this
    message, joins and writes; in a large official group the group is verified and the sender joins and writes, is not
    silenced by the group's mute unless owner or administrator, and has no sanction in force, where the policy, the sender's
    modes and the sanction are those of the topic's cache while it is fresh and those of the store otherwise.  [R] is whatever
    dropping slow sessions does; the sender's stored subscription bears the sender's id. *)
Theorem publish_authorized (R : World St -> World St -> Prop) `{!PreOrder R} msg u noEcho files head content w w' r :
  (forall w w', log_same w w' -> R w w') -> (forall s, frame R (unregisterSession s)) ->
  u <> ZeroUid -> (forall x, row w.(w_store) w.(w_topic).(t_name) u = Some x -> ParseUid x.(s_User) = u) ->
  publish msg u noEcho files head content w = (w', r) -> ~ R w w' ->
  sender_allowed now businessPolicy moderation_parse w u (businessPolicyAction head content files).
Proof.
  intros HR Hu Hu0 Hrow E Hn. apply (publish_outcome now health cluster businessPolicy _ _ _ _ _ _ _ _ _ _ _ R HR) in E;
    [|intros; by apply broadcast_frame].
  destruct E as (o & w1 & Ho & H1 & _ & _ & [->|(w0 & E0)]).
  - destruct Hn. transitivity w1; [by apply HR|done].
  - by eapply may_publish_sound.
Qed.

(** Dropping sessions may add messages; nobody is dropped when no queue is full. *)
Definition drops (w w' : World St) : Prop := log_grows w w' /\ ((forall s, queue_full s = false) -> log_same w w').

#[local] Instance drops_preorder : PreOrder drops.
Proof. split; [by split|]. intros a b c [G1 S1] [G2 S2]. split; [by transitivity b|]. intros Hq. transitivity b; auto. Qed.

Lemma broadcast_drops msg : (forall s, frame log_grows (unregisterSession s)) ->
  frame drops (broadcastToSessions queue_full joined sessionStore unregisterSession msg).
Proof.
  intros Hu w. split.
  - apply broadcast_frame; [apply _|apply log_same_grows|done].
  - intros Hq. by apply broadcast_same.
Qed.

(** C6: A publication that succeeds either found that the sender used the client's id in the topic before, or appends one message
    with the next position, the topic's name, the sender, the client's id, the content and the header with the true sender,
    and moves the last position to it.  The log stays exactly that when no session's queue is full; otherwise dropping
    sessions only adds to it. *)
Theorem publish_numbers msg u noEcho files head content w w' :
  (forall s, frame log_grows (unregisterSession s)) ->
  publish msg u noEcho files head content w = (w', Ret tt) ->
  exists l, stored w'.(w_store) = (stored w.(w_store) ++ l)%list /\
    ((exists id m l', l = (id, m) :: l' /\ as_requested w.(w_topic) msg u (sender_head msg u head) content m /\
        w.(w_topic).(lastID) + 1 <= w'.(w_topic).(lastID) /\
        ((forall s, queue_full s = false) -> l' = [] /\ w'.(w_topic).(lastID) = w.(w_topic).(lastID) + 1)) \/
     (client_id msg <> "" /\ exists id m, In (id, m) (stored w'.(w_store)) /\ m.(m_Topic) = w.(w_topic).(t_name) /\
        m.(m_ClientKey) = client_key u (client_id msg))).
Proof.
  intros Hu E. apply (publish_outcome now health cluster businessPolicy _ _ _ _ _ _ _ _ _ _ _ drops) in E;
    [|intros; split; [by apply log_same_grows|done]|intros; by apply broadcast_drops].
  destruct E as (o & w1 & Ho & [(N1 & L1 & l1 & S1) Hq] & Has & Hr & _).
  assert (forall w1, duplicate w1 u (client_id msg) -> log_grows w1 w' -> t_name (w_topic w1) = t_name (w_topic w) ->
    client_id msg <> "" /\ exists id m, In (id, m) (stored w'.(w_store)) /\ m.(m_Topic) = w.(w_topic).(t_name) /\
        m.(m_ClientKey) = client_key u (client_id msg)) as Hdup.
  { intros w2 (Hc & id & m & Hin & Ht & Hkey) (_ & _ & l2 & S2) Hn. split; [done|]. exists id, m. rewrite S2, in_app_iff. split; [by left|]. split; [congruence|done]. }
  destruct o as [|m|m]; cbn in Ho.
  - exists l1. pose proof (log_same_grows _ _ Ho) as (N0 & _). unfold log_same, log_of in Ho. injection Ho as _ _ _ _ _ Es.
    rewrite S1, Es. split; [done|]. right. rewrite <- Es, <- S1. destruct (Hr eq_refl) as [[m [=]]|Hd].
    apply (Hdup w1); [done| |done]. split; [done|]. split; [done|]. by exists l1.
  - destruct Ho as [id Ho]. unfold log_of, core in Ho. injection Ho as E1 E2 E3 E4 E5 E6.
    exists ((id, m) :: l1). rewrite S1, E6, <- app_assoc. split; [done|]. right. rewrite app_assoc, <- E6, <- S1.
    destruct (Hr eq_refl) as [[m' [=]]|Hd]. apply (Hdup w1); [done| |done]. split; [done|]. split; [done|]. by exists l1.
  - destruct Ho as [id Ho]. unfold log_of, core in Ho. injection Ho as E1 E2 E3 E4 E5 E6.
    exists ((id, m) :: l1). rewrite S1, E6, <- app_assoc. split; [done|]. left. exists id, m, l1. split; [done|]. split; [done|].
    split; [lia|]. intros Hf. specialize (Hq Hf). unfold log_same, log_of, core in Hq. injection Hq as _ _ _ _ F5 F6.
    rewrite S1 in F6. split; [|congruence]. apply (app_inv_head (stored (w_store w1))). by rewrite app_nil_r.
Qed.
End Properties.

(** ** What a failure leaves *)

Section Failures.
Context {St : Type} `{Laws : PubStoreLaws St}.
Context (now : Z) (health : option bool) (cluster : option Cluster) (businessPolicy : bool).
Context (time_text : Z -> string) (time_parse : string -> option Z) (moderation_parse : string -> option officialModerationState).
Context (sha256 : string -> string) (clusters : string -> list string) (sortSlice : list span -> list span) (nfkc : string -> string).
Context (queue_full : string -> bool) (joined : string -> string -> bool) (sessionStore : string -> option Session).

(** Every run of [m] that ends in an error is one of [m']. *)
Definition errs_alike {A} (m m' : M (St := St) A) : Prop := forall w w' e, m w = (w', Err e) -> m' w = (w', Err e).

Lemma errs_alike_bind {A B} (m : M (St := St) A) (k k' : A -> M B) : (forall a, errs_alike (k a) (k' a)) -> errs_alike (bind m k) (bind m k').
Proof. intros Hk w w' e. unfold bind. destruct (m w) as [w1 [a|e'|p]]; [apply Hk|done|done]. Qed.

Lemma errs_alike_no_err {A} (m m' : M (St := St) A) : no_err m -> errs_alike m m'.
Proof. intros Hm w w' e E. by apply Hm in E. Qed.

Lemma no_err_broadcast u msg : (forall s, no_err (u s)) -> no_err (broadcastToSessions (St := St) queue_full joined sessionStore u msg).
Proof.
  intros Hu. unfold broadcastToSessions. apply no_err_bind; [handler|]. intros t. apply no_err_bind.
  - generalize (None : option ServerComMessage, None : option ServerComMessage). induction (map_to_list _) as [|[k [s p]] ss IH]; intros v; simpl; handler; apply IH.
  - induction a as [|s ds IH]; simpl; handler.
Qed.

Abbreviation publish := (saveAndBroadcastMessage now health cluster businessPolicy time_text time_parse moderation_parse sha256 clusters
  sortSlice nfkc queue_full joined sessionStore).

Ltac alike_step :=
  match goal with
  | |- errs_alike ?x ?x => by intros ? ? ?
  | |- forall _, _ => intro
  | |- errs_alike (if ?b then _ else _) _ => destruct b
  | |- errs_alike (match ?x with _ => _ end) _ => destruct x
  | |- errs_alike (bind _ _) (bind _ _) =>
      first [apply errs_alike_no_err; solve [handler; apply no_err_broadcast; done] | apply errs_alike_bind]
  | |- errs_alike (broadcastToSessions _ _ _ _ _) _ => apply errs_alike_no_err, no_err_broadcast; done
  end.

(** A publication that fails has not fanned out, so how sessions are dropped does not matter. *)
Lemma publish_errs_alike u u' msg asUid noEcho files head content :
  (forall s, no_err (u s)) ->
  errs_alike (publish u msg asUid noEcho files head content) (publish u' msg asUid noEcho files head content).
Proof.
  intros Hu. unfold saveAndBroadcastMessage, number_and_save, acknowledge_duplicate, after_save. cbv zeta.
  repeat alike_step.
Qed.

(** Only answers to the client are sent. *)
Definition is_reply (e : Effect) : Prop := match e with QueueOut _ (CtrlReply _) => True | _ => False end.
Definition replied (w w' : World St) : Prop := exists es, w'.(w_out) = (es ++ w.(w_out))%list /\ Forall is_reply es.

#[local] Instance replied_preorder : PreOrder replied.
Proof.
  split; [intros w; by exists []|]. intros a b c (e1 & E1 & F1) (e2 & E2 & F2). exists (e2 ++ e1)%list.
  split; [by rewrite E2, E1, app_assoc|by apply Forall_app].
Qed.

Lemma replied_same {A} (m : M (St := St) A) : (forall w, w_out (m w).1 = w_out w) -> frame replied m.
Proof. intros Hm w. exists []. by rewrite Hm. Qed.
Lemma replied_call {A} (f : St -> St * A) : frame replied (call f).
Proof. apply replied_same. intros w. unfold call. by destruct (f _). Qed.
Lemma replied_set t : frame replied (set_topic (St := St) t). Proof. by apply replied_same. Qed.
Lemma replied_modify f : frame replied (modify (St := St) f). Proof. by apply replied_same. Qed.
Lemma replied_queueOut s c : frame replied (queueOut (St := St) s (CtrlReply c)).
Proof. intros w. exists [QueueOut (sid s) (CtrlReply c)]. split; [done|]. by repeat constructor. Qed.
Lemma replied_lift_out {A} (o : Out A) : frame replied (lift_out (St := St) o). Proof. apply replied_same. by destruct o. Qed.
#[local] Hint Resolve replied_lift_out replied_call replied_set replied_modify replied_queueOut frame_attempt : handlers.

Lemma replied_reply msg c : frame replied (reply (St := St) msg c). Proof. unfold reply. handler. Qed.
Lemma replied_reply_as msg u c : frame replied (reply_as (St := St) msg u c). Proof. unfold reply_as. handler. Qed.
#[local] Hint Resolve replied_reply replied_reply_as : handlers.
Lemma replied_refuse {A} msg u c e : frame replied (refuse (St := St) (A := A) msg u c e). Proof. unfold refuse. handler. Qed.
Lemma replied_fetch {A} (f : St -> St * (A + GoError)) : frame replied (fetch f). Proof. unfold fetch. handler. Qed.
Lemma replied_checked (f : St -> St * option GoError) : frame replied (checked f). Proof. unfold checked. handler. Qed.
Lemma replied_policy : frame replied (must (refreshOfficialPolicy (St := St) now)).
Proof. unfold must, refreshOfficialPolicy. handler. Qed.
#[local] Hint Resolve replied_refuse replied_fetch replied_checked replied_policy : handlers.
Lemma replied_channel u : frame replied (refreshOfficialChannelMember (St := St) now u).
Proof. unfold refreshOfficialChannelMember. handler. Qed.
Lemma replied_large u : frame replied (refreshOfficialLargeMember (St := St) now u).
Proof. unfold refreshOfficialLargeMember. handler. Qed.
Lemma replied_moderation u : frame replied (loadOfficialModeration (St := St) now moderation_parse u).
Proof. unfold loadOfficialModeration. handler. Qed.
#[local] Hint Resolve replied_channel replied_large replied_moderation : handlers.
Lemma replied_check u scope : frame replied (checkOfficialPublish (St := St) now moderation_parse u scope).
Proof. unfold checkOfficialPublish. handler. Qed.
#[local] Hint Resolve replied_check : handlers.
Lemma replied_business bp u action : frame replied (authorizeBusinessAction (St := St) bp u action).
Proof. unfold authorizeBusinessAction. handler. Qed.
Lemma replied_archive msg u m : frame replied (archiveForCompliance (St := St) businessPolicy msg u m).
Proof. unfold archiveForCompliance. handler. Qed.
#[local] Hint Resolve replied_business replied_archive : handlers.
Lemma replied_may msg u scope : frame replied (may_publish (St := St) now businessPolicy time_text time_parse moderation_parse msg u scope).
Proof. unfold may_publish, when. handler. Qed.
Lemma replied_save m files rb : frame replied (Messages_Save (St := St) now sha256 clusters sortSlice nfkc m files rb).
Proof. unfold Messages_Save. handler. Qed.
Lemma replied_from topic from m : frame replied (from_stored (St := St) time_parse clusters sortSlice topic from m).
Proof. unfold from_stored. handler. Qed.
#[local] Hint Resolve replied_may replied_save replied_from : handlers.

Ltac err_step :=
  match goal with
  | |- forall _, _ => intro
  | |- err_frame _ (if ?b then _ else _) => destruct b
  | |- err_frame _ (match ?x with _ => _ end) => destruct x
  | |- err_frame _ (ret _) => apply err_frame_no_err, no_err_ret
  | |- err_frame _ (refuse _ _ _ _) => apply err_frame_frame; handler
  | |- err_frame _ (bind _ _) =>
      first [apply err_frame_no_err; solve [handler; apply no_err_broadcast; done]
            | apply err_frame_bind; [apply _|solve [cbv beta delta [when when_asked]; handler]|]]
  | |- err_frame _ (broadcastToSessions _ _ _ _ _) => apply err_frame_no_err, no_err_broadcast; done
  end.

Lemma publish_errs_quietly u msg asUid noEcho files head content :
  (forall s, no_err (u s)) -> err_frame replied (publish u msg asUid noEcho files head content).
Proof.
  intros Hu. unfold saveAndBroadcastMessage, number_and_save, acknowledge_duplicate, after_save. cbv zeta.
  repeat err_step.
Qed.

(** A publication that fails has sent nothing but answers to its client: no message, no push, no presence.
    It leaves the log as it was, or with the one message it was asked to store added: with the last position unmoved when the save
    reported an error although it took effect, moved when a later step failed. *)
Theorem publish_failure u msg asUid noEcho files head content w w' e :
  (forall s, no_err (u s)) ->
  publish u msg asUid noEcho files head content w = (w', Err e) ->
  replied w w' /\
  (log_same w w' \/
   exists m, as_requested w.(w_topic) msg asUid (sender_head msg asUid head) content m /\ (appended m 0 w w' \/ appended m 1 w w')).
Proof.
  intros Hu E. split; [by eapply publish_errs_quietly|]. apply (publish_errs_alike u (fun _ => panic "")) in E; [|done].
  apply (publish_outcome now health cluster businessPolicy _ _ _ _ _ _ _ _ _ _ _ log_same) in E;
    [|done|intros; apply broadcast_frame; [apply _|done|intros s; apply keeps_frame; intros l; apply keeps_panic]].
  destruct E as (o & w1 & Ho & H1 & Has & _ & _).
  assert (forall m adv, appended m adv w w1 -> appended m adv w w') as Hap.
  { intros m adv [id Hi]. exists id. by rewrite H1, Hi. }
  destruct o as [|m|m]; cbn in Ho, Has; [left; by transitivity w1|right; exists m; auto..].
Qed.
End Failures.

(** ** Witnesses: the member [3] of [chat_topic] *)

Lemma publish_authorized_witness :
  sender_allowed (St := PubMem) 100 false no_moderation (chat []) 3 "message".
Proof.
  apply (publish_authorized (St := PubMem) 100 None None false text_of_time time_of_text no_moderation hash byte_clusters sort_spans
    (fun s => s) (fun _ => false) (fun _ _ => false) (fun _ => None) (fun _ => ret tt) log_same
    (request "s3" 3 (pub_of "c11" 0 None (AStr "hi"))) 3 false [] None (AStr "hi") (chat []) (publish_run [] "c11").1 (Ret tt)).
  - by intros.
  - by intros s w.
  - discriminate.
  - intros x H. vm_compute in H. injection H as <-. vm_compute. reflexivity.
  - vm_compute. reflexivity.
  - vm_compute. discriminate.
Defined.

Lemma publish_numbers_witness :
  exists l, stored (publish_run [] "c11").1.(w_store) = (stored (chat []).(w_store) ++ l)%list /\ l <> [].
Proof.
  destruct (publish_numbers (St := PubMem) 100 None None false text_of_time time_of_text no_moderation hash byte_clusters sort_spans
    (fun s => s) (fun _ => false) (fun _ _ => false) (fun _ => None) (fun _ => ret tt)
    (request "s3" 3 (pub_of "c11" 0 None (AStr "hi"))) 3 false [] None (AStr "hi") (chat []) (publish_run [] "c11").1) as (l & Hl & _).
  - intros s w. reflexivity.
  - vm_compute. reflexivity.
  - exists l. split; [exact Hl|]. intros ->. revert Hl. vm_compute. discriminate.
Defined.

(** The save fails before it takes effect. *)
Definition failing : Faults := mkFaults (Some (TextErr "connection lost")) None None None None None None None.

Lemma publish_failure_witness :
  (publish_run [failing] "c11").2 = Err (TextErr "connection lost") /\ replied (chat [failing]) (publish_run [failing] "c11").1.
Proof.
  split; [vm_compute; reflexivity|].
  apply (publish_failure (St := PubMem) 100 None None false text_of_time time_of_text no_moderation hash byte_clusters sort_spans
    (fun s => s) (fun _ => false) (fun _ _ => false) (fun _ => None) (fun _ => ret tt)
    (request "s3" 3 (pub_of "c11" 0 None (AStr "hi"))) 3 false [] None (AStr "hi") (chat [failing]) _ (TextErr "connection lost")).
  - by intros s w w' e.
  - vm_compute. reflexivity.
Defined.
