(* ===== verification/CallsProps.v ===== *)
(** * CallsProps: properties of calls

    The recursion of [unregisterSession] ends, who gets which role in a call and how many, and runs in which ending a
    call goes wrong. *)

From Stdlib Require Import NArith ZArith Lia List Ascii String Bool.
From stdpp Require Import base tactics numbers list strings gmap sets pretty.
From S2P Require Import Prelude AccessMode Uid StoreTypes Fence Cluster Drafty Messages SubStore PCache PubStore Topic.
From S2P Require Import TopicSub TopicSession TopicSubProps OfficialGov Publish Notes Calls PublishSample PublishProps.
Import Objects.
Import Topic.

#[local] Open Scope string_scope.
#[local] Open Scope Z_scope.

(** ** Steps that leave the call alone and do not run out of fuel *)

Definition out_of_fuel {A} (r : Res A) : Prop := r = Topic.Panic "out of fuel".

Section Calm.
Context {St : Type} `{Store : PubStore St}.
Context (c : option videoCall).

Definition calm {A} (m : M (St := St) A) : Prop :=
  forall w, w.(w_topic).(currentCall) = c -> ~ out_of_fuel (m w).2 /\ (m w).1.(w_topic).(currentCall) = c.

Lemma calm_bind {A B} (m : M (St := St) A) (k : A -> M B) : calm m -> (forall a, calm (k a)) -> calm (bind m k).
Proof.
  intros Hm Hk w Hw. destruct (Hm w Hw) as [H1 H2]. unfold bind. destruct (m w) as [w1 [a|e|p]]; cbn in *; [by apply Hk|by split|].
  split; [|done]. unfold out_of_fuel in *. congruence.
Qed.
Lemma calm_get {B} (k : Topic -> M (St := St) B) : (forall t, currentCall t = c -> calm (k t)) -> calm (bind get_topic k).
Proof. intros Hk w Hw. by apply (Hk (w_topic w)). Qed.
Lemma calm_set t : currentCall t = c -> calm (set_topic (St := St) t). Proof. by intros Ht w _. Qed.
Lemma calm_modify (f : Topic -> Topic) : (forall t, currentCall (f t) = currentCall t) -> calm (modify (St := St) f).
Proof. intros Hf. apply calm_get. intros t Ht. apply calm_set. by rewrite Hf. Qed.
Lemma calm_call {A} (f : St -> St * A) : calm (call f).
Proof. intros w Hw. unfold call. by destruct (f _). Qed.
Lemma calm_get_topic : calm (get_topic (St := St)). Proof. by intros w. Qed.
Lemma calm_ret {A} (a : A) : calm (ret a). Proof. by intros w. Qed.
Lemma calm_fail {A} e : calm (fail (A := A) e). Proof. by intros w. Qed.
Lemma calm_panic {A} p : p <> "out of fuel" -> calm (panic (A := A) p).
Proof. intros Hp w Hw. split; [|done]. unfold out_of_fuel. cbn. congruence. Qed.
Lemma calm_emit e : calm (emit e). Proof. by intros w. Qed.
Lemma calm_lift {A} s (o : option A) : s <> "out of fuel" -> calm (lift_option s o).
Proof. intros Hs. destruct o; [apply calm_ret|by apply calm_panic]. Qed.
Lemma calm_lift_out {A} (o : Out A) : calm (lift_out o). Proof. destruct o; [apply calm_ret|apply calm_ret|by apply calm_panic]. Qed.
Lemma calm_attempt {A} (m : M (St := St) A) : calm m -> calm (attempt m).
Proof.
  intros Hm w Hw. destruct (Hm w Hw) as [H1 H2]. unfold attempt. destruct (m w) as [w1 [a|e|p]]; cbn in *; [done|done|].
  split; [|done]. unfold out_of_fuel in *. congruence.
Qed.
Lemma calm_when b (m : M (St := St) unit) : calm m -> calm (when b m). Proof. by destruct b; [|intros _ w]. Qed.
Lemma calm_emit_all es : calm (emit_all es).
Proof. induction es; simpl; [apply calm_ret|]. by apply calm_bind; [apply calm_emit|]. Qed.
Lemma calm_queueOut s r : calm (queueOut (St := St) s r). Proof. by intros w. Qed.
Lemma calm_when_asked msg (m : M (St := St) unit) : calm m -> calm (when_asked msg m). Proof. apply calm_when. Qed.
End Calm.

Create HintDb calm.
#[export] Hint Resolve calm_get_topic calm_ret calm_fail calm_emit calm_call calm_lift_out calm_emit_all calm_queueOut calm_when_asked : calm.

Ltac calm_step :=
  match goal with
  | |- forall _, _ => intro
  | |- calm _ (if ?b then _ else _) => destruct b
  | |- calm _ (match ?x with _ => _ end) => destruct x
  | |- calm _ (bind get_topic _) => apply calm_get
  | |- calm _ (bind _ _) => apply calm_bind
  | |- calm _ (attempt _) => apply calm_attempt
  | |- calm _ (when _ _) => apply calm_when
  | |- calm _ (when_asked _ _) => apply calm_when_asked
  | |- calm _ (panic _) => apply calm_panic; discriminate
  | |- calm _ (lift_option _ _) => apply calm_lift; discriminate
  | |- calm _ (set_topic _) => apply calm_set; first [done | congruence | solve [unfold cacheSubscriber; repeat case_match; done]]
  | |- calm _ (modify _) => apply calm_modify; done
  | |- calm _ _ => solve [eauto with calm]
  end.
Ltac calm := repeat calm_step.

Section CalmSteps.
Context {St : Type} `{Store : PubStore St}.
Context (now : Z) (health : option bool) (cluster : option Cluster) (businessPolicy : bool).
Context (time_text : Z -> string) (time_parse : string -> option Z) (moderation_parse : string -> option officialModerationState).
Context (sha256 : string -> string) (clusters : string -> list string) (sortSlice : list span -> list span) (nfkc : string -> string).
Context (lastAction : string -> Z) (sessUserAgent : string -> string).
Context (c : option videoCall).

Lemma calm_reply msg x : calm c (reply (St := St) msg x). Proof. unfold reply. calm. Qed.
Lemma calm_reply_as msg u x : calm c (reply_as (St := St) msg u x). Proof. unfold reply_as. calm. Qed.
#[local] Hint Resolve calm_reply calm_reply_as : calm.
Lemma calm_refuse {A} msg u x e : calm c (refuse (St := St) (A := A) msg u x e). Proof. unfold refuse. calm. Qed.
Lemma calm_checked (f : St -> St * option GoError) : calm c (checked f). Proof. unfold checked. calm. Qed.
Lemma calm_fetch {A} (f : St -> St * (A + GoError)) : calm c (fetch f). Proof. unfold fetch. calm. Qed.
Lemma calm_policy : calm c (must (refreshOfficialPolicy (St := St) now)). Proof. unfold must, refreshOfficialPolicy. calm. Qed.
#[local] Hint Resolve calm_refuse calm_checked calm_fetch calm_policy : calm.

Lemma call_cache t s : currentCall (cacheSubscriber t s) = currentCall t.
Proof. unfold cacheSubscriber. by repeat case_match. Qed.

Lemma calm_channel_member u : calm c (refreshOfficialChannelMember (St := St) now u).
Proof. unfold refreshOfficialChannelMember. calm. Qed.
Lemma calm_large_member u : calm c (refreshOfficialLargeMember (St := St) now u).
Proof. unfold refreshOfficialLargeMember. calm; apply calm_set; cbn; by rewrite ?call_cache. Qed.
Lemma calm_moderation u : calm c (loadOfficialModeration (St := St) now moderation_parse u).
Proof. unfold loadOfficialModeration. calm. Qed.
#[local] Hint Resolve calm_channel_member calm_large_member calm_moderation : calm.
Lemma calm_check u scope : calm c (checkOfficialPublish (St := St) now moderation_parse u scope).
Proof. unfold checkOfficialPublish. calm. Qed.
Lemma calm_authorize bp u action : calm c (authorizeBusinessAction (St := St) bp u action).
Proof. unfold authorizeBusinessAction. calm. Qed.
Lemma calm_archive msg u m : calm c (archiveForCompliance (St := St) businessPolicy msg u m).
Proof. unfold archiveForCompliance. calm. Qed.
#[local] Hint Resolve calm_check calm_authorize calm_archive : calm.
Lemma calm_may_publish msg u scope :
  calm c (may_publish (St := St) now businessPolicy time_text time_parse moderation_parse msg u scope).
Proof. unfold may_publish. calm. Qed.
Lemma calm_from_stored topic from m : calm c (from_stored (St := St) time_parse clusters sortSlice topic from m).
Proof. unfold from_stored. calm. Qed.
Lemma calm_save m files rb : calm c (Messages_Save (St := St) now sha256 clusters sortSlice nfkc m files rb).
Proof. unfold Messages_Save. calm. Qed.

(** *** Leaving a topic *)

Lemma calm_for_users f us : (forall u, calm c (f u)) -> calm c (for_users (St := St) f us).
Proof. intros Hf. induction us; simpl; calm; auto. Qed.
Lemma calm_cold u : calm c (evictColdSubscriber (St := St) u).
Proof.
  unfold evictColdSubscriber. apply calm_get. intros t Ht. destruct (_ || _); [calm|]. destruct (_ !! u); [|calm].
  destruct (0 <? _); [calm|]. cbv zeta. destruct (_ || _); [calm|]. apply calm_bind; [|calm]. apply calm_set.
  unfold computePerUserAcsUnion. by case_match.
Qed.
#[local] Hint Resolve calm_for_users calm_cold : calm.
Lemma calm_group_user_left asChan u : calm c (group_user_left (St := St) asChan u).
Proof. unfold group_user_left. calm. Qed.
#[local] Hint Resolve calm_group_user_left : calm.
Lemma calm_after_leave sess init asChan u p : calm c (after_leave (St := St) lastAction sessUserAgent sess init asChan u p).
Proof. unfold after_leave. calm; apply calm_for_users; intros; calm. Qed.

Lemma remSession_call t sess u : currentCall (remSession t sess u).1.1 = currentCall t.
Proof. unfold remSession. by repeat case_match. Qed.

Lemma calm_drop sess orig u : calm c (handleLeaveRequest (St := St) lastAction sessUserAgent sess false false orig u).
Proof.
  unfold handleLeaveRequest. apply calm_get. intros t Ht. cbn [andb]. apply calm_bind; [calm|]. intros _. destruct (isInactive t); [calm|].
  pose proof (remSession_call t sess 0) as E. destruct (remSession t sess 0) as [[t' [p|]] b]; [|calm]. cbn in E.
  apply calm_bind; [apply calm_set; congruence|]. intros _. apply calm_after_leave.
Qed.
End CalmSteps.

#[export] Hint Resolve calm_reply calm_reply_as calm_refuse calm_checked calm_fetch calm_policy calm_channel_member calm_large_member
  calm_moderation calm_check calm_authorize calm_archive calm_may_publish calm_from_stored calm_save calm_drop : calm.

(** ** The parties of a call shrink *)

(** Every call is an Agora call: [handleCallInvite] makes no other. *)
Definition call_ok (t : Topic) : Prop := forall c, t.(currentCall) = Some c -> c.(provider) = constCallProviderAgora.

(** The sessions with media. *)
Definition media_of (c : videoCall) : gset string := dom (filter (fun kv : string * callPartyData => has_agora kv.2 = true) c.(parties)).
Definition media (t : Topic) : gset string := match t.(currentCall) with Some c => media_of c | None => ∅ end.

Lemma elem_of_media c s : s ∈ media_of c <-> exists p, c.(parties) !! s = Some p /\ has_agora p = true.
Proof.
  unfold media_of. rewrite elem_of_dom. split.
  - intros [p [Hp Ha]%map_lookup_filter_Some]. by exists p.
  - intros (p & Hp & Ha). exists p. by apply map_lookup_filter_Some.
Qed.

Section Tame.
Context {St : Type} `{Store : PubStore St}.
Context (n : nat).

(** With fewer than [n] sessions in media: no fuel runs out, the call stays an Agora call, nobody joins media. *)
Definition tame_post {A} (w : World St) (o : World St * Res A) : Prop :=
  ~ out_of_fuel o.2 /\ call_ok o.1.(w_topic) /\ media o.1.(w_topic) ⊆ media w.(w_topic).
#[local] Arguments tame_post {A} w o /.
Definition tame {A} (m : M (St := St) A) : Prop :=
  forall w, call_ok w.(w_topic) -> (size (media w.(w_topic)) < n)%nat -> tame_post w (m w).

Lemma tame_bind {A B} (m : M (St := St) A) (k : A -> M B) : tame m -> (forall a, tame (k a)) -> tame (bind m k).
Proof.
  intros Hm Hk w Hw Hn. destruct (Hm w Hw Hn) as (H1 & H2 & H3). unfold bind. destruct (m w) as [w1 [a|e|p]]; cbn in *; [|done|].
  - apply subseteq_size in H3 as H4. destruct (Hk a w1 H2 ltac:(lia)) as (H5 & H6 & H7). split; [done|]. split; [done|]. by etransitivity.
  - split; [|done]. unfold out_of_fuel in *. congruence.
Qed.

Lemma tame_calm {A} (m : M (St := St) A) : (forall c, calm c m) -> tame m.
Proof.
  intros Hm w Hw _. destruct (Hm _ w eq_refl) as [H1 H2]. split; [done|]. unfold call_ok, media in *. by rewrite H2.
Qed.

(** A step that looks at the topic and leaves its call alone. *)
Lemma tame_get_calm {A} (m : Topic -> M (St := St) unit) (k : Topic -> M A) :
  (forall t, calm (currentCall t) (m t)) -> (forall t, tame (k t)) -> tame (bind get_topic (fun t => bind (m t) (fun _ => k t))).
Proof.
  intros Hm Hk w Hw Hn. pose proof (Hm (w_topic w) w eq_refl) as [H1 H2]. unfold bind, get_topic. cbn.
  destruct (m (w_topic w) w) as [w1 [[]|e|p]]; cbn in *.
  - assert (call_ok (w_topic w1) /\ media (w_topic w1) = media (w_topic w)) as [H3 H4].
    { unfold call_ok, media in *. by rewrite H2. }
    rewrite <- H4. apply Hk; [done|by rewrite H4].
  - split; [done|]. unfold call_ok, media in *. by rewrite H2.
  - split; [unfold out_of_fuel in *; congruence|]. unfold call_ok, media in *. by rewrite H2.
Qed.

Lemma tame_attempt {A} (m : M (St := St) A) : tame m -> tame (attempt m).
Proof.
  intros Hm w Hw Hn. destruct (Hm w Hw Hn) as (H1 & H2). unfold attempt. destruct (m w) as [w1 [a|e|p]]; cbn in *; [done|done|].
  split; [|done]. unfold out_of_fuel in *. congruence.
Qed.
Lemma tame_ret {A} (a : A) : tame (ret a). Proof. apply tame_calm. intros c. apply calm_ret. Qed.
Lemma post_ret {A} (a : A) w : call_ok w.(w_topic) -> tame_post w (ret a w). Proof. by intros; split. Qed.
Lemma tame_when b (m : M (St := St) unit) : tame m -> tame (when b m).
Proof. destruct b; [done|]. intros _. apply tame_ret. Qed.

(** A change of the call that adds nobody to media, of the call just read. *)
Lemma tame_update (f : videoCall -> option videoCall) call (w : World St) :
  w.(w_topic).(currentCall) = Some call -> call_ok w.(w_topic) ->
  (forall c', f call = Some c' -> c'.(provider) = call.(provider) /\ media_of c' ⊆ media_of call) ->
  let w1 := mkWorld (set_call w.(w_topic) (f call)) w.(w_store) w.(w_out) in
  call_ok w1.(w_topic) /\ media w1.(w_topic) ⊆ media w.(w_topic).
Proof.
  intros Hc Hok Hf. cbv zeta. unfold call_ok, media in *. cbn. rewrite Hc in *. destruct (f call) as [c'|].
  - destruct (Hf c' eq_refl) as [Hp Hs]. split; [|done]. intros c0 [= <-]. rewrite Hp. by apply Hok.
  - split; [done|]. set_solver.
Qed.

Lemma tame_end : tame (modify (St := St) (fun t => set_call t None)).
Proof. intros w Hw Hn. cbn. split; [done|]. split; [by intros c|]. unfold media. cbn. set_solver. Qed.
End Tame.

Lemma tame_le {St} `{PubStore St} {A} n n' (m : M (St := St) A) : (n <= n')%nat -> tame n' m -> tame n m.
Proof. intros Hle Hm w Hw Hn. apply Hm; [done|lia]. Qed.

Create HintDb tame.
#[export] Hint Resolve tame_end : tame.

Ltac tame_step :=
  match goal with
  | |- forall _, _ => intro
  | |- tame _ _ => solve [apply tame_calm; calm]
  | |- tame _ _ => solve [eauto with tame]
  | |- tame _ (if ?b then _ else _) => destruct b
  | |- tame _ (match ?x with _ => _ end) => destruct x
  | |- tame _ (bind get_topic _) => apply tame_get_calm; [intros; solve [calm]|]
  | |- tame _ (bind _ _) => apply tame_bind
  | |- tame _ (attempt _) => apply tame_attempt
  | |- tame _ (when _ _) => apply tame_when
  end.
Ltac tame := repeat tame_step.

Section TameSteps.
Context {St : Type} `{Store : PubStore St}.
Context (now : Z) (health : option bool) (cluster : option Cluster) (businessPolicy : bool).
Context (time_text : Z -> string) (time_parse : string -> option Z) (moderation_parse : string -> option officialModerationState).
Context (sha256 : string -> string) (clusters : string -> list string) (sortSlice : list span -> list span) (nfkc : string -> string).
Context (queue_full : string -> bool) (joined : string -> string -> bool) (sessionStore : string -> option Session).
Context (lastAction : string -> Z) (sessUserAgent : string -> string).
Context (n : nat) (drop : Session -> M (St := St) unit) (Hdrop : forall s, tame n (drop s)).

#[local] Hint Resolve Hdrop : tame.

Lemma tame_broadcast msg : tame n (broadcastToSessions queue_full joined sessionStore drop msg).
Proof.
  unfold broadcastToSessions. apply tame_bind; [tame|]. intros t. apply tame_bind.
  - apply tame_calm. intros c. generalize (None : option ServerComMessage, None : option ServerComMessage).
    induction (map_to_list _) as [|[k [s p]] ss IH]; intros v; simpl; calm; apply IH.
  - intros ds. induction ds as [|s ds IH]; simpl; tame; done.
Qed.
#[local] Hint Resolve tame_broadcast : tame.

Lemma calm_the_call c : calm c (the_call (St := St)). Proof. unfold the_call. calm. Qed.
Lemma calm_the_session c msg : calm c (the_session (St := St) msg). Proof. unfold the_session. calm. Qed.
#[local] Hint Resolve calm_the_call calm_the_session : calm.

Lemma tame_publish msg u noEcho files head content :
  tame n (saveAndBroadcastMessage now health cluster businessPolicy time_text time_parse moderation_parse sha256 clusters sortSlice nfkc
    queue_full joined sessionStore drop msg u noEcho files head content).
Proof. unfold saveAndBroadcastMessage, number_and_save, acknowledge_duplicate, after_save. cbv zeta. tame. Qed.
#[local] Hint Resolve tame_publish : tame.

Lemma tame_persist msg state duration :
  tame n (persistCallState now health cluster businessPolicy time_text time_parse moderation_parse sha256 clusters sortSlice nfkc
    queue_full joined sessionStore drop msg state duration).
Proof. unfold persistCallState. tame. Qed.
#[local] Hint Resolve tame_persist : tame.

Lemma tame_notify from us : tame n (notify_hangup (St := St) from us).
Proof. induction us; simpl; tame; done. Qed.
#[local] Hint Resolve tame_notify : tame.

Lemma tame_maybeEnd from msg timeout :
  tame n (maybeEndCallInProgress now health cluster businessPolicy time_text time_parse moderation_parse sha256 clusters sortSlice nfkc
    queue_full joined sessionStore drop from msg timeout).
Proof. unfold maybeEndCallInProgress. tame. Qed.
#[local] Hint Resolve tame_maybeEnd : tame.

Lemma tame_terminate timeout :
  tame n (terminateCallInProgress now health cluster businessPolicy time_text time_parse moderation_parse sha256 clusters sortSlice nfkc
    queue_full joined sessionStore drop timeout).
Proof. unfold terminateCallInProgress. tame. Qed.

(** *** A party leaves *)

Abbreviation remove := (removeAgoraParty queue_full joined sessionStore drop).
Abbreviation loop := (disconnect_loop queue_full joined sessionStore drop).
Abbreviation disconnect := (disconnectAgoraCallSessions now health cluster businessPolicy time_text time_parse moderation_parse sha256
  clusters sortSlice nfkc queue_full joined sessionStore drop).
Abbreviation unregister := (unregister_with now health cluster businessPolicy time_text time_parse moderation_parse sha256 clusters
  sortSlice nfkc queue_full joined sessionStore lastAction sessUserAgent drop).

Lemma media_delete c s : media_of (with_parties c (delete s c.(parties))) = media_of c ∖ {[s]}.
Proof.
  apply set_eq. intros x. rewrite elem_of_difference, elem_of_singleton, !elem_of_media. cbn [with_parties parties]. split.
  - intros (p & [Hx Hp]%lookup_delete_Some & Ha). split; [by exists p|congruence].
  - intros [(p & Hp & Ha) Hx]. exists p. by rewrite lookup_delete_ne by congruence.
Qed.

(** Removing a party with media takes it out of media before anybody is told, so the telling needs less fuel. *)
Lemma remove_spec s (w : World St) c p :
  w.(w_topic).(currentCall) = Some c -> c.(parties) !! s = Some p -> has_agora p = true ->
  call_ok w.(w_topic) -> (size (media w.(w_topic)) < S n)%nat ->
  let '(w', r) := remove s w in
  ~ out_of_fuel r /\ call_ok w'.(w_topic) /\ media w'.(w_topic) ⊆ media w.(w_topic) /\ (size (media w'.(w_topic)) < n)%nat.
Proof.
  intros Hc Hp Ha Hok Hn. unfold removeAgoraParty, the_call. unfold bind at 1 2, get_topic at 1. rewrite Hc. cbn [lift_option ret]. rewrite Hp.
  destruct p as [u orig sess [[m publisher]|]]; [|done]. unfold modify at 1, bind at 1 2, get_topic at 1, set_topic at 1.
  set (c' := with_parties _ _). set (w1 := mkWorld _ _ _).
  assert (call_ok (w_topic w1)) as H1 by (intros c0 Hc0; injection Hc0 as <-; apply (Hok c Hc)).
  assert (media (w_topic w1) = media (w_topic w) ∖ {[s]}) as Hm by (unfold media; cbn; rewrite Hc; apply media_delete).
  assert (s ∈ media (w_topic w)) as Hs by (unfold media; rewrite Hc; apply elem_of_media; eauto).
  assert (size (media (w_topic w1)) < n)%nat as H2.
  { rewrite Hm, size_difference by (clear -Hs; set_solver). rewrite size_singleton. assert (size (media (w_topic w)) <> 0%nat); [|lia].
    apply size_non_empty_iff. clear -Hs. set_solver. }
  destruct (tame_broadcast (infoMessage c' "" (UserId u) constCallEventLeave (AMap [("provider", AStr constCallProviderAgora);
    ("user_id", AStr (UserId u)); ("uid", AInt m)]) s) w1 H1 H2) as (H3 & H4 & H5).
  destruct (broadcastToSessions _ _ _ _ _ w1) as [w2 r]. cbn in *. split; [done|]. split; [done|]. split; [clear -H5 Hm; set_solver|].
  apply subseteq_size in H5. lia.
Qed.

Lemma loop_spec sess ids last (w : World St) :
  call_ok w.(w_topic) -> (size (media w.(w_topic)) < S n)%nat ->
  let '(w', r) := loop sess ids last w in
  ~ out_of_fuel r /\ call_ok w'.(w_topic) /\ media w'.(w_topic) ⊆ media w.(w_topic) /\
  (r = Ret last \/ (size (media w'.(w_topic)) < n)%nat).
Proof.
  revert last w. induction ids as [|s ids IH]; intros last w Hok Hn; cbn [disconnect_loop].
  { cbn. split; [done|]. split; [done|]. split; [done|by left]. }
  unfold bind at 1, get_topic at 1. destruct (c ← currentCall (w_topic w); parties c !! s) as [p|] eqn:Ep; [|by apply IH].
  destruct (carries sess s p && has_agora p) eqn:Ec; [|by apply IH].
  apply andb_true_iff in Ec as [_ Ha]. destruct (currentCall (w_topic w)) as [c|] eqn:Hc; [|done]. cbn in Ep.
  pose proof (remove_spec s w c p Hc Ep Ha Hok Hn) as Hr. unfold bind. destruct (remove s w) as [w1 [[]|e|p']]; destruct Hr as (H1 & H2 & H3 & H4).
  - specialize (IH (cp_uid p) w1 H2 ltac:(lia)). destruct (loop sess ids (cp_uid p) w1) as [w2 r]. destruct IH as (H5 & H6 & H7 & _).
    split; [done|]. split; [done|]. split; [by etransitivity|]. right. apply subseteq_size in H7. lia.
  - split; [done|]. split; [done|]. split; [done|by right].
  - split; [unfold out_of_fuel in *; congruence|]. split; [done|]. split; [done|by right].
Qed.

Lemma tame_disconnect msg sess : tame (S n) (disconnect msg sess).
Proof.
  intros w Hok Hn. change (tame_post w (disconnect msg sess w)). unfold disconnectAgoraCallSessions. unfold bind at 1, get_topic at 1.
  destruct (currentCall (w_topic w)) as [c|] eqn:Hc; [|by apply post_ret]. destruct (negb _); [by apply post_ret|]. unfold bind at 1.
  pose proof (loop_spec sess (map fst (map_to_list (parties c))) ZeroUid w Hok Hn) as Hl.
  destruct (loop sess _ ZeroUid w) as [w1 [u|e|p]]; destruct Hl as (H1 & H2 & H3 & H4).
  2: done. 2: { split; [unfold out_of_fuel in *; cbn; congruence|done]. }
  unfold bind, get_topic. destruct ((agoraParticipantCount (w_topic w1) =? 0) && negb (IsZeroUid u)) eqn:Eu; [|done].
  cbn [when].
  destruct H4 as [[= ->]|H4]; [by rewrite andb_comm in Eu|].
  destruct (tame_maybeEnd (UserId u) (with_user msg (UserId u)) false w1 H2 H4) as (H5 & H6 & H7).
  split; [done|]. split; [done|]. by etransitivity.
Qed.

Lemma tame_unregister msg sess : tame (S n) (unregister msg sess false false).
Proof.
  intros w Hok Hn. change (tame_post w (unregister msg sess false false w)). unfold unregister_with. unfold bind at 1, get_topic at 1.
  assert (forall m : M (St := St) unit, tame (S n) m -> forall k : unit -> M (St := St) unit, (forall a, tame (S n) (k a)) ->
    tame_post w (bind m k w)) as Hb.
  { intros m Hm k Hk. by apply (tame_bind (S n) m k Hm Hk w). }
  apply Hb; [|intros; tame]. destruct (currentCall (w_topic w)) as [c|] eqn:Hc; [|tame]. rewrite (Hok c Hc). apply tame_disconnect.
Qed.
End TameSteps.

#[export] Hint Resolve tame_broadcast tame_publish tame_persist tame_maybeEnd tame_terminate : tame.

(** ** Termination *)

Section Termination.
Context {St : Type} `{Store : PubStore St}.
Context (now : Z) (health : option bool) (cluster : option Cluster) (businessPolicy : bool).
Context (time_text : Z -> string) (time_parse : string -> option Z) (moderation_parse : string -> option officialModerationState).
Context (sha256 : string -> string) (clusters : string -> list string) (sortSlice : list span -> list span) (nfkc : string -> string).
Context (queue_full : string -> bool) (joined : string -> string -> bool) (sessionStore : string -> option Session).
Context (lastAction : string -> Z) (sessUserAgent : string -> string).

Abbreviation drop := (unregisterSession (St := St) now health cluster businessPolicy time_text time_parse moderation_parse sha256 clusters
  sortSlice nfkc queue_full joined sessionStore lastAction sessUserAgent).

Lemma tame_drop fuel s : tame fuel (drop fuel s).
Proof. revert s. induction fuel as [|fuel IH]; intros s; [intros w _ Hn; lia|]. apply (tame_unregister now health cluster businessPolicy time_text time_parse moderation_parse sha256 clusters sortSlice nfkc
    queue_full joined sessionStore lastAction sessUserAgent fuel _ IH). Qed.

(** C13: Dropping a session ends: a broadcast that drops a slow session may end its part of a call, which broadcasts
    again, but each such round has one session less in the call's media, so that many levels and one more are enough.  The
    call stays an Agora call and nobody joins its media meanwhile. *)
Theorem unregister_terminates fuel s (w : World St) :
  call_ok w.(w_topic) -> (size (media w.(w_topic)) < fuel)%nat ->
  let '(w', r) := drop fuel s w in
  ~ out_of_fuel r /\ call_ok w'.(w_topic) /\ media w'.(w_topic) ⊆ media w.(w_topic).
Proof. intros Hok Hn. by pose proof (tame_drop fuel s w Hok Hn) as (? & ? & ?); destruct (drop fuel s w). Qed.
End Termination.

(** ** The shop's policy and the answer to a call *)

Section Refused.
Context {St : Type} `{Laws : PubStoreLaws St}.
Context (now : Z) (health : option bool) (cluster : option Cluster) (agora : option agoraProvider).
Context (time_text : Z -> string) (time_parse : string -> option Z) (moderation_parse : string -> option officialModerationState).
Context (sha256 : string -> string) (clusters : string -> list string) (sortSlice : list span -> list span) (nfkc : string -> string).
Context (queue_full : string -> bool) (joined : string -> string -> bool) (sessionStore : string -> option Session).
Context (BuildRTCToken : string -> string -> string -> Z -> bool -> Z -> option string).
Context (drop : Session -> M (St := St) unit).

Abbreviation publish := (saveAndBroadcastMessage now health cluster true time_text time_parse moderation_parse sha256 clusters sortSlice nfkc
  queue_full joined sessionStore drop).
Abbreviation persist := (persistCallState now health cluster true time_text time_parse moderation_parse sha256 clusters sortSlice nfkc
  queue_full joined sessionStore drop).
Abbreviation answer := (handleP2PCallAnswer now health cluster true time_text time_parse moderation_parse sha256 clusters sortSlice nfkc
  queue_full joined sessionStore drop).
Abbreviation issue := (issueAgoraCallCredentials now health cluster true agora time_text time_parse moderation_parse sha256 clusters sortSlice
  nfkc queue_full joined sessionStore BuildRTCToken drop).
Abbreviation event := (handleCallEvent now health cluster true agora time_text time_parse moderation_parse sha256 clusters sortSlice nfkc
  queue_full joined sessionStore BuildRTCToken drop).

(** The log and the call are as they were. *)
Definition still (w w' : World St) : Prop := log_same w w' /\ w'.(w_topic).(currentCall) = w.(w_topic).(currentCall).

#[local] Instance still_preorder : PreOrder still.
Proof. split; [done|]. intros a b c [H1 H2] [H3 H4]. split; [by etransitivity|congruence]. Qed.

Lemma frame_still {A} (m : M (St := St) A) : (forall l, keeps l m) -> (forall c, calm c m) -> frame still m.
Proof. intros Hk Hc w. split; [by apply keeps_frame|]. by apply (Hc _ w). Qed.

Ltac still := apply frame_still; intros ?; [solve [keep]|solve [calm]].

Lemma still_bind {A B} (m : M (St := St) A) (k : A -> M B) w w' r :
  frame still m -> bind m k w = (w', r) ->
  (still w w' /\ forall b, r <> Ret b) \/ exists w1 a, m w = (w1, Ret a) /\ still w w1 /\ k a w1 = (w', r).
Proof.
  intros Hm. specialize (Hm w). unfold bind. destruct (m w) as [w1 [a|e|p]]; [|intros [= <- <-]; by left..].
  intros E. right. by exists w1, a.
Qed.

Lemma still_cat w w' : still w w' -> w'.(w_topic).(t_cat) = w.(w_topic).(t_cat).
Proof. intros [H1 _]. unfold log_same, log_of, core in H1. congruence. Qed.

(** No client id, and none can be added: the state of the call has no {pub} of its own. *)
Lemma publish_refused msg u noEcho files head content (w w' : World St) r :
  w.(w_topic).(t_cat) = TopicCatP2P -> msg.(c_Pub) = None -> publish msg u noEcho files head content w = (w', r) ->
  still w w' /\ forall a, r <> Ret a.
Proof.
  intros Hc Hp. unfold saveAndBroadcastMessage. unfold bind at 1, get_topic at 1.
  intros [E|(w1 & [] & _ & S1 & E)]%still_bind; [done| |still].
  revert E. unfold client_id. rewrite Hp. unfold bind at 1, get_topic at 1. rewrite (still_cat _ _ S1), Hc. cbn [cat_eqb andb when String.eqb].
  intros [[S2 E]|(w2 & [] & E & _)]%still_bind; [|by apply refuse_not_ret in E|still].
  split; [by etransitivity|done].
Qed.

(** A step that cannot succeed, attempted. *)
Lemma still_attempt {A B} (m : M (St := St) A) (k : A + GoError -> M B) w w' r :
  (forall w1 r1, m w = (w1, r1) -> still w w1 /\ forall a, r1 <> Ret a) -> bind (attempt m) k w = (w', r) ->
  (still w w' /\ forall b, r <> Ret b) \/ exists w1 e, still w w1 /\ k (inr e) w1 = (w', r).
Proof.
  intros Hm. unfold bind, attempt. destruct (m w) as [w1 [a|e|p]]; destruct (Hm _ _ eq_refl) as [S1 N1].
  - by destruct (N1 a).
  - intros E. right. by exists w1, e.
  - intros [= <- <-]. by left.
Qed.

Lemma persist_refused msg state d (w w' : World St) r :
  w.(w_topic).(t_cat) = TopicCatP2P -> msg.(c_Pub) = None -> persist msg state d w = (w', r) ->
  still w w' /\ forall a, r <> Ret a.
Proof.
  intros Hc Hp. unfold persistCallState. unfold bind at 1, get_topic at 1.
  intros [E|(w1 & call & _ & S1 & E)]%still_bind; [done| |unfold the_call; still].
  apply still_attempt in E as [[S2 N2]|(w2 & e & S2 & E)];
    [split; [by etransitivity|done]| |].
  2: { intros w2 r2 E2. apply publish_refused in E2; [done|by rewrite (still_cat _ _ S1)|done]. }
  apply still_bind in E as [[S3 N3]|(w3 & c3 & _ & S3 & E)]; [| |unfold the_call; still].
  - split; [do 2 (etransitivity; [eassumption|]); done|done].
  - injection E as <- <-. split; [do 2 (etransitivity; [eassumption|]); done|done].
Qed.

Lemma answer_still msg u ev payload (w w' : World St) r :
  w.(w_topic).(t_cat) = TopicCatP2P -> msg.(c_Pub) = None -> (getCallOriginator w.(w_topic)).2 <> None ->
  answer msg u ev payload w = (w', r) -> still w w'.
Proof.
  intros Hc Hp Ho. unfold handleP2PCallAnswer.
  intros [[E _]|(w1 & call & Ec & S1 & E)]%still_bind; [done| |unfold the_call; still].
  revert E. destruct (negb _); [by intros [= <- _]|]. unfold bind at 1, get_topic at 1.
  assert (getCallOriginator w1.(w_topic) = getCallOriginator w.(w_topic)) as Ho1 by (unfold getCallOriginator; by rewrite (proj2 S1)).
  rewrite Ho1. destruct (getCallOriginator (w_topic w)) as [o [os|]]; [|by destruct Ho].
  intros [[E _]|(w2 & s & _ & S2 & E)]%still_bind; [by etransitivity| |unfold the_session; still].
  revert E. destruct (_ || _); [intros [= <- _]; by etransitivity|].
  intros [[E _]|(w3 & name & _ & S3 & E)]%still_bind; [by do 2 etransitivity| |still].
  assert (still w w3) as S4 by (do 2 (etransitivity; [eassumption|]); done). etransitivity; [exact S4|]. clear S1 S2 S3 Ec.
  revert E. destruct (String.eqb ev constCallEventAccept).
  - unfold bind at 1. destruct (bind (attempt (persist msg constCallMsgAccepted 0)) _ w3) as [w4 r4] eqn:E4.
    assert (still w3 w4 /\ r4 <> Ret true) as [S5 N5].
    { apply still_attempt in E4 as [[S6 N6]|(w5 & e & S6 & E6)]; [done|by injection E6 as <- <-|].
      intros w5 r5 E5. apply persist_refused in E5; [done|by rewrite (still_cat _ _ S4)|done]. }
    destruct r4 as [[]|e|p]; [done| | |]; by intros [= <- <-].
  - unfold bind at 1. cbn. by intros [= <- _].
Qed.

Lemma issue_still msg u mode refresh (w w' : World St) r :
  w.(w_topic).(t_cat) = TopicCatP2P -> msg.(c_Pub) = None ->
  (forall c, w.(w_topic).(currentCall) = Some c -> c.(acceptedAt) = None /\ media_of c = ∅) ->
  issue msg u mode refresh w = (w', r) -> still w w'.
Proof.
  intros Hc Hp Hi. unfold issueAgoraCallCredentials. destruct agora as [p|].
  2: { intros E. assert (frame still (answer_to msg (St := St) Ctrl.ErrNotImplemented)) as F by (unfold answer_to, the_session, when_asked; still).
       specialize (F w). by rewrite E in F. }
  intros [[E _]|(w1 & call & Ec & S1 & E)]%still_bind; [done| |unfold the_call; still]. revert E.
  assert (call.(acceptedAt) = None /\ media_of call = ∅) as [Ha Hm].
  { revert Ec. unfold the_call, bind at 1, get_topic at 1. destruct (currentCall (w_topic w)) as [c|] eqn:E; [|done].
    intros [= _ <-]. by apply Hi. }
  intros [[E _]|(w2 & s & _ & S2 & E)]%still_bind; [by etransitivity| |unfold the_session; still]. revert E. cbv zeta.
  assert (match parties call !! sid s with Some p => has_agora p | None => false end = false) as Hin.
  { destruct (parties call !! sid s) as [q|] eqn:Eq; [|done]. destruct (has_agora q) eqn:Ea; [|done].
    assert (sid s ∈ media_of call) as Hs by (apply elem_of_media; eauto). rewrite Hm in Hs. set_solver. }
  rewrite Hin, Ha. unfold bind at 1, get_topic at 1. assert (still w w2) as S3 by (by etransitivity). clear S1 S2 Ec.
  assert (forall x, frame still (answer_to msg (St := St) x)) as F by (intros x; unfold answer_to, the_session, when_asked; still).
  assert (forall x, answer_to msg x w2 = (w', r) -> still w w') as Ha2.
  { intros x E. specialize (F x w2). rewrite E in F. by etransitivity. }
  destruct refresh; [by apply Ha2|]. cbn [negb andb]. destruct (_ <=? _); [by apply Ha2|].
  destruct (credentials _ _ _ _ _ _ _) as [[uid payload]|]; [|by apply Ha2].
  intros E. etransitivity; [exact S3|]. revert E. unfold bind at 1.
  destruct (bind (attempt (markAgoraCallAccepted _ _ _ _ _ _ _ _ _ _ _ _ _ _ _ msg)) _ w2) as [w4 r4] eqn:E4.
  assert (still w2 w4 /\ r4 <> Ret true) as [S5 N5].
  { apply still_attempt in E4 as [[S6 N6]|(w5 & e & S6 & E6)]; [done|by injection E6 as <- <-|].
    unfold markAgoraCallAccepted. intros w5 r5. unfold bind at 1. destruct (persist msg constCallMsgAccepted 0 w2) as [w6 r6] eqn:E5.
    apply persist_refused in E5 as [S6 N6]; [|by rewrite (still_cat _ _ S3)|done]. destruct r6 as [[]|e|q]; [by destruct (N6 tt)| |];
      by intros [= <- <-]. }
  destruct r4 as [[]|e|q]; [done| | |]; by intros [= <- <-].
Qed.

Abbreviation agora_event := (handleAgoraCallEvent now health cluster true agora time_text time_parse moderation_parse sha256 clusters sortSlice
  nfkc queue_full joined sessionStore BuildRTCToken drop).

Lemma event_still msg note u (w w' : World St) r :
  w.(w_topic).(t_cat) = TopicCatP2P -> msg.(c_Pub) = None -> (getCallOriginator w.(w_topic)).2 <> None ->
  (forall c, w.(w_topic).(currentCall) = Some c -> c.(acceptedAt) = None /\ media_of c = ∅) -> note.(n_Event) <> constCallEventHangUp ->
  agora_event msg note u w = (w', r) -> still w w'.
Proof.
  intros Hc Hp Ho Hi He. unfold handleAgoraCallEvent. unfold bind at 1, get_topic at 1. cbv zeta.
  assert (forall x, answer_to msg x w = (w', r) -> still w w') as Hans.
  { intros x E. assert (frame still (answer_to msg (St := St) x)) as F by (unfold answer_to, the_session, when_asked; still).
    specialize (F w). by rewrite E in F. }
  destruct (_ || _ || _); [apply Hans|]. destruct (_ || _); [by apply issue_still|].
  destruct (String.eqb _ constCallEventLeave); [|destruct (String.eqb_spec (n_Event note) constCallEventHangUp); [done|]].
  - unfold leaveAgoraCall. intros [[E _]|(w1 & call & Ec & S1 & E)]%still_bind; [done| |unfold the_call; still].
    apply still_bind in E as [[E _]|(w2 & s & _ & S2 & E)]; [by etransitivity| |unfold the_session; still].
    assert (media_of call = ∅) as Hm.
    { revert Ec. unfold the_call, bind at 1, get_topic at 1. destruct (currentCall (w_topic w)) as [c|] eqn:E3; [|done].
      intros [= _ <-]. by apply Hi. }
    destruct (parties call !! sid s) as [q|] eqn:Eq; [|injection E as <- _; by etransitivity].
    destruct (has_agora q) eqn:Eh; [|injection E as <- _; by etransitivity].
    assert (sid s ∈ media_of call) as Hs by (apply elem_of_media; eauto). rewrite Hm in Hs. set_solver.
  - rewrite Hc. cbn [cat_eqb]. destruct (_ || _); [by apply answer_still|apply Hans].
Qed.

(** With a business policy, a two-party call is never answered: its state is saved without a client id, which two-party
    chats then insist on.  Whatever event but a hang-up arrives, from whomever, no message is added to the chat and the call
    stays as it is, unanswered and with nobody in media. *)
Theorem p2p_call_never_accepted msg note (w w' : World St) r c :
  w.(w_topic).(t_cat) = TopicCatP2P -> w.(w_topic).(currentCall) = Some c -> c.(acceptedAt) = None -> media_of c = ∅ ->
  (getCallOriginator w.(w_topic)).2 <> None -> msg.(c_Pub) = None -> note.(n_Event) <> constCallEventHangUp ->
  event msg note w = (w', r) -> log_same w w' /\ w'.(w_topic).(currentCall) = Some c.
Proof.
  intros Hc Hcall Ha Hm Ho Hp He E.
  enough (still w w') as [H1 H2] by (split; [done|congruence]). revert E. unfold handleCallEvent.
  unfold bind at 1, get_topic at 1. rewrite Hcall. destruct (isInactive _); [by intros [= <- _]|]. destruct (negb _); [by intros [= <- _]|].
  cbv zeta. destruct (bool_decide _); [by intros [= <- _]|].
  intros [[E _]|(w1 & checked_ & _ & S1 & E)]%still_bind; [done| |still]. destruct checked_ as [[]|e].
  2: { assert (frame still (reply msg (Ctrl.ErrPermissionDenied (c_Original msg)))) as F by still. specialize (F w1). rewrite E in F.
       by etransitivity. }
  apply still_bind in E as [[E _]|(w2 & allowed & _ & S2 & E)]; [by etransitivity| |].
  2: { unfold call_policy. destruct (_ && _ && _); still. }
  assert (still w w2) as S3 by (by etransitivity). clear S1 S2. destruct allowed as [[]|e].
  2: { match type of E with reply ?m ?x _ = _ => assert (frame still (reply m x)) as F by still end. specialize (F w2). rewrite E in F.
       by etransitivity. }
  revert E. unfold the_call at 1, get_topic at 1, bind at 1 2. rewrite (proj2 S3), Hcall. cbn [lift_option ret].
  destruct (negb _); [by intros [= <- _]|]. intros E. etransitivity; [exact S3|]. revert E.
  assert (t_cat (w_topic w2) = TopicCatP2P) as Hc2 by (by rewrite (still_cat _ _ S3)).
  assert (currentCall (w_topic w2) = Some c) as Hcall2 by (by rewrite (proj2 S3)).
  assert (getCallOriginator (w_topic w2) = getCallOriginator (w_topic w)) as Ho2.
  { unfold getCallOriginator. by rewrite (proj2 S3). }
  apply event_still; [done|done|by rewrite Ho2| |done]. intros c' Hc'. rewrite Hcall2 in Hc'. by injection Hc' as <-.
Qed.
End Refused.

(** ** Joining *)

Lemma list_filter_bool {A} (f : A -> bool) (l : list A) : List.filter f l = filter (fun x => f x = true) l.
Proof. induction l as [|x l IH]; [done|]. cbn [List.filter]. rewrite filter_cons, IH. destruct (f x) eqn:E; by case_decide. Qed.

Lemma participants_media t : agoraParticipantCount t = Z.of_nat (size (media t)).
Proof.
  unfold agoraParticipantCount, media. destruct (currentCall t) as [c|]; [|done]. f_equal. unfold media_of.
  rewrite size_dom, map_filter_alt, map_size_list_to_map, list_filter_bool; [done|].
  apply (sublist_NoDup _ (map_to_list (parties c)).*1); [apply NoDup_fst_map_to_list|apply fmap_sublist, sublist_filter].
Qed.

Lemma media_insert c s p : has_agora p = true -> media_of (with_parties c (<[s := p]> c.(parties))) = {[s]} ∪ media_of c.
Proof.
  intros Hp. apply set_eq. intros x. rewrite elem_of_union, elem_of_singleton, !elem_of_media. cbn [with_parties parties].
  destruct (decide (x = s)) as [->|Hx].
  - rewrite lookup_insert_eq. split; [by left|]. intros _. by exists p.
  - rewrite lookup_insert_ne by congruence. split; [by right|]. by intros [|H].
Qed.

Section Joining.
Context {St : Type} `{Store : PubStore St}.
Context (now : Z) (health : option bool) (cluster : option Cluster) (businessPolicy : bool) (agora : option agoraProvider).
Context (time_text : Z -> string) (time_parse : string -> option Z) (moderation_parse : string -> option officialModerationState).
Context (sha256 : string -> string) (clusters : string -> list string) (sortSlice : list span -> list span) (nfkc : string -> string).
Context (queue_full : string -> bool) (joined : string -> string -> bool) (sessionStore : string -> option Session).
Context (BuildRTCToken : string -> string -> string -> Z -> bool -> Z -> option string).
Context (drop : Session -> M (St := St) unit) (Hq : forall s, queue_full s = false).

Abbreviation broadcast := (broadcastToSessions queue_full joined sessionStore drop).
Abbreviation persist := (persistCallState now health cluster businessPolicy time_text time_parse moderation_parse sha256 clusters sortSlice nfkc
  queue_full joined sessionStore drop).
Abbreviation mark := (markAgoraCallAccepted now health cluster businessPolicy time_text time_parse moderation_parse sha256 clusters sortSlice
  nfkc queue_full joined sessionStore drop).
Abbreviation issue := (issueAgoraCallCredentials now health cluster businessPolicy agora time_text time_parse moderation_parse sha256 clusters
  sortSlice nfkc queue_full joined sessionStore BuildRTCToken drop).

Lemma calm_broadcast c msg : calm c (broadcast msg).
Proof.
  intros w Hw. unfold broadcastToSessions. unfold bind at 1 3, get_topic at 1 2.
  set (loop := broadcast_loop _ _ _ _ _ _ _). assert (calm c loop) as Hl.
  { unfold loop. generalize (None : option ServerComMessage, None : option ServerComMessage).
    induction (map_to_list _) as [|[k [s p]] ss IH]; intros v; simpl; calm; apply IH. }
  pose proof (Hl w Hw) as [H1 H2]. unfold bind. destruct (loop w) as [w1 [ds|e|p]] eqn:El; cbn in *; [|done|].
  - apply no_drops in El as ->; [|done]. done.
  - split; [|done]. unfold out_of_fuel in *. congruence.
Qed.
#[local] Hint Resolve calm_broadcast : calm.

Lemma calm_publish c msg u noEcho files head content :
  calm c (saveAndBroadcastMessage now health cluster businessPolicy time_text time_parse moderation_parse sha256 clusters sortSlice nfkc
    queue_full joined sessionStore drop msg u noEcho files head content).
Proof. unfold saveAndBroadcastMessage, number_and_save, acknowledge_duplicate, after_save. cbv zeta. calm. Qed.
#[local] Hint Resolve calm_publish : calm.

Lemma calm_persist c msg state duration : calm c (persist msg state duration).
Proof. unfold persistCallState, the_call. calm. Qed.

Lemma calm_run c {A} (m : M (St := St) A) (w w' : World St) r :
  (forall c, calm c m) -> m w = (w', r) -> w.(w_topic).(currentCall) = c -> w'.(w_topic).(currentCall) = c.
Proof. intros Hm E Hw. destruct (Hm c w Hw) as [_ H1]. by rewrite E in H1. Qed.

Lemma calm_bind_inv {A B} (m : M (St := St) A) (k : A -> M B) c (w w' : World St) r :
  (forall c, calm c m) -> w.(w_topic).(currentCall) = c -> bind m k w = (w', r) ->
  w'.(w_topic).(currentCall) = c \/ exists w1 a, m w = (w1, Ret a) /\ w1.(w_topic).(currentCall) = c /\ k a w1 = (w', r).
Proof.
  intros Hm Hw. unfold bind. destruct (m w) as [w1 [a|e|p]] eqn:E; pose proof (calm_run c _ _ _ _ Hm E Hw) as H1.
  - intros Ek. right. by exists w1, a.
  - intros [= <- _]. by left.
  - intros [= <- _]. by left.
Qed.

Lemma bind_cases {A B} (m : M (St := St) A) (k : A -> M B) (w w' : World St) r :
  bind m k w = (w', r) ->
  exists w1 r1, m w = (w1, r1) /\ match r1 with Ret a => k a w1 = (w', r) | _ => w' = w1 end.
Proof. unfold bind. destruct (m w) as [w1 [a|e|p]]; [by eauto| |]; intros [= <- <-]; by eexists _, _. Qed.

(** Marking the call accepted either fails and leaves the call, or sets the time. *)
Lemma mark_spec msg (w w' : World St) r c :
  w.(w_topic).(currentCall) = Some c -> mark msg w = (w', r) ->
  w'.(w_topic).(currentCall) = Some c /\ (forall a, r <> Ret a) \/
  w'.(w_topic).(currentCall) = Some (with_acceptedAt c now) /\ r = Ret tt.
Proof.
  intros Hc. unfold markAgoraCallAccepted. unfold bind at 1. destruct (persist msg constCallMsgAccepted 0 w) as [w1 r1] eqn:E1.
  pose proof (calm_run _ _ _ _ _ (fun c => calm_persist c msg constCallMsgAccepted 0) E1 Hc) as H1.
  destruct r1 as [[]|e|p]; [|by intros [= <- <-]; left..].
  unfold the_call, bind, get_topic. rewrite H1. cbn. intros [= <- <-]. by right.
Qed.

Definition joined_with (c : videoCall) (refresh : bool) (ps : gmap string callPartyData) : videoCall :=
  mkCall ps c.(call_seq) c.(call_content) c.(contentMime)
    (if refresh then c.(acceptedAt) else Some (default now c.(acceptedAt))) c.(provider) c.(call_channel) c.(originatorUid) c.(originatorSess).

Lemma credentials_sound p c user s role uid payload :
  credentials now sha256 BuildRTCToken p c user s role = Some (uid, payload) ->
  uid = participantUID sha256 c.(call_channel) c.(call_seq) user s /\
  exists token, BuildRTCToken p.(appID) p.(appCertificate) c.(call_channel) uid role (Z.quot p.(tokenTTL) second) = Some token.
Proof.
  unfold credentials. destruct (String.eqb _ _); [done|]. intros (token & Ht & [= <- <-])%bind_Some. split; [done|]. by exists token.
Qed.

(** What is left when the answer is marked on the first join. *)
Lemma marking_spec msg refresh (w w' : World St) r c :
  w.(w_topic).(currentCall) = Some c ->
  (if negb refresh && match c.(acceptedAt) with None => true | Some _ => false end
   then r <-- attempt (mark msg) ;; ret (match r with inl _ => true | inr _ => false end) else ret true) w = (w', r) ->
  w'.(w_topic).(currentCall) = Some c /\ r <> Ret true \/
  w'.(w_topic).(currentCall) = Some (joined_with c refresh c.(parties)) /\ r = Ret true.
Proof.
  intros Hc. destruct (negb refresh && _) eqn:Eb.
  - unfold attempt, bind at 1. destruct (mark msg w) as [w1 r1] eqn:Em. apply (mark_spec _ _ _ _ c Hc) in Em as [[H1 N1]|[H1 ->]].
    + intros E. left. destruct r1 as [[]|e|p]; [by destruct (N1 tt)| |]; revert E; by intros [= <- <-].
    + intros [= <- <-]. right. split; [|done]. rewrite H1. unfold joined_with, with_acceptedAt.
      destruct refresh; [done|]. by destruct (acceptedAt c).
  - intros [= <- <-]. right. split; [|done]. rewrite Hc. unfold joined_with. destruct c as [? ? ? ? a]; cbn in *.
    destruct refresh; [done|]. by destruct a.
Qed.

(** A session is new in media when there is room. *)
Lemma join_room c refresh s q (already : bool) max :
  has_agora q = true -> (already = true -> s ∈ media_of c) -> (already = false -> Z.of_nat (size (media_of c)) < max) ->
  Z.of_nat (size (media_of (joined_with c refresh (<[s := q]> c.(parties))))) <= Z.max (Z.of_nat (size (media_of c))) max.
Proof.
  intros Hq' Ha Hn. change (media_of (joined_with c refresh (<[s := q]> (parties c)))) with
    (media_of (with_parties c (<[s := q]> (parties c)))). rewrite media_insert by done. destruct already.
  - rewrite (subseteq_union_1_L {[s]} (media_of c)); [lia|]. specialize (Ha eq_refl). clear -Ha. set_solver.
  - specialize (Hn eq_refl). pose proof (size_union_alt {[s]} (media_of c)) as Hs. rewrite Hs, size_singleton.
    assert (size (media_of c ∖ {[s]}) <= size (media_of c))%nat as Hle by (apply subseteq_size; clear; set_solver). lia.
Qed.

(** A request to join a call or to renew its token leaves the call alone or puts the requesting session, and no other, in
    media: with the role the token was made for, a publisher only for a writer who is no channel reader on a topic that is
    not read-only.  A session that joins found room, so that the configured number of participants is never exceeded, and
    only a session in media renews.  The first to join sets the time of the answer. *)
Theorem join_sound msg u mode refresh (w w' : World St) r c :
  w.(w_topic).(currentCall) = Some c -> issue msg u mode refresh w = (w', r) ->
  w'.(w_topic).(currentCall) = Some c \/
  exists p s q role token, agora = Some p /\ msg.(c_sess) = Some s /\
    let uid := participantUID sha256 c.(call_channel) c.(call_seq) (UserId u) (sid s) in
    w'.(w_topic).(currentCall) = Some (joined_with c refresh (<[sid s := q]> c.(parties))) /\ q.(cp_agora) = Some (uid, role) /\
    BuildRTCToken p.(appID) p.(appCertificate) c.(call_channel) uid role (Z.quot p.(tokenTTL) second) = Some token /\
    (role = true -> IsWriter mode = true /\ (user w.(w_topic) u).(pud_isChan) = false /\ isReadOnly w.(w_topic) = false) /\
    (sid s ∈ media_of c \/ refresh = false) /\
    Z.of_nat (size (media_of (joined_with c refresh (<[sid s := q]> c.(parties))))) <= Z.max (Z.of_nat (size (media_of c))) p.(maxParticipants).
Proof.
  intros Hc. unfold issueAgoraCallCredentials. destruct agora as [p|] eqn:Ea.
  2: { intros E. left. revert E Hc. apply calm_run. intros c0. unfold answer_to, the_session. calm. }
  unfold the_call at 1, get_topic at 1, bind at 1 2. rewrite Hc. cbn [lift_option ret].
  intros [H1|(w1 & s & E1 & H1 & E)]%(calm_bind_inv _ _ (Some c)); [by left| |unfold the_session; calm|done].
  assert (w1 = w /\ c_sess msg = Some s) as [-> Hs].
  { revert E1. unfold the_session. destruct (c_sess msg); [|done]. by intros [= <- <-]. }
  clear E1 H1. revert E. cbv zeta. unfold bind at 1, get_topic at 1.
  set (inm := match parties c !! sid s with Some p => has_agora p | None => false end).
  assert (inm = true -> sid s ∈ media_of c) as Hin.
  { unfold inm. destruct (parties c !! sid s) as [q|] eqn:Eq; [|done]. intros Hq'. apply elem_of_media. eauto. }
  assert (forall x, answer_to msg x w = (w', r) -> currentCall (w_topic w') = Some c) as Hans.
  { intros x E. revert E Hc. apply calm_run. intros c0. unfold answer_to, the_session. calm. }
  destruct (refresh && negb inm) eqn:E1; [by intros E; left; eapply Hans|].
  destruct (negb inm && _) eqn:E2; [by intros E; left; eapply Hans|].
  destruct (credentials _ _ _ _ _ _ _) as [[uid payload]|] eqn:Ecr; [|by intros E; left; eapply Hans].
  apply credentials_sound in Ecr as (-> & token & Ht).
  set (role := agoraRoleForParticipant _ _ _) in *. intros (w2 & r2 & Em & E)%bind_cases.
  apply (marking_spec _ _ _ _ _ c Hc) in Em as [[H2 N2]|[H2 ->]].
  - left. destruct r2 as [[]|e|pp]; [done|by injection E as <- _| |]; by subst.
  - right. revert E. cbn [negb]. unfold the_call at 1, get_topic at 1, bind at 1 2. rewrite H2. cbn [lift_option ret].
    set (c1 := joined_with _ _ _). set (q := match parties c !! sid s with Some _ => _ | None => _ end).
    unfold set_party, modify, bind at 1 2, get_topic at 1, set_topic at 1. intros E.
    assert (currentCall (w_topic w') = Some (with_parties c1 (<[sid s:=q]> (parties c)))) as H3.
    { revert E. intros E. refine (calm_run _ _ _ _ _ _ E eq_refl). intros c0. calm. }
    assert (q.(cp_agora) = Some (participantUID sha256 c.(call_channel) c.(call_seq) (UserId u) (sid s), role)) as Hq'.
    { unfold q. by destruct (parties c !! sid s). }
    exists p, s, q, role, token. split; [done|]. split; [done|]. split; [exact H3|]. split; [done|]. split; [done|].
    split; [|split].
    + unfold role, agoraRoleForParticipant. intros [[Hw H4]%andb_true_iff H5]%andb_true_iff. by rewrite !negb_true_iff in *.
    + destruct inm; [left; by apply Hin|]. right. by destruct refresh.
    + apply (join_room c refresh (sid s) q inm); [by unfold has_agora; rewrite Hq'|done|]. intros ->. cbn [negb andb] in E2.
      apply Z.leb_gt in E2. by rewrite participants_media in E2; unfold media in E2; rewrite Hc in E2.
Qed.
End Joining.

(** ** Runs *)

Section Runs.
Context (queue_full : string -> bool) (businessPolicy : bool).

Definition sample_agora : agoraProvider := mkAgora "app" "cert" (3600 * second) "im" 2.
Definition sample_token (app cert channel : string) (uid : Z) (publisher : bool) (ttl : Z) : option string :=
  Some (if publisher then "pub" else "sub").

Definition drop_session (fuel : nat) : Session -> M (St := PubMem) unit :=
  unregisterSession 100 None None businessPolicy text_of_time time_of_text no_moderation hash byte_clusters sort_spans (fun s => s) queue_full
    (fun _ _ => false) (fun _ => None) (fun _ => 0) (fun _ => "") fuel.
Definition run_event (fuel : nat) : ClientComMessage -> MsgClientNote -> M (St := PubMem) unit :=
  handleCallEvent 100 None None businessPolicy (Some sample_agora) text_of_time time_of_text no_moderation hash byte_clusters sort_spans
    (fun s => s) queue_full (fun _ _ => false) (fun _ => None) sample_token (drop_session fuel).
End Runs.

(** A call of the user 2 in the group, with the given media. *)
Definition sample_call (media2 media3 : option (Z * bool)) : videoCall :=
  mkCall {[ "s2" := mkParty 2 true (Some (session "s2" 2)) media2; "s3" := mkParty 3 false (Some (session "s3" 3)) media3 ]}
    10 (AStr "hello") ANil (Some 50) constCallProviderAgora "im_x" 2 (Some (session "s2" 2)).
Definition call_world (c : videoCall) : World PubMem := mkWorld (set_call chat_topic (Some c)) (chat_store []) [].
Definition call_note (event : string) : MsgClientNote := mkNote "grpA" "call" 10 event ANil "" false.

Definition hang_up (queue_full : string -> bool) : World PubMem * Res unit :=
  run_event queue_full false 5 (note_request "s2" 2 (call_note constCallEventHangUp)) (call_note constCallEventHangUp)
    (call_world (sample_call None (Some (7, false)))).

(** Ending a call may crash the server: saving the final state broadcasts it, the broadcast drops the session of the last
    participant because its queue is full, dropping it ends the call in turn, and the first end goes on with the call that
    is no longer there.  The same hang-up with room in the queue ends the call and publishes one message. *)
Theorem slow_participant_crashes_call_end :
  (hang_up (fun s => String.eqb s "s3")).2 = Topic.Panic "nil pointer dereference" /\
  (hang_up (fun _ => false)).2 = Ret tt /\ (hang_up (fun _ => false)).1.(w_topic).(currentCall) = None /\
  (hang_up (fun _ => false)).1.(w_topic).(lastID) = 11.
Proof. vm_compute. done. Qed.

Lemma unregister_terminates_witness :
  (let '(w', r) := drop_session (fun s => String.eqb s "s3") false 2 (session "s3" 3) (call_world (sample_call None (Some (7, false)))) in
   ~ out_of_fuel r /\ call_ok w'.(w_topic) /\
   media w'.(w_topic) ⊆ media (call_world (sample_call None (Some (7, false)))).(w_topic)) /\
  size (media (call_world (sample_call None (Some (7, false)))).(w_topic)) = 1%nat.
Proof.
  split; [|by vm_compute]. unfold drop_session. apply unregister_terminates; [|by vm_compute; lia]. by intros c [= <-].
Defined.

(** A call that was not answered between the users 2 and 3. *)
Definition p2p_call : videoCall :=
  mkCall {[ "s2" := mkParty 2 true (Some (session "s2" 2)) None ]} 10 (AStr "hello") ANil None constCallProviderAgora "im_x" 2
    (Some (session "s2" 2)).
Definition p2p_topic : Topic :=
  mkTopic "p2pA" "" TopicCatP2P false 0 ModeNone ModeNone 10 2 0 "" None 0
    {[ 2%N := with_modes pud0 ModeCP2P ModeCP2P; 3%N := with_modes pud0 ModeCP2P ModeCP2P ]} 0 0 ∅ ∅ 0 0 None ∅ ∅ false (Some p2p_call).
Definition p2p_world : World PubMem :=
  mkWorld p2p_topic (mkPubMem (sample_store []) (mkDB ∅ {[ "p2pA" := mkTopicRow 10 0 "" 0 ]} []) [] 60 ∅ [] ∅ [] []) [].
Definition p2p_event (businessPolicy : bool) (event : string) : World PubMem * Res unit :=
  run_event (fun _ => false) businessPolicy 2 (note_request "s3" 3 (call_note event)) (call_note event) p2p_world.

Example p2p_accepted_without_policy :
  exists c, (p2p_event false constCallEventAccept).1.(w_topic).(currentCall) = Some c /\ c.(acceptedAt) = Some 100.
Proof. eexists. vm_compute. split; reflexivity. Qed.

Lemma p2p_call_never_accepted_witness :
  log_same p2p_world (p2p_event true constCallEventAccept).1 /\
  (p2p_event true constCallEventAccept).1.(w_topic).(currentCall) = p2p_topic.(currentCall).
Proof.
  eapply (p2p_call_never_accepted (St := PubMem)). 8: apply surjective_pairing. all: by vm_compute.
Defined.

Definition joining : World PubMem * Res unit :=
  issueAgoraCallCredentials 100 None None false (Some sample_agora) text_of_time time_of_text no_moderation hash byte_clusters sort_spans
    (fun s => s) (fun _ => false) (fun _ _ => false) (fun _ => None) sample_token (fun _ => ret tt)
    (note_request "s3" 3 (call_note constCallEventJoin)) 3 memberAccess false (call_world (sample_call (Some (5, true)) None)).

Lemma join_sound_witness :
  exists q role token,
    joining.1.(w_topic).(currentCall) = Some (joined_with 100 (sample_call (Some (5, true)) None) false
      (<["s3" := q]> (sample_call (Some (5, true)) None).(parties))) /\
    q.(cp_agora) = Some (participantUID hash "im_x" 10 (UserId 3) "s3", role) /\
    sample_token "app" "cert" "im_x" (participantUID hash "im_x" 10 (UserId 3) "s3") role 3600 = Some token /\
    (role = true -> IsWriter memberAccess = true).
Proof.
  destruct (join_sound (St := PubMem) 100 None None false (Some sample_agora) text_of_time time_of_text no_moderation hash byte_clusters
    sort_spans (fun s => s) (fun _ => false) (fun _ _ => false) (fun _ => None) sample_token (fun _ => ret tt) (fun _ => eq_refl)
    (note_request "s3" 3 (call_note constCallEventJoin)) 3 memberAccess false (call_world (sample_call (Some (5, true)) None)) joining.1 joining.2
    (sample_call (Some (5, true)) None) eq_refl (surjective_pairing joining)) as [H|(p & s & q & role & token & [= <-] & [= <-] & H)].
  - assert (size (media (w_topic joining.1)) = 2%nat) as H2 by (vm_compute; reflexivity). unfold media in H2. rewrite H in H2.
    by vm_compute in H2.
  - destruct H as (H1 & H2 & H3 & H4 & _). exists q, role, token. split; [exact H1|]. split; [exact H2|]. split; [exact H3|].
    intros Hr. apply (H4 Hr).
Defined.
