(* ===== verification/Outbox.v ===== *)
(** * Outbox: push notifications kept until they are delivered

    server/push/outbox.go and the receipts of server/push/push.go: jobs in the persistent cache that the workers of any
    number of nodes lease, deliver and retry, and the dead letters an administrator replays or deletes.  A worker is a
    program of cache calls that ends or wants a delivery ([Work]); the delivery's answer is the environment's.

    Arguments: the JSON codec of jobs, the length of its texts, and the random identifiers in the order they are drawn. *)

From Stdlib Require Import NArith ZArith Lia List Ascii String Bool.
From stdpp Require Import base tactics numbers list strings gmap sorting pretty.
From S2P Require Import Prelude AccessMode Uid Drafty Messages PCache.

#[local] Open Scope string_scope.
#[local] Open Scope Z_scope.

Definition durableOutboxPrefix : string := "pushoutbox:".
Definition durableDLQPrefix : string := "pushdlq:".
Definition durableJobMaxBytes : Z := Z.shiftl 56 10.

(** ** Receipts *)

Record Recipient := mkRecipient {
  Delivered : Z; Devices : list string; Unread : Z; ShouldIncrementUnreadCountInCache : bool }.
Record Payload := mkPayload {
  What : string; Silent : bool; pl_Topic : string; Timestamp : Z; From : string; SeqId : Z; ContentType : string; Content : Any;
  Webrtc : string; AudioOnly : bool; Replace : string; pl_ModeWant : AccessMode; pl_ModeGiven : AccessMode }.
Record PushReceipt := mkPushReceipt { to : gmap Uid Recipient; channel : string; payload : Payload }.
Record durableReceipt := mkDurable { dr_To : gmap string Recipient; dr_Channel : string; dr_Payload : Payload }.

#[export] Instance Recipient_eq_dec : EqDecision Recipient.
Proof. solve_decision. Defined.
#[export] Instance Payload_eq_dec : EqDecision Payload.
Proof. solve_decision. Defined.
#[export] Instance PushReceipt_eq_dec : EqDecision PushReceipt.
Proof. solve_decision. Defined.
#[export] Instance durableReceipt_eq_dec : EqDecision durableReceipt.
Proof. solve_decision. Defined.

(** The receipts of the topics. *)
Definition of_topic (r : Receipt) : PushReceipt :=
  mkPushReceipt (list_to_map (map (fun x => (fst x, mkRecipient (fst (snd x)) [] 0 (snd (snd x)))) r.(To))) r.(rc_Channel)
    (mkPayload r.(rc_What) r.(rc_Silent) r.(rc_Topic) r.(rc_Timestamp) r.(rc_From) r.(rc_SeqId) r.(rc_ContentType) r.(rc_Content)
       r.(rc_Webrtc) r.(rc_AudioOnly) r.(rc_Replace) r.(rc_ModeWant) r.(rc_ModeGiven)).

(** The flag is not written to JSON; it is dropped here, where the durable copy is made. *)
Definition stored_recipient (x : Recipient) : Recipient := mkRecipient x.(Delivered) x.(Devices) x.(Unread) false.

Definition newDurableReceipt (r : PushReceipt) : durableReceipt :=
  mkDurable (list_to_map (map (fun x => (UidString (fst x), stored_recipient (snd x))) (map_to_list r.(to)))) r.(channel) r.(payload).

Fixpoint runtime_to (l : list (string * Recipient)) : gmap Uid Recipient + GoError :=
  match l with
  | [] => inl ∅
  | (encoded, recipient) :: l' =>
      match UidUnmarshalText ZeroUid encoded with
      | (uid, err) =>
          if match err with Some _ => true | None => false end || IsZeroUid uid
          then inr (TextErr ("invalid durable push uid " ++ encoded))
          else match runtime_to l' with inl m => inl (<[uid := recipient]> m) | inr e => inr e end
      end
  end.

Definition runtimeReceipt (r : durableReceipt) : PushReceipt + GoError :=
  match runtime_to (map_to_list r.(dr_To)) with
  | inl m => inl (mkPushReceipt m r.(dr_Channel) r.(dr_Payload))
  | inr e => inr e
  end.

Definition cloneReceiptForUsers (source : PushReceipt) (uids : list Uid) : PushReceipt :=
  mkPushReceipt (list_to_map (map (fun uid => (uid, default (mkRecipient 0 [] 0 false) (source.(to) !! uid))) uids))
    source.(channel) source.(payload).

(** ** Jobs *)

Record durableOutboxConfig := mkOutboxConfig {
  BatchSize : Z; RecipientChunk : Z; MaxAttempts : Z; RetryBase : Z; MaxRetry : Z; Lease : Z }.
Definition defaultDurableOutboxConfig : durableOutboxConfig :=
  mkOutboxConfig 100 40 8 (2 * second) (3600 * second) (300 * second).

Record durableOutboxJob := mkJob {
  Version : Z; Provider : string; job_Receipt : option durableReceipt; Status : string; Attempts : Z;
  CreatedAt : Z; NextAttemptAt : Z; LeaseOwner : string; LeaseUntil : Z; LastError : string }.

#[export] Instance durableOutboxJob_eq_dec : EqDecision durableOutboxJob.
Proof. solve_decision. Defined.

Definition with_state (j : durableOutboxJob) (status : string) (attempts next : Z) (owner : string) (until : Z) (lastError : string)
    : durableOutboxJob :=
  mkJob j.(Version) j.(Provider) j.(job_Receipt) status attempts j.(CreatedAt) next owner until lastError.

(** Whether a delivery failed for good, and its error. *)
Record DeliveryError := mkDeliveryError { permanent : bool; delivery_error : string }.

Definition truncatePushError (value : string) : string :=
  if (String.length value <=? 2048)%nat then value else String.substring 0 2048 value.

(** [fmt]'s %020d *)
Definition pad20 (z : Z) : string :=
  let s : string := pretty z in string_of_list_ascii (repeat "0"%char (20 - String.length s)) ++ s.

Definition TrimPrefix (s prefix : string) : string := if HasPrefix s prefix then drop_bytes (String.length prefix) s else s.

(** A worker ends, or has something delivered. *)
#[warnings="-register-all"]
Inductive Work (V : Type) :=
| Finished (processed : Z) (err : option GoError)
| Deliver (receipt : PushReceipt) (k : option DeliveryError -> Prog V (Work V)).
Arguments Finished {V}. Arguments Deliver {V}.

#[export] Instance uid_ltb_strict : StrictTotal N.ltb.
Proof.
  constructor.
  - apply N.ltb_irrefl.
  - intros a b c. rewrite !N.ltb_lt. lia.
  - intros a b. rewrite !N.ltb_ge. lia.
Qed.

(** The recipients in ascending order. *)
Definition recipients (r : PushReceipt) : list Uid := sort_by N.ltb (map fst (map_to_list r.(to))).

Section Outbox.
Context {V : Type} `{EqDecision V}.
Context (job_text : durableOutboxJob -> option V) (job_parse : V -> option durableOutboxJob) (raw_len : V -> Z).
(** The random identifiers, and the worker's name. *)
Context (durableRandomID : nat -> string).
Context (provider : string) (config : durableOutboxConfig) (owner : string).

Definition outbox_prefix : string := durableOutboxPrefix ++ provider ++ ":".
Definition dlq_prefix : string := durableDLQPrefix ++ provider ++ ":".
Definition job_key (now : Z) (id : string) : string := outbox_prefix ++ pad20 now ++ ":" ++ id.
Definition dead_key (key : string) : string := dlq_prefix ++ TrimPrefix key outbox_prefix.

Definition json_error : GoError := TextErr "json: cannot marshal".

(** ** Putting jobs in *)

(** The keys made, the error, and the identifiers drawn so far. *)
Abbreviation Persisted := (list string * option GoError * nat)%type (only parsing).

Fixpoint delete_all {A} (keys : list string) (k : Prog V A) : Prog V A :=
  match keys with [] => k | key :: keys' => Delete key (fun _ => delete_all keys' k) end.

Definition new_job (now : Z) (r : durableReceipt) : durableOutboxJob := mkJob 1 provider (Some r) "queued" 0 now now "" 0 "".
Definition without_content (r : durableReceipt) : durableReceipt :=
  let p := r.(dr_Payload) in
  mkDurable r.(dr_To) r.(dr_Channel)
    (mkPayload p.(What) p.(Silent) p.(pl_Topic) p.(Timestamp) p.(From) p.(SeqId) p.(ContentType) ANil p.(Webrtc) p.(AudioOnly) p.(Replace)
       p.(pl_ModeWant) p.(pl_ModeGiven)).

Definition job_raw (now : Z) (r : durableReceipt) : option V :=
  raw ← job_text (new_job now r);
  if durableJobMaxBytes <? raw_len raw then job_text (new_job now (without_content r)) else Some raw.

(** Every split halves the recipients, so that their number is enough fuel. *)
Fixpoint persistReceipt (fuel : nat) (receipt : PushReceipt) (n : nat) : Prog V Persisted :=
  TimeNow (fun now =>
    match job_raw now (newDurableReceipt receipt) with
    | None => Done ([], Some json_error, n)
    | Some raw =>
        if (durableJobMaxBytes <? raw_len raw) && (1 <? size receipt.(to))%nat then
          match fuel with
          | O => Done ([], Some (TextErr "out of fuel"), n)
          | S fuel' =>
              let uids := recipients receipt in
              let middle := Nat.div2 (List.length uids) in
              pbind (persistReceipt fuel' (cloneReceiptForUsers receipt (take middle uids)) n) (fun '(leftKeys, leftErr, n) =>
                match leftErr with
                | Some e => Done (leftKeys, Some e, n)
                | None =>
                    pbind (persistReceipt fuel' (cloneReceiptForUsers receipt (drop middle uids)) n) (fun '(rightKeys, rightErr, n) =>
                      match rightErr with
                      | Some e => delete_all leftKeys (Done (rightKeys, Some e, n))
                      | None => Done ((leftKeys ++ rightKeys)%list, None, n)
                      end)
                end)
          end
        else if durableJobMaxBytes <? raw_len raw then Done ([], Some (TextErr "push outbox job exceeds 57344 bytes"), n)
        else
          let key := job_key now (durableRandomID n) in
          Upsert key raw true (fun err => Done (match err with Some e => ([], Some e, S n) | None => ([key], None, S n) end))
    end).

(** The loop over the chunks; [created] are the keys of the chunks before.  The chunk is at least 1. *)
Fixpoint enqueue_chunks (fuel chunkSize : nat) (receipt : PushReceipt) (uids : list Uid) (created : list string) (n : nat)
    : Prog V (option GoError * nat) :=
  match fuel, uids with
  | _, [] => Done (None, n)
  | O, _ => Done (Some (TextErr "out of fuel"), n)
  | S fuel', _ =>
      pbind (persistReceipt (List.length (take chunkSize uids)) (cloneReceiptForUsers receipt (take chunkSize uids)) n) (fun '(keys, err, n) =>
        match err with
        | Some e => delete_all (created ++ keys)%list (Done (Some e, n))
        | None => enqueue_chunks fuel' chunkSize receipt (drop chunkSize uids) (created ++ keys)%list n
        end)
  end.

Definition chunk_size : nat := Z.to_nat (if config.(RecipientChunk) <=? 0 then 40 else config.(RecipientChunk)).

Definition Enqueue (receipt : PushReceipt) (n : nat) : Prog V (option GoError * nat) :=
  if String.eqb provider "" then Done (Some (TextErr "push outbox is not initialized"), n)
  else if Nat.eqb (size receipt.(to)) 0 && String.eqb receipt.(channel) "" then Done (None, n)
  else if Nat.eqb (size receipt.(to)) 0 then
    pbind (persistReceipt 0 (cloneReceiptForUsers receipt []) n) (fun '(_, err, n) => Done (err, n))
  else enqueue_chunks (size receipt.(to)) chunk_size receipt (recipients receipt) [] n.

(** ** Taking jobs out *)

Fixpoint retry_loop (attempts : nat) (delay : Z) : Z :=
  match attempts with
  | O => delay
  | S a => if delay <? config.(MaxRetry) then retry_loop a (int64 (delay * 2)) else delay
  end.
(** [attempt - 1] turns at most. *)
Definition retryDelay (attempt : Z) : Z :=
  let delay := retry_loop (Z.to_nat (attempt - 1)) config.(RetryBase) in
  if config.(MaxRetry) <? delay then config.(MaxRetry) else delay.

Abbreviation Client := (Prog V (Work V)) (only parsing).

Definition movePushDeadLetter (key : string) (raw : V) (k : option GoError -> Client) : Client :=
  Upsert (dead_key key) raw false (fun err =>
    match err with
    | Some e => k (Some e)
    | None => Delete key (fun err => k err)
    end).

(** [k] gets whether the entry was processed, and the error. *)
Definition finishDelivery (key : string) (claimedRaw : V) (claimed : durableOutboxJob) (deliveryErr : option DeliveryError) (now : Z)
    (k : bool -> option GoError -> Client) : Client :=
  match deliveryErr with
  | None =>
      match job_text (with_state claimed "completed" claimed.(Attempts) claimed.(NextAttemptAt) "" 0 claimed.(LastError)) with
      | None => k true (Some json_error)
      | Some completedRaw =>
          CompareAndSwap key claimedRaw completedRaw (fun r =>
            match r with
            | inr e => k true (Some e)
            | inl false => k true None
            | inl true => Delete key (fun err => k true err)
            end)
      end
  | Some e =>
      let lastError := truncatePushError e.(delivery_error) in
      if e.(permanent) || (config.(MaxAttempts) <=? claimed.(Attempts)) then
        match job_text (with_state claimed "dead" claimed.(Attempts) claimed.(NextAttemptAt) "" 0 lastError) with
        | None => k true (Some json_error)
        | Some deadRaw =>
            CompareAndSwap key claimedRaw deadRaw (fun r =>
              match r with
              | inr e => k true (Some e)
              | inl false => k true None
              | inl true => movePushDeadLetter key deadRaw (k true)
              end)
        end
      else
        match job_text (with_state claimed "queued" claimed.(Attempts) (now + retryDelay claimed.(Attempts)) "" 0 lastError) with
        | None => k true (Some json_error)
        | Some retryRaw => CompareAndSwap key claimedRaw retryRaw (fun r => k true (match r with inr e => Some e | inl _ => None end))
        end
  end.

Definition processEntry (key : string) (raw : V) (now : Z) (k : bool -> option GoError -> Client) : Client :=
  let corrupt := movePushDeadLetter key raw (fun e => match e with Some _ => k false e | None => k true None end) in
  match job_parse raw with
  | None => corrupt
  | Some job =>
      match job.(job_Receipt) with
      | None => corrupt
      | Some receipt =>
          if String.eqb job.(Status) "completed" then Delete key (fun err => k true err)
          else if String.eqb job.(Status) "dead" then movePushDeadLetter key raw (k true)
          else if (now <? job.(NextAttemptAt)) || (String.eqb job.(Status) "leased" && (now <? job.(LeaseUntil))) then k false None
          else
            let claimed := with_state job "leased" (job.(Attempts) + 1) job.(NextAttemptAt) owner (now + config.(Lease)) job.(LastError) in
            match job_text claimed with
            | None => k false (Some json_error)
            | Some claimedRaw =>
                CompareAndSwap key raw claimedRaw (fun r =>
                  match r with
                  | inr e => k false (Some e)
                  | inl false => k false None
                  | inl true =>
                      match runtimeReceipt receipt with
                      | inr (TextErr e) => finishDelivery key claimedRaw claimed (Some (mkDeliveryError true e)) now k
                      | inr (StoreErr _) => finishDelivery key claimedRaw claimed (Some (mkDeliveryError true "")) now k
                      | inl deliveryReceipt =>
                          Done (Deliver deliveryReceipt (fun deliveryErr => finishDelivery key claimedRaw claimed deliveryErr now k))
                      end
                  end)
            end
      end
  end.

Fixpoint process_entries (entries : list (string * V)) (now : Z) (processed : Z) : Client :=
  match entries with
  | [] => Done (Finished processed None)
  | (key, raw) :: entries' =>
      processEntry key raw now (fun didProcess processErr =>
        process_entries entries' now (match processErr with None => if didProcess then processed + 1 else processed | Some _ => processed end))
  end.

Definition processAvailable : Client :=
  TimeNow (fun now =>
    List outbox_prefix config.(BatchSize) (fun r =>
      match r with inr e => Done (Finished 0 (Some e)) | inl entries => process_entries entries now 0 end)).
End Outbox.

(** ** Dead letters *)

Record DurableOutboxStats := mkStats {
  st_Provider : string; Queued : Z; Leased : Z; Dead : Z; Total : Z; DLQ : Z; Alert : string; OldestDLQ : Z; Truncated : bool }.
Record DurableDeadLetter := mkLetter {
  ID : string; dl_Provider : string; dl_Status : string; dl_Attempts : Z; dl_CreatedAt : Z; dl_LastError : string; dl_What : string;
  dl_Topic : string; dl_Channel : string; Recipients : Z }.

Definition normalizeDurableProvider (provider : string) : string + GoError :=
  let provider := ToLower (TrimSpace provider) in
  if String.eqb provider "" || (32 <? String.length provider)%nat then inr (TextErr "invalid push provider")
  else if all_chars (fun c => in_range 97 122 c || in_range 48 57 c || (c =? "-")%char || (c =? "_")%char) provider
       then inl provider else inr (TextErr "invalid push provider").

(** The keys of the dead letter and of its job. *)
Definition durableDeadLetterKeys (provider id : string) : (string * string) + GoError :=
  let id := TrimSpace id in
  if String.eqb id "" || contains_any "/\" id || match String.index 0 ".." id with Some _ => true | None => false end
  then inr (TextErr "invalid push dead letter id")
  else inl (dlq_prefix provider ++ id, outbox_prefix provider ++ id).

Section DeadLetters.
Context {V : Type} `{EqDecision V}.
Context (job_text : durableOutboxJob -> option V) (job_parse : V -> option durableOutboxJob).

Definition durableDeadLetterFromRaw (provider key : string) (raw : V) : DurableDeadLetter + GoError :=
  match job_parse raw with
  | Some (mkJob _ _ (Some r) status attempts created _ _ _ lastError) =>
      inl (mkLetter (TrimPrefix key (dlq_prefix provider)) provider status attempts created lastError r.(dr_Payload).(What)
             r.(dr_Payload).(pl_Topic) r.(dr_Channel) (Z.of_nat (size r.(dr_To))))
  | _ => inr (TextErr "corrupt push dead letter")
  end.

Definition ReplayDurableDeadLetter (provider id : string) : Prog V (DurableDeadLetter + GoError) :=
  match normalizeDurableProvider provider with
  | inr e => Done (inr e)
  | inl provider =>
      match durableDeadLetterKeys provider id with
      | inr e => Done (inr e)
      | inl (dlqKey, outboxKey) =>
          Get dlqKey (fun r =>
            match r with
            | inr e => Done (inr e)
            | inl raw =>
                match durableDeadLetterFromRaw provider dlqKey raw, job_parse raw with
                | inr e, _ => Done (inr e)
                | inl _, None => Done (inr (TextErr "corrupt push dead letter"))
                | inl letter, Some job =>
                    TimeNow (fun now =>
                      match job_text (with_state job "queued" 0 now "" 0 "") with
                      | None => Done (inr json_error)
                      | Some replayed =>
                          Upsert outboxKey replayed true (fun err =>
                            match err with
                            | Some e => if bool_decide (e = StoreErr ErrDuplicate)
                                        then Delete dlqKey (fun err => Done (match err with Some e => inr e | None => inl letter end))
                                        else Done (inr e)
                            | None => Delete dlqKey (fun err => Done (match err with Some e => inr e | None => inl letter end))
                            end)
                      end)
                end
            end)
      end
  end.

Definition DeleteDurableDeadLetter (provider id : string) : Prog V (option GoError) :=
  match normalizeDurableProvider provider with
  | inr e => Done (Some e)
  | inl provider =>
      match durableDeadLetterKeys provider id with
      | inr e => Done (Some e)
      | inl (dlqKey, _) =>
          Get dlqKey (fun r => match r with inr e => Done (Some e) | inl _ => Delete dlqKey (fun err => Done err) end)
      end
  end.

Definition count_status (p : string -> bool) (entries : list (string * V)) : Z :=
  Z.of_nat (List.length (List.filter (fun kv => match job_parse (snd kv) with Some j => p j.(Status) | None => false end) entries)).
Definition count_corrupt (entries : list (string * V)) : Z :=
  Z.of_nat (List.length (List.filter (fun kv => match job_parse (snd kv) with Some _ => false | None => true end) entries)).

(** The earliest creation, 0 if there is none. *)
Definition oldest_created (entries : list (string * V)) : Z :=
  fold_left (fun oldest kv => match job_parse (snd kv) with
                              | Some j => if negb (j.(CreatedAt) =? 0) && ((oldest =? 0) || (j.(CreatedAt) <? oldest)) then j.(CreatedAt) else oldest
                              | None => oldest
                              end) entries 0.

Definition alert_level (dlq : Z) : string := if 100 <=? dlq then "critical" else if 0 <? dlq then "warning" else "ok".

Definition GetDurableOutboxStats (provider : string) : Prog V (DurableOutboxStats * option GoError) :=
  let provider := ToLower (TrimSpace provider) in
  let limit := 10000 in
  List (outbox_prefix provider) limit (fun r =>
    match r with
    | inr e => Done (mkStats provider 0 0 0 0 0 "" 0 false, Some e)
    | inl entries =>
        let total := Z.of_nat (List.length entries) in
        let leased := count_status (fun s => String.eqb s "leased") entries in
        let dead := count_status (fun s => String.eqb s "dead") entries + count_corrupt entries in
        let queued := count_status (fun s => negb (String.eqb s "leased") && negb (String.eqb s "dead")) entries in
        List (dlq_prefix provider) limit (fun r =>
          match r with
          | inr e => Done (mkStats provider queued leased dead total 0 "" 0 (total =? limit), Some e)
          | inl dlq =>
              let dlqs := Z.of_nat (List.length dlq) in
              Done (mkStats provider queued leased dead total dlqs (alert_level dlqs) (oldest_created dlq)
                      ((total =? limit) || (dlqs =? limit)), None)
          end)
    end).

(** Newer letters first; with equal times the greater identifier. *)
Definition letter_before (a b : DurableDeadLetter) : bool :=
  if a.(dl_CreatedAt) =? b.(dl_CreatedAt) then str_ltb b.(ID) a.(ID) else b.(dl_CreatedAt) <? a.(dl_CreatedAt).

Definition letter_of (provider : string) (kv : string * V) : DurableDeadLetter :=
  match durableDeadLetterFromRaw provider (fst kv) (snd kv) with
  | inl letter => letter
  | inr e => mkLetter (TrimPrefix (fst kv) (dlq_prefix provider)) provider "corrupt" 0 0
               (truncatePushError (match e with TextErr t => t | StoreErr _ => "" end)) "" "" "" 0
  end.

Definition ListDurableDeadLetters (provider : string) (limit : Z) : Prog V (list DurableDeadLetter + GoError) :=
  match normalizeDurableProvider provider with
  | inr e => Done (inr e)
  | inl provider =>
      let limit := if limit <=? 0 then 100 else limit in
      let limit := if 500 <? limit then 500 else limit in
      List (dlq_prefix provider) limit (fun r =>
        match r with
        | inr e => Done (inr e)
        | inl entries => Done (inl (sort_by letter_before (map (letter_of provider) entries)))
        end)
  end.
End DeadLetters.
