(* ===== verification/OutboxProps.v ===== *)
(** * OutboxProps: properties of the push outbox

    Every interleaving of workers ([ostep]): a push that is in the outbox stays there or among the dead letters until it was
    delivered.  What putting a receipt in makes of it, how long a retry waits, how often a job is tried, and a replay
    that loses a push. *)

From Stdlib Require Import NArith ZArith Lia List Ascii String Bool.
From stdpp Require Import base tactics numbers list strings gmap sets sorting pretty.
From S2P Require Import Prelude AccessMode Uid Drafty Messages PCache Outbox.

#[local] Open Scope string_scope.
#[local] Open Scope Z_scope.

(** ** Workers, one call at a time *)

Section System.
Context {V : Type} `{EqDecision V}.

(** The deliveries that succeeded are [delivered]. *)
Record Nodes := mkNodes {
  nodes_clock : Z; nodes_cache : gmap string V; workers : list (Prog V (Work V)); delivered : list PushReceipt }.

(** A worker makes a call, which may be lost; a delivery ends; a worker starts over with [again]; time passes.  A worker
    that makes no more steps has crashed. *)
Inductive ostep (again : nat -> Prog V (Work V)) : Nodes -> Nodes -> Prop :=
| step_call s i p f m p' :
    s.(workers) !! i = Some p -> perform f s.(nodes_clock) s.(nodes_cache) p = (m, p') ->
    ostep again s (mkNodes s.(nodes_clock) m (<[i := p']> s.(workers)) s.(delivered))
| step_delivery s i receipt k err :
    s.(workers) !! i = Some (Done (Deliver receipt k)) ->
    ostep again s (mkNodes s.(nodes_clock) s.(nodes_cache) (<[i := k err]> s.(workers))
                     (match err with None => receipt :: s.(delivered) | Some _ => s.(delivered) end))
| step_again s i processed err :
    s.(workers) !! i = Some (Done (Finished processed err)) ->
    ostep again s (mkNodes s.(nodes_clock) s.(nodes_cache) (<[i := again i]> s.(workers)) s.(delivered))
| step_time s d :
    0 <= d -> ostep again s (mkNodes (s.(nodes_clock) + d) s.(nodes_cache) s.(workers) s.(delivered)).
End System.
Arguments Nodes : clear implicits.
Arguments mkNodes {V}.

(** ** No push is lost *)

Section AtLeastOnce.
Context {V : Type} `{EqDecision V}.
Context (job_text : durableOutboxJob -> option V) (job_parse : V -> option durableOutboxJob).
Context (job_law : forall j v, job_text j = Some v -> job_parse v = Some j).
Context (okey dkey : string) (receipt : durableReceipt) (push : PushReceipt).

(** [v] is a job for the push. *)
Definition carries (v : V) : Prop := exists j, job_parse v = Some j /\ j.(job_Receipt) = Some receipt.
Definition completed (v : V) : Prop := exists j, job_parse v = Some j /\ j.(Status) = "completed".

(** What a worker may do that knows [d], at most that the push was delivered, and [m], at most that the push is a dead letter: take
    the job away only knowing one of them, keep the push in every value it writes, mark it completed only knowing [d].  It may
    rely on listing values that carry the push and are completed only if it was delivered. *)
Section Safe.
Context {A : Type} (Q : Prop -> Prop -> A -> Prop).
Fixpoint psafe (d m : Prop) (p : Prog V A) : Prop :=
  match p with
  | Done a => Q d m a
  | TimeNow k => forall t, psafe d m (k t)
  | Get _ k => forall r, psafe d m (k r)
  | Upsert key v dup k =>
      key <> okey /\ (key = dkey -> dup = false /\ carries v) /\
      psafe d (m \/ key = dkey) (k None) /\ forall e, psafe d m (k (Some e))
  | CompareAndSwap key old new k =>
      key <> dkey /\ (key = okey -> carries new /\ (completed new -> d)) /\ forall r, psafe d m (k r)
  | Delete key k => key <> dkey /\ (key = okey -> d \/ m) /\ forall r, psafe d m (k r)
  | List keyPrefix _ k =>
      (forall e, psafe d m (k (inr e))) /\
      forall l (d' : Prop), (d -> d') -> (forall v, In (okey, v) l -> carries v /\ (completed v -> d')) ->
        (forall key v, In (key, v) l -> HasPrefix key keyPrefix = true) -> psafe d' m (k (inl l))
  end.
End Safe.

Fixpoint wsafe (d m : Prop) (w : Work V) : Prop :=
  match w with
  | Finished _ _ => True
  | Deliver r k => psafe wsafe (d \/ r = push) m (k None) /\ forall e, psafe wsafe d m (k (Some e))
  end.

Abbreviation safe := (psafe wsafe) (only parsing).

Record Safe (s : Nodes V) : Prop := mkSafe {
  safe_job : forall v, s.(nodes_cache) !! okey = Some v -> carries v /\ (completed v -> push ∈ s.(delivered));
  safe_letter : forall v, s.(nodes_cache) !! dkey = Some v -> carries v;
  safe_somewhere : is_Some (s.(nodes_cache) !! okey) \/ is_Some (s.(nodes_cache) !! dkey) \/ push ∈ s.(delivered);
  safe_workers : forall i p, s.(workers) !! i = Some p ->
    exists d m : Prop, (d -> push ∈ s.(delivered)) /\ (m -> is_Some (s.(nodes_cache) !! dkey)) /\ safe d m p }.

Context (keys_differ : okey <> dkey).

(** A worker's step that keeps the letter and what is known of the values. *)
Lemma Safe_update (s : Nodes V) i p' m' :
  Safe s ->
  (forall v, m' !! okey = Some v -> carries v /\ (completed v -> push ∈ s.(delivered))) ->
  (forall v, m' !! dkey = Some v -> carries v) -> (is_Some (s.(nodes_cache) !! dkey) -> is_Some (m' !! dkey)) ->
  (is_Some (m' !! okey) \/ is_Some (m' !! dkey) \/ push ∈ s.(delivered)) ->
  (exists d m : Prop, (d -> push ∈ s.(delivered)) /\ (m -> is_Some (m' !! dkey)) /\ safe d m p') ->
  Safe (mkNodes s.(nodes_clock) m' (<[i := p']> s.(workers)) s.(delivered)).
Proof.
  intros [H1 H2 H3 H4] Hj Hl Hm Hs Hp. constructor; cbn; [done|done|done|].
  intros j q [(<- & -> & _)|[Hne Hq]]%list_lookup_insert_Some; [done|].
  destruct (H4 j q Hq) as (d & m & Hd & Hmm & Hsafe). exists d, m. auto.
Qed.

(** A call that leaves both keys alone. *)
Lemma Safe_other (s : Nodes V) i p' m' (d m : Prop) :
  Safe s -> m' !! okey = s.(nodes_cache) !! okey -> m' !! dkey = s.(nodes_cache) !! dkey ->
  (d -> push ∈ s.(delivered)) -> (m -> is_Some (s.(nodes_cache) !! dkey)) -> safe d m p' ->
  Safe (mkNodes s.(nodes_clock) m' (<[i := p']> s.(workers)) s.(delivered)).
Proof.
  intros Hs Eo Ed Hd Hm Hp. pose proof Hs as [H1 H2 H3 H4].
  apply Safe_update; [done|by rewrite Eo|by rewrite Ed|by rewrite Ed|by rewrite Eo, Ed|]. rewrite Ed. eauto.
Qed.

Lemma upsert_safe (s : Nodes V) i (d m : Prop) key v dup k x m' r :
  Safe s -> (d -> push ∈ s.(delivered)) -> (m -> is_Some (s.(nodes_cache) !! dkey)) -> safe d m (Upsert key v dup k) ->
  PCacheUpsert key v dup s.(nodes_cache) = (m', r) -> x = r \/ (exists e, x = Some e) ->
  Safe (mkNodes s.(nodes_clock) m' (<[i := k x]> s.(workers)) s.(delivered)).
Proof.
  intros Hs Hd Hm (Hko & Hkd & Hok & Herr) E Hx. pose proof Hs as [H1 H2 H3 H4].
  assert (m' = s.(nodes_cache) /\ r <> None \/ m' = <[key := v]> s.(nodes_cache) /\ r = None) as [[-> Hr]|[-> ->]].
  { revert E. unfold PCacheUpsert. destruct (has_percent key); [intros [= <- <-]; by left|].
    destruct (_ !! key); [destruct dup|]; intros [= <- <-]; [left|right|right]; done. }
  - apply (Safe_other s i (k x) _ d m); try done. destruct Hx as [->|[e ->]]; [|apply Herr].
    destruct r as [e|]; [apply Herr|done].
  - assert (exists m1 : Prop, (m1 -> m \/ key = dkey) /\ safe d m1 (k x)) as (m1 & Hm1 & Hsafe).
    { destruct Hx as [->|[e ->]]; [exists (m \/ key = dkey)|exists m]; auto. }
    destruct (decide (key = dkey)) as [->|Hne].
    + destruct (Hkd eq_refl) as [_ Hc]. apply Safe_update; [done|by rewrite lookup_insert_ne by done| | | |].
      * intros v'. rewrite lookup_insert_eq. by intros [= <-].
      * by rewrite lookup_insert_eq.
      * right. left. by rewrite lookup_insert_eq.
      * exists d, m1. rewrite lookup_insert_eq. auto.
    + apply (Safe_other s i (k x) _ d m1); [done|by rewrite lookup_insert_ne|by rewrite lookup_insert_ne|done| |done].
      intros [?|?]%Hm1; [auto|done].
Qed.

Lemma swap_safe (s : Nodes V) i (d m : Prop) key old new k x m' b :
  Safe s -> (d -> push ∈ s.(delivered)) -> (m -> is_Some (s.(nodes_cache) !! dkey)) -> safe d m (CompareAndSwap key old new k) ->
  PCacheCompareAndSwap key old new s.(nodes_cache) = (m', b) ->
  Safe (mkNodes s.(nodes_clock) m' (<[i := k x]> s.(workers)) s.(delivered)).
Proof.
  intros Hs Hd Hm (Hkd & Hko & Hk) E. pose proof Hs as [H1 H2 H3 H4].
  assert (m' = s.(nodes_cache) \/ m' = <[key := new]> s.(nodes_cache) /\ is_Some (s.(nodes_cache) !! key)) as [->|[-> Hkey]].
  { revert E. unfold PCacheCompareAndSwap. destruct (_ !! key); [case_bool_decide|]; intros [= <- _]; eauto. }
  - by apply (Safe_other s i (k x) _ d m).
  - destruct (decide (key = okey)) as [->|Hne].
    + destruct (Hko eq_refl) as [Hc Hcd]. apply Safe_update; [done| |by rewrite lookup_insert_ne|by rewrite lookup_insert_ne| |].
      * intros v'. rewrite lookup_insert_eq. intros [= <-]. auto.
      * left. by rewrite lookup_insert_eq.
      * exists d, m. rewrite lookup_insert_ne by done. auto.
    + apply (Safe_other s i (k x) _ d m); [done|by rewrite lookup_insert_ne|by rewrite lookup_insert_ne|done|done|auto].
Qed.

Lemma delete_safe (s : Nodes V) i (d m : Prop) key k x :
  Safe s -> (d -> push ∈ s.(delivered)) -> (m -> is_Some (s.(nodes_cache) !! dkey)) -> safe d m (Delete key k) ->
  Safe (mkNodes s.(nodes_clock) (delete key s.(nodes_cache)) (<[i := k x]> s.(workers)) s.(delivered)).
Proof.
  intros Hs Hd Hm (Hkd & Hko & Hk). pose proof Hs as [H1 H2 H3 H4]. destruct (decide (key = okey)) as [->|Hne].
  - apply Safe_update; [done|by rewrite lookup_delete_eq|by rewrite lookup_delete_ne|by rewrite lookup_delete_ne| |].
    + destruct (Hko eq_refl); [right; right; auto|]. right. left. rewrite lookup_delete_ne by done. auto.
    + exists d, m. rewrite lookup_delete_ne by done. auto.
  - apply (Safe_other s i (k x) _ d m); [done|by rewrite lookup_delete_ne|by rewrite lookup_delete_ne|done|done|auto].
Qed.

Lemma call_safe (s : Nodes V) i p f m' p' :
  Safe s -> s.(workers) !! i = Some p -> perform f s.(nodes_clock) s.(nodes_cache) p = (m', p') ->
  Safe (mkNodes s.(nodes_clock) m' (<[i := p']> s.(workers)) s.(delivered)).
Proof.
  intros Hs Hi E. pose proof Hs as [H1 H2 H3 H4]. destruct (H4 i p Hi) as (d & m & Hd & Hm & Hsafe).
  assert (forall q, safe d m q -> Safe (mkNodes s.(nodes_clock) s.(nodes_cache) (<[i := q]> s.(workers)) s.(delivered))) as Hsame.
  { intros q Hq. by apply (Safe_other s i q _ d m). }
  destruct p as [a|key k|key v dup k|key old new k|key k|pre n k|k]; cbn [perform] in E.
  - injection E as <- <-. by apply Hsame.
  - destruct f; injection E as <- <-; by apply Hsame.
  - destruct f; [| |destruct (PCacheUpsert key v dup _) as [m1 r] eqn:Eu|]; try (destruct (PCacheUpsert key v dup _) as [m1 r] eqn:Eu);
      injection E as <- <-; first [by apply Hsame, Hsafe|eapply (upsert_safe s i d m); eauto].
  - destruct f; try (destruct (PCacheCompareAndSwap key old new _) as [m1 b] eqn:Eu); injection E as <- <-;
      first [by apply Hsame, Hsafe|by eapply (swap_safe s i d m)].
  - destruct f; injection E as <- <-; first [by apply Hsame, Hsafe|by eapply (delete_safe s i d m)].
  - assert (forall o, Safe (mkNodes s.(nodes_clock) s.(nodes_cache) (<[i := k (PCacheList o pre n s.(nodes_cache))]> s.(workers))
      s.(delivered))) as Hl.
    { intros o. destruct (PCacheList o pre n _) as [l|e] eqn:El; [|by apply Hsame, Hsafe]. destruct Hsafe as [_ Hsafe].
      apply (Safe_other s i _ _ (push ∈ s.(delivered)) m); [done|done|done|done|done|]. apply Hsafe; [done| |].
      - intros v Hv. eapply PCacheList_sound in Hv as [Hv _]; [|done]. auto.
      - intros key v Hv. by eapply PCacheList_sound in Hv as [_ Hv]. }
    destruct f; injection E as <- <-; first [by apply Hl|by apply Hsame, Hsafe].
  - injection E as <- <-. apply Hsame, Hsafe.
Qed.

Lemma step_safe again (s s' : Nodes V) :
  (forall i, safe False False (again i)) -> Safe s -> ostep again s s' -> Safe s'.
Proof.
  intros Hag Hs Hst. revert Hs. destruct Hst as [s0 i p f m p' Hi E|s0 i r k err Hi|s0 i n err Hi|s0 t Ht]; intros Hs.
  - by eapply call_safe.
  - pose proof Hs as [H1 H2 H3 H4]. destruct (H4 _ _ Hi) as (d & m & Hd & Hm & Hok & Herr). destruct err as [e|].
    + apply (Safe_other s0 i (k (Some e)) _ d m); auto.
    + constructor; cbn; [|done| |].
      * intros v Hv. destruct (H1 v Hv) as [Hc Hp]. split; [done|]. intros Hcv. right. auto.
      * destruct H3 as [?|[?|?]]; [by left|by right; left|right; right; by right].
      * intros j q [(<- & <- & _)|[Hne Hq]]%list_lookup_insert_Some.
        -- exists (d \/ r = push), m. split; [|done]. intros [?| ->]; [right; auto|left].
        -- destruct (H4 j q Hq) as (d' & m1 & Hd' & Hm1 & Hq'). exists d', m1. split; [|done]. right. auto.
  - apply (Safe_other s0 i (again i) _ False False); auto; done.
  - destruct Hs as [H1 H2 H3 H4]. by constructor.
Qed.
End AtLeastOnce.

(** ** The worker keeps the push *)

Lemma TrimPrefix_split s pre : HasPrefix s pre = true -> s = pre ++ TrimPrefix s pre.
Proof.
  intros H. unfold TrimPrefix. rewrite H. revert s H. induction pre as [|c pre IH]; intros [|d s]; try done.
  cbn. intros [->%Ascii.eqb_eq H]%andb_true_iff. f_equal. by apply IH.
Qed.

Lemma dlq_not_outbox p a q b : dlq_prefix p ++ a <> outbox_prefix q ++ b.
Proof. unfold dlq_prefix, outbox_prefix, durableDLQPrefix, durableOutboxPrefix. cbn. congruence. Qed.

Section Worker.
Context {V : Type} `{EqDecision V}.
Context (job_text : durableOutboxJob -> option V) (job_parse : V -> option durableOutboxJob).
Context (job_law : forall j v, job_text j = Some v -> job_parse v = Some j).
Context (provider suffix : string) (receipt : durableReceipt) (push : PushReceipt).
Context (one_push : forall r, runtimeReceipt receipt = inl r -> r = push).
Context (config : durableOutboxConfig) (owner : string).

Abbreviation okey := (outbox_prefix provider ++ suffix).
Abbreviation dkey := (dlq_prefix provider ++ suffix).
Abbreviation carries := (carries job_parse receipt).
Abbreviation completed := (completed job_parse).
Abbreviation safe := (psafe job_parse okey dkey receipt (wsafe job_parse okey dkey receipt push)).
Abbreviation move := (movePushDeadLetter provider).
Abbreviation finish := (finishDelivery job_text provider config).
Abbreviation process := (processEntry job_text job_parse provider config owner).

(** A continuation that may rely on what is known by now and more. *)
Definition goes_on (d m : Prop) (p : Prog V (Work V)) : Prop := forall d' m' : Prop, (d -> d') -> (m -> m') -> safe d' m' p.

Lemma goes_on_now d m p : goes_on d m p -> safe d m p.
Proof. intros H. by apply H. Qed.
Lemma goes_on_weaken (d m d' m' : Prop) p : goes_on d m p -> (d -> d') -> (m -> m') -> goes_on d' m' p.
Proof. intros H Hd Hm d2 m2 H1 H2. apply H; auto. Qed.

Lemma dead_key_okey : dead_key provider okey = dkey.
Proof. unfold dead_key, TrimPrefix. by rewrite HasPrefix_append, drop_bytes_append. Qed.

Lemma dead_key_inj key : HasPrefix key (outbox_prefix provider) = true -> dead_key provider key = dkey -> key = okey.
Proof.
  intros Hp E. rewrite (TrimPrefix_split _ _ Hp). unfold dead_key in E. f_equal. revert E. generalize (dlq_prefix provider). intros pre.
  induction pre as [|c pre IH]; cbn; [done|]. intros [= E]. auto.
Qed.

Lemma outbox_key_not_dkey key : HasPrefix key (outbox_prefix provider) = true -> key <> dkey.
Proof. intros Hp E. rewrite (TrimPrefix_split _ _ Hp) in E. symmetry in E. by apply dlq_not_outbox in E. Qed.

Lemma move_safe (d m : Prop) key raw k :
  HasPrefix key (outbox_prefix provider) = true -> (key = okey -> carries raw) -> (forall e, goes_on d m (k e)) ->
  safe d m (move key raw k).
Proof.
  intros Hp Hc Hk. unfold movePushDeadLetter. cbn [psafe]. split; [apply dlq_not_outbox|]. split.
  { intros E%dead_key_inj; auto. }
  split; [|intros e; by apply Hk]. split; [by apply outbox_key_not_dkey|]. split.
  { intros ->. right. right. apply dead_key_okey. }
  intros e. apply Hk; [done|by left].
Qed.

Lemma carries_text j raw : job_text j = Some raw -> j.(job_Receipt) = Some receipt -> carries raw.
Proof. intros Ht Hr. exists j. split; [by apply job_law|done]. Qed.

Lemma completed_text j raw : job_text j = Some raw -> completed raw -> j.(Status) = "completed".
Proof. intros Ht (j' & Hj & Hs). rewrite (job_law _ _ Ht) in Hj. by injection Hj as <-. Qed.

(** Swapping in a new state of the job. *)
Lemma swap_state (d m : Prop) key old j raw k :
  HasPrefix key (outbox_prefix provider) = true -> job_text j = Some raw -> (key = okey -> j.(job_Receipt) = Some receipt) ->
  (key = okey -> j.(Status) = "completed" -> d) -> (forall r, safe d m (k r)) -> safe d m (CompareAndSwap key old raw k).
Proof.
  intros Hp Ht Hr Hs Hk. cbn [psafe]. split; [by apply outbox_key_not_dkey|]. split; [|done]. intros E.
  split; [by eapply carries_text; eauto|]. intros Hc. apply (Hs E). by eapply completed_text.
Qed.

Lemma finish_safe (d m : Prop) key claimedRaw claimed err now k :
  HasPrefix key (outbox_prefix provider) = true -> (key = okey -> claimed.(job_Receipt) = Some receipt) ->
  (err = None -> key = okey -> d) -> (forall b e, goes_on d m (k b e)) -> safe d m (finish key claimedRaw claimed err now k).
Proof.
  intros Hp Hr He Hk. unfold finishDelivery. destruct err as [e|].
  - destruct (_ || _); (destruct (job_text _) as [raw|] eqn:Et; [|by apply Hk]).
    + eapply swap_state; [done|exact Et|done|done|]. intros [[]|e2]; [|by apply Hk..].
      apply move_safe; [done| |intros; apply Hk]. intros E. by eapply carries_text; eauto.
    + eapply swap_state; [done|exact Et|done|done|]. intros r. by apply Hk.
  - destruct (job_text _) as [raw|] eqn:Et; [|by apply Hk]. eapply swap_state; [done|exact Et|done|auto|].
    intros [[]|e2]; [|by apply Hk..]. cbn [psafe]. split; [by apply outbox_key_not_dkey|]. split; [intros E; left; auto|].
    intros r. by apply Hk.
Qed.

Lemma process_safe (d m : Prop) key raw now k :
  HasPrefix key (outbox_prefix provider) = true -> (key = okey -> carries raw /\ (completed raw -> d)) ->
  (forall b e, goes_on d m (k b e)) -> safe d m (process key raw now k).
Proof.
  intros Hp Hc Hk. unfold processEntry. cbv zeta.
  assert (safe d m (move key raw (fun e => match e with Some _ => k false e | None => k true None end))) as Hcorrupt.
  { apply move_safe; [done|by intros E; apply Hc|]. intros [e|]; apply Hk. }
  destruct (job_parse raw) as [job|] eqn:Ej; [|done]. destruct (job_Receipt job) as [r|] eqn:Er; [|done].
  assert (key = okey -> r = receipt) as Hr.
  { intros E. destruct (Hc E) as [(j & Hj & Hjr) _]. congruence. }
  destruct (String.eqb_spec (Status job) "completed") as [Es|_].
  { cbn [psafe]. split; [by apply outbox_key_not_dkey|]. split; [|intros; by apply Hk]. intros E. left. apply (Hc E). by exists job. }
  destruct (String.eqb (Status job) "dead"); [apply move_safe; [done|by intros E; apply Hc|intros; apply Hk]|].
  destruct (_ || _); [by apply Hk|]. destruct (job_text _) as [claimedRaw|] eqn:Et; [|by apply Hk].
  assert (key = okey -> job_Receipt job = Some receipt) as Hjr by (intros E; by rewrite Er, (Hr E)).
  eapply swap_state; [done|exact Et|done|done|]. intros [[]|e]; [|by apply Hk..].
  destruct (runtimeReceipt r) as [dr|[e|e]] eqn:Err; [|by apply finish_safe..].
  cbn [psafe wsafe]. split; [|intros e; by apply finish_safe].
  apply finish_safe; [done|done| |].
  - intros _ E. right. apply one_push. by rewrite <- (Hr E).
  - intros b e. eapply goes_on_weaken; [apply Hk|by left|done].
Qed.

Lemma entries_safe (d m : Prop) entries now n :
  Forall (fun kv => HasPrefix kv.1 (outbox_prefix provider) = true /\ (kv.1 = okey -> carries kv.2 /\ (completed kv.2 -> d))) entries ->
  safe d m (process_entries job_text job_parse provider config owner entries now n).
Proof.
  revert d m n. induction entries as [|[key raw] entries IH]; intros d m n Hall; [done|].
  apply Forall_cons in Hall as [[Hp Hc] Hall]. cbn [process_entries]. apply process_safe; [done|done|].
  intros b e d' m' Hd Hm. apply IH. eapply Forall_impl; [exact Hall|]. intros kv [H1 H2]. split; [done|]. intros E.
  destruct (H2 E) as [H3 H4]. auto.
Qed.

Lemma worker_safe (d m : Prop) : safe d m (processAvailable job_text job_parse provider config owner).
Proof.
  unfold processAvailable. cbn [psafe]. intros now. split; [done|]. intros l d' Hd Hc Hp. apply entries_safe.
  apply Forall_forall. intros [key v] Hin%list_elem_of_In. cbn. split; [by eapply Hp|]. intros ->. by apply Hc.
Qed.
End Worker.

Section Lost.
Context {V : Type} `{EqDecision V}.
Context (job_text : durableOutboxJob -> option V) (job_parse : V -> option durableOutboxJob).

(** C33: No push is lost by its workers: from the time a job for it is in the outbox, and however the workers of any number of nodes,
    each with its settings, interleave, lose calls before or after they took effect, or stop, the job or its dead letter is in
    the cache, still for this push, until the push was delivered. *)
Theorem push_never_lost provider suffix receipt push (configs : nat -> durableOutboxConfig) (owners : nat -> string) j raw (s0 s : Nodes V) :
  (forall j v, job_text j = Some v -> job_parse v = Some j) ->
  let okey := outbox_prefix provider ++ suffix in let dkey := dlq_prefix provider ++ suffix in
  let worker i := processAvailable job_text job_parse provider (configs i) (owners i) in
  runtimeReceipt receipt = inl push ->
  s0.(nodes_cache) !! okey = Some raw -> job_parse raw = Some j -> j.(job_Receipt) = Some receipt -> j.(Status) <> "completed" ->
  s0.(nodes_cache) !! dkey = None -> (forall i p, s0.(workers) !! i = Some p -> p = worker i) ->
  steps (ostep worker) s0 s ->
  (exists key v, (key = okey \/ key = dkey) /\ s.(nodes_cache) !! key = Some v /\ carries job_parse receipt v) \/ In push s.(delivered).
Proof.
  intros Hlaw okey dkey worker Hr Hraw Hj Hjr Hst Hd Hw Hsteps.
  assert (okey <> dkey) as Hne by (intros E; symmetry in E; by apply dlq_not_outbox in E).
  assert (forall r, runtimeReceipt receipt = inl r -> r = push) as Hone by congruence.
  assert (forall i, psafe job_parse okey dkey receipt (wsafe job_parse okey dkey receipt push) False False (worker i)) as Hsafe.
  { intros i. by apply worker_safe. }
  assert (Safe job_parse okey dkey receipt push s) as [H1 H2 H3 H4].
  { revert Hsteps. apply (steps_invariant _ (Safe job_parse okey dkey receipt push)).
    - constructor.
      + intros v. rewrite Hraw. intros [= <-]. split; [by exists j|]. intros (j' & Hj' & Hs). congruence.
      + by rewrite Hd.
      + left. by rewrite Hraw.
      + intros i p ->%Hw. by exists False, False.
    - intros a b Ha Hab. by eapply step_safe. }
  destruct H3 as [[v Hv]|[[v Hv]|Hin]].
  - left. exists okey, v. split; [by left|]. split; [done|]. by apply H1.
  - left. exists dkey, v. split; [by right|]. split; [done|]. by apply H2.
  - right. by apply list_elem_of_In.
Qed.
End Lost.

(** ** Runs *)

(** Values that are the jobs themselves. *)
Definition run_call (f : Fault) (i : nat) (s : Nodes durableOutboxJob) : Nodes durableOutboxJob :=
  match s.(workers) !! i with
  | Some p => let '(m, p') := perform f s.(nodes_clock) s.(nodes_cache) p in
              mkNodes s.(nodes_clock) m (<[i := p']> s.(workers)) s.(delivered)
  | None => s
  end.
Definition run_calls (l : list nat) (s : Nodes durableOutboxJob) : Nodes durableOutboxJob := fold_left (fun s i => run_call Fine i s) l s.

Lemma run_calls_steps again l s : steps (ostep again) s (run_calls l s).
Proof.
  revert s. induction l as [|i l IH]; intros s; [apply steps_refl|]. cbn [run_calls fold_left]. eapply steps_trans; [|apply IH].
  unfold run_call. destruct (workers s !! i) as [p|] eqn:Ei; [|apply steps_refl].
  destruct (perform Fine (nodes_clock s) (nodes_cache s) p) as [m p'] eqn:E. apply steps_one. by eapply step_call.
Qed.

Definition sample_receipt : durableReceipt :=
  mkDurable {[ UidString 2 := mkRecipient 0 [] 0 false ]} "" (mkPayload "msg" false "grpA" 5 "usrA" 7 "" (AStr "hi") "" false "" 0 0).
Definition sample_push : PushReceipt := mkPushReceipt {[ 2%N := mkRecipient 0 [] 0 false ]} "" sample_receipt.(dr_Payload).
Definition sample_job (status : string) (attempts : Z) : durableOutboxJob := mkJob 1 "fcm" (Some sample_receipt) status attempts 5 5 "" 0 "".
Definition sample_worker (owner : string) : Prog durableOutboxJob (Work durableOutboxJob) :=
  processAvailable Some Some "fcm" defaultDurableOutboxConfig owner.
Definition sample_nodes (status : string) (ps : list (Prog durableOutboxJob (Work durableOutboxJob))) : Nodes durableOutboxJob :=
  mkNodes 100 {[ outbox_prefix "fcm" ++ "7:a" := sample_job status 8 ]} ps [].

(** The first call of the worker takes its lease; then it crashes. *)
Lemma push_never_lost_witness :
  let s := run_calls [0%nat; 0%nat; 0%nat] (sample_nodes "queued" [sample_worker "fcm-1"; sample_worker "fcm-2"]) in
  (exists key v, (key = outbox_prefix "fcm" ++ "7:a" \/ key = dlq_prefix "fcm" ++ "7:a") /\ s.(nodes_cache) !! key = Some v /\
     carries Some sample_receipt v) \/ In sample_push s.(delivered).
Proof.
  set (s0 := sample_nodes _ _).
  eapply (push_never_lost Some Some "fcm" "7:a" sample_receipt sample_push (fun _ => defaultDurableOutboxConfig)
    (fun i => match i with O => "fcm-1" | _ => "fcm-2" end) (sample_job "queued" 8) (sample_job "queued" 8) s0);
    [by intros j v [= ->]|by vm_compute|by vm_compute|done|done|done|by vm_compute| |apply run_calls_steps].
  intros [|[|i]] p; cbn; [by intros [= <-]|by intros [= <-]|done].
Defined.

(** The administrator's replay as one more client of the cache. *)
Definition replay_client : Prog durableOutboxJob (Work durableOutboxJob) :=
  pmap (fun r => match r with inl _ => Finished 1 None | inr e => Finished 0 (Some e) end) (ReplayDurableDeadLetter Some Some "fcm" "7:a").

(** A replay may lose the push: the worker has copied the dead job to the dead letters and not yet deleted it; the replay finds
    the job's key taken, takes that for an earlier replay of its own, deletes the letter and reports success; then the worker
    deletes the job.  Neither is left and nothing was delivered. *)
Theorem replay_loses_push :
  exists s, steps (ostep (fun _ => sample_worker "fcm-1")) (sample_nodes "dead" [sample_worker "fcm-1"; replay_client]) s /\
    s.(nodes_cache) = ∅ /\ s.(delivered) = [] /\ s.(workers) = [Done (Finished 1 None); Done (Finished 1 None)].
Proof.
  exists (run_calls [0; 0; 0; 1; 1; 1; 1; 0]%nat (sample_nodes "dead" [sample_worker "fcm-1"; replay_client])).
  split; [apply run_calls_steps|]. vm_compute. done.
Qed.

(** ** Retries *)

Section Retries.
Context (config : durableOutboxConfig).

Lemma retry_loop_spec a delay :
  0 < delay -> config.(MaxRetry) < 2 ^ 62 -> Z.min (retry_loop config a delay) config.(MaxRetry) = Z.min (delay * 2 ^ Z.of_nat a) config.(MaxRetry).
Proof.
  revert delay. induction a as [|a IH]; intros delay Hd Hm; cbn [retry_loop]; [f_equal; lia|].
  replace (2 ^ Z.of_nat (S a)) with (2 * 2 ^ Z.of_nat a) by (rewrite Nat2Z.inj_succ, Z.pow_succ_r; lia).
  assert (0 < 2 ^ Z.of_nat a) as Hp by (apply Z.pow_pos_nonneg; lia).
  destruct (Z.ltb_spec delay (MaxRetry config)).
  - assert (int64 (delay * 2) = delay * 2) as -> by (unfold int64; rewrite Z.mod_small; lia).
    rewrite IH by lia. f_equal. lia.
  - rewrite !Z.min_r; [done| |done]. nia.
Qed.

(** The wait before a retry doubles with every attempt from the base up to the maximum: it is never longer than the maximum,
    never shorter than the smaller of the two, does not get shorter and does not overflow. *)
Theorem retry_delay_spec attempt :
  0 < config.(RetryBase) -> 0 <= config.(MaxRetry) < 2 ^ 62 -> 1 <= attempt ->
  retryDelay config attempt = Z.min (config.(RetryBase) * 2 ^ (attempt - 1)) config.(MaxRetry) /\
  Z.min config.(RetryBase) config.(MaxRetry) <= retryDelay config attempt <= config.(MaxRetry) /\
  retryDelay config attempt <= retryDelay config (attempt + 1).
Proof.
  intros Hb Hm Ha.
  assert (forall k, 1 <= k -> retryDelay config k = Z.min (config.(RetryBase) * 2 ^ (k - 1)) config.(MaxRetry)) as Hk.
  { intros k Hk. unfold retryDelay. set (n := Z.to_nat (k - 1)).
    transitivity (Z.min (retry_loop config n (RetryBase config)) (MaxRetry config)); [destruct (Z.ltb_spec (MaxRetry config) (retry_loop config n
      (RetryBase config))); lia|]. rewrite retry_loop_spec by lia. subst n. by rewrite Z2Nat.id by lia. }
  rewrite !Hk by lia. replace (attempt + 1 - 1) with (Z.succ (attempt - 1)) by lia. rewrite Z.pow_succ_r by lia.
  assert (1 <= 2 ^ (attempt - 1)) by (apply (Z.pow_le_mono_r 2 0); lia). split; [done|]. split; nia.
Qed.

End Retries.

Lemma retry_delay_spec_witness : retryDelay defaultDurableOutboxConfig 4 = 16 * second.
Proof. destruct (retry_delay_spec defaultDurableOutboxConfig 4) as [E _]; [done|done|done|]. rewrite E. vm_compute. done. Defined.

(** ** One attempt *)

Section Alone.
Context {V : Type} `{EqDecision V}.
Context (job_text : durableOutboxJob -> option V) (job_parse : V -> option durableOutboxJob).
Context (job_law : forall j v, job_text j = Some v -> job_parse v = Some j) (job_total : forall j, is_Some (job_text j)).
Context (provider : string) (config : durableOutboxConfig) (owner : string).

Abbreviation process := (processEntry job_text job_parse provider config owner).

Definition finished (b : bool) (e : option GoError) : Prog V (Work V) := Done (Finished (if b then 1 else 0) e).

(** The job after an attempt that leased it at [now]. *)
Definition after_attempt (j : durableOutboxJob) (status : string) (next : Z) (lastError : string) : durableOutboxJob :=
  with_state j status (j.(Attempts) + 1) next "" 0 lastError.

Definition due (j : durableOutboxJob) (now : Z) : Prop :=
  j.(NextAttemptAt) <= now /\ (j.(Status) = "queued" \/ j.(Status) = "leased" /\ j.(LeaseUntil) <= now).

Lemma cas_current {A} clock (m : gmap string V) key old new (k : bool + GoError -> Prog V A) :
  m !! key = Some old -> eval clock m (CompareAndSwap key old new k) = eval clock (<[key := new]> m) (k (inl true)).
Proof. intros Hm. cbn [eval]. unfold PCacheCompareAndSwap. rewrite Hm. by rewrite bool_decide_eq_true_2. Qed.

Lemma move_alone clock (m : gmap string V) key raw k :
  has_percent (dead_key provider key) = false ->
  eval clock m (movePushDeadLetter provider key raw k) = eval clock (delete key (<[dead_key provider key := raw]> m)) (k None).
Proof. intros Hp. cbn [movePushDeadLetter eval]. unfold PCacheUpsert. rewrite Hp. by destruct (m !! _). Qed.

(** An attempt at a job that is due has the push delivered once.  If that succeeds the job is gone.  If it fails for good, or for
    the last time, the job is gone and a dead letter holds it with the error; if it fails for now, the job waits with one more
    attempt for its delay. *)
Lemma attempt_alone clock now (m : gmap string V) key raw j receipt push :
  m !! key = Some raw -> job_parse raw = Some j -> j.(job_Receipt) = Some receipt -> runtimeReceipt receipt = inl push -> due j now ->
  has_percent (dead_key provider key) = false ->
  exists m1 k, eval clock m (process key raw now finished) = (m1, Deliver push k) /\
    eval clock m1 (k None) = (delete key m, Finished 1 None) /\
    forall e, exists v, let lastError := truncatePushError e.(delivery_error) in
      if e.(permanent) || (config.(MaxAttempts) <=? j.(Attempts) + 1)
      then eval clock m1 (k (Some e)) = (delete key (<[dead_key provider key := v]> m), Finished 1 None) /\
           job_parse v = Some (after_attempt j "dead" j.(NextAttemptAt) lastError)
      else eval clock m1 (k (Some e)) = (<[key := v]> m, Finished 1 None) /\
           job_parse v = Some (after_attempt j "queued" (now + retryDelay config (j.(Attempts) + 1)) lastError).
Proof.
  intros Hm Hj Hr Hrun [Hnext Hst] Hpc. unfold processEntry. rewrite Hj, Hr.
  assert (String.eqb (Status j) "completed" = false /\ String.eqb (Status j) "dead" = false) as [-> ->] by (by destruct Hst as [->|[-> _]]).
  assert ((now <? NextAttemptAt j) || (String.eqb (Status j) "leased" && (now <? LeaseUntil j)) = false) as ->.
  { apply orb_false_iff. split; [lia|]. destruct Hst as [->|[-> ?]]; [done|]. cbn. lia. }
  cbv zeta. set (claimed := with_state j "leased" _ _ _ _ _). destruct (job_total claimed) as [claimedRaw Hc]. rewrite Hc, Hrun.
  rewrite cas_current by done. cbn [eval]. eexists _, _. split; [reflexivity|]. split.
  - unfold finishDelivery. destruct (job_total (with_state claimed "completed" (Attempts claimed) (NextAttemptAt claimed) "" 0
      (LastError claimed))) as [cr Hcr]. rewrite Hcr, cas_current by (by rewrite lookup_insert_eq). cbn [eval finished].
    by rewrite !delete_insert_eq.
  - intros e. unfold finishDelivery. cbn [Attempts claimed with_state]. destruct (_ || _).
    + destruct (job_total (with_state claimed "dead" (Attempts claimed) (NextAttemptAt claimed) "" 0 (truncatePushError (delivery_error e))))
        as [v Hv]. exists v. cbn [Attempts NextAttemptAt claimed with_state] in Hv |- *. rewrite Hv. split; [|by apply job_law in Hv].
      rewrite cas_current by (by rewrite lookup_insert_eq). rewrite move_alone by done. cbn [eval finished]. f_equal.
      apply map_eq. intros x. destruct (decide (x = key)) as [->|Hx]; [by rewrite !lookup_delete_eq|]. rewrite !lookup_delete_ne by done.
      destruct (decide (x = dead_key provider key)) as [->|Hxd]; [by rewrite !lookup_insert_eq|]. by rewrite !lookup_insert_ne by done.
    + destruct (job_total (with_state claimed "queued" (Attempts claimed) (now + retryDelay config (Attempts claimed)) "" 0
        (truncatePushError (delivery_error e)))) as [v Hv]. exists v. cbn [Attempts claimed with_state] in Hv |- *. rewrite Hv.
      split; [|by apply job_law in Hv]. rewrite cas_current by (by rewrite lookup_insert_eq). cbn [eval finished].
      by rewrite !insert_insert_eq.
Qed.

(** *** What becomes of a job *)

(** One node's round at the time [now], with the provider's answer; the job's key is not there any more, or the entry is
    processed, which may want a delivery. *)
Definition round (key : string) (m : gmap string V) (now : Z) (answer : option DeliveryError) : gmap string V :=
  match m !! key with
  | None => m
  | Some raw =>
      let '(m1, w) := eval now m (process key raw now finished) in
      match w with Deliver _ k => (eval now m1 (k answer)).1 | Finished _ _ => m1 end
  end.

Inductive Fate := Waiting (attempts next : Z) | Gone | DeadLetter (attempts : Z) (lastError : string).

(** What the rounds and answers make of a job with [attempts] behind it that waits until [next]. *)
Fixpoint fate (attempts next : Z) (rounds : list (Z * option DeliveryError)) : Fate :=
  match rounds with
  | [] => Waiting attempts next
  | (now, answer) :: rounds' =>
      if now <? next then fate attempts next rounds'
      else match answer with
           | None => Gone
           | Some e =>
               if e.(permanent) || (config.(MaxAttempts) <=? attempts + 1)
               then DeadLetter (attempts + 1) (truncatePushError e.(delivery_error))
               else fate (attempts + 1) (now + retryDelay config (attempts + 1)) rounds'
           end
  end.

Definition holds_fate (key : string) (receipt : durableReceipt) (m m' : gmap string V) (f : Fate) : Prop :=
  match f with
  | Waiting attempts next =>
      exists v j, m' = <[key := v]> m /\ job_parse v = Some j /\ j.(job_Receipt) = Some receipt /\ j.(Status) = "queued" /\
        j.(Attempts) = attempts /\ j.(NextAttemptAt) = next
  | Gone => m' = delete key m
  | DeadLetter attempts lastError =>
      exists v j, m' = delete key (<[dead_key provider key := v]> m) /\ job_parse v = Some j /\ j.(job_Receipt) = Some receipt /\
        j.(Status) = "dead" /\ j.(Attempts) = attempts /\ j.(LastError) = lastError
  end.

Lemma round_absent key m now answer : m !! key = None -> round key m now answer = m.
Proof. intros Hm. unfold round. by rewrite Hm. Qed.

Lemma rounds_absent key m rounds : m !! key = None -> fold_left (fun m r => round key m r.1 r.2) rounds m = m.
Proof. intros Hm. induction rounds as [|[now a] rounds IH]; [done|]. cbn. by rewrite round_absent. Qed.

Lemma round_early key m raw j now answer receipt :
  m !! key = Some raw -> job_parse raw = Some j -> j.(job_Receipt) = Some receipt -> j.(Status) = "queued" -> now < j.(NextAttemptAt) ->
  round key m now answer = m.
Proof.
  intros Hm Hj Hr Hs Hn. unfold round, processEntry. rewrite Hm, Hj, Hr, Hs. cbn [String.eqb Ascii.eqb Bool.eqb].
  by destruct (Z.ltb_spec now (NextAttemptAt j)); [|lia].
Qed.

(** What becomes of a job on a node alone is what its rounds and the provider's answers say: it waits out its delay, is gone with
    the first success, is a dead letter with the error after a failure for good or the last of its attempts, and a job that
    still waits has attempts left. *)
Theorem job_fate key (m : gmap string V) raw j receipt push rounds :
  m !! key = Some raw -> job_parse raw = Some j -> j.(job_Receipt) = Some receipt -> runtimeReceipt receipt = inl push ->
  j.(Status) = "queued" -> has_percent (dead_key provider key) = false -> j.(Attempts) < config.(MaxAttempts) ->
  let f := fate j.(Attempts) j.(NextAttemptAt) rounds in
  holds_fate key receipt m (fold_left (fun m r => round key m r.1 r.2) rounds m) f /\
  match f with Waiting attempts _ => attempts < config.(MaxAttempts) | DeadLetter attempts _ => attempts <= config.(MaxAttempts) | Gone => True end.
Proof.
  intros Hm Hj Hr Hrun Hs Hp Ha. revert m raw j Hm Hj Hr Hs Ha. induction rounds as [|[now answer] rounds IH]; intros m raw j Hm Hj Hr Hs Ha.
  { cbn. split; [|done]. exists raw, j. by rewrite insert_id. }
  cbn [fate fold_left fst snd]. destruct (Z.ltb_spec now (NextAttemptAt j)) as [Hn|Hn].
  { rewrite (round_early key m raw j now answer receipt) by done. by apply (IH m raw j). }
  destruct (attempt_alone now now m key raw j receipt push Hm Hj Hr Hrun) as (m1 & k & E1 & E2 & E3); [by split; [|left]|done|].
  assert (round key m now answer = (eval now m1 (k answer)).1) as -> by (unfold round; by rewrite Hm, E1).
  destruct answer as [e|].
  2: { rewrite E2. cbn [fst]. rewrite rounds_absent by (by rewrite lookup_delete_eq). by split. }
  destruct (E3 e) as [v Hv]. cbv zeta in Hv. destruct (_ || _) eqn:Eb; destruct Hv as [-> Hv]; cbn [fst].
  - rewrite rounds_absent by (by rewrite lookup_delete_eq). split; [by eexists v, _|]. lia.
  - apply orb_false_iff in Eb as [_ Eb]. pose proof (IH (<[key := v]> m) v (after_attempt j "queued" (now + retryDelay config (Attempts j + 1))
      (truncatePushError (delivery_error e)))) as Hi. cbn [after_attempt with_state Attempts NextAttemptAt job_Receipt Status] in Hi.
    destruct Hi as [Hf Hb]; [by rewrite lookup_insert_eq|done|done|done|lia|]. split; [|done]. revert Hf.
    unfold holds_fate. destruct (fate _ _ _).
    + intros (v' & j' & -> & ?). exists v', j'. by rewrite insert_insert_eq.
    + intros ->. by rewrite delete_insert_eq.
    + intros (v' & j' & -> & ?). exists v', j'. split; [|done]. apply map_eq. intros x.
      destruct (decide (x = key)) as [->|Hx]; [by rewrite !lookup_delete_eq|]. rewrite !lookup_delete_ne by done.
      destruct (decide (x = dead_key provider key)) as [->|Hxd]; [by rewrite !lookup_insert_eq|]. by rewrite !lookup_insert_ne by done.
Qed.
End Alone.

Definition sample_failures : list (Z * option DeliveryError) :=
  [(100, Some (mkDeliveryError false "busy")); (101, None); (100 + 2 * second, Some (mkDeliveryError true "bad token"))].
Definition outbox_cache (status : string) (attempts : Z) : gmap string durableOutboxJob :=
  {[ outbox_prefix "fcm" ++ "7:a" := sample_job status attempts ]}.

Lemma job_fate_witness :
  holds_fate Some "fcm" (outbox_prefix "fcm" ++ "7:a") sample_receipt (outbox_cache "queued" 0)
    (fold_left (fun m r => round Some Some "fcm" defaultDurableOutboxConfig "fcm-1" (outbox_prefix "fcm" ++ "7:a") m r.1 r.2) sample_failures
       (outbox_cache "queued" 0)) (DeadLetter 2 "bad token").
Proof.
  assert (fate defaultDurableOutboxConfig 0 5 sample_failures = DeadLetter 2 "bad token") as E by (vm_compute; reflexivity).
  assert (forall j v : durableOutboxJob, Some j = Some v -> Some v = Some j) as Hlaw by done.
  rewrite <- E. unshelve refine (proj1 (job_fate Some Some Hlaw (fun j => ex_intro _ j eq_refl) "fcm" defaultDurableOutboxConfig "fcm-1"
    (outbox_prefix "fcm" ++ "7:a") (outbox_cache "queued" 0) (sample_job "queued" 0) (sample_job "queued" 0) sample_receipt sample_push
    sample_failures _ eq_refl eq_refl _ eq_refl _ _)); [unfold outbox_cache; apply lookup_singleton_eq|by vm_compute|by vm_compute|done].
Defined.

(** ** Putting a receipt in *)

Lemma append_cancel a b c : a ++ b = a ++ c -> b = c.
Proof. induction a as [|x a IH]; cbn; [done|]. intros [= E]. auto. Qed.

Lemma fold_delete_lookup {V} (keys : list string) (m : gmap string V) x :
  fold_left (fun m k => delete k m) keys m !! x = if decide (x ∈ keys) then None else m !! x.
Proof.
  revert m. induction keys as [|k keys IH]; intros m; cbn [fold_left].
  - by rewrite decide_False by (by intros ?%elem_of_nil).
  - rewrite IH. destruct (decide (x ∈ keys)) as [Hx|Hx].
    + by rewrite decide_True by (by right).
    + destruct (decide (x = k)) as [->|Hk].
      * rewrite decide_True by left. by rewrite lookup_delete_eq.
      * rewrite decide_False by (by intros [?|?]%elem_of_cons). by rewrite lookup_delete_ne.
Qed.

(** Deleting what was added. *)
Lemma fold_delete_added {V} (entries : list (string * V)) (m : gmap string V) :
  Forall (fun k => m !! k = None) entries.*1 -> fold_left (fun m k => delete k m) entries.*1 (list_to_map entries ∪ m) = m.
Proof.
  intros Hn. apply map_eq. intros x. rewrite fold_delete_lookup. case_decide as Hx.
  - rewrite Forall_forall in Hn. by rewrite Hn.
  - rewrite lookup_union_r; [done|]. by apply not_elem_of_list_to_map_1.
Qed.

Section Split.
Context (r : PushReceipt).

Definition entry_of (u : Uid) : Uid * Recipient := (u, default (mkRecipient 0 [] 0 false) (r.(to) !! u)).

Lemma recipients_perm : recipients r ≡ₚ map fst (map_to_list r.(to)).
Proof. apply sort_by_perm. Qed.
Lemma recipients_nodup : NoDup (recipients r).
Proof. rewrite recipients_perm. apply NoDup_fst_map_to_list. Qed.
Lemma recipients_length : List.length (recipients r) = size r.(to).
Proof. by rewrite recipients_perm, length_map, length_map_to_list. Qed.

Lemma recipients_entries : map entry_of (recipients r) ≡ₚ map_to_list r.(to).
Proof.
  rewrite recipients_perm, map_map. enough (map (fun x => entry_of x.1) (map_to_list r.(to)) = map_to_list r.(to)) as -> by done.
  rewrite <- (map_id (map_to_list r.(to))) at 2. apply map_ext_in. intros [u x] Hin%list_elem_of_In%elem_of_map_to_list. unfold entry_of. cbn. by rewrite Hin.
Qed.

Lemma clone_entries uids : NoDup uids -> map_to_list (cloneReceiptForUsers r uids).(to) ≡ₚ map entry_of uids.
Proof.
  intros Hn. cbn. apply map_to_list_to_map. change (NoDup (map fst (map entry_of uids))). rewrite map_map. cbn. by rewrite map_id.
Qed.

Lemma clone_size uids : NoDup uids -> size (cloneReceiptForUsers r uids).(to) = List.length uids.
Proof. intros Hn. by rewrite <- length_map_to_list, (clone_entries uids Hn), length_map. Qed.
End Split.

Section Putting.
Context {V : Type} `{EqDecision V}.
Context (job_text : durableOutboxJob -> option V) (raw_len : V -> Z) (rnd : nat -> string).
Context (provider : string) (config : durableOutboxConfig) (clock : Z).
Context (rnd_inj : forall a b, rnd a = rnd b -> a = b).

Abbreviation persist := (persistReceipt job_text raw_len rnd provider).
Abbreviation chunks := (enqueue_chunks job_text raw_len rnd provider).
Abbreviation enqueue := (Enqueue job_text raw_len rnd provider config).

Definition nth_key (i : nat) : string := job_key provider clock (rnd i).
(** The identifiers from the [n]th on are new to the cache. *)
Definition fresh (m : gmap string V) (n : nat) : Prop := forall i, (n <= i)%nat -> m !! nth_key i = None.

Lemma nth_key_inj i j : nth_key i = nth_key j -> i = j.
Proof. unfold nth_key, job_key. intros E. apply rnd_inj. by apply append_cancel, append_cancel, append_cancel in E. Qed.

(** [raw] is the job of the part [p] of [r], and fits. *)
Definition fits (r : PushReceipt) (raw : V) (p : PushReceipt) : Prop :=
  p.(channel) = r.(channel) /\ p.(payload) = r.(payload) /\ job_raw job_text raw_len provider clock (newDurableReceipt p) = Some raw /\
  raw_len raw <= durableJobMaxBytes /\ (size p.(to) <= size r.(to))%nat.

(** Jobs for the recipients [l] of [r], under new keys with the identifiers from [n] to [n']. *)
Definition added (r : PushReceipt) (bound n n' : nat) (l : list (Uid * Recipient)) (entries : list (string * V)) : Prop :=
  (n <= n')%nat /\ NoDup entries.*1 /\ Forall (fun k => exists i, (n <= i < n')%nat /\ k = nth_key i) entries.*1 /\
  exists parts, Forall2 (fun e p => fits r e.2 p /\ (size p.(to) <= bound)%nat) entries parts /\
    mjoin (map (fun p => map_to_list p.(to)) parts) ≡ₚ l.

Lemma eval_delete_all {A} keys m (k : Prog V A) :
  eval clock m (delete_all keys k) = eval clock (fold_left (fun m x => delete x m) keys m) k.
Proof. revert m. induction keys as [|x keys IH]; intros m; cbn; [done|]. apply IH. Qed.

Lemma added_app r bound n1 n2 n3 l1 l2 e1 e2 :
  added r bound n1 n2 l1 e1 -> added r bound n2 n3 l2 e2 -> added r bound n1 n3 (l1 ++ l2) (e1 ++ e2).
Proof.
  intros (H1 & N1 & F1 & p1 & P1 & J1) (H2 & N2 & F2 & p2 & P2 & J2). split; [lia|]. rewrite !fmap_app. split.
  { apply NoDup_app. split; [done|]. split; [|done]. intros k Hk1 Hk2. rewrite Forall_forall in F1, F2.
    destruct (F1 k Hk1) as (i & Hi & ->), (F2 _ Hk2) as (j & Hj & E). apply nth_key_inj in E. lia. }
  split.
  { apply Forall_app. split; eapply Forall_impl; try done; cbn; intros k (i & Hi & ->); exists i; (split; [lia|done]). }
  exists (p1 ++ p2)%list. split; [by apply Forall2_app|]. by rewrite map_app, join_app, J1, J2.
Qed.

Lemma fresh_added m r bound n n' l entries : fresh m n -> added r bound n n' l entries -> fresh (list_to_map entries ∪ m) n'.
Proof.
  intros Hf (Hle & _ & F & _) i Hi. apply lookup_union_None. split; [|apply Hf; lia]. apply not_elem_of_list_to_map_1.
  intros Hin. rewrite Forall_forall in F. destruct (F _ Hin) as (j & Hj & E). apply nth_key_inj in E. lia.
Qed.

Lemma added_absent m r bound n n' l entries : fresh m n -> added r bound n n' l entries -> Forall (fun k => m !! k = None) entries.*1.
Proof. intros Hf (_ & _ & F & _). eapply Forall_impl; [exact F|]. intros k (i & Hi & ->). apply Hf. lia. Qed.

Lemma added_maps m r bound n1 n2 n3 l1 l2 e1 e2 :
  added r bound n1 n2 l1 e1 -> added r bound n2 n3 l2 e2 ->
  list_to_map e2 ∪ (list_to_map e1 ∪ m) = (list_to_map (e1 ++ e2) ∪ m : gmap string V).
Proof.
  intros (_ & _ & F1 & _) (_ & _ & F2 & _). rewrite list_to_map_app, map_union_assoc. f_equal. apply map_union_comm.
  apply map_disjoint_spec. intros k x y Hx Hy. apply elem_of_list_to_map_2 in Hx, Hy.
  apply (list_elem_of_fmap_2 fst) in Hx, Hy. rewrite Forall_forall in F1, F2.
  destruct (F1 k Hy) as (i & Hi & Ei), (F2 k Hx) as (j & Hj & Ej). rewrite Ei in Ej. apply nth_key_inj in Ej. lia.
Qed.

Lemma added_weaken r r' bound bound' n n' l l' entries :
  r'.(channel) = r.(channel) -> r'.(payload) = r.(payload) -> (size r'.(to) <= size r.(to))%nat -> (bound' <= bound)%nat -> l' ≡ₚ l ->
  added r' bound' n n' l' entries -> added r bound n n' l entries.
Proof.
  intros Hc Hp Hs Hb Hl (H1 & H2 & H3 & parts & H4 & H5). split; [done|]. split; [done|]. split; [done|]. exists parts.
  split; [|by rewrite H5]. eapply Forall2_impl; [exact H4|]. intros e p [(E1 & E2 & E3 & E4 & E5) E6].
  split; [|lia]. split; [congruence|]. split; [congruence|]. split; [done|]. split; [done|lia].
Qed.

Definition put_result (r : PushReceipt) (n : nat) (m : gmap string V) (out : gmap string V * (list string * option GoError * nat)) : Prop :=
  let '(m', (keys, err, n')) := out in
  (n <= n')%nat /\
  match err with
  | Some _ => keys = [] /\ m' = m
  | None => exists entries, keys = entries.*1 /\ m' = list_to_map entries ∪ m /\ added r (size r.(to)) n n' (map_to_list r.(to)) entries /\
      entries <> []
  end.

Lemma put_leaf r n m raw :
  fresh m n -> job_raw job_text raw_len provider clock (newDurableReceipt r) = Some raw ->
  put_result r n m (eval clock m
    (if durableJobMaxBytes <? raw_len raw then Done ([], Some (TextErr "push outbox job exceeds 57344 bytes"), n)
     else Upsert (nth_key n) raw true (fun err => Done (match err with Some e => ([], Some e, S n) | None => ([nth_key n], None, S n) end)))).
Proof.
  intros Hf Hraw. destruct (Z.ltb_spec durableJobMaxBytes (raw_len raw)); [by cbn|]. cbn [eval]. unfold PCacheUpsert.
  destruct (has_percent _); [cbn; split; [lia|done]|]. rewrite Hf by lia. cbn. split; [lia|]. exists [(nth_key n, raw)].
  split; [done|]. split; [by rewrite insert_union_singleton_l|].
  split; [|done]. split; [lia|]. split; [apply NoDup_singleton|]. split.
  { apply Forall_singleton. exists n. split; [lia|done]. }
  exists [r]. split; [|cbn; by rewrite app_nil_r]. apply Forall2_cons. split; [|done]. split; [|lia]. by repeat split.
Qed.

Lemma half_split {A} (l : list A) fuel : (2 <= List.length l <= S fuel)%nat ->
  (List.length (take (Nat.div2 (List.length l)) l) <= fuel)%nat /\ (List.length (drop (Nat.div2 (List.length l)) l) <= fuel)%nat.
Proof.
  intros Hl. rewrite length_take, length_drop. pose proof (Nat.div2_odd (List.length l)) as Ho.
  destruct (Nat.odd (List.length l)); cbn in Ho; lia.
Qed.

(** Putting a part in: nothing is added with an error, its recipients without. *)
Lemma persist_spec fuel r n m :
  (size r.(to) <= fuel)%nat -> fresh m n -> put_result r n m (eval clock m (persist fuel r n)).
Proof.
  revert r n m. induction fuel as [|fuel IH]; intros r n m Hsize Hf; cbn [persistReceipt eval].
  - destruct (job_raw _ _ _ _ _) as [raw|] eqn:Er; [|by cbn].
    destruct (Nat.ltb_spec 1 (size r.(to))); [lia|]. rewrite andb_false_r. by apply put_leaf.
  - destruct (job_raw _ _ _ _ _) as [raw|] eqn:Er; [|by cbn].
    destruct (Nat.ltb_spec 1 (size r.(to))) as [Hs|Hs]; [|rewrite andb_false_r; by apply put_leaf].
    destruct (Z.ltb_spec durableJobMaxBytes (raw_len raw)) as [Hb|Hb]; cbn [andb].
    2: { pose proof (put_leaf r n m raw Hf Er) as L. by destruct (Z.ltb_spec durableJobMaxBytes (raw_len raw)); [lia|]. }
    cbv zeta. set (middle := Nat.div2 _). set (uids := recipients r).
    assert (NoDup uids) as Hn by apply recipients_nodup. rewrite <- (take_drop middle uids) in Hn.
    apply NoDup_app in Hn as (Hn1 & _ & Hn2).
    destruct (half_split uids fuel) as [L1 L2]; [unfold uids; rewrite recipients_length; lia|]. fold middle in L1, L2.
    rewrite eval_pbind. pose proof (IH (cloneReceiptForUsers r (take middle uids)) n m) as I1.
    destruct (eval clock m _) as [m1 [[k1 err1] n1]]. destruct I1 as [N1 I1]; [by rewrite clone_size|done|].
    destruct err1 as [e|]; [cbn; split; [done|exact I1]|]. destruct I1 as (e1 & -> & -> & A1 & Z1).
    rewrite eval_pbind. pose proof (IH (cloneReceiptForUsers r (drop middle uids)) n1 (list_to_map e1 ∪ m)) as I2.
    destruct (eval clock (list_to_map e1 ∪ m) _) as [m2 [[k2 err2] n2]]. destruct I2 as [N2 I2]; [by rewrite clone_size|by eapply fresh_added|].
    destruct err2 as [e|].
    + destruct I2 as [-> ->]. rewrite eval_delete_all. cbn. split; [lia|]. split; [done|]. apply fold_delete_added. by eapply added_absent.
    + destruct I2 as (e2 & -> & -> & A2 & _). cbn [eval put_result]. split; [lia|]. exists (e1 ++ e2)%list.
      assert (List.length uids = size r.(to)) as Hlen by apply recipients_length.
      assert (size (cloneReceiptForUsers r (take middle uids)).(to) <= size r.(to))%nat as S1
        by (rewrite clone_size by done; rewrite length_take; lia).
      assert (size (cloneReceiptForUsers r (drop middle uids)).(to) <= size r.(to))%nat as S2
        by (rewrite clone_size by done; rewrite length_drop; lia).
      pose proof (added_weaken r (cloneReceiptForUsers r (take middle uids)) _ _ _ _ _ _ _ eq_refl eq_refl S1 S1 (clone_entries r _ Hn1) A1) as B1.
      pose proof (added_weaken r (cloneReceiptForUsers r (drop middle uids)) _ _ _ _ _ _ _ eq_refl eq_refl S2 S2 (clone_entries r _ Hn2) A2) as B2.
      pose proof (added_app _ _ _ _ _ _ _ _ _ B1 B2) as B. rewrite <- map_app, take_drop in B.
      split; [by rewrite fmap_app|]. split; [by eapply added_maps|]. split; [|by destruct e1].
      exact (added_weaken r r _ _ _ _ _ _ _ eq_refl eq_refl (le_n _) (le_n _) (recipients_entries r) B).
Qed.

Lemma chunks_step fuel size_ r uids created n : uids <> [] ->
  chunks (S fuel) size_ r uids created n =
  pbind (persist (List.length (take size_ uids)) (cloneReceiptForUsers r (take size_ uids)) n) (fun '(keys, err, n) =>
    match err with
    | Some e => delete_all (created ++ keys)%list (Done (Some e, n))
    | None => chunks fuel size_ r (drop size_ uids) (created ++ keys)%list n
    end).
Proof. by destruct uids. Qed.

(** The loop over the chunks, from the cache [m0] with the entries of the chunks before. *)
Lemma chunks_spec fuel size_ r uids n m0 n0 l0 entries0 :
  (List.length uids <= fuel)%nat -> (0 < size_)%nat -> (List.length uids <= size r.(to))%nat -> NoDup uids -> fresh m0 n0 ->
  added r size_ n0 n l0 entries0 ->
  let '(m', (err, n')) := eval clock (list_to_map entries0 ∪ m0) (chunks fuel size_ r uids entries0.*1 n) in
  match err with
  | Some _ => m' = m0
  | None => exists entries, m' = list_to_map entries ∪ m0 /\ added r size_ n0 n' (l0 ++ map (entry_of r) uids) entries
  end.
Proof.
  revert uids n l0 entries0. induction fuel as [|fuel IH]; intros uids n l0 entries0 Hl Hs Hu Hn Hf Ha.
  { destruct uids; [|cbn in Hl; lia]. cbn. exists entries0. split; [done|]. by rewrite app_nil_r. }
  destruct (decide (uids = [])) as [->|Hne]; [cbn; exists entries0; split; [done|]; by rewrite app_nil_r|].
  rewrite chunks_step by done. rewrite eval_pbind.
  assert (0 < List.length uids)%nat as Hpos by (destruct uids; [done|cbn; lia]).
  pose proof Hn as Hn2. rewrite <- (take_drop size_ uids) in Hn2. apply NoDup_app in Hn2 as (Hn1 & _ & Hn2).
  set (part := cloneReceiptForUsers r (take size_ uids)).
  assert (size part.(to) = List.length (take size_ uids)) as Hsize by (by apply clone_size).
  pose proof (persist_spec (List.length (take size_ uids)) part n (list_to_map entries0 ∪ m0)) as I.
  destruct (eval clock (list_to_map entries0 ∪ m0) _) as [m1 [[k1 err1] n1]].
  destruct I as [N1 I]; [by rewrite Hsize|by eapply fresh_added|]. destruct err1 as [e|].
  { destruct I as [-> ->]. rewrite app_nil_r, eval_delete_all. cbn. apply fold_delete_added. by eapply added_absent. }
  destruct I as (e1 & -> & -> & A1 & _). rewrite <- fmap_app.
  assert (added r size_ n n1 (map (entry_of r) (take size_ uids)) e1) as B1.
  { apply (added_weaken r part _ (size part.(to)) _ _ _ (map_to_list part.(to))); [done|done| | |by apply clone_entries|done];
      rewrite Hsize, length_take; lia. }
  assert (list_to_map e1 ∪ (list_to_map entries0 ∪ m0) = list_to_map (entries0 ++ e1) ∪ m0) as -> by (by eapply added_maps).
  pose proof (IH (drop size_ uids) n1 (l0 ++ map (entry_of r) (take size_ uids))%list (entries0 ++ e1)%list) as I.
  rewrite length_drop in I. specialize (I ltac:(lia) Hs ltac:(lia) Hn2 Hf (added_app _ _ _ _ _ _ _ _ _ Ha B1)).
  by rewrite <- app_assoc, <- map_app, take_drop in I.
Qed.

Lemma added_nothing r bound n : added r bound n n [] [].
Proof. split; [lia|]. split; [constructor|]. split; [constructor|]. by exists []. Qed.

(** Enqueueing is all or nothing on a node alone: with an error the cache is what it was; without one, there are new jobs, each
    for a part of the receipt that fits a database value and has at most the configured number of recipients, with the
    receipt's channel and payload, and every recipient of the receipt is in exactly one of them. *)
Theorem enqueue_all_or_nothing r n (m : gmap string V) :
  provider <> "" -> fresh m n ->
  let '(m', (err, n')) := eval clock m (enqueue r n) in
  match err with
  | Some _ => m' = m
  | None => exists entries, m' = list_to_map entries ∪ m /\ Forall (fun k => m !! k = None) entries.*1 /\
      added r (chunk_size config) n n' (map_to_list r.(to)) entries /\
      (entries = [] -> r.(to) = ∅ /\ r.(channel) = "")
  end.
Proof.
  intros Hp Hf. unfold Enqueue. destruct (String.eqb_spec provider ""); [done|].
  destruct (Nat.eqb_spec (size r.(to)) 0) as [H0|H0]; cbn [andb].
  - assert (r.(to) = ∅) as Ht by (by apply map_size_empty_iff). destruct (String.eqb_spec r.(channel) "") as [Hc|Hc].
    + cbn. exists []. split; [by rewrite list_to_map_nil, map_empty_union|]. split; [done|]. rewrite Ht, map_to_list_empty.
      split; [apply added_nothing|done].
    + rewrite eval_pbind. pose proof (persist_spec 0 (cloneReceiptForUsers r []) n m) as I.
      destruct (eval clock m _) as [m1 [[k1 err1] n1]]. destruct I as [N1 I]; [by cbn|done|]. cbn [eval]. destruct err1 as [e|]; [by destruct I|].
      destruct I as (e1 & -> & -> & A1 & Z1). exists e1. split; [done|]. split; [by eapply added_absent|].
      assert (size (cloneReceiptForUsers r []).(to) = 0%nat) as Hz by (by rewrite clone_size by constructor).
      split; [|by intros]. eapply (added_weaken r (cloneReceiptForUsers r [])); [done|done|lia| | |exact A1]; [lia|]. by rewrite Ht.
  - pose proof (chunks_spec (size r.(to)) (chunk_size config) r (recipients r) n m n [] []) as I.
    cbn [fmap list_fmap] in I. rewrite list_to_map_nil, map_empty_union, recipients_length in I.
    destruct (eval clock m _) as [m' [err n']]. specialize (I ltac:(lia)).
    assert (0 < chunk_size config)%nat as Hcs by (unfold chunk_size; destruct (Z.leb_spec (RecipientChunk config) 0); lia).
    specialize (I Hcs ltac:(lia) (recipients_nodup r) Hf (added_nothing r _ n)). destruct err as [e|]; [done|].
    destruct I as (entries & -> & A). exists entries. split; [done|]. split; [by eapply added_absent|].
    assert (added r (chunk_size config) n n' (map_to_list (to r)) entries) as B.
    { eapply (added_weaken r r); [done|done|lia| | |exact A]; [lia|]. apply recipients_entries. }
    split; [done|]. intros ->. exfalso. destruct B as (_ & _ & _ & parts & F & J). apply Forall2_nil_inv_l in F as ->. cbn in J.
    apply Permutation_nil in J. rewrite <- length_map_to_list in H0. by rewrite J in H0.
Qed.
End Putting.

(** ** Receipts and their durable copies *)

Definition real_uid (u : Uid) : Prop := (u <> 0 /\ u < 2 ^ 64)%N.

Lemma unmarshal_string u : real_uid u -> UidUnmarshalText ZeroUid (UidString u) = (u, None).
Proof. intros [H1 H2]. rewrite UidString_nonzero by done. by apply UidUnmarshalText_encode. Qed.

Lemma runtime_to_list (l : list (Uid * Recipient)) :
  Forall (fun x => real_uid x.1) l -> runtime_to (map (fun x => (UidString x.1, x.2)) l) = inl (list_to_map l).
Proof.
  induction 1 as [|[u x] l Hu Hl IH]; [done|]. cbn [map runtime_to fst snd]. rewrite unmarshal_string by done.
  destruct Hu as [Hu _]. apply N.eqb_neq in Hu. unfold IsZeroUid, ZeroUid. cbn in Hu |- *. by rewrite Hu, IH.
Qed.

Lemma UidString_inj u v : real_uid u -> real_uid v -> UidString u = UidString v -> u = v.
Proof. intros Hu Hv E. pose proof (unmarshal_string u Hu) as H1. rewrite E, unmarshal_string in H1 by done. congruence. Qed.

(** The receipt a job holds is the receipt that was enqueued, for every recipient with a real identifier, but for the flag
    that only the sending node needs. *)
Theorem durable_receipt_roundtrip r :
  (forall u, is_Some (r.(to) !! u) -> real_uid u) ->
  runtimeReceipt (newDurableReceipt r) = inl (mkPushReceipt (stored_recipient <$> r.(to)) r.(channel) r.(payload)).
Proof.
  intros Hr. unfold runtimeReceipt, newDurableReceipt. cbn [dr_To dr_Channel dr_Payload].
  set (l := map (fun x => (x.1, stored_recipient x.2)) (map_to_list r.(to))).
  set (f := fun x : Uid * Recipient => (UidString x.1, x.2)).
  assert (Forall (fun x => real_uid x.1) l) as Hl.
  { apply List.Forall_forall. intros x ([u y] & <- & Hy)%in_map_iff. apply Hr. apply list_elem_of_In, elem_of_map_to_list in Hy. eauto. }
  assert (NoDup l.*1) as Hn.
  { unfold l. change (NoDup (map fst (map (fun x => (x.1, stored_recipient x.2)) (map_to_list (to r))))). rewrite map_map.
    apply NoDup_fst_map_to_list. }
  assert (NoDup (map f l).*1) as Hnf.
  { clear -Hl Hn. induction l as [|[u x] l IH]; [constructor|]. apply NoDup_cons in Hn as [Hu Hn]. apply Forall_cons in Hl as [Hux Hl].
    cbn. apply NoDup_cons. split; [|by apply IH]. intros ([k y] & E & Hin)%list_elem_of_fmap. cbn in E. subst k.
    apply list_elem_of_In, in_map_iff in Hin as ([v z] & [= E <-] & Hin). apply Hu.
    rewrite List.Forall_forall in Hl. apply UidString_inj in E; [|by apply (Hl (v, z))|done]. subst v.
    apply list_elem_of_fmap. exists (u, z). split; [done|]. by apply list_elem_of_In. }
  replace (map (fun x => (UidString x.1, stored_recipient x.2)) (map_to_list (to r))) with (map f l) by (unfold l, f; by rewrite map_map).
  pose proof (map_to_list_to_map (M := gmap string) (map f l) Hnf) as Hp.
  apply Permutation_map_inv in Hp as (l' & E & Hp). rewrite E.
  assert (Forall (fun x => real_uid x.1) l') as Hl' by (by rewrite <- Hp). unfold f.
  rewrite (runtime_to_list l' Hl').
  f_equal. f_equal. rewrite <- (list_to_map_proper l l') by done.
  transitivity (stored_recipient <$> (list_to_map (map_to_list (to r)) : gmap Uid Recipient)); [|by rewrite list_to_map_to_list].
  rewrite <- (list_to_map_fmap stored_recipient). done.
Qed.

Lemma durable_receipt_roundtrip_witness :
  runtimeReceipt (newDurableReceipt sample_push) = inl sample_push.
Proof.
  assert (forall u, is_Some (to sample_push !! u) -> real_uid u) as Hr.
  { intros u [x Hx]. cbn in Hx. apply lookup_singleton_Some in Hx as [<- _]. by split. }
  rewrite (durable_receipt_roundtrip sample_push Hr). cbn [to channel payload sample_push]. by rewrite map_fmap_singleton.
Defined.

(** Three recipients, at most two in a job. *)
Definition three : PushReceipt :=
  mkPushReceipt {[ 2%N := mkRecipient 0 [] 0 false; 3%N := mkRecipient 1 [] 0 false; 4%N := mkRecipient 0 [] 0 true ]} "" sample_receipt.(dr_Payload).
Definition two_each : durableOutboxConfig := mkOutboxConfig 100 2 8 second (60 * second) (300 * second).
Definition enqueue_three : gmap string durableOutboxJob * (option GoError * nat) :=
  eval 100 ∅ (Enqueue Some (fun _ => 1) pretty "fcm" two_each three 0).

Lemma enqueue_all_or_nothing_witness :
  enqueue_three.2.1 = None /\ size enqueue_three.1 = 2%nat /\
  exists entries, enqueue_three.1 = list_to_map entries ∪ ∅ /\
    added Some (fun _ => 1) pretty "fcm" 100 three 2 0 enqueue_three.2.2 (map_to_list three.(to)) entries.
Proof.
  split; [by vm_compute|]. split; [by vm_compute|].
  assert (forall a b : nat, pretty a = pretty b -> a = b) as Hi by (intros a b; apply inj, _).
  assert (fresh (V := durableOutboxJob) pretty "fcm" 100 ∅ 0) as Hf by (intros i _; apply lookup_empty).
  pose proof (enqueue_all_or_nothing Some (fun _ => 1) pretty "fcm" two_each 100 Hi three 0 ∅ ltac:(done) Hf) as I.
  change (eval 100 ∅ _) with enqueue_three in I. assert (enqueue_three.2.1 = None) as E by (by vm_compute).
  destruct enqueue_three as [m' [err n']]. cbn in E. subst err. destruct I as (entries & H1 & _ & H2 & _). exists entries. by split.
Defined.
