(* ===== verification/FanoutProps.v ===== *)
(** * FanoutProps: who is sent a message, and in which form

    [broadcastToSessions] prepares one copy of a message for all members of a group and one for all its channel
    readers.  Here it is compared with a copy for each session, and what reaches whom is stated. *)

From Stdlib Require Import NArith ZArith Lia List Ascii String Bool.
From stdpp Require Import base tactics numbers list strings gmap sets.
From S2P Require Import Prelude AccessMode Uid StoreTypes Fence Cluster Drafty Messages SubStore PCache PubStore Topic.
From S2P Require Import TopicSub TopicSubProps OfficialGov Publish Notes PublishSample.
Import Objects.
Import Topic.

#[local] Open Scope string_scope.
#[local] Open Scope Z_scope.

(** The copy for one session, made for it alone. *)
Definition own_copy (t : Topic) (msg : ServerComMessage) (pssd : perSessionData) : option ServerComMessage :=
  with_payload msg <$> prepareBroadcastableMessage t msg.(s_Payload) pssd.(ps_uid) pssd.(isChanSub).

(** Nobody's session joined a channel as a member while the user is its reader. *)
Definition flags_agree (t : Topic) : Prop :=
  forall k s p, t.(t_sessions) !! k = Some (s, p) -> p.(isChanSub) = false -> (user t p.(ps_uid)).(pud_isChan) = false.

Section Fanout.
Context {St : Type} `{Store : PubStore St}.
Context (queue_full : string -> bool) (joined : string -> string -> bool) (sessionStore : string -> option Session).
Context (unregisterSession : Session -> M (St := St) unit).
Context (t : Topic) (msg : ServerComMessage).

Abbreviation passed := (passed_over joined sessionStore t msg).

(** What each session is sent, in the order of the loop. *)
Definition deliveries (ss : list (string * (Session * perSessionData))) : list Effect :=
  omap (fun x : string * (Session * perSessionData) =>
    let '(_, (s, p)) := x in
    if passed s p || queue_full (sid s) then None else SendTo (sid s) <$> own_copy t msg p) ss.

Definition dropped (ss : list (string * (Session * perSessionData))) : list Session :=
  omap (fun x : string * (Session * perSessionData) =>
    let '(_, (s, p)) := x in if negb (passed s p) && queue_full (sid s) then Some s else None) ss.

(** The copies kept so far are what every session of their kind would get. *)
Definition shared_ok (v : option ServerComMessage * option ServerComMessage) : Prop :=
  forall p m, (p.(isChanSub) = false -> (user t p.(ps_uid)).(pud_isChan) = false) ->
    (if p.(isChanSub) then snd v else fst v) = Some m -> own_copy t msg p = Some m.

Lemma own_copy_shared p p' :
  cat_eqb t.(t_cat) TopicCatGrp = true -> p.(isChanSub) = p'.(isChanSub) ->
  (p.(isChanSub) = false -> (user t p.(ps_uid)).(pud_isChan) = false) ->
  (p'.(isChanSub) = false -> (user t p'.(ps_uid)).(pud_isChan) = false) ->
  own_copy t msg p = own_copy t msg p'.
Proof.
  intros Hg E H1 H2. unfold own_copy, prepareBroadcastableMessage, original. rewrite <- E in *.
  destruct (t_cat t); try done. cbn. destruct (t_isChan t); cbn; [|done].
  destruct (isChanSub p); [done|]. by rewrite H1, H2.
Qed.

Lemma copy_for_own s p v m :
  shared_ok v -> (p.(isChanSub) = false -> (user t p.(ps_uid)).(pud_isChan) = false) ->
  own_copy t msg p = Some m -> exists v', copy_for t msg s p v = Some (m, v') /\ shared_ok v'.
Proof.
  intros Hv Hp Eo. unfold copy_for. fold (own_copy t msg p). rewrite Eo.
  destruct (cat_eqb (t_cat t) TopicCatGrp) eqn:Hg; cbn [andb]; [|by exists v].
  destruct (negb _ && negb _); [|by exists v].
  destruct (if isChanSub p then v.2 else v.1) as [m0|] eqn:Ev.
  { exists v. split; [|done]. apply Hv in Ev; [|done]. congruence. }
  eexists. split; [reflexivity|].
  intros p' m' Hp' Em. destruct (isChanSub p) eqn:Ep, (isChanSub p') eqn:Ep'; cbn in Em.
  all: try (apply Hv; [by rewrite Ep'|by rewrite Ep']).
  all: injection Em as <-; rewrite <- Eo; apply own_copy_shared; congruence || (rewrite ?Ep, ?Ep'; auto).
Qed.

Definition ready (x : string * (Session * perSessionData)) : Prop :=
  let '(_, (s, p)) := x in
  (p.(isChanSub) = false -> (user t p.(ps_uid)).(pud_isChan) = false) /\ (passed s p = false -> own_copy t msg p <> None).

Lemma broadcast_loop_spec ss v (w : World St) :
  Forall ready ss -> shared_ok v ->
  broadcast_loop queue_full joined sessionStore t msg ss v w =
  (mkWorld w.(w_topic) w.(w_store) (rev (deliveries ss) ++ w.(w_out))%list, Ret (dropped ss)).
Proof.
  intros Hs. revert v w. induction Hs as [|[k [s p]] ss [Hp Ho] _ IH]; intros v w Hv; cbn [broadcast_loop]; [by destruct w|].
  unfold deliveries, dropped. cbn [omap list_omap]. destruct (passed s p) eqn:Ep; cbn [orb negb andb]; [by apply IH|].
  destruct (own_copy t msg p) as [m|] eqn:Eo; [|by destruct Ho].
  destruct (copy_for_own s p v m Hv Hp Eo) as (v' & Ec & Hv'). unfold bind at 1. rewrite Ec. cbn [lift_option ret fst snd].
  unfold bind. destruct (queue_full (sid s)); cbn [ret emit]; rewrite (IH _ _ Hv'); cbn; [done|]. by rewrite <- app_assoc.
Qed.
End Fanout.

(** C7: Where no session joined a group as a member whose user the topic has as a channel reader ([flags_agree]): the sessions
    a message is meant for and whose queue takes it get, each once and in the order of the loop, the copy made for them alone,
    so that sharing one copy among the members of a group and one among its channel readers changes nothing; the sessions whose
    queue is full are dropped, in that order, after everybody has been served.  ([readers_joined_as_members] shows that the
    condition is needed.) *)
Theorem broadcast_shares_faithfully {St : Type} `{Store : PubStore St} queue_full joined sessionStore
    (unregisterSession : Session -> M (St := St) unit) msg (w : World St) :
  let t := w.(w_topic) in
  let ss := map_to_list t.(t_sessions) in
  flags_agree t ->
  (forall k s p, t.(t_sessions) !! k = Some (s, p) -> passed_over joined sessionStore t msg s p = false -> own_copy t msg p <> None) ->
  broadcastToSessions queue_full joined sessionStore unregisterSession msg w =
  for_sessions unregisterSession (dropped queue_full joined sessionStore t msg ss)
    (mkWorld t w.(w_store) (rev (deliveries queue_full joined sessionStore t msg ss) ++ w.(w_out))%list).
Proof.
  cbv zeta. intros Hf Ho. unfold broadcastToSessions. unfold bind at 1, get_topic at 1. unfold bind. rewrite broadcast_loop_spec; [done| |].
  - apply Forall_forall. intros [k [s p]] Hin%elem_of_map_to_list. split; [by eapply Hf|by eapply Ho].
  - by intros p m _; destruct (isChanSub p).
Qed.

(** What is true of any copy of a {data} message that members, or channel readers, get. *)
Definition data_copy (d : MsgServerData) (rcpt skip : string) (chan : bool) (m : ServerComMessage) : Prop :=
  m.(s_RcptTo) = rcpt /\ m.(s_SkipSid) = skip /\
  exists d', m.(s_Payload) = Data d' /\ d'.(d_SeqId) = d.(d_SeqId) /\ d'.(d_Content) = d.(d_Content) /\ d'.(d_Head) = d.(d_Head) /\
    d'.(d_From) = (if chan then "" else d.(d_From)).

Section Data.
Context {St : Type} `{Store : PubStore St}.
Context (queue_full : string -> bool) (joined : string -> string -> bool) (sessionStore : string -> option Session).
Context (unregisterSession : Session -> M (St := St) unit).
Context (t : Topic) (d : MsgServerData) (rcpt skip : string).
Abbreviation msg := (mkServerMsg (Data d) rcpt skip) (only parsing).

Lemma own_copy_data p m : own_copy t msg p = Some m -> data_copy d rcpt skip p.(isChanSub) m.
Proof.
  unfold own_copy. destruct (prepareBroadcastableMessage _ _ _ _) as [pl|] eqn:Epl; [|done]. intros [= <-].
  split; [done|]. split; [done|]. cbn [s_Payload with_payload]. unfold prepareBroadcastableMessage in Epl. cbn [s_Payload] in Epl.
  destruct (_ || _) in Epl; [destruct (isChanSub p) eqn:Ei; [|destruct (original t (ps_uid p)); [|done]]|];
    injection Epl as <-; destruct (isChanSub p); try done; eexists; split; reflexivity || by repeat split.
Qed.

Definition shared_data (v : option ServerComMessage * option ServerComMessage) : Prop :=
  (forall m, fst v = Some m -> data_copy d rcpt skip false m) /\ (forall m, snd v = Some m -> data_copy d rcpt skip true m).

Lemma copy_for_data s p v m v' : shared_data v -> copy_for t msg s p v = Some (m, v') -> data_copy d rcpt skip p.(isChanSub) m /\ shared_data v'.
Proof.
  intros [H1 H2]. unfold copy_for. fold (own_copy t msg p). pose proof (own_copy_data p) as Ho.
  destruct (cat_eqb _ _ && _ && _).
  - destruct (if isChanSub p then v.2 else v.1) as [m0|] eqn:Ev.
    { intros [= <- <-]. split; [|done]. destruct (isChanSub p); auto. }
    intros (x & Ex & E)%fmap_Some. injection E as -> ->. specialize (Ho _ Ex). split; [done|].
    destruct (isChanSub p); split; cbn; try done; by intros ? [= <-].
  - intros (x & Ex & E)%fmap_Some. injection E as -> ->. split; [by apply Ho|done].
Qed.

(** Who may be sent a copy, and which. *)
Definition meant (e : Effect) : Prop := exists k s p m, e = SendTo (sid s) m /\ t.(t_sessions) !! k = Some (s, p) /\
  (isMultiplex s = false -> sid s <> skip /\ (userIsReader t p.(ps_uid) = true \/ p.(isChanSub) = true)) /\
  data_copy d rcpt skip p.(isChanSub) m.

Lemma broadcast_loop_data ss v (w w' : World St) r :
  (forall k s p, In (k, (s, p)) ss -> t.(t_sessions) !! k = Some (s, p)) -> shared_data v ->
  broadcast_loop queue_full joined sessionStore t msg ss v w = (w', r) ->
  forall e, In e w'.(w_out) -> In e w.(w_out) \/ meant e.
Proof.
  revert v w w' r. induction ss as [|[k [s p]] ss IH]; intros v w w' r Hin Hv; cbn [broadcast_loop]; [intros [= <- _]; auto|].
  assert (forall k s p, In (k, (s, p)) ss -> t_sessions t !! k = Some (s, p)) as Hin' by (intros; apply Hin; by right).
  destruct (passed_over _ _ _ _ s p) eqn:Ep; [by apply IH|].
  unfold bind at 1, lift_option. destruct (copy_for t msg s p v) as [[m v']|] eqn:Ec; [|intros [= <- _]; auto].
  apply copy_for_data in Ec as [Hm Hv']; [|done]. cbn [ret fst snd]. intros E e He. unfold bind in E.
  assert (meant (SendTo (sid s) m)) as Hs.
  { exists k, s, p, m. split; [done|]. split; [apply Hin; by left|]. split; [|done]. intros Hx. unfold passed_over in Ep. rewrite Hx in Ep.
    cbn in Ep. apply orb_false_iff in Ep as [E1%String.eqb_neq E2]. split; [done|]. destruct (userIsReader t (ps_uid p)); [by left|].
    right. by destruct (isChanSub p). }
  destruct (queue_full (sid s)); cbn [ret emit] in E;
    match type of E with context [broadcast_loop ?q ?j ?st t ?m0 ss v' ?wx] => destruct (broadcast_loop q j st t m0 ss v' wx) as [w1 r1] eqn:E1 end;
    pose proof (IH _ _ _ _ Hin' Hv' E1 e) as Hl; cbn [w_out] in Hl; destruct r1; injection E as <- _; (destruct (Hl He) as [Hl'|]; [|by right]); auto.
  all: destruct Hl' as [<-|]; auto.
Qed.
End Data.

(** C8: Of what broadcasting a {data} message sends, whatever dropping sessions sends besides ([X]): it goes, of the sessions of
    clients, only to those of users who may read the topic and those of channel readers, never to the one it echoes; everybody
    gets the position, the content and the header, members who sent it, and channel readers not. *)
Theorem data_reaches_readers_only {St : Type} `{Store : PubStore St} queue_full joined sessionStore
    (unregisterSession : Session -> M (St := St) unit) (X : Effect -> Prop) d rcpt skip (w w' : World St) r :
  (forall s, frame (fun w w' => forall e, In e w'.(w_out) -> In e w.(w_out) \/ X e) (unregisterSession s)) ->
  broadcastToSessions queue_full joined sessionStore unregisterSession (mkServerMsg (Data d) rcpt skip) w = (w', r) ->
  forall e, In e w'.(w_out) -> In e w.(w_out) \/ X e \/ meant w.(w_topic) d rcpt skip e.
Proof.
  intros HX E e He. unfold broadcastToSessions in E. unfold bind at 1, get_topic at 1 in E. unfold bind in E.
  destruct (broadcast_loop _ _ _ _ _ _ _ w) as [w1 r1] eqn:E1.
  assert (forall e, In e w1.(w_out) -> In e w.(w_out) \/ meant w.(w_topic) d rcpt skip e) as Hl.
  { intros e0. eapply broadcast_loop_data; [| |exact E1]; [|by split]. intros k s p Hk. by apply elem_of_map_to_list, list_elem_of_In. }
  enough (In e w1.(w_out) \/ X e) as [H0|H0]; [destruct (Hl e H0); auto|auto|].
  destruct r1 as [ss|e1|p]; [|injection E as <- _; by left|injection E as <- _; by left]. clear E1 Hl. revert w1 E. induction ss as [|s ss IH]; intros w1 E; [injection E as <- _; auto|].
  cbn [for_sessions] in E. unfold bind in E. pose proof (HX s w1) as Hx. destruct (unregisterSession s w1) as [w2 [[]|e2|p2]]; cbn [fst] in Hx;
    [|injection E as <- _; by apply Hx|injection E as <- _; by apply Hx]. destruct (IH w2 E); auto.
Qed.

(** ** Witnesses: a channel with its owner, a member and two readers *)

Definition reader_of (name : string) (u : Uid) : Session * perSessionData := (session name u, mkPsd u true []).
Definition channel_topic : Topic :=
  mkTopic "grpA" "grpA" TopicCatGrp true 1 ModeCPublic 0 10 3 1 "" None 0
    (<[7%N := with_isChan (with_modes pud0 ModeCChnReader ModeCChnReader) true]> sample_perUser) 0 0
    {[ "s1" := joined_as (session "s1" 1); "s3" := joined_as (session "s3" 3); "s7" := reader_of "s7" 7; "s8" := reader_of "s8" 8 ]}
    ∅ 0 0 None ∅ ∅ false None.
Definition channel_data : ServerComMessage :=
  mkServerMsg (Data (mkData "grpA" (UserId 1) "c" 5 None None 11 "text" 0 None "" [] None (AStr "hi"))) "grpA" "s1".
Definition channel_deliveries (full : string -> bool) : list Effect :=
  deliveries full (fun _ _ => false) (fun _ => None) channel_topic channel_data (map_to_list channel_topic.(t_sessions)).

Lemma channel_sessions k s p : channel_topic.(t_sessions) !! k = Some (s, p) ->
  (s, p) = reader_of "s7" 7 \/ (s, p) = joined_as (session "s3" 3) \/ (s, p) = joined_as (session "s1" 1) \/ (s, p) = reader_of "s8" 8.
Proof.
  intros Hin%elem_of_map_to_list%list_elem_of_In. revert Hin.
  assert (map_to_list (t_sessions channel_topic) =
    [("s7", reader_of "s7" 7); ("s3", joined_as (session "s3" 3)); ("s1", joined_as (session "s1" 1)); ("s8", reader_of "s8" 8)]) as ->
    by (vm_compute; reflexivity).
  cbn [In]. intros [E|[E|[E|[E|[]]]]]; injection E; intros; subst; auto.
Qed.

Lemma channel_topic_ready :
  flags_agree channel_topic /\
  forall k s p, channel_topic.(t_sessions) !! k = Some (s, p) ->
    passed_over (fun _ _ => false) (fun _ => None) channel_topic channel_data s p = false -> own_copy channel_topic channel_data p <> None.
Proof. split; intros k s p [[= -> ->]|[[= -> ->]|[[= -> ->]|[= -> ->]]]]%channel_sessions; vm_compute; done. Qed.

Lemma broadcast_shares_faithfully_witness :
  (broadcastToSessions (fun _ => false) (fun _ _ => false) (fun _ => None) (fun _ => ret tt) channel_data
     (mkWorld channel_topic (chat_store []) [])).1.(w_out) = rev (channel_deliveries (fun _ => false)) /\
  List.length (channel_deliveries (fun _ => false)) = 3%nat.
Proof.
  split; [|vm_compute; reflexivity].
  pose proof (broadcast_shares_faithfully (fun _ => false) (fun _ _ => false) (fun _ => None) (fun _ => ret tt) channel_data
    (mkWorld channel_topic (chat_store []) []) (proj1 channel_topic_ready) (proj2 channel_topic_ready)) as E.
  cbv zeta in E. rewrite E. vm_compute. reflexivity.
Defined.

Lemma data_reaches_readers_only_witness :
  exists m, data_copy (mkData "grpA" (UserId 1) "c" 5 None None 11 "text" 0 None "" [] None (AStr "hi")) "grpA" "s1" true m /\
  In (SendTo "s7" m) (broadcastToSessions (fun _ => false) (fun _ _ => false) (fun _ => None) (fun _ => ret tt) channel_data
     (mkWorld channel_topic (chat_store []) [])).1.(w_out).
Proof.
  set (run := broadcastToSessions (fun _ => false) (fun _ _ => false) (fun _ => None) (fun _ => ret tt) channel_data
     (mkWorld channel_topic (chat_store []) [])).
  assert (In (SendTo "s7" (mkServerMsg (Data (mkData "chnA" "" "c" 5 None None 11 "text" 0 None "" [] None (AStr "hi"))) "grpA" "s1")) run.1.(w_out)) as Hin
    by (vm_compute; tauto).
  destruct (data_reaches_readers_only (St := PubMem) (fun _ => false) (fun _ _ => false) (fun _ => None) (fun _ => ret tt) (fun _ => False)
    (mkData "grpA" (UserId 1) "c" 5 None None 11 "text" 0 None "" [] None (AStr "hi")) "grpA" "s1"
    (mkWorld channel_topic (chat_store []) []) run.1 run.2) with (e := SendTo "s7" (mkServerMsg (Data (mkData "chnA" "" "c" 5 None None 11 "text" 0 None "" [] None (AStr "hi"))) "grpA" "s1"))
    as [[]|[[]|(k & s & p & m & [= Hsid <-] & Hs & _ & Hd)]].
  - intros s w e He. by left.
  - vm_compute. reflexivity.
  - exact Hin.
  - eexists. split; [|exact Hin]. destruct (channel_sessions _ _ _ Hs) as [[= -> ->]|[[= -> ->]|[[= -> ->]|[= -> ->]]]]; try discriminate Hsid. exact Hd.
Defined.

(** A reader of the channel whose session "s8" joined under the group's name: the first of the two sessions that come to be
    served decides under which name both see the message. *)
Definition mixed_topic : Topic :=
  mkTopic "grpA" "grpA" TopicCatGrp true 1 ModeCPublic 0 10 3 1 "" None 0
    (<[7%N := with_isChan (with_modes pud0 ModeCChnReader ModeCChnReader) true]> sample_perUser) 0 0
    {[ "s3" := joined_as (session "s3" 3); "s7" := (session "s7" 7, mkPsd 7 false []) ]} ∅ 0 0 None ∅ ∅ false None.
Lemma readers_joined_as_members :
  ~ flags_agree mixed_topic /\
  (broadcastToSessions (fun _ => false) (fun _ _ => false) (fun _ => None) (fun _ => ret tt) channel_data
     (mkWorld mixed_topic (chat_store []) [])).1.(w_out) <>
  rev (deliveries (fun _ => false) (fun _ _ => false) (fun _ => None) mixed_topic channel_data (map_to_list mixed_topic.(t_sessions))).
Proof.
  split.
  - intros H. specialize (H "s7" (session "s7" 7) (mkPsd 7 false []) eq_refl eq_refl). vm_compute in H. discriminate.
  - vm_compute. discriminate.
Qed.
