(* ===== verification/NotesProps.v ===== *)
(** * NotesProps: properties of reactions, pins and receipts

    What [Notes] does to the store and to the topic.  Sessions are dropped by a broadcast only when their queue is
    full; the properties of reactions and pins are about runs in which none is, that of receipts allows for it. *)

From Stdlib Require Import NArith ZArith Lia List Ascii String Bool.
From stdpp Require Import base tactics numbers list strings gmap sets.
From S2P Require Import Prelude AccessMode Uid StoreTypes Fence Cluster Drafty Messages SubStore PCache PubStore Topic.
From S2P Require Import TopicSub TopicSubProps TopicSelfProps OfficialGov Publish Notes PublishSample PublishProps Interactions.
Import Objects.
Import Topic.

#[local] Open Scope string_scope.
#[local] Open Scope Z_scope.

(** Neither the topic nor the store changes. *)
Definition same_world {St} (w w' : World St) : Prop := w'.(w_topic) = w.(w_topic) /\ w'.(w_store) = w.(w_store).
#[global] Instance same_world_preorder {St} : PreOrder (same_world (St := St)).
Proof. split; [done|]. intros a b c [T1 S1] [T2 S2]. split; congruence. Qed.

(** The message of a position found in the log. *)
Definition found {St} `{PubStoreLaws St} (w : World St) (seq : Z) : option (Uid * Message) :=
  List.find (at_seq w.(w_topic).(t_name) seq) (stored w.(w_store)).

Section Notes.
Context {St : Type} `{Laws : PubStoreLaws St}.
Context (now : Z) (cluster : option Cluster).
Context (moderation_parse : string -> option officialModerationState) (clusters : string -> list string)
  (sortSlice : list span -> list span) (nfkc : string -> string).
Context (queue_full : string -> bool) (joined : string -> string -> bool) (sessionStore : string -> option Session).
Context (unregisterSession : Session -> M (St := St) unit) (handleCallEvent : ClientComMessage -> M (St := St) unit).
Context (Hq : forall s, queue_full s = false).

Abbreviation broadcast := (broadcastToSessions queue_full joined sessionStore unregisterSession).
Abbreviation react := (reactToMessage now clusters sortSlice nfkc queue_full joined sessionStore unregisterSession).
Abbreviation pin := (pinMessage now queue_full joined sessionStore unregisterSession).

Lemma emit_same_world e : frame same_world (emit (St := St) e). Proof. by intros w. Qed.
Lemma queueOut_same_world s r : frame same_world (queueOut (St := St) s r). Proof. by intros w. Qed.
#[local] Hint Resolve emit_same_world queueOut_same_world : handlers.
Lemma reply_same_world msg c : frame same_world (reply (St := St) msg c). Proof. unfold reply. handler. Qed.
#[local] Hint Resolve reply_same_world : handlers.
Lemma answer_same_world msg (m : M (St := St) unit) : frame same_world m -> frame same_world (when_asked msg m).
Proof. intros Hm. unfold when_asked, when. handler. Qed.

Lemma broadcast_same_world msg : frame same_world (broadcast msg).
Proof.
  intros w. unfold broadcastToSessions. apply (rel_bind same_world); [done|]. intros w1 t _.
  apply (rel_bind same_world).
  - generalize (None : option ServerComMessage, None : option ServerComMessage). revert w1.
    induction (map_to_list _) as [|[k [s p]] ss IH]; intros w1 v; simpl; [done|]. destruct (passed_over _ _ _ _ _ _); [apply IH|].
    apply (rel_bind same_world); [by destruct (copy_for _ _ _ _ _)|]. intros w2 c _. apply (rel_bind same_world); [by destruct (queue_full _)|].
    intros w3 _ _. apply (rel_bind same_world); [apply IH|done].
  - intros w2 ds E. by apply no_drops in E as ->.
Qed.
#[local] Hint Resolve broadcast_same_world answer_same_world : handlers.

Lemma info_same_world msg note what : frame same_world (broadcastMessageInfo queue_full joined sessionStore unregisterSession msg note what).
Proof. apply broadcast_same_world. Qed.
#[local] Hint Resolve info_same_world : handlers.

(** *** Updating a message in place *)

Lemma at_seq_update topic seq new r : at_seq topic seq (update_at new r) = at_seq topic seq r.
Proof. unfold update_at. by destruct (at_seq (m_Topic new) (m_SeqId new) r). Qed.

Lemma find_update topic seq new l :
  List.find (at_seq topic seq) (map (update_at new) l) = update_at new <$> List.find (at_seq topic seq) l.
Proof. induction l as [|r l IH]; [done|]. simpl. rewrite at_seq_update. by destruct (at_seq topic seq r). Qed.

Lemma fetch_found seq (w w' : World St) o :
  fetch (message_get w.(w_topic).(t_name) seq) w = (w', Ret o) ->
  w'.(w_topic) = w.(w_topic) /\ stored w'.(w_store) = stored w.(w_store) /\ o = found w seq.
Proof.
  intros [E ->]%fetch_ret. destruct (law_message_get (t_name (w_topic w)) seq (w_store w)) as [L1 L2]. cbn.
  split; [done|]. split; [done|]. by apply L2.
Qed.

Lemma Messages_Update_ret m (w w' : World St) :
  Messages_Update now clusters sortSlice nfkc m w = (w', Ret tt) ->
  w'.(w_topic) = w.(w_topic) /\ exists at_ text,
    stored w'.(w_store) = map (update_at (mkMessage m.(m_SeqId) m.(m_Topic) m.(m_From) m.(m_ClientId) m.(m_ClientKey)
      m.(m_ClusterId) m.(m_ClusterEpoch) m.(m_ClusterOwner) m.(m_CreatedAt) at_ m.(m_DeletedAt) m.(m_DelId) m.(m_Head) m.(m_Content) text))
      (stored w.(w_store)).
Proof.
  unfold Messages_Update. intros (w1 & text & E1 & E)%bind_ret_inv. assert (w1 = w) as -> by (by destruct (SearchText _ _ _ _); injection E1).
  destruct text as [text|]; [|done]. set (m1 := mkMessage _ _ _ _ _ _ _ _ _ _ _ _ _ _ _) in E. unfold checked, bind, call in E.
  pose proof (law_message_update m1 (w_store w)) as L. cbv zeta in L. destruct (message_update m1 (w_store w)) as [s [e|]]; [done|].
  injection E as <-. split; [done|]. by exists (if m_UpdatedAt m =? 0 then now else m_UpdatedAt m), text.
Qed.

(** Every row but the one at the position stays. *)
Definition others_kept (topic : string) (seq : Z) (l l' : list (Uid * Message)) : Prop :=
  Forall2 (fun a b => at_seq topic seq a = false -> b = a) l l'.

Lemma others_kept_refl topic seq l : others_kept topic seq l l.
Proof. unfold others_kept. induction l; by constructor. Qed.

Lemma update_found seq new id target (w w' : World St) :
  found w seq = Some (id, target) -> w'.(w_topic).(t_name) = w.(w_topic).(t_name) ->
  new.(m_Topic) = target.(m_Topic) -> new.(m_SeqId) = target.(m_SeqId) ->
  stored w'.(w_store) = map (update_at new) (stored w.(w_store)) ->
  found w' seq = Some (id, updated_message new target) /\
  others_kept w.(w_topic).(t_name) seq (stored w.(w_store)) (stored w'.(w_store)).
Proof.
  unfold found. intros F Hn Ht Hs ->. rewrite Hn, find_update, F. apply find_some in F as [_ F].
  pose proof F as F'. unfold at_seq in F'. apply andb_true_iff in F' as [F' _]. apply andb_true_iff in F' as [E1%String.eqb_eq E2%Z.eqb_eq].
  cbn in E1, E2. split.
  - cbn [fmap option_fmap option_map]. unfold update_at. rewrite Ht, Hs, E1, E2, F. done.
  - unfold others_kept. induction (stored (w_store w)) as [|a l IH]; simpl; constructor; [|exact IH].
    intros Ha. unfold update_at. by rewrite Ht, Hs, E1, E2, Ha.
Qed.

(** *** Reactions *)

(** What a reaction leaves of the message it is about. *)
Definition only_reactions (a b : Message) : Prop :=
  b.(m_SeqId) = a.(m_SeqId) /\ b.(m_Topic) = a.(m_Topic) /\ b.(m_From) = a.(m_From) /\ b.(m_ClientId) = a.(m_ClientId) /\
  b.(m_CreatedAt) = a.(m_CreatedAt) /\ b.(m_DelId) = a.(m_DelId) /\ b.(m_Content) = a.(m_Content) /\
  forall k, k <> headReactions -> head_get b.(m_Head) k = head_get a.(m_Head) k.

(** A reaction that succeeds records what it asks for: afterwards the sender is among the users of that
    reaction to the message, or is not when it is withdrawn, and everybody else's reactions are as before; repeating it changes
    nothing more.  The list stays well-formed, at most twenty reactions with their users once each.  Nothing else of the message
    and no other message changes. *)
Theorem reaction_recorded msg note u (w w' : World St) :
  react msg note u w = (w', Ret tt) ->
  let reaction := TrimSpace note.(n_Reaction) in
  exists id target target', found w note.(n_SeqId) = Some (id, target) /\ found w' note.(n_SeqId) = Some (id, target') /\
    only_reactions target target' /\
    others_kept w.(w_topic).(t_name) note.(n_SeqId) (stored w.(w_store)) (stored w'.(w_store)) /\
    (reactions_wf (messageReactions target.(m_Head)) ->
       reactions_wf (messageReactions target'.(m_Head)) /\
       forall r v, reacted (messageReactions target'.(m_Head)) r v <->
         (if String.eqb r reaction && String.eqb v (UserId u) then note.(n_Remove) = false
          else reacted (messageReactions target.(m_Head)) r v)).
Proof.
  cbv zeta. unfold reactToMessage. destruct (_ || negb (valid_utf8 _)); [done|]. unfold bind at 1, get_topic at 1.
  intros (w1 & o & E1 & E)%bind_ret_inv. apply fetch_found in E1 as (T1 & S1 & ->).
  destruct (found w (n_SeqId note)) as [[id target]|] eqn:F; [|done].
  destruct (change_reaction _ _ _ _) as [[l' changed]|e] eqn:Ech; [|done].
  apply bind_ret_inv in E as (w2 & [] & E2 & E).
  match type of E with ?x w2 = _ => assert (frame same_world x) as Fx by (unfold when; handler) end.
  specialize (Fx w2). rewrite E in Fx. destruct Fx as [T3 S3]. cbn in T3, S3.
  destruct changed; cbn [when] in E2.
  - apply Messages_Update_ret in E2 as (T2 & at_ & text & S2). cbn in S2.
    eapply (update_found _ _ id target w w') in F as F'; [|congruence| | |rewrite S3, S2, S1; reflexivity]; [|done|done].
    destruct F' as [F' Ho]. exists id, target. eexists. split; [done|]. split; [exact F'|].
    split; [|split; [exact Ho|]].
    + repeat split; try done. intros k Hk. cbn [updated_message m_Head]. rewrite head_get_set. by apply String.eqb_neq in Hk as ->.
    + intros Hwf. cbn [updated_message m_Head]. rewrite reactions_roundtrip. by eapply change_reaction_sound.
  - injection E2 as <-. exists id, target, target. split; [done|]. split; [unfold found in *; congruence|]. split; [done|].
    split; [rewrite S3, S1; apply others_kept_refl|]. intros Hwf. split; [done|].
    assert (l' = messageReactions (m_Head target)) as -> by (by eapply change_reaction_unchanged).
    by eapply change_reaction_sound.
Qed.

(** *** Pins *)

(** A pin that succeeds was asked for by an administrator, or by a side of a two-party topic, who is no channel
    reader, and names a message that exists.  Pinning puts it among the topic's pins, never more than a hundred and each once,
    and drops none below the limit; withdrawing removes exactly it.  The other auxiliary data and the messages stay. *)
Theorem pin_recorded msg note u (w w' : World St) :
  pins_wf (topicPins w.(w_topic).(aux)) -> pin msg note u w = (w', Ret tt) ->
  let p := user w.(w_topic) u in
  p.(pud_isChan) = false /\ (IsAdmin (p.(modeGiven) &. p.(modeWant)) = true \/ w.(w_topic).(t_cat) = TopicCatP2P) /\
  found w note.(n_SeqId) <> None /\
  pins_wf (topicPins w'.(w_topic).(aux)) /\
  pins_step (topicPins w.(w_topic).(aux)) note.(n_SeqId) note.(n_Remove) (topicPins w'.(w_topic).(aux)) /\
  (forall k, k <> topicPinsKey -> head_get w'.(w_topic).(aux) k = head_get w.(w_topic).(aux) k) /\
  log_same w w'.
Proof.
  intros Hwf. cbv zeta. unfold pinMessage. unfold bind at 1, get_topic at 1. cbv zeta.
  destruct (pud_isChan _); [done|]. cbn [orb]. destruct (negb (IsAdmin _) && negb (cat_eqb _ _)) eqn:Ea; [done|].
  destruct (Z.leb_spec (n_SeqId note) 0) as [|Hpos]; [done|].
  intros (w1 & o & E1 & E)%bind_ret_inv. apply fetch_found in E1 as (T1 & S1 & ->).
  destruct (found w (n_SeqId note)) as [r|] eqn:F; [|done].
  destruct (change_pins _ _ _) as [l' changed] eqn:Ech. pose proof (change_pins_sound _ _ _ _ _ Hwf Hpos Ech) as (Hwf' & Hstep & Hsame).
  apply bind_ret_inv in E as (w2 & [] & E2 & E).
  match type of E with ?x w2 = _ => assert (frame same_world x) as Fx by (unfold when; handler) end.
  specialize (Fx w2). rewrite E in Fx. destruct Fx as [T3 S3]. cbn in T3, S3.
  assert (topicPins (aux (w_topic w')) = l' /\ (forall k, k <> topicPinsKey -> head_get (aux (w_topic w')) k = head_get (aux (w_topic w)) k) /\
    log_same w w') as (-> & Hk & Hl).
  { unfold log_same, log_of. rewrite T3, S3. destruct changed; cbn [when] in E2.
    - apply bind_ret_inv in E2 as (w4 & [] & E4 & E2). unfold checked, bind, call in E4.
      pose proof (law_aux (t_name (w_topic w)) (head_set (aux (w_topic w)) topicPinsKey (AList (map AInt l'))) now (w_store w1)) as La.
      destruct (update_aux _ _ _ _) as [s [e|]]; [done|]. injection E4 as <-. injection E2 as <-. cbn [fst snd w_topic w_store set_aux aux] in La |- *.
      split; [apply pins_roundtrip, Hwf'|]. split; [|rewrite La, S1; unfold core; cbn; by rewrite T1].
      intros k Hk. rewrite head_get_set. by apply String.eqb_neq in Hk as ->.
    - injection E2 as <-. rewrite T1, S1. by rewrite Hsame. }
  split; [done|]. split; [|split; [by destruct r|]].
  - destruct (IsAdmin _); [by left|]. right. cbn in Ea. destruct (cat_eqb _ _) eqn:Ec; [|done]. by destruct (t_cat (w_topic w)).
  - split; [done|]. split; [done|]. by split.
Qed.

End Notes.

(** ** Receipts *)

Section Receipts.
Context {St : Type} `{Laws : PubStoreLaws St}.
Context (now : Z) (cluster : option Cluster).
Context (moderation_parse : string -> option officialModerationState) (clusters : string -> list string)
  (sortSlice : list span -> list span) (nfkc : string -> string).
Context (queue_full : string -> bool) (joined : string -> string -> bool) (sessionStore : string -> option Session).
Context (unregisterSession : Session -> M (St := St) unit) (handleCallEvent : ClientComMessage -> M (St := St) unit).

Abbreviation broadcast := (broadcastToSessions queue_full joined sessionStore unregisterSession).
#[local] Hint Resolve emit_same_world queueOut_same_world reply_same_world answer_same_world : handlers.

Abbreviation on_note := (handleNoteBroadcast now cluster moderation_parse clusters sortSlice nfkc queue_full joined sessionStore
  unregisterSession handleCallEvent).

(** The same topic and store, but for what dropping the sessions whose queue was full does afterwards. *)
Definition up_to_drops (w w' : World St) : Prop :=
  same_world w w' \/
  exists w1 ds, same_world w w1 /\ ds <> [] /\ List.Forall (fun s => queue_full (sid s) = true) ds /\
    w' = (for_sessions unregisterSession ds w1).1.

Lemma drops_after w w1 w' : same_world w w1 -> up_to_drops w1 w' -> up_to_drops w w'.
Proof.
  intros H1 [H2|(w2 & ds & H2 & Hd)]; [left; by etransitivity|right]. exists w2, ds. split; [by etransitivity|done].
Qed.

Lemma dropped_full t msg ss : forall v (w w' : World St) ds,
  broadcast_loop queue_full joined sessionStore t msg ss v w = (w', Ret ds) -> List.Forall (fun s => queue_full (sid s) = true) ds.
Proof.
  induction ss as [|[k [s p]] ss IH]; intros v w w' ds; simpl; [by intros [= _ <-]; constructor|].
  destruct (passed_over _ _ _ _ _ _); [apply IH|]. intros (w1 & c & _ & E)%bind_ret_inv.
  apply bind_ret_inv in E as (w2 & [] & _ & E). apply bind_ret_inv in E as (w3 & d & E1 & E2). apply IH in E1.
  destruct (queue_full (sid s)) eqn:Ef; injection E2 as _ <-; [by constructor|done].
Qed.

Lemma broadcast_loop_same_world t msg ss : forall v, frame same_world (broadcast_loop (St := St) queue_full joined sessionStore t msg ss v).
Proof.
  induction ss as [|[k [s p]] ss IH]; intros v w1; simpl; [done|]. destruct (passed_over _ _ _ _ _ _); [apply IH|].
  apply (rel_bind same_world); [by destruct (copy_for _ _ _ _ _)|]. intros w2 c _. apply (rel_bind same_world); [by destruct (queue_full _)|].
  intros w3 _ _. apply (rel_bind same_world); [apply IH|done].
Qed.

Lemma broadcast_up_to_drops msg (w w' : World St) r : broadcast msg w = (w', r) -> up_to_drops w w'.
Proof.
  unfold broadcastToSessions. unfold bind at 1, get_topic at 1. unfold bind at 1.
  destruct (broadcast_loop _ _ _ _ _ _ _ w) as [w1 [ds|e|x]] eqn:El;
    pose proof (broadcast_loop_same_world (w_topic w) msg (map_to_list (t_sessions (w_topic w))) (None, None) w) as F; rewrite El in F; cbn in F;
    [|by intros [= <- _]; left..].
  intros E. destruct ds as [|s ds]; [injection E as <- _; by left|]. right. exists w1, (s :: ds). apply dropped_full in El. by rewrite E.
Qed.

Lemma then_broadcast (m : M (St := St) unit) msg (w w' : World St) r :
  frame same_world m -> (m ;;; broadcast msg) w = (w', r) -> up_to_drops w w'.
Proof.
  intros Hm. unfold bind. specialize (Hm w). destruct (m w) as [w1 [[]|e|x]]; [|by intros [= <- _]; left..].
  intros E. eapply drops_after; [exact Hm|]. by eapply broadcast_up_to_drops.
Qed.

Lemma emit_all_same_world es : frame same_world (emit_all (St := St) es).
Proof. induction es as [|e es IH]; [by intros ?|]. cbn. handler. Qed.

(** Computations that always come to a result. *)
Definition returns {A} (m : M (St := St) A) : Prop := forall w, exists w' a, m w = (w', Ret a).
Lemma returns_ret {A} (a : A) : returns (ret a). Proof. intros w. by eexists _, _. Qed.
Lemma returns_emit e : returns (emit e). Proof. intros w. by eexists _, _. Qed.
Lemma returns_bind {A B} (m : M (St := St) A) (k : A -> M (St := St) B) : returns m -> (forall a, returns (k a)) -> returns (bind m k).
Proof. intros Hm Hk w. unfold bind. destruct (Hm w) as (w1 & a & ->). apply Hk. Qed.
Lemma returns_when b (m : M (St := St) unit) : returns m -> returns (when b m).
Proof. intros Hm. destruct b; [done|apply returns_ret]. Qed.
Lemma returns_emit_all es : returns (emit_all es).
Proof. induction es as [|e es IH]; simpl; [apply returns_ret|]. apply returns_bind; [apply returns_emit|by intros []]. Qed.
Lemma returns_answer msg c : returns (when_asked msg (reply (St := St) msg c)).
Proof. apply returns_when. unfold reply. destruct (c_sess msg); [apply returns_emit|apply returns_ret]. Qed.
Lemma quiet_then {A B} (m : M (St := St) A) (k : A -> M (St := St) B) (w w' : World St) b :
  bind m k w = (w', b) -> frame same_world m -> returns m -> exists w1, same_world w w1 /\ exists a, k a w1 = (w', b).
Proof.
  unfold bind. intros E Hm Hr. specialize (Hm w). destruct (Hr w) as (w1 & a & Ea). rewrite Ea in *. exists w1. split; [done|]. by exists a.
Qed.
#[local] Hint Resolve returns_ret returns_emit returns_when returns_emit_all returns_answer : handlers.

(** The positions of [p'] are at least those of [p], within [last] if those of [p] were; nothing else but the history differs. *)
Definition advances (last : Z) (p p' : perUserData) : Prop :=
  p.(readID) <= p'.(readID) /\ p.(recvID) <= p'.(recvID) /\ (p.(readID) < p'.(readID) \/ p.(recvID) < p'.(recvID)) /\
  (p.(readID) <= last -> p'.(readID) <= last) /\ (p.(readID) <= last -> p.(recvID) <= last -> p'.(recvID) <= last) /\
  (p.(readID) <= p.(recvID) -> p'.(readID) <= p'.(recvID)) /\
  p' = with_positions p p'.(recvID) p'.(readID) p'.(readHistory).

Lemma receive_note_advances t asChan p what seq r last :
  seq <= last -> contains ["read"; "recv"] what = true -> receive_note now t asChan p what seq = Some r -> advances last p r.(re_pud).
Proof.
  intros Hs Hw. unfold receive_note. destruct (String.eqb_spec what "read") as [->|Hr].
  - destruct (Z.leb_spec seq (readID p)); [done|]. intros [= <-]. cbn. unfold advances. cbn.
    destruct (Z.ltb_spec (recvID p) seq); repeat split; try lia; by destruct p.
  - destruct (String.eqb_spec what "recv") as [->|Hr2].
    + destruct (Z.leb_spec seq (recvID p)); [done|]. intros [= <-]. cbn. unfold advances. cbn.
      destruct (Z.ltb_spec seq (readID p)); repeat split; try lia; by destruct p.
    + cbn in Hw. apply String.eqb_neq in Hr, Hr2. by rewrite Hr, Hr2 in Hw.
Qed.

(** Whether the note is one of the member [u] who may read. *)
Definition may_receipt (t : Topic) (u : Uid) : bool :=
  negb (user t u).(deleted) && IsReader ((user t u).(modeGiven) &. (user t u).(modeWant)).

(** The row a receipt leaves: the position it is about, and the history where one is kept. *)
Definition receipt_row (what : string) (keeps : bool) (p : perUserData) : Subscription -> Subscription :=
  updated_row (if String.eqb what "read"
               then mkUpdate None None None None (Some p.(readID)) None (if keeps then Some p.(readHistory) else None)
               else mkUpdate None None None None None (Some p.(recvID)) None).

Definition keeps_history (t : Topic) : bool := cat_eqb t.(t_cat) TopicCatGrp && negb t.(t_isChan).

(** In [w'] the row of [u] under [topic] has the receipt's position, and no other row has changed. *)
Definition rows_after_receipt (w w' : World St) (topic : string) (u : Uid) (what : string) (keeps : bool) (p : perUserData) : Prop :=
  forall t' u', row w'.(w_store) t' u' =
    if bool_decide (t' = topic /\ (u' = u \/ u = ZeroUid))
    then receipt_row what keeps p <$> row w.(w_store) t' u' else row w.(w_store) t' u'.

(** The store's part: the topic stays, and either the row is written or nothing is. *)
Lemma record_receipt_same msg note u asChan mode r (w w' : World St) b :
  record_receipt cluster msg note u asChan mode r w = (w', b) -> w'.(w_topic) = w.(w_topic) /\
  ((b = Ret true /\ forall t' u', row w'.(w_store) t' u' =
    if bool_decide (t' = (if asChan then note.(n_Topic) else w.(w_topic).(t_name)) /\ (u' = u \/ u = ZeroUid))
    then updated_row (mkUpdate None None None None (if 0 <? r.(re_read) then Some r.(re_read) else None)
           (if 0 <? r.(re_recv) then Some r.(re_recv) else None)
           (if (0 <? r.(re_read)) && (keeps_history w.(w_topic) && negb asChan) then Some r.(re_pud).(readHistory) else None)) <$> row w.(w_store) t' u'
    else row w.(w_store) t' u') \/
   (b = Ret false /\ same_rows w w')).
Proof.
  unfold record_receipt. unfold bind at 1, get_topic at 1. cbv zeta. unfold bind at 1, call at 1.
  set (upd := mkUpdate _ _ _ _ _ _ _). set (topic := if asChan then _ else _).
  pose proof (law_update topic u upd (w_store w)) as L.
  destruct (subs_update topic u upd (w_store w)) as [s [e|]]; cbn [fst snd] in L; intros E.
  - apply quiet_then in E as (w1 & [E1 E2] & [] & [= <- <-]); [|solve [handler]|solve [auto with handlers]]. split; [done|]. right.
    split; [done|]. intros t' u'. by rewrite E2, L.
  - apply quiet_then in E as (w1 & [T1 S1] & [] & E); [|unfold presPubMessageCount; destruct (0 <? re_read r), (0 <? re_recv r); unfold when; solve [handler]|
      unfold presPubMessageCount; destruct (0 <? re_read r), (0 <? re_recv r); solve [auto with handlers]].
    apply quiet_then in E as (w2 & [T2 S2] & [] & E); [|apply when_frame; [apply _|apply emit_all_same_world]|solve [auto with handlers]].
    apply quiet_then in E as (w3 & [T3 S3] & [] & E); [|unfold usersUpdateUnread, when; solve [handler]|unfold usersUpdateUnread; solve [auto with handlers]].
    apply quiet_then in E as (w4 & [T4 S4] & [] & [= <- <-]); [|solve [handler]|solve [auto with handlers]].
    split; [by rewrite T4, T3, T2, T1|]. left. split; [done|]. intros t' u'. rewrite S4, S3, S2, S1. cbn [w_store]. rewrite (L t' u').
    unfold upd, topic, keeps_history. done.
Qed.

Lemma receipt_row_of t asChan p what seq x keeps :
  receive_note now t asChan p what seq = Some x -> 0 < x.(re_seq) ->
  mkUpdate None None None None (if 0 <? x.(re_read) then Some x.(re_read) else None)
    (if 0 <? x.(re_recv) then Some x.(re_recv) else None) (if (0 <? x.(re_read)) && keeps then Some x.(re_pud).(readHistory) else None) =
  (if String.eqb what "read"
   then mkUpdate None None None None (Some x.(re_pud).(readID)) None (if keeps then Some x.(re_pud).(readHistory) else None)
   else mkUpdate None None None None None (Some x.(re_pud).(recvID)) None).
Proof.
  unfold receive_note. destruct (String.eqb what "read"); [|destruct (String.eqb what "recv")].
  - destruct (seq <=? readID p); [done|]. intros [= <-]. cbn. intros Hs. by destruct (Z.ltb_spec 0 seq); [|lia].
  - destruct (seq <=? recvID p); [done|]. intros [= <-]. cbn. intros Hs. by destruct (Z.ltb_spec 0 (if seq <? readID p then readID p else seq)); [|lia].
  - by intros [= <-].
Qed.

(** What a receipt does to the topic and to the rows: nothing; or, of a member, it moves the cached and the stored position; or,
    under the name of the channel, the stored one alone. *)
Definition receipt_effect (msg : ClientComMessage) (note : MsgClientNote) (w w' : World St) : Prop :=
  let t := w.(w_topic) in let u := ParseUserId msg.(c_AsUser) in let asChan := (verifyChannelAccess t msg.(c_Original)).1 in
  (same_topic w w' /\ same_rows w w') \/
  exists p', may_receipt t u = true /\ note.(n_SeqId) <= t.(lastID) /\ advances t.(lastID) (user t u) p' /\
    if asChan : bool then same_topic w w' /\ rows_after_receipt w w' note.(n_Topic) u note.(n_What) false p'
    else w'.(w_topic) = put_user t u p' /\ rows_after_receipt w w' t.(t_name) u note.(n_What) (keeps_history t) p'.

Lemma same_receipt msg note w w1 : same_world w w1 -> receipt_effect msg note w w1.
Proof. intros [Ht Hs]. left. split; [done|]. intros t' u'. by rewrite Hs. Qed.

Lemma receipt_run msg note u asChan mode (w w' : World St) r :
  u = ParseUserId msg.(c_AsUser) -> asChan = (verifyChannelAccess (w_topic w) msg.(c_Original)).1 ->
  contains ["read"; "recv"] note.(n_What) = true -> may_receipt (w_topic w) u = true -> note.(n_SeqId) <= (w_topic w).(lastID) ->
  receipt now cluster queue_full joined sessionStore unregisterSession msg note u asChan (user (w_topic w) u) mode w = (w', r) ->
  exists w1, receipt_effect msg note w w1 /\ up_to_drops w1 w'.
Proof.
  intros Hu Hc Hwhat Hmay Hseq. unfold receipt. unfold bind at 1, get_topic at 1.
  destruct (receive_note now (w_topic w) asChan (user (w_topic w) u) (n_What note) (n_SeqId note)) as [x|] eqn:Ex.
  2: { intros E. match type of E with ?m w = _ => assert (frame same_world m) as F by handler end.
       specialize (F w). rewrite E in F. exists w'. split; [by apply same_receipt|by left]. }
  pose proof (receive_note_advances _ _ _ _ _ _ _ Hseq Hwhat Ex) as Hadv.
  unfold bind at 1. destruct (Z.ltb_spec 0 (re_seq x)) as [Hpos|_].
  - destruct (record_receipt cluster msg note u asChan _ x w) as [w1 b] eqn:E1.
    apply record_receipt_same in E1 as [T1 [[-> R1]|[-> R1]]]; cbn [negb orb].
    2: { intros [= <- _]. exists w1. split; [left; split; [done|exact R1]|by left]. }
    destruct asChan.
    + intros [= <- _]. exists w1. split; [right|by left]. exists (re_pud x). rewrite <- Hu, <- Hc. do 3 (split; [done|]). split; [done|].
      intros t' u'. rewrite R1, andb_false_r. unfold receipt_row. by rewrite (receipt_row_of _ _ _ _ _ _ false Ex Hpos).
    + cbn [when]. unfold bind at 1, modify at 1, bind at 1, get_topic at 1, set_topic at 1. rewrite T1. intros E.
      exists (mkWorld (put_user (w_topic w) u (re_pud x)) (w_store w1) (w_out w1)). split.
      * right. exists (re_pud x). rewrite <- Hu, <- Hc. do 3 (split; [done|]). split; [done|].
        intros t' u'. cbn [w_store]. rewrite R1, andb_true_r. unfold receipt_row. by rewrite (receipt_row_of _ _ _ _ _ _ (keeps_history (w_topic w)) Ex Hpos).
      * by eapply then_broadcast; [|exact E].
  - cbn [ret]. intros E. exists w. split; [by apply same_receipt|]. destruct asChan; cbn [negb orb] in E; [by injection E as <- _; left|].
    cbn [when] in E. unfold bind at 1, ret at 1 in E. by eapply then_broadcast; [|exact E].
Qed.

(** C31: A read or delivery receipt moves only the sender's own positions, only forward from the cached ones, never past the topic's last
    message, and keeps "read" at most "delivered"; only a reader's does.  Of a member, the cached entry moves and the stored row gets
    the position the receipt is about.  Of a reader who uses the channel's name, that row alone is written and the cached entry stays
    behind, so that a later receipt can be of a smaller position than the stored one.  In every other case, a failing store included,
    neither the topic nor any row changes.  All this up to what dropping the sessions whose queue is full does after the broadcast. *)
Theorem receipts_monotone msg note (w w' : World St) r :
  contains ["read"; "recv"] note.(n_What) = true -> on_note msg note w = (w', r) ->
  exists w1, receipt_effect msg note w w1 /\ up_to_drops w1 w'.
Proof.
  intros Hwhat. unfold handleNoteBroadcast. unfold bind at 1, get_topic at 1.
  assert (forall c, answer msg c w = (w', r) -> exists w1, receipt_effect msg note w w1 /\ up_to_drops w1 w') as Hans.
  { intros c E. assert (frame same_world (answer (St := St) msg c)) as F by (unfold answer; handler).
    specialize (F w). rewrite E in F. exists w'. split; [by apply same_receipt|by left]. }
  destruct (isInactive _); [apply Hans|]. destruct (Z.ltb_spec (lastID (w_topic w)) (n_SeqId note)) as [|Hseq]; [apply Hans|].
  destruct (verifyChannelAccess _ _) as [asChan [e|]] eqn:Ec; [apply Hans|].
  set (u := ParseUserId (c_AsUser msg)).
  assert (String.eqb (n_What note) "pin" = false /\ contains typing (n_What note) = false /\
    String.eqb (n_What note) "read" || String.eqb (n_What note) "recv" = true) as (-> & -> & ->).
  { unfold contains in Hwhat. cbn in Hwhat. destruct (String.eqb_spec (n_What note) "read") as [->|]; [done|].
    destruct (String.eqb_spec (n_What note) "recv") as [->|]; done. }
  unfold bind at 1, ret at 1, bind at 1, get_topic at 1.
  destruct (negb (IsReader _)) eqn:Er; [apply Hans|].
  apply receipt_run; [done|by rewrite Ec|done| |done].
  unfold may_receipt. fold u in Er. destruct (deleted (user (w_topic w) u)); [by vm_compute in Er|]. by apply negb_false_iff in Er.
Qed.
End Receipts.

(** ** Witnesses: notes about the message 10 of [chat_topic] *)

Definition note_of (what reaction : string) : MsgClientNote := mkNote "grpA" what 10 "" ANil reaction false.
Definition react_run : World PubMem * Res unit :=
  reactToMessage (St := PubMem) 100 byte_clusters sort_spans (fun s => s) (fun _ => false) (fun _ _ => false) (fun _ => None) (fun _ => ret tt)
    (note_request "s2" 2 (note_of "react" "+1")) (note_of "react" "+1") 2 (chat []).

Lemma reaction_recorded_witness :
  exists id target', found react_run.1 10 = Some (id, target') /\ reacted (messageReactions target'.(m_Head)) "+1" (UserId 2).
Proof.
  destruct (reaction_recorded (St := PubMem) 100 byte_clusters sort_spans (fun s => s) (fun _ => false) (fun _ _ => false) (fun _ => None)
    (fun _ => ret tt) (fun _ => eq_refl) (note_request "s2" 2 (note_of "react" "+1")) (note_of "react" "+1") 2 (chat []) react_run.1)
    as (id & target & target' & F & F' & _ & _ & Hr).
  - vm_compute. reflexivity.
  - exists id, target'. split; [exact F'|]. vm_compute in F. injection F as <- <-. apply Hr; [|reflexivity].
    split; [constructor|]. split; [constructor|]. apply Nat.le_0_l.
Defined.

Definition pin_run : World PubMem * Res unit :=
  pinMessage (St := PubMem) 100 (fun _ => false) (fun _ _ => false) (fun _ => None) (fun _ => ret tt)
    (note_request "s2" 2 (note_of "pin" "")) (note_of "pin" "") 2 (chat []).

Lemma pin_recorded_witness : In 10 (topicPins pin_run.1.(w_topic).(aux)) /\ log_same (chat []) pin_run.1.
Proof.
  assert (pins_wf (topicPins (chat []).(w_topic).(aux))) as Hwf by (split; [constructor|split; [apply Nat.le_0_l|constructor]]).
  destruct (pin_recorded (St := PubMem) 100 (fun _ => false) (fun _ _ => false) (fun _ => None) (fun _ => ret tt) (fun _ => eq_refl)
    (note_request "s2" 2 (note_of "pin" "")) (note_of "pin" "") 2 (chat []) pin_run.1 Hwf) as (_ & _ & _ & _ & Hs & _ & Hl).
  - vm_compute. reflexivity.
  - split; [exact (proj1 Hs)|exact Hl].
Defined.

Definition read_run : World PubMem * Res unit := run_note 100 (fun _ => false) (note_request "s3" 3 (note_of "read" "")) (note_of "read" "") (chat []).

Lemma receipts_monotone_witness :
  (user read_run.1.(w_topic) 3).(readID) = 10 /\
  exists w1, receipt_effect (note_request "s3" 3 (note_of "read" "")) (note_of "read" "") (chat []) w1 /\
    up_to_drops (fun _ => false) (fun _ => ret tt) w1 read_run.1.
Proof.
  split; [vm_compute; reflexivity|].
  apply (receipts_monotone (St := PubMem) 100 None no_moderation byte_clusters sort_spans (fun s => s) (fun _ => false) (fun _ _ => false)
    (fun _ => None) (fun _ => ret tt) (fun _ => ret tt) (note_request "s3" 3 (note_of "read" "")) (note_of "read" "")
    (chat []) read_run.1 read_run.2).
  - reflexivity.
  - apply surjective_pairing.
Defined.

(** A channel with the reader [3], who has read nothing yet. *)
Definition channel_chat : World PubMem :=
  mkWorld (set_sessions channel_topic chat_topic.(t_sessions))
    (mkPubMem channel_store (pm_db (chat_store [])) [] 60 ∅ [] ∅ [] []) [].
Definition reader_note (seq : Z) : MsgClientNote := mkNote "chnA" "read" seq "" ANil "" false.
Definition reader_reads (seq : Z) (w : World PubMem) : World PubMem * Res unit :=
  run_note 100 (fun _ => false)
    (mkClientMsg "1" "chnA" "grpA" (UserId 3) 5 (Some (session "s3" 3)) None (Some (reader_note seq)) None None) (reader_note seq) w.
Definition position_of (w : World PubMem) : option Z := s_ReadSeqId <$> live (row w.(w_store) "chnA" 3).

(** A channel reader's stored position moves back: the cached one, which a receipt is compared with, never moves. *)
Lemma reader_position_moves_back :
  let w1 := (reader_reads 10 channel_chat).1 in let w2 := (reader_reads 5 w1).1 in
  position_of channel_chat = Some 0 /\ position_of w1 = Some 10 /\ position_of w2 = Some 5 /\
  (user w2.(w_topic) 3).(readID) = 0.
Proof. vm_compute. done. Qed.
