(* ===== verification/EditProps.v ===== *)
(** * EditProps: properties of editing, and runs of publishing that surprise

    What [editMessage] may change and who may do it, then closed runs of [Publish] on [chat_topic] in
    which the code does not do what its comments and its other paths say. *)

From Stdlib Require Import NArith ZArith Lia List Ascii String Bool.
From stdpp Require Import base tactics numbers list strings gmap sets.
From S2P Require Import Prelude AccessMode Uid StoreTypes Fence Cluster Drafty Messages SubStore PCache PubStore Topic.
From S2P Require Import TopicSub TopicSubProps OfficialGov Publish Notes PublishSample PublishProps Interactions NotesProps.
Import Objects.
Import Topic.

#[local] Open Scope string_scope.
#[local] Open Scope Z_scope.

(** ** The header of an edited message *)

Lemma get_fold_delete keys m k : In k keys -> get (fold_left map_delete keys m) k = None.
Proof.
  revert m. induction keys as [|key keys IH]; intros m; [done|]. cbn [fold_left]. intros [->|Hin]; [|by apply IH].
  clear IH. assert (get (map_delete m k) k = None) as E by (by rewrite get_map_delete, String.eqb_refl).
  revert E. generalize (map_delete m k). induction keys as [|key keys IH]; intros m' E; [done|]. cbn [fold_left]. apply IH.
  rewrite get_map_delete. by destruct (String.eqb k key).
Qed.

Lemma strip_no_server head k : In k serverHeads -> head_get (stripServerMessageHead head) k = ANil.
Proof.
  intros Hk. unfold stripServerMessageHead. destruct (cloneHead head) as [m|]; [|done].
  pose proof (get_fold_delete serverHeads m k Hk) as E. destruct (fold_left map_delete serverHeads m); [done|].
  unfold head_get. by rewrite E.
Qed.

Lemma get_fold_set m base k : get m k = None ->
  get (fold_left (fun h kv => map_set h (fst kv) (snd kv)) m base) k = get base k.
Proof.
  revert base. induction m as [|[k0 x] m IH]; intros base; [done|]. rewrite get_cons. destruct (String.eqb_spec k0 k) as [|Hne]; [done|].
  intros E. cbn [fold_left]. rewrite IH by done. rewrite get_map_set. cbn [fst snd]. destruct (String.eqb_spec k k0); [congruence|done].
Qed.

Lemma cloneHead_get head k : head_get (cloneHead head) k = head_get head k.
Proof. by destruct head as [[|]|]. Qed.

Lemma get_in m k x : get m k = Some x -> In k (map fst m).
Proof.
  unfold get. destruct (List.find _ m) as [[k' y]|] eqn:E; [|done]. intros _. apply find_some in E as [Hin Ek]. cbn in Ek.
  apply String.eqb_eq in Ek as <-. by apply (in_map fst) in Hin.
Qed.

Lemma map_delete_nodup m key : NoDup (map fst m) -> NoDup (map fst (map_delete m key)).
Proof.
  induction m as [|[k x] m IH]; [done|]. cbn [map fst]. intros [Hk Hn]%NoDup_cons. unfold map_delete in *. cbn [List.filter fst].
  destruct (negb _); cbn [map fst]; [|by apply IH]. constructor; [|by apply IH]. intros Hin. apply Hk.
  apply list_elem_of_In in Hin. apply in_map_iff in Hin as (y & <- & Hy). apply filter_In in Hy as [Hy _].
  apply list_elem_of_In. by apply in_map.
Qed.

(** What a header without entries of the server's adds to another one. *)
Lemma get_fold_set_all m base k : NoDup (map fst m) ->
  get (fold_left (fun h kv => map_set h (fst kv) (snd kv)) m base) k = match get m k with Some x => Some x | None => get base k end.
Proof.
  revert base. induction m as [|[k0 x] m IH]; intros base Hn; [done|]. cbn [map fst] in Hn. apply NoDup_cons in Hn as [Hk Hn].
  cbn [fold_left fst snd]. rewrite IH, get_cons, get_map_set by done. rewrite (String.eqb_sym k k0).
  destruct (String.eqb_spec k0 k) as [->|]; [|done]. destruct (get m k) eqn:E; [|done]. exfalso. apply Hk.
  apply get_in in E. by apply list_elem_of_In.
Qed.

Lemma get_fold_delete_other keys m k : ~ In k keys -> get (fold_left map_delete keys m) k = get m k.
Proof.
  revert m. induction keys as [|key keys IH]; intros m Hk; [done|]. cbn [fold_left]. rewrite IH by (intros ?; apply Hk; by right).
  rewrite get_map_delete. destruct (String.eqb_spec k key) as [->|]; [|done]. exfalso. apply Hk. by left.
Qed.

Lemma fold_delete_nodup keys m : NoDup (map fst m) -> NoDup (map fst (fold_left map_delete keys m)).
Proof.
  revert m. induction keys as [|key keys IH]; intros m Hm; [done|]. cbn [fold_left]. apply IH. by apply map_delete_nodup.
Qed.

(** What the client's header gives an edited message: every entry that is not the server's. *)
Lemma edited_head_client old pub kind k :
  NoDup (map fst (default [] pub)) -> ~ In k serverHeads ->
  head_get (edited_head old pub kind) k = match get (default [] pub) k with Some x => x | None => head_get old k end.
Proof.
  intros Hn Hk. unfold edited_head, head_get at 1. rewrite get_map_set.
  destruct (String.eqb_spec k headMessageKind) as [->|_]; [exfalso; apply Hk; by left|].
  assert (default [] (stripServerMessageHead pub) = fold_left map_delete serverHeads (default [] pub)) as ->.
  { unfold stripServerMessageHead. destruct pub as [[|x l]|]; try done. cbn [cloneHead default]. by destruct (fold_left _ _ _). }
  rewrite get_fold_set_all by by apply fold_delete_nodup. rewrite get_fold_delete_other by done.
  destruct (get (default [] pub) k); [done|]. rewrite <- (cloneHead_get old). by destruct (cloneHead old).
Qed.

(** The entries the server keeps survive an edit, but for the kind. *)
Lemma edited_head_server old pub kind k :
  In k serverHeads -> k <> headMessageKind -> head_get (edited_head old pub kind) k = head_get old k.
Proof.
  intros Hk Hne. unfold edited_head, head_get at 1. rewrite get_map_set. destruct (String.eqb_spec k headMessageKind); [done|].
  rewrite get_fold_set.
  - rewrite <- (cloneHead_get old). by destruct (cloneHead old).
  - unfold stripServerMessageHead. destruct (cloneHead pub) as [m|]; [|done].
    pose proof (get_fold_delete serverHeads m k Hk) as E. by destruct (fold_left map_delete serverHeads m).
Qed.

(** ** Editing *)

Section Edit.
Context {St : Type} `{Laws : PubStoreLaws St}.
Context (now : Z) (businessPolicy : bool).
Context (time_text : Z -> string) (time_parse : string -> option Z) (moderation_parse : string -> option officialModerationState).
Context (clusters : string -> list string) (sortSlice : list span -> list span) (nfkc : string -> string).
Context (queue_full : string -> bool) (joined : string -> string -> bool) (sessionStore : string -> option Session).
Context (unregisterSession : Session -> M (St := St) unit).

Abbreviation edit := (editMessage now businessPolicy time_text time_parse moderation_parse clusters sortSlice nfkc queue_full joined
  sessionStore unregisterSession).

(** Who may edit the message [m]. *)
Definition may_edit (t : Topic) (u : Uid) (m : Message) : Prop :=
  let p := user t u in
  p.(pud_isChan) = false /\
  (IsAdmin (p.(modeGiven) &. p.(modeWant)) = true \/
   (ParseUid m.(m_From) = u /\ IsWriter (p.(modeGiven) &. p.(modeWant)) = true)).

(** The entries of a header that the server wrote when the message was published or reacted to, and that an edit keeps: what it
    replies to, where it was forwarded from, its group, the reactions.  (The name of who really sent it is not among them.) *)
Definition kept_entries : list string := ["x-reply"; "x-forward"; "x-group"; "x-reactions"].

(** The message after the edit [pub] at the time [now]. *)
Definition edited (pub : MsgClientPub) (a b : Message) : Prop :=
  b.(m_SeqId) = a.(m_SeqId) /\ b.(m_Topic) = a.(m_Topic) /\ b.(m_From) = a.(m_From) /\ b.(m_ClientId) = a.(m_ClientId) /\
  b.(m_CreatedAt) = a.(m_CreatedAt) /\ b.(m_DelId) = a.(m_DelId) /\ b.(m_Content) = pub.(p_Content) /\
  head_get b.(m_Head) "x-edited" = AStr (time_text now) /\
  (exists info, validateMessageContent clusters sortSlice pub.(p_Kind) pub.(p_Content) = Ok (Some info) /\
     head_get b.(m_Head) "x-kind" = AStr info.(Kind)) /\
  (forall k, In k kept_entries -> head_get b.(m_Head) k = head_get a.(m_Head) k) /\
  (NoDup (map fst (default [] pub.(p_Head))) -> forall k, ~ In k ("x-edited" :: "x-kind" :: kept_entries) ->
     head_get b.(m_Head) k = match get (default [] pub.(p_Head)) k with Some x => x | None => head_get a.(m_Head) k end).

Lemma edited_message_head old pub info :
  validateMessageContent clusters sortSlice pub.(p_Kind) pub.(p_Content) = Ok (Some info) ->
  let head := head_set (edited_head old pub.(p_Head) info.(Kind)) headEditedAt (AStr (time_text now)) in
  head_get head "x-edited" = AStr (time_text now) /\
  (exists info, validateMessageContent clusters sortSlice pub.(p_Kind) pub.(p_Content) = Ok (Some info) /\ head_get head "x-kind" = AStr info.(Kind)) /\
  (forall k, In k kept_entries -> head_get head k = head_get old k) /\
  (NoDup (map fst (default [] pub.(p_Head))) -> forall k, ~ In k ("x-edited" :: "x-kind" :: kept_entries) ->
     head_get head k = match get (default [] pub.(p_Head)) k with Some x => x | None => head_get old k end).
Proof.
  intros Hi. cbv zeta. split; [by rewrite head_get_set|]. split.
  { exists info. split; [done|]. rewrite head_get_set. unfold edited_head, head_get. cbn [String.eqb]. by rewrite get_map_set. }
  split.
  - intros k Hk. rewrite head_get_set. destruct (String.eqb_spec k headEditedAt) as [->|]; [by repeat destruct Hk as [Hk|Hk]|].
    apply edited_head_server; [cbn in Hk |- *; tauto|]. intros ->. by repeat destruct Hk as [Hk|Hk].
  - intros Hn k Hk. rewrite head_get_set. destruct (String.eqb_spec k headEditedAt) as [->|]; [exfalso; apply Hk; by left|].
    apply edited_head_client; [done|]. cbn in Hk |- *. tauto.
Qed.

#[local] Hint Resolve keeps_archive : keeps.

Lemma lift_out_ret {A} (o : Out A) (w w' : World St) x : lift_out o w = (w', Ret x) -> (exists a, o = Ok a /\ x = Some a) \/ x = None.
Proof. unfold lift_out. destruct o as [a|e|p]; [intros [= _ <-]; left; by exists a|intros [= _ <-]; by right|done]. Qed.

Abbreviation to_sessions := (broadcastToSessions queue_full joined sessionStore unregisterSession).
(** What follows the update of the message: copies, references and the answer leave the log alone. *)
Lemma edit_tail (m1 m2 m3 : M (St := St) unit) (m4 : M (St := St) MsgServerData) (k : MsgServerData -> ServerComMessage) (w w' : World St) :
  frame log_same m1 -> frame log_same m2 -> frame log_same m3 -> frame log_same m4 ->
  (m1 ;;; m2 ;;; m3 ;;; d <-- m4 ;; to_sessions (k d)) w = (w', Ret tt) ->
  exists w1, log_same w w1 /\ up_to_drops queue_full unregisterSession w1 w'.
Proof.
  intros H1 H2 H3 H4 E. apply bind_ret_inv in E as (w1 & [] & E1 & E). apply bind_ret_inv in E as (w2 & [] & E2 & E).
  apply bind_ret_inv in E as (w3 & [] & E3 & E). apply bind_ret_inv in E as (w4 & d & E4 & E).
  apply (frame_run log_same) in E1; [|done]. apply (frame_run log_same) in E2; [|done].
  apply (frame_run log_same) in E3; [|done]. apply (frame_run log_same) in E4; [|done].
  exists w4. split; [by do 3 (etransitivity; [eassumption|])|]. by eapply broadcast_up_to_drops.
Qed.

(** C32: An edit that succeeds was made by the message's sender while a writer, or by an administrator, and not by a
    channel reader.  It sets the content, the kind the content has and the time of the edit and keeps the message's position, sender, client id,
    time, and of its header the reply, the forward, the group and the reactions; every other entry is the client's where it gives one,
    the header that says who really sent included, and stays where not.  No other message changes
    and the topic's position stays.  All this up to what dropping the sessions whose queue is full does after the broadcast. *)
Theorem edit_sound msg pub u (w w' : World St) :
  edit msg pub u w = (w', Ret tt) ->
  exists w1 id target target', found w pub.(p_ReplaceSeq) = Some (id, target) /\ found w1 pub.(p_ReplaceSeq) = Some (id, target') /\
    may_edit w.(w_topic) u target /\ edited pub target target' /\
    others_kept w.(w_topic).(t_name) pub.(p_ReplaceSeq) (stored w.(w_store)) (stored w1.(w_store)) /\
    core w1.(w_topic) = core w.(w_topic) /\ up_to_drops queue_full unregisterSession w1 w'.
Proof.
  unfold editMessage. destruct (_ || _); [done|]. unfold bind at 1, get_topic at 1.
  intros (w1 & o & E1 & E)%bind_ret_inv. apply fetch_found in E1 as (T1 & S1 & ->).
  destruct (found w (p_ReplaceSeq pub)) as [[id target]|] eqn:F; [|done].
  apply bind_ret_inv in E as (w2 & [] & E2 & E).
  assert (w2 = w1 /\ may_edit (w_topic w) u target) as [-> Hmay].
  { unfold may_edit. destruct (pud_isChan _); [done|]. cbn [orb] in E2. destruct (IsAdmin _); [injection E2 as <-; auto|].
    destruct (N.eqb_spec (ParseUid (m_From target)) u); [|done]. destruct (IsWriter _); [|done]. injection E2 as <-. auto. }
  assert (log_same w w1) as L1 by (unfold log_same, log_of; by rewrite T1, S1).
  apply bind_ret_inv in E as (w3 & [] & E3 & E). apply keeps_run in E3; [|intros; keep].
  apply bind_ret_inv in E as (w4 & info & E4 & E). pose proof (lift_out_ret _ _ _ _ E4) as Hinfo. apply keeps_run in E4; [|intros; keep].
  destruct info as [[info|]|]; [|done..].
  assert (validateMessageContent clusters sortSlice pub.(p_Kind) pub.(p_Content) = Ok (Some info)) as Hkind
    by (by destruct Hinfo as [(a & -> & [= <-])|]).
  destruct (verifiedAttachmentURLs _ _) as [attachments|e]; [|done].
  apply bind_ret_inv in E as (w5 & had & E5 & E). apply keeps_run in E5; [|unfold has_attachments; intros; keep].
  apply bind_ret_inv in E as (w6 & auth & E6 & E). apply keeps_run in E6; [|intros; keep].
  apply bind_ret_inv in E as (w7 & [] & E7 & E). apply keeps_run in E7; [|intros; keep].
  apply bind_ret_inv in E as (w8 & [] & E8 & E). apply Messages_Update_ret in E8 as (T8 & at_ & text & S8). cbn in S8.
  assert (log_same w w7) as L7 by (do 6 (etransitivity; [eassumption|]); reflexivity).
  unfold bind at 1, get_topic at 1 in E. apply edit_tail in E as (w9 & Fm & Hd);
    [|solve [handler; apply keeps_frame; intros ?; solve [keep]]..].
  unfold log_same, log_of in L7, Fm. injection L7 as N7 X7 C7 I7 D7 SS7. injection Fm as N8 X8 C8 I8 D8 SS8.
  eapply (update_found _ _ id target w w9) in F as F'; [|congruence| | |cbn; rewrite SS8, S8, SS7; reflexivity]; [|done|done].
  destruct F' as [F' Ho]. exists w9, id, target. eexists. split; [done|]. split; [exact F'|]. split; [done|]. split; [|split; [exact Ho|split; [|exact Hd]]].
  - unfold edited. cbn [updated_message m_SeqId m_Topic m_From m_ClientId m_CreatedAt m_DelId m_Content m_Head].
    do 7 (split; [done|]). by apply edited_message_head.
  - unfold core. congruence.
Qed.
End Edit.

(** ** What a publication may carry *)

Section Prepare.
Context {St : Type} `{Laws : PubStoreLaws St}.
Context (time_text : Z -> string) (sha256 : string -> string) (clusters : string -> list string) (sortSlice : list span -> list span).

Abbreviation prepared := (prepareMessagePublication time_text sha256 clusters sortSlice).

Lemma keeps_count l fuel groupID seq n : keeps l (count_group (St := St) fuel groupID seq n).
Proof. revert seq n. induction fuel as [|fuel IH]; intros seq n; cbn [count_group]; keep; apply IH. Qed.

Lemma head_set_other head key v k : k <> key -> head_get (head_set head key v) k = head_get head k.
Proof. intros Hk. rewrite head_get_set. by apply String.eqb_neq in Hk as ->. Qed.

Lemma prepared_source_head source pub u (w w' : World St) head content :
  match source with
  | Some s => prepareForwardedPublication time_text s pub.(p_ReplyTo) u
  | None => ret (stripServerMessageHead pub.(p_Head), pub.(p_Content))
  end w = (w', Ret (head, content)) ->
  log_same w w' /\ (source = None -> content = pub.(p_Content)) /\
  forall k, In k serverHeads -> (k <> headForwarded \/ source = None) -> head_get head k = ANil.
Proof.
  destruct source as [s|].
  - intros E. split; [eapply keeps_run; [|exact E]; unfold prepareForwardedPublication; intros; keep|]. split; [done|].
    unfold prepareForwardedPublication in E. unfold bind at 1, get_topic at 1 in E. destruct (_ || _); [done|].
    apply bind_ret_inv in E as (w1 & [] & _ & E). apply bind_ret_inv in E as (w2 & o & _ & E). destruct o as [[id m]|]; [|done].
    apply bind_ret_inv in E as (w3 & cat & _ & E). injection E as _ <- _. intros k Hk [Hne|]; [|done].
    rewrite head_set_other by done. by apply strip_no_server.
  - intros [= -> <- <-]. split; [done|]. split; [done|]. intros k Hk _. by apply strip_no_server.
Qed.

Lemma found_same w w' seq : log_same w w' -> found w' seq = found w seq.
Proof. unfold log_same, log_of, core, found. intros E. injection E as E1 _ _ _ _ E6. by rewrite E1, E6. Qed.

Lemma reply_target_sound replyTo u (w w' : World St) :
  validateReplyTarget replyTo u w = (w', Ret tt) ->
  0 <= replyTo /\ (0 < replyTo -> readable w.(w_topic) u = true /\ found w replyTo <> None).
Proof.
  unfold validateReplyTarget. unfold bind at 1, get_topic at 1. destruct (Z.ltb_spec replyTo 0); [done|].
  destruct (Z.eqb_spec replyTo 0) as [->|]; [by intros _|]. destruct (readable _ _); [|done]. cbn [negb].
  intros (w1 & o & E1 & E)%bind_ret_inv. apply fetch_found in E1 as (_ & _ & ->). split; [done|]. intros _. split; [done|].
  by destruct (found w replyTo).
Qed.

Lemma checked_ret (f : St -> St * option GoError) (w w' : World St) :
  checked f w = (w', Ret tt) -> exists s, (f s).2 = None.
Proof.
  unfold checked, bind, call. destruct (f (w_store w)) as [s [e|]] eqn:Ef; [done|]. intros _. exists (w_store w). by rewrite Ef.
Qed.

(** What a client publishes carries no header of the server's that it made up: the kind is what the content is,
    there are no reactions and no time of an edit, a reply is to a message that exists, a forward is there
    only if one was asked for.  A channel's reader publishes nothing.  The files were found to belong to the sender.  Nothing
    is stored by the preparation. *)
Theorem publication_header_sound pub extra u (w w' : World St) head content files :
  prepared pub extra u w = (w', Ret (head, content, files)) ->
  (w.(w_topic).(t_cat) = TopicCatGrp -> (user w.(w_topic) u).(pud_isChan) = false) /\
  (pub.(p_Forward) = None -> content = pub.(p_Content)) /\
  (exists info, validateMessageContent clusters sortSlice pub.(p_Kind) content = Ok (Some info) /\
     head_get head headMessageKind = AStr info.(Kind)) /\
  head_get head headReactions = ANil /\ head_get head headEditedAt = ANil /\
  (pub.(p_Forward) = None -> head_get head headForwarded = ANil) /\
  0 <= pub.(p_ReplyTo) /\
  (if 0 <? pub.(p_ReplyTo)
   then head_get head headReplyTo = AInt pub.(p_ReplyTo) /\ found w pub.(p_ReplyTo) <> None
   else head_get head headReplyTo = ANil) /\
  (exists s, (attachments_validate u files s).2 = None) /\
  log_same w w'.
Proof.
  unfold prepareMessagePublication. unfold bind at 1, get_topic at 1. intros E.
  assert (t_cat (w_topic w) = TopicCatGrp -> pud_isChan (user (w_topic w) u) = false) as Hchan.
  { intros Hg. rewrite Hg in E. cbn in E. by destruct (pud_isChan _). }
  split; [done|]. destruct (_ && pud_isChan _) in E; [done|]. clear Hchan.
  apply bind_ret_inv in E as (w1 & [head0 content0] & E1 & E). apply prepared_source_head in E1 as (L1 & Hcont & Hh).
  apply bind_ret_inv in E as (w2 & info & E2 & E). destruct (validateMessageContent _ _ _ content0) as [o|e|p] eqn:Ev; [|by injection E2 as <- <-|done].
  injection E2 as <- <-. destruct o as [info|]; [|done].
  apply bind_ret_inv in E as (w2 & [] & E2 & E). apply keeps_run in E2; [|intros; keep].
  apply bind_ret_inv in E as (w3 & [] & E3 & E). pose proof E3 as L3. apply keeps_run in L3; [|unfold validateReplyTarget; intros; keep].
  apply bind_ret_inv in E as (w4 & groupID & E4 & E). apply keeps_run in E4; [|unfold prepareMessageGroup; intros; keep; apply keeps_count].
  destruct (verifiedAttachmentURLs _ _) as [att|e]; [|done].
  apply bind_ret_inv in E as (w5 & [] & E5 & E). injection E as <- <- <- <-. pose proof (checked_ret _ _ _ E5) as Hatt.
  apply keeps_run in E5; [|intros; keep].
  assert (log_same w w2) as L2 by (by transitivity w1).
  apply reply_target_sound in E3 as [Hr0 Hr].
  assert (log_same w w5) as L5 by (transitivity w2; [done|]; transitivity w3; [done|]; by transitivity w4).
  set (kinded := head_set head0 headMessageKind _).
  set (replied_ := if 0 <? p_ReplyTo pub then _ else _).
  assert (forall k, k <> headGroupID ->
    head_get (if String.eqb groupID "" then replied_ else head_set replied_ headGroupID (AStr groupID)) k = head_get replied_ k) as Hg.
  { intros k Hk. destruct (String.eqb groupID ""); [done|]. by apply head_set_other. }
  assert (forall k, k <> headReplyTo -> head_get replied_ k = head_get kinded k) as Hk1.
  { intros k Hk. unfold replied_. destruct (0 <? _); [|done]. by apply head_set_other. }
  assert (forall k, k <> headMessageKind -> head_get kinded k = head_get head0 k) as Hk2 by (intros k Hk; by apply head_set_other).
  split; [done|]. split; [exists info; split; [done|]|].
  { rewrite Hg, Hk1 by done. unfold kinded. by rewrite head_get_set, String.eqb_refl. }
  split; [rewrite Hg, Hk1, Hk2 by done; apply Hh; [cbn; tauto|by left]|].
  split; [rewrite Hg, Hk1, Hk2 by done; apply Hh; [cbn; tauto|by left]|].
  split; [intros Hf; rewrite Hg, Hk1, Hk2 by done; apply Hh; [cbn; tauto|by right]|]. split; [done|]. split; [|by split].
  rewrite Hg by done. unfold replied_. destruct (Z.ltb_spec 0 (p_ReplyTo pub)) as [Hp|].
  - rewrite head_get_set, String.eqb_refl. split; [done|]. rewrite <- (found_same w w2) by done. by apply Hr.
  - rewrite Hk2 by done. apply Hh; [cbn; tauto|by left].
Qed.
End Prepare.

(** ** Witnesses *)

Definition edit_pub : MsgClientPub := pub_of "" 10 (Some [("sender", AStr (UserId 1))]) (AStr "changed").
Definition edit_run : World PubMem * Res unit :=
  editMessage (St := PubMem) 100 false text_of_time time_of_text no_moderation byte_clusters sort_spans (fun s => s) (fun _ => false)
    (fun _ _ => false) (fun _ => None) (fun _ => ret tt) (request "s3" 3 edit_pub) edit_pub 3 (chat []).

Lemma edit_sound_witness :
  exists id target', found edit_run.1 10 = Some (id, target') /\ target'.(m_Content) = AStr "changed" /\ target'.(m_From) = UidString 3.
Proof.
  destruct (edit_sound (St := PubMem) 100 false text_of_time time_of_text no_moderation byte_clusters sort_spans (fun s => s) (fun _ => false)
    (fun _ _ => false) (fun _ => None) (fun _ => ret tt) (request "s3" 3 edit_pub) edit_pub 3 (chat []) edit_run.1)
    as (w1 & id & target & target' & F & F' & _ & (_ & _ & Hf & _ & _ & _ & Hc & _) & _ & _ & Hd).
  - vm_compute. reflexivity.
  - assert (found edit_run.1 10 = found w1 10) as ->.
    { destruct Hd as [[H1 H2]|(w2 & ds & _ & Hn & Hfull & _)]; [unfold found; by rewrite H1, H2|].
      destruct ds as [|s0 ds]; [by destruct Hn|]. inversion Hfull. discriminate. }
    exists id, target'. split; [exact F'|]. split; [exact Hc|]. rewrite Hf. vm_compute in F. injection F as _ <-. reflexivity.
Defined.

Definition reply_pub : MsgClientPub :=
  mkPub "c11" false "" 10 0 None "" None (Some [("x-reactions", AStr "forged"); ("mime", AStr "text/plain")]) (AStr "yes").
Definition prepare_run : World PubMem * Res (option (list (string * Any)) * Any * list string) :=
  prepareMessagePublication (St := PubMem) text_of_time hash byte_clusters sort_spans reply_pub None 3 (chat []).
Definition reply_head : option (list (string * Any)) := match prepare_run.2 with Ret (head, _, _) => head | _ => None end.

Lemma publication_header_sound_witness : head_get reply_head headReactions = ANil /\ head_get reply_head headReplyTo = AInt 10.
Proof.
  destruct (publication_header_sound (St := PubMem) text_of_time hash byte_clusters sort_spans reply_pub None 3 (chat []) prepare_run.1
    reply_head (AStr "yes") []) as (_ & _ & _ & Hr & _ & _ & _ & Hrep & _).
  - vm_compute. reflexivity.
  - split; [exact Hr|exact (proj1 Hrep)].
Defined.

(** ** Runs *)

(** The commit of the first save takes effect but its reply is lost. *)
Definition ambiguous : Faults := mkFaults None None None None None (Some (TextErr "connection lost", true)) None None.
Definition publish_twice (first second : string) : World PubMem * Res unit :=
  run_publish 100 (fun _ => false) (request "s2" 2 (pub_of second 0 None (AStr "and on"))) 2 false [] None (AStr "and on")
    (publish_run [ambiguous] first).1.

(** When the reply to a commit is lost for a message without a client id, the store has the message and the
    topic does not know: the next message, from anybody, gets the same position again and is refused by the store, and the position still does not move. *)
Theorem lost_commit_wedges :
  (publish_run [ambiguous] "").2 = Err (TextErr "connection lost") /\
  (publish_run [ambiguous] "").1.(w_topic).(lastID) = 10 /\
  map (fun r => (snd r).(m_SeqId)) (publish_run [ambiguous] "").1.(w_store).(pm_db).(messages) = [10; 11] /\
  (publish_twice "" "c12").2 <> Ret tt /\
  (publish_twice "" "c12").1.(w_topic).(lastID) = 10 /\
  map (fun r => (snd r).(m_SeqId)) (publish_twice "" "c12").1.(w_store).(pm_db).(messages) = [10; 11].
Proof. vm_compute. split; [reflexivity|]. repeat (split; [reflexivity|]). split; [discriminate|]. by split. Qed.

(** A retry with the client's id is acknowledged without moving the position, and then the next message is refused too. *)
Lemma duplicate_ack_keeps_wedge :
  (publish_run [ambiguous] "c11").2 = Ret tt /\ (publish_run [ambiguous] "c11").1.(w_topic).(lastID) = 10 /\
  (publish_twice "c11" "c12").2 <> Ret tt.
Proof. vm_compute. split; [reflexivity|]. split; [reflexivity|]. discriminate. Qed.

(** The author of a message forges, by editing it, the header that names the user a message was sent for, which
    a publication sets or deletes. *)
Theorem edit_forges_sender :
  edit_run.2 = Ret tt /\
  (fun r => head_get (snd r).(m_Head) "sender") <$> found edit_run.1 10 = Some (AStr (UserId 1)) /\
  head_get (sender_head (request "s3" 3 edit_pub) 3 edit_pub.(p_Head)) "sender" = ANil.
Proof. vm_compute. by repeat split. Qed.

(** A message with an image at an address the sender did not upload. *)
Definition image_at (url : string) : Any :=
  AMap [("txt", AStr " "); ("fmt", AList [AMap [("at", AInt 0); ("len", AInt 1); ("key", AInt 0)]]);
        ("ent", AList [AMap [("tp", AStr "IM"); ("data", AMap [("mime", AStr "image/png"); ("ref", AStr url)])]])].
Definition image_pub (replace : Z) : MsgClientPub := pub_of "c11" replace None (image_at "/v0/file/s/secret").
Definition image_run (replace : Z) : World PubMem * Res unit :=
  run_pub 100 (fun _ => false) (request "s3" 3 (image_pub replace)) (image_pub replace) (chat []).

(** A publication with somebody else's file is refused and links nothing; the edit of a message to the same
    content is accepted and links the file, which lets the readers of the message fetch it. *)
Theorem edit_skips_file_ownership :
  (image_run 0).1.(w_store).(pm_grants) = [] /\
  List.length (image_run 0).1.(w_store).(pm_db).(messages) = 1%nat /\
  map fst (image_run 10).1.(w_store).(pm_grants) = ["/v0/file/s/secret"] /\
  (fun r => (snd r).(m_Content)) <$> found (image_run 10).1 10 = Some (image_at "/v0/file/s/secret").
Proof. vm_compute. by repeat split. Qed.

(** Every message without a forward is shown with an empty one: decoding the absent header succeeds. *)
Lemma plain_message_shows_forward :
  match serverDataFromStored time_of_text byte_clusters sort_spans "grpA" (UserId 3) (message_of 11 3 "c11" None (AStr "hi")) with
  | Ok d => d.(d_Forwarded) = Some (mkForward "" 0 "" 0)
  | _ => False
  end.
Proof. vm_compute. reflexivity. Qed.

(** A read receipt moves the delivered position in memory only: the stored row keeps the old one. *)
Theorem read_receipt_leaves_recv :
  let t := read_run.1.(w_topic) in let s := read_run.1.(w_store) in
  (user t 3).(readID) = 10 /\ (user t 3).(recvID) = 10 /\
  s_ReadSeqId <$> row s "grpA" 3 = Some 10 /\ s_RecvSeqId <$> row s "grpA" 3 = Some 0.
Proof. vm_compute. by repeat split. Qed.

(** A verified large group; its administrator [2] has been made a plain member in the store. *)
Definition large_policy : officialTopicPolicy := mkPolicy true "verified" "large" "open" 0 false true.
Definition demoted_chat : World PubMem :=
  mkWorld (set_official chat_topic (Some large_policy) 0)
    (set_pm_subs (chat_store []) (mkMem (<[("grpA", 2%N) := sub_row 2 "grpA" memberAccess memberAccess ANil]> (sample_store []).(ms_subs))
       ∅ ∅ ∅ (Some large_policy) [])) [].
Definition demoted_run : World PubMem * Res unit :=
  run_publish 100000000000 (fun _ => false) (request "s2" 2 (pub_of "c11" 0 None (AStr "hi"))) 2 false [] None (AStr "hi") demoted_chat.

(** In an official large group a publication first reads the sender's access from the store and, once the
    message is stored, puts back the one it remembered from before: a demoted administrator is an administrator again in memory,
    marked as just refreshed. *)
Theorem publication_restores_stale_access :
  demoted_run.2 = Ret tt /\
  IsAdmin (user demoted_run.1.(w_topic) 2).(modeGiven) = true /\
  demoted_run.1.(w_topic).(officialMemberRefreshed) !! 2%N = Some 100000000000 /\
  (fun s => IsAdmin s.(s_ModeGiven)) <$> row demoted_run.1.(w_store) "grpA" 2 = Some false.
Proof. vm_compute. by repeat split. Qed.

(** A call invite with somebody else's file among its attachments. *)
Definition call_pub : MsgClientPub := pub_of "c11" 0 (Some [("webrtc", AStr "started")]) (AStr "call").
Definition call_request : ClientComMessage :=
  mkClientMsg "1" "grpA" "grpA" (UserId 3) 5 (Some (session "s3" 3)) (Some call_pub) None (Some ["/v0/file/s/secret"]) None.
Definition call_run : World PubMem * Res unit :=
  handlePubBroadcast (St := PubMem) 100 None None false (Some (fun name seq => name)) text_of_time time_of_text no_moderation hash byte_clusters
    sort_spans (fun s => s) (fun _ => false) (fun _ _ => false) (fun _ => None) (fun _ => ret tt) call_request call_pub
    (mkWorld (set_lastID chat_topic 10 1) (chat_store []) []).

(** The files of a call invite are linked without asking whose they are. *)
Lemma call_invite_links_any_file :
  call_run.2 = Ret tt /\ call_run.1.(w_store).(pm_grants) = [("/v0/file/s/secret", "grpA")] /\
  match call_run.1.(w_topic).(currentCall) with Some _ => True | None => False end.
Proof. vm_compute. by repeat split. Qed.
