(* ===== verification/PresenceProps.v ===== *)
(** * Properties of the presence exchange ([Presence])

    The exchange ends whatever the order of delivery; a user who comes online and the contacts that are loaded see each other;
    what a contact's entry becomes; who is notified; and what clients get of notifications that share one message. *)

From Stdlib Require Import NArith ZArith Lia List Ascii String Bool Permutation.
From stdpp Require Import base tactics numbers list strings gmap relations.
From S2P Require Import Prelude AccessMode Uid StoreTypes Messages Utils SendQueue SubStore Topic Publish Presence.
Import Objects.

#[local] Open Scope string_scope.
#[local] Open Scope N_scope.

(** ** The exchange ends *)

Lemma parse_reply what rq : parse_request what = inr rq -> rq.(rq_reply) = true -> fst (presParts what) = "?unkn".
Proof.
  unfold parse_request. destruct (presParts what) as [h c]. cbn [fst]. intros H Hr.
  destruct (String.eqb_spec h "?unkn") as [->|]; [done|]. cases_in H; simplify_eq; cbn in Hr; done.
Qed.

Lemma presence_answer t from what wantReply t' what' out :
  procPresReq t from what wantReply = Some (t', what', out) ->
  out = [] \/ wantReply = true /\ exists replyAs rq, out = [answer_to t from replyAs rq.(rq_reply)] /\
    parse_request what = inr rq /\ (replyAs = "on" \/ replyAs = "off+rem").
Proof.
  unfold procPresReq. intros H. destruct (isInactive t); [simplify_eq; by left|]. destruct (t_isProxy t); [simplify_eq; by left|].
  destruct (parse_request what) as [w|rq] eqn:Er; [simplify_eq; by left|].
  apply bind_Some in H as ([[t1 w1] replyAs] & Hk & H). injection H as <- <- <-.
  destruct (_ && wantReply)%bool eqn:Eb; [|by left]. apply andb_true_iff in Eb as [_ ->]. right. split; [done|].
  exists replyAs, rq. split; [done|]. split; [done|].
  destruct (cat_eqb (t_cat t) TopicCatMe); [|simplify_eq; by left]. destruct (perSubs t !! from) as [psd|].
  - apply bind_Some in Hk as ([[e w2] r2] & Hk & [= <- <- <-]). unfold known_contact in Hk.
    destruct (String.eqb (rq_cmd rq) "rem"); [simplify_eq; by right|]. apply bind_Some in Hk as ([en w3] & _ & [= <- <- <-]). by left.
  - destruct (negb _); simplify_eq; by left.
Qed.

Lemma weight_pos m : (1 <= weight m)%nat.
Proof. unfold weight. destruct (s_Payload m); [lia|destruct (pr_WantReply p); [destruct (String.eqb _ _)|]; lia|lia]. Qed.

Lemma answers_weigh_less t m t' out note :
  handlePresence t m = Some (t', out, note) -> (list_sum (map weight out) < weight m)%nat.
Proof.
  unfold handlePresence. pose proof (weight_pos m) as Hw. destruct (s_Payload m) as [d|r|i] eqn:Ep; [by intros [= <- <- <-]| |by intros [= <- <- <-]].
  intros H. apply bind_Some in H as ([[t1 w1] out1] & Hk & [= <- <- <-]).
  apply presence_answer in Hk as [->|(Hwant & replyAs & rq & -> & Er & Has)]; [done|].
  cbn [map list_sum]. unfold weight at 1. cbn [answer_to s_Payload pr_WantReply pr_What].
  unfold weight. rewrite Ep, Hwant. destruct (rq_reply rq) eqn:Err.
  - rewrite (parse_reply _ rq Er Err). destruct Has as [-> | ->]; cbn; lia.
  - destruct (String.eqb _ _); cbn; lia.
Qed.

Lemma traffic_decreases a b : pstep a b -> (traffic b < traffic a)%nat.
Proof.
  unfold traffic. destruct 1 as [a b [topics l1 m l2 t t' out note Ht Hh|topics l1 m l2 Ht]|topics l1 m l2]; cbn [n_flight];
    rewrite !map_app, !list_sum_app; cbn [map]; pose proof (weight_pos m); unfold list_sum in *; cbn [fold_right]; try lia.
  apply answers_weigh_less in Hh. unfold list_sum in Hh. lia.
Qed.

(** C36: whatever messages are on their way between topics, and however they are delivered, delayed or lost, the answers they cause
    come to an end: there are at most three steps for a message that asks and knows nothing of its own state, two for
    another that asks, and one for one that does not ask. *)
Theorem exchange_terminates k a b : nsteps pstep k a b -> (k <= traffic a)%nat.
Proof. induction 1 as [x|k x y z Hxy Hyz IH]; [lia|]. apply traffic_decreases in Hxy. lia. Qed.

(** ** Coming online *)

Definition live (t : Topic) : Prop := isInactive t = false /\ t_isProxy t = false.

(** What presence messages never change. *)
Definition shell (t t' : Topic) : Prop :=
  t_name t = t_name t' /\ t_cat t = t_cat t' /\ status t = status t' /\ t_isProxy t = t_isProxy t'.

Lemma shell_refl t : shell t t.
Proof. by repeat split. Qed.
Lemma shell_trans t1 t2 t3 : shell t1 t2 -> shell t2 t3 -> shell t1 t3.
Proof. unfold shell. intuition congruence. Qed.
Lemma shell_live t t' : shell t t' -> live t <-> live t'.
Proof. unfold shell, live, isInactive. intros (_ & _ & -> & ->). done. Qed.
Lemma shell_subs t m : shell t (set_perSubs t m).
Proof. by repeat split. Qed.
Lemma shell_add t c o e : shell t (addToPerSubs t c o e).
Proof. unfold addToPerSubs. destruct (String.eqb _ _); [apply shell_refl|]. destruct (IsChannel c); [apply shell_refl|apply shell_subs]. Qed.

Lemma set_perSubs_id t : set_perSubs t (perSubs t) = t.
Proof. by destruct t. Qed.

Section Online.
(** The user's topic under its name [a], the other topics of the node, and the user agent. *)
Context (a ua : string) (me : Topic) (topics : gmap string Topic).
Hypothesis me_loaded : topics !! a = Some me.
Hypothesis me_live : live me.
Hypothesis me_cat : t_cat me = TopicCatMe.
Hypothesis names : forall c t, topics !! c = Some t -> t_name t = c.
(** The contacts are as [loadContacts] leaves them. *)
Hypothesis contacts_offline : forall c psd, perSubs me !! c = Some psd -> ps_online psd = false /\ c <> a /\ IsChannel c = false.

Definition ask (c : string) : ServerComMessage :=
  mkServerMsg (Pres (mkPres "me" a "on" ua 0 0 [] "" "" None true 0 0 "" "" "")) c "".
Definition ans (c : string) : ServerComMessage :=
  mkServerMsg (Pres (mkPres "me" c "on" "" 0 0 [] "" "" None false 0 0 "" "" "")) a "".
Definition live0 (c : string) : Prop := exists t, topics !! c = Some t /\ live t.

Lemma asks contacts subs :
  Forall (fun kv => IsChannel (fst kv) = false) contacts ->
  interest_loop a "on" ua true false contacts subs = Some (subs, map (fun kv => ask (fst kv)) contacts).
Proof.
  induction 1 as [|[c psd] contacts Hc _ IH]; [done|]. cbn [interest_loop fst map] in *. unfold notifyOnOrSkip. rewrite Hc. cbn -[interest_loop].
  rewrite andb_false_r, IH. done.
Qed.

Lemma announce : presUsersOfInterest me "on" ua = Some (me, map (fun kv => ask (fst kv)) (map_to_list (perSubs me))).
Proof.
  unfold presUsersOfInterest. change (presParts "on") with ("on", @None string). cbn [String.eqb]. rewrite (names a me me_loaded).
  change (String.eqb "on" "on") with true. rewrite asks.
  - cbn. by rewrite set_perSubs_id.
  - apply List.Forall_forall. intros [c psd] Hin. apply list_elem_of_In, elem_of_map_to_list in Hin. by destruct (contacts_offline c psd Hin) as (_ & _ & ?).
Qed.

Lemma on_parse : parse_request "on" = inr (mkRequest "on" (Some true) "" false).
Proof. by vm_compute. Qed.

(** A contact's topic that is asked answers, and marks the user if it follows them. *)
Lemma asked c t :
  t_name t = c -> live t ->
  exists t' note, handlePresence t (ask c) = Some (t', [ans c], note) /\ shell t t' /\
    forall q, t_cat t = TopicCatMe -> perSubs t !! a = Some q -> ps_enabled q = true -> perSubs t' !! a = Some (mkPerSubs true true).
Proof.
  intros Hn [Hi Hp]. cbn [handlePresence ask s_Payload]. unfold procPresReq. cbn [pr_Src pr_What pr_WantReply]. rewrite Hi, Hp, on_parse.
  unfold answer_to. rewrite Hn. destruct (cat_eqb (t_cat t) TopicCatMe) eqn:Ec; cbn [rq_cmd rq_online rq_reply rq_what onlineUpdate].
  - destruct (perSubs t !! a) as [p|] eqn:Ea.
    + destruct p as [o e]. cbn [known_contact rq_cmd rq_what rq_online String.eqb ps_enabled ps_online mbind option_bind default andb orb].
      eexists _, _. split; [reflexivity|]. split; [apply shell_subs|]. intros q _ [= <-]. cbn [ps_enabled]. intros ->.
      cbn. by rewrite lookup_insert_eq.
    + cbn [String.eqb negb mbind option_bind andb orb]. eexists _, _. split; [reflexivity|]. split; [apply shell_add|]. done.
  - cbn [mbind option_bind andb orb]. eexists _, _. split; [reflexivity|]. split; [apply shell_refl|].
    intros q Hc. unfold cat_eqb in Ec. by rewrite Hc in Ec.
Qed.

Lemma asked_dead c t : ~ live t -> exists note, handlePresence t (ask c) = Some (t, [], note).
Proof.
  intros Hl. cbn [handlePresence ask s_Payload]. unfold procPresReq. cbn [pr_Src pr_What pr_WantReply].
  destruct (isInactive t) eqn:Ei; [eexists; reflexivity|]. destruct (t_isProxy t) eqn:Ep; [eexists; reflexivity|]. by destruct Hl.
Qed.

(** The user's topic that is answered marks the contact if it is enabled, and says nothing. *)
Lemma answered c t psd :
  live t -> t_cat t = TopicCatMe -> perSubs t !! c = Some psd ->
  exists note, handlePresence t (ans c) = Some (set_perSubs t (<[c := mkPerSubs (ps_enabled psd) (ps_enabled psd)]> (perSubs t)), [], note).
Proof.
  intros [Hi Hp] Hc Ea. cbn [handlePresence ans s_Payload]. unfold procPresReq. cbn [pr_Src pr_What pr_WantReply]. rewrite Hi, Hp, on_parse.
  unfold cat_eqb. rewrite Hc. change (bool_decide (TopicCatMe = TopicCatMe)) with true. cbn [rq_cmd]. rewrite Ea.
  destruct psd as [o e]. destruct e; cbn; rewrite ?andb_false_r; eexists; reflexivity.
Qed.

Record on_inv (n : Node) : Prop := {
  oi_me : exists me1, n_topics n !! a = Some me1 /\ shell me me1 /\ forall c psd, perSubs me !! c = Some psd ->
            exists o, perSubs me1 !! c = Some (mkPerSubs o (ps_enabled psd)) /\ (o = true -> ps_enabled psd = true /\ live0 c) /\
            (live0 c -> ps_enabled psd = true -> In (ask c) (n_flight n) \/ In (ans c) (n_flight n) \/ o = true);
  oi_shell : forall c, c <> a -> option_Forall2 shell (topics !! c) (n_topics n !! c);
  oi_peer : forall c psd t q, perSubs me !! c = Some psd -> topics !! c = Some t -> live t -> t_cat t = TopicCatMe ->
              perSubs t !! a = Some q -> ps_enabled q = true ->
            exists t1 q1, n_topics n !! c = Some t1 /\ perSubs t1 !! a = Some q1 /\ ps_enabled q1 = true /\
              (In (ask c) (n_flight n) \/ ps_online q1 = true);
  oi_flight : forall m, In m (n_flight n) -> exists c, is_Some (perSubs me !! c) /\ (m = ask c \/ m = ans c /\ live0 c) }.

Lemma in_middle {A} (x m : A) l1 l2 out : In x (l1 ++ m :: l2) -> x = m \/ In x (out ++ l1 ++ l2).
Proof. rewrite !in_app_iff. cbn. intuition. Qed.
Lemma in_rest {A} (x m : A) l1 l2 : In x (l1 ++ l2) -> In x (l1 ++ m :: l2).
Proof. rewrite !in_app_iff. cbn. intuition. Qed.

Lemma on_inv_start : on_inv (mkNode topics (map (fun kv => ask (fst kv)) (map_to_list (perSubs me)))).
Proof.
  assert (forall c psd, perSubs me !! c = Some psd -> In (ask c) (map (fun kv => ask (fst kv)) (map_to_list (perSubs me)))) as Hin.
  { intros c psd Hc. apply in_map_iff. exists (c, psd). split; [done|]. by apply list_elem_of_In, elem_of_map_to_list. }
  constructor; cbn [n_topics n_flight].
  - exists me. split; [done|]. split; [apply shell_refl|]. intros c psd Hc. exists (ps_online psd). split; [by destruct psd|].
    destruct (contacts_offline c psd Hc) as [-> _]. split; [done|]. intros _ _. left. eauto.
  - intros c _. destruct (topics !! c); constructor. apply shell_refl.
  - intros c psd t q Hc Ht _ _ Hq He. exists t, q. repeat split; eauto.
  - intros m Hm. apply in_map_iff in Hm as ([c psd] & <- & Hm). apply list_elem_of_In, elem_of_map_to_list in Hm. exists c. split; [by eexists|by left].
Qed.

Lemma ask_inj c c' : ask c = ask c' -> c = c'.
Proof. by intros [=]. Qed.
Lemma ans_inj c c' : ans c = ans c' -> c = c'.
Proof. by intros [=]. Qed.
Lemma ask_ans c c' : ask c <> ans c'.
Proof. by intros [=]. Qed.

(** An unanswered question to a contact that is not there. *)
Lemma on_inv_drop tp l1 c l2 :
  on_inv (mkNode tp (l1 ++ ask c :: l2)) -> ~ live0 c -> on_inv (mkNode tp (l1 ++ l2)).
Proof.
  intros [(me1 & H1 & Hs & Hc) Hsh Hpe Hfl] Hd. cbn [n_topics n_flight] in *. constructor; cbn [n_topics n_flight].
  - exists me1. split; [done|]. split; [done|]. intros c' psd Hc'. destruct (Hc c' psd Hc') as (o & Ho & Hl & Hp). exists o. split; [done|].
    split; [done|]. intros Hl' He. destruct (Hp Hl' He) as [Hi|[Hi| ->]]; [| |auto].
    + apply (in_middle _ _ _ _ []) in Hi as [E|Hi]; [by apply ask_inj in E as -> |auto].
    + apply (in_middle _ _ _ _ []) in Hi as [E|Hi]; [by destruct (ask_ans c c')|auto].
  - done.
  - intros c' psd t q Hc' Ht Hlt Hm Hq He. destruct (Hpe c' psd t q Hc' Ht Hlt Hm Hq He) as (t1 & q1 & Ht1 & Hq1 & He1 & Hi).
    exists t1, q1. repeat split; try done. destruct Hi as [Hi|Hi]; [|auto]. apply (in_middle _ _ _ _ []) in Hi as [E|Hi]; [|auto].
    apply ask_inj in E as ->. destruct Hd. by exists t.
  - intros m Hm. apply Hfl. by apply in_rest.
Qed.

Lemma live_dec t : live t \/ ~ live t.
Proof. unfold live. destruct (isInactive t), (t_isProxy t); intuition congruence. Qed.

(** A question that is answered. *)
Lemma on_inv_asked tp l1 c l2 t t' :
  on_inv (mkNode tp (l1 ++ ask c :: l2)) -> is_Some (perSubs me !! c) -> tp !! c = Some t -> live t -> shell t t' ->
  (forall q, t_cat t = TopicCatMe -> perSubs t !! a = Some q -> ps_enabled q = true -> perSubs t' !! a = Some (mkPerSubs true true)) ->
  on_inv (mkNode (<[c := t']> tp) ([ans c] ++ l1 ++ l2)).
Proof.
  intros [(me1 & H1 & Hs & Hc) Hsh Hpe Hfl] [psd0 Hc0] Ht Hlt Hst Hmark. cbn [n_topics n_flight] in *.
  assert (c <> a) as Hca by (by destruct (contacts_offline c psd0 Hc0) as (_ & ? & _)).
  assert (exists t0, topics !! c = Some t0 /\ shell t0 t) as (t0 & Ht0 & Hst0).
  { pose proof (Hsh c Hca) as H. rewrite Ht in H. destruct (topics !! c) as [t0|]; [|by inversion H]. exists t0. inversion H; subst. done. }
  assert (live t0) as Hl0 by (by apply (shell_live t0 t)).
  constructor; cbn [n_topics n_flight].
  - exists me1. rewrite lookup_insert_ne by done. split; [done|]. split; [done|]. intros c' psd Hc'. destruct (Hc c' psd Hc') as (o & Ho & Hl & Hp).
    exists o. split; [done|]. split; [done|]. intros Hl' He. destruct (Hp Hl' He) as [Hi|[Hi| ->]]; [| |auto].
    + apply (in_middle _ _ _ _ [ans c]) in Hi as [E|Hi]; [|auto]. apply ask_inj in E as ->. right. left. by left.
    + apply (in_middle _ _ _ _ [ans c]) in Hi as [E|Hi]; [by destruct (ask_ans c c')|auto].
  - intros c' Hc'. destruct (decide (c = c')) as [<-|Hne]; [|rewrite lookup_insert_ne by done; auto].
    rewrite lookup_insert_eq, Ht0. constructor. by eapply shell_trans.
  - intros c' psd t2 q Hc' Ht2 Hlt2 Hm Hq He. destruct (Hpe c' psd t2 q Hc' Ht2 Hlt2 Hm Hq He) as (t1 & q1 & Ht1 & Hq1 & He1 & Hi).
    destruct (decide (c = c')) as [<-|Hne].
    + rewrite Ht in Ht1. injection Ht1 as <-. exists t', (mkPerSubs true true). rewrite lookup_insert_eq. split; [done|]. split; [|auto].
      apply (Hmark q1); [|done..]. rewrite Ht0 in Ht2. injection Ht2 as ->. destruct Hst0 as (_ & <- & _). done.
    + exists t1, q1. rewrite lookup_insert_ne by done. repeat split; try done. destruct Hi as [Hi|Hi]; [|auto].
      apply (in_middle _ _ _ _ [ans c]) in Hi as [E|Hi]; [by apply ask_inj in E|auto].
  - intros m [<-|Hm]; [|apply Hfl; by apply in_rest]. exists c. split; [by eexists|]. right. split; [done|]. by exists t0.
Qed.

(** An answer. *)
Lemma on_inv_answered tp l1 c l2 t psd0 :
  on_inv (mkNode tp (l1 ++ ans c :: l2)) -> perSubs me !! c = Some psd0 -> live0 c -> tp !! a = Some t ->
  on_inv (mkNode (<[a := set_perSubs t (<[c := mkPerSubs (ps_enabled psd0) (ps_enabled psd0)]> (perSubs t))]> tp) ([] ++ l1 ++ l2)).
Proof.
  intros [(me1 & H1 & Hs & Hc) Hsh Hpe Hfl] Hc0 Hlc Ht. cbn [n_topics n_flight] in *. rewrite Ht in H1. injection H1 as <-.
  constructor; cbn [n_topics n_flight app].
  - eexists. rewrite lookup_insert_eq. split; [reflexivity|]. split; [eapply shell_trans; [exact Hs|apply shell_subs]|].
    intros c' psd Hc'. destruct (Hc c' psd Hc') as (o & Ho & Hl & Hp). cbn [perSubs set_perSubs].
    destruct (decide (c = c')) as [<-|Hne].
    + rewrite Hc0 in Hc'. injection Hc' as <-. exists (ps_enabled psd0). rewrite lookup_insert_eq. split; [done|]. split; auto.
    + exists o. rewrite lookup_insert_ne by done. split; [done|]. split; [done|]. intros Hl' He.
      destruct (Hp Hl' He) as [Hi|[Hi| ->]]; [| |auto]; apply (in_middle _ _ _ _ []) in Hi as [E|Hi]; auto.
      * by destruct (ask_ans c' c).
      * by apply ans_inj in E.
  - intros c' Hc'. rewrite lookup_insert_ne by done. auto.
  - intros c' psd t2 q Hc' Ht2 Hlt2 Hm Hq He. destruct (Hpe c' psd t2 q Hc' Ht2 Hlt2 Hm Hq He) as (t1 & q1 & Ht1 & Hq1 & He1 & Hi).
    exists t1, q1. destruct (contacts_offline c' psd Hc') as (_ & Hne & _). rewrite lookup_insert_ne by done. repeat split; try done.
    destruct Hi as [Hi|Hi]; [|auto]. apply (in_middle _ _ _ _ []) in Hi as [E|Hi]; [by destruct (ask_ans c' c)|auto].
  - intros m Hm. apply Hfl. by apply in_rest.
Qed.

(** What a delivery does to a message of this exchange, and that it can be delivered. *)
Lemma on_inv_message n m l1 l2 :
  on_inv n -> n_flight n = (l1 ++ m :: l2)%list ->
  (n_topics n !! s_RcptTo m = None /\ on_inv (mkNode (n_topics n) (l1 ++ l2))) \/
  exists t t' out note, n_topics n !! s_RcptTo m = Some t /\ handlePresence t m = Some (t', out, note) /\
    on_inv (mkNode (<[s_RcptTo m := t']> (n_topics n)) (out ++ l1 ++ l2)).
Proof.
  intros Hi. destruct n as [tp fl]. cbn [n_topics n_flight]. intros ->. pose proof Hi as [(me1 & H1 & Hs & Hc) Hsh _ Hfl]. cbn [n_topics n_flight] in *.
  destruct (Hfl m) as (c & [psd Hpsd] & [-> | [-> Hl]]); [apply in_or_app; right; by left| |].
  - cbn [ask s_RcptTo]. destruct (contacts_offline c psd Hpsd) as (_ & Hca & _). pose proof (Hsh c Hca) as Hsc.
    destruct (tp !! c) as [t|] eqn:Et.
    + destruct (topics !! c) as [t0|] eqn:Et0; [|by inversion Hsc]. assert (shell t0 t) as Hst by (by inversion Hsc).
      right. destruct (live_dec t) as [Hlt|Hdt].
      * destruct (asked c t) as (t' & note & E & Hst' & Hmark); [rewrite <- (names c t0 Et0); by destruct Hst as [<- _]|done|].
        exists t, t', [ans c], note. split; [done|]. split; [done|]. by apply (on_inv_asked tp l1 c l2 t t').
      * destruct (asked_dead c t Hdt) as [note E]. exists t, t, [], note. split; [done|]. split; [done|]. rewrite insert_id by done.
        apply (on_inv_drop tp l1 c l2 Hi). intros (t2 & Ht2 & Hlt2). assert (t2 = t0) as -> by congruence. apply Hdt. by apply (shell_live t0 t).
    + left. split; [done|]. apply (on_inv_drop tp l1 c l2 Hi). intros (t2 & Ht2 & _). rewrite Ht2 in Hsc. inversion Hsc.
  - cbn [ans s_RcptTo]. right. destruct (Hc c psd Hpsd) as (o & Ho & _).
    destruct (answered c me1 (mkPerSubs o (ps_enabled psd))) as [note E].
    { by apply (shell_live me me1). } { destruct Hs as (_ & <- & _). done. } { done. }
    cbn [ps_enabled] in E. do 4 eexists. split; [exact H1|]. split; [exact E|]. by apply on_inv_answered.
Qed.

Lemma on_inv_deliver n n' : on_inv n -> hub_route n n' -> on_inv n'.
Proof.
  intros Hi Hd. destruct Hd as [tp l1 m l2 t t' out note Ht Hh|tp l1 m l2 Ht];
    destruct (on_inv_message _ m l1 l2 Hi eq_refl) as [[Hn H]|(t2 & t2' & out2 & note2 & Ht2 & Hh2 & H)]; cbn [n_topics n_flight] in *;
    try congruence.
  all: rewrite Ht in Ht2; injection Ht2 as <-; rewrite Hh in Hh2; by injection Hh2 as <- <- <-.
Qed.

(** a user comes online: the topic of the user asks every contact, in any order of delivery every question and every answer can be
    delivered, and once none is left the user sees online exactly the enabled contacts whose topics are loaded and in use on the
    node, and those of them that follow the user see the user online. *)
Theorem online_seen_by_both me' msgs n :
  presUsersOfInterest me "on" ua = Some (me', msgs) -> rtc hub_route (mkNode (<[a := me']> topics) msgs) n ->
  (n_flight n <> [] -> exists n', hub_route n n') /\
  (n_flight n = [] -> exists me1, n_topics n !! a = Some me1 /\ forall c psd, perSubs me !! c = Some psd ->
     (exists o, perSubs me1 !! c = Some (mkPerSubs o (ps_enabled psd)) /\ (o = true <-> ps_enabled psd = true /\ live0 c)) /\
     (forall t q, topics !! c = Some t -> live t -> t_cat t = TopicCatMe -> perSubs t !! a = Some q -> ps_enabled q = true ->
        exists t1 q1, n_topics n !! c = Some t1 /\ perSubs t1 !! a = Some q1 /\ ps_online q1 = true)).
Proof.
  rewrite announce. intros [= <- <-]. rewrite insert_id by done. intros Hr.
  assert (on_inv n) as Hi by (eapply rtc_ind_r; [apply on_inv_start| |exact Hr]; intros; by eapply on_inv_deliver). split.
  - intros Hf. destruct n as [tp [|m l]]; [done|]. destruct (on_inv_message _ m [] l Hi eq_refl) as [[Hn H]|(t & t' & out & note & Ht & Hh & _)];
      eexists; [by apply (d_unknown tp [] m l)|by apply (d_topic tp [] m l t t' out note)].
  - intros Hf. destruct Hi as [(me1 & H1 & Hs & Hc) _ Hpe _]. exists me1. split; [done|]. intros c psd Hpsd. split.
    + destruct (Hc c psd Hpsd) as (o & Ho & Hl & Hp). exists o. split; [done|]. split; [done|]. intros [He Hlv].
      destruct (Hp Hlv He) as [Hin|[Hin|?]]; [rewrite Hf in Hin; destruct Hin..|done].
    + intros t q Ht Hlt Hm Hq He. destruct (Hpe c psd t q Hpsd Ht Hlt Hm Hq He) as (t1 & q1 & Ht1 & Hq1 & _ & [Hin|Ho]);
        [rewrite Hf in Hin; destruct Hin|]. by exists t1, q1.
Qed.
End Online.

(** ** A contact's entry *)

(** What the user's sessions show of a contact. *)
Definition shown_online (psd : perSubsData) : bool := ps_enabled psd && ps_online psd.
Definition consistent (psd : perSubsData) : Prop := ps_enabled psd = false -> ps_online psd = false.

Definition command_ok (cmd : string) : Prop := cmd = "" \/ cmd = "en" \/ cmd = "dis" \/ cmd = "rem".

Lemma known_contact_spec psd rq k :
  known_contact psd rq = Some k ->
  let '(entry, what, replyAs) := k in
  match entry with
  | None => rq_cmd rq = "rem" /\ (shown_online psd = true -> what = rq_what rq)
  | Some p =>
      rq_cmd rq <> "rem" /\ ps_enabled p = (if String.eqb (rq_cmd rq) "" then ps_enabled psd else String.eqb (rq_cmd rq) "en") /\
      ps_online p = (ps_enabled p && default (ps_online psd) (rq_online rq)) /\
      (consistent psd -> shown_online p <> shown_online psd -> what = rq_what rq) /\
      (rq_cmd rq = "" -> shown_online p = shown_online psd -> consistent psd -> what = "")
  end.
Proof.
  unfold known_contact, consistent, shown_online, same_state. destruct psd as [o e], rq as [w onl cmd rp]. cbn [rq_cmd rq_what rq_online ps_enabled ps_online].
  destruct (String.eqb_spec cmd "rem") as [-> |Hr].
  - intros [= <-]. split; [done|]. destruct e, o; done.
  - destruct (String.eqb_spec cmd "") as [-> |H0]; [|destruct (String.eqb_spec cmd "en") as [-> |H1]; [|destruct (String.eqb_spec cmd "dis") as [-> |H2]; [|done]]];
      intros [= <-]; (split; [done|]); destruct e, o, onl as [[]|]; cbn; repeat split; try done; intros; try done;
      try (by destruct H); exfalso; auto.
Qed.

Lemma known_contact_total psd rq : is_Some (known_contact psd rq) <-> command_ok (rq_cmd rq).
Proof.
  unfold known_contact, command_ok. destruct (String.eqb_spec (rq_cmd rq) "rem"); [intuition; by eexists|].
  destruct (String.eqb_spec (rq_cmd rq) ""); [intuition; by eexists|].
  destruct (String.eqb_spec (rq_cmd rq) "en"); [intuition; by eexists|]. destruct (String.eqb_spec (rq_cmd rq) "dis"); [intuition; by eexists|].
  cbn. split; [by intros []|intuition].
Qed.

(** a notification about a known contact changes that contact's entry and no other; commands switch notifications on and off; what was
    reported counts only while they are on; and the user's sessions are told whenever, and without a command only when, what they show of the
    contact changes. *)
Theorem contact_change_told t from what wantReply psd rq t' told out :
  live t -> t_cat t = TopicCatMe -> perSubs t !! from = Some psd -> consistent psd -> parse_request what = inr rq ->
  procPresReq t from what wantReply = Some (t', told, out) ->
  (forall c, c <> from -> perSubs t' !! c = perSubs t !! c) /\
  match perSubs t' !! from with
  | None => rq_cmd rq = "rem" /\ (shown_online psd = true -> told = rq_what rq)
  | Some p =>
      rq_cmd rq <> "rem" /\ consistent p /\
      ps_enabled p = (if String.eqb (rq_cmd rq) "" then ps_enabled psd else String.eqb (rq_cmd rq) "en") /\
      shown_online p = ps_enabled p && default (ps_online psd) (rq_online rq) /\
      (shown_online p <> shown_online psd -> told = rq_what rq) /\ (rq_cmd rq = "" -> shown_online p = shown_online psd -> told = "")
  end.
Proof.
  intros [Hi Hp] Hc Hpsd Hcon Hrq. unfold procPresReq. rewrite Hi, Hp, Hrq. unfold cat_eqb. rewrite Hc.
  change (bool_decide (TopicCatMe = TopicCatMe)) with true. cbv iota. rewrite Hpsd. intros H.
  apply bind_Some in H as ([[t1 w1] r1] & Hk & [= <- <- _]). apply bind_Some in Hk as ([[entry w2] r2] & Hk & [= <- <- _]).
  pose proof (known_contact_spec psd rq _ Hk) as Hs. cbn [perSubs set_perSubs]. destruct entry as [p|].
  - rewrite lookup_insert_eq. destruct Hs as (H1 & H2 & H3 & H4 & H5). split; [intros c Hne; by rewrite lookup_insert_ne|].
    split; [done|]. split; [intros E; rewrite H3, E; done|]. split; [done|]. split; [|auto].
    unfold shown_online. rewrite H3. by destruct (ps_enabled p).
  - rewrite lookup_delete_eq. split; [intros c Hne; by rewrite lookup_delete_ne|done].
Qed.

(** the one way a notification stops the server: an unknown command from a listed contact, to a user's topic in use on its own node. *)
Theorem unknown_command_panics t from what wantReply :
  procPresReq t from what wantReply = None <->
  live t /\ t_cat t = TopicCatMe /\ is_Some (perSubs t !! from) /\ exists rq, parse_request what = inr rq /\ ~ command_ok (rq_cmd rq).
Proof.
  unfold procPresReq, live. destruct (isInactive t); [by intuition|]. destruct (t_isProxy t); [by intuition|].
  destruct (parse_request what) as [w|rq] eqn:Er; [split; [done|by intros (_ & _ & _ & rq & [=] & _)]|].
  unfold cat_eqb. destruct (decide (t_cat t = TopicCatMe)) as [Hc|Hc].
  2: { rewrite bool_decide_false by done. cbn. split; [done|by intros (_ & ? & _)]. }
  rewrite bool_decide_true by done. destruct (perSubs t !! from) as [psd|] eqn:Ep.
  - destruct (known_contact psd rq) as [[[e w] r]|] eqn:Ek; cbn.
    + split; [done|]. intros (_ & _ & _ & rq' & [= <-] & Hn). destruct Hn. apply (known_contact_total psd). by rewrite Ek.
    + split; [|done]. intros _. split; [done|]. split; [done|]. split; [by eexists|]. exists rq. split; [done|].
      intros Ho. apply (known_contact_total psd) in Ho. rewrite Ek in Ho. by destruct Ho.
  - destruct (negb _); cbn; (split; [done|]); by intros (_ & _ & [? ?] & _).
Qed.

(** ** Who is notified *)

Lemma collect_spec {A B} (f : A -> option (list B)) l :
  (forall a, In a l -> is_Some (f a)) ->
  exists r, collect f l = Some r /\ forall b, In b r <-> exists a x, In a l /\ f a = Some x /\ In b x.
Proof.
  intros Hf. induction l as [|a l IH]; cbn [collect].
  - exists []. split; [done|]. intros b. split; [by intros []|by intros (a & x & [] & _)].
  - destruct (Hf a (or_introl eq_refl)) as [x Hx]. destruct IH as (r & -> & Hr); [intros; apply Hf; by right|]. rewrite Hx. cbn.
    eexists. split; [reflexivity|]. intros b. rewrite in_app_iff, Hr. split.
    + intros [Hb|(a' & x' & Ha & Hx' & Hb)]; [exists a, x; auto|exists a', x'; auto].
    + intros (a' & x' & [<- |Ha] & Hx' & Hb); [left; by simplify_eq|right; eauto].
Qed.

Lemma original_member t uid pud : perUser t !! uid = Some pud -> is_Some (original t uid).
Proof. intros H. unfold original. destruct (cat_eqb _ _); [rewrite H; by eexists|]. destruct (_ && _)%bool; by eexists. Qed.

(** a notification for the subscribers who are not in the topic goes to the members whose subscription is not deleted and passes the
    filter, each time under the name the topic has for that member, and to nobody else; permission changes and removals pass
    every filter. *)
Theorem offline_recipients t what params fsrc ftgt skip offlineOnly :
  exists msgs, presSubsOffline t what params fsrc ftgt skip offlineOnly = Some msgs /\
  (forall m, In m msgs <-> exists uid pud, perUser t !! uid = Some pud /\ deleted pud = false /\
     presOfflineFilter (modeGiven pud &. modeWant pud) what (Some fsrc) = true /\
     offline_message t uid what params ftgt (if offlineOnly then t_name t else "") skip = Some m) /\
  (forall uid pud, perUser t !! uid = Some pud -> deleted pud = false -> what = "acs" \/ what = "gone" ->
     exists m, In m msgs /\ s_RcptTo m = UserId uid).
Proof.
  assert (forall uid pud, perUser t !! uid = Some pud -> is_Some (offline_message t uid what params ftgt (if offlineOnly then t_name t else "") skip)) as Hm.
  { intros uid pud H. unfold offline_message. destruct (original_member t uid pud H) as [src ->]. cbn. by eexists. }
  unfold presSubsOffline. destruct (collect_spec (fun kv : Uid * Topic.perUserData =>
    if deleted (snd kv) || negb (presOfflineFilter (modeGiven (snd kv) &. modeWant (snd kv)) what (Some fsrc)) then Some []
    else (fun m => [m]) <$> offline_message t (fst kv) what params ftgt (if offlineOnly then t_name t else "") skip)
    (map_to_list (perUser t))) as (msgs & E & Hin).
  { intros [uid pud] H. apply list_elem_of_In, elem_of_map_to_list in H. cbn [fst snd]. destruct (_ || _)%bool; [by eexists|].
    destruct (Hm uid pud H) as [m ->]. by eexists. }
  exists msgs. split; [exact E|].
  assert (forall m, In m msgs <-> exists uid pud, perUser t !! uid = Some pud /\ deleted pud = false /\
     presOfflineFilter (modeGiven pud &. modeWant pud) what (Some fsrc) = true /\
     offline_message t uid what params ftgt (if offlineOnly then t_name t else "") skip = Some m) as Hiff.
  { intros m. rewrite Hin. split.
    - intros ([uid pud] & x & H & Hx & Hb). apply list_elem_of_In, elem_of_map_to_list in H. cbn [fst snd] in Hx.
      destruct (deleted pud) eqn:Ed; cbn [orb] in Hx; [simplify_eq; by destruct Hb|].
      destruct (presOfflineFilter _ _ _) eqn:Ef; cbn [negb] in Hx; [|simplify_eq; by destruct Hb].
      destruct (offline_message t uid _ _ _ _ _) as [m'|] eqn:Em; [|done]. cbn in Hx. simplify_eq. destruct Hb as [-> |[]]. eauto 10.
    - intros (uid & pud & H & Ed & Ef & Em). exists (uid, pud), [m]. split; [by apply list_elem_of_In, elem_of_map_to_list|].
      cbn [fst snd]. rewrite Ed, Ef, Em. split; [done|by left]. }
  split; [exact Hiff|]. intros uid pud H Hd Hw. destruct (Hm uid pud H) as [m Em]. exists m. split.
  - apply Hiff. exists uid, pud. repeat split; try done. unfold presOfflineFilter. by destruct Hw as [-> | ->].
  - unfold offline_message in Em. destruct (original t uid); [|done]. by injection Em as <-.
Qed.

(** ** Notifications that share one message *)

Section Shared.
Context {PB : Type} (json_Marshal : ServerComMessage -> string) (pbServSerialize : ServerComMessage -> PB).
Context (proto_Size : PB -> Z) (batch_Size : list PB -> Z).
Abbreviation Wired := (Cell (Msg := ServerComMessage) (PB := PB)) (only parsing).

Lemma later_enqueue q v (h : list Wired) :
  valid_item h v -> later h (fst (enqueue json_Marshal pbServSerialize proto_Size batch_Size q v h)).
Proof.
  intros Hv. unfold enqueue. destruct (terminating q); [done|]. unfold reserveOutbound.
  destruct (outboundQueueSize json_Marshal pbServSerialize proto_Size batch_Size q v h) as [h1 n] eqn:E.
  destruct (size_again json_Marshal pbServSerialize proto_Size batch_Size q v h h1 n Hv E) as (L & S & _).
  destruct (reserve _ _) as [p|]; cbn [fmap option_fmap option_map]; [|done]. cbn [send with_send]. destruct (_ <? _)%nat; [done|].
  unfold releaseOutbound. change (outboundQueueSize json_Marshal pbServSerialize proto_Size batch_Size (with_send q (send q) p) v h1)
    with (outboundQueueSize json_Marshal pbServSerialize proto_Size batch_Size q v h1). by rewrite (S h1).
Qed.

Lemma later_queue_to s p (h : list Wired) qs :
  is_Some (h !! p) -> later h (fst (queue_to json_Marshal pbServSerialize proto_Size batch_Size s p (h, qs))).
Proof.
  intros Hp. unfold queue_to. destruct (qs !! s) as [q|]; [|done].
  pose proof (later_enqueue q (IMsg p) h ltac:(by repeat constructor)) as L. unfold SendQueue.queueOut.
  by destruct (enqueue _ _ _ _ q (IMsg p) h) as [h' [q' b]].
Qed.

Lemma later_term s p subs (hq : list Wired * gmap string Queue) :
  is_Some (fst hq !! p) -> later (fst hq) (fst (term_loop json_Marshal pbServSerialize proto_Size batch_Size s p subs hq)).
Proof.
  revert hq. induction subs as [|x subs IH]; intros [h qs] Hp; [done|]. cbn [term_loop fst].
  assert (later h (assign h p (set_src x))) as L1 by apply later_assign.
  pose proof (later_queue_to s p (assign h p (set_src x)) qs (later_is_Some _ _ _ L1 Hp)) as L2.
  etransitivity; [exact L1|]. etransitivity; [exact L2|]. apply IH. eapply later_is_Some; [etransitivity; [exact L1|exact L2]|exact Hp].
Qed.

(** when a node can no longer serve several topics of a session that speaks JSON, the session is sent as many notices, but they all name
    the first topic: they share one message, whose wire form is made when the first notice is queued. *)
Theorem term_notices_name_first s q first rest (h : list Wired) qs :
  qs !! s = Some q -> terminating q = false -> speaks_proto q = false ->
  forall h2, later (fst (presTermDirect json_Marshal pbServSerialize proto_Size batch_Size s (first :: rest) (h, qs))) h2 ->
  serializedJSON json_Marshal (List.length h) h2 = (h2, json_Marshal (term_message first)).
Proof.
  intros Hq Ht Hs h2 Hl. unfold presTermDirect in Hl. cbn [alloc fst snd] in Hl. set (p := List.length h) in *.
  set (h0 := (h ++ [mkCell (term_message "") None None])%list) in *. cbn [term_loop] in Hl.
  assert (h0 !! p = Some (mkCell (term_message "") None None)) as H0 by (unfold h0, p; by apply list_lookup_middle).
  assert (assign h0 p (set_src first) !! p = Some (mkCell (term_message first) None None)) as H1.
  { unfold assign. rewrite H0. apply list_lookup_insert_eq. by eapply lookup_lt_Some. }
  set (h1 := assign h0 p (set_src first)) in *.
  assert (exists h1a, later (fst (serializedJSON json_Marshal p h1)) h1a /\
            fst (queue_to json_Marshal pbServSerialize proto_Size batch_Size s p (h1, qs)) = h1a) as (h1a & L & E).
  { eexists. split; [|reflexivity]. unfold queue_to. rewrite Hq. unfold SendQueue.queueOut, enqueue, reserveOutbound. rewrite Ht.
    destruct (outboundQueueSize json_Marshal pbServSerialize proto_Size batch_Size q (IMsg p) h1) as [hs n] eqn:En.
    assert (hs = fst (serializedJSON json_Marshal p h1)) as ->.
    { cbn [outboundQueueSize] in En. rewrite Hs in En. destruct (supportsMessageBatching q); unfold jsonBatchQueueSize in En; cbn [json_all] in En;
        destruct (serializedJSON json_Marshal p h1); by injection En as <- _. }
    destruct (size_again json_Marshal pbServSerialize proto_Size batch_Size q (IMsg p) h1 _ n ltac:(repeat constructor; by eexists) En) as (_ & S & _).
    destruct (reserve _ _) as [pd|]; cbn [fmap option_fmap option_map fst]; [|done]. cbn [send with_send]. destruct (_ <? _)%nat; [done|].
    unfold releaseOutbound. change (outboundQueueSize json_Marshal pbServSerialize proto_Size batch_Size (with_send q (send q) pd) (IMsg p))
      with (outboundQueueSize json_Marshal pbServSerialize proto_Size batch_Size q (IMsg p)). by rewrite (S _). }
  destruct (queue_to json_Marshal pbServSerialize proto_Size batch_Size s p (h1, qs)) as [hb qb] eqn:Eb. cbn [fst] in E. subst h1a.
  apply (json_again json_Marshal p h1 (fst (serializedJSON json_Marshal p h1))); [by eexists| |].
  - unfold serializedJSON. by rewrite H1.
  - etransitivity; [exact L|]. etransitivity; [|exact Hl]. apply (later_term s p rest (hb, qb)). cbn [fst].
    eapply later_is_Some; [exact L|]. eapply later_is_Some; [apply later_json|]. by eexists.
Qed.
End Shared.

(** ** On a concrete node: the users 2 and 3 follow each other, 4 is away *)

Definition me_topic (uid : Uid) (contacts : gmap string perSubsData) : Topic :=
  mkTopic (UserId uid) "me" TopicCatMe false 0 ModeNone ModeNone 0 0 0 "" None 0 ∅ 0 0 ∅ ∅ 0 0 None ∅ contacts false None.
Definition u2 : string := UserId 2.
Definition u3 : string := UserId 3.
Definition u4 : string := UserId 4.
Definition me2 : Topic := me_topic 2 {[ u3 := mkPerSubs false true; u4 := mkPerSubs false true ]}.
Definition me3 : Topic := me_topic 3 {[ u2 := mkPerSubs false true ]}.
Definition two_topics : gmap string Topic := {[ u2 := me2; u3 := me3 ]}.
Definition me3_told : Topic := me_topic 3 {[ u2 := mkPerSubs true true ]}.
Definition me2_told : Topic := me_topic 2 {[ u3 := mkPerSubs true true; u4 := mkPerSubs false true ]}.
Definition ask_of (c : string) : ServerComMessage := ask u2 "web" c.
Definition ans_of (c : string) : ServerComMessage := ans u2 c.
Definition settled : Node := mkNode (<[u2 := me2_told]> (<[u3 := me3_told]> (<[u2 := me2]> two_topics))) [].

Lemma two_topics_start : presUsersOfInterest me2 "on" "web" = Some (me2, [ask_of u3; ask_of u4]) \/
  presUsersOfInterest me2 "on" "web" = Some (me2, [ask_of u4; ask_of u3]).
Proof. vm_compute. auto. Qed.

Lemma u_names : u2 <> u3 /\ u2 <> u4 /\ u3 <> u4 /\ IsChannel u2 = false /\ IsChannel u3 = false /\ IsChannel u4 = false.
Proof. by vm_compute. Qed.

Lemma two_topics_names c t : two_topics !! c = Some t -> t_name t = c.
Proof.
  unfold two_topics. intros H. apply lookup_insert_Some in H as [[<- <-]|[_ H]]; [done|]. apply lookup_singleton_Some in H as [<- <-]. done.
Qed.

Lemma me2_offline c psd : perSubs me2 !! c = Some psd -> ps_online psd = false /\ c <> u2 /\ IsChannel c = false.
Proof.
  destruct u_names as (N1 & N2 & N3 & C2 & C3 & C4). cbn [me2 me_topic perSubs]. intros H.
  apply lookup_insert_Some in H as [[<- <-]|[_ H]]; [by auto|]. apply lookup_singleton_Some in H as [<- <-]. by auto.
Qed.

Lemma me2_loaded : two_topics !! u2 = Some me2.
Proof. vm_compute. reflexivity. Qed.
Lemma me2_live : live me2.
Proof. vm_compute. done. Qed.
Lemma me2_follows : perSubs me2 !! u3 = Some (mkPerSubs false true).
Proof. vm_compute. reflexivity. Qed.

Lemma online_seen_by_both_witness :
  exists me1, n_topics settled !! u2 = Some me1 /\ exists o, perSubs me1 !! u3 = Some (mkPerSubs o true) /\
    (o = true <-> true = true /\ live0 two_topics u3).
Proof.
  assert (exists msgs, presUsersOfInterest me2 "on" "web" = Some (me2, msgs) /\
            rtc hub_route (mkNode (<[u2 := me2]> two_topics) msgs) settled) as (msgs & E & Hr).
  { assert (handlePresence me3 (ask_of u3) = Some (me3_told, [ans_of u3], None) \/ exists n, handlePresence me3 (ask_of u3) = Some (me3_told, [ans_of u3], Some n)) as H3
      by (vm_compute; right; eexists; reflexivity).
    assert (exists note, handlePresence me3 (ask_of u3) = Some (me3_told, [ans_of u3], note)) as [note3 E3] by (destruct H3 as [E|[n E]]; eauto).
    assert (exists note, handlePresence me2 (ans_of u3) = Some (me2_told, [], note)) as [note2 E2] by (eexists; vm_compute; reflexivity).
    assert ((<[u2 := me2]> two_topics) !! u3 = Some me3) as L3 by (vm_compute; reflexivity).
    assert ((<[u2 := me2]> two_topics) !! u4 = None) as L4 by (vm_compute; reflexivity).
    assert ((<[u3 := me3_told]> (<[u2 := me2]> two_topics)) !! u2 = Some me2) as L2 by (vm_compute; reflexivity).
    assert ((<[u3 := me3_told]> (<[u2 := me2]> two_topics)) !! u4 = None) as L4' by (vm_compute; reflexivity).
    destruct two_topics_start as [E|E]; exists (match presUsersOfInterest me2 "on" "web" with Some (_, l) => l | None => [] end); rewrite E; (split; [done|]).
    - eapply rtc_l; [by apply (d_topic _ [] (ask_of u3) [ask_of u4] me3 me3_told [ans_of u3] note3)|]. cbn [app s_RcptTo ask_of ask].
      eapply rtc_l; [by apply (d_topic _ [] (ans_of u3) [ask_of u4] me2 me2_told [] note2)|]. cbn [app s_RcptTo ans_of ans].
      eapply rtc_l; [apply (d_unknown _ [] (ask_of u4) []); vm_compute; reflexivity|apply rtc_refl].
    - eapply rtc_l; [by apply (d_unknown _ [] (ask_of u4) [ask_of u3])|]. cbn [app].
      eapply rtc_l; [by apply (d_topic _ [] (ask_of u3) [] me3 me3_told [ans_of u3] note3)|]. cbn [app s_RcptTo ask_of ask].
      eapply rtc_l; [by apply (d_topic _ [] (ans_of u3) [] me2 me2_told [] note2)|apply rtc_refl]. }
  pose proof (online_seen_by_both u2 "web" me2 two_topics me2_loaded me2_live eq_refl two_topics_names me2_offline me2 msgs settled E Hr) as [_ H].
  specialize (H eq_refl). destruct H as (me1 & H1 & Hc). exists me1. split; [exact H1|].
  exact (proj1 (Hc u3 (mkPerSubs false true) me2_follows)).
Defined.

Lemma exchange_terminates_witness :
  exists n, nsteps pstep 1 (mkNode two_topics [ans_of u3]) n /\ (1 <= traffic (mkNode two_topics [ans_of u3]))%nat.
Proof.
  assert (pstep (mkNode two_topics [ans_of u3]) (mkNode two_topics [])) as H by apply (p_lose two_topics [] (ans_of u3) []).
  exists (mkNode two_topics []). split; [by apply nsteps_once|]. apply (exchange_terminates 1 _ (mkNode two_topics [])). by apply nsteps_once.
Defined.

Lemma contact_change_told_witness :
  let t' := match procPresReq me2 u3 "on" false with Some (t', _, _) => t' | None => me2 end in
  shown_online (default (mkPerSubs false false) (perSubs t' !! u3)) = true /\ forall c, c <> u3 -> perSubs t' !! c = perSubs me2 !! c.
Proof.
  split; [by vm_compute|].
  refine (proj1 (contact_change_told me2 u3 "on" false (mkPerSubs false true) (mkRequest "on" (Some true) "" false) _ "on" [] _ eq_refl _ _ _ _));
    by vm_compute.
Defined.

Lemma term_notices_name_first_witness :
  let json (m : ServerComMessage) := match s_Payload m with Pres r => pr_Src r | _ => "" end in
  let hq := presTermDirect json (fun m => m) (fun _ => 1%Z) (fun _ => 1%Z) "s1" ["grpA"; "grpB"] ([], {[ "s1" := sample_queue 0 ]}) in
  send (default (sample_queue 0) (snd hq !! "s1")) = [IMsg 0; IMsg 0] /\ serializedJSON json 0 (fst hq) = (fst hq, "grpA").
Proof.
  intros json hq. split; [by vm_compute|].
  exact (term_notices_name_first json (fun m => m) (fun _ => 1%Z) (fun _ => 1%Z) "s1" (sample_queue 0) "grpA" ["grpB"] [] {[ "s1" := sample_queue 0 ]}
    eq_refl eq_refl eq_refl (fst hq) ltac:(done)).
Defined.

(** ** Divergences *)

(** a contact that is not listed and reports itself online is listed as online though notifications are off (the comment says that it stays offline
    then); when they are switched on later, the contact shows as online and no session was told. *)
Theorem stranger_recorded_online :
  let t := me_topic 2 ∅ in
  exists t1 t2, procPresReq t u3 "on" false = Some (t1, "", []) /\ perSubs t1 !! u3 = Some (mkPerSubs true false) /\
    procPresReq t1 u3 "?none+en" false = Some (t2, "", []) /\ perSubs t2 !! u3 = Some (mkPerSubs true true).
Proof. intros t. do 2 eexists. split; [vm_compute; reflexivity|]. split; [by vm_compute|]. split; [vm_compute; reflexivity|]. by vm_compute. Qed.

(** A conversation of the users 2 and 3 with a session of each. *)
Definition client (name : string) (u : Uid) : Session * perSessionData := (mkSession name u ProtoClient false None, mkPsd u false []).
Definition named (name : string) : Topic.perUserData := mkPud 1 0 0 [] 0 ANil ModeCP2P ModeCP2P name false false.
Definition p2p_chat : Topic :=
  mkTopic "p2pA" "p2pA" TopicCatP2P false 0 ModeNone ModeNone 10 2 0 "" None 0 {[ 2 := named u3; 3 := named u2 ]} 0 0
    {[ "s2" := client "s2" 2; "s3" := client "s3" 3 ]} ∅ 0 0 None ∅ ∅ false None.
Definition shown_topic (m : ServerComMessage) : string := match s_Payload m with Pres r => pr_Topic r | _ => "" end.

(** when a conversation of two moves to another node, both users' sessions are told to subscribe again under the same name, which is right for
    only one of them: the message they share is encoded once. *)
Theorem rehash_notice_misnamed :
  exists h qs name, presSubsOnlineDirect shown_topic (fun m => m) (fun _ => 1%Z) (fun _ => 1%Z) p2p_chat "term" nilPresParams nilPresFilters ""
      ([], {[ "s2" := sample_queue 0; "s3" := sample_queue 0 ]}) = Some (h, qs) /\
    (forall s, In s ["s2"; "s3"] -> send (default (sample_queue 0) (qs !! s)) = [IMsg 0]) /\
    serializedJSON shown_topic 0 h = (h, name) /\ original p2p_chat 2 <> original p2p_chat 3 /\ (Some name = original p2p_chat 2 \/ Some name = original p2p_chat 3).
Proof.
  do 3 eexists. split; [vm_compute; reflexivity|]. split; [intros s [<- |[<- |[]]]; vm_compute; reflexivity|].
  split; [vm_compute; reflexivity|]. split; [by vm_compute|]. vm_compute. auto.
Qed.

(** A group with the user 2 on this node and the sessions of another node behind the session "mux". *)
Definition remote_group (sessions : gmap string (Session * perSessionData)) : Topic :=
  let m := mkPud 1 0 0 [] 0 ANil ModeCPublic ModeCPublic "" false false in
  mkTopic "grpA" "grpA" TopicCatGrp false 1 ModeCPublic 0 10 3 1 "" None 0 {[ 2 := m; 3 := m ]} ModeCPublic ModeCPublic sessions ∅ 0 0 None ∅ ∅ false None.
Definition mux : Session * perSessionData := (mkSession "mux" 0 ProtoMultiplex false None, mkPsd 0 false [3]).

(** a permission change is announced to the sessions of the user it is about only, on the owner's node; the copy for another node
    does not say so, and that node hands it to the sessions of other members. *)
Theorem remote_sessions_told_of_others_change :
  let params := mkParams "" "" "+D" "+D" in
  let filter := mkFilters 0 0 u2 "" in
  exists h qs c, presSubsOnlineDirect shown_topic (fun m => m) (fun _ => 1%Z) (fun _ => 1%Z)
      (remote_group {[ "s3" := client "s3" 3; "mux" := mux ]}) "acs" params filter ""
      ([], {[ "s3" := sample_queue 0; "mux" := mkQueue MULTIPLEX 0 false false [] 0 ]}) = Some (h, qs) /\
    send (default (sample_queue 0) (qs !! "s3")) = [] /\
    send (default (sample_queue 0) (qs !! "mux")) = [IMsg 0] /\ h !! 0%nat = Some c /\
    passed_over (fun _ _ => false) (fun _ => None) (remote_group {[ "s3" := client "s3" 3 ]}) (cell_msg c) (fst (client "s3" 3)) (snd (client "s3" 3)) = false.
Proof. intros params filter. do 3 eexists. repeat (split; [vm_compute; reflexivity|]). vm_compute. reflexivity. Qed.
