(* ===== verification/HistoryProps.v ===== *)
(** * HistoryProps: properties of reading and deleting messages

    What the database keeps of a deletion and reports of it, catching up page by page, and what {get data}, {del msg}
    and {del sub} do, over any store with the laws of [DelStoreLaws]. *)

From Stdlib Require Import NArith ZArith Lia List Ascii String Bool Sorted.
From stdpp Require Import base tactics numbers list strings gmap sets.
From S2P Require Import Prelude AccessMode Uid StoreTypes Fence Drafty Messages Interactions SubStore PCache Utils PubStore History Topic TopicSub TopicSubProps TopicSelfProps TopicMemberProps Publish Presence Notes MetaHistory.
Import Objects Ranges.
Import Topic.

#[local] Open Scope string_scope.
#[local] Open Scope Z_scope.

(** ** Catching up *)

(** The positions of the messages of one topic are different. *)
Lemma once_in_topic (rows : list (Uid * Message)) (p : Message -> bool) topic :
  List.NoDup (map place rows) -> (forall m, p m = true -> m.(m_Topic) = topic) -> List.NoDup (map m_SeqId (List.filter p (map snd rows))).
Proof.
  intros Hn Hp. induction rows as [|[i m] rows IH]; cbn; [constructor|]. cbn in Hn. inversion Hn as [|? ? Ha Hl]; subst.
  destruct (p m) eqn:E; [|by apply IH]. cbn. constructor; [|by apply IH].
  intros (x & Hx & [Hin Hs]%filter_In)%in_map_iff. apply in_map_iff in Hin as ([j y] & Ey & Hin). cbn in Ey. subst y.
  apply Ha, in_map_iff. exists (j, x). split; [|done]. unfold place. cbn. by rewrite Hx, (Hp _ E), (Hp _ Hs).
Qed.

Section Sync.
Context (maxMessageResults : Z) (db : DelDB) (topic : string) (u : Uid).

(** A user's history in order, and its part from [since] to [high]. *)
Definition visible_history : list Message := sort_by seq_less (List.filter (row_shown db topic u) (map snd db.(dd_messages))).
Definition bounded (since high : Z) (m : Message) : bool := (since <=? m.(m_SeqId)) && (m.(m_SeqId) <=? high).
Definition between (since high : Z) : list Message := List.filter (bounded since high) visible_history.

(** A client that asks for the pages of [since, high] of at most [limit] messages, each from the last cursor on; the requests
    are those of [replyGetData] with the bound of the first answer. *)
Definition page (limit since high : Z) : list Message :=
  default [] (MessageGetAll maxMessageResults topic u (msgOpts2storeOpts (Some (mkGetOpts "" "" None since (high + 1) limit [] true))) db).

Fixpoint catch_up (fuel : nat) (limit since high : Z) : list Message :=
  match fuel with
  | O => []
  | S fuel' =>
      let ms := page limit since high in
      let cursor := page_cursor high since ms in
      (ms ++ if cursor <? high then catch_up fuel' limit (cursor + 1) high else [])%list
  end.

Definition earlier (a b : Message) : Prop := a.(m_SeqId) < b.(m_SeqId).

Lemma filter_and {A} (f g : A -> bool) l : List.filter f (List.filter g l) = List.filter (fun x => g x && f x) l.
Proof. induction l as [|a l IH]; [done|]. cbn. destruct (g a); cbn; [|exact IH]. destruct (f a); by rewrite IH. Qed.

Lemma NoDup_filter_map {A B} (f : A -> B) p l : List.NoDup (map f l) -> List.NoDup (map f (List.filter p l)).
Proof.
  induction l as [|a l IH]; [done|]. cbn [map List.filter]. intros Hn. inversion Hn as [|? ? Ha Hl]; subst. destruct (p a); [|by apply IH].
  cbn. constructor; [|by apply IH]. rewrite in_map_iff in Ha |- *. intros (x & Hx & Hin). apply Ha. exists x. split; [done|]. apply filter_In in Hin as [Hin _]. exact Hin.
Qed.

Lemma filter_perm {A} (f : A -> bool) l l' : Permutation l l' -> Permutation (List.filter f l) (List.filter f l').
Proof.
  induction 1 as [|x l l' H IH|x y l|l1 l2 l3 H1 IH1 H2 IH2]; cbn; [done| | |by etransitivity].
  - destruct (f x); [by constructor|done].
  - destruct (f x), (f y); try done. apply perm_swap.
Qed.

Lemma filter_sorted {A} (R : A -> A -> Prop) f l : StronglySorted R l -> StronglySorted R (List.filter f l).
Proof.
  induction 1 as [|a l Hs IH Ha]; cbn; [constructor|]. destruct (f a); [|done]. constructor; [done|].
  rewrite List.Forall_forall in *. intros x Hx. apply filter_In in Hx as [Hx _]. by apply Ha.
Qed.

(** Sorting by position and filtering commute where positions are unique. *)
Lemma sort_filter p (l : list Message) : List.NoDup (map m_SeqId l) -> sort_by seq_less (List.filter p l) = List.filter p (sort_by seq_less l).
Proof.
  intros Hn. change seq_less with (lt_on Z.ltb m_SeqId). apply (keyed_unique m_SeqId).
  - rewrite sort_by_key. apply (sorted_perm_unique Z.ltb); [apply sort_by_sorted, _| |].
    + assert (forall x, StronglySorted (le_by Z.ltb) (map m_SeqId x) -> StronglySorted (le_by Z.ltb) (map m_SeqId (List.filter p x))) as H.
      { induction x as [|a x IH]; cbn; intros H; inversion H as [|? ? Hs Ha]; subst; [constructor|]. destruct (p a); [|by apply IH].
        cbn. constructor; [by apply IH|]. rewrite List.Forall_forall in *. intros y (z & <- & Hz)%in_map_iff. apply filter_In in Hz as [Hz _].
        apply Ha. by apply in_map. }
      apply H. rewrite sort_by_key. apply sort_by_sorted, _.
    + rewrite sort_by_perm. apply Permutation_map, filter_perm, Permutation_sym, sort_by_perm.
  - rewrite sort_by_perm. apply filter_perm, Permutation_sym, sort_by_perm.
  - eapply Permutation_NoDup; [apply Permutation_map, Permutation_sym, sort_by_perm|]. by apply NoDup_filter_map.
Qed.

Context (Hw : wf_log db).
Lemma positions_once : List.NoDup (map m_SeqId (List.filter (row_shown db topic u) (map snd db.(dd_messages)))).
Proof.
  apply (once_in_topic _ _ topic (wf_once _ Hw)). intros m H. unfold row_shown in H.
  by apply andb_true_iff in H as [[_ H%String.eqb_eq]%andb_true_iff _].
Qed.

Lemma history_sorted : StronglySorted earlier visible_history.
Proof.
  assert (forall l, StronglySorted (le_by Z.ltb) (map m_SeqId l) -> List.NoDup (map m_SeqId l) -> StronglySorted earlier l) as H.
  { induction l as [|a l IH]; cbn; intros Hs Hn; [constructor|]. inversion Hs as [|? ? Hs' Ha]; inversion Hn as [|? ? Hna Hn']; subst.
    constructor; [by apply IH|]. rewrite List.Forall_forall in *. intros b Hb. pose proof (Ha _ (in_map m_SeqId _ _ Hb)) as Hle.
    unfold le_by in Hle. unfold earlier. assert (m_SeqId a <> m_SeqId b) by (intros E; apply Hna; rewrite E; by apply in_map). lia. }
  apply H; unfold visible_history; change seq_less with (lt_on Z.ltb m_SeqId).
  - rewrite sort_by_key. apply sort_by_sorted, _.
  - eapply Permutation_NoDup; [apply Permutation_map, Permutation_sym, sort_by_perm|]. apply positions_once.
Qed.

Lemma history_In m : In m visible_history <-> In m (map snd db.(dd_messages)) /\ row_shown db topic u m = true.
Proof. unfold visible_history. rewrite <- filter_In. split; apply Permutation_in; [|symmetry]; apply sort_by_perm. Qed.

(** A page is the beginning of what is left. *)
Lemma page_prefix limit since high : 0 < high ->
  page limit since high = firstn (Z.to_nat (limit_of maxMessageResults (Some (mkOpt None since (high + 1) limit true [])))) (between since high).
Proof.
  intros Hh. unfold page, MessageGetAll, between, visible_history. cbn [msgOpts2storeOpts fmap option_fmap option_map g_Forward g_SinceId g_BeforeId
    g_Limit g_IdRanges g_IfModifiedSince map order_of q_IfModifiedSince q_Forward in_query q_IdRanges mbind option_bind from_option id]. f_equal.
  rewrite <- sort_filter by apply positions_once. rewrite filter_and. f_equal. apply List.filter_ext_in. intros m Hm.
  cbn [modified_in since_of before_of q_Since q_Before]. rewrite andb_true_r.
  destruct (row_shown db topic u m); [|done]. cbn [andb]. unfold bounded. replace (1 <? high + 1) with true by lia.
  apply in_map_iff in Hm as (r & <- & Hr). pose proof (wf_positive _ Hw _ Hr). destruct (Z.ltb_spec 0 since); lia.
Qed.

Lemma between_next since c high : since <= c + 1 -> between (c + 1) high = List.filter (fun m => c + 1 <=? m.(m_SeqId)) (between since high).
Proof. intros H. unfold between. rewrite filter_and. apply filter_ext. intros m. unfold bounded. lia. Qed.

(** What follows the last message of a prefix. *)
Lemma after_prefix p m rest : StronglySorted earlier ((p ++ [m]) ++ rest)%list ->
  List.filter (fun x => m.(m_SeqId) + 1 <=? x.(m_SeqId)) ((p ++ [m]) ++ rest)%list = rest.
Proof.
  induction p as [|a p IH]; cbn; intros Hs; inversion Hs as [|? ? Hs' Ha]; subst.
  - replace (m_SeqId m + 1 <=? m_SeqId m) with false by lia. clear Hs Hs'. induction Ha as [|b rest Hb Ha IH]; [done|]. cbn.
    unfold earlier in Hb. replace (m_SeqId m + 1 <=? m_SeqId b) with true by lia. by rewrite IH.
  - rewrite List.Forall_forall in Ha. assert (earlier a m) as Hm by (apply Ha; apply in_or_app; left; apply in_or_app; right; by left).
    unfold earlier in Hm. replace (m_SeqId m + 1 <=? m_SeqId a) with false by lia. by apply IH.
Qed.

(** C15: catching up with pages loses nothing: from a position on, following the cursors of the answers until one reports no more,
    a client gets every message its history has up to the bound of the first answer, once and in order, after at most one request
    per position and one more. *)
Theorem forward_sync_complete limit since high fuel :
  0 < maxMessageResults -> 0 < high -> high + 1 - since < Z.of_nat fuel -> (0 < fuel)%nat ->
  catch_up fuel limit since high = between since high.
Proof.
  intros Hmax Hh. revert since. induction fuel as [|fuel IH]; intros since Hf Hf0; [lia|]. cbn [catch_up].
  rewrite page_prefix by done. set (n := Z.to_nat _). assert (0 < n)%nat as Hn.
  { unfold n, limit_of. cbn. destruct (Z.ltb_spec 0 limit), (Z.ltb_spec limit maxMessageResults); cbn; lia. }
  set (L := between since high). assert (StronglySorted earlier L) as Hs by apply filter_sorted, history_sorted.
  destruct (List.rev (firstn n L)) as [|m p] eqn:Er.
  - assert (L = []) as HL.
    { destruct L as [|a L']; [done|]. destruct n; [lia|]. cbn in Er. by apply app_eq_nil in Er as [_ ?]. }
    unfold page_cursor. rewrite Er, HL, firstn_nil. unfold past_end. destruct (Z.ltb_spec high (since - 1)).
    + by replace (since - 1 <? high) with false by lia.
    + by rewrite Z.ltb_irrefl.
  - assert (firstn n L = List.rev p ++ [m])%list as Ep by (rewrite <- (rev_involutive (firstn n L)), Er; done).
    assert (L = (List.rev p ++ [m]) ++ skipn n L)%list as EL by (rewrite <- Ep; symmetry; apply firstn_skipn).
    assert (In m L) as Hin by (rewrite EL; apply in_or_app; left; apply in_or_app; right; by left).
    unfold L, between in Hin. apply filter_In in Hin as [_ Hb]. unfold bounded in Hb.
    unfold page_cursor. rewrite Er. rewrite EL at 2. rewrite Ep.
    assert (between (m_SeqId m + 1) high = skipn n L) as Enext.
    { rewrite (between_next since) by lia. fold L. rewrite EL at 1. apply after_prefix. by rewrite <- EL. }
    f_equal. destruct (Z.ltb_spec (m_SeqId m) high) as [Hlt|Hge].
    + rewrite IH by lia. exact Enext.
    + rewrite <- Enext. unfold between. symmetry. destruct (List.filter _ _) as [|x l] eqn:Ef; [done|].
      assert (In x (x :: l)) as Hx by (by left). rewrite <- Ef in Hx. apply filter_In in Hx as [_ Hx]. unfold bounded in Hx. lia.
Qed.
End Sync.

(** the ranges of a query are its positions: if the adapter makes an SQL condition of a client's ranges, it holds of the
    positions they cover; it makes none, and stops the server, exactly if there are no ranges or several that all name nothing. *)
Theorem query_ranges_sound rs :
  match RangesToSql rs with
  | Some q => forall z, sql_holds q z = covered rs z
  | None => rs = [] \/ (1 < List.length rs)%nat /\ Forall (fun r => ~ names r) rs
  end.
Proof.
  destruct (RangesToSql rs) as [q|] eqn:E; [intros z; by apply RangesToSql_covered|]. unfold RangesToSql in E. destruct rs as [|r rest]; [by left|right].
  destruct (1 <? List.length (r :: rest))%nat eqn:El; cbn [orb] in E.
  - apply Nat.ltb_lt in El. split; [done|]. destruct (flat_map range_ids (r :: rest)) as [|i ids] eqn:Ei; [|done].
    apply List.Forall_forall. intros x Hx Hn. assert (In (Low x) (flat_map range_ids (r :: rest))) as Hin.
    { apply in_flat_map. exists x. split; [done|]. apply range_ids_covers. unfold covers, names in *. lia. }
    rewrite Ei in Hin. destruct Hin.
  - apply Nat.ltb_ge in El. destruct rest; [|cbn in El; lia]. destruct (Z.eqb_spec (Hi r) 0) as [H0|H0]; [|done].
    unfold flat_map, range_ids in E. by rewrite H0 in E.
Qed.

(** ** What the deletion log reports *)

Section Reported.
Context (maxResults : Z).

(** Single positions in ascending order are kept apart by Normalize. *)
Lemma singles_separated ids : StronglySorted Z.lt ids -> separated (map (fun id => mkRange id 0) ids).
Proof.
  induction 1 as [|a ids Hs IH Ha]; [done|]. destruct ids as [|b ids]; [done|]. cbn in *. inversion Ha; subst. repeat split; [lia|lia|exact IH].
Qed.

Lemma sorted_strictly l : List.NoDup l -> StronglySorted Z.lt (sort_by Z.ltb l).
Proof.
  intros Hn. assert (forall x, StronglySorted (le_by Z.ltb) x -> List.NoDup x -> StronglySorted Z.lt x) as H.
  { induction x as [|a x IH]; intros Hs Hx; [constructor|]. inversion Hs as [|? ? Hs' Ha]; inversion Hx as [|? ? Hna Hx']; subst.
    constructor; [by apply IH|]. rewrite List.Forall_forall in *. intros b Hb. specialize (Ha b Hb). unfold le_by in Ha.
    assert (a <> b) by (intros ->; done). lia. }
  apply H; [apply sort_by_sorted, _|]. eapply Permutation_NoDup; [symmetry; apply sort_by_perm|done].
Qed.

Lemma sorted_id {A} (lt : A -> A -> bool) `{!StrictTotal lt} l : StronglySorted (le_by lt) l -> sort_by lt l = l.
Proof. intros H. apply (sorted_perm_unique lt); [apply sort_by_sorted, _|done|apply sort_by_perm]. Qed.

#[local] Instance range_before_strict : StrictTotal range_before.
Proof.
  constructor; unfold range_before.
  - intros a. lia.
  - intros a b c. lia.
  - intros [a1 a2] [b1 b2]; cbn. intros. f_equal; lia.
Qed.

Lemma sort_singles ids : StronglySorted Z.lt ids -> sort_ranges (map (fun id => mkRange id 0) ids) = map (fun id => mkRange id 0) ids.
Proof.
  intros Hs. apply sorted_id; [apply _|]. induction Hs as [|a ids Hs IH Ha]; cbn; constructor; [done|].
  rewrite List.Forall_forall in *. intros r (b & <- & Hb)%in_map_iff. specialize (Ha b Hb). unfold le_by, range_before. cbn. lia.
Qed.

(** Rows of one deletion are one record. *)
Lemma group_one rows id done ranges : 0 < id -> Forall (fun l => l.(lg_delid) = id) rows ->
  group_rows rows done (id, ranges) = (done ++ [(id, (ranges ++ map logged_range rows)%list)])%list.
Proof.
  intros Hid H. revert ranges. induction H as [|l rows Hl H IH]; intros ranges; cbn [group_rows].
  - cbn [fst]. replace (0 <? id) with true by lia. by rewrite app_nil_r.
  - rewrite Hl. cbn [fst snd]. rewrite Z.eqb_refl. cbn [negb fst snd]. rewrite IH, <- app_assoc. done.
Qed.

Lemma group_rows_one rows id : 0 < id -> rows <> [] -> Forall (fun l => l.(lg_delid) = id) rows ->
  group_rows rows [] (0, []) = [(id, map logged_range rows)].
Proof.
  intros Hid Hne H. destruct H as [|l rows Hl H]; [done|]. cbn [group_rows]. rewrite Hl. cbn [fst snd]. replace (id =? 0) with false by lia.
  cbn [negb]. replace (0 <? 0) with false by lia. cbn [fst snd app]. by rewrite group_one.
Qed.

Lemma sort_same_key rows id : Forall (fun l => l.(lg_delid) = id) rows -> sort_by (fun a b => a.(lg_delid) <? b.(lg_delid)) rows = rows.
Proof.
  induction 1 as [|l rows Hl H IH]; [done|]. cbn [sort_by]. rewrite IH. destruct H as [|b rows Hb H]; [done|]. cbn.
  by replace (lg_delid b <? lg_delid l) with false by lia.
Qed.

(** The positions of a topic that a hard deletion clears. *)
Definition clears (topic : string) (d : DelMessage) (db : DelDB) (z : Z) : Prop :=
  exists id m, In (id, m) db.(dd_messages) /\ m.(m_SeqId) = z /\ m.(m_Topic) = topic /\ covered d.(dm_ranges) z = true /\
    m.(m_DeletedAt) = None /\ newer d.(dm_newerThan) m = true.

(** A hard deletion writes one row of its id for every position it clears. *)
Lemma hard_rows now topic d db db' : wf_log db -> 0 < d.(dm_DelId) -> d.(dm_DeletedFor) = 0%N -> d.(dm_ranges) <> [] ->
  messageDeleteList now topic (Some d) db = Some db' ->
  exists ids, StronglySorted Z.lt ids /\ Forall (fun z => 0 < z) ids /\ (forall z, In z ids <-> clears topic d db z) /\
    db'.(dellog) = (db.(dellog) ++ map (fun z => mkLog topic 0%N d.(dm_DelId) z (z + 1)) ids)%list.
Proof.
  intros Hw Hid Hf Hne H. unfold messageDeleteList in H. rewrite Hf in H. cbn [N.eqb] in H. destruct (dm_ranges d) as [|r rs] eqn:Er; [done|].
  apply bind_Some in H as (q & Hq & H). apply fmap_Some in Hq as (q0 & Hq & ->).
  set (ids := to_clear topic (Some q0) (dm_newerThan d) db) in *.
  assert (forall z, In z ids <-> clears topic d db z) as Hc.
  { intros z. unfold ids, clears. rewrite to_clear_In, (RangesToSql_covered _ _ z Hq), Er. done. }
  assert (Forall (fun z => 0 < z) ids) as Hp.
  { apply List.Forall_forall. intros z (i & m & Hin & <- & _)%Hc. exact (wf_positive _ Hw _ Hin). }
  assert (List.NoDup ids) as Hn.
  { apply (once_in_topic _ _ topic (wf_once _ Hw)). intros m Hm. by apply andb_true_iff in Hm as [[[?%String.eqb_eq _]%andb_true_iff _]%andb_true_iff _]. }
  exists (sort_by Z.ltb ids). split; [by apply sorted_strictly|].
  assert (forall z, In z (sort_by Z.ltb ids) <-> In z ids) as Hi.
  { intros z. split; apply Permutation_in; [|symmetry]; apply sort_by_perm. }
  assert (Forall (fun z => 0 < z) (sort_by Z.ltb ids)) as Hp'.
  { rewrite List.Forall_forall in *. intros z Hz. apply Hp. by apply Hi. }
  split; [done|]. split; [intros z; by rewrite Hi|]. fold ids in H. destruct ids as [|i l] eqn:Ei.
  - injection H as <-. cbn. by rewrite app_nil_r.
  - rewrite <- Ei in *. apply bind_Some in H as (q' & _ & [= <-]). destruct (slice_to_ranges_exact _ Hp') as [-> _].
    unfold log_deletion. replace (0 <? dm_DelId d) with true by lia. cbn [dellog]. f_equal. rewrite map_map. apply map_ext.
    intros z. unfold log_entry. cbn. by rewrite Hf.
Qed.

Lemma keep_none {A} (f : A -> bool) l : (forall x, In x l -> f x = false) -> List.filter f l = [].
Proof. induction l as [|a l IH]; intros H; [done|]. cbn. rewrite (H a) by (by left). apply IH. intros x Hx. apply H. by right. Qed.

Lemma keep_all {A} (f : A -> bool) l : (forall x, In x l -> f x = true) -> List.filter f l = l.
Proof. induction l as [|a l IH]; intros H; [done|]. cbn. rewrite (H a) by (by left). f_equal. apply IH. intros x Hx. apply H. by right. Qed.

Lemma largest_one id (r : list Range) : 0 < id -> fold_left (fun maxID dm => if maxID <? fst dm then fst dm else maxID) [(id, r)] 0 = id.
Proof. intros H. cbn. by replace (0 <? id) with true by lia. Qed.

(** C24: a hard deletion is reported exactly: asked for the deletions from its id on, the store names that id and ranges that
    cover the positions it cleared and no others, as long as there are no more of them than a query returns. *)
Theorem hard_deletion_reported now topic d u db db' :
  wf_log db -> 0 < d.(dm_DelId) <= 2 ^ 31 - 1 -> d.(dm_DeletedFor) = 0%N -> d.(dm_ranges) <> [] ->
  Forall (fun l => l.(lg_topic) = topic -> l.(lg_delid) < d.(dm_DelId)) db.(dellog) ->
  messageDeleteList now topic (Some d) db = Some db' -> db'.(dellog) <> db.(dellog) ->
  Z.of_nat (List.length db'.(dellog)) <= Z.of_nat (List.length db.(dellog)) + maxResults ->
  let r := GetDeleted maxResults topic u (Some (mkOpt None d.(dm_DelId) 0 0 false [])) db' in
  snd r = d.(dm_DelId) /\ forall z, covered (fst r) z = true <-> clears topic d db z.
Proof.
  intros Hw Hid Hf Hne Hold H Hnew Hlen. destruct (hard_rows now topic d db db' Hw) as (ids & Hs & Hp & Hc & El); [lia|done|done|done|].
  set (rows := map (fun z => mkLog topic 0%N (dm_DelId d) z (z + 1)) ids) in *.
  assert (Forall (fun l => l.(lg_delid) = d.(dm_DelId)) rows) as Hrows by (apply List.Forall_forall; intros l (z & <- & _)%in_map_iff; done).
  assert (log_rows maxResults topic u (Some (mkOpt None d.(dm_DelId) 0 0 false [])) db' = rows) as E.
  { unfold log_rows. rewrite El, List.filter_app. unfold since_of, before_of. cbn [q_Since q_Before]. replace (0 <? dm_DelId d) with true by lia.
    replace (List.filter _ (dellog db)) with (@nil LogRow).
    2: { symmetry. apply keep_none. intros l Hl. rewrite List.Forall_forall in Hold. specialize (Hold l Hl).
         destruct (String.eqb_spec (lg_topic l) topic) as [Ht|]; [|done]. specialize (Hold Ht). cbn. replace (dm_DelId d <=? lg_delid l) with false by lia. done. }
    rewrite keep_all by (intros l (z & <- & _)%in_map_iff; cbn; rewrite String.eqb_refl; lia).
    cbn [app]. rewrite (sort_same_key _ _ Hrows). apply firstn_all2. unfold limit_of. cbn. rewrite El, length_app in Hlen. lia. }
  assert (rows <> []) as Hnil by (intros E0; rewrite E0, app_nil_r in El; congruence).
  unfold GetDeleted, MessageGetDeleted. rewrite E, (group_rows_one rows (dm_DelId d) ltac:(lia) Hnil Hrows). cbn [flat_map snd fst].
  rewrite app_nil_r, (largest_one (dm_DelId d)) by lia. cbv zeta. cbn [fst snd]. split; [done|].
  assert (map logged_range rows = map (fun z => mkRange z 0) ids) as ->.
  { unfold rows. rewrite map_map. apply map_ext. intros z. unfold logged_range. cbn. by replace (z + 1 <=? z + 1) with true by lia. }
  rewrite sort_singles, normalize_separated by (done || by apply singles_separated). intros z. rewrite <- Hc.
  destruct (slice_to_ranges_exact ids Hp) as [E1 E2]. rewrite <- E1. apply E2.
Qed.
End Reported.

(** ** {del msg} *)

(** Entries of a valid request name at least one position, and so do the ranges made of them. *)
Lemma del_entry_names lastID dq r : del_entry lastID dq = Some r -> names r.
Proof.
  destruct dq as [low hi]. unfold del_entry, names, upper. destruct (_ || _) eqn:E; [done|]. intros [= <-]. cbn [Low Hi].
  destruct (Z.ltb_spec lastID hi).
  - destruct (Z.eqb_spec (lastID + 1) 0); lia.
  - destruct ((low =? hi) || (low + 1 =? hi)) eqn:E2; [cbn; lia|]. destruct (Z.eqb_spec hi 0); lia.
Qed.

Lemma del_entries_names lastID seq : forall count ranges n rs, del_entries lastID count ranges seq = Some (n, rs) ->
  Forall names ranges -> Forall names rs /\ (seq <> [] \/ ranges <> [] -> rs <> []).
Proof.
  induction seq as [|dq seq IH]; intros count ranges n rs H Hr; cbn [del_entries] in H.
  - injection H as _ <-. split; [done|]. by intros [|].
  - apply bind_Some in H as (r & Hr1 & H). apply IH in H as [H1 H2].
    + split; [done|]. intros _. apply H2. right. by destruct ranges.
    + apply List.Forall_app. split; [done|]. constructor; [by eapply del_entry_names|constructor].
Qed.

Lemma at_names rs i : Forall names rs -> (i < List.length rs)%nat -> names (at_ rs i).
Proof. intros H Hi. rewrite List.Forall_forall in H. apply H. by apply nth_In. Qed.

(** One turn of Normalize keeps the ranges sensible, their number, and [prev] behind the index. *)
Lemma normalize_step_names rs prev i : Forall names rs -> (prev < i)%nat -> (i < List.length rs)%nat ->
  let '(rs', prev') := normalize_step (rs, prev) i in Forall names rs' /\ List.length rs' = List.length rs /\ (prev' < S i)%nat.
Proof.
  intros Hn Hp Hl. unfold normalize_step. destruct (_ =? _); [repeat split; [done|lia]|].
  destruct (_ && _) eqn:E; [|repeat split; [done|lia]]. destruct (Z.ltb_spec (Hi (at_ rs prev)) (Hi (at_ rs i))); [|repeat split; [done|lia]].
  split; [|split; [apply length_insert|lia]]. apply Forall_insert; [done|].
  pose proof (at_names rs prev Hn ltac:(lia)) as H1. unfold names, upper in *. cbn [Low Hi].
  destruct (Z.eqb_spec (Hi (at_ rs prev)) 0), (Z.eqb_spec (Hi (at_ rs i)) 0); lia.
Qed.

Lemma normalize_loop_names n : forall rs prev i, Forall names rs -> (prev < i)%nat -> (i + n = List.length rs)%nat ->
  let '(rs', prev') := fold_left normalize_step (List.seq i n) (rs, prev) in Forall names rs' /\ List.length rs' = List.length rs.
Proof.
  induction n as [|n IH]; intros rs prev i Hn Hp Hi; cbn [List.seq fold_left]; [done|].
  pose proof (normalize_step_names rs prev i Hn Hp ltac:(lia)) as H. destruct (normalize_step (rs, prev) i) as [rs1 prev1].
  destruct H as (H1 & H2 & H3). specialize (IH rs1 prev1 (S i) H1 H3 ltac:(lia)). destruct (fold_left _ _ _) as [rs2 prev2]. by rewrite <- H2.
Qed.

Lemma Normalize_names rs : Forall names rs -> rs <> [] -> Forall names (Normalize rs) /\ Normalize rs <> [].
Proof.
  intros Hn Hne. unfold Normalize. destruct (Nat.ltb_spec 1 (List.length rs)); [|done].
  pose proof (normalize_loop_names (List.length rs - 1) rs 0 1 Hn ltac:(lia) ltac:(lia)) as H1.
  destruct (fold_left _ _ _) as [rs' prev]. destruct H1 as [H1 H2]. split.
  - rewrite List.Forall_forall in *. intros r Hr. apply H1. by eapply In_firstn.
  - destruct rs' as [|r rs']; [cbn in H2; lia|]. by rewrite Nat.add_1_r.
Qed.

Lemma delete_ranges_names lastID seq ranges : delete_ranges lastID seq = Some ranges -> Forall names ranges /\ ranges <> [].
Proof.
  unfold delete_ranges. destruct seq as [|dq seq]; [done|]. intros H. apply bind_Some in H as ([n rs] & Hd & H). cbn [fst snd] in H.
  destruct (_ && _); [done|]. injection H as <-. apply del_entries_names in Hd as [H1 H2]; [|constructor].
  assert (rs <> []) as Hne by (apply H2; by left). apply Normalize_names.
  - rewrite List.Forall_forall in *. intros r Hr. apply H1. eapply Permutation_in; [apply sort_by_perm|exact Hr].
  - intros E. apply Hne, Permutation_nil. unfold sort_ranges in E. rewrite <- E. apply sort_by_perm.
Qed.

(** *** What a request names *)

(** The positions an entry names, by the protocol: [low] alone if no greater upper end is given, otherwise those
    from [low] up to but not including [hi], as far as the topic has them. *)
Definition entry_end (e : Z * Z) : Z := Z.max (e.1 + 1) e.2.
Definition asked (lastID : Z) (e : Z * Z) (z : Z) : Prop := e.1 <= z < entry_end e /\ z <= lastID.
Definition asked_any (lastID : Z) (seq : list (Z * Z)) (z : Z) : Prop := exists e, In e seq /\ asked lastID e z.

(** [a] ends at least two positions before [b] begins, or is a single position before [b]. *)
Definition ends_before (a b : Z * Z) : Prop := entry_end a + 1 < b.1 \/ (entry_end a = a.1 + 1 /\ a.1 < b.1).
Definition apart : list (Z * Z) -> Prop := ForallOrdPairs (fun a b => ends_before a b \/ ends_before b a).

Definition valid_entry (lastID : Z) (e : Z * Z) : Prop :=
  0 <= e.1 <= lastID /\ 0 <= e.2 /\ (e.2 = 0 \/ e.1 <= e.2) /\ ~ (e.1 = 0 /\ e.2 = 0).

(** The ranges of a deletion for a request: nothing but named positions and single positions between two named
    ones; exactly the named positions if the entries of the request are apart. *)
Definition stands_for (lastID : Z) (seq : list (Z * Z)) (ranges : list Range) : Prop :=
  seq <> [] /\ List.Forall (valid_entry lastID) seq /\
  (forall z, covered ranges z = true ->
     asked_any lastID seq z \/ (asked_any lastID seq (z - 1) /\ asked_any lastID seq (z + 1))) /\
  (apart seq -> forall z, covered ranges z = true <-> asked_any lastID seq z).

Lemma del_entry_asked lastID e r : del_entry lastID e = Some r ->
  valid_entry lastID e /\ Low r = e.1 /\ forall z, covers r z = true <-> asked lastID e z.
Proof.
  destruct e as [low hi]. unfold del_entry, valid_entry, asked, entry_end, covers, upper. cbn [fst snd].
  destruct (_ || _) eqn:E; [done|]. intros [= <-]. cbn [Low Hi]. split; [lia|]. split; [done|]. intros z.
  destruct (Z.ltb_spec lastID hi); [destruct (Z.eqb_spec (lastID + 1) 0); lia|].
  destruct ((low =? hi) || (low + 1 =? hi)) eqn:E2; [cbn; lia|]. destruct (Z.eqb_spec hi 0); lia.
Qed.

Lemma del_entries_each lastID seq : forall count ranges n rs, del_entries lastID count ranges seq = Some (n, rs) ->
  exists new, rs = (ranges ++ new)%list /\ List.Forall2 (fun e r => del_entry lastID e = Some r) seq new.
Proof.
  induction seq as [|e seq IH]; intros count ranges n rs H; cbn [del_entries] in H.
  - injection H as _ <-. exists []. by rewrite app_nil_r.
  - apply bind_Some in H as (r & Hr & H). apply IH in H as (new & -> & Hn). exists (r :: new).
    split; [by rewrite <- app_assoc|by constructor].
Qed.

Lemma Forall2_in_l {A B} (R : A -> B -> Prop) l k : List.Forall2 R l k -> forall a, In a l -> exists b, In b k /\ R a b.
Proof. induction 1 as [|a b l k Hab _ IH]; [by intros ? []|]; intros x [<-|Hx]; [by exists b; split; [left|]|]. destruct (IH x Hx) as (y & ? & ?). exists y. by split; [right|]. Qed.

Lemma Forall2_in_r {A B} (R : A -> B -> Prop) l k : List.Forall2 R l k -> forall b, In b k -> exists a, In a l /\ R a b.
Proof. induction 1 as [|a b l k Hab _ IH]; [by intros ? []|]; intros x [<-|Hx]; [by exists a; split; [left|]|]. destruct (IH x Hx) as (y & ? & ?). exists y. by split; [right|]. Qed.

(** One turn of Normalize adds nothing but single positions between two that were covered. *)
Definition sensible (P : Z -> Prop) (r : Range) : Prop :=
  names r /\ P (Low r) /\ P (upper r - 1) /\ forall z, covers r z = true -> P z \/ (P (z - 1) /\ P (z + 1)).

Lemma normalize_step_sensible P rs prev i : Forall (sensible P) rs -> (prev < i)%nat -> (i < List.length rs)%nat ->
  let '(rs', prev') := normalize_step (rs, prev) i in
  Forall (sensible P) rs' /\ List.length rs' = List.length rs /\ (prev' < S i)%nat.
Proof.
  intros Hn Hp Hl. unfold normalize_step. destruct (_ =? _); [repeat split; [done|lia]|].
  destruct (_ && _) eqn:E; [|repeat split; [done|lia]]. destruct (Z.ltb_spec (Hi (at_ rs prev)) (Hi (at_ rs i))); [|repeat split; [done|lia]].
  split; [|split; [apply length_insert|lia]]. apply Forall_insert; [done|].
  assert (forall k, (k < List.length rs)%nat -> sensible P (at_ rs k)) as Hat.
  { intros k Hk. rewrite List.Forall_forall in Hn. apply Hn. by apply nth_In. }
  destruct (Hat prev ltac:(lia)) as (N1 & L1 & U1 & C1), (Hat i Hl) as (N2 & L2 & U2 & C2). clear Hat Hn.
  set (a := at_ rs prev) in *. set (b := at_ rs i) in *. apply andb_true_iff in E as [E1 E2].
  unfold sensible, names, covers, upper in *. cbn [Low Hi].
  destruct (Z.eqb_spec (Hi a) 0); [lia|]. destruct (Z.eqb_spec (Hi b) 0); [lia|].
  split; [lia|]. split; [done|]. split; [done|]. intros z Hz.
  destruct (Z.ltb_spec z (Hi a)); [apply C1; lia|]. destruct (Z.leb_spec (Low b) z); [apply C2; lia|].
  right. replace z with (Hi a) by lia. replace (Hi a + 1) with (Low b) by lia. done.
Qed.

Lemma normalize_loop_sensible P n : forall rs prev i, Forall (sensible P) rs -> (prev < i)%nat -> (i + n = List.length rs)%nat ->
  let '(rs', prev') := fold_left normalize_step (List.seq i n) (rs, prev) in Forall (sensible P) rs'.
Proof.
  induction n as [|n IH]; intros rs prev i Hn Hp Hi; cbn [List.seq fold_left]; [done|].
  pose proof (normalize_step_sensible P rs prev i Hn Hp ltac:(lia)) as H. destruct (normalize_step (rs, prev) i) as [rs1 prev1].
  destruct H as (H1 & H2 & H3). apply IH; [done|done|lia].
Qed.

Lemma Normalize_sensible P rs : Forall (sensible P) rs -> Forall (sensible P) (Normalize rs).
Proof.
  intros Hn. unfold Normalize. destruct (Nat.ltb_spec 1 (List.length rs)); [|done].
  pose proof (normalize_loop_sensible P (List.length rs - 1) rs 0 1 Hn ltac:(lia) ltac:(lia)) as H1.
  destruct (fold_left _ _ _) as [rs' prev]. rewrite List.Forall_forall in *. intros r Hr. apply H1. by eapply In_firstn.
Qed.

#[local] Instance range_before_total : StrictTotal range_before.
Proof.
  split; unfold range_before.
  - intros [a b]. cbn. lia.
  - intros [a b] [c d] [e f]. cbn. lia.
  - intros [a b] [c d]. cbn. intros H1 H2. f_equal; lia.
Qed.

Lemma pairs_perm {A} (R : A -> A -> Prop) l l' :
  (forall a b, R a b -> R b a) -> Permutation l l' -> ForallOrdPairs R l -> ForallOrdPairs R l'.
Proof.
  intros HR Hp. induction Hp as [|x l l' Hp IH|x y l|l1 l2 l3 _ IH1 _ IH2]; intros H.
  - done.
  - inversion H as [|? ? Hx Hl]; subst. constructor; [by rewrite <- Hp|by apply IH].
  - inversion H as [|? ? Hy Hl]; subst. inversion Hl as [|? ? Hx Hl']; subst. inversion Hy; subst.
    constructor; [constructor; [by apply HR|done]|by constructor].
  - by apply IH2, IH1.
Qed.

(** Sorted ranges of entries that are apart are what Normalize leaves alone. *)
Definition range_ends_before (a b : Range) : Prop := Low a < Low b /\ (Hi a = 0 \/ Hi a + 1 < Low b).

Lemma apart_separated rs : StronglySorted (le_by range_before) rs ->
  ForallOrdPairs (fun a b => range_ends_before a b \/ range_ends_before b a) rs -> separated rs.
Proof.
  induction rs as [|a [|b rs] IH]; intros Hs Hp; [done|done|].
  inversion Hs as [|? ? Hs' Ha]; subst. inversion Hp as [|? ? Hpa Hp']; subst. inversion Ha as [|? ? Hab _]; subst.
  inversion Hpa as [|? ? Hpab _]; subst. specialize (IH Hs' Hp').
  unfold le_by, range_before in Hab. unfold range_ends_before in Hpab. cbn [separated].
  split; [lia|]. split; [lia|exact IH].
Qed.

Lemma apart_ranges lastID seq rs :
  List.Forall2 (fun e r => del_entry lastID e = Some r) seq rs -> apart seq ->
  ForallOrdPairs (fun a b => range_ends_before a b \/ range_ends_before b a) rs.
Proof.
  assert (forall e r e' r', del_entry lastID e = Some r -> del_entry lastID e' = Some r' -> ends_before e e' -> range_ends_before r r') as Hone.
  { intros [l h] r [l' h'] r'. unfold ends_before, entry_end, range_ends_before, del_entry. cbn [fst snd].
    intros H1 H2. destruct (_ || _) eqn:E1 in H1; [done|]. injection H1 as <-.
    destruct (_ || _) eqn:E2 in H2; [done|]. injection H2 as <-. cbn [Low Hi].
    intros Hb. destruct (Z.ltb_spec lastID h); [lia|]. destruct ((l =? h) || (l + 1 =? h)) eqn:E3; lia. }
  induction 1 as [|e r seq rs Hr Hrs IH]; intros Ha; [constructor|].
  inversion Ha as [|? ? He Ha']; subst. constructor; [|by apply IH].
  clear Ha Ha' IH. induction Hrs as [|e' r' seq rs Hr' Hrs IH]; constructor; inversion He as [|? ? [H|H] He']; subst; eauto.
Qed.

Lemma delete_ranges_stand lastID seq ranges : delete_ranges lastID seq = Some ranges -> stands_for lastID seq ranges.
Proof.
  intros H. unfold delete_ranges in H. destruct seq as [|e0 seq0]; [done|]. set (seq := e0 :: seq0) in *.
  apply bind_Some in H as ([n rs] & Hd & H). cbn [fst snd] in H. destruct (_ && _); [done|]. injection H as <-.
  apply del_entries_each in Hd as (new & E & Hn). cbn [app] in E. subst new.
  assert (forall z, covered (sort_ranges rs) z = true <-> asked_any lastID seq z) as Hc.
  { intros z. unfold covered, asked_any. rewrite existsb_exists. split.
    - intros (r & Hr & Hz). apply (Permutation_in _ (sort_by_perm _ _)) in Hr.
      destruct (Forall2_in_r _ _ _ Hn _ Hr) as (e & He & Her). exists e. split; [done|]. by apply (del_entry_asked _ _ _ Her).
    - intros (e & He & Hz). destruct (Forall2_in_l _ _ _ Hn _ He) as (r & Hr & Hre). exists r.
      split; [apply (Permutation_in _ (Permutation_sym (sort_by_perm _ _))), Hr|]. by apply (del_entry_asked _ _ _ Hre). }
  split; [done|]. split; [|split].
  - rewrite List.Forall_forall. intros e He. destruct (Forall2_in_l _ _ _ Hn _ He) as (r & _ & Hr). by apply (del_entry_asked _ _ _ Hr).
  - assert (Forall (sensible (asked_any lastID seq)) (sort_ranges rs)) as Hs.
    { rewrite List.Forall_forall. intros r Hr. apply (Permutation_in _ (sort_by_perm _ _)) in Hr.
      destruct (Forall2_in_r _ _ _ Hn _ Hr) as (e & He & Hre). pose proof (del_entry_names _ _ _ Hre) as Hnm.
      apply del_entry_asked in Hre as (_ & _ & Ha). unfold sensible.
      assert (forall z, covers r z = true -> asked_any lastID seq z) as Hca by (intros z Hz; exists e; split; [done|by apply Ha]).
      unfold names in Hnm. split; [exact Hnm|]. split; [apply Hca; unfold covers; lia|]. split; [apply Hca; unfold covers; lia|]. auto. }
    apply Normalize_sensible in Hs. intros z Hz. unfold covered in Hz. apply existsb_exists in Hz as (r & Hr & Hz).
    rewrite List.Forall_forall in Hs. by apply (Hs r Hr).
  - intros Ha. rewrite normalize_separated; [exact Hc|]. apply apart_separated; [apply sort_by_sorted; apply _|].
    eapply pairs_perm; [|symmetry; apply sort_by_perm|by eapply apart_ranges]. intros a b [?|?]; auto.
Qed.

Lemma positions_covered ranges z : In z (positions ranges) <-> covered ranges z = true.
Proof.
  unfold positions, covered. rewrite in_flat_map, existsb_exists. split; intros (r & Hr & H); exists r; (split; [done|]).
  - apply list_elem_of_In, elem_of_seqZ in H. unfold covers. lia.
  - apply list_elem_of_In, elem_of_seqZ. unfold covers in H. lia.
Qed.

Section DelMsg.
Context {St : Type} `{Subs : SubStore St, Pubs : !PubStore St, Dels : !DelStore St, Laws : !DelStoreLaws St}.
Context (now : Z) (msgDeleteAge : Z).
Implicit Types w : World St.

Definition same_history (w w' : World St) : Prop :=
  forall t u z, history w'.(w_store) t u z = history w.(w_store) t u z.

(** The check of a member's own messages reads only; if it passes, the messages are theirs. *)
Lemma check_own_run sess orig asUid seqs : forall w w' r, check_own sess orig asUid seqs w = (w', r) ->
  w'.(w_store) = w.(w_store) /\ w'.(w_topic) = w.(w_topic) /\
  match r with
  | Ret _ => w' = w /\ (whole w.(w_store) -> forall z u m, In z seqs -> history w.(w_store) w.(w_topic).(t_name) u z = Some m -> ParseUid m.(m_From) = asUid)
  | Err _ => exists c, w'.(w_out) = QueueOut (sid sess) (CtrlReply c) :: w.(w_out)
  | Panic _ => False
  end.
Proof.
  induction seqs as [|z seqs IH]; intros w w' r H; cbn [check_own] in H.
  - injection H as <- <-. repeat split; done.
  - unfold bind at 1, get_topic, bind at 1, call in H. pose proof (law_found (t_name (w_topic w)) z (w_store w)) as [Es Hf].
    destruct (message_get _ _ _) as [s o] eqn:Eg. cbn [fst snd] in *. subst s.
    replace (mkWorld (w_topic w) (w_store w) (w_out w)) with w in H by (by destruct w).
    destruct o as [[[id stored]|]|e]; cbn [w_topic w_store w_out] in H.
    + destruct (N.eqb_spec (ParseUid (m_From stored)) asUid) as [Ho|Ho].
      * apply IH in H as (H1 & H2 & H3). split; [done|]. split; [done|]. destruct r; try done. destruct H3 as [-> H3]. split; [done|].
        intros Hw y u m [<-|Hy] Hm; [|by eapply H3]. destruct (Hf _ u m Hw eq_refl Hm) as [i [= _ ->]]. done.
      * injection H as <- <-. cbn. repeat split. by eexists.
    + apply IH in H as (H1 & H2 & H3). split; [done|]. split; [done|]. destruct r; try done. destruct H3 as [-> H3]. split; [done|].
      intros Hw y u m [<-|Hy] Hm; [|by eapply H3]. by destruct (Hf _ u m Hw eq_refl Hm) as [i ?].
    + injection H as <- <-. cbn. repeat split. by eexists.
Qed.

(** What is announced leaves everybody's history alone. *)
Definition stays (w w' : World St) : Prop := (whole w.(w_store) -> whole w'.(w_store)) /\ same_history w w'.
#[local] Instance stays_preorder : PreOrder stays.
Proof.
  split; [by split|]. intros a b c [H1 H2] [H3 H4]. split; [auto|]. intros t u z. by rewrite H4, H2.
Qed.

Lemma stays_emit e : frame stays (emit (St := St) e).
Proof. by intros w. Qed.
Lemma stays_set_topic t : frame stays (set_topic (St := St) t).
Proof. by intros w. Qed.
Lemma stays_when b (m : M (St := St) unit) : frame stays m -> frame stays (when b m).
Proof. by destruct b. Qed.
Lemma stays_modify f : frame stays (modify (St := St) f).
Proof. by intros w. Qed.

Lemma stays_mark ranges users : frame stays (mark_all (St := St) ranges users).
Proof.
  induction users as [|[uid pud] users IH]; [by intros w|]. cbn [mark_all]. apply frame_bind; [apply _|by intros w|]. intros t.
  apply frame_bind; [apply _|apply stays_set_topic|]. intros _. apply frame_bind; [apply _| |done]. apply stays_when, stays_when, stays_when, stays_emit.
Qed.

Lemma stays_announce sess asUid hard ranges : frame stays (announce_deletion (St := St) now sess asUid hard ranges).
Proof.
  unfold announce_deletion. apply frame_bind; [apply _|by intros w|]. intros t. destruct hard.
  - apply frame_bind; [apply _| |intros _; apply frame_bind; [apply _|apply stays_mark|]; intros _; by intros w].
    unfold unpin_deleted. apply frame_bind; [apply _|by intros w|]. intros t'. apply stays_when. apply frame_bind; [apply _| |].
    + intros w. unfold call. pose proof (law_aux_history (t_name t') (head_set (aux t') topicPinsKey
        (AList (map AInt (List.filter (fun pin => negb (covered ranges pin)) (topicPins (aux t')))))) now (w_store w)) as Haux.
      destruct (update_aux _ _ _ _) as [s e]. exact Haux.
    + intros [e|]; [by intros w|]. by intros w.
  - apply frame_bind; [apply _|apply stays_set_topic|]. intros _. unfold tell_deletion. destruct (_ && _); [by intros w|].
    apply frame_bind; [apply _|by intros w|]. intros t'. by apply stays_when; intros w.
Qed.

(** *** What a hard deletion does in the topic *)

Lemma mark_all_run ranges dn ln users : forall w, w.(w_topic).(t_delID) = dn -> w.(w_topic).(lastID) = ln ->
  exists mid, mark_all (St := St) ranges users w =
    (mkWorld (fold_left (fun t kv => put_user t (fst kv) (with_delID (snd kv) dn)) users w.(w_topic)) w.(w_store) (mid ++ w.(w_out))%list, Ret tt) /\
  forall e, In e mid <-> exists uid pud, In (uid, pud) users /\ IsReader (pud.(modeGiven) &. pud.(modeWant)) = true /\
    0 < calculateUnreadInRanges pud.(readID) ln ranges /\ e = UsersUpdateUnread uid (- calculateUnreadInRanges pud.(readID) ln ranges).
Proof.
  induction users as [|[uid pud] users IH]; intros w Hd Hl.
  - exists []. split; [by destruct w|]. intros e. split; [done|]. by intros (? & ? & [] & _).
  - cbn [mark_all fold_left fst snd]. unfold bind at 1, get_topic, bind at 1, set_topic. cbn [w_topic w_store w_out]. rewrite Hd, Hl.
    set (n := calculateUnreadInRanges (readID pud) ln ranges). set (t1 := put_user (w_topic w) uid (with_delID pud dn)).
    assert (exists l, when (IsReader (modeGiven pud &. modeWant pud)) (when (0 <? n) (usersUpdateUnread (St := St) uid (- n))) (mkWorld t1 w.(w_store) w.(w_out)) =
              (mkWorld t1 w.(w_store) (l ++ w.(w_out))%list, Ret tt) /\
            forall e, In e l <-> IsReader (modeGiven pud &. modeWant pud) = true /\ 0 < n /\ e = UsersUpdateUnread uid (- n)) as (l & E & Hin).
    { destruct (IsReader _); cbn [when]; [|exists []; split; [done|]; intros e; split; [done|intros (? & _); done]].
      destruct (Z.ltb_spec 0 n); cbn [when]; [|exists []; split; [done|]; intros e; split; [done|intros (_ & ? & _); lia]].
      exists [UsersUpdateUnread uid (- n)]. unfold usersUpdateUnread. replace (- n =? 0) with false by lia. split; [done|].
      intros e. cbn. intuition congruence. }
    unfold bind. rewrite E. destruct (IH (mkWorld t1 w.(w_store) (l ++ w.(w_out))%list)) as (mid & -> & Hmid); [done|done|]. cbn [w_topic w_store w_out].
    exists (mid ++ l)%list. rewrite app_assoc. split; [done|]. intros e. rewrite in_app_iff, Hmid, Hin. split.
    + intros [(i & p & Hp & Hz)|(H1 & H2 & H3)]; [exists i, p; split; [by right|done]|exists uid, pud; split; [by left|done]].
    + intros (i & p & [[= <- <-]|Hp] & Hz); [right; tauto|left; by exists i, p].
Qed.

Lemma put_all_users dn users : forall t, (fold_left (fun t kv => put_user t (fst kv) (with_delID (snd kv) dn)) users t) =
  set_perUser t (fold_left (fun m kv => <[fst kv := with_delID (snd kv) dn]> m) users t.(perUser)).
Proof. induction users as [|kv users IH]; intros t; cbn [fold_left]; [by destruct t|]. by rewrite IH. Qed.

Lemma fold_insert_all (f : perUserData -> perUserData) (m : gmap Uid perUserData) u :
  fold_left (fun m kv => <[fst kv := f (snd kv)]> m) (map_to_list m) m !! u = f <$> m !! u.
Proof.
  assert (forall l (m0 : gmap Uid perUserData), List.NoDup (map fst l) ->
    fold_left (fun m kv => <[fst kv := f (snd kv)]> m) l m0 !! u =
      match List.find (fun kv => bool_decide (fst kv = u)) l with Some kv => Some (f (snd kv)) | None => m0 !! u end) as E.
  { induction l as [|[k p] l IH]; intros m0 Hn; [done|]. cbn in *. inversion Hn as [|? ? Hk Hl]; subst. rewrite IH by done. case_bool_decide as Hu.
    - subst k. destruct (List.find _ l) as [[k' p']|] eqn:Ef; [|by rewrite lookup_insert_eq].
      apply find_some in Ef as [Hin Hb]. apply bool_decide_eq_true in Hb. cbn in Hb. subst k'. destruct Hk. apply in_map_iff. by exists (u, p').
    - destruct (List.find _ l); [done|]. by rewrite lookup_insert_ne. }
  rewrite E.
  2: { pose proof (NoDup_fst_map_to_list m) as H. rewrite <- (list_fmap_id (fst <$> _)) in H. apply NoDup_ListNoDup. by rewrite list_fmap_id in H. }
  destruct (List.find _ _) as [[k p]|] eqn:Ef.
  - apply find_some in Ef as [Hin Hb]. apply bool_decide_eq_true in Hb. cbn in *. subst k.
    apply list_elem_of_In, elem_of_map_to_list in Hin. by rewrite Hin.
  - destruct (m !! u) as [p|] eqn:Em; [|done]. apply elem_of_map_to_list, list_elem_of_In in Em. pose proof (find_none _ _ Ef _ Em) as Hb. cbn in Hb.
    by rewrite bool_decide_eq_true_2 in Hb.
Qed.

(** The pins after a hard deletion. *)
Lemma unpin_run sess ranges w : exists aux' s' l, unpin_deleted (St := St) now sess ranges w = (mkWorld (set_aux w.(w_topic) aux') s' (l ++ w.(w_out))%list, Ret tt) /\
  (aux' = w.(w_topic).(aux) \/ forall pin, In pin (topicPins aux') -> covered ranges pin = false) /\
  (forall e, In e l -> e = PresSubsOnline "aux" "" nilPresParams nilPresFilters (sid sess)).
Proof.
  unfold unpin_deleted, bind at 1, get_topic. set (kept := List.filter _ _). destruct (Nat.eqb_spec (List.length kept) (List.length (topicPins (aux (w_topic w))))).
  - exists (aux (w_topic w)), (w_store w), []. split; [by destruct w as [[] ? ?]|]. by split; [left|].
  - cbn [negb when]. unfold bind, call. destruct (update_aux _ _ _ _) as [s [e|]].
    + exists (aux (w_topic w)), s, []. split; [by destruct w as [[] ? ?]|]. by split; [left|].
    + eexists _, s, [_]. split; [reflexivity|]. split; [right|intros e [<-|[]]; done]. intros pin Hp. rewrite pins_roundtrip in Hp.
      * apply filter_In in Hp as [_ Hp]. by apply negb_true_iff.
      * apply List.Forall_forall. intros x Hx. apply filter_In in Hx as [Hx _]. unfold topicPins in Hx. destruct (head_get _ _); try done.
        apply filter_In in Hx as [_ Hx]. lia.
Qed.

(** *** The outcomes of a request *)

Definition refused (sess : Session) (w w' : World St) : Prop :=
  w'.(w_topic) = w.(w_topic) /\ exists c, w'.(w_out) = QueueOut (sid sess) (CtrlReply c) :: w.(w_out).

Definition named (t : Topic) (del : MsgClientDel) (ranges : list Range) : Prop := delete_ranges t.(lastID) del.(del_DelSeq) = Some ranges.
Definition mode_of (t : Topic) (u : Uid) : AccessMode := (user t u).(modeGiven) &. (user t u).(modeWant).

(** Whom a request deletes for, and which messages are too old for it. *)
Definition deleted_for (asUid : Uid) (del : MsgClientDel) : Uid := if del.(del_Hard) then ZeroUid else asUid.
Definition age_of (del : MsgClientDel) : Z := if del.(del_Hard) then msgDeleteAge else 0.

Definition permitted (w : World St) (asUid : Uid) (asChan : bool) (del : MsgClientDel) (ranges : list Range) : Prop :=
  let t := w.(w_topic) in
  asChan = false /\ (user t asUid).(pud_isChan) = false /\ (IsDeleter (mode_of t asUid) = true \/ IsReader (mode_of t asUid) = true) /\
  (whole w.(w_store) -> del.(del_Hard) = true -> IsDeleter (mode_of t asUid) = false ->
     forall u z m, covered ranges z = true -> history w.(w_store) t.(t_name) u z = Some m -> ParseUid m.(m_From) = asUid).

Definition deletion (w : World St) (asUid : Uid) (del : MsgClientDel) (ranges : list Range) : St * option GoError :=
  delete_list w.(w_topic).(t_name) (w.(w_topic).(t_delID) + 1) (deleted_for asUid del) now (age_of del) ranges w.(w_store).

(** A request is refused before the store is asked; or the store fails; or the deletion is announced. *)
Inductive outcome (sess : Session) (asUid : Uid) (asChan : bool) (del : MsgClientDel) (orig : string) (w : World St) : World St -> Res unit -> Prop :=
| o_refused w' e : refused sess w w' -> w'.(w_store) = w.(w_store) -> outcome sess asUid asChan del orig w w' (Err e)
| o_failed w' e ranges : named w.(w_topic) del ranges -> permitted w asUid asChan del ranges -> refused sess w w' ->
    deletion w asUid del ranges = (w'.(w_store), Some e) -> outcome sess asUid asChan del orig w w' (Err e)
| o_deleted s w1 ranges : named w.(w_topic) del ranges -> permitted w asUid asChan del ranges -> deletion w asUid del ranges = (s, None) ->
    announce_deletion now sess asUid del.(del_Hard) ranges
      (mkWorld (set_delID w.(w_topic) (w.(w_topic).(t_delID) + 1)) s w.(w_out)) = (w1, Ret tt) ->
    outcome sess asUid asChan del orig w
      (mkWorld w1.(w_topic) w1.(w_store) (QueueOut (sid sess) (CtrlReply (Ctrl.NoErrParams orig [("del", AInt w1.(w_topic).(t_delID))])) :: w1.(w_out)))
      (Ret tt).

(** Announcing always comes to its end. *)
Lemma announce_returns sess asUid hard ranges w : exists w', announce_deletion (St := St) now sess asUid hard ranges w = (w', Ret tt).
Proof.
  unfold announce_deletion, bind at 1, get_topic. destruct hard.
  - unfold bind at 1. destruct (unpin_run sess ranges w) as (a & s & l & -> & _). unfold bind at 1.
    destruct (mark_all_run ranges (t_delID (w_topic w)) (lastID (w_topic w)) (map_to_list (perUser (w_topic w))) (mkWorld (set_aux (w_topic w) a) s (l ++ w_out w)%list))
      as (mid & -> & _); [done|done|]. by eexists.
  - unfold bind at 1, set_topic, tell_deletion. destruct (_ && _); [by eexists|]. unfold bind at 1, get_topic. destruct (userIsPresencer _ _); by eexists.
Qed.

Lemma ctrl_err_run {A} sess c e w : ctrl_err (A := A) sess c e w = (mkWorld w.(w_topic) w.(w_store) (QueueOut (sid sess) (CtrlReply c) :: w.(w_out)), Err e).
Proof. done. Qed.

Lemma del_msg_outcome sess asUid asChan del orig w w' r :
  replyDelMsg now msgDeleteAge sess asUid asChan del orig w = (w', r) -> outcome sess asUid asChan del orig w w' r.
Proof.
  intros Hr. unfold replyDelMsg, bind at 1, get_topic in Hr. set (t := w_topic w) in *. fold (mode_of t asUid) in Hr.
  assert (forall c e, ctrl_err (A := unit) sess c e w = (w', r) -> outcome sess asUid asChan del orig w w' r) as Href.
  { intros c e. rewrite ctrl_err_run. intros [= <- <-]. apply o_refused; [split; [done|by eexists]|done]. }
  destruct (asChan || pud_isChan (user t asUid)) eqn:Ec; [by eapply Href|]. apply orb_false_iff in Ec as [-> Ec].
  destruct (negb (IsDeleter (mode_of t asUid)) && negb (IsReader (mode_of t asUid))) eqn:Em; [by eapply Href|].
  destruct (delete_ranges (lastID t) (del_DelSeq del)) as [ranges|] eqn:Er; [|by eapply Href]. unfold bind at 1 in Hr.
  destruct (when (del_Hard del && negb (IsDeleter (mode_of t asUid))) (check_own sess orig asUid (positions ranges)) w) as [w0 r0] eqn:Ew.
  assert (w0.(w_topic) = t /\ w0.(w_store) = w.(w_store) /\
          match r0 with
          | Ret _ => w0 = w /\ permitted w asUid false del ranges
          | Err _ => exists c, w0.(w_out) = QueueOut (sid sess) (CtrlReply c) :: w.(w_out)
          | Panic _ => False
          end) as (Et & Es & H0).
  { assert (IsDeleter (mode_of t asUid) = true \/ IsReader (mode_of t asUid) = true) as Hm by (destruct (IsDeleter _), (IsReader _); auto).
    destruct (del_Hard del && negb (IsDeleter (mode_of t asUid))) eqn:Eh; cbn [when] in Ew.
    - apply check_own_run in Ew as (H1 & H2 & H3). split; [done|]. split; [done|]. destruct r0; try done. destruct H3 as [-> H3]. split; [done|].
      repeat split; try done. intros Hw _ _ u z m Hz Hm'. eapply H3; [done| |exact Hm']. by apply positions_covered.
    - injection Ew as <- <-. repeat split; try done. fold t. intros _ Hh Hd. rewrite Hh, Hd in Eh. done. }
  destruct r0 as [[]|e|p]; [|injection Hr as <- <-; by apply o_refused|done]. destruct H0 as [-> Hp]. clear Et Es Ew.
  unfold bind at 1, call in Hr. fold (deleted_for asUid del) (age_of del) in Hr. change (delete_list _ _ _ _ _ _ _) with (deletion w asUid del ranges) in Hr.
  destruct (deletion w asUid del ranges) as [s [e|]] eqn:Ed.
  { rewrite ctrl_err_run in Hr. injection Hr as <- <-. eapply o_failed; [done|done|split; [done|by eexists]|done]. }
  unfold bind at 1, modify, bind at 1, get_topic, set_topic in Hr. cbn [w_topic w_store w_out] in Hr. unfold bind at 1 in Hr.
  destruct (announce_returns sess asUid (del_Hard del) ranges (mkWorld (set_delID t (t_delID t + 1)) s (w_out w))) as [w1 Ea].
  subst t. rewrite Ea in Hr. unfold bind, get_topic, ctrl, queueOut, emit in Hr. injection Hr as <- <-.
  eapply o_deleted; [done|done|exact Ed|exact Ea].
Qed.

(** C14: deleting messages is authorised and exact: if anything of anybody's history changes, and whenever the request succeeds,
    every entry of the request is valid, the user is no channel reader and
    may delete or at least read.  What changes are positions the request names, by the protocol's reading of its entries,
    and, where two named positions enclose a single one, possibly that one; exactly the named positions if the entries are apart
    (entries that touch or contain one another can lose positions).  They change for everybody if the deletion is hard and the
    message not too old, for the user alone otherwise; and a user without the permission to delete has sent every message that a
    hard deletion takes from anybody. *)
Theorem deletion_authorized sess asUid asChan del orig w w' r :
  whole w.(w_store) -> 0 <= w.(w_topic).(t_delID) -> replyDelMsg now msgDeleteAge sess asUid asChan del orig w = (w', r) ->
  whole w'.(w_store) /\
  ((same_history w w' /\ r <> Ret tt) \/
   exists ranges, stands_for w.(w_topic).(lastID) del.(del_DelSeq) ranges /\ permitted w asUid asChan del ranges /\
     forall t u z, history w'.(w_store) t u z =
       after_delete w.(w_topic).(t_name) (deleted_for asUid del) (newer_than now (age_of del)) ranges t u (history w.(w_store) t u z)).
Proof.
  intros Hw Hid Hr. apply del_msg_outcome in Hr.
  assert (forall ranges, named (w_topic w) del ranges -> let d := deletion w asUid del ranges in whole d.1 /\
    ((d.2 <> None /\ forall t u z, history d.1 t u z = history (w_store w) t u z) \/
     forall t u z, history d.1 t u z = after_delete (t_name (w_topic w)) (deleted_for asUid del) (newer_than now (age_of del)) ranges t u (history (w_store w) t u z))) as Hd.
  { intros ranges Hn. destruct (delete_ranges_names _ _ _ Hn) as [Hr1 Hr2]. apply law_delete_list; [done|lia|done|done]. }
  destruct Hr as [w' e [Ht _] Es|w' e ranges Hn Hp _ Ed|s w1 ranges Hn Hp Ed Ea].
  - unfold same_history. rewrite Es. split; [done|]. left. by split.
  - specialize (Hd ranges Hn). rewrite Ed in Hd. cbn in Hd. destruct Hd as [Hw' [[_ Hs]|Hs]]; (split; [done|]); [left; by split|right; exists ranges]. split; [by apply delete_ranges_stand|done].
  - specialize (Hd ranges Hn). rewrite Ed in Hd. cbn in Hd. pose proof (stays_announce sess asUid (del_Hard del) ranges
      (mkWorld (set_delID (w_topic w) (t_delID (w_topic w) + 1)) s (w_out w))) as Hk. rewrite Ea in Hk. destruct Hk as [Hk1 Hk2].
    destruct Hd as [Hw' Hs]. split; [by apply Hk1|]. right. exists ranges. split; [by apply delete_ranges_stand|]. split; [done|]. intros t u z.
    cbn [w_store]. rewrite Hk2. cbn [w_store]. destruct Hs as [[? _]|Hs]; [done|]. apply Hs.
Qed.

(** a request that fails is reported to the session that made it and to nobody else, and leaves the topic as it was. *)
Theorem failed_deletion_silent sess asUid asChan del orig w w' e :
  replyDelMsg now msgDeleteAge sess asUid asChan del orig w = (w', Err e) -> refused sess w w'.
Proof. intros Hr. apply del_msg_outcome in Hr. by inversion Hr. Qed.

(** a deletion that succeeds has the topic's next deletion id, and the session is told it.  After a hard one every subscriber
    has that id, no deleted message stays pinned (or the pins stay as they were), readers' unread counts drop by the messages they had
    not read, and subscribers who may read are told the ranges, on line and off line; after a soft one only the user has the id and
    only their sessions are told. *)
Theorem deletion_announced sess asUid asChan del orig w w' :
  replyDelMsg now msgDeleteAge sess asUid asChan del orig w = (w', Ret tt) ->
  let t := w.(w_topic) in let t' := w'.(w_topic) in let n := t.(t_delID) + 1 in
  exists ranges mid, named t del ranges /\ t'.(t_delID) = n /\
  let told := Slices.rangeDeserialize ranges in
  (exists out, w'.(w_out) = QueueOut (sid sess) (CtrlReply (Ctrl.NoErrParams orig [("del", AInt n)])) :: out ++ mid ++ w.(w_out) /\
   if del.(del_Hard) then
     out = [PresSubsOffline "del" (mkPresParams "" (UserId asUid) "" "" 0 n told "") (mkFilters ModeRead 0 "" "") nilPresFilters (sid sess) true;
            PresSubsOnline "del" (UserId asUid) (mkPresParams "" (UserId asUid) "" "" 0 n told "") (mkFilters ModeRead 0 "" "") (sid sess)]
   else out = if userIsPresencer t asUid
              then [PresSingleUserOffline asUid (mode_of t asUid) "del" (mkPresParams "" "" "" "" 0 n told "") (sid sess) true;
                    PresSubsOnline "del" (UserId asUid) (mkPresParams "" "" "" "" 0 n told "") (mkFilters 0 0 (UserId asUid) "") (sid sess)]
              else []) /\
  (forall uid k, In (UsersUpdateUnread uid k) mid <-> del.(del_Hard) = true /\ exists p, t.(perUser) !! uid = Some p /\
     IsReader (p.(modeGiven) &. p.(modeWant)) = true /\ 0 < - k /\ - k = calculateUnreadInRanges p.(readID) t.(lastID) ranges) /\
  (if del.(del_Hard) then
     (forall u, t'.(perUser) !! u = (fun p => with_delID p n) <$> t.(perUser) !! u) /\
     (t'.(aux) = t.(aux) \/ forall pin, In pin (topicPins t'.(aux)) -> covered ranges pin = false)
   else t'.(perUser) = <[asUid := with_delID (user t asUid) n]> t.(perUser) /\ t'.(aux) = t.(aux)).
Proof.
  intros Hr t t' n. apply del_msg_outcome in Hr. inversion Hr as [| |s w1 ranges Hn Hp Ed Ea]; subst w'. exists ranges.
  unfold announce_deletion, bind at 1, get_topic in Ea. destruct (del_Hard del).
  - unfold bind at 1 in Ea. destruct (unpin_run sess ranges (mkWorld (set_delID t n) s (w_out w))) as (a & s' & l & E & Ha & Hl).
    unfold n, t in E. rewrite E in Ea. clear E. fold t n in Ea. cbn [w_topic w_store w_out] in *. unfold bind at 1 in Ea.
    destruct (mark_all_run ranges n (lastID t) (map_to_list (perUser t)) (mkWorld (set_aux (set_delID t n) a) s' (l ++ w_out w)%list)) as (mid & E & Hmid); [done|done|].
    change (map_to_list (perUser (set_delID t n))) with (map_to_list (perUser t)) in Ea. rewrite E in Ea. clear E.
    cbn [w_topic w_store w_out] in Ea. rewrite put_all_users in Ea. unfold bind, get_topic, emit in Ea. cbn [w_topic w_store w_out t_delID set_perUser set_aux set_delID] in Ea.
    injection Ea as <-. exists (mid ++ l)%list. split; [done|]. split; [done|]. split; [|split; [|split]].
    + eexists. split; [|reflexivity]. cbn. by rewrite <- app_assoc.
    + intros uid k. rewrite in_app_iff, Hmid. split.
      * intros [(i & p & Hin & H1 & H2 & [= -> ->])|Hx%Hl]; [|done]. split; [done|]. exists p. apply list_elem_of_In, elem_of_map_to_list in Hin.
        split; [done|]. split; [done|]. lia.
      * intros (_ & p & Hin & H1 & H2 & H3). left. exists uid, p. split; [by apply list_elem_of_In, elem_of_map_to_list|]. split; [done|]. split; [lia|]. f_equal. lia.
    + intros u. cbn [w_topic perUser set_perUser set_aux set_delID]. apply (fold_insert_all (fun p => with_delID p n)).
    + exact Ha.
  - unfold bind at 1, set_topic, tell_deletion in Ea. destruct (delete_ranges_names _ _ _ Hn) as [_ Hne].
    replace (match Slices.rangeDeserialize ranges with [] => true | _ => false end) with false in Ea by (by destruct ranges).
    cbn [andb] in Ea. unfold bind at 1, get_topic in Ea. exists []. split; [done|].
    change (userIsPresencer _ asUid) with (userIsPresencer (put_user (set_delID t n) asUid (with_delID (user t asUid) n)) asUid) in Ea.
    assert (userIsPresencer (put_user (set_delID t n) asUid (with_delID (user t asUid) n)) asUid = userIsPresencer t asUid) as E.
    { unfold userIsPresencer. destruct (IsZeroUid asUid); [done|]. assert (user (put_user (set_delID t n) asUid (with_delID (user t asUid) n)) asUid = with_delID (user t asUid) n) as ->
        by (unfold user at 1; cbn; by rewrite lookup_insert_eq). done. }
    rewrite E in Ea. cbn [w_topic]. destruct (userIsPresencer t asUid); injection Ea as <-; cbn; (split; [done|]); (split; [eexists; split; [|reflexivity]; reflexivity|]); (split; [|done]);
      intros uid k; (split; [done|intros [? _]; done]).
Qed.
End DelMsg.

(** ** {get data} *)

Section GetData.
Context {St : Type} `{Subs : SubStore St, Pubs : !PubStore St, Dels : !DelStore St, Laws : !DelStoreLaws St}.
Context (time_parse : string -> option Z) (clusters : string -> list string) (sortSlice : list span -> list span) (queue_full : string -> bool).

(** A {data} message shows a stored message. *)
Definition shows (toriginal : string) (asChan : bool) (m : Message) (x : ServerComMessage) : Prop :=
  exists d, x = mkServerMsg (Data d) "" "" /\ d.(d_Topic) = toriginal /\ d.(d_SeqId) = m.(m_SeqId) /\ d.(d_Content) = m.(m_Content) /\
    d.(d_Timestamp) = m.(m_CreatedAt) /\ d.(d_From) = if asChan then "" else UserId (ParseUid m.(m_From)).

Lemma data_messages_run toriginal asChan ms : forall (w w' : World St) r,
  data_messages (St := St) time_parse clusters sortSlice toriginal asChan ms w = (w', r) ->
  w' = w /\ match r with Ret xs => Forall2 (shows toriginal asChan) ms xs | _ => True end.
Proof.
  induction ms as [|m ms IH]; intros w w' r Hr; cbn [data_messages] in Hr; [injection Hr as <- <-; split; [done|constructor]|].
  unfold bind at 1 in Hr. unfold from_stored, bind at 1, lift_out in Hr.
  destruct (serverDataFromStored time_parse clusters sortSlice toriginal (if asChan then "" else UserId (ParseUid (m_From m))) m) as [d|e|p] eqn:Ed;
    cbn in Hr; [|injection Hr as <- <-; done|injection Hr as <- <-; done].
  unfold bind at 1 in Hr. destruct (data_messages _ _ _ toriginal asChan ms w) as [w1 r1] eqn:E1. apply IH in E1 as [-> H1].
  destruct r1 as [xs|e|p]; injection Hr as <- <-; (split; [done|]); [|done|done]. constructor; [|done]. exists d. split; [done|].
  unfold serverDataFromStored in Ed. destruct (messageKind _ _ _) as [k|e|p]; [|done|done]. injection Ed as <-. cbn. done.
Qed.

(** reading shows the reader's history and nothing else: {get data} changes nothing; messages go only to the session that asked,
    for a user who may read, and each is the message the user's history has at its position; channel readers do not see who
    sent it. *)
Theorem data_shows_history sess asUid asChan req orig (w w' : World St) r :
  whole w.(w_store) -> replyGetData time_parse clusters sortSlice queue_full sess asUid asChan req orig w = (w', r) ->
  w'.(w_topic) = w.(w_topic) /\ w'.(w_store) = w.(w_store) /\
  exists pre, w'.(w_out) = (pre ++ w.(w_out))%list /\
    forall s xs, In (SendBatch s xs) pre -> s = sid sess /\ IsReader (mode_of w.(w_topic) asUid) = true /\ queue_full s = false /\
      exists ms, Forall2 (shows (default "" (original w.(w_topic) asUid)) asChan) ms xs /\
        Forall (fun m => history w.(w_store) w.(w_topic).(t_name) asUid m.(m_SeqId) = Some m) ms.
Proof.
  intros Hw Hr. unfold replyGetData, bind at 1, get_topic in Hr.
  assert (forall c e, ctrl_err (A := unit) sess c e w = (w', r) -> w'.(w_topic) = w.(w_topic) /\ w'.(w_store) = w.(w_store) /\
    exists pre, w'.(w_out) = (pre ++ w.(w_out))%list /\ forall s xs, In (SendBatch s xs) pre -> False) as Herr.
  { intros c e. rewrite ctrl_err_run. intros [= <- _]. split; [done|]. split; [done|]. exists [QueueOut (sid sess) (CtrlReply c)].
    split; [done|]. by intros s xs [|[]]. }
  assert (forall c e, ctrl_err (A := unit) sess c e w = (w', r) -> w'.(w_topic) = w.(w_topic) /\ w'.(w_store) = w.(w_store) /\
    exists pre, w'.(w_out) = (pre ++ w.(w_out))%list /\ forall s xs, In (SendBatch s xs) pre -> s = sid sess /\ IsReader (mode_of w.(w_topic) asUid) = true /\
      queue_full s = false /\ exists ms, Forall2 (shows (default "" (original w.(w_topic) asUid)) asChan) ms xs /\
        Forall (fun m => history w.(w_store) w.(w_topic).(t_name) asUid m.(m_SeqId) = Some m) ms) as Href.
  { intros c e Hc. destruct (Herr c e Hc) as (H1 & H2 & pre & H3 & H4). split; [done|]. split; [done|]. exists pre. split; [done|]. intros s xs Hin. by destruct (H4 s xs Hin). }
  clear Herr. unfold bind at 1 in Hr. destruct (original (w_topic w) asUid) as [toriginal|]; cbn [lift_option default] in *.
  2: { injection Hr as <- <-. split; [done|]. split; [done|]. exists []. by split. }
  unfold ret in Hr. destruct (match req with Some _ => _ | None => _ end); [by eapply Href|].
  destruct (snapshot (lastID (w_topic w)) req) as [high queryReq]. fold (mode_of (w_topic w) asUid) in Hr.
  destruct (IsReader (mode_of (w_topic w) asUid)) eqn:Em; cbn [negb] in Hr; [|by eapply Href].
  unfold bind at 1, call in Hr. pose proof (law_get_all (t_name (w_topic w)) asUid (msgOpts2storeOpts queryReq) (w_store w)) as [Es Hl].
  destruct (get_all _ _ _ _) as [s [[ms|]|e]]; cbn [fst snd] in *; subst s; replace (mkWorld (w_topic w) (w_store w) (w_out w)) with w in Hr by (by destruct w);
    [|injection Hr as <- <-; split; [done|]; split; [done|]; exists []; by split|by eapply Href]. specialize (Hl ms Hw eq_refl). destruct ms as [|m ms].
  - injection Hr as <- <-. split; [done|]. split; [done|]. eexists [_]. split; [reflexivity|]. by intros s xs [|[]].
  - unfold bind at 1 in Hr. destruct (data_messages _ _ _ toriginal asChan (m :: ms) w) as [w1 r1] eqn:E1. apply data_messages_run in E1 as [-> H1].
    destruct r1 as [xs|e|p]; [|injection Hr as <- <-; split; [done|]; split; [done|]; exists []; by split..].
    destruct (queue_full (sid sess)) eqn:Eq; [by eapply Href|]. injection Hr as <- <-. split; [done|]. split; [done|]. eexists [_; _]. split; [reflexivity|].
    intros s ys [|[Hin|[]]]; [done|]. injection Hin as <- <-. repeat split; try done. by exists (m :: ms).
Qed.
End GetData.

(** ** {del sub} *)

Section DelSub.
Context {St : Type} `{Subs : SubStore St, Pubs : !PubStore St, Dels : !DelStore St, Laws : !SubStoreLaws St}.
Implicit Types w : World St.

Lemma find_subscriber_run sess uid w w' found : find_subscriber sess uid w = (w', Ret found) -> unchanged w w' /\ same_topic w w' /\
  match found with
  | Some (pud, key, isChan) => key = if isChan : bool then GrpToChn w.(w_topic).(t_name) else w.(w_topic).(t_name)
  | None => True
  end.
Proof.
  intros Hr. unfold find_subscriber, bind at 1, get_topic in Hr. destruct (perUser (w_topic w) !! uid) as [pud|].
  - injection Hr as <- <-. by destruct (pud_isChan pud).
  - assert (forall key w0 w1 sub, store_or sess ErrUnknownReply (subs_get key uid false) w0 = (w1, Ret sub) -> same_topic w0 w1 /\ same_rows w0 w1) as Hget.
    { intros key w0 w1 sub Hs. unfold store_or, bind, call in Hs. pose proof (law_get key uid false (w_store w0)) as [Hl _].
      destruct (subs_get key uid false (w_store w0)) as [s [a|e]]; [|done]. injection Hs as <- <-. by split. }
    apply bind_ret_inv in Hr as (w1 & sub & H1 & Hr). apply Hget in H1 as [T1 R1]. apply bind_ret_inv in Hr as (w2 & [[sub' key] isChan] & H2 & Hr).
    assert ((same_topic w1 w2 /\ same_rows w1 w2) /\ (sub' = None \/ key = if isChan then GrpToChn (t_name (w_topic w)) else t_name (w_topic w))) as [[T2 R2] H3].
    { destruct sub as [s|]; [injection H2 as <- <- <- <-; split; [by split|by right]|].
      destruct (t_isChan (w_topic w)); [|injection H2 as <- <- <- <-; split; [by split|by left]].
      apply bind_ret_inv in H2 as (w3 & sub2 & H3 & H4). apply Hget in H3. injection H4 as <- <- <- <-. split; [done|]. destruct sub2; [by right|by left]. }
    injection Hr as <- <-. assert (same_topic w w2) as T by (by transitivity w1). assert (same_rows w w2) as R by (by transitivity w1).
    split; [|split; [done|]].
    + unfold unchanged. unfold same_topic in T. by rewrite T.
    + destruct sub' as [s|]; [|done]. cbn. by destruct H3.
Qed.

(** What follows the removal of the row takes the member out of the topic and touches no other member and no row. *)
Lemma removed_subscriber_run sess asUid uid pud key isChan w w' :
  removed_subscriber sess asUid uid pud key isChan w = (w', Ret tt) -> w.(w_topic).(t_cat) <> TopicCatP2P ->
  w'.(w_topic).(perUser) = delete uid w.(w_topic).(perUser) /\ w'.(w_topic).(owner) = w.(w_topic).(owner) /\ w'.(w_store) = w.(w_store).
Proof.
  intros Hr Hc. assert (cat_eqb (t_cat (w_topic w)) TopicCatP2P = false) as Ec.
  { destruct (cat_eqb _ _) eqn:E; [|done]. by apply cat_eqb_spec in E. }
  unfold removed_subscriber in Hr. apply bind_ret_inv in Hr as (w3 & t3 & [= <- <-] & Hr).
  apply bind_ret_inv in Hr as (w4 & [] & H4 & Hr). apply bind_ret_inv in Hr as (w5 & [] & H5 & Hr). apply bind_ret_inv in Hr as (w6 & [] & H6 & Hr).
  assert (same_topic w w4 /\ same_store w w4) as [T4 S4].
  { revert H4. unfold usersUpdateUnread. destruct (_ && _), (negb _); cbn [when]; intros [= <-]; by split. }
  assert (same_topic w4 w5 /\ same_store w4 w5) as [T5 S5] by (split; revert H5; apply frame_run; handler).
  pose proof (frame_run same_store _ _ _ _ (evictUser_same_store _ _ _) H6) as S6. unfold same_topic, same_store in *. rewrite T4 in T5.
  apply evictUser_unsub_members in H6 as (P6 & O6 & C6 & _); [|by rewrite T5]. rewrite T5 in P6, O6, C6.
  apply bind_ret_inv in Hr as (w7 & t7 & [= <- <-] & Hr). apply bind_ret_inv in Hr as (w8 & [] & H8 & Hr).
  assert (same_topic w6 w8 /\ same_store w6 w8) as [T8 S8].
  { split; revert H8; apply frame_run; destruct isChan; try (apply when_frame; [apply _|]); handler. }
  unfold same_topic, same_store in *. apply bind_ret_inv in Hr as (w9 & [] & H9 & Hr).
  assert (perUser (w_topic w9) = perUser (w_topic w8) /\ owner (w_topic w9) = owner (w_topic w8) /\ t_cat (w_topic w9) = t_cat (w_topic w8) /\ w_store w9 = w_store w8) as (P9 & O9 & C9 & S9).
  { revert H9. destruct (cat_eqb (t_cat (w_topic w6)) TopicCatGrp && _); cbn; intros [= <-]; by repeat split. }
  apply bind_ret_inv in Hr as (w10 & [] & [= <-] & Hr). apply bind_ret_inv in Hr as (w11 & t11 & [= <- <-] & Hr). cbn [w_topic] in Hr.
  rewrite C9, T8, C6, Ec in Hr. injection Hr as <-. cbn [w_topic w_store]. rewrite P9, O9, T8, P6, O6, S9, S8, S6, S5, S4. done.
Qed.

(** who removes a member may: a user with the permission to administer, from a topic that is neither official nor between two
    users, somebody else than themselves who is not the owner and not banned.  On success either there was nothing to
    remove, or the member's row in the group or channel they belong to is dead and they are no longer among the members;
    everybody else's row and membership, and the owner, are as they were. *)
Theorem remove_sound sess asUid del orig w w' :
  replyDelSub sess asUid del orig w = (w', Ret tt) ->
  let t := w.(w_topic) in let uid := ParseUserId del.(del_User) in
  isOfficialTopic t = false /\ t.(t_cat) <> TopicCatP2P /\ IsAdmin (mode_of t asUid) = true /\ uid <> 0%N /\ uid <> asUid /\
  ((w'.(w_topic) = t /\ rows_but (fun _ _ => False) w.(w_store) w'.(w_store)) \/
   exists pud key, (key = t.(t_name) \/ key = GrpToChn t.(t_name)) /\
     (forall p, t.(perUser) !! uid = Some p -> pud = p) /\
     IsOwner (pud.(modeGiven) &. pud.(modeWant)) = false /\ IsJoiner (pud.(modeGiven) &. pud.(modeWant)) = true /\
     live (row w'.(w_store) key uid) = None /\ rows_but (fun t' u' => t' = key /\ u' = uid) w.(w_store) w'.(w_store) /\
     w'.(w_topic).(perUser) = delete uid t.(perUser) /\ w'.(w_topic).(owner) = t.(owner)).
Proof.
  intros Hr t uid. unfold replyDelSub, bind at 1, get_topic in Hr. fold t in Hr. fold (mode_of t asUid) in Hr. fold uid in Hr.
  destruct (isOfficialTopic t); [done|]. destruct (verifyChannelAccess t orig) as [[|] [e|]]; try done.
  destruct (IsAdmin (mode_of t asUid)); [|done]. cbn [negb] in Hr. destruct (IsZeroUid uid) eqn:Ez; [done|]. apply N.eqb_neq in Ez.
  destruct (N.eqb_spec uid asUid) as [|Hne]; [done|]. cbn [orb] in Hr. destruct (cat_eqb (t_cat t) TopicCatP2P) eqn:Ec; [done|].
  assert (t_cat t <> TopicCatP2P) as Hc by (intros E; rewrite E in Ec; done). repeat (split; [done|]).
  apply bind_ret_inv in Hr as (w1 & found & H1 & Hr). pose proof (find_subscriber_run _ _ _ _ _ H1) as ((_ & _ & R1) & T1 & Hk).
  assert (forall p, perUser t !! uid = Some p -> found = Some (p, (if pud_isChan p then GrpToChn t.(t_name) else t.(t_name)), pud_isChan p)) as Hp.
  { intros p E. unfold find_subscriber, bind at 1, get_topic in H1. fold t in H1. rewrite E in H1. by injection H1 as _ <-. }
  clear H1. unfold same_topic in T1. destruct found as [[[pud key] isChan]|].
  2: { left. injection Hr as <-. cbn. split; [done|]. intros a b _. by rewrite R1. }
  destruct (IsOwner (modeGiven pud &. modeWant pud)) eqn:Eo; [done|]. destruct (IsJoiner (modeGiven pud &. modeWant pud)) eqn:Ej; [|done].
  cbn [negb] in Hr. apply bind_ret_inv in Hr as (w2 & err & H2 & Hr). unfold call in H2.
  pose proof (law_delete key uid (w_store w1)) as Hl. destruct (subs_delete key uid (w_store w1)) as [s x] eqn:Ed. injection H2 as <- <-. cbn [fst snd] in Hl.
  destruct x as [e|].
  { left. case_bool_decide; [|done]. injection Hr as <-. cbn. split; [done|]. intros a b _. by rewrite Hl, R1. }
  right. exists pud, key. split; [rewrite Hk; destruct isChan; auto|]. split; [intros p E; specialize (Hp p E); by injection Hp|]. split; [done|]. split; [done|].
  apply bind_ret_inv in Hr as (w2 & [] & [= <-] & Hr). set (w2 := mkWorld _ _ _) in Hr.
  apply removed_subscriber_run in Hr as (P & O & S); [|unfold w2; cbn [w_topic]; by rewrite T1]. cbn [w2 w_topic w_store] in P, O, S. rewrite T1 in P, O.
  rewrite P, O, S. split; [|split; [|done]].
  - rewrite Hl. by rewrite bool_decide_eq_true_2.
  - intros a b Hn. rewrite Hl. rewrite bool_decide_eq_false_2 by done. by rewrite R1.
Qed.
End DelSub.

(** ** Runs

    The group of [TopicSubProps] with messages from its member [3] at odd and its owner [1] at even positions. *)

Definition sample_message (seq : Z) : Uid * Message :=
  (Z.to_N (100 + seq),
   mkMessage seq "grpA" (UidString (if Z.odd seq then 3%N else 1%N)) "" "" "" 0 "" (seq * 10) (seq * 10) None 0 None (AStr "text") "text").
Definition sample_rows (n : Z) : list (Uid * Message) := map sample_message (seqZ 1 n).

Definition del_store (n : Z) (faults : list (option (GoError * bool))) : DelMem :=
  mkDelMem (mkPubMem (sample_store []) (mkDB ∅ ∅ (sample_rows n)) [] 500%N ∅ [] ∅ [] []) [] {[ "grpA" := 0 ]} faults [].
Definition del_world (n : Z) (faults : list (option (GoError * bool))) : World DelMem :=
  mkWorld (set_lastID sample_topic n 0) (del_store n faults) [].

Definition client (u : Uid) : Session := mkSession "s" u ProtoClient false None.
Definition digest (s : string) : string := s.
#[local] Existing Instance DelMemSubLaws.
#[local] Instance run_pub : PubStore DelMem := DelMemPubStore digest.
#[local] Instance run_del : DelStore DelMem := DelMemStore digest 100 2.
#[local] Instance run_laws : DelStoreLaws DelMem := DelMemLaws digest 100 2.

(** A {del msg} of a user at the time 1000, with the age limit [age] for hard deletions. *)
Definition del_run (n age : Z) (faults : list (option (GoError * bool))) (u : Uid) (hard : bool) (seq : list (Z * Z)) : World DelMem * Res unit :=
  replyDelMsg 1000 age (client u) u false (mkClientDel DelMsg seq "" hard "") "grpA" (del_world n faults).
(** The positions a user still has of the first [n]. *)
Definition left_to (n : Z) (u : Uid) (w : World DelMem) : list Z :=
  List.filter (fun z => match shown (db_of w.(w_store)) "grpA" u z with Some _ => true | None => false end) (seqZ 1 n).

Lemma sample_whole n faults : n = 5 \/ n = 7 -> wf_log (db_of (del_store n faults)).
Proof.
  intros Hn. assert (List.NoDup (map place (sample_rows n)) /\ Forall (fun r => 0 < (snd r).(m_SeqId) /\ (snd r).(m_DeletedAt) = None) (sample_rows n)) as [H1 H2].
  { destruct Hn as [-> | ->]; (split; [|repeat constructor]); apply NoDup_ListNoDup; apply (bool_decide_eq_true_1 _); by vm_compute. }
  split; [exact H1| |]; intros r Hr; rewrite List.Forall_forall in H2; destruct (H2 r Hr); done.
Qed.

Lemma forward_sync_complete_witness :
  catch_up 3 (db_of (del_store 5 [])) "grpA" 2 6 2 2 5 = between (db_of (del_store 5 [])) "grpA" 2 2 5 /\
  map m_SeqId (between (db_of (del_store 5 [])) "grpA" 2 2 5) = [2; 3; 4; 5].
Proof.
  assert (wf_log (db_of (del_store 5 []))) as Hw by (apply sample_whole; by left).
  split; [|by vm_compute]. apply (forward_sync_complete 3 _ "grpA" 2 Hw 2 2 5 6); lia.
Defined.

Definition sample_del : DelMessage := mkDel 1 0%N [mkRange 2 4; mkRange 5 0] None.
Definition deleted_db : DelDB := default (db_of (del_store 5 [])) (messageDeleteList 1000 "grpA" (Some sample_del) (db_of (del_store 5 []))).

Lemma deleted_db_made : messageDeleteList 1000 "grpA" (Some sample_del) (db_of (del_store 5 [])) = Some deleted_db.
Proof. unfold deleted_db. destruct (messageDeleteList _ _ _ _) eqn:E; [done|]. by vm_compute in E. Qed.

Lemma hard_deletion_reported_witness :
  snd (GetDeleted 3 "grpA" 2 (Some (mkOpt None 1 0 0 false [])) deleted_db) = 1 /\
  covered (fst (GetDeleted 3 "grpA" 2 (Some (mkOpt None 1 0 0 false [])) deleted_db)) 3 = true.
Proof.
  assert (wf_log (db_of (del_store 5 []))) as Hw by (apply sample_whole; by left).
  assert (deleted_db.(dellog) = map (fun z => mkLog "grpA" 0%N 1 z (z + 1)) [2; 3; 5]) as El by (by vm_compute).
  destruct (hard_deletion_reported 3 1000 "grpA" sample_del 2 _ _ Hw ltac:(done) eq_refl ltac:(done) ltac:(constructor) deleted_db_made) as [H1 H2];
    [by rewrite El|by rewrite El|].
  split; [exact H1|]. apply H2. exists 103%N, (snd (sample_message 3)). split; [|done]. right; right; by left.
Defined.

Lemma deletion_authorized_witness :
  left_to 5 2 (del_run 5 0 [] 3 true [(1, 0); (3, 0)]).1 = [2; 4; 5] /\
  whole (del_run 5 0 [] 3 true [(1, 0); (3, 0)]).1.(w_store).
Proof.
  split; [by vm_compute|].
  assert (whole (w_store (del_world 5 []))) as Hw by (apply sample_whole; by left).
  exact (proj1 (deletion_authorized 1000 0 (client 3) 3 false (mkClientDel DelMsg [(1, 0); (3, 0)] "" true "") "grpA" (del_world 5 []) _ _ Hw
    ltac:(done) (surjective_pairing _))).
Defined.

Definition refused_run := del_run 5 0 [] 3 true [(1, 3)].
Lemma refused_run_err : refused_run = (refused_run.1, Err (TextErr "del.msg: cannot hard-delete another sender's message")).
Proof. vm_compute. reflexivity. Qed.

Lemma failed_deletion_silent_witness : refused (client 3) (del_world 5 []) refused_run.1.
Proof. exact (failed_deletion_silent 1000 0 (client 3) 3 false (mkClientDel DelMsg [(1, 3)] "" true "") "grpA" (del_world 5 []) _ _ refused_run_err). Defined.

Lemma deleted_run_ret : del_run 5 0 [] 2 true [(4, 9)] = ((del_run 5 0 [] 2 true [(4, 9)]).1, Ret tt).
Proof. vm_compute. reflexivity. Qed.

Lemma deletion_announced_witness : (del_run 5 0 [] 2 true [(4, 9)]).1.(w_topic).(t_delID) = 1.
Proof.
  destruct (deletion_announced 1000 0 (client 2) 2 false (mkClientDel DelMsg [(4, 9)] "" true "") "grpA" (del_world 5 []) _ deleted_run_ret)
    as (ranges & mid & _ & H & _). exact H.
Defined.

Definition data_run (req : option MsgGetOpts) : World DelMem * Res unit :=
  replyGetData (fun _ => None) (fun s => [s]) (fun l => l) (fun _ => false) (client 3) 3 false req "grpA" (del_world 5 []).

Lemma data_shows_history_witness :
  (data_run None).1.(w_topic) = (del_world 5 []).(w_topic) /\
  existsb (fun e => match e with SendBatch _ xs => (List.length xs =? 5)%nat | _ => false end) (data_run None).1.(w_out) = true.
Proof.
  assert (whole (w_store (del_world 5 []))) as Hw by (apply sample_whole; by left).
  split; [|by vm_compute].
  exact (proj1 (data_shows_history (fun _ => None) (fun s => [s]) (fun l => l) (fun _ => false) (client 3) 3 false None "grpA" (del_world 5 []) _ _ Hw
    (surjective_pairing _))).
Defined.

Definition remove_run : World DelMem * Res unit :=
  replyDelSub (client 2) 2 (mkClientDel DelSubscription [] (UserId 3) false "") "grpA" (del_world 5 []).
Lemma remove_run_ret : remove_run = (remove_run.1, Ret tt).
Proof. vm_compute. reflexivity. Qed.

Lemma remove_sound_witness : IsAdmin (mode_of (del_world 5 []).(w_topic) 2) = true /\ remove_run.1.(w_topic).(perUser) !! 3%N = None.
Proof.
  split; [|by vm_compute].
  exact (proj1 (proj2 (proj2 (remove_sound (client 2) 2 (mkClientDel DelSubscription [] (UserId 3) false "") "grpA" (del_world 5 []) _ remove_run_ret)))).
Defined.

(** ** Divergences *)

(** A message between two ranges is deleted with them: the request names 1, 2, 4 and 5, and 3 is gone too. *)
Lemma unnamed_message_deleted : (del_run 5 0 [] 2 true [(1, 3); (4, 6)]).2 = Ret tt /\ left_to 5 1 (del_run 5 0 [] 2 true [(1, 3); (4, 6)]).1 = [].
Proof. vm_compute. done. Qed.

(** A range that another one contains costs the next one: 7 is named, reported as deleted, and still there. *)
Lemma named_message_kept :
  (del_run 7 0 [] 2 true [(1, 5); (2, 5); (7, 0)]).2 = Ret tt /\ left_to 7 1 (del_run 7 0 [] 2 true [(1, 5); (2, 5); (7, 0)]).1 = [5; 6; 7].
Proof. vm_compute. done. Qed.

(** A hard deletion that finds nothing is announced with a new id that the database does not have: after the topic is
    loaded again the next deletion has the same id, which clients take for one they know. *)
Lemma empty_deletion_not_stored :
  let w := (del_run 5 10 [] 2 true [(1, 0)]).1 in
  w.(w_topic).(t_delID) = 1 /\ w.(w_store).(dm_topics) !! "grpA" = Some 0 /\ w.(w_store).(dm_log) = [] /\ left_to 5 1 w = [1; 2; 3; 4; 5].
Proof. vm_compute. done. Qed.

(** A message too old for a hard deletion stays in the database, but subscribers are told that it is deleted. *)
Lemma old_message_announced :
  let w := (del_run 5 980 [] 2 true [(1, 4)]).1 in
  left_to 5 1 w = [1; 2; 4; 5] /\
  existsb (fun e => match e with PresSubsOnline _ _ p _ _ => bool_decide (p.(pp_delSeq) = [(1, 4)]) | _ => false end) w.(w_out) = true.
Proof. vm_compute. done. Qed.

(** A deletion of more messages than a query returns is reported in part: the next query starts after its id. *)
Lemma paged_deletion_lost :
  GetDeleted 2 "grpA" 2 (Some (mkOpt None 1 0 0 true [])) deleted_db = ([mkRange 2 0; mkRange 3 0], 1) /\
  GetDeleted 2 "grpA" 2 (Some (mkOpt None 2 0 0 true [])) deleted_db = ([], 0).
Proof. vm_compute. done. Qed.

(** Messages before position 1 are all messages. *)
Lemma before_first_is_all :
  existsb (fun e => match e with SendBatch _ xs => (List.length xs =? 5)%nat | _ => false end)
    (data_run (Some (mkGetOpts "" "" None 1 1 0 [] true))).1.(w_out) = true.
Proof. vm_compute. done. Qed.

(** Ranges that name no position stop the server: the number of question marks is negative. *)
Lemma empty_ranges_panic :
  (data_run (Some (mkGetOpts "" "" None 0 0 0 [(5, 5); (6, 6)] false))).2 = Panic "strings: negative Repeat count" /\
  (data_run (Some (mkGetOpts "" "" None 0 0 0 [(5, 4); (6, 0)] false))).2 = Ret tt.
Proof. vm_compute. done. Qed.

(** The text of a hard-deleted message stays in its row for the search. *)
Lemma search_text_survives :
  match List.find (fun r => (snd r).(m_SeqId) =? 3) deleted_db.(dd_messages) with
  | Some (_, m) => m.(m_DelId) = 1 /\ m.(m_Content) = ANil /\ m.(m_SearchText) = "text"
  | None => False
  end.
Proof. vm_compute. done. Qed.
