(* ===== verification/HubProps.v ===== *)
(** * HubProps: what the hub does

    Properties of [Hub]. *)

From Stdlib Require Import NArith ZArith Lia List Ascii String Bool.
From stdpp Require Import base tactics numbers list strings gmap sets.
From S2P Require Import Prelude AccessMode Uid StoreTypes Fence Cluster Drafty Messages Interactions SubStore Utils PubStore History TopicStore Topic TopicSub TopicSubProps Publish Presence Notes MetaHistory Hub.
Import Objects Ranges.
Import Topic.

#[local] Open Scope string_scope.
#[local] Open Scope Z_scope.

(** ** Runs *)

Definition stored_group (owner : Uid) : StoredDesc :=
  mkStored 0 1 1 (AStr "a group") ANil false 3 (UidString owner) ModeCPublic 0 None.
Definition hub_store (topics : gmap string StoredDesc) (subs : gmap (string * Uid) Subscription) (most : nat)
    (faults : list (option (GoError * bool))) : HubMem :=
  mkHubMem (mkDelMem (mkPubMem (mkMem subs ∅ ∅ ∅ None []) (mkDB ∅ ∅ []) [] 500%N ∅ [] ∅ [] []) [] ∅ [] []) topics [] ∅ most faults.
Definition group_store := hub_store {[ "grpA" := stored_group 1 ]} (sample_store []).(ms_subs).
Definition no_policy (_ : string) (_ : option (list (string * Any))) : option officialTopicPolicy + GoError := inl None.
Definition loaded (ts : list Topic) : HubState :=
  mkHub (list_to_map (imap (fun i t => (t.(t_name), i)) ts)) (Z.of_nat (List.length ts)) (map (fun t => mkInst t [] [] [] [] [] []) ts).
Definition user_session (u : Uid) : Session := mkSession "s" u ProtoClient false None.
Definition del_topic (u : Uid) (original name : string) : HubMsg :=
  mkHubMsg (UserId u) original name (Some (user_session u)) true (BDel (mkClientDel DelTopic [] "" true "")).
Definition delete_run (w : HW HubMem) (u : Uid) (original name : string) : HW HubMem * Res unit :=
  topicUnreg None 1000 no_policy (Some (user_session u)) name (Some (del_topic u original name)) StopDeleted w.

Definition as_channel (t : Topic) : Topic :=
  mkTopic t.(t_name) t.(xoriginal) t.(t_cat) true t.(owner) t.(accessAuth) t.(accessAnon) t.(lastID) t.(subCnt) t.(status) t.(userAgent)
    t.(official) t.(officialRefreshedAt) t.(perUser) t.(modeWantUnion) t.(modeGivenUnion) t.(t_sessions) t.(officialMemberRefreshed)
    t.(touched) t.(t_delID) t.(aux) t.(moderationCache) t.(perSubs) t.(t_isProxy) t.(currentCall).

(** ** Reasoning about the hub's computations

    [sat w m Q]: from [w], [m] ends in a world and with a result that [Q] relates.  The rules are hints of the base [hub]. *)

Section Rules.
Context {St : Type}.

Definition sat {A} (w : HW St) (m : HM A) (Q : HW St -> Res A -> Prop) : Prop := Q (m w).1 (m w).2.

Lemma sat_bind {A B} (m : HM A) (k : A -> HM B) w Q :
  sat w m (fun w1 r => match r with Ret a => sat w1 (k a) Q | Err e => Q w1 (Err e) | Panic p => Q w1 (Panic p) end) ->
  sat w (hbind m k) Q.
Proof. unfold sat, hbind. by destruct (m w) as [w1 [a|e|p]]. Qed.

Lemma sat_ret {A} (a : A) w Q : Q w (Ret a) -> sat w (hret a) Q. Proof. done. Qed.
Lemma sat_fail {A} e w (Q : HW St -> Res A -> Prop) : Q w (Err e) -> sat w (hfail e) Q. Proof. done. Qed.
Lemma sat_panic {A} p w (Q : HW St -> Res A -> Prop) : Q w (Panic p) -> sat w (hpanic p) Q. Proof. done. Qed.
Lemma sat_get w Q : Q w (Ret w.(w_hub)) -> sat w hget Q. Proof. done. Qed.
Lemma sat_put h w Q : Q (mkHW h w.(w_st) w.(w_calls)) (Ret tt) -> sat w (hput h) Q. Proof. done. Qed.
Lemma sat_eff e w Q : Q (mkHW w.(w_hub) w.(w_st) (e :: w.(w_calls))) (Ret tt) -> sat w (heff e) Q. Proof. done. Qed.
Lemma sat_call {A} (f : St -> St * A) w Q : Q (mkHW w.(w_hub) (f w.(w_st)).1 w.(w_calls)) (Ret (f w.(w_st)).2) -> sat w (hcall f) Q.
Proof. unfold sat, hcall. by destruct (f _). Qed.
Lemma sat_attempt {A} (m : HM A) w Q :
  sat w m (fun w1 r => Q w1 (match r with Ret a => Ret (inl a) | Err e => Ret (inr e) | Panic p => Panic p end)) -> sat w (hattempt m) Q.
Proof. unfold sat, hattempt. by destruct (m w) as [w1 [a|e|p]]. Qed.
Lemma sat_lift {A} p (o : option A) w Q : (forall a, o = Some a -> Q w (Ret a)) -> Q w (Panic p) -> sat w (hlift p o) Q.
Proof. unfold sat. destruct o; cbn; auto. Qed.
Lemma sat_mono {A} (m : HM A) w (Q Q' : HW St -> Res A -> Prop) : sat w m Q -> (forall w' r, Q w' r -> Q' w' r) -> sat w m Q'.
Proof. unfold sat. auto. Qed.

(** Computations that only make calls. *)
Definition only_calls (w w' : HW St) : Prop := w'.(w_hub) = w.(w_hub) /\ w'.(w_st) = w.(w_st).
Lemma only_calls_trans a b c : only_calls a b -> only_calls b c -> only_calls a c.
Proof. intros [H1 H2] [H3 H4]. split; congruence. Qed.

Definition quiet {A} (m : HM (St := St) A) : Prop := forall w, only_calls w (m w).1.

Lemma quiet_ret {A} (a : A) : quiet (hret a). Proof. by intros w. Qed.
Lemma quiet_fail {A} e : quiet (hfail (A := A) e). Proof. by intros w. Qed.
Lemma quiet_panic {A} p : quiet (hpanic (A := A) p). Proof. by intros w. Qed.
Lemma quiet_get : quiet hget. Proof. by intros w. Qed.
Lemma quiet_eff e : quiet (heff e). Proof. by intros w. Qed.
Lemma quiet_lift {A} p (o : option A) : quiet (hlift p o). Proof. intros w. by destruct o. Qed.
Lemma quiet_bind {A B} (m : HM A) (k : A -> HM B) : quiet m -> (forall a, quiet (k a)) -> quiet (hbind m k).
Proof.
  intros Hm Hk w. specialize (Hm w). unfold hbind. destruct (m w) as [w1 [a|e|p]]; [|done|done].
  eapply only_calls_trans; [exact Hm|apply Hk].
Qed.

Lemma sat_quiet {A} (m : HM A) w Q : quiet m -> (forall w' r, only_calls w w' -> Q w' r) -> sat w m Q.
Proof. intros Hm HQ. apply HQ, Hm. Qed.
End Rules.

Create HintDb hub.
#[export] Hint Resolve quiet_ret quiet_fail quiet_panic quiet_get quiet_eff quiet_lift : hub.

(** Shows that a computation only makes calls. *)
Ltac quiet :=
  repeat match goal with
         | |- forall _, _ => intro
         | |- quiet (hbind _ _) => apply quiet_bind
         | |- quiet (hwhen ?b _) => unfold hwhen; destruct b
         | |- quiet (match ?x with _ => _ end) => destruct x
         | |- quiet (if ?x then _ else _) => destruct x
         | |- quiet _ => solve [auto with hub nocore]
         end.

Section Quiet.
Context {St : Type} `{Subs : SubStore St}.

Lemma quiet_answer sess msg r : quiet (answer (St := St) sess msg r). Proof. unfold answer. quiet. Qed.
#[local] Hint Resolve quiet_answer : hub.
Lemma quiet_answer_if sess msg r : quiet (answer_if (St := St) sess msg r). Proof. unfold answer_if. quiet. Qed.
Lemma quiet_sid_of sess : quiet (sid_of (St := St) sess). Proof. unfold sid_of. quiet. Qed.
Lemma quiet_inflight sess : quiet (inflight_done (St := St) sess). Proof. unfold inflight_done. quiet. Qed.
Lemma quiet_hard_of msg : quiet (hard_of (St := St) msg). Proof. unfold hard_of. quiet. Qed.
#[local] Hint Resolve quiet_answer_if quiet_sid_of quiet_inflight quiet_hard_of : hub.
Lemma quiet_push cluster r : quiet (push (St := St) cluster r).
Proof. unfold push. induction (sendPush cluster r); cbn; quiet. Qed.
Lemma quiet_routes (ms : list ServerComMessage) : quiet (St := St) (fold_right (fun m k => heff (Out (RouteSrv m)) ;;= k) (hret tt) ms).
Proof. induction ms; cbn; quiet. Qed.
Lemma quiet_topicGet name : quiet (topicGet (St := St) name). Proof. unfold topicGet. quiet. Qed.
Lemma quiet_tell_left sess msg u b : quiet (tell_left (St := St) sess msg u b). Proof. unfold tell_left. quiet. Qed.
Lemma quiet_rejoin ms : quiet (rejoin (St := St) ms). Proof. induction ms; cbn; quiet. Qed.
#[local] Hint Resolve quiet_rejoin : hub.
Lemma quiet_lock_out ms b : quiet (lock_out (St := St) ms b). Proof. induction ms; cbn; quiet. Qed.
End Quiet.

#[export] Hint Resolve quiet_answer quiet_answer_if quiet_sid_of quiet_inflight quiet_hard_of quiet_push quiet_routes quiet_topicGet
  quiet_tell_left quiet_rejoin quiet_lock_out : hub.

Definition topic_at (h : HubState) (name : string) : option (nat * Topic) :=
  i ← h.(h_topics) !! name; (fun x => (i, x.(i_topic))) <$> h.(h_insts) !! i.

Lemma sat_topicGet {St} name (w : HW St) Q : Q w (Ret (topic_at w.(w_hub) name)) -> sat w (topicGet name) Q.
Proof. done. Qed.

(** One step of a computation; a computation that only makes calls leaves its three results. *)
Ltac hub_step :=
  match goal with
  | |- sat _ (hbind _ _) _ => apply sat_bind
  | |- sat _ (hret _) _ => apply sat_ret
  | |- sat _ (hfail _) _ => apply sat_fail
  | |- sat _ (hpanic _) _ => apply sat_panic
  | |- sat _ hget _ => apply sat_get
  | |- sat _ (hput _) _ => apply sat_put
  | |- sat _ (hcall _) _ => apply sat_call
  | |- sat _ (hattempt _) _ => apply sat_attempt
  | |- sat _ (hlift _ _) _ => apply sat_lift; [intros ? ?|]
  | |- sat _ (topicGet _) _ => apply sat_topicGet
  | |- sat _ (modify_inst _ _) _ => unfold modify_inst
  | |- sat _ (send_exit _ _) _ => unfold send_exit
  | |- sat _ (topicDel _) _ => unfold topicDel
  | |- sat _ _ _ => apply sat_quiet; [solve [quiet]|intros ? ? [? ?]]
  | |- match ?r with Ret _ => _ | Err _ => _ | Panic _ => _ end => is_var r; destruct r
  | |- context [let '(_, _) := ?x in _] => destruct x
  end; cbn beta iota; cbn [w_hub w_st w_calls] in *.

(** *** Who may delete what *)

Section Deletion.
Context {St : Type} `{Subs : SubStore St, Laws : !SubStoreLaws St, Tops : !TopicStore St, TLaws : !TopicStoreLaws St}.
Context (cluster : option Cluster) (now : Z)
  (officialPolicyFromAux : string -> option (list (string * Any)) -> option officialTopicPolicy + GoError).

Definition addressed (topic : string) (m : HubMsg) : string := if IsChannel m.(hm_Original) then m.(hm_Original) else topic.
Definition requester (msg : option HubMsg) : Uid := match msg with Some m => ParseUserId m.(hm_AsUser) | None => ZeroUid end.

(** Who may delete a loaded topic. *)
Definition entitled (t : Topic) (u : Uid) : Prop := u <> ZeroUid /\ t.(owner) = u \/ t.(t_cat) = TopicCatP2P /\ subsCount t < 2.

Lemma may_delete_entitled t u : may_delete t u = true -> entitled t u.
Proof.
  unfold may_delete, entitled, IsZeroUid. rewrite orb_true_iff, !andb_true_iff, negb_true_iff, N.eqb_neq, N.eqb_eq, cat_eqb_spec, Z.ltb_lt. tauto.
Qed.

(** The subscriptions a request may end: of a loaded topic all, by its owner or when a conversation has one subscriber at most;
    of another the requester's own, all if the requester's is an owner's, or the last of a conversation. *)
Definition may_end (w : HW St) (topic : string) (msg : option HubMsg) (t : string) (u : Uid) : Prop :=
  match topic_at w.(w_hub) topic with
  | Some (_, tp) => entitled tp (requester msg) /\ isOfficialTopic tp = false /\ t ∈ names_of topic tp.(t_isChan)
  | None =>
      exists m, msg = Some m /\
      (forall s p, (topics_get topic w.(w_st)).2 = inl (Some s) -> officialPolicyFromAux topic s.(tp_Aux) = inl (Some p) ->
         p.(Official) = true -> IsChannel m.(hm_Original) = true) /\
      let name := addressed topic m in
      (t = name /\ u = requester msg) \/
      (t ∈ names_of name true /\
       exists s, live (row w.(w_st) name (requester msg)) = Some s /\ IsOwner (s.(s_ModeGiven) &. s.(s_ModeWant)) = true) \/
      (t = name /\ GetTopicCat name = Some TopicCatP2P /\
       exists st l, (forall t u, row st t u = row w.(w_st) t u) /\
         (topics_get_subs name (if IsChannel m.(hm_Original) then Some (requester msg) else None) st).2 = inl l /\
         (List.length l < 2)%nat)
  end.

(** What [m] leaves of the subscriptions: as before, or ended where [allowed]. *)
Definition ends_only (rows rows' : string -> Uid -> option Subscription) (allowed : string -> Uid -> Prop) : Prop :=
  forall t u, live (rows' t u) = live (rows t u) \/ live (rows' t u) = None /\ allowed t u.

Lemma ends_same (rows rows' : string -> Uid -> option Subscription) allowed : (forall t u, rows' t u = rows t u) -> ends_only rows rows' allowed.
Proof. intros H t u. left. by rewrite H. Qed.

Lemma topics_delete_ends topic isChan hard s (allowed : string -> Uid -> Prop) :
  (forall t u, t ∈ names_of topic isChan -> allowed t u) ->
  ends_only (row s) (row (topics_delete topic isChan hard now s).1) allowed.
Proof.
  intros Ha t u. destruct (law_topics_delete topic isChan hard now s) as [[_ H]|H]; [left; by rewrite H|].
  rewrite H. case_bool_decide as Ht; [right; auto|by left].
Qed.

Lemma subs_delete_ends topic v s (allowed : string -> Uid -> Prop) :
  allowed topic v -> ends_only (row s) (row (subs_delete topic v s).1) allowed.
Proof.
  intros Ha t u. rewrite law_delete. destruct (subs_delete topic v s).2; [by left|].
  case_bool_decide as E; [destruct E as [-> ->]; by right|by left].
Qed.
Lemma unreg_online_ends sess topic msg i t w w0 : row w.(w_st) = row w0.(w_st) -> topic_at w0.(w_hub) topic = Some (i, t) ->
  sat w (unreg_online cluster now sess topic msg (requester msg) i t)
    (fun w' _ => ends_only (row w0.(w_st)) (row w'.(w_st)) (may_end w0 topic msg)).
Proof.
  intros Ew Et. assert (forall s, row s = row w0.(w_st) -> ends_only (row w0.(w_st)) (row s) (may_end w0 topic msg)) as Hsame.
  { intros s E. apply ends_same. intros. by rewrite E. }
  unfold unreg_online. destruct (may_delete t (requester msg)) eqn:Em.
  2: { repeat hub_step; by apply Hsame. }
  destruct (isOfficialTopic t) eqn:Eo.
  { repeat hub_step; apply Hsame; congruence. }
  repeat hub_step.
  set (s' := topics_delete topic (t_isChan t) _ now (w_st w)).
  assert (ends_only (row w0.(w_st)) (row s'.1) (may_end w0 topic msg)) as Hd.
  { rewrite <- Ew. apply topics_delete_ends. intros t' u Ht. unfold may_end. rewrite Et. auto using may_delete_entitled. }
  assert (forall w' : HW St, w'.(w_st) = s'.1 -> ends_only (row w0.(w_st)) (row w'.(w_st)) (may_end w0 topic msg)) as Hend by (by intros w' ->).
  destruct s'.2; repeat hub_step; apply Hend; congruence.
Qed.

(** The subscription found among those listed is the requester's row. *)
Lemma listed_own topic user v s l sub : (forall t u x, row s t u = Some x -> (u < 2 ^ 64)%N) -> (v < 2 ^ 64)%N ->
  (topics_get_subs topic user s).2 = inl l -> List.find (fun x => String.eqb x.(s_User) (UidString v)) l = Some sub ->
  exists x, live (row s topic v) = Some x /\ sub.(s_ModeGiven) = x.(s_ModeGiven) /\ sub.(s_ModeWant) = x.(s_ModeWant).
Proof.
  intros Hrow Hv Hl [Hin Hu]%find_some. destruct (law_get_subs topic user s) as [_ H]. specialize (H l Hl).
  rewrite List.Forall_forall in H. destruct (H sub Hin) as (u & x & Hx & -> & _). apply String.eqb_eq in Hu. cbn in Hu.
  assert (u = v) as <-; [|by exists x]. assert (u < 2 ^ 64)%N as Hlu.
  { unfold live, visible in Hx. destruct (row s topic u) eqn:E; [by eapply Hrow|done]. }
  rewrite <- (ParseUid_String u), <- (ParseUid_String v) by done. by rewrite Hu.
Qed.

Lemma unreg_member_ends sess name m v p2p subs sub w (allowed : string -> Uid -> Prop) : allowed name v ->
  (p2p = true -> (List.length subs < 2)%nat -> forall t u, t ∈ names_of name false -> allowed t u) ->
  sat w (unreg_offline_member now sess name m v p2p subs sub) (fun w' _ => ends_only (row w.(w_st)) (row w'.(w_st)) allowed).
Proof.
  intros Hown Hlast. unfold unreg_offline_member. destruct (p2p && (List.length subs <? 2)%nat) eqn:E.
  - apply andb_true_iff in E as [E1 E2%Nat.ltb_lt]. pose proof (Hlast E1 E2) as Ha. clear Hlast.
    assert (forall s, row s = row w.(w_st) -> ends_only (row w.(w_st)) (row s) allowed) as Hsame by (intros s Es; apply ends_same; intros; by rewrite Es).
    hub_step. hub_step. hub_step; [|apply Hsame; congruence..]. hub_step. hub_step.
    assert (ends_only (row w.(w_st)) (row (topics_delete name false a now (w_st w')).1) allowed) as Hd.
    { replace (w_st w) with (w_st w') by congruence. by apply topics_delete_ends. }
    set (s' := topics_delete name false a now (w_st w')) in *.
    assert (forall w2 : HW St, w2.(w_st) = s'.1 -> ends_only (row w.(w_st)) (row w2.(w_st)) allowed) as Hend by (by intros w2 ->).
    destruct s'.2; repeat hub_step; apply Hend; congruence.
  - hub_step. hub_step. pose proof (subs_delete_ends name v (w_st w) allowed Hown) as Hd.
    set (s' := subs_delete name v (w_st w)) in *.
    assert (forall w2 : HW St, w2.(w_st) = s'.1 -> ends_only (row w.(w_st)) (row w2.(w_st)) allowed) as Hend by (by intros w2 ->).
    destruct s'.2; repeat hub_step; try apply Hend; try congruence.
Qed.

Lemma unreg_owner_ends sess name m tcat subs w (allowed : string -> Uid -> Prop) : (forall t u, t ∈ names_of name true -> allowed t u) ->
  sat w (unreg_offline_owner cluster now sess name m tcat subs) (fun w' _ => ends_only (row w.(w_st)) (row w'.(w_st)) allowed).
Proof.
  intros Ha. unfold unreg_offline_owner.
  assert (forall s, row s = row w.(w_st) -> ends_only (row w.(w_st)) (row s) allowed) as Hsame by (intros s Es; apply ends_same; intros; by rewrite Es).
  hub_step. hub_step. hub_step; [|apply Hsame; congruence..]. hub_step. hub_step.
  assert (ends_only (row w.(w_st)) (row (topics_delete name true a now (w_st w')).1) allowed) as Hd.
  { replace (w_st w) with (w_st w') by congruence. by apply topics_delete_ends. }
  set (s' := topics_delete name true a now (w_st w')) in *.
  assert (forall w2 : HW St, w2.(w_st) = s'.1 -> ends_only (row w.(w_st)) (row w2.(w_st)) allowed) as Hend by (by intros w2 ->).
  destruct s'.2; repeat hub_step; apply Hend; congruence.
Qed.

Lemma quiet_check_official sess topic msg stored : quiet (check_official (St := St) officialPolicyFromAux sess topic msg stored).
Proof. unfold check_official. quiet. Qed.
#[local] Hint Resolve quiet_check_official : hub.

(** The check of an official topic that is not loaded lets only requests for its channel name pass. *)
Lemma check_official_passes sess topic m s p w w' : officialPolicyFromAux topic s.(tp_Aux) = inl (Some p) -> p.(Official) = true ->
  check_official (St := St) officialPolicyFromAux sess topic (Some m) (Some s) w = (w', Ret tt) -> IsChannel m.(hm_Original) = true.
Proof.
  intros Hp Ho. unfold check_official. rewrite Hp, Ho. destruct (IsChannel _); [done|]. cbn. unfold hbind, answer_if, answer. by destruct sess.
Qed.

Lemma unreg_listed_ends sess m name user w (allowed : string -> Uid -> Prop) (v := ParseUserId m.(hm_AsUser)) :
  (forall t u x, row w.(w_st) t u = Some x -> (u < 2 ^ 64)%N) -> (v < 2 ^ 64)%N -> allowed name v ->
  (forall s, live (row w.(w_st) name v) = Some s -> IsOwner (s.(s_ModeGiven) &. s.(s_ModeWant)) = true ->
     forall t u, t ∈ names_of name true -> allowed t u) ->
  (forall l, (topics_get_subs name user w.(w_st)).2 = inl l -> (List.length l < 2)%nat -> GetTopicCat name = Some TopicCatP2P ->
     forall t u, t ∈ names_of name false -> allowed t u) ->
  sat w (unreg_listed cluster now sess m v name user) (fun w' _ => ends_only (row w.(w_st)) (row w'.(w_st)) allowed).
Proof.
  intros Hrow Hv Hown Howner Hlast. unfold unreg_listed. hub_step. hub_step.
  destruct (law_get_subs name user w.(w_st)) as [Hg Hl]. pose proof (listed_own name user v w.(w_st)) as Hfind.
  set (g := topics_get_subs name user (w_st w)) in *.
  assert (forall s, s = g.1 -> ends_only (row w.(w_st)) (row s) allowed) as Hsame by (intros s ->; by apply ends_same).
  destruct g.2 as [l|e] eqn:El; [|repeat hub_step; apply Hsame; congruence].
  hub_step. hub_step; [|by apply Hsame]. rename a into tcat. specialize (Hlast l eq_refl). specialize (Hfind l).
  assert (forall m' : HM unit, sat (mkHW w.(w_hub) g.1 w.(w_calls)) m' (fun w' _ => ends_only (row g.1) (row w'.(w_st)) allowed) ->
            sat (mkHW w.(w_hub) g.1 w.(w_calls)) m' (fun w' _ => ends_only (row w.(w_st)) (row w'.(w_st)) allowed)) as Hshift.
  { intros m' Hm'. eapply sat_mono; [exact Hm'|]. intros w2 r H2 t u. specialize (H2 t u). by rewrite Hg in H2. }
  destruct l as [|x l0].
  - unfold hwhen. destruct (cat_eqb tcat TopicCatP2P) eqn:Ep; [|repeat hub_step; apply Hsame; congruence].
    apply bool_decide_eq_true in Ep as ->. apply Hshift.
    assert (ends_only (row g.1) (row (topics_delete name false true now g.1).1) allowed) as Hd
      by (apply topics_delete_ends; apply Hlast; [cbn; lia|done]).
    assert (forall s, s = (topics_delete name false true now g.1).1 -> ends_only (row g.1) (row s) allowed) as Hend by (by intros s ->).
    repeat hub_step; apply Hend; congruence.
  - destruct (List.find _ _) as [sub|] eqn:Ef; [|repeat hub_step; apply Hsame; congruence].
    destruct (Hfind sub Hrow Hv eq_refl eq_refl) as (y & Hy & Eg & Ewant). destruct (IsOwner _) eqn:Eo; cbn [negb]; apply Hshift.
    + apply (unreg_owner_ends sess name m tcat (x :: l0) (mkHW _ _ _)). rewrite Eg, Ewant in Eo. by eapply Howner.
    + apply (unreg_member_ends sess name m v (cat_eqb tcat TopicCatP2P) (x :: l0) sub (mkHW _ _ _)); [done|].
      intros ->%bool_decide_eq_true Hlen. by apply Hlast.
Qed.

Lemma unreg_offline_ends sess topic msg w w0 : w.(w_st) = w0.(w_st) -> topic_at w0.(w_hub) topic = None ->
  (forall t u x, row w0.(w_st) t u = Some x -> (u < 2 ^ 64)%N) -> (requester msg < 2 ^ 64)%N ->
  sat w (unreg_offline cluster now officialPolicyFromAux sess topic msg (requester msg))
    (fun w' _ => ends_only (row w0.(w_st)) (row w'.(w_st)) (may_end w0 topic msg)).
Proof.
  intros Es Et Hrow Hv. unfold unreg_offline. hub_step. hub_step. rewrite Es.
  pose proof (law_topics_get topic w0.(w_st)) as Hg. unfold may_end. rewrite Et. set (g := topics_get topic (w_st w0)) in *.
  assert (forall allowed s, s = g.1 -> ends_only (row w0.(w_st)) (row s) allowed) as Hsame by (intros ? s ->; by apply ends_same).
  destruct g.2 as [stored|e] eqn:Eg; [|repeat hub_step; apply Hsame; congruence].
  apply sat_bind. unfold sat at 1. pose proof (quiet_check_official sess topic msg stored (mkHW w.(w_hub) g.1 w.(w_calls))) as Hq.
  destruct (check_official _ sess topic msg stored _) as [w1 [[]|e|p]] eqn:Ec; cbn [fst snd] in *; [|apply Hsame; apply Hq..].
  hub_step. destruct msg as [m|]; [|apply Hsame; apply Hq]. cbn [hlift]. hub_step. destruct Hq as [_ Hq]. cbn [w_st] in Hq. cbn [requester] in *.
  assert (forall m' allowed, sat w1 m' (fun w' (_ : Res unit) => ends_only (row w1.(w_st)) (row w'.(w_st)) allowed) ->
            sat w1 m' (fun w' _ => ends_only (row w0.(w_st)) (row w'.(w_st)) allowed)) as Hshift.
  { intros m' allowed Hm'. eapply sat_mono; [exact Hm'|]. intros w2 r H2 t u. specialize (H2 t u). by rewrite Hq, Hg in H2. }
  assert (forall t u x, row w1.(w_st) t u = Some x -> (u < 2 ^ 64)%N) as Hrow1 by (intros t u x; rewrite Hq, Hg; apply Hrow).
  assert (forall s p, stored = Some s -> officialPolicyFromAux topic s.(tp_Aux) = inl (Some p) -> p.(Official) = true -> IsChannel m.(hm_Original) = true) as Hoff.
  { intros s p -> Hp Ho. by eapply check_official_passes. }
  set (v := ParseUserId m.(hm_AsUser)) in *.
  assert ((if IsChannel m.(hm_Original) then unreg_listed cluster now sess m v m.(hm_Original) (Some v) else unreg_listed cluster now sess m v topic None) =
          unreg_listed (St := St) cluster now sess m v (addressed topic m) (if IsChannel m.(hm_Original) then Some v else None)) as ->
    by (unfold addressed; by destruct (IsChannel _)).
  assert (forall s p, (inl stored : option StoredDesc + GoError) = inl (Some s) -> officialPolicyFromAux topic s.(tp_Aux) = inl (Some p) ->
            p.(Official) = true -> IsChannel m.(hm_Original) = true) as Hoff' by (intros s p [= ->]; by apply Hoff).
  apply Hshift, unreg_listed_ends; [done|done| ..].
  - exists m. split; [done|]. split; [done|]. by left.
  - intros s Hs Ho t u Ht. exists m. split; [done|]. split; [done|]. right; left. split; [done|]. exists s. by rewrite Hq, Hg in Hs.
  - intros l Hl Hlen Hp t u Ht. exists m. split; [done|]. split; [done|]. right; right. split; [by apply list_elem_of_singleton in Ht|]. split; [done|].
    exists (w_st w1), l. split; [|done]. intros. by rewrite Hq, Hg.
Qed.

(** C25: Deleting a topic, whatever becomes of the request, ends only subscriptions the requester may end: all of a topic they own
    or of a conversation with at most one subscriber, otherwise their own; never those of an official group, but for the readers
    of its channel. *)
Theorem topic_deletion_authorized sess topic msg w w' r :
  (forall t u x, row w.(w_st) t u = Some x -> (u < 2 ^ 64)%N) -> (requester msg < 2 ^ 64)%N ->
  topicUnreg cluster now officialPolicyFromAux sess topic msg StopDeleted w = (w', r) ->
  ends_only (row w.(w_st)) (row w'.(w_st)) (may_end w topic msg).
Proof.
  intros Hrow Hv E. change w' with (fst (w', r)). change (sat (A := unit) w (fun _ => (w', r)) (fun w' _ => ends_only (row w.(w_st)) (row w'.(w_st)) (may_end w topic msg))).
  assert (sat w (topicUnreg cluster now officialPolicyFromAux sess topic msg StopDeleted)
            (fun w' _ => ends_only (row w.(w_st)) (row w'.(w_st)) (may_end w topic msg))) as H; [|unfold sat in *; by rewrite E in H].
  unfold topicUnreg. hub_step. hub_step. hub_step. hub_step. hub_step; [|by apply ends_same; rewrite H0 ..].
  rewrite bool_decide_true by done. fold (requester msg). destruct (topic_at w.(w_hub) topic) as [[i t]|] eqn:Et.
  - apply unreg_online_ends; [by rewrite H0|done].
  - by apply unreg_offline_ends.
Qed.
End Deletion.

(** ** The registry *)

(** Every registered topic has its name, is not deleted, was not told to exit, and is [alive]. *)
Definition registered_ok (alive : nat -> Prop) (h : HubState) : Prop :=
  forall name i, h.(h_topics) !! name = Some i ->
    exists x, h.(h_insts) !! i = Some x /\ x.(i_topic).(t_name) = name /\ isDeleted x.(i_topic) = false /\ x.(i_exit) = [] /\ alive i.

(** ** The outcome of a deletion *)

Section Outcome.
Context {St : Type} `{Subs : SubStore St, Tops : !TopicStore St}.
Context (cluster : option Cluster) (now : Z)
  (officialPolicyFromAux : string -> option (list (string * Any)) -> option officialTopicPolicy + GoError).

(** Computations that make calls and return. *)
Definition sure (m : HM (St := St) unit) : Prop := forall w, exists calls, m w = (mkHW w.(w_hub) w.(w_st) calls, Ret tt).

Lemma sat_sure (m : HM unit) w Q : sure m -> (forall calls, Q (mkHW w.(w_hub) w.(w_st) calls) (Ret tt)) -> sat w m Q.
Proof. intros H HQ. unfold sat. destruct (H w) as [calls ->]. apply HQ. Qed.

Lemma sure_ret : sure (hret tt). Proof. intros w. exists w.(w_calls). by destruct w. Qed.
Lemma sure_eff e : sure (heff e). Proof. intros w. by eexists. Qed.
Lemma sure_bind (m k : HM unit) : sure m -> sure k -> sure (m ;;= k).
Proof. intros Hm Hk w. unfold hbind. destruct (Hm w) as [c ->]. exact (Hk (mkHW w.(w_hub) w.(w_st) c)). Qed.
Lemma sure_answer sess m r : sure (answer sess (Some m) r).
Proof. unfold answer. destruct sess; [apply sure_eff|apply sure_ret]. Qed.
Lemma sure_answer_if sess m r : sure (answer_if sess (Some m) r).
Proof. unfold answer_if. destruct sess; [apply sure_answer|apply sure_ret]. Qed.
Lemma sure_push r : sure (push cluster r).
Proof. unfold push. induction (sendPush cluster r); cbn; [apply sure_ret|]. apply sure_bind; [apply sure_eff|done]. Qed.
Lemma sure_when b m : sure m -> sure (hwhen b m).
Proof. intros H. unfold hwhen. destruct b; [done|apply sure_ret]. Qed.

#[local] Hint Resolve sure_ret sure_eff sure_bind sure_answer sure_answer_if sure_push sure_when : hub.
Ltac sure_step := first [apply sat_sure; [solve [auto with hub nocore]|intros ?]; cbn beta iota; cbn [w_hub w_st w_calls] in * | hub_step].

(** What becomes of a request to delete a topic that is loaded. *)
Definition outcome (w w' : HW St) (r : Res unit) (sess : option Session) (topic : string) (m : HubMsg) (i : nat) (x : Inst) : Prop :=
  let t := x.(i_topic) in
  let hard := match hm_del m with Some d => d.(del_Hard) || cat_eqb t.(t_cat) TopicCatP2P | None => true end in
  let deleted := topics_delete topic t.(t_isChan) hard now w.(w_st) in
  if may_delete t (ParseUserId m.(hm_AsUser)) then
    if isOfficialTopic t then r = Err (StoreErr ErrPermissionDenied) /\ only_calls w w'
    else
      w'.(w_st) = deleted.1 /\
      match deleted.2 with
      | Some e =>
          r = Err e /\ w'.(w_hub).(h_topics) = w.(w_hub).(h_topics) /\
          w'.(w_hub).(h_insts) !! i = Some (on_topic (fun t => markPaused (markPaused t true) false) x)
      | None =>
          r = Ret tt /\ w'.(w_hub).(h_topics) = delete topic w.(w_hub).(h_topics) /\
          w'.(w_hub).(h_insts) !! i =
            Some (add_exit (mkShutDown None StopDeleted) (on_topic (fun t => markDeleted (markPaused t true)) x))
      end
  else r = Ret tt /\ w'.(w_st) = w.(w_st) /\ w'.(w_hub) = set_inst w.(w_hub) i (add_meta (as_del_topic sess m)).

(** C27: A request to delete a loaded topic: without the right to delete it goes on to the topic as a request to leave; of an official
    topic it is refused; a failure of the store leaves the topic registered and accepting requests; otherwise the topic is taken
    out, marked and told to exit. *)
Theorem deletion_outcome sess topic m i x w w' r :
  w.(w_hub).(h_topics) !! topic = Some i -> w.(w_hub).(h_insts) !! i = Some x ->
  topicUnreg cluster now officialPolicyFromAux sess topic (Some m) StopDeleted w = (w', r) -> outcome w w' r sess topic m i x.
Proof.
  intros Hi Hx E. enough (sat w (topicUnreg cluster now officialPolicyFromAux sess topic (Some m) StopDeleted)
    (fun w' r => outcome w w' r sess topic m i x)) as H by (unfold sat in H; by rewrite E in H).
  clear w' r E. unfold topicUnreg. assert (topic_at w.(w_hub) topic = Some (i, x.(i_topic))) as Et by (unfold topic_at; rewrite Hi; cbn; by rewrite Hx).
  do 2 sure_step. rewrite Et. do 2 sure_step. rewrite bool_decide_true by done. unfold unreg_online, outcome. destruct (may_delete _ _).
  2: { apply sat_bind. cbn [hlift]. apply sat_ret. repeat sure_step. done. }
  destruct (isOfficialTopic _); [by repeat sure_step|].
  cbn [option_bind mbind]. generalize (match hm_del m with Some d => d.(del_Hard) || cat_eqb (t_cat (i_topic x)) TopicCatP2P | None => true end).
  intros hard. repeat sure_step. destruct (topics_delete _ _ hard now w.(w_st)).2 as [e|]; repeat sure_step;
    (split; [done|]); (split; [done|]); (split; [done|]); cbn; by rewrite !list_alter_alter_eq, list_lookup_alter_eq, Hx.
Qed.
End Outcome.

(** ** The deletion of a user *)

Section StopUser.
Context {St : Type} (uid : Uid) (reason : StopReason) (waiter : option nat).

Definition told (x : Inst) : Inst := add_exit (mkShutDown waiter reason) (on_topic markDeleted x).
Definition stopped (h : HubState) (name : string) : bool :=
  match topic_at h name with Some (_, t) => stops uid t | None => false end.

Lemma visit_run name i x (w w' : HW St) b : w.(w_hub).(h_insts) !! i = Some x -> stop_visit uid reason waiter name i w = (w', Ret b) ->
  b = stops uid x.(i_topic) /\
  w'.(w_hub) = if b then mkHub (delete name w.(w_hub).(h_topics)) w.(w_hub).(h_num) (alter told i w.(w_hub).(h_insts)) else w.(w_hub).
Proof.
  intros Hx E. enough (sat w (stop_visit uid reason waiter name i) (fun w' r => forall b, r = Ret b -> b = stops uid x.(i_topic) /\
    w'.(w_hub) = if b then mkHub (delete name w.(w_hub).(h_topics)) w.(w_hub).(h_num) (alter told i w.(w_hub).(h_insts)) else w.(w_hub))) as H
    by (unfold sat in H; rewrite E in H; by apply H).
  unfold stop_visit. do 2 hub_step. rewrite Hx. destruct (stops _ _); [|apply sat_ret; intros b0 E0; by injection E0 as <-].
  repeat hub_step; intros b0 E0; try done; injection E0 as <-; (split; [done|]);
    repeat match goal with E : w_hub _ = _ |- _ => rewrite E end; unfold set_inst; cbn; by rewrite list_alter_alter_eq.
Qed.

Abbreviation anywhere := (fun _ : nat => True) (only parsing).

(** What the loop leaves of a topic. *)
Definition kept (h' : HubState) (name : string) (i : nat) (x : Inst) : Prop := h'.(h_topics) !! name = Some i /\ h'.(h_insts) !! i = Some x.
Definition ousted (h' : HubState) (name : string) (i : nat) (x : Inst) : Prop := h'.(h_topics) !! name = None /\ h'.(h_insts) !! i = Some (told x).

Lemma other_topic h name i n j : registered_ok anywhere h -> h.(h_topics) !! name = Some i -> h.(h_topics) !! n = Some j -> n <> name -> i <> j.
Proof. intros Hr Hi Hj Hn ->. destruct (Hr _ _ Hi) as (x & Hx & E & _), (Hr _ _ Hj) as (y & Hy & E' & _). congruence. Qed.

(** One topic leaves the others. *)
Lemma oust_others h name i n j x : registered_ok anywhere h -> h.(h_topics) !! name = Some i -> n <> name ->
  let h1 := mkHub (delete name h.(h_topics)) h.(h_num) (alter told i h.(h_insts)) in
  (h.(h_topics) !! n = Some j /\ h.(h_insts) !! j = Some x <-> h1.(h_topics) !! n = Some j /\ h1.(h_insts) !! j = Some x).
Proof.
  intros Hr Hi Hn. cbn. rewrite lookup_delete_ne by done. split; intros [H1 H2]; (split; [done|]); pose proof (other_topic _ _ _ _ _ Hr Hi H1 Hn);
    [rewrite list_lookup_alter_ne by done|rewrite list_lookup_alter_ne in H2 by done]; done.
Qed.

Lemma oust_registered h name i : registered_ok anywhere h -> h.(h_topics) !! name = Some i ->
  registered_ok anywhere (mkHub (delete name h.(h_topics)) h.(h_num) (alter told i h.(h_insts))).
Proof.
  intros Hr Hi n j Hj. cbn in Hj. apply lookup_delete_Some in Hj as [Hn Hj]. destruct (Hr n j Hj) as (x & Hx & Hx').
  exists x. split; [|done]. by apply (oust_others h name i n j x).
Qed.

Definition after_stop (h h' : HubState) (names : list string) : Prop := forall name i x,
  h.(h_topics) !! name = Some i -> h.(h_insts) !! i = Some x ->
  if bool_decide (name ∈ names) && stops uid x.(i_topic) then ousted h' name i x else kept h' name i x.

Lemma elem_of_tail (m n : string) names : m <> n -> bool_decide (m ∈ n :: names) = bool_decide (m ∈ names).
Proof. intros Hn. apply bool_decide_ext. rewrite elem_of_cons. intuition. Qed.

Lemma after_skip h h' n names : (forall i x, h.(h_topics) !! n = Some i -> h.(h_insts) !! i = Some x -> stops uid x.(i_topic) = false) ->
  after_stop h h' names -> after_stop h h' (n :: names).
Proof.
  intros Hs Ha name i x Hi Hx. specialize (Ha name i x Hi Hx). destruct (decide (name = n)) as [->|Hn].
  - rewrite (Hs i x Hi Hx) in *. by rewrite andb_false_r in *.
  - by rewrite elem_of_tail.
Qed.

Lemma after_oust h h' n i x names : registered_ok anywhere h -> h.(h_topics) !! n = Some i -> h.(h_insts) !! i = Some x ->
  stops uid x.(i_topic) = true -> ousted h' n i x ->
  after_stop (mkHub (delete n h.(h_topics)) h.(h_num) (alter told i h.(h_insts))) h' names -> after_stop h h' (n :: names).
Proof.
  intros Hr Hi Hx Hs Ho Ha m j y Hj Hy. destruct (decide (m = n)) as [->|Hn].
  - simplify_eq. rewrite Hs, bool_decide_true by set_solver. done.
  - rewrite elem_of_tail by done. by apply Ha; apply (oust_others h n i m j y Hr Hi Hn).
Qed.

Lemma stop_loop_cons n names c (w : HW St) :
  stop_loop uid reason waiter c (n :: names) w =
  match w.(w_hub).(h_topics) !! n with
  | None => stop_loop uid reason waiter c names w
  | Some i =>
      match stop_visit uid reason waiter n i w with
      | (w1, Ret b) => stop_loop uid reason waiter (if b : bool then c + 1 else c) names w1
      | (w1, Err e) => (w1, Err e)
      | (w1, Panic p) => (w1, Panic p)
      end
  end.
Proof. cbn [stop_loop]. unfold hbind at 1, hget at 1. cbn. by destruct (_ !! n). Qed.

(** What was lost stays lost. *)
Lemma stop_loop_gone n i x names : n ∉ names -> forall c (w w' : HW St) c', registered_ok anywhere w.(w_hub) ->
  w.(w_hub).(h_topics) !! n = None -> w.(w_hub).(h_insts) !! i = Some x -> (forall m, w.(w_hub).(h_topics) !! m <> Some i) ->
  stop_loop uid reason waiter c names w = (w', Ret c') -> w'.(w_hub).(h_topics) !! n = None /\ w'.(w_hub).(h_insts) !! i = Some x.
Proof.
  induction names as [|m names IH]; intros Hno c w w' c' Hr Hn Hx Hout E; [cbn [stop_loop] in E; injection E as <- <-; by split|].
  apply not_elem_of_cons in Hno as [Hm Hno]. rewrite stop_loop_cons in E. destruct (h_topics (w_hub w) !! m) as [j|] eqn:Hj; [|by eapply IH].
  destruct (Hr m j Hj) as (y & Hy & _). destruct (stop_visit uid reason waiter m j w) as [w1 [b|e|p]] eqn:Ev; [|done|done].
  destruct (visit_run m j y w w1 b Hy Ev) as [_ Hw1]. destruct b; [|eapply (IH Hno _ w1); rewrite ?Hw1; done].
  eapply (IH Hno _ w1); rewrite ?Hw1; [by apply oust_registered|cbn; by rewrite lookup_delete_ne| |intros k Hk; cbn in Hk; by apply lookup_delete_Some in Hk as [_ Hk%Hout]|done].
  cbn. rewrite list_lookup_alter_ne; [done|]. intros ->. by apply (Hout m).
Qed.

Lemma stopped_other h n i m : registered_ok anywhere h -> h.(h_topics) !! n = Some i -> m <> n ->
  stopped (mkHub (delete n h.(h_topics)) h.(h_num) (alter told i h.(h_insts))) m = stopped h m.
Proof.
  intros Hr Hi Hm. unfold stopped, topic_at. cbn. rewrite lookup_delete_ne by done. destruct (h_topics h !! m) as [j|] eqn:Hj; [|done].
  cbn. rewrite list_lookup_alter_ne; [done|]. by eapply other_topic.
Qed.

Lemma stop_loop_run names : forall c (w w' : HW St) c', NoDup names -> registered_ok anywhere w.(w_hub) ->
  stop_loop uid reason waiter c names w = (w', Ret c') ->
  after_stop w.(w_hub) w'.(w_hub) names /\ c' = c + Z.of_nat (List.length (List.filter (stopped w.(w_hub)) names)).
Proof.
  induction names as [|n names IH]; intros c w w' c' Hnd Hr E.
  { injection E as <- <-. split; [|cbn; lia]. intros m i x Hi Hx. rewrite bool_decide_false by apply not_elem_of_nil. done. }
  apply NoDup_cons in Hnd as [Hno Hnd]. rewrite stop_loop_cons in E. cbn [List.filter].
  destruct (h_topics (w_hub w) !! n) as [i|] eqn:Hi.
  2: { destruct (IH _ _ _ _ Hnd Hr E) as [H1 H2]. unfold stopped at 1, topic_at. rewrite Hi. split; [|done]. apply after_skip; [|done]. by intros i x; rewrite Hi. }
  destruct (Hr n i Hi) as (x & Hx & _). destruct (stop_visit uid reason waiter n i w) as [w1 [b|e|p]] eqn:Ev; [|done|done].
  destruct (visit_run n i x w w1 b Hx Ev) as [Hb Hw1]. assert (stopped (w_hub w) n = stops uid (i_topic x)) as Hs by (unfold stopped, topic_at; rewrite Hi; cbn; by rewrite Hx).
  rewrite Hs, <- Hb. destruct b.
  - pose proof (oust_registered _ _ _ Hr Hi) as Hr1. destruct (IH _ _ _ _ Hnd ltac:(by rewrite Hw1) E) as [H1 H2]. rewrite Hw1 in H1, H2. split.
    + eapply after_oust; try done. eapply stop_loop_gone; [exact Hno| | | | |exact E]; rewrite Hw1; [done|by cbn; rewrite lookup_delete_eq|by cbn; rewrite list_lookup_alter_eq, Hx|].
      intros k Hk. cbn in Hk. apply lookup_delete_Some in Hk as [Hk Hki]. apply (other_topic _ n i k i Hr Hi Hki); [by intros ->|done].
    + rewrite (filter_ext_in _ (stopped (w_hub w))) in H2; [cbn [List.length]; lia|]. intros m Hm. apply stopped_other; [done|done|].
      intros ->. by apply Hno, list_elem_of_In.
  - destruct (IH _ _ _ _ Hnd ltac:(by rewrite Hw1) E) as [H1 H2]. rewrite Hw1 in H1, H2. split; [|done]. apply after_skip; [|done]. intros j y Hj Hy. congruence.
Qed.

(** The loop comes to its end. *)
Lemma other_user_found t : t.(t_cat) = TopicCatP2P -> size t.(perUser) = 2%nat -> is_Some (p2pOtherUser t uid).
Proof.
  intros Hc Hn. unfold p2pOtherUser. rewrite Hc. cbn [cat_eqb]. destruct (List.find _ _) as [kv|] eqn:Ef; [by eexists|]. exfalso.
  assert (map fst (map_to_list t.(perUser)) = replicate 2 uid) as E.
  { symmetry. apply replicate_as_elem_of. rewrite length_fmap, length_map_to_list. split; [done|]. intros u Hu.
    apply list_elem_of_fmap in Hu as (kv & -> & Hkv). eapply List.find_none in Ef; [|by apply list_elem_of_In].
    apply negb_false_iff, Z.eqb_eq in Ef. unfold Compare in Ef. destruct (kv.1 <? uid)%N eqn:E1, (uid <? kv.1)%N eqn:E2; try done. apply N.ltb_ge in E1, E2. by apply N.le_antisymm. }
  pose proof (NoDup_fst_map_to_list t.(perUser)) as Hnd. change (NoDup (map fst (map_to_list t.(perUser)))) in Hnd. rewrite E in Hnd. apply NoDup_cons in Hnd as [Hnd _]. apply Hnd. by left.
Qed.

Lemma visit_returns name i (w : HW St) : exists b, (stop_visit uid reason waiter name i w).2 = Ret b.
Proof.
  enough (sat w (stop_visit uid reason waiter name i) (fun _ r => exists b, r = Ret b)) as H by exact H.
  unfold stop_visit. do 2 hub_step. destruct (_ !! i) as [x|]; [|apply sat_ret; by eexists]. destruct (stops _ _); [|apply sat_ret; by eexists].
  do 12 hub_step. destruct (cat_eqb _ _ && _) eqn:Ec.
  - apply andb_true_iff in Ec as [Ec Es]. apply cat_eqb_spec in Ec. apply Nat.eqb_eq in Es. destruct (other_user_found _ Ec Es) as [u ->].
    unfold hlift. do 2 hub_step. apply sat_bind, sat_eff, sat_ret. by eexists.
  - by eexists.
Qed.

Lemma stop_loop_returns names : forall c (w : HW St), exists c', (stop_loop uid reason waiter c names w).2 = Ret c'.
Proof.
  induction names as [|n names IH]; intros c w; [by eexists|]. rewrite stop_loop_cons. destruct (_ !! n) as [i|]; [|apply IH].
  pose proof (visit_returns n i w) as [b Hb]. destruct (stop_visit uid reason waiter n i w) as [w1 r]. cbn in Hb. subst r. apply IH.
Qed.

(** The topics that go with a user. *)
Definition theirs (t : Topic) : Prop := t.(owner) = uid \/ t.(t_cat) <> TopicCatGrp /\ is_Some (t.(perUser) !! uid).

Lemma stops_theirs t : stops uid t = true <-> theirs t.
Proof.
  unfold stops, theirs. rewrite orb_true_iff, andb_true_iff, negb_true_iff, bool_decide_eq_true, N.eqb_eq, <- not_true_iff_false, cat_eqb_spec. tauto.
Qed.

(** Whatever topics are registered, stopping those of a user comes to its end: it takes out of the registry exactly the topics
    the user owns and, other than groups, has a part in, tells each of these to exit once, with the waiter of the request, leaves
    every other topic as it was, and returns how many reports are to come. *)
Theorem user_topics_stopped (w : HW St) : registered_ok anywhere w.(w_hub) ->
  exists w' n, stopTopicsForUser uid reason waiter w = (w', Ret n) /\
    (forall name i x, w.(w_hub).(h_topics) !! name = Some i -> w.(w_hub).(h_insts) !! i = Some x ->
       (theirs x.(i_topic) -> ousted w'.(w_hub) name i x) /\ (~ theirs x.(i_topic) -> kept w'.(w_hub) name i x)) /\
    n = Z.of_nat (List.length (List.filter (stopped w.(w_hub)) (map fst (map_to_list w.(w_hub).(h_topics))))).
Proof.
  intros Hr. set (names := map fst (map_to_list w.(w_hub).(h_topics))). destruct (stop_loop_returns names 0 w) as [c Hc].
  destruct (stop_loop uid reason waiter 0 names w) as [w1 r] eqn:E. cbn in Hc. subst r.
  destruct (stop_loop_run names 0 w w1 c ltac:(apply NoDup_fst_map_to_list) Hr E) as [Ha ->].
  eexists _, _. unfold stopTopicsForUser, hbind at 1, hget. fold names. unfold hbind at 1. rewrite E. split; [done|]. split; [|lia].
  intros name i x Hi Hx. specialize (Ha name i x Hi Hx). rewrite <- stops_theirs.
  rewrite bool_decide_true in Ha; [by destruct (stops uid (i_topic x)); split|].
  unfold names. apply list_elem_of_fmap. exists (name, i). split; [done|by apply elem_of_map_to_list].
Qed.
End StopUser.
