(* ===== verification/HubStages.v ===== *)
(** * HubStages: removing topics, in stages

    The functions of internal/server/hub.go that take topics out of the registry, as programs whose stages other goroutines can
    come between: [topicUnreg] and the rehash run in the loop of the hub, [stopTopicsForUser] in a goroutine of its own, and both
    send to a channel with room for one.  The proofs show that a program that runs alone does what [Hub] says.  [HubNode]
    interleaves the programs. *)

From Stdlib Require Import NArith ZArith Lia List Ascii String Bool.
From stdpp Require Import base tactics numbers list strings gmap sets.
From S2P Require Import Prelude AccessMode Uid StoreTypes Drafty Messages Interactions Cluster SubStore Utils PubStore History TopicStore Topic TopicSub Publish Presence Notes MetaHistory Hub HubProps.
Import Objects Ranges.
Import Topic.

#[local] Open Scope string_scope.
#[local] Open Scope Z_scope.

(** ** Programs *)

(** [Atom]: a computation that nothing comes between.  The stages that change what others see of a topic: it is marked deleted; its
    name is taken out of the registry, and counted; it is told to exit. *)
Inductive Script (St A : Type) : Type :=
| Done (r : Res A)
| Atom (X : Type) (m : HM (St := St) X) (k : X -> Script St A)
| MarkDeleted (i : nat) (k : Script St A)
| Unregister (name : string) (count : Z) (k : Script St A)
| TellExit (i : nat) (sd : shutDown) (k : Script St A).
Arguments Done {St A}. Arguments Atom {St A X}. Arguments MarkDeleted {St A}. Arguments Unregister {St A}. Arguments TellExit {St A}.

Section Programs.
Context {St : Type}.

Fixpoint pbind {A B} (p : Script St A) (f : A -> Script St B) : Script St B :=
  match p with
  | Done (Ret a) => f a
  | Done (Err e) => Done (Err e)
  | Done (Panic p) => Done (Panic p)
  | Atom m k => Atom m (fun x => pbind (k x) f)
  | MarkDeleted i k => MarkDeleted i (pbind k f)
  | Unregister name n k => Unregister name n (pbind k f)
  | TellExit i sd k => TellExit i sd (pbind k f)
  end.

Definition pret {A} (a : A) : Script St A := Done (Ret a).
Definition act {A} (m : HM A) : Script St A := Atom m pret.

(** Goes on with the error of a program. *)
Fixpoint pattempt {A} (p : Script St A) : Script St (A + GoError) :=
  match p with
  | Done (Ret a) => Done (Ret (inl a))
  | Done (Err e) => Done (Ret (inr e))
  | Done (Panic p) => Done (Panic p)
  | Atom m k => Atom (hattempt m) (fun x => match x with inl x => pattempt (k x) | inr e => Done (Ret (inr e)) end)
  | MarkDeleted i k => MarkDeleted i (pattempt k)
  | Unregister name n k => Unregister name n (pattempt k)
  | TellExit i sd k => TellExit i sd (pattempt k)
  end.

Definition forget (name : string) (n : Z) : HM (St := St) unit := h <== hget ;; hput (set_topics h (delete name h.(h_topics)) (h.(h_num) - n)).

(** One stage; [None] if the program is done, or waits for room in the channel. *)
Definition advance {A} (p : Script St A) (w : HW St) : option (HW St * Script St A) :=
  match p with
  | Done _ => None
  | Atom m k => Some (match m w with (w', Ret x) => (w', k x) | (w', Err e) => (w', Done (Err e)) | (w', Panic s) => (w', Done (Panic s)) end)
  | MarkDeleted i k => Some ((modify_inst i (on_topic markDeleted) w).1, k)
  | Unregister name n k => Some ((forget name n w).1, k)
  | TellExit i sd k =>
      match w.(w_hub).(h_insts) !! i with
      | Some x => if (List.length x.(i_exit) <? 1)%nat then Some ((send_exit i sd w).1, k) else None
      | None => None
      end
  end.

(** The program with nothing between its stages. *)
Fixpoint solo {A} (p : Script St A) : HM A :=
  match p with
  | Done r => fun w => (w, r)
  | Atom m k => hbind m (fun x => solo (k x))
  | MarkDeleted i k => modify_inst i (on_topic markDeleted) ;;= solo k
  | Unregister name n k => forget name n ;;= solo k
  | TellExit i sd k => send_exit i sd ;;= solo k
  end.

Lemma hbind_ext {A B} (m m' : HM (St := St) A) (k k' : A -> HM B) w : m w = m' w -> (forall a w, k a w = k' a w) -> hbind m k w = hbind m' k' w.
Proof. intros Hm Hk. unfold hbind. rewrite Hm. by destruct (m' w) as [w1 []]. Qed.

Lemma hbind_assoc {A B C} (m : HM (St := St) A) (k : A -> HM B) (f : B -> HM C) w : hbind (hbind m k) f w = hbind m (fun a => hbind (k a) f) w.
Proof. unfold hbind. by destruct (m w) as [w1 []]. Qed.

Lemma solo_bind {A B} (p : Script St A) (f : A -> Script St B) w : solo (pbind p f) w = hbind (solo p) (fun a => solo (f a)) w.
Proof.
  revert w. induction p as [[a|e|s]|X m k IH|i k IH|name n k IH|i sd k IH]; intros w; cbn [pbind solo]; try done;
    rewrite hbind_assoc; apply hbind_ext; try done; intros; apply IH.
Qed.

Lemma solo_attempt {A} (p : Script St A) w : solo (pattempt p) w = hattempt (solo p) w.
Proof.
  revert w. induction p as [[a|e|s]|X m k IH|i k IH|name n k IH|i sd k IH]; intros w; cbn [pattempt solo]; try done.
  - unfold hattempt at 2, hbind, hattempt at 1. destruct (m w) as [w1 [x|e|s]]; [apply IH|done|done].
  - unfold hbind at 1. cbn. by rewrite IH.
  - unfold hbind at 1. cbn. by rewrite IH.
  - unfold hbind at 1. cbn. by rewrite IH.
Qed.

Lemma solo_act {A} (m : HM A) w : solo (act m) w = m w.
Proof. unfold act, pret. cbn. unfold hbind. by destruct (m w) as [w1 []]. Qed.
End Programs.

Notation "x <<- p ;; k" := (pbind p (fun x => k)) (at level 100, p at next level, right associativity) : go_scope.
Notation "p ;;~ k" := (pbind p (fun _ => k)) (at level 100, right associativity) : go_scope.

(** ** The programs *)

Section Stages.
Context {St : Type} `{Subs : SubStore St, Tops : !TopicStore St}.
Context (cluster : option Cluster) (now : Z).
Context (officialPolicyFromAux : string -> option (list (string * Any)) -> option officialTopicPolicy + GoError).

Abbreviation Script := (Script St) (only parsing).

Definition mark (i : nat) : Script unit := MarkDeleted i (pret tt).
Definition unregister (name : string) (n : Z) : Script unit := Unregister name n (pret tt).
Definition tell (i : nat) (sd : shutDown) : Script unit := TellExit i sd (pret tt).

(** [topicUnreg], case 1.1. *)
Definition unreg_online_stages (sess : option Session) (topic : string) (msg : option HubMsg) (asUid : Uid) (i : nat) (t : Topic) : Script unit :=
  if may_delete t asUid then
    if isOfficialTopic t then act (answer_if sess msg ErrPermissionDeniedReply ;;= hfail (StoreErr ErrPermissionDenied))
    else
      act (modify_inst i (on_topic (fun t => markPaused t true))) ;;~
      (let hard := match m ← msg; hm_del m with
                   | Some d => d.(del_Hard) || cat_eqb t.(t_cat) TopicCatP2P
                   | None => true
                   end in
       err <<- act (hcall (topics_delete topic t.(t_isChan) hard now)) ;;
       match err with
       | Some e =>
           act (modify_inst i (on_topic (fun t => markPaused t false))) ;;~
           act (answer_if sess msg ErrUnknownReply ;;= hfail e)
       | None =>
           act (answer_if sess msg NoErrReply) ;;~
           act (hwhen t.(t_isChan) (push cluster (pushForChanDelete now t.(t_name)))) ;;~
           unregister topic 1 ;;~
           mark i ;;~
           tell i (mkShutDown None StopDeleted) ;;~
           act (heff (StatsInc "LiveTopics" (-1)))
       end)
  else act (m <== hlift nil_pointer msg ;; modify_inst i (add_meta (as_del_topic sess m))).

(** Case 2. *)
Definition unload_stages (sess : option Session) (topic : string) (msg : option HubMsg) (reason : StopReason) : Script unit :=
  t <<- act (topicGet topic) ;;
  match t with
  | Some (i, _) =>
      mark i ;;~
      unregister topic 1 ;;~
      tell i (mkShutDown None reason) ;;~
      act (heff (StatsInc "LiveTopics" (-1)))
  | None => pret tt
  end ;;~
  act (match msg with Some _ => answer_if sess msg NoErrReply | None => hret tt end).

(** What a topic that is not loaded is deleted with leaves the registry alone: one stage. *)
Definition topicUnreg_stages (sess : option Session) (topic : string) (msg : option HubMsg) (reason : StopReason) : Script unit :=
  t <<- act (topicGet topic) ;;
  act (hwhen (bool_decide (reason = StopDeleted) &&
         match t with Some (_, t) => negb t.(t_isProxy) && (t.(t_isChan) || IsChannel topic) | None => false end)
    (push cluster (pushForChanDelete now topic))) ;;~
  if bool_decide (reason = StopDeleted) then
    let asUid := match msg with Some m => ParseUserId m.(hm_AsUser) | None => ZeroUid end in
    t <<- act (topicGet topic) ;;
    match t with
    | Some (i, t) => unreg_online_stages sess topic msg asUid i t
    | None => act (unreg_offline cluster now officialPolicyFromAux sess topic msg asUid)
    end
  else unload_stages sess topic msg reason.

Definition unreg_stages (u : UnregReq) : Script unit :=
  let reason := if u.(un_del) then StopDeleted else StopNone in
  if IsZeroUid u.(un_forUser) then _ <<- pattempt (topicUnreg_stages u.(un_sess) u.(un_rcptTo) u.(un_pkt) reason) ;; pret tt
  else act (heff (GoStop u.(un_forUser) reason u.(un_done))).

Fixpoint rehash_stages (ts : list (string * nat)) : Script unit :=
  match ts with
  | [] => pret tt
  | (_, i) :: ts' =>
      h <<- act hget ;;
      match h.(h_insts) !! i with
      | Some x =>
          let t := x.(i_topic) in
          (if negb (Bool.eqb t.(t_isProxy) (isRemoteTopic cluster t.(t_name)))
           then _ <<- pattempt (topicUnreg_stages None t.(t_name) None StopRehashing) ;; pret tt else pret tt) ;;~
          rehash_stages ts'
      | None => rehash_stages ts'
      end
  end.

Definition handle_rehash_stages : Script unit :=
  h <<- act hget ;;
  rehash_stages (map_to_list h.(h_topics)) ;;~
  act (t <== topicGet "sys" ;;
       match t with
       | None => hwhen (negb (isRemoteTopic cluster "sys")) (heff (GoJoin join_sys))
       | Some _ => hret tt
       end).

(** What [Range] does with one topic. *)
Definition visit_stages (uid : Uid) (reason : StopReason) (done : option nat) (name : string) (i : nat) : Script bool :=
  h <<- act hget ;;
  match h.(h_insts) !! i with
  | None => pret false
  | Some x =>
      let t := x.(i_topic) in
      if stops uid t then
        mark i ;;~
        unregister name 0 ;;~
        tell i (mkShutDown done reason) ;;~
        act (if cat_eqb t.(t_cat) TopicCatP2P && (size t.(perUser) =? 2)%nat then
               other <== hlift "Not a valid P2P topic" (p2pOtherUser t uid) ;;
               heff (Out (PresSingleUserOfflineOffline other (UserId uid) "gone" nilPresParams ""))
             else hret tt) ;;~
        pret true
      else pret false
  end.

Fixpoint stop_stages (uid : Uid) (reason : StopReason) (done : option nat) (count : Z) (names : list string) : Script Z :=
  match names with
  | [] => pret count
  | name :: names' =>
      h <<- act hget ;;
      match h.(h_topics) !! name with
      | None => stop_stages uid reason done count names'
      | Some i => b <<- visit_stages uid reason done name i ;; stop_stages uid reason done (if b : bool then count + 1 else count) names'
      end
  end.

Definition stopTopicsForUser_stages (uid : Uid) (reason : StopReason) (done : option nat) : Script Z :=
  h <<- act hget ;;
  count <<- stop_stages uid reason done 0 (map fst (map_to_list h.(h_topics))) ;;
  act (heff (StatsInc "LiveTopics" (- count))) ;;~ pret count.

(** *** Alone they are the functions of [Hub] *)

Lemma solo_then {A B} (p : Script A) (f : A -> Script B) (m : HM A) (k : A -> HM B) w :
  (forall w, solo p w = m w) -> (forall a w, solo (f a) w = k a w) -> solo (pbind p f) w = hbind m k w.
Proof. intros Hp Hf. rewrite solo_bind. by apply hbind_ext. Qed.

Lemma solo_mark i (w : HW St) : solo (mark i) w = modify_inst i (on_topic markDeleted) w. Proof. done. Qed.
Lemma solo_tell i sd (w : HW St) : solo (tell i sd) w = send_exit i sd w. Proof. done. Qed.
Lemma solo_unregister name (w : HW St) : solo (unregister name 1) w = topicDel name w. Proof. done. Qed.
Lemma solo_pret {A} (a : A) (w : HW St) : solo (pret a) w = hret a w. Proof. done. Qed.

Ltac solo :=
  repeat match goal with
         | |- solo (pbind _ _) _ = hbind _ _ _ => apply solo_then; intros
         | |- solo (act _) _ = _ => apply solo_act
         | |- solo (match ?x with _ => _ end) _ = (match ?x with _ => _ end) _ => destruct x
         | |- solo (if ?x then _ else _) _ = (if ?x then _ else _) _ => destruct x
         | |- _ => first [apply solo_mark|apply solo_tell|apply solo_unregister|apply solo_pret]
         end.

Lemma solo_online sess topic msg u i t w :
  solo (unreg_online_stages sess topic msg u i t) w = unreg_online cluster now sess topic msg u i t w.
Proof. unfold unreg_online_stages, unreg_online. solo. Qed.

Lemma solo_unload sess topic msg reason w : solo (unload_stages sess topic msg reason) w = unreg_unload sess topic msg reason w.
Proof. unfold unload_stages, unreg_unload. solo. Qed.

(** The registry is asked twice; the push between leaves it. *)
Lemma solo_topicUnreg sess topic msg reason w :
  solo (topicUnreg_stages sess topic msg reason) w = topicUnreg cluster now officialPolicyFromAux sess topic msg reason w.
Proof.
  unfold topicUnreg_stages, topicUnreg. rewrite solo_bind. unfold hbind at 1. rewrite solo_act. unfold hbind at 1.
  change (topicGet topic w) with (w, Ret (topic_at w.(w_hub) topic)). cbn iota beta. set (t := topic_at _ topic).
  rewrite solo_bind. unfold hbind at 1. rewrite solo_act. unfold hbind at 1.
  assert (quiet (hwhen (bool_decide (reason = StopDeleted) &&
    match t with Some (_, t) => negb t.(t_isProxy) && (t.(t_isChan) || IsChannel topic) | None => false end)
    (push (St := St) cluster (pushForChanDelete now topic)))) as Hq by quiet.
  destruct (Hq w) as [Hh _]. destruct (hwhen _ _ w) as [w1 [[]|e|s]]; [|done|done]. cbn in Hh. cbv beta iota.
  case_bool_decide; [|apply solo_unload]. cbv zeta. rewrite solo_bind. unfold hbind at 1. rewrite solo_act.
  change (topicGet topic w1) with (w1, Ret (topic_at w1.(w_hub) topic)). rewrite Hh. fold t. cbn beta iota.
  destruct t as [[i t]|]; [apply solo_online|apply solo_act].
Qed.

Lemma solo_unreg u w : solo (unreg_stages u) w = handle_unreg cluster now officialPolicyFromAux u w.
Proof.
  unfold unreg_stages, handle_unreg. destruct (IsZeroUid _); [|apply solo_act]. apply solo_then; [|done]. intros w1. rewrite solo_attempt.
  unfold hattempt. by rewrite solo_topicUnreg.
Qed.

Lemma solo_rehash w : solo handle_rehash_stages w = handle_rehash cluster now officialPolicyFromAux w.
Proof.
  unfold handle_rehash_stages, handle_rehash. apply solo_then; [apply solo_act|]. intros h w0. apply solo_then; [|intros; apply solo_act].
  induction (map_to_list (h_topics h)) as [|[n i] ts IH]; intros w1; [done|]. cbn [rehash_stages rehash_topics].
  apply solo_then; [apply solo_act|]. intros h1 w2. destruct (_ !! i) as [x|]; [|apply IH]. apply solo_then; [|intros; apply IH]. intros w3. unfold hwhen.
  destruct (negb _); [|done]. apply solo_then; [|done]. intros w4. rewrite solo_attempt. unfold hattempt. by rewrite solo_topicUnreg.
Qed.

Lemma solo_stop uid reason done w : solo (stopTopicsForUser_stages uid reason done) w = stopTopicsForUser uid reason done w.
Proof.
  unfold stopTopicsForUser_stages, stopTopicsForUser. apply solo_then; [apply solo_act|]. intros h w0. apply solo_then.
  2: { intros c w1. apply solo_then; [apply solo_act|done]. }
  generalize 0 at 1 2. induction (map fst (map_to_list (h_topics h))) as [|n ns IH]; intros c w1; [done|]. cbn [stop_stages stop_loop].
  apply solo_then; [apply solo_act|]. intros h1 w2. destruct (_ !! n) as [i|]; [|apply IH]. apply solo_then; [|intros b w3; destruct b; apply IH]. intros w3.
  unfold visit_stages, stop_visit. apply solo_then; [apply solo_act|]. intros h2 w4. destruct (_ !! i) as [x|]; [|done]. destruct (stops _ _); [|done].
  apply solo_then; [apply solo_mark|]. intros _ w5. rewrite solo_bind. unfold hbind at 1. cbn. unfold forget, hbind at 1. cbn. rewrite Z.sub_0_r.
  unfold hbind at 3. cbn. reflexivity.
Qed.
End Stages.
