(* ===== verification/HubNode.v ===== *)
(** * HubNode: the hub, its topics and the deletion of users, interleaved

    The goroutines of internal/server/hub.go and internal/server/init_topic.go on one registry: the loop of the hub, the topics
    that load, run and end, and the deletions of users, as a transition system on the stages of [HubStages]. *)

From Stdlib Require Import NArith ZArith Lia List Ascii String Bool.
From stdpp Require Import base tactics numbers list strings gmap sets.
From S2P Require Import Prelude AccessMode Uid StoreTypes Fence Cluster Drafty Messages Interactions SubStore Utils PubStore History TopicStore Topic TopicSub TopicSubProps Publish Presence Notes MetaHistory Hub HubProps HubStages.
Import Objects Ranges.
Import Topic.

#[local] Open Scope string_scope.
#[local] Open Scope Z_scope.

(** ** The transition system *)

Inductive Phase := Loading | Running | Ended.
#[export] Instance Phase_eq_dec : EqDecision Phase.
Proof. solve_decision. Defined.

Inductive HubEvent :=
| EJoin (m : HubMsg) | ESchedule (m : HubMsg) | ERouteCli (m : HubMsg) | ERouteSrv (m : ServerComMessage) | EMeta (m : HubMsg)
| EStatus (uid : Uid) (state : Z) | EUnreg (u : UnregReq) | ERehash.

(** A change of a topic and its queues that leaves its name, whether it is deleted, and what it was told. *)
Definition keeps (f : Inst -> Inst) : Prop :=
  forall x, (f x).(i_topic).(t_name) = x.(i_topic).(t_name) /\ isDeleted (f x).(i_topic) = isDeleted x.(i_topic) /\ (f x).(i_exit) = x.(i_exit).

Definition take_exit (x : Inst) : Inst := mkInst x.(i_topic) x.(i_reg) x.(i_client) x.(i_server) x.(i_unreg) x.(i_meta) (tl x.(i_exit)).

(** The registry, the store and the calls made; the phases of the topics; what the loop of the hub and the deletions of users have
    still to do. *)
Record Node (St : Type) := mkNode { n_w : HW St; n_ph : list Phase; n_hub : Script St unit; n_stops : list (Script St Z) }.
Arguments mkNode {St}. Arguments n_w {St}. Arguments n_ph {St}. Arguments n_hub {St}. Arguments n_stops {St}.

Section System.
Context {St : Type} `{Subs : SubStore St, Tops : !TopicStore St}.
Context (officialPolicyFromAux : string -> option (list (string * Any)) -> option officialTopicPolicy + GoError).

(** One case of the loop. *)
Definition handle_stages (cluster : option Cluster) (now : Z) (e : HubEvent) : Script St unit :=
  match e with
  | EJoin m => act (handle_join cluster m)
  | ESchedule m => act (handle_schedule cluster m)
  | ERouteCli m => act (_ <== handle_routeCli cluster m ;; hret tt)
  | ERouteSrv m => act (handle_routeSrv cluster m)
  | EMeta m => act (handle_meta m)
  | EStatus uid state => act (handle_userStatus uid state)
  | EUnreg u => unreg_stages cluster now officialPolicyFromAux u
  | ERehash => handle_rehash_stages cluster now officialPolicyFromAux
  end.

(** The topics that were started load. *)
Definition started (ph : list Phase) (h : HubState) : list Phase := (ph ++ replicate (List.length h.(h_insts) - List.length ph) Loading)%list.

(** The loop takes the next case when it is done with the last; it goes on by a stage; with [users], a deletion of a user that it
    started begins, and goes on by a stage; topics of a user are made read only; a topic that loads or runs does anything to itself but
    exit, and to the store; its load succeeds or fails; it takes a request to exit. *)
Inductive node_step (users : bool) : Node St -> Node St -> Prop :=
| ns_take cluster now e w ph stops :
    node_step users (mkNode w ph (Done (Ret tt)) stops) (mkNode w ph (handle_stages cluster now e) stops)
| ns_hub w ph p stops w' p' : advance p w = Some (w', p') ->
    node_step users (mkNode w ph p stops) (mkNode w' (started ph w'.(w_hub)) p' stops)
| ns_delete uid reason done w ph p stops : users = true -> GoStop uid reason done ∈ w.(w_calls) ->
    node_step users (mkNode w ph p stops) (mkNode w ph p (stops ++ [stopTopicsForUser_stages uid reason done])%list)
| ns_stop j q w ph p stops w' q' : stops !! j = Some q -> advance q w = Some (w', q') ->
    node_step users (mkNode w ph p stops) (mkNode w' (started ph w'.(w_hub)) p (<[j := q']> stops))
| ns_states uid suspended w ph p stops : GoStates uid suspended ∈ w.(w_calls) ->
    node_step users (mkNode w ph p stops) (mkNode (topicsStateForUser uid suspended w).1 ph p stops)
| ns_serve i ph1 f st w ph p stops : ph !! i = Some ph1 -> ph1 <> Ended -> keeps f ->
    node_step users (mkNode w ph p stops) (mkNode (mkHW (set_inst w.(w_hub) i f) st w.(w_calls)) ph p stops)
| ns_loaded shuttingDown i x join w ph p stops w' : ph !! i = Some Loading -> w.(w_hub).(h_insts) !! i = Some x ->
    join.(hm_RcptTo) = x.(i_topic).(t_name) -> init_loaded shuttingDown i join w = (w', Ret tt) ->
    node_step users (mkNode w ph p stops)
      (mkNode w' (<[i := if shuttingDown || isDeleted x.(i_topic) then Ended else Running]> ph) p stops)
| ns_failed i x join err ended w ph p stops w' : ph !! i = Some Loading -> w.(w_hub).(h_insts) !! i = Some x ->
    join.(hm_RcptTo) = x.(i_topic).(t_name) -> init_failed i join err w = (w', Ret ended) ->
    node_step users (mkNode w ph p stops) (mkNode w' (<[i := Ended]> ph) p stops)
| ns_exit i x sd l w ph p stops : ph !! i = Some Running -> w.(w_hub).(h_insts) !! i = Some x -> x.(i_exit) = sd :: l ->
    node_step users (mkNode w ph p stops)
      (mkNode (mkHW (set_inst w.(w_hub) i take_exit) w.(w_st)
         (match sd.(sd_done) with Some waiter => ReportDone waiter :: w.(w_calls) | None => w.(w_calls) end)) (<[i := Ended]> ph) p stops).

Definition idle_node (st : St) : Node St := mkNode (mkHW (mkHub ∅ 0 []) st []) [] (Done (Ret tt)) [].

(** A topic that loads or runs. *)
Definition alive (ph : list Phase) (i : nat) : Prop := exists p, ph !! i = Some p /\ p <> Ended.

(** A goroutine is about to take the name out of the registry. *)
Definition about_to_remove (n : Node St) (name : string) : Prop :=
  (exists c k, n.(n_hub) = Unregister name c k) \/ (exists c k, Unregister name c k ∈ n.(n_stops)).

(** Every registered topic has its name, was not told to exit and, unless [leaving], is not deleted and [good]. *)
Definition registry_ok (good : nat -> Prop) (leaving : string -> Prop) (h : HubState) : Prop :=
  forall name i, h.(h_topics) !! name = Some i ->
    exists x, h.(h_insts) !! i = Some x /\ x.(i_topic).(t_name) = name /\ x.(i_exit) = [] /\
      (isDeleted x.(i_topic) = false /\ good i \/ leaving name).
End System.

(** ** Running it *)

Section Running.
Context {St : Type} `{Subs : SubStore St, Tops : !TopicStore St}.
Context (officialPolicyFromAux : string -> option (list (string * Any)) -> option officialTopicPolicy + GoError) (users : bool).

Definition hub_takes (cluster : option Cluster) (now : Z) (e : HubEvent) (n : Node St) : Node St :=
  match n.(n_hub) with
  | Done (Ret _) => mkNode n.(n_w) n.(n_ph) (handle_stages officialPolicyFromAux cluster now e) n.(n_stops)
  | _ => n
  end.

(** As many stages as there are, at most [fuel]. *)
Fixpoint hub_goes (fuel : nat) (n : Node St) : Node St :=
  match fuel with
  | O => n
  | S fuel =>
      match advance n.(n_hub) n.(n_w) with
      | Some (w', p') => hub_goes fuel (mkNode w' (started n.(n_ph) w'.(w_hub)) p' n.(n_stops))
      | None => n
      end
  end.

Fixpoint stop_goes (j : nat) (fuel : nat) (n : Node St) : Node St :=
  match fuel with
  | O => n
  | S fuel =>
      match n.(n_stops) !! j with
      | Some q =>
          match advance q n.(n_w) with
          | Some (w', q') => stop_goes j fuel (mkNode w' (started n.(n_ph) w'.(w_hub)) n.(n_hub) (<[j := q']> n.(n_stops)))
          | None => n
          end
      | None => n
      end
  end.

(** The first deletion of a user that the hub started begins. *)
Definition deletion_begins (n : Node St) : Node St :=
  match omap (fun e => match e with GoStop uid reason done => Some (uid, reason, done) | _ => None end) n.(n_w).(w_calls) with
  | (uid, reason, done) :: _ => mkNode n.(n_w) n.(n_ph) n.(n_hub) (n.(n_stops) ++ [stopTopicsForUser_stages uid reason done])
  | [] => n
  end.

Definition load_serves (i : nat) (f : Inst -> Inst) (n : Node St) : Node St :=
  match n.(n_ph) !! i with
  | Some Loading => mkNode (mkHW (set_inst n.(n_w).(w_hub) i f) n.(n_w).(w_st) n.(n_w).(w_calls)) n.(n_ph) n.(n_hub) n.(n_stops)
  | _ => n
  end.

Definition load_ends (i : nat) (join : HubMsg) (n : Node St) : Node St :=
  match n.(n_ph) !! i, n.(n_w).(w_hub).(h_insts) !! i with
  | Some Loading, Some x =>
      match init_loaded false i join n.(n_w) with
      | (w', Ret tt) =>
          if String.eqb join.(hm_RcptTo) x.(i_topic).(t_name)
          then mkNode w' (<[i := if isDeleted x.(i_topic) then Ended else Running]> n.(n_ph)) n.(n_hub) n.(n_stops) else n
      | _ => n
      end
  | _, _ => n
  end.

Abbreviation runs := (rtc (node_step officialPolicyFromAux users)) (only parsing).

Lemma deletion_begins_run n : users = true -> runs n (deletion_begins n).
Proof.
  intros Hu. unfold deletion_begins. destruct (omap _ _) as [|[[uid reason] waiter] l] eqn:E; [done|]. destruct n as [w ph p stops]. apply rtc_once, ns_delete; [done|].
  assert ((uid, reason, waiter) ∈ (uid, reason, waiter) :: l) as Hin by left. rewrite <- E in Hin. apply list_elem_of_omap in Hin as (e & He & Ee).
  destruct e; try done. by injection Ee as -> -> ->.
Qed.

Lemma load_serves_run i f n : keeps f -> runs n (load_serves i f n).
Proof.
  intros Hf. unfold load_serves. destruct (n_ph n !! i) as [[]|] eqn:E; try done. destruct n as [w ph p stops]. apply rtc_once. by eapply ns_serve.
Qed.

Lemma load_ends_run i join n : runs n (load_ends i join n).
Proof.
  unfold load_ends. destruct n as [w ph p stops]. cbn [n_w n_ph n_hub n_stops]. destruct (ph !! i) as [[]|] eqn:E; try done. destruct (h_insts _ !! i) as [x|] eqn:Ex; [|done].
  destruct (init_loaded false i join w) as [w' [[]| |]] eqn:Ei; try done. destruct (String.eqb (hm_RcptTo join) (t_name (i_topic x))) eqn:En; [|reflexivity].
  apply String.eqb_eq in En. apply rtc_once. by eapply (ns_loaded _ _ false).
Qed.

Lemma hub_takes_run cluster now e n : runs n (hub_takes cluster now e n).
Proof. unfold hub_takes. destruct n as [w ph [[[]| |]| | | |] stops]; cbn; try done. apply rtc_once. constructor. Qed.

Lemma hub_goes_run fuel n : runs n (hub_goes fuel n).
Proof.
  revert n. induction fuel as [|fuel IH]; intros [w ph p stops]; [done|]. cbn. destruct (advance p w) as [[w' p']|] eqn:E; [|done].
  eapply rtc_l; [by apply ns_hub|apply IH].
Qed.

Lemma stop_goes_run j fuel n : runs n (stop_goes j fuel n).
Proof.
  revert n. induction fuel as [|fuel IH]; intros [w ph p stops]; [done|]. cbn. destruct (stops !! j) as [q|] eqn:Ej; [|done].
  destruct (advance q w) as [[w' q']|] eqn:E; [|done]. eapply rtc_l; [by eapply ns_stop|apply IH].
Qed.
End Running.

(** ** What a step may do to the registry *)

(** Register a new topic, change a topic or a queue but not its name and not its [exit], forget a name or, where [drains], take what
    a topic was told. *)
Inductive reg_step (drains : nat -> Prop) (h : HubState) : HubState -> Prop :=
| rs_new x : x.(i_exit) = [] -> isDeleted x.(i_topic) = false ->
    reg_step drains h (mkHub (<[x.(i_topic).(t_name) := List.length h.(h_insts)]> h.(h_topics)) (h.(h_num) + 1) (h.(h_insts) ++ [x])%list)
| rs_inst i f : keeps f -> reg_step drains h (set_inst h i f)
| rs_forget name n : reg_step drains h (set_topics h (delete name h.(h_topics)) n)
| rs_drain i f : drains i ->
    (forall x, (f x).(i_topic).(t_name) = x.(i_topic).(t_name) /\ isDeleted (f x).(i_topic) = isDeleted x.(i_topic) /\ (f x).(i_exit) = tl x.(i_exit)) ->
    reg_step drains h (set_inst h i f).

Abbreviation reg_steps drains := (rtc (reg_step drains)) (only parsing).
Abbreviation nobody := (fun _ : nat => False) (only parsing).

Lemma alter_Some {A} (f : A -> A) (i : nat) (l : list A) (j : nat) (x : A) : alter f i l !! j = Some x -> exists y, l !! j = Some y /\ x = if decide (i = j) then f y else y.
Proof.
  destruct (decide (i = j)) as [->|Hn].
  - rewrite list_lookup_alter_eq. intros (y & -> & ->)%fmap_Some. eauto.
  - rewrite list_lookup_alter_ne by done. eauto.
Qed.

Lemma alter_Some_2 {A} (f : A -> A) (i : nat) (l : list A) (j : nat) (x : A) : l !! j = Some x -> alter f i l !! j = Some (if decide (i = j) then f x else x).
Proof.
  intros H. destruct (decide (i = j)) as [->|Hn]; [by rewrite list_lookup_alter_eq, H|by rewrite list_lookup_alter_ne].
Qed.

(** A topic that is out of the registry. *)
Definition out (h : HubState) (i : nat) : Prop := is_Some (h.(h_insts) !! i) /\ forall n, h.(h_topics) !! n <> Some i.

(** What others leave of a registry: the topics and their names; what is out stays out; with [one], nobody is told to exit. *)
Definition grows (one : bool) (h h' : HubState) : Prop :=
  (forall i x, h.(h_insts) !! i = Some x -> exists x', h'.(h_insts) !! i = Some x' /\ x'.(i_topic).(t_name) = x.(i_topic).(t_name) /\
     (one = true -> x.(i_exit) = [] -> x'.(i_exit) = [])) /\
  (forall i, out h i -> out h' i).

#[export] Instance grows_refl one : Reflexive (grows one).
Proof. intros h. split; [intros i x Hx; by exists x|auto]. Qed.
#[export] Instance grows_trans one : Transitive (grows one).
Proof.
  intros h1 h2 h3 [H1 H2] [H3 H4]. split; [|auto].
  intros i x Hx. destruct (H1 i x Hx) as (y & Hy & E & F). destruct (H3 i y Hy) as (z & Hz & E' & F'). exists z. split; [done|]. split; [congruence|auto].
Qed.

Lemma out_alter h i f j : out h j -> out (set_inst h i f) j.
Proof. intros [[x Hx] Hn]. split; [|exact Hn]. eexists. cbn. by apply alter_Some_2. Qed.

Lemma grows_alter one h i f : (forall x, (f x).(i_topic).(t_name) = x.(i_topic).(t_name) /\ (one = true -> x.(i_exit) = [] -> (f x).(i_exit) = [])) ->
  grows one h (set_inst h i f).
Proof.
  intros Hf. split; [|intros j; apply out_alter]. intros j x Hx. eexists. split; [by apply alter_Some_2|]. destruct (Hf x) as [E F]. by case_decide.
Qed.

Lemma grows_forget one h name n : grows one h (set_topics h (delete name h.(h_topics)) n).
Proof.
  split; [intros i x Hx; by exists x|]. intros i [Hi Hout]. split; [done|]. intros m Hm. cbn in Hm.
  apply lookup_delete_Some in Hm as [_ Hm]. by destruct (Hout m).
Qed.

Lemma grows_step drains one h h' : reg_step drains h h' -> grows one h h'.
Proof.
  intros [x Hx Hdel|i f Hf|name n|i f Hd Hf].
  - split.
    + intros i y Hy. exists y. split; [by apply lookup_app_l_Some|done].
    + intros i [[y Hy] Hout]. split; [exists y; by apply lookup_app_l_Some|]. intros n Hn. cbn in Hn.
      apply lookup_insert_Some in Hn as [[<- E]|[_ Hn]]; [|by destruct (Hout n)]. apply lookup_lt_Some in Hy. lia.
  - apply grows_alter. intros x. destruct (Hf x) as (E & _ & F). split; [done|]. by rewrite F.
  - apply grows_forget.
  - apply grows_alter. intros x. destruct (Hf x) as (E & _ & F). split; [done|]. by rewrite F; intros _ ->.
Qed.

Lemma grows_steps drains one h h' : reg_steps drains h h' -> grows one h h'.
Proof. induction 1 as [h|h1 h2 h3 H1 _ IH]; [done|]. etrans; [by eapply grows_step|exact IH]. Qed.

Lemma grows_mark one h i : grows one h (set_inst h i (on_topic markDeleted)).
Proof. by apply grows_alter. Qed.

Lemma grows_tell h i sd : grows false h (set_inst h i (add_exit sd)).
Proof. by apply grows_alter. Qed.

Lemma grows_length one h h' : grows one h h' -> (List.length h.(h_insts) <= List.length h'.(h_insts))%nat.
Proof.
  intros [H _]. destruct (List.length (h_insts h)) as [|n] eqn:E; [lia|]. destruct (lookup_lt_is_Some_2 (h_insts h) n ltac:(lia)) as [x Hx].
  destruct (H n x Hx) as (y & Hy & _). by apply lookup_lt_Some in Hy.
Qed.

Lemma registry_step good leaving drains h h' : (forall i, (List.length h.(h_insts) <= i)%nat -> good i) ->
  reg_step drains h h' -> registry_ok good leaving h -> registry_ok good leaving h'.
Proof.
  intros Ha [x Hx Hdel|i f Hf|name n|i f Hd Hf] H m j; cbn.
  - intros [[<- <-]|[Hm Hj]]%lookup_insert_Some.
    + exists x. rewrite lookup_app_r, Nat.sub_diag by lia. repeat split; [done|]. left. split; [done|]. by apply Ha.
    + destruct (H m j Hj) as (y & Hy & H'). exists y. split; [|done]. by apply lookup_app_l_Some.
  - intros Hj. destruct (H m j Hj) as (y & Hy & H'). eexists. split; [by apply alter_Some_2|].
    destruct (Hf y) as (E1 & E2 & E3). case_decide; rewrite ?E1, ?E2, ?E3; done.
  - intros [_ Hj]%lookup_delete_Some. by apply H.
  - intros Hj. destruct (H m j Hj) as (y & Hy & Ey & Ee & H'). eexists. split; [by apply alter_Some_2|].
    destruct (Hf y) as (E1 & E2 & E3). case_decide; rewrite ?E1, ?E2, ?E3, ?Ee; done.
Qed.

Lemma registry_steps good leaving drains h h' : (forall i, (List.length h.(h_insts) <= i)%nat -> good i) ->
  reg_steps drains h h' -> registry_ok good leaving h -> registry_ok good leaving h'.
Proof.
  intros Ha Hs. induction Hs as [h|h1 h2 h3 H1 _ IH]; [done|]. intros Hr. pose proof (grows_step _ true _ _ H1) as Hg. apply IH.
  - intros i Hi. apply Ha. apply grows_length in Hg. lia.
  - by eapply registry_step.
Qed.

Lemma registry_weaken (good good' : nat -> Prop) (leaving leaving' : string -> Prop) h : registry_ok good leaving h ->
  (forall i, is_Some (h.(h_insts) !! i) -> good i -> good' i) -> (forall n, is_Some (h.(h_topics) !! n) -> leaving n -> leaving' n) ->
  registry_ok good' leaving' h.
Proof.
  intros H Hg Hl n i Hi. destruct (H n i Hi) as (x & Hx & E1 & E2 & E3). exists x. repeat split; try done.
  destruct E3 as [[E3 E4]|E3]; [left; split; [done|]; apply Hg; [by exists x|done]|right; apply Hl; [by exists i|done]].
Qed.

Lemma out_after_forget good leaving h i name x n : registry_ok good leaving h -> h.(h_insts) !! i = Some x -> x.(i_topic).(t_name) = name ->
  out (set_topics h (delete name h.(h_topics)) n) i.
Proof.
  intros Hr Hx E. split; [by exists x|]. intros m Hm. cbn in Hm. apply lookup_delete_Some in Hm as [Hne Hm].
  destruct (Hr m i Hm) as (y & Hy & En & _). congruence.
Qed.

(** *** The handlers take such steps *)

Section Steps.
Context {St : Type} `{Subs : SubStore St, Tops : !TopicStore St} (drains : nat -> Prop).
Context (cluster : option Cluster) (now : Z)
  (officialPolicyFromAux : string -> option (list (string * Any)) -> option officialTopicPolicy + GoError).

Definition steps {A} (m : HM (St := St) A) : Prop := forall w, sat w m (fun w' _ => reg_steps drains w.(w_hub) w'.(w_hub)).

Lemma steps_quiet {A} (m : HM A) : quiet m -> steps m.
Proof. intros H w. apply sat_quiet; [done|]. by intros w' r [-> _]. Qed.

Lemma steps_bind {A B} (m : HM A) (k : A -> HM B) : steps m -> (forall a, steps (k a)) -> steps (hbind m k).
Proof.
  intros Hm Hk w. specialize (Hm w). unfold sat, hbind in *. destruct (m w) as [w1 [a|e|p]]; [|done|done].
  etrans; [exact Hm|apply Hk].
Qed.

Lemma steps_call {A} (f : St -> St * A) : steps (hcall f).
Proof. intros w. apply sat_call. cbn. done. Qed.

Lemma steps_attempt {A} (m : HM A) : steps m -> steps (hattempt m).
Proof. intros H w. apply sat_attempt. apply H. Qed.

Lemma steps_modify i f : keeps f -> steps (modify_inst i f).
Proof. intros H w. unfold modify_inst. repeat hub_step. apply rtc_once. by constructor. Qed.

Lemma steps_try i size q f full : keeps f -> steps full -> steps (try_send i size q f full).
Proof.
  intros Hf Hfull. unfold try_send. apply steps_bind; [by apply steps_quiet; quiet|]. intros h.
  destruct (h_insts h !! i) as [x|]; [|by apply steps_quiet; quiet]. destruct (q x <? size)%nat; [by apply steps_modify|done].
Qed.

Lemma steps_make join : steps (makeTopic cluster join).
Proof.
  intros w. unfold makeTopic, topicPut. repeat hub_step; rewrite H; apply rtc_once;
    by apply (rs_new _ _ (mkInst (markPaused (new_topic join (isRemoteTopic cluster (hm_RcptTo join))) true) [] [] [] [] [] [])).
Qed.

Lemma steps_forget name : steps (topicDel name).
Proof. intros w. unfold topicDel. repeat hub_step. apply rtc_once. constructor. Qed.

Lemma status_kept t bits b : (N.land bits topicStatusMarkedDeleted = 0)%N -> isDeleted (statusChangeBits t bits b) = isDeleted t.
Proof.
  intros H. unfold isDeleted, statusChangeBits. do 2 f_equal. apply N.bits_inj. intros j.
  pose proof (f_equal (fun n => N.testbit n j) H) as Hj. cbn beta in Hj. rewrite N.land_spec, N.bits_0 in Hj.
  destruct b; cbn; rewrite !N.land_spec, ?N.lor_spec, ?N.ldiff_spec; destruct (N.testbit bits j), (N.testbit (status t) j); cbn in *; congruence.
Qed.
Lemma paused_kept b t : (markPaused t b).(t_name) = t.(t_name) /\ isDeleted (markPaused t b) = isDeleted t.
Proof. split; [done|]. by apply status_kept. Qed.
Lemma loaded_kept t : (markLoaded t).(t_name) = t.(t_name) /\ isDeleted (markLoaded t) = isDeleted t.
Proof. split; [done|]. by apply status_kept. Qed.
Lemma readOnly_kept b t : (markReadOnly t b).(t_name) = t.(t_name) /\ isDeleted (markReadOnly t b) = isDeleted t.
Proof. split; [done|]. by apply status_kept. Qed.
Lemma union_kept t : (computePerUserAcsUnion t).(t_name) = t.(t_name) /\ isDeleted (computePerUserAcsUnion t) = isDeleted t.
Proof. unfold computePerUserAcsUnion. by destruct (t_isChan t). Qed.

Lemma keeps_add_reg m : keeps (add_reg m). Proof. by intros x. Qed.
Lemma keeps_add_client m : keeps (add_client m). Proof. by intros x. Qed.
Lemma keeps_add_server m : keeps (add_server m). Proof. by intros x. Qed.
Lemma keeps_add_meta m : keeps (add_meta m). Proof. by intros x. Qed.
Lemma keeps_on_topic f : (forall t, (f t).(t_name) = t.(t_name) /\ isDeleted (f t) = isDeleted t) -> keeps (on_topic f).
Proof. intros H x. destruct (H x.(i_topic)). by repeat split. Qed.
#[local] Hint Resolve keeps_add_reg keeps_add_client keeps_add_server keeps_add_meta keeps_on_topic paused_kept loaded_kept union_kept : hub.
#[local] Hint Resolve steps_call steps_make steps_forget : hub.

Ltac steps :=
  repeat match goal with
         | |- forall _, _ => intro
         | |- steps (hbind _ _) => apply steps_bind
         | |- steps (hwhen ?b _) => unfold hwhen; destruct b
         | |- steps (hattempt _) => apply steps_attempt
         | |- steps (modify_inst _ _) => apply steps_modify; solve [auto with hub nocore]
         | |- steps (try_send _ _ _ _ _) => apply steps_try; [solve [auto with hub nocore]|]
         | |- steps (match ?x with _ => _ end) => destruct x
         | |- steps (if ?x then _ else _) => destruct x
         | |- steps _ => solve [auto with hub nocore | apply steps_quiet; quiet]
         end.

Lemma steps_join join : steps (handle_join cluster join). Proof. unfold handle_join. steps. Qed.
Lemma steps_schedule msg : steps (handle_schedule cluster msg). Proof. unfold handle_schedule. steps. Qed.
Lemma steps_routeCli msg : steps (handle_routeCli cluster msg). Proof. unfold handle_routeCli. steps. Qed.
Lemma steps_routeSrv msg : steps (handle_routeSrv cluster msg). Proof. unfold handle_routeSrv. steps. Qed.
Lemma steps_meta msg : steps (handle_meta (St := St) msg). Proof. unfold handle_meta. steps. Qed.

Lemma steps_states uid b : steps (topicsStateForUser (St := St) uid b).
Proof.
  intros w. unfold topicsStateForUser. repeat hub_step. generalize (map_to_list (h_topics (w_hub w))). intros l. generalize (w_hub w).
  induction l as [|[n i] l IH]; intros h; [done|]. cbn. etrans; [|apply IH]. apply rtc_once, rs_inst. intros x.
  unfold set_readOnly. repeat case_match; try done. by apply (keeps_on_topic (fun t => markReadOnly t b)), readOnly_kept.
Qed.

Lemma steps_offline sess topic msg u : steps (unreg_offline cluster now officialPolicyFromAux sess topic msg u).
Proof.
  assert (forall sess m v name user, steps (unreg_listed cluster now sess m v name user)) as H.
  { intros. unfold unreg_listed, unreg_offline_member, unreg_offline_owner. steps. }
  unfold unreg_offline, check_official. steps; apply H.
Qed.


Lemma steps_init_loaded shuttingDown i join : steps (init_loaded (St := St) shuttingDown i join).
Proof. unfold init_loaded. steps. Qed.

Lemma steps_init_failed i join err : drains i -> steps (init_failed (St := St) i join err).
Proof.
  intros Hd. assert (steps (modify_inst (St := St) i drained)) as Hm.
  { intros w. unfold modify_inst. repeat hub_step. apply rtc_once, rs_drain; [done|by intros x]. }
  unfold init_failed. steps.
Qed.
End Steps.

(** ** What the programs rely on and promise

    A topic is marked deleted once it is out, or by who takes its name out next; it is told to exit once it is out.  What a program
    knows of the registry stays true of any that [grows] from it; with [one] goroutine that tells topics to exit, also that a
    topic it looked up was not told. *)

Section Obeys.
Context {St : Type} `{Subs : SubStore St, Tops : !TopicStore St} (one : bool).

Definition named (h : HubState) (i : nat) (name : string) : Prop :=
  exists x, h.(h_insts) !! i = Some x /\ x.(i_topic).(t_name) = name /\ (one = true -> x.(i_exit) = []).
Definition untold (h : HubState) (i : nat) : Prop := one = true -> forall x, h.(h_insts) !! i = Some x -> x.(i_exit) = [].
Definition names_ok : HubState -> Prop := registry_ok (fun _ => True) (fun _ => True).

Fixpoint obeys {A} (p : Script St A) (h : HubState) : Prop :=
  match p with
  | Done _ => True
  | Atom m k => forall w, grows one h w.(w_hub) -> names_ok w.(w_hub) ->
      sat w m (fun w' r => reg_steps nobody w.(w_hub) w'.(w_hub) /\ forall x, r = Ret x -> obeys (k x) w'.(w_hub))
  | MarkDeleted i k => (out h i \/ exists name n k', k = Unregister name n k' /\ named h i name) /\ obeys k h
  | Unregister name n k => forall h', grows one h h' -> names_ok h' ->
      obeys k (set_topics h' (delete name h'.(h_topics)) (h'.(h_num) - n))
  | TellExit i sd k => out h i /\ untold h i /\ forall h', grows one h h' -> obeys k (set_inst h' i (add_exit sd))
  end.

Lemma named_mono h h' i name : grows one h h' -> named h i name -> named h' i name.
Proof. intros [H _] (x & Hx & <- & Hn). destruct (H i x Hx) as (y & Hy & E & F). exists y. repeat split; auto. Qed.

Lemma untold_mono h h' i : out h i -> grows one h h' -> untold h i -> untold h' i.
Proof.
  intros [[x Hx] _] [H _] Hu Ho y Hy. destruct (H i x Hx) as (z & Hz & E & F). assert (y = z) as -> by congruence. apply F; [done|]. by apply Hu.
Qed.

Lemma obeys_mono {A} (p : Script St A) h h' : grows one h h' -> obeys p h -> obeys p h'.
Proof.
  intros Hg. induction p as [r|X m k IH|i k IH|name n k IH|i sd k IH]; cbn; [done| | | |].
  - intros H w Hw. apply H. by etrans.
  - intros [[H|(name & n & k' & -> & H)] Hk]; (split; [|by apply IH]).
    + left. by apply Hg.
    + right. exists name, n, k'. split; [done|]. by eapply named_mono.
  - intros H h2 H2. apply H. by etrans.
  - intros (H1 & H2 & H3). split; [by apply Hg|]. split; [by eapply untold_mono|]. intros h2 Hh2. apply H3. by etrans.
Qed.

Lemma obeys_bind {A B} (p : Script St A) (f : A -> Script St B) h : obeys p h -> (forall a h, obeys (f a) h) -> obeys (pbind p f) h.
Proof.
  intros Hp Hf. revert h Hp. induction p as [[a|e|s]|X m k IH|i k IH|name n k IH|i sd k IH]; intros h; cbn; [auto|done|done| | | |].
  - intros H w Hw Hn. specialize (H w Hw Hn). unfold sat in *. destruct H as [H1 H2]. split; [done|]. intros x Hx. apply IH. by apply H2.
  - intros [[H|(name & n & k' & -> & H)] Hk]; (split; [|by apply IH]); [by left|right]. by exists name, n, (pbind k' f).
  - intros H h2 H2 Hn. apply IH. by apply H.
  - intros (H1 & H2 & H3). split; [done|]. split; [done|]. intros h2 Hh2. apply IH. by apply H3.
Qed.

Lemma obeys_attempt {A} (p : Script St A) h : obeys p h -> obeys (pattempt p) h.
Proof.
  revert h. induction p as [[a|e|s]|X m k IH|i k IH|name n k IH|i sd k IH]; intros h; cbn; [done|done|done| | | |].
  - intros H w Hw Hn. specialize (H w Hw Hn). unfold sat, hattempt in *. destruct (m w) as [w1 [x|e|s]]; cbn in *.
    + destruct H as [H1 H2]. split; [done|]. intros y [= <-]. apply IH. by apply H2.
    + destruct H as [H1 _]. split; [done|]. by intros y [= <-].
    + destruct H as [H1 _]. split; [done|]. by intros y.
  - intros [[H|(name & n & k' & -> & H)] Hk]; (split; [|by apply IH]); [by left|right]. by exists name, n, (pattempt k').
  - intros H h2 H2 Hn. apply IH. by apply H.
  - intros (H1 & H2 & H3). split; [done|]. split; [done|]. intros h2 Hh2. apply IH. by apply H3.
Qed.

Lemma obeys_ret {A} (a : A) h : obeys (pret a) h. Proof. done. Qed.

Lemma obeys_act {A} (m : HM A) h : steps nobody m -> obeys (act m) h.
Proof. intros H w _ _. specialize (H w). unfold sat in *. cbn. done. Qed.

(** A computation, with what was known before it. *)
Lemma obeys_then {A B} (m : HM A) (f : A -> Script St B) h : steps nobody m -> (forall a h', grows one h h' -> obeys (f a) h') -> obeys (x <<- act m ;; f x) h.
Proof.
  intros H Hf w Hw _. specialize (H w). unfold sat in *. split; [done|]. intros x Hx. cbn. apply Hf. etrans; [exact Hw|by eapply grows_steps].
Qed.

(** The registry as it is found. *)
Lemma obeys_get {B} (f : HubState -> Script St B) h : (forall h', grows one h h' -> names_ok h' -> obeys (f h') h') -> obeys (x <<- act hget ;; f x) h.
Proof. intros Hf w Hw Hn. unfold sat. cbn. split; [done|]. intros x [= <-]. by apply Hf. Qed.

Lemma obeys_lookup {B} topic (f : option (nat * Topic) -> Script St B) h :
  (forall h' t, names_ok h' -> t = topic_at h' topic -> (forall i t0, t = Some (i, t0) -> named h' i topic) -> obeys (f t) h') ->
  obeys (t <<- act (topicGet topic) ;; f t) h.
Proof.
  intros Hf w Hw Hn. unfold sat. cbn. split; [done|]. intros x [= <-]. apply Hf; [done|done|]. intros i t0 Et.
  apply bind_Some in Et as (j & Hj & (x & Hx & E0)%fmap_Some). injection E0 as -> _. destruct (Hn topic j Hj) as (y & Hy & E & F & _).
  exists y. by repeat split.
Qed.

(** The two orders in which a topic is taken out. *)
Lemma obeys_removal {A} i name n sd (k : Script St A) h : named h i name -> (forall h, obeys k h) ->
  obeys (unregister name n ;;~ mark i ;;~ tell i sd ;;~ k) h /\ obeys (mark i ;;~ unregister name n ;;~ tell i sd ;;~ k) h.
Proof.
  intros Hn Hk. assert (forall h', grows one h h' -> names_ok h' -> let h1 := set_topics h' (delete name h'.(h_topics)) (h'.(h_num) - n) in
    out h1 i /\ untold h1 i /\ forall h2, grows one h1 h2 -> obeys k (set_inst h2 i (add_exit sd))) as H.
  { intros h' Hg Hok h1. destruct (named_mono _ _ _ _ Hg Hn) as (x & Hx & E & F). split; [by eapply out_after_forget|].
    split; [|intros; apply Hk]. intros Ho y Hy. cbn in Hy. assert (y = x) as -> by congruence. by apply F. }
  split.
  - intros h' Hg Hok. cbn. destruct (H h' Hg Hok) as (H1 & H2 & H3). split; [by left|]. split; [done|]. split; [done|]. intros. apply Hk.
  - cbn. split; [right; by eexists name, n, _|]. intros h' Hg Hok. destruct (H h' Hg Hok) as (H1 & H2 & H3).
    split; [done|]. split; [done|]. intros. apply Hk.
Qed.
End Obeys.

Section Programs.
Context {St : Type} `{Subs : SubStore St, Tops : !TopicStore St} (one : bool).
Context (cluster : option Cluster) (now : Z)
  (officialPolicyFromAux : string -> option (list (string * Any)) -> option officialTopicPolicy + GoError).
Abbreviation obeys := (obeys (St := St) one) (only parsing).

Lemma obeys_quiet {A} (m : HM A) h : quiet m -> obeys (act m) h.
Proof. intros H. by apply obeys_act, steps_quiet. Qed.

Lemma obeys_online sess topic msg u i t h : named one h i topic -> obeys (unreg_online_stages cluster now sess topic msg u i t) h.
Proof.
  intros Hn. unfold unreg_online_stages. destruct (may_delete t u).
  2: { apply obeys_act. apply steps_bind; [apply steps_quiet; quiet|]. intros m. by apply steps_modify. }
  destruct (isOfficialTopic t); [apply obeys_quiet; quiet|].
  apply obeys_then; [apply steps_modify, keeps_on_topic, paused_kept|]. intros _ h1 H1. apply obeys_then; [apply steps_call|]. intros [e|] h2 H2.
  - apply obeys_then; [apply steps_modify, keeps_on_topic, paused_kept|]. intros _ h3 _. apply obeys_quiet. quiet.
  - apply obeys_then; [apply steps_quiet; quiet|]. intros _ h3 H3. apply obeys_then; [apply steps_quiet; quiet|]. intros _ h4 H4.
    apply obeys_removal; [|intros; apply obeys_quiet; quiet]. eapply named_mono; [|exact Hn]. by do 3 (etrans; [eassumption|]).
Qed.

Lemma obeys_unload sess topic msg reason h : obeys (unload_stages sess topic msg reason) h.
Proof.
  unfold unload_stages. apply obeys_lookup. intros h1 [[i t]|] _ _ Ht; [|apply obeys_bind; [done|intros; apply obeys_quiet; quiet]].
  apply obeys_bind; [|intros; apply obeys_quiet; quiet]. apply obeys_removal; [by eapply Ht|intros; apply obeys_quiet; quiet].
Qed.

Lemma obeys_topicUnreg sess topic msg reason h : obeys (topicUnreg_stages cluster now officialPolicyFromAux sess topic msg reason) h.
Proof.
  unfold topicUnreg_stages. apply obeys_lookup. intros h1 t _ _ _. apply obeys_then; [apply steps_quiet; quiet|]. intros _ h2 _.
  case_bool_decide; [|apply obeys_unload]. apply obeys_lookup. intros h3 [[i t']|] _ _ Ht; [apply obeys_online; by eapply Ht|].
  apply obeys_act, steps_offline.
Qed.

Lemma obeys_unreg u h : obeys (unreg_stages cluster now officialPolicyFromAux u) h.
Proof.
  unfold unreg_stages. destruct (IsZeroUid _); [|apply obeys_quiet; quiet]. apply obeys_bind; [|done]. apply obeys_attempt, obeys_topicUnreg.
Qed.

Lemma obeys_rehash h : obeys (handle_rehash_stages cluster now officialPolicyFromAux) h.
Proof.
  unfold handle_rehash_stages. apply obeys_get. intros h1 _ _. apply obeys_bind; [|intros; apply obeys_quiet; quiet].
  generalize h1 at 2. induction (map_to_list (h_topics h1)) as [|[n i] ts IH]; intros h2; [done|]. cbn [rehash_stages]. apply obeys_get. intros h3 _ _.
  destruct (_ !! i) as [x|]; [|apply IH]. apply obeys_bind; [|auto]. destruct (negb _); [|done].
  apply obeys_bind; [|done]. apply obeys_attempt, obeys_topicUnreg.
Qed.

Lemma obeys_handle e h : obeys (handle_stages officialPolicyFromAux cluster now e) h.
Proof.
  destruct e; cbn [handle_stages]; try apply obeys_act;
    [apply steps_join|apply steps_schedule| |apply steps_routeSrv|apply steps_meta|by apply steps_quiet|apply obeys_unreg|apply obeys_rehash].
  apply steps_bind; [apply steps_routeCli|]. intros. by apply steps_quiet.
Qed.

Lemma obeys_visit uid reason done name i h : named one h i name -> obeys (visit_stages uid reason done name i) h.
Proof.
  intros Hn. unfold visit_stages. apply obeys_get. intros h1 H1 _. destruct (_ !! i) as [x|]; [|by apply obeys_ret].
  destruct (stops _ _); [|by apply obeys_ret]. apply obeys_removal; [by eapply named_mono|].
  intros h2. apply obeys_bind; [|done]. apply obeys_quiet. quiet.
Qed.

Lemma obeys_stops uid reason done c names h : obeys (stop_stages uid reason done c names) h.
Proof.
  revert c h. induction names as [|name names IH]; intros c h; [done|]. cbn [stop_stages]. apply obeys_get. intros h1 _ Hok.
  destruct (_ !! name) as [i|] eqn:Hi; [|apply IH]. apply obeys_bind; [|intros; apply IH]. apply obeys_visit.
  destruct (Hok name i Hi) as (x & Hx & E & F & _). exists x. by repeat split.
Qed.

Lemma obeys_stop uid reason done h : obeys (stopTopicsForUser_stages uid reason done) h.
Proof.
  unfold stopTopicsForUser_stages. apply obeys_get. intros h1 _ _. apply obeys_bind; [apply obeys_stops|]. intros c h2.
  apply obeys_bind; [|done]. apply obeys_quiet. quiet.
Qed.
End Programs.

(** ** The names that go *)

Section Forgets.
Context {St : Type} `{Subs : SubStore St, Tops : !TopicStore St}.

(** The names a computation leaves registered were. *)
Definition only_forgets (gone : string -> Prop) (h h' : HubState) : Prop :=
  forall n j, h'.(h_topics) !! n = Some j -> h.(h_topics) !! n = Some j /\ ~ gone n.

Lemma forgets_none h h' : h'.(h_topics) = h.(h_topics) -> only_forgets (fun _ => False) h h'.
Proof. intros E n j. rewrite E. intros Hj. split; [done|by intros []]. Qed.

Lemma init_loaded_forgets shuttingDown i join (w : HW St) :
  sat w (init_loaded shuttingDown i join) (fun w' _ => only_forgets (fun n => shuttingDown = true /\ n = join.(hm_RcptTo)) w.(w_hub) w'.(w_hub)).
Proof.
  assert (forall h', h'.(h_topics) = w.(w_hub).(h_topics) -> shuttingDown = false ->
            only_forgets (fun n => shuttingDown = true /\ n = join.(hm_RcptTo)) w.(w_hub) h') as Hk.
  { intros h' E Hs n j. rewrite E. split; [done|]. intros [Hs' _]. congruence. }
  unfold init_loaded, hwhen. repeat hub_step. destruct shuttingDown.
  - repeat hub_step. intros n j. rewrite H. cbn. intros [Hn Hj]%lookup_delete_Some. split; [done|]. by intros [_ ->].
  - repeat hub_step. destruct (_ !! i) as [x|]; [|by apply sat_ret, Hk]. destruct (isDeleted _); [repeat hub_step; apply Hk; by rewrite ?H|].
    destruct (is_sub join), (_ || _); repeat hub_step; apply Hk; repeat match goal with E : w_hub _ = _ |- _ => rewrite E end; done.
Qed.

Lemma init_failed_forgets i join err (w : HW St) :
  sat w (init_failed i join err) (fun w' _ => only_forgets (fun n => n = join.(hm_RcptTo)) w.(w_hub) w'.(w_hub)).
Proof.
  assert (forall h', h'.(h_topics) = delete join.(hm_RcptTo) w.(w_hub).(h_topics) -> only_forgets (fun n => n = join.(hm_RcptTo)) w.(w_hub) h') as Hk.
  { intros h' E n j. rewrite E. intros [Hn Hj]%lookup_delete_Some. split; [done|]. by intros ->. }
  unfold init_failed. repeat hub_step; try (apply Hk; by repeat match goal with E : w_hub _ = _ |- _ => rewrite E end).
  destruct (_ !! i) as [x|]; [|apply sat_ret, Hk; by rewrite H].
  repeat hub_step; apply Hk; repeat match goal with E : w_hub _ = _ |- _ => rewrite E end; done.
Qed.

End Forgets.

(** ** The invariant *)

Section Invariant.
Context {St : Type} `{Subs : SubStore St, Tops : !TopicStore St}.
Context (officialPolicyFromAux : string -> option (list (string * Any)) -> option officialTopicPolicy + GoError) (users : bool).
Abbreviation one := (negb users) (only parsing).

Definition removes {A} (p : Script St A) (name : string) : Prop := exists c k, p = Unregister name c k.

Lemma registry_other good leaving h i f : (forall name, h.(h_topics) !! name <> Some i) -> registry_ok good leaving h -> registry_ok good leaving (set_inst h i f).
Proof.
  intros Hi H m j Hj. destruct (H m j Hj) as (y & Hy & H'). exists y. split; [|done]. cbn. rewrite list_lookup_alter_ne; [done|]. intros ->. by destruct (Hi m).
Qed.

Lemma registry_drop {A} good leaving (p : Script St A) h : (forall name, ~ removes p name) ->
  registry_ok good (fun n => leaving n \/ removes p n) h -> registry_ok good leaving h.
Proof. intros Hp H. eapply registry_weaken; [exact H|done|]. intros n _ [Hn|Hn]; [done|]. by destruct (Hp n). Qed.

Lemma registry_add {A} good leaving (p : Script St A) h : registry_ok good leaving h -> registry_ok good (fun n => leaving n \/ removes p n) h.
Proof. intros H. eapply registry_weaken; [exact H|done|]. by left. Qed.

Lemma registry_names good leaving h : registry_ok good leaving h -> names_ok h.
Proof. intros H. by eapply registry_weaken. Qed.

(** One stage of a program, beside whatever else is [leaving]. *)
Lemma advance_ok {A} (p p' : Script St A) w w' good leaving : advance p w = Some (w', p') -> obeys one p w.(w_hub) ->
  (forall i, (List.length w.(w_hub).(h_insts) <= i)%nat -> good i) -> registry_ok good (fun n => leaving n \/ removes p n) w.(w_hub) ->
  obeys one p' w'.(w_hub) /\ registry_ok good (fun n => leaving n \/ removes p' n) w'.(w_hub) /\ grows false w.(w_hub) w'.(w_hub).
Proof.
  intros E Ho Hg Hr. destruct p as [r|X m k|i k|name n k|i sd k]; cbn [advance] in E; [done| | | |].
  - specialize (Ho w (reflexivity _) (registry_names _ _ _ Hr)). apply registry_drop in Hr; [|intros ? (? & ? & [=])].
    unfold sat in Ho. destruct (m w) as [w1 r], Ho as [Hs Hk]. cbn in Hs, Hk.
    assert (w1 = w') as -> by (by destruct r; injection E as ->).
    assert (obeys one p' w'.(w_hub)) as Hp by (destruct r; injection E as <-; [by apply Hk|done..]).
    split; [done|]. split; [|by eapply grows_steps]. apply registry_add. by eapply registry_steps.
  - injection E as <- <-. destruct Ho as [Hi Hk]. apply registry_drop in Hr; [|intros ? (? & ? & [=])].
    split; [by eapply obeys_mono; [apply grows_mark|]|]. split; [|apply grows_mark]. destruct Hi as [[_ Hi]|(name & n & k' & -> & x & Hx & En & _)].
    { by apply registry_add, registry_other. }
    intros m j Hj. destruct (Hr m j Hj) as (y & Hy & E1 & E2 & E3). destruct (decide (i = j)) as [<-|Hne].
    + assert (y = x) as -> by congruence. exists (on_topic markDeleted x). split; [cbn; by rewrite list_lookup_alter_eq, Hx|].
      repeat split; try done. right; right. exists n, k'. congruence.
    + exists y. split; [cbn; by rewrite list_lookup_alter_ne|]. repeat split; try done. destruct E3 as [E3|E3]; [by left|right; by left].
  - injection E as <- <-. pose proof (Ho w.(w_hub) (reflexivity _) (registry_names _ _ _ Hr)) as Hk.
    split; [exact Hk|]. split; [|apply grows_forget]. intros m j Hj. cbn in Hj. apply lookup_delete_Some in Hj as [Hne Hj].
    destruct (Hr m j Hj) as (y & Hy & E1 & E2 & E3). exists y. repeat split; try done.
    destruct E3 as [E3|[E3|(? & ? & [=])]]; [by left|right; by left|done].
  - destruct (h_insts (w_hub w) !! i) as [x|] eqn:Hx; [|done]. destruct (_ <? 1)%nat; [|done]. injection E as <- <-.
    destruct Ho as ([_ Hout] & _ & Hk). apply registry_drop in Hr; [|intros ? (? & ? & [=])].
    split; [by apply Hk|]. split; [|apply grows_tell]. by apply registry_add, registry_other.
Qed.

Definition node_ok (n : Node St) : Prop :=
  (List.length n.(n_ph) <= List.length n.(n_w).(w_hub).(h_insts))%nat /\
  registry_ok (alive n.(n_ph)) (about_to_remove n) n.(n_w).(w_hub) /\
  obeys one n.(n_hub) n.(n_w).(w_hub) /\ Forall (fun q => obeys one q n.(n_w).(w_hub)) n.(n_stops) /\
  (users = false -> n.(n_stops) = []).

Lemma started_length ph h : (List.length ph <= List.length h.(h_insts))%nat -> List.length (started ph h) = List.length h.(h_insts).
Proof. intros H. unfold started. rewrite length_app, length_replicate. lia. Qed.

Lemma started_alive ph h i : (i < List.length h.(h_insts))%nat -> (alive ph i \/ (List.length ph <= i)%nat) -> alive (started ph h) i.
Proof.
  intros Hi [(p & Hp & Hne)|H]; unfold alive, started.
  - exists p. split; [by apply lookup_app_l_Some|done].
  - exists Loading. split; [|done]. rewrite lookup_app_r by lia. apply lookup_replicate_2. lia.
Qed.

Lemma alive_other ph i j p : i <> j -> alive ph j -> alive (<[i := p]> ph) j.
Proof. intros Hn (q & Hq & Hne). exists q. by rewrite list_lookup_insert_ne. Qed.

(** What [started] adds is loading. *)
Lemma registry_started ph h leaving :
  registry_ok (fun i => alive ph i \/ (List.length ph <= i)%nat) leaving h -> registry_ok (alive (started ph h)) leaving h.
Proof. intros H. eapply registry_weaken; [exact H| |done]. intros i Hi Hor. apply started_alive; [by apply lookup_lt_is_Some|done]. Qed.

(** One stage of a program in a node whose phases are [ph]. *)
Lemma program_ok {A} (p p' : Script St A) w w' ph leaving leaving' : advance p w = Some (w', p') -> obeys one p w.(w_hub) ->
  (List.length ph <= List.length w.(w_hub).(h_insts))%nat -> registry_ok (alive ph) (fun n => leaving n \/ removes p n) w.(w_hub) ->
  (forall n, leaving n \/ removes p' n -> leaving' n) ->
  obeys one p' w'.(w_hub) /\ registry_ok (alive (started ph w'.(w_hub))) leaving' w'.(w_hub) /\ grows false w.(w_hub) w'.(w_hub) /\
  (List.length (started ph w'.(w_hub)) <= List.length w'.(w_hub).(h_insts))%nat.
Proof.
  intros E Ho Hl Hr Hlv. set (good := fun i => alive ph i \/ (List.length ph <= i)%nat).
  destruct (advance_ok p p' w w' good leaving E Ho) as (H1 & H2 & H3).
  - intros i Hi. right. lia.
  - eapply registry_weaken; [exact Hr| |done]. intros i _ Hi. by left.
  - split; [done|]. split; [|split; [done|]].
    + apply registry_started. eapply registry_weaken; [exact H2|done|auto].
    + rewrite started_length; [done|]. pose proof (grows_length _ _ _ H3). lia.
Qed.

Lemma others_mono {A} (qs : list (Script St A)) h h' : (users = false -> qs = []) -> grows false h h' ->
  Forall (fun q => obeys one q h) qs -> Forall (fun q => obeys one q h') qs.
Proof.
  intros Hu Hg H. destruct users eqn:E; [|by rewrite Hu]. eapply Forall_impl; [exact H|]. intros q. by apply obeys_mono.
Qed.

Lemma hub_ok w ph p stops w' p' : advance p w = Some (w', p') -> node_ok (mkNode w ph p stops) ->
  node_ok (mkNode w' (started ph w'.(w_hub)) p' stops).
Proof.
  intros E (Hl & Hr & Ho & Hq & Hs). cbn [n_w n_ph n_hub n_stops] in *.
  destruct (program_ok p p' w w' ph (fun n => exists c k, Unregister n c k ∈ stops) (about_to_remove (mkNode w' (started ph w'.(w_hub)) p' stops)) E Ho Hl)
    as (H1 & H2 & H3 & H4).
  - eapply registry_weaken; [exact Hr|done|]. intros n _ [Hn|Hn]; [by right|by left].
  - intros n [Hn|Hn]; [by right|by left].
  - split; [done|]. split; [done|]. split; [done|]. split; [by eapply others_mono|done].
Qed.

Lemma stop_ok w ph p stops j q w' q' : users = true -> stops !! j = Some q -> advance q w = Some (w', q') -> node_ok (mkNode w ph p stops) ->
  node_ok (mkNode w' (started ph w'.(w_hub)) p (<[j := q']> stops)).
Proof.
  intros Hu Hj E (Hl & Hr & Ho & Hq & Hs). cbn [n_w n_ph n_hub n_stops] in *.
  assert (obeys one q w.(w_hub)) as Hoq by (by eapply (proj1 (Forall_lookup _ _) Hq)).
  set (rest := fun n => removes p n \/ exists j1 q1, j1 <> j /\ stops !! j1 = Some q1 /\ removes q1 n).
  destruct (program_ok q q' w w' ph rest (about_to_remove (mkNode w' (started ph w'.(w_hub)) p (<[j := q']> stops))) E Hoq Hl) as (H1 & H2 & H3 & H4).
  - eapply registry_weaken; [exact Hr|done|]. intros n _ [Hn|(c & k & Hn)]; [left; by left|]. cbn in Hn. apply list_elem_of_lookup in Hn as [j1 Hj1].
    destruct (decide (j1 = j)) as [->|Hne]; [right|left; right].
    + exists c, k. congruence.
    + exists j1, (Unregister n c k). split; [done|]. split; [done|]. by exists c, k.
  - intros n [[Hn|(j1 & q1 & Hne & Hq1 & c & k & ->)]|(c & k & ->)]; [by left|right..]; cbn; exists c, k.
    + apply list_elem_of_lookup. exists j1. by rewrite list_lookup_insert_ne.
    + apply list_elem_of_lookup. exists j. apply list_lookup_insert_eq. by eapply lookup_lt_Some.
  - assert (one = false) as Eone by (by rewrite Hu).
    split; [done|]. split; [done|]. split; [rewrite Eone in *; by eapply obeys_mono|]. split; [|by rewrite Hu].
    apply Forall_insert; [|exact H1]. by eapply others_mono.
Qed.

(** What a topic that changes its phase, if at all, does. *)
Lemma topic_ok drains w w' ph i q p stops (gone : string -> Prop) : node_ok (mkNode w ph p stops) -> reg_steps drains w.(w_hub) w'.(w_hub) ->
  grows one w.(w_hub) w'.(w_hub) -> only_forgets gone w.(w_hub) w'.(w_hub) ->
  (q = Ended -> forall name, w.(w_hub).(h_topics) !! name = Some i -> gone name \/ about_to_remove (mkNode w ph p stops) name) ->
  node_ok (mkNode w' (<[i := q]> ph) p stops).
Proof.
  intros (Hl & Hr & Ho & Hq & Hs) Hst Hg Hf Hp. cbn [n_w n_ph n_hub n_stops] in *. set (P := fun j => alive ph j \/ (List.length ph <= j)%nat).
  assert (registry_ok P (about_to_remove (mkNode w ph p stops)) w.(w_hub)) as HrP by (eapply registry_weaken; [exact Hr| |done]; intros; by left).
  assert (forall j, (List.length (h_insts (w_hub w)) <= j)%nat -> P j) as HP by (intros j Hj; right; lia).
  split; [|split; [|split; [by eapply obeys_mono|split; [|done]]]]; cbn [n_w n_ph n_hub n_stops].
  - rewrite length_insert. pose proof (grows_length _ _ _ Hg). lia.
  - intros n j Hj. destruct (registry_steps P _ _ _ _ HP Hst HrP n j Hj) as (x & Hx & E1 & E2 & E3).
    exists x. split; [done|]. split; [done|]. split; [done|]. destruct E3 as [[E3 _]|E3]; [|by right].
    destruct (Hf n j Hj) as [Hj0 Hgn]. destruct (Hr n j Hj0) as (_ & _ & _ & _ & [[_ Ha]|Ha]); [|by right].
    destruct (decide (i = j)) as [->|Hn]; [|left; split; [done|by apply alive_other]].
    assert (j < List.length ph)%nat as Hjl by (destruct Ha as (? & ? & _); by eapply lookup_lt_Some).
    destruct (decide (q = Ended)) as [->|Hne]; [destruct (Hp eq_refl n Hj0); [done|by right]|].
    left. split; [done|]. exists q. split; [by apply list_lookup_insert_eq|done].
  - eapply Forall_impl; [exact Hq|]. intros r. by apply obeys_mono.
Qed.

Lemma not_told_registered good leaving h i x : registry_ok good leaving h -> h.(h_insts) !! i = Some x -> x.(i_exit) <> [] ->
  forall n, h.(h_topics) !! n <> Some i.
Proof. intros Hr Hx Hne n Hi. destruct (Hr n i Hi) as (y & Hy & _ & E & _). congruence. Qed.
End Invariant.

Section Reachable.
Context {St : Type} `{Subs : SubStore St, Tops : !TopicStore St}.
Context (officialPolicyFromAux : string -> option (list (string * Any)) -> option officialTopicPolicy + GoError) (users : bool).
Abbreviation node_step := (node_step officialPolicyFromAux users) (only parsing).

Lemma states_topics uid b (w : HW St) : (topicsStateForUser uid b w).1.(w_hub).(h_topics) = w.(w_hub).(h_topics).
Proof.
  unfold topicsStateForUser. cbn. generalize (map_to_list (h_topics (w_hub w))). intros l. generalize (w_hub w).
  induction l as [|[n i] l IH]; intros h; [done|]. cbn. by rewrite IH.
Qed.

Lemma states_ok uid b w ph p stops : node_ok (St := St) users (mkNode w ph p stops) -> node_ok (St := St) users (mkNode (topicsStateForUser uid b w).1 ph p stops).
Proof.
  intros Hok. pose proof (steps_states nobody uid b w) as Hs. unfold sat in Hs.
  rewrite <- (list_insert_ge ph (List.length ph) Running) by lia.
  eapply topic_ok; [done|exact Hs|by eapply grows_steps|by apply forgets_none, states_topics|done].
Qed.

Lemma serve_ok i ph1 f st w ph p stops : ph !! i = Some ph1 -> keeps f -> ph1 <> Ended -> node_ok (St := St) users (mkNode w ph p stops) ->
  node_ok (St := St) users (mkNode (mkHW (set_inst w.(w_hub) i f) st w.(w_calls)) ph p stops).
Proof.
  intros Hp Hf Hne Hok. assert (reg_steps nobody w.(w_hub) (set_inst w.(w_hub) i f)) as Hs by (by apply rtc_once, rs_inst).
  rewrite <- (list_insert_id ph i ph1) by done. eapply topic_ok; [done|exact Hs|by eapply grows_steps|by apply forgets_none|done].
Qed.

Lemma loaded_ok sd i x join w ph p stops w' : w.(w_hub).(h_insts) !! i = Some x -> join.(hm_RcptTo) = x.(i_topic).(t_name) ->
  init_loaded sd i join w = (w', Ret tt) -> node_ok (St := St) users (mkNode w ph p stops) ->
  node_ok (St := St) users (mkNode w' (<[i := if sd || isDeleted x.(i_topic) then Ended else Running]> ph) p stops).
Proof.
  intros Hx Hj E Hok. destruct (Hok) as (_ & Hr & _). cbn [n_w n_ph] in Hr.
  assert (reg_steps nobody w.(w_hub) w'.(w_hub)) as Hs by (pose proof (steps_init_loaded nobody sd i join w) as H; unfold sat in H; by rewrite E in H).
  pose proof (init_loaded_forgets sd i join w) as Hf. unfold sat in Hf. rewrite E in Hf.
  eapply topic_ok; [done|exact Hs|by eapply grows_steps|exact Hf|]. intros Hq n Hi. destruct (Hr n i Hi) as (y & Hy & E1 & _ & E3).
  assert (y = x) as -> by congruence. destruct sd; [left; split; congruence|]. destruct E3 as [[E3 _]|E3]; [|by right]. by rewrite E3 in Hq.
Qed.

Lemma failed_ok i x join err w ph p stops ended w' : w.(w_hub).(h_insts) !! i = Some x -> join.(hm_RcptTo) = x.(i_topic).(t_name) ->
  init_failed i join err w = (w', Ret ended) -> node_ok (St := St) users (mkNode w ph p stops) -> node_ok (St := St) users (mkNode w' (<[i := Ended]> ph) p stops).
Proof.
  intros Hx Hj E Hok. destruct (Hok) as (_ & Hr & _). cbn [n_w n_ph] in Hr.
  assert (reg_steps (eq i) w.(w_hub) w'.(w_hub)) as Hs by (pose proof (steps_init_failed (eq i) i join err eq_refl w) as H; unfold sat in H; by rewrite E in H).
  pose proof (init_failed_forgets i join err w) as Hf. unfold sat in Hf. rewrite E in Hf.
  eapply topic_ok; [done|exact Hs|by eapply grows_steps|exact Hf|]. intros _ n Hi. destruct (Hr n i Hi) as (y & Hy & E1 & _). left. congruence.
Qed.

Lemma exit_ok i x sd l w ph p stops calls : w.(w_hub).(h_insts) !! i = Some x -> x.(i_exit) = sd :: l -> node_ok (St := St) users (mkNode w ph p stops) ->
  node_ok (St := St) users (mkNode (mkHW (set_inst w.(w_hub) i take_exit) w.(w_st) calls) (<[i := Ended]> ph) p stops).
Proof.
  intros Hx He Hok. destruct (Hok) as (_ & Hr & _). cbn [n_w n_ph] in Hr.
  assert (reg_steps (eq i) w.(w_hub) (set_inst w.(w_hub) i take_exit)) as Hs by (by apply rtc_once, rs_drain).
  eapply topic_ok; [done|exact Hs|by eapply grows_steps|by apply forgets_none|]. intros _ n Hi.
  destruct (not_told_registered _ _ _ _ _ Hr Hx ltac:(by rewrite He) n Hi).
Qed.

Lemma node_step_ok n n' : node_step n n' -> node_ok (St := St) users n -> node_ok (St := St) users n'.
Proof.
  intros [cluster now e w ph stops|w ph p stops w' p' E|uid reason done w ph p stops Hu Hc|j q w ph p stops w' q' Hj E|uid b w ph p stops Hc|
    i ph1 f st w ph p stops Hp Hne Hf|sd i x join w ph p stops w' Hp Hx Hj E|i x join err ended w ph p stops w' Hp Hx Hj E|i x sd l w ph p stops Hp Hx He] Hok.
  - destruct Hok as (H1 & H2 & _ & H4 & H5). split; [done|]. split; [|split; [apply obeys_handle|done]].
    eapply registry_weaken; [exact H2|done|]. intros m _ [(c & k & [=])|Hn]. by right.
  - by eapply hub_ok.
  - destruct Hok as (H1 & H2 & H3 & H4 & H5). split; [done|]. split; [|split; [done|split; [|by rewrite Hu]]].
    + eapply registry_weaken; [exact H2|done|]. intros m _ [Hn|(c & k & Hn)]; [by left|right]. exists c, k. apply elem_of_app. by left.
    + apply Forall_app. split; [done|]. apply Forall_singleton, obeys_stop.
  - destruct users eqn:Eu; [rewrite <- Eu in *; by eapply stop_ok|]. destruct Hok as (_ & _ & _ & _ & Hs). cbn in Hs. by rewrite Hs in Hj.
  - by apply states_ok.
  - by eapply serve_ok.
  - by eapply loaded_ok.
  - by eapply failed_ok.
  - by eapply exit_ok.
Qed.

Lemma reachable_ok st n : rtc node_step (idle_node st) n -> node_ok (St := St) users n.
Proof.
  revert n. apply (rtc_ind_r (node_ok (St := St) users)).
  - split; [done|]. split; [by intros name i|]. by split.
  - intros n1 n2 _ H2 IH. by eapply node_step_ok.
Qed.

(** C26: Whatever joins, messages, timeouts, deletions, rehashes and, with [users], deletions of users interleave, stage by stage, with
    topics that load, run and end: a name in the registry is that of a topic that was not told to exit and, unless a goroutine is about
    to take the name out, loads or runs and is not marked deleted, so that nothing is routed to a topic that has ended; a goroutine
    that is about to tell a topic to exit finds it out of the registry; and unless users are deleted, the hub never waits for room
    in the topic's channel. *)
Theorem hub_exit_never_waits st n : rtc node_step (idle_node st) n ->
  registry_ok (alive n.(n_ph)) (about_to_remove n) n.(n_w).(w_hub) /\
  (forall i sd k, n.(n_hub) = TellExit i sd k \/ (exists k', TellExit i sd k' ∈ n.(n_stops)) -> out n.(n_w).(w_hub) i) /\
  (users = false -> (exists r, n.(n_hub) = Done r) \/ is_Some (advance n.(n_hub) n.(n_w))).
Proof.
  intros H. destruct (reachable_ok st n H) as (_ & Hr & Ho & Hq & _). split; [done|]. split.
  - intros i sd k [E|(k' & Hk)]; [rewrite E in Ho; apply Ho|]. rewrite Forall_forall in Hq. by apply (Hq _ Hk).
  - intros ->. destruct (n_hub n) as [r| | | |i sd k]; [left; by exists r|right; by eexists..|right].
    destruct Ho as ([[x Hx] _] & Hu & _). cbn. rewrite Hx, (Hu eq_refl x Hx). by eexists.
Qed.
End Reachable.

(** ** A hub that waits for ever

    A topic that was told to exit and has ended without looking never makes room. *)

Section Blocked.
Context {St : Type} `{Subs : SubStore St, Tops : !TopicStore St}.
Context (officialPolicyFromAux : string -> option (list (string * Any)) -> option officialTopicPolicy + GoError) (users : bool).
Abbreviation node_step := (node_step officialPolicyFromAux users) (only parsing).

Definition told_to_exit (h : HubState) (i : nat) : Prop := exists x, h.(h_insts) !! i = Some x /\ x.(i_exit) <> [].
Definition blocked_on (i : nat) (p : Script St unit) (n : Node St) : Prop :=
  n.(n_hub) = p /\ (exists sd k, p = TellExit i sd k) /\ told_to_exit n.(n_w).(w_hub) i /\ n.(n_ph) !! i = Some Ended.

Lemma told_alter h i j f : (i = j -> forall x, x.(i_exit) <> [] -> (f x).(i_exit) <> []) -> told_to_exit h i -> told_to_exit (set_inst h j f) i.
Proof.
  intros Hf (x & Hx & Hne). eexists. split; [by apply alter_Some_2|]. case_decide as E; [|done]. by apply Hf.
Qed.

Lemma told_step drains h h' i : ~ drains i -> reg_step drains h h' -> told_to_exit h i -> told_to_exit h' i.
Proof.
  intros Hd [x Hx Hdel|j f Hf|name n|j f Hj Hf] Ht.
  - destruct Ht as (y & Hy & Hne). exists y. split; [by apply lookup_app_l_Some|done].
  - apply told_alter; [|done]. intros _ x. by destruct (Hf x) as (_ & _ & ->).
  - exact Ht.
  - apply told_alter; [|done]. by intros ->.
Qed.

Lemma told_steps drains h h' i : ~ drains i -> reg_steps drains h h' -> told_to_exit h i -> told_to_exit h' i.
Proof. intros Hd. induction 1; [done|]. intros Ht. by eauto using told_step. Qed.

Lemma told_advance {A} one (p : Script St A) w w' p' i : advance p w = Some (w', p') -> obeys one p w.(w_hub) -> names_ok w.(w_hub) ->
  told_to_exit w.(w_hub) i -> told_to_exit w'.(w_hub) i.
Proof.
  intros E Ho Hn Ht. destruct p as [r|X m k|j k|name n k|j sd k]; cbn [advance] in E; [done| | | |].
  - specialize (Ho w (reflexivity _) Hn). unfold sat in Ho. destruct (m w) as [w1 r], Ho as [Hs _]. cbn in Hs.
    assert (w1 = w') as -> by (by destruct r; injection E as ->). eapply (told_steps nobody); [|exact Hs|done]. by intros [].
  - injection E as <- _. by apply told_alter.
  - by injection E as <- _.
  - destruct (_ !! j); [|done]. destruct (_ <? 1)%nat; [|done]. injection E as <- _. apply told_alter; [|done].
    intros _ x Hx. cbn. by destruct (i_exit x).
Qed.

Lemma blocked_waits i p n : blocked_on i p n -> advance n.(n_hub) n.(n_w) = None.
Proof.
  intros (E & (sd & k & Ep) & (x & Hx & Hne) & _). rewrite E, Ep. cbn. rewrite Hx. by destruct (i_exit x).
Qed.

Lemma started_kept ph h i p : ph !! i = Some p -> started ph h !! i = Some p.
Proof. intros H. unfold started. by apply lookup_app_l_Some. Qed.

Lemma blocked_step i p n n' : node_ok users n -> blocked_on i p n -> node_step n n' -> blocked_on i p n'.
Proof.
  intros Hok Hb Hs. pose proof (blocked_waits _ _ _ Hb) as Hw. destruct Hb as (E & Hp & Ht & Hph). destruct Hok as (_ & Hr & _ & Hq & _).
  apply registry_names in Hr. destruct Hs as [cluster now e w ph stops|w ph q stops w' p' Ea|uid reason done w ph q stops Hu Hc|
    j q w ph q0 stops w' q' Hj Ea|uid b w ph q stops Hc|j ph1 f st w ph q stops Hp1 Hne Hf|sd j x join w ph q stops w' Hp1 Hx Hj Ei|
    j x join err ended w ph q stops w' Hp1 Hx Hj Ei|j x sd l w ph q stops Hp1 Hx He]; cbn [n_w n_ph n_hub n_stops] in *.
  - destruct Hp as (? & ? & ->). done.
  - congruence.
  - done.
  - split; [done|]. split; [done|]. split; [|by apply started_kept]. eapply told_advance; [exact Ea| |done|done].
    by eapply (proj1 (Forall_lookup _ _) Hq).
  - split; [done|]. split; [done|]. split; [|done]. cbn [n_w]. eapply (told_steps nobody); [tauto|exact (steps_states nobody uid b w)|done].
  - split; [done|]. split; [done|]. split; [|done]. cbn [n_w w_hub]. apply told_alter; [|done]. intros _ y. by destruct (Hf y) as (_ & _ & ->).
  - assert (i <> j) as Hij by (intros ->; congruence). split; [done|]. split; [done|]. split; [|cbn; by rewrite list_lookup_insert_ne].
    pose proof (steps_init_loaded nobody sd j join w) as Hs. unfold sat in Hs. rewrite Ei in Hs. eapply (told_steps nobody); [tauto|exact Hs|done].
  - assert (i <> j) as Hij by (intros ->; congruence). split; [done|]. split; [done|]. split; [|cbn; by rewrite list_lookup_insert_ne].
    pose proof (steps_init_failed (eq j) j join err eq_refl w) as Hs. unfold sat in Hs. rewrite Ei in Hs. eapply (told_steps (eq j)); [congruence|exact Hs|done].
  - assert (i <> j) as Hij by (intros ->; congruence). split; [done|]. split; [done|]. split; [|cbn; by rewrite list_lookup_insert_ne].
    cbn [n_w w_hub]. apply told_alter; [congruence|done].
Qed.

Lemma blocked_for_ever i p n n' : node_ok users n -> blocked_on i p n -> rtc node_step n n' -> blocked_on i p n'.
Proof.
  intros Hok Hb H. induction H as [n|n1 n2 n3 H1 _ IH]; [done|]. apply IH; [by eapply node_step_ok|by eapply blocked_step].
Qed.
End Blocked.
