(* ===== verification/HubRuns.v ===== *)
(** * HubRuns: runs of the hub

    [HubProps] at concrete inputs, and what the code does where it may not mean to. *)

From Stdlib Require Import NArith ZArith Lia List Ascii String Bool.
From stdpp Require Import base tactics numbers list strings gmap sets.
From S2P Require Import Prelude AccessMode Uid StoreTypes Fence Cluster Drafty Messages Interactions SubStore Utils PubStore History TopicStore Topic TopicSub TopicSubProps Publish Presence Notes MetaHistory Hub HubProps HubStages HubNode.
Import Objects Ranges.
Import Topic.

#[local] Open Scope string_scope.
#[local] Open Scope Z_scope.

Definition online_node (faults : list (option (GoError * bool))) : HW HubMem := mkHW (loaded [sample_topic]) (group_store 10 faults) [].
Definition offline_node (most : nat) : HW HubMem := mkHW (loaded []) (group_store most []) [].
Definition live_rows (w : HW HubMem) : list bool :=
  map (fun u => match live (row w.(w_st) "grpA" u) with Some _ => true | None => false end) [1; 2; 3]%N.
Definition told_of (w : HW HubMem) : list (list StopReason) := map (fun x => map sd_reason x.(i_exit)) w.(w_hub).(h_insts).

Lemma map_Forall_lookup_bound (m : gmap (string * Uid) Subscription) b t u x :
  forallb (fun kv => (snd (fst kv) <? b)%N) (map_to_list m) = true -> m !! (t, u) = Some x -> (u < b)%N.
Proof.
  intros Hb Hx. rewrite forallb_forall in Hb. specialize (Hb (t, u, x)). apply N.ltb_lt, Hb. apply list_elem_of_In. by apply elem_of_map_to_list.
Qed.

Lemma sample_group_rows most faults t u x : row (group_store most faults) t u = Some x -> (u < 2 ^ 64)%N.
Proof. apply map_Forall_lookup_bound. vm_compute. reflexivity. Qed.

(** ** Witnesses *)

(** A member's {del topic} of a topic that is not loaded: the member leaves, the others stay. *)
Lemma topic_deletion_authorized_witness :
  ends_only (row (offline_node 10).(w_st)) (row (delete_run (offline_node 10) 3 "grpA" "grpA").1.(w_st))
    (may_end no_policy (offline_node 10) "grpA" (Some (del_topic 3 "grpA" "grpA"))) /\
  live_rows (delete_run (offline_node 10) 3 "grpA" "grpA").1 = [true; true; false].
Proof.
  split; [|by vm_compute].
  exact (topic_deletion_authorized None 1000 no_policy (Some (user_session 3)) "grpA" (Some (del_topic 3 "grpA" "grpA")) (offline_node 10) _ _
    (sample_group_rows 10 []) ltac:(by vm_compute) (surjective_pairing _)).
Defined.

(** The owner's: everybody's subscriptions end, the topic is told to exit. *)
Definition group_inst : Inst := mkInst sample_topic [] [] [] [] [] [].

Lemma deletion_outcome_witness :
  (delete_run (online_node []) 1 "grpA" "grpA").2 = Ret tt /\ told_of (delete_run (online_node []) 1 "grpA" "grpA").1 = [[StopDeleted]] /\
  (delete_run (online_node [Some (TextErr "x", false)]) 1 "grpA" "grpA").2 = Err (TextErr "x").
Proof.
  split; [|split; [by vm_compute|]].
  - destruct (deletion_outcome None 1000 no_policy (Some (user_session 1)) "grpA" (del_topic 1 "grpA" "grpA") 0 group_inst (online_node []) _ _
      eq_refl eq_refl (surjective_pairing _)) as (_ & H & _). exact H.
  - destruct (deletion_outcome None 1000 no_policy (Some (user_session 1)) "grpA" (del_topic 1 "grpA" "grpA") 0 group_inst
      (online_node [Some (TextErr "x", false)]) _ _ eq_refl eq_refl (surjective_pairing _)) as (_ & H & _). exact H.
Defined.

(** A join, then a deletion: the topic that was started is told once. *)
Definition join_msg : HubMsg := mkHubMsg (UserId 1) "grpA" "grpA" (Some (user_session 1)) true BSub.
Definition joined : HW HubMem := (handle_join None join_msg (offline_node 10)).1.
Definition unreg_req : UnregReq := mkUnreg None None "grpA" ZeroUid false None.
Definition unloaded : HW HubMem := (handle_unreg None 1000 no_policy unreg_req joined).1.

Definition after (e : HubEvent) (n : Node HubMem) : Node HubMem := hub_goes 20 (hub_takes no_policy None 1000 e n).
Definition unloaded_node : Node HubMem := after (EUnreg unreg_req) (after (EJoin join_msg) (idle_node (group_store 10 []))).

Lemma after_run users e n : rtc (node_step no_policy users) n (after e n).
Proof. unfold after. etrans; [apply hub_takes_run|apply hub_goes_run]. Qed.

Lemma hub_exit_never_waits_witness :
  registry_ok (alive unloaded_node.(n_ph)) (about_to_remove unloaded_node) unloaded_node.(n_w).(w_hub) /\
  told_of unloaded_node.(n_w) = [[StopNone]] /\ unloaded_node.(n_w).(w_hub).(h_topics) !! "grpA" = None.
Proof.
  assert (rtc (node_step no_policy false) (idle_node (group_store 10 [])) unloaded_node) as Hrun by (etrans; apply after_run).
  destruct (hub_exit_never_waits no_policy false (group_store 10 []) _ Hrun) as [H _]. split; [exact H|split; by vm_compute].
Defined.

Lemma online_registered : registered_ok (fun _ => True) (online_node []).(w_hub).
Proof.
  intros name i H. assert ((name, i) ∈ [("grpA", 0%nat)]) as [= -> ->]%list_elem_of_singleton.
  { change [("grpA", 0%nat)] with (map_to_list (h_topics (w_hub (online_node [])))). by apply elem_of_map_to_list. }
  by exists group_inst.
Qed.

Lemma user_topics_stopped_witness : exists w', stopTopicsForUser 1 StopDeleted (Some 7%nat) (online_node []) = (w', Ret 1) /\
  w'.(w_hub).(h_topics) !! "grpA" = None /\ w'.(w_hub).(h_insts) !! 0%nat = Some (told StopDeleted (Some 7%nat) group_inst).
Proof.
  destruct (user_topics_stopped 1 StopDeleted (Some 7%nat) (online_node []) online_registered) as (w' & n & E & H & ->).
  exists w'. split; [exact E|]. apply (proj1 (H "grpA" 0%nat group_inst eq_refl eq_refl)). by left.
Defined.

(** ** What the code may not mean to do *)

(** A request to delete a topic whose name has no category ends the loop of the hub, and the server with it. *)
Lemma unknown_name_stops_server {St} `{Subs : SubStore St, Tops : !TopicStore St} cluster now policy sess topic m (w : HW St) s1 s2 subs :
  w.(w_hub).(h_topics) !! topic = None -> GetTopicCat topic = None -> IsChannel m.(hm_Original) = false ->
  topics_get topic w.(w_st) = (s1, inl None) -> topics_get_subs topic None s1 = (s2, inl subs) ->
  handle_unreg cluster now policy (mkUnreg (Some m) sess topic ZeroUid true None) w = (mkHW w.(w_hub) s2 w.(w_calls), Panic "invalid topic name").
Proof.
  intros Ht Hc Hch H1 H2. unfold handle_unreg. cbn [un_forUser un_del un_sess un_rcptTo un_pkt]. change (IsZeroUid ZeroUid) with true. cbv iota.
  unfold hattempt, hbind at 1. enough (topicUnreg cluster now policy sess topic (Some m) StopDeleted w =
    (mkHW w.(w_hub) s2 w.(w_calls), Panic "invalid topic name")) as -> by done.
  unfold topicUnreg, topicGet, hbind at 1, hget. cbn beta iota. unfold hbind at 1, hret at 1. cbn beta iota. rewrite Ht. cbn [option_bind mbind].
  unfold hwhen. rewrite andb_false_r, bool_decide_true by done.
  unfold unreg_offline, hbind, hcall, hret. rewrite H1. cbn beta iota. unfold check_official, hlift. unfold hret. cbn beta iota. rewrite Hch.
  unfold unreg_listed, hbind, hcall, hlift. cbn [w_st]. rewrite H2. cbn beta iota. by rewrite Hc.
Qed.

Lemma unknown_name_run : (delete_run (offline_node 10) 9 "xyz" "xyz").2 = Panic "invalid topic name".
Proof. vm_compute. reflexivity. Qed.

(** Removal of a topic on the server's own account, that comes after the topic was unloaded, dereferences the request it lacks. *)
Lemma late_removal_stops_server : (topicUnreg None 1000 no_policy None "grpA" None StopDeleted (offline_node 10)).2 = Panic nil_pointer.
Proof. vm_compute. reflexivity. Qed.

(** So does a second join of the system topic, which has no session, while the first one loads. *)
Lemma second_sys_join_stops_server :
  (handle_join None join_sys (handle_join None join_sys (offline_node 10)).1).2 = Panic nil_pointer.
Proof. vm_compute. reflexivity. Qed.

(** Anybody's refused deletion of a loaded channel tells all readers that it is gone. *)
Definition channel_node : HW HubMem := mkHW (loaded [as_channel sample_topic]) (group_store 10 []) [].
Definition pushes (w : HW HubMem) : nat := List.length (List.filter (fun e => match e with Out (SendPush _) => true | _ => false end) w.(w_calls)).

Lemma refused_deletion_pushed :
  let '(w, r) := delete_run channel_node 9 "grpA" "grpA" in r = Ret tt /\ live_rows w = [true; true; true] /\ pushes w = 1%nat.
Proof. vm_compute. auto. Qed.

(** The owner's deletion of it is pushed twice. *)
Lemma deletion_pushed_twice : pushes (delete_run channel_node 1 "grpA" "grpA").1 = 2%nat.
Proof. vm_compute. reflexivity. Qed.

(** In a group with more subscribers than the adapter lists, a member's request to leave does nothing. *)
Lemma unlisted_member_stays :
  let '(w, r) := delete_run (offline_node 2) 3 "grpA" "grpA" in
  r = Ret tt /\ live_rows w = [true; true; true] /\ w.(w_calls) = [Out (QueueOut "s" InfoNoActionReply)].
Proof. vm_compute. auto. Qed.

(** A deletion that commits but reports a failure leaves a topic whose members are gone running. *)
Lemma lost_commit_keeps_topic :
  let '(w, r) := delete_run (online_node [Some (TextErr "x", true)]) 1 "grpA" "grpA" in
  r = Err (TextErr "x") /\ live_rows w = [false; false; false] /\ w.(w_hub).(h_topics) !! "grpA" = Some 0%nat /\ told_of w = [[]].
Proof. vm_compute. auto. Qed.

(** While the owner's {del topic} of a topic that loads is under way, the deletion of the owner tells the topic to exit; the load ends
    without looking, and the hub waits for room in the topic's channel for ever. *)
Definition set_owner (u : Uid) (t : Topic) : Topic :=
  mkTopic t.(t_name) t.(xoriginal) t.(t_cat) t.(t_isChan) u t.(accessAuth) t.(accessAnon) t.(lastID) t.(subCnt) t.(status) t.(userAgent)
    t.(official) t.(officialRefreshedAt) t.(perUser) t.(modeWantUnion) t.(modeGivenUnion) t.(t_sessions) t.(officialMemberRefreshed)
    t.(touched) t.(t_delID) t.(aux) t.(moderationCache) t.(perSubs) t.(t_isProxy) t.(currentCall).
Definition user_deleted : Node HubMem :=
  after (EUnreg (mkUnreg None None "" 1%N true (Some 7%nat)))
    (load_serves 0 (on_topic (set_owner 1)) (after (EJoin join_msg) (idle_node (group_store 10 [])))).
Definition owner_deletes : HubEvent := EUnreg (mkUnreg (Some (del_topic 1 "grpA" "grpA")) (Some (user_session 1)) "grpA" ZeroUid true None).
Definition load_over : Node HubMem :=
  load_ends 0 join_msg (hub_goes 20 (stop_goes 0 20 (hub_goes 6 (hub_takes no_policy None 1000 owner_deletes (deletion_begins user_deleted))))).

Lemma load_over_run : rtc (node_step no_policy true) (idle_node (group_store 10 [])) load_over.
Proof.
  assert (rtc (node_step no_policy true) (idle_node (group_store 10 [])) user_deleted) as H.
  { unfold user_deleted. etrans; [apply after_run|]. etrans; [|apply after_run]. by apply load_serves_run. }
  etrans; [exact H|]. unfold load_over. generalize user_deleted. intros n. etrans; [by apply deletion_begins_run|]. etrans; [apply hub_takes_run|].
  etrans; [apply hub_goes_run|]. etrans; [apply stop_goes_run|]. etrans; [apply hub_goes_run|apply load_ends_run].
Qed.

(** The hub waits for room for a second request to exit, in a topic that has ended. *)
Definition full_and_ended (n : Node HubMem) : Prop :=
  match n.(n_hub), n.(n_w).(w_hub).(h_insts), n.(n_ph) with
  | TellExit 0 _ _, [x], [Ended] => map sd_done x.(i_exit) = [Some 7%nat]
  | _, _, _ => False
  end.

Lemma load_over_end : full_and_ended load_over.
Proof. vm_compute. reflexivity. Qed.

Lemma full_blocked n : full_and_ended n -> blocked_on 0 n.(n_hub) n.
Proof.
  unfold full_and_ended, blocked_on, told_to_exit. intros H. destruct (n_hub n) as [| | | |[|] sd k]; try done.
  destruct (h_insts _) as [|x [|]]; try done. destruct (n_ph n) as [|[] [|]]; try done.
  split; [done|]. split; [by eexists _, _|]. split; [|done]. exists x. split; [done|]. by destruct (i_exit x).
Qed.

Lemma user_deletion_blocks_hub n : rtc (node_step no_policy true) load_over n ->
  advance n.(n_hub) n.(n_w) = None /\ exists i sd k, n.(n_hub) = TellExit i sd k.
Proof.
  intros H. pose proof (full_blocked _ load_over_end) as Hb. pose proof (reachable_ok no_policy true _ _ load_over_run) as Hok.
  pose proof (blocked_for_ever _ _ _ _ _ _ Hok Hb H) as Hn.
  split; [by eapply blocked_waits|]. destruct Hn as (-> & (sd & k & ->) & _). eauto.
Qed.

(** A topic that is told to exit for a user's deletion while it loads is done with at the end of the load, and the waiter not told. *)
Definition owned_loading : HW HubMem :=
  mkHW (set_inst (loaded [sample_topic]) 0 (on_topic (fun t => markPaused t true))) (group_store 10 []) [].
Lemma loading_topic_never_reports :
  let '(w1, n) := stopTopicsForUser 1 StopDeleted (Some 7%nat) owned_loading in
  let '(w2, r) := init_loaded false 0 join_msg w1 in
  n = Ret 1 /\ r = Ret tt /\ map (fun x => map sd_done x.(i_exit)) w2.(w_hub).(h_insts) = [[Some 7%nat]] /\
  existsb (fun e => match e with GoRun _ | ReportDone _ => true | _ => false end) w2.(w_calls) = false.
Proof. vm_compute. auto. Qed.

(** A load that fails takes the name out of the registry, whichever topic has it by then. *)
Lemma failed_load_forgets_successor :
  let w1 := (handle_join None join_msg unloaded).1 in
  w1.(w_hub).(h_topics) !! "grpA" = Some 1%nat /\
  (init_failed 0 join_msg (StoreErr ErrInternal) w1).1.(w_hub).(h_topics) !! "grpA" = None.
Proof. vm_compute. auto. Qed.

(** A join that was handed to a topic that is told to exit stays in its queue. *)
Lemma join_lost :
  let ready := mkHW (loaded [sample_topic]) (group_store 10 []) [] in
  let w1 := (handle_join None join_msg ready).1 in
  let w2 := (handle_unreg None 1000 no_policy unreg_req w1).1 in
  map (fun x => (List.length x.(i_reg), map sd_reason x.(i_exit))) w2.(w_hub).(h_insts) = [(1%nat, [StopNone])] /\
  existsb (fun e => match e with InflightDone _ => true | _ => false end) w2.(w_calls) = false.
Proof. vm_compute. auto. Qed.
