(* ===== verification/HubReplies.v ===== *)
(** * HubReplies: requests of users who are not attached

    Properties of the offline half of [Hub]: what such a request can change, and what it can show. *)

From Stdlib Require Import NArith ZArith Lia List Ascii String Bool.
From stdpp Require Import base tactics numbers list strings gmap sets.
From S2P Require Import Prelude AccessMode Uid StoreTypes Fence Cluster Drafty Messages Interactions SubStore Utils PubStore History TopicStore Topic TopicSub TopicSubProps Publish Presence Notes MetaHistory Hub HubProps HubRuns.
Import Objects Ranges.
Import Topic.

#[local] Open Scope string_scope.
#[local] Open Scope Z_scope.

Section Replies.
Context {St : Type} `{Subs : SubStore St, Laws : !SubStoreLaws St, Tops : !TopicStore St, TLaws : !TopicStoreLaws St}.
Context (typesModeCP2P : AccessMode) (json_object : string -> option (list (string * Any))).

Lemma quiet_store_failed {A} sess msg e : quiet (store_failed (St := St) (A := A) sess msg e).
Proof. unfold store_failed. quiet. Qed.
Lemma quiet_ended {A} sess r e : quiet (ended (St := St) (A := A) sess r e).
Proof. unfold ended. quiet. Qed.
#[local] Hint Resolve quiet_store_failed quiet_ended : hub.

(** ** Changes *)

(** The change of a wanted mode: no owner is made; none is lost but in a conversation, where at most the configured rights and
    approval are left. *)
Definition mode_sound (cat : TopicCat) (old new : AccessMode) : Prop :=
  new = old \/
  (IsOwner new = true -> IsOwner old = true) /\
  (cat <> TopicCatP2P -> IsOwner new = IsOwner old) /\
  (cat = TopicCatP2P -> new &^ (typesModeCP2P |. ModeApprove) = ModeNone).

Lemma mode_change_sound cat old mode want : mode_change typesModeCP2P cat old mode = inl (Some want) -> mode_sound cat old want.
Proof.
  unfold mode_change. destruct (String.eqb mode ""); [done|]. destruct (UnmarshalText 0 mode) as [m [e|]]; [done|].
  destruct (Bool.eqb _ _) eqn:Eo; [|done]. apply Bool.eqb_prop in Eo. cbn [negb]. intros [= H]. right.
  destruct (cat_eqb cat TopicCatP2P) eqn:Ec.
  - apply cat_eqb_spec in Ec as ->. destruct (_ =? _)%N; [done|]. injection H as <-. split; [|split; [done|]].
    + rewrite <- Eo, !IsOwner_testbit, N.lor_spec, N.land_spec. change (N.testbit ModeApprove 7) with false. rewrite orb_false_r.
      by intros [? _]%andb_true_iff.
    + intros _. apply N.bits_inj. intros i. autorewrite with bits.
      by destruct (N.testbit m i), (N.testbit typesModeCP2P i), (N.testbit ModeApprove i).
  - destruct (_ =? _)%N; [done|]. injection H as <-. rewrite Eo. split; [done|]. split; [done|]. intros ->. done.
Qed.

(** What a request may make of the row [old]. *)
Definition change_allowed (cat : option TopicCat) (old new : Subscription) : Prop :=
  (new.(s_ModeWant) = old.(s_ModeWant) \/ exists c, cat = Some c /\ mode_sound c old.(s_ModeWant) new.(s_ModeWant)) /\
  new = mkSub old.(s_User) old.(s_Topic) new.(s_ModeWant) old.(s_ModeGiven) new.(s_Private) old.(s_DelId) old.(s_ReadSeqId)
    old.(s_ReadHistory) old.(s_RecvSeqId) old.(s_DeletedAt).

Definition own_change (cat : option TopicCat) (rows rows' : string -> Uid -> option Subscription) (topic : string) (uid : Uid) : Prop :=
  forall t u, rows' t u = rows t u \/
    t = topic /\ u = uid /\ exists old new, live (rows t u) = Some old /\ rows' t u = Some new /\ change_allowed cat old new.

Lemma own_change_same cat (rows rows' : string -> Uid -> option Subscription) topic uid : (forall t u, rows' t u = rows t u) -> own_change cat rows rows' topic uid.
Proof. intros H t u. left. apply H. Qed.

(** The category of the topic is looked at for a mode alone. *)
Lemma set_category mode name (w : HW St) :
  sat w (if String.eqb mode "" then hret TopicCatMe else hlift "invalid topic name" (GetTopicCat name))
    (fun w' r => only_calls w w' /\ forall cat, r = Ret cat -> mode = "" \/ GetTopicCat name = Some cat).
Proof.
  destruct (String.eqb_spec mode "") as [->|]; [apply sat_ret; split; [done|auto]|].
  apply sat_lift; [intros c Hc|]; (split; [done|]); intros c' [= <-]; auto.
Qed.

Lemma changed_row cat name mode old want priv : mode = "" \/ GetTopicCat name = Some cat ->
  mode_change typesModeCP2P cat old.(s_ModeWant) mode = inl want ->
  change_allowed (GetTopicCat name) old (updated_row (mkUpdate want None priv None None None None) old).
Proof.
  intros Hc Hm. split; [|done]. cbn. destruct want as [m|]; [|by left]. right. destruct Hc as [->|Hc]; [done|]. exists cat.
  split; [done|]. by eapply mode_change_sound.
Qed.

(** One update of the user's own row. *)
Lemma own_update cat topic uid upd old rows s : uid <> ZeroUid -> (forall t u, row s t u = rows t u) -> live (rows topic uid) = Some old ->
  change_allowed cat old (updated_row upd old) -> own_change cat rows (row (subs_update topic uid upd s).1) topic uid.
Proof.
  intros Hu Hr Hold Hc t u. rewrite law_update. destruct (subs_update topic uid upd s).2; [by left|].
  case_bool_decide as E; [|by left]. destruct E as [-> [->|E]]; [|done]. right. split; [done|]. split; [done|]. rewrite Hr.
  exists old, (updated_row upd old). split; [done|]. split; [|done]. unfold live, visible in Hold. destruct (rows topic uid) as [x|]; [|done].
  destruct (s_DeletedAt x); [done|]. by injection Hold as ->.
Qed.

(** A {set} of a user who is not attached leaves the registry, and every subscription but the user's own to the topic as it was;
    of that it changes at most the private data and the wanted mode, the latter without making an owner, or unmaking one outside of
    conversations, and within the configured rights in those. *)
Theorem offline_change_sound sess msg (w w' : HW St) r : ParseUserId msg.(hm_AsUser) <> ZeroUid ->
  replyOfflineTopicSetSub typesModeCP2P sess msg w = (w', r) ->
  w'.(w_hub) = w.(w_hub) /\
  own_change (GetTopicCat msg.(hm_RcptTo)) (row w.(w_st)) (row w'.(w_st)) (sub_name msg) (ParseUserId msg.(hm_AsUser)).
Proof.
  intros Hu E. set (uid := ParseUserId msg.(hm_AsUser)) in *. set (cat0 := GetTopicCat msg.(hm_RcptTo)).
  set (ok := fun w' : HW St => w'.(w_hub) = w.(w_hub) /\ own_change cat0 (row w.(w_st)) (row w'.(w_st)) (sub_name msg) uid).
  enough (sat w (replyOfflineTopicSetSub typesModeCP2P sess msg) (fun w' _ => ok w')) as H by (unfold sat in H; by rewrite E in H).
  set (same := fun w1 : HW St => w1.(w_hub) = w.(w_hub) /\ forall t u, row w1.(w_st) t u = row w.(w_st) t u).
  assert (forall (w1 : HW St) (m : HM unit), same w1 -> quiet m -> sat w1 m (fun w' _ => ok w')) as Hquiet.
  { intros w1 m [E1 E2] Hm. apply sat_quiet; [exact Hm|]. intros w2 _ [E3 E4]. split; [congruence|]. apply own_change_same. by rewrite E4. }
  assert (same w) as Hw by done. clear E w' r. unfold replyOfflineTopicSetSub.
  destruct (match hm_body msg with BSet p s => (p, s) | _ => (ANil, None) end) as [priv sub]. destruct (default _ sub) as [[user role] mode].
  destruct (negb _); [apply Hquiet; by auto with hub|]. do 2 (destruct (_ && _); [apply Hquiet; by auto with hub|]).
  do 2 hub_step. destruct (law_get (sub_name msg) uid false w.(w_st)) as [Hrow Hfound].
  destruct (subs_get _ _ _ _) as [s1 [[old|]|e]]; cbn [fst snd] in *; [|apply Hquiet; by auto with hub..].
  specialize (Hfound _ eq_refl). apply sat_bind. eapply sat_mono; [apply set_category|]. intros w1 r [[Eh Es] Hcat]. cbn [w_hub w_st] in *.
  assert (same w1) as Hw1 by (split; [done|by rewrite Es]).
  destruct r as [cat|e|p]; [|by apply (Hquiet w1 (hret tt) Hw1 (quiet_ret tt))..]. specialize (Hcat _ eq_refl).
  destruct (mode_change _ _ _ _) as [want|[e|]] eqn:Em; [|apply Hquiet; by auto with hub..].
  destruct (no_updates _); [apply Hquiet; by auto with hub|]. do 2 hub_step.
  apply sat_quiet; [destruct (subs_update _ _ _ _).2; by auto with hub|]. intros w2 _ [E3 E4]. cbn [w_hub w_st] in *.
  split; [congruence|]. rewrite E4. eapply own_update; [done|apply Hw1|by symmetry|by eapply changed_row].
Qed.

(** ** Descriptions *)

(** What a description shows of the requester's own subscription [own]. *)
Definition shows_own (authLvl : Z) (suspended : bool) (own : option Subscription) (d : MsgTopicDesc) : Prop :=
  match own with
  | None => d.(d_Private) = ANil /\ am_Want d.(d_Acs) = "" /\ am_Given d.(d_Acs) = ""
  | Some sub =>
      d.(d_Private) = sub.(s_Private) /\ am_Want d.(d_Acs) = ModeString sub.(s_ModeWant) /\ am_Given d.(d_Acs) = ModeString sub.(s_ModeGiven) /\
      exists mode, am_Mode d.(d_Acs) = ModeString mode /\ mode &^ (sub.(s_ModeGiven) &. sub.(s_ModeWant)) = ModeNone /\
        (suspended = true -> authLvl <> LevelRoot -> IsWriter mode = false /\ IsApprover mode = false)
  end.

Lemma own_desc_shows authLvl suspended sub d : shows_own authLvl suspended (Some sub) (own_desc authLvl suspended sub d).
Proof.
  split; [done|]. split; [done|]. split; [done|]. cbn [own_desc d_Acs am_Mode]. eexists. split; [reflexivity|].
  destruct suspended, (Z.eqb_spec authLvl LevelRoot) as [->|Hl]; cbn [negb andb]; (split; [apply N.bits_inj; intros i; autorewrite with bits|]).
    all: try done.
  all: rewrite ?IsWriter_testbit, ?IsApprover_testbit; autorewrite with bits; try done.
  - by destruct (N.testbit _ i), (N.testbit _ i).
  - by destruct (N.testbit (s_ModeGiven sub) i), (N.testbit (s_ModeWant sub) i), (_ || _).
  - intros _ _. split; [change (N.testbit ModeWrite 2) with true|change (N.testbit ModeApprove 4) with true; rewrite orb_true_r]; by rewrite andb_false_r.
  - by destruct (N.testbit (s_ModeGiven sub) i), (N.testbit (s_ModeWant sub) i).
  - by destruct (N.testbit (s_ModeGiven sub) i), (N.testbit (s_ModeWant sub) i).
Qed.

(** The topic or the peer that a description is of, in its table, and the name of the topic. *)
Definition about_topic (msg : HubMsg) : bool := HasPrefix msg.(hm_RcptTo) "grp" || String.eqb msg.(hm_RcptTo) "sys".
Definition peer (msg : HubMsg) : Uid * string := peer_of (ParseUserId msg.(hm_AsUser)) msg.(hm_RcptTo).
Definition topic_name (msg : HubMsg) : string := if about_topic msg then msg.(hm_RcptTo) else snd (peer msg).
Definition state_in (s : St) (msg : HubMsg) (state : Z) : Prop :=
  if about_topic msg then exists x, (topics_get msg.(hm_RcptTo) s).2 = inl (Some x) /\ state = x.(tp_State)
  else fst (peer msg) <> ZeroUid /\ exists u, (users_profile (fst (peer msg)) s).2 = inl (Some u) /\ state = u.(pf_State).

(** A request that was refused returns nothing. *)
Lemma sat_refused {A} (m : HM (St := St) A) w Q : quiet m -> (forall w' a, m w <> (w', Ret a)) ->
  (forall w' r, only_calls w w' -> (forall a, r <> Ret a) -> Q w' r) -> sat w m Q.
Proof. intros Hm Hr HQ. apply HQ; [apply Hm|]. intros a E. apply (Hr (m w).1 a). by rewrite <- E, <- surjective_pairing. Qed.
Lemma ended_refuses {A} sess r e (w w' : HW St) a : ended (A := A) sess r e w <> (w', Ret a).
Proof. done. Qed.
Lemma store_failed_refuses {A} sess msg e (w w' : HW St) a : store_failed (A := A) sess msg e w <> (w', Ret a).
Proof. unfold store_failed, hbind, hlift. by destruct (decodeStoreError _ _ _). Qed.
#[local] Hint Resolve ended_refuses store_failed_refuses : hub.

Lemma base_desc_sound sess authLvl msg (w : HW St) :
  sat w (base_desc json_object sess authLvl msg) (fun w' r =>
    w'.(w_hub) = w.(w_hub) /\ (forall t u, row w'.(w_st) t u = row w.(w_st) t u) /\
    forall d susp topic, r = Ret (d, susp, topic) -> w'.(w_calls) = w.(w_calls) /\ topic = topic_name msg /\
      shows_own authLvl susp None d /\ exists state, state_in w.(w_st) msg state /\ susp = (state =? StateSuspended)).
Proof.
  set (Q := fun (w' : HW St) r => _). assert (forall s1 calls (m : HM (MsgTopicDesc * bool * string)), (forall t u, row s1 t u = row w.(w_st) t u) ->
    quiet m -> (forall w' a, m (mkHW w.(w_hub) s1 calls) <> (w', Ret a)) -> sat (mkHW w.(w_hub) s1 calls) m Q) as Hrefused.
  { intros s1 calls m Hs Hm Hr. apply sat_refused; [done|done|]. intros w2 r [E1 E2] Hn. split; [done|]. split; [by rewrite E2|].
    intros d susp topic E. by destruct (Hn _ E). }
  unfold base_desc. destruct (HasPrefix (hm_RcptTo msg) "grp" || String.eqb (hm_RcptTo msg) "sys") eqn:Ea; fold (about_topic msg) in Ea.
  - do 2 hub_step. pose proof (law_topics_get msg.(hm_RcptTo) w.(w_st)) as Hl.
    destruct (topics_get _ _) as [s1 [[x|]|e]] eqn:Eg; cbn [fst snd] in *; [|apply Hrefused; by auto with hub..].
    apply sat_ret. split; [done|]. split; [done|]. unfold topic_name, state_in. rewrite Ea. intros d susp topic [= <- <- <-]. repeat split.
    exists x.(tp_State). split; [|done]. exists x. by rewrite Eg.
  - fold (peer msg). destruct (peer msg) as [v name] eqn:Ep. destruct (IsZeroUid v) eqn:Ev.
    { destruct w as [hub st calls]. apply (Hrefused st calls); by auto with hub. }
    do 2 hub_step. pose proof (law_profile v w.(w_st)) as Hl.
    destruct (users_profile _ _) as [s1 [[x|]|e]] eqn:Eg; cbn [fst snd] in *; subst s1; [|apply Hrefused; by auto with hub..].
    apply sat_ret. split; [done|]. split; [done|]. unfold topic_name, state_in. rewrite Ea, Ep. cbn [fst snd w_st w_calls]. intros d susp topic [= <- <- <-]. repeat split.
    exists x.(pf_State). split; [|done]. split; [|exists x; by rewrite Eg]. cbn. intros ->. done.
Qed.

(** What a request for the description ends in. *)
Definition described (sess : Session) (authLvl : Z) (msg : HubMsg) (w w' : HW St) (r : Res unit) : Prop :=
  w'.(w_hub) = w.(w_hub) /\ (forall t u, row w'.(w_st) t u = row w.(w_st) t u) /\
  (r = Ret tt -> exists d state, w'.(w_calls) = MetaDesc (sid sess) msg.(hm_Original) d :: w.(w_calls) /\ state_in w.(w_st) msg state /\
     let topic := if IsChannel msg.(hm_Original) then msg.(hm_Original) else topic_name msg in
     shows_own authLvl (state =? StateSuspended) (live (row w.(w_st) topic (ParseUserId msg.(hm_AsUser)))) d).

(** A description that is sent to a user who is not attached carries the private data and the access of the requester's own
    subscription, and of nobody else's: the access no more than was both given and asked for, without writing and approval where
    the topic or the peer is suspended.  Nothing changes. *)
Theorem offline_description_own sess authLvl msg (w w' : HW St) r :
  replyOfflineTopicGetDesc json_object sess authLvl msg w = (w', r) -> described sess authLvl msg w w' r.
Proof.
  intros E. enough (sat w (replyOfflineTopicGetDesc json_object sess authLvl msg) (described sess authLvl msg w)) as H by (unfold sat in H; by rewrite E in H).
  clear E. unfold replyOfflineTopicGetDesc. apply sat_bind. eapply sat_mono; [apply base_desc_sound|]. intros w1 r1 (Eh & Er & Hd).
  destruct r1 as [[[d susp] topic]|e|p]; [|by (split; [done|]; split)..]. destruct (Hd _ _ _ eq_refl) as (Ec & -> & Hs & state & Hst & ->).
  set (name := if IsChannel (hm_Original msg) then hm_Original msg else topic_name msg). set (v := ParseUserId (hm_AsUser msg)).
  do 2 hub_step. destruct (law_get name v false w1.(w_st)) as [Hrow Hfound]. fold name v.
  assert (forall s e m, (forall t u, row s t u = row w.(w_st) t u) -> m = MetaDesc (sid sess) (hm_Original msg) e ->
    shows_own authLvl (state =? StateSuspended) (live (row w.(w_st) name v)) e ->
    sat (mkHW w1.(w_hub) s w1.(w_calls)) (heff m) (described sess authLvl msg w)) as Hout.
  { intros s e m Hr -> He. apply sat_eff. split; [done|]. split; [done|]. intros _. exists e, state. cbn [w_calls]. by rewrite Ec. }
  destruct (subs_get name v false _) as [s2 [[sub|]|e]]; cbn [fst snd] in *.
  - specialize (Hfound _ eq_refl). eapply Hout; [intros; by rewrite Hrow|done|]. fold live in Hfound. rewrite Er in Hfound. unfold live. rewrite <- Hfound. apply own_desc_shows.
  - specialize (Hfound _ eq_refl). eapply Hout; [intros; by rewrite Hrow|done|]. rewrite Er in Hfound. unfold live. by rewrite <- Hfound.
  - apply sat_refused; [by auto with hub|by auto with hub|]. intros w2 r2 [E1 E2] Hn. split; [by rewrite E1|]. split; [by intros; rewrite E2; cbn; rewrite Hrow|].
    intros Hr. by destruct (Hn _ Hr).
Qed.
End Replies.

(** ** Runs *)

Definition set_request (u : Uid) (priv : Any) (sub : option (string * string * string)) : HubMsg :=
  mkHubMsg (UserId u) "grpA" "grpA" (Some (user_session u)) true (BSet priv sub).
Definition get_request (u : Uid) : HubMsg := mkHubMsg (UserId u) "grpA" "grpA" (Some (user_session u)) true (BGet true None).
Definition set_run (w : HW HubMem) (m : HubMsg) : HW HubMem * Res unit := replyOfflineTopicSetSub ModeCP2P (user_session 3) m w.
Definition get_run (w : HW HubMem) (m : HubMsg) : HW HubMem * Res unit := replyOfflineTopicGetDesc (fun _ => None) (user_session 3) LevelAuth m w.
Definition mute : HubMsg := set_request 3 (AStr "a note") (Some ("", "", "JR")).

Lemma offline_change_sound_witness :
  own_change ModeCP2P (GetTopicCat "grpA") (row (online_node []).(w_st)) (row (set_run (online_node []) mute).1.(w_st)) "grpA" 3 /\
  (s_ModeWant <$> row (set_run (online_node []) mute).1.(w_st) "grpA" 3) = Some (ModeJoin |. ModeRead).
Proof.
  split; [|by vm_compute].
  exact (proj2 (offline_change_sound ModeCP2P (user_session 3) mute (online_node []) _ _ ltac:(by vm_compute) (surjective_pairing _))).
Defined.

Lemma get_run_ret : get_run (offline_node 10) (get_request 3) = ((get_run (offline_node 10) (get_request 3)).1, Ret tt).
Proof. vm_compute. reflexivity. Qed.

Lemma offline_description_own_witness : exists d, (get_run (offline_node 10) (get_request 3)).1.(w_calls) = [MetaDesc "s" "grpA" d] /\
  am_Given d.(d_Acs) = ModeString memberAccess.
Proof.
  destruct (offline_description_own (fun _ => None) (user_session 3) LevelAuth (get_request 3) (offline_node 10) _ _ get_run_ret) as (_ & _ & H).
  destruct (H eq_refl) as (d & state & Hd & _ & Hs). exists d. split; [exact Hd|]. apply Hs.
Defined.

(** *** What the code may not mean to do *)

(** A mode that is changed so while the topic is loaded is not the mode the topic goes by. *)
Lemma loaded_mode_stale :
  let w := (set_run (online_node []) mute).1 in
  (s_ModeWant <$> row w.(w_st) "grpA" 3) = Some (ModeJoin |. ModeRead) /\
  map (fun x => modeWant <$> x.(i_topic).(perUser) !! 3%N) w.(w_hub).(h_insts) = [Some memberAccess].
Proof. vm_compute. auto. Qed.

(** The mark that erases private data is stored as the data. *)
Lemma erasing_mark_stored :
  (s_Private <$> row (set_run (offline_node 10) (set_request 3 (AStr nullValue) None)).1.(w_st) "grpA" 3) = Some (AStr nullValue).
Proof. vm_compute. reflexivity. Qed.

(** The owner is not shown the default access: the stored name of the owner lacks the prefix of the requester's. *)
Lemma default_access_hidden :
  match (get_run (offline_node 10) (get_request 1)).1.(w_calls) with [MetaDesc _ _ d] => d.(d_DefaultAcs) | _ => Some ("", "") end = None.
Proof. vm_compute. reflexivity. Qed.
