(* ===== verification/InitProps.v ===== *)
(** * InitProps: loading and creating topics

    Properties of [TopicInit], with runs on [LoadMem]. *)

From Stdlib Require Import NArith ZArith Lia List Ascii String Bool.
From stdpp Require Import base tactics numbers list strings gmap sets.
From S2P Require Import Prelude AccessMode Uid StoreTypes Fence Messages Cluster SubStore Utils PubStore History TopicStore LoadStore Topic TopicSubProps TopicInit.
Import Objects Ranges.
Import Utils.Tags.
Import Topic.

#[local] Open Scope string_scope.
#[local] Open Scope Z_scope.

Section Init.
Context {St : Type} `{Subs : SubStore St, Laws : !SubStoreLaws St, Tops : !TopicStore St, TopLaws : !TopicStoreLaws St, Load : !TopicLoad St, LoadLaws : !TopicLoadLaws St, Listing : !CompleteListing St}.
Context (IsLetter IsNumber IsDigit : N -> bool) (ToLowerFull : string -> string).
Context (typesModeCP2P : AccessMode) (maxTagCount : nat) (immutableTagNS : list string) (now : Z).
Context (officialPolicyFromAux : string -> option (list (string * Any)) -> option officialTopicPolicy + GoError).
Context (clientTrusted : Any -> Any) (businessPolicy : option (Uid -> Uid -> string -> bool)).

(** ** What a load leaves in the store *)

Lemma load_rows {A} (f : St -> St * (A + GoError)) : (forall s t u, row (f s).1 t u = row s t u) -> frame same_rows (load f).
Proof. intros H. apply call_rows in H. unfold load. handler. Qed.
Lemma loadSubscribers_rows : frame same_rows (loadSubscribers (St := St)).
Proof. unfold loadSubscribers. pose proof (fun t => load_rows (topics_get_subs t None) (fun s => proj1 (law_get_subs t None s))). handler. Qed.
Lemma loadSubscriber_rows at_ u : frame same_rows (loadSubscriber (St := St) at_ u).
Proof. unfold loadSubscriber. pose proof (fun t => call_rows (subs_get t u false) (fun s => proj1 (law_get t u false s))). handler. Qed.
Lemma profile_rows u : frame same_rows (call (St := St) (users_profile u)).
Proof. apply call_rows. intros s t v. by rewrite law_profile. Qed.
Lemma read_rows name : frame same_rows (load (St := St) (topics_read name)).
Proof. apply load_rows, law_topics_read. Qed.
Lemma load_profile_rows u : frame same_rows (load (St := St) (users_profile u)).
Proof. apply load_rows. intros s t v. by rewrite law_profile. Qed.
Lemma default_access_rows a c : frame same_rows (default_access (St := St) typesModeCP2P a c).
Proof. unfold default_access. handler. Qed.
Lemma pktsub_rows j : frame same_rows (pktsub (St := St) j).
Proof. apply frame_lift_option, _. Qed.
Lemma session_of_rows j : frame same_rows (session_of (St := St) j).
Proof. apply frame_lift_option, _. Qed.
Lemma new_tags_rows set : frame same_rows (new_tags (St := St) IsLetter IsNumber IsDigit ToLowerFull maxTagCount immutableTagNS set).
Proof. unfold new_tags. handler. Qed.
#[local] Hint Resolve loadSubscribers_rows loadSubscriber_rows profile_rows read_rows load_profile_rows default_access_rows pktsub_rows
  session_of_rows new_tags_rows : handlers.

Lemma exec_err_rows (f : St -> St * option GoError) :
  (forall s, (f s).2 <> None -> forall t u, row (f s).1 t u = row s t u) -> err_frame same_rows (exec_quiet f).
Proof.
  intros H w w' e E. unfold exec_quiet, call, bind in E. specialize (H (w_store w)). destruct (f (w_store w)) as [s [e'|]]; [|done].
  injection E as <- <-. intros t u. by apply H.
Qed.
Lemma subs_create_err sub : err_frame same_rows (exec_quiet (St := St) (subs_create sub)).
Proof. apply exec_err_rows. intros s H t u. rewrite law_create. by destruct (_.2). Qed.
Lemma topic_create_rows name r : frame same_rows (exec_quiet (St := St) (topic_create name r)).
Proof. unfold exec_quiet. pose proof (call_rows (topic_create name r) (law_topic_create name r)). handler. Qed.
Lemma topics_create_err name r u want given private : err_frame same_rows (topics_create (St := St) name r u want given private).
Proof.
  unfold topics_create. apply err_frame_bind; [apply _|apply topic_create_rows|]. intros _. destruct (IsZeroUid u).
  - apply err_frame_frame. handler.
  - apply subs_create_err.
Qed.
Lemma restore_no_err sub u : no_err (restore_logged (St := St) sub u).
Proof. unfold restore_logged. handler. Qed.
#[local] Hint Resolve restore_no_err : handlers.

Lemma topic_create_p2p_err sub1 sub2 : err_frame same_rows (exec_quiet (St := St) (topic_create_p2p now sub1 sub2)).
Proof. apply exec_err_rows. intros s H t u. rewrite law_create_p2p. by destruct (_.2). Qed.
Lemma get_users_rows name : frame same_rows (load (St := St) (topics_get_users name)).
Proof. apply load_rows. intros s. apply law_get_users. Qed.
Lemma get_all_rows u1 u2 : frame same_rows (load (St := St) (users_get_all u1 u2)).
Proof. apply load_rows. intros s. apply law_get_all. Qed.
#[local] Hint Resolve get_users_rows get_all_rows : handlers.

(** Steps through what leaves the rows alone before an error. *)
Ltac err_step :=
  match goal with
  | |- forall _, _ => intro
  | |- err_frame _ (match ?x with _ => _ end) => destruct x
  | |- err_frame _ (if ?b then _ else _) => destruct b
  | |- err_frame _ _ => solve [apply err_frame_frame; handler]
  | |- err_frame _ (bind _ _) => apply err_frame_bind; [apply _|solve [handler]|]
  | |- err_frame _ (bind _ _) => apply err_frame_last; [|solve [handler]]
  end.

Lemma p2p_store_err b c u1 u2 sub1 sub2 : err_frame same_rows (p2p_store (St := St) now b c u1 u2 sub1 sub2).
Proof.
  unfold p2p_store. destruct b; cbn [negb]; [|apply topic_create_p2p_err]. apply err_frame_last; [|handler].
  destruct c; [apply subs_create_err|]. by apply err_frame_no_err, restore_no_err.
Qed.
Lemma p2p_create_err j b subs : err_frame same_rows (p2p_create (St := St) typesModeCP2P now j b subs).
Proof. unfold p2p_create. pose proof p2p_store_err. repeat err_step; auto. Qed.
Lemma initTopicP2P_err j : err_frame same_rows (initTopicP2P (St := St) typesModeCP2P now businessPolicy j).
Proof. unfold initTopicP2P. pose proof p2p_create_err. repeat err_step; auto. Qed.
Lemma slf_create_err j :
  err_frame same_rows (slf_create (St := St) IsLetter IsNumber IsDigit ToLowerFull typesModeCP2P maxTagCount immutableTagNS now j).
Proof. unfold slf_create. pose proof topics_create_err. repeat err_step; auto. Qed.
Lemma initTopicSlf_err j :
  err_frame same_rows (initTopicSlf (St := St) IsLetter IsNumber IsDigit ToLowerFull typesModeCP2P maxTagCount immutableTagNS now j).
Proof. unfold initTopicSlf. pose proof slf_create_err. repeat err_step; auto. Qed.
Lemma link_no_err name urls :
  no_err (match urls with [] => ret tt | _ => call (St := St) (fun s => (files_link name urls s, tt)) end).
Proof. handler. Qed.
Lemma initTopicNewGrp_err j c :
  err_frame same_rows (initTopicNewGrp (St := St) IsLetter IsNumber IsDigit ToLowerFull typesModeCP2P maxTagCount immutableTagNS now j c).
Proof. unfold initTopicNewGrp. pose proof topics_create_err. repeat err_step; auto. Qed.
Lemma load_large_rows o j : frame same_rows (load_large (St := St) now o j).
Proof. unfold load_large. handler. Qed.
#[local] Hint Resolve load_large_rows : handlers.
Lemma initTopicGrp_rows j : frame same_rows (initTopicGrp (St := St) now officialPolicyFromAux j).
Proof. unfold initTopicGrp. handler. Qed.
Lemma initTopicSys_rows : frame same_rows (initTopicSys (St := St)).
Proof. unfold initTopicSys. handler. Qed.
Lemma initTopicMe_rows j : frame same_rows (initTopicMe (St := St) clientTrusted j).
Proof. unfold initTopicMe. handler. Qed.
Lemma initTopicFnd_rows j : frame same_rows (initTopicFnd (St := St) typesModeCP2P j).
Proof. unfold initTopicFnd. handler. Qed.

(** C30: when a join cannot load or create its topic, whatever the topic and at whichever step, every subscription in the store is
    what it was: the calls that create or put back subscriptions come last, and an error of theirs left nothing. *)
Theorem failed_load_changes_nothing j w w' e :
  topicInit IsLetter IsNumber IsDigit ToLowerFull typesModeCP2P maxTagCount immutableTagNS now officialPolicyFromAux clientTrusted businessPolicy j w =
    (w', Err e) -> same_rows w w'.
Proof.
  revert w w' e. change (err_frame same_rows (topicInit IsLetter IsNumber IsDigit ToLowerFull typesModeCP2P maxTagCount immutableTagNS now officialPolicyFromAux clientTrusted businessPolicy j)). unfold topicInit.
  pose proof initTopicP2P_err. pose proof initTopicNewGrp_err. pose proof initTopicSlf_err.
  pose proof initTopicGrp_rows. pose proof initTopicSys_rows. pose proof initTopicMe_rows. pose proof initTopicFnd_rows.
  repeat err_step; auto.
Qed.

(** ** Steps of a run that returns *)

Lemma modify_step {B} f (k : unit -> M (St := St) B) w : bind (modify f) k w = k tt (mkWorld (f w.(w_topic)) w.(w_store) w.(w_out)).
Proof. done. Qed.
Lemma get_step {B} (k : Topic -> M (St := St) B) w : bind get_topic k w = k w.(w_topic) w.
Proof. done. Qed.
Lemma lift_inv {A} p (o : option A) (w w' : World St) a : lift_option p o w = (w', Ret a) -> o = Some a /\ w' = w.
Proof. destruct o; [|done]. by intros [= <- <-]. Qed.
Lemma default_access_inv a c (w w' : World St) m :
  default_access typesModeCP2P a c w = (w', Ret m) -> getDefaultAccess typesModeCP2P w.(w_topic).(t_cat) a c = Some m /\ w' = w.
Proof. apply lift_inv. Qed.
Lemma new_tags_inv set (w w' : World St) tags :
  new_tags IsLetter IsNumber IsDigit ToLowerFull maxTagCount immutableTagNS set w = (w', Ret tags) -> w' = w.
Proof. unfold new_tags. destruct (normalizeTags _ _ _ _ _) as [[|x l]|]; [by intros [= <-]| |by intros [= <-]]. destruct (restrictedTagsEqual _ _ _ _ _); [|done]. by intros [= <-]. Qed.
Lemma load_inv {A} (f : St -> St * (A + GoError)) w w' a :
  load f w = (w', Ret a) -> (f w.(w_store)).2 = inl a /\ w' = mkWorld w.(w_topic) (f w.(w_store)).1 w.(w_out).
Proof. unfold load, bind, call. destruct (f _) as [s [b|e]]; [|done]. cbn. intros [= <- <-]. done. Qed.
Lemma exec_inv (f : St -> St * option GoError) w w' :
  exec_quiet f w = (w', Ret tt) -> (f w.(w_store)).2 = None /\ w' = mkWorld w.(w_topic) (f w.(w_store)).1 w.(w_out).
Proof. unfold exec_quiet, bind, call. destruct (f _) as [s [e|]]; [done|]. cbn. intros [= <-]. done. Qed.

(** The owner's subscription is written after the topic. *)
Lemma topics_create_inv name r u want given private w w' :
  (0 < u < 2 ^ 64)%N -> topics_create name r u want given private w = (w', Ret tt) ->
  w'.(w_topic) = w.(w_topic) /\
  forall t v, row w'.(w_store) t v =
    if bool_decide (t = name /\ v = u)
    then Some (created_row (row w.(w_store) t v) (mkSub (UidString u) name (given &. want) ModeCFull private 0 0 [] 0 None))
    else row w.(w_store) t v.
Proof.
  intros Hu H. unfold topics_create in H. apply bind_ret_inv in H as (w1 & [] & [E1 ->]%exec_inv & H).
  unfold IsZeroUid, ZeroUid in H. rewrite (proj2 (N.eqb_neq u 0)) in H by lia. apply exec_inv in H as [E2 ->]. split; [done|].
  intros t v. cbn [w_store] in *. rewrite law_create, E2. cbn [s_Topic s_User]. rewrite ParseUid_String by lia.
  by rewrite law_topic_create.
Qed.

(** *** A new group *)

Definition parses (text : string) : Prop := snd (ParseAcs text) = None.
Definition readable_access (set : option JoinSet) : Prop :=
  match (set ≫= js_Desc) ≫= sd_DefaultAcs with Some (a, b) => parses a /\ parses b | None => True end.

Lemma unmarshal_parses m text : parses text -> snd (UnmarshalText m text) = None.
Proof. unfold parses, UnmarshalText. by destruct (ParseAcs text) as [m0 [e|]]. Qed.
Lemma new_group_access_owner set auth anon a b : readable_access set -> IsOwner auth = false -> IsOwner anon = false ->
  new_group_access ((set ≫= js_Desc) ≫= sd_DefaultAcs) auth anon = (a, b) -> IsOwner a = false /\ IsOwner b = false.
Proof.
  unfold readable_access, new_group_access. destruct ((set ≫= js_Desc) ≫= sd_DefaultAcs) as [[x y]|]; [|by intros _ ? ? [= <- <-]].
  intros [Hx%(unmarshal_parses auth) Hy%(unmarshal_parses anon)] H1 H2. unfold parseTopicAccess.
  assert (forall o m, (if IsOwner o || IsOwner m then (o &^ ModeOwner, m &^ ModeOwner) else (o, m)) = (a, b) -> IsOwner a = false /\ IsOwner b = false) as Hf.
  { intros o m E. destruct (IsOwner o || IsOwner m) eqn:Eo; injection E as <- <-; [by split; apply IsAdmin_ldiff_owner|by apply orb_false_iff]. }
  destruct (UnmarshalText auth x) as [mx ex], (UnmarshalText anon y) as [my ey]. cbn in Hx, Hy. subst ex ey.
  destruct (String.eqb x ""), (String.eqb y ""); apply Hf.
Qed.

(** What the creator wants is within what they are given, and keeps the group joinable and owned. *)
Lemma creator_want_sound set :
  IsJoiner (creator_want set) = true /\ IsOwner (creator_want set) = true /\ ModeCFull &. creator_want set = creator_want set.
Proof.
  unfold creator_want. destruct (set ≫= js_Sub) as [[x mode]|]; [|done]. destruct (String.eqb mode ""); [done|].
  autorewrite with bits. change (N.testbit ModeJoin 0) with true. change (N.testbit ModeOwner 7) with true.
  rewrite !orb_true_r. split_and!; [done|done|]. rewrite N.land_comm. change ModeCFull with (N.ones 8). rewrite N.land_ones.
  apply N.mod_small. destruct (UnmarshalText (N.ones 8) mode) as [m e] eqn:E. apply UnmarshalText_bound in E as [_ H].
  apply (lor_lt_256 m); [by apply H|done].
Qed.

(** The default access of a category with owners is without one. *)
Lemma default_no_owner isChan a m : getDefaultAccess typesModeCP2P TopicCatGrp a isChan = Some m -> IsOwner m = false.
Proof. by destruct a, isChan; intros [= <-]. Qed.

(** A run that creates a group, with what its steps chose. *)
Lemma initTopicNewGrp_inv j isChan w w' l u :
  j.(j_AsUser) = UserId u -> (0 < u < 2 ^ 64)%N ->
  initTopicNewGrp IsLetter IsNumber IsDigit ToLowerFull typesModeCP2P maxTagCount immutableTagNS now j isChan w = (w', Ret l) ->
  exists set a0 b0 a b private w1,
    j.(j_Sub) = Some set /\
    getDefaultAccess typesModeCP2P TopicCatGrp true isChan = Some a0 /\ getDefaultAccess typesModeCP2P TopicCatGrp false isChan = Some b0 /\
    new_group_access ((set ≫= js_Desc) ≫= sd_DefaultAcs) a0 b0 = (a, b) /\
    let want := creator_want set in
    let p := mkPud 0 0 0 [] 0 private want ModeCFull "" false false in
    let t := with_touched (put_user (with_access (set_owner (with_kind w.(w_topic) TopicCatGrp isChan) u) a b) u p) now in
    topics_create j.(j_RcptTo) (new_row now u a b isChan l.(l_Public) l.(l_Trusted) l.(l_Tags)) u want ModeCFull private (mkWorld t w.(w_store) w.(w_out)) =
      (w1, Ret tt) /\
    (w'.(w_store) = w1.(w_store) \/ exists name urls, w'.(w_store) = files_link name urls w1.(w_store)) /\ w'.(w_topic) = set_subCnt (with_original w1.(w_topic) w1.(w_topic).(t_name)) 1 /\
    l = mkLoaded l.(l_Public) l.(l_Trusted) l.(l_Tags) now now true true /\ (l.(l_Trusted) <> ANil -> j.(j_AuthLvl) = LevelRoot).
Proof.
  intros Ej Hu H. unfold initTopicNewGrp in H. rewrite Ej, ParseUserId_UserId, !modify_step in H by lia.
  apply bind_ret_inv in H as (w1 & a0 & [Ha ->]%default_access_inv & H).
  apply bind_ret_inv in H as (w1 & b0 & [Hb ->]%default_access_inv & H).
  apply bind_ret_inv in H as (w1 & set & [Hs ->]%lift_inv & H).
  destruct (negb _ && negb (j_AuthLvl j =? LevelRoot)) eqn:Et; [done|]. destruct (new_group_access _ _ _) as [a b] eqn:Eg.
  rewrite modify_step in H. apply bind_ret_inv in H as (w1 & tags & ->%new_tags_inv & H).
  rewrite modify_step in H. apply bind_ret_inv in H as (w1 & [] & Hc & H). rewrite get_step in H.
  apply bind_ret_inv in H as (w2 & [] & Hl & H). rewrite modify_step in H. injection H as <- <-.
  exists set, a0, b0, a, b. do 2 eexists. do 4 (split; [eassumption|]). split; [exact Hc|].
  assert (w_topic w2 = w_topic w1 /\ (w_store w2 = w_store w1 \/ exists name urls, w_store w2 = files_link name urls (w_store w1))) as [E2 E3].
  { destruct (j_Attachments j); injection Hl as <-; [by split; [|left]|]. split; [done|]. right. by do 2 eexists. }
  cbn [w_topic w_store l_Trusted]. rewrite E2. split_and!; [exact E3|done|done|]. intros Ht.
  destruct (default ANil _) in Et, Ht; try done; apply Z.eqb_eq; by destruct (j_AuthLvl j =? LevelRoot).
Qed.

(** creating a group makes the requester its owner, with full access, of which they keep at least joining and owning, in the
    topic and in the store alike; no other subscription changes; the trusted data is of root only; and the default access gives no
    ownership, as long as its texts can be read. *)
Theorem new_group_sound j isChan w w' l u :
  j.(j_AsUser) = UserId u -> (0 < u < 2 ^ 64)%N ->
  initTopicNewGrp IsLetter IsNumber IsDigit ToLowerFull typesModeCP2P maxTagCount immutableTagNS now j isChan w = (w', Ret l) ->
  let t := w'.(w_topic) in
  t.(owner) = u /\ t.(t_cat) = TopicCatGrp /\ t.(t_isChan) = isChan /\ t.(xoriginal) = t.(t_name) /\ (l.(l_Trusted) <> ANil -> j.(j_AuthLvl) = LevelRoot) /\
  (forall set, j.(j_Sub) = Some set -> readable_access set -> IsOwner t.(accessAuth) = false /\ IsOwner t.(accessAnon) = false) /\
  exists p s, t.(perUser) = <[u := p]> w.(w_topic).(perUser) /\ IsJoiner p.(modeWant) = true /\ IsOwner p.(modeWant) = true /\
    p.(modeGiven) = ModeCFull /\ live (row w'.(w_store) j.(j_RcptTo) u) = Some s /\ s.(s_ModeWant) = p.(modeWant) /\ s.(s_ModeGiven) = p.(modeGiven) /\
    (row w.(w_store) j.(j_RcptTo) u = None -> s.(s_Private) = p.(private)) /\
    forall name v, (name, v) <> (j.(j_RcptTo), u) -> row w'.(w_store) name v = row w.(w_store) name v.
Proof.
  intros Ej Hu H. destruct (initTopicNewGrp_inv _ _ _ _ _ _ Ej Hu H) as (set & a0 & b0 & a & b & priv & w1 & Hs & Ha & Hb & Hg & Hc & Hst & Et & _ & Htr).
  assert (same_rows w1 w') as Hr by (intros name v; destruct Hst as [->|(x & urls & ->)]; [done|apply law_link_files]).
  destruct (creator_want_sound set) as (HJ & HO & HF). apply topics_create_inv in Hc as [E1 E2]; [|done]. rewrite HF in E2. cbn [w_store w_topic] in E1, E2.
  cbn zeta. rewrite Et, E1. split_and!; try done.
  - intros set' Hs' Hok. rewrite Hs in Hs'. injection Hs' as <-. eapply (new_group_access_owner set a0 b0); [exact Hok|exact (default_no_owner _ _ _ Ha)|exact (default_no_owner _ _ _ Hb)|exact Hg].
  - eexists _, _. split; [reflexivity|]. do 3 (split; [done|]). rewrite Hr, E2, bool_decide_true by done.
    split; [reflexivity|]. split; [done|]. split; [done|]. split.
    + by intros ->.
    + intros name v Hne. rewrite Hr, E2, bool_decide_false; [done|]. intros [-> ->]. done.
Qed.

(** ** What is cached of the subscriptions *)

Definition member_of (sub : Subscription) : perUserData :=
  mkPud 0 sub.(s_RecvSeqId) sub.(s_ReadSeqId) sub.(s_ReadHistory) sub.(s_DelId) sub.(s_Private) sub.(s_ModeWant) sub.(s_ModeGiven) "" false false.
Definition mirrors (s : St) (t : Topic) : Prop :=
  forall u p, t.(perUser) !! u = Some p -> exists sub, live (row s t.(t_name) u) = Some sub /\ p = member_of sub.
Definition owned (s : St) (t : Topic) : Prop :=
  t.(owner) = ZeroUid \/ exists sub, live (row s t.(t_name) t.(owner)) = Some sub /\ IsOwner (sub.(s_ModeGiven) &. sub.(s_ModeWant)) = true.
(** Rows carry the id of their key, a word. *)
Definition keyed_rows (s : St) (name : string) : Prop :=
  forall u sub, live (row s name u) = Some sub -> (u < 2 ^ 64)%N /\ sub.(s_User) = UidString u.

Lemma load_one_member t u sub s : (u < 2 ^ 64)%N -> sub.(s_User) = UidString u -> live (row s t.(t_name) u) = Some sub -> mirrors s t ->
  let t' := load_one t sub in
  mirrors s t' /\ t'.(t_name) = t.(t_name) /\ t'.(perUser) !! u = Some (member_of sub) /\ t'.(official) = t.(official) /\ t'.(t_isChan) = t.(t_isChan) /\
  (t'.(owner) = t.(owner) \/ t'.(owner) = u /\ IsOwner (sub.(s_ModeGiven) &. sub.(s_ModeWant)) = true).
Proof.
  intros Hu Es Hl Hm. unfold load_one. rewrite Es, ParseUid_String by done. cbn zeta. fold (member_of sub).
  assert (mirrors s (put_user t u (member_of sub))) as Hm'.
  { intros v p. cbn. destruct (decide (v = u)) as [->|Hn]; [rewrite lookup_insert_eq|rewrite lookup_insert_ne by done; apply Hm].
    intros [= <-]. eauto. }
  destruct (IsOwner _) eqn:Eo; (split; [exact Hm'|]); cbn; (split_and!; [done|by rewrite lookup_insert_eq|done|done|auto]).
Qed.

Lemma load_one_keyed t u sub s : (u < 2 ^ 64)%N -> live (row s t.(t_name) u) = Some sub -> sub.(s_User) = UidString u -> mirrors s t -> owned s t ->
  let t' := load_one t (keyed t.(t_name) u sub) in mirrors s t' /\ owned s t' /\ t'.(t_name) = t.(t_name).
Proof.
  intros Hu Hl Es Hm Ho. replace (load_one t (keyed t.(t_name) u sub)) with (load_one t sub) by (unfold load_one, keyed; cbn; by rewrite Es).
  destruct (load_one_member t u sub s Hu Es Hl Hm) as (H1 & H2 & _ & _ & _ & H3). split_and!; [done| |done].
  unfold owned in *. rewrite H2. destruct H3 as [->|[-> H3]]; [exact Ho|]. right. eauto.
Qed.

(** What a topic is apart from its members. *)
Definition base (t : Topic) := (t.(t_name), t.(t_cat), t.(t_isChan), (t.(accessAuth), t.(accessAnon), t.(official)), t.(xoriginal)).
Definition same_base (w w' : World St) : Prop := base w'.(w_topic) = base w.(w_topic).
#[local] Instance same_base_preorder : PreOrder same_base.
Proof. split; [done|]. intros a b c H1 H2. unfold same_base in *. by rewrite H2. Qed.

Lemma base_of_same_topic {A} (m : M A) : frame (St := St) same_topic m -> frame same_base m.
Proof. intros H w. unfold same_base. by rewrite (H w). Qed.
Lemma base_modify f : (forall t, base (f t) = base t) -> frame same_base (modify f).
Proof. intros H w. apply H. Qed.
Lemma base_cache t sub : base (cacheSubscriber t sub) = base t.
Proof. unfold cacheSubscriber. destruct (IsZeroUid _); [done|]. by destruct (IsOwner _). Qed.
Lemma base_load_one t sub : base (load_one t sub) = base t.
Proof. unfold load_one. by destruct (IsOwner _). Qed.
Lemma base_load {A} (f : St -> St * (A + GoError)) : frame same_base (load f).
Proof. apply base_of_same_topic. unfold load. handler. Qed.
Lemma loadSubscribers_base : frame same_base (loadSubscribers (St := St)).
Proof.
  unfold loadSubscribers. apply frame_bind; [apply _|apply frame_get_topic, _|]. intros t. apply frame_bind; [apply _|apply base_load|].
  intros subs. apply base_modify. clear. induction subs as [|x subs IH]; [done|]. intros t. cbn. by rewrite IH, base_load_one.
Qed.
(** Every listed subscription is cached, and the owner among them. *)
Definition owner_cached (t : Topic) : Prop :=
  forall u p, t.(perUser) !! u = Some p -> IsOwner (p.(modeGiven) &. p.(modeWant)) = true ->
    exists q, t.(perUser) !! t.(owner) = Some q /\ IsOwner (q.(modeGiven) &. q.(modeWant)) = true.

Lemma load_one_entry t name u sub : (u < 2 ^ 64)%N ->
  (load_one t (keyed name u sub)).(perUser) = <[u := member_of sub]> t.(perUser) /\
  (load_one t (keyed name u sub)).(owner) = if IsOwner (sub.(s_ModeGiven) &. sub.(s_ModeWant)) then u else t.(owner).
Proof.
  intros Hu. unfold load_one. cbn [keyed s_User s_RecvSeqId s_ReadSeqId s_ReadHistory s_DelId s_Private s_ModeWant s_ModeGiven].
  rewrite ParseUid_String by done. cbn zeta. by destruct (IsOwner _).
Qed.

Lemma load_one_owner t s u sub : (u < 2 ^ 64)%N -> live (row s t.(t_name) u) = Some sub -> mirrors s t -> owner_cached t ->
  owner_cached (load_one t (keyed t.(t_name) u sub)).
Proof.
  intros Hu Hl Hm Ho v p. destruct (load_one_entry t t.(t_name) u sub Hu) as [-> ->]. intros Hp Hpo.
  destruct (IsOwner (s_ModeGiven sub &. s_ModeWant sub)) eqn:Es; [exists (member_of sub); by rewrite lookup_insert_eq|].
  apply lookup_insert_Some in Hp as [[<- <-]|[_ Hp]]; [cbn in Hpo; congruence|].
  destruct (Ho v p Hp Hpo) as (q & Hq & Hqo). exists q. split; [|done]. rewrite lookup_insert_ne; [done|]. intros Heq. rewrite <- Heq in Hq.
  destruct (Hm _ _ Hq) as (x & Hx & ->). rewrite Hx in Hl. injection Hl as ->. cbn in Hqo. congruence.
Qed.

Lemma load_all_entries s name l : forall t, t.(t_name) = name -> mirrors s t -> owner_cached t ->
  Forall (fun x => exists v y, (v < 2 ^ 64)%N /\ live (row s name v) = Some y /\ x = keyed name v y) l ->
  let t' := fold_left load_one l t in
  owner_cached t' /\ forall u sub, (u < 2 ^ 64)%N -> live (row s name u) = Some sub ->
    In (keyed name u sub) l \/ t.(perUser) !! u = Some (member_of sub) -> t'.(perUser) !! u = Some (member_of sub).
Proof.
  induction l as [|x l IH]; intros t Hn Hm Ho Hl; [split; [done|]; by intros u sub _ _ [[]|]|].
  apply Forall_cons in Hl as [(v & y & Hv & Hy & ->) Hl]. cbn [fold_left]. subst name.
  destruct (load_one_entry t t.(t_name) v y Hv) as [Ep Eo]. pose proof (load_one_owner t s v y Hv Hy Hm Ho) as Ho'.
  assert (mirrors s (load_one t (keyed t.(t_name) v y)) /\ t_name (load_one t (keyed t.(t_name) v y)) = t.(t_name)) as [Hm' En].
  { assert (t_name (load_one t (keyed t.(t_name) v y)) = t.(t_name)) as En by (unfold load_one; by destruct (IsOwner _)). split; [|done].
    intros w p. rewrite Ep, En. intros [[<- <-]|[_ Hw]]%lookup_insert_Some; [by exists y|by apply Hm]. }
  destruct (IH _ En Hm' Ho' Hl) as [H1 H2]. split; [done|]. intros u sub Hu Hs Hin. apply H2; [done|done|].
  rewrite Ep. destruct (decide (u = v)) as [->|Hne].
  { right. rewrite lookup_insert_eq. congruence. }
  rewrite lookup_insert_ne by done. destruct Hin as [[E|Hin]|Hp]; [|by left|by right].
  exfalso. apply Hne. apply (f_equal s_User) in E. cbn in E. by rewrite <- (ParseUid_String u), <- E, ParseUid_String.
Qed.

(** What the listing leaves out of the cache it leaves out for as many others as it may list. *)
Definition listed_all (s : St) (limit : nat) (t : Topic) : Prop :=
  forall u sub, live (row s t.(t_name) u) = Some sub ->
    t.(perUser) !! u = Some (member_of sub) \/ (limit <= size t.(perUser))%nat.

Lemma loadSubscribers_complete w w' :
  keyed_rows w.(w_store) w.(w_topic).(t_name) -> w.(w_topic).(perUser) = ∅ -> loadSubscribers w = (w', Ret tt) ->
  listed_all w.(w_store) (list_limit w.(w_store)) w'.(w_topic) /\ owner_cached w'.(w_topic).
Proof.
  intros Hk He H. pose proof (loadSubscribers_base w) as Hb. rewrite H in Hb. unfold same_base, base in Hb. cbn in Hb.
  unfold loadSubscribers in H. rewrite get_step in H. apply bind_ret_inv in H as (w1 & subs & [E ->]%load_inv & H).
  injection H as <-. cbn [w_topic w_store] in *. destruct (law_get_subs w.(w_topic).(t_name) None w.(w_store)) as [_ Hs]. specialize (Hs subs E).
  destruct (load_all_entries w.(w_store) w.(w_topic).(t_name) subs w.(w_topic)) as [H1 H2]; [done| | | |].
  - intros u p. by rewrite He.
  - intros u p. by rewrite He.
  - eapply Forall_impl; [exact Hs|]. intros x (u & sub & Hl & -> & _). destruct (Hk u sub Hl) as [Hu _]. by exists u, sub.
  - split; [|done]. intros u sub. injection Hb as -> _. intros Hl. destruct (Hk u sub Hl) as [Hu _].
    destruct (law_listing _ _ _ u sub E Hl) as [Hin|(us & Hn & Hlen & Hus)]; [left; apply H2; auto|right].
    rewrite <- Hlen, <- size_dom, <- (size_list_to_set (C := gset Uid) us) by done. apply subseteq_size. intros v Hv.
    apply elem_of_list_to_set, list_elem_of_In in Hv. destruct (Hus v Hv) as (x & Hx & Hin). destruct (Hk v x Hx) as [Hv' _].
    apply elem_of_dom. exists (member_of x). apply H2; auto.
Qed.

Lemma loadSubscribers_sound w w' :
  keyed_rows w.(w_store) w.(w_topic).(t_name) -> mirrors w.(w_store) w.(w_topic) -> owned w.(w_store) w.(w_topic) ->
  loadSubscribers w = (w', Ret tt) ->
  mirrors w.(w_store) w'.(w_topic) /\ owned w.(w_store) w'.(w_topic) /\ w'.(w_topic).(t_name) = w.(w_topic).(t_name).
Proof.
  intros Hk Hm Ho H. unfold loadSubscribers in H. rewrite get_step in H. apply bind_ret_inv in H as (w1 & subs & [E ->]%load_inv & H).
  injection H as <-. cbn [w_topic w_store]. destruct (law_get_subs w.(w_topic).(t_name) None w.(w_store)) as [_ Hs]. specialize (Hs subs E).
  clear E. revert Hs Hk Hm Ho. generalize (w_topic w). induction subs as [|x subs IH]; intros t Hs Hk Hm Ho; [done|].
  apply Forall_cons in Hs as [(u & sub & Hl & -> & _) Hs]. destruct (Hk u sub Hl) as [Hu Es].
  destruct (load_one_keyed t u sub _ Hu Hl Es Hm Ho) as (H1 & H2 & H3). cbn [fold_left].
  destruct (IH (load_one t (keyed t.(t_name) u sub))) as (H4 & H5 & H6); [by rewrite H3|by rewrite H3|done|done|].
  split_and!; [done|done|congruence].
Qed.

(** A run that has only read, and mirrors the store it began with. *)
Definition reading (s : St) (name : string) (w : World St) : Prop :=
  (forall t u, row w.(w_store) t u = row s t u) /\ w.(w_topic).(t_name) = name /\ mirrors s w.(w_topic).
Definition subscribed (s : St) (name : string) (u : Uid) : Prop := exists sub, live (row s name u) = Some sub.

Lemma loadSubscriber_sound s name at_ u w w' b : keyed_rows s name -> reading s name w -> loadSubscriber at_ u w = (w', Ret b) ->
  reading s name w' /\ (b = true -> subscribed s name u) /\
  (w'.(w_topic).(owner) = w.(w_topic).(owner) \/ w'.(w_topic).(owner) = u /\ owned s w'.(w_topic) /\ subscribed s name u).
Proof.
  intros Hk (Hr & <- & Hm) H. unfold loadSubscriber in H. rewrite get_step in H.
  destruct (IsZeroUid u) eqn:Ez; [injection H as <- <-; split_and!; (done || by left)|].
  destruct (match perUser _ !! u with Some pud => _ | None => _ end) eqn:Ec.
  { injection H as <- <-. split; [done|]. split; [intros _|by left]. destruct (perUser _ !! u) as [p|] eqn:Ep; [|done].
    destruct (Hm u p Ep) as (sub & Hl & _). by exists sub. }
  apply bind_ret_inv in H as (w1 & x & E & H). unfold call in E. destruct (subs_get _ _ _ _) as [s1 y] eqn:Eg. injection E as <- <-.
  destruct (law_get w.(w_topic).(t_name) u false w.(w_store)) as [L1 L2]. rewrite Eg in L1, L2. cbn [fst snd] in L1, L2.
  assert (forall t v, row s1 t v = row s t v) as Hr1 by (intros t v; by rewrite L1, Hr).
  destruct y as [[sub|]|e]; [|injection H as <- <-; split_and!; (done || by left)|done].
  specialize (L2 _ eq_refl). rewrite Hr in L2. symmetry in L2. destruct (Hk u sub L2) as [Hu Es].
  assert (cacheSubscriber w.(w_topic) sub = load_one w.(w_topic) sub) as Ecache.
  { unfold cacheSubscriber, load_one. by rewrite Es, ParseUid_String, Ez. }
  destruct (load_one_member w.(w_topic) u sub s Hu Es L2 Hm) as (H1 & H2 & _ & _ & _ & H3). rewrite <- Ecache in *. cbn zeta in H.
  apply bind_ret_inv in H as (w2 & [] & E & H). injection E as <-. injection H as <- <-. cbn [w_topic w_store].
  destruct (isOfficialLargeGroup _); (split; [done|]); (split; [intros _; by exists sub|]); cbn [owner set_refreshed]; (destruct H3 as [H3|[H3 H4]]; [by left|right]);
    (split; [done|]); (split; [right; cbn [t_name owner set_refreshed]; rewrite H2, H3; eauto|by exists sub]).
Qed.

Lemma loadSubscriber_caches s name at_ u w w' b : keyed_rows s name -> reading s name w -> loadSubscriber at_ u w = (w', Ret b) ->
  (forall v, is_Some (w.(w_topic).(perUser) !! v) -> is_Some (w'.(w_topic).(perUser) !! v)) /\
  (b = true -> is_Some (w'.(w_topic).(perUser) !! u)) /\ (subscribed s name u -> u <> ZeroUid -> b = true) /\
  (w'.(w_topic).(owner) = w.(w_topic).(owner) \/ w'.(w_topic).(owner) = u /\ b = true).
Proof.
  intros Hk (Hr & <- & Hm) H. unfold loadSubscriber in H. rewrite get_step in H.
  destruct (N.eqb_spec u 0) as [->|Hz]; [injection H as <- <-; split_and!; [done|done|by intros _ []|by left]|].
  assert (IsZeroUid u = false) as Ez by (by apply N.eqb_neq). rewrite Ez in H.
  destruct (match perUser _ !! u with Some pud => _ | None => _ end) eqn:Ec.
  { injection H as <- <-. split; [done|]. split; [intros _|split; [done|by left]]. by destruct (perUser _ !! u). }
  apply bind_ret_inv in H as (w1 & x & E & H). unfold call in E. destruct (subs_get _ _ _ _) as [s1 y] eqn:Eg. injection E as <- <-.
  destruct (law_get w.(w_topic).(t_name) u false w.(w_store)) as [L1 L2]. rewrite Eg in L1, L2. cbn [fst snd] in L1, L2.
  destruct y as [[sub|]|e]; [| |done]; specialize (L2 _ eq_refl); rewrite Hr in L2.
  - symmetry in L2. destruct (Hk u sub L2) as [Hu Es].
    assert (forall v, is_Some ((w_topic w).(perUser) !! v) -> is_Some ((cacheSubscriber (w_topic w) sub).(perUser) !! v)) as Hdom.
    { intros v Hv. unfold cacheSubscriber. rewrite Es, ParseUid_String, Ez by done. cbn zeta. destruct (IsOwner _); cbn;
        (destruct (decide (v = u)) as [->|]; [rewrite lookup_insert_eq; by eexists|by rewrite lookup_insert_ne]). }
    assert (is_Some ((cacheSubscriber (w_topic w) sub).(perUser) !! u) /\
      ((cacheSubscriber (w_topic w) sub).(owner) = (w_topic w).(owner) \/ (cacheSubscriber (w_topic w) sub).(owner) = u)) as [Hu1 Hu2].
    { unfold cacheSubscriber. rewrite Es, ParseUid_String, Ez by done. cbn zeta. destruct (IsOwner _); cbn; rewrite lookup_insert_eq; split; auto; by eexists. }
    apply bind_ret_inv in H as (w2 & [] & E & H). injection E as <-. injection H as <- <-. cbn [w_topic].
    destruct (isOfficialLargeGroup _); split_and!; auto; (destruct Hu2; [by left|by right]).
  - injection H as <- <-. split_and!; [done|done| |by left]. intros [sub Hs] _. unfold live in Hs. congruence.
Qed.

(** Who is cached of a large official group: its owner, and the one who joins if they are subscribed. *)
Definition large_cached (s : St) (o : Uid) (j : option JoinReq) (t : Topic) : Prop :=
  is_Some (t.(perUser) !! t.(owner)) /\ is_Some (t.(perUser) !! o) /\
  forall jn, j = Some jn -> ParseUserId jn.(j_AsUser) <> ZeroUid -> subscribed s t.(t_name) (ParseUserId jn.(j_AsUser)) ->
    is_Some (t.(perUser) !! ParseUserId jn.(j_AsUser)).

Lemma load_large_cached s name o j w w' : keyed_rows s name -> reading s name w -> load_large now o j w = (w', Ret tt) ->
  large_cached s o j w'.(w_topic).
Proof.
  intros Hk Hr H. unfold load_large in H. rewrite modify_step in H. destruct (IsZeroUid o) eqn:Ez; [done|].
  apply bind_ret_inv in H as (w1 & found & H1 & H). pose proof H1 as H1'.
  apply (loadSubscriber_caches s name) in H1 as (_ & Hf & _ & Ho); [|done|exact Hr].
  apply (loadSubscriber_sound s name) in H1' as (Hr1 & _ & _); [|done|exact Hr].
  destruct found; cbn [negb] in H; [|done]. specialize (Hf eq_refl).
  assert (w1.(w_topic).(owner) = o) as Ho1 by (destruct Ho as [Ho|[Ho _]]; exact Ho).
  destruct j as [j|]; [|injection H as <-; split; [by rewrite Ho1|by split]]. rewrite get_step in H. cbn zeta in H.
  destruct (N.eqb_spec (ParseUserId j.(j_AsUser)) w1.(w_topic).(owner)) as [Ej|Ej].
  { injection H as <-. split; [by rewrite Ho1|]. split; [done|]. intros jn [= <-] _ _. by rewrite Ej, Ho1. }
  apply bind_ret_inv in H as (w2 & b & H2 & H). injection H as <-. pose proof H2 as H2'.
  apply (loadSubscriber_caches s name) in H2 as (Hd & Hb & Hs & Ho2); [|done|done].
  apply (loadSubscriber_sound s name) in H2' as ((_ & En & _) & _ & _); [|done|done].
  split; [|split; [by apply Hd|]].
  - destruct Ho2 as [->|[-> Hb2]]; [apply Hd; by rewrite Ho1|by apply Hb].
  - intros jn [= <-] Hz Hsub. apply Hb, Hs; [by rewrite <- En|done].
Qed.

Lemma load_large_sound s name o j w w' : keyed_rows s name -> reading s name w -> load_large now o j w = (w', Ret tt) ->
  reading s name w' /\ subscribed s name w'.(w_topic).(owner).
Proof.
  intros Hk Hr H. unfold load_large in H. rewrite modify_step in H. destruct (IsZeroUid o); [done|].
  apply bind_ret_inv in H as (w1 & found & H1 & H). apply (loadSubscriber_sound s name) in H1 as (Hr1 & Hf & Ho); [|done|exact Hr].
  destruct found; cbn [negb] in H; [|done]. specialize (Hf eq_refl).
  assert (subscribed s name w1.(w_topic).(owner)) as Ho1 by (destruct Ho as [->|(-> & _ & Ho)]; [exact Hf|exact Ho]).
  destruct j as [j|]; [|by injection H as <-]. rewrite get_step in H. cbn zeta in H. destruct (_ =? _)%N; [by injection H as <-|].
  apply bind_ret_inv in H as (w2 & b & H2 & H). injection H as <-.
  apply (loadSubscriber_sound s name) in H2 as (Hr2 & _ & [->|(-> & _ & ?)]); done.
Qed.

Lemma loadSubscriber_base at_ u : frame same_base (loadSubscriber (St := St) at_ u).
Proof.
  intros w. unfold loadSubscriber. rewrite get_step. destruct (IsZeroUid u); [done|]. destruct (match _ with Some _ => _ | None => _ end); [done|].
  unfold bind, call. destruct (subs_get _ _ _ _) as [s1 [[sub|]|e]]; cbn; [|done|done]. unfold same_base. cbn.
  destruct (isOfficialLargeGroup _); apply base_cache.
Qed.
Lemma load_large_base o j : frame same_base (load_large (St := St) now o j).
Proof.
  unfold load_large. apply frame_bind; [apply _|by apply base_modify|]. intros _. pose proof loadSubscriber_base. handler.
Qed.

(** The members of a loaded group: what is cached is stored, and what is stored is cached as far as it is meant to be. *)
Definition members_loaded (s : St) (limit : nat) (b : bool) (o : Uid) (j : option JoinReq) (t : Topic) : Prop :=
  mirrors s t /\
  if b then subscribed s t.(t_name) t.(owner) /\ large_cached s o j t else owned s t /\ owner_cached t /\ listed_all s limit t.

Lemma group_members s (b : bool) o j w w' :
  (forall t u, row w.(w_store) t u = row s t u) -> keyed_rows s w.(w_topic).(t_name) -> w.(w_topic).(perUser) = ∅ -> w.(w_topic).(owner) = ZeroUid ->
  (if b then load_large now o j else loadSubscribers) w = (w', Ret tt) ->
  members_loaded s (list_limit w.(w_store)) b o j w'.(w_topic) /\ base w'.(w_topic) = base w.(w_topic).
Proof.
  intros Hr Hk He Ho H.
  assert (forall s', mirrors s' w.(w_topic)) as Hm by (intros s' u p; by rewrite He). destruct b.
  - pose proof (load_large_base o j w) as Hb. rewrite H in Hb. pose proof H as H'.
    apply (load_large_cached s w.(w_topic).(t_name)) in H'; [|done|by split_and!].
    apply (load_large_sound s w.(w_topic).(t_name)) in H as [(_ & Hn & Hm') Hs]; [|done|by split_and!].
    unfold members_loaded. by rewrite Hn.
  - pose proof (loadSubscribers_base w) as Hb. rewrite H in Hb.
    assert (keyed_rows w.(w_store) w.(w_topic).(t_name)) as Hk' by (intros u sub; rewrite Hr; apply Hk).
    destruct (loadSubscribers_complete w w' Hk' He H) as [Hl Hc].
    destruct (loadSubscribers_sound w w' Hk' (Hm _) (or_introl Ho) H) as (H1 & H2 & H3). split; [|exact Hb].
    split; [|split; [|split; [exact Hc|]]].
    + intros u p E. destruct (H1 u p E) as (sub & E1 & E2). exists sub. by rewrite <- Hr.
    + destruct H2 as [H2|(sub & E1 & E2)]; [by left|right; exists sub; by rewrite <- Hr].
    + intros u sub. rewrite <- Hr. apply Hl.
Qed.

(** C29: a loaded group is what the store says.  Every member it caches has a live subscription with the same modes, positions and
    private data.  Conversely every live subscription is cached, unless the group has as many members as the store lists at once, and if
    a cached member is given and wants the ownership, so does the owner, who is cached; of a large official group the
    owner named by the topic's row is cached, whoever is the owner is cached and subscribed, and so is the one who joins if they are subscribed.
    The owner, if there is one, has a live subscription that is given and wants the ownership, unless the group is large and official.
    Default access, channel, positions and count are the row's. *)
Theorem group_load_sound j w w' l :
  w.(w_topic).(perUser) = ∅ -> w.(w_topic).(owner) = ZeroUid -> keyed_rows w.(w_store) w.(w_topic).(t_name) ->
  initTopicGrp now officialPolicyFromAux j w = (w', Ret l) ->
  let s := w.(w_store) in let t := w'.(w_topic) in
  t.(t_name) = w.(w_topic).(t_name) /\ t.(t_cat) = TopicCatGrp /\
  exists r, (topics_read t.(t_name) s).2 = inl (Some r) /\
    members_loaded s (list_limit s) (isOfficialLargeGroup t) (ParseUid r.(ld_desc).(tp_Owner)) j t /\
    t.(t_isChan) = r.(ld_desc).(tp_UseBt) /\ t.(accessAuth) = r.(ld_desc).(tp_AccessAuth) /\
    t.(accessAnon) = r.(ld_desc).(tp_AccessAnon) /\ t.(lastID) = r.(ld_SeqId) /\ t.(t_delID) = r.(ld_DelId) /\ t.(subCnt) = r.(ld_desc).(tp_SubCnt).
Proof.
  intros He Ho Hk H. unfold initTopicGrp in H. rewrite modify_step, get_step in H. destruct (_ || _); [done|].
  apply bind_ret_inv in H as (w1 & cat & [_ ->]%lift_inv & H). destruct (negb _); [done|].
  apply bind_ret_inv in H as (w1 & sr & [Er ->]%load_inv & H). destruct sr as [r|]; [|done]. cbn zeta in H. rewrite modify_step in H.
  destruct (officialPolicyFromAux _ _) as [policy|e]; [|done]. rewrite modify_step, get_step in H. cbn [w_topic w_store] in H, Er.
  apply bind_ret_inv in H as (w2 & [] & Hm & H). rewrite !modify_step in H. injection H as <- _. cbn [w_topic].
  apply (group_members w.(w_store)) in Hm as (Hmem & Hb); [|by intros t u; apply law_topics_read|exact Hk|exact He|exact Ho].
  cbn [w_store] in Hmem. rewrite law_limit_read in Hmem.
  pose proof Hb as Hb'. unfold base in Hb'. cbn in Hb'. injection Hb' as Hn Hc Hi Ha Han Hof _.
  assert (forall t, isOfficialLargeGroup (with_original (set_subCnt (with_row t r) (tp_SubCnt (ld_desc r))) (t_name t)) = isOfficialLargeGroup t) as Hlg by done.
  cbn [t_name t_cat t_isChan accessAuth accessAnon lastID t_delID subCnt with_original set_subCnt with_row set_delID set_lastID].
  split; [exact Hn|]. split; [exact Hc|]. exists r. split; [rewrite Hn; exact Er|]. split; [|done].
  rewrite (Hlg w2.(w_topic)). unfold isOfficialLargeGroup at 1. rewrite Hi, Hof. exact Hmem.
Qed.

(** ** A new conversation *)

Definition within (m k : AccessMode) : Prop := m &. k = m.

Lemma within_masked m k : within ((m &. k) |. ModeApprove) (k |. ModeApprove).
Proof. unfold within. bits_solve. Qed.
Lemma within_approver m k : IsApprover ((m &. k) |. ModeApprove) = true.
Proof. autorewrite with bits. change (N.testbit ModeApprove 4) with true. apply orb_true_r. Qed.
Lemma parse_own u : (0 < u < 2 ^ 64)%N -> ParseUserId (UserId u) = u /\ HasPrefix (UserId u) "usr" = true.
Proof. intros H. split; [apply ParseUserId_UserId; lia|]. rewrite UserId_nonzero by lia. apply HasPrefix_append. Qed.

Lemma p2p_profiles_two u1 u2 l x : NoDup (map fst l) -> Forall (fun u => u = u1 \/ u = u2) (map fst l) -> p2p_profiles u1 l = Some x ->
  u1 <> u2 /\ (l = [(u1, x.1); (u2, x.2)] \/ l = [(u2, x.2); (u1, x.1)]).
Proof.
  clear IsLetter IsNumber IsDigit typesModeCP2P now. unfold p2p_profiles. destruct l as [|[a pa] [|[b pb] [|]]]; try done. cbn. rewrite !NoDup_cons, !Forall_cons, list_elem_of_singleton.
  intros (Hne & _) (Ha & Hb & _) E. destruct (N.eqb_spec a u1) as [->|Hn]; injection E as <-; cbn; destruct Ha, Hb; subst; intuition congruence.
Qed.

(** A run that makes a conversation, with what its steps chose. *)
Lemma p2p_create_inv j w w' fl u v :
  j.(j_AsUser) = UserId u -> (0 < u < 2 ^ 64)%N -> w.(w_topic).(xoriginal) = UserId v -> (0 < v < 2 ^ 64)%N ->
  p2p_create typesModeCP2P now j false [] w = (w', Ret fl) ->
  let name := w.(w_topic).(t_name) in
  exists users p1 p2 set, (users_get_all u v w.(w_store)).2 = inl users /\ u <> v /\ (v, p2) ∈ users /\
    let given := p2p_default typesModeCP2P j.(j_AuthLvl) p2 in
    let sub2 := mkSub (UidString v) name ((given &. typesModeCP2P) |. ModeApprove) (invited_sub typesModeCP2P name v p1 set).(s_ModeGiven) ANil 0 0 [] 0 None in
    let sub1 := requester_sub typesModeCP2P name u j.(j_AuthLvl) p2 (invited_sub typesModeCP2P name v p1 set) set in
    (forall t x, row w'.(w_store) t x =
       if bool_decide ((t, x) = (name, v)) then Some (created_row (row w.(w_store) name v) sub2)
       else if bool_decide ((t, x) = (name, u)) then Some (replaced_row sub1) else row w.(w_store) t x) /\
    w'.(w_topic) = put_user (put_user (with_touched w.(w_topic) now) u (p2p_user sub1 sub1.(s_Private) v)) v (p2p_user sub2 ANil u).
Proof.
  clear IsLetter IsNumber IsDigit. intros Eu Hu Ev Hv Hc. destruct (parse_own u Hu) as [Pu _], (parse_own v Hv) as [Pv _].
  unfold p2p_create in Hc. rewrite get_step, Eu, Pu, Ev, Pv in Hc. cbn zeta in Hc.
  apply bind_ret_inv in Hc as (w3 & users & [E3 ->]%load_inv & Hc). destruct (p2p_profiles u users) as [[p1 p2]|] eqn:Ep; [|done].
  destruct (law_get_all u v w.(w_store)) as [Hr Hl]. destruct (Hl users E3) as [Hn Hf]. destruct (p2p_profiles_two u v users _ Hn Hf Ep) as [Hne Hin].
  change (p2p_single u []) with (@None Subscription, @None Subscription) in Hc. cbv iota beta in Hc.
  apply bind_ret_inv in Hc as (w3 & sub2 & (w4 & set & [Es ->]%lift_inv & H2)%bind_ret_inv & Hc). injection H2 as <- <-.
  apply bind_ret_inv in Hc as (w3 & sub1 & (w4 & set' & [Es' ->]%lift_inv & H1)%bind_ret_inv & Hc). injection H1 as <- <-.
  rewrite Es in Es'. injection Es' as <-. apply bind_ret_inv in Hc as (w3 & [] & [Ec ->]%exec_inv & Hc). rewrite !modify_step in Hc. injection Hc as <- _.
  exists users, p1, p2, set. split; [exact E3|]. split; [exact Hne|]. split; [destruct Hin as [->| ->]; rewrite !elem_of_cons; tauto|]. cbn zeta. split; [|reflexivity].
  intros t x. cbn [w_store] in *. match type of Ec with (topic_create_p2p _ ?a ?b ?s).2 = _ =>
    pose proof (law_create_p2p now a b s t x) as E; assert (sub_key a = (w.(w_topic).(t_name), u)) as K1; [|assert (sub_key b = (w.(w_topic).(t_name), v)) as K2] end.
  1, 2: unfold sub_key; cbn [s_Topic s_User requester_sub invited_sub]; by rewrite ParseUid_String by lia.
  rewrite Ec, K1, K2 in E. etransitivity; [exact E|]. rewrite !Hr. cbn zeta. destruct (decide ((t, x) = (w.(w_topic).(t_name), v))) as [E2|E2].
  - injection E2 as -> ->. by rewrite (bool_decide_false ((_, v) = (_, u))), !bool_decide_true by congruence.
  - by rewrite !(bool_decide_false ((t, x) = (_, v))) by done.
Qed.

(** C28: a conversation that did not exist is made only between two different users whom the business policy lets talk; afterwards both
    have live subscriptions, with the modes that are cached; the requester is given the other's default access; the other is given, and
    wants, no more than the mode of conversations and approval, and always approval; nobody else's subscription changes. *)
Theorem new_conversation_sound j w w' l u v :
  j.(j_AsUser) = UserId u -> (0 < u < 2 ^ 64)%N -> w.(w_topic).(xoriginal) = UserId v -> (0 < v < 2 ^ 64)%N ->
  (topics_read w.(w_topic).(t_name) w.(w_store)).2 = inl None ->
  initTopicP2P typesModeCP2P now businessPolicy j w = (w', Ret l) ->
  let t := w'.(w_topic) in let s := w'.(w_store) in let limit := typesModeCP2P |. ModeApprove in
  u <> v /\ (forall policy, businessPolicy = Some policy -> policy u v (UserId v) = true) /\ t.(t_name) = w.(w_topic).(t_name) /\ t.(t_cat) = TopicCatP2P /\
  exists p q a b, t.(perUser) = <[v := q]> (<[u := p]> w.(w_topic).(perUser)) /\
    live (row s t.(t_name) u) = Some a /\ live (row s t.(t_name) v) = Some b /\
    a.(s_ModeWant) = p.(modeWant) /\ a.(s_ModeGiven) = p.(modeGiven) /\ b.(s_ModeWant) = q.(modeWant) /\ b.(s_ModeGiven) = q.(modeGiven) /\
    within q.(modeGiven) limit /\ within q.(modeWant) limit /\ IsApprover q.(modeGiven) = true /\ IsApprover q.(modeWant) = true /\
    (exists users profile, (users_get_all u v (topics_read w.(w_topic).(t_name) w.(w_store)).1).2 = inl users /\ (v, profile) ∈ users /\
       p.(modeGiven) = p2p_default typesModeCP2P j.(j_AuthLvl) profile) /\
    forall name x, (name, x) <> (t.(t_name), u) -> (name, x) <> (t.(t_name), v) -> row s name x = row w.(w_store) name x.
Proof.
  clear IsLetter IsNumber IsDigit. intros Eu Hu Ev Hv Hnone H. destruct (parse_own u Hu) as [Pu _], (parse_own v Hv) as [Pv Xv].
  unfold initTopicP2P in H. rewrite get_step, Ev in H. destruct (negb _) eqn:Ea; [done|]. rewrite modify_step in H.
  apply bind_ret_inv in H as (w1 & sr & [E1 ->]%load_inv & H). cbn [w_store w_topic t_name with_kind] in E1, H. rewrite Hnone in E1. injection E1 as <-.
  apply bind_ret_inv in H as (w2 & fl & Hc & H). rewrite modify_step in H. injection H as <- _.
  apply (p2p_create_inv _ _ _ _ u v) in Hc as (users & p1 & p2 & set & E3 & Hne & Hin & Hrow & Ht); [|done..].
  cbn [w_topic w_store with_original] in *. rewrite Ht. cbn [t_name t_cat perUser with_original put_user set_perUser with_touched set_lastID with_kind].
  split_and!; [exact Hne| |done|done|].
  - intros policy Epol. unfold p2p_allowed in Ea. rewrite Epol, Eu, Pu, Xv, Pv in Ea. apply negb_false_iff in Ea.
    by apply andb_true_iff in Ea as [_ ?].
  - do 4 eexists. split; [reflexivity|]. rewrite !Hrow. rewrite (bool_decide_false ((_, u) = (_, v))) by congruence. rewrite !bool_decide_true by done.
    do 2 (split; [reflexivity|]). do 4 (split; [reflexivity|]). cbn [modeGiven modeWant p2p_user s_ModeGiven s_ModeWant invited_sub].
    do 2 (split; [apply within_masked|]). do 2 (split; [apply within_approver|]). split; [by exists users, p2|].
    intros name x H1 H2. rewrite Hrow, !bool_decide_false by done. apply law_topics_read.
Qed.
End Init.

(** ** What is created is what is loaded *)

Lemma SubsForTopic_only (most : nat) (name : string) (subs : gmap (string * Uid) Subscription) (u : Uid) (s : Subscription) :
  (0 < most)%nat -> subs !! (name, u) = Some s -> s.(s_DeletedAt) = None -> (forall v, v <> u -> subs !! (name, v) = None) ->
  SubsForTopic most name None subs = [keyed name u s].
Proof.
  intros Hm Hs Hd Ho. unfold SubsForTopic. set (f := fun kv : string * Uid * Subscription => _).
  assert (Permutation (omap f (map_to_list subs)) [(u, keyed name u s)]) as Hp.
  { rewrite <- (insert_delete_id subs (name, u) s Hs), map_to_list_insert by apply lookup_delete_eq. cbn [omap list_omap]. unfold f at 1. cbn [fst snd].
    rewrite String.eqb_refl, Hd. cbn. apply perm_skip. destruct (omap f _) as [|y l] eqn:E; [done|]. exfalso.
    assert (In y (y :: l)) as Hy by by left. rewrite <- E in Hy. apply In_omap in Hy as ([[t v] x] & Hin & Hf).
    apply list_elem_of_In, elem_of_map_to_list, lookup_delete_Some in Hin as [Hne Hin]. unfold f in Hf. cbn [fst snd] in Hf.
    destruct (String.eqb_spec t name) as [->|]; [|done]. rewrite Ho in Hin; congruence. }
  replace (sort_by by_user (omap f (map_to_list subs))) with [(u, keyed name u s)]; [destruct most; [lia|]; cbn; by rewrite firstn_nil|].
  symmetry. apply Permutation_singleton_r. etransitivity; [apply sort_by_perm|exact Hp].
Qed.

(** *** The instance in memory *)

(** The row of the topic, and how many results the store gives. *)
Definition topic_rest (s : LoadMem) (name : string) := (s.(lm_hub).(hb_topics) !! name, s.(lm_rest) !! name, s.(lm_hub).(hb_max)).
Definition rest_of (r : StoredRow) (most : nat) := (Some r.(ld_desc), Some (r.(ld_TouchedAt), r.(ld_SeqId), r.(ld_DelId), r.(ld_Tags)), most).

Lemma mem_topic_made name r w w' :
  exec_quiet (topic_create name r) w = (w', Ret tt) -> topic_rest w'.(w_store) name = rest_of r w.(w_store).(lm_hub).(hb_max).
Proof.
  intros [E ->]%exec_inv. cbn [w_topic w_store] in *. unfold topic_create, LoadMemLoad in *.
  destruct (load_guarded_cases (mem_topic_create name r) w.(w_store)) as [(s' & H & E')|(s' & H & H' & E')]; rewrite E' in *; [done|].
  unfold mem_topic_create in *. destruct (hb_topics (lm_hub s') !! name); [done|]. unfold topic_rest. cbn. by rewrite !lookup_insert_eq, H'.
Qed.
Lemma mem_subs_create_rest sub (s : LoadMem) name : topic_rest (subs_create sub s).1 name = topic_rest s name.
Proof.
  unfold subs_create, LoadMemSubStore, on_hub. destruct (subs_create sub (lm_hub s)) as [h a] eqn:E.
  unfold subs_create, HubMemSubStore, on_del in E. destruct (subs_create sub (hb_del (lm_hub s))). by injection E as <- <-.
Qed.
Lemma mem_topics_made name r u want given private w w' : (0 < u)%N ->
  topics_create name r u want given private w = (w', Ret tt) -> topic_rest w'.(w_store) name = rest_of r w.(w_store).(lm_hub).(hb_max).
Proof.
  intros Hu H. unfold topics_create in H. apply bind_ret_inv in H as (w1 & [] & H1 & H). apply mem_topic_made in H1.
  unfold IsZeroUid, ZeroUid in H. rewrite (proj2 (N.eqb_neq u 0)) in H by lia. apply exec_inv in H as [_ ->]. cbn [w_store].
  by rewrite mem_subs_create_rest.
Qed.

(** A group of the store in memory is loaded if its policy can be read, here as no policy. *)
Lemma mem_group_read (s : LoadMem) name d rest most : topic_rest s name = (Some d, Some rest, most) -> GetTopicCat name = Some TopicCatGrp ->
  let r := topics_read name s in
  let '(touched, seq, del, tags) := rest in
  (exists n, r.2 = inl (Some (mkRow (with_SubCnt n d) touched seq del tags))) /\ rows_of r.1 = rows_of s /\ r.1.(lm_hub).(hb_max) = most.
Proof.
  intros [= Hd Hr Hm] Hc. destruct rest as [[[touched seq] del] tags]. unfold topics_read, LoadMemLoad, topics_get, LoadMemTopics, on_hub, topics_get, HubMemStore.
  destruct (TopicGet name (tdb_of (lm_hub s))) as [db o] eqn:E. unfold TopicGet in E. unfold tdb_of in E at 1. cbn [td_topics] in E.
  rewrite Hd, bool_decide_true in E by done. injection E as <- <-. cbn. rewrite Hr. cbn. split; [by eexists|]. by split.
Qed.

Lemma load_step {St A B} (f : St -> St * (A + GoError)) (k : A -> M (St := St) B) w a :
  (f w.(w_store)).2 = inl a -> bind (load f) k w = k a (mkWorld w.(w_topic) (f w.(w_store)).1 w.(w_out)).
Proof. intros E. unfold load, bind, call. destruct (f _) as [s r]. cbn in *. by rewrite E. Qed.

Section Reload.
Context (IsLetter IsNumber IsDigit : N -> bool) (ToLowerFull : string -> string).
Context (typesModeCP2P : AccessMode) (maxTagCount : nat) (immutableTagNS : list string) (now : Z).
Context (officialPolicyFromAux : string -> option (list (string * Any)) -> option officialTopicPolicy + GoError).

Lemma mem_loadSubscribers (w : World LoadMem) (name : string) (u : Uid) (sub : Subscription) :
  w.(w_topic).(t_name) = name -> (0 < w.(w_store).(lm_hub).(hb_max))%nat -> rows_of w.(w_store) !! (name, u) = Some sub -> sub.(s_DeletedAt) = None ->
  (forall v, v <> u -> rows_of w.(w_store) !! (name, v) = None) ->
  loadSubscribers w = (mkWorld (load_one w.(w_topic) (keyed name u sub)) w.(w_store) w.(w_out), Ret tt).
Proof.
  intros Hn Hm Hs Hd Ho. unfold loadSubscribers. rewrite get_step, Hn, (load_step _ _ w [keyed name u sub]).
  - unfold topics_get_subs, LoadMemTopics, on_hub. cbn. by destruct w as [t [] o].
  - unfold topics_get_subs, LoadMemTopics, on_hub. cbn. f_equal. by apply SubsForTopic_only.
Qed.

Lemma mem_group_loads j (w : World LoadMem) name d touched seq del tags most u sub :
  w.(w_topic).(t_name) = name -> GetTopicCat name = Some TopicCatGrp -> (3 < String.length name)%nat -> officialPolicyFromAux name d.(tp_Aux) = inl None ->
  topic_rest w.(w_store) name = (Some d, Some (touched, seq, del, tags), most) -> (0 < most)%nat -> (u < 2 ^ 64)%N ->
  rows_of w.(w_store) !! (name, u) = Some sub -> sub.(s_DeletedAt) = None -> IsOwner (sub.(s_ModeGiven) &. sub.(s_ModeWant)) = true ->
  (forall v, v <> u -> rows_of w.(w_store) !! (name, v) = None) ->
  exists w' l, initTopicGrp now officialPolicyFromAux j w = (w', Ret l) /\
    let t := w'.(w_topic) in
    t.(perUser) = <[u := member_of sub]> w.(w_topic).(perUser) /\ t.(owner) = u /\ t.(t_cat) = TopicCatGrp /\ t.(t_isChan) = d.(tp_UseBt) /\
    (t.(accessAuth), t.(accessAnon)) = (d.(tp_AccessAuth), d.(tp_AccessAnon)) /\ (t.(t_name), t.(xoriginal), t.(lastID), t.(t_delID)) = (name, name, seq, del) /\
    l = mkLoaded d.(tp_Public) d.(tp_Trusted) tags d.(tp_CreatedAt) d.(tp_UpdatedAt) false false.
Proof.
  intros Hn Hc Hlen Hpol Hrest Hmost Hu Hsub Hlive Hown Hothers.
  destruct (mem_group_read w.(w_store) name d (touched, seq, del, tags) most Hrest Hc) as ([n Hr] & Hrows & Hmax).
  unfold initTopicGrp. rewrite modify_step, get_step. cbn [w_topic t_name with_kind]. rewrite Hn.
  rewrite (proj2 (Nat.leb_gt _ _)) by lia. destruct (String.eqb_spec name "") as [->|_]; [cbn in Hlen; lia|]. cbn [orb].
  rewrite Hc. change (bind (lift_option _ (Some TopicCatGrp)) ?k ?w) with (k TopicCatGrp w). cbv beta. change (negb (cat_eqb TopicCatGrp TopicCatGrp)) with false. cbv iota.
  rewrite (load_step (topics_read name) _ (mkWorld _ w.(w_store) _) _ Hr). cbn zeta. rewrite modify_step.
  cbn [w_topic w_store w_out ld_desc ld_SeqId ld_DelId ld_Tags with_SubCnt tp_Aux]. rewrite Hpol, modify_step, get_step.
  cbn [w_topic w_store w_out]. change (isOfficialLargeGroup (set_official ?t None now)) with false. cbv iota. unfold bind at 1.
  rewrite (mem_loadSubscribers _ name u sub), !modify_step; cbn [w_topic w_store w_out]; [|by rewrite ?Hrows, ?Hmax; eauto..].
  unfold load_one. cbn [s_User keyed]. rewrite ParseUid_String by lia. cbn [s_ModeGiven s_ModeWant keyed]. rewrite Hown.
  do 2 eexists. split; [reflexivity|]. cbn. rewrite Hn. by split_and!.
Qed.

(** a group that was just created is loaded, by any later join, as it was created: the same members with the same modes and private
    data, the same owner, default access, kind and name, and the same public and trusted data, tags and times. *)
Theorem created_group_reloads j j' isChan (w w' : World LoadMem) l u t0 :
  let name := j.(j_RcptTo) in
  j.(j_AsUser) = UserId u -> (0 < u < 2 ^ 64)%N -> GetTopicCat name = Some TopicCatGrp -> (3 < String.length name)%nat ->
  w.(w_topic).(t_name) = name -> w.(w_topic).(perUser) = ∅ -> (0 < w.(w_store).(lm_hub).(hb_max))%nat -> (forall v, row w.(w_store) name v = None) ->
  officialPolicyFromAux name None = inl None ->
  initTopicNewGrp IsLetter IsNumber IsDigit ToLowerFull typesModeCP2P maxTagCount immutableTagNS now j isChan w = (w', Ret l) ->
  t0.(t_name) = name -> t0.(perUser) = ∅ ->
  exists w'' l', initTopicGrp now officialPolicyFromAux j' (mkWorld t0 w'.(w_store) []) = (w'', Ret l') /\
    let t := w'.(w_topic) in let t' := w''.(w_topic) in
    t'.(perUser) = t.(perUser) /\ t'.(owner) = t.(owner) /\ t'.(t_cat) = t.(t_cat) /\ t'.(t_isChan) = t.(t_isChan) /\
    (t'.(accessAuth), t'.(accessAnon)) = (t.(accessAuth), t.(accessAnon)) /\ (t'.(t_name), t'.(xoriginal)) = (t.(t_name), t.(xoriginal)) /\
    l' = mkLoaded l.(l_Public) l.(l_Trusted) l.(l_Tags) l.(l_Created) l.(l_Updated) false false.
Proof.
  intros name Ej Hu Hc Hlen Hn He Hmost Hno Hpol H Hn0 He0.
  destruct (initTopicNewGrp_inv _ _ _ _ _ _ _ _ _ _ _ _ _ _ Ej Hu H) as (set & a0 & b0 & a & b & priv & w1 & _ & _ & _ & _ & Hcreate & Hst & Et & El & _).
  destruct (creator_want_sound set) as (_ & HO & HF). assert (0 < u)%N as Hu0 by lia. pose proof (mem_topics_made _ _ _ _ _ _ _ _ Hu0 Hcreate) as Hrest.
  apply topics_create_inv in Hcreate as [E1 E2]; [|done]. rewrite HF in E2. cbn [w_store w_topic] in *.
  assert (rows_of w'.(w_store) = rows_of w1.(w_store) /\ topic_rest w'.(w_store) name = topic_rest w1.(w_store) name) as [Hrows Hrest'].
  { destruct Hst as [->|(x & urls & ->)]; done. }
  fold name in Hrest. rewrite <- Hrest' in Hrest.
  assert (forall v, rows_of w'.(w_store) !! (name, v) = row w1.(w_store) name v) as Hv by (intros v; by rewrite Hrows).
  set (r := new_row _ _ _ _ _ _ _ _) in Hrest.
  edestruct (fun sub => mem_group_loads j' (mkWorld t0 w'.(w_store) []) name r.(ld_desc) r.(ld_TouchedAt) r.(ld_SeqId) r.(ld_DelId) r.(ld_Tags) _ u sub Hn0 Hc Hlen Hpol Hrest Hmost (proj2 Hu)) as (w'' & l' & Hl & Hf).
  - cbn [w_store]. rewrite Hv, E2, bool_decide_true, Hno by done. reflexivity.
  - done.
  - cbn [s_ModeGiven s_ModeWant created_row]. by rewrite HF.
  - intros v Hne. cbn [w_store]. by rewrite Hv, E2, bool_decide_false, Hno by (by intros [_ ?]).
  - exists w'', l'. split; [exact Hl|]. cbn zeta in *. destruct Hf as (F1 & F2 & F3 & F4 & F5 & F6 & F7). injection F5 as F5 F5'. injection F6 as F6 F6' _ _.
    rewrite F1, F2, F3, F4, F5, F5', F6, F6', F7, Et, E1, El. cbn. rewrite He, He0, Hn. done.
Qed.
End Reload.
