(* ===== verification/InitRuns.v ===== *)
(** * InitRuns: loading and creating topics at concrete inputs

    The properties of [InitProps] applied, and what the code may not mean to do. *)

From Stdlib Require Import NArith ZArith Lia List Ascii String Bool.
From stdpp Require Import base tactics numbers list strings gmap sets.
From S2P Require Import Prelude AccessMode Uid StoreTypes Fence Messages Cluster SubStore Utils PubStore History TopicStore LoadStore Topic TopicSubProps TopicInit InitProps.
Import Objects Ranges.
Import Topic.

#[local] Open Scope string_scope.
#[local] Open Scope Z_scope.

(** ** A store of three users *)

Definition unloaded (name original : string) : Topic :=
  mkTopic name original TopicCatMe false 0 0 0 0 0 0%N "" None 0 ∅ 0 0 ∅ ∅ 0 0 None ∅ ∅ false None.
Definition a_user : StoredProfile := mkProfile 0 1 1 ANil ANil ModeCAuth ModeNone.
Definition load_store (subs : gmap (string * Uid) Subscription) (topics : gmap string StoredDesc) (most : nat) (sub_faults faults : list bool) : LoadMem :=
  mkLoadMem (mkHubMem (mkDelMem (mkPubMem (mkMem subs ∅ ∅ ∅ None sub_faults) (mkDB ∅ ∅ []) [] 500%N ∅ [] ∅ [] []) [] ∅ [] [])
               topics [] {[ 1%N := a_user; 2%N := a_user; 3%N := a_user ]} most []) ∅ [] faults.
Definition fresh_store : LoadMem := load_store ∅ ∅ 10 [] [].
Definition join_of (u : Uid) (name : string) (set : option JoinSet) : JoinReq :=
  mkJoin (UserId u) LevelAuth name (Some (mkSession "s" u ProtoClient false None)) "ua" (Some set) [].
Definition of_any (_ : string) (_ : option (list (string * Any))) : option officialTopicPolicy + GoError := inl None.
Definition anyone (_ : N) : bool := true.
Definition same_text (s : string) : string := s.
Definition init_run (name original : string) (u : Uid) (set : option JoinSet) (s : LoadMem) : World LoadMem * Res Loaded :=
  topicInit anyone anyone anyone same_text ModeCP2P 10 [] 1000 of_any (fun a => a) None (join_of u name set) (mkWorld (unloaded name original) s []).

Definition failed_with {A} (r : Res A) : option GoError := match r with Err e => Some e | _ => None end.
Definition cached (r : World LoadMem * Res Loaded) (u : Uid) : option (string * string * Any * Z) :=
  (fun p => (ModeString p.(modeWant), ModeString p.(modeGiven), p.(private), p.(readID))) <$> r.1.(w_topic).(perUser) !! u.
Definition stored (s : LoadMem) (name : string) (u : Uid) : option (string * string * Any * Z) :=
  (fun x => (ModeString x.(s_ModeWant), ModeString x.(s_ModeGiven), x.(s_Private), x.(s_ReadSeqId))) <$> live (row s name u).

Definition group_set (acs : string * string) : JoinSet :=
  mkJoinSet (Some (mkSetDesc (Some acs) (AStr "group") ANil (AStr "mine"))) (Some ("", "RW")) None.
Definition new_group (acs : string * string) (s : LoadMem) := init_run "grpB" "newB" 1 (Some (group_set acs)) s.
Definition group_world : World LoadMem := mkWorld (unloaded "grpB" "newB") fresh_store [].
Definition group_join : JoinReq := join_of 1 "grpB" (Some (group_set ("JRW", "N"))).
Definition group_made := initTopicNewGrp anyone anyone anyone same_text ModeCP2P 10 [] 1000 group_join false group_world.
Definition pair12 : string := P2PName 1 2.
Definition chat_world : World LoadMem := mkWorld (unloaded pair12 (UserId 2)) fresh_store [].
Definition chat_join : JoinReq := join_of 1 pair12 (Some (mkJoinSet (Some (mkSetDesc None ANil ANil (AStr "note"))) None None)).
Definition chat_made := initTopicP2P ModeCP2P 1000 None chat_join chat_world.
Definition chat_store : LoadMem := chat_made.1.(w_store).
Definition with_sub (u : Uid) (x : SubUpdate) (s : LoadMem) : LoadMem := (subs_update pair12 u x s).1.
Definition leaves (u : Uid) (s : LoadMem) : LoadMem := (subs_delete pair12 u s).1.

(** ** The properties applied *)

Definition returned {A} (d : A) (r : Res A) : A := match r with Ret a => a | _ => d end.
Definition no_data : Loaded := mkLoaded ANil ANil None 0 0 false false.

Lemma group_made_ret : group_made = (group_made.1, Ret (returned no_data group_made.2)).
Proof. vm_compute. reflexivity. Qed.
Lemma chat_made_ret : chat_made = (chat_made.1, Ret (returned no_data chat_made.2)).
Proof. vm_compute. reflexivity. Qed.

(** The subscription of the owner cannot be written. *)
Definition half_made := new_group ("JRW", "N") (load_store ∅ ∅ 10 [true] []).
Lemma half_made_err : half_made = (half_made.1, Err (TextErr "connection lost")).
Proof. vm_compute. reflexivity. Qed.

Lemma failed_load_witness : row half_made.1.(w_store) "grpB" 1 = None /\ failed_with half_made.2 = Some (TextErr "connection lost").
Proof.
  split; [|by rewrite half_made_err].
  exact (failed_load_changes_nothing anyone anyone anyone same_text ModeCP2P 10 [] 1000 of_any (fun a => a) None _ _ _ _ half_made_err "grpB" 1%N).
Defined.

Lemma new_group_witness : group_made.1.(w_topic).(owner) = 1%N /\ IsOwner group_made.1.(w_topic).(accessAuth) = false.
Proof.
  destruct (new_group_sound anyone anyone anyone same_text ModeCP2P 10 [] 1000 group_join false group_world _ _ 1%N eq_refl ltac:(lia) group_made_ret)
    as (H1 & _ & _ & _ & _ & H2 & _).
  split; [exact H1|]. apply (H2 _ eq_refl). split; reflexivity.
Defined.

Lemma created_group_witness : exists w l, initTopicGrp 1000 of_any None (mkWorld (unloaded "grpB" "grpB") group_made.1.(w_store) []) = (w, Ret l) /\
  w.(w_topic).(perUser) = group_made.1.(w_topic).(perUser) /\ l.(l_Public) = AStr "group".
Proof.
  destruct (created_group_reloads anyone anyone anyone same_text ModeCP2P 10 [] 1000 of_any group_join None false group_world _ _ 1%N (unloaded "grpB" "grpB")
    eq_refl ltac:(lia) ltac:(reflexivity) ltac:(cbn; lia) eq_refl eq_refl ltac:(cbn; lia) ltac:(reflexivity) eq_refl group_made_ret eq_refl eq_refl)
    as (w & l & H & H1 & _ & _ & _ & _ & _ & H2).
  exists w, l. split; [exact H|]. split; [exact H1|]. rewrite H2. vm_compute. reflexivity.
Defined.

Lemma new_conversation_witness : exists p q, chat_made.1.(w_topic).(perUser) = <[2%N := q]> (<[1%N := p]> ∅) /\
  IsApprover q.(modeGiven) = true /\ within q.(modeWant) (ModeCP2P |. ModeApprove).
Proof.
  destruct (new_conversation_sound ModeCP2P 1000 None chat_join chat_world _ _ 1%N 2%N eq_refl ltac:(lia) eq_refl ltac:(lia) ltac:(vm_compute; reflexivity) chat_made_ret)
    as (_ & _ & _ & _ & p & q & a & b & H & _ & _ & _ & _ & _ & _ & _ & H1 & H2 & _).
  exists p, q. split; [exact H|]. split; [exact H2|exact H1].
Defined.

(** A group of which the store lists two subscribers at most. *)
Definition crowd : gmap (string * Uid) Subscription := list_to_map
  [(("grpB", 1%N), mkSub (UidString 1) "grpB" 3 3 ANil 0 0 [] 0 None); (("grpB", 2%N), mkSub (UidString 2) "grpB" 3 3 ANil 0 0 [] 0 None);
   (("grpB", 3%N), mkSub (UidString 3) "grpB" ModeCFull ModeCFull ANil 0 0 [] 0 None)].
Definition crowd_store (most : nat) : LoadMem := load_store crowd {[ "grpB" := mkStored 0 1 1 ANil ANil false 3 (UidString 3) ModeCPublic 0 None ]} most [] [].
Definition crowd_world (most : nat) : World LoadMem := mkWorld (unloaded "grpB" "grpB") (crowd_store most) [].
Definition crowd_loaded (most : nat) := initTopicGrp 1000 of_any None (crowd_world most).

Lemma crowd_keyed most : keyed_rows (crowd_world most).(w_store) "grpB".
Proof.
  intros u sub H. change (live (crowd !! ("grpB", u)) = Some sub) in H. destruct (crowd !! ("grpB", u)) as [s|] eqn:E; [|done].
  apply elem_of_list_to_map_2 in E. rewrite !elem_of_cons, elem_of_nil in E.
  destruct E as [E|[E|[E|[]]]]; injection E as -> ->; injection H as <-; by split.
Qed.
Lemma crowd_loaded_ret : crowd_loaded 10 = ((crowd_loaded 10).1, Ret (returned no_data (crowd_loaded 10).2)).
Proof. vm_compute. reflexivity. Qed.

Lemma group_load_witness :
  mirrors (crowd_store 10) (crowd_loaded 10).1.(w_topic) /\ listed_all (crowd_store 10) 10 (crowd_loaded 10).1.(w_topic) /\
  (crowd_loaded 10).1.(w_topic).(owner) = 3%N.
Proof.
  assert (isOfficialLargeGroup (crowd_loaded 10).1.(w_topic) = false) as Eb by (vm_compute; reflexivity).
  assert ((crowd_loaded 10).1.(w_topic).(owner) = 3%N) as Eo by (vm_compute; reflexivity).
  pose proof (group_load_sound 1000 of_any None (crowd_world 10) _ _ eq_refl eq_refl (crowd_keyed 10) crowd_loaded_ret) as Hg.
  revert Hg Eb Eo. generalize (crowd_loaded 10).1.(w_topic). intros t (_ & _ & r & _ & Hm & _) Et Eo.
  unfold members_loaded in Hm. rewrite Et in Hm. destruct Hm as (Hm & _ & _ & Hl).
  split; [exact Hm|]. split; [exact Hl|exact Eo].
Defined.

(** ** What the code may not mean to do *)

(** One text of the default access that cannot be read keeps the ownership the other gives; an unreadable text is not "none". *)
Lemma unreadable_access_owner :
  IsOwner (new_group ("JRWO", "bogus") fresh_store).1.(w_topic).(accessAuth) = true /\
  IsOwner (new_group ("JRWO", "N") fresh_store).1.(w_topic).(accessAuth) = false /\
  (new_group ("bogus", "") fresh_store).1.(w_topic).(accessAuth) = ModeCPublic.
Proof. vm_compute. done. Qed.

(** The topic was made, the owner's subscription was not: the group is loaded later, without an owner. *)
Lemma half_made_group :
  let again := init_run "grpB" "grpB" 2 None half_made.1.(w_store) in
  failed_with half_made.2 = Some (TextErr "connection lost") /\ failed_with again.2 = None /\ again.1.(w_topic).(owner) = ZeroUid.
Proof. vm_compute. done. Qed.

(** A conversation that was softly deleted cannot be started again. *)
Lemma deleted_conversation_dead :
  failed_with (init_run pair12 (UserId 2) 1 None (topics_delete pair12 false false 5 chat_store).1).2 = Some (StoreErr ErrInternal).
Proof. vm_compute. done. Qed.

(** A group that was softly deleted is loaded, for anybody to join as its default access says. *)
Lemma deleted_group_loads :
  let s := (topics_delete "grpB" false false 5 (new_group ("JRW", "N") fresh_store).1.(w_store)).1 in
  let again := init_run "grpB" "grpB" 2 None s in
  (tp_State <$> s.(lm_hub).(hb_topics) !! "grpB") = Some StateDeleted /\ failed_with again.2 = None /\ IsJoiner again.1.(w_topic).(accessAuth) = true.
Proof. vm_compute. done. Qed.

(** When the peer comes back, the private data of the one who stayed is not cached. *)
Lemma private_of_other_not_cached :
  let again := init_run pair12 (UserId 2) 1 None (leaves 2 chat_store) in
  cached again 1 = Some ("JRWPA", "JRWPAS", ANil, 0) /\ stored again.1.(w_store) pair12 1 = Some ("JRWPA", "JRWPAS", AStr "note", 0).
Proof. vm_compute. done. Qed.

(** The subscription of a peer who left is put back by the other: without its private data, and with positions that are not cached. *)
Lemma peer_put_back :
  let s := with_sub 2 (mkUpdate None None (Some (AStr "hers")) None (Some 7) None None) chat_store in
  let again := init_run pair12 (UserId 2) 1 None (leaves 2 s) in
  stored s pair12 2 = Some ("JRWPA", "JRWPA", AStr "hers", 7) /\ live (row (leaves 2 s) pair12 2) = None /\
  cached again 2 = Some ("JRWPA", "JRWPA", ANil, 0) /\ stored again.1.(w_store) pair12 2 = Some ("JRWPA", "JRWPA", ANil, 7).
Proof. vm_compute. done. Qed.

(** Who is given nothing leaves, and comes back with the default access. *)
Lemma ban_is_left_behind :
  let s := with_sub 2 (mkUpdate None (Some ModeNone) None None None None None) chat_store in
  let again := init_run pair12 (UserId 1) 2 None (leaves 2 s) in
  stored s pair12 2 = Some ("JRWPA", "N", ANil, 0) /\ stored again.1.(w_store) pair12 2 = Some ("JRWPAS", "JRWPAS", ANil, 0).
Proof. vm_compute. done. Qed.

(** The update that puts a subscription back fails: the load does not. *)
Lemma failed_restore_cached :
  let again := init_run pair12 (UserId 2) 1 None (leaves 2 (mkLoadMem chat_store.(lm_hub) chat_store.(lm_rest) [] [false; true])) in
  failed_with again.2 = None /\ cached again 2 = Some ("JRWPA", "JRWPA", ANil, 0) /\ stored again.1.(w_store) pair12 2 = None.
Proof. vm_compute. done. Qed.

(** The access given to the owner of the notes to self changes with the first load. *)
Lemma own_notes_given :
  let made := init_run "slfA" "slf" 1 None fresh_store in
  cached made 1 = Some ("JRWDO", "JRWDO", ANil, 0) /\
  cached (init_run "slfA" "slf" 1 None made.1.(w_store)) 1 = Some ("JRWDO", "JRWPASDO", ANil, 0).
Proof. vm_compute. done. Qed.

(** The owner is beyond what the store lists at once. *)
Lemma owner_not_listed : (crowd_loaded 2).1.(w_topic).(owner) = ZeroUid /\ (crowd_loaded 2).1.(w_topic).(perUser) !! 3%N = None /\ (crowd_loaded 10).1.(w_topic).(owner) = 3%N.
Proof. vm_compute. done. Qed.

(** A message that is due wakes its topic under the topic's name: the notes to self are not found so, nor a conversation one has left. *)
Lemma due_message_cannot_load :
  failed_with (init_run "slfA" "slfA" 1 None (init_run "slfA" "slf" 1 None fresh_store).1.(w_store)).2 = Some (StoreErr ErrTopicNotFound) /\
  failed_with (init_run pair12 pair12 1 None (leaves 2 chat_store)).2 = Some (StoreErr ErrUserNotFound).
Proof. vm_compute. done. Qed.
