(* ===== verification/ClientBase.v ===== *)
(** * ClientBase: sessions of clients, their messages and what they reach

    internal/server/session.go and datamodel.go: the state of a session, the messages a client sends, the replies of ctrl_messages.go
    that [Messages] has not, what a session sends to topics and to the hub as effects, and the computations [CM] of a session.  The class
    [Accounts] is the rest of the program as a session sees it: the authenticators and validators (the interfaces AuthHandler and
    Validator of server/auth and server/validate), the store of users and devices, the queues of the hub and of topics. *)

From Stdlib Require Import NArith ZArith Lia List Ascii String Bool.
From stdpp Require Import base tactics numbers list strings gmap sets.
From S2P Require Import Prelude AccessMode Uid StoreTypes Messages Utils SendQueue SubStore TopicStore Topic.
Import Objects Ranges.
Import Utils.Slices.

#[local] Open Scope string_scope.
#[local] Open Scope Z_scope.

(** ** Sessions *)

(** [Session] as its own goroutine sees it; [cs_subs] are the topics it is attached to, [cs_multi] is [s.multi != nil]. *)
Record ClientSession := mkClient {
  cs_proto : SessionProto; cs_sid : string; cs_wsBinary : bool; cs_multi : bool; cs_remoteAddr : string; cs_terminating : bool;
  cs_ver : Z; cs_userAgent : string; cs_platf : string; cs_deviceID : string; cs_lang : string; cs_countryCode : string;
  cs_uid : Uid; cs_authLvl : Z; cs_subs : gset string }.

Definition with_hello (s : ClientSession) (ver : Z) (ua platf : string) : ClientSession :=
  mkClient s.(cs_proto) s.(cs_sid) s.(cs_wsBinary) s.(cs_multi) s.(cs_remoteAddr) s.(cs_terminating) ver ua platf s.(cs_deviceID) s.(cs_lang)
    s.(cs_countryCode) s.(cs_uid) s.(cs_authLvl) s.(cs_subs).
Definition with_device (s : ClientSession) (deviceID lang country : string) : ClientSession :=
  mkClient s.(cs_proto) s.(cs_sid) s.(cs_wsBinary) s.(cs_multi) s.(cs_remoteAddr) s.(cs_terminating) s.(cs_ver) s.(cs_userAgent) s.(cs_platf)
    deviceID lang country s.(cs_uid) s.(cs_authLvl) s.(cs_subs).
Definition with_identity (s : ClientSession) (u : Uid) (lvl : Z) : ClientSession :=
  mkClient s.(cs_proto) s.(cs_sid) s.(cs_wsBinary) s.(cs_multi) s.(cs_remoteAddr) s.(cs_terminating) s.(cs_ver) s.(cs_userAgent) s.(cs_platf)
    s.(cs_deviceID) s.(cs_lang) s.(cs_countryCode) u lvl s.(cs_subs).
Definition with_subs (s : ClientSession) (subs : gset string) : ClientSession :=
  mkClient s.(cs_proto) s.(cs_sid) s.(cs_wsBinary) s.(cs_multi) s.(cs_remoteAddr) s.(cs_terminating) s.(cs_ver) s.(cs_userAgent) s.(cs_platf)
    s.(cs_deviceID) s.(cs_lang) s.(cs_countryCode) s.(cs_uid) s.(cs_authLvl) subs.

(** [getSub] *)
Definition getSub (s : ClientSession) (topic : string) : bool := bool_decide (topic ∈ s.(cs_subs)).

(** ** Messages of clients *)

(** [MsgGetOpts] but for the user, the date and the upper end. *)
Record GetOpts := mkGetOpts { go_SinceId : Z; go_Limit : Z; go_Forward : bool }.
Record GetQuery := mkGetQuery { gq_What : string; gq_Desc : option GetOpts; gq_Sub : option GetOpts; gq_Data : option GetOpts; gq_Del : option GetOpts }.

(** The {set} part of a {sub} and the parameters of a {get} pass a session unread. *)
Record CliPub := mkCliPub {
  cp_Id : string; cp_Topic : string; cp_ClientId : string; cp_ReplyTo : Z; cp_ReplaceSeq : Z; cp_GroupId : string;
  cp_Forward : option (string * Z); cp_Head : option (list (string * Any)); cp_Content : Any }.
Record CliSub := mkCliSub { cu_Id : string; cu_Topic : string; cu_Get : option GetQuery }.
Record CliLeave := mkCliLeave { cl_Id : string; cl_Topic : string; cl_Unsub : bool }.
Record CliHi := mkCliHi {
  ch_Id : string; ch_Version : string; ch_UserAgent : string; ch_DeviceID : string; ch_Lang : string; ch_Platform : string; ch_Background : bool }.
Record CliLogin := mkCliLogin { lo_Id : string; lo_Scheme : string; lo_Secret : string; lo_Cred : list MsgCredClient }.
Record ResumeTopic := mkResumeTopic { rs_Topic : string; rs_SeqId : Z; rs_DelId : Z; rs_Active : bool }.
Record CliResume := mkCliResume { re_Id : string; re_Token : string; re_Topics : list ResumeTopic }.
Record CliGet := mkCliGet { cg_Id : string; cg_Topic : string; cg_What : string }.
(** Which parts of a {set} are there. *)
Record CliSet := mkCliSet {
  ct_Id : string; ct_TopicName : string; has_Desc : bool; has_Sub : bool; has_Tags : bool; has_Cred : bool; has_Invite : bool; has_Report : bool;
  has_Aux : bool; has_Contact : bool; has_Asset : bool }.
Record CliDel := mkCliDel { cd_Id : string; cd_Topic : string; cd_What : string; cd_User : string; cd_Hard : bool }.
Record AccDesc := mkAccDesc { ad_DefaultAcs : option (string * string); ad_Public : Any; ad_Private : Any }.
Record CliAcc := mkCliAcc {
  ca_Id : string; ca_User : string; ca_State : string; ca_AuthLevel : string; ca_TmpScheme : string; ca_TmpSecret : string; ca_Scheme : string;
  ca_Secret : string; ca_Login : bool; ca_Tags : option (list string); ca_Desc : option AccDesc; ca_Cred : list MsgCredClient }.
Record CliNote := mkCliNote {
  cn_Id : string; cn_Topic : string; cn_What : string; cn_SeqId : Z; cn_Event : string; cn_HasPayload : bool }.
Record CliExtra := mkCliExtra { cx_AsUser : string; cx_AuthLevel : string; cx_Attachments : list string }.

(** [ClientComMessage] as it is read: any of its parts may be there. *)
Record CliMsg := mkCliMsg {
  m_Hi : option CliHi; m_Acc : option CliAcc; m_Login : option CliLogin; m_Resume : option CliResume; m_Sub : option CliSub;
  m_Leave : option CliLeave; m_Pub : option CliPub; m_Get : option CliGet; m_Set : option CliSet; m_Del : option CliDel; m_Note : option CliNote;
  m_Extra : option CliExtra }.

Definition with_Pub (m : CliMsg) (p : CliPub) : CliMsg :=
  mkCliMsg m.(m_Hi) m.(m_Acc) m.(m_Login) m.(m_Resume) m.(m_Sub) m.(m_Leave) (Some p) m.(m_Get) m.(m_Set) m.(m_Del) m.(m_Note) m.(m_Extra).
Definition with_head (p : CliPub) (head : option (list (string * Any))) : CliPub :=
  mkCliPub p.(cp_Id) p.(cp_Topic) p.(cp_ClientId) p.(cp_ReplyTo) p.(cp_ReplaceSeq) p.(cp_GroupId) p.(cp_Forward) head p.(cp_Content).
Definition with_forward (p : CliPub) (topic : string) (seq : Z) : CliPub :=
  mkCliPub p.(cp_Id) p.(cp_Topic) p.(cp_ClientId) p.(cp_ReplyTo) p.(cp_ReplaceSeq) p.(cp_GroupId) (Some (topic, seq)) p.(cp_Head) p.(cp_Content).

(** The message with what the session adds to it. *)
Record Stamped := mkStamped {
  st_msg : CliMsg; st_Id : string; st_Original : string; st_RcptTo : string; st_AsUser : string; st_AuthLvl : Z; st_MetaWhat : N }.
Definition with_RcptTo (m : Stamped) (x : string) : Stamped :=
  mkStamped m.(st_msg) m.(st_Id) m.(st_Original) x m.(st_AsUser) m.(st_AuthLvl) m.(st_MetaWhat).
Definition with_MetaWhat (m : Stamped) (x : N) : Stamped :=
  mkStamped m.(st_msg) m.(st_Id) m.(st_Original) m.(st_RcptTo) m.(st_AsUser) m.(st_AuthLvl) x.
Definition with_msg (m : Stamped) (x : CliMsg) : Stamped :=
  mkStamped x m.(st_Id) m.(st_Original) m.(st_RcptTo) m.(st_AsUser) m.(st_AuthLvl) m.(st_MetaWhat).

(** ** Replies *)

Module CliCtrl.
Definition NoErrCreated (topic : string) := mkCtrl 201 "created" topic [].
Definition InfoChallenge (challenge : string) := mkCtrl 300 "challenge" "" [("challenge", AStr challenge)].
Definition InfoAuthReset := mkCtrl 301 "auth reset" "" [].
Definition InfoAlreadySubscribed (topic : string) := mkCtrl 304 "already subscribed" topic [].
Definition InfoNotJoined (topic : string) := mkCtrl 304 "not joined" topic [].
Definition InfoNotModified (topic : string) := mkCtrl 304 "not modified" topic [].
Definition ErrAuthRequired (topic : string) := mkCtrl 401 "authentication required" topic [].
Definition ErrAuthUnknownScheme (topic : string) := mkCtrl 401 "unknown authentication scheme" topic [].
Definition ErrAlreadyAuthenticated (topic : string) := mkCtrl 409 "already authenticated" topic [].
Definition ErrCommandOutOfSequence := mkCtrl 409 "command out of sequence" "" [].
Definition ErrVersionNotSupported := mkCtrl 505 "version not supported" "" [].
End CliCtrl.

(** ** Effects *)

Inductive CliEffect :=
| CReply (id : string) (c : MsgServerCtrl)
| RawOut (data : string)
(** the hub: join, meta, unreg, routeCli *)
| HubJoin (m : Stamped) | HubMeta (m : Stamped) | HubUnregTopic (m : Stamped) | HubRouteCli (m : Stamped)
| HubUnregUser (u : Uid) (hard : bool) | HubUnloadTopic (topic : string) | HubUserStatus (u : Uid) (state : Z)
(** a topic the session is attached to: broadcast, meta, done, supd *)
| TopicBroadcast (topic : string) (m : Stamped) | TopicMeta (topic : string) (m : Stamped) | TopicDone (topic : string) (m : Stamped)
| TopicUserAgent (topic : string) (ua : string)
(** the session store, the user cache, push channels, presence, plugins *)
| SetSessionUid (sid : string) (u : Uid) | EvictUser (u : Uid) (skip : string) | UsersRemove (u : Uid) | DeviceChannels (u : Uid) (device : string)
| GoneToContacts (u : Uid) | GoneToSubscribers (topic : string) | PluginAccount (u : Uid) (act : PlgAction) | BackgroundTimer | StopSession
(** an authenticator, a validator or the store is called to change the account of a user *)
| AccountCall (u : Uid).

(** ** The rest of the program *)

(** [auth.Rec] but for what a new account is made of. *)
Record AuthRec := mkAuthRec {
  ar_Uid : Uid; ar_AuthLevel : Z; ar_Lifetime : Z; ar_Features : N; ar_Tags : option (list string); ar_State : Z; ar_Credential : string }.
Definition FeatureValidated : N := 1.
Definition FeatureNoLogin : N := 2.
Definition rec_of (u : Uid) (lvl lifetime : Z) (features : N) (tags : option (list string)) (cred : string) : AuthRec :=
  mkAuthRec u lvl lifetime features tags 0 cred.

Record DeviceDef := mkDevice { dv_DeviceId : string; dv_Platform : string; dv_Lang : string }.

(** [globals] and the configuration; the Unicode classes, the lower case of [strings.ToLower] and the decoder of JSON objects. *)
Class Globals := {
  IsLetter : N -> bool; IsNumber : N -> bool; IsDigit : N -> bool; ToLowerFull : string -> string;
  json_object : string -> option (list (string * Any));
  typesModeCP2P : AccessMode; maxTagCount : nat; immutableTagNS : list string;
  (** the methods each level requires, the methods configured and those whose values become tags *)
  authValidators : Z -> list string; validators : list string; tag_validators : list string;
  (** accounts that stay; whether there is a session store, a business policy *)
  permanentAccounts : bool; has_sessionStore : bool; has_policy : bool;
  (** what {hi} tells: the build, the limits, the configuration of the validators, the kinds of the media handler, of calls, of the cluster *)
  build : string; maxMessageSize : Z; maxSubscriberCount : Z; maxFileUploadSize : Z;
  validatorClientConfig : Any; msgDeleteAge : Z; media_streaming : bool; media_multipart : bool; media_direct : option bool;
  agora : bool; callEstablishmentTimeout : Z; servingAt : string; cluster_nodes : option Z; defaultCountryCode : string;
  (** the region of golang.org/x/text/language for a tag that has one with high confidence *)
  lang_region : string -> option string }.

Class Accounts (St : Type) := {
  (** GetLogicalAuthHandler, by logical name: whether there is one, and its methods *)
  auth_known : string -> St -> bool;
  auth_names : St -> list string;
  auth_initialized : string -> St -> bool;
  authenticate : string -> string -> string -> St -> StoreResult St (AuthRec * option string);
  auth_unique : string -> string -> string -> St -> bool * option GoError;
  auth_add : string -> AuthRec -> string -> string -> St -> StoreResult St AuthRec;
  auth_update : string -> AuthRec -> string -> string -> St -> StoreResult St AuthRec;
  auth_delete : string -> Uid -> St -> St * option GoError;
  auth_secret : string -> AuthRec -> St -> StoreResult St (string * Z);
  auth_reset_params : string -> Uid -> St -> option GoError;
  (** GetValidator: whether there is one for the method, and its methods *)
  validator_known : string -> St -> bool;
  validator_initialized : string -> St -> bool;
  validator_precheck : MsgCredClient -> St -> option GoError;
  validator_request : Uid -> MsgCredClient -> string -> string -> St -> StoreResult St bool;
  validator_check : string -> Uid -> string -> St -> StoreResult St string;
  validator_temp_scheme : string -> St -> string + GoError;
  validator_reset : string -> string -> string -> string -> string -> St -> St * option GoError;
  (** store.Users, store.Devices, store.Topics, store.Files *)
  user_get : Uid -> St -> StoreResult St (option StoredProfile);
  user_tags : Uid -> St -> option (list string);
  user_create : StoredProfile -> option (list string) -> Any -> St -> StoreResult St Uid;
  user_delete : Uid -> bool -> St -> St * option GoError;
  user_set_state : Uid -> Z -> St -> St * option GoError;
  user_set_tags : Uid -> list string -> option (list string) -> St -> StoreResult St (list string);
  user_credentials : Uid -> St -> StoreResult St (list string);
  user_by_credential : string -> string -> St -> StoreResult St Uid;
  user_topics : Uid -> St -> StoreResult St (list string);
  user_owned : Uid -> St -> StoreResult St (list string);
  topic_listed : string -> St -> bool;
  device_update : Uid -> string -> DeviceDef -> St -> St * option GoError;
  device_delete : Uid -> string -> St -> St * option GoError;
  avatar_link : Uid -> list string -> St -> St;
  (** serviceAllowsWrites, cluster.genLocalTopicName *)
  allows_writes : St -> bool;
  new_topic_name : St -> St * string;
  (** whether the queue that an effect is sent to has room, and the topics that have answered the joins sent to the hub *)
  queue_room : CliEffect -> St -> St * bool;
  joins_answered : list string -> St -> St * list string }.

(** ** Computations of a session *)

Record CW (St : Type) := mkCW { c_sess : ClientSession; c_st : St; c_sent : list CliEffect }.
Arguments mkCW {St}. Arguments c_sess {St}. Arguments c_st {St}. Arguments c_sent {St}.

Section Computations.
Context {St : Type}.

Definition CM (A : Type) : Type := CW St -> CW St * Res A.
Definition cret {A} (a : A) : CM A := fun w => (w, Ret a).
Definition cpanic {A} (msg : string) : CM A := fun w => (w, Panic msg).
Definition cbind {A B} (m : CM A) (k : A -> CM B) : CM B := fun w =>
  match m w with (w', Ret a) => k a w' | (w', Err e) => (w', Err e) | (w', Panic p) => (w', Panic p) end.
Definition csess : CM ClientSession := fun w => (w, Ret w.(c_sess)).
Definition cput (s : ClientSession) : CM unit := fun w => (mkCW s w.(c_st) w.(c_sent), Ret tt).
Definition cemit (e : CliEffect) : CM unit := fun w => (mkCW w.(c_sess) w.(c_st) (e :: w.(c_sent)), Ret tt).
Definition ccall {A} (f : St -> St * A) : CM A := fun w => let '(s, a) := f w.(c_st) in (mkCW w.(c_sess) s w.(c_sent), Ret a).
(** A call that changes the account of [u]. *)
Definition caccount {A} (u : Uid) (f : Uid -> St -> St * A) : CM A := cbind (cemit (AccountCall u)) (fun _ => ccall (f u)).
Definition cread {A} (f : St -> A) : CM A := fun w => (w, Ret (f w.(c_st))).
(** [s.queueOut] *)
Definition reply (id : string) (c : MsgServerCtrl) : CM unit := cemit (CReply id c).
End Computations.

Notation "x <~~ m ;; k" := (cbind m (fun x => k)) (at level 100, m at next level, right associativity) : go_scope.
Notation "m ;;~ k" := (cbind m (fun _ => k)) (at level 100, right associativity) : go_scope.

Section Steps.
Context {St : Type} `{Acc : Accounts St}.

Definition creply (id : string) (o : option MsgServerCtrl) : CM (St := St) unit :=
  match o with Some c => reply id c | None => cpanic "interface conversion" end.
(** [decodeStoreError]: no topic *)
Definition reply_error (id : string) (e : GoError) (params : list (string * Any)) : CM (St := St) unit := creply id (decodeStoreError (Some e) "" params).

(** A send with [default: ErrServiceUnavailable]. *)
Definition send_or_unavailable (m : Stamped) (e : CliEffect) : CM (St := St) unit :=
  room <~~ ccall (queue_room e) ;;
  if room : bool then cemit e else reply m.(st_Id) (Ctrl.ErrServiceUnavailable m.(st_Original)).

Fixpoint each {A} (f : A -> CM (St := St) unit) (l : list A) : CM (St := St) unit :=
  match l with [] => cret tt | x :: l' => f x ;;~ each f l' end.
End Steps.
