(* ===== verification/Accounts.v ===== *)
(** * Accounts: users, their authentication and their credentials

    internal/server/user.go, user_credentials.go, and of session_auth.go what logs a session in: creating, changing and deleting accounts on
    behalf of a session.  [ClientProps] has the properties. *)

From Stdlib Require Import NArith ZArith Lia List Ascii String Bool.
From stdpp Require Import base tactics numbers list strings gmap sets.
From S2P Require Import Prelude AccessMode Uid StoreTypes Drafty Messages Utils SubStore TopicStore Topic TopicInit Hub ClientBase.
Import Objects Ranges.
Import Objects Ranges.
Import Utils.Slices Utils.Tags.
Import Topic.

#[local] Open Scope string_scope.
#[local] Open Scope Z_scope.

(** [auth.Level]: its text; [ParseAuthLevel]. *)
Definition LevelString (lvl : Z) : string :=
  if lvl =? LevelAnon then "anon" else if lvl =? LevelAuth then "auth" else if lvl =? LevelRoot then "root"
  else if lvl =? LevelNone then "" else "unkn".
Definition ParseAuthLevel (name : string) : Z :=
  if String.eqb name "anon" || String.eqb name "ANON" then LevelAnon
  else if String.eqb name "auth" || String.eqb name "AUTH" then LevelAuth
  else if String.eqb name "root" || String.eqb name "ROOT" then LevelRoot
  else LevelNone.

(** [trustedBoolean] *)
Definition trustedBoolean (value : Any) : bool :=
  match value with
  | ABool b => b
  | AStr s => String.eqb (ToLower (TrimSpace s)) "true" || String.eqb (TrimSpace s) "1"
  | AInt n => n =? 1
  | _ => false
  end.

Definition second_of (r : list string * list string * list string) : list string := snd (fst r).

Section Accounts.
Context {St : Type} `{Acc : Accounts St, G : Globals}.

Abbreviation CM A := (CM (St := St) A) (only parsing).

(** ** Logging in *)

Definition addSessionIdentityCapabilities (params : list (string * Any)) (uid : Uid) : CM (list (string * Any)) :=
  user <~~ ccall (user_get uid) ;;
  let trusted := match user with inl (Some u) => externalIdentityObject json_object u.(pf_Trusted) | _ => [] end in
  let value k := default ANil (get trusted k) in
  let staff := trustedBoolean (value "staff") in
  let agent := trustedBoolean (value "agent_verified") in
  let role := match value "role" with AStr "" => "customer" | AStr r => r | _ => "customer" end in
  let badge := match value "badge" with AStr b => b | _ => "" end in
  cret (params ++ [("staff", ABool staff); ("agentVerified", ABool agent); ("role", AStr role); ("badge", AStr badge);
                   ("canSendDocuments", ABool (negb has_policy || staff || agent))])%list.

Definition has_feature (f bit : N) : bool := negb (N.land f bit =? 0)%N.

(** [onLogin]: the reply without its params, and the params. *)
Definition onLogin (rec : AuthRec) (missing : list string) : CM (MsgServerCtrl * list (string * Any)) :=
  let params := [("user", AStr (UserId rec.(ar_Uid))); ("authlvl", AStr (LevelString rec.(ar_AuthLevel)))] in
  r <~~ (match missing with
         | _ :: _ => cret (Ctrl.InfoValidateCredentials, (params ++ [("cred", AList (map AStr missing))])%list, rec)
         | [] =>
             s <~~ csess ;;
             lifetime <~~ (if has_feature rec.(ar_Features) FeatureNoLogin then cret rec.(ar_Lifetime)
                           else
                             cput (with_identity s rec.(ar_Uid) s.(cs_authLvl)) ;;~
                             (if has_sessionStore then cemit (SetSessionUid s.(cs_sid) rec.(ar_Uid)) else cret tt) ;;~
                             cput (with_identity s rec.(ar_Uid) rec.(ar_AuthLevel)) ;;~
                             cret 0) ;;
             (if String.eqb s.(cs_deviceID) "" then cret tt
              else _ <~~ caccount rec.(ar_Uid) (fun u => device_update u "" (mkDevice s.(cs_deviceID) s.(cs_platf) s.(cs_lang))) ;; cret tt) ;;~
             cret (Ctrl.NoErr "", params,
                   mkAuthRec rec.(ar_Uid) rec.(ar_AuthLevel) lifetime (N.lor rec.(ar_Features) FeatureValidated) rec.(ar_Tags) rec.(ar_State) rec.(ar_Credential))
         end) ;;
  let '(reply, params, rec) := r in
  known <~~ cread (auth_known "token") ;;
  if negb known then cpanic "invalid memory address or nil pointer dereference"
  else
    token <~~ ccall (auth_secret "token" rec) ;;
    let '(token, expires) := match token with inl (t, e) => (AStr t, e) | inr _ => (ANil, 0) end in
    params <~~ addSessionIdentityCapabilities (params ++ [("token", token); ("expires", AInt expires)])%list rec.(ar_Uid) ;;
    cret (reply, params).

Definition with_params (c : MsgServerCtrl) (params : list (string * Any)) : MsgServerCtrl := mkCtrl c.(Code) c.(Text) c.(ct_Topic) params.

(** [userGetState] *)
Definition userGetState (uid : Uid) : CM (Z + GoError) :=
  user <~~ ccall (user_get uid) ;;
  cret (match user with
        | inr e => inr e
        | inl None => inr (StoreErr ErrUserNotFound)
        | inl (Some u) => inl u.(pf_State)
        end).

(** What login and resume check of the state of an authenticated user. *)
Definition check_state (rec : AuthRec) : CM (option GoError) :=
  state <~~ (if rec.(ar_State) =? StateUndefined then userGetState rec.(ar_Uid) else cret (inl rec.(ar_State))) ;;
  cret (match state with inr e => Some e | inl st => if st =? StateOK then None else Some (StoreErr ErrPermissionDenied) end).

(** ** Credentials *)

Definition cred_tag (method value : string) : string := method ++ ":" ++ value.

Fixpoint request_all (uid : Uid) (lang token : string) (creds : list MsgCredClient) (validated tags : list string)
    : CM ((list string * list string) + GoError) :=
  match creds with
  | [] => cret (inl (validated, tags))
  | cr :: creds' =>
      usable <~~ cread (fun st => validator_known cr.(Method) st && validator_initialized cr.(Method) st) ;;
      if negb usable then request_all uid lang token creds' validated tags
      else
        isNew <~~ caccount uid (fun u => validator_request u cr lang token) ;;
        match isNew with
        | inr e => cret (inr e)
        | inl isNew =>
            if isNew && negb (String.eqb cr.(Response) "")
            then request_all uid lang token creds' (validated ++ [cr.(Method)])%list
                   (if existsb (String.eqb cr.(Method)) tag_validators then tags ++ [cred_tag cr.(Method) cr.(Value)] else tags)%list
            else request_all uid lang token creds' validated tags
        end
  end.

(** [addCreds]: the methods validated now; its tags are not used by the callers. *)
Definition addCreds (uid : Uid) (creds : list MsgCredClient) (extraTags : list string) (lang token : string) : CM (list string + GoError) :=
  r <~~ request_all uid lang token creds [] extraTags ;;
  match r with
  | inr e => cret (inr e)
  | inl (validated, []) => cret (inl validated)
  | inl (validated, tags) => _ <~~ caccount uid (fun u => user_set_tags u tags None) ;; cret (inl validated)
  end.

Fixpoint check_all (uid : Uid) (errorOnFail : bool) (creds : list MsgCredClient) (methods tags : list string)
    : CM ((list string * list string) + GoError) :=
  match creds with
  | [] => cret (inl (methods, tags))
  | cr :: creds' =>
      if String.eqb cr.(Response) "" then check_all uid errorOnFail creds' methods tags
      else
        value <~~ caccount uid (fun u => validator_check cr.(Method) u cr.(Response)) ;;
        match value with
        | inr (StoreErr ErrCredentials) =>
            if errorOnFail then cret (inr (StoreErr ErrInvalidResponse)) else check_all uid errorOnFail creds' methods tags
        | inr e => cret (inr e)
        | inl value =>
            check_all uid errorOnFail creds' (if existsb (String.eqb cr.(Method)) methods then methods else cr.(Method) :: methods)
              (if existsb (String.eqb cr.(Method)) tag_validators then tags ++ [cred_tag cr.(Method) value] else tags)%list
        end
  end.

(** [validatedCreds]: the methods, each once. *)
Definition validatedCreds (uid : Uid) (authLvl : Z) (creds : list MsgCredClient) (errorOnFail : bool) : CM (list string + GoError) :=
  match authValidators authLvl with
  | [] => cret (inl [])
  | _ =>
      all <~~ ccall (user_credentials uid) ;;
      match all with
      | inr e => cret (inr e)
      | inl all =>
          r <~~ check_all uid errorOnFail (normalizeCredentials validators creds false) (nodup string_dec all) [] ;;
          match r with
          | inr e => cret (inr e)
          | inl (methods, []) => cret (inl methods)
          | inl (methods, tags) => _ <~~ caccount uid (fun u => user_set_tags u tags None) ;; cret (inl methods)
          end
      end
  end.

(** [updateUserAuth] *)
Definition updateUserAuth (scheme secret addr : string) (uid : Uid) : CM (option GoError) :=
  known <~~ cread (auth_known scheme) ;;
  if negb known then cret (Some (StoreErr ErrMalformed))
  else
    tags <~~ cread (user_tags uid) ;;
    rec <~~ caccount uid (fun u => auth_update scheme (rec_of u 0 0 0 tags "") secret addr) ;;
    rec <~~ match rec with
            | inr (StoreErr ErrNotFound) => caccount uid (fun u => auth_add scheme (rec_of u 0 0 0 tags "") secret addr)
            | r => cret r
            end ;;
    match rec with
    | inr e => cret (Some e)
    | inl rec => _ <~~ caccount uid (fun u => user_set_tags u [] (Some (default [] rec.(ar_Tags)))) ;; cret None
    end.

(** ** Creating an account *)

(** A default access of the account: within the mode of conversations, and with approval unless it is none. *)
Definition limit_access (dflt : AccessMode) (text : string) : AccessMode :=
  if String.eqb text "" then dflt
  else let m := fst (UnmarshalText dflt text) &. typesModeCP2P in if (m =? ModeNone)%N then m else m |. ModeApprove.

Fixpoint precheck_all (creds : list MsgCredClient) : CM (option (string * GoError)) :=
  match creds with
  | [] => cret None
  | cr :: creds' =>
      known <~~ cread (validator_known cr.(Method)) ;;
      if negb known then cpanic "invalid memory address or nil pointer dereference"
      else
        err <~~ cread (validator_precheck cr) ;;
        match err with Some e => cret (Some (cr.(Method), e)) | None => precheck_all creds' end
  end.

(** The state the account is given, or the reply that refuses it. *)
Definition new_state (authLvl : Z) (text : string) : Z + MsgServerCtrl :=
  if String.eqb text "" then inl StateOK
  else if negb (authLvl =? LevelRoot) then inr (with_params (Ctrl.ErrPermissionDenied "") [("what", AStr "state")])
  else match NewObjState text with
       | (_, Some _) => inr (Ctrl.ErrMalformed "")
       | (state, None) => if (state =? StateUndefined) || (state =? StateDeleted) then inr (Ctrl.ErrMalformed "") else inl state
       end.

(** The row of the user, and the private data. *)
Definition new_profile (state : Z) (desc : option AccDesc) : StoredProfile * Any :=
  let acs := default ("", "") (desc ≫= ad_DefaultAcs) in
  let auth := limit_access (typesModeCP2P |. ModeCPublic) (fst acs) in
  let anon := limit_access (ModeNone |. ModeNone) (snd acs) in
  (mkProfile state 0 0 (not_null (default ANil (ad_Public <$> desc))) ANil auth anon, not_null (default ANil (ad_Private <$> desc))).

(** An account that could not be completed is deleted. *)
Definition remove_account (uid : Uid) (answer : CM unit) : CM unit := answer ;;~ _ <~~ caccount uid (fun u => user_delete u true) ;; cret tt.

Definition complete_account (m : Stamped) (acc : CliAcc) (addr : string) (creds : list MsgCredClient) (tags : option (list string)) (uid : Uid) : CM unit :=
  s <~~ csess ;;
  rec <~~ caccount uid (fun u => auth_add acc.(ca_Scheme) (rec_of u 0 0 0 tags "") acc.(ca_Secret) addr) ;;
  match rec with
  | inr e => remove_account uid (reply_error m.(st_Id) e [])
  | inl rec =>
      let required := authValidators rec.(ar_AuthLevel) in
      if (List.length creds <? List.length required)%nat then
        remove_account uid (reply_error m.(st_Id) (StoreErr ErrPolicy) [("creds", AList (map AStr (second_of (stringSliceDelta required (credentialMethods creds)))))])
      else
        known <~~ cread (auth_known "token") ;;
        if negb known then cpanic "invalid memory address or nil pointer dereference"
        else
          token <~~ ccall (auth_secret "token" (rec_of uid LevelAuth (24 * 3600 * 1000000000) 0 None "")) ;;
          let token := match token with inl (t, _) => t | inr _ => "" end in
          validated <~~ addCreds uid creds (default [] rec.(ar_Tags)) s.(cs_lang) token ;;
          match validated with
          | inr e => remove_account uid (reply_error m.(st_Id) e [])
          | inl validated =>
              (match m.(st_msg).(m_Extra) with
               | Some x => match x.(cx_Attachments) with [] => cret tt | urls => caccount uid (fun u st => (avatar_link u urls st, tt)) end
               | None => cret tt
               end) ;;~
              r <~~ (if acc.(ca_Login) then onLogin rec (second_of (stringSliceDelta required validated))
                     else cret (CliCtrl.NoErrCreated "", [("user", AStr (UserId uid)); ("authlvl", AStr (LevelString rec.(ar_AuthLevel)))])) ;;
              reply m.(st_Id) (with_params (fst r) (snd r)) ;;~
              cemit (PluginAccount uid plgActCreate)
          end
  end.

Definition replyCreateUser (m : Stamped) (acc : CliAcc) (rec : option AuthRec) : CM unit :=
  s <~~ csess ;;
  if acc.(ca_Login) && (negb (IsZeroUid s.(cs_uid)) || bool_decide (is_Some rec)) then reply m.(st_Id) (CliCtrl.ErrAlreadyAuthenticated "")
  else
    known <~~ cread (auth_known acc.(ca_Scheme)) ;;
    if negb known then reply m.(st_Id) (Ctrl.ErrMalformed "")
    else
      unique <~~ cread (auth_unique acc.(ca_Scheme) acc.(ca_Secret) s.(cs_remoteAddr)) ;;
      match unique with
      | (false, err) => creply m.(st_Id) (decodeStoreError err "" [("what", AStr "auth")])
      | (true, _) =>
          match new_state m.(st_AuthLvl) acc.(ca_State) with
          | inr c => reply m.(st_Id) c
          | inl state =>
              let tags := normalizeTags IsLetter IsDigit ToLowerFull acc.(ca_Tags) maxTagCount in
              if negb (match tags with Some l => restrictedTagsEqual IsLetter IsNumber l [] immutableTagNS | None => true end)
              then reply m.(st_Id) (with_params (Ctrl.ErrPermissionDenied "") [("what", AStr "tags")])
              else
                let creds := normalizeCredentials validators acc.(ca_Cred) true in
                bad <~~ precheck_all creds ;;
                match bad with
                | Some (method, e) => reply_error m.(st_Id) e [("what", AStr method)]
                | None =>
                    let '(user, private) := new_profile state acc.(ca_Desc) in
                    uid <~~ ccall (user_create user tags private) ;;
                    match uid with
                    | inr _ => reply m.(st_Id) (Ctrl.ErrUnknown "")
                    | inl uid => complete_account m acc s.(cs_remoteAddr) creds tags uid
                    end
                end
          end
      end.

(** ** Changing an account *)

Definition changeUserState (uid : Uid) (user : StoredProfile) (text : string) : CM (bool * option GoError) :=
  match NewObjState text with
  | (_, Some _) => cret (false, Some (StoreErr ErrMalformed))
  | (state, None) =>
      if state =? StateUndefined then cret (false, Some (StoreErr ErrMalformed))
      else if user.(pf_State) =? state then cret (false, None)
      else
        (if state =? StateOK then cret tt else cemit (EvictUser uid "")) ;;~
        err <~~ caccount uid (fun u => user_set_state u state) ;;
        match err with
        | Some e => cret (false, Some e)
        | None => cemit (HubUserStatus uid state) ;;~ cret (true, None)
        end
  end.

(** Whose account and at which level, or the reply that refuses. *)
Definition account_of (s : ClientSession) (m : Stamped) (acc : CliAcc) (rec : option AuthRec) : (Uid * Z) + MsgServerCtrl :=
  if IsZeroUid s.(cs_uid) && negb (bool_decide (is_Some rec)) then inr (Ctrl.ErrPermissionDenied "")
  else if negb (String.eqb m.(st_AsUser) "") && bool_decide (is_Some rec) then inr (Ctrl.ErrMalformed "")
  else
    let '(userId, lvl) := match rec with Some r => (UserId r.(ar_Uid), r.(ar_AuthLevel)) | None => (m.(st_AsUser), m.(st_AuthLvl)) end in
    let other := negb (String.eqb acc.(ca_User) "") && negb (String.eqb acc.(ca_User) userId) in
    if other && negb (s.(cs_authLvl) =? LevelRoot) then inr (Ctrl.ErrPermissionDenied "")
    else
      let '(userId, lvl) := if other then (acc.(ca_User), ParseAuthLevel acc.(ca_AuthLevel)) else (userId, lvl) in
      let uid := ParseUserId userId in
      if IsZeroUid uid then inr (Ctrl.ErrMalformed "")
      else if negb (String.eqb acc.(ca_State) "") && negb (s.(cs_authLvl) =? LevelRoot) then inr (Ctrl.ErrPermissionDenied "")
      else inl (uid, lvl).

(** The branch for credentials: the error of [addCreds] is the one of an inner variable. *)
Definition update_credentials (uid : Uid) (authLvl : Z) (creds : list MsgCredClient) : CM (list (string * Any)) :=
  s <~~ csess ;;
  known <~~ cread (auth_known "token") ;;
  if negb known then cpanic "invalid memory address or nil pointer dereference"
  else
    token <~~ ccall (auth_secret "token" (rec_of uid LevelNone (24 * 3600 * 1000000000) FeatureNoLogin None "")) ;;
    r <~~ addCreds uid creds [] s.(cs_lang) (match token with inl (t, _) => t | inr _ => "" end) ;;
    match r with
    | inr _ => cret []
    | inl _ =>
        all <~~ ccall (user_credentials uid) ;;
        cret (match all with
              | inr _ => []
              | inl all => match second_of (stringSliceDelta (authValidators authLvl) all) with
                           | [] => []
                           | missing => [("cred", AList (map AStr missing))]
                           end
              end)
    end.

(** What is changed; [None] if the reply was sent. *)
Definition update_account (s : ClientSession) (m : Stamped) (acc : CliAcc) (uid : Uid) (authLvl : Z) (user : StoredProfile)
    : CM (option (list (string * Any) + GoError)) :=
  if negb (String.eqb acc.(ca_Scheme) "") then
    err <~~ updateUserAuth acc.(ca_Scheme) acc.(ca_Secret) s.(cs_remoteAddr) uid ;;
    cret (Some (match err with None => inl [] | Some e => inr e end))
  else match acc.(ca_Cred) with
       | _ :: _ =>
           if authLvl =? LevelNone then reply m.(st_Id) (Ctrl.ErrMalformed "") ;;~ cret None
           else params <~~ update_credentials uid authLvl acc.(ca_Cred) ;; cret (Some (inl params))
       | [] =>
           if negb (String.eqb acc.(ca_State) "") then
             r <~~ changeUserState uid user acc.(ca_State) ;;
             match r with
             | (false, None) => reply m.(st_Id) (CliCtrl.InfoNotModified "") ;;~ cret None
             | (_, None) => cret (Some (inl []))
             | (_, Some e) => cret (Some (inr e))
             end
           else cret (Some (inr (StoreErr ErrMalformed)))
       end.

Definition replyUpdateUser (m : Stamped) (acc : CliAcc) (rec : option AuthRec) : CM unit :=
  s <~~ csess ;;
  match account_of s m acc rec with
  | inr c => reply m.(st_Id) c
  | inl (uid, authLvl) =>
      user <~~ ccall (user_get uid) ;;
      match user with
      | inr e => reply_error m.(st_Id) e []
      | inl None => reply_error m.(st_Id) (StoreErr ErrNotFound) []
      | inl (Some user) =>
          r <~~ update_account s m acc uid authLvl user ;;
          match r with
          | None => cret tt
          | Some (inr e) => reply_error m.(st_Id) e []
          | Some (inl params) => reply m.(st_Id) (Ctrl.NoErrParams "" params) ;;~ cemit (PluginAccount uid plgActUpd)
          end
      end
  end.

(** ** Deleting an account *)

(** Who is deleted, or the reply that refuses. *)
Definition user_to_delete (s : ClientSession) (del : CliDel) : Uid + MsgServerCtrl :=
  if String.eqb del.(cd_User) "" || String.eqb del.(cd_User) (UserId s.(cs_uid)) then
    if permanentAccounts && negb (s.(cs_authLvl) =? LevelRoot) then inr (Ctrl.ErrPolicy "") else inl s.(cs_uid)
  else if s.(cs_authLvl) =? LevelRoot then
    let uid := ParseUserId del.(cd_User) in if IsZeroUid uid then inr (Ctrl.ErrMalformed "") else inl uid
  else inr (Ctrl.ErrPermissionDenied "").

(** Whether the authenticators let the records go. *)
Fixpoint delete_records (uid : Uid) (names : list string) : CM bool :=
  match names with
  | [] => cret true
  | name :: names' =>
      ready <~~ cread (auth_initialized name) ;;
      if negb ready then delete_records uid names'
      else
        err <~~ caccount uid (auth_delete name) ;;
        match err with Some (StoreErr ErrUnsupported) => cret false | _ => delete_records uid names' end
  end.

Definition unload_p2p (topic : string) : CM unit :=
  match GetTopicCat topic with
  | None => cpanic "invalid topic name"
  | Some TopicCatP2P => cemit (HubUnloadTopic topic)
  | Some _ => cret tt
  end.
Definition tell_subscribers (topic : string) : CM unit :=
  ok <~~ cread (topic_listed topic) ;; if ok : bool then cemit (GoneToSubscribers topic) else cret tt.

Definition replyDelUser (m : Stamped) (del : CliDel) : CM unit :=
  s <~~ csess ;;
  match user_to_delete s del with
  | inr c => reply m.(st_Id) c
  | inl uid =>
      names <~~ cread auth_names ;;
      gone <~~ delete_records uid names ;;
      if negb gone then reply m.(st_Id) (Ctrl.ErrOperationNotAllowed "")
      else
        cemit (EvictUser uid s.(cs_sid)) ;;~
        cemit (UsersRemove uid) ;;~
        cemit (HubUnregUser uid del.(cd_Hard)) ;;~
        uoi <~~ ccall (user_topics uid) ;;
        (match uoi with inl _ => cemit (GoneToContacts uid) | inr _ => cret tt end) ;;~
        own <~~ ccall (user_owned uid) ;;
        (match own with inl own => each tell_subscribers own | inr _ => cret tt end) ;;~
        uoi <~~ ccall (user_topics uid) ;;
        (match uoi with inl topics => each unload_p2p topics | inr _ => cret tt end) ;;~
        err <~~ caccount uid (fun u => user_delete u del.(cd_Hard)) ;;
        match err with
        | Some e => reply_error m.(st_Id) e []
        | None =>
            reply m.(st_Id) (Ctrl.NoErr "") ;;~
            if (s.(cs_uid) =? uid)%N && negb s.(cs_multi) then cemit StopSession else cret tt
        end
  end.
End Accounts.
