(* ===== verification/Client.v ===== *)
(** * Client: what a session does with the messages of its client

    internal/server/session_dispatch.go, session_topic_ops.go, session_auth.go, session_resume.go, topic_creation_policy.go, and of plugins.go
    the filter that may drop, replace or answer a message first: who a message speaks for, the handshake, logging in, and what is handed to
    the hub and to the topics.  [ClientProps] has the properties. *)

From Stdlib Require Import NArith ZArith Lia List Ascii String Bool.
From stdpp Require Import base tactics numbers list strings gmap sets.
From S2P Require Import Prelude AccessMode Uid StoreTypes Drafty Messages Utils SendQueue SubStore TopicStore Topic TopicInit Hub ClientBase Accounts.
Import Objects Ranges.
Import Utils.Slices Utils.Tags Utils.Versions.
Import Topic.

#[local] Open Scope string_scope.
#[local] Open Scope Z_scope.

(** ** Kinds of requests *)

Definition constMsgMetaDesc : N := 1.
Definition constMsgMetaSub : N := 2.
Definition constMsgMetaData : N := 4.
Definition constMsgMetaTags : N := 8.
Definition constMsgMetaDel : N := 16.
Definition constMsgMetaCred : N := 32.
Definition constMsgMetaAux : N := 64.
Definition constMsgMetaSearch : N := 128.
Definition constMsgMetaContacts : N := 256.
Definition constMsgMetaAssets : N := 512.
Definition constMsgMetaReaders : N := 1024.
Definition constMsgMetaPreviews : N := 2048.
Definition constMsgMetaInvite : N := 4096.
Definition constMsgMetaReport : N := 8192.

Definition constMsgDelTopic : N := 1.
Definition constMsgDelMsg : N := 2.
Definition constMsgDelSub : N := 3.
Definition constMsgDelUser : N := 4.
Definition constMsgDelCred : N := 5.
Definition constMsgDelScheduled : N := 6.

(** [strings.Fields]: [word] has the bytes of the current word. *)
Fixpoint fields (fuel : nat) (s word : string) : list string :=
  let flush l := if String.eqb word "" then l else word :: l in
  match fuel, s with
  | O, _ | _, EmptyString => flush []
  | S fuel', String c s' =>
      match List.find (HasPrefix s) space_encodings with
      | Some w => flush (fields fuel' (drop_bytes (String.length w) s) "")
      | None => fields fuel' s' (word ++ String c "")
      end
  end.
(** Each turn drops at least one byte. *)
Definition Fields (s : string) : list string := fields (String.length s) s "".

Definition meta_bit (p : string) : N :=
  if String.eqb p "desc" then constMsgMetaDesc else if String.eqb p "sub" then constMsgMetaSub
  else if String.eqb p "data" then constMsgMetaData else if String.eqb p "tags" then constMsgMetaTags
  else if String.eqb p "del" then constMsgMetaDel else if String.eqb p "cred" then constMsgMetaCred
  else if String.eqb p "aux" then constMsgMetaAux else if String.eqb p "search" then constMsgMetaSearch
  else if String.eqb p "contacts" then constMsgMetaContacts else if String.eqb p "assets" then constMsgMetaAssets
  else if String.eqb p "readers" then constMsgMetaReaders else if String.eqb p "previews" then constMsgMetaPreviews
  else 0%N.
Definition parseMsgClientMeta (params : string) : N := fold_left (fun bits p => N.lor bits (meta_bit p)) (Fields params) 0%N.

Definition parseMsgClientDel (params : string) : N :=
  if String.eqb params "" || String.eqb params "msg" then constMsgDelMsg else if String.eqb params "topic" then constMsgDelTopic
  else if String.eqb params "sub" then constMsgDelSub else if String.eqb params "user" then constMsgDelUser
  else if String.eqb params "cred" then constMsgDelCred else if String.eqb params "sched" then constMsgDelScheduled
  else 0%N.

(** ** service_health.go: which messages need a service that writes *)

Definition clientMessageRequiresWrite (m : CliMsg) : bool :=
  bool_decide (is_Some m.(m_Pub)) || bool_decide (is_Some m.(m_Sub)) || bool_decide (is_Some m.(m_Leave)) || bool_decide (is_Some m.(m_Set)) ||
  bool_decide (is_Some m.(m_Del)) || bool_decide (is_Some m.(m_Acc)) ||
  match m.(m_Note) with Some n => negb (String.eqb n.(cn_What) "kp") | None => false end.

(** ** plugins.go: the filter of messages *)

Record PluginFilter := mkFilter { byPacket : N; byTopicType : N }.

Definition plgHi : N := 1.
Definition plgAcc : N := 2.
Definition plgLogin : N := 4.
Definition plgSub : N := 8.
Definition plgLeave : N := 16.
Definition plgPub : N := 32.
Definition plgGet : N := 64.
Definition plgSet : N := 128.
Definition plgDel : N := 256.
Definition plgNote : N := 512.
Definition plgClientMask : N := 1023.

Definition plgTopicMe : N := 1.
Definition plgTopicFnd : N := 2.
Definition plgTopicP2P : N := 4.
Definition plgTopicGrp : N := 8.
Definition plgTopicSys : N := 16.
Definition plgTopicSlf : N := 32.
Definition plgTopicNew : N := 64.
Definition plgTopicNch : N := 128.
Definition plgTopicCatMask : N := 63.

Definition has_bit (flags bit : N) : bool := negb (N.land flags bit =? 0)%N.

Definition filterByTopic (topic : string) (flt : N) : bool :=
  if String.eqb topic "" || (flt =? plgTopicCatMask)%N then true
  else
    let tt := if (3 <? String.length topic)%nat then String.substring 0 3 topic else topic in
    if String.eqb tt "me" then has_bit flt plgTopicMe else if String.eqb tt "fnd" then has_bit flt plgTopicFnd
    else if String.eqb tt "usr" then has_bit flt plgTopicP2P else if String.eqb tt "grp" then has_bit flt plgTopicGrp
    else if String.eqb tt "sys" then has_bit flt plgTopicSys else if String.eqb tt "slf" then has_bit flt plgTopicSlf
    else if String.eqb tt "new" then has_bit flt plgTopicNew else if String.eqb tt "nch" then has_bit flt plgTopicNch
    else false.

Definition pluginDoFiltering (filter : option PluginFilter) (m : CliMsg) : bool :=
  match filter with
  | None => false
  | Some f =>
      let on bit topic := has_bit f.(byPacket) bit && filterByTopic topic f.(byTopicType) in
      if (f.(byPacket) =? 0)%N then false
      else if (f.(byPacket) =? plgClientMask)%N && (f.(byTopicType) =? plgTopicCatMask)%N then true
      else if bool_decide (is_Some m.(m_Hi)) then has_bit f.(byPacket) plgHi
      else if bool_decide (is_Some m.(m_Acc)) then has_bit f.(byPacket) plgAcc
      else if bool_decide (is_Some m.(m_Login)) then has_bit f.(byPacket) plgLogin
      else match m.(m_Sub), m.(m_Leave), m.(m_Pub), m.(m_Get), m.(m_Set), m.(m_Del), m.(m_Note) with
           | Some x, _, _, _, _, _, _ => on plgSub x.(cu_Topic)
           | _, Some x, _, _, _, _, _ => on plgLeave x.(cl_Topic)
           | _, _, Some x, _, _, _, _ => on plgPub x.(cp_Topic)
           | _, _, _, Some x, _, _, _ => on plgGet x.(cg_Topic)
           | _, _, _, _, Some x, _, _ => on plgSet x.(ct_TopicName)
           | _, _, _, _, _, Some x, _ => on plgDel x.(cd_Topic)
           | _, _, _, _, _, _, Some x => on plgNote x.(cn_Topic)
           | _, _, _, _, _, _, _ => false
           end
  end.

Definition pluginIDAndTopic (m : CliMsg) : string * string :=
  match m.(m_Hi), m.(m_Acc), m.(m_Login) with
  | Some x, _, _ => (x.(ch_Id), "")
  | _, Some x, _ => (x.(ca_Id), "")
  | _, _, Some x => (x.(lo_Id), "")
  | None, None, None =>
      match m.(m_Sub), m.(m_Leave), m.(m_Pub), m.(m_Get), m.(m_Set), m.(m_Del), m.(m_Note) with
      | Some x, _, _, _, _, _, _ => (x.(cu_Id), x.(cu_Topic))
      | _, Some x, _, _, _, _, _ => (x.(cl_Id), x.(cl_Topic))
      | _, _, Some x, _, _, _, _ => (x.(cp_Id), x.(cp_Topic))
      | _, _, _, Some x, _, _, _ => (x.(cg_Id), x.(cg_Topic))
      | _, _, _, _, Some x, _, _ => (x.(ct_Id), x.(ct_TopicName))
      | _, _, _, _, _, Some x, _ => (x.(cd_Id), x.(cd_Topic))
      | _, _, _, _, _, _, Some x => ("", x.(cn_Topic))
      | _, _, _, _, _, _, _ => ("", "")
      end
  end.

(** [pluginGenerateClientReq] has no request for a message without any part. *)
Definition serializable (m : CliMsg) : bool :=
  bool_decide (is_Some m.(m_Hi)) || bool_decide (is_Some m.(m_Acc)) || bool_decide (is_Some m.(m_Login)) || bool_decide (is_Some m.(m_Resume)) ||
  bool_decide (is_Some m.(m_Sub)) || bool_decide (is_Some m.(m_Leave)) || bool_decide (is_Some m.(m_Pub)) || bool_decide (is_Some m.(m_Get)) ||
  bool_decide (is_Some m.(m_Set)) || bool_decide (is_Some m.(m_Del)) || bool_decide (is_Some m.(m_Note)).

(** What the remote side says: the message and the reply as they come out of the deserializers. *)
Inductive PluginAnswer := PlgContinue | PlgDrop | PlgReplace (m : option CliMsg) | PlgRespond (r : option (string * MsgServerCtrl)) | PlgFailed.
Record Plugin (St : Type) := mkPlugin {
  filterFireHose : option PluginFilter; failureCode : Z; failureText : string; FireHose : CliMsg -> St -> St * PluginAnswer }.
Arguments mkPlugin {St}. Arguments filterFireHose {St}. Arguments failureCode {St}. Arguments failureText {St}. Arguments FireHose {St}.

Section Session.
Context {St : Type} `{Acc : Accounts St, G : Globals}.
Context (plugins : list (Plugin St)).

Abbreviation CM A := (CM (St := St) A) (only parsing).

(** The message to go on with and whether it is another one, a reply, or neither. *)
Fixpoint pluginFireHose (ps : list (Plugin St)) (m : CliMsg) : CM (option (CliMsg * bool) * option (string * MsgServerCtrl)) :=
  match ps with
  | [] => cret (Some (m, false), None)
  | p :: ps' =>
      if negb (pluginDoFiltering p.(filterFireHose) m) then pluginFireHose ps' m
      else if negb (serializable m) then cret (Some (m, false), None)
      else
        answer <~~ ccall (p.(FireHose) m) ;;
        match answer with
        | PlgContinue => pluginFireHose ps' m
        | PlgDrop => cret (None, None)
        | PlgReplace m' => cret ((fun m' => (m', true)) <$> m', None)
        | PlgRespond r => cret (None, r)
        | PlgFailed =>
            if p.(failureCode) =? 0 then pluginFireHose ps' m
            else let '(id, topic) := pluginIDAndTopic m in cret (None, Some (id, mkCtrl p.(failureCode) p.(failureText) topic []))
        end
  end.

(** ** Names *)

(** [expandTopicName]: where a name of the client leads, or the reply that refuses it. *)
Definition expandTopicName (m : Stamped) (original : string) : string + MsgServerCtrl :=
  if String.eqb original "" then inr (Ctrl.ErrMalformed "")
  else if String.eqb original "me" then inl m.(st_AsUser)
  else if String.eqb original "fnd" then inl (FndName (ParseUserId m.(st_AsUser)))
  else if String.eqb original "slf" then inl (SlfName (ParseUserId m.(st_AsUser)))
  else if HasPrefix original "usr" then
    let uid1 := ParseUserId m.(st_AsUser) in
    let uid2 := ParseUserId original in
    if IsZeroUid uid2 then inr (Ctrl.ErrMalformed original)
    else if (uid2 =? uid1)%N then inr (Ctrl.ErrPermissionDenied original)
    else inl (P2PName uid1 uid2)
  else let tmp := ChnToGrp original in
       if String.eqb tmp "" then inl original else inl tmp.

(** The requests that first expand the name of their topic. *)
Definition routed (m : Stamped) (k : Stamped -> CM unit) : CM unit :=
  match expandTopicName m m.(st_Original) with
  | inr c => reply m.(st_Id) c
  | inl rcpt => k (with_RcptTo m rcpt)
  end.

(** ** Subscribing *)

Definition isTopicCreationRequest (topic : string) : bool := HasPrefix topic "new" || HasPrefix topic "nch".

(** [value, _ := m[key].(string)] *)
Definition text_of (m : list (string * Any)) (key : string) : string := match get m key with Some (AStr v) => v | _ => "" end.

Definition topicCreationAllowedByTrusted (value : Any) : bool :=
  let trusted := externalIdentityObject json_object value in
  let managed := negb (String.eqb (TrimSpace (text_of trusted "identity_provider")) "") || negb (String.eqb (TrimSpace (text_of trusted "external_id")) "") in
  if negb managed then true
  else trustedBoolean (default ANil (get trusted "staff")) || trustedBoolean (default ANil (get trusted "agent_verified")).

Definition canCreateManagedTopic (uid : Uid) : CM (bool + GoError) :=
  if IsZeroUid uid then cret (inr (StoreErr ErrUserNotFound))
  else
    user <~~ ccall (user_get uid) ;;
    cret (match user with
          | inr e => inr e
          | inl None => inr (StoreErr ErrUserNotFound)
          | inl (Some u) => inl (topicCreationAllowedByTrusted u.(pf_Trusted))
          end).

(** Joining the topic the message leads to, which it returns. *)
Definition join (m : Stamped) : CM string :=
  s <~~ csess ;;
  (if getSub s m.(st_RcptTo) then reply m.(st_Id) (CliCtrl.InfoAlreadySubscribed m.(st_Original))
   else send_or_unavailable m (HubJoin m)) ;;~
  cret m.(st_RcptTo).

Definition subscribe (m : Stamped) : CM string :=
  s <~~ csess ;;
  if isTopicCreationRequest m.(st_Original) then
    allowed <~~ (if s.(cs_authLvl) =? LevelRoot then cret (inl true) else canCreateManagedTopic s.(cs_uid)) ;;
    match allowed with
    | inr _ => reply m.(st_Id) (Ctrl.ErrServiceUnavailable m.(st_Original)) ;;~ cret ""
    | inl false => reply m.(st_Id) (Ctrl.ErrPermissionDenied m.(st_Original)) ;;~ cret ""
    | inl true => name <~~ ccall new_topic_name ;; join (with_RcptTo m name)
    end
  else match expandTopicName m m.(st_Original) with
       | inr c => reply m.(st_Id) c ;;~ cret ""
       | inl rcpt => join (with_RcptTo m rcpt)
       end.

Definition leave (l : CliLeave) (m : Stamped) : CM unit :=
  routed m (fun m =>
    s <~~ csess ;;
    if getSub s m.(st_RcptTo) then
      if (String.eqb m.(st_Original) "me" || String.eqb m.(st_Original) "fnd") && l.(cl_Unsub)
      then reply m.(st_Id) (Ctrl.ErrPermissionDenied m.(st_Original))
      else cemit (TopicDone m.(st_RcptTo) m)
    else if l.(cl_Unsub) then reply m.(st_Id) (Ctrl.ErrAttachFirst m.(st_Original))
    else reply m.(st_Id) (CliCtrl.InfoNotJoined m.(st_Original))).

(** ** Publishing *)

Definition text_ok (s : string) : bool := negb (64 <? Z.of_nat (String.length s)) && valid_utf8 s.
Definition pub_wellformed (p : CliPub) : bool :=
  text_ok p.(cp_ClientId) &&
  negb ((p.(cp_ReplyTo) <? 0) || (p.(cp_ReplaceSeq) <? 0) ||
        ((0 <? p.(cp_ReplaceSeq)) && ((0 <? p.(cp_ReplyTo)) || bool_decide (is_Some p.(cp_Forward)))) || negb (text_ok p.(cp_GroupId))).

(** What is published, with the source of a forward expanded, or the reply that refuses it. *)
Definition resolve_forward (s : ClientSession) (m : Stamped) (p : CliPub) : CliPub + MsgServerCtrl :=
  match p.(cp_Forward) with
  | None => inl p
  | Some (topic, seq) =>
      if seq <=? 0 then inr (Ctrl.ErrMalformed m.(st_Original))
      else if String.eqb topic "" then inl (with_forward p m.(st_RcptTo) seq)
      else match expandTopicName m topic with
           | inr c => inr c
           | inl source =>
               if negb (String.eqb source m.(st_RcptTo)) && negb (getSub s source) then inr (Ctrl.ErrPermissionDenied m.(st_Original))
               else inl (with_forward p source seq)
           end
  end.

(** Who really sends, in the head. *)
Definition stamp_sender (s : ClientSession) (m : Stamped) (p : CliPub) : CliPub :=
  if negb (String.eqb m.(st_AsUser) (UserId s.(cs_uid))) then with_head p (Some (map_set (default [] p.(cp_Head)) "sender" (AStr (UserId s.(cs_uid)))))
  else match p.(cp_Head) with
       | None => p
       | Some head => with_head p (match map_delete head "sender" with [] => None | h => Some h end)
       end.

Definition publish (p : CliPub) (m : Stamped) : CM unit :=
  if negb (pub_wellformed p) then reply m.(st_Id) (Ctrl.ErrMalformed m.(st_Original))
  else routed m (fun m =>
    s <~~ csess ;;
    match resolve_forward s m p with
    | inr c => reply m.(st_Id) c
    | inl p =>
        let m := with_msg m (with_Pub m.(st_msg) (stamp_sender s m p)) in
        if getSub s m.(st_RcptTo) then send_or_unavailable m (TopicBroadcast m.(st_RcptTo) m)
        else if String.eqb m.(st_RcptTo) "sys" then send_or_unavailable m (HubRouteCli m)
        else reply m.(st_Id) (Ctrl.ErrAttachFirst m.(st_Original))
    end).

(** ** Topics: get, set, del, note *)

Definition get_ (g : CliGet) (m : Stamped) : CM unit :=
  routed m (fun m =>
    let m := with_MetaWhat m (parseMsgClientMeta g.(cg_What)) in
    s <~~ csess ;;
    if (m.(st_MetaWhat) =? 0)%N then reply m.(st_Id) (Ctrl.ErrMalformed m.(st_Original))
    else if getSub s m.(st_RcptTo) then send_or_unavailable m (TopicMeta m.(st_RcptTo) m)
    else if has_bit m.(st_MetaWhat) (N.lor constMsgMetaDesc constMsgMetaSub) then send_or_unavailable m (HubMeta m)
    else reply m.(st_Id) (Ctrl.ErrPermissionDenied m.(st_Original))).

Definition when_bit (b : bool) (bit : N) : N := if b then bit else 0%N.
Definition set_what (x : CliSet) : N :=
  fold_left N.lor [when_bit x.(has_Desc) constMsgMetaDesc; when_bit x.(has_Sub) constMsgMetaSub; when_bit x.(has_Tags) constMsgMetaTags;
                   when_bit x.(has_Cred) constMsgMetaCred; when_bit x.(has_Invite) constMsgMetaInvite; when_bit x.(has_Report) constMsgMetaReport;
                   when_bit x.(has_Aux) constMsgMetaAux; when_bit x.(has_Contact) constMsgMetaContacts; when_bit x.(has_Asset) constMsgMetaAssets] 0%N.
(** The parts that only an attached session sets. *)
Definition set_attached : N :=
  fold_left N.lor [constMsgMetaTags; constMsgMetaCred; constMsgMetaAux; constMsgMetaContacts; constMsgMetaAssets; constMsgMetaInvite; constMsgMetaReport] 0%N.

Definition set_ (x : CliSet) (m : Stamped) : CM unit :=
  routed m (fun m =>
    let m := with_MetaWhat m (set_what x) in
    s <~~ csess ;;
    if (m.(st_MetaWhat) =? 0)%N then reply m.(st_Id) (Ctrl.ErrMalformed m.(st_Original))
    else if getSub s m.(st_RcptTo) then send_or_unavailable m (TopicMeta m.(st_RcptTo) m)
    else if has_bit m.(st_MetaWhat) set_attached then reply m.(st_Id) (Ctrl.ErrPermissionDenied m.(st_Original))
    else send_or_unavailable m (HubMeta m)).

Definition del_ (d : CliDel) (m : Stamped) : CM unit :=
  let m := with_MetaWhat m (parseMsgClientDel d.(cd_What)) in
  if (m.(st_MetaWhat) =? constMsgDelUser)%N then replyDelUser m d
  else routed m (fun m =>
    s <~~ csess ;;
    if (m.(st_MetaWhat) =? 0)%N then reply m.(st_Id) (Ctrl.ErrMalformed m.(st_Original))
    else if (m.(st_MetaWhat) =? constMsgDelTopic)%N then send_or_unavailable m (HubUnregTopic m)
    else if getSub s m.(st_RcptTo) then send_or_unavailable m (TopicMeta m.(st_RcptTo) m)
    else reply m.(st_Id) (Ctrl.ErrAttachFirst m.(st_Original))).

(** What a note must have; [None] is the panic of [GetTopicCat]. *)
Definition note_wellformed (n : CliNote) (rcpt : string) : option bool :=
  let w := n.(cn_What) in
  if String.eqb w "data" then Some n.(cn_HasPayload)
  else if String.eqb w "kp" || String.eqb w "kpa" || String.eqb w "kpv" then Some (n.(cn_SeqId) =? 0)
  else if String.eqb w "call" then
    match GetTopicCat rcpt with
    | None => None
    | Some TopicCatP2P | Some TopicCatGrp => Some (0 <? n.(cn_SeqId))
    | Some _ => Some false
    end
  else Some ((String.eqb w "read" || String.eqb w "recv" || String.eqb w "react" || String.eqb w "pin") && (0 <? n.(cn_SeqId))).

Definition note (n : CliNote) (m : Stamped) : CM unit :=
  s <~~ csess ;;
  if (s.(cs_ver) =? 0) || String.eqb m.(st_AsUser) "" then cret tt
  else match expandTopicName m m.(st_Original) with
       | inr _ => cret tt
       | inl rcpt =>
           let m := with_RcptTo m rcpt in
           match note_wellformed n rcpt with
           | None => cpanic "invalid topic type"
           | Some false => cret tt
           | Some true =>
               if getSub s rcpt then send_or_unavailable m (TopicBroadcast rcpt m)
               else if String.eqb n.(cn_What) "recv" ||
                       (String.eqb n.(cn_What) "call" &&
                        (String.eqb n.(cn_Event) "ringing" || String.eqb n.(cn_Event) "hang-up" || String.eqb n.(cn_Event) "accept"))
               then send_or_unavailable m (HubRouteCli m)
               else reply m.(st_Id) (Ctrl.ErrAttachFirst m.(st_Original))
           end
       end.

(** ** {hi} *)

Definition minSupportedVersionValue : Z := parseVersion asciiDigit "0.20".

Definition hello_params (proto : SessionProto) : list (string * Any) :=
  [("ver", AStr "0.33"); ("build", AStr build); ("maxMessageSize", AInt maxMessageSize); ("maxSubscriberCount", AInt maxSubscriberCount);
   ("officialLargeGroupMemberLimit", AInt 0); ("minTagLength", AInt (Z.of_nat minTagLength)); ("maxTagLength", AInt (Z.of_nat maxTagLength));
   ("maxTagCount", AInt (Z.of_nat maxTagCount)); ("maxFileUploadSize", AInt maxFileUploadSize); ("reqCred", validatorClientConfig);
   ("msgDelAge", AInt msgDeleteAge); ("fileUploadStreaming", ABool media_streaming);
   ("fileUploadDirect", ABool (media_multipart && default true media_direct))] ++
  (if agora then [("groupCallProvider", AStr "agora")] else []) ++
  (if 0 <? callEstablishmentTimeout then [("callTimeout", AInt callEstablishmentTimeout)] else []) ++
  (if bool_decide (proto = GRPC)
   then [("servingAt", AStr servingAt); ("clusterSize", AInt (match cluster_nodes with Some n => n + 1 | None => 1 end))] else [])%list.

(** Whether {hi} may set this version, or the reply that refuses it. *)
Definition hello_version (s : ClientSession) (text : string) : Z + MsgServerCtrl :=
  let ver := parseVersion IsDigit text in
  if ver =? 0 then inr (Ctrl.ErrMalformed "")
  else if (versionCompare ver minSupportedVersionValue <? 0) || (s.(cs_wsBinary) && (versionCompare ver minProtobufWebSocketVersionValue <? 0))
  then inr CliCtrl.ErrVersionNotSupported
  else inl ver.

(** The end of {hi}: device, language and country are kept, and the reply is sent. *)
Definition hello_done (m : Stamped) (h : CliHi) (updated : bool) (params : list (string * Any)) : CM unit :=
  s <~~ csess ;;
  let country := if String.eqb s.(cs_countryCode) "" then default defaultCountryCode (lang_region h.(ch_Lang)) else s.(cs_countryCode) in
  cput (with_device s (if String.eqb h.(ch_DeviceID) nullValue then "" else h.(ch_DeviceID)) h.(ch_Lang) country) ;;~
  reply m.(st_Id) (if updated then mkCtrl 200 "ok" "" params else mkCtrl 201 "created" "" params).

(** A later {hi}: whether the device was changed, or the error. *)
Definition hello_device (h : CliHi) : CM (bool + GoError) :=
  s <~~ csess ;;
  if String.eqb h.(ch_DeviceID) nullValue then
    err <~~ (if String.eqb s.(cs_deviceID) "" then cret None else caccount s.(cs_uid) (fun u => device_delete u s.(cs_deviceID))) ;;
    cret (match err with Some e => inr e | None => inl true end)
  else if negb (String.eqb h.(ch_DeviceID) "") && negb (String.eqb s.(cs_deviceID) h.(ch_DeviceID)) then
    err <~~ caccount s.(cs_uid) (fun u => device_update u s.(cs_deviceID) (mkDevice h.(ch_DeviceID) s.(cs_platf) h.(ch_Lang))) ;;
    cemit (DeviceChannels s.(cs_uid) h.(ch_DeviceID)) ;;~
    cret (match err with Some e => inr e | None => inl true end)
  else cret (inl false).

Definition hello (h : CliHi) (m : Stamped) : CM unit :=
  s <~~ csess ;;
  if s.(cs_ver) =? 0 then
    match hello_version s h.(ch_Version) with
    | inr c => reply m.(st_Id) c
    | inl ver =>
        cput (with_hello s ver h.(ch_UserAgent) (if String.eqb h.(ch_Platform) "" then platformFromUA h.(ch_UserAgent) else h.(ch_Platform))) ;;~
        (if h.(ch_Background) then cemit BackgroundTimer else cret tt) ;;~
        hello_done m h false (hello_params s.(cs_proto))
    end
  else if String.eqb h.(ch_Version) "" || (parseVersion IsDigit h.(ch_Version) =? s.(cs_ver)) then
    if IsZeroUid s.(cs_uid) then reply m.(st_Id) (CliCtrl.ErrAuthRequired m.(st_Original))
    else
      updated <~~ hello_device h ;;
      match updated with
      | inr e => reply_error m.(st_Id) e []
      | inl updated => hello_done m h updated []
      end
  else reply m.(st_Id) CliCtrl.ErrCommandOutOfSequence.

(** ** {acc} *)

(** After the reply to an unknown scheme the code goes on to call the handler that is not there. *)
Definition acc (a : CliAcc) (m : Stamped) : CM unit :=
  s <~~ csess ;;
  let newAcc := HasPrefix a.(ca_User) "new" in
  let answer rec := if newAcc then replyCreateUser m a rec else replyUpdateUser m a rec in
  if negb newAcc && negb (String.eqb a.(ca_TmpScheme) "") then
    if negb (IsZeroUid s.(cs_uid)) then reply a.(ca_Id) (CliCtrl.ErrAlreadyAuthenticated "")
    else
      known <~~ cread (auth_known a.(ca_TmpScheme)) ;;
      if negb known then reply m.(st_Id) (CliCtrl.ErrAuthUnknownScheme "") ;;~ cpanic "invalid memory address or nil pointer dereference"
      else
        rec <~~ ccall (authenticate a.(ca_TmpScheme) a.(ca_TmpSecret) s.(cs_remoteAddr)) ;;
        match rec with
        | inr e => reply_error a.(ca_Id) e [("what", AStr "auth")]
        | inl (rec, _) => answer (Some rec)
        end
  else answer None.

(** ** {login} *)

(** [authSecretReset] *)
Definition authSecretReset (secret : string) : CM (option GoError) :=
  match Split ":" secret with
  | authScheme :: credMethod :: credValue :: _ =>
      known <~~ cread (auth_known authScheme) ;;
      valid <~~ cread (validator_known credMethod) ;;
      if negb known || negb valid then cret (Some (StoreErr ErrUnsupported))
      else
        uid <~~ ccall (user_by_credential credMethod credValue) ;;
        match uid with
        | inr e => cret (Some e)
        | inl uid =>
            if IsZeroUid uid then cret None
            else
              err <~~ cread (auth_reset_params authScheme uid) ;;
              match err with
              | Some e => cret (Some e)
              | None =>
                  scheme <~~ cread (validator_temp_scheme credMethod) ;;
                  match scheme with
                  | inr e => cret (Some e)
                  | inl scheme =>
                      usable <~~ cread (fun st => auth_known scheme st && auth_initialized scheme st) ;;
                      if negb usable then cret (Some (StoreErr ErrInternal))
                      else
                        s <~~ csess ;;
                        code <~~ ccall (auth_secret scheme (rec_of uid LevelAuth 0 FeatureNoLogin None (credMethod ++ ":" ++ credValue))) ;;
                        match code with
                        | inr e => cret (Some e)
                        | inl (code, _) => ccall (validator_reset credMethod credValue authScheme s.(cs_lang) code)
                        end
                  end
              end
        end
  | _ => cret (Some (StoreErr ErrMalformed))
  end.

(** The required methods that are not validated. *)
Definition missing_credentials (rec : AuthRec) (creds : list MsgCredClient) : CM (list string + GoError) :=
  if negb (has_feature rec.(ar_Features) FeatureValidated) && (0 <? List.length (authValidators rec.(ar_AuthLevel)))%nat then
    validated <~~ validatedCreds rec.(ar_Uid) rec.(ar_AuthLevel) creds false ;;
    cret (match validated with
          | inr e => inr e
          | inl validated => inl (second_of (stringSliceDelta (authValidators rec.(ar_AuthLevel)) validated))
          end)
  else cret (inl []).

Definition login (l : CliLogin) (m : Stamped) : CM unit :=
  s <~~ csess ;;
  if String.eqb l.(lo_Scheme) "reset" then
    err <~~ authSecretReset l.(lo_Secret) ;;
    match err with Some e => reply_error m.(st_Id) e [] | None => reply m.(st_Id) CliCtrl.InfoAuthReset end
  else if negb (IsZeroUid s.(cs_uid)) then reply m.(st_Id) (CliCtrl.ErrAlreadyAuthenticated "")
  else
    known <~~ cread (auth_known l.(lo_Scheme)) ;;
    if negb known then reply m.(st_Id) (CliCtrl.ErrAuthUnknownScheme "")
    else
      r <~~ ccall (authenticate l.(lo_Scheme) l.(lo_Secret) s.(cs_remoteAddr)) ;;
      match r with
      | inr e => reply_error m.(st_Id) e []
      | inl (rec, challenge) =>
          bad <~~ check_state rec ;;
          match bad, challenge with
          | Some e, _ => reply_error m.(st_Id) e []
          | None, Some challenge => reply m.(st_Id) (CliCtrl.InfoChallenge challenge)
          | None, None =>
              missing <~~ missing_credentials rec l.(lo_Cred) ;;
              match missing with
              | inr e => reply_error m.(st_Id) e []
              | inl missing => r <~~ onLogin rec missing ;; reply m.(st_Id) (with_params (fst r) (snd r))
              end
          end
      end.

(** ** Who a message speaks for, and what it asks *)

(** The user and the level the message speaks with, or the reply that refuses them. *)
Definition speaks_for (s : ClientSession) (m : CliMsg) : (string * Z) + MsgServerCtrl :=
  let own := inl (UserId s.(cs_uid), s.(cs_authLvl)) in
  match m.(m_Extra) with
  | None => own
  | Some x =>
      let authLvl := ParseAuthLevel x.(cx_AuthLevel) in
      if String.eqb x.(cx_AsUser) "" && (authLvl =? LevelNone) then own
      else if negb (s.(cs_authLvl) =? LevelRoot) then inr (Ctrl.ErrPermissionDenied "")
      else if IsZeroUid (ParseUserId x.(cx_AsUser)) then inr (Ctrl.ErrMalformed "")
      else inl (x.(cx_AsUser), if authLvl =? LevelNone then LevelAuth else authLvl)
  end.

Inductive Request :=
| RPub (p : CliPub) | RSub (u : CliSub) | RLeave (l : CliLeave) | RHi (h : CliHi) | RLogin (l : CliLogin) | RResume (r : CliResume)
| RGet (g : CliGet) | RSet (x : CliSet) | RDel (d : CliDel) | RAcc (a : CliAcc) | RNote (n : CliNote).

(** The part of a message that is acted on: the first of this order. *)
Definition request (m : CliMsg) : option Request :=
  match m.(m_Pub), m.(m_Sub), m.(m_Leave), m.(m_Hi), m.(m_Login), m.(m_Resume) with
  | Some p, _, _, _, _, _ => Some (RPub p)
  | _, Some u, _, _, _, _ => Some (RSub u)
  | _, _, Some l, _, _, _ => Some (RLeave l)
  | _, _, _, Some h, _, _ => Some (RHi h)
  | _, _, _, _, Some l, _ => Some (RLogin l)
  | _, _, _, _, _, Some r => Some (RResume r)
  | _, _, _, _, _, _ =>
      match m.(m_Get), m.(m_Set), m.(m_Del), m.(m_Acc), m.(m_Note) with
      | Some g, _, _, _, _ => Some (RGet g)
      | _, Some x, _, _, _ => Some (RSet x)
      | _, _, Some d, _, _ => Some (RDel d)
      | _, _, _, Some a, _ => Some (RAcc a)
      | _, _, _, _, Some n => Some (RNote n)
      | _, _, _, _, _ => None
      end
  end.

(** The id and the topic of a request, and whether it shows that the user is active. *)
Definition request_id (r : Request) : string :=
  match r with
  | RPub p => p.(cp_Id) | RSub u => u.(cu_Id) | RLeave l => l.(cl_Id) | RHi h => h.(ch_Id) | RLogin l => l.(lo_Id) | RResume r => r.(re_Id)
  | RGet g => g.(cg_Id) | RSet x => x.(ct_Id) | RDel d => d.(cd_Id) | RAcc a => a.(ca_Id) | RNote n => n.(cn_Id)
  end.
Definition request_topic (r : Request) : string :=
  match r with
  | RPub p => p.(cp_Topic) | RSub u => u.(cu_Topic) | RLeave l => l.(cl_Topic) | RGet g => g.(cg_Topic) | RSet x => x.(ct_TopicName)
  | RDel d => d.(cd_Topic) | RNote n => n.(cn_Topic) | RHi _ | RLogin _ | RResume _ | RAcc _ => ""
  end.
Definition uaRefresh (r : Request) : bool :=
  match r with RPub _ | RSub _ | RGet _ | RSet _ | RNote _ => true | _ => false end.

(** checkVers, checkUser *)
Definition checkVers {A} (m : Stamped) (none : A) (handler : CM A) : CM A :=
  s <~~ csess ;; if s.(cs_ver) =? 0 then reply m.(st_Id) CliCtrl.ErrCommandOutOfSequence ;;~ cret none else handler.
Definition checkUser {A} (m : Stamped) (none : A) (handler : CM A) : CM A :=
  if String.eqb m.(st_AsUser) "" then reply m.(st_Id) (CliCtrl.ErrAuthRequired m.(st_Original)) ;;~ cret none else handler.

(** ** {resume} *)

Definition maxResumeTopics : nat := 8.
Definition resumeCatchupPageSize : Z := 100.
Definition maxResumeCursor : Z := 2 ^ 31 - 1.

Fixpoint validateResumeTopics (topics : list ResumeTopic) (seen : list string) : bool :=
  match topics with
  | [] => true
  | c :: topics' =>
      if String.eqb c.(rs_Topic) "" || (c.(rs_SeqId) <? 0) || (maxResumeCursor <? c.(rs_SeqId)) || (c.(rs_DelId) <? 0) || (maxResumeCursor <? c.(rs_DelId))
      then false
      else if existsb (String.eqb c.(rs_Topic)) seen then false
      else validateResumeTopics topics' (c.(rs_Topic) :: seen)
  end.

Definition buildResumeGetQuery (c : ResumeTopic) : GetQuery :=
  let none := mkGetOpts 0 0 false in
  if String.eqb c.(rs_Topic) "me" then mkGetQuery "desc sub" (Some none) (Some none) None None
  else if c.(rs_Active) then
    mkGetQuery "desc sub data del aux" (Some none) (Some none)
      (Some (if 0 <? c.(rs_SeqId) then mkGetOpts (c.(rs_SeqId) + 1) resumeCatchupPageSize true else mkGetOpts 0 resumeCatchupPageSize false))
      (Some (mkGetOpts (if 0 <? c.(rs_DelId) then c.(rs_DelId) + 1 else 0) resumeCatchupPageSize true))
  else mkGetQuery "desc" (Some none) None None None.

Definition sub_message (u : CliSub) : CliMsg := mkCliMsg None None None None (Some u) None None None None None None None.

(** The subscriptions one after the other; where each of them led. *)
Fixpoint dispatch_all (dispatch : CliMsg -> CM string) (id : string) (index : nat) (cursors : list ResumeTopic) : CM (list (string * string)) :=
  match cursors with
  | [] => cret []
  | c :: cursors' =>
      rcpt <~~ dispatch (sub_message (mkCliSub (id ++ "-resume-" ++ Itoa (Z.of_nat index)) c.(rs_Topic) (Some (buildResumeGetQuery c)))) ;;
      rest <~~ dispatch_all dispatch id (S index) cursors' ;;
      cret ((c.(rs_Topic), rcpt) :: rest)
  end.

(** [resumeTopics]: when all joins are answered, those that attached the session. *)
Definition resumeTopics (dispatch : CliMsg -> CM string) (id : string) (cursors : list ResumeTopic) : CM (list string) :=
  asked <~~ dispatch_all dispatch id 0 cursors ;;
  answered <~~ ccall (joins_answered (map snd asked)) ;;
  s <~~ csess ;;
  let attached := filter (fun t => t ∈ map snd asked /\ t <> "") answered in
  let s := with_subs s (s.(cs_subs) ∪ list_to_set attached) in
  cput s ;;~
  cret (map fst (List.filter (fun a : string * string => negb (String.eqb (snd a) "") && getSub s (snd a)) asked)).

(** Who the token is for, or the error. *)
Definition resume_record (token : string) : CM (AuthRec + GoError) :=
  s <~~ csess ;;
  r <~~ ccall (authenticate "token" token s.(cs_remoteAddr)) ;;
  match r with
  | inr e => cret (inr e)
  | inl (rec, challenge) =>
      if bool_decide (is_Some challenge) || has_feature rec.(ar_Features) FeatureNoLogin then cret (inr (StoreErr ErrPermissionDenied))
      else bad <~~ check_state rec ;; cret (match bad with Some e => inr e | None => inl rec end)
  end.

Definition resume (dispatch : CliMsg -> CM string) (r : CliResume) (m : Stamped) : CM unit :=
  s <~~ csess ;;
  if versionCompare s.(cs_ver) minProtobufWebSocketVersionValue <? 0 then reply m.(st_Id) CliCtrl.ErrVersionNotSupported
  else if negb (IsZeroUid s.(cs_uid)) then reply m.(st_Id) (CliCtrl.ErrAlreadyAuthenticated "")
  else if String.eqb r.(re_Token) "" || (maxResumeTopics <? List.length r.(re_Topics))%nat || negb (validateResumeTopics r.(re_Topics) [])
  then reply m.(st_Id) (Ctrl.ErrMalformed m.(st_Original))
  else
    known <~~ cread (auth_known "token") ;;
    if negb known then reply m.(st_Id) (CliCtrl.ErrAuthUnknownScheme "")
    else
      rec <~~ resume_record r.(re_Token) ;;
      match rec with
      | inr e => reply_error m.(st_Id) e []
      | inl rec =>
          answer <~~ onLogin rec [] ;;
          restored <~~ resumeTopics dispatch m.(st_Id) r.(re_Topics) ;;
          reply m.(st_Id) (mkCtrl (fst answer).(Code) "resumed" (fst answer).(ct_Topic)
            (snd answer ++ [("resumed", ABool true); ("resumeTopics", AInt (Z.of_nat (List.length r.(re_Topics))));
                            ("restoredTopics", AList (map AStr restored)); ("resumeSeqLimit", AInt resumeCatchupPageSize)])%list)
      end.

(** ** Dispatching *)

Definition handle (dispatch : CliMsg -> CM string) (r : Request) (m : Stamped) : CM string :=
  let done (c : CM unit) := c ;;~ cret "" in
  match r with
  | RPub p => checkVers m "" (checkUser m "" (done (publish p m)))
  | RSub _ => checkVers m "" (checkUser m "" (subscribe m))
  | RLeave l => checkVers m "" (checkUser m "" (done (leave l m)))
  | RHi h => done (hello h m)
  | RLogin l => checkVers m "" (done (login l m))
  | RResume r => checkVers m "" (done (resume dispatch r m))
  | RGet g => checkVers m "" (checkUser m "" (done (get_ g m)))
  | RSet x => checkVers m "" (checkUser m "" (done (set_ x m)))
  | RDel d => checkVers m "" (checkUser m "" (done (del_ d m)))
  | RAcc a => checkVers m "" (done (acc a m))
  | RNote n => done (note n m)
  end.

Definition refresh_ua (r : Request) (m : Stamped) : CM unit :=
  s <~~ csess ;;
  if uaRefresh r && negb (String.eqb m.(st_AsUser) "") && negb (String.eqb s.(cs_userAgent) "") && getSub s m.(st_AsUser)
  then cemit (TopicUserAgent m.(st_AsUser) s.(cs_userAgent)) else cret tt.

(** A message that no plugin has taken; where its {sub} led. *)
Definition dispatch_message (dispatch : CliMsg -> CM string) (msg : CliMsg) : CM string :=
  s <~~ csess ;;
  match speaks_for s msg with
  | inr c => reply "" c ;;~ cret ""
  | inl (asUser, authLvl) =>
      match request msg with
      | None => reply "" (Ctrl.ErrMalformed "") ;;~ cret ""
      | Some r =>
          let m := mkStamped msg (request_id r) (request_topic r) "" asUser authLvl 0 in
          writes <~~ cread allows_writes ;;
          if clientMessageRequiresWrite msg && negb writes then reply m.(st_Id) (Ctrl.ErrServiceUnavailable m.(st_Original)) ;;~ cret ""
          else rcpt <~~ handle dispatch r m ;; refresh_ua r m ;;~ cret rcpt
      end
  end.

(** [dispatch].  A {resume} dispatches its subscriptions in turn, and those could only be resumptions again if a plugin replaced them:
    [dispatch_ends] of ClientDispatch shows that two levels are enough.  The result is where a {sub} led, the field of the message that was given:
    nothing of a message that took its place. *)
Fixpoint dispatch (fuel : nat) (msg : CliMsg) : CM string :=
  match fuel with
  | O => cpanic "out of fuel"
  | S fuel' =>
      p <~~ pluginFireHose plugins msg ;;
      match p with
      | (_, Some (id, c)) => reply id c ;;~ cret ""
      | (None, None) => cret ""
      | (Some (msg', replaced), None) => rcpt <~~ dispatch_message (dispatch fuel') msg' ;; cret (if replaced : bool then "" else rcpt)
      end
  end.
Definition dispatch_fuel : nat := 2.

(** ** Frames of a connection *)

Definition maxClientBatchMessages : nat := 64.

(** [encoding/json] on a frame: the message with the text of its field batch; the texts of an array; one message. *)
Context (json_wire : string -> option (CliMsg * option string)) (json_array : string -> option (list string)) (json_message : string -> option CliMsg).

Definition decodeClientWireMessages (raw : string) (allowBatch : bool) : option (list CliMsg) :=
  match json_wire raw with
  | None => None
  | Some (m, None) => Some [m]
  | Some (_, Some batch) =>
      if negb allowBatch then None
      else
        texts ← json_array batch;
        if (List.length texts =? 0)%nat || (maxClientBatchMessages <? List.length texts)%nat then None
        else mapM json_message texts
  end.

Definition allows_batch (s : ClientSession) : bool :=
  supportsMessageBatching (mkQueue s.(cs_proto) s.(cs_ver) s.(cs_wsBinary) s.(cs_terminating) [] 0).

Definition dispatchRaw (raw : string) : CM unit :=
  s <~~ csess ;;
  if s.(cs_terminating) then reply "" (Ctrl.ErrLocked "")
  else if String.eqb raw "1" then cemit (RawOut "0")
  else match decodeClientWireMessages raw (allows_batch s) with
       | None => reply "" (Ctrl.ErrMalformed "")
       | Some messages => each (fun m => dispatch dispatch_fuel m ;;~ cret tt) messages
       end.
End Session.

(** ** A session over time

    Frames come in one after the other; between them topics attach and detach the session, it may be told to end, and the rest of the
    program moves on. *)

Definition with_terminating (s : ClientSession) : ClientSession :=
  mkClient s.(cs_proto) s.(cs_sid) s.(cs_wsBinary) s.(cs_multi) s.(cs_remoteAddr) true s.(cs_ver) s.(cs_userAgent) s.(cs_platf) s.(cs_deviceID)
    s.(cs_lang) s.(cs_countryCode) s.(cs_uid) s.(cs_authLvl) s.(cs_subs).

Section Runs.
Context {St : Type} `{Acc : Accounts St, G : Globals}.
Context (plugins : list (Plugin St)).
Context (json_wire : string -> option (CliMsg * option string)) (json_array : string -> option (list string)) (json_message : string -> option CliMsg).

Inductive session_step : CW St -> CW St -> Prop :=
| Frame w raw : session_step w (dispatchRaw plugins json_wire json_array json_message raw w).1
| Attached w topic : session_step w (mkCW (with_subs w.(c_sess) ({[topic]} ∪ w.(c_sess).(cs_subs))) w.(c_st) w.(c_sent))
| Detached w topic : session_step w (mkCW (with_subs w.(c_sess) (w.(c_sess).(cs_subs) ∖ {[topic]})) w.(c_st) w.(c_sent))
| Terminated w : session_step w (mkCW (with_terminating w.(c_sess)) w.(c_st) w.(c_sent))
| Elsewhere w st : session_step w (mkCW w.(c_sess) st w.(c_sent)).
End Runs.

(** A session as the transports create it: nobody is logged in and there is no version yet. *)
Definition new_session (proto : SessionProto) (sid : string) (wsBinary : bool) (remoteAddr : string) : ClientSession :=
  mkClient proto sid wsBinary false remoteAddr false 0 "" "" "" "" "" 0%N LevelNone ∅.
