(* ===== verification/ClientRules.v ===== *)
(** * ClientRules: reasoning about the computations of a session

    What an effect of a session may carry ([authorized]), how a session may change ([evolves]), and the rules that show of a computation that
    what it sends is authorized and that the session evolves ([keeps]); [calm] ones only reply.  ClientProps applies them to every
    request. *)

From Stdlib Require Import NArith ZArith Lia List Ascii String Bool.
From stdpp Require Import base tactics numbers list strings gmap sets.
From S2P Require Import Prelude AccessMode Uid StoreTypes Drafty Messages Utils SendQueue SubStore TopicStore Topic TopicInit Hub ClientBase Accounts Client.
Import Objects Ranges.
Import Utils.Slices Utils.Tags Utils.Versions.
Import Topic.

#[local] Open Scope string_scope.
#[local] Open Scope Z_scope.

(** What is asked of the rest of the program: who authenticates is a user, and a new account is of a user and keeps its number. *)
Class AccountsOk {St : Type} (Acc : Accounts St) := {
  authenticate_user scheme secret addr st st' rec challenge :
    authenticate scheme secret addr st = (st', inl (rec, challenge)) -> rec.(ar_Uid) <> 0%N;
  create_user user tags private st st' uid : user_create user tags private st = (st', inl uid) -> uid <> 0%N;
  add_user scheme rec secret addr st st' rec' : auth_add scheme rec secret addr st = (st', inl rec') -> rec'.(ar_Uid) = rec.(ar_Uid) }.

Section Props.
Context {St : Type} `{Acc : Accounts St, G : Globals}.

(** ** Who may do what *)

(** No level without a user. *)
Definition session_ok (s : ClientSession) : Prop := s.(cs_uid) = 0%N -> s.(cs_authLvl) = LevelNone.
Definition is_root (s : ClientSession) : Prop := s.(cs_authLvl) = LevelRoot.

(** A message speaks for the user of the session at its level, or root speaks for a user it names. *)
Definition speaks (m : Stamped) (s : ClientSession) : Prop :=
  s.(cs_ver) <> 0 /\ m.(st_AsUser) <> "" /\
  ((m.(st_AsUser) = UserId s.(cs_uid) /\ m.(st_AuthLvl) = s.(cs_authLvl)) \/ (is_root s /\ ParseUserId m.(st_AsUser) <> 0%N)).

(** [u] is the user whose id is [UserId v]; of 64 bits, [v] itself ([named_itself]). *)
Definition named (u v : Uid) : Prop := u <> 0%N /\ (u = v \/ u = ParseUserId (UserId v)).
(** An authenticator accepted a secret of [u], sent from the address. *)
Definition vouched (addr : string) (u : Uid) : Prop :=
  exists scheme secret st st' rec challenge, authenticate scheme secret addr st = (st', inl (rec, challenge)) /\ named u rec.(ar_Uid).
(** [u] is a new account. *)
Definition created (u : Uid) : Prop := exists user tags private st st', user_create user tags private st = (st', inl u).
(** Whose account a session may change: its user's, that of somebody whose secret it knows, a new one; any, if it is of root. *)
Definition may_change (s : ClientSession) (u : Uid) : Prop :=
  named u s.(cs_uid) \/ is_root s \/ vouched s.(cs_remoteAddr) u \/ created u.

Lemma named_itself u v : (v < 2 ^ 64)%N -> named u v -> u = v.
Proof. intros Hv [_ [->| ->]]; [done|by apply ParseUserId_UserId]. Qed.
Lemma named_own u : u <> 0%N -> named u u. Proof. intros H. by split; [|left]. Qed.

Definition authorized (s : ClientSession) (e : CliEffect) : Prop :=
  match e with
  | HubJoin m | HubMeta m | HubUnregTopic m | HubRouteCli m | TopicBroadcast _ m | TopicMeta _ m | TopicDone _ m => speaks m s
  | TopicUserAgent _ _ | HubUnloadTopic _ | GoneToSubscribers _ => s.(cs_uid) <> 0%N
  | HubUnregUser u _ | EvictUser u _ | UsersRemove u | GoneToContacts u => (u = s.(cs_uid) /\ u <> 0%N) \/ is_root s
  | HubUserStatus _ _ => is_root s
  | SetSessionUid sid u => sid = s.(cs_sid) /\ u = s.(cs_uid) /\ u <> 0%N
  | DeviceChannels u _ => u = s.(cs_uid) /\ u <> 0%N
  | AccountCall u | PluginAccount u _ => may_change s u
  | CReply _ _ | RawOut _ | BackgroundTimer | StopSession => True
  end.

(** Where an identity comes from: a secret that an authenticator accepted, of a user who is not suspended, or an account just created. *)
Definition state_ok (rec : AuthRec) : Prop :=
  rec.(ar_State) = StateOK \/
  (rec.(ar_State) = StateUndefined /\ exists st u, (user_get rec.(ar_Uid) st).2 = inl (Some u) /\ u.(pf_State) = StateOK).
Definition granted (addr : string) (u : Uid) (lvl : Z) : Prop :=
  exists rec, rec.(ar_Uid) = u /\ rec.(ar_AuthLevel) = lvl /\ has_feature rec.(ar_Features) FeatureNoLogin = false /\
    ((exists scheme secret st st', authenticate scheme secret addr st = (st', inl (rec, None)) /\ state_ok rec) \/
     (exists scheme secret tags st st', auth_add scheme (rec_of u 0 0 0 tags "") secret addr st = (st', inl rec))).

Definition supported (s : ClientSession) : Prop :=
  0 <= versionCompare s.(cs_ver) minSupportedVersionValue /\
  (s.(cs_wsBinary) = true -> 0 <= versionCompare s.(cs_ver) minProtobufWebSocketVersionValue).

(** How a session may change while it works on a message: version and identity are set once. *)
Record evolves (s s' : ClientSession) : Prop := {
  same_connection : s'.(cs_proto) = s.(cs_proto) /\ s'.(cs_sid) = s.(cs_sid) /\ s'.(cs_wsBinary) = s.(cs_wsBinary) /\
                    s'.(cs_multi) = s.(cs_multi) /\ s'.(cs_remoteAddr) = s.(cs_remoteAddr);
  version_once : (s'.(cs_ver) = s.(cs_ver) /\ s'.(cs_userAgent) = s.(cs_userAgent) /\ s'.(cs_platf) = s.(cs_platf)) \/
                 (s.(cs_ver) = 0 /\ s'.(cs_ver) <> 0 /\ supported s');
  identity_once : (s'.(cs_uid) = s.(cs_uid) /\ s'.(cs_authLvl) = s.(cs_authLvl)) \/
                  (s.(cs_uid) = 0%N /\ s'.(cs_uid) <> 0%N /\ granted s.(cs_remoteAddr) s'.(cs_uid) s'.(cs_authLvl)) }.

Lemma evolves_refl s : evolves s s.
Proof. split; auto. Qed.

Lemma evolves_trans a b c : evolves a b -> evolves b c -> evolves a c.
Proof.
  intros [(C1 & C2 & C3 & C4 & C5) V I] [(D1 & D2 & D3 & D4 & D5) V' I']. split.
  - repeat split; congruence.
  - destruct V as [(V1 & V2 & V3)|(V1 & V2 & V3)], V' as [(W1 & W2 & W3)|(W1 & W2 & W3)].
    + left. repeat split; congruence.
    + right. split; [congruence|done].
    + right. split; [done|]. split; [congruence|]. unfold supported in *. by rewrite W1, D3.
    + congruence.
  - destruct I as [(I1 & I2)|(I1 & I2 & I3)], I' as [(J1 & J2)|(J1 & J2 & J3)].
    + left. split; congruence.
    + right. split; [congruence|]. split; [done|]. by rewrite <- C5.
    + right. split; [done|]. split; [congruence|]. by rewrite J1, J2.
    + congruence.
Qed.

(** Facts about a session that what it does cannot undo. *)
Definition stable (P : ClientSession -> Prop) : Prop := forall s s', session_ok s -> evolves s s' -> P s -> P s'.

Lemma stable_uid : stable (fun s => s.(cs_uid) <> 0%N).
Proof. intros s s' _ [_ _ [[I1 I2]|[I1 I2]]]; congruence. Qed.
Lemma root_uid s : session_ok s -> is_root s -> s.(cs_uid) <> 0%N.
Proof. intros Hok Hr Hu. apply Hok in Hu. unfold is_root in Hr. by rewrite Hr in Hu. Qed.
Lemma stable_identity u lvl : stable (fun s => s.(cs_uid) = u /\ s.(cs_authLvl) = lvl /\ u <> 0%N).
Proof. intros s s' _ [_ _ [[I1 I2]|[I1 I2]]] (H1 & H2 & H3); repeat split; congruence. Qed.
Lemma stable_root : stable is_root.
Proof.
  intros s s' Hok He Hr. pose proof (root_uid s Hok Hr) as Hu.
  destruct (stable_identity _ _ s s' Hok He (conj eq_refl (conj eq_refl Hu))) as (_ & Hl & _). unfold is_root in *. congruence.
Qed.
Lemma stable_own u : stable (fun s => u = s.(cs_uid) /\ u <> 0%N).
Proof. intros s s' _ [_ _ [[I1 I2]|[I1 I2]]] [H1 H2]; split; congruence. Qed.
Lemma stable_named u : stable (fun s => named u s.(cs_uid)).
Proof.
  intros s s' _ [_ _ [[-> _]|[I1 _]]] H; [done|]. rewrite I1 in H. destruct H as [H1 [H2|H2]]; [done|]. by destruct H1.
Qed.
Lemma stable_or P Q : stable P -> stable Q -> stable (fun s => P s \/ Q s).
Proof. intros HP HQ s s' Hok He [H|H]; [left; by eapply HP|right; by eapply HQ]. Qed.

Lemma stable_change u : stable (fun s => may_change s u).
Proof.
  intros s s' Hok He [H|[H|[H|H]]].
  - left. by apply (stable_named u s s' Hok He).
  - right; left. by eapply stable_root.
  - right; right; left. by destruct (same_connection _ _ He) as (_ & _ & _ & _ & ->).
  - by do 3 right.
Qed.

Lemma UserId_zero : UserId 0 = "". Proof. done. Qed.

Lemma speaks_user m s : session_ok s -> speaks m s -> s.(cs_uid) <> 0%N.
Proof.
  intros Hok (_ & Ha & [[H _]|[H _]]) Hu; [|by apply (root_uid s)]. apply Ha. by rewrite H, Hu.
Qed.
Lemma stable_speaks m : stable (speaks m).
Proof.
  intros s s' Hok He Hs. pose proof (speaks_user m s Hok Hs) as Hu.
  destruct (stable_identity _ _ s s' Hok He (conj eq_refl (conj eq_refl Hu))) as (Eu & El & _).
  destruct Hs as (Hv & Ha & Hs). split; [|split; [done|]].
  - destruct (version_once _ _ He) as [(-> & _)|(E & _)]; [done|congruence].
  - unfold is_root in *. by rewrite Eu, El.
Qed.

Lemma stable_authorized e : stable (fun s => authorized s e).
Proof.
  intros s s' Hok He H.
  destruct e; cbn [authorized] in *; try done; try (by apply (stable_speaks _ s)); try (by apply (stable_uid s)); try (by apply (stable_root s));
    try (by apply (stable_own _ s)); try (by apply (stable_change _ s)); try (by apply (stable_or _ _ (stable_own _) stable_root s)).
  destruct H as (-> & H). split; [symmetry; apply (same_connection _ _ He)|by apply (stable_own _ s)].
Qed.

(** ** Reasoning about a session's computations *)

(** What only concerns the client, and the accounts of [U]. *)
Definition harmless (U : Uid -> Prop) (e : CliEffect) : Prop :=
  match e with CReply _ _ | RawOut _ | BackgroundTimer | StopSession => True | AccountCall u | PluginAccount u _ => U u | _ => False end.
Lemma harmless_authorized (U : Uid -> Prop) s e : (forall u, U u -> may_change s u) -> harmless U e -> authorized s e.
Proof. intros HU. destruct e; cbn; try done; auto. Qed.

(** From [w] to [w'] the session evolves, and what was sent on the way is authorized in the end. *)
Definition goes (w w' : CW St) : Prop :=
  session_ok w'.(c_sess) /\ evolves w.(c_sess) w'.(c_sess) /\
  exists new, w'.(c_sent) = (new ++ w.(c_sent))%list /\ Forall (authorized w'.(c_sess)) new.

Lemma goes_refl w : session_ok w.(c_sess) -> goes w w.
Proof. intros H. split; [done|]. split; [apply evolves_refl|]. by exists []. Qed.
Lemma goes_trans w1 w2 w3 : goes w1 w2 -> goes w2 w3 -> goes w1 w3.
Proof.
  intros (O1 & E1 & n1 & S1 & A1) (O2 & E2 & n2 & S2 & A2). split; [done|]. split; [by eapply evolves_trans|].
  exists (n2 ++ n1)%list. split; [by rewrite S2, S1, app_assoc|]. apply Forall_app. split; [done|].
  eapply Forall_impl; [exact A1|]. intros e He. exact (stable_authorized e _ _ O1 E2 He).
Qed.

(** A computation that starts in a session of which [P] holds. *)
Definition keeps (P : ClientSession -> Prop) {A} (m : CM (St := St) A) : Prop :=
  forall w, session_ok w.(c_sess) -> P w.(c_sess) -> goes w (m w).1.
(** One that only replies and calls for accounts of [U], and what it returns. *)
Definition calm (U : Uid -> Prop) {A} (m : CM (St := St) A) (Q : A -> Prop) : Prop :=
  forall w, (m w).1.(c_sess) = w.(c_sess) /\ (exists new, (m w).1.(c_sent) = (new ++ w.(c_sent))%list /\ Forall (harmless U) new) /\
            forall a, (m w).2 = Ret a -> Q a.

Lemma calm_goes U {A} (m : CM A) Q w : (forall u, U u -> may_change w.(c_sess) u) -> calm U m Q -> session_ok w.(c_sess) -> goes w (m w).1.
Proof.
  intros HU Hm Hok. destruct (Hm w) as (Hs & (new & Hn & Hh) & _). split; [by rewrite Hs|]. rewrite Hs. split; [apply evolves_refl|].
  exists new. split; [done|]. eapply Forall_impl; [exact Hh|]. intros e He. by eapply harmless_authorized.
Qed.

Lemma client_calm_ret U {A} (a : A) Q : Q a -> calm U (cret a) Q.
Proof. intros H w. split; [done|]. split; [by exists []|]. by intros ? [= <-]. Qed.
Lemma client_calm_panic U {A} p Q : calm U (cpanic (A := A) p) Q.
Proof. intros w. split; [done|]. split; [by exists []|]. by intros ? [=]. Qed.
Lemma calm_sess U Q : (forall s, Q s) -> calm U csess Q.
Proof. intros H w. split; [done|]. split; [by exists []|]. by intros ? [= <-]. Qed.
Lemma calm_read U {A} (f : St -> A) Q : (forall st, Q (f st)) -> calm U (cread f) Q.
Proof. intros H w. split; [done|]. split; [by exists []|]. by intros ? [= <-]. Qed.
Lemma client_calm_call U {A} (f : St -> St * A) Q : (forall st, Q (f st).2) -> calm U (ccall f) Q.
Proof. intros H w. unfold ccall. pose proof (H w.(c_st)) as Hq. destruct (f _) as [st a]. split; [done|]. split; [by exists []|]. by intros ? [= <-]. Qed.
Lemma client_calm_emit U e Q : harmless U e -> Q tt -> calm U (cemit e) Q.
Proof. intros He H w. split; [done|]. split; [exists [e]; split; [done|by constructor]|]. by intros [] _. Qed.
Lemma client_calm_bind U {A B} (m : CM A) (k : A -> CM B) Q Q' : calm U m Q -> (forall a, Q a -> calm U (k a) Q') -> calm U (cbind m k) Q'.
Proof.
  intros Hm Hk w. unfold cbind. destruct (Hm w) as (Hs & (n1 & Hn1 & Hh1) & Hq). destruct (m w) as [w1 [a|e|p]]; cbn [fst snd] in *.
  - destruct (Hk a (Hq a eq_refl) w1) as (Hs2 & (n2 & Hn2 & Hh2) & Hq2). split; [congruence|]. split; [|done].
    exists (n2 ++ n1)%list. split; [by rewrite Hn2, Hn1, app_assoc|]. by apply Forall_app.
  - split; [done|]. split; [by exists n1|done].
  - split; [done|]. split; [by exists n1|done].
Qed.
Lemma calm_mono U {A} (m : CM A) (Q Q' : A -> Prop) : calm U m Q -> (forall a, Q a -> Q' a) -> calm U m Q'.
Proof. intros Hm H w. destruct (Hm w) as (Hs & Hn & Hq). split; [done|]. split; [done|]. auto. Qed.

(** Whose accounts a session of which [P] holds may change. *)
Definition allows (P : ClientSession -> Prop) (U : Uid -> Prop) : Prop := forall s u, session_ok s -> P s -> U u -> may_change s u.
Lemma allows_nobody P : allows P (fun _ => False). Proof. by intros s u. Qed.

Lemma client_calm_account (U : Uid -> Prop) {A} u (f : Uid -> St -> St * A) (Q : A -> Prop) : U u -> (forall st, Q (f u st).2) -> calm U (caccount u f) Q.
Proof. intros Hu H. eapply (client_calm_bind _ _ _ (fun _ => True)); [by apply client_calm_emit|]. intros _ _. by apply client_calm_call. Qed.
Lemma calm_more (U U' : Uid -> Prop) {A} (m : CM A) Q : (forall u, U u -> U' u) -> calm U m Q -> calm U' m Q.
Proof.
  intros H Hm w. destruct (Hm w) as (Hs & (new & Hn & Hh) & Hq). split; [done|]. split; [|done]. exists new. split; [done|].
  eapply Forall_impl; [exact Hh|]. intros e. destruct e; cbn; auto.
Qed.

Lemma keeps_calm P U {A} (m : CM A) Q : allows P U -> calm U m Q -> keeps P m.
Proof. intros HU Hm w Hok HP. eapply calm_goes; [|done..]. intros u. by apply HU. Qed.
Lemma keeps_weaken (P P' : ClientSession -> Prop) {A} (m : CM A) : (forall s, P s -> P' s) -> keeps P' m -> keeps P m.
Proof. intros H Hm w Hok HP. apply Hm; auto. Qed.
Lemma keeps_bind_calm P U {A B} (m : CM A) (k : A -> CM B) Q : allows P U -> calm U m Q -> (forall a, Q a -> keeps P (k a)) -> keeps P (cbind m k).
Proof.
  intros HU Hm Hk w Hok HP. pose proof (calm_goes U m Q w (fun u => HU _ u Hok HP) Hm Hok) as Hg. destruct (Hm w) as (Hs & _ & Hq). unfold cbind.
  destruct (m w) as [w1 [a|e|p]]; cbn [fst snd] in *; [|done..]. eapply goes_trans; [exact Hg|]. apply Hk; [by apply Hq|apply Hg|by rewrite Hs].
Qed.
Lemma keeps_still P {A} (m : CM A) Q : calm (fun _ => False) m Q -> keeps P m.
Proof. apply keeps_calm, allows_nobody. Qed.
Lemma keeps_bind_still P {A B} (m : CM A) (k : A -> CM B) Q : calm (fun _ => False) m Q -> (forall a, Q a -> keeps P (k a)) -> keeps P (cbind m k).
Proof. apply keeps_bind_calm, allows_nobody. Qed.
Lemma client_keeps_bind P {A B} (m : CM A) (k : A -> CM B) : stable P -> keeps P m -> (forall a, keeps P (k a)) -> keeps P (cbind m k).
Proof.
  intros Hst Hm Hk w Hok HP. specialize (Hm w Hok HP). unfold cbind. destruct (m w) as [w1 [a|e|p]]; cbn [fst snd] in *; [|done..].
  eapply goes_trans; [exact Hm|]. apply Hk; [apply Hm|]. eapply Hst; [exact Hok|apply Hm|exact HP].
Qed.
Lemma keeps_sess P {A} (k : ClientSession -> CM A) : (forall s, session_ok s -> P s -> keeps (fun s' => s' = s) (k s)) -> keeps P (cbind csess k).
Proof. intros Hk w Hok HP. unfold cbind, csess. by apply Hk. Qed.
Lemma client_keeps_emit (P : ClientSession -> Prop) e : (forall s, session_ok s -> P s -> authorized s e) -> keeps P (cemit e).
Proof.
  intros H w Hok HP. split; [done|]. split; [apply evolves_refl|]. exists [e]. split; [done|]. constructor; [|done]. by apply H.
Qed.
Lemma keeps_put (P : ClientSession -> Prop) s' : (forall s, session_ok s -> P s -> evolves s s' /\ session_ok s') -> keeps P (cput s').
Proof. intros H w Hok HP. destruct (H _ Hok HP) as [He Hok']. split; [done|]. split; [done|]. by exists []. Qed.

Lemma client_calm_reply U id c : calm U (reply id c) (fun _ => True).
Proof. by apply client_calm_emit. Qed.
Lemma calm_creply U id c : calm U (creply id c) (fun _ => True).
Proof. destruct c; [apply client_calm_reply|apply client_calm_panic]. Qed.
Lemma calm_error U id e params : calm U (reply_error id e params) (fun _ => True).
Proof. apply calm_creply. Qed.
End Props.

Create HintDb client.
#[export] Hint Resolve client_calm_reply calm_creply calm_error eq_refl : client.

(** Shows that a computation only replies. *)
Ltac calm :=
  repeat match goal with
         | |- forall _, _ => intro
         | |- calm _ (cbind _ _) _ => apply (client_calm_bind _ _ _ (fun _ => True)); [|intros ? _]
         | |- calm _ (match ?x with _ => _ end) _ => destruct x
         | |- calm _ (if ?x then _ else _) _ => destruct x
         | |- calm _ (cret _) _ => by apply client_calm_ret
         | |- calm _ (cpanic _) _ => apply client_calm_panic
         | |- calm _ csess _ => by apply calm_sess
         | |- calm _ (cread _) _ => by apply calm_read
         | |- calm _ (ccall _) _ => by apply client_calm_call
         | |- calm _ (caccount _ _) _ => by apply client_calm_account
         | |- calm _ (cemit _) _ => by apply client_calm_emit
         | |- calm _ _ _ => solve [auto with client nocore]
         end.

Section Calm.
Context {St : Type} `{Acc : Accounts St, G : Globals} (U : Uid -> Prop).

Lemma calm_capabilities params uid : calm (St := St) U (addSessionIdentityCapabilities params uid) (fun _ => True).
Proof. unfold addSessionIdentityCapabilities. calm. Qed.
Lemma calm_getState uid : calm (St := St) U (userGetState uid) (fun r => forall st, r = inl st -> exists st0 u, (user_get uid st0).2 = inl (Some u) /\ u.(pf_State) = st).
Proof.
  unfold userGetState. eapply (client_calm_bind _ _ _ (fun r => exists st0, (user_get uid st0).2 = r)); [apply client_calm_call; by eexists|].
  intros r [st0 Hr]. apply client_calm_ret. intros st. destruct r as [[u|]|]; [|done..]. intros [= <-]. by exists st0, u.
Qed.
Lemma calm_check_state rec : calm (St := St) U (check_state rec) (fun r => r = None -> state_ok rec).
Proof.
  unfold check_state. destruct (Z.eqb_spec rec.(ar_State) StateUndefined) as [Hu|Hu].
  - eapply client_calm_bind; [apply calm_getState|]. intros r Hr. apply client_calm_ret. destruct r as [st|]; [|done].
    destruct (Z.eqb_spec st StateOK) as [->|]; [|done]. intros _. right. split; [done|]. by apply Hr.
  - eapply (client_calm_bind _ _ _ (fun r => r = inl rec.(ar_State))); [by apply client_calm_ret|]. intros r ->. apply client_calm_ret.
    destruct (Z.eqb_spec rec.(ar_State) StateOK) as [H|]; [|done]. intros _. by left.
Qed.

Lemma calm_request_all uid lang token creds : U uid -> forall validated tags, calm (St := St) U (request_all uid lang token creds validated tags) (fun _ => True).
Proof. intros Hu. induction creds as [|cr creds IH]; intros validated tags; cbn [request_all]; calm; apply IH. Qed.
#[local] Hint Resolve calm_request_all : client.
Lemma calm_addCreds uid creds tags lang token : U uid -> calm (St := St) U (addCreds uid creds tags lang token) (fun _ => True).
Proof. intros Hu. unfold addCreds. calm. Qed.
Lemma calm_check_all uid fail creds : U uid -> forall methods tags, calm (St := St) U (check_all uid fail creds methods tags) (fun _ => True).
Proof. intros Hu. induction creds as [|cr creds IH]; intros methods tags; cbn [check_all]; calm; apply IH. Qed.
#[local] Hint Resolve calm_check_all : client.
Lemma calm_validatedCreds uid lvl creds fail : U uid -> calm (St := St) U (validatedCreds uid lvl creds fail) (fun _ => True).
Proof. intros Hu. unfold validatedCreds. calm. Qed.
#[local] Hint Resolve calm_validatedCreds calm_addCreds : client.
Lemma calm_missing rec creds : U rec.(ar_Uid) -> calm (St := St) U (missing_credentials rec creds) (fun _ => True).
Proof. intros Hu. unfold missing_credentials. calm. Qed.
Lemma calm_updateAuth scheme secret addr uid : U uid -> calm (St := St) U (updateUserAuth scheme secret addr uid) (fun _ => True).
Proof. intros Hu. unfold updateUserAuth. calm. Qed.
Lemma calm_precheck creds : calm (St := St) U (precheck_all creds) (fun _ => True).
Proof. induction creds as [|cr creds IH]; cbn [precheck_all]; calm. Qed.
Lemma calm_remove uid answer : U uid -> calm (St := St) U answer (fun _ => True) -> calm U (remove_account uid answer) (fun _ => True).
Proof. intros Hu H. unfold remove_account. calm; auto. Qed.
Lemma calm_update_credentials uid lvl creds : U uid -> calm (St := St) U (update_credentials uid lvl creds) (fun _ => True).
Proof. intros Hu. unfold update_credentials. calm. Qed.
Lemma calm_delete_records uid names : U uid -> calm (St := St) U (delete_records uid names) (fun _ => True).
Proof. intros Hu. induction names as [|name names IH]; cbn [delete_records]; calm; auto. Qed.
Lemma calm_reset secret : calm (St := St) U (authSecretReset secret) (fun _ => True).
Proof. unfold authSecretReset. calm. Qed.
End Calm.
#[export] Hint Resolve calm_capabilities calm_addCreds calm_missing calm_updateAuth calm_precheck calm_remove calm_update_credentials
  calm_delete_records calm_reset : client.
