(* ===== verification/ClientProps.v ===== *)
(** * ClientProps: what a session may do, and on whose behalf

    For every message of a client and every behaviour of the authenticators and of the store ([Accounts] with the laws [AccountsOk]): what
    reaches the hub and the topics speaks for the user who logged in to the session, or for another one if the session is of root; a session
    takes its identity and its version once, and the identity only from an authenticator; where names lead; what a resumption restores, and
    that dispatching ends. *)

From Stdlib Require Import NArith ZArith Lia List Ascii String Bool.
From stdpp Require Import base tactics numbers list strings gmap sets relations.
From S2P Require Import Prelude AccessMode Uid StoreTypes Drafty Messages Utils SendQueue SubStore TopicStore Topic TopicInit Hub ClientBase Accounts Client ClientRules.
Import Objects Ranges.
Import Utils.Slices Utils.Tags Utils.Versions.
Import Topic.

#[local] Open Scope string_scope.
#[local] Open Scope Z_scope.

(** Decides the calm steps of a computation that [keeps]. *)
Ltac keeps_calm := apply (keeps_still _ _ (fun _ => True)); by calm.
(** The same of a computation that calls for accounts of [U]. *)
Ltac keeps_for U ok := apply (keeps_calm _ U _ (fun _ => True)); [ok|by calm].
Ltac keeps_if := match goal with |- keeps _ (if ?b then _ else _) => destruct b end.
Ltac step_for U ok := eapply (keeps_bind_calm _ U _ _ (fun _ => True)); [ok|by calm|intros ? _].
Ltac calm_step := eapply (keeps_bind_still _ _ _ (fun _ => True)); [by calm|intros ? _].

Section Keeps.
Context {St : Type} `{Acc : Accounts St, G : Globals} `{Laws : !AccountsOk Acc}.

Lemma stable_true : stable (fun _ => True). Proof. done. Qed.

Lemma keeps_then (P P' : ClientSession -> Prop) {A B} (m : CM (St := St) A) (k : A -> CM B) :
  (forall s, P s -> P' s) -> stable P' -> keeps P m -> (forall a, keeps P' (k a)) -> keeps P (cbind m k).
Proof.
  intros H Hst Hm Hk w Hok HP. specialize (Hm w Hok HP). unfold cbind. destruct (m w) as [w1 [a|e|p]]; cbn [fst snd] in *; [|done..].
  eapply goes_trans; [exact Hm|]. apply Hk; [apply Hm|]. eapply Hst; [exact Hok|apply Hm|by apply H].
Qed.

(** ** Logging in *)

Definition grants (addr : string) (rec : AuthRec) : Prop :=
  rec.(ar_Uid) <> 0%N /\ (vouched addr rec.(ar_Uid) \/ created rec.(ar_Uid)) /\
  (has_feature rec.(ar_Features) FeatureNoLogin = false -> granted addr rec.(ar_Uid) rec.(ar_AuthLevel)).
Definition outside (addr : string) (s : ClientSession) : Prop := s.(cs_uid) = 0%N /\ s.(cs_remoteAddr) = addr.

(** A connection from the address; what it may change there. *)
Definition from (addr : string) (s : ClientSession) : Prop := s.(cs_remoteAddr) = addr.
Lemma stable_from addr : stable (from addr).
Proof. intros s s' _ He H. unfold from. by destruct (same_connection _ _ He) as (_ & _ & _ & _ & ->). Qed.
Lemma grants_allow addr rec : grants addr rec -> allows (from addr) (eq rec.(ar_Uid)).
Proof. intros (_ & [H|H] & _) s u _ <- <-; right; right; [by left|by right]. Qed.
Lemma allows_created P u : created u -> allows P (eq u).
Proof. intros H s v _ _ <-. by do 3 right. Qed.

Lemma login_step addr rec s :
  grants addr rec -> outside addr s -> has_feature rec.(ar_Features) FeatureNoLogin = false ->
  keeps (fun s' => s' = s) (cput (with_identity s rec.(ar_Uid) s.(cs_authLvl)) ;;~
    (if has_sessionStore then cemit (SetSessionUid s.(cs_sid) rec.(ar_Uid)) else cret tt) ;;~
    cput (with_identity s rec.(ar_Uid) rec.(ar_AuthLevel)) ;;~ cret 0).
Proof.
  intros (Hu & _ & Hg) [H0 Ha] Hf w Hok Hs. cbn in Hs.
  assert (session_ok (with_identity s rec.(ar_Uid) rec.(ar_AuthLevel)) /\ evolves s (with_identity s rec.(ar_Uid) rec.(ar_AuthLevel))) as [Ho He].
  { split; [by intros H|]. split; [done|by left|]. right. split; [done|]. split; [done|]. rewrite Ha. by apply Hg. }
  destruct has_sessionStore; (split; [exact Ho|]); cbn [c_sess c_sent fst cbind cput cemit cret]; rewrite Hs; (split; [exact He|]).
  - exists [SetSessionUid s.(cs_sid) rec.(ar_Uid)]. split; [done|]. by constructor.
  - by exists [].
Qed.

Lemma keeps_onLogin addr rec missing : grants addr rec -> keeps (outside addr) (onLogin rec missing).
Proof using Type.
  intros Hg. unfold onLogin.
  eapply (keeps_then _ (fun _ => True)); [done|done| |intros [[c params] rec']; keeps_calm].
  destruct missing as [|x l]; [|keeps_calm]. apply keeps_sess. intros s _ Hs.
  eapply (keeps_then _ (from addr)); [intros s' ->; apply Hs|apply stable_from| |intros lifetime; keeps_for (eq rec.(ar_Uid)) ltac:(by apply grants_allow)].
  destruct (has_feature _ _) eqn:Ef; [keeps_calm|]. by eapply login_step.
Qed.

(** ** Accounts *)

Lemma keeps_complete m a addr creds tags uid :
  uid <> 0%N -> created uid -> keeps (fun s => a.(ca_Login) = true -> outside addr s) (complete_account m a addr creds tags uid).
Proof using Laws.
  intros Hu Hc. pose proof (allows_created (fun s => a.(ca_Login) = true -> outside addr s) uid Hc) as Ha. unfold complete_account. calm_step.
  eapply (keeps_bind_calm _ (eq uid) _ _ (fun r => exists st, (auth_add a.(ca_Scheme) (rec_of uid 0 0 0 tags "") a.(ca_Secret) addr st).2 = r)); [done| |].
  { apply client_calm_account; [done|]. by eexists. }
  intros r [st Hr]. assert (forall answer, calm (eq uid) answer (fun _ => True) -> keeps (fun s => a.(ca_Login) = true -> outside addr s) (remove_account uid answer)) as Hremove.
  { intros answer H. apply (keeps_calm _ (eq uid) _ (fun _ => True)); [done|]. by apply calm_remove. }
  destruct r as [rec|e]; [|apply Hremove; by calm].
  destruct (auth_add _ _ _ _ st) as [st' r] eqn:E. cbn [snd] in Hr. subst r. pose proof (add_user _ _ _ _ _ _ _ E) as Hid. cbn in Hid.
  keeps_if; [apply Hremove; by calm|]. calm_step. keeps_if; [keeps_calm|]. calm_step. step_for (eq uid) ltac:(done).
  match goal with |- keeps _ (match ?x with inl _ => _ | inr _ => _ end) => destruct x end; [|apply Hremove; by calm].
  step_for (eq uid) ltac:(done).
  assert (forall (r : MsgServerCtrl * list (string * Any)), keeps (fun _ => True) (reply (St := St) (st_Id m) (with_params r.1 r.2) ;;~ cemit (PluginAccount uid plgActCreate))) as Hend
    by (intros r; keeps_for (eq uid) ltac:(by apply allows_created)).
  destruct (ca_Login a); [|eapply (keeps_weaken _ (fun _ => True)); [done|]; eapply (keeps_bind_still _ _ _ (fun _ => True)); [by calm|]; intros r _; apply Hend].
  eapply (keeps_then _ (fun _ => True)); [done|done| |apply Hend]. eapply keeps_weaken; [intros s Hs; exact (Hs eq_refl)|].
  apply keeps_onLogin. split; [by rewrite Hid|]. split; [right; by rewrite Hid|]. intros Hf. exists rec. split; [done|]. split; [done|]. split; [done|]. right.
  rewrite Hid. by exists a.(ca_Scheme), a.(ca_Secret), tags, st, st'.
Qed.

Lemma keeps_create m a rec : keeps (fun _ => True) (replyCreateUser m a rec).
Proof using Laws.
  unfold replyCreateUser. apply keeps_sess. intros s _ _.
  destruct (ca_Login a && _) eqn:El; [keeps_calm|]. calm_step. keeps_if; [keeps_calm|]. calm_step.
  match goal with u : bool * option GoError |- _ => destruct u as [[] err] end; [|keeps_calm].
  destruct (new_state _ _); [|keeps_calm]. keeps_if; [keeps_calm|]. calm_step.
  match goal with u : option (string * GoError) |- _ => destruct u as [[method e]|] end; [keeps_calm|]. destruct (new_profile _ _) as [user private].
  eapply (keeps_bind_still _ _ _ (fun r => forall uid, r = inl uid -> uid <> 0%N /\ created uid)).
  { apply client_calm_call. intros st uid H. destruct (user_create _ _ _ _) as [st' r] eqn:E. cbn in H. subst. split; [by eapply create_user|].
    by eexists _, _, _, _, _. }
  intros [uid|e] Huid; [|keeps_calm]. destruct (Huid uid eq_refl) as [Hne Hc]. eapply keeps_weaken; [|by apply (keeps_complete m a s.(cs_remoteAddr))].
  intros s' -> Hl. split; [|done]. rewrite Hl in El. cbn [andb] in El. apply orb_false_iff in El as [El _]. apply negb_false_iff in El. by apply N.eqb_eq in El.
Qed.

Lemma allows_root U : allows is_root U. Proof. intros s u _ H _. by right; left. Qed.
Lemma allows_change u : allows (fun s => may_change s u) (eq u). Proof. by intros s v _ H <-. Qed.

Lemma keeps_state uid user text : keeps is_root (changeUserState (St := St) uid user text).
Proof.
  unfold changeUserState. destruct (NewObjState text) as [st [e|]]; [keeps_calm|]. keeps_if; [keeps_calm|]. keeps_if; [keeps_calm|].
  eapply client_keeps_bind; [apply stable_root| |intros _].
  { keeps_if; [keeps_calm|]. apply client_keeps_emit. intros s _ H. by right. }
  step_for (eq uid) ltac:(apply allows_root). destruct a; [keeps_calm|].
  eapply client_keeps_bind; [apply stable_root| |intros _; keeps_calm]. by apply client_keeps_emit.
Qed.

Lemma account_state s m a rec r : account_of s m a rec = inl r -> String.eqb a.(ca_State) "" = false -> is_root s.
Proof.
  unfold account_of. intros H E. destruct (_ && _); [done|]. destruct (_ && _); [done|].
  destruct (match rec with Some r0 => _ | None => _ end) as [u l]. destruct (_ && _); [done|]. destruct (if _ : bool then _ else (u, l)) as [u' l'].
  destruct (IsZeroUid _); [done|]. rewrite E in H. cbn [negb andb] in H. unfold is_root. by destruct (Z.eqb_spec s.(cs_authLvl) LevelRoot).
Qed.

(** A message that names its sender speaks for it. *)
Definition speaks_if (m : Stamped) (s : ClientSession) : Prop := m.(st_AsUser) <> "" -> speaks m s.
(** What a temporary secret, sent from the address, showed. *)
Definition proved_by (addr : string) (rec : option AuthRec) : Prop :=
  forall r, rec = Some r -> exists scheme secret st st' challenge, authenticate scheme secret addr st = (st', inl (r, challenge)).

(** The account that an {acc} is about is that of the session's user, that of the temporary secret, or named by root. *)
Lemma account_allowed s m a rec uid lvl :
  speaks_if m s -> proved_by s.(cs_remoteAddr) rec -> account_of s m a rec = inl (uid, lvl) -> may_change s uid.
Proof.
  intros Hm Hrec H. unfold account_of in H. destruct (_ && _) in H; [done|]. destruct (_ && _) in H; [done|].
  destruct rec as [r|]; cbv zeta in H; set (other := negb _ && negb _) in H.
  - destruct other; cbn [andb] in H.
    { destruct (Z.eqb_spec s.(cs_authLvl) LevelRoot) as [Hr|]; [by right; left|done]. }
    destruct (IsZeroUid (ParseUserId (UserId r.(ar_Uid)))) eqn:Ez; [done|]. destruct (_ && _) in H; [done|]. injection H as <- _.
    destruct (Hrec r eq_refl) as (scheme & secret & st & st' & ch & E). right; right; left. exists scheme, secret, st, st', r, ch.
    split; [done|]. split; [by apply N.eqb_neq|by right].
  - destruct other; cbn [andb] in H.
    { destruct (Z.eqb_spec s.(cs_authLvl) LevelRoot) as [Hr|]; [by right; left|done]. }
    destruct (IsZeroUid (ParseUserId m.(st_AsUser))) eqn:Ez; [done|]. destruct (_ && _) in H; [done|]. injection H as <- _.
    apply N.eqb_neq in Ez. destruct Hm as (_ & _ & [[E _]|[Hr _]]); [by intros E; rewrite E in Ez|left|by right; left].
    split; [done|]. right. by rewrite E.
Qed.

Lemma keeps_update m a rec : keeps (fun s => speaks_if m s /\ proved_by s.(cs_remoteAddr) rec) (replyUpdateUser (St := St) m a rec).
Proof.
  unfold replyUpdateUser. apply keeps_sess. intros s _ [Hm Hrec]. destruct (account_of s m a rec) as [[uid lvl]|] eqn:Ea; [|keeps_calm].
  pose proof (account_allowed s m a rec uid lvl Hm Hrec Ea) as Hok.
  calm_step. destruct a0 as [[user|]|]; [|keeps_calm..].
  eapply (keeps_then _ (fun s' => may_change s' uid)); [by intros s' ->|apply stable_change| |intros r; keeps_for (eq uid) ltac:(apply allows_change)].
  assert (allows (fun s' => s' = s) (eq uid)) as Hs by (by intros s' u _ -> <-). unfold update_account.
  destruct (negb (String.eqb (ca_Scheme a) "")); [keeps_for (eq uid) ltac:(done)|]. destruct (ca_Cred a); [|keeps_for (eq uid) ltac:(done)].
  destruct (String.eqb (ca_State a) "") eqn:Es; cbn [negb]; [keeps_calm|].
  eapply (keeps_then _ (fun _ => True)); [done|done| |intros r; keeps_calm].
  eapply keeps_weaken; [|apply keeps_state]. intros s' ->. by eapply account_state.
Qed.

(** ** Deleting an account *)

Lemma keeps_each (P : ClientSession -> Prop) {A} (f : A -> CM (St := St) unit) l : stable P -> (forall x, keeps P (f x)) -> keeps P (each f l).
Proof.
  intros Hst Hf. induction l as [|x l IH]; cbn [each]; [keeps_calm|]. by apply client_keeps_bind.
Qed.

Definition may_remove (uid : Uid) (s : ClientSession) : Prop := (uid = s.(cs_uid) /\ uid <> 0%N) \/ is_root s.
Lemma stable_delete uid : stable (may_remove uid).
Proof. apply stable_or; [apply stable_own|apply stable_root]. Qed.
Lemma may_remove_user uid s : session_ok s -> may_remove uid s -> s.(cs_uid) <> 0%N.
Proof. intros Hok [[-> H]|H]; [done|by apply root_uid]. Qed.

Lemma allows_remove uid : allows (may_remove uid) (eq uid).
Proof. intros s u _ [[-> H]|H] <-; [left; by apply named_own|by right; left]. Qed.

Lemma user_to_delete_sound m s d uid : session_ok s -> speaks m s -> user_to_delete s d = inl uid -> may_remove uid s.
Proof.
  intros Hok Hs H. unfold user_to_delete in H. destruct (_ || _) in H.
  - destruct (_ && _) in H; [done|]. injection H as <-. left. split; [done|]. by apply (speaks_user m).
  - right. unfold is_root. by destruct (Z.eqb_spec s.(cs_authLvl) LevelRoot).
Qed.

Lemma keeps_tell uid topic : keeps (may_remove uid) (tell_subscribers (St := St) topic).
Proof. unfold tell_subscribers. calm_step. keeps_if; [|keeps_calm]. apply client_keeps_emit. intros s Hok H. by eapply may_remove_user. Qed.
Lemma keeps_unload uid topic : keeps (may_remove uid) (unload_p2p (St := St) topic).
Proof.
  unfold unload_p2p. destruct (GetTopicCat topic) as [[]|]; try keeps_calm. apply client_keeps_emit. intros s Hok H. by eapply may_remove_user.
Qed.

(** The next step of a computation that deletes. *)
Ltac deleting := eapply client_keeps_bind; [apply stable_delete| |intros ?].

Lemma keeps_delete m d : keeps (speaks m) (replyDelUser m d).
Proof using Type.
  unfold replyDelUser. apply keeps_sess. intros s Hok Hs.
  destruct (user_to_delete s d) as [uid|c] eqn:Ed; [|keeps_calm].
  eapply (keeps_weaken _ (may_remove uid)); [intros s' ->; by eapply user_to_delete_sound|].
  calm_step. step_for (eq uid) ltac:(apply allows_remove). keeps_if; [keeps_calm|].
  do 3 (deleting; [by apply client_keeps_emit|]).
  eapply (keeps_bind_still _ _ _ (fun _ => True)); [by calm|intros contacts _].
  deleting. { destruct contacts; [by apply client_keeps_emit|keeps_calm]. }
  eapply (keeps_bind_still _ _ _ (fun _ => True)); [by calm|intros own _].
  deleting. { destruct own; [|keeps_calm]. apply keeps_each; [apply stable_delete|]. intros. apply keeps_tell. }
  eapply (keeps_bind_still _ _ _ (fun _ => True)); [by calm|intros topics _].
  deleting. { destruct topics; [|keeps_calm]. apply keeps_each; [apply stable_delete|]. intros. apply keeps_unload. }
  keeps_for (eq uid) ltac:(apply allows_remove).
Qed.

(** ** Handshake *)

Lemma keeps_put_same (P : ClientSession -> Prop) s' :
  (forall s, P s -> s'.(cs_proto) = s.(cs_proto) /\ s'.(cs_sid) = s.(cs_sid) /\ s'.(cs_wsBinary) = s.(cs_wsBinary) /\ s'.(cs_multi) = s.(cs_multi) /\
     s'.(cs_remoteAddr) = s.(cs_remoteAddr) /\ s'.(cs_ver) = s.(cs_ver) /\ s'.(cs_userAgent) = s.(cs_userAgent) /\ s'.(cs_platf) = s.(cs_platf) /\
     s'.(cs_uid) = s.(cs_uid) /\ s'.(cs_authLvl) = s.(cs_authLvl)) ->
  keeps (St := St) P (cput s').
Proof.
  intros H. apply keeps_put. intros s Hok HP. destruct (H s HP) as (H1 & H2 & H3 & H4 & H5 & H6 & H7 & H8 & H9 & H10). split.
  - split; [done|by left|by left].
  - unfold session_ok. by rewrite H9, H10.
Qed.

Lemma keeps_hello_done m h updated params : keeps (fun _ => True) (hello_done (St := St) m h updated params).
Proof.
  unfold hello_done. apply keeps_sess. intros s _ _. eapply (keeps_then _ (fun _ => True)); [done|done| |intros _; keeps_calm].
  apply keeps_put_same. by intros s' ->.
Qed.

Lemma keeps_hello h m : keeps (fun _ => True) (hello (St := St) h m).
Proof.
  unfold hello. apply keeps_sess. intros s Hok _. destruct (Z.eqb_spec s.(cs_ver) 0) as [Hv|Hv].
  - destruct (hello_version s _) as [ver|c] eqn:Eh; [|keeps_calm].
    eapply (keeps_then _ (fun _ => True)); [done|done| |intros _; eapply client_keeps_bind; [done|destruct (ch_Background h); keeps_calm|intros _; apply keeps_hello_done]].
    apply keeps_put. intros s' _ ->. split; [|exact Hok]. split; [done| |by left]. right. split; [done|].
    unfold hello_version in Eh. destruct (Z.eqb_spec (parseVersion IsDigit h.(ch_Version)) 0) as [|Hne]; [done|].
    destruct (_ || _) eqn:Eo in Eh; [done|]. injection Eh as <-. apply orb_false_iff in Eo as [E1 E2]. split; [done|].
    apply Z.ltb_ge in E1. split; [exact E1|]. cbn. intros Hb. rewrite Hb in E2. by apply Z.ltb_ge in E2.
  - keeps_if; [|keeps_calm]. destruct (N.eqb_spec s.(cs_uid) 0) as [Hu|Hu].
    { assert (IsZeroUid s.(cs_uid) = true) as -> by (unfold IsZeroUid; by apply N.eqb_eq). keeps_calm. }
    keeps_if; [keeps_calm|].
    eapply (keeps_then _ (fun _ => True)); [done|done| |intros [[]|]; (apply keeps_hello_done || keeps_calm)].
    unfold hello_device. eapply (keeps_weaken _ (fun s' => s' = s)); [done|]. apply keeps_sess. intros s2 _ ->.
    assert (allows (fun s' => s' = s) (eq s.(cs_uid))) as Ha by (intros s' u _ -> <-; left; by apply named_own).
    keeps_if; [keeps_for (eq s.(cs_uid)) ltac:(done)|]. keeps_if; [|keeps_calm].
    step_for (eq s.(cs_uid)) ltac:(done). eapply (keeps_then _ (fun _ => True)); [done|done| |intros _; keeps_calm]. apply client_keeps_emit. by intros s' _ ->.
Qed.

(** ** Topics *)

Lemma keeps_send (P : ClientSession -> Prop) m e : (forall s, session_ok s -> P s -> authorized s e) -> keeps P (send_or_unavailable (St := St) m e).
Proof. intros H. unfold send_or_unavailable. calm_step. keeps_if; [by apply client_keeps_emit|keeps_calm]. Qed.

Lemma keeps_routed (P : ClientSession -> Prop) m (k : Stamped -> CM (St := St) unit) : (forall rcpt, keeps P (k (with_RcptTo m rcpt))) -> keeps P (routed m k).
Proof. intros H. unfold routed. destruct (expandTopicName m _); [apply H|keeps_calm]. Qed.

(** Closes the branches that reply or send the message. *)
Ltac sending :=
  repeat first [keeps_calm | (apply keeps_send; by intros ? _ ->) | (apply client_keeps_emit; by intros ? _ ->) | keeps_if].

Lemma keeps_join m : keeps (speaks m) (join (St := St) m).
Proof.
  unfold join. apply keeps_sess. intros s _ Hs. eapply (keeps_then _ (fun _ => True)); [done|done| |intros _; keeps_calm]. sending.
Qed.
Lemma keeps_subscribe m : keeps (speaks m) (subscribe (St := St) m).
Proof using Type.
  unfold subscribe. calm_step. keeps_if.
  - eapply (keeps_bind_still _ _ _ (fun _ => True)).
    { destruct (_ =? _); [by apply client_calm_ret|]. unfold canCreateManagedTopic. by calm. }
    intros [[]|] _; [|keeps_calm..]. calm_step. apply (keeps_join (with_RcptTo m a0)).
  - destruct (expandTopicName m _) as [rcpt|c]; [|keeps_calm]. apply (keeps_join (with_RcptTo m rcpt)).
Qed.
Lemma keeps_leave l m : keeps (speaks m) (leave (St := St) l m).
Proof. unfold leave. apply keeps_routed. intros rcpt. apply keeps_sess. intros s _ Hs. sending. Qed.
Lemma keeps_publish p m : keeps (speaks m) (publish (St := St) p m).
Proof.
  unfold publish. keeps_if; [keeps_calm|]. apply keeps_routed. intros rcpt. apply keeps_sess. intros s _ Hs.
  destruct (resolve_forward s _ p); [|keeps_calm]. cbv zeta. sending.
Qed.
Lemma client_keeps_get g m : keeps (speaks m) (get_ (St := St) g m).
Proof. unfold get_. apply keeps_routed. intros rcpt. cbv zeta. apply keeps_sess. intros s _ Hs. sending. Qed.
Lemma client_keeps_set x m : keeps (speaks m) (set_ (St := St) x m).
Proof. unfold set_. apply keeps_routed. intros rcpt. cbv zeta. apply keeps_sess. intros s _ Hs. sending. Qed.
Lemma keeps_del d m : keeps (speaks m) (del_ d m).
Proof using Type.
  unfold del_. cbv zeta. keeps_if; [apply (keeps_delete (with_MetaWhat m _))|]. apply keeps_routed. intros rcpt. apply keeps_sess. intros s _ Hs. sending.
Qed.

(** ** Requests *)

(** A message whose sender is known speaks for it, once the session has a version. *)
Definition claims (m : Stamped) (s : ClientSession) : Prop := s.(cs_ver) <> 0 -> m.(st_AsUser) <> "" -> speaks m s.

Lemma keeps_note n m : keeps (claims m) (note (St := St) n m).
Proof.
  unfold note. apply keeps_sess. intros s _ Hc. destruct (Z.eqb_spec s.(cs_ver) 0) as [|Hv]; cbn [orb]; [keeps_calm|].
  destruct (String.eqb_spec m.(st_AsUser) "") as [|Ha]; [keeps_calm|]. specialize (Hc Hv Ha).
  destruct (expandTopicName m _) as [rcpt|]; [|keeps_calm]. cbv zeta. destruct (note_wellformed n rcpt) as [[]|]; [|keeps_calm..]. sending.
Qed.

Lemma keeps_versioned m {A} (none : A) (h : CM (St := St) A) : keeps (speaks m) h -> keeps (claims m) (checkVers m none (checkUser m none h)).
Proof.
  intros H. unfold checkVers, checkUser. apply keeps_sess. intros s _ Hc. destruct (Z.eqb_spec s.(cs_ver) 0) as [|Hv]; [keeps_calm|].
  destruct (String.eqb_spec m.(st_AsUser) "") as [|Ha]; [keeps_calm|]. eapply keeps_weaken; [|exact H]. intros s' ->. by apply Hc.
Qed.
Lemma keeps_greeted (P : ClientSession -> Prop) m {A} (none : A) (h : CM (St := St) A) : keeps (fun _ => True) h -> keeps P (checkVers m none h).
Proof. intros H. unfold checkVers. apply keeps_sess. intros s _ _. keeps_if; [keeps_calm|]. by apply (keeps_weaken _ (fun _ => True)). Qed.
Lemma keeps_told m {A} (none : A) (h : CM (St := St) A) : keeps (speaks_if m) h -> keeps (claims m) (checkVers m none h).
Proof.
  intros H. unfold checkVers. apply keeps_sess. intros s _ Hc. destruct (Z.eqb_spec s.(cs_ver) 0) as [|Hv]; [keeps_calm|].
  eapply keeps_weaken; [|exact H]. intros s' ->. exact (Hc Hv).
Qed.
Lemma keeps_done (P : ClientSession -> Prop) (c : CM (St := St) unit) : keeps P c -> keeps P (c ;;~ cret "").
Proof. intros H. eapply (keeps_then P (fun _ => True)); [done|done|exact H|intros _; keeps_calm]. Qed.

(** What is known of a record that was authenticated. *)
Definition authentic (scheme secret addr : string) (r : (AuthRec * option string) + GoError) : Prop :=
  exists st st', authenticate scheme secret addr st = (st', r).
Lemma calm_authenticate scheme secret addr : calm (St := St) (fun _ => False) (ccall (authenticate scheme secret addr)) (authentic scheme secret addr).
Proof. apply client_calm_call. intros st. exists st. destruct (authenticate _ _ _ st) as [st' r]. by exists st'. Qed.

Lemma keeps_acc a m : keeps (speaks_if m) (acc a m).
Proof using Laws.
  unfold acc. apply keeps_sess. intros s _ Hm.
  assert (forall rec, proved_by s.(cs_remoteAddr) rec ->
            keeps (fun s' => s' = s) (if HasPrefix a.(ca_User) "new" then replyCreateUser m a rec else replyUpdateUser m a rec)) as Hanswer.
  { intros rec Hrec. destruct (HasPrefix _ _); (eapply keeps_weaken; [|apply keeps_create || apply keeps_update]); [done|by intros s' ->]. }
  cbv zeta. keeps_if; [|by apply Hanswer]. keeps_if; [keeps_calm|]. calm_step. keeps_if; [keeps_calm|].
  eapply keeps_bind_still; [apply calm_authenticate|]. intros [[rec challenge]|e] (st & st' & E); [|keeps_calm].
  apply Hanswer. intros r [= <-]. by exists a.(ca_TmpScheme), a.(ca_TmpSecret), st, st', challenge.
Qed.

Lemma authentic_grants scheme secret addr rec : authentic scheme secret addr (inl (rec, None)) -> state_ok rec -> grants addr rec.
Proof using Laws.
  intros (st & st' & E) Hs. split; [by eapply authenticate_user|].
  split; [left; exists scheme, secret, st, st', rec, None; split; [done|]; by eapply named_own, authenticate_user|]. intros Hf. exists rec. do 3 (split; [done|]). left. by exists scheme, secret, st, st'.
Qed.

Lemma keeps_login l m : keeps (fun _ => True) (login l m).
Proof using Laws.
  unfold login. apply keeps_sess. intros s _ _. keeps_if; [keeps_calm|].
  destruct (N.eqb_spec s.(cs_uid) 0) as [Hu|Hu]; [|assert (IsZeroUid s.(cs_uid) = false) as -> by (unfold IsZeroUid; by apply N.eqb_neq); cbn [negb]; keeps_calm].
  assert (IsZeroUid s.(cs_uid) = true) as -> by (unfold IsZeroUid; by apply N.eqb_eq). cbn [negb]. calm_step. keeps_if; [keeps_calm|].
  eapply keeps_bind_still; [apply calm_authenticate|]. intros [[rec challenge]|e] Hr; [|keeps_calm].
  eapply keeps_bind_still; [apply calm_check_state|]. intros bad Hbad. destruct bad as [e|]; [keeps_calm|]. destruct challenge; [keeps_calm|].
  pose proof (authentic_grants _ _ _ _ Hr (Hbad eq_refl)) as Hg.
  assert (allows (fun s' => s' = s) (eq rec.(ar_Uid))) as Ha by (intros s' u Hok -> Hu'; by apply (grants_allow _ _ Hg)).
  eapply (keeps_bind_calm _ (eq rec.(ar_Uid)) _ _ (fun _ => True)); [done|by calm|]. intros [missing|e] _; [|keeps_calm].
  eapply (keeps_then _ (fun _ => True)); [done|done| |intros r; keeps_calm].
  eapply keeps_weaken; [|apply (keeps_onLogin s.(cs_remoteAddr) rec missing), Hg]. by intros s' ->.
Qed.

(** ** Resuming *)

Lemma keeps_dispatch_all d id cursors : (forall msg, keeps (fun _ => True) (d msg)) -> forall n, keeps (fun _ => True) (dispatch_all (St := St) d id n cursors).
Proof.
  intros Hd. induction cursors as [|c cursors IH]; intros n; cbn [dispatch_all]; [keeps_calm|].
  eapply client_keeps_bind; [done|apply Hd|intros rcpt]. eapply client_keeps_bind; [done|apply IH|intros rest; keeps_calm].
Qed.

Lemma keeps_resumeTopics d id cursors : (forall msg, keeps (fun _ => True) (d msg)) -> keeps (fun _ => True) (resumeTopics d id cursors).
Proof using Type.
  intros Hd. unfold resumeTopics. eapply client_keeps_bind; [done|by apply keeps_dispatch_all|intros asked]. calm_step. apply keeps_sess. intros s _ _. cbv zeta.
  eapply (keeps_then _ (fun _ => True)); [done|done| |intros _; keeps_calm]. apply keeps_put_same. by intros s' ->.
Qed.

(** What [resume_record] authenticates, and where. *)
Definition resumed (token addr : string) : CM (St := St) (AuthRec + GoError) :=
  r <~~ ccall (authenticate "token" token addr) ;;
  match r with
  | inr e => cret (inr e)
  | inl (rec, challenge) =>
      if bool_decide (is_Some challenge) || has_feature rec.(ar_Features) FeatureNoLogin then cret (inr (StoreErr ErrPermissionDenied))
      else bad <~~ check_state rec ;; cret (match bad with Some e => inr e | None => inl rec end)
  end.
Lemma calm_resumed token addr : calm (fun _ => False) (resumed token addr) (fun r => forall rec, r = inl rec -> grants addr rec).
Proof using Laws.
  unfold resumed. eapply client_calm_bind; [apply calm_authenticate|]. intros [[rec challenge]|e] Hr; [|by apply client_calm_ret].
  destruct (_ || _) eqn:Ec; [by apply client_calm_ret|]. apply orb_false_iff in Ec as [Ec _]. apply bool_decide_eq_false in Ec.
  destruct challenge as [c|]; [by destruct Ec|]. eapply client_calm_bind; [apply calm_check_state|]. intros bad Hbad. apply client_calm_ret.
  destruct bad; [done|]. intros rec' [= <-]. eapply authentic_grants; [exact Hr|by apply Hbad].
Qed.

Lemma keeps_resume d r m : (forall msg, keeps (fun _ => True) (d msg)) -> keeps (fun _ => True) (resume d r m).
Proof using Laws.
  intros Hd. unfold resume. apply keeps_sess. intros s _ _. keeps_if; [keeps_calm|].
  destruct (N.eqb_spec s.(cs_uid) 0) as [Hu|Hu]; [|assert (IsZeroUid s.(cs_uid) = false) as -> by (unfold IsZeroUid; by apply N.eqb_neq); cbn [negb]; keeps_calm].
  assert (IsZeroUid s.(cs_uid) = true) as -> by (unfold IsZeroUid; by apply N.eqb_eq). cbn [negb]. keeps_if; [keeps_calm|]. calm_step. keeps_if; [keeps_calm|].
  unfold resume_record.
  assert (forall (f : ClientSession -> CM (St := St) (AuthRec + GoError)) (k : AuthRec + GoError -> CM (St := St) unit), keeps (fun s' => s' = s) (cbind (f s) k) -> keeps (fun s' => s' = s) (cbind (cbind csess f) k)) as Hassoc.
  { intros f k H w Hok Hw. specialize (H w Hok Hw). rewrite <- Hw in H. exact H. }
  apply Hassoc. eapply keeps_bind_still; [apply calm_resumed|]. intros [rec|e] Hrec; [|keeps_calm].
  eapply (keeps_then _ (fun _ => True)); [done|done| |intros answer].
  - eapply keeps_weaken; [|apply (keeps_onLogin s.(cs_remoteAddr) rec []), Hrec, eq_refl]. by intros s' ->.
  - eapply client_keeps_bind; [done|by apply keeps_resumeTopics|intros restored; keeps_calm].
Qed.

(** ** Dispatching *)

Lemma keeps_handle d r m : (forall msg, keeps (fun _ => True) (d msg)) -> keeps (claims m) (handle d r m).
Proof using Laws.
  intros Hd. assert (forall (c : CM (St := St) unit), keeps (fun _ => True) c -> keeps (claims m) (checkVers m "" (c ;;~ cret ""))) as Hopen
    by (intros c Hc; by apply keeps_greeted, keeps_done).
  destruct r; cbn [handle]; try (apply keeps_versioned, keeps_done).
  - apply keeps_publish.
  - apply keeps_versioned, keeps_subscribe.
  - apply keeps_leave.
  - apply keeps_done. eapply keeps_weaken; [|apply keeps_hello]. done.
  - apply Hopen, keeps_login.
  - by apply Hopen, keeps_resume.
  - apply client_keeps_get.
  - apply client_keeps_set.
  - apply keeps_del.
  - by apply keeps_told, keeps_done, keeps_acc.
  - apply keeps_done, keeps_note.
Qed.

(** Who a message speaks for is known from the session and the message. *)
Lemma speaks_for_claims s msg u l id orig rcpt what :
  session_ok s -> speaks_for s msg = inl (u, l) ->
  claims (mkStamped msg id orig rcpt u l what) s /\ (u <> "" -> s.(cs_uid) <> 0%N).
Proof.
  intros Hok H.
  assert (((u = UserId s.(cs_uid) /\ l = s.(cs_authLvl)) \/ (is_root s /\ ParseUserId u <> 0%N))) as Hw.
  { unfold speaks_for in H. destruct (m_Extra msg) as [x|]; [|injection H as <- <-; by left].
    destruct (_ && _) in H; [injection H as <- <-; by left|]. destruct (Z.eqb_spec s.(cs_authLvl) LevelRoot) as [Hr|]; [|done]. cbn [negb] in H.
    destruct (IsZeroUid _) eqn:Ez; [done|]. injection H as <- _. right. split; [done|]. by apply N.eqb_neq. }
  split; [by intros Hv Ha|]. intros Ha. destruct Hw as [[-> _]|[Hr _]]; [|by apply root_uid]. intros Hu. by rewrite Hu in Ha.
Qed.

Lemma keeps_refresh r m : keeps (fun s => m.(st_AsUser) <> "" -> s.(cs_uid) <> 0%N) (refresh_ua (St := St) r m).
Proof.
  unfold refresh_ua. apply keeps_sess. intros s _ Hs. destruct (_ && _) eqn:E; [|keeps_calm]. apply client_keeps_emit. intros s' _ ->. cbn. apply Hs.
  apply andb_true_iff in E as [E _]. apply andb_true_iff in E as [E _]. apply andb_true_iff in E as [_ E]. by apply negb_true_iff, String.eqb_neq in E.
Qed.

Lemma keeps_message d msg : (forall m, keeps (fun _ => True) (d m)) -> keeps (fun _ => True) (dispatch_message d msg).
Proof using Laws.
  intros Hd. unfold dispatch_message. apply keeps_sess. intros s Hok _. destruct (speaks_for s msg) as [[u l]|c] eqn:Es; [|keeps_calm].
  destruct (request msg) as [r|]; [|keeps_calm]. cbv zeta. calm_step. keeps_if; [keeps_calm|].
  destruct (speaks_for_claims s msg u l (request_id r) (request_topic r) "" 0%N Hok Es) as [Hc Hu]. set (m := mkStamped _ _ _ _ _ _ _) in *.
  eapply (keeps_then _ (fun s' => m.(st_AsUser) <> "" -> s'.(cs_uid) <> 0%N)).
  - by intros s' ->.
  - intros s1 s2 Hok1 He H Ha. apply (stable_uid s1); auto.
  - eapply keeps_weaken; [|by apply keeps_handle]. by intros s' ->.
  - intros rcpt. eapply (keeps_then _ (fun _ => True)); [done|done|apply keeps_refresh|intros _; keeps_calm].
Qed.

Lemma calm_firehose ps msg : calm (St := St) (fun _ => False) (pluginFireHose ps msg) (fun _ => True).
Proof. induction ps as [|p ps IH]; cbn [pluginFireHose]; calm; auto. Qed.

Lemma keeps_dispatch plugins fuel : forall msg, keeps (fun _ => True) (dispatch plugins fuel msg).
Proof using Laws.
  induction fuel as [|fuel IH]; intros msg; cbn [dispatch]; [keeps_calm|].
  eapply keeps_bind_still; [apply calm_firehose|]. intros [[[msg' replaced]|] [[id c]|]] _; try keeps_calm.
  eapply client_keeps_bind; [done|by apply keeps_message|intros rcpt; keeps_calm].
Qed.

(** ** A session over time *)

Context (plugins : list (Plugin St)).
Context (json_wire : string -> option (CliMsg * option string)) (json_array : string -> option (list string)) (json_message : string -> option CliMsg).

Lemma keeps_raw raw : keeps (fun _ => True) (dispatchRaw plugins json_wire json_array json_message raw).
Proof using Laws.
  unfold dispatchRaw. apply keeps_sess. intros s _ _. keeps_if; [keeps_calm|]. keeps_if; [keeps_calm|].
  destruct (decodeClientWireMessages _ _ _ _ _) as [messages|]; [|keeps_calm]. apply (keeps_weaken _ (fun _ => True)); [done|].
  apply keeps_each; [done|]. intros m. eapply client_keeps_bind; [done|apply keeps_dispatch|intros _; keeps_calm].
Qed.

Abbreviation step := (session_step plugins json_wire json_array json_message).

Lemma evolves_same s s' :
  s'.(cs_proto) = s.(cs_proto) -> s'.(cs_sid) = s.(cs_sid) -> s'.(cs_wsBinary) = s.(cs_wsBinary) -> s'.(cs_multi) = s.(cs_multi) ->
  s'.(cs_remoteAddr) = s.(cs_remoteAddr) -> s'.(cs_ver) = s.(cs_ver) -> s'.(cs_userAgent) = s.(cs_userAgent) -> s'.(cs_platf) = s.(cs_platf) ->
  s'.(cs_uid) = s.(cs_uid) -> s'.(cs_authLvl) = s.(cs_authLvl) -> evolves s s'.
Proof. intros. split; auto. Qed.

Lemma step_goes w w' : step w w' -> session_ok w.(c_sess) -> goes w w'.
Proof using Laws.
  intros Hs Hok. destruct Hs; [by apply keeps_raw| | | |]; (split; [exact Hok|]; split; [by apply evolves_same|by exists []]).
Qed.
Lemma steps_go w w' : rtc step w w' -> session_ok w.(c_sess) -> goes w w'.
Proof using Laws.
  induction 1 as [w|w w1 w' Hs _ IH]; intros Hok; [by apply goes_refl|]. pose proof (step_goes w w1 Hs Hok) as Hg.
  eapply goes_trans; [exact Hg|]. apply IH, Hg.
Qed.

(** C16: Whatever its client sends and whatever happens around it, everything a session has ever handed to the hub, to topics or to the session
    store speaks for the user it is logged in as, at the level of that login, or for a user that root named, and nothing that asks for a
    topic was sent before the handshake and the login; and every call of an authenticator, a validator or the store that changes an account
    was for its own user's, for one whose secret an authenticator accepted from its address, for a new one, or made as root. *)
Theorem session_speaks_for_its_user proto sid wsBinary addr st w e :
  rtc step (mkCW (new_session proto sid wsBinary addr) st []) w -> In e w.(c_sent) -> authorized w.(c_sess) e.
Proof using Laws.
  intros Hs Hin. destruct (steps_go _ _ Hs) as (_ & _ & new & Hn & Hf); [done|]. cbn [c_sent] in Hn.
  rewrite Hn, app_nil_r in Hin. apply list_elem_of_In in Hin. by eapply Forall_forall in Hf.
Qed.

(** C17: A session is given its version once, and only one that the server supports (that of the binary protocol, on a binary connection), and
    its identity once: from then on neither changes, and the identity is of a user whom an authenticator accepted in good standing from the
    address of the connection, or of an account it has created. *)
Theorem session_identity_once w w' :
  rtc step w w' -> session_ok w.(c_sess) -> session_ok w'.(c_sess) /\ evolves w.(c_sess) w'.(c_sess).
Proof using Laws. intros Hs Hok. destruct (steps_go _ _ Hs Hok) as (H1 & H2 & _). by split. Qed.
End Keeps.
