(* ===== verification/ClientDispatch.v ===== *)
(** * ClientDispatch: names, refusals, resuming and the end of dispatching

    Which topic a name of a client leads to; the requests that a session refuses without doing anything else; what a resumption restores;
    and that two levels of dispatching are enough, for a resumption as for every other message. *)

From Stdlib Require Import NArith ZArith Lia List Ascii String Bool.
From stdpp Require Import base tactics numbers list strings gmap sets.
From S2P Require Import Prelude AccessMode Uid StoreTypes Drafty Messages Utils SendQueue SubStore TopicStore Topic TopicInit Hub ClientBase Accounts Client ClientRules ClientProps.
Import Objects Ranges.
Import Utils.Slices Utils.Tags Utils.Versions.
Import Topic.

#[local] Open Scope string_scope.
#[local] Open Scope Z_scope.

(** ** Names *)

(** A message that speaks for a user. *)
Definition spoken_by (m : Stamped) (u : Uid) : Prop := m.(st_AsUser) = UserId u /\ u <> 0%N /\ (u < 2 ^ 64)%N.

Lemma prefix_id_inj p u v : u <> 0%N -> v <> 0%N -> (u < 2 ^ 64)%N -> (v < 2 ^ 64)%N -> PrefixId u p = PrefixId v p -> u = v.
Proof.
  intros Hu Hv Bu Bv H. unfold PrefixId, IsZeroUid in H. rewrite !(proj2 (N.eqb_neq _ _)) in H by done.
  apply (f_equal (drop_bytes (String.length p))) in H. rewrite !drop_bytes_append in H.
  by rewrite <- (ParseUid_String u), <- (ParseUid_String v), H.
Qed.

Lemma pair_name_inj a b c d :
  (a < b)%N -> (c < d)%N -> a <> 0%N -> c <> 0%N -> (b < 2 ^ 64)%N -> (d < 2 ^ 64)%N -> P2PName a b = P2PName c d -> a = c /\ b = d.
Proof.
  intros Hab Hcd Ha Hc Hb Hd H. rewrite !P2PName_lt in H by done.
  assert (ParseP2P ("p2p" ++ b64_encode (PutUint64 a ++ PutUint64 b)) = ParseP2P ("p2p" ++ b64_encode (PutUint64 c ++ PutUint64 d))) as E by (by rewrite H).
  rewrite !ParseP2P_encode in E by lia. by injection E.
Qed.

Lemma pair_name_any a b c d :
  a <> b -> c <> d -> a <> 0%N -> b <> 0%N -> c <> 0%N -> d <> 0%N -> (a < 2 ^ 64)%N -> (b < 2 ^ 64)%N -> (c < 2 ^ 64)%N -> (d < 2 ^ 64)%N ->
  P2PName a b = P2PName c d -> (c = a /\ d = b) \/ (c = b /\ d = a).
Proof.
  intros. destruct (N.lt_total a b) as [Hab|[?|Hab]], (N.lt_total c d) as [Hcd|[?|Hcd]]; try done.
  - destruct (pair_name_inj a b c d) as [-> ->]; auto.
  - rewrite (P2PName_sym c d) in *. destruct (pair_name_inj a b d c) as [-> ->]; auto.
  - rewrite (P2PName_sym a b) in *. destruct (pair_name_inj b a c d) as [-> ->]; auto.
  - rewrite (P2PName_sym a b), (P2PName_sym c d) in *. destruct (pair_name_inj b a d c) as [-> ->]; auto.
Qed.

Lemma user_name_plain u :
  u <> 0%N -> String.eqb (UserId u) "" = false /\ String.eqb (UserId u) "me" = false /\ String.eqb (UserId u) "fnd" = false /\
  String.eqb (UserId u) "slf" = false /\ HasPrefix (UserId u) "usr" = true.
Proof. intros H. rewrite UserId_nonzero by done. by split_and!. Qed.

Lemma expand_peer m u v :
  spoken_by m u -> v <> 0%N -> (v < 2 ^ 64)%N ->
  expandTopicName m (UserId v) = if (v =? u)%N then inr (Ctrl.ErrPermissionDenied (UserId v)) else inl (P2PName u v).
Proof.
  intros (Ha & Hu & Bu) Hv Bv. unfold expandTopicName. destruct (user_name_plain v Hv) as (-> & -> & -> & -> & ->).
  rewrite Ha, !ParseUserId_UserId by done. unfold IsZeroUid. rewrite (proj2 (N.eqb_neq v _)); done.
Qed.

(** The names of a session lead home: "me", "fnd" and "slf" lead different users to different topics; a user's name leads to the
    conversation of the two, the same from both ends and no other pair's, and not to oneself; and a channel's name leads to its group. *)
Theorem names_lead_home m1 m2 u v :
  spoken_by m1 u -> spoken_by m2 v ->
  (forall name, In name ["me"; "fnd"; "slf"] -> expandTopicName m1 name = expandTopicName m2 name -> u = v) /\
  (u <> v -> expandTopicName m1 (UserId v) = expandTopicName m2 (UserId u) /\ exists pair, expandTopicName m1 (UserId v) = inl pair /\
     forall m3 x y, spoken_by m3 x -> y <> 0%N -> (y < 2 ^ 64)%N -> expandTopicName m3 (UserId y) = inl pair -> (x = u /\ y = v) \/ (x = v /\ y = u)) /\
  expandTopicName m1 (UserId u) = inr (Ctrl.ErrPermissionDenied (UserId u)) /\
  forall rest, expandTopicName m1 ("chn" ++ rest) = inl ("grp" ++ rest) /\ expandTopicName m1 ("grp" ++ rest) = inl ("grp" ++ rest).
Proof.
  intros H1 H2. pose proof H1 as (Ha & Hu & Bu). pose proof H2 as (Ha2 & Hv & Bv). split; [|split; [|split]].
  - intros name Hin. unfold expandTopicName. rewrite Ha, Ha2. rewrite !ParseUserId_UserId by done.
    destruct Hin as [<-|[<-|[<-|[]]]]; cbn [String.eqb Ascii.eqb Bool.eqb]; intros [= H].
    + by apply UserId_inj.
    + by eapply prefix_id_inj.
    + by eapply prefix_id_inj.
  - intros Hne. rewrite (expand_peer m1 u v), (expand_peer m2 v u) by done. rewrite (proj2 (N.eqb_neq v u)), (proj2 (N.eqb_neq u v)) by auto.
    split; [by rewrite P2PName_sym|]. exists (P2PName u v). split; [done|]. intros m3 x y H3 Hy By. pose proof H3 as (_ & Hx & Bx).
    rewrite (expand_peer m3 x y) by done. destruct (N.eqb_spec y x) as [|Hxy]; [done|]. intros [= E]. apply pair_name_any; auto.
  - rewrite (expand_peer m1 u u) by done. by rewrite N.eqb_refl.
  - done.
Qed.

(** ** Refusals *)

Section Refusals.
Context {St : Type} `{Acc : Accounts St, G : Globals}.

(** Only a reply is sent. *)
Definition only_replies (w : CW St) (id : string) (c : MsgServerCtrl) : CW St * Res string :=
  (mkCW w.(c_sess) w.(c_st) (CReply id c :: w.(c_sent)), Ret "").
(** The requests of users. *)
Definition needs_user (r : Request) : bool := match r with RHi _ | RLogin _ | RResume _ | RAcc _ | RNote _ => false | _ => true end.
Definition needs_version (r : Request) : bool := match r with RHi _ | RNote _ => false | _ => true end.

(** A message that names another user without being root's, or one that is no user, that asks nothing, that would write while the service
    does not, that comes before the handshake, or that needs a user before the login, gets one reply that says so, and nothing else
    happens: the session, the store, the hub and the topics are as before. *)
Theorem refused_requests d msg (w : CW St) :
  let s := w.(c_sess) in
  (forall c, speaks_for s msg = inr c -> dispatch_message d msg w = only_replies w "" c) /\
  forall u lvl, speaks_for s msg = inl (u, lvl) ->
    (request msg = None -> dispatch_message d msg w = only_replies w "" (Ctrl.ErrMalformed "")) /\
    forall r, request msg = Some r ->
      let gated := clientMessageRequiresWrite msg && negb (allows_writes w.(c_st)) in
      (gated = true -> dispatch_message d msg w = only_replies w (request_id r) (Ctrl.ErrServiceUnavailable (request_topic r))) /\
      (gated = false -> s.(cs_ver) = 0 -> s.(cs_userAgent) = "" -> needs_version r = true ->
         dispatch_message d msg w = only_replies w (request_id r) CliCtrl.ErrCommandOutOfSequence) /\
      (gated = false -> s.(cs_ver) <> 0 -> u = "" -> needs_user r = true ->
         dispatch_message d msg w = only_replies w (request_id r) (CliCtrl.ErrAuthRequired (request_topic r))).
Proof using Type.
  cbv zeta. destruct w as [s st sent]. cbn [c_sess c_st]. unfold only_replies. cbn [c_sess c_st c_sent]. split.
  { intros c Hc. unfold dispatch_message, csess, cbind. cbn [c_sess]. by rewrite Hc. }
  intros u lvl Hs. split; [intros Hr; unfold dispatch_message, csess, cbind; cbn [c_sess]; by rewrite Hs, Hr|].
  intros r Hr. unfold dispatch_message, csess, cread, cbind. cbn [c_sess c_st]. rewrite Hs, Hr. cbn [c_st].
  split; [|split].
  - by intros ->.
  - intros -> Hv Hua Hn. unfold handle, checkVers, csess. destruct r; try done; unfold cbind; cbn; rewrite Hv; cbn;
      by rewrite ?Hua, ?andb_false_r.
  - intros -> Hv -> Hn. apply Z.eqb_neq in Hv. unfold handle, checkVers, checkUser, csess. destruct r; try done; unfold cbind; cbn; rewrite Hv; cbn;
      by rewrite ?andb_false_r.
Qed.
End Refusals.

(** ** Resuming *)

Section Resuming.
Context {St : Type} `{Acc : Accounts St, G : Globals}.

Lemma validate_sound cursors : forall seen,
  validateResumeTopics cursors seen = true ->
  NoDup (map rs_Topic cursors) /\ Forall (fun t => ~ In t seen) (map rs_Topic cursors) /\
  Forall (fun c => c.(rs_Topic) <> "" /\ 0 <= c.(rs_SeqId) < 2 ^ 31 /\ 0 <= c.(rs_DelId) < 2 ^ 31) cursors.
Proof.
  induction cursors as [|c cursors IH]; intros seen H; [by repeat constructor|]. cbn [validateResumeTopics] in H.
  destruct (_ || _) eqn:Eb in H; [done|]. destruct (existsb _ _) eqn:Es in H; [done|]. destruct (IH _ H) as (Hn & Hs & Hc). cbn [map].
  to_prop. split; [|split].
  - constructor; [|done]. intros Hin. apply (proj1 (Forall_forall _ _) Hs) in Hin. apply Hin. by left.
  - constructor.
    + intros Hin. assert (existsb (String.eqb c.(rs_Topic)) seen = true) as Ht; [|congruence].
      apply existsb_exists. exists c.(rs_Topic). split; [done|]. apply String.eqb_refl.
    + eapply Forall_impl; [exact Hs|]. intros t Ht Hin. apply Ht. by right.
  - constructor; [|done]. unfold maxResumeCursor in *. split; [done|]. lia.
Qed.

Lemma dispatch_all_topics d id cursors : forall n w w' asked,
  dispatch_all (St := St) d id n cursors w = (w', Ret asked) -> map fst asked = map rs_Topic cursors.
Proof.
  induction cursors as [|c cursors IH]; intros n w w' asked E; cbn [dispatch_all] in E; [by injection E as _ <-|].
  unfold cbind, cret in E. destruct (d _ w) as [w1 [rcpt|e|p]]; [|done..]. destruct (dispatch_all _ _ _ _ w1) as [w2 [rest|e|p]] eqn:Er; [|done..].
  injection E as _ <-. cbn. f_equal. by eapply IH.
Qed.

Lemma filter_sublist {A} (f : A -> bool) l : sublist (List.filter f l) l.
Proof. induction l as [|x l IH]; cbn; [constructor|]. destruct (f x); by constructor. Qed.

Lemma sublist_map {A B} (f : A -> B) l l' : sublist l l' -> sublist (map f l) (map f l').
Proof. induction 1; cbn; by constructor. Qed.

(** What the resumption restores of the topics [asked] in the world [w]: a request that led to a topic whose join was answered
    with success, or to one that the session was attached to before the answers. *)
Definition answered_in (w : CW St) (asked : list (string * string)) : list string := (joins_answered (map snd asked) w.(c_st)).2.
Definition attached_by (w : CW St) (asked : list (string * string)) (name : string) : Prop :=
  name ∈ w.(c_sess).(cs_subs) \/ (name <> "" /\ In name (map snd asked) /\ In name (answered_in w asked)).

Lemma resumeTopics_sound d id cursors w w' restored :
  resumeTopics d id cursors w = (w', Ret restored) ->
  sublist restored (map rs_Topic cursors) /\
  exists w1 asked, dispatch_all d id 0 cursors w = (w1, Ret asked) /\
    (forall t, In t restored <-> exists rcpt, In (t, rcpt) asked /\ rcpt <> "" /\ attached_by w1 asked rcpt) /\
    (forall name, name ∈ w'.(c_sess).(cs_subs) <-> attached_by w1 asked name).
Proof.
  unfold resumeTopics. intros E. unfold cbind at 1 in E. destruct (dispatch_all d id 0 cursors w) as [w1 [asked|e|p]] eqn:Ea; [|done..].
  unfold cbind, ccall, csess, cput, cret in E. destruct (joins_answered _ _) as [st' answered] eqn:Ej. cbn in E. injection E as <- <-.
  split.
  { rewrite <- (dispatch_all_topics _ _ _ _ _ _ _ Ea). apply sublist_map, filter_sublist. }
  exists w1, asked. split; [done|].
  assert (forall name, name ∈ w1.(c_sess).(cs_subs) ∪ list_to_set (filter (fun t => t ∈ map snd asked /\ t <> "") answered) <-> attached_by w1 asked name) as Hs.
  { intros name. unfold attached_by, answered_in. rewrite Ej. cbn [snd].
    rewrite elem_of_union, elem_of_list_to_set, list_elem_of_filter, !list_elem_of_In. tauto. }
  split; [|exact Hs]. intros t. rewrite in_map_iff. split.
  - intros ([t' rcpt] & <- & [Hin Hf]%filter_In). exists rcpt. split; [done|].
    apply andb_true_iff in Hf as [H1 H2]. split; [by apply negb_true_iff, String.eqb_neq in H1|].
    apply Hs. unfold getSub in H2. by apply bool_decide_eq_true in H2.
  - intros (rcpt & Hin & Hn & Ha). exists (t, rcpt). split; [done|]. apply filter_In. split; [done|].
    apply andb_true_iff. cbn [snd]. split; [by apply negb_true_iff, String.eqb_neq|]. unfold getSub. apply bool_decide_eq_true. by apply Hs.
Qed.

Lemma error_text e topic params c : decodeStoreError e topic params = Some c -> c.(Text) <> "resumed".
Proof. unfold decodeStoreError. destruct e as [[[]|]|]; cbn; try (intros [= <-]; done). destruct (get params "topic") as [[]|]; cbn; by intros [= <-]. Qed.

(** C22: A resumption that is confirmed is of a session of the binary protocol that nobody was logged in to, for at most eight different topics
    with cursors that fit, with a token that was accepted; the topics that it reports as restored are among those that were asked for, each once
    and in their order: exactly those whose request led to a topic that answered the join, or that the session was attached to before the answers; and
    afterwards the session is attached to those it was attached to before them, and to every topic that it asked for and that answered, and to no other. *)
Theorem resume_restores d r m w w' c rest :
  resume d r m w = (w', Ret tt) -> w'.(c_sent) = CReply m.(st_Id) c :: rest -> c.(Text) = "resumed" ->
  0 <= versionCompare w.(c_sess).(cs_ver) minProtobufWebSocketVersionValue /\ w.(c_sess).(cs_uid) = 0%N /\
  (List.length r.(re_Topics) <= 8)%nat /\ NoDup (map rs_Topic r.(re_Topics)) /\
  Forall (fun c => c.(rs_Topic) <> "" /\ 0 <= c.(rs_SeqId) < 2 ^ 31 /\ 0 <= c.(rs_DelId) < 2 ^ 31) r.(re_Topics) /\
  exists rec w0 answer w1 asked w2 restored,
    resume_record r.(re_Token) w = (w0, Ret (inl rec)) /\ onLogin rec [] w0 = (w1, Ret answer) /\
    dispatch_all d m.(st_Id) 0 r.(re_Topics) w1 = (w2, Ret asked) /\
    In ("restoredTopics", AList (map AStr restored)) c.(Params) /\ sublist restored (map rs_Topic r.(re_Topics)) /\
    (forall t, In t restored <-> exists rcpt, In (t, rcpt) asked /\ rcpt <> "" /\ attached_by w2 asked rcpt) /\
    (forall name, name ∈ w'.(c_sess).(cs_subs) <-> attached_by w2 asked name).
Proof.
  unfold resume. intros E Hsent Htext. unfold cbind at 1, csess in E.
  assert (forall id c0 w0, reply (St := St) id c0 w0 = (w', Ret tt) -> Text c0 = "resumed") as Hreply.
  { intros id c0 w0 [= <-]. cbn in Hsent. injection Hsent as _ -> _. done. }
  assert (forall id e params w0, reply_error (St := St) id e params w0 = (w', Ret tt) -> False) as Herror.
  { intros id e params w0. unfold reply_error, creply. destruct (decodeStoreError _ _ _) as [c0|] eqn:Ed; [|done].
    intros H. apply Hreply in H. by apply error_text in Ed. }
  destruct (Z.ltb_spec (versionCompare w.(c_sess).(cs_ver) minProtobufWebSocketVersionValue) 0) as [|Hver]; [by apply Hreply in E|].
  destruct (negb (IsZeroUid _)) eqn:Eu in E; [by apply Hreply in E|]. apply negb_false_iff, N.eqb_eq in Eu.
  destruct (_ || _) eqn:Ev in E; [by apply Hreply in E|]. apply orb_false_iff in Ev as [Ev Hval]. apply orb_false_iff in Ev as [_ Hlen].
  apply Nat.ltb_ge in Hlen. apply negb_false_iff in Hval. unfold cbind at 1, cread in E. destruct (negb _) in E; [by apply Hreply in E|].
  unfold cbind at 1 in E. destruct (resume_record _ w) as [w0 [[rec|e]|e|p]] eqn:Erec; [|by apply Herror in E|done..].
  unfold cbind at 1 in E. destruct (onLogin rec [] w0) as [w1 [answer|e|p]] eqn:Elog; [|done..].
  unfold cbind at 1 in E. destruct (resumeTopics _ _ _ w1) as [w2 [restored|e|p]] eqn:Er; [|done..].
  destruct (resumeTopics_sound _ _ _ _ _ _ Er) as (Hsub & w3 & asked & Ea & Hin & Hsubs). injection E as <-. cbn in Hsent. injection Hsent as <- _.
  destruct (validate_sound _ _ Hval) as (Hnd & _ & Hc). do 5 (split; [done|]). exists rec, w0, answer, w1, asked, w3, restored.
  split; [done|]. split; [done|]. split; [done|]. split; [|done].
  cbn. apply in_or_app. right. do 2 right. by left.
Qed.
End Resuming.

(** ** Two levels are enough *)

Section Ends.
Context {St : Type} `{Acc : Accounts St, G : Globals} `{Laws : !AccountsOk Acc}.
Context (plugins : list (Plugin St)).

Lemma bind_ext {A B} (m m' : CM (St := St) A) (k k' : A -> CM B) w :
  m w = m' w -> (forall w1 a, m w = (w1, Ret a) -> k a w1 = k' a w1) -> cbind m k w = cbind m' k' w.
Proof. intros Hm Hk. unfold cbind. rewrite <- Hm. destruct (m w) as [w1 [a|e|p]]; auto. Qed.
Lemma sess_ext {A} (k k' : ClientSession -> CM (St := St) A) w : k w.(c_sess) w = k' w.(c_sess) w -> cbind csess k w = cbind csess k' w.
Proof. done. Qed.

(** A session that somebody is logged in to has no use for what a resumption would dispatch. *)
Definition logged (w : CW St) : Prop := w.(c_sess).(cs_uid) <> 0%N.

Lemma resume_logged d d' r m w : logged w -> resume d r m w = resume d' r m w.
Proof using Type.
  intros H. unfold resume. apply sess_ext. destruct (_ <? 0); [done|].
  assert (IsZeroUid w.(c_sess).(cs_uid) = false) as -> by (by apply N.eqb_neq). done.
Qed.

(** Dispatchers that agree wherever a {resume} would call them give the same. *)
Lemma handle_ext d d' r m w : (forall x, resume d x m w = resume d' x m w) -> handle d r m w = handle d' r m w.
Proof using Type.
  intros H. destruct r as [| | | | |x| | | | |]; try done. cbn [handle]. unfold checkVers. apply sess_ext. destruct (_ =? 0); [done|]. by apply bind_ext.
Qed.
Lemma message_ext d d' msg w : (forall x m, resume d x m w = resume d' x m w) -> dispatch_message d msg w = dispatch_message d' msg w.
Proof using Type.
  intros H. unfold dispatch_message. apply sess_ext. destruct (speaks_for _ _) as [[u l]|]; [|done]. destruct (request msg) as [r|]; [|done]. cbv zeta.
  apply bind_ext; [done|]. intros w1 writes [= <- _]. destruct (_ && _); [done|]. apply bind_ext; [|done]. apply handle_ext. intros x. apply H.
Qed.
Lemma dispatch_ext n n' msg w :
  (forall x m w1, w1.(c_sess) = w.(c_sess) -> resume (dispatch plugins n) x m w1 = resume (dispatch plugins n') x m w1) ->
  dispatch plugins (S n) msg w = dispatch plugins (S n') msg w.
Proof using Type.
  intros H. cbn [dispatch]. apply bind_ext; [done|]. intros w1 [[[msg' replaced]|] [[id c]|]] E; try done.
  apply bind_ext; [|done]. apply message_ext. intros x m. apply H.
  destruct (calm_firehose plugins msg w) as (Hs & _). by rewrite E in Hs.
Qed.

Lemma dispatch_logged n msg w : logged w -> dispatch plugins (S n) msg w = dispatch plugins 1 msg w.
Proof using Type. intros H. apply dispatch_ext. intros x m w1 Hw. apply resume_logged. unfold logged. by rewrite Hw. Qed.

Lemma dispatch_stays n msg w w' r :
  session_ok w.(c_sess) -> logged w -> dispatch plugins n msg w = (w', r) -> session_ok w'.(c_sess) /\ logged w'.
Proof using Laws.
  intros Hok Hl E. pose proof (keeps_dispatch plugins n msg w Hok I) as (H1 & H2 & _). rewrite E in H1, H2. split; [done|].
  by apply (stable_uid _ _ Hok H2).
Qed.

Lemma dispatch_all_logged n id cursors : forall i w,
  session_ok w.(c_sess) -> logged w -> dispatch_all (dispatch plugins (S n)) id i cursors w = dispatch_all (dispatch plugins 1) id i cursors w.
Proof using Laws.
  induction cursors as [|c cursors IH]; intros i w Hok Hl; cbn [dispatch_all]; [done|]. apply bind_ext; [by apply dispatch_logged|].
  intros w1 rcpt E. destruct (dispatch_stays _ _ _ _ _ Hok Hl E). by apply bind_ext; [apply IH|].
Qed.
Lemma resumeTopics_logged n id cursors w :
  session_ok w.(c_sess) -> logged w -> resumeTopics (dispatch plugins (S n)) id cursors w = resumeTopics (dispatch plugins 1) id cursors w.
Proof using Laws. intros Hok Hl. unfold resumeTopics. apply bind_ext; [by apply dispatch_all_logged|done]. Qed.

Lemma calm_keeps_session {A} (m : CM (St := St) A) w w' r : calm (fun _ => True) m (fun _ => True) -> m w = (w', r) -> w'.(c_sess) = w.(c_sess).
Proof. intros Hm E. destruct (Hm w) as (H & _). by rewrite E in H. Qed.

Lemma onLogin_logs_in rec w w' a :
  rec.(ar_Uid) <> 0%N -> has_feature rec.(ar_Features) FeatureNoLogin = false -> onLogin rec [] w = (w', Ret a) ->
  session_ok w'.(c_sess) /\ logged w'.
Proof using Type.
  intros Hu Hf E. unfold onLogin in E. unfold cbind at 1 in E.
  match type of E with context [(?m w)] => destruct (m w) as [w1 [x|e|p]] eqn:E1 end; [|done..].
  assert (w1.(c_sess).(cs_uid) = rec.(ar_Uid)) as H1.
  { unfold cbind at 1, csess in E1. rewrite Hf in E1. unfold cbind at 1 in E1.
    match type of E1 with context [match ?m w with _ => _ end] => destruct (m w) as [w2 [y|e|p]] eqn:E2 end; [|done..].
    assert (w2.(c_sess).(cs_uid) = rec.(ar_Uid)) as H2.
    { unfold cbind, cput, cemit, cret in E2. destruct has_sessionStore; by injection E2 as <- _. }
    rewrite <- H2. f_equal. eapply calm_keeps_session; [|exact E1]. calm. }
  assert (w'.(c_sess) = w1.(c_sess)) as Hw by (destruct x as [[c params] rec']; eapply calm_keeps_session; [|exact E]; calm).
  unfold session_ok, logged. rewrite Hw, H1. by split.
Qed.

Lemma resume_record_sound token w w' rec :
  resume_record token w = (w', Ret (inl rec)) -> rec.(ar_Uid) <> 0%N /\ has_feature rec.(ar_Features) FeatureNoLogin = false.
Proof using Laws.
  intros E. unfold resume_record, cbind at 1, csess in E. unfold cbind at 1, ccall in E.
  destruct (authenticate "token" token _ _) as [st' [[rec0 challenge]|e]] eqn:Ea; [|done]. destruct (_ || _) eqn:Ef in E; [done|].
  apply orb_false_iff in Ef as [_ Ef]. unfold cbind in E. destruct (check_state rec0 _) as [w1 [[bad|]|e|p]]; try done.
  injection E as _ <-. split; [by eapply authenticate_user|done].
Qed.

Lemma resume_same n r m w : resume (dispatch plugins (S n)) r m w = resume (dispatch plugins 1) r m w.
Proof using Laws.
  unfold resume. apply sess_ext. destruct (_ <? 0); [done|]. destruct (negb _); [done|]. destruct (_ || _); [done|].
  apply bind_ext; [done|]. intros w1 known [= <- _]. destruct (negb _); [done|]. apply bind_ext; [done|]. intros w2 [rec|e] Er; [|done].
  destruct (resume_record_sound _ _ _ _ Er) as [Hu Hf]. apply bind_ext; [done|]. intros w3 answer Eo.
  destruct (onLogin_logs_in rec w2 w3 answer Hu Hf Eo). apply bind_ext; [by apply resumeTopics_logged|done].
Qed.

(** C23: Dispatching ends: whatever plugins make of the subscriptions that a resumption dispatches, two levels give what any number of levels
    gives. *)
Theorem dispatch_ends n msg w : dispatch plugins (dispatch_fuel + n) msg w = dispatch plugins dispatch_fuel msg w.
Proof using Laws. apply dispatch_ext. intros x m w1 _. apply (resume_same n). Qed.
End Ends.
