(* ===== verification/AuthToken.v ===== *)
(** * AuthToken: signed tokens

    server/auth/token/auth_token.go: the fixed layout of a token, its signature and what is checked of it.  HMAC-SHA-256 under the key of the
    configuration is the parameter [sign]; times are nanoseconds.  What is generated authenticates until it expires, with the user, the level
    and the features it was made for, and nothing authenticates that was not signed. *)

From Stdlib Require Import NArith ZArith Lia List Ascii String Bool.
From stdpp Require Import base tactics numbers list strings gmap sets.
From S2P Require Import Prelude Uid StoreTypes Messages SubStore TopicStore Topic ClientBase.
Import Objects Ranges.
Import Topic.

#[local] Open Scope string_scope.
#[local] Open Scope Z_scope.

(** [time.Time.Round(time.Millisecond)], half up. *)
Definition round_ms (t : Z) : Z := (t + 500000) / 1000000 * 1000000.

Module Token.

(** [authenticator] without its name: the life of a token and the serial number. *)
Record authenticator := mkAuthenticator { lifetime : Z; serialNumber : Z }.

Record tokenLayout := mkLayout { tl_Uid : N; tl_Expires : N; tl_AuthLevel : N; tl_SerialNumber : N; tl_Features : N }.

(** [binary.Write] and [binary.Read], little endian. *)
Definition encode (tl : tokenLayout) : string :=
  le_split 8 tl.(tl_Uid) ++ le_split 4 tl.(tl_Expires) ++ le_split 2 tl.(tl_AuthLevel) ++ le_split 2 tl.(tl_SerialNumber) ++
  le_split 2 tl.(tl_Features).
Definition field (b : string) (from size : nat) : N := le_combine (String.substring 0 size (drop_bytes from b)).
Definition decode (b : string) : tokenLayout := mkLayout (field b 0 8) (field b 8 4) (field b 12 2) (field b 14 2) (field b 16 2).

Definition dataSize : nat := 18.
Definition hashSize : nat := 32.

Section Token.
Context (sign : string -> string).

(** Conversions to an unsigned integer of [bits] bits. *)
Definition wrap (bits : Z) (z : Z) : N := Z.to_N (z mod 2 ^ bits).

Definition GenSecret (ta : authenticator) (now : Z) (rec : AuthRec) : (string * Z) + GoError :=
  let lifetime := if rec.(ar_Lifetime) =? 0 then ta.(lifetime) else rec.(ar_Lifetime) in
  if lifetime <? 0 then inr (StoreErr ErrExpired)
  else
    let expires := round_ms (now + lifetime) in
    let data := encode (mkLayout rec.(ar_Uid) (wrap 32 (expires / second)) (wrap 16 rec.(ar_AuthLevel)) (wrap 16 ta.(serialNumber))
                                 (rec.(ar_Features) mod 2 ^ 16)%N) in
    inl (data ++ sign data, expires).

Definition Authenticate (ta : authenticator) (now : Z) (token : string) : AuthRec + GoError :=
  if (String.length token <? dataSize + hashSize)%nat then inr (StoreErr ErrMalformed)
  else
    let tl := decode token in
    if negb (String.eqb (String.substring 0 hashSize (drop_bytes dataSize token)) (sign (encode tl))) then inr (StoreErr ErrFailed)
    else if LevelRoot <? Z.of_N tl.(tl_AuthLevel) then inr (StoreErr ErrMalformed)
    else if negb (Z.of_N tl.(tl_SerialNumber) =? ta.(serialNumber)) then inr (StoreErr ErrFailed)
    else
      let expires := Z.of_N tl.(tl_Expires) * second in
      if expires <? now + second then inr (StoreErr ErrExpired)
      else inl (mkAuthRec tl.(tl_Uid) (Z.of_N tl.(tl_AuthLevel)) (expires - now) tl.(tl_Features) None StateUndefined "").

(** ** The layout *)

Lemma field_at p from n w t :
  String.length p = from -> (w < 256 ^ N.of_nat n)%N -> field (p ++ le_split n w ++ t) from n = w.
Proof.
  intros <- H. unfold field. rewrite drop_bytes_append. rewrite <- (le_split_length n w) at 1. rewrite substring_append_prefix, le_combine_split.
  by apply N.mod_small.
Qed.

Definition fits (tl : tokenLayout) : Prop :=
  (tl.(tl_Uid) < 2 ^ 64 /\ tl.(tl_Expires) < 2 ^ 32 /\ tl.(tl_AuthLevel) < 2 ^ 16 /\ tl.(tl_SerialNumber) < 2 ^ 16 /\ tl.(tl_Features) < 2 ^ 16)%N.

Lemma sappend_assoc (a b c : string) : (a ++ b) ++ c = a ++ b ++ c.
Proof. induction a; [done|]. cbn. by f_equal. Qed.

Lemma encode_length tl : String.length (encode tl) = dataSize.
Proof. unfold encode. by rewrite !length_append, !le_split_length. Qed.

Lemma decode_encode tl t : fits tl -> decode (encode tl ++ t) = tl.
Proof.
  intros (H1 & H2 & H3 & H4 & H5). destruct tl as [u e a s f]. unfold decode, encode. cbn [tl_Uid tl_Expires tl_AuthLevel tl_SerialNumber tl_Features] in *.
  rewrite !sappend_assoc. f_equal.
  - by apply (field_at "" 0 8).
  - by apply (field_at (le_split 8 u) 8 4); [apply le_split_length|].
  - rewrite <- (sappend_assoc (le_split 8 u)). by apply field_at; [rewrite !length_append, !le_split_length|].
  - rewrite <- (sappend_assoc (le_split 8 u)), <- (sappend_assoc _ (le_split 2 a)).
    by apply field_at; [rewrite !length_append, !le_split_length|].
  - rewrite <- (sappend_assoc (le_split 8 u)), <- (sappend_assoc _ (le_split 2 a)), <- (sappend_assoc _ (le_split 2 s)).
    by apply field_at; [rewrite !length_append, !le_split_length|].
Qed.

Lemma wrap_small bits z : 0 <= z < 2 ^ bits -> Z.of_N (wrap bits z) = z.
Proof. intros H. unfold wrap. rewrite Z.mod_small by done. lia. Qed.
Lemma wrap_bound bits z : 0 < bits -> (wrap bits z < 2 ^ Z.to_N bits)%N.
Proof.
  intros H. unfold wrap. pose proof (Z.mod_pos_bound z (2 ^ bits) (Z.pow_pos_nonneg 2 bits eq_refl (Z.lt_le_incl _ _ H))) as Hb.
  apply N2Z.inj_lt. rewrite N2Z.inj_pow, !Z2N.id by lia. lia.
Qed.

(** ** Properties *)

(** C19: A token made for a user authenticates that user, at its level and with its features, until a second before it expires, whatever
    follows it; after that it is refused as expired. *)
Theorem token_roundtrip ta now rec token expires tail now' :
  (forall data, String.length (sign data) = hashSize) ->
  GenSecret ta now rec = inl (token, expires) ->
  (rec.(ar_Uid) < 2 ^ 64)%N -> 0 <= rec.(ar_AuthLevel) <= LevelRoot -> (rec.(ar_Features) < 2 ^ 16)%N -> 0 <= ta.(serialNumber) < 2 ^ 16 ->
  0 <= expires < 2 ^ 32 * second ->
  Authenticate ta now' (token ++ tail) =
    (if expires / second * second <? now' + second then inr (StoreErr ErrExpired)
     else inl (mkAuthRec rec.(ar_Uid) rec.(ar_AuthLevel) (expires / second * second - now') rec.(ar_Features) None StateUndefined "")).
Proof.
  intros Hs Hg Hu Hl Hf Hn He.
  set (tl := mkLayout rec.(ar_Uid) (wrap 32 (expires / second)) (wrap 16 rec.(ar_AuthLevel)) (wrap 16 ta.(serialNumber)) (rec.(ar_Features) mod 2 ^ 16)%N).
  assert (encode tl ++ sign (encode tl) = token) as Ht.
  { unfold GenSecret in Hg. destruct (_ <? 0); [done|]. by apply (f_equal (fun r => match r with inl p => p | inr _ => ("", 0) end)), pair_equal_spec in Hg as [Hg <-]. }
  unfold LevelRoot in Hl.
  assert (0 <= expires / second < 2 ^ 32) as Hq.
  { unfold second in *. split; [apply Z.div_pos; lia|]. apply Z.div_lt_upper_bound; lia. }
  assert (fits tl) as Hfit.
  { unfold fits, tl. cbn. split; [done|]. split; [apply (wrap_bound 32); lia|]. do 2 (split; [apply (wrap_bound 16); lia|]). by apply N.mod_lt. }
  assert (token ++ tail = encode tl ++ sign (encode tl) ++ tail) as Htok by (rewrite <- Ht; apply sappend_assoc).
  assert (decode (token ++ tail) = tl) as Hd by (rewrite Htok; by apply decode_encode).
  unfold Authenticate. rewrite Hd. destruct (Nat.ltb_spec (String.length (token ++ tail)) (dataSize + hashSize)) as [Hc|_].
  { rewrite Htok, !length_append, encode_length, Hs in Hc. unfold dataSize, hashSize in Hc. lia. }
  assert (String.substring 0 hashSize (drop_bytes dataSize (token ++ tail)) = sign (encode tl)) as ->.
  { rewrite Htok, <- (encode_length tl), drop_bytes_append, <- (Hs (encode tl)). apply substring_append_prefix. }
  rewrite String.eqb_refl. cbn [negb]. unfold tl. cbn [tl_Uid tl_Expires tl_AuthLevel tl_SerialNumber tl_Features].
  rewrite !wrap_small by lia. destruct (Z.ltb_spec LevelRoot (ar_AuthLevel rec)) as [H|_]; [unfold LevelRoot in H; lia|].
  rewrite Z.eqb_refl. cbn [negb]. by rewrite N.mod_small.
Qed.

Lemma le_split_combine s : le_split (String.length s) (le_combine s) = s.
Proof.
  induction s as [|c s IH]; [done|]. cbn [String.length le_combine le_split].
  rewrite (N.mul_comm 256), N.Div0.mod_add, N.div_add by done. rewrite (N.mod_small _ _ (N_of_ascii_lt c)), (N.div_small _ _ (N_of_ascii_lt c)).
  by rewrite ascii_N_embedding, N.add_0_l, IH.
Qed.
Lemma le_combine_bound s : (le_combine s < 256 ^ N.of_nat (String.length s))%N.
Proof.
  rewrite <- (le_split_combine s) at 1. rewrite le_combine_split. apply N.mod_lt. by apply N.pow_nonzero.
Qed.

Lemma drop_bytes_drop n m s : drop_bytes n (drop_bytes m s) = drop_bytes (m + n) s.
Proof. revert s. induction m as [|m IH]; [done|]. intros [|c s]; [by destruct n|]. apply IH. Qed.
Lemma substring_drop n s : String.substring 0 n s ++ drop_bytes n s = s.
Proof. revert s. induction n as [|n IH]; intros [|c s]; cbn; [done..|]. f_equal. apply IH. Qed.

Lemma split_field b from size rest :
  (from + size <= String.length b)%nat -> le_split size (field b from size) ++ drop_bytes (from + size) b ++ rest = drop_bytes from b ++ rest.
Proof.
  intros H. unfold field. rewrite <- (length_substring size (drop_bytes from b)) at 1 by (rewrite length_drop_bytes; lia).
  rewrite le_split_combine, <- drop_bytes_drop, <- sappend_assoc. by rewrite substring_drop.
Qed.
Lemma field_bound b from size : (from + size <= String.length b)%nat -> (field b from size < 256 ^ N.of_nat size)%N.
Proof.
  intros H. unfold field. rewrite <- (length_substring size (drop_bytes from b)) at 2 by (rewrite length_drop_bytes; lia). apply le_combine_bound.
Qed.

Lemma encode_decode b : (dataSize <= String.length b)%nat -> fits (decode b) /\ encode (decode b) ++ drop_bytes dataSize b = b.
Proof.
  intros H. unfold dataSize in *. split.
  - split_and!; [apply (field_bound b 0 8)|apply (field_bound b 8 4)|apply (field_bound b 12 2)|apply (field_bound b 14 2)|apply (field_bound b 16 2)]; lia.
  - unfold encode, decode. cbn [tl_Uid tl_Expires tl_AuthLevel tl_SerialNumber tl_Features]. rewrite !sappend_assoc.
    pose proof (split_field b 16 2 "") as E5. pose proof (split_field b 14 2 "") as E4. pose proof (split_field b 12 2 "") as E3.
    pose proof (split_field b 8 4 "") as E2. pose proof (split_field b 0 8 "") as E1. cbn [Nat.add] in *.
    assert (forall s : string, s ++ "" = s) as Hnil by (induction s as [|c s IH]; cbn; by f_equal).
    rewrite !Hnil in *. rewrite E5, E4, E3, E2, E1 by lia. done.
Qed.

(** C18: What authenticates carries the signature of exactly the fields it is read as, has the serial number of the configuration, a level
    that exists and at least a second to live; the record is of a user whose state is still to be looked up. *)
Theorem token_sound ta now token rec :
  Authenticate ta now token = inl rec ->
  exists tl tail,
    fits tl /\ token = encode tl ++ sign (encode tl) ++ tail /\ Z.of_N tl.(tl_SerialNumber) = ta.(serialNumber) /\
    rec.(ar_Uid) = tl.(tl_Uid) /\ rec.(ar_AuthLevel) = Z.of_N tl.(tl_AuthLevel) /\ rec.(ar_Features) = tl.(tl_Features) /\
    rec.(ar_AuthLevel) <= LevelRoot /\ second <= rec.(ar_Lifetime) /\ rec.(ar_State) = StateUndefined.
Proof.
  unfold Authenticate. destruct (Nat.ltb_spec (String.length token) (dataSize + hashSize)) as [|Hlen]; [done|].
  destruct (encode_decode token) as [Hfit Henc]; [lia|].
  destruct (String.eqb_spec (String.substring 0 hashSize (drop_bytes dataSize token)) (sign (encode (decode token)))) as [Hsig|]; [|done]. cbn [negb].
  destruct (Z.ltb_spec LevelRoot (Z.of_N (tl_AuthLevel (decode token)))) as [|Hlvl]; [done|].
  destruct (Z.eqb_spec (Z.of_N (tl_SerialNumber (decode token))) (serialNumber ta)) as [Hser|]; [|done]. cbn [negb].
  destruct (Z.ltb_spec (Z.of_N (tl_Expires (decode token)) * second) (now + second)) as [|Hexp]; [done|]. intros [= <-].
  exists (decode token), (drop_bytes hashSize (drop_bytes dataSize token)). split; [done|]. split.
  - rewrite <- Hsig, substring_drop. done.
  - cbn [ar_Uid ar_AuthLevel ar_Features ar_Lifetime ar_State]. unfold second in *. split_and!; try done. change (field token 8 4) with (tl_Expires (decode token)). lia.
Qed.

(** A serial number of more than sixteen bits makes every token fail. *)
Lemma wide_serial_refuses_all ta now token rec : 2 ^ 16 <= ta.(serialNumber) -> Authenticate ta now token <> inl rec.
Proof.
  intros Hs H. unfold Authenticate in H. destruct (Nat.ltb_spec (String.length token) (dataSize + hashSize)) as [|Hlen]; [done|].
  destruct (negb (String.eqb _ _)); [done|]. destruct (_ <? _); [done|].
  destruct (Z.eqb_spec (Z.of_N (tl_SerialNumber (decode token))) (serialNumber ta)) as [He|]; [|done].
  destruct (encode_decode token) as [(_ & _ & _ & Hb & _) _]; [unfold dataSize, hashSize in *; lia|].
  change (2 ^ 16)%N with 65536%N in Hb. lia.
Qed.
End Token.

(** A signature that is not one, of the right length. *)
Definition weak_sign (data : string) : string := le_split 32 (le_combine data mod 1000003)%N.

Lemma token_roundtrip_witness :
  let ta := mkAuthenticator (14 * 24 * 3600 * second) 1 in
  let rec := mkAuthRec 4242 20 0 1 None 0 "" in
  let expires := (1700000000 + 14 * 24 * 3600) * second in
  exists token,
    GenSecret weak_sign ta (1700000000 * second) rec = inl (token, expires) /\ String.length token = 50%nat /\
    Authenticate weak_sign ta (1700000100 * second) (token ++ "x") = inl (mkAuthRec 4242 20 (expires - 1700000100 * second) 1 None StateUndefined "").
Proof.
  intros ta rec expires. destruct (GenSecret weak_sign ta (1700000000 * second) rec) as [[token e]|err] eqn:E; [|by vm_compute in E].
  exists token. assert (e = expires) as -> by (vm_compute in E; vm_compute; congruence). split; [done|]. split; [vm_compute in E; by injection E as <-|].
  etransitivity; [apply (token_roundtrip weak_sign ta (1700000000 * second) rec token expires "x" (1700000100 * second))|].
  - intros data. apply le_split_length.
  - exact E.
  - by vm_compute.
  - by vm_compute.
  - by vm_compute.
  - by vm_compute.
  - by vm_compute.
  - by vm_compute.
Defined.

Definition sample_token : string := encode (mkLayout 7 1700003600 20 1 0).
Lemma token_sound_witness :
  exists rec tl, Authenticate weak_sign (mkAuthenticator 0 1) (1700000000 * second) (sample_token ++ weak_sign sample_token) = inl rec /\
    rec.(ar_Uid) = tl.(tl_Uid) /\ rec.(ar_Uid) = 7%N.
Proof.
  destruct (Authenticate weak_sign (mkAuthenticator 0 1) (1700000000 * second) (sample_token ++ weak_sign sample_token)) as [rec|e] eqn:E; [|by vm_compute in E].
  destruct (token_sound _ _ _ _ _ E) as (tl & tail & _ & _ & _ & Hu & _). exists rec, tl. split; [done|]. split; [done|].
  vm_compute in E. by injection E as <-.
Defined.
End Token.
