(* ===== verification/AuthCode.v ===== *)
(** * AuthCode: short codes that are sent to a user

    server/auth/code/auth_code.go over the persistent cache of PCache: a code is kept under the credential it was sent to, with a count of
    wrong guesses and the user, and is taken out by the right guess.  An attempt is a client of the cache ([Prog]), so that attempts made
    at the same time interleave.  The random code is an argument. *)

From Stdlib Require Import NArith ZArith Lia List Ascii String Bool.
From stdpp Require Import base tactics numbers list strings gmap sets pretty.
From S2P Require Import Prelude Uid StoreTypes Messages Utils SubStore TopicStore Topic ClientBase PCache.
Import Objects Ranges.
Import Topic.
Import Utils.Versions.

#[local] Open Scope string_scope.
#[local] Open Scope Z_scope.

Module Code.

Record authenticator := mkAuthenticator { codeLength : nat; lifetime : Z; maxRetries : Z }.

(** [strings.ReplaceAll(key, "%", "/")] *)
Fixpoint sanitizeKey (key : string) : string :=
  match key with
  | "" => ""
  | String c key' => String (if Ascii.eqb c "%" then "/"%char else c) (sanitizeKey key')
  end.

Definition key_of (cred : string) : string := sanitizeKey ("code_" ++ cred).
Definition entry (code : string) (count : Z) (user : string) : string := code ++ ":" ++ Itoa count ++ ":" ++ user.

(** What a right guess gives. *)
Definition record_of (ca : authenticator) (user cred : string) : AuthRec :=
  mkAuthRec (ParseUid user) LevelNone ca.(lifetime) FeatureNoLogin None StateUndefined cred.

Definition Authenticate (ca : authenticator) (secret : string) : Prog string (AuthRec + GoError) :=
  match SplitN ":" 2 secret with
  | [code; cred] =>
      let key := key_of cred in
      Get key (fun value =>
        match value with
        | inr (StoreErr ErrNotFound) => Done (inr (StoreErr ErrFailed))
        | inr e => Done (inr e)
        | inl value =>
            match Split ":" value with
            | [right_code; count; user] =>
                match Atoi count with
                | None => Done (inr (StoreErr ErrInternal))
                | Some count =>
                    if ca.(maxRetries) <=? count then Done (inr (StoreErr ErrFailed))
                    else if negb (String.eqb right_code code)
                    then Upsert key (entry right_code (count + 1) user) false (fun _ => Done (inr (StoreErr ErrFailed)))
                    else Delete key (fun _ => Done (inl (record_of ca user cred)))
                end
            | _ => Done (inr (StoreErr ErrInternal))
            end
        end)
  | _ => Done (inr (StoreErr ErrMalformed))
  end.

(** [PCacheExpire]: the keys like "code__" followed by anything, an underscore being any character, that were written before a time. *)
Fixpoint like_prefix (pattern key : string) : bool :=
  match pattern, key with
  | "", _ => true
  | String "_" p, String _ k => like_prefix p k
  | String c p, String d k => Ascii.eqb c d && like_prefix p k
  | _, "" => false
  end.
Definition PCacheExpire (pattern : string) (olderThan : Z) (created : gmap string Z) (m : gmap string string) : gmap string string :=
  filter (fun kv => negb (like_prefix pattern kv.1 && match created !! kv.1 with Some t => t <? olderThan | None => false end) = true) m.
Definition expire (ca : authenticator) (now : Z) (created : gmap string Z) (m : gmap string string) : gmap string string :=
  PCacheExpire "code_" (now - ca.(lifetime)) created m.

(** [strings.Repeat("0", codeLength - len)]; no code is longer than that. *)
Definition pad (n : nat) (s : string) : string := string_of_list_ascii (repeat "0"%char (n - String.length s)) ++ s.

(** [GenSecret] after it has expired the old codes: the code, and how long it is told to live. *)
Definition GenSecret (ca : authenticator) (code : Z) (rec : AuthRec) : Prog string ((string * Z) + GoError) :=
  let resp := pad ca.(codeLength) (Itoa code) in
  let life := if rec.(ar_Lifetime) =? 0 then ca.(lifetime) else rec.(ar_Lifetime) in
  if life <? 0 then Done (inr (StoreErr ErrExpired))
  else
    Upsert (key_of rec.(ar_Credential)) (entry resp 0 (UidString rec.(ar_Uid))) true (fun err =>
      match err with
      | Some e => Done (inr e)
      | None => TimeNow (fun now => Done (inl (resp, now + life)))
      end).

(** ** Texts *)

Lemma digits_value_go x s : digits_value 0 (pretty_N_go x s) = digits_value (Z.of_N x) s.
Proof.
  revert s. induction (N.lt_wf_0 x) as [x _ IH]; intros s. destruct (decide (x = 0%N)) as [->|Hx]; [by rewrite pretty_N_go_0|].
  rewrite pretty_N_go_step by lia. rewrite IH by (apply N.div_lt; lia). cbn [digits_value].
  pose proof (N.mod_lt x 10 ltac:(done)) as Hm. pose proof (N.div_mod x 10 ltac:(done)) as Hd.
  assert (in_range 48 57 (pretty_N_char (x mod 10)) = true /\ Z.of_N (N_of_ascii (pretty_N_char (x mod 10)) - 48) = Z.of_N (x mod 10)) as [-> ->].
  { destruct (x mod 10)%N as [|p]; [done|]. do 4 (destruct p as [p|p|]; try done); lia. }
  f_equal. lia.
Qed.

Lemma go_digits x s : all_chars digit_char (pretty_N_go x s) = all_chars digit_char s.
Proof.
  revert s. induction (N.lt_wf_0 x) as [x _ IH]; intros s. destruct (decide (x = 0%N)) as [->|Hx]; [by rewrite pretty_N_go_0|].
  rewrite pretty_N_go_step by lia. rewrite IH by (apply N.div_lt; lia). cbn [all_chars].
  assert (digit_char (pretty_N_char (x mod 10)) = true) as ->; [|done].
  pose proof (N.mod_lt x 10 ltac:(done)). destruct (x mod 10)%N as [|p]; [done|]. do 4 (destruct p as [p|p|]; try done); lia.
Qed.

Lemma Itoa_digits z : 0 <= z -> all_chars digit_char (Itoa z) = true.
Proof. intros H. destruct z as [|p|p]; [done| |lia]. unfold Itoa, pretty, pretty_Z, pretty, pretty_positive, pretty, pretty_N. rewrite decide_False by lia. by rewrite go_digits. Qed.

Lemma Atoi_digits s : all_chars digit_char s = true -> s <> "" -> Atoi s = digits_value 0 s.
Proof. destruct s as [|c s]; [done|]. cbn [all_chars]. intros H _. to_prop. destruct c as [[] [] [] [] [] [] [] []]; done. Qed.

Lemma Atoi_Itoa z : 0 <= z -> Atoi (Itoa z) = Some z.
Proof.
  intros H. destruct (decide (z = 0)) as [->|Hz]; [done|]. destruct z as [|p|p]; [done| |lia].
  assert (digits_value 0 (Itoa (Z.pos p)) = Some (Z.pos p)) as Hv.
  { unfold Itoa, pretty, pretty_Z, pretty, pretty_positive, pretty, pretty_N. rewrite decide_False by lia. rewrite digits_value_go. done. }
  rewrite Atoi_digits; [done|by apply Itoa_digits|]. intros E. by rewrite E in Hv.
Qed.

Definition no_colon (s : string) : bool := all_chars (fun c => negb (Ascii.eqb c ":")) s.

Lemma digits_no_colon s : all_chars digit_char s = true -> no_colon s = true.
Proof.
  unfold no_colon. induction s as [|c s IH]; intros Hs; [done|]. cbn [all_chars] in *. to_prop. rewrite IH by done.
  by destruct (Ascii.eqb_spec c ":") as [->|].
Qed.
Lemma cut_colon a b : no_colon a = true -> Cut ":" (a ++ String ":" b) = (a, Some b).
Proof.
  unfold no_colon. induction a as [|c a IH]; intros Ha; [done|]. cbn [String.append Cut all_chars] in *. to_prop.
  destruct (Ascii.eqb c ":"); [done|]. by rewrite IH.
Qed.
Lemma cut_no_colon a : no_colon a = true -> Cut ":" a = (a, None).
Proof. unfold no_colon. induction a as [|c a IH]; intros Ha; [done|]. cbn [Cut all_chars] in *. to_prop. destruct (Ascii.eqb c ":"); [done|]. by rewrite IH. Qed.

Lemma split_entry code count user :
  no_colon code = true -> 0 <= count -> no_colon user = true -> Split ":" (entry code count user) = [code; Itoa count; user].
Proof.
  intros Hc Hn Hu. unfold Split, entry. set (n := String.length _).
  assert (2 <= n)%nat as Hlen.
  { unfold n. rewrite length_append. cbn [String.append String.length]. rewrite length_append. cbn [String.append String.length]. lia. }
  destruct n as [|[|n]]; [lia..|]. cbn [SplitN]. change (":" ++ ?s)%string with (String ":" s).
  assert (forall s, ":" ++ s = String ":" s)%string as Hcol by done. rewrite !Hcol, cut_colon by done.
  rewrite cut_colon by (apply digits_no_colon, Itoa_digits, Hn). destruct n; [done|]. by rewrite cut_no_colon.
Qed.
Lemma split_secret code cred : no_colon code = true -> SplitN ":" 2 (code ++ ":" ++ cred) = [code; cred].
Proof. intros H. cbn [SplitN]. assert (":" ++ cred = String ":" cred)%string as -> by done. by rewrite cut_colon. Qed.

Lemma b64_encode_chars p s : (forall v, (v < 64)%N -> p (b64_char v) = true) -> all_chars p (b64_encode s) = true.
Proof.
  intros Hp. induction s as [|a|a b|a b c s IH] using string_ind3; [done| | |].
  - pose proof (N_of_ascii_lt a). cbn [b64_encode all_chars].
    destruct (sextets (N_of_ascii a * 65536)) as (H1 & H2 & _ & _ & _); [lia|]. by rewrite !Hp.
  - pose proof (N_of_ascii_lt a). pose proof (N_of_ascii_lt b). cbn [b64_encode all_chars].
    destruct (sextets (N_of_ascii a * 65536 + N_of_ascii b * 256)) as (H1 & H2 & H3 & _ & _); [lia|]. by rewrite !Hp.
  - cbn [b64_encode all_chars]. fold (quantum a b c). destruct (quantum_bytes a b c) as (Hq & _).
    destruct (sextets (quantum a b c) Hq) as (H1 & H2 & H3 & H4 & _). by rewrite !Hp, IH.
Qed.
Lemma uid_no_colon u : no_colon (UidString u) = true.
Proof.
  unfold UidString, UidMarshalText. destruct (u =? ZeroUid)%N; [done|]. apply b64_encode_chars.
  intros v Hv. apply (all_below_spec 64 (fun v => negb (Ascii.eqb (b64_char v) ":"))); [reflexivity|done].
Qed.

Lemma sanitized key : has_percent (sanitizeKey key) = false.
Proof.
  assert (String.index 0 "%" (sanitizeKey key) = None) as H; [|unfold has_percent; by rewrite H].
  induction key as [|c key IH]; [done|]. cbn [sanitizeKey]. set (d := if Ascii.eqb c "%" then _ else c).
  assert (Ascii.eqb "%" d = false) as Hd.
  { unfold d. destruct (Ascii.eqb_spec c "%") as [->|Hc]; [done|]. apply Ascii.eqb_neq. congruence. }
  clearbody d. cbn [String.index String.prefix]. destruct (ascii_dec "%" d) as [Hx|_]; [by rewrite <- Hx in Hd|]. by rewrite IH.
Qed.

(** ** One attempt *)

Section Attempts.
Context (ca : authenticator) (cred code user : string).
Context (Hcode : no_colon code = true) (Huser : no_colon user = true).

Definition secret_of (guess : string) : string := guess ++ ":" ++ cred.

Lemma attempt clock m n guess :
  m !! key_of cred = Some (entry code n user) -> 0 <= n -> no_colon guess = true ->
  eval clock m (Authenticate ca (secret_of guess)) =
    if ca.(maxRetries) <=? n then (m, inr (StoreErr ErrFailed))
    else if String.eqb code guess then (delete (key_of cred) m, inl (record_of ca user cred))
    else (<[key_of cred := entry code (n + 1) user]> m, inr (StoreErr ErrFailed)).
Proof using Hcode Huser.
  intros Hm Hn Hg. unfold Authenticate, secret_of. rewrite split_secret by done. cbn [eval]. unfold PCacheGet. rewrite Hm, split_entry by done.
  rewrite Atoi_Itoa by done. destruct (maxRetries ca <=? n); [done|]. destruct (String.eqb code guess); [done|]. cbn [negb eval].
  unfold PCacheUpsert, key_of. rewrite sanitized. fold (key_of cred). by rewrite Hm.
Qed.

(** Attempts one after the other. *)
Fixpoint attempts (clock : Z) (m : gmap string string) (guesses : list string) : gmap string string * list (AuthRec + GoError) :=
  match guesses with
  | [] => (m, [])
  | g :: guesses' =>
      let '(m1, r) := eval clock m (Authenticate ca (secret_of g)) in
      let '(m2, rs) := attempts clock m1 guesses' in (m2, r :: rs)
  end.

Lemma attempts_fail clock m n guesses :
  m !! key_of cred = Some (entry code n user) -> 0 <= n ->
  Forall (fun g => no_colon g = true) guesses -> Forall (fun g => g <> code) (take (Z.to_nat (ca.(maxRetries) - n)) guesses) ->
  Forall (fun r => r = inr (StoreErr ErrFailed)) (attempts clock m guesses).2.
Proof using Hcode Huser.
  revert m n. induction guesses as [|g guesses IH]; intros m n Hm Hn Hg Hw; [constructor|]. cbn [attempts].
  inversion Hg as [|? ? Hg1 Hg2]; subst. rewrite (attempt clock m n g) by done.
  destruct (Z.leb_spec (maxRetries ca) n) as [Hmax|Hmax].
  - assert (Z.to_nat (maxRetries ca - n) = 0%nat) as E by lia. specialize (IH m n Hm Hn Hg2). rewrite E in IH. cbn in IH.
    destruct (attempts clock m guesses) as [m2 rs]. constructor; [done|]. apply IH. constructor.
  - assert (Z.to_nat (maxRetries ca - n) = S (Z.to_nat (maxRetries ca - (n + 1)))) as E by lia. rewrite E in Hw. cbn [take] in Hw.
    inversion Hw as [|? ? Hw1 Hw2]; subst. destruct (String.eqb_spec code g) as [->|_]; [done|].
    specialize (IH (<[key_of cred := entry code (n + 1) user]> m) (n + 1)).
    destruct (attempts clock _ guesses) as [m2 rs]. constructor; [done|]. apply IH; try done; [by rewrite lookup_insert_eq|lia].
Qed.
End Attempts.

(** ** Properties *)

Lemma code_text_no_colon n code : 0 <= code -> no_colon (pad n (Itoa code)) = true.
Proof.
  intros H. apply digits_no_colon. unfold pad. rewrite all_chars_append, Itoa_digits by done.
  assert (forall k, all_chars digit_char (string_of_list_ascii (repeat "0"%char k)) = true) as ->; [|done]. induction k as [|k IH]; [done|]. cbn. exact IH.
Qed.

(** A code that was made for a user and a credential, tried with that credential, gives the user at no level and for no login, once: it is
    taken out, and the same code then fails. *)
Theorem code_roundtrip ca created now code rec m m1 resp expires now' :
  eval now (expire ca now created m) (GenSecret ca code rec) = (m1, inl (resp, expires)) ->
  0 <= code -> (rec.(ar_Uid) < 2 ^ 64)%N -> 0 < ca.(maxRetries) ->
  let secret := resp ++ ":" ++ rec.(ar_Credential) in
  let m2 := delete (key_of rec.(ar_Credential)) m1 in
  eval now' m1 (Authenticate ca secret) = (m2, inl (mkAuthRec rec.(ar_Uid) LevelNone ca.(lifetime) FeatureNoLogin None StateUndefined rec.(ar_Credential))) /\
  eval now' m2 (Authenticate ca secret) = (m2, inr (StoreErr ErrFailed)).
Proof.
  intros E Hcode Hu Hr. cbv zeta. unfold GenSecret in E. destruct (_ <? 0); [done|]. cbn [eval] in E. unfold PCacheUpsert, key_of in E.
  rewrite sanitized in E. fold (key_of (ar_Credential rec)) in E. destruct (expire ca now created m !! _); [done|]. cbn [eval] in E. injection E as <- <- _.
  pose proof (code_text_no_colon ca.(codeLength) code Hcode) as Hc. split.
  - fold (secret_of (ar_Credential rec) (pad (codeLength ca) (Itoa code))).
    rewrite (attempt ca _ (pad (codeLength ca) (Itoa code)) (UidString (ar_Uid rec)) Hc (uid_no_colon _) now' _ 0);
      [|by rewrite lookup_insert_eq|done|done].
    destruct (Z.leb_spec (maxRetries ca) 0); [lia|]. rewrite String.eqb_refl. unfold record_of. by rewrite ParseUid_String.
  - unfold Authenticate. rewrite split_secret by done. cbn [eval]. unfold PCacheGet. by rewrite lookup_delete_eq.
Qed.

(** C20: However many guesses are made one after the other at a code, only the first of them count, as many as there are retries left: if
    these are wrong every guess fails, the right one too. *)
Theorem guesses_bounded ca cred code user clock m n guesses :
  no_colon code = true -> no_colon user = true ->
  m !! key_of cred = Some (entry code n user) -> 0 <= n ->
  Forall (fun g => no_colon g = true) guesses -> Forall (fun g => g <> code) (take (Z.to_nat (ca.(maxRetries) - n)) guesses) ->
  Forall (fun r => r = inr (StoreErr ErrFailed)) (attempts ca cred clock m guesses).2.
Proof. intros Hc Hu Hm Hn. exact (attempts_fail ca cred code user Hc Hu clock m n guesses Hm Hn). Qed.

(** The time does not matter to an attempt: a code is good for longer than it is told to live, until the next one is made. *)
Lemma attempt_any_time ca secret clock clock' m : eval clock m (Authenticate ca secret) = eval clock' m (Authenticate ca secret).
Proof.
  unfold Authenticate. destruct (SplitN _ _ _) as [|? [|? [|? ?]]]; try done. cbn [eval]. destruct (PCacheGet _ m) as [v|e]; [|by destruct e as [[]|]].
  destruct (Split _ _) as [|? [|? [|? [|? ?]]]]; try done. destruct (Atoi _); [|done]. destruct (_ <=? _); [done|].
  destruct (negb _); [cbn [eval]; by destruct (PCacheUpsert _ _ _ _)|done].
Qed.

(** ** Attempts at the same time *)

Definition one_try : authenticator := mkAuthenticator 6 (600 * second) 1.
Definition sent_code : gmap string string := {[key_of "email:a@example.com" := entry "123456" 0 (UidString 7)]}.
Definition try_code (guess : string) : Prog string (AuthRec + GoError) := Authenticate one_try (guess ++ ":email:a@example.com").

(** With one retry allowed, five attempts that read before any of them writes are all compared, and the right one wins. *)
Lemma concurrent_guesses_escape_the_bound :
  let s := run_schedule ([(0%nat, Fine); (1%nat, Fine); (2%nat, Fine); (3%nat, Fine); (4%nat, Fine); (0%nat, Fine); (1%nat, Fine); (2%nat, Fine); (3%nat, Fine); (4%nat, Fine)])
             (mkSystem 0 sent_code (map try_code ["000000"; "000001"; "000002"; "000003"; "123456"])) in
  s.(clients) !! 4%nat = Some (Done (inl (record_of one_try (UidString 7) "email:a@example.com"))) /\
  (attempts one_try "email:a@example.com" 0 sent_code ["000000"; "000001"; "000002"; "000003"; "123456"]).2 = repeat (inr (StoreErr ErrFailed)) 5.
Proof. by vm_compute. Qed.

(** A wrong guess that writes after the right one was taken out puts the code back, to be used again. *)
Lemma concurrent_guess_brings_a_code_back :
  let s := run_schedule ([(0%nat, Fine); (1%nat, Fine); (1%nat, Fine); (0%nat, Fine)])
             (mkSystem 0 sent_code (map try_code ["000000"; "123456"])) in
  s.(clients) !! 1%nat = Some (Done (inl (record_of one_try (UidString 7) "email:a@example.com"))) /\
  s.(cache) = {[key_of "email:a@example.com" := entry "123456" 1 (UidString 7)]}.
Proof. by vm_compute. Qed.

Definition asked : AuthRec := rec_of 7 LevelAuth 0 FeatureNoLogin None "email:a@example.com".
Lemma code_roundtrip_witness :
  exists m1 resp expires,
    eval 1000 (expire one_try 1000 ∅ ∅) (GenSecret one_try 4711 asked) = (m1, inl (resp, expires)) /\ resp = "004711" /\
    (eval 2000 m1 (Authenticate one_try (resp ++ ":" ++ asked.(ar_Credential)))).2 =
      inl (mkAuthRec 7 LevelNone (600 * second) FeatureNoLogin None StateUndefined "email:a@example.com").
Proof.
  destruct (eval 1000 (expire one_try 1000 ∅ ∅) (GenSecret one_try 4711 asked)) as [m1 [[resp e]|err]] eqn:E; [|by vm_compute in E].
  exists m1, resp, e. split; [done|]. split; [vm_compute in E; by injection E as _ <- _|].
  destruct (code_roundtrip one_try ∅ 1000 4711 asked ∅ m1 resp e 2000 E) as [H _]; [done|by vm_compute|done|]. by rewrite H.
Defined.

Lemma guesses_bounded_witness :
  Forall (fun r => r = inr (StoreErr ErrFailed)) (attempts one_try "email:a@example.com" 0 sent_code ["000000"; "123456"]).2.
Proof.
  apply (guesses_bounded one_try "email:a@example.com" "123456" (UidString 7) 0 sent_code 0);
    [done|by vm_compute|by vm_compute|done|by repeat constructor|by repeat constructor].
Defined.
End Code.
