(* ===== verification/AuthBasic.v ===== *)
(** * AuthBasic: logins with passwords

    server/auth/basic/auth_basic.go over the table of authentication records: store_users.go and the queries of
    server/db/mysql/users.go, whose columns and unique indexes schema.go declares (in the strict mode of SQL, a text that is too long for
    its column is an error; texts are equal when their bytes are).  bcrypt, the Unicode classes and [strings.ToLower] are parameters;
    times are nanoseconds, 0 is the zero time. *)

From Stdlib Require Import NArith ZArith Lia List Ascii String Bool.
From stdpp Require Import base tactics numbers list strings gmap sets.
From S2P Require Import Prelude Uid StoreTypes Messages Utils SubStore TopicStore Topic ClientBase AuthToken AuthCode.
Import Objects Ranges.
Import Topic.

#[local] Open Scope string_scope.
#[local] Open Scope Z_scope.

Module Basic.

(** ** The table auth *)

Record AuthRow := mkRow { r_user : Uid; r_scheme : string; r_lvl : Z; r_secret : string; r_expires : Z }.
#[export] Instance AuthRow_eq_dec : EqDecision AuthRow.
Proof. solve_decision. Defined.
(** By the column uname, which has a unique index. *)
Abbreviation Table := (gmap string AuthRow) (only parsing).

(** The width of the column uname. *)
Definition uname_width : nat := 32.
Definition too_long (uname : string) : bool := (uname_width <? List.length (runes uname))%nat.

(** The row of the other unique index. *)
Definition is_row (uid : Uid) (scheme : string) (kv : string * AuthRow) : bool :=
  (kv.2.(r_user) =? uid)%N && String.eqb kv.2.(r_scheme) scheme.
Definition row_of (uid : Uid) (scheme : string) (t : Table) : option (string * AuthRow) := List.find (is_row uid scheme) (map_to_list t).

Definition AuthAddRecord (uid : Uid) (scheme unique : string) (lvl : Z) (secret : string) (expires : Z) (t : Table) : Table * option GoError :=
  if too_long unique then (t, Some (TextErr "Data too long for column 'uname'"))
  else if bool_decide (is_Some (t !! unique)) || bool_decide (is_Some (row_of uid scheme t)) then (t, Some (StoreErr ErrDuplicate))
  else (<[unique := mkRow uid scheme lvl secret expires]> t, None).

(** An error of the database other than a duplicate leaves no result to ask for the number of rows: the panic is [None].  A row that is
    written as it was does not count as one. *)
Definition AuthUpdRecord (uid : Uid) (scheme unique : string) (lvl : Z) (secret : string) (expires : Z) (t : Table)
    : Table * option (option GoError) :=
  match row_of uid scheme t with
  | None => (t, Some (Some (StoreErr ErrNotFound)))
  | Some (uname, r) =>
      if too_long unique then (t, None)
      else if negb (String.eqb unique "") && negb (String.eqb unique uname) && bool_decide (is_Some (t !! unique))
      then (t, Some (Some (StoreErr ErrDuplicate)))
      else
        let uname' := if String.eqb unique "" then uname else unique in
        let r' := mkRow uid scheme lvl (if String.eqb secret "" then r.(r_secret) else secret) (if expires =? 0 then r.(r_expires) else expires) in
        if bool_decide (uname' = uname /\ r' = r) then (t, Some (Some (StoreErr ErrNotFound)))
        else (<[uname' := r']> (delete uname t), Some None)
  end.

Definition AuthDelScheme (uid : Uid) (scheme : string) (t : Table) : Table := filter (fun kv => is_row uid scheme kv = false) t.

(** ** store.Users *)

Definition unique_of (scheme login : string) : string := scheme ++ ":" ++ login.

(** The login, the level, the secret and when it expires. *)
Definition GetAuthRecord (uid : Uid) (scheme : string) (t : Table) : (string * Z * string * Z) + GoError :=
  match row_of uid scheme t with
  | None => inr (StoreErr ErrNotFound)
  | Some (uname, r) =>
      match Split ":" uname with
      | _ :: login :: _ => inl (login, r.(r_lvl), r.(r_secret), r.(r_expires))
      | _ => inr (StoreErr ErrInternal)
      end
  end.

(** No user for a login that is not there. *)
Definition GetAuthUniqueRecord (scheme login : string) (t : Table) : Uid * Z * string * Z :=
  match t !! unique_of scheme login with
  | Some r => (r.(r_user), r.(r_lvl), r.(r_secret), r.(r_expires))
  | None => (0%N, 0, "", 0)
  end.

(** ** The authenticator *)

Record authenticator := mkAuthenticator { name : string; addToTags : bool; minPasswordLength : nat; minLoginLength : nat }.
Definition defaultMaxLoginLength : nat := 32.

Section Basic.
Context (IsLetter IsNumber : N -> bool) (ToLowerFull : string -> string).
Context (bcrypt_hash : string -> string + GoError) (bcrypt_check : string -> string -> bool).

(** The pattern of a login: letters, numbers, dots and underscores, at least two, the first and the last a letter or a number. *)
Definition letter_or_number (r : N) : bool := IsLetter r || IsNumber r.
Definition inner_rune (r : N) : bool := (r =? 95)%N || (r =? 46)%N || letter_or_number r.
Definition loginPattern (rs : list N) : bool :=
  match rs with
  | r :: (_ :: _) as tail => letter_or_number r && forallb inner_rune (removelast tail) && letter_or_number (List.last tail 0%N)
  | _ => false
  end.

Definition checkLoginPolicy (a : authenticator) (uname : string) : bool :=
  let rs := runes uname in
  negb (List.length rs <? a.(minLoginLength))%nat && negb (defaultMaxLoginLength <? List.length rs)%nat && loginPattern rs.
Definition checkPasswordPolicy (a : authenticator) (password : string) : bool := negb (List.length (runes password) <? a.(minPasswordLength))%nat.

Definition parseSecret (secret : string) : option (string * string) :=
  match Utils.Cut ":" secret with (login, Some password) => Some (ToLowerFull login, password) | (_, None) => None end.

Definition with_basic (rec : AuthRec) (lvl : Z) (tags : option (list string)) : AuthRec :=
  mkAuthRec rec.(ar_Uid) lvl rec.(ar_Lifetime) rec.(ar_Features) tags rec.(ar_State) rec.(ar_Credential).
Definition tags_of (rec : AuthRec) : list string := default [] rec.(ar_Tags).

Definition AddRecord (a : authenticator) (now : Z) (rec : AuthRec) (secret : string) (t : Table) : Table * (AuthRec + GoError) :=
  match parseSecret secret with
  | None => (t, inr (StoreErr ErrMalformed))
  | Some (uname, password) =>
      if negb (checkLoginPolicy a uname) || negb (checkPasswordPolicy a password) then (t, inr (StoreErr ErrPolicy))
      else match bcrypt_hash password with
           | inr e => (t, inr e)
           | inl passhash =>
               let expires := if 0 <? rec.(ar_Lifetime) then round_ms (now + rec.(ar_Lifetime)) else 0 in
               let lvl := if rec.(ar_AuthLevel) =? LevelNone then LevelAuth else rec.(ar_AuthLevel) in
               match AuthAddRecord rec.(ar_Uid) a.(name) (unique_of a.(name) uname) lvl passhash expires t with
               | (t', Some e) => (t', inr e)
               | (t', None) => (t', inl (with_basic rec lvl (if a.(addToTags) then Some (tags_of rec ++ [unique_of a.(name) uname])%list else rec.(ar_Tags))))
               end
           end
  end.

(** The loop that takes a tag out: the last one takes its place. *)
Fixpoint replace_first (tag last_tag : string) (tags : list string) : list string :=
  match tags with
  | [] => []
  | x :: tags' => if String.eqb x tag then last_tag :: tags' else x :: replace_first tag last_tag tags'
  end.
Definition remove_tag (tag : string) (tags : list string) : list string :=
  if existsb (String.eqb tag) tags then removelast (replace_first tag (List.last tags "") tags) else tags.

(** The login the record is to have, or the error: the old one, or a free one. *)
Definition new_login (a : authenticator) (uname login : string) (t : Table) : string + GoError :=
  if String.eqb uname "" || String.eqb uname login then inl login
  else if negb (checkLoginPolicy a uname) then inr (StoreErr ErrPolicy)
  else let '(uid, _, _, _) := GetAuthUniqueRecord a.(name) uname t in
       if IsZeroUid uid then inl uname else inr (StoreErr ErrDuplicate).

(** [None] is the panic of the update. *)
Definition UpdateRecord (a : authenticator) (now : Z) (rec : AuthRec) (secret : string) (t : Table) : Table * option (AuthRec + GoError) :=
  match parseSecret secret with
  | None => (t, Some (inr (StoreErr ErrMalformed)))
  | Some (uname, password) =>
      match GetAuthRecord rec.(ar_Uid) a.(name) t with
      | inr e => (t, Some (inr e))
      | inl (login, lvl, _, _) =>
          if String.eqb login "" then (t, Some (inr (StoreErr ErrNotFound)))
          else match new_login a uname login t with
               | inr e => (t, Some (inr e))
               | inl uname =>
                   if negb (checkPasswordPolicy a password) then (t, Some (inr (StoreErr ErrPolicy)))
                   else match bcrypt_hash password with
                        | inr _ => (t, Some (inr (StoreErr ErrInternal)))
                        | inl passhash =>
                            let expires := if 0 <? rec.(ar_Lifetime) then now + rec.(ar_Lifetime) else 0 in
                            match AuthUpdRecord rec.(ar_Uid) a.(name) (unique_of a.(name) uname) lvl passhash expires t with
                            | (t', None) => (t', None)
                            | (t', Some (Some e)) => (t', Some (inr e))
                            | (t', Some None) =>
                                (t', Some (inl (with_basic rec rec.(ar_AuthLevel)
                                  (Some (remove_tag (unique_of a.(name) login) (tags_of rec) ++ [unique_of a.(name) uname])%list))))
                            end
                        end
               end
      end
  end.

Definition Authenticate (a : authenticator) (now : Z) (secret : string) (t : Table) : AuthRec + GoError :=
  match parseSecret secret with
  | None => inr (StoreErr ErrMalformed)
  | Some (uname, password) =>
      let '(uid, lvl, passhash, expires) := GetAuthUniqueRecord a.(name) uname t in
      if IsZeroUid uid then inr (StoreErr ErrFailed)
      else if negb (expires =? 0) && (expires <? now) then inr (StoreErr ErrExpired)
      else if negb (bcrypt_check passhash password) then inr (StoreErr ErrFailed)
      else inl (mkAuthRec uid lvl (if expires =? 0 then 0 else expires - now) 0 None StateUndefined "")
  end.

Definition AsTag (a : authenticator) (token : string) : string :=
  if negb a.(addToTags) || negb (checkLoginPolicy a token) then "" else unique_of a.(name) token.

Definition IsUnique (a : authenticator) (secret : string) (t : Table) : bool * option GoError :=
  match parseSecret secret with
  | None => (false, Some (StoreErr ErrMalformed))
  | Some (uname, _) =>
      if negb (checkLoginPolicy a uname) then (false, Some (StoreErr ErrPolicy))
      else let '(uid, _, _, _) := GetAuthUniqueRecord a.(name) uname t in
           if IsZeroUid uid then (true, None) else (false, Some (StoreErr ErrDuplicate))
  end.

Definition DelRecords (a : authenticator) (uid : Uid) (t : Table) : Table := AuthDelScheme uid a.(name) t.
Definition RestrictedTags (a : authenticator) : list string := if a.(addToTags) then [a.(name)] else [].
Definition GetResetParams (a : authenticator) (uid : Uid) (t : Table) : string + GoError :=
  match GetAuthRecord uid a.(name) t with
  | inr e => inr e
  | inl (login, _, _, _) => if String.eqb login "" then inr (StoreErr ErrNotFound) else inl login
  end.

(** ** Rows *)

Lemma row_of_some uid scheme t uname r : row_of uid scheme t = Some (uname, r) -> t !! uname = Some r /\ r.(r_user) = uid /\ r.(r_scheme) = scheme.
Proof using.
  intros H. apply find_some in H as [Hin H]. unfold is_row in H. cbn [snd] in H. to_prop. split; [|done].
  apply elem_of_map_to_list. by apply list_elem_of_In.
Qed.
Lemma row_of_none uid scheme t uname r : row_of uid scheme t = None -> t !! uname = Some r -> r.(r_user) = uid -> r.(r_scheme) = scheme -> False.
Proof using.
  intros H Ht Hu Hs. apply elem_of_map_to_list, list_elem_of_In in Ht. apply (find_none _ _ H) in Ht. unfold is_row in Ht. cbn [snd] in Ht.
  rewrite Hu, Hs, N.eqb_refl, String.eqb_refl in Ht. done.
Qed.

(** What the queries do to the table. *)
Inductive changed (uid : Uid) (scheme : string) (t : Table) : Table -> Prop :=
| Same : changed uid scheme t t
| Added uname r :
    t !! uname = None -> row_of uid scheme t = None -> too_long uname = false -> r.(r_user) = uid -> r.(r_scheme) = scheme ->
    changed uid scheme t (<[uname := r]> t)
| Moved old r0 uname r :
    row_of uid scheme t = Some (old, r0) -> uname = old \/ t !! uname = None -> too_long uname = false -> r.(r_user) = uid -> r.(r_scheme) = scheme ->
    changed uid scheme t (<[uname := r]> (delete old t)).

(** No user has two logins, and the logins keep to the policy. *)
Definition one_login (t : Table) : Prop := forall u1 u2 r1 r2,
  t !! u1 = Some r1 -> t !! u2 = Some r2 -> r1.(r_user) = r2.(r_user) -> r1.(r_scheme) = r2.(r_scheme) -> u1 = u2.

Lemma changed_one_login uid scheme t t' : changed uid scheme t t' -> one_login t -> one_login t'.
Proof using.
  intros [|uname r Hf Hn _ Hu Hs|old r0 uname r Hr Hf _ Hu Hs] Hok; [done| |]; intros u1 u2 r1 r2.
  - destruct (decide (u1 = uname)) as [->|H1], (decide (u2 = uname)) as [->|H2]; [done| | |].
    + rewrite lookup_insert_eq, lookup_insert_ne by done. intros [= <-] H E1 E2. exfalso. eapply row_of_none; [exact Hn|exact H|congruence|congruence].
    + rewrite lookup_insert_eq, lookup_insert_ne by done. intros H [= <-] E1 E2. exfalso. eapply row_of_none; [exact Hn|exact H|congruence|congruence].
    + rewrite !lookup_insert_ne by done. apply Hok.
  - apply row_of_some in Hr as (Hold & Hu0 & Hs0).
    assert (forall u r2, u <> uname -> (<[uname:=r]> (delete old t)) !! u = Some r2 -> t !! u = Some r2 /\ u <> old) as Hlook.
    { intros u r3 Hne. rewrite lookup_insert_ne by done. by intros [H1 H2]%lookup_delete_Some. }
    assert (forall u r2, u <> uname -> (<[uname:=r]> (delete old t)) !! u = Some r2 -> r2.(r_user) = uid -> r2.(r_scheme) = scheme -> False) as Hno.
    { intros u r3 Hne Hl E1 E2. destruct (Hlook _ _ Hne Hl) as [H1 H2]. apply H2. eapply Hok; [exact H1|exact Hold|congruence|congruence]. }
    destruct (decide (u1 = uname)) as [->|H1], (decide (u2 = uname)) as [->|H2]; [done| | |].
    + rewrite lookup_insert_eq. intros [= <-] H E1 E2. exfalso. eapply Hno; [exact H2|exact H|congruence|congruence].
    + rewrite (lookup_insert_eq _ uname). intros H [= <-] E1 E2. exfalso. eapply Hno; [exact H1|exact H|congruence|congruence].
    + intros Hl1 Hl2. destruct (Hlook _ _ H1 Hl1), (Hlook _ _ H2 Hl2). by apply Hok.
Qed.

(** The rows of others stay as they are. *)
Definition other_rows (uid : Uid) (scheme : string) (t : Table) : Table := filter (fun kv => is_row uid scheme kv = false) t.

Lemma is_row_true uid scheme uname r : r.(r_user) = uid -> r.(r_scheme) = scheme -> is_row uid scheme (uname, r) = true.
Proof using. intros <- <-. unfold is_row. cbn. by rewrite N.eqb_refl, String.eqb_refl. Qed.

Lemma changed_others uid scheme t t' : changed uid scheme t t' -> one_login t -> other_rows uid scheme t' = other_rows uid scheme t.
Proof using.
  unfold other_rows. intros [|uname r Hf Hn _ Hu Hs|old r0 uname r Hr Hf _ Hu Hs] Hok; [done| |].
  - rewrite map_filter_insert_False by (rewrite is_row_true by done; done). by rewrite delete_id.
  - apply row_of_some in Hr as (Hold & Hu0 & Hs0).
    rewrite map_filter_insert_False by (rewrite is_row_true by done; done).
    assert (forall u : string, u = old \/ t !! u = None -> filter (fun kv => is_row uid scheme kv = false) (delete u t) = filter (fun kv => is_row uid scheme kv = false) t) as Hd.
    { intros u [->|H]; [|by rewrite delete_id]. apply map_filter_delete_not. intros y Hy. rewrite Hold in Hy. injection Hy as <-. by rewrite is_row_true. }
    rewrite map_filter_delete_not; [by apply Hd; left|]. intros y Hy. apply lookup_delete_Some in Hy as [Hne Hy].
    destruct Hf as [->|Hf]; [done|congruence].
Qed.

(** ** What the operations do to the table *)

Lemma add_changed a now rec secret t :
  changed rec.(ar_Uid) a.(name) t (AddRecord a now rec secret t).1.
Proof using.
  unfold AddRecord. destruct (parseSecret secret) as [[uname password]|]; [|constructor]. destruct (_ || _); [constructor|].
  destruct (bcrypt_hash password) as [h|]; [|constructor]. unfold AuthAddRecord.
  destruct (too_long _) eqn:El; [constructor|]. destruct (_ || _) eqn:Ed; [constructor|]. apply orb_false_iff in Ed as [E1 E2].
  apply bool_decide_eq_false in E1, E2. cbn [fst]. constructor; [|by apply eq_None_not_Some|done..]. by apply eq_None_not_Some.
Qed.

Lemma update_changed a now rec secret t : changed rec.(ar_Uid) a.(name) t (UpdateRecord a now rec secret t).1.
Proof using.
  unfold UpdateRecord. destruct (parseSecret secret) as [[uname password]|]; [|constructor].
  destruct (GetAuthRecord _ _ t) as [[[[login lvl] old] exp]|]; [|constructor]. destruct (String.eqb login ""); [constructor|].
  destruct (new_login a uname login t) as [uname'|]; [|constructor]. destruct (negb (checkPasswordPolicy a password)); [constructor|].
  destruct (bcrypt_hash password) as [h|]; [|constructor]. unfold AuthUpdRecord.
  destruct (row_of _ _ t) as [[u r]|] eqn:Er; [|constructor]. destruct (too_long _) eqn:El; [constructor|].
  assert (String.eqb (unique_of (name a) uname') "" = false) as Hne by (unfold unique_of; by destruct (name a)). rewrite Hne.
  destruct (String.eqb_spec (unique_of (name a) uname') u) as [Hu|Hu]; cbn [negb andb].
  - destruct (bool_decide _); cbn [fst]; [constructor|]. eapply Moved; [exact Er|by left|done..].
  - destruct (bool_decide (is_Some _)) eqn:Ed; [constructor|]. destruct (bool_decide (_ /\ _)); cbn [fst]; [constructor|]. eapply Moved; [exact Er| |done..]. right.
    apply bool_decide_eq_false in Ed. by apply eq_None_not_Some.
Qed.

(** One operation on behalf of a user. *)
Inductive auth_step (a : authenticator) (uid : Uid) (t : Table) : Table -> Prop :=
| StepAdd now rec secret : rec.(ar_Uid) = uid -> auth_step a uid t (AddRecord a now rec secret t).1
| StepUpdate now rec secret : rec.(ar_Uid) = uid -> auth_step a uid t (UpdateRecord a now rec secret t).1
| StepDelete : auth_step a uid t (DelRecords a uid t).

Inductive auth_steps (a : authenticator) : list Uid -> Table -> Table -> Prop :=
| NoStep t : auth_steps a [] t t
| MoreSteps uid uids t t1 t2 : auth_step a uid t t1 -> auth_steps a uids t1 t2 -> auth_steps a (uid :: uids) t t2.

Lemma step_keeps a uid t t' : auth_step a uid t t' -> one_login t -> one_login t' /\ other_rows uid a.(name) t' = other_rows uid a.(name) t.
Proof using.
  intros Hs Hok. destruct Hs as [now rec secret <-|now rec secret <-|].
  - pose proof (add_changed a now rec secret t) as H. split; [by eapply changed_one_login|by apply changed_others].
  - pose proof (update_changed a now rec secret t) as H. split; [by eapply changed_one_login|by apply changed_others].
  - unfold DelRecords, AuthDelScheme, other_rows. split; [|by rewrite map_filter_filter_l by done].
    intros u1 u2 r1 r2 [H1 _]%map_lookup_filter_Some [H2 _]%map_lookup_filter_Some. by apply Hok.
Qed.

(** C21: Whatever accounts do to their logins, in any order, every user has at most one login of the scheme, a login is of one user, and the
    logins of the users who did nothing stay as they were, with their passwords. *)
Theorem logins_isolated a uids t t' :
  auth_steps a uids t t' -> one_login t ->
  one_login t' /\ forall uname r, r.(r_scheme) = a.(name) -> r.(r_user) ∉ uids -> (t' !! uname = Some r <-> t !! uname = Some r).
Proof using.
  induction 1 as [t|uid uids t t1 t2 Hs _ IH]; intros Hok; [done|]. destruct (step_keeps _ _ _ _ Hs Hok) as [Hok1 Ho].
  destruct (IH Hok1) as [Hok2 Hr]. split; [done|]. intros uname r Hsch Hu. apply not_elem_of_cons in Hu as [Hne Hu].
  rewrite (Hr uname r Hsch Hu). assert (is_row uid (name a) (uname, r) = false) as Hrow.
  { unfold is_row. cbn. destruct (N.eqb_spec (r_user r) uid) as [E|]; [done|done]. }
  assert (forall t : Table, other_rows uid (name a) t !! uname = Some r <-> t !! uname = Some r) as Hiff.
  { intros t0. unfold other_rows. rewrite map_lookup_filter_Some. split; [by intros [? _]|done]. }
  by rewrite <- (Hiff t1), Ho, Hiff.
Qed.

(** ** Logging in *)

Context (bcrypt_ok : forall password hash, bcrypt_hash password = inl hash -> bcrypt_check hash password = true).

(** An account that was given a login with a password logs in with them, as the user and at the level it was given (that of users, if
    none), until the login expires; the login is then taken, and a password that does not match fails. *)
Theorem login_works a now rec secret t t' rec' now' :
  AddRecord a now rec secret t = (t', inl rec') -> rec.(ar_Uid) <> 0%N ->
  let expires := if 0 <? rec.(ar_Lifetime) then round_ms (now + rec.(ar_Lifetime)) else 0 in
  Authenticate a now' secret t' =
    (if negb (expires =? 0) && (expires <? now') then inr (StoreErr ErrExpired)
     else inl (mkAuthRec rec.(ar_Uid) rec'.(ar_AuthLevel) (if expires =? 0 then 0 else expires - now') 0 None StateUndefined "")) /\
  rec'.(ar_AuthLevel) = (if rec.(ar_AuthLevel) =? LevelNone then LevelAuth else rec.(ar_AuthLevel)) /\
  IsUnique a secret t' = (false, Some (StoreErr ErrDuplicate)) /\
  forall secret2 login password password2,
    parseSecret secret = Some (login, password) -> parseSecret secret2 = Some (login, password2) ->
    (forall hash, bcrypt_hash password = inl hash -> bcrypt_check hash password2 = false) ->
    forall r, Authenticate a now' secret2 t' <> inl r.
Proof using bcrypt_ok.
  intros E Hu. cbv zeta. unfold AddRecord in E. destruct (parseSecret secret) as [[uname password]|] eqn:Ep; [|done].
  destruct (negb (checkLoginPolicy a uname)) eqn:El; [done|]. destruct (negb (checkPasswordPolicy a password)); [done|]. cbn [orb] in E.
  destruct (bcrypt_hash password) as [h|] eqn:Eh; [|done]. unfold AuthAddRecord in E. destruct (too_long _); [done|].
  destruct (_ || _); [done|]. injection E as <- <-.
  assert (forall lvl exp, GetAuthUniqueRecord (name a) uname (<[unique_of (name a) uname := mkRow (ar_Uid rec) (name a) lvl h exp]> t) = (ar_Uid rec, lvl, h, exp)) as Hg.
  { intros lvl exp. unfold GetAuthUniqueRecord. by rewrite lookup_insert_eq. }
  assert (IsZeroUid (ar_Uid rec) = false) as Hz by (unfold IsZeroUid; by apply N.eqb_neq). split; [|split; [done|split]].
  - unfold Authenticate. rewrite Ep, Hg, Hz, (bcrypt_ok _ _ Eh). done.
  - unfold IsUnique. by rewrite Ep, El, Hg, Hz.
  - intros secret2 login pw pw2 [= <- <-] E2 Hw r. unfold Authenticate. rewrite E2, Hg, Hz, (Hw h Eh). by destruct (_ && _).
Qed.
End Basic.

(** ** Runs *)

Definition ascii_letter (r : N) : bool := ((97 <=? r) && (r <=? 122))%N.
Definition plain_hash (password : string) : string + GoError := inl ("#" ++ password).
Definition plain_check (hash password : string) : bool := String.eqb hash ("#" ++ password).
Definition sample_auth : authenticator := mkAuthenticator "basic" false 3 2.
Definition sample_add := AddRecord ascii_letter Utils.Versions.asciiDigit ToLower plain_hash sample_auth 1000.
Definition sample_update := UpdateRecord ascii_letter Utils.Versions.asciiDigit ToLower plain_hash sample_auth 1000.
Definition alice : AuthRec := rec_of 1 LevelNone 0 0 None "".

Lemma login_works_witness :
  exists t' rec', sample_add alice "Alice:secret" ∅ = (t', inl rec') /\
    Authenticate ToLower plain_check sample_auth 2000 "Alice:secret" t' = inl (mkAuthRec 1 LevelAuth 0 0 None StateUndefined "").
Proof.
  destruct (sample_add alice "Alice:secret" ∅) as [t' [rec'|e]] eqn:E; [|by vm_compute in E]. exists t', rec'. split; [done|].
  assert (forall p h, plain_hash p = inl h -> plain_check h p = true) as Hlaw.
  { intros p h Hh. unfold plain_hash in Hh. unfold plain_check. apply (f_equal (fun r => match r with inl x => x | _ => "" end)) in Hh. rewrite <- Hh. apply String.eqb_refl. }
  destruct (login_works ascii_letter Utils.Versions.asciiDigit ToLower plain_hash plain_check Hlaw sample_auth 1000 alice "Alice:secret" ∅ t' rec' 2000 E) as (H & Hl & _); [done|].
  rewrite H, Hl. by vm_compute.
Defined.

Definition alice_bob : Table := (sample_add (rec_of 2 LevelNone 0 0 None "") "bob:password" (sample_add alice "alice:secret" ∅).1).1.
Lemma alice_bob_one_login : one_login alice_bob.
Proof.
  assert (one_login ∅) as H0 by (intros ? ? ? ? H; by rewrite lookup_empty in H).
  eapply changed_one_login; [apply add_changed|]. eapply changed_one_login; [apply add_changed|exact H0].
Qed.
Lemma logins_isolated_witness :
  let t := (sample_update alice "anna:other" alice_bob).1 in
  one_login t /\ (t !! "basic:bob" = Some (mkRow 2 "basic" LevelAuth "#password" 0) <-> alice_bob !! "basic:bob" = Some (mkRow 2 "basic" LevelAuth "#password" 0)) /\
  t !! "basic:alice" = None /\ is_Some (t !! "basic:anna").
Proof.
  intros t. destruct (logins_isolated ascii_letter Utils.Versions.asciiDigit ToLower plain_hash sample_auth [1%N] alice_bob t) as [H1 H2].
  - eapply MoreSteps; [by eapply (StepUpdate _ _ _ _ _ _ _ 1000 alice "anna:other")|constructor].
  - exact alice_bob_one_login.
  - split; [exact H1|]. split; [apply H2; [reflexivity|apply not_elem_of_cons; split; [discriminate|apply not_elem_of_nil]]|]. split; [by vm_compute|]. exists (mkRow 1 "basic" LevelAuth "#other" 0). by vm_compute.
Defined.

(** A login of 27 characters keeps to the policy and is reported free, but with the name of the scheme it is too long for its column. *)
Definition long_login : string := "abcdefghijklmnopqrstuvwxyza".
Lemma long_login_cannot_be_stored :
  IsUnique ascii_letter Utils.Versions.asciiDigit ToLower sample_auth (long_login ++ ":secret") ∅ = (true, None) /\
  sample_add alice (long_login ++ ":secret") ∅ = (∅, inr (TextErr "Data too long for column 'uname'")).
Proof. by vm_compute. Qed.

(** A user who changes to such a login takes the program down. *)
Lemma long_login_update_panics : (sample_update alice (long_login ++ ":secret") alice_bob).2 = None.
Proof. by vm_compute. Qed.

(** Logins are not to be tags, but a change of the password makes the login one. *)
Lemma update_makes_a_tag :
  sample_auth.(addToTags) = false /\
  (match (sample_add alice "alice:secret" ∅).2 with inl r => r.(ar_Tags) | inr _ => None end) = None /\
  (match (sample_update alice ":other" alice_bob).2 with Some (inl r) => r.(ar_Tags) | _ => None end) = Some ["basic:alice"].
Proof. by vm_compute. Qed.
End Basic.
