(* ===== verification/ClientRuns.v ===== *)
(** * ClientRuns: a sample program around sessions, and what happens in it

    [Accounts] for a small store with the tokens of AuthToken, two users with a password and one required credential, e-mail.  The witnesses
    of ClientProps and ClientDispatch run in it, and so do the cases that the header lists as surprises of sessions. *)

From Stdlib Require Import NArith ZArith Lia List Ascii String Bool.
From stdpp Require Import base tactics numbers list strings gmap sets relations.
From S2P Require Import Prelude AccessMode Uid StoreTypes Drafty Messages Utils SendQueue SubStore PubStore LoadStore TopicStore Topic TopicSub TopicInit InitProps InitRuns Hub.
From S2P Require Import ClientBase Accounts Client ClientRules ClientProps ClientDispatch AuthToken.
Import Objects Ranges.
Import Utils.Slices Utils.Tags Utils.Versions.
Import Topic.

#[local] Open Scope string_scope.
#[local] Open Scope Z_scope.

(** ** The program *)

Record Shop := mkShop { sm_users : gmap N StoredProfile; sm_devices : list (Uid * string); sm_writes : bool }.
Definition shop_now : Z := 1700000000 * second.
Definition shop_tokens : Token.authenticator := Token.mkAuthenticator (14 * 24 * 3600 * second) 1.

(** Alice has not validated her e-mail; Bob needs not. *)
Definition shop_authenticate (scheme secret addr : string) (st : Shop) : StoreResult Shop (AuthRec * option string) :=
  if String.eqb scheme "basic" then
    if String.eqb secret "alice:secret" then (st, inl (rec_of 1 LevelAuth 0 0 None "", None))
    else if String.eqb secret "bob:secret" then (st, inl (rec_of 2 LevelAuth 0 FeatureValidated None "", None))
    else if String.eqb secret "root:secret" then (st, inl (rec_of 3 LevelRoot 0 FeatureValidated None "", None))
    else (st, inr (StoreErr ErrFailed))
  else if String.eqb scheme "token" then
    match Token.Authenticate Token.weak_sign shop_tokens shop_now secret with
    | inl rec => if IsZeroUid rec.(ar_Uid) then (st, inr (StoreErr ErrFailed)) else (st, inl (rec, None))
    | inr e => (st, inr e)
    end
  else (st, inr (StoreErr ErrUnsupported)).

#[export] Instance shop_accounts : Accounts Shop := {|
  auth_known scheme _ := existsb (String.eqb scheme) ["basic"; "token"]; auth_names _ := ["basic"; "token"]; auth_initialized _ _ := true;
  authenticate := shop_authenticate; auth_unique _ _ _ _ := (true, None);
  auth_add _ rec _ _ st := (st, inl (mkAuthRec rec.(ar_Uid) LevelAuth 0 0 rec.(ar_Tags) StateOK ""));
  auth_update _ rec _ _ st := (st, inl rec); auth_delete _ _ st := (st, None);
  auth_secret _ rec st := (st, Token.GenSecret Token.weak_sign shop_tokens shop_now rec); auth_reset_params _ _ _ := None;
  validator_known m _ := String.eqb m "email"; validator_initialized _ _ := true; validator_precheck _ _ := None;
  validator_request _ _ _ _ st := (st, inr (StoreErr ErrDuplicate)); validator_check _ _ _ st := (st, inr (StoreErr ErrCredentials));
  validator_temp_scheme _ _ := inl "token"; validator_reset _ _ _ _ _ st := (st, None);
  user_get uid st := (st, inl (st.(sm_users) !! uid)); user_tags _ _ := None;
  user_create u _ _ st := (mkShop (<[9%N := u]> st.(sm_users)) st.(sm_devices) st.(sm_writes), inl 9%N);
  user_delete uid _ st := (mkShop (delete uid st.(sm_users)) st.(sm_devices) st.(sm_writes), None);
  user_set_state _ _ st := (st, None); user_set_tags _ tags _ st := (st, inl tags); user_credentials _ st := (st, inl []);
  user_by_credential _ _ st := (st, inl 1%N); user_topics _ st := (st, inl []); user_owned _ st := (st, inl []); topic_listed _ _ := true;
  device_update uid _ d st := (mkShop st.(sm_users) ((uid, d.(dv_DeviceId)) :: st.(sm_devices)) st.(sm_writes), None);
  device_delete uid dev st := (mkShop st.(sm_users) (List.filter (fun e => negb (String.eqb (snd e) dev)) st.(sm_devices)) st.(sm_writes), None);
  avatar_link _ _ st := st; allows_writes st := st.(sm_writes); new_topic_name st := (st, "grpNew"); queue_room _ st := (st, true);
  joins_answered names st := (st, names) |}.

#[export] Instance shop_globals : Globals := {|
  IsLetter r := ((97 <=? r) && (r <=? 122))%N; IsNumber := asciiDigit; IsDigit := asciiDigit; ToLowerFull := ToLower; json_object _ := None;
  typesModeCP2P := AccessMode.ModeCP2P; maxTagCount := 16; immutableTagNS := [];
  authValidators lvl := if lvl =? LevelAuth then ["email"] else []; validators := ["email"]; tag_validators := [];
  permanentAccounts := false; has_sessionStore := true; has_policy := false; build := "mysql:test"; maxMessageSize := 262144;
  maxSubscriberCount := 128; maxFileUploadSize := 8388608; validatorClientConfig := ANil; msgDeleteAge := 600; media_streaming := true;
  media_multipart := false; media_direct := None; agora := false; callEstablishmentTimeout := 30; servingAt := ":6060"; cluster_nodes := None;
  defaultCountryCode := "US"; lang_region _ := None |}.

Lemma shop_ok : AccountsOk shop_accounts.
Proof.
  split.
  - intros scheme secret addr st st' rec challenge. cbn. unfold shop_authenticate. destruct (String.eqb scheme "basic").
    + destruct (String.eqb secret "alice:secret"); [by intros [= _ <- _]|]. destruct (String.eqb secret "bob:secret"); [by intros [= _ <- _]|].
      by destruct (String.eqb secret "root:secret"); [intros [= _ <- _]|].
    + destruct (String.eqb scheme "token"); [|done]. destruct (Token.Authenticate _ _ _ _) as [r|e]; [|done].
      destruct (IsZeroUid _) eqn:Ez; [done|]. intros [= _ <- _]. by apply N.eqb_neq.
  - by intros user tags private st st' uid [= _ <-].
  - by intros scheme rec secret addr st st' rec' [= _ <-].
Qed.

Definition profile (state : Z) : StoredProfile := mkProfile state 0 0 ANil ANil ModeNone ModeNone.
Definition shop : Shop := mkShop {[1%N := profile StateOK; 2%N := profile StateOK; 3%N := profile StateOK]} [] true.

(** ** Messages and sessions *)

Definition empty_message : CliMsg := mkCliMsg None None None None None None None None None None None None.
Definition hi_message (device : string) : CliMsg := mkCliMsg (Some (mkCliHi "1" "0.33" "app" device "en" "ios" false)) None None None None None None None None None None None.
Definition login_message (scheme secret : string) : CliMsg := mkCliMsg None None (Some (mkCliLogin "2" scheme secret [])) None None None None None None None None None.
Definition resume_message (token : string) (topics : list string) : CliMsg :=
  mkCliMsg None None None (Some (mkCliResume "3" token (map (fun t => mkResumeTopic t 0 0 false) topics))) None None None None None None None None.
Definition join_message (topic : string) : CliMsg := sub_message (mkCliSub "4" topic None).
Definition note_message (topic what : string) : CliMsg := mkCliMsg None None None None None None None None None None (Some (mkCliNote "5" topic what 0 "" false)) None.

Definition start : CW Shop := mkCW (new_session WEBSOCK "sid1" false "10.0.0.1") shop [].
Definition after (plugins : list (Plugin Shop)) (messages : list CliMsg) : CW Shop :=
  fold_left (fun w m => (dispatch plugins dispatch_fuel m w).1) messages start.
Definition last_reply (w : CW Shop) : option MsgServerCtrl := match w.(c_sent) with CReply _ c :: _ => Some c | _ => None end.
Definition token_in (w : CW Shop) : string := match last_reply w with Some c => text_of c.(Params) "token" | None => "" end.
Definition user_of (w : CW Shop) : Uid * Z := (w.(c_sess).(cs_uid), w.(c_sess).(cs_authLvl)).

(** Frames are the names of messages here. *)
Definition frame_message (raw : string) : option CliMsg :=
  if String.eqb raw "hi" then Some (hi_message "") else if String.eqb raw "bob" then Some (login_message "basic" "bob:secret")
  else if String.eqb raw "me" then Some (join_message "me") else if String.eqb raw "peer" then Some (join_message (UserId 1)) else None.
Definition frame_wire (raw : string) : option (CliMsg * option string) := (fun m => (m, None)) <$> frame_message raw.
Abbreviation shop_step := (session_step [] frame_wire (fun _ => None) frame_message).

Definition frames (raws : list string) : CW Shop :=
  fold_left (fun w raw => (dispatchRaw [] frame_wire (fun _ => None) frame_message raw w).1) raws start.
Lemma frames_steps raws w :
  rtc shop_step w (fold_left (fun w raw => (dispatchRaw [] frame_wire (fun _ => None) frame_message raw w).1) raws w).
Proof. revert w. induction raws as [|raw raws IH]; intros w; [constructor|]. cbn [fold_left]. eapply rtc_l; [apply Frame|apply IH]. Qed.

(** ** Witnesses *)

Definition bob_joins : CW Shop := frames ["hi"; "bob"; "me"; "peer"].
Lemma session_speaks_for_its_user_witness :
  exists m, In (HubJoin m) bob_joins.(c_sent) /\ speaks m bob_joins.(c_sess) /\ m.(st_AsUser) = UserId 2 /\ m.(st_RcptTo) = P2PName 1 2.
Proof.
  assert (exists m, In (HubJoin m) bob_joins.(c_sent) /\ m.(st_AsUser) = UserId 2 /\ m.(st_RcptTo) = P2PName 1 2) as (m & Hin & Hm).
  { destruct bob_joins.(c_sent) as [|[] rest] eqn:E; vm_compute in E; try discriminate E. injection E as <- _.
    eexists. split; [by left|]. by vm_compute. }
  exists m. split; [exact Hin|]. split; [|exact Hm].
  apply (session_speaks_for_its_user (Laws := shop_ok) [] frame_wire (fun _ => None) frame_message WEBSOCK "sid1" false "10.0.0.1" shop bob_joins (HubJoin m));
    [apply frames_steps|exact Hin].
Defined.

Lemma session_identity_once_witness :
  evolves (frames ["hi"]).(c_sess) bob_joins.(c_sess) /\ user_of (frames ["hi"]) = (0%N, LevelNone) /\ user_of bob_joins = (2%N, LevelAuth).
Proof.
  split; [|by vm_compute].
  apply (session_identity_once (Laws := shop_ok) [] frame_wire (fun _ => None) frame_message (frames ["hi"]) bob_joins);
    [apply (frames_steps ["bob"; "me"; "peer"])|by intros _].
Defined.

Definition spoken (u : Uid) : Stamped := mkStamped empty_message "1" "" "" (UserId u) LevelAuth 0.
Lemma names_lead_home_witness :
  expandTopicName (spoken 1) "me" <> expandTopicName (spoken 2) "me" /\ expandTopicName (spoken 1) (UserId 2) = expandTopicName (spoken 2) (UserId 1).
Proof.
  destruct (names_lead_home (spoken 1) (spoken 2) 1 2) as (H1 & H2 & _); [by split|by split|]. split.
  - intros E. assert (1%N = 2%N) as C by (apply (H1 "me"); [by left|exact E]). discriminate C.
  - by apply H2.
Defined.

Lemma refused_requests_witness :
  dispatch_message (dispatch [] 1) (join_message "me") start = only_replies start "4" CliCtrl.ErrCommandOutOfSequence /\
  dispatch_message (dispatch [] 1) (join_message "me") (frames ["hi"]) = only_replies (frames ["hi"]) "4" (CliCtrl.ErrAuthRequired "me").
Proof.
  split.
  - destruct (refused_requests (dispatch [] 1) (join_message "me") start) as [_ H].
    destruct (H "" LevelNone eq_refl) as [_ H']. destruct (H' _ eq_refl) as (_ & H2 & _). by apply H2.
  - destruct (refused_requests (dispatch [] 1) (join_message "me") (frames ["hi"])) as [_ H].
    destruct (H "" LevelNone ltac:(by vm_compute)) as [_ H']. destruct (H' _ eq_refl) as (_ & _ & H3). apply H3; by vm_compute.
Defined.

(** ** Resuming *)

Definition bob_token : string := token_in (after [] [hi_message ""; login_message "basic" "bob:secret"]).
Definition resume_of (token : string) (topics : list string) : CliResume := mkCliResume "3" token (map (fun t => mkResumeTopic t 0 0 false) topics).
Definition resume_stamp (r : CliResume) : Stamped := mkStamped (mkCliMsg None None None (Some r) None None None None None None None None) "3" "" "" "" 0 0.
Definition bob_resumes : CW Shop * Res unit :=
  let r := resume_of bob_token ["me"; UserId 1] in resume (dispatch [] 1) r (resume_stamp r) (after [] [hi_message ""]).
Definition resumed_reply : MsgServerCtrl := default (mkCtrl 0 "" "" []) (last_reply bob_resumes.1).

Lemma pair_second {A B} (p : A * B) b : p.2 = b -> p = (p.1, b).
Proof. by destruct p; intros <-. Qed.

Lemma bob_resumes_fine :
  bob_resumes.2 = Ret tt /\ bob_resumes.1.(c_sent) = CReply "3" resumed_reply :: tl bob_resumes.1.(c_sent) /\ resumed_reply.(Text) = "resumed".
Proof. split_and!; by vm_compute. Qed.

Lemma resume_restores_witness :
  user_of bob_resumes.1 = (2%N, LevelAuth) /\ exists restored, In ("restoredTopics", AList (map AStr restored)) resumed_reply.(Params) /\
    sublist restored ["me"; UserId 1].
Proof.
  split; [by vm_compute|]. destruct bob_resumes_fine as (H1 & H2 & H3).
  pose proof (pair_second bob_resumes (Ret tt) H1) as E.
  destruct (resume_restores (dispatch [] 1) (resume_of bob_token ["me"; UserId 1]) (resume_stamp (resume_of bob_token ["me"; UserId 1]))
    (after [] [hi_message ""]) bob_resumes.1 resumed_reply (tl bob_resumes.1.(c_sent)) E H2 H3)
    as (_ & _ & _ & _ & _ & rec & w0 & answer & w1 & asked & w2 & restored & _ & _ & _ & Hin & Hsub & _).
  exists restored. split; [exact Hin|exact Hsub].
Defined.

(** A plugin that makes a {resume} of everything that is joined. *)
Definition resuming_plugin : Plugin Shop :=
  mkPlugin (Some (mkFilter plgSub plgTopicCatMask)) 0 "" (fun _ st => (st, PlgReplace (Some (resume_message bob_token ["me"])))).
Definition plugin_resumes (fuel : nat) : CW Shop * Res string :=
  dispatch [resuming_plugin] fuel (resume_message bob_token ["me"; "grpA"]) (after [resuming_plugin] [hi_message ""]).
Lemma dispatch_ends_witness : plugin_resumes 7 = plugin_resumes dispatch_fuel /\ (plugin_resumes dispatch_fuel).2 = Ret "".
Proof.
  split; [|by vm_compute]. apply (dispatch_ends (Laws := shop_ok) [resuming_plugin] 5).
Defined.

(** ** Surprises *)

(** Alice has to validate her e-mail: neither her password nor the token of that reply logs her in, but to resume with it does. *)
Lemma resume_needs_no_credentials :
  let asked := after [] [hi_message ""; login_message "basic" "alice:secret"] in
  let again := after [] [hi_message ""; login_message "token" (token_in asked)] in
  let resumed := after [] [hi_message ""; resume_message (token_in asked) ["me"]] in
  (option_map Code (last_reply asked), user_of asked) = (Some 300, (0%N, LevelNone)) /\
  (option_map Code (last_reply again), user_of again) = (Some 300, (0%N, LevelNone)) /\
  (option_map Text (last_reply resumed), user_of resumed) = (Some "resumed", (1%N, LevelAuth)).
Proof. by vm_compute. Qed.

(** A call in a topic whose name is of no kind takes the program down. *)
Lemma note_of_no_kind_panics :
  (dispatch [] dispatch_fuel (note_message "xyz" "call") (after [] [hi_message ""; login_message "basic" "bob:secret"])).2 = Panic "invalid topic type".
Proof. by vm_compute. Qed.

(** So does, before any login, the change of an account with a temporary scheme that is not there, after the reply that says so. *)
Definition acc_message (scheme : string) : CliMsg :=
  mkCliMsg None (Some (mkCliAcc "6" "" "" "" scheme "" "" "" false None None [])) None None None None None None None None None None.
Lemma unknown_temporary_scheme_panics :
  let r := dispatch [] dispatch_fuel (acc_message "none") (after [] [hi_message ""]) in
  r.2 = Panic "invalid memory address or nil pointer dereference" /\ last_reply r.1 = Some (CliCtrl.ErrAuthUnknownScheme "").
Proof. by vm_compute. Qed.

(** A plugin that drops what is published does not see a message that also says hello, and it is published. *)
Definition dropping_plugin : Plugin Shop := mkPlugin (Some (mkFilter plgPub plgTopicCatMask)) 0 "" (fun _ st => (st, PlgDrop)).
Definition publish_message (hi : option CliHi) : CliMsg :=
  mkCliMsg hi None None None None None (Some (mkCliPub "7" "sys" "" 0 0 "" None None (AStr "spam"))) None None None None None.
Definition published (w : CW Shop) : bool := existsb (fun e => match e with HubRouteCli _ => true | _ => false end) w.(c_sent).
Lemma two_parts_escape_the_plugin :
  let said := [hi_message ""; login_message "basic" "bob:secret"] in
  published (after [dropping_plugin] (said ++ [publish_message None])) = false /\
  published (after [dropping_plugin] (said ++ [publish_message (m_Hi (hi_message ""))])) = true.
Proof. by vm_compute. Qed.

(** A second {hi} without a device forgets the device of the session, which stays registered. *)
Lemma second_hello_forgets_the_device :
  let w := after [] [hi_message "phone"; login_message "basic" "bob:secret"; hi_message ""] in
  w.(c_sess).(cs_deviceID) = "" /\ w.(c_st).(sm_devices) = [(2%N, "phone")] /\ option_map Code (last_reply w) = Some 201.
Proof. by vm_compute. Qed.

(** A credential that the validator refuses is reported as changed. *)
Definition cred_message : CliMsg :=
  mkCliMsg None (Some (mkCliAcc "8" "" "" "" "" "" "" "" false None None [mkCred "email" "taken@example.com" "" ANil])) None None None None None None None None None None.
Lemma refused_credential_reported_as_changed :
  (validator_request 2 (mkCred "email" "taken@example.com" "" ANil) "" "" shop).2 = inr (StoreErr ErrDuplicate) /\
  (match (after [] [hi_message ""; login_message "basic" "bob:secret"; cred_message]).(c_sent) with
   | PluginAccount u plgActUpd :: CReply "8" c :: _ => Some (u, c.(Code))
   | _ => None
   end) = Some (2%N, 200).
Proof. by vm_compute. Qed.

(** ** Notes to self of another *)

(** Who names the notes of another user is led there, and while they have not been loaded again since they were made is given what their owner
    has, for good: the next load takes the intruder for the owner. *)
Definition notes := init_run "slfA" "slf" 1 None fresh_store.
Definition intruder :=
  thisUserSub ModeCP2P 100 0 (mkSession "x" 2 ProtoClient false None) (mkRequest LevelAuth "slfA" false "" "") 2 false "" ANil ""
    (mkWorld notes.1.(w_topic) notes.1.(w_store) []).
Lemma notes_taken_over :
  (forall m, expandTopicName m "slfA" = inl "slfA") /\ stored intruder.1.(w_store) "slfA" 2 = Some ("JRWDO", "JRWDO", ANil, 0) /\
  notes.1.(w_topic).(owner) = 1%N /\ (init_run "slfA" "slf" 1 None intruder.1.(w_store)).1.(w_topic).(owner) = 2%N.
Proof. split; [done|]. by vm_compute. Qed.
